(* ===== verification/_CoqProject ===== *)
-Q . S2P
Prelude.v
Bit.v
Bitmap.v
PagePool.v
PageTable.v
MemMap.v
MapProofs.v
VPage.v
MapAlloc.v
Isolate.v
ListC.v
ObjCache.v
CpuMsg.v
Locks.v
Vmm.v
State.v
Calls.v
Plic.v
Vplic.v
Ipc.v
Interrupts.v
Sbi.v
Traps.v
Confine.v
Dispatch.v
VmInit.v
VmMap.v
Boot.v
Partition.v
StringC.v
Printk.v
SbiFifo.v
SbiTlb.v
SbiShoot.v
SbiLive.v
SbiDomain.v
SbiDomInv.v
SbiPmp.v
SbiHsm.v
SbiStart.v
SbiFinalize.v
SbiTrap.v
SbiEmul.v
SbiCsr.v
SbiEcall.v
Gic.v
Arm.v
GicCpu.v
Vgic.v
VgicInv.v
VgicLr.v
VgicMove.v
VgicField.v
VgicEmul.v
VgicMaint.v
VgicSys.v
GicPower.v
VgicReach.v
VgicDemo.v
VgicProps.v
VgicQuiet.v
Psci.v
Aborts.v
ArmTraps.v
PsciRun.v
