(* ===== verification/Prelude.v ===== *)
(** * A verification library for the Bao hypervisor

    Bao is a static partitioning hypervisor: at boot it divides CPUs, memory,
    devices and interrupts between virtual machines (VMs) as a configuration
    says, and at run time it only handles the traps of the guests. The sources
    are under [src/bao-hypervisor/src]: [lib] (bits, bitmaps, lists, strings,
    formatted output), [core] (memory, objects, messages, VMs, communication,
    interrupts), [arch/riscv] (page tables, locks, PLIC, SBI, traps), the
    architecture this repository builds, and [arch/armv8], of which the interrupt
    controller and its virtualisation, the traps and the power management calls (PSCI)
    are modelled. File names below are relative to that
    directory. Bao runs on the OpenSBI firmware, under [src/opensbi], which it
    calls for inter-processor interrupts, remote fences and the start of harts, and
    which divides the machine between domains before the hypervisor runs; the
    firmware files below are relative to [src/opensbi/lib/sbi].

    ** How the code is modelled

    Pure functions are Rocq functions. A w-bit integer is a [Z] with its
    wrap-around written out ([u64], [s32]). Memory is a total map from addresses
    to words ([mem]), so that an access past an array reaches what lies there.
    Stateful code is state passing or a small state and error monad: [M] over the
    run-time state [hyp] (State), [PM] over page tables and page pools (MemMap),
    [IM] over both (VmInit). A panic, a null dereference, an endless loop, idling
    and a read past a constant table are values of [fault]. Concurrent code
    (locks, barrier, assignment of CPUs, guests on several CPUs) is a step
    relation, with one step for each memory access or locked section.

    ** Files

    - Prelude: machine integers, memory, faults, counting, tactics.
    - Bit, Bitmap: [lib/inc/bit.h], [lib/bit.c], [lib/inc/bitmap.h],
      [lib/bitmap.c], [lib/inc/util.h].
    - PagePool: page pools of [core/mem.c]; allocation with and without colours,
      freeing, reservation.
    - PageTable: entries, descriptors and walks of Sv39 and Sv39x4
      ([core/inc/page_table.h], [arch/riscv/page_table.c], [mem_translate]).
    - MemMap: address spaces of [core/mem.c] ([mem_map], [mem_alloc_vpage],
      [mem_free_vpage], [mem_expand_pte], [as_init] ...), written against the
      class [PageAlloc], which the page pools implement.
    - MapProofs, VPage, MapAlloc, Isolate: what these functions do to
      translations and reservations, and to other address spaces.
    - ListC, ObjCache, CpuMsg: [lib/inc/list.h], [core/objcache.c] and the
      messages of [core/cpu.c] on an explicit heap; the classes [Fifo] and
      [ObjAlloc] are the interfaces between them.
    - Locks: [arch/riscv/riscv_locks.c] and the barrier of [core/inc/cpu.h].
    - Vmm: the assignment of CPUs in [core/vmm.c].
    - State, Calls: the run-time state; firmware calls, message queues, virtual
      CPUs ([core/vm.c], [arch/riscv/vm.c], [arch/riscv/sbi.c]).
    - Plic, Vplic, Ipc, Interrupts, Sbi, Traps: [arch/riscv/plic.c],
      [arch/riscv/vplic.c], [core/ipc.c], [core/interrupts.c] with its RISC-V part,
      [arch/riscv/sbi.c], [arch/riscv/sync_exceptions.c].
    - Confine, Dispatch: what the traps of a guest can change, and that the
      dispatch of messages ends.
    - VmInit, VmMap: the set-up of VMs ([core/vm.c], [core/iommu.c],
      [mem_map_reclr], the end of [vmm_init]) and the memory it gives them.
    - Boot: the rest of [core/mem.c], [core/config.c], [core/cache.c].
    - Partition: several VMs set up together, and what boot guarantees to them.
    - StringC, Printk: [lib/string.c], [lib/printk.c], [core/console.c].
    - SbiFifo: the ring buffer of the firmware ([sbi_fifo.c]).
    - SbiTlb: remote fence requests ([sbi_tlb.c]), the hart masks and the ecall
      handler they come through ([sbi_ipi.c], [sbi_ecall_replace.c]).
    - SbiShoot, SbiLive: remote fences of several harts at once, as a step
      relation: what a call that returns has flushed, and that it can return.
    - SbiDomain, SbiDomInv: domains ([sbi_domain.c], [sbi_math.c]): memory regions,
      their order and checks, registration, the root domain; the tables of domains
      and harts.
    - SbiPmp: the PMP registers ([riscv_asm.c]), their detection and configuration
      ([sbi_hart.c]); the class [PmpHw] says what is relied on of the PMP unit.
    - SbiHsm, SbiStart: start, stop and suspension of harts ([sbi_hsm.c],
      [sbi_ecall_hsm.c], the warm boot of [sbi_init.c]) as a step relation of the
      harts; which stage a started hart enters.
    - SbiFinalize: the start of the domains ([sbi_domain_finalize]).
    - SbiTrap: traps that the firmware passes on ([sbi_trap_redirect]) and how the
      processor delivers traps itself; SbiEmul: misaligned loads and stores
      ([sbi_misaligned_ldst.c], [sbi_unpriv.c]), the class [UserAccess] for accesses
      that may fault; SbiCsr: counter registers ([sbi_illegal_insn.c],
      [sbi_emulate_csr.c]), the class [Counters].
    - SbiEcall: extensions and calls ([sbi_ecall.c]), and the dispatch of all traps
      ([sbi_trap.c], [sbi_timer.c]).
    - Gic: registers and formats of the interrupt controller of ARMv8
      ([arch/armv8/inc/arch/gic.h], [gic.c], [gicv3.c]), processor numbers
      ([platform.c]); the classes [GicEnv] and [GicLaws] are the hardware and the
      platform, and what is relied on of them.
    - Arm: the state of a VM on ARMv8 ([inc/arch/vm.h], [vgic.h], [psci.h]) and the
      monad [G] of its handlers.
    - Vgic, VgicEmul: [arch/armv8/vgic.c] and [vgicv3.c]: ownership, routing and list
      registers; emulated registers, injection, messages, maintenance, set-up.
    - VgicInv, VgicLr, VgicMove, VgicField, VgicMaint, VgicSys: the invariant of the
      interrupt structures, and that each operation ends and preserves it; the field
      functions meet the class [FieldOps].
    - GicCpu, GicPower: the rest of [gicv3.c], [gic.c] and [arch/armv8/interrupts.c]:
      set-up of the controller, interrupts between CPUs, the state saved while a CPU is
      powered down, and what is left of it.
    - VgicReach, VgicDemo, VgicProps: the steps of a VM and its hardware and the
      states they reach; a VM with two CPUs; the guarantees. The steps admit a
      maintenance interrupt only while no interrupt whose end it reports is in a list
      register again ([eoi_settled]), and the injection of a hardware interrupt only
      while no list register holds it ([injectable]); what the code does without the
      first is shown in VgicProps ([late_eoi_two_registers], [late_eoi_hangs]).
    - Psci: [arch/armv8/psci.c], [psci.h], idling and messages ([cpu.c], [core/cpu.c]),
      reset and run of a virtual CPU ([arch/armv8/vm.c]); the class [ArmPlat] is the
      platform and the secure monitor.
    - Aborts: [arch/armv8/aborts.c], [vm_emul_get], the hypercall, [gic_handle] and
      [interrupts_handle] on ARMv8.
    - VgicQuiet, ArmTraps: what handlers leave alone; that traps are handled, and what
      PSCI calls do. The class [ArmLaws] adds what is relied on of the numbers of
      message handlers, and that the secure monitor answers for its version.
    - PsciRun: PSCI on several CPUs at once, with a step for each access, and the
      automaton of a virtual CPU it refines.

    ** What is proved

    - Isolation. A guest, whatever it executes, changes nothing of other VMs but
      by notifications (Confine); a VM reaches the memory its configuration gives
      it and no other (VmMap); VMs set up in any order share no page, and none
      reaches a page table (Partition); mapping in one address space leaves the
      others alone (Isolate); the reservation at boot keeps placed memory apart
      and from being allocated (Boot, Partition); an interrupt has one owner
      when the hypervisor reserves its own first (Interrupts); a mask of virtual harts never leaves the VM (Calls).
    - Functional correctness of the allocators, page tables, mapping, bitmaps,
      PLIC and virtual PLIC, SBI handlers, instruction decoding, strings and
      formatted output, on every branch, with the failures of the allocator as an
      alternative of the statement: [refused] says that the allocator refuses a
      request of at most four pages within a stated number of pages.
    - Refinement: message passing on heap nodes refines queues, the linked list
      refines a FIFO, [vsprintk] refines a rendering of format items.
    - Concurrency: mutual exclusion and first-come order of the ticket lock, the
      barrier, the assignment of CPUs, for all interleavings.
    - Firmware: a remote fence that returns has been carried out on every target
      hart, for all interleavings of calls, queues that are full and merged
      requests, provided the requests are well-formed ([request_ok] of SbiTlb); from
      every reachable state it can return (SbiShoot, SbiLive). A
      hart belongs to one domain (SbiDomInv); the PMP unit of a hart decides as the
      regions of its domain do, and keeps all software out of the firmware
      (SbiPmp). The state of a hart is the one its place expects, for all
      interleavings, so no hart hangs (SbiHsm), and a hart enters the stage it was
      started for unless it overtakes the call that starts it (SbiStart). A trap
      that is passed on looks as if the processor had delivered it (SbiTrap), the
      emulated instructions do what the instruction set says (SbiEmul, SbiCsr), and
      no exception from below makes the firmware hang (SbiEcall).
    - The virtual interrupt controller of ARMv8, in every state of [vreach],
      so with the two conditions on steps above: an interrupt is in one list register of
      one CPU at most, each handler returns with all locks released, a write to a
      register changes the field of the interrupts it names and nothing else, injection
      makes the interrupt pending, and refilling the list registers loses no interrupt
      (VgicProps).
    - Traps and PSCI on ARMv8: in every state of [vreach], a trap is handled, with the
      guest behind the instruction after an emulated access, or the hypervisor panics;
      the syndrome, the emulated regions and, for [CPU_OFF], the answer of the secure
      monitor decide which (ArmTraps). A virtual CPU that is started or
      suspended enters its guest where the call says (ArmTraps); for calls that do not
      overlap, the interleaved code refines an automaton of each virtual CPU, and two
      overlapping calls reach a state in which a running guest has been reset
      (PsciRun).
    - Theorems on inputs for which the code does not do what it means to are
      next to the component they are about.

    ** Fuel

    Loops that are not structural take fuel. [Hang] or [None] is fuel exhausted.
    Where a theorem says that a call returns, the fuel is bounded in it: three
    steps for each page ([map_fuel], [mem_alloc_vpage]: each step maps or reserves
    a page or goes down one of three levels), the pages of a pool for searches,
    one period of the colours for [pp_next_clr], the length of the queue for the
    dispatch of messages, the length of the format for [vsprintk]. The flush of
    a range takes one step for each page of it. The loops over the orders of a
    region and over the bits of a word are bounded by the 64 bits of an address
    ([log2roundup], [memregion_loop], [ctz]), and the merging of regions by their
    number, as each round that goes on merges two ([root_optimize]). The loops of the
    maintenance interrupt take one turn for each list register, or for each of the 31
    ends that [EOICount] can hold; the proofs that the handlers return say that this
    is enough.

    ** Not modelled

    - Assembly ([boot.S], [exceptions.S], [switch_space]) and the relocation of a
      coloured hypervisor ([color_hypervisor]), an argument of [mem_init].
    - [core/init.c], the console set-up and UART drivers, platform descriptions:
      calls in sequence, constants and device registers.
    - Cache maintenance and TLB contents: invalidations and flushes are logged.
    - Memory ordering: memory is sequentially consistent.
    - The contents of guest memory, and the copies of images (logged).
    - Of ARMv8: page tables, caches, the SMMU, version 2 of the interrupt controller,
      the mapping of its registers ([gic_map_mmio], [gic_init]), and the exception
      vectors. A handler of the virtual interrupt controller is one step,
      so that waiting for a lock another CPU holds is not modelled, and a lock taken
      twice by one handler is an endless loop.
    - The other parts of the OpenSBI firmware (its
      answers to calls are a parameter of Calls) and guest software. Of the boot
      path of the firmware only the accesses to the states of harts are steps; the
      callbacks of the platform and its device for harts are parameters, and the
      printing of domains is left out. The firmware is the one for 64 bits; its cold
      boot, performance counters, console, system reset and drivers are not modelled,
      and the handlers of SBI extensions are functions where calls are dispatched.
    The theorems on mapping and on the memory of VMs are for address spaces
    without cache colours.

    ** What is left

    The coloured paths ([mem_map_reclr], [color_hypervisor]) need a store of page
    contents, which the rest of the development does without; the performance counters
    of the firmware ([sbi_pmu.c]) and the SMMU are independent of what is proved here. *)

From Stdlib Require Export ZArith Lia Bool.
From stdpp Require Export base tactics option list gmap strings.
#[export] Set Default Goal Selector "!".

Declare Scope bao_scope.
Delimit Scope bao_scope with bao.
#[global] Open Scope Z_scope.
#[global] Open Scope bao_scope.

(** ** Machine integers

    A w-bit unsigned C integer is a [Z]; wrap-around is written with [wrap],
    and the value a signed type reads back with [sgn]. *)
Definition wrap (w x : Z) : Z := x mod 2 ^ w.
Definition sgn (w x : Z) : Z :=
  let y := x mod 2 ^ w in if y <? 2 ^ (w - 1) then y else y - 2 ^ w.

Abbreviation u8 := (wrap 8).
Abbreviation u32 := (wrap 32).
Abbreviation u64 := (wrap 64).
Abbreviation s32 := (sgn 32).
Abbreviation s64 := (sgn 64).

Lemma wrap_small w x : 0 <= x < 2 ^ w -> wrap w x = x.
Proof. apply Z.mod_small. Qed.

Lemma wrap_range w x : 0 <= w -> 0 <= wrap w x < 2 ^ w.
Proof. intros. apply Z.mod_pos_bound. lia. Qed.

Lemma wrap_testbit w x i :
  0 <= w -> Z.testbit (wrap w x) i = (i <? w) && Z.testbit x i.
Proof.
  intros. unfold wrap. destruct (Z.ltb_spec i w); simpl.
  - destruct (decide (0 <= i)).
    + by apply Z.mod_pow2_bits_low.
    + rewrite !Z.testbit_neg_r; done || lia.
  - by apply Z.mod_pow2_bits_high.
Qed.

Lemma sgn_small w x : 0 <= x < 2 ^ (w - 1) -> sgn w x = x.
Proof.
  intros. unfold sgn. destruct (decide (w < 1)).
  - rewrite Z.pow_neg_r in H; lia.
  - assert (2 ^ w = 2 * 2 ^ (w - 1)) as E.
    { rewrite <- Z.pow_succ_r by lia. f_equal. lia. }
    rewrite Z.mod_small by lia. destruct (Z.ltb_spec x (2 ^ (w - 1))); lia.
Qed.

(** ** Word memory

    RAM seen as an array of words: a total map in which every address can be
    read and written, so that an access past the end of a C array reaches the
    word that lies there. *)
Abbreviation mem := (gmap Z Z).
Definition ld (m : mem) (a : Z) : Z := default 0 (m !! a).
Definition st (m : mem) (a v : Z) : mem := <[a := v]> m.

Lemma ld_st m a v b : ld (st m a v) b = if decide (a = b) then v else ld m b.
Proof. unfold ld, st. rewrite lookup_insert. by case_decide. Qed.

Lemma ld_st_eq m a v : ld (st m a v) a = v.
Proof. rewrite ld_st. by case_decide. Qed.

Lemma ld_st_ne m a v b : a <> b -> ld (st m a v) b = ld m b.
Proof. intros. rewrite ld_st. by case_decide. Qed.

Lemma ld_empty a : ld ∅ a = 0.
Proof. done. Qed.

(** [memset(a, 0, n)]. *)
Definition mem_zero (m : mem) (a n : Z) : mem :=
  filter (fun kv => ~ (a <= fst kv < a + n)) m.

Lemma ld_mem_zero m a n b :
  ld (mem_zero m a n) b = if decide (a <= b < a + n) then 0 else ld m b.
Proof.
  unfold ld, mem_zero. rewrite map_lookup_filter.
  destruct (m !! b) as [v|] eqn:E; simpl; [|by case_decide].
  case_decide; case_guard; simpl in *; tauto || done.
Qed.

(** ** Results of operations that can fail

    [Panic] is the [ERROR] macro (a message and an endless loop), [Idle] the
    low-power loop a CPU does not return from, [Hang] a loop of the code whose
    exit condition is never met within the fuel given to the model, and
    [OutOfBounds] a read past the end of a constant table of the code or of the
    arguments of a variadic function. *)
Inductive fault : Type :=
  | Panic (msg : string)
  | NullDeref
  | Idle
  | Hang
  | OutOfBounds.

Inductive res (A : Type) : Type :=
  | Ok (a : A)
  | Fault (f : fault).
Arguments Ok {A} a.
Arguments Fault {A} f.

#[export] Instance res_ret : MRet res := @Ok.
#[export] Instance res_bind : MBind res :=
  fun A B k m => match m with Ok a => k a | Fault f => Fault f end.

#[export] Instance fault_eq_dec : EqDecision fault.
Proof. solve_decision. Defined.
#[export] Instance res_eq_dec {A} `{EqDecision A} : EqDecision (res A).
Proof. solve_decision. Defined.

(** ** Counting

    [cnt P i k] is the number of indices in [[i, i + k)] that satisfy [P]. *)
Fixpoint cnt (P : Z -> bool) (i : Z) (k : nat) : Z :=
  match k with
  | O => 0
  | S k' => Z.b2z (P i) + cnt P (i + 1) k'
  end.

Lemma cnt_range P i k : 0 <= cnt P i k <= Z.of_nat k.
Proof.
  revert i. induction k as [|k IH]; intros i; simpl cnt; [lia|].
  specialize (IH (i + 1)). destruct (P i); simpl; lia.
Qed.

Lemma cnt_add P i k1 k2 :
  cnt P i (k1 + k2) = cnt P i k1 + cnt P (i + Z.of_nat k1) k2.
Proof.
  revert i. induction k1 as [|k1 IH]; intros i; simpl cnt.
  - by rewrite Z.add_0_r.
  - simpl Nat.add. simpl cnt. rewrite IH.
    replace (i + 1 + Z.of_nat k1) with (i + Z.of_nat (S k1)) by lia. lia.
Qed.

Lemma cnt_ext P Q i k :
  (forall j, i <= j < i + Z.of_nat k -> P j = Q j) -> cnt P i k = cnt Q i k.
Proof.
  revert i. induction k as [|k IH]; intros i H; simpl cnt; [done|].
  rewrite (H i), (IH (i + 1)) by (intros; lia || (apply H; lia)). done.
Qed.

Lemma cnt_none P i k :
  (forall j, i <= j < i + Z.of_nat k -> P j = false) -> cnt P i k = 0.
Proof.
  revert i. induction k as [|k IH]; intros i H; simpl cnt; [done|].
  rewrite (H i), IH by (intros; lia || (apply H; lia)). done.
Qed.

Lemma cnt_zero P i k j :
  cnt P i k = 0 -> i <= j < i + Z.of_nat k -> P j = false.
Proof.
  revert i. induction k as [|k IH]; intros i H Hj; [lia|].
  simpl cnt in H. pose proof (cnt_range P (i + 1) k).
  destruct (P i) eqn:E; simpl in H; [lia|].
  destruct (decide (j = i)) as [->|]; [done|]. apply (IH (i + 1)); lia.
Qed.

Lemma cnt_split P i j k :
  i <= j <= k -> cnt P i (Z.to_nat (k - i)) = cnt P i (Z.to_nat (j - i)) + cnt P j (Z.to_nat (k - j)).
Proof.
  intros H. replace (Z.to_nat (k - i)) with (Z.to_nat (j - i) + Z.to_nat (k - j))%nat by lia.
  rewrite cnt_add. do 2 f_equal. lia.
Qed.

(** A position that satisfies [P] is determined by the number of those below. *)
Lemma cnt_rank_inj P i j k :
  i <= j -> i <= k -> P j = true -> P k = true ->
  cnt P i (Z.to_nat (j - i)) = cnt P i (Z.to_nat (k - i)) -> j = k.
Proof.
  assert (forall a b, i <= a < b -> P a = true ->
    cnt P i (Z.to_nat (a - i)) < cnt P i (Z.to_nat (b - i))) as Hlt.
  { intros a b Hab Ha. rewrite (cnt_split P i a b) by lia.
    replace (Z.to_nat (b - a)) with (S (Z.to_nat (b - a - 1))) by lia. simpl.
    rewrite Ha. pose proof (cnt_range P (a + 1) (Z.to_nat (b - a - 1))). simpl. lia. }
  intros Hj Hk Pj Pk E. destruct (Z.lt_trichotomy j k) as [H|[H|H]]; [|done|].
  - specialize (Hlt j k ltac:(lia) Pj). lia.
  - specialize (Hlt k j ltac:(lia) Pk). lia.
Qed.

(** ** Automation *)
Create HintDb bao.

(** Case analysis on the boolean comparisons and decisions of the goal. *)
Ltac zbool :=
  repeat match goal with
  | H : context [Z.ltb ?a ?b] |- _ => destruct (Z.ltb_spec a b)
  | H : context [Z.leb ?a ?b] |- _ => destruct (Z.leb_spec a b)
  | H : context [Z.eqb ?a ?b] |- _ => destruct (Z.eqb_spec a b)
  | |- context [Z.ltb ?a ?b] => destruct (Z.ltb_spec a b)
  | |- context [Z.leb ?a ?b] => destruct (Z.leb_spec a b)
  | |- context [Z.eqb ?a ?b] => destruct (Z.eqb_spec a b)
  end.
