(* ===== verification/Bit.v ===== *)
(** * Single-word bit manipulation

    [lib/inc/bit.h] and [lib/bit.c] of the hypervisor, and the rounding macros
    of [lib/inc/util.h]. *)

From S2P Require Import Prelude.

(** ** bit.h *)
Definition BIT_MASK (off len : Z) : Z :=
  u64 (Z.shiftl (u64 (u64 (Z.shiftl (u64 (Z.shiftl 1 (len - 1))) 1) - 1)) off).

Definition bit_get (word off : Z) : Z := Z.land word (u64 (Z.shiftl 1 off)).
Definition bit_set (word off : Z) : Z := Z.lor word (u64 (Z.shiftl 1 off)).
Definition bit_clear (word off : Z) : Z :=
  Z.land word (u64 (Z.lnot (u64 (Z.shiftl 1 off)))).
Definition bit_extract (word off len : Z) : Z :=
  Z.land (Z.shiftr word off) (BIT_MASK 0 len).
Definition bit_insert (word val off len : Z) : Z :=
  Z.lor (Z.land (u64 (Z.lnot (BIT_MASK off len))) word)
        (u64 (Z.shiftl (Z.land (BIT_MASK 0 len) val) off)).

(** ** bit.c *)
Fixpoint bit_ctz_loop (n i : Z) (k : nat) : Z :=
  match k with
  | O => i
  | S k' => if Z.land (Z.shiftr n i) 1 =? 0 then bit_ctz_loop n (i + 1) k' else i
  end.
Definition bit_ctz (n : Z) : Z := bit_ctz_loop n 0 64.

Fixpoint bit_clz_loop (n i j : Z) (k : nat) : Z :=
  match k with
  | O => j
  | S k' => if Z.land (Z.shiftr n i) 1 =? 0 then bit_clz_loop n (i - 1) (j + 1) k' else j
  end.
Definition bit_clz (n : Z) : Z := bit_clz_loop n 63 0 64.

(** ** util.h *)
Definition ALIGN (val to : Z) : Z := (val + to - 1) / to * to.

(** ** Bit-level characterisations *)
Lemma land_1_eqb x i : 0 <= i -> (Z.land (Z.shiftr x i) 1 =? 0) = negb (Z.testbit x i).
Proof.
  intros. replace (Z.land (Z.shiftr x i) 1) with (Z.b2z (Z.testbit x i)).
  - by destruct (Z.testbit x i).
  - change 1 with (Z.ones 1). rewrite Z.land_ones by lia.
    rewrite Z.testbit_spec' by done. by rewrite Z.shiftr_div_pow2.
Qed.

Lemma mask_ones len : 1 <= len <= 64 ->
  u64 (u64 (Z.shiftl (u64 (Z.shiftl 1 (len - 1))) 1) - 1) = Z.ones len.
Proof.
  intros. destruct (decide (len = 64)) as [->|]; [done|].
  assert (2 * 2 ^ (len - 1) = 2 ^ len) by (rewrite <- Z.pow_succ_r by lia; f_equal; lia).
  assert (2 ^ len <= 2 ^ 63) by (apply Z.pow_le_mono_r; lia).
  assert (0 < 2 ^ (len - 1)) by lia.
  rewrite Z.shiftl_1_l, (wrap_small 64 (2 ^ (len - 1))) by lia.
  rewrite Z.shiftl_mul_pow2, (wrap_small 64 (_ * _)), wrap_small by lia.
  rewrite Z.ones_equiv. lia.
Qed.

Lemma BIT_MASK_testbit off len i :
  0 <= off -> 1 <= len <= 64 ->
  Z.testbit (BIT_MASK off len) i = (off <=? i) && (i <? off + len) && (i <? 64).
Proof.
  intros. unfold BIT_MASK. rewrite wrap_testbit, mask_ones by lia.
  destruct (decide (0 <= i)).
  - rewrite Z.shiftl_spec, Z.testbit_ones by lia. zbool; simpl; lia || done.
  - rewrite Z.testbit_neg_r by lia. zbool; simpl; lia || done.
Qed.

Lemma bit_insert_testbit word val off len i :
  0 <= off -> 1 <= len <= 64 -> 0 <= i < 64 ->
  Z.testbit (bit_insert word val off len) i =
  if (off <=? i) && (i <? off + len) then Z.testbit val (i - off) else Z.testbit word i.
Proof.
  intros. unfold bit_insert.
  rewrite Z.lor_spec, Z.land_spec, !wrap_testbit, Z.lnot_spec by lia.
  rewrite BIT_MASK_testbit, Z.shiftl_spec, Z.land_spec by lia.
  destruct (decide (off <= i)).
  - rewrite BIT_MASK_testbit by lia. zbool; simpl; lia || (try done).
    by rewrite orb_false_r.
  - rewrite (Z.testbit_neg_r _ (i - off)) by lia. zbool; simpl; lia || (try done).
    by rewrite orb_false_r.
Qed.

Lemma bit_extract_testbit word off len i :
  0 <= off -> 1 <= len <= 64 -> 0 <= i ->
  Z.testbit (bit_extract word off len) i =
  (i <? len) && (i <? 64) && Z.testbit word (i + off).
Proof.
  intros. unfold bit_extract.
  rewrite Z.land_spec, Z.shiftr_spec, BIT_MASK_testbit by lia.
  zbool; simpl; try lia; by rewrite ?andb_true_r, ?andb_false_r.
Qed.

Lemma bit_ctz_loop_spec n i k :
  0 <= i -> let r := bit_ctz_loop n i k in
  i <= r <= i + Z.of_nat k /\ (forall j, i <= j < r -> Z.testbit n j = false) /\
  (r < i + Z.of_nat k -> Z.testbit n r = true).
Proof.
  revert i. induction k as [|k IH]; intros i Hi; simpl; [split_and!; lia|].
  rewrite land_1_eqb by done. destruct (Z.testbit n i) eqn:E; simpl.
  - split_and!; [lia..|done].
  - destruct (IH (i + 1)) as (? & Hz & Ht); [lia|]. split_and!; [lia..| |].
    + intros j Hj. destruct (decide (j = i)) as [->|]; [done|]. apply Hz. lia.
    + intros. apply Ht. lia.
Qed.

Lemma bit_clz_loop_spec n i j k :
  i = Z.of_nat k - 1 -> let r := bit_clz_loop n i j k in
  j <= r <= j + Z.of_nat k /\
  (forall b, i - (r - j) < b <= i -> Z.testbit n b = false) /\
  (r < j + Z.of_nat k -> Z.testbit n (i - (r - j)) = true).
Proof.
  revert i j. induction k as [|k IH]; intros i j Hi; simpl; [split_and!; lia|].
  rewrite land_1_eqb by lia. destruct (Z.testbit n i) eqn:E; simpl.
  - split_and!; [lia..|]. by rewrite Z.sub_diag, Z.sub_0_r.
  - destruct (IH (i - 1) (j + 1)) as (? & Hz & Ht); [lia|]. split_and!; [lia..| |].
    + intros b Hb. destruct (decide (b = i)) as [->|]; [done|]. apply Hz. lia.
    + intros. rewrite <- Ht by lia. f_equal. lia.
Qed.

Lemma ALIGN_spec val to :
  0 < to -> val <= ALIGN val to < val + to /\ (to | ALIGN val to).
Proof.
  intros. unfold ALIGN. split.
  - pose proof (Z.div_mod (val + to - 1) to).
    pose proof (Z.mod_pos_bound (val + to - 1) to). lia.
  - apply Z.divide_factor_r.
Qed.
