(* ===== verification/Bitmap.v ===== *)
(** * Bitmaps

    [lib/inc/bitmap.h] and [lib/bitmap.c]: setting, clearing and reading bits,
    counting them, and searching for the n-th bit or for a run. *)

From S2P Require Import Prelude.

(** ** bitmap.h *)
Definition BITMAP_GRANULE_LEN : Z := 32.

(** [map[bit / LEN] |= ONE << (bit % LEN)]; a [bitmap_t] is the word address
    of its first granule. *)
Definition bitmap_set (m : mem) (map bit : Z) : mem :=
  let a := map + bit / BITMAP_GRANULE_LEN in
  st m a (Z.lor (ld m a) (Z.shiftl 1 (bit mod BITMAP_GRANULE_LEN))).

Definition bitmap_clear (m : mem) (map bit : Z) : mem :=
  let a := map + bit / BITMAP_GRANULE_LEN in
  st m a (Z.land (ld m a) (u32 (Z.lnot (Z.shiftl 1 (bit mod BITMAP_GRANULE_LEN))))).

Definition bitmap_get (m : mem) (map bit : Z) : Z :=
  if Z.land (ld m (map + bit / BITMAP_GRANULE_LEN))
            (Z.shiftl 1 (bit mod BITMAP_GRANULE_LEN)) =? 0
  then 0 else 1.

Fixpoint bitmap_set_loop (m : mem) (map bit : Z) (k : nat) : mem :=
  match k with
  | O => m
  | S k' => bitmap_set_loop (bitmap_set m map bit) map (bit + 1) k'
  end.
Definition bitmap_set_consecutive (m : mem) (map start n : Z) : mem :=
  bitmap_set_loop m map start (Z.to_nat n).

Fixpoint bitmap_clear_loop (m : mem) (map bit : Z) (k : nat) : mem :=
  match k with
  | O => m
  | S k' => bitmap_clear_loop (bitmap_clear m map bit) map (bit + 1) k'
  end.
Definition bitmap_clear_consecutive (m : mem) (map start n : Z) : mem :=
  bitmap_clear_loop m map start (Z.to_nat n).

(** The third argument is the index the loop stops before, not a length. *)
Fixpoint bitmap_count_loop (m : mem) (map i bit count : Z) (k : nat) : Z :=
  match k with
  | O => count
  | S k' => bitmap_count_loop m map (i + 1) bit
              (if bitmap_get m map i =? bit then count + 1 else count) k'
  end.
Definition bitmap_count (m : mem) (map start n : Z) (set : bool) : Z :=
  bitmap_count_loop m map start (Z.b2z set) 0 (Z.to_nat (n - start)).

(** ** bitmap.c *)
Fixpoint bitmap_find_nth_loop (m : mem) (map nth bit count i : Z) (k : nat) : Z :=
  match k with
  | O => -1
  | S k' =>
      if bitmap_get m map i =? bit then
        if count + 1 =? nth then i
        else bitmap_find_nth_loop m map nth bit (count + 1) (i + 1) k'
      else bitmap_find_nth_loop m map nth bit count (i + 1) k'
  end.
Definition bitmap_find_nth (m : mem) (map size nth start : Z) (set : bool) : Z :=
  if (size <=? 0) || (nth <=? 0) || (start <? 0) then -1
  else bitmap_find_nth_loop m map nth (Z.b2z set) 0 start (Z.to_nat (size - start)).

Fixpoint count_consecutive_loop (m : mem) (map n b count start : Z) (k : nat) : Z :=
  match k with
  | O => count
  | S k' =>
      if bitmap_get m map start =? b then
        if count + 1 =? n then count + 1
        else count_consecutive_loop m map n b (count + 1) (start + 1) k'
      else count
  end.
Definition bitmap_count_consecutive (m : mem) (map size start n : Z) : Z :=
  if n <=? 1 then n
  else count_consecutive_loop m map n (bitmap_get m map start) 1 (start + 1)
         (Z.to_nat (size - (start + 1))).

(** The search loop of [bitmap_find_consec]; [-1] passed as a [size_t] is
    [2 ^ 64 - 1]. [None] when the fuel runs out. *)
Fixpoint find_consec_loop (fuel : nat) (m : mem) (map size n i : Z) : option Z :=
  if i <? size then
    match fuel with
    | O => None
    | S f =>
        let count := bitmap_count_consecutive m map size i n in
        if count <? n then
          let i1 := i + count in
          find_consec_loop f m map size n
            (i1 + bitmap_count_consecutive m map size i1 (u64 (-1)))
        else Some i
    end
  else Some i.
Definition bitmap_find_consec (m : mem) (map size start n : Z) (set : bool) : option Z :=
  let i := bitmap_find_nth m map size 1 start set in
  if i <? 0 then Some (-1)
  else
    i' ← find_consec_loop (S (Z.to_nat size)) m map size n i;
    Some (if size <=? i' then -1 else i').

(** ** Bits of the word memory

    A bitmap that starts at word [map] keeps its bit [i] in bit [32 * map + i]
    of the memory, so one lemma per operation covers every bitmap that shares
    the memory. *)
Definition mbit (m : mem) (k : Z) : bool := Z.testbit (ld m (k / 32)) (k mod 32).
Definition bit_at (m : mem) (map i : Z) : bool := mbit m (32 * map + i).

Lemma div32 map i : (32 * map + i) / 32 = map + i / 32.
Proof. rewrite (Z.mul_comm 32). apply Z.div_add_l. lia. Qed.

Lemma mod32 map i : (32 * map + i) mod 32 = i mod 32.
Proof. rewrite Z.add_comm, (Z.mul_comm 32). apply Z_mod_plus_full. Qed.

Lemma mod32_bound i : 0 <= i mod 32 < 32.
Proof. apply Z.mod_pos_bound. lia. Qed.

Lemma bit_at_unfold m map i :
  bit_at m map i = Z.testbit (ld m (map + i / 32)) (i mod 32).
Proof. unfold bit_at, mbit. by rewrite div32, mod32. Qed.

Lemma land_pow2_eqb x b : 0 <= b ->
  (Z.land x (Z.shiftl 1 b) =? 0) = negb (Z.testbit x b).
Proof.
  intros Hb. rewrite Z.shiftl_1_l.
  destruct (Z.testbit x b) eqn:E; simpl.
  - apply Z.eqb_neq. intros H. apply (f_equal (fun z => Z.testbit z b)) in H.
    by rewrite Z.land_spec, E, Z.pow2_bits_true, Z.bits_0 in H.
  - apply Z.eqb_eq, Z.bits_inj'. intros n Hn.
    rewrite Z.land_spec, Z.bits_0, Z.pow2_bits_eqb by done.
    destruct (Z.eqb_spec b n) as [->|]; by rewrite ?E, ?andb_false_r.
Qed.

Lemma bitmap_get_spec m map i : bitmap_get m map i = Z.b2z (bit_at m map i).
Proof.
  unfold bitmap_get, BITMAP_GRANULE_LEN. rewrite bit_at_unfold.
  pose proof (mod32_bound i). rewrite land_pow2_eqb by lia. by destruct (Z.testbit _ _).
Qed.

Lemma same_bit i j : i / 32 = j / 32 -> i mod 32 = j mod 32 -> i = j.
Proof. intros. rewrite (Z.div_mod i 32), (Z.div_mod j 32); lia. Qed.

Lemma mbit_set m map i k :
  mbit (bitmap_set m map i) k = (k =? 32 * map + i) || mbit m k.
Proof.
  unfold bitmap_set, mbit, BITMAP_GRANULE_LEN. rewrite ld_st.
  pose proof (mod32_bound i). pose proof (mod32_bound k).
  pose proof (div32 map i). pose proof (mod32 map i).
  case_decide as Ha.
  - rewrite Z.lor_spec, Z.shiftl_1_l, Z.pow2_bits_eqb, Ha, orb_comm by lia.
    f_equal. destruct (Z.eqb_spec (i mod 32) (k mod 32)) as [E|E]; symmetry.
    + apply Z.eqb_eq, same_bit; lia.
    + apply Z.eqb_neq. intros ->. lia.
  - replace (k =? _) with false; [done|]. symmetry. apply Z.eqb_neq. intros ->. lia.
Qed.

Lemma mbit_clear m map i k :
  mbit (bitmap_clear m map i) k = negb (k =? 32 * map + i) && mbit m k.
Proof.
  unfold bitmap_clear, mbit, BITMAP_GRANULE_LEN. rewrite ld_st.
  pose proof (mod32_bound i). pose proof (mod32_bound k).
  pose proof (div32 map i). pose proof (mod32 map i).
  case_decide as Ha.
  - rewrite Z.land_spec, wrap_testbit, Z.lnot_spec, Z.shiftl_1_l,
      Z.pow2_bits_eqb, Ha, andb_comm by lia.
    replace (k mod 32 <? 32) with true by lia. simpl. f_equal. f_equal.
    destruct (Z.eqb_spec (i mod 32) (k mod 32)) as [E|E]; symmetry.
    + apply Z.eqb_eq, same_bit; lia.
    + apply Z.eqb_neq. intros ->. lia.
  - replace (k =? _) with false; [done|]. symmetry. apply Z.eqb_neq. intros ->. lia.
Qed.

Lemma bit_at_set m map i j :
  bit_at (bitmap_set m map i) map j = (j =? i) || bit_at m map j.
Proof.
  unfold bit_at. rewrite mbit_set. f_equal. zbool; lia.
Qed.

Lemma bit_at_clear m map i j :
  bit_at (bitmap_clear m map i) map j = negb (j =? i) && bit_at m map j.
Proof.
  unfold bit_at. rewrite mbit_clear. f_equal. zbool; lia.
Qed.

(** Words outside the granule of the bit are untouched. *)
Lemma ld_bitmap_set m map i a :
  a <> map + i / 32 -> ld (bitmap_set m map i) a = ld m a.
Proof. intros. by apply ld_st_ne. Qed.

Lemma ld_bitmap_clear m map i a :
  a <> map + i / 32 -> ld (bitmap_clear m map i) a = ld m a.
Proof. intros. by apply ld_st_ne. Qed.

Lemma bitmap_set_loop_spec m map i k j :
  bit_at (bitmap_set_loop m map i k) map j =
  ((i <=? j) && (j <? i + Z.of_nat k)) || bit_at m map j.
Proof.
  revert m i. induction k as [|k IH]; intros m i; simpl bitmap_set_loop.
  - zbool; simpl; lia || done.
  - rewrite IH, bit_at_set. zbool; simpl; try done; lia.
Qed.

Lemma bitmap_clear_loop_spec m map i k j :
  bit_at (bitmap_clear_loop m map i k) map j =
  negb ((i <=? j) && (j <? i + Z.of_nat k)) && bit_at m map j.
Proof.
  revert m i. induction k as [|k IH]; intros m i; simpl bitmap_clear_loop.
  - zbool; simpl; lia || done.
  - rewrite IH, bit_at_clear. zbool; simpl; try done; lia.
Qed.

Lemma bitmap_set_consecutive_spec m map start n j : 0 <= n ->
  bit_at (bitmap_set_consecutive m map start n) map j =
  ((start <=? j) && (j <? start + n)) || bit_at m map j.
Proof.
  intros. unfold bitmap_set_consecutive. rewrite bitmap_set_loop_spec.
  by rewrite Z2Nat.id.
Qed.

Lemma bitmap_clear_consecutive_spec m map start n j : 0 <= n ->
  bit_at (bitmap_clear_consecutive m map start n) map j =
  negb ((start <=? j) && (j <? start + n)) && bit_at m map j.
Proof.
  intros. unfold bitmap_clear_consecutive. rewrite bitmap_clear_loop_spec.
  by rewrite Z2Nat.id.
Qed.

(** ** Specifications of the searches *)

(** The bits a search for [set] looks for. *)
Definition has_bit (m : mem) (map : Z) (set : bool) (j : Z) : bool :=
  Bool.eqb (bit_at m map j) set.

Lemma get_eqb_has m map set j :
  (bitmap_get m map j =? Z.b2z set) = has_bit m map set j.
Proof.
  rewrite bitmap_get_spec. unfold has_bit. by destruct (bit_at m map j), set.
Qed.

Lemma bitmap_count_loop_spec m map i set count k :
  bitmap_count_loop m map i (Z.b2z set) count k = count + cnt (has_bit m map set) i k.
Proof.
  revert i count. induction k as [|k IH]; intros i count; simpl; [lia|].
  rewrite IH, get_eqb_has. destruct (has_bit m map set i); simpl; lia.
Qed.

(** [bitmap_count] counts the bits equal to [set] between [start] and [n]. *)
Lemma bitmap_count_spec m map start n set :
  bitmap_count m map start n set = cnt (has_bit m map set) start (Z.to_nat (n - start)).
Proof. unfold bitmap_count. by rewrite bitmap_count_loop_spec. Qed.

Lemma bitmap_find_nth_loop_spec m map nth set count i k :
  count < nth ->
  let r := bitmap_find_nth_loop m map nth (Z.b2z set) count i k in
  let P := has_bit m map set in
  (r = -1 /\ count + cnt P i k < nth) \/
  (i <= r < i + Z.of_nat k /\ P r = true /\
   count + cnt P i (Z.to_nat (r - i)) = nth - 1).
Proof.
  revert count i. induction k as [|k IH]; intros count i Hc; simpl; [left; lia|].
  rewrite get_eqb_has. destruct (has_bit m map set i) eqn:E.
  - destruct (Z.eqb_spec (count + 1) nth).
    + right. split_and!; [lia..|done|]. rewrite Z.sub_diag. simpl. lia.
    + destruct (IH (count + 1) (i + 1)) as [[-> ?]|(? & ? & Hn)]; [lia|left; simpl; lia|].
      right. split_and!; [lia..|done|].
      revert Hn. set (r := bitmap_find_nth_loop _ _ _ _ _ _ _) in *. intros Hn.
      replace (Z.to_nat (r - i)) with (S (Z.to_nat (r - (i + 1)))) by lia.
      simpl cnt. rewrite E. simpl. lia.
  - destruct (IH count (i + 1)) as [[-> ?]|(? & ? & Hn)]; [lia|left; simpl; lia|].
    right. split_and!; [lia..|done|].
    revert Hn. set (r := bitmap_find_nth_loop _ _ _ _ _ _ _) in *. intros Hn.
    replace (Z.to_nat (r - i)) with (S (Z.to_nat (r - (i + 1)))) by lia.
    simpl cnt. rewrite E. simpl. lia.
Qed.

Lemma bitmap_find_nth_spec m map size nth start set :
  0 < nth -> 0 <= start ->
  let r := bitmap_find_nth m map size nth start set in
  let P := has_bit m map set in
  (r = -1 /\ cnt P start (Z.to_nat (size - start)) < nth) \/
  (start <= r < size /\ P r = true /\ cnt P start (Z.to_nat (r - start)) = nth - 1).
Proof.
  intros Hn Hs. unfold bitmap_find_nth.
  destruct (Z.leb_spec size 0); simpl.
  { left. split; [done|]. replace (Z.to_nat _) with O by lia. simpl. lia. }
  replace (nth <=? 0) with false by lia. replace (start <? 0) with false by lia. simpl.
  destruct (bitmap_find_nth_loop_spec m map nth set 0 start (Z.to_nat (size - start)) Hn)
    as [[-> ?]|(? & ? & ?)]; [left; lia|right]. split_and!; lia || done.
Qed.

Lemma count_consecutive_loop_spec m map n b count start k :
  count < n ->
  let c := count_consecutive_loop m map n (Z.b2z b) count start k in
  count <= c <= n /\ c - count <= Z.of_nat k /\
  (forall j, start <= j < start + (c - count) -> bit_at m map j = b) /\
  (c = n \/ c - count = Z.of_nat k \/ bit_at m map (start + (c - count)) = negb b).
Proof.
  revert count start. induction k as [|k IH]; intros count start Hc; simpl.
  { split_and!; [lia..|]. right. left. lia. }
  rewrite get_eqb_has. unfold has_bit.
  destruct (Bool.eqb (bit_at m map start) b) eqn:E.
  - apply eqb_prop in E. destruct (Z.eqb_spec (count + 1) n).
    + split_and!; [lia..| |by left]. intros j Hj.
      replace j with start by lia. done.
    + destruct (IH (count + 1) (start + 1)) as (? & ? & Hall & Hend); [lia|].
      revert H H0 Hall Hend. set (c := count_consecutive_loop _ _ _ _ _ _ _).
      intros. split_and!; [lia..| |].
      * intros j Hj. destruct (decide (j = start)) as [->|]; [done|]. apply Hall. lia.
      * destruct Hend as [|[|Hb]]; [by left|right; left; lia|right; right].
        rewrite <- Hb. f_equal. lia.
  - split_and!; [lia..|]. right. right.
    replace (start + (count - count)) with start by lia.
    destruct (bit_at m map start), b; done.
Qed.

(** [bitmap_count_consecutive] measures the run of equal bits at [start], at
    most [n] long. *)
Lemma bitmap_count_consecutive_spec m map size start n :
  1 < n ->
  let c := bitmap_count_consecutive m map size start n in
  1 <= c <= n /\ c <= Z.max 1 (size - start) /\
  (forall j, start <= j < start + c -> bit_at m map j = bit_at m map start) /\
  (c = n \/ size <= start + c \/
   bit_at m map (start + c) = negb (bit_at m map start)).
Proof.
  intros Hn. unfold bitmap_count_consecutive.
  replace (n <=? 1) with false by lia. rewrite bitmap_get_spec.
  destruct (count_consecutive_loop_spec m map n (bit_at m map start) 1 (start + 1)
              (Z.to_nat (size - (start + 1)))) as (? & ? & Hall & Hend); [lia|].
  revert H H0 Hall Hend. set (c := count_consecutive_loop _ _ _ _ _ _ _).
  intros. split_and!; [lia..| |].
  - intros j Hj. destruct (decide (j = start)) as [->|]; [done|]. apply Hall. lia.
  - destruct Hend as [|[|Hb]]; [by left|right; left; lia|right; right].
    rewrite <- Hb. f_equal. lia.
Qed.

(** [n] consecutive bits equal to [set] from [i] on. *)
Definition bit_run (m : mem) (map : Z) (set : bool) (i n : Z) : Prop :=
  forall j, i <= j < i + n -> bit_at m map j = set.

(** What a search for a run of [n] bits in [[start, size)] promises: the
    leftmost run, or [-1] when there is none. *)
Definition first_run (m : mem) (map size start n : Z) (set : bool) (r : Z) : Prop :=
  (r = -1 /\ forall j, start <= j -> j + n <= size -> ~ bit_run m map set j n) \/
  (start <= r /\ r + n <= size /\ bit_run m map set r n /\
   forall j, start <= j < r -> ~ bit_run m map set j n).

Lemma find_consec_skip m map size n set i (count := bitmap_count_consecutive m map size i n)
    (i2 := i + count + bitmap_count_consecutive m map size (i + count) (u64 (-1))) :
  1 <= n -> size < 2 ^ 63 -> 0 <= i < size -> bit_at m map i = set -> count < n ->
  i < i2 /\ (i2 < size -> bit_at m map i2 = set) /\
  (forall j, i <= j < i2 -> j + n <= size -> ~ bit_run m map set j n).
Proof.
  intros Hn Hsz Hi Hset Hlt.
  assert (1 < n) as Hn1.
  { destruct (decide (n = 1)) as [->|]; [|lia]. subst count. cbn in Hlt. lia. }
  destruct (bitmap_count_consecutive_spec m map size i n Hn1) as (Hc1 & Hc2 & Hrun & Hend).
  fold count in Hc1, Hc2, Hrun, Hend.
  destruct (bitmap_count_consecutive_spec m map size (i + count) (u64 (-1)))
    as (Hd1 & Hd2 & Hrun2 & Hend2); [done|].
  assert (u64 (-1) = 2 ^ 64 - 1) as Ew by done.
  subst i2. revert Hd1 Hd2 Hrun2 Hend2.
  set (d := bitmap_count_consecutive m map size (i + count) (u64 (-1))). intros.
  assert (i + count < size -> bit_at m map (i + count) = negb set) as Hbrk.
  { intros. destruct Hend as [|[|Hb]]; [lia..|]. by rewrite Hb, Hset. }
  split_and!; [lia| |].
  - intros Hlt2. destruct Hend2 as [|[|Hb]]; [lia..|].
    rewrite Hb, Hbrk, negb_involutive by lia. done.
  - intros j Hj Hjn R. destruct (decide (j <= i + count)).
    + assert (bit_at m map (i + count) = set) by (apply R; lia).
      rewrite Hbrk in H by lia. by destruct set.
    + assert (bit_at m map j = set) by (apply R; lia).
      rewrite Hrun2, Hbrk in H by lia. by destruct set.
Qed.

Lemma find_consec_loop_spec fuel m map size n set i :
  1 <= n -> size < 2 ^ 63 -> 0 <= i -> (i < size -> bit_at m map i = set) ->
  size - i <= Z.of_nat fuel ->
  exists r, find_consec_loop fuel m map size n i = Some r /\ i <= r /\
    (r < size -> r + n <= size /\ bit_run m map set r n) /\
    (forall j, i <= j < r -> j + n <= size -> ~ bit_run m map set j n).
Proof.
  intros Hn Hsz. revert i. induction fuel as [|fuel IH]; intros i Hi Hset Hf; simpl.
  { destruct (Z.ltb_spec i size); [lia|]. exists i. split_and!; done || lia. }
  destruct (Z.ltb_spec i size) as [Hlt|]; cycle 1.
  { exists i. split_and!; done || lia. }
  specialize (Hset Hlt).
  destruct (Z.ltb_spec (bitmap_count_consecutive m map size i n) n) as [Hc|Hc].
  - destruct (find_consec_skip m map size n set i) as (Hgt & Hset2 & Hno);
      [done|done|lia|done|done|].
    edestruct IH as (r & Hr & ? & Hok & Hno2); [|exact Hset2|lia|]; [lia|].
    exists r. split_and!; [done|lia|done|]. intros j Hj.
    destruct (decide (j < i + bitmap_count_consecutive m map size i n +
      bitmap_count_consecutive m map size (i + bitmap_count_consecutive m map size i n)
        (u64 (-1)))); [apply Hno; lia|apply Hno2; lia].
  - exists i. split_and!; [done|lia| |lia]. intros _.
    destruct (decide (n = 1)) as [->|].
    + split; [lia|]. intros j Hj. replace j with i by lia. done.
    + destruct (bitmap_count_consecutive_spec m map size i n) as (? & ? & Hrun & _); [lia|].
      split; [lia|]. intros j Hj. rewrite Hrun by lia. done.
Qed.

(** The first position of a [set] bit is where [bitmap_find_nth] with
    [nth = 1] stops. *)
Lemma find_first_spec m map size start set (r := bitmap_find_nth m map size 1 start set) :
  0 <= start ->
  (r = -1 /\ forall j, start <= j < size -> bit_at m map j <> set) \/
  (start <= r < size /\ bit_at m map r = set /\
   forall j, start <= j < r -> bit_at m map j <> set).
Proof.
  intros Hs.
  assert (forall j, has_bit m map set j = false -> bit_at m map j <> set) as Hne.
  { intros j Hj E. unfold has_bit in Hj. by rewrite E, eqb_reflx in Hj. }
  destruct (bitmap_find_nth_spec m map size 1 start set ltac:(lia) Hs)
    as [[Hr Hc]|(Hr & HP & Hc)]; [left|right].
  - split; [done|]. intros j Hj. apply Hne.
    pose proof (cnt_range (has_bit m map set) start (Z.to_nat (size - start))).
    apply (cnt_zero _ start (Z.to_nat (size - start))); lia.
  - split_and!; [lia..| |].
    + by apply eqb_prop in HP.
    + intros j Hj. apply Hne. eapply (cnt_zero _ start); [exact Hc|lia].
Qed.

Lemma bitmap_find_consec_first m map size start n set :
  1 <= n -> 0 <= start -> size < 2 ^ 63 ->
  exists r, bitmap_find_consec m map size start n set = Some r /\
    first_run m map size start n set r.
Proof.
  intros Hn Hs Hsz. unfold bitmap_find_consec.
  destruct (find_first_spec m map size start set Hs) as [[Hr Hno]|(Hr & Hb & Hno)].
  - rewrite Hr. simpl. exists (-1). split; [done|]. left. split; [done|].
    intros j Hj Hjn R. apply (Hno j); [lia|]. apply R. lia.
  - replace (_ <? 0) with false by lia.
    destruct (find_consec_loop_spec (S (Z.to_nat size)) m map size n set
      (bitmap_find_nth m map size 1 start set)) as (r & -> & Hge & Hok & Hno2);
      [done|done|lia|done|lia|].
    assert (forall j, start <= j < r -> j + n <= size -> ~ bit_run m map set j n) as Hall.
    { intros j Hj Hjn R. destruct (decide (j < bitmap_find_nth m map size 1 start set)).
      - apply (Hno j); [lia|]. apply R. lia.
      - apply (Hno2 j); [lia|lia|done]. }
    simpl. eexists. split; [done|]. destruct (Z.leb_spec size r).
    + left. split; [done|]. intros j Hj Hjn. apply Hall; lia.
    + right. destruct Hok as [? R]; [lia|]. split_and!; [lia|lia|done|].
      intros j Hj. apply Hall; lia.
Qed.
