(* ===== verification/PagePool.v ===== *)
(** * The physical page allocator

    The page pools of [core/mem.c] ([page_pool_t], lines 75-332 and 723-806)
    with the helpers of [core/inc/mem.h]. A pool tracks the pages of one
    physical region in a bitmap; [COLOR_NUM] and [COLOR_SIZE] are the cache
    colour parameters that [core/cache.c] computes at boot. *)

From S2P Require Import Prelude Bit Bitmap.

Definition PAGE_SIZE : Z := 4096.
Definition NUM_PAGES (sz : Z) : Z := ALIGN sz PAGE_SIZE / PAGE_SIZE.

Record ppages := mk_ppages { pg_base : Z; pg_size : Z; pg_colors : Z }.

Record page_pool := mk_pool {
  pp_base : Z;
  pp_size : Z;
  pp_free : Z;
  pp_last : Z;
  pp_bitmap : Z
}.

Definition mem_ppages_get (base size : Z) : ppages := mk_ppages base size 0.

(** [range_in_range] and [in_range] of [util.h], on 64-bit values: both bounds are
    inclusive, and the sums wrap around. *)
Definition range_in_range (base1 size1 base2 size2 : Z) : bool :=
  (base2 <=? base1) && (u64 (base1 + size1) <=? u64 (base2 + size2)).
Definition in_range (addr base size : Z) : bool := range_in_range addr 0 base size.

Section Colors.
Context (COLOR_NUM COLOR_SIZE : Z).

Definition all_clrs (clrs : Z) : bool :=
  (clrs =? 0) ||
  (Z.land clrs (Z.shiftl 1 COLOR_NUM - 1) =? Z.shiftl 1 COLOR_NUM - 1).

(** [pp_next_clr]: the loop has no bound of its own; [None] is fuel exhausted. *)
Fixpoint pp_next_clr_loop (fuel : nat) (clr_offset colors index : Z) : option Z :=
  if Z.land (Z.shiftr colors (((index + clr_offset) / COLOR_SIZE) mod COLOR_NUM)) 1 =? 0
  then match fuel with
       | O => None
       | S f => pp_next_clr_loop f clr_offset colors (index + 1)
       end
  else Some index.

Definition clr_fuel : nat := Z.to_nat (COLOR_NUM * COLOR_SIZE).

Definition pp_next_clr (base from colors : Z) : option Z :=
  let clr_offset := (base / PAGE_SIZE) mod (COLOR_NUM * COLOR_SIZE) in
  pp_next_clr_loop clr_fuel clr_offset colors (u64 (s32 from)).

(** ** Freeing *)

(** The coloured branch: the inner [index] shadows the outer one and starts at
    0. *)
Fixpoint free_clr_loop (m : mem) (pool : page_pool) (colors index : Z) (k : nat)
    : option mem :=
  match k with
  | O => Some m
  | S k' =>
      index' ← pp_next_clr (pp_base pool) index colors;
      free_clr_loop (bitmap_clear m (pp_bitmap pool) index') pool colors (index' + 1) k'
  end.

Definition pool_free_ppages (m : mem) (pool : page_pool) (pp : ppages) : option mem :=
  if in_range (pg_base pp) (pp_base pool) (pp_size pool * PAGE_SIZE) then
    let index := (pg_base pp - pp_base pool) / PAGE_SIZE in
    if negb (all_clrs (pg_colors pp)) then
      free_clr_loop m pool (pg_colors pp) 0 (Z.to_nat (pg_size pp))
    else Some (bitmap_clear_consecutive m (pp_bitmap pool) index (pg_size pp))
  else Some m.

Fixpoint mem_free_ppages (m : mem) (pools : list page_pool) (pp : ppages) : option mem :=
  match pools with
  | [] => Some m
  | pool :: rest => m' ← pool_free_ppages m pool pp; mem_free_ppages m' rest pp
  end.

(** ** Coloured allocation *)
Section alloc_clr.
Context (m : mem) (pool : page_pool) (n colors : Z).

(** [while ((index < top) && bitmap_get(...)) index = pp_next_clr(base, ++index, colors)] *)
Fixpoint clr_skip (fuel : nat) (top index : Z) : option Z :=
  if (index <? top) && negb (bitmap_get m (pp_bitmap pool) index =? 0) then
    match fuel with
    | O => None
    | S f => i ← pp_next_clr (pp_base pool) (index + 1) colors; clr_skip f top i
    end
  else Some index.

(** The loop that counts free pages on the target colours. *)
Fixpoint clr_count (fuel : nat) (top index allocated : Z) : option (Z * Z) :=
  if (index <? top) && (bitmap_get m (pp_bitmap pool) index =? 0) && (allocated <? n) then
    match fuel with
    | O => None
    | S f =>
        i ← pp_next_clr (pp_base pool) (index + 1) colors;
        clr_count f top i (allocated + 1)
    end
  else Some (index, allocated).

(** One pass of the search: [(allocated, first_index)] when it stops. *)
Fixpoint clr_search (fuel : nat) (top index allocated first : Z) : option (Z * Z) :=
  if (allocated <? n) && (index <? top) then
    match fuel with
    | O => None
    | S f =>
        i ← clr_skip (S (Z.to_nat top)) top index;
        '(i', allocated') ← clr_count (S (Z.to_nat top)) top i 0;
        clr_search f top (i' + 1) allocated' i
    end
  else Some (allocated, first).
End alloc_clr.

(** Marks the pages of the allocation; returns the index after the last one. *)
Fixpoint clr_mark (m : mem) (pool : page_pool) (colors first : Z) (k : nat)
    : option (mem * Z) :=
  match k with
  | O => Some (m, first)
  | S k' =>
      i ← pp_next_clr (pp_base pool) first colors;
      clr_mark (bitmap_set m (pp_bitmap pool) i) pool colors (i + 1) k'
  end.

Definition clr_commit (m : mem) (pool : page_pool) (n colors first : Z)
    : option (bool * ppages * page_pool * mem) :=
  '(m', first') ← clr_mark m pool colors first (Z.to_nat n);
  Some (true,
        mk_ppages (pp_base pool + first * PAGE_SIZE) n colors,
        mk_pool (pp_base pool) (pp_size pool) (u64 (pp_free pool - n)) first'
          (pp_bitmap pool),
        m').

Definition pp_alloc_clr (m : mem) (pool : page_pool) (n colors : Z) (pp : ppages)
    : option (bool * ppages * page_pool * mem) :=
  let fuel := S (Z.to_nat (pp_size pool)) in
  index ← pp_next_clr (pp_base pool) (pp_last pool) colors;
  '(allocated, first) ← clr_search m pool n colors fuel (pp_size pool) index 0 0;
  if allocated =? n then clr_commit m pool n colors first
  else
    '(allocated2, first2) ←
       clr_search m pool n colors (S (Z.to_nat (pp_last pool))) (pp_last pool) 0 allocated first;
    if allocated2 =? n then clr_commit m pool n colors first2
    else Some (false, mk_ppages (pg_base pp) 0 colors, pool, m).

(** ** Contiguous allocation *)
Definition pp_start (pool : page_pool) (n : Z) (aligned : bool) : Z :=
  if aligned then n - (pp_base pool / PAGE_SIZE) mod n else 0.

(** The outcome of one search: the page index found, or the position the next
    search starts from. *)
Fixpoint pp_search (fuel : nat) (m : mem) (pool : page_pool) (n : Z) (aligned : bool)
    (curr : Z) : option (Z + Z) :=
  if pp_free pool =? 0 then Some (inl curr)
  else match fuel with
  | O => None
  | S f =>
      bit ← bitmap_find_consec m (pp_bitmap pool) (pp_size pool) curr n false;
      if bit <? 0 then
        Some (inl (if aligned
                   then (n - (pp_base pool / PAGE_SIZE) mod n) mod n else 0))
      else if aligned && negb ((bit + pp_start pool n aligned) mod n =? 0) then
        pp_search f m pool n aligned (bit + (bit + pp_start pool n aligned) mod n)
      else Some (inr bit)
  end.

Definition pp_commit (m : mem) (pool : page_pool) (n bit : Z)
    : bool * ppages * page_pool * mem :=
  (true, mk_ppages (pp_base pool + bit * PAGE_SIZE) n 0,
   mk_pool (pp_base pool) (pp_size pool) (u64 (pp_free pool - n)) (bit + n)
     (pp_bitmap pool),
   bitmap_set_consecutive m (pp_bitmap pool) bit n).

Definition pp_alloc (m : mem) (pool : page_pool) (n : Z) (aligned : bool) (pp : ppages)
    : option (bool * ppages * page_pool * mem) :=
  let fail := (false, mk_ppages (pg_base pp) 0 0, pool, m) in
  if n =? 0 then Some fail
  else
    let fuel := S (Z.to_nat (pp_size pool)) in
    let curr := pp_last pool + (pp_last pool + pp_start pool n aligned) mod n in
    r1 ← pp_search fuel m pool n aligned curr;
    match r1 with
    | inr bit => Some (pp_commit m pool n bit)
    | inl curr' =>
        r2 ← pp_search fuel m pool n aligned curr';
        match r2 with
        | inr bit => Some (pp_commit m pool n bit)
        | inl _ => Some fail
        end
    end.

(** [mem_alloc_ppages]: the pools in list order, stopping at the first that
    succeeds. *)
Fixpoint alloc_from_pools (m : mem) (pools : list page_pool) (colors n : Z)
    (aligned : bool) (pages : ppages) : option (ppages * list page_pool * mem) :=
  match pools with
  | [] => Some (pages, [], m)
  | pool :: rest =>
      '(ok, pages', pool', m') ←
        (if negb (all_clrs colors) && negb aligned
         then pp_alloc_clr m pool n colors pages
         else pp_alloc m pool n aligned pages);
      if (ok : bool) then Some (pages', pool' :: rest, m')
      else
        '(pages'', rest', m'') ← alloc_from_pools m' rest colors n aligned pages';
        Some (pages'', pool' :: rest', m'')
  end.

Definition mem_alloc_ppages (m : mem) (pools : list page_pool) (colors n : Z)
    (aligned : bool) : option (ppages * list page_pool * mem) :=
  alloc_from_pools m pools colors n aligned (mk_ppages 0 0 0).
End Colors.

(** ** Reservation *)
Definition mem_are_ppages_reserved_in_pool (m : mem) (pool : page_pool) (pp : ppages) : bool :=
  if range_in_range (pg_base pp) (pg_size pp * PAGE_SIZE)
       (pp_base pool) (pp_size pool * PAGE_SIZE) then
    let numpages := pg_size pp in
    let pageoff := NUM_PAGES (pg_base pp - pp_base pool) in
    let is_alloced := negb (bitmap_get m (pp_bitmap pool) pageoff =? 0) in
    let avlbl_contig_pp :=
      bitmap_count_consecutive m (pp_bitmap pool) (pp_size pool) pageoff numpages in
    is_alloced || (avlbl_contig_pp <? numpages)
  else false.

Fixpoint mem_are_ppages_reserved (m : mem) (pools : list page_pool) (pp : ppages) : bool :=
  match pools with
  | [] => false
  | pool :: rest =>
      if range_in_range (pg_base pp) (pg_size pp * PAGE_SIZE)
           (pp_base pool) (pp_size pool * PAGE_SIZE)
      then mem_are_ppages_reserved_in_pool m pool pp
      else mem_are_ppages_reserved m rest pp
  end.

Definition mem_reserve_ppool_ppages (m : mem) (pool : page_pool) (pp : ppages)
    : bool * page_pool * mem :=
  if negb (range_in_range (pg_base pp) (pg_size pp * PAGE_SIZE)
             (pp_base pool) (pp_size pool * PAGE_SIZE))
  then (true, pool, m)
  else
    let numpages := pg_size pp in
    let pageoff := NUM_PAGES (pg_base pp - pp_base pool) in
    let was_free := negb (mem_are_ppages_reserved_in_pool m pool pp) in
    (was_free,
     mk_pool (pp_base pool) (pp_size pool) (u64 (pp_free pool - numpages))
       (pp_last pool) (pp_bitmap pool),
     bitmap_set_consecutive m (pp_bitmap pool) pageoff numpages).

Fixpoint mem_reserve_ppages_in_pool_list (m : mem) (pools : list page_pool) (pp : ppages)
    : bool * list page_pool * mem :=
  match pools with
  | [] => (false, [], m)
  | pool :: rest =>
      if range_in_range (pg_base pp) (pg_size pp * PAGE_SIZE)
           (pp_base pool) (pp_size pool * PAGE_SIZE)
      then
        let '(b, pool', m') := mem_reserve_ppool_ppages m pool pp in
        (b, pool' :: rest, m')
      else
        let '(b, rest', m') := mem_reserve_ppages_in_pool_list m rest pp in
        (b, pool :: rest', m')
  end.

Definition mem_reserve_ppages (m : mem) (pools : list page_pool) (pp : ppages)
    : bool * list page_pool * mem :=
  mem_reserve_ppages_in_pool_list m pools pp.

(** ** Invariant and abstract state

    A pool is well formed when its size fits the [int] indices the code uses
    and its counters are machine words. The abstract state of a pool is the
    predicate "page [i] is taken". *)
Definition pool_wf (p : page_pool) : Prop :=
  0 <= pp_base p < 2 ^ 63 /\ 0 <= pp_size p < 2 ^ 31 /\ 0 <= pp_last p <= pp_size p /\
  0 <= pp_free p < 2 ^ 64.

Definition taken (m : mem) (p : page_pool) (i : Z) : bool := bit_at m (pp_bitmap p) i.

(** The granules of a pool's bitmap. *)
Definition bitmap_words (p : page_pool) (a : Z) : Prop :=
  pp_bitmap p <= a <= pp_bitmap p + pp_size p / 32.

(** Memory outside a region is unchanged. *)
Definition same_outside (R : Z -> Prop) (m m' : mem) : Prop :=
  forall a, ~ R a -> ld m' a = ld m a.

Lemma same_outside_refl R m : same_outside R m m.
Proof. by intros a. Qed.

Lemma bitmap_set_loop_outside p m i k :
  0 <= i -> i + Z.of_nat k <= pp_size p ->
  same_outside (bitmap_words p) m (bitmap_set_loop m (pp_bitmap p) i k).
Proof.
  revert m i. induction k as [|k IH]; intros m i Hi Hk; simpl; [apply same_outside_refl|].
  intros a Ha. rewrite (IH (bitmap_set m (pp_bitmap p) i) (i + 1)) by (lia || done).
  apply ld_bitmap_set. intros ->. apply Ha. unfold bitmap_words.
  assert (0 <= i / 32) by (apply Z.div_pos; lia).
  assert (i / 32 <= pp_size p / 32) by (apply Z.div_le_mono; lia). lia.
Qed.

Lemma bitmap_clear_loop_outside p m i k :
  0 <= i -> i + Z.of_nat k <= pp_size p ->
  same_outside (bitmap_words p) m (bitmap_clear_loop m (pp_bitmap p) i k).
Proof.
  revert m i. induction k as [|k IH]; intros m i Hi Hk; simpl; [apply same_outside_refl|].
  intros a Ha. rewrite (IH (bitmap_clear m (pp_bitmap p) i) (i + 1)) by (lia || done).
  apply ld_bitmap_clear. intros ->. apply Ha. unfold bitmap_words.
  assert (0 <= i / 32) by (apply Z.div_pos; lia).
  assert (i / 32 <= pp_size p / 32) by (apply Z.div_le_mono; lia). lia.
Qed.

(** ** Contiguous allocation *)
#[local] Arguments pp_start : simpl never.

Lemma find_free p m curr n :
  pool_wf p -> 1 <= n -> 0 <= curr ->
  exists bit, bitmap_find_consec m (pp_bitmap p) (pp_size p) curr n false = Some bit /\
    first_run m (pp_bitmap p) (pp_size p) curr n false bit.
Proof.
  intros (? & ? & ? & ?) ? ?. apply bitmap_find_consec_first; lia.
Qed.

(** A search ends, and its result is either a run of free pages with the
    requested residue or a new start position; without alignment the latter
    means that the pool counts no free page or holds no run from [curr] on. *)
Lemma pp_search_spec fuel p m n aligned curr :
  pool_wf p -> 1 <= n -> 0 <= curr ->
  (1 <= fuel)%nat -> pp_size p - curr + 1 <= Z.of_nat fuel ->
  exists r, pp_search fuel m p n aligned curr = Some r /\
  match r with
  | inr bit =>
      curr <= bit /\ bit + n <= pp_size p /\
      bit_run m (pp_bitmap p) false bit n /\
      (aligned = true -> (bit + pp_start p n aligned) mod n = 0)
  | inl c =>
      0 <= c /\
      (pp_free p <> 0 -> aligned = false ->
       c = 0 /\ forall j, curr <= j -> j + n <= pp_size p ->
                  ~ bit_run m (pp_bitmap p) false j n)
  end.
Proof.
  intros Hwf Hn. revert curr.
  induction fuel as [|fuel IH]; intros curr Hc Hf1 Hf; [lia|]. simpl.
  destruct (Z.eqb_spec (pp_free p) 0) as [|Hfree].
  { eexists; split; [done|]; simpl; split; [lia|done]. }
  destruct (find_free p m curr n) as (bit & -> & [[-> Hno]|(H1 & H2 & H3 & _)]);
    [done..| |]; simpl.
  - eexists; split; [done|]. simpl. split; [|by intros _ ->].
    destruct aligned; [apply Z.mod_pos_bound; lia|lia].
  - replace (bit <? 0) with false by lia.
    destruct aligned; simpl; [|eexists; split; [done|]; simpl; by split_and!].
    destruct (Z.eqb_spec ((bit + pp_start p n true) mod n) 0) as [E|E]; simpl.
    + eexists; split; [done|]. simpl. by split_and!.
    + pose proof (Z.mod_pos_bound (bit + pp_start p n true) n ltac:(lia)).
      edestruct IH as (r & -> & Hr); [| | |exists r; split; [done|]]; [lia..|].
      destruct r; simpl in *; [|destruct Hr as (? & ? & ? & ?); split_and!; lia || done].
      destruct Hr; split; [lia|]. intros _ ?. done.
Qed.

(** What a successful contiguous allocation promises. *)
Record allocated (m : mem) (p : page_pool) (n : Z)
    (pp : ppages) (p' : page_pool) (m' : mem) (bit : Z) : Prop := {
  al_range : 0 <= bit /\ bit + n <= pp_size p;
  al_base : pg_base pp = pp_base p + bit * PAGE_SIZE;
  al_size : pg_size pp = n /\ pg_colors pp = 0;
  al_free : forall j, bit <= j < bit + n -> taken m p j = false;
  al_taken : forall j, taken m' p j = (bit <=? j) && (j <? bit + n) || taken m p j;
  al_outside : same_outside (bitmap_words p) m m';
  al_pool : p' = mk_pool (pp_base p) (pp_size p) (u64 (pp_free p - n)) (bit + n) (pp_bitmap p)
}.

Lemma pp_commit_spec p m n bit :
  1 <= n -> 0 <= bit -> bit + n <= pp_size p ->
  bit_run m (pp_bitmap p) false bit n ->
  exists pp p' m', pp_commit m p n bit = (true, pp, p', m') /\
    allocated m p n pp p' m' bit.
Proof.
  intros. do 3 eexists. split; [done|]. split; simpl; try done.
  - intros j. unfold taken. rewrite bitmap_set_consecutive_spec by lia. done.
  - apply bitmap_set_loop_outside; lia.
Qed.

Lemma pp_start_nonneg p n aligned : 1 <= n -> 0 <= pp_start p n aligned.
Proof.
  intros. unfold pp_start. destruct aligned; [|lia].
  pose proof (Z.mod_pos_bound (pp_base p / PAGE_SIZE) n). lia.
Qed.

(** Every call returns: a run of [n] free pages (on the residue the alignment
    test asks for), or failure with nothing changed; an unaligned request fails
    only when the free counter is 0 or no run of [n] free pages exists. *)
Lemma pp_alloc_cases p m n aligned pp0 :
  pool_wf p -> 1 <= n ->
  (exists bit pp p' m', pp_alloc m p n aligned pp0 = Some (true, pp, p', m') /\
     allocated m p n pp p' m' bit /\
     (aligned = true -> (bit + pp_start p n aligned) mod n = 0)) \/
  (pp_alloc m p n aligned pp0 = Some (false, mk_ppages (pg_base pp0) 0 0, p, m) /\
   (pp_free p <> 0 -> aligned = false ->
    forall j, 0 <= j -> j + n <= pp_size p -> ~ bit_run m (pp_bitmap p) false j n)).
Proof.
  intros Hwf Hn. unfold pp_alloc. replace (n =? 0) with false by lia.
  pose proof (pp_start_nonneg p n aligned Hn).
  pose proof (Z.mod_pos_bound (pp_last p + pp_start p n aligned) n ltac:(lia)).
  assert (0 <= pp_last p /\ 0 <= pp_size p) by (destruct Hwf; lia).
  edestruct (pp_search_spec (S (Z.to_nat (pp_size p))) p m n aligned
    (pp_last p + (pp_last p + pp_start p n aligned) mod n)) as ([c|bit] & -> & Hr);
    [done|done|lia|lia|lia| |]; simpl in Hr; cbn [mbind option_bind].
  - destruct Hr as [Hc Hno].
    edestruct (pp_search_spec (S (Z.to_nat (pp_size p))) p m n aligned c)
      as ([c2|bit] & -> & Hr); [done|done|lia|lia|lia| |]; simpl in Hr; cbn [mbind option_bind].
    + right. split; [done|]. intros Hf Ha j Hj Hjn.
      destruct (Hno Hf Ha) as [-> _]. destruct Hr as [_ Hr].
      destruct (Hr Hf Ha) as [_ Hr']. by apply Hr'.
    + left. destruct Hr as (? & ? & ? & ?).
      edestruct (pp_commit_spec p m n bit) as (pp & p' & m' & -> & ?); [lia..|done|].
      exists bit, pp, p', m'. done.
  - left. destruct Hr as (? & ? & ? & ?).
    edestruct (pp_commit_spec p m n bit) as (pp & p' & m' & -> & ?); [lia..|done|].
    exists bit, pp, p', m'. done.
Qed.

(** The alignment test relates the page number to the pool base: when the base
    is a multiple of [n] pages, so is the block found. *)
Lemma aligned_residue p n bit :
  1 <= n -> (bit + pp_start p n true) mod n = 0 ->
  (pp_base p / PAGE_SIZE) mod n = 0 -> (pp_base p / PAGE_SIZE + bit) mod n = 0.
Proof.
  unfold pp_start. intros Hn Hr Hb. rewrite Hb, Z.sub_0_r in Hr.
  rewrite <- Zplus_mod_idemp_l, Hb, Z.add_0_l, <- (Z_mod_plus_full bit 1 n).
  by rewrite Z.mul_1_l.
Qed.

Lemma allocated_wf m p n pp p' m' bit :
  pool_wf p -> 1 <= n -> allocated m p n pp p' m' bit -> pool_wf p'.
Proof.
  intros (? & ? & ? & ?) ? []. subst. unfold pool_wf; simpl.
  pose proof (wrap_range 64 (pp_free p - n)). lia.
Qed.

(** ** Several pools *)
Definition disjoint_bitmaps (p q : page_pool) : Prop :=
  forall a, bitmap_words p a -> ~ bitmap_words q a.

Lemma taken_outside p q m m' j :
  disjoint_bitmaps p q -> 0 <= j <= pp_size q ->
  same_outside (bitmap_words p) m m' -> taken m' q j = taken m q j.
Proof.
  intros Hd Hj Hs. unfold taken. rewrite !bit_at_unfold, Hs; [done|].
  intros Hp. apply (Hd _ Hp). unfold bitmap_words.
  assert (0 <= j / 32) by (apply Z.div_pos; lia).
  assert (j / 32 <= pp_size q / 32) by (apply Z.div_le_mono; lia). lia.
Qed.

(** A contiguous request served by a list of pools: the first pool that can
    serve it is changed and no other; when none can, nothing changes. *)
Lemma alloc_from_pools_spec CN CS m pools colors n aligned pp0 :
  Forall pool_wf pools -> 1 <= n -> all_clrs CN colors || aligned = true ->
  pg_size pp0 = 0 ->
  exists pp pools' m', alloc_from_pools CN CS m pools colors n aligned pp0 = Some (pp, pools', m') /\
  ((pg_size pp = 0 /\ pools' = pools /\ m' = m) \/
   exists l1 p l2 p' bit, pools = l1 ++ p :: l2 /\ pools' = l1 ++ p' :: l2 /\
     allocated m p n pp p' m' bit /\ (aligned = true -> (bit + pp_start p n aligned) mod n = 0)).
Proof.
  intros Hwf Hn Hc. revert pp0. induction pools as [|p rest IH]; intros pp0 H0; simpl.
  { do 3 eexists. split; [done|]. by left. }
  inversion Hwf as [|? ? Hp Hrest]; subst.
  assert (negb (all_clrs CN colors) && negb aligned = false) as ->
    by (destruct (all_clrs CN colors), aligned; done).
  destruct (pp_alloc_cases p m n aligned pp0 Hp Hn)
    as [(bit & pp & p' & m' & -> & Hal & Hres)|[-> _]]; cbn.
  - do 3 eexists. split; [done|]. right. exists [], p, rest, p', bit. done.
  - destruct (IH Hrest (mk_ppages (pg_base pp0) 0 0) eq_refl) as (pp & ps & m' & -> & Hr).
    cbn. do 3 eexists. split; [done|].
    destruct Hr as [(? & -> & ->)|(l1 & q & l2 & q' & bit & -> & -> & Hal)]; [by left|].
    right. exists (p :: l1), q, l2, q', bit. done.
Qed.

(** ** Freeing what was allocated *)
Lemma block_in_range p bit n :
  pool_wf p -> 0 <= bit -> 0 <= n -> bit + n <= pp_size p ->
  range_in_range (pp_base p + bit * PAGE_SIZE) (n * PAGE_SIZE) (pp_base p) (pp_size p * PAGE_SIZE) = true.
Proof.
  intros (? & ? & _) ???. unfold range_in_range, PAGE_SIZE. rewrite !wrap_small by lia. lia.
Qed.

Lemma in_range_block p bit n :
  pool_wf p -> 0 <= bit -> 0 <= n -> bit + n <= pp_size p ->
  in_range (pp_base p + bit * PAGE_SIZE) (pp_base p) (pp_size p * PAGE_SIZE) = true.
Proof. intros. apply (block_in_range p bit 0); done || lia. Qed.

Lemma pool_free_spec CN CS m p bit n pp :
  pool_wf p -> 0 <= n -> 0 <= bit -> bit + n <= pp_size p -> all_clrs CN (pg_colors pp) = true ->
  pg_base pp = pp_base p + bit * PAGE_SIZE -> pg_size pp = n ->
  exists m', pool_free_ppages CN CS m p pp = Some m' /\
    (forall j, taken m' p j = negb ((bit <=? j) && (j <? bit + n)) && taken m p j) /\
    same_outside (bitmap_words p) m m'.
Proof.
  intros Hwf Hn Hb Hr Hc Hbase Hsz. unfold pool_free_ppages.
  rewrite Hbase, in_range_block with (n := n), Hc by done. simpl.
  replace ((pp_base p + bit * PAGE_SIZE - pp_base p) / PAGE_SIZE) with bit
    by (rewrite Z.add_simpl_l, Z.div_mul; done).
  eexists. split; [done|]. rewrite Hsz. split.
  - intros j. unfold taken. by rewrite bitmap_clear_consecutive_spec.
  - apply bitmap_clear_loop_outside; lia.
Qed.

(** ** Reservation *)
Lemma NUM_PAGES_exact k : NUM_PAGES (k * PAGE_SIZE) = k.
Proof.
  unfold NUM_PAGES, ALIGN, PAGE_SIZE.
  replace (k * 4096 + 4096 - 1) with (4095 + k * 4096) by lia.
  rewrite Z.div_add by lia. change (4095 / 4096) with 0. rewrite Z.add_0_l.
  apply Z.div_mul. lia.
Qed.

Lemma reserved_in_pool_spec m p off n :
  pool_wf p -> 0 <= off -> 1 <= n -> off + n <= pp_size p ->
  let pp := mem_ppages_get (pp_base p + off * PAGE_SIZE) n in
  mem_are_ppages_reserved_in_pool m p pp = false <->
  (forall j, off <= j < off + n -> taken m p j = false).
Proof.
  intros Hwf Ho Hn Hr pp. unfold mem_are_ppages_reserved_in_pool. simpl.
  rewrite block_in_range by (done || lia).
  rewrite Z.add_simpl_l, NUM_PAGES_exact, bitmap_get_spec.
  fold (taken m p off). unfold taken. split.
  - intros H j Hj. apply orb_false_iff in H as [H1 H2].
    destruct (bit_at m (pp_bitmap p) off) eqn:E; [done|].
    destruct (decide (n = 1)) as [->|]; [replace j with off by lia; done|].
    destruct (bitmap_count_consecutive_spec m (pp_bitmap p) (pp_size p) off n)
      as (? & ? & Hrun & _); [lia|]. rewrite Hrun by lia. done.
  - intros H. rewrite (H off) by lia. simpl.
    destruct (decide (n = 1)) as [->|]; [done|].
    destruct (bitmap_count_consecutive_spec m (pp_bitmap p) (pp_size p) off n)
      as (? & ? & Hrun & Hend); [lia|]. apply Z.ltb_ge.
    destruct Hend as [|[|Hb']]; [lia..|].
    destruct (decide (n <= bitmap_count_consecutive m (pp_bitmap p) (pp_size p) off n)); [done|].
    rewrite (H off), (H (off + _)) in Hb' by lia. done.
Qed.

(** ** Cache colours *)
Section ColorFacts.
Context (CN CS : Z) (HCN : 0 < CN) (HCS : 0 < CS).

(** The colour of page [i] of a region depends on its page number only. *)
Definition page_color (base i : Z) : Z := ((base / PAGE_SIZE + i) / CS) mod CN.
Definition wanted (colors base i : Z) : bool := Z.testbit colors (page_color base i).

Lemma color_offset base i :
  ((i + (base / PAGE_SIZE) mod (CN * CS)) / CS) mod CN = page_color base i.
Proof.
  unfold page_color. set (pfn := base / PAGE_SIZE).
  rewrite (Z.div_mod pfn (CN * CS)) at 2 by nia.
  replace (CN * CS * (pfn / (CN * CS)) + pfn mod (CN * CS) + i)
    with ((i + pfn mod (CN * CS)) + (pfn / (CN * CS) * CN) * CS) by ring.
  rewrite Z.div_add by lia. by rewrite Z_mod_plus_full.
Qed.

Lemma page_color_range base i : 0 <= page_color base i < CN.
Proof. apply Z.mod_pos_bound. lia. Qed.

(** Every colour occurs among [CN * CS] consecutive pages. *)
Lemma color_occurs base from c :
  0 <= c < CN -> exists d, 0 <= d < CN * CS /\ page_color base (from + d) = c.
Proof.
  intros Hc. set (t := base / PAGE_SIZE + from).
  exists ((c * CS - t) mod (CN * CS)). split; [apply Z.mod_pos_bound; nia|].
  unfold page_color. replace (base / PAGE_SIZE + (from + (c * CS - t) mod (CN * CS)))
    with (t + (c * CS - t) mod (CN * CS)) by lia.
  pose proof (Z.div_mod (c * CS - t) (CN * CS) ltac:(nia)) as E.
  replace (t + (c * CS - t) mod (CN * CS))
    with ((c + - ((c * CS - t) / (CN * CS)) * CN) * CS) by lia.
  rewrite Z.div_mul by lia. rewrite Z_mod_plus_full. apply Z.mod_small. lia.
Qed.

Lemma next_clr_test base colors index :
  (Z.land (Z.shiftr colors
     (((index + (base / PAGE_SIZE) mod (CN * CS)) / CS) mod CN)) 1 =? 0)
  = negb (wanted colors base index).
Proof.
  rewrite color_offset. apply land_1_eqb. apply page_color_range.
Qed.

Lemma next_clr_loop_spec fuel base colors i d :
  0 <= d <= Z.of_nat fuel -> wanted colors base (i + d) = true ->
  exists r, pp_next_clr_loop CN CS fuel ((base / PAGE_SIZE) mod (CN * CS)) colors i = Some r /\
    i <= r <= i + d /\ wanted colors base r = true /\
    forall j, i <= j < r -> wanted colors base j = false.
Proof.
  revert i d. induction fuel as [|fuel IH]; intros i d Hd Hw; simpl;
    rewrite next_clr_test; destruct (wanted colors base i) eqn:E; simpl;
    try (exists i; split_and!; [done|lia|lia|done|lia]).
  - replace (i + d) with i in Hw by lia. congruence.
  - destruct (decide (d = 0)) as [->|]; [rewrite Z.add_0_r in Hw; congruence|].
    destruct (IH (i + 1) (d - 1)) as (r & -> & ? & ? & Hno);
      [lia|by replace (i + 1 + (d - 1)) with (i + d) by lia|].
    exists r. split_and!; [done|lia|lia|done|]. intros j Hj.
    destruct (decide (j = i)) as [->|]; [done|]. apply Hno. lia.
Qed.

Definition some_color (colors : Z) : Prop := exists c, 0 <= c < CN /\ Z.testbit colors c = true.

Lemma pp_next_clr_spec base from colors :
  0 <= from < 2 ^ 31 -> some_color colors ->
  exists r, pp_next_clr CN CS base from colors = Some r /\
    from <= r < from + CN * CS /\ wanted colors base r = true /\
    forall j, from <= j < r -> wanted colors base j = false.
Proof.
  intros Hf (c & Hc & Hb). unfold pp_next_clr.
  rewrite sgn_small, wrap_small by lia.
  destruct (color_occurs base from c Hc) as (d & Hd & Ed).
  destruct (next_clr_loop_spec (clr_fuel CN CS) base colors from d) as (r & -> & ? & ? & ?).
  - unfold clr_fuel. lia.
  - unfold wanted. by rewrite Ed.
  - exists r. split_and!; [done|lia|lia|done|done].
Qed.

(** Whatever page the search stops at has a requested colour. *)
Lemma pp_next_clr_wanted base from colors r :
  pp_next_clr CN CS base from colors = Some r -> wanted colors base r = true.
Proof.
  unfold pp_next_clr. generalize (u64 (s32 from)). generalize (clr_fuel CN CS).
  intros fuel. induction fuel as [|fuel IH]; intros i; simpl; rewrite next_clr_test;
    destruct (wanted colors base i) eqn:E; simpl; intros; simplify_eq; eauto.
Qed.

(** With no colour below [COLOR_NUM] the loop never ends. *)
Lemma next_clr_diverges fuel base colors i :
  (forall c, 0 <= c < CN -> Z.testbit colors c = false) ->
  pp_next_clr_loop CN CS fuel ((base / PAGE_SIZE) mod (CN * CS)) colors i = None.
Proof.
  intros H. revert i. induction fuel as [|fuel IH]; intros i; simpl; rewrite next_clr_test;
    unfold wanted; rewrite H by apply page_color_range; simpl; auto.
Qed.

(** *** The coloured allocator terminates *)
Section Clr.
Context (m : mem) (p : page_pool) (n colors : Z).
Context (Hwf : pool_wf p) (Hcol : some_color colors).

Lemma clr_skip_total fuel top i :
  0 <= i -> top < 2 ^ 31 -> top - i <= Z.of_nat fuel ->
  exists r, clr_skip CN CS m p colors fuel top i = Some r /\
    i <= r <= Z.max i (top + CN * CS).
Proof.
  revert i. induction fuel as [|fuel IH]; intros i Hi Ht Hf; simpl.
  { destruct (Z.ltb_spec i top); [lia|]. simpl. exists i. split; [done|lia]. }
  destruct (Z.ltb_spec i top); simpl; [|exists i; split; [done|lia]].
  destruct (bitmap_get m (pp_bitmap p) i =? 0); simpl; [exists i; split; [done|lia]|].
  destruct (pp_next_clr_spec (pp_base p) (i + 1) colors) as (r & -> & ? & _); [lia|done|].
  simpl. destruct (IH r) as (r' & -> & ?); [lia..|]. exists r'. split; [done|lia].
Qed.

Lemma clr_count_total fuel top i a :
  0 <= i -> top < 2 ^ 31 -> top - i <= Z.of_nat fuel ->
  exists r a', clr_count CN CS m p n colors fuel top i a = Some (r, a') /\ i <= r.
Proof.
  revert i a. induction fuel as [|fuel IH]; intros i a Hi Ht Hf; simpl.
  { destruct (Z.ltb_spec i top); [lia|]. simpl. by exists i, a. }
  destruct (Z.ltb_spec i top); simpl; [|by exists i, a].
  destruct ((bitmap_get m (pp_bitmap p) i =? 0) && (a <? n)); simpl; [|by exists i, a].
  destruct (pp_next_clr_spec (pp_base p) (i + 1) colors) as (r & -> & ? & _); [lia|done|].
  simpl. destruct (IH r (a + 1)) as (r' & a' & -> & ?); [lia..|].
  exists r', a'. split; [done|lia].
Qed.

Lemma clr_search_total fuel top i a first B :
  0 <= i -> top < 2 ^ 31 -> top - i <= Z.of_nat fuel ->
  0 <= first <= B -> top + CN * CS <= B ->
  exists a' first', clr_search CN CS m p n colors fuel top i a first = Some (a', first') /\
    0 <= first' <= B.
Proof.
  revert i a first. induction fuel as [|fuel IH]; intros i a first Hi Ht Hf H1 HB;
    cbn [clr_search].
  { destruct (Z.ltb_spec i top); [lia|]. rewrite andb_false_r. by exists a, first. }
  destruct (Z.ltb_spec i top); rewrite ?andb_false_r, ?andb_true_r; [|by exists a, first].
  destruct (a <? n); [|by exists a, first].
  destruct (clr_skip_total (S (Z.to_nat top)) top i) as (j & Hj & ?); [lia..|].
  rewrite Hj. cbn [mbind option_bind].
  destruct (clr_count_total (S (Z.to_nat top)) top j 0) as (k & a' & Hk & ?); [lia..|].
  rewrite Hk. cbn [mbind option_bind]. apply IH; lia.
Qed.
End Clr.

(** The pages marked all have a requested colour; none is released. *)
Definition color_grow (m m' : mem) (p : page_pool) (colors : Z) : Prop :=
  forall j, (taken m p j = true -> taken m' p j = true) /\
            (taken m' p j = true -> taken m p j = true \/ wanted colors (pp_base p) j = true).

Lemma clr_mark_spec k m p colors first :
  some_color colors -> 0 <= first -> first + Z.of_nat k * (CN * CS) < 2 ^ 31 ->
  exists m' first', clr_mark CN CS m p colors first k = Some (m', first') /\
    color_grow m m' p colors /\ first <= first' <= first + Z.of_nat k * (CN * CS).
Proof.
  intros Hc. revert m first. induction k as [|k IH]; intros m first Hf Hb; simpl clr_mark.
  { exists m, first. split_and!; [done| |lia..]. intros j. auto. }
  destruct (pp_next_clr_spec (pp_base p) first colors) as (r & -> & ? & Hw & _); [lia|done|].
  cbn [mbind option_bind].
  destruct (IH (bitmap_set m (pp_bitmap p) r) (r + 1)) as (m' & f' & -> & Hg & ?); [lia..|].
  exists m', f'. split_and!; [done| |lia..]. intros j. destruct (Hg j) as [G1 G2].
  unfold taken in G1, G2 |- *. rewrite bit_at_set in G1, G2.
  destruct (Z.eqb_spec j r) as [E|]; simpl in *; [|auto]. split; [auto|].
  rewrite E. by right.
Qed.

Lemma pp_alloc_clr_spec m p n colors pp0 :
  pool_wf p -> some_color colors -> 0 <= n -> pp_size p + (n + 2) * (CN * CS) < 2 ^ 31 ->
  exists ok pp p' m', pp_alloc_clr CN CS m p n colors pp0 = Some (ok, pp, p', m') /\
    color_grow m m' p colors /\ pg_colors pp = colors /\
    (if (ok : bool) then pg_size pp = n /\ pp_free p' = u64 (pp_free p - n)
     else pg_size pp = 0 /\ p' = p /\ m' = m).
Proof.
  intros Hwf Hc Hn Hb. destruct Hwf as (? & ? & ? & ?). unfold pp_alloc_clr.
  assert (forall first, 0 <= first <= pp_size p + CN * CS ->
    exists ok pp p' m', clr_commit CN CS m p n colors first = Some (ok, pp, p', m') /\
    color_grow m m' p colors /\ pg_colors pp = colors /\
    (if (ok : bool) then pg_size pp = n /\ pp_free p' = u64 (pp_free p - n)
     else pg_size pp = 0 /\ p' = p /\ m' = m)) as Hcommit.
  { intros first Hf. unfold clr_commit.
    destruct (clr_mark_spec (Z.to_nat n) m p colors first) as (m' & f' & -> & ? & _);
      [done|lia|lia|]. cbn. by do 4 eexists. }
  destruct (pp_next_clr_spec (pp_base p) (pp_last p) colors) as (i & -> & ? & _); [lia|done|].
  cbn [mbind option_bind].
  destruct (clr_search_total m p n colors Hc (S (Z.to_nat (pp_size p))) (pp_size p) i 0 0
    (pp_size p + CN * CS)) as (a & f & -> & ?); [lia..|]. cbn [mbind option_bind].
  destruct (a =? n); [apply Hcommit; lia|].
  destruct (clr_search_total m p n colors Hc (S (Z.to_nat (pp_last p))) (pp_last p) 0 a f
    (pp_size p + CN * CS)) as (a2 & f2 & -> & ?); [lia..|].
  cbn [mbind option_bind]. destruct (a2 =? n); [apply Hcommit; lia|].
  do 4 eexists. split; [done|]. split; [intros j; auto|]. done.
Qed.
End ColorFacts.

(** ** Properties *)

(** C28. [pp_alloc] always returns. On success the block lies inside the pool,
    every page of it was free and is now taken, no other page and no memory
    outside the pool's bitmap changed, the pool still satisfies its invariant
    and [free] and [last] moved as the code says; on failure pool and memory
    are unchanged and the size reported is 0. *)
Theorem pp_alloc_correct p m n aligned pp0 :
  pool_wf p -> 1 <= n ->
  exists ok pp p' m', pp_alloc m p n aligned pp0 = Some (ok, pp, p', m') /\
    if (ok : bool)
    then (exists bit, allocated m p n pp p' m' bit) /\ pool_wf p'
    else pg_size pp = 0 /\ p' = p /\ m' = m.
Proof.
  intros Hwf Hn. destruct (pp_alloc_cases p m n aligned pp0 Hwf Hn)
    as [(bit & pp & p' & m' & -> & Hal & _)|[-> _]]; do 4 eexists; (split; [done|]).
  - split; [by exists bit|by eapply allocated_wf].
  - done.
Qed.

(** A pool of 64 pages at 0x80200000 whose first 5 pages are taken. *)
Definition demo_pool : page_pool := mk_pool 0x80200000 64 59 5 100.
Definition demo_mem : mem := bitmap_set_consecutive ∅ 100 0 5.

Lemma demo_pool_wf : pool_wf demo_pool.
Proof. unfold pool_wf, demo_pool; simpl. lia. Qed.

Lemma pp_alloc_correct_witness :
  exists ok pp p' m',
    pp_alloc demo_mem demo_pool 4 false (mk_ppages 0 0 0) = Some (ok, pp, p', m') /\
    if (ok : bool)
    then (exists bit, allocated demo_mem demo_pool 4 pp p' m' bit) /\ pool_wf p'
    else pg_size pp = 0 /\ p' = demo_pool /\ m' = demo_mem.
Proof. apply (pp_alloc_correct demo_pool demo_mem 4 false); [apply demo_pool_wf|lia]. Defined.

(** An unaligned request cannot fail while the pool counts a free page and
    holds [n] consecutive free pages anywhere: the second search starts over
    from page 0. *)
Theorem pp_alloc_complete p m n pp0 j :
  pool_wf p -> 1 <= n -> pp_free p <> 0 ->
  0 <= j -> j + n <= pp_size p -> bit_run m (pp_bitmap p) false j n ->
  exists pp p' m', pp_alloc m p n false pp0 = Some (true, pp, p', m').
Proof.
  intros Hwf Hn Hf Hj Hjn R. destruct (pp_alloc_cases p m n false pp0 Hwf Hn)
    as [(bit & pp & p' & m' & -> & _)|[_ Hno]]; [by do 3 eexists|].
  exfalso. by apply (Hno Hf eq_refl j Hj Hjn).
Qed.

Lemma pp_alloc_complete_witness :
  exists pp p' m', pp_alloc ∅ demo_pool 3 false (mk_ppages 0 0 0) = Some (true, pp, p', m').
Proof.
  apply (pp_alloc_complete demo_pool ∅ 3 (mk_ppages 0 0 0) 0);
    [apply demo_pool_wf|lia|done|lia|done|]. intros i _. apply Z.bits_0.
Defined.

(** An aligned request in a pool whose base is a multiple of [n] pages
    returns a block whose physical page number is a multiple of [n]. *)
Theorem pp_alloc_aligned p m n pp0 pp p' m' :
  pool_wf p -> 1 <= n -> (pp_base p / PAGE_SIZE) mod n = 0 ->
  pp_alloc m p n true pp0 = Some (true, pp, p', m') ->
  (pg_base pp / PAGE_SIZE) mod n = 0.
Proof.
  intros Hwf Hn Hb Ha. destruct (pp_alloc_cases p m n true pp0 Hwf Hn)
    as [(bit & pp1 & p1 & m1 & Ha' & Hal & Hres)|[Ha' _]]; rewrite Ha in Ha'; simplify_eq.
  destruct Hal as [_ -> _ _ _ _ _]. unfold PAGE_SIZE in *. rewrite Z.div_add by lia.
  by apply aligned_residue; [| apply Hres|].
Qed.

Lemma pp_alloc_aligned_witness :
  exists pp p' m', pp_alloc demo_mem demo_pool 4 true (mk_ppages 0 0 0) = Some (true, pp, p', m') /\
    (pg_base pp / PAGE_SIZE) mod 4 = 0.
Proof.
  do 3 eexists. split; [vm_compute; reflexivity|].
  eapply (pp_alloc_aligned demo_pool demo_mem 4 (mk_ppages 0 0 0));
    [apply demo_pool_wf|lia|reflexivity|vm_compute; reflexivity].
Defined.

(** In a pool whose base is not a multiple of the block size the alignment
    test of [pp_alloc] accepts the wrong residue: asked for 4 aligned pages, an
    empty pool that starts at page 1 hands out pages 2 to 5. *)
Theorem pp_alloc_misaligned :
  exists pp p' m',
    pp_alloc ∅ (mk_pool PAGE_SIZE 64 64 0 100) 4 true (mk_ppages 0 0 0)
      = Some (true, pp, p', m') /\ (pg_base pp / PAGE_SIZE) mod 4 = 2.
Proof. do 3 eexists. split; vm_compute; reflexivity. Qed.

(** Allocation over a list of pools with disjoint bitmaps changes at most
    one pool: the pages of every other pool stay as they were, and a request no
    pool can serve changes nothing and reports size 0. *)
Theorem mem_alloc_ppages_isolated CN CS m pools colors n aligned :
  Forall pool_wf pools -> 1 <= n -> all_clrs CN colors || aligned = true ->
  (forall i k p q, pools !! i = Some p -> pools !! k = Some q -> i <> k -> disjoint_bitmaps p q) ->
  exists pp pools' m', mem_alloc_ppages CN CS m pools colors n aligned = Some (pp, pools', m') /\
    ((pg_size pp = 0 /\ pools' = pools /\ m' = m) \/
     exists i p p' bit, pools !! i = Some p /\ pools' = <[i := p']> pools /\
       allocated m p n pp p' m' bit /\
       forall k q j, pools !! k = Some q -> k <> i -> 0 <= j < pp_size q ->
         taken m' q j = taken m q j).
Proof.
  intros Hwf Hn Hc Hd.
  destruct (alloc_from_pools_spec CN CS m pools colors n aligned (mk_ppages 0 0 0))
    as (pp & ps & m' & Ha & Hr); [done..|].
  exists pp, ps, m'. split; [done|]. destruct Hr as [Hr|(l1 & p & l2 & p' & bit & -> & -> & Hal & _)];
    [by left|]. right.
  assert ((l1 ++ p :: l2) !! length l1 = Some p) as Hp by (by apply list_lookup_middle).
  exists (length l1), p, p', bit. split_and!; [done| |done|].
  - rewrite insert_app_r_alt by lia. by rewrite Nat.sub_diag.
  - intros k q j Hq Hk Hj. apply (taken_outside p); [by eapply Hd|lia|apply Hal].
Qed.

Lemma mem_alloc_ppages_isolated_witness :
  exists pp pools' m',
    mem_alloc_ppages 1 1 demo_mem [demo_pool] 0 2 false = Some (pp, pools', m') /\
    ((pg_size pp = 0 /\ pools' = [demo_pool] /\ m' = demo_mem) \/
     exists i p p' bit, [demo_pool] !! i = Some p /\ pools' = <[i := p']> [demo_pool] /\
       allocated demo_mem p 2 pp p' m' bit /\
       forall k q j, [demo_pool] !! k = Some q -> k <> i -> 0 <= j < pp_size q ->
         taken m' q j = taken demo_mem q j).
Proof.
  apply (mem_alloc_ppages_isolated 1 1 demo_mem [demo_pool] 0 2 false); [|lia|reflexivity|].
  - constructor; [apply demo_pool_wf|constructor].
  - intros [|i] [|k] p q; simpl; done.
Defined.

(** Freeing a block restores the bitmap of its pool exactly, but the pool's
    [free] counter keeps the value it had after the allocation. When that value
    is 0, the pool refuses every later request although all pages of the block
    are free again. *)
Theorem alloc_free_roundtrip CN CS m p n pp p' m' bit :
  pool_wf p -> 1 <= n -> allocated m p n pp p' m' bit ->
  exists m'', pool_free_ppages CN CS m' p' pp = Some m'' /\
    (forall j, taken m'' p' j = taken m p j) /\
    (pp_free p = n -> forall k aligned pp0, 1 <= k ->
       pp_alloc m'' p' k aligned pp0 = Some (false, mk_ppages (pg_base pp0) 0 0, p', m'')).
Proof.
  intros Hwf Hn Hal. pose proof (allocated_wf _ _ _ _ _ _ _ Hwf Hn Hal) as Hwf'.
  destruct Hal as [Hr Hb [Hsz Hcol] Hfree Htk Hout ->].
  destruct (pool_free_spec CN CS m' (mk_pool (pp_base p) (pp_size p) (u64 (pp_free p - n))
    (bit + n) (pp_bitmap p)) bit n pp) as (m'' & -> & Htk' & _); simpl; try done || lia.
  { by rewrite Hcol. }
  exists m''. split_and!; [done| |].
  - intros j. rewrite Htk'. unfold taken in *. simpl. rewrite Htk.
    destruct ((bit <=? j) && (j <? bit + n)) eqn:E; simpl; [|done].
    symmetry. apply Hfree. lia.
  - intros Hf k aligned pp0 Hk. unfold pp_alloc. replace (k =? 0) with false by lia.
    simpl. rewrite Hf, Z.sub_diag. reflexivity.
Qed.

Lemma alloc_free_roundtrip_witness :
  exists pp p' m', pp_alloc ∅ (mk_pool 0 4 4 0 100) 4 false (mk_ppages 0 0 0) = Some (true, pp, p', m') /\
  exists m'', pool_free_ppages 1 1 m' p' pp = Some m'' /\
    (forall j, taken m'' p' j = taken ∅ (mk_pool 0 4 4 0 100) j) /\
    (pp_free (mk_pool 0 4 4 0 100) = 4 -> forall k aligned pp0, 1 <= k ->
       pp_alloc m'' p' k aligned pp0 = Some (false, mk_ppages (pg_base pp0) 0 0, p', m'')).
Proof.
  exists (mk_ppages 0 4 0), (mk_pool 0 4 0 4 100), (bitmap_set_consecutive ∅ 100 0 4).
  split; [vm_compute; reflexivity|].
  apply (alloc_free_roundtrip 1 1 ∅ (mk_pool 0 4 4 0 100) 4 _ _ _ 0); [|lia|].
  - unfold pool_wf; simpl; lia.
  - split; simpl; try (vm_compute; reflexivity) || lia.
    + intros j _. apply Z.bits_0.
    + intros j. apply (bitmap_set_consecutive_spec ∅ 100 0 4 j). lia.
    + apply (bitmap_set_loop_outside (mk_pool 0 4 4 0 100) ∅ 0 4); simpl; lia.
Defined.

(** Reserving a block of a pool reports success exactly when none of its
    pages was taken, and leaves all of them taken and every other page as it
    was. *)
Theorem mem_reserve_correct m p off n :
  pool_wf p -> 0 <= off -> 1 <= n -> off + n <= pp_size p ->
  exists b p' m',
    mem_reserve_ppool_ppages m p (mem_ppages_get (pp_base p + off * PAGE_SIZE) n) = (b, p', m') /\
    (b = true <-> forall j, off <= j < off + n -> taken m p j = false) /\
    (forall j, taken m' p' j = (off <=? j) && (j <? off + n) || taken m p j) /\
    pp_free p' = u64 (pp_free p - n).
Proof.
  intros Hwf Ho Hn Hr. unfold mem_reserve_ppool_ppages. simpl pg_base. simpl pg_size.
  rewrite block_in_range by (done || lia).
  rewrite Z.add_simpl_l, NUM_PAGES_exact. simpl. do 3 eexists. split; [done|].
  split_and!; [|intros j; unfold taken; simpl; by rewrite bitmap_set_consecutive_spec by lia|done].
  rewrite negb_true_iff. by apply reserved_in_pool_spec.
Qed.

Lemma mem_reserve_correct_witness :
  exists b p' m',
    mem_reserve_ppool_ppages demo_mem demo_pool
      (mem_ppages_get (pp_base demo_pool + 4 * PAGE_SIZE) 2) = (b, p', m') /\
    (b = true <-> forall j, 4 <= j < 4 + 2 -> taken demo_mem demo_pool j = false) /\
    (forall j, taken m' p' j = (4 <=? j) && (j <? 4 + 2) || taken demo_mem demo_pool j) /\
    pp_free p' = u64 (pp_free demo_pool - 2).
Proof. apply (mem_reserve_correct demo_mem demo_pool 4 2); [apply demo_pool_wf|simpl; lia..]. Defined.

(** With at least one usable colour requested, the coloured allocator
    always returns, the pages it marks all have a requested colour, no page is
    released, and a failed request changes nothing. *)
Theorem pp_alloc_clr_colors CN CS m p n colors pp0 :
  0 < CN -> 0 < CS -> pool_wf p -> some_color CN colors -> 0 <= n ->
  pp_size p + (n + 2) * (CN * CS) < 2 ^ 31 ->
  exists ok pp p' m', pp_alloc_clr CN CS m p n colors pp0 = Some (ok, pp, p', m') /\
    color_grow CN CS m m' p colors /\ pg_colors pp = colors /\
    (if (ok : bool) then pg_size pp = n /\ pp_free p' = u64 (pp_free p - n)
     else pg_size pp = 0 /\ p' = p /\ m' = m).
Proof. intros. by apply pp_alloc_clr_spec. Qed.

Lemma pp_alloc_clr_colors_witness :
  exists ok pp p' m',
    pp_alloc_clr 2 1 demo_mem demo_pool 3 1 (mk_ppages 0 0 0) = Some (ok, pp, p', m') /\
    color_grow 2 1 demo_mem m' demo_pool 1 /\ pg_colors pp = 1 /\
    (if (ok : bool) then pg_size pp = 3 /\ pp_free p' = u64 (pp_free demo_pool - 3)
     else pg_size pp = 0 /\ p' = demo_pool /\ m' = demo_mem).
Proof.
  apply (pp_alloc_clr_colors 2 1 demo_mem demo_pool 3 1);
    [lia|lia|apply demo_pool_wf| |lia|simpl; lia].
  exists 0. split; [lia|reflexivity].
Defined.

(** The coloured allocator can hand out a page that is already taken: after
    a partial match the search resumes on the next page whatever its colour,
    counts that page, and marks pages of the right colour from there on. With
    two colours, even pages requested and pages 2 and 6 taken, a request for
    two pages marks pages 4 and 6. *)
Theorem pp_alloc_clr_double_allocation :
  let m := bitmap_set (bitmap_set ∅ 100 2) 100 6 in
  let p := mk_pool 0 32 30 0 100 in
  exists pp p' m', pp_alloc_clr 2 1 m p 2 1 (mk_ppages 0 0 0) = Some (true, pp, p', m') /\
    pg_size pp = 2 /\ taken m p 6 = true /\
    forall j, taken m' p j = ((j =? 4) || (j =? 6)) || taken m p j.
Proof.
  set (m := bitmap_set (bitmap_set ∅ 100 2) 100 6). cbv zeta.
  exists (mk_ppages (3 * PAGE_SIZE) 2 1), (mk_pool 0 32 28 7 100),
    (bitmap_set (bitmap_set m 100 4) 100 6).
  split_and!; [vm_compute; reflexivity..|]. intros j. unfold taken; simpl.
  rewrite (bit_at_set (bitmap_set m 100 4)), (bit_at_set m).
  by destruct (j =? 4), (j =? 6), (bit_at m 100 j).
Qed.

(** Releasing coloured pages clears the wrong ones: the inner [index]
    shadows the page offset of the block and starts at 0, so a two-page block
    at page 8 leaves pages 8 and 10 taken and frees pages 0 and 2 instead. *)
Theorem mem_free_colored_wrong_pages :
  let p := mk_pool 0 32 0 0 100 in
  let m := bitmap_set_consecutive ∅ 100 0 32 in
  exists m', mem_free_ppages 2 1 m [p] (mk_ppages (8 * PAGE_SIZE) 2 1) = Some m' /\
    taken m' p 8 = true /\ taken m' p 10 = true /\
    taken m' p 0 = false /\ taken m' p 2 = false.
Proof. eexists. split; [vm_compute; reflexivity|]. vm_compute. done. Qed.

(** [pp_next_clr] returns the nearest page of a requested colour, less
    than [COLOR_NUM * COLOR_SIZE] pages ahead, when some requested colour
    exists; when none does, its loop does not end for any number of steps. *)
Theorem pp_next_clr_correct CN CS base from colors :
  0 < CN -> 0 < CS -> 0 <= from < 2 ^ 31 ->
  (some_color CN colors ->
   exists r, pp_next_clr CN CS base from colors = Some r /\
     from <= r < from + CN * CS /\ wanted CN CS colors base r = true /\
     forall j, from <= j < r -> wanted CN CS colors base j = false) /\
  ((forall c, 0 <= c < CN -> Z.testbit colors c = false) ->
   forall fuel, pp_next_clr_loop CN CS fuel ((base / PAGE_SIZE) mod (CN * CS)) colors
                  (u64 (s32 from)) = None).
Proof.
  intros. split; intros; [by apply pp_next_clr_spec|by apply next_clr_diverges].
Qed.

Lemma pp_next_clr_correct_witness :
  (some_color 4 2 ->
   exists r, pp_next_clr 4 2 0x80200000 3 2 = Some r /\
     3 <= r < 3 + 4 * 2 /\ wanted 4 2 2 0x80200000 r = true /\
     forall j, 3 <= j < r -> wanted 4 2 2 0x80200000 j = false) /\
  ((forall c, 0 <= c < 4 -> Z.testbit 2 c = false) ->
   forall fuel, pp_next_clr_loop 4 2 fuel ((0x80200000 / PAGE_SIZE) mod (4 * 2)) 2
                  (u64 (s32 3)) = None).
Proof. apply (pp_next_clr_correct 4 2 0x80200000 3 2); lia. Defined.
