(* ===== verification/PageTable.v ===== *)
(** * Page tables

    [core/inc/page_table.h], [arch/riscv/inc/arch/page_table.h],
    [arch/riscv/page_table.c] and [mem_translate] of [arch/riscv/mem.c]: the
    entries and descriptors of the Sv39 and Sv39x4 tables, the walk to an entry
    and the translation of an address; then the view of a table the mapping
    code is verified against.

    Tables are 64-bit words of the memory the hypervisor addresses: on RISC-V
    physical memory is mapped one to one, so the address an entry holds is
    dereferenced as it is. *)

From S2P Require Import Prelude Bit Bitmap PagePool.

(** ** Entries *)
Definition PTE_ADDR_MSK : Z := Z.shiftl (Z.ones 44) 12.
Definition PTE_FLAGS_MSK : Z := 255.
Definition PTE_VALID : Z := 1.
Definition PTE_RWX : Z := 14.
Definition PTE_RSW_MSK : Z := 768.
Definition PTE_RSW_RSRV : Z := 768.
Definition PTE_TABLE : Z := 0.
Definition PTE_PAGE : Z := PTE_RWX.
Definition PTE_HYP_FLAGS : Z := 225.
Definition PTE_VM_FLAGS : Z := 209.

Definition pte_set (addr type flags : Z) : Z :=
  Z.lor (Z.lor (Z.shiftr (Z.land addr PTE_ADDR_MSK) 2) (Z.land flags PTE_FLAGS_MSK)) type.
Definition pte_addr (pte : Z) : Z := Z.land (u64 (Z.shiftl pte 2)) PTE_ADDR_MSK.
Definition pte_valid (pte : Z) : bool := negb (Z.land pte PTE_VALID =? 0).
Definition pte_set_rsw (pte flag : Z) : Z :=
  Z.lor (Z.land pte (Z.lnot PTE_RSW_MSK)) (Z.land flag PTE_RSW_MSK).
Definition pte_check_rsw (pte flag : Z) : bool :=
  Z.land pte PTE_RSW_MSK =? Z.land flag PTE_RSW_MSK.
Definition pte_table (pte : Z) : bool := Z.land pte 15 =? PTE_VALID.

(** ** Descriptors *)
Record page_table_dscr := mk_dscr {
  lvls : Z; lvl_off : list Z; lvl_wdt : list Z; lvl_term : list bool
}.

Definition sv39_pt_dscr : page_table_dscr := mk_dscr 3 [30; 21; 12] [39; 30; 21] [true; true; true].
Definition sv39x4_pt_dscr : page_table_dscr := mk_dscr 3 [30; 21; 12] [41; 30; 21] [true; true; true].

Record page_table := mk_pt { pt_root : Z; pt_root_flags : Z; pt_dscr : page_table_dscr }.

(** The three tables of a descriptor; the callers keep [lvl] below [lvls]. *)
Definition off (pt : page_table) (lvl : Z) : Z := default 0 (lvl_off (pt_dscr pt) !! Z.to_nat lvl).
Definition wdt (pt : page_table) (lvl : Z) : Z := default 0 (lvl_wdt (pt_dscr pt) !! Z.to_nat lvl).

Definition pt_nentries (pt : page_table) (lvl : Z) : Z := Z.shiftr (Z.shiftl 1 (wdt pt lvl)) (off pt lvl).
Definition pt_lvlsize (pt : page_table) (lvl : Z) : Z := Z.shiftl 1 (off pt lvl).
Definition pt_size (pt : page_table) (lvl : Z) : Z := pt_nentries pt lvl * 8.
Definition pt_getpteindex (pt : page_table) (pte lvl : Z) : Z := Z.land pte (pt_size pt lvl - 1) / 8.
Definition pt_getpteindex_by_va (pt : page_table) (va lvl : Z) : Z :=
  Z.land (Z.shiftr va (off pt lvl)) (pt_nentries pt lvl - 1).
Definition pt_lvl_terminal (pt : page_table) (lvl : Z) : bool :=
  default false (lvl_term (pt_dscr pt) !! Z.to_nat lvl).
Definition pt_pte_type (pt : page_table) (lvl : Z) : Z := PTE_PAGE.

(** ** Walks *)

(** [k] more levels down from the entry at [pte] of level [i]; 0 is [NULL]. *)
Fixpoint get_pte_loop (m : mem) (pt : page_table) (va pte i : Z) (k : nat) : Z :=
  match k with
  | O => pte
  | S k' =>
      if negb (pte_valid (ld m pte)) then 0
      else get_pte_loop m pt va (pte_addr (ld m pte) + 8 * pt_getpteindex_by_va pt va (i + 1)) (i + 1) k'
  end.

Definition pt_get_pte (m : mem) (pt : page_table) (lvl va : Z) : Z :=
  get_pte_loop m pt va (pt_root pt + 8 * pt_getpteindex_by_va pt va 0) 0 (Z.to_nat lvl).

Definition pt_get (m : mem) (pt : page_table) (lvl va : Z) : Z :=
  Z.land (pt_get_pte m pt lvl va) (Z.lnot (pt_size pt lvl - 1)).

(** The loop of [mem_translate]: the entry it stops at, and its level. *)
Fixpoint translate_loop (m : mem) (pt : page_table) (va pte i : Z) (k : nat) : Z * Z :=
  match k with
  | O => (pte, 0)
  | S k' =>
      if negb (pte_valid (ld m pte)) || negb (pte_table (ld m pte)) then (pte, i)
      else translate_loop m pt va (pte_addr (ld m pte) + 8 * pt_getpteindex_by_va pt va (i + 1)) (i + 1) k'
  end.

Definition mem_translate (m : mem) (pt : page_table) (va : Z) : option Z :=
  let '(pte, lvl) := translate_loop m pt va (pt_root pt + 8 * pt_getpteindex_by_va pt va 0) 0
                       (Z.to_nat (lvls (pt_dscr pt))) in
  if negb (pte =? 0) && pte_valid (ld m pte) then
    let mask := Z.shiftl 1 (off pt lvl) - 1 in
    Some (Z.lor (Z.land (pte_addr (ld m pte)) (Z.lnot mask)) (Z.land va mask))
  else None.

(** ** Facts on entries *)
Lemma pte_addr_testbit w i :
  0 <= i -> Z.testbit (pte_addr w) i = (12 <=? i) && (i <? 56) && Z.testbit w (i - 2).
Proof.
  intros Hi. unfold pte_addr, PTE_ADDR_MSK.
  rewrite Z.land_spec, wrap_testbit, Z.shiftl_spec, Z.shiftl_spec by lia.
  destruct (Z.leb_spec 12 i); simpl.
  - rewrite Z.testbit_ones_nonneg by lia. replace (i - 12 <? 44) with (i <? 56) by lia.
    destruct (Z.ltb_spec i 56); simpl; [|by rewrite !andb_false_r].
    replace (i <? 64) with true by lia. by rewrite andb_true_r.
  - rewrite (Z.testbit_neg_r _ (i - 12)) by lia. by rewrite andb_false_r.
Qed.

Lemma testbit_small x n i : 0 <= x < 2 ^ n -> 0 <= n <= i -> Z.testbit x i = false.
Proof. intros Hx Hi. rewrite <- (Z.mod_small x (2 ^ n)) by lia. apply Z.mod_pow2_bits_high. lia. Qed.

Lemma pte_addr_set addr type flags :
  0 <= type < 16 -> 0 <= addr < 2 ^ 56 -> addr mod 4096 = 0 -> pte_addr (pte_set addr type flags) = addr.
Proof.
  intros Ht Ha Hal. apply Z.bits_inj'. intros i Hi. rewrite pte_addr_testbit by done.
  destruct (Z.leb_spec 12 i); simpl.
  - destruct (Z.ltb_spec i 56); simpl.
    + unfold pte_set. rewrite !Z.lor_spec, Z.shiftr_spec, Z.land_spec by lia.
      rewrite Z.land_spec, (testbit_small PTE_FLAGS_MSK 8), (testbit_small type 4)
        by (unfold PTE_FLAGS_MSK; lia). rewrite andb_false_r, !orb_false_r. replace (i - 2 + 2) with i by lia. unfold PTE_ADDR_MSK.
      rewrite Z.shiftl_spec, Z.testbit_ones_nonneg by lia.
      replace (i - 12 <? 44) with true by lia. by rewrite andb_true_r.
    + symmetry. apply (testbit_small _ 56); lia.
  - symmetry. replace addr with (Z.shiftl (addr / 4096) 12).
    + rewrite Z.shiftl_spec by lia. apply Z.testbit_neg_r. lia.
    + rewrite Z.shiftl_mul_pow2 by lia. pose proof (Z.div_mod addr 4096). lia.
Qed.

Lemma pte_addr_range w : 0 <= pte_addr w < 2 ^ 56 /\ pte_addr w mod 4096 = 0.
Proof.
  assert (wrap 56 (pte_addr w) = pte_addr w) as E.
  { apply Z.bits_inj'. intros i Hi. rewrite wrap_testbit, pte_addr_testbit by lia.
    destruct (i <? 56); [done|]. simpl. by rewrite andb_false_r. }
  split; [rewrite <- E; apply wrap_range; lia|]. change (pte_addr w mod 4096) with (wrap 12 (pte_addr w)).
  apply Z.bits_inj'. intros i Hi. rewrite Z.bits_0, wrap_testbit, pte_addr_testbit by lia.
  destruct (Z.ltb_spec i 12); [|done]. by replace (12 <=? i) with false by lia.
Qed.

(** The low bits of an entry are those of its flags and type. *)
Lemma pte_set_low addr type flags msk :
  0 <= msk < 256 -> Z.land (pte_set addr type flags) msk = Z.land (Z.lor flags type) msk.
Proof.
  intros Hm. apply Z.bits_inj'. intros i Hi. unfold pte_set.
  rewrite !Z.land_spec, !Z.lor_spec, Z.shiftr_spec, !Z.land_spec by lia.
  destruct (Z.ltb_spec i 8).
  - unfold PTE_ADDR_MSK. rewrite Z.shiftl_spec by lia. rewrite (Z.testbit_neg_r _ (i + 2 - 12)) by lia.
    rewrite andb_false_r. simpl. change PTE_FLAGS_MSK with (Z.ones 8).
    rewrite Z.testbit_ones_nonneg by lia. replace (i <? 8) with true by lia. by rewrite andb_true_r.
  - rewrite (testbit_small msk 8) by lia. by rewrite !andb_false_r.
Qed.

Definition page_flags (flags : Z) : Prop := flags = PTE_HYP_FLAGS \/ flags = PTE_VM_FLAGS.

Lemma pte_set_page addr flags :
  page_flags flags -> pte_valid (pte_set addr PTE_PAGE flags) = true /\ pte_table (pte_set addr PTE_PAGE flags) = false.
Proof.
  intros Hf. unfold pte_valid, pte_table. rewrite !pte_set_low by (unfold PTE_VALID; lia).
  by destruct Hf as [-> | ->].
Qed.

Lemma pte_set_table addr :
  pte_valid (pte_set addr PTE_TABLE PTE_HYP_FLAGS) = true /\ pte_table (pte_set addr PTE_TABLE PTE_HYP_FLAGS) = true.
Proof. unfold pte_valid, pte_table. by rewrite !pte_set_low by (unfold PTE_VALID; lia). Qed.

Lemma pte_set_clear addr type flags :
  0 <= type < 16 -> pte_check_rsw (pte_set addr type flags) PTE_RSW_RSRV = false.
Proof.
  intros Ht. unfold pte_check_rsw. replace (Z.land (pte_set addr type flags) PTE_RSW_MSK) with 0; [done|].
  symmetry. apply Z.bits_inj'. intros i Hi. rewrite Z.bits_0. unfold pte_set.
  rewrite Z.land_spec, !Z.lor_spec, Z.shiftr_spec, !Z.land_spec by lia. unfold PTE_ADDR_MSK. rewrite Z.shiftl_spec by lia.
  destruct (Z.ltb_spec i 8); [|destruct (Z.ltb_spec i 10)].
  - rewrite (Z.testbit_neg_r (Z.ones _) (i + 2 - 12)), andb_false_r by lia.
    assert (i = 0 \/ i = 1 \/ i = 2 \/ i = 3 \/ i = 4 \/ i = 5 \/ i = 6 \/ i = 7) as Hc by lia.
    destruct Hc as [->|[->|[->|[->|[->|[->|[->| ->]]]]]]]; apply andb_false_r.
  - rewrite (Z.testbit_neg_r (Z.ones _) (i + 2 - 12)), andb_false_r by lia.
    rewrite (testbit_small PTE_FLAGS_MSK 8), (testbit_small type 4) by (unfold PTE_FLAGS_MSK; lia). by rewrite andb_false_r.
  - rewrite (testbit_small PTE_RSW_MSK 10) by (unfold PTE_RSW_MSK; lia). apply andb_false_r.
Qed.

Lemma pte_table_valid w : pte_table w = true -> pte_valid w = true.
Proof.
  unfold pte_table, pte_valid. intros H%Z.eqb_eq. change PTE_VALID with (Z.land 15 1).
  rewrite Z.land_assoc, H. done.
Qed.

(** ** Facts on indices

    The two descriptors of RV64 differ in the width of the root only. *)
Definition is_sv (pt : page_table) : Prop := pt_dscr pt = sv39_pt_dscr \/ pt_dscr pt = sv39x4_pt_dscr.

Abbreviation ix pt va k := (pt_getpteindex_by_va pt va (Z.of_nat k)).
Abbreviation lsize pt k := (pt_lvlsize pt (Z.of_nat k)).
Abbreviation nent pt k := (pt_nentries pt (Z.of_nat k)).

(** The part of an address the walk uses, and its part down to level [k]. *)
Definition nv (pt : page_table) (va : Z) : Z := va mod 2 ^ wdt pt 0.
Definition pre (pt : page_table) (k : nat) (va : Z) : Z := nv pt va / lsize pt k.
Definition same (pt : page_table) (k : nat) (va vb : Z) : Prop :=
  match k with O => True | S j => pre pt j va = pre pt j vb end.

#[export] Instance same_dec pt k va vb : Decision (same pt k va vb).
Proof. destruct k; simpl; apply _. Defined.

Section Index.
Context (pt : page_table) (Hsv : is_sv pt).

(** The geometry of the tables. *)
Lemma geometry :
  (wdt pt 0 = 39 \/ wdt pt 0 = 41) /\ lvls (pt_dscr pt) = 3 /\
  (forall k, (k < 3)%nat -> pt_lvl_terminal pt (Z.of_nat k) = true) /\
  lsize pt 0 = 2 ^ 30 /\ lsize pt 1 = 2 ^ 21 /\ lsize pt 2 = 4096 /\
  nent pt 0 = 2 ^ (wdt pt 0 - 30) /\ nent pt 1 = 512 /\ nent pt 2 = 512.
Proof.
  unfold wdt, pt_lvl_terminal, pt_lvlsize, pt_nentries, off, wdt.
  destruct Hsv as [-> | ->]; split_and!; auto; intros [|[|[|k]]]; done || lia.
Qed.

Lemma field_of_mod va o e w :
  0 <= o -> 0 <= e -> o + e <= w ->
  Z.land (Z.shiftr va o) (Z.shiftr (Z.shiftl 1 (o + e)) o - 1) =
    va mod 2 ^ w / Z.shiftl 1 o mod Z.shiftr (Z.shiftl 1 (o + e)) o.
Proof.
  intros Ho He Hw. replace (Z.shiftr (Z.shiftl 1 (o + e)) o) with (2 ^ e).
  - rewrite Z.shiftl_1_l, <- Z.shiftr_div_pow2, Z.sub_1_r, <- Z.ones_equiv by lia.
    apply Z.bits_inj'. intros i Hi.
    change (_ mod 2 ^ e) with (wrap e (Z.shiftr (wrap w va) o)).
    rewrite Z.land_spec, wrap_testbit, !Z.shiftr_spec, wrap_testbit, Z.testbit_ones_nonneg by lia.
    destruct (Z.ltb_spec i e); [|by rewrite andb_false_r]. replace (i + o <? w) with true by lia. by destruct (Z.testbit va (i + o)).
  - rewrite Z.shiftl_1_l, Z.shiftr_div_pow2, Z.pow_add_r by lia. rewrite Z.mul_comm. symmetry.
    apply Z.div_mul. lia.
Qed.

Lemma ix_eq va k : (k < 3)%nat -> ix pt va k = pre pt k va mod nent pt k.
Proof.
  intros Hk. unfold pre, nv, pt_getpteindex_by_va, pt_nentries, pt_lvlsize, off, wdt.
  destruct Hsv as [-> | ->]; destruct k as [|[|[|k]]]; try lia;
    [apply (field_of_mod va 30 9 39)|apply (field_of_mod va 21 9 39)|apply (field_of_mod va 12 9 39)|
     apply (field_of_mod va 30 11 41)|apply (field_of_mod va 21 9 41)|apply (field_of_mod va 12 9 41)]; lia.
Qed.

Lemma lsize_pos k : 0 < lsize pt k.
Proof.
  unfold pt_lvlsize, off. rewrite Z.shiftl_1_l, Nat2Z.id. apply Z.pow_pos_nonneg; [lia|].
  destruct Hsv as [-> | ->]; destruct k as [|[|[|k]]]; simpl; lia.
Qed.

(** Going one level down appends an index. *)
Lemma pre_S k va : (k < 2)%nat -> pre pt (S k) va = pre pt k va * 512 + ix pt va (S k).
Proof.
  intros Hk. rewrite ix_eq by lia. destruct geometry as (_ & _ & _ & E0 & E1 & E2 & _ & N1 & N2).
  unfold pre. destruct k as [|[|k]]; [| |lia].
  - rewrite E0, E1, N1. change (2 ^ 30) with (2 ^ 21 * 512). rewrite <- Z.div_div by lia.
    pose proof (Z.div_mod (nv pt va / 2 ^ 21) 512). lia.
  - rewrite E1, E2, N2. change (2 ^ 21) with (4096 * 512). rewrite <- Z.div_div by lia.
    pose proof (Z.div_mod (nv pt va / 4096) 512). lia.
Qed.

Lemma pre_0 va : pre pt 0 va = ix pt va 0.
Proof.
  rewrite ix_eq by lia. symmetry. apply Z.mod_small. unfold pre, nv.
  destruct geometry as (W & _ & _ & -> & _ & _ & -> & _). destruct W as [-> | ->];
    pose proof (Z.mod_pos_bound va (2 ^ 39)); pose proof (Z.mod_pos_bound va (2 ^ 41));
    split; (apply Z.div_pos; lia) || (apply Z.div_lt_upper_bound; lia).
Qed.

Lemma same_S k va vb : (k < 3)%nat -> same pt (S k) va vb <-> same pt k va vb /\ ix pt va k = ix pt vb k.
Proof.
  intros Hk. destruct k as [|k]; simpl same.
  - rewrite !pre_0. tauto.
  - rewrite !pre_S by lia. pose proof (ix_eq va (S k) Hk). pose proof (ix_eq vb (S k) Hk).
    destruct geometry as (_ & _ & _ & _ & _ & _ & _ & N1 & N2).
    assert (nent pt (S k) = 512) as N by (destruct k as [|[|k]]; [done..|lia]).
    pose proof (Z.mod_pos_bound (pre pt (S k) va) 512). pose proof (Z.mod_pos_bound (pre pt (S k) vb) 512).
    rewrite N in *. lia.
Qed.

Lemma same_refl k va : same pt k va va.
Proof. by destruct k. Qed.

Lemma same_sym k va vb : same pt k va vb -> same pt k vb va.
Proof. destruct k; simpl; done. Qed.

Lemma same_trans k va vb vc : same pt k va vb -> same pt k vb vc -> same pt k va vc.
Proof. destruct k; simpl; congruence. Qed.

Lemma same_le k j va vb : (j <= k <= 3)%nat -> same pt k va vb -> same pt j va vb.
Proof.
  induction k as [|k IH]; intros H Hs; [by replace j with 0%nat by lia|].
  destruct (decide (j = S k)) as [->|]; [done|]. apply IH; [lia|]. by apply same_S in Hs as [? _]; [|lia].
Qed.

Lemma ix_range va k : (k < 3)%nat -> 0 <= ix pt va k < nent pt k.
Proof.
  intros Hk. rewrite ix_eq by done. apply Z.mod_pos_bound.
  destruct geometry as (W & _ & _ & _ & _ & _ & N0 & N1 & N2).
  destruct k as [|[|[|k]]]; [rewrite N0; destruct W as [-> | ->]; done|rewrite N1; done|rewrite N2; done|lia].
Qed.

(** The addresses an entry of level [k] maps. *)
Lemma same_block k va vb :
  (k < 3)%nat -> nv pt va mod lsize pt k = 0 ->
  same pt (S k) va vb <-> nv pt va <= nv pt vb < nv pt va + lsize pt k.
Proof.
  intros Hk Hal. simpl. unfold pre. pose proof (lsize_pos k).
  pose proof (Z.div_mod (nv pt va) (lsize pt k)). pose proof (Z.div_mod (nv pt vb) (lsize pt k)).
  pose proof (Z.mod_pos_bound (nv pt vb) (lsize pt k)). split.
  - intros E. rewrite E in *. nia.
  - intros Hr. apply (Z.div_unique _ _ _ (nv pt vb - nv pt va)); [left; lia|]. lia.
Qed.
End Index.

(** ** The tables of an address space

    [tab m pt k va] is the table of level [k] on the walk of [va]. The tables
    of an address space are well formed when they occupy disjoint memory: two
    walks share a table exactly when the part of the address above it is the
    same. *)
Fixpoint tab (m : mem) (pt : page_table) (k : nat) (va : Z) : option Z :=
  match k with
  | O => Some (pt_root pt)
  | S j =>
      b ← tab m pt j va;
      let w := ld m (b + 8 * ix pt va j) in
      if pte_table w then Some (pte_addr w) else None
  end.

Definition tsize (pt : page_table) (k : nat) : Z := 8 * nent pt k.

(** Tables are disjoint, the last level points to no table, and an entry that
    points to a table is not marked as reserved. *)
Record pt_wf (m : mem) (pt : page_table) : Prop := {
  w_sv : is_sv pt;
  w_root : 0 < pt_root pt /\ pt_root pt mod tsize pt 0 = 0;
  w_base : forall k va b, (k < 3)%nat -> tab m pt k va = Some b -> 0 < b;
  w_disj : forall k j va vb b b', (k < 3)%nat -> (j < 3)%nat ->
    tab m pt k va = Some b -> tab m pt j vb = Some b' ->
    (k = j /\ same pt k va vb) \/ b + tsize pt k <= b' \/ b' + tsize pt j <= b;
  w_last : forall va b, tab m pt 2 va = Some b -> pte_table (ld m (b + 8 * ix pt va 2)) = false;
  w_clear : forall k va b, (k < 2)%nat -> tab m pt k va = Some b -> pte_table (ld m (b + 8 * ix pt va k)) = true ->
    pte_check_rsw (ld m (b + 8 * ix pt va k)) PTE_RSW_RSRV = false
}.

Lemma tab_same m pt k va vb : is_sv pt -> (k <= 3)%nat -> same pt k va vb -> tab m pt k va = tab m pt k vb.
Proof.
  intros Hsv. induction k as [|k IH]; intros Hk Hs; [done|].
  apply same_S in Hs as [Hs Hi]; [|done|lia]. simpl. by rewrite IH, Hi by (done || lia).
Qed.

Lemma entry_inj m pt k j va vb b b' :
  pt_wf m pt -> (k < 3)%nat -> (j < 3)%nat -> tab m pt k va = Some b -> tab m pt j vb = Some b' ->
  b + 8 * ix pt va k = b' + 8 * ix pt vb j -> k = j /\ same pt (S k) va vb.
Proof.
  intros Hwf Hk Hj Ha Hb E. pose proof (w_sv _ _ Hwf) as Hsv.
  pose proof (ix_range pt Hsv va k Hk). pose proof (ix_range pt Hsv vb j Hj).
  destruct (w_disj _ _ Hwf k j va vb b b' Hk Hj Ha Hb) as [[<- Hs]|H1]; [|unfold tsize in *; lia].
  split; [done|]. apply same_S; [done..|]. split; [done|].
  rewrite (tab_same m pt k va vb) in Ha by (done || lia). rewrite Ha in Hb. simplify_eq. lia.
Qed.

(** Writing an entry that is not a table. *)
Section SetLeaf.
Context (m : mem) (pt : page_table) (k : nat) (va b w : Z).
Context (Hwf : pt_wf m pt) (Hk : (k < 3)%nat) (Hb : tab m pt k va = Some b) (Hw : pte_table w = false).

Let m' := st m (b + 8 * ix pt va k) w.

Lemma tab_set_leaf j vb :
  (j < 3)%nat -> tab m' pt j vb = if decide ((k < j)%nat /\ same pt (S k) va vb) then None else tab m pt j vb.
Proof.
  intros Hj. induction j as [|j IH]; [by rewrite decide_False by lia|]. simpl tab. rewrite IH by lia.
  pose proof (w_sv _ _ Hwf) as Hsv. destruct (decide ((k < j)%nat /\ _)) as [[? Hs]|Hn]; simpl.
  { rewrite decide_True; [done|]. split; [lia|done]. }
  destruct (tab m pt j vb) as [b'|] eqn:E; simpl; [|by case_decide].
  unfold m'. rewrite ld_st. destruct (decide (_ = _)) as [Ea|Ea].
  - destruct (entry_inj m pt k j va vb b b') as [<- Hs]; [done|lia..|done|done|done|].
    rewrite Hw. rewrite decide_True; [done|]. split; [lia|done].
  - rewrite decide_False; [done|]. intros [Hlt Hs]. destruct (decide (k = j)) as [->|]; [|apply Hn; split; [lia|done]].
    apply Ea. apply same_S in Hs as [Hs Hi]; [|done|lia].
    rewrite (tab_same m pt j va vb) in Hb by (done || lia). rewrite Hb in E. simplify_eq. lia.
Qed.

Lemma set_leaf_wf : pt_wf m' pt.
Proof.
  pose proof Hwf as [Hsv Hroot Hbase Hdisj Hlast Hclear]. split; [done|done| | | |].
  - intros j vb b' Hj. rewrite tab_set_leaf by done. case_decide; [done|]. by apply Hbase.
  - intros i j vb vc b1 b2 Hi Hj. rewrite !tab_set_leaf by done. do 2 (case_decide; [done|]). by apply Hdisj.
  - intros vb b' H. rewrite tab_set_leaf in H by lia. case_decide; [done|].
    unfold m'. rewrite ld_st. case_decide; [done|]. by apply Hlast.
  - intros j vb b' Hj H Ht. rewrite tab_set_leaf in H by lia. case_decide; [done|].
    unfold m' in *. rewrite ld_st in *. case_decide; [congruence|]. by apply Hclear.
Qed.
End SetLeaf.

(** Hanging an empty table below an entry. *)
Definition fresh (m : mem) (pt : page_table) (new : Z) : Prop :=
  forall j vb b, (j < 3)%nat -> tab m pt j vb = Some b -> b + tsize pt j <= new \/ new + 4096 <= b.

Lemma tsize_low pt k : is_sv pt -> (0 < k < 3)%nat -> tsize pt k = 4096.
Proof.
  intros Hsv Hk. unfold tsize. destruct (geometry pt Hsv) as (_ & _ & _ & _ & _ & _ & _ & N1 & N2).
  destruct k as [|[|[|k]]]; [lia|by rewrite N1|by rewrite N2|lia].
Qed.

Section SetTable.
Context (m : mem) (pt : page_table) (k : nat) (va b new : Z).
Context (Hwf : pt_wf m pt) (Hk : (k < 2)%nat) (Hb : tab m pt k va = Some b).
Context (Hnew : 0 < new < 2 ^ 56) (Hal : new mod 4096 = 0) (Hfresh : fresh m pt new).

Let m' := mem_zero (st m (b + 8 * ix pt va k) (pte_set new PTE_TABLE PTE_HYP_FLAGS)) new 4096.

Lemma ld_set_table j vb b' :
  (j < 3)%nat -> tab m pt j vb = Some b' ->
  ld m' (b' + 8 * ix pt vb j) =
    if decide (j = k /\ same pt (S k) va vb) then pte_set new PTE_TABLE PTE_HYP_FLAGS
    else ld m (b' + 8 * ix pt vb j).
Proof.
  intros Hj E. pose proof (w_sv _ _ Hwf) as Hsv. pose proof (ix_range pt Hsv vb j Hj) as Hi.
  unfold m'. rewrite ld_mem_zero, decide_False.
  2:{ destruct (Hfresh j vb b' Hj E); unfold tsize in *; lia. }
  rewrite ld_st. destruct (decide (_ = _)) as [Ea|Ea].
  - destruct (entry_inj m pt k j va vb b b') as [-> Hs]; [done|lia..|done|done|done|]. by rewrite decide_True.
  - rewrite decide_False; [done|]. intros [-> Hs]. apply Ea. apply same_S in Hs as [Hs Hx]; [|done|lia].
    rewrite (tab_same m pt k va vb) in Hb by (done || lia). rewrite Hb in E. simplify_eq. lia.
Qed.

Lemma tab_set_table j vb :
  (j < 3)%nat -> tab m' pt j vb =
    if decide (same pt (S k) va vb /\ (k < j)%nat) then if decide (j = S k) then Some new else None
    else tab m pt j vb.
Proof.
  intros Hj. pose proof (w_sv _ _ Hwf) as Hsv. induction j as [|j IH]; [by rewrite decide_False by lia|].
  simpl tab. rewrite IH by lia. destruct (decide (same pt (S k) va vb)) as [Hs|Hn].
  2:{ rewrite !decide_False by tauto. destruct (tab m pt j vb) as [b'|] eqn:E; simpl; [|done].
      rewrite ld_set_table by (done || lia). by rewrite decide_False by tauto. }
  destruct (decide (k < j)%nat).
  - rewrite (decide_True (P := _ /\ (k < j)%nat)), (decide_True (P := _ /\ (k < S j)%nat)),
      (decide_False (P := S j = S k)) by (lia || (split; [done|lia])).
    destruct (decide (j = S k)) as [->|]; simpl; [|done].
    pose proof (ix_range pt Hsv vb (S k) ltac:(lia)) as Hi. pose proof (tsize_low pt (S k) Hsv ltac:(lia)) as Ht.
    unfold m'. rewrite ld_mem_zero, decide_True by (unfold tsize in Ht; lia). done.
  - rewrite decide_False by tauto. destruct (decide (j = k)) as [->|].
    + rewrite (decide_True (P := _ /\ (k < S k)%nat)), (decide_True (P := S k = S k)) by (lia || (split; [done|lia])).
      apply same_S in Hs as Hs'; [|done|lia]. rewrite <- (tab_same m pt k va vb), Hb by (done || tauto || lia). simpl.
      destruct Hs' as [Hs' <-]. rewrite ld_set_table by (done || lia). rewrite decide_True by (split; [done|by apply same_refl]).
      destruct (pte_set_table new) as [_ ->]. by rewrite pte_addr_set by (unfold PTE_TABLE; lia).
    + rewrite decide_False by lia. destruct (tab m pt j vb) as [b'|] eqn:E; simpl; [|done].
      rewrite ld_set_table by (done || lia). by rewrite decide_False by lia.
Qed.

Lemma set_table_wf : pt_wf m' pt.
Proof.
  pose proof Hwf as [Hsv Hroot Hbase Hdisj Hlast Hclear].
  assert (forall j vb b1, (j < 3)%nat -> tab m' pt j vb = Some b1 ->
    (b1 = new /\ j = S k /\ same pt (S k) va vb) \/ tab m pt j vb = Some b1) as Hcase.
  { intros j vb b1 Hj. rewrite tab_set_table by done. case_decide; [|by right].
    case_decide; [|done]. intros [= <-]. left. tauto. }
  split; [done|done| | | |].
  - intros j vb b1 Hj [(-> & _)|H]%Hcase; [lia| |done]. by eapply Hbase.
  - intros i j vb vc b1 b2 Hi Hj H1 H2. apply Hcase in H1; [|done]. apply Hcase in H2; [|done].
    pose proof (tsize_low pt (S k) Hsv ltac:(lia)) as Ht.
    destruct H1 as [(-> & -> & S1)|H1], H2 as [(-> & -> & S2)|H2].
    + left. split; [done|]. eapply same_trans; [by apply same_sym|done].
    + right. rewrite Ht. destruct (Hfresh j vc b2 Hj H2); lia.
    + right. rewrite Ht. destruct (Hfresh i vb b1 Hi H1); lia.
    + by apply Hdisj.
  - intros vb b1 [(-> & Hk2 & _)|H]%Hcase; [| |lia].
    + pose proof (ix_range pt Hsv vb 2 ltac:(lia)). pose proof (tsize_low pt 2 Hsv ltac:(lia)) as Ht.
      unfold m'. rewrite ld_mem_zero, decide_True by (unfold tsize in Ht; lia). done.
    + rewrite ld_set_table by (done || lia). rewrite decide_False by lia. by apply Hlast.
  - intros j vb b1 Hj [(-> & -> & _)|H]%Hcase; [| |lia].
    + pose proof (ix_range pt Hsv vb (S k) ltac:(lia)). pose proof (tsize_low pt (S k) Hsv ltac:(lia)) as Ht.
      unfold m'. rewrite ld_mem_zero, decide_True by (unfold tsize in Ht; lia). done.
    + rewrite ld_set_table by (done || lia). case_decide; [intros _; apply pte_set_clear; unfold PTE_TABLE; lia|by apply Hclear].
Qed.
End SetTable.

(** ** Translation *)

(** The entry a walk ends at, and its level. *)
Definition leaf (m : mem) (pt : page_table) (va : Z) : nat * Z :=
  match tab m pt 2 va with
  | Some b => (2%nat, b + 8 * ix pt va 2)
  | None =>
      match tab m pt 1 va with
      | Some b => (1%nat, b + 8 * ix pt va 1)
      | None => (0%nat, pt_root pt + 8 * ix pt va 0)
      end
  end.

(** The address an entry of level [k] translates [va] to. *)
Definition out (pt : page_table) (k : nat) (va w : Z) : option Z :=
  if pte_valid w
  then Some (Z.lor (Z.land (pte_addr w) (Z.lnot (lsize pt k - 1))) (Z.land va (lsize pt k - 1)))
  else None.

Lemma leaf_pos m pt va : pt_wf m pt -> 0 < snd (leaf m pt va).
Proof.
  intros Hwf. pose proof (w_sv _ _ Hwf) as Hsv. pose proof (w_base _ _ Hwf) as Hb. unfold leaf.
  destruct (tab m pt 2 va) as [b|] eqn:E2; [|destruct (tab m pt 1 va) as [b|] eqn:E1]; simpl.
  - pose proof (Hb 2%nat _ _ ltac:(lia) E2). pose proof (ix_range pt Hsv va 2 ltac:(lia)). lia.
  - pose proof (Hb 1%nat _ _ ltac:(lia) E1). pose proof (ix_range pt Hsv va 1 ltac:(lia)). lia.
  - pose proof (proj1 (w_root _ _ Hwf)). pose proof (ix_range pt Hsv va 0 ltac:(lia)). lia.
Qed.

Lemma mem_translate_leaf m pt va :
  pt_wf m pt -> mem_translate m pt va = out pt (fst (leaf m pt va)) va (ld m (snd (leaf m pt va))).
Proof.
  intros Hwf. pose proof (leaf_pos m pt va Hwf) as Hp. unfold mem_translate, out.
  destruct (geometry pt (w_sv _ _ Hwf)) as (_ & -> & _). change (Z.to_nat 3) with 3%nat.
  assert (translate_loop m pt va (pt_root pt + 8 * pt_getpteindex_by_va pt va 0) 0 3 =
    (snd (leaf m pt va), Z.of_nat (fst (leaf m pt va)))) as ->.
  - assert (forall w, negb (pte_valid w) || negb (pte_table w) = negb (pte_table w)) as Hs.
    { intros w. destruct (pte_table w) eqn:E; [by rewrite pte_table_valid|by rewrite orb_true_r]. }
    pose proof (w_last _ _ Hwf va) as Hl. unfold leaf in *. cbn [translate_loop]. rewrite !Hs.
    simpl tab in *. change (0 + 1) with 1. change (1 + 1) with 2.
    change (Z.of_nat 0) with 0 in *. change (Z.of_nat 1) with 1 in *. change (Z.of_nat 2) with 2 in *.
    destruct (pte_table (ld m (pt_root pt + _))); [|done]. simpl in *.
    destruct (pte_table (ld m (_ + 8 * pt_getpteindex_by_va pt va 1))); [|done]. simpl in *.
    by rewrite (Hl _ eq_refl).
  - replace (snd (leaf m pt va) =? 0) with false by lia. done.
Qed.

Lemma leaf_set_leaf m pt k va b w vb :
  pt_wf m pt -> (k < 3)%nat -> tab m pt k va = Some b -> pte_table w = false ->
  leaf (st m (b + 8 * ix pt va k) w) pt vb =
    if decide (same pt (S k) va vb) then (k, b + 8 * ix pt va k) else leaf m pt vb.
Proof.
  intros Hwf Hk Hb Hw. pose proof (w_sv _ _ Hwf) as Hsv. unfold leaf. rewrite !tab_set_leaf by (done || lia).
  destruct (decide (same pt (S k) va vb)) as [Hs|Hn]; [|by rewrite !decide_False by tauto].
  pose proof (proj1 (same_S pt Hsv k va vb Hk) Hs) as [Hs' Hi].
  rewrite (tab_same m pt k va vb) in Hb by (done || lia). rewrite Hi.
  destruct k as [|[|[|k]]]; [| | |lia]; simpl in Hb.
  - rewrite !decide_True by (split; [lia|done]). by injection Hb as <-.
  - rewrite decide_True, decide_False by (lia || (split; [lia|done])). simpl. by rewrite Hb.
  - rewrite decide_False by lia. simpl. by rewrite Hb.
Qed.

Lemma translate_set_leaf m pt k va b w vb :
  pt_wf m pt -> (k < 3)%nat -> tab m pt k va = Some b -> pte_table w = false ->
  mem_translate (st m (b + 8 * ix pt va k) w) pt vb =
    if decide (same pt (S k) va vb) then out pt k vb w else mem_translate m pt vb.
Proof.
  intros Hwf Hk Hb Hw. pose proof (w_sv _ _ Hwf) as Hsv.
  rewrite mem_translate_leaf by (by eapply set_leaf_wf). rewrite leaf_set_leaf by done.
  case_decide as Hs; simpl; [by rewrite ld_st_eq|]. rewrite mem_translate_leaf by done. f_equal.
  apply ld_st_ne. intros E. apply Hs. unfold leaf in E.
  assert (forall j b', (j < 3)%nat -> tab m pt j vb = Some b' ->
    b + 8 * ix pt va k = b' + 8 * ix pt vb j -> same pt (S k) va vb) as Hinj.
  { intros j b' Hj E1 E2. by destruct (entry_inj m pt k j va vb b b') as [_ ?]. }
  destruct (tab m pt 2 vb) eqn:E2; [by eapply (Hinj 2%nat); [lia|..]|].
  destruct (tab m pt 1 vb) eqn:E1; [by eapply (Hinj 1%nat); [lia|..]|]. by eapply (Hinj 0%nat); [lia|..].
Qed.

Lemma translate_set_table m pt k va b new vb :
  pt_wf m pt -> (k < 2)%nat -> tab m pt k va = Some b ->
  0 < new < 2 ^ 56 -> new mod 4096 = 0 -> fresh m pt new ->
  mem_translate (mem_zero (st m (b + 8 * ix pt va k) (pte_set new PTE_TABLE PTE_HYP_FLAGS)) new 4096) pt vb =
    if decide (same pt (S k) va vb) then None else mem_translate m pt vb.
Proof.
  intros Hwf Hk Hb Hnew Hal Hf. pose proof (w_sv _ _ Hwf) as Hsv.
  rewrite mem_translate_leaf by (by eapply set_table_wf).
  case_decide as Hs.
  - assert (forall j, (k < j < 3)%nat -> tab (mem_zero (st m (b + 8 * ix pt va k)
      (pte_set new PTE_TABLE PTE_HYP_FLAGS)) new 4096) pt j vb = if decide (j = S k) then Some new else None) as Hj.
    { intros j Hj. rewrite tab_set_table by (done || lia). by rewrite decide_True by (split; [done|lia]). }
    assert (forall i, (0 < i < 3)%nat -> new <= new + 8 * ix pt vb i < new + 4096) as Hr.
    { intros i Hi. pose proof (ix_range pt Hsv vb i ltac:(lia)). pose proof (tsize_low pt i Hsv Hi). unfold tsize in *. lia. }
    unfold leaf. rewrite (Hj 2%nat) by lia. destruct k as [|k].
    + rewrite decide_False, (Hj 1%nat), decide_True by lia. simpl fst. simpl snd.
      rewrite ld_mem_zero, decide_True by (apply Hr; lia). done.
    + rewrite decide_True by lia. simpl fst. simpl snd. rewrite ld_mem_zero, decide_True by (apply Hr; lia). done.
  - rewrite mem_translate_leaf by done. unfold leaf. rewrite !tab_set_table by (done || lia).
    rewrite !decide_False by tauto.
    destruct (tab m pt 2 vb) as [b'|] eqn:E2; [|destruct (tab m pt 1 vb) as [b'|] eqn:E1]; simpl; f_equal.
    + rewrite ld_set_table by (done || lia). by rewrite decide_False by tauto.
    + rewrite ld_set_table by (done || lia). by rewrite decide_False by tauto.
    + pose proof (ld_set_table m pt k va b new Hwf Hk Hb Hf 0 vb (pt_root pt) ltac:(lia) eq_refl) as ->.
      by rewrite decide_False by tauto.
Qed.

(** The translation by an entry whose address is aligned to its level. *)
Lemma out_aligned pt k va w :
  is_sv pt -> pte_valid w = true -> pte_addr w mod lsize pt k = 0 ->
  out pt k va w = Some (pte_addr w + va mod lsize pt k).
Proof.
  intros Hsv Hv Hal. unfold out. rewrite Hv. f_equal. unfold pt_lvlsize in *. rewrite Z.shiftl_1_l in *.
  set (o := off pt (Z.of_nat k)) in *. assert (0 <= o) as Ho.
  { unfold o, off. rewrite Nat2Z.id. destruct Hsv as [-> | ->]; destruct k as [|[|[|k]]]; simpl; lia. }
  rewrite Z.sub_1_r, <- Z.ones_equiv, <- Z.ldiff_land, Z.ldiff_ones_r, Z.land_ones, Z.shiftr_div_pow2 by done.
  assert (Z.shiftl (pte_addr w / 2 ^ o) o = pte_addr w) as ->.
  { rewrite Z.shiftl_mul_pow2 by done. pose proof (Z.div_mod (pte_addr w) (2 ^ o)).
    assert (2 ^ o <> 0) by (apply Z.pow_nonzero; lia). lia. }
  rewrite <- Z.lxor_lor; [rewrite <- Z.add_nocarry_lxor; [done|]|].
  all: apply Z.bits_inj'; intros i Hi; rewrite Z.land_spec, Z.bits_0; destruct (Z.ltb_spec i o).
  all: try (rewrite (Z.mod_pow2_bits_high va) by lia; by rewrite andb_false_r).
  all: replace (Z.testbit (pte_addr w) i) with false; [done|]; symmetry.
  all: rewrite <- (Z.mod_pow2_bits_low (pte_addr w) o) by lia; rewrite Hal; apply Z.bits_0.
Qed.

(** ** The walks of the code *)
Ltac lvl_norm :=
  change (Z.of_nat 0) with 0 in *; change (Z.of_nat 1) with 1 in *; change (Z.of_nat 2) with 2 in *;
  change (0 + 1) with 1 in *; change (1 + 1) with 2 in *.

(** One more level of the walk. *)
Lemma pt_get_pte_S m pt k va :
  (k < 2)%nat -> pt_get_pte m pt (Z.of_nat k) va <> 0 -> pt_get_pte m pt (Z.of_nat (S k)) va =
    if pte_valid (ld m (pt_get_pte m pt (Z.of_nat k) va))
    then pte_addr (ld m (pt_get_pte m pt (Z.of_nat k) va)) + 8 * ix pt va (S k) else 0.
Proof.
  unfold pt_get_pte. rewrite !Nat2Z.id. destruct k as [|[|k]]; intros Hk; [| |lia]; cbn [get_pte_loop]; lvl_norm.
  - intros _. by destruct (pte_valid _).
  - destruct (pte_valid (ld m (pt_root pt + _))); [|done]. simpl. intros _. by destruct (pte_valid _).
Qed.

Lemma pt_get_pte_tab m pt k va b :
  pt_wf m pt -> (k < 3)%nat -> tab m pt k va = Some b -> pt_get_pte m pt (Z.of_nat k) va = b + 8 * ix pt va k.
Proof.
  intros Hwf. revert b. induction k as [|k IH]; intros b Hk H; [by injection H as <-|].
  simpl in H. destruct (tab m pt k va) as [b'|] eqn:E; [|done]. simpl in H.
  destruct (pte_table _) eqn:Et; [|done]. injection H as <-.
  pose proof (w_base _ _ Hwf k va b' ltac:(lia) E). pose proof (ix_range pt (w_sv _ _ Hwf) va k ltac:(lia)).
  rewrite pt_get_pte_S by (lia || (rewrite (IH b') by (done || lia); lia)).
  rewrite (IH b') by (done || lia). by rewrite (pte_table_valid _ Et).
Qed.

Lemma pt_get_pte_null m pt k va b :
  pt_wf m pt -> (k < 2)%nat -> tab m pt k va = Some b -> pte_valid (ld m (b + 8 * ix pt va k)) = false ->
  pt_get_pte m pt (Z.of_nat (S k)) va = 0.
Proof.
  intros Hwf Hk H Hv. pose proof (w_base _ _ Hwf k va b ltac:(lia) H).
  pose proof (ix_range pt (w_sv _ _ Hwf) va k ltac:(lia)).
  pose proof (pt_get_pte_tab m pt k va b Hwf ltac:(lia) H) as E.
  rewrite pt_get_pte_S, E by (rewrite ?E; lia). by rewrite Hv.
Qed.

(** The walk to the table just hung below an entry. *)
Lemma pt_get_new m pt k va b new :
  pt_wf m pt -> (k < 2)%nat -> tab m pt k va = Some b ->
  0 < new < 2 ^ 56 -> new mod 4096 = 0 -> fresh m pt new ->
  pt_get (st m (b + 8 * ix pt va k) (pte_set new PTE_TABLE PTE_HYP_FLAGS)) pt (Z.of_nat (S k)) va = new.
Proof.
  intros Hwf Hk Hb Hnew Hal Hf. pose proof (w_sv _ _ Hwf) as Hsv. unfold pt_get.
  set (m1 := st m _ _). assert (pt_get_pte m1 pt (Z.of_nat k) va = b + 8 * ix pt va k) as E.
  { rewrite <- (pt_get_pte_tab m pt k va b) by (done || lia). destruct k as [|[|k]]; [done| |lia].
    unfold pt_get_pte. rewrite Nat2Z.id. cbn [get_pte_loop]. unfold m1. rewrite ld_st_ne; [done|].
    intros E. destruct (entry_inj m pt 1 0 va va b (pt_root pt)) as [? _]; done || lia. }
  pose proof (w_base _ _ Hwf k va b ltac:(lia) Hb). pose proof (ix_range pt Hsv va k ltac:(lia)).
  rewrite pt_get_pte_S, E; [|lia|rewrite E; lia]. unfold m1. rewrite ld_st_eq.
  destruct (pte_set_table new) as [-> _]. rewrite pte_addr_set by (done || unfold PTE_TABLE; lia).
  pose proof (tsize_low pt (S k) Hsv ltac:(lia)) as Ht. unfold tsize in Ht. unfold pt_size.
  replace (nent pt (S k) * 8 - 1) with (Z.ones 12) by (change (Z.ones 12) with 4095; lia).
  rewrite <- Z.ldiff_land, Z.ldiff_ones_r, Z.shiftr_div_pow2, Z.shiftl_mul_pow2 by lia.
  pose proof (ix_range pt Hsv va (S k) ltac:(lia)). change (2 ^ 12) with 4096.
  pose proof (Z.div_mod new 4096). rewrite <- (Z.div_unique (new + _) 4096 (new / 4096) (8 * ix pt va (S k))); lia.
Qed.

Lemma leaf_at m pt k va b :
  (k < 3)%nat -> tab m pt k va = Some b -> pte_table (ld m (b + 8 * ix pt va k)) = false ->
  leaf m pt va = (k, b + 8 * ix pt va k).
Proof.
  intros Hk Hb Ht. unfold leaf. destruct k as [|[|[|k]]]; [| |by rewrite Hb|lia].
  - injection Hb as <-. simpl tab. lvl_norm. by rewrite Ht.
  - assert (tab m pt 2 va = None) as ->; [|by rewrite Hb].
    change (tab m pt 2 va) with (b ← tab m pt 1 va; if pte_table (ld m (b + 8 * ix pt va 1))
      then Some (pte_addr (ld m (b + 8 * ix pt va 1))) else None). rewrite Hb. simpl mbind. by rewrite Ht.
Qed.

Lemma translate_at m pt k va b :
  pt_wf m pt -> (k < 3)%nat -> tab m pt k va = Some b -> pte_table (ld m (b + 8 * ix pt va k)) = false ->
  mem_translate m pt va = out pt k va (ld m (b + 8 * ix pt va k)).
Proof. intros Hwf Hk Hb Ht. by rewrite mem_translate_leaf, (leaf_at m pt k va b). Qed.

(** Tables are aligned, so the index of an entry is found from its address. *)
Lemma index_of_entry m pt k va b :
  pt_wf m pt -> (k < 3)%nat -> tab m pt k va = Some b ->
  pt_getpteindex pt (b + 8 * ix pt va k) (Z.of_nat k) = ix pt va k.
Proof.
  intros Hwf Hk Hb. pose proof (w_sv _ _ Hwf) as Hsv. pose proof (ix_range pt Hsv va k Hk) as Hi.
  assert (b mod tsize pt k = 0) as Hal.
  { destruct k as [|k]; [injection Hb as <-; apply (w_root _ _ Hwf)|]. rewrite tsize_low by (done || lia).
    simpl in Hb. destruct (tab m pt k va); [|done]. simpl in Hb. destruct (pte_table _); [|done].
    injection Hb as <-. apply pte_addr_range. }
  assert (exists e, 0 <= e /\ tsize pt k = 2 ^ e) as (e & He & E).
  { unfold tsize. destruct (geometry pt Hsv) as (W & _ & _ & _ & _ & _ & N0 & N1 & N2).
    destruct k as [|[|[|k]]]; [rewrite N0; destruct W as [-> | ->]; [by exists 12|by exists 14]| | |lia];
      exists 12; [by rewrite N1|by rewrite N2]. }
  unfold pt_getpteindex, pt_size. replace (nent pt k * 8) with (2 ^ e) by (unfold tsize in E; lia).
  rewrite Z.sub_1_r, <- Z.ones_equiv, Z.land_ones by done. rewrite E in Hal.
  rewrite <- Z.add_mod_idemp_l, Hal, Z.add_0_l, Z.mod_small by (unfold tsize in E; lia).
  rewrite Z.mul_comm. apply Z.div_mul. lia.
Qed.

(** ** Consecutive entries *)
Lemma span pt k :
  is_sv pt -> (k < 3)%nat -> exists q, 0 < q /\ 2 ^ wdt pt 0 = lsize pt k * (nent pt k * q).
Proof.
  intros Hsv Hk. destruct (geometry pt Hsv) as (W & _ & _ & E0 & E1 & E2 & N0 & N1 & N2).
  destruct k as [|[|[|k]]]; [| | |lia].
  - exists 1. rewrite E0, N0. by destruct W as [-> | ->].
  - exists (2 ^ (wdt pt 0 - 30)). rewrite E1, N1. by destruct W as [-> | ->].
  - exists (2 ^ (wdt pt 0 - 21)). rewrite E2, N2. by destruct W as [-> | ->].
Qed.

Lemma nent_pos pt k : is_sv pt -> (k < 3)%nat -> 0 < nent pt k.
Proof. intros Hsv Hk. pose proof (ix_range pt Hsv 0 k Hk). lia. Qed.

Lemma nv_mod pt k va : is_sv pt -> (k < 3)%nat -> nv pt va mod lsize pt k = va mod lsize pt k.
Proof.
  intros Hsv Hk. unfold nv. destruct (span pt k Hsv Hk) as (q & Hq & ->).
  pose proof (lsize_pos pt Hsv k). pose proof (nent_pos pt k Hsv Hk). rewrite Z.rem_mul_r by lia.
  rewrite Z.mul_comm, Z_mod_plus_full. apply Z.mod_mod. lia.
Qed.

Lemma nv_range pt va : is_sv pt -> 0 <= nv pt va < 2 ^ wdt pt 0.
Proof. intros Hsv. apply Z.mod_pos_bound. destruct (geometry pt Hsv) as ([-> | ->] & _); lia. Qed.

Lemma nv_add pt va d : is_sv pt -> 0 <= d -> nv pt va + d < 2 ^ wdt pt 0 -> nv pt (va + d) = nv pt va + d.
Proof.
  intros Hsv Hd Hlt. pose proof (nv_range pt va Hsv). unfold nv. rewrite <- Z.add_mod_idemp_l by lia.
  apply Z.mod_small. unfold nv in *. lia.
Qed.

Lemma next_entry pt k va :
  is_sv pt -> (k < 3)%nat -> va mod lsize pt k = 0 -> ix pt va k + 1 < nent pt k ->
  nv pt (va + lsize pt k) = nv pt va + lsize pt k /\ same pt k va (va + lsize pt k) /\
  ix pt (va + lsize pt k) k = ix pt va k + 1.
Proof.
  intros Hsv Hk Hal Hi. pose proof (lsize_pos pt Hsv k) as Hp. pose proof (nent_pos pt k Hsv Hk) as Hn.
  rewrite <- nv_mod in Hal by done. rewrite (ix_eq pt Hsv va k) in * by done.
  assert (nv pt va = lsize pt k * pre pt k va) as Ev.
  { unfold pre. pose proof (Z.div_mod (nv pt va) (lsize pt k)). lia. }
  pose proof (nv_range pt va Hsv) as Hr. destruct (span pt k Hsv Hk) as (q & Hq & Es).
  pose proof (Z.div_mod (pre pt k va) (nent pt k)) as Ed.
  assert (pre pt k va < nent pt k * q) as Hlt by nia.
  assert (pre pt k va / nent pt k < q) by (apply Z.div_lt_upper_bound; lia).
  assert (nv pt (va + lsize pt k) = nv pt va + lsize pt k) as E1 by (apply nv_add; [done|lia|nia]).
  assert (pre pt k (va + lsize pt k) = pre pt k va + 1) as E2.
  { unfold pre. rewrite E1, Ev. symmetry. apply (Z.div_unique _ _ _ 0); [lia|].
    rewrite (Z.mul_comm (lsize pt k) (pre pt k va)), Z.div_mul by lia. lia. }
  assert (ix pt (va + lsize pt k) k = ix pt va k + 1) as E3.
  { rewrite !ix_eq, E2 by done. symmetry. pose proof (Z.mod_pos_bound (pre pt k va) (nent pt k) Hn). apply (Z.mod_unique _ _ (pre pt k va / nent pt k)); lia. }
  rewrite <- (ix_eq pt Hsv va k) by done. split_and!; [done| |done].
  destruct k as [|k]; [done|]. simpl. pose proof (pre_S pt Hsv k va ltac:(lia)).
  pose proof (pre_S pt Hsv k (va + lsize pt (S k)) ltac:(lia)). lia.
Qed.

(** The translation by a page entry, for the addresses of its block. *)
Lemma out_page pt k va vb paddr flags :
  is_sv pt -> (k < 3)%nat -> page_flags flags -> 0 <= paddr < 2 ^ 56 -> paddr mod lsize pt k = 0 ->
  va mod lsize pt k = 0 -> same pt (S k) va vb ->
  out pt k vb (pte_set paddr PTE_PAGE flags) = Some (paddr + (nv pt vb - nv pt va)).
Proof.
  intros Hsv Hk Hf Hp Hal Hva Hs. destruct (pte_set_page paddr flags Hf) as [Hv _].
  rewrite <- nv_mod in Hva by done. apply same_block in Hs; [|done..].
  assert (pte_addr (pte_set paddr PTE_PAGE flags) = paddr) as E.
  { apply pte_addr_set; [unfold PTE_PAGE, PTE_RWX; lia|done|].
    destruct (geometry pt Hsv) as (_ & _ & _ & E0 & E1 & E2 & _).
    assert (exists q, lsize pt k = 4096 * q) as [q Eq].
    { destruct k as [|[|[|k]]]; [exists (2 ^ 18)|exists 512|exists 1|lia]; rewrite ?E0, ?E1, ?E2; done. }
    pose proof (lsize_pos pt Hsv k). pose proof (Z.div_mod paddr (lsize pt k)).
    apply Z.mod_divide; [lia|]. exists (q * (paddr / lsize pt k)). lia. }
  rewrite out_aligned by (rewrite ?E; done). rewrite E, <- nv_mod by done. do 2 f_equal.
  pose proof (Z.div_mod (nv pt va) (lsize pt k)). pose proof (lsize_pos pt Hsv k).
  symmetry. apply (Z.mod_unique _ _ (nv pt va / lsize pt k)); lia.
Qed.
