(* ===== verification/MemMap.v ===== *)
(** * Address spaces

    The mapping code of [core/mem.c] (lines 40-71, 279-717 and 808-835),
    [as_init] and the RISC-V part of address spaces ([arch/riscv/mem.c]), with
    [core/inc/tlb.h]. It is written and verified against an interface of the
    physical page allocator, which [PagePool] implements. *)

From S2P Require Import Prelude Bit Bitmap PagePool PageTable.

(** ** The page allocator, as this code uses it

    [pa_alloc] is [mem_alloc_ppages] and [pa_free] is [mem_free_ppages]. The
    laws are those of uncoloured requests: a block that is handed out consists
    of pages that were available, and these are not available any more. *)
Class PageAlloc (A : Type) := {
  pa_alloc : A -> Z -> Z -> bool -> option (ppages * A);
  pa_free : A -> ppages -> option A;
  pa_plain : Z -> bool;
  pa_inv : A -> Prop;
  pa_avail : A -> Z -> Prop;
  pa_avail_aligned : forall a p, pa_inv a -> pa_avail a p -> p mod PAGE_SIZE = 0;
  pa_alloc_ok : forall a colors n aligned,
    pa_inv a -> pa_plain colors = true -> 1 <= n ->
    exists pp a', pa_alloc a colors n aligned = Some (pp, a') /\ pa_inv a' /\
      (forall p, pa_avail a' p -> pa_avail a p) /\
      (pg_size pp = 0 \/
       pg_size pp = n /\ 0 < pg_base pp /\ pg_base pp + n * PAGE_SIZE <= 2 ^ 56 /\ pg_base pp mod PAGE_SIZE = 0 /\
       forall j, 0 <= j < n -> pa_avail a (pg_base pp + j * PAGE_SIZE) /\
                               ~ pa_avail a' (pg_base pp + j * PAGE_SIZE))
}.

(** *** The page pools implement the interface *)
Record pools_inv (a : mem * list page_pool) : Prop := {
  pi_wf : Forall pool_wf (snd a);
  pi_base : forall i p, snd a !! i = Some p ->
    0 < pp_base p /\ pp_base p mod PAGE_SIZE = 0 /\ pp_base p + pp_size p * PAGE_SIZE <= 2 ^ 56;
  pi_disj : forall i k p q, snd a !! i = Some p -> snd a !! k = Some q -> i <> k ->
    disjoint_bitmaps p q /\
    (pp_base p + pp_size p * PAGE_SIZE <= pp_base q \/ pp_base q + pp_size q * PAGE_SIZE <= pp_base p)
}.

Definition pools_avail (a : mem * list page_pool) (x : Z) : Prop :=
  exists i p j, snd a !! i = Some p /\ 0 <= j < pp_size p /\ x = pp_base p + j * PAGE_SIZE /\
    taken (fst a) p j = false.

Definition same_geometry (p q : page_pool) : Prop :=
  pp_base p = pp_base q /\ pp_size p = pp_size q /\ pp_bitmap p = pp_bitmap q.

Lemma pools_inv_update m m' l1 l2 p p' :
  same_geometry p p' -> pool_wf p' -> pools_inv (m, l1 ++ p :: l2) -> pools_inv (m', l1 ++ p' :: l2).
Proof.
  intros (Eb & Es & Em) Hw [Hwf Hb Hd]. simpl in *.
  assert (forall i q, (l1 ++ p' :: l2) !! i = Some q ->
    exists q0, (l1 ++ p :: l2) !! i = Some q0 /\ same_geometry q0 q) as Hl.
  { intros i q Hq. apply lookup_app_Some in Hq as [Hq|[Hi Hq]].
    - exists q. split; [|done]. by apply lookup_app_l_Some.
    - rewrite lookup_app_r by done. destruct (i - length l1)%nat; simpl in *; [|by exists q].
      simplify_eq. by exists p. }
  split; simpl.
  - apply Forall_app in Hwf as [? Hwf]. inversion_clear Hwf. by apply Forall_app; split; [|constructor].
  - intros i q Hq. destruct (Hl i q Hq) as (q0 & H0 & (<- & <- & _)). by apply (Hb i).
  - intros i k q r Hq Hr Hik. destruct (Hl i q Hq) as (q0 & Hq0 & (Eq1 & Eq2 & Eq3)).
    destruct (Hl k r Hr) as (r0 & Hr0 & (Er1 & Er2 & Er3)).
    destruct (Hd i k q0 r0 Hq0 Hr0 Hik) as [H1 H2]. unfold disjoint_bitmaps, bitmap_words in *.
    rewrite <- Eq1, <- Eq2, <- Eq3, <- Er1, <- Er2, <- Er3. done.
Qed.

Section PoolsAlloc.
Context (CN CS : Z).

Definition pools_alloc (a : mem * list page_pool) (colors n : Z) (aligned : bool)
    : option (ppages * (mem * list page_pool)) :=
  '(pp, pools', m') ← mem_alloc_ppages CN CS (fst a) (snd a) colors n aligned; Some (pp, (m', pools')).

Definition pools_free (a : mem * list page_pool) (pp : ppages) : option (mem * list page_pool) :=
  m' ← mem_free_ppages CN CS (fst a) (snd a) pp; Some (m', snd a).

Lemma pools_avail_aligned a x : pools_inv a -> pools_avail a x -> x mod PAGE_SIZE = 0.
Proof.
  intros [_ Hb _] (i & p & j & Hp & _ & -> & _). destruct (Hb i p Hp) as (_ & Hal & _).
  by rewrite Z_mod_plus_full.
Qed.

(** A page of one pool is no page of another. *)
Lemma pool_page_inj a i k p q j l :
  pools_inv a -> snd a !! i = Some p -> snd a !! k = Some q -> 0 <= j < pp_size p -> 0 <= l < pp_size q ->
  pp_base p + j * PAGE_SIZE = pp_base q + l * PAGE_SIZE -> i = k /\ j = l.
Proof.
  intros [_ _ Hd] Hp Hq Hj Hl E. unfold PAGE_SIZE in *. destruct (decide (i = k)) as [->|Hne].
  - rewrite Hp in Hq. simplify_eq. lia.
  - destruct (Hd i k p q Hp Hq Hne) as [_ ?]. unfold PAGE_SIZE in *. lia.
Qed.

Lemma pools_alloc_ok a colors n aligned :
  pools_inv a -> all_clrs CN colors = true -> 1 <= n ->
  exists pp a', pools_alloc a colors n aligned = Some (pp, a') /\ pools_inv a' /\
    (forall x, pools_avail a' x -> pools_avail a x) /\
    (pg_size pp = 0 \/
     pg_size pp = n /\ 0 < pg_base pp /\ pg_base pp + n * PAGE_SIZE <= 2 ^ 56 /\ pg_base pp mod PAGE_SIZE = 0 /\
     forall j, 0 <= j < n -> pools_avail a (pg_base pp + j * PAGE_SIZE) /\
                             ~ pools_avail a' (pg_base pp + j * PAGE_SIZE)).
Proof.
  destruct a as [m pools]. intros Hinv Hc Hn. pose proof Hinv as [Hwf Hb Hd]. simpl in *.
  destruct (alloc_from_pools_spec CN CS m pools colors n aligned (mk_ppages 0 0 0))
    as (pp & pools' & m' & Ea & Hr); [done|done|by rewrite Hc|done|].
  unfold pools_alloc, mem_alloc_ppages. simpl. rewrite Ea. simpl. exists pp, (m', pools'). split; [done|].
  destruct Hr as [(E0 & -> & ->)|(l1 & p & l2 & p' & bit & -> & -> & Hal & _)].
  { split; [done|]. split; [done|]. by left. }
  set (i := length l1). assert ((l1 ++ p :: l2) !! i = Some p) as Hp by (by apply list_lookup_middle).
  pose proof (allocated_wf _ _ _ _ _ _ _ (proj1 (Forall_lookup _ _) Hwf i p Hp) Hn Hal) as Hwf'.
  pose proof Hal as [Hrange Ebase [Esize _] Hfree Htaken Hout Epool].
  destruct (Hb i p Hp) as (Hb0 & Hbal & Htop).
  assert (pools_inv (m', l1 ++ p' :: l2)) as Hinv'.
  { eapply pools_inv_update; [|done|exact Hinv]. by subst p'. }
  assert (forall k q j, (l1 ++ p' :: l2) !! k = Some q -> 0 <= j < pp_size q -> taken m' q j = false ->
    exists q0, (l1 ++ p :: l2) !! k = Some q0 /\ pp_base q0 = pp_base q /\ pp_size q0 = pp_size q /\
      taken m q0 j = false /\ (k = i -> ~ bit <= j < bit + n)) as Hback.
  { intros k q j Hq Hj Ht. destruct (decide (k = i)) as [->|Hne].
    - unfold i in Hq. rewrite list_lookup_middle in Hq by done. simplify_eq. exists p. split_and!; try done.
      + change (taken m' p j = false) in Ht. rewrite Htaken in Ht. by apply orb_false_iff in Ht as [_ ?].
      + intros _ Hin. change (taken m' p j = false) in Ht. rewrite Htaken in Ht. lia.
    - exists q. assert ((l1 ++ p :: l2) !! k = Some q) as Hq0.
      { rewrite <- (list_lookup_insert_ne _ i k p') by done. unfold i. rewrite insert_app_r_alt, Nat.sub_diag by lia.
        done. }
      split_and!; try done. rewrite <- (taken_outside p q m m') by (done || lia || by apply (Hd i k)). done. }
  split; [done|]. split.
  - intros x (k & q & j & Hq & Hj & -> & Ht).
    destruct (Hback k q j Hq Hj Ht) as (q0 & H1 & H2 & H3 & H4 & _). exists k, q0, j. rewrite H2, H3. done.
  - right. rewrite Esize, Ebase. split; [done|]. unfold PAGE_SIZE in *. split; [lia|]. split; [lia|].
    split; [by rewrite Z_mod_plus_full|]. intros j Hj. split.
    + exists i, p, (bit + j). split; [done|]. split; [lia|]. split; [unfold PAGE_SIZE; lia|]. simpl. apply Hfree. lia.
    + intros (k & q & l & Hq & Hl & E & Ht).
      destruct (Hback k q l Hq Hl Ht) as (q0 & H1 & H2 & H3 & H4 & H5).
      destruct (pool_page_inj (m, l1 ++ p :: l2) i k p q0 (bit + j) l) as [<- <-];
        [done|done|done|lia|lia|unfold PAGE_SIZE in *; lia|]. by apply H5; [|lia].
Qed.

#[export] Instance pools_page_alloc : PageAlloc (mem * list page_pool) := {|
  pa_alloc := pools_alloc;
  pa_free := pools_free;
  pa_plain := all_clrs CN;
  pa_inv := pools_inv;
  pa_avail := pools_avail;
  pa_avail_aligned := pools_avail_aligned;
  pa_alloc_ok := pools_alloc_ok
|}.
End PoolsAlloc.

(** ** State *)
Inductive AS_TYPE := AS_HYP | AS_VM | AS_HYP_CPY.

#[export] Instance AS_TYPE_eq_dec : EqDecision AS_TYPE.
Proof. solve_decision. Defined.

Record addr_space := mk_as { as_pt : page_table; as_type : AS_TYPE; as_colors : Z; as_id : Z }.

Record section := mk_sec { sec_beg : Z; sec_end : Z; sec_shared : bool }.

(** TLB invalidations: an address of the hypervisor or of a VM. *)
Inductive tlb_op := TlbHyp (va : Z) | TlbVm (vmid va : Z).

Record mstate (A : Type) := mk_mst { ms_pages : A; ms_mem : mem; ms_tlb : list tlb_op }.
Arguments mk_mst {A} _ _ _.
Arguments ms_pages {A} _.
Arguments ms_mem {A} _.
Arguments ms_tlb {A} _.

Definition PM (A B : Type) : Type := mstate A -> res (B * mstate A).

#[export] Instance PM_ret A : MRet (PM A) := fun B b s => Ok (b, s).
#[export] Instance PM_bind A : MBind (PM A) :=
  fun B C k m s => match m s with Ok (b, s') => k b s' | Fault f => Fault f end.

Definition SEC_HYP_GLOBAL : nat := 0.
Definition SEC_HYP_PRIVATE : nat := 3.
Definition SEC_HYP_VM : nat := 4.

Section Mem.
Context {A : Type} `{!PageAlloc A} (COLOR_NUM COLOR_SIZE : Z) (hyp_secs : list section).

Definition failp {B} (f : fault) : PM A B := fun _ => Fault f.
Definition get_mem : PM A mem := fun s => Ok (ms_mem s, s).
Definition put_mem (m : mem) : PM A unit := fun s => Ok (tt, mk_mst (ms_pages s) m (ms_tlb s)).
Definition load (a : Z) : PM A Z :=
  fun s => if a =? 0 then Fault NullDeref else Ok (ld (ms_mem s) a, s).
Definition store (a w : Z) : PM A unit :=
  fun s => if a =? 0 then Fault NullDeref else Ok (tt, mk_mst (ms_pages s) (st (ms_mem s) a w) (ms_tlb s)).
Definition alloc_pages (colors n : Z) (aligned : bool) : PM A ppages :=
  fun s => match pa_alloc (ms_pages s) colors n aligned with
           | Some (pp, a') => Ok (pp, mk_mst a' (ms_mem s) (ms_tlb s))
           | None => Fault Hang
           end.
Definition free_pages (pp : ppages) : PM A unit :=
  fun s => match pa_free (ms_pages s) pp with
           | Some a' => Ok (tt, mk_mst a' (ms_mem s) (ms_tlb s))
           | None => Fault Hang
           end.
Definition next_clr (base from colors : Z) : PM A Z :=
  match pp_next_clr COLOR_NUM COLOR_SIZE base from colors with Some i => mret i | None => failp Hang end.

Definition tlb_inv_va (as_ : addr_space) (va : Z) : PM A unit :=
  fun s => Ok (tt, mk_mst (ms_pages s) (ms_mem s) (ms_tlb s ++
    match as_type as_ with AS_HYP => [TlbHyp va] | AS_VM => [TlbVm (as_id as_) va] | AS_HYP_CPY => [] end)).

Definition vm_secs : list section := [mk_sec 0 (2 ^ 64 - 1) false].
Definition sections (t : AS_TYPE) : list section := match t with AS_VM => vm_secs | _ => hyp_secs end.

(** A section is known by its index. *)
Fixpoint find_sec (l : list section) (va : Z) (i : nat) : option nat :=
  match l with
  | [] => None
  | x :: rest => if (sec_beg x <=? va) && (va <=? sec_end x) then Some i else find_sec rest va (S i)
  end.
Definition mem_find_sec (as_ : addr_space) (va : Z) : option nat := find_sec (sections (as_type as_)) va 0.

Section AS.
Context (cpu_as as_ : addr_space).
Let pt := as_pt as_.
Let nlvls := lvls (pt_dscr pt).

Definition pte_allocable (pte lvl left addr : Z) : bool :=
  (lvl =? nlvls - 1) ||
  (pt_lvl_terminal pt lvl && negb (pte_valid pte) && (pt_lvlsize pt lvl <=? left * PAGE_SIZE) &&
   (addr mod pt_lvlsize pt lvl =? 0)).

(** The new table; 0 is [NULL]. *)
Definition mem_alloc_pt (parent lvl addr : Z) : PM A Z :=
  let ptsize := pt_size pt lvl / PAGE_SIZE in
  ppage ← alloc_pages (as_colors as_) ptsize (1 <? ptsize);
  if pg_size ppage =? 0 then mret 0
  else
    store parent (pte_set (pg_base ppage) PTE_TABLE PTE_HYP_FLAGS);;
    if nlvls <=? lvl + 1 then failp OutOfBounds
    else
      m ← get_mem;
      let temp_pt := pt_get m pt (lvl + 1) addr in
      put_mem (mem_zero m temp_pt PAGE_SIZE);; mret temp_pt.

Definition pt_pte_mappable (pte lvl left vaddr paddr : Z) : bool :=
  negb (pte_valid pte) && (pt_lvlsize pt lvl <=? left * PAGE_SIZE) &&
  (vaddr mod pt_lvlsize pt lvl =? 0) && (paddr mod pt_lvlsize pt lvl =? 0).

(** ** Splitting entries *)
Fixpoint expand_loop (vld : bool) (lvlsz type flags pte paddr : Z) (k : nat) : PM A unit :=
  match k with
  | O => mret tt
  | S k' =>
      (if vld then store pte (pte_set paddr type flags)
       else w ← load pte; store pte (pte_set_rsw w PTE_RSW_RSRV));;
      expand_loop vld lvlsz type flags (pte + 8) (u64 (paddr + lvlsz)) k'
  end.

Definition mem_expand_pte (va lvl : Z) : PM A unit :=
  if nlvls - 1 <=? lvl then mret tt
  else
    m ← get_mem;
    let pte := pt_get_pte m pt lvl va in
    if negb (pte =? 0) && negb (pte_table (ld m pte)) then
      let pte_val := ld m pte in
      let rsv := pte_check_rsw pte_val PTE_RSW_RSRV in
      let vld := pte_valid pte_val in
      pte ← mem_alloc_pt pte lvl va;
      if vld || rsv then
        tlb_inv_va cpu_as va;;
        let lvl := lvl + 1 in
        let entry := pt_getpteindex pt pte lvl in
        expand_loop vld (pt_lvlsize pt lvl) (pt_pte_type pt lvl)
          (match as_type as_ with AS_HYP => PTE_HYP_FLAGS | _ => PTE_VM_FLAGS end)
          pte (pte_addr pte_val) (Z.to_nat (pt_nentries pt lvl - entry))
      else mret tt
    else mret tt.

Fixpoint inflate_lvl (lvl top : Z) (vaddr : Z) (fuel : nat) : PM A unit :=
  if vaddr <? top then
    match fuel with
    | O => failp Hang
    | S f => mem_expand_pte vaddr lvl;; inflate_lvl lvl top (u64 (vaddr + pt_lvlsize pt lvl)) f
    end
  else mret tt.

Fixpoint inflate_loop (va length lvl : Z) (k : nat) : PM A unit :=
  match k with
  | O => mret tt
  | S k' =>
      inflate_lvl lvl (u64 (va + length)) va (S (Z.to_nat (length / pt_lvlsize pt lvl + 1)));;
      inflate_loop va length (lvl + 1) k'
  end.

Definition mem_inflate_pt (va length : Z) : PM A unit := inflate_loop va length 0 (Z.to_nat (nlvls - 1)).

(** ** Mapping *)

(** The [for] over the levels in [mem_map]: the level and entry to map at. *)
Fixpoint map_level (left vaddr paddr lvl : Z) (pte : Z) (k : nat) : PM A (Z * Z) :=
  match k with
  | O => mret (lvl, pte)
  | S k' =>
      m ← get_mem;
      let pte := pt_get_pte m pt lvl vaddr in
      if pt_lvl_terminal pt lvl then
        w ← load pte;
        if pt_pte_mappable w lvl left vaddr paddr then mret (lvl, pte)
        else if negb (pte_valid w) then
          mem_alloc_pt pte lvl vaddr;; map_level left vaddr paddr (lvl + 1) pte k'
        else if negb (pte_table w) then failp (Panic "trying to override previous mapping")
        else map_level left vaddr paddr (lvl + 1) pte k'
      else map_level left vaddr paddr (lvl + 1) pte k'
  end.

(** The loop over consecutive entries of one table. [given] says that the pages
    to map were given by the caller; otherwise a block is allocated for each
    entry. Returns [vaddr], [paddr] and [count]. *)
Fixpoint map_entries (given : bool) (n flags lvl pte entry vaddr paddr count : Z) (k : nat)
    : PM A (Z * Z * Z) :=
  let lvlsz := pt_lvlsize pt lvl in
  if (entry <? pt_nentries pt lvl) && (count <? n) && (lvlsz / PAGE_SIZE <=? n - count) then
    match k with
    | O => failp Hang
    | S k' =>
        let next paddr :=
          store pte (pte_set paddr (pt_pte_type pt lvl) flags);;
          map_entries given n flags lvl (pte + 8) (entry + 1) (u64 (vaddr + lvlsz)) (u64 (paddr + lvlsz))
            (count + lvlsz / PAGE_SIZE) k' in
        if given then next paddr
        else
          temp ← alloc_pages (as_colors as_) (lvlsz / PAGE_SIZE) true;
          if pg_size temp <? lvlsz / PAGE_SIZE then
            if lvl =? nlvls - 1 then failp (Panic "failed to alloc physical pages")
            else
              m ← get_mem;
              let pte := pt_get_pte m pt lvl vaddr in
              w ← load pte;
              (if negb (pte_valid w) then mem_alloc_pt pte lvl vaddr;; mret tt else mret tt);;
              mret (vaddr, paddr, count)
          else next (pg_base temp)
    end
  else mret (vaddr, paddr, count).

Fixpoint map_loop (given : bool) (n flags vaddr paddr count : Z) (fuel : nat) : PM A unit :=
  if count <? n then
    match fuel with
    | O => failp Hang
    | S f =>
        '(lvl, pte) ← map_level (n - count) vaddr (if given then paddr else 0) 0 0 (Z.to_nat nlvls);
        if nlvls <=? lvl then failp OutOfBounds
        else
          let entry := pt_getpteindex pt pte lvl in
          '(vaddr', paddr', count') ← map_entries given n flags lvl pte entry vaddr paddr count
                                        (Z.to_nat (pt_nentries pt lvl - entry));
          map_loop given n flags vaddr' paddr' count' f
    end
  else mret tt.

(** The pages of a coloured block, one entry of the last level each. *)
Fixpoint map_clr_loop (base colors flags vaddr index : Z) (k : nat) : PM A unit :=
  match k with
  | O => mret tt
  | S k' =>
      m ← get_mem;
      index ← next_clr base index colors;
      store (pt_get_pte m pt (nlvls - 1) vaddr) (pte_set (base + index * PAGE_SIZE) PTE_PAGE flags);;
      map_clr_loop base colors flags (u64 (vaddr + PAGE_SIZE)) (index + 1) k'
  end.

(** A pass of the outer loop maps at least one page or descends one level. *)
Definition map_fuel (n : Z) : nat := S (Z.to_nat (3 * n)).

Definition mem_map (va : Z) (ppages : option ppages) (n flags : Z) : PM A Z :=
  let vaddr := Z.land va (Z.lnot (PAGE_SIZE - 1)) in
  match mem_find_sec as_ vaddr with
  | None => mret (-1)
  | Some sec =>
      if negb (bool_decide (mem_find_sec as_ (u64 (vaddr + n * PAGE_SIZE - 1)) = Some sec)) then mret (-1)
      else
        ppages ← (match ppages with
                  | Some pp => mret (Some pp)
                  | None =>
                      if negb (all_clrs COLOR_NUM (as_colors as_)) then
                        temp ← alloc_pages (as_colors as_) n false;
                        if pg_size temp <? n then failp (Panic "failed to alloc colored physical pages")
                        else mret (Some temp)
                      else mret None
                  end);
        match ppages with
        | Some pp =>
            if negb (all_clrs COLOR_NUM (pg_colors pp)) then
              mem_inflate_pt vaddr (n * PAGE_SIZE);;
              map_clr_loop (pg_base pp) (pg_colors pp) flags vaddr 0 (Z.to_nat (pg_size pp));;
              mret 0
            else map_loop true n flags vaddr (pg_base pp) 0 (map_fuel n);; mret 0
        | None => map_loop false n flags vaddr 0 0 (map_fuel n);; mret 0
        end
  end.

(** ** Virtual pages *)

(** The state of the search of [mem_alloc_vpage]; [va_page] 0 is [NULL]. *)
Record vsearch := mk_vs { va_lvl : Z; va_addr : Z; va_count : Z; va_page : Z; va_failed : bool }.

(** The inner loop of the search, over the entries of one table. *)
Fixpoint vpage_entries (at_ n pte entry : Z) (v : vsearch) (k : nat) : PM A vsearch :=
  let lvl := va_lvl v in
  let lvlsze := pt_lvlsize pt lvl in
  if (entry <? pt_nentries pt lvl) && (va_count v <? n) && negb (va_failed v) then
    match k with
    | O => failp Hang
    | S k' =>
        let continue v :=
          w ← load pte;
          if pte_table w then mret (mk_vs (lvl + 1) (va_addr v) (va_count v) (va_page v) (va_failed v))
          else
            let addr := u64 (va_addr v + lvlsze) in
            if pt_nentries pt lvl <=? entry + 1 then mret (mk_vs 0 addr (va_count v) (va_page v) (va_failed v))
            else vpage_entries at_ n (pte + 8) (entry + 1)
                   (mk_vs lvl addr (va_count v) (va_page v) (va_failed v)) k' in
        w ← load pte;
        if pte_check_rsw w PTE_RSW_RSRV || (pte_valid w && negb (pte_table w)) then
          if negb (at_ =? 0) then mret (mk_vs lvl (va_addr v) 0 0 true)
          else continue (mk_vs lvl (va_addr v) 0 0 (va_failed v))
        else if negb (pte_valid w) then
          if pte_allocable w lvl (n - va_count v) (va_addr v) then
            continue (mk_vs lvl (va_addr v) (va_count v + lvlsze / PAGE_SIZE)
                        (if va_count v =? 0 then va_addr v else va_page v) (va_failed v))
          else
            p ← mem_alloc_pt pte lvl (va_addr v);
            if p =? 0 then failp (Panic "failed to alloc page table") else continue v
        else continue v
    end
  else mret v.

Fixpoint vpage_search (at_ n top : Z) (v : vsearch) (fuel : nat) : PM A vsearch :=
  if (va_count v <? n) && negb (va_failed v) then
    match fuel with
    | O => failp Hang
    | S f =>
        if u64 (top + 1 - va_addr v) / PAGE_SIZE <? n
        then mret (mk_vs (va_lvl v) (va_addr v) (va_count v) 0 true)
        else
          m ← get_mem;
          let pte := pt_get_pte m pt (va_lvl v) (va_addr v) in
          let entry := pt_getpteindex pt pte (va_lvl v) in
          v' ← vpage_entries at_ n pte entry v (Z.to_nat (pt_nentries pt (va_lvl v) - entry));
          vpage_search at_ n top v' f
    end
  else mret v.

(** The first invalid entry on the walk of [addr], from level [lvl] on. *)
Fixpoint first_invalid (addr lvl pte : Z) (k : nat) : PM A (Z * Z) :=
  match k with
  | O => mret (lvl, pte)
  | S k' =>
      m ← get_mem;
      let pte := pt_get_pte m pt lvl addr in
      w ← load pte;
      if negb (pte_valid w) then mret (lvl, pte) else first_invalid addr (lvl + 1) pte k'
  end.

Fixpoint mark_reserved (n addr count : Z) (fuel : nat) : PM A unit :=
  if count <? n then
    match fuel with
    | O => failp Hang
    | S f =>
        '(lvl, pte) ← first_invalid addr 0 0 (Z.to_nat nlvls);
        w ← load pte; store pte (pte_set_rsw w PTE_RSW_RSRV);;
        if nlvls <=? lvl then failp OutOfBounds
        else mark_reserved n (u64 (addr + pt_lvlsize pt lvl)) (count + pt_lvlsize pt lvl / PAGE_SIZE) f
    end
  else mret tt.

(** [fuel] bounds the tables the search visits. *)
Definition mem_alloc_vpage (fuel : nat) (sec_idx : nat) (at_ n : Z) : PM A Z :=
  match sections (as_type as_) !! sec_idx with
  | None => failp OutOfBounds
  | Some sec =>
      if negb (at_ =? 0) && negb (bool_decide (mem_find_sec as_ at_ = Some sec_idx)) then mret 0
      else
        let addr := Z.land (if negb (at_ =? 0) then at_ else sec_beg sec) (Z.lnot (PAGE_SIZE - 1)) in
        v ← vpage_search at_ n (sec_end sec) (mk_vs 0 addr 0 0 false) fuel;
        (if negb (va_page v =? 0) && negb (va_failed v) then mark_reserved n (va_page v) 0 (S (Z.to_nat n))
         else mret tt);;
        mret (va_page v)
  end.

(** The inner loop of [mem_free_vpage]: the level, the entry it stopped at and
    the address. *)
Fixpoint free_entries (free_ppages : bool) (lvl top pte entry vaddr : Z) (k : nat) : PM A (Z * Z * Z) :=
  let lvlsz := pt_lvlsize pt lvl in
  if (entry <? pt_nentries pt lvl) && (vaddr <? top) then
    match k with
    | O => failp Hang
    | S k' =>
        w ← load pte;
        if negb (pte_table w) then
          let vpage_base := Z.land vaddr (Z.lnot (lvlsz - 1)) in
          if (vpage_base <? vaddr) || (top <? u64 (vpage_base + lvlsz)) then
            mem_expand_pte vaddr lvl;; mret (lvl + 1, entry, vaddr)
          else
            (if free_ppages then free_pages (mem_ppages_get (pte_addr w) (lvlsz / PAGE_SIZE)) else mret tt);;
            store pte 0;;
            tlb_inv_va cpu_as vaddr;;
            free_entries free_ppages lvl top (pte + 8) (entry + 1) (u64 (vaddr + lvlsz)) k'
        else mret (lvl, entry, vaddr)
    end
  else mret (lvl, entry, vaddr).

(** A walk of a negative number of levels leaves the tables. *)
Fixpoint free_loop (free_ppages : bool) (top lvl vaddr : Z) (fuel : nat) : PM A unit :=
  if vaddr <? top then
    match fuel with
    | O => failp Hang
    | S f =>
        if lvl <? 0 then failp OutOfBounds
        else
          m ← get_mem;
          let pte := pt_get_pte m pt lvl vaddr in
          if pte =? 0 then failp (Panic "invalid pte while freeing vpages")
          else if negb (pte_valid (ld m pte)) then
            free_loop free_ppages top lvl (u64 (vaddr + pt_lvlsize pt lvl)) f
          else if pte_table (ld m pte) then free_loop free_ppages top (lvl + 1) vaddr f
          else
            let entry := pt_getpteindex pt pte lvl in
            '(lvl', entry', vaddr') ← free_entries free_ppages lvl top pte entry vaddr
                                        (Z.to_nat (pt_nentries pt lvl - entry));
            free_loop free_ppages top (if entry' =? pt_nentries pt lvl then lvl' - 1 else lvl') vaddr' f
    end
  else mret tt.

Definition mem_free_vpage (fuel : nat) (at_ n : Z) (free_ppages : bool) : PM A unit :=
  match mem_find_sec as_ at_ with
  | None => failp NullDeref
  | Some _ => free_loop free_ppages (u64 (at_ + n * PAGE_SIZE)) 0 at_ fuel
  end.

Definition mem_map_dev (va base n : Z) : PM A Z :=
  mem_map va (Some (mem_ppages_get base n)) n
    (match as_type as_ with AS_HYP => PTE_HYP_FLAGS | _ => PTE_VM_FLAGS end).
End AS.

(** Pages of the hypervisor, backed by new physical pages; 0 is [NULL]. *)
Definition mem_alloc_page (fuel : nat) (cpu_as : addr_space) (n : Z) (sec : nat) (phys_aligned : bool) : PM A Z :=
  ppages ← alloc_pages (as_colors cpu_as) n phys_aligned;
  if pg_size ppages =? n then
    vpage ← mem_alloc_vpage cpu_as fuel sec 0 n;
    if vpage =? 0 then failp (Panic "failed to allocate virtual page")
    else mem_map cpu_as cpu_as vpage (Some ppages) n PTE_HYP_FLAGS;; mret vpage
  else mret 0.

(** ** Initialisation *)

(** One entry of level 0 for every GiB of a region; [k] is [num_entries]. *)
Fixpoint identity_loop (pt : page_table) (addr : Z) (k : nat) : PM A unit :=
  match k with
  | O => mret tt
  | S k' =>
      store (pt_root pt + 8 * pt_getpteindex_by_va pt addr 0) (pte_set addr PTE_PAGE PTE_HYP_FLAGS);;
      identity_loop pt (u64 (addr + pt_lvlsize pt 0)) k'
  end.

Definition identity_entries (lvl_size base size : Z) : Z :=
  let lvl_mask := Z.lnot (lvl_size - 1) in
  let top := Z.land (u64 (base + size)) lvl_mask in
  s32 (u64 (u64 (top - Z.land base lvl_mask - 1) / lvl_size + 1)).

Fixpoint as_map_physical_identity (pt : page_table) (regions : list (Z * Z)) : PM A unit :=
  match regions with
  | [] => mret tt
  | (base, size) :: rest =>
      let lvl_size := pt_lvlsize pt 0 in
      identity_loop pt (Z.land base (Z.lnot (lvl_size - 1))) (Z.to_nat (identity_entries lvl_size base size));;
      as_map_physical_identity pt rest
  end.

Definition as_arch_init (as_ : addr_space) (regions : list (Z * Z)) : PM A unit :=
  match as_type as_ with AS_HYP => as_map_physical_identity (as_pt as_) regions | _ => mret tt end.

Definition as_init (fuel : nat) (cpu_as : addr_space) (regions : list (Z * Z)) (type : AS_TYPE)
    (id root_pt colors : Z) : PM A addr_space :=
  let dscr := match type with AS_VM => sv39x4_pt_dscr | _ => sv39_pt_dscr end in
  root ← (if root_pt =? 0 then
            let n := pt_size (mk_pt 0 0 dscr) 0 / PAGE_SIZE in
            r ← mem_alloc_page fuel cpu_as n (match type with AS_VM => SEC_HYP_VM | _ => SEC_HYP_PRIVATE end) true;
            (if r =? 0 then failp NullDeref else m ← get_mem; put_mem (mem_zero m r (n * PAGE_SIZE)));; mret r
          else mret root_pt);
  let as_ := mk_as (mk_pt root 0 dscr) type colors id in
  as_arch_init as_ regions;; mret as_.
End Mem.
