(* ===== verification/MapProofs.v ===== *)
(** * Correctness of the mapping code

    What the mapping code of [MemMap] does to the translations of an address
    space: mapping a range ([mem_map]) and splitting an entry into a table of
    smaller ones ([mem_expand_pte]), against the interface of the page
    allocator. *)

From S2P Require Import Prelude Bit Bitmap PagePool PageTable MemMap.

(** ** Running the monad *)
Lemma pm_bind {A B C} (m : PM A B) (k : B -> PM A C) s b s' : m s = Ok (b, s') -> (m ≫= k) s = k b s'.
Proof. unfold mbind, PM_bind. by intros ->. Qed.

Lemma pm_fault {A B C} (m : PM A B) (k : B -> PM A C) s f : m s = Fault f -> (m ≫= k) s = Fault f.
Proof. unfold mbind, PM_bind. by intros ->. Qed.

Lemma pm_get_mem {A C} (k : mem -> PM A C) s : (get_mem ≫= k) s = k (ms_mem s) s.
Proof. done. Qed.

Ltac prun H := rewrite (pm_bind _ _ _ _ _ H).

(** ** Correctness of mappings *)
Section MapProofs.
Context {A : Type} `{!PageAlloc A} (CN CS : Z) (hyp_secs : list section) (as_ : addr_space).
Let pt := as_pt as_.

(** The tables are well formed and none of their pages can be allocated. *)
Record as_ok (s : mstate A) : Prop := {
  ok_wf : pt_wf (ms_mem s) pt;
  ok_inv : pa_inv (ms_pages s);
  ok_owned : forall p, pa_avail (ms_pages s) p -> fresh (ms_mem s) pt p
}.

(** From [a] to [a'] by requests with the colours of the address space that
    were granted at most [c] pages together. *)
Inductive takes : Z -> A -> A -> Prop :=
  | takes_refl c a : 0 <= c -> takes c a a
  | takes_step c a n al pp a1 a' :
      1 <= n -> pa_alloc a (as_colors as_) n al = Some (pp, a1) -> 0 <= pg_size pp -> (forall p, pa_avail a1 p -> pa_avail a p) ->
      takes (c - pg_size pp) a1 a' -> takes c a a'.

Lemma takes_nonneg c a a' : takes c a a' -> 0 <= c.
Proof. induction 1; lia. Qed.

Lemma takes_weaken c d a a' : takes c a a' -> c <= d -> takes d a a'.
Proof.
  intros H. revert d. induction H; intros d Hd; [apply takes_refl; lia|].
  eapply takes_step; [done|done|done|done|]. apply IHtakes. lia.
Qed.

Lemma takes_trans c d a a' a'' : takes c a a' -> takes d a' a'' -> takes (c + d) a a''.
Proof.
  intros H H'. pose proof (takes_nonneg _ _ _ H'). induction H; [eapply takes_weaken; [done|lia]|].
  eapply takes_step; [done|done|done|done|]. replace (c + d - pg_size pp) with (c - pg_size pp + d) by lia. by apply IHtakes.
Qed.

Lemma takes_mono c a a' p : takes c a a' -> pa_avail a' p -> pa_avail a p.
Proof. induction 1 as [|c a n al pp a1 a' _ _ _ Hm _ IH]; [done|]. intros Hp. by apply Hm, IH. Qed.

(** When at most [c] pages have been taken, the allocator refuses a request of
    at most four pages (the largest table). *)
Definition refused (c : Z) (a : A) : Prop :=
  exists a1 n al pp a2, takes c a a1 /\ 1 <= n <= 4 /\ pa_alloc a1 (as_colors as_) n al = Some (pp, a2) /\ pg_size pp = 0.

Lemma refused_later c d e a a' : takes c a a' -> refused d a' -> c + d <= e -> refused e a.
Proof.
  intros H (a1 & n & al & pp & a2 & H1 & H2) He. exists a1, n, al, pp, a2. split; [|done].
  eapply takes_weaken; [by eapply takes_trans|done].
Qed.

Lemma refused_weaken c d a : refused c a -> c <= d -> refused d a.
Proof. intros H Hd. eapply refused_later; [by apply (takes_refl 0)|done|lia]. Qed.

(** *** What may change *)

(** [x] lies in a table of the address space; it lies in a page that can be
    allocated. *)
Definition table_addr (m : mem) (x : Z) : Prop :=
  exists k v b, (k < 3)%nat /\ tab m pt k v = Some b /\ b <= x < b + tsize pt k.
Definition avail_addr (a : A) (x : Z) : Prop := exists p, pa_avail a p /\ p <= x < p + 4096.

(** [t] pages were taken; only tables and pages that could be allocated have
    changed, and new tables lie in such pages. *)
Record evolves (t : Z) (s s' : mstate A) : Prop := {
  e_takes : takes t (ms_pages s) (ms_pages s');
  e_tabs : forall x, table_addr (ms_mem s') x -> table_addr (ms_mem s) x \/ avail_addr (ms_pages s) x;
  e_mem : forall x, ld (ms_mem s') x <> ld (ms_mem s) x -> table_addr (ms_mem s) x \/ avail_addr (ms_pages s) x
}.

Lemma evolves_same t s s' : takes t (ms_pages s) (ms_pages s') -> ms_mem s' = ms_mem s -> evolves t s s'.
Proof. intros Ht Em. split; [done|rewrite Em; by left|by rewrite Em]. Qed.

Lemma evolves_weaken t t' s s' : evolves t s s' -> t <= t' -> evolves t' s s'.
Proof. intros [T B M] H. split; [by eapply takes_weaken|done|done]. Qed.

Lemma avail_addr_mono t a a' x : takes t a a' -> avail_addr a' x -> avail_addr a x.
Proof. intros Ht (p & Hp & Hx). exists p. split; [by eapply takes_mono|done]. Qed.

Lemma evolves_trans t t' s1 s2 s3 : evolves t s1 s2 -> evolves t' s2 s3 -> evolves (t + t') s1 s3.
Proof.
  intros [T1 B1 M1] [T2 B2 M2]. split; [by eapply takes_trans|..].
  - intros x [H|H]%B2; [by apply B1|right; by eapply avail_addr_mono].
  - intros x Hx. destruct (decide (ld (ms_mem s3) x = ld (ms_mem s2) x)) as [E|Hne]; [rewrite E in Hx; by apply M1|].
    apply M2 in Hne as [H|H]; [by apply B1|right; by eapply avail_addr_mono].
Qed.

(** Two states with the same translations, [c] pages taken from one to the
    other. *)
Definition same_map (c : Z) (s s' : mstate A) : Prop :=
  as_ok s' /\ evolves c s s' /\
  forall u, mem_translate (ms_mem s') pt u = mem_translate (ms_mem s) pt u.

(** The entry an address ends at is reserved. *)
Definition rsvd (m : mem) (u : Z) : bool := pte_check_rsw (ld m (snd (leaf m pt u))) PTE_RSW_RSRV.

(** No address is reserved that was not before. *)
Definition quiet (m m' : mem) : Prop := forall u, rsvd m' u = true -> rsvd m u = true.

Lemma quiet_trans m1 m2 m3 : quiet m1 m2 -> quiet m2 m3 -> quiet m1 m3.
Proof. intros H1 H2 u H. by apply H1, H2. Qed.

Lemma rsvd_set_table m k va b new u :
  pt_wf m pt -> (k < 2)%nat -> tab m pt k va = Some b -> 0 < new < 2 ^ 56 -> new mod 4096 = 0 -> fresh m pt new ->
  rsvd (mem_zero (st m (b + 8 * ix pt va k) (pte_set new PTE_TABLE PTE_HYP_FLAGS)) new 4096) u =
    if decide (same pt (S k) va u) then false else rsvd m u.
Proof.
  intros Hwf Hk Hb Hnew Hal Hf. pose proof (w_sv _ _ Hwf) as Hsv. set (m' := mem_zero _ _ _).
  assert (forall i vb, (0 < i < 3)%nat -> ld m' (new + 8 * ix pt vb i) = 0) as Hz.
  { intros i vb Hi. pose proof (ix_range pt Hsv vb i ltac:(lia)). pose proof (tsize_low pt i Hsv Hi).
    unfold m'. rewrite ld_mem_zero, decide_True by (unfold tsize in *; lia). done. }
  unfold rsvd. case_decide as Hs.
  - assert (tab m' pt (S k) u = Some new) as Hn.
    { unfold m'. rewrite tab_set_table by (done || lia). rewrite decide_True, decide_True; [done|done|split; [done|lia]]. }
    rewrite (leaf_at m' pt (S k) u new) by (lia || done || by rewrite Hz by lia). simpl snd. by rewrite Hz by lia.
  - f_equal. unfold leaf. unfold m'. rewrite !tab_set_table by (done || lia). rewrite !decide_False by tauto.
    destruct (tab m pt 2 u) as [b'|] eqn:E2; [|destruct (tab m pt 1 u) as [b'|] eqn:E1]; simpl snd.
    + rewrite ld_set_table by (done || lia). by rewrite decide_False by tauto.
    + rewrite ld_set_table by (done || lia). by rewrite decide_False by tauto.
    + pose proof (ld_set_table m pt k va b new Hwf Hk Hb Hf 0 u (pt_root pt) ltac:(lia) eq_refl) as ->.
      by rewrite decide_False by tauto.
Qed.

Lemma quiet_leaf m k va b w :
  pt_wf m pt -> (k < 3)%nat -> tab m pt k va = Some b -> pte_table w = false -> pte_check_rsw w PTE_RSW_RSRV = false ->
  quiet m (st m (b + 8 * ix pt va k) w).
Proof.
  intros Hwf Hk Hb Ht Hc u. unfold rsvd. rewrite leaf_set_leaf by done. case_decide as Hs; simpl snd; rewrite ld_st.
  - rewrite decide_True by done. by rewrite Hc.
  - case_decide; [by rewrite Hc|done].
Qed.

Lemma entry_addr m k va b : is_sv pt -> (k < 3)%nat -> tab m pt k va = Some b -> table_addr m (b + 8 * ix pt va k).
Proof.
  intros Hsv Hk Hb. exists k, va, b. pose proof (ix_range pt Hsv va k Hk). unfold tsize. split_and!; done || lia.
Qed.

Lemma evolves_leaf s k va b w :
  pt_wf (ms_mem s) pt -> (k < 3)%nat -> tab (ms_mem s) pt k va = Some b -> pte_table w = false ->
  evolves 0 s (mk_mst (ms_pages s) (st (ms_mem s) (b + 8 * ix pt va k) w) (ms_tlb s)).
Proof.
  intros Hwf Hk Hb Ht. split; simpl; [by apply takes_refl|..].
  - intros x (j & v & b' & Hj & Hb' & Hx). rewrite tab_set_leaf in Hb' by done. case_decide; [done|]. left. by exists j, v, b'.
  - intros x. rewrite ld_st. case_decide; [|done]. subst x. intros _. left. by eapply entry_addr; [apply Hwf|..].
Qed.

Lemma evolves_table t s s' k va b new :
  pt_wf (ms_mem s) pt -> (k < 2)%nat -> tab (ms_mem s) pt k va = Some b ->
  0 < new < 2 ^ 56 -> new mod 4096 = 0 -> fresh (ms_mem s) pt new -> pa_avail (ms_pages s) new ->
  takes t (ms_pages s) (ms_pages s') ->
  ms_mem s' = mem_zero (st (ms_mem s) (b + 8 * ix pt va k) (pte_set new PTE_TABLE PTE_HYP_FLAGS)) new 4096 ->
  evolves t s s'.
Proof.
  intros Hwf Hk Hb Hr Hal Hf Hav Ht Em. pose proof (w_sv _ _ Hwf) as Hsv. split; [done|rewrite Em..].
  - intros x (j & v & b' & Hj & Hb' & Hx). rewrite tab_set_table in Hb' by (done || lia).
    case_decide; [|left; by exists j, v, b']. case_decide; [|done]. injection Hb' as <-. subst j. right. exists new.
    split; [done|]. by rewrite tsize_low in Hx by (done || lia).
  - intros x. rewrite ld_mem_zero. case_decide as Hx; [intros _; right; by exists new|].
    rewrite ld_st. case_decide; [|done]. subst x. intros _. left. by eapply entry_addr; [|lia|].
Qed.

Lemma set_leaf_ok s k va b w :
  as_ok s -> (k < 3)%nat -> tab (ms_mem s) pt k va = Some b -> pte_table w = false ->
  as_ok (mk_mst (ms_pages s) (st (ms_mem s) (b + 8 * ix pt va k) w) (ms_tlb s)).
Proof.
  intros [Hwf Hinv Hown] Hk Hb Hw. split; simpl; [by eapply set_leaf_wf|done|].
  intros p Hp j vb b' Hj. rewrite tab_set_leaf by done. case_decide; [done|]. by apply Hown.
Qed.

Section AllocPt.
Context (Hplain : pa_plain (as_colors as_) = true).

Lemma mem_alloc_pt_spec s k va b :
  as_ok s -> (k < 2)%nat -> tab (ms_mem s) pt k va = Some b ->
  (exists s', mem_alloc_pt as_ (b + 8 * ix pt va k) (Z.of_nat k) va s = Ok (0, s') /\
     as_ok s' /\ takes 0 (ms_pages s) (ms_pages s') /\ ms_mem s' = ms_mem s /\ refused 0 (ms_pages s)) \/
  (exists new s', mem_alloc_pt as_ (b + 8 * ix pt va k) (Z.of_nat k) va s = Ok (new, s') /\
     0 < new < 2 ^ 56 /\ new mod 4096 = 0 /\ fresh (ms_mem s) pt new /\ pa_avail (ms_pages s) new /\ as_ok s' /\
     takes 4 (ms_pages s) (ms_pages s') /\ ms_tlb s' = ms_tlb s /\
     ms_mem s' = mem_zero (st (ms_mem s) (b + 8 * ix pt va k) (pte_set new PTE_TABLE PTE_HYP_FLAGS)) new 4096).
Proof.
  intros Hok Hk Hb. pose proof Hok as [Hwf Hinv Hown]. pose proof (w_sv _ _ Hwf) as Hsv.
  destruct (geometry pt Hsv) as (W & EL & _ & _ & _ & _ & N0 & N1 & N2).
  unfold mem_alloc_pt. fold pt. set (psz := pt_size pt (Z.of_nat k) / PAGE_SIZE).
  assert (1 <= psz <= 4) as Hpsz.
  { unfold psz, pt_size, PAGE_SIZE. destruct k as [|[|k]]; [rewrite N0; destruct W as [-> | ->]; done|by rewrite N1|lia]. }
  destruct (pa_alloc_ok (ms_pages s) (as_colors as_) psz (1 <? psz) Hinv Hplain (proj1 Hpsz))
    as (pp & a' & Ea & Hinv' & Hmono & Hr).
  assert (alloc_pages (as_colors as_) psz (1 <? psz) s = Ok (pp, mk_mst a' (ms_mem s) (ms_tlb s))) as Eal.
  { unfold alloc_pages. by rewrite Ea. }
  prun Eal. clear Eal. destruct Hr as [E0|(En & Hb0 & Htop & Hal & Hav)].
  - left. rewrite E0. simpl. eexists. split; [done|]. simpl. split_and!; [| |done|].
    + split; simpl; [done|done|]. intros p Hp. by apply Hown, Hmono.
    + eapply takes_step; [|exact Ea|lia|done|]; [lia|]. apply takes_refl. lia.
    + do 5 eexists. split; [by apply (takes_refl 0)|]. split; [exact Hpsz|]. split; [exact Ea|done].
  - right. rewrite En. replace (psz =? 0) with false by lia.
    pose proof (w_base _ _ Hwf k va b ltac:(lia) Hb). pose proof (ix_range pt Hsv va k ltac:(lia)).
    unfold mbind at 1, PM_bind at 1, store. replace (_ =? 0) with false by lia.
    rewrite EL. replace (3 <=? _) with false by lia. rewrite pm_get_mem. simpl ms_mem.
    unfold put_mem, mbind, PM_bind, mret, PM_ret.
    destruct (Hav 0 ltac:(lia)) as [Hin Hout]. rewrite Z.mul_0_l, Z.add_0_r in *.
    assert (fresh (ms_mem s) pt (pg_base pp)) as Hf by (by apply Hown).
    assert (0 < pg_base pp < 2 ^ 56) as Hr by (unfold PAGE_SIZE in *; lia).
    replace (Z.of_nat k + 1) with (Z.of_nat (S k)) by lia. fold pt. rewrite pt_get_new by done.
    exists (pg_base pp). eexists. split; [done|]. simpl.
    refine (conj Hr (conj Hal (conj Hf (conj Hin (conj _ (conj _ (conj eq_refl eq_refl))))))).
    { split; simpl; [by apply set_table_wf|done|].
    intros p Hp j vb b' Hj. rewrite tab_set_table by (done || lia).
    case_decide; [|by apply Hown; [apply Hmono|]]. case_decide; [|done]. intros [= <-]. subst j.
    rewrite tsize_low by (done || lia). assert (p <> pg_base pp) by (intros ->; done).
    pose proof (pa_avail_aligned a' p Hinv' Hp). unfold PAGE_SIZE in *.
    pose proof (Z.div_mod p 4096). pose proof (Z.div_mod (pg_base pp) 4096). lia. }
    { eapply takes_step; [|exact Ea|lia|done|]; [lia|]. apply takes_refl. lia. }
Qed.

Lemma load_entry s k va b :
  as_ok s -> (k < 3)%nat -> tab (ms_mem s) pt k va = Some b ->
  load (pt_get_pte (ms_mem s) pt (Z.of_nat k) va) s = Ok (ld (ms_mem s) (b + 8 * ix pt va k), s).
Proof.
  intros [Hwf _ _] Hk Hb. rewrite (pt_get_pte_tab _ _ _ _ b) by done. unfold load.
  pose proof (w_base _ _ Hwf k va b Hk Hb). pose proof (ix_range pt (w_sv _ _ Hwf) va k Hk).
  by replace (_ =? 0) with false by lia.
Qed.

(** Hanging a table below an invalid entry changes no translation. *)
Lemma alloc_pt_same s s' k va b new :
  as_ok s -> (k < 2)%nat -> tab (ms_mem s) pt k va = Some b ->
  pte_valid (ld (ms_mem s) (b + 8 * ix pt va k)) = false ->
  0 < new < 2 ^ 56 -> new mod 4096 = 0 -> fresh (ms_mem s) pt new -> pa_avail (ms_pages s) new -> as_ok s' ->
  takes 4 (ms_pages s) (ms_pages s') ->
  ms_mem s' = mem_zero (st (ms_mem s) (b + 8 * ix pt va k) (pte_set new PTE_TABLE PTE_HYP_FLAGS)) new 4096 ->
  same_map 4 s s' /\ tab (ms_mem s') pt (S k) va = Some new /\ quiet (ms_mem s) (ms_mem s').
Proof.
  intros [Hwf _ _] Hk Hb Hv Hr Hal Hf Hav Hok' Hstep E. pose proof (w_sv _ _ Hwf) as Hsv. rewrite E. split_and!.
  - split; [done|]. split; [by eapply evolves_table|]. intros u. rewrite E, translate_set_table by done. case_decide as Hs; [|done].
    assert (pte_table (ld (ms_mem s) (b + 8 * ix pt va k)) = false) as Ht.
    { destruct (pte_table _) eqn:Et; [by rewrite pte_table_valid in Hv|done]. }
    apply same_S in Hs as [Hs Hi]; [|done|lia]. rewrite Hi in *.
    rewrite (translate_at _ _ k u b) by (done || lia || by rewrite <- (tab_same _ _ k va u) by (done || lia)).
    unfold out. by rewrite Hv.
  - rewrite tab_set_table by (done || lia). rewrite decide_True, decide_True; [done|done|].
    split; [by apply same_refl|lia].
  - intros u. rewrite rsvd_set_table by done. by case_decide.
Qed.

Lemma same_map_trans c d s1 s2 s3 : same_map c s1 s2 -> same_map d s2 s3 -> same_map (c + d) s1 s3.
Proof.
  intros (_ & R1 & T1) (O & R2 & T2). split; [done|]. split; [by eapply evolves_trans|]. intros u. by rewrite T2, T1.
Qed.

Lemma same_map_weaken c d s s' : same_map c s s' -> c <= d -> same_map d s s'.
Proof. intros (O & R & T) Hd. split; [done|]. split; [by eapply evolves_weaken|done]. Qed.

Lemma same_map_refl s : as_ok s -> same_map 0 s s.
Proof. intros Hok. split; [done|]. split; [by apply evolves_same; [apply takes_refl|]|done]. Qed.

(** A walk ends at an invalid entry. *)
Lemma tab_depth m va k j b :
  tab m pt k va = Some b -> is_Some (tab m pt j va) -> pte_valid (ld m (b + 8 * ix pt va k)) = false -> (j <= k)%nat.
Proof.
  intros Hb [c Hc] Hv. destruct (decide (j <= k)%nat); [done|exfalso].
  assert (exists e, tab m pt (S k) va = Some e) as [e He].
  { revert c Hc. induction j as [|j IH]; intros c Hc; [lia|]. destruct (decide (j = k)) as [->|]; [by eexists|].
    simpl in Hc. destruct (tab m pt j va) eqn:E; [|done]. eapply IH; [lia|done]. }
  simpl in He. rewrite Hb in He. simpl in He. destruct (pte_table _) eqn:Et; [|done].
  by rewrite pte_table_valid in Hv.
Qed.

(** The search for the level to map at. *)
Lemma map_level_spec d s k left vaddr paddr pte0 b :
  d = (3 - k)%nat -> (k < 3)%nat -> as_ok s -> 1 <= left -> vaddr mod 4096 = 0 -> paddr mod 4096 = 0 ->
  tab (ms_mem s) pt k vaddr = Some b -> mem_translate (ms_mem s) pt vaddr = None ->
  (map_level as_ left vaddr paddr (Z.of_nat k) pte0 d s = Fault NullDeref /\ refused (4 * (2 - Z.of_nat k)) (ms_pages s)) \/
  (exists k' b' s', map_level as_ left vaddr paddr (Z.of_nat k) pte0 d s
       = Ok ((Z.of_nat k', b' + 8 * ix pt vaddr k'), s') /\
     (k' < 3)%nat /\ tab (ms_mem s') pt k' vaddr = Some b' /\ lsize pt k' <= left * 4096 /\
     vaddr mod lsize pt k' = 0 /\ paddr mod lsize pt k' = 0 /\ same_map (4 * (2 - Z.of_nat k)) s s' /\ quiet (ms_mem s) (ms_mem s') /\
     forall j, (j < 3)%nat -> is_Some (tab (ms_mem s) pt j vaddr) -> (j <= k')%nat).
Proof.
  revert s k pte0 b. induction d as [|d IH]; intros s k pte0 b Hd Hk Hok Hl Hva Hpa Hb Htr; [lia|].
  pose proof Hok as [Hwf _ _]. pose proof (w_sv _ _ Hwf) as Hsv.
  destruct (geometry pt Hsv) as (_ & EL & Hterm & _ & _ & E2 & _).
  cbn [map_level]. fold pt. rewrite pm_get_mem, Hterm by done. prun (load_entry s k vaddr b Hok Hk Hb).
  set (w := ld _ _). unfold pt_pte_mappable. fold pt.
  rewrite (pt_get_pte_tab _ _ k vaddr b) by done.
  destruct (negb (pte_valid w) && _ && _ && _) eqn:Em.
  { right. exists k, b, s. split; [done|]. split_and!; try done; try (unfold PAGE_SIZE in *; lia).
    { eapply same_map_weaken; [by apply same_map_refl|lia]. }
    { by intros u. }
    intros j _ Hj. apply (tab_depth (ms_mem s) vaddr k j b Hb Hj). fold w. by destruct (pte_valid w). }
  destruct (pte_valid w) eqn:Ev; simpl.
  - destruct (pte_table w) eqn:Et; simpl.
    + replace (Z.of_nat k + 1) with (Z.of_nat (S k)) by lia.
      destruct (decide (k = 2)%nat) as [->|].
      { pose proof (w_last _ _ Hwf vaddr b Hb) as Hlast. fold w in Hlast. congruence. }
      destruct (IH s (S k) (b + 8 * ix pt vaddr k) (pte_addr w))
        as [[-> Hx]|(k' & b' & s2 & -> & H1 & H2 & H3 & H4 & H5 & H6 & HQ & H7)]; [lia..|done|done|done|done| |done|left|right].
      * simpl. rewrite Hb. simpl. fold w. by rewrite Et.
      * split; [done|]. eapply refused_weaken; [done|lia].
      * exists k', b', s2. split_and!; try done. eapply same_map_weaken; [done|lia].
    + rewrite (translate_at _ _ k vaddr b) in Htr by done. unfold out in Htr. fold w in Htr. by rewrite Ev in Htr.
  - destruct (decide (k = 2)%nat) as [->|].
    { exfalso. rewrite E2 in Em. unfold PAGE_SIZE in Em. simpl in Em. lia. }
    replace (Z.of_nat k + 1) with (Z.of_nat (S k)) by lia.
    destruct (mem_alloc_pt_spec s k vaddr b Hok ltac:(lia) Hb)
      as [(s' & E & Hok' & _ & Em' & Hr)|(new & s' & E & Hr & Hal & Hf & Hav & Hok' & Hst & _ & Em')];
      prun E.
    + left. split; [|eapply refused_weaken; [done|lia]]. destruct d as [|d]; [lia|]. cbn [map_level]. fold pt. rewrite pm_get_mem, Hterm by lia.
      apply pm_fault. rewrite Em', (pt_get_pte_null _ _ k vaddr b) by (done || lia). done.
    + destruct (alloc_pt_same s s' k vaddr b new) as (Hsame & Hb' & Hq); [done|lia|done..|].
      pose proof Hsame as (_ & Hrtc & Ht).
      destruct (IH s' (S k) (b + 8 * ix pt vaddr k) new) as [[-> Hx]|(k' & b' & s2 & -> & H1 & H2 & H3 & H4 & H5 & H6 & HQ & H7)];
        [lia|lia|done|done|done|done|done|by rewrite Ht| |].
      * left. split; [done|]. eapply refused_later; [apply Hrtc|done|lia].
      * right. exists k', b', s2. split; [done|]. split_and!; try done.
        { eapply same_map_weaken; [by eapply same_map_trans|lia]. }
        { by eapply quiet_trans. }
        intros j _ Hj. pose proof (H7 (S k) ltac:(lia) ltac:(by eexists)).
        pose proof (tab_depth _ _ k j b Hb Hj Ev). lia.
Qed.

(** [u] is one of the [c] pages from [v] on. *)
Definition in_pages (v c u : Z) : Prop := nv pt v <= nv pt u < nv pt v + c * PAGE_SIZE.

(** The [c] pages from [v] on are mapped to those from [p] on, all else is as
    before, and at most [t] pages were taken. *)
Definition mapped_to (t : Z) (s s' : mstate A) (v p c : Z) : Prop :=
  as_ok s' /\ evolves t s s' /\
  (forall u, mem_translate (ms_mem s') pt u =
    if decide (in_pages v c u) then Some (p + (nv pt u - nv pt v)) else mem_translate (ms_mem s) pt u) /\
  quiet (ms_mem s) (ms_mem s').

Lemma mapped_to_nil s v p : as_ok s -> mapped_to 0 s s v p 0.
Proof.
  intros Hok. split; [done|]. split; [by apply evolves_same; [apply takes_refl|]|]. split; [|by intros u].
  intros u. rewrite decide_False; [done|].
  unfold in_pages. lia.
Qed.

(** Mapping [c] pages and then [d] more. *)
Lemma mapped_to_app t1 t2 s s1 s2 v p c d :
  0 <= c -> 0 <= d -> (d = 0 \/ nv pt (v + c * PAGE_SIZE) = nv pt v + c * PAGE_SIZE) ->
  mapped_to t1 s s1 v p c -> mapped_to t2 s1 s2 (v + c * PAGE_SIZE) (p + c * PAGE_SIZE) d ->
  mapped_to (t1 + t2) s s2 v p (c + d).
Proof.
  intros Hc Hd Hnv (_ & R1 & T1 & Q1) (O & R2 & T2 & Q2). split; [done|]. split; [by eapply evolves_trans|].
  split; [|by eapply quiet_trans]. intros u. rewrite T2, T1.
  unfold in_pages, PAGE_SIZE in *. destruct Hnv as [->|Hnv].
  - rewrite decide_False by lia. by rewrite Z.add_0_r.
  - rewrite Hnv. repeat case_decide; try (exfalso; lia); [f_equal; lia|done..].
Qed.

Lemma mapped_to_same t1 t2 s s1 s2 v p c :
  same_map t1 s s1 -> quiet (ms_mem s) (ms_mem s1) -> mapped_to t2 s1 s2 v p c -> mapped_to (t1 + t2) s s2 v p c.
Proof.
  intros (_ & R1 & T1) Q1 (O & R2 & T2 & Q2). split; [done|]. split; [by eapply evolves_trans|].
  split; [|by eapply quiet_trans]. intros u. by rewrite T2, T1.
Qed.

Lemma mapped_to_weaken t1 t2 s s' v p c : mapped_to t1 s s' v p c -> t1 <= t2 -> mapped_to t2 s s' v p c.
Proof. intros (O & R & T) H. split; [done|]. split; [by eapply evolves_weaken|done]. Qed.

Lemma lsize_pages k :
  is_sv pt -> (k < 3)%nat -> exists q, 0 < q /\ lsize pt k = q * PAGE_SIZE /\ lsize pt k / PAGE_SIZE = q.
Proof.
  intros Hsv Hk. destruct (geometry pt Hsv) as (_ & _ & _ & E0 & E1 & E2 & _).
  destruct k as [|[|[|k]]]; [exists (2 ^ 18); by rewrite E0|exists 512; by rewrite E1|exists 1; by rewrite E2|lia].
Qed.

(** One entry. *)
Lemma map_one s k va b paddr flags :
  as_ok s -> (k < 3)%nat -> tab (ms_mem s) pt k va = Some b -> page_flags flags ->
  0 <= paddr < 2 ^ 56 -> paddr mod lsize pt k = 0 -> va mod lsize pt k = 0 ->
  exists s', store (b + 8 * ix pt va k) (pte_set paddr PTE_PAGE flags) s = Ok (tt, s') /\
    mapped_to 0 s s' va paddr (lsize pt k / PAGE_SIZE) /\
    (forall v, tab (ms_mem s') pt k v = tab (ms_mem s) pt k v).
Proof.
  intros Hok Hk Hb Hf Hp Hpal Hva. pose proof Hok as [Hwf _ _]. pose proof (w_sv _ _ Hwf) as Hsv.
  destruct (pte_set_page paddr flags Hf) as [_ Ht].
  pose proof (w_base _ _ Hwf k va b Hk Hb). pose proof (ix_range pt Hsv va k Hk).
  unfold store. replace (_ =? 0) with false by lia. eexists. split; [done|]. split.
  - split; [by apply set_leaf_ok|]. split; [by apply evolves_leaf|]. simpl.
    split; [|apply quiet_leaf; try done; by apply pte_set_clear]. intros u.
    rewrite translate_set_leaf by done.
    assert (in_pages va (lsize pt k / PAGE_SIZE) u <-> same pt (S k) va u) as Hiff.
    { rewrite same_block by (rewrite ?nv_mod; done). unfold in_pages.
      destruct (lsize_pages k Hsv Hk) as (q & _ & -> & Eq). rewrite Z.div_mul by done. done. }
    destruct (decide (same pt (S k) va u)) as [Hs|Hs].
    + rewrite decide_True by tauto. by apply out_page.
    + by rewrite decide_False by tauto.
  - simpl. intros v. rewrite tab_set_leaf by done. by rewrite decide_False by lia.
Qed.

Section Given.
Context (n flags : Z) (Hflags : page_flags flags).

Definition room (v p left : Z) : Prop :=
  0 <= p /\ p + left * PAGE_SIZE <= 2 ^ 56 /\ 0 <= v /\ v + left * PAGE_SIZE < 2 ^ 64 /\
  nv pt v + left * PAGE_SIZE <= 2 ^ wdt pt 0.

Lemma map_entries_spec d s k b entry vaddr paddr count :
  (k < 3)%nat -> as_ok s -> Z.of_nat d = nent pt k - entry -> 0 <= count -> count <= n ->
  room vaddr paddr (n - count) -> vaddr mod lsize pt k = 0 -> paddr mod lsize pt k = 0 ->
  (entry < nent pt k -> tab (ms_mem s) pt k vaddr = Some b /\ ix pt vaddr k = entry) ->
  exists c s', map_entries as_ true n flags (Z.of_nat k) (b + 8 * entry) entry vaddr paddr count d s
      = Ok ((vaddr + c * PAGE_SIZE, paddr + c * PAGE_SIZE, count + c), s') /\
    0 <= c <= n - count /\ mapped_to 0 s s' vaddr paddr c /\
    (entry < nent pt k -> lsize pt k / PAGE_SIZE <= n - count -> 0 < n - count -> 0 < c).
Proof.
  revert s entry vaddr paddr count. induction d as [|d IH]; intros s entry vaddr paddr count Hk Hok Hd Hc Hcn Hroom Hva Hpa Hent;
    cbn [map_entries]; fold pt.
  { replace (entry <? nent pt k) with false by lia. simpl. exists 0, s.
    rewrite !Z.mul_0_l, !Z.add_0_r. split_and!; try done; try lia. by apply mapped_to_nil. }
  destruct (Hent ltac:(lia)) as [Hb Hix].
  destruct (_ && _ && _) eqn:Eg.
  2:{ exists 0, s. rewrite !Z.mul_0_l, !Z.add_0_r. split; [done|]. split; [lia|]. split; [by apply mapped_to_nil|]. lia. }
  pose proof Hok as [Hwf _ _]. pose proof (w_sv _ _ Hwf) as Hsv.
  destruct (lsize_pages k Hsv Hk) as (q & Hq & El & Eq).
  destruct Hroom as (Hp0 & Hp1 & Hv0 & Hv1 & Hnv). rewrite Eq in *.
  assert (q <= n - count) as Hle by lia.
  rewrite <- Hix. destruct (map_one s k vaddr b paddr flags) as (s1 & E1 & Hm1 & Ht1);
    [done|done|done|done|unfold PAGE_SIZE in *; lia|done|done|].
  prun E1. rewrite !wrap_small by (unfold PAGE_SIZE in *; lia).
  replace (b + 8 * ix pt vaddr k + 8) with (b + 8 * (ix pt vaddr k + 1)) by lia. rewrite Eq in *.
  destruct (IH s1 (ix pt vaddr k + 1) (vaddr + lsize pt k) (paddr + lsize pt k) (count + q))
    as (c & s2 & E2 & Hc2 & Hm2 & _).
  - done.
  - apply Hm1.
  - lia.
  - lia.
  - lia.
  - unfold room. rewrite El. split_and!; try (unfold PAGE_SIZE in *; lia).
    destruct (Z.le_gt_cases (n - count - q) 0).
    + pose proof (nv_range pt (vaddr + q * PAGE_SIZE) Hsv). unfold PAGE_SIZE in *. lia.
    + rewrite nv_add by (done || unfold PAGE_SIZE in *; lia). unfold PAGE_SIZE in *. lia.
  - rewrite <- Z.add_mod_idemp_l, Hva, Z.add_0_l by (pose proof (lsize_pos pt Hsv k); lia). apply Z_mod_same_full.
  - rewrite <- Z.add_mod_idemp_l, Hpa, Z.add_0_l by (pose proof (lsize_pos pt Hsv k); lia). apply Z_mod_same_full.
  - intros Hlt. destruct (next_entry pt k vaddr Hsv Hk Hva Hlt) as (_ & Hs & ->). split; [|done].
    rewrite Ht1. by rewrite <- (tab_same _ _ k _ _ Hsv ltac:(lia) Hs).
  - exists (q + c), s2. rewrite E2, El. split.
    { replace (vaddr + q * PAGE_SIZE + c * PAGE_SIZE) with (vaddr + (q + c) * PAGE_SIZE) by lia.
      replace (paddr + q * PAGE_SIZE + c * PAGE_SIZE) with (paddr + (q + c) * PAGE_SIZE) by lia.
      by replace (count + q + c) with (count + (q + c)) by lia. }
    split; [lia|]. split; [|lia].
    rewrite El in Hm2. apply (mapped_to_app 0 0 s s1); [lia|lia| |done|done].
    destruct (decide (c = 0)); [by left|]. right. apply nv_add; unfold PAGE_SIZE in *; done || lia.
Qed.

(** The outer loop: after [count] pages, the remaining ones get mapped. *)
Lemma map_loop_spec fuel s vaddr paddr count :
  as_ok s -> (Z.to_nat (n - count) < fuel)%nat -> 0 <= count <= n -> room vaddr paddr (n - count) ->
  vaddr mod 4096 = 0 -> paddr mod 4096 = 0 ->
  (forall u, in_pages vaddr (n - count) u -> mem_translate (ms_mem s) pt u = None) ->
  (map_loop as_ true n flags vaddr paddr count fuel s = Fault NullDeref /\ refused (8 * (n - count)) (ms_pages s)) \/
  (exists s', map_loop as_ true n flags vaddr paddr count fuel s = Ok (tt, s') /\
     mapped_to (8 * (n - count)) s s' vaddr paddr (n - count)).
Proof.
  revert s vaddr paddr count. induction fuel as [|f IH]; intros s vaddr paddr count Hok Hf Hc Hroom Hva Hpa Hun; [lia|].
  cbn [map_loop]. destruct (Z.ltb_spec count n) as [Hlt|].
  2:{ right. exists s. split; [done|]. assert (n - count = 0) as -> by lia. by apply mapped_to_nil. }
  pose proof Hok as [Hwf _ _]. pose proof (w_sv _ _ Hwf) as Hsv.
  destruct (geometry pt Hsv) as (_ & EL & _). fold pt. rewrite EL.
  destruct (map_level_spec 3 s 0 (n - count) vaddr paddr 0 (pt_root pt))
    as [[E Hr]|(k & b & s1 & E & Hk & Hb & Hl & Hv1 & Hp1 & Hsame & Hq1 & _)]; try done; try lia.
  { apply Hun. unfold in_pages, PAGE_SIZE. lia. }
  { left. split; [by apply pm_fault|]. eapply refused_weaken; [done|lia]. }
  prun E. pose proof Hsame as (Hok1 & Hrtc & Ht1). pose proof Hok1 as [Hwf1 _ _].
  replace (3 <=? Z.of_nat k) with false by lia. rewrite (index_of_entry _ _ _ _ _ Hwf1 Hk Hb).
  pose proof (ix_range pt Hsv vaddr k Hk).
  destruct (map_entries_spec (Z.to_nat (nent pt k - ix pt vaddr k)) s1 k b (ix pt vaddr k) vaddr paddr count)
    as (c & s2 & E2 & Hc2 & Hm2 & Hpos); try done; try lia.
  prun E2. clear E E2. destruct Hroom as (Hp0 & Hp1' & Hv0 & Hv1' & Hnv).
  destruct (lsize_pages k Hsv Hk) as (q & Hq & El & Eq).
  assert (0 < c) as Hc0 by (apply Hpos; unfold PAGE_SIZE in *; lia).
  pose proof (mapped_to_same _ _ _ _ _ _ _ _ Hsame Hq1 Hm2) as Hm. pose proof Hm as (Hok2 & Hrtc2 & Ht2 & _).
  assert (c < n - count -> nv pt (vaddr + c * PAGE_SIZE) = nv pt vaddr + c * PAGE_SIZE) as Hnv'.
  { intros ?. apply nv_add; [done|unfold PAGE_SIZE; lia|unfold PAGE_SIZE in *; lia]. }
  assert (c < n - count \/ c = n - count) as Hcase by lia.
  destruct (IH s2 (vaddr + c * PAGE_SIZE) (paddr + c * PAGE_SIZE) (count + c)) as [[-> Hr]|(s3 & -> & Hm3)].
  - done.
  - lia.
  - lia.
  - unfold room. destruct Hcase as [?| ->].
    + rewrite Hnv' by done. split_and!; unfold PAGE_SIZE in *; lia.
    + replace (n - (count + (n - count))) with 0 by lia. pose proof (nv_range pt (vaddr + (n - count) * PAGE_SIZE) Hsv).
      split_and!; unfold PAGE_SIZE in *; lia.
  - unfold PAGE_SIZE. rewrite Z_mod_plus_full. done.
  - unfold PAGE_SIZE. rewrite Z_mod_plus_full. done.
  - intros u Hu. unfold in_pages in *. destruct Hcase as [?| ->]; [|unfold PAGE_SIZE in *; lia].
    rewrite Hnv' in Hu by done. rewrite Ht2, decide_False by (unfold in_pages; lia).
    apply Hun. unfold PAGE_SIZE in *. lia.
  - left. split; [done|]. eapply refused_later; [apply Hrtc2|done|lia].
  - right. exists s3. split; [done|]. eapply mapped_to_weaken; [|instantiate (1 := 8 + 8 * (n - (count + c))); lia].
    replace (n - count) with (c + (n - (count + c))) by lia. apply (mapped_to_app 8 _ s s2); [lia|lia| |done|done]. destruct Hcase; [right; by apply Hnv'|left; lia].
Qed.
End Given.

(** *** Splitting an entry *)
Lemma expand_valid_spec d s k b entry v paddr flags :
  (k < 3)%nat -> as_ok s -> Z.of_nat d = nent pt k - entry -> page_flags flags ->
  0 <= paddr -> paddr + Z.of_nat d * lsize pt k <= 2 ^ 56 -> nv pt v + Z.of_nat d * lsize pt k <= 2 ^ wdt pt 0 ->
  v mod lsize pt k = 0 -> paddr mod lsize pt k = 0 ->
  (entry < nent pt k -> tab (ms_mem s) pt k v = Some b /\ ix pt v k = entry) ->
  exists s', expand_loop true (lsize pt k) PTE_PAGE flags (b + 8 * entry) paddr d s = Ok (tt, s') /\
    mapped_to 0 s s' v paddr (Z.of_nat d * (lsize pt k / PAGE_SIZE)) /\
    (forall x, tab (ms_mem s') pt k x = tab (ms_mem s) pt k x).
Proof.
  intros Hk. revert s entry v paddr. induction d as [|d IH]; intros s entry v paddr Hok Hd Hf Hp Htop Hnv Hv Hpa Hent.
  { exists s. split; [done|]. split; [by apply mapped_to_nil|done]. }
  destruct (Hent ltac:(lia)) as [Hb Hix]. pose proof Hok as [Hwf _ _]. pose proof (w_sv _ _ Hwf) as Hsv.
  destruct (lsize_pages k Hsv Hk) as (q & Hq & El & Eq). pose proof (lsize_pos pt Hsv k) as Hpos.
  cbn [expand_loop]. rewrite <- Hix.
  destruct (map_one s k v b paddr flags) as (s1 & E1 & Hm1 & Ht1); [done|done|done|done|lia|done|done|].
  prun E1. rewrite wrap_small by lia.
  replace (b + 8 * ix pt v k + 8) with (b + 8 * (ix pt v k + 1)) by lia.
  assert (d = 0%nat \/ nv pt (v + lsize pt k) = nv pt v + lsize pt k) as Hnx.
  { destruct d as [|d]; [by left|]. right. apply next_entry; [done|done|done|lia]. }
  destruct (IH s1 (ix pt v k + 1) (v + lsize pt k) (paddr + lsize pt k)) as (s2 & -> & Hm2 & Ht2).
  - apply Hm1.
  - lia.
  - done.
  - lia.
  - lia.
  - destruct Hnx as [->|Hnx]; [|rewrite Hnx; lia]. pose proof (nv_range pt (v + lsize pt k) Hsv). lia.
  - rewrite <- Z.add_mod_idemp_l, Hv, Z.add_0_l by lia. apply Z_mod_same_full.
  - rewrite <- Z.add_mod_idemp_l, Hpa, Z.add_0_l by lia. apply Z_mod_same_full.
  - intros Hlt. destruct (next_entry pt k v Hsv Hk Hv Hlt) as (_ & Hs & ->). split; [|done].
    rewrite Ht1. by rewrite <- (tab_same _ _ k _ _ Hsv ltac:(lia) Hs).
  - exists s2. split; [done|]. split; [|intros x; by rewrite Ht2].
    replace (Z.of_nat (S d) * (lsize pt k / PAGE_SIZE))
      with (lsize pt k / PAGE_SIZE + Z.of_nat d * (lsize pt k / PAGE_SIZE)) by lia.
    rewrite El in Hm2, Hnx. rewrite Z.div_mul in Hm2 by done. rewrite Eq in *.
    apply (mapped_to_app 0 0 s s1); [lia|lia| |done|done]. destruct Hnx as [->|Hnx]; [by left|by right].
Qed.

(** Reserving the entries of a table that are all zero. *)
Lemma expand_rsv_spec d s k b entry v lvlsz type flags paddr :
  (k < 3)%nat -> as_ok s -> Z.of_nat d = nent pt k - entry -> v mod lsize pt k = 0 ->
  (entry < nent pt k -> tab (ms_mem s) pt k v = Some b /\ ix pt v k = entry) ->
  (forall j, entry <= j < nent pt k -> ld (ms_mem s) (b + 8 * j) = 0) ->
  exists s', expand_loop false lvlsz type flags (b + 8 * entry) paddr d s = Ok (tt, s') /\ same_map 0 s s' /\
    (forall x, tab (ms_mem s') pt k x = tab (ms_mem s) pt k x).
Proof.
  intros Hk. revert s entry v paddr. induction d as [|d IH]; intros s entry v paddr Hok Hd Hv Hent Hz.
  { exists s. split; [done|]. split; [by apply same_map_refl|done]. }
  destruct (Hent ltac:(lia)) as [Hb Hix]. pose proof Hok as [Hwf _ _]. pose proof (w_sv _ _ Hwf) as Hsv.
  pose proof (w_base _ _ Hwf k v b Hk Hb). pose proof (ix_range pt Hsv v k Hk).
  cbn [expand_loop]. rewrite <- Hix.
  assert ((w ← load (b + 8 * ix pt v k); store (b + 8 * ix pt v k) (pte_set_rsw w PTE_RSW_RSRV)) s =
    Ok (tt, mk_mst (ms_pages s) (st (ms_mem s) (b + 8 * ix pt v k) 768) (ms_tlb s))) as E.
  { unfold load, store, mbind, PM_bind. replace (_ =? 0) with false by lia. rewrite Hz by lia. done. }
  prun E. clear E. set (s1 := mk_mst _ _ _).
  assert (same_map 0 s s1) as Hs1.
  { split; [by apply set_leaf_ok|]. split; [by apply evolves_leaf|]. intros u. simpl. rewrite translate_set_leaf by done.
    case_decide as Hs; [|done]. apply same_S in Hs as [Hs Hi]; [|done|lia].
    assert (tab (ms_mem s) pt k u = Some b) as Hu by (by rewrite <- (tab_same _ _ k v u) by (done || lia)).
    rewrite (translate_at _ _ k u b); try done.
    - rewrite <- Hi, Hz by lia. done.
    - rewrite <- Hi, Hz by lia. done. }
  replace (b + 8 * ix pt v k + 8) with (b + 8 * (ix pt v k + 1)) by lia.
  destruct (IH s1 (ix pt v k + 1) (v + lsize pt k) (u64 (paddr + lvlsz))) as (s2 & -> & Hs2 & Ht2).
  - apply Hs1.
  - lia.
  - pose proof (lsize_pos pt Hsv k). rewrite <- Z.add_mod_idemp_l, Hv, Z.add_0_l by lia. apply Z_mod_same_full.
  - intros Hlt. destruct (next_entry pt k v Hsv Hk Hv Hlt) as (_ & Hs & ->). split; [|done]. simpl.
    rewrite tab_set_leaf by done. rewrite decide_False by lia. by rewrite <- (tab_same _ _ k v _) by (done || lia).
  - intros j Hj. simpl. rewrite ld_st_ne by lia. apply Hz. lia.
  - exists s2. split; [done|]. split; [by apply (same_map_trans 0 0 s s1)|]. intros x. rewrite Ht2. simpl.
    rewrite tab_set_leaf by done. by rewrite decide_False by lia.
Qed.

(** The first address of the block of [va] at level [k]. *)
Lemma block_base k va :
  is_sv pt -> (k < 2)%nat ->
  let v0 := va - va mod lsize pt k in
  nv pt v0 = nv pt va - va mod lsize pt k /\ nv pt v0 mod lsize pt k = 0 /\ same pt (S k) va v0 /\
  ix pt v0 (S k) = 0 /\ v0 mod lsize pt (S k) = 0 /\ nent pt (S k) = 512 /\ lsize pt k = 512 * lsize pt (S k) /\
  nv pt v0 + lsize pt k <= 2 ^ wdt pt 0.
Proof.
  intros Hsv Hk v0. destruct (geometry pt Hsv) as (_ & _ & _ & E0 & E1 & E2 & _ & N1 & N2).
  assert (nent pt (S k) = 512 /\ lsize pt k = 512 * lsize pt (S k)) as [HN HL].
  { destruct k as [|[|k]]; [| |lia]; rewrite ?E0, ?E1, ?E2, ?N1, ?N2; done. }
  pose proof (lsize_pos pt Hsv k) as Hp. pose proof (nv_range pt va Hsv) as Hr.
  pose proof (Z.mod_pos_bound va (lsize pt k) Hp) as Hm. pose proof (nv_mod pt k va Hsv ltac:(lia)) as Enm.
  assert (va mod lsize pt k <= nv pt va) as Hle by (rewrite <- Enm; apply Z.mod_le; lia).
  assert (nv pt v0 = nv pt va - va mod lsize pt k) as E.
  { unfold nv, v0. rewrite <- Zminus_mod_idemp_l. apply Z.mod_small. unfold nv in *. lia. }
  assert (nv pt v0 mod lsize pt k = 0) as Ea.
  { rewrite E, <- Enm, <- Zminus_mod_idemp_l, Z.sub_diag. apply Z.mod_0_l. lia. }
  assert (same pt (S k) va v0) as Hs.
  { apply same_sym. apply same_block; [done|lia|done|lia]. }
  pose proof (Z.div_mod (nv pt v0) (lsize pt k)) as Ed.
  split_and!; try done.
  - rewrite ix_eq, HN by (done || lia). unfold pre. rewrite Z.rem_mul_r in Ea || idtac.
    replace (nv pt v0 / lsize pt (S k)) with (512 * (nv pt v0 / lsize pt k)).
    + rewrite Z.mul_comm. apply Z.mod_mul. lia.
    + pose proof (lsize_pos pt Hsv (S k)). apply (Z.div_unique _ _ _ 0); lia.
  - rewrite <- nv_mod by (done || lia). pose proof (lsize_pos pt Hsv (S k)).
    symmetry. apply (Z.mod_unique _ _ (512 * (nv pt v0 / lsize pt k))); lia.
  - destruct (span pt k Hsv ltac:(lia)) as (q & Hq & Es). rewrite Es.
    pose proof (nv_range pt v0 Hsv) as H0. rewrite Es in H0.
    assert (nv pt v0 / lsize pt k < nent pt k * q) by (apply Z.div_lt_upper_bound; lia).
    assert (lsize pt k * (nv pt v0 / lsize pt k + 1) <= lsize pt k * (nent pt k * q))
      by (apply Z.mul_le_mono_nonneg_l; lia). lia.
Qed.

Lemma expand_loop_null vld lvlsz type flags paddr d (s : mstate A) :
  (0 < d)%nat -> expand_loop vld lvlsz type flags 0 paddr d s = Fault NullDeref.
Proof. destruct d; [lia|]. intros _. cbn [expand_loop]. apply pm_fault. by destruct vld. Qed.

Lemma top_aligned k x : is_sv pt -> (k < 3)%nat -> 0 <= x < 2 ^ 56 -> x mod lsize pt k = 0 -> x + lsize pt k <= 2 ^ 56.
Proof.
  intros Hsv Hk Hx Hal. pose proof (lsize_pos pt Hsv k) as Hp. pose proof (Z.div_mod x (lsize pt k)).
  destruct (geometry pt Hsv) as (_ & _ & _ & E0 & E1 & E2 & _).
  assert (exists q, 2 ^ 56 = lsize pt k * q) as [q Eq].
  { destruct k as [|[|[|k]]]; [exists (2 ^ 26); by rewrite E0|exists (2 ^ 35); by rewrite E1|exists (2 ^ 44); by rewrite E2|lia]. }
  assert (x / lsize pt k < q) by (apply Z.div_lt_upper_bound; lia).
  assert (lsize pt k * (x / lsize pt k + 1) <= lsize pt k * q) by (apply Z.mul_le_mono_nonneg_l; lia). lia.
Qed.

Lemma as_ok_tlb s t : as_ok s -> as_ok (mk_mst (ms_pages s) (ms_mem s) t).
Proof. by intros []. Qed.

(** The state [s1] in which a new table hangs below the entry of level [k] of
    [va], and [s2] after the TLB was invalidated. *)
Section Split.
Context (s s1 : mstate A) (k : nat) (va b new : Z) (tlb : list tlb_op).
Context (Hok : as_ok s) (Hk : (k < 2)%nat) (Hb : tab (ms_mem s) pt k va = Some b).
Let w := ld (ms_mem s) (b + 8 * ix pt va k).
Context (Hal : pte_addr w mod lsize pt k = 0) (Et : pte_table w = false).
Context (Hr : 0 < new < 2 ^ 56) (Hnal : new mod 4096 = 0) (Hf : fresh (ms_mem s) pt new).
Context (Hav : pa_avail (ms_pages s) new).
Context (Hok1 : as_ok s1) (Hst : takes 4 (ms_pages s) (ms_pages s1)).
Context (Em : ms_mem s1 =
  mem_zero (st (ms_mem s) (b + 8 * ix pt va k) (pte_set new PTE_TABLE PTE_HYP_FLAGS)) new 4096).

Let s2 := mk_mst (ms_pages s1) (ms_mem s1) tlb.
Let v0 := va - va mod lsize pt k.
Let Hwf := ok_wf s Hok.
Let Hsv := w_sv _ _ Hwf.

Lemma split_tab v : same pt (S k) va v -> tab (ms_mem s1) pt (S k) v = Some new.
Proof.
  intros Hv. rewrite Em, tab_set_table by (done || lia).
  by rewrite decide_True, decide_True by (done || (split; [done|lia])).
Qed.

Lemma split_translate u :
  mem_translate (ms_mem s1) pt u = if decide (same pt (S k) va u) then None else mem_translate (ms_mem s) pt u.
Proof. rewrite Em. by apply translate_set_table. Qed.

Lemma split_old u : same pt (S k) va u -> mem_translate (ms_mem s) pt u = out pt k u w.
Proof.
  intros Hu. apply same_S in Hu as [Hu Hi]; [|done|lia]. unfold w in *. rewrite Hi in *.
  apply translate_at; [done|lia|by rewrite <- (tab_same _ _ k va u) by (done || lia)|done].
Qed.

Lemma split_index : pt_getpteindex pt new (Z.of_nat (S k)) = 0.
Proof.
  destruct (block_base k va Hsv Hk) as (_ & _ & Hs0 & Eix & _).
  pose proof (index_of_entry _ _ (S k) v0 new (ok_wf _ Hok1) ltac:(lia) (split_tab v0 Hs0)) as Ei.
  unfold v0 in Ei. rewrite Eix in Ei. by replace (new + 8 * 0) with new in Ei by lia.
Qed.

(** The new entries of a superpage translate as the superpage did. *)
Lemma split_same u q :
  pte_valid w = true -> lsize pt k = q * PAGE_SIZE ->
  (if decide (in_pages v0 q u) then Some (pte_addr w + (nv pt u - nv pt v0)) else mem_translate (ms_mem s1) pt u) =
    mem_translate (ms_mem s) pt u.
Proof.
  intros Ev Eq. destruct (block_base k va Hsv Hk) as (_ & Env0 & Hs0 & _). fold v0 in Env0, Hs0.
  rewrite split_translate.
  assert (in_pages v0 q u <-> same pt (S k) va u) as Hiff.
  { unfold in_pages. rewrite <- Eq, <- same_block by (done || lia). simpl. simpl in Hs0. by rewrite Hs0. }
  destruct (decide (same pt (S k) va u)) as [Hu|Hu]; [rewrite decide_True by tauto|by rewrite decide_False by tauto].
  rewrite split_old, out_aligned by done. f_equal. rewrite <- (nv_mod pt k u) by (done || lia).
  assert (same pt (S k) v0 u) as Hu0 by (eapply same_trans; [by apply same_sym|done]).
  apply same_block in Hu0; [|done|lia|done]. pose proof (Z.div_mod (nv pt v0) (lsize pt k)).
  pose proof (lsize_pos pt Hsv k).
  rewrite (Z.mod_unique (nv pt u) (lsize pt k) (nv pt v0 / lsize pt k) (nv pt u - nv pt v0)); lia.
Qed.

Lemma split_evolves : evolves 4 s s2.
Proof. eapply evolves_table; try done. Qed.

Lemma split_valid d flags :
  pte_valid w = true -> Z.of_nat d = 512 -> page_flags flags ->
  exists s3, expand_loop true (lsize pt (S k)) PTE_PAGE flags new (pte_addr w) d s2 = Ok (tt, s3) /\
    same_map 4 s s3 /\ is_Some (tab (ms_mem s3) pt (S k) va).
Proof.
  intros Ev Ed Hfl. destruct (block_base k va Hsv Hk) as (_ & _ & Hs0 & Eix & Ev0 & HN & HL & Htop).
  fold v0 in Hs0, Eix, Ev0, Htop.
  pose proof (pte_addr_range w) as [Hpr _]. pose proof (lsize_pos pt Hsv (S k)) as Hpos.
  destruct (expand_valid_spec d s2 (S k) new 0 v0 (pte_addr w) flags) as (s3 & E3 & (Hok3 & Hst3 & Htr3 & _) & Ht3);
    [lia|by apply as_ok_tlb|lia|done|lia| | |done| |by intros _; split; [apply split_tab|]|].
  - rewrite Ed, <- HL. apply top_aligned; [done|lia|done|done].
  - by rewrite Ed, <- HL.
  - rewrite HL in Hal. apply Z.mod_divide; [lia|]. apply Z.mod_divide in Hal as [z Hz]; [|lia]. exists (z * 512). lia.
  - replace (new + 8 * 0) with new in E3 by lia. exists s3. split; [exact E3|]. split.
    + split; [done|]. split; [exact (evolves_trans 4 0 s s2 s3 split_evolves Hst3)|]. intros u. rewrite Htr3. apply split_same; [done|].
      destruct (lsize_pages (S k) Hsv ltac:(lia)) as (q & Hq & El & ->). rewrite HL. lia.
    + exists new. etrans; [exact (Ht3 va)|]. apply split_tab, same_refl.
Qed.

Lemma split_invalid : pte_valid w = false -> same_map 4 s s1.
Proof.
  intros Ev. split; [done|]. split; [by eapply evolves_table|]. intros u. rewrite split_translate.
  case_decide as Hu; [|done]. rewrite split_old by done. unfold out. by rewrite Ev.
Qed.

Lemma split_rsv d lvlsz type flags paddr :
  pte_valid w = false -> Z.of_nat d = 512 ->
  exists s3, expand_loop false lvlsz type flags new paddr d s2 = Ok (tt, s3) /\
    same_map 4 s s3 /\ is_Some (tab (ms_mem s3) pt (S k) va).
Proof.
  intros Ev Ed. destruct (block_base k va Hsv Hk) as (_ & _ & Hs0 & Eix & Ev0 & HN & _). fold v0 in Hs0, Eix, Ev0.
  destruct (expand_rsv_spec d s2 (S k) new 0 v0 lvlsz type flags paddr) as (s3 & E3 & Hs3 & Ht3);
    [lia|by apply as_ok_tlb|lia|done|by intros _; split; [apply split_tab|]| |].
  { intros j Hj. simpl. rewrite Em, ld_mem_zero, decide_True by lia. done. }
  replace (new + 8 * 0) with new in E3 by lia. exists s3. split; [exact E3|]. split.
  - apply (same_map_trans 4 0 s s2); [|exact Hs3]. destruct (split_invalid Ev) as (_ & _ & T).
    split; [by apply as_ok_tlb|]. split; [apply split_evolves|exact T].
  - exists new. etrans; [exact (Ht3 va)|]. apply split_tab, same_refl.
Qed.
End Split.

Lemma mem_expand_pte_spec cpu_as s k va b :
  as_ok s -> (k < 2)%nat -> tab (ms_mem s) pt k va = Some b ->
  pte_addr (ld (ms_mem s) (b + 8 * ix pt va k)) mod lsize pt k = 0 ->
  (mem_expand_pte cpu_as as_ va (Z.of_nat k) s = Fault NullDeref /\ refused 0 (ms_pages s)) \/
  (exists s', mem_expand_pte cpu_as as_ va (Z.of_nat k) s = Ok (tt, s') /\ same_map 4 s s' /\
     (is_Some (tab (ms_mem s') pt (S k) va) \/ refused 0 (ms_pages s))).
Proof.
  intros Hok Hk Hb. set (w := ld _ _). intros Hal. pose proof Hok as [Hwf _ _]. pose proof (w_sv _ _ Hwf) as Hsv.
  destruct (geometry pt Hsv) as (_ & EL & _). unfold mem_expand_pte. fold pt. rewrite EL.
  replace (3 - 1 <=? Z.of_nat k) with false by lia. rewrite pm_get_mem.
  rewrite (pt_get_pte_tab _ _ k va b) by (done || lia). fold w.
  pose proof (w_base _ _ Hwf k va b ltac:(lia) Hb). pose proof (ix_range pt Hsv va k ltac:(lia)).
  replace (_ =? 0) with false by lia. destruct (pte_table w) eqn:Et; cbn [negb andb].
  { right. exists s. split; [done|]. split; [by eapply same_map_weaken; [apply same_map_refl|]|]. left.
    simpl. rewrite Hb. simpl. fold w. rewrite Et. by eexists. }
  replace (Z.of_nat k + 1) with (Z.of_nat (S k)) by lia.
  destruct (block_base k va Hsv Hk) as (_ & _ & _ & _ & _ & HN & _).
  destruct (mem_alloc_pt_spec s k va b Hok Hk Hb)
    as [(s1 & E & Hok1 & Hst & Em & Hr)|(new & s1 & E & Hr & Hnal & Hf & Hav & Hok1 & Hst & _ & Em)]; prun E.
  - destruct (pte_valid w || _); [left; split; [|done]|right].
    + prun (eq_refl : tlb_inv_va cpu_as va s1 = Ok (tt, _)). apply expand_loop_null. rewrite HN.
      unfold pt_getpteindex. rewrite Z.land_0_l, Z.div_0_l; lia.
    + exists s1. split; [done|]. split; [|by right]. split; [done|]. split; [by apply evolves_same; [eapply takes_weaken|]|]. by rewrite Em.
  - right. destruct (pte_valid w || _) eqn:Evr.
    2:{ exists s1. split; [done|]. apply orb_false_iff in Evr as [Ev _]. split; [by eapply split_invalid|].
        left. exists new. by apply (split_tab s s1 k va b new). }
    prun (eq_refl : tlb_inv_va cpu_as va s1 = Ok (tt, _)).
    rewrite (split_index s s1 k va b new), HN by done.
    set (d := Z.to_nat (512 - 0)). assert (Z.of_nat d = 512) as Ed by done. clearbody d.
    destruct (pte_valid w) eqn:Ev.
    + edestruct (split_valid s s1 k va b new) as (s3 & E3 & Hs3 & Ht3); try done;
        [|exists s3; split; [exact E3|by split; [|left]]]. destruct (as_type as_); [by left|by right..].
    + edestruct (split_rsv s s1 k va b new) as (s3 & E3 & Hs3 & Ht3); try done.
      exists s3. split; [exact E3|]. by split; [|left].
Qed.
End AllocPt.
End MapProofs.

(** ** The identity map of the hypervisor *)
Section Identity.
Context {A : Type} `{!PageAlloc A} (as_ : addr_space).
Let pt := as_pt as_.

Lemma gib_base x : 0 <= x -> Z.land x (Z.lnot (2 ^ 30 - 1)) = 2 ^ 30 * (x / 2 ^ 30).
Proof.
  intros Hx. change (2 ^ 30 - 1) with (Z.ones 30). rewrite <- Z.ldiff_land, Z.ldiff_ones_r by lia.
  rewrite Z.shiftr_div_pow2, Z.shiftl_mul_pow2 by lia. lia.
Qed.

(** The number of entries is the number of GiB boundaries the region crosses. *)
Lemma identity_entries_eq base size :
  0 <= base -> 0 <= size -> base + size <= 2 ^ 39 ->
  Z.to_nat (identity_entries (2 ^ 30) base size) = Z.to_nat ((base + size) / 2 ^ 30 - base / 2 ^ 30).
Proof.
  intros Hb Hs Ht. unfold identity_entries. rewrite (wrap_small 64 (base + size)) by lia.
  rewrite !gib_base by lia. set (t := (base + size) / 2 ^ 30). set (b := base / 2 ^ 30).
  assert (b <= t) by (apply Z.div_le_mono; lia). assert (0 <= b) by (apply Z.div_pos; lia).
  assert (t <= 512) by (apply (Z.div_le_mono (base + size) (2 ^ 39) (2 ^ 30)); lia).
  replace (2 ^ 30 * t - 2 ^ 30 * b - 1) with (2 ^ 30 * (t - b) - 1) by lia.
  destruct (decide (t = b)) as [->|]; [by rewrite Z.sub_diag|].
  rewrite (wrap_small 64 (2 ^ 30 * (t - b) - 1)) by lia.
  replace ((2 ^ 30 * (t - b) - 1) / 2 ^ 30) with (t - b - 1).
  - replace (t - b - 1 + 1) with (t - b) by lia. rewrite wrap_small, sgn_small by lia. done.
  - apply (Z.div_unique _ _ _ (2 ^ 30 - 1)); lia.
Qed.

Lemma identity_loop_spec k s i :
  as_ok as_ s -> pt_dscr pt = sv39_pt_dscr -> 0 <= i -> i + Z.of_nat k <= 512 ->
  exists s', identity_loop pt (2 ^ 30 * i) k s = Ok (tt, s') /\
    mapped_to as_ 0 s s' (2 ^ 30 * i) (2 ^ 30 * i) (Z.of_nat k * 2 ^ 18).
Proof.
  intros Hok Hd. revert s i Hok. induction k as [|k IH]; intros s i Hok Hi Hk.
  { exists s. split; [done|]. by apply mapped_to_nil. }
  pose proof Hok as [Hwf _ _]. pose proof (w_sv _ _ Hwf) as Hsv.
  destruct (geometry pt Hsv) as (_ & _ & _ & E0 & _). assert (wdt pt 0 = 39) as Ew by (unfold wdt; by rewrite Hd).
  assert (forall j, 0 <= j < 512 -> nv pt (2 ^ 30 * j) = 2 ^ 30 * j) as Hnv.
  { intros j Hj. unfold nv. rewrite Ew. apply Z.mod_small. lia. }
  destruct (map_one as_ s 0 (2 ^ 30 * i) (pt_root pt) (2 ^ 30 * i) PTE_HYP_FLAGS)
    as (s1 & E1 & Hm1 & _); [done|lia|done|by left|lia| |..].
  { fold pt. rewrite E0, Z.mul_comm. apply Z.mod_mul. lia. }
  { fold pt. rewrite E0, Z.mul_comm. apply Z.mod_mul. lia. }
  cbn [identity_loop]. prun E1. change (pt_lvlsize pt 0) with (lsize pt 0). fold pt in Hm1. rewrite E0 in *.
  replace (u64 (2 ^ 30 * i + 2 ^ 30)) with (2 ^ 30 * (i + 1)) by (rewrite wrap_small; lia).
  destruct (IH s1 (i + 1)) as (s2 & -> & Hm2); [apply Hm1|lia|lia|]. exists s2. split; [done|].
  replace (Z.of_nat (S k) * 2 ^ 18) with (2 ^ 30 / PAGE_SIZE + Z.of_nat k * 2 ^ 18)
    by (change (2 ^ 30 / PAGE_SIZE) with (2 ^ 18); lia).
  replace (2 ^ 30 * (i + 1)) with (2 ^ 30 * i + 2 ^ 30 / PAGE_SIZE * PAGE_SIZE) in Hm2
    by (change (2 ^ 30 / PAGE_SIZE * PAGE_SIZE) with (2 ^ 30); lia).
  apply (mapped_to_app as_ 0 0 s s1); [done|lia| |exact Hm1|exact Hm2].
  destruct k as [|k]; [by left|]. right. fold pt.
  replace (2 ^ 30 * i + _) with (2 ^ 30 * (i + 1)) by (change (2 ^ 30 / PAGE_SIZE * PAGE_SIZE) with (2 ^ 30); lia).
  rewrite !Hnv by lia. change (2 ^ 30 / PAGE_SIZE * PAGE_SIZE) with (2 ^ 30). lia.
Qed.

(** [u] lies in a GiB that ends inside the region. *)
Definition in_region (r : Z * Z) (u : Z) : Prop :=
  fst r / 2 ^ 30 <= u / 2 ^ 30 < (fst r + snd r) / 2 ^ 30.

#[export] Instance in_region_dec r u : Decision (in_region r u).
Proof. unfold in_region. apply _. Defined.

Lemma identity_spec regions s :
  as_ok as_ s -> pt_dscr pt = sv39_pt_dscr ->
  Forall (fun r => 0 <= fst r /\ 0 <= snd r /\ fst r + snd r <= 2 ^ 39) regions ->
  exists s', as_map_physical_identity pt regions s = Ok (tt, s') /\ as_ok as_ s' /\
    forall u, mem_translate (ms_mem s') pt u =
      if decide (Exists (fun r => in_region r (nv pt u)) regions) then Some (nv pt u)
      else mem_translate (ms_mem s) pt u.
Proof.
  intros Hok Hd. revert s Hok. induction regions as [|[base size] rest IH]; intros s Hok Hr.
  { exists s. split; [done|]. split; [done|]. intros u. rewrite decide_False; [done|]. intros He. inversion He. }
  inversion_clear Hr as [|? ? (Hb & Hs & Ht) Hrest]. simpl in Hb, Hs, Ht.
  pose proof Hok as [Hwf _ _]. pose proof (w_sv _ _ Hwf) as Hsv.
  destruct (geometry pt Hsv) as (_ & _ & _ & E0 & _). cbn [as_map_physical_identity].
  change (pt_lvlsize pt 0) with (lsize pt 0). rewrite E0, gib_base, identity_entries_eq by done.
  assert (0 <= base / 2 ^ 30 <= (base + size) / 2 ^ 30) by (split; [apply Z.div_pos; lia|apply Z.div_le_mono; lia]).
  assert ((base + size) / 2 ^ 30 <= 512) by (apply (Z.div_le_mono (base + size) (2 ^ 39) (2 ^ 30)); lia).
  destruct (identity_loop_spec (Z.to_nat ((base + size) / 2 ^ 30 - base / 2 ^ 30)) s (base / 2 ^ 30))
    as (s1 & E1 & Hok1 & _ & Htr1 & _); [done|done|lia|lia|].
  prun E1. destruct (IH s1 Hok1 Hrest) as (s2 & -> & Hok2 & Htr2). exists s2. split; [done|]. split; [done|].
  intros u. rewrite Htr2. fold pt in Htr1. rewrite Htr1.
  assert (nv pt (2 ^ 30 * (base / 2 ^ 30)) = 2 ^ 30 * (base / 2 ^ 30) \/ (base + size) / 2 ^ 30 = base / 2 ^ 30) as Hnv.
  { destruct (decide ((base + size) / 2 ^ 30 = base / 2 ^ 30)); [by right|left]. unfold nv, wdt. rewrite Hd.
    apply Z.mod_small. simpl. lia. }
  assert (in_pages as_ (2 ^ 30 * (base / 2 ^ 30))
    (Z.of_nat (Z.to_nat ((base + size) / 2 ^ 30 - base / 2 ^ 30)) * 2 ^ 18) u <-> in_region (base, size) (nv pt u)) as Hiff.
  { unfold in_pages, in_region. fold pt. simpl fst. simpl snd. rewrite Z2Nat.id by lia.
    pose proof (Z.div_mod (nv pt u) (2 ^ 30)). pose proof (Z.mod_pos_bound (nv pt u) (2 ^ 30)). unfold PAGE_SIZE.
    destruct Hnv as [-> | ->]; lia. }
  destruct (decide (Exists _ rest)) as [He|He].
  { by rewrite decide_True by (by apply Exists_cons_tl). }
  destruct (decide (in_region (base, size) (nv pt u))) as [Hin|Hin].
  - rewrite decide_True by tauto. rewrite decide_True by (by apply Exists_cons_hd).
    destruct Hnv as [-> |E]; [f_equal; lia|]. unfold in_region in Hin. simpl in Hin. lia.
  - rewrite decide_False by tauto. rewrite decide_False; [done|]. rewrite Exists_cons. tauto.
Qed.
End Identity.

(** ** An empty address space *)
Section Empty.
Context (pt : page_table) (Hsv : is_sv pt) (Hroot : 0 < pt_root pt) (Hal : pt_root pt mod tsize pt 0 = 0).

Lemma empty_tab k va : tab ∅ pt k va = match k with O => Some (pt_root pt) | S _ => None end.
Proof.
  destruct k as [|k]; [done|]. induction k as [|k IH]; [done|].
  change (tab ∅ pt (S (S k)) va) with (b ← tab ∅ pt (S k) va;
    if pte_table (ld ∅ (b + 8 * ix pt va (S k))) then Some (pte_addr (ld ∅ (b + 8 * ix pt va (S k)))) else None).
  by rewrite IH.
Qed.

Lemma empty_wf : pt_wf ∅ pt.
Proof.
  split; [done|done| | | |].
  - intros [|k] va b _; rewrite empty_tab; [by intros [= <-]|done].
  - intros [|k] [|j] va vb b b' _ _; rewrite !empty_tab; try done. intros [= <-] [= <-]. by left.
  - intros va b. by rewrite empty_tab.
  - intros [|k] va b _; rewrite empty_tab; [intros [= <-]; by rewrite ld_empty|done].
Qed.

Lemma empty_translate u : mem_translate ∅ pt u = None.
Proof. rewrite mem_translate_leaf by apply empty_wf. unfold leaf. by rewrite !empty_tab. Qed.

Lemma empty_as_ok {A} `{!PageAlloc A} t c i (a : A) :
  pa_inv a -> (forall p, pa_avail a p -> pt_root pt + tsize pt 0 <= p \/ p + 4096 <= pt_root pt) ->
  as_ok (mk_as pt t c i) (mk_mst a ∅ []).
Proof.
  intros Hinv Hav. split; simpl; [apply empty_wf|done|].
  intros p Hp [|j] vb b _; rewrite empty_tab; [|done]. intros [= <-]. by apply Hav.
Qed.
End Empty.

(** ** Mapping given pages *)
Lemma page_base va : va mod PAGE_SIZE = 0 -> Z.land va (Z.lnot (PAGE_SIZE - 1)) = va.
Proof.
  intros Hva. change (PAGE_SIZE - 1) with (Z.ones 12). rewrite <- Z.ldiff_land, Z.ldiff_ones_r by lia.
  rewrite Z.shiftr_div_pow2, Z.shiftl_mul_pow2 by lia. change (2 ^ 12) with PAGE_SIZE.
  pose proof (Z.div_mod va PAGE_SIZE). unfold PAGE_SIZE in *. lia.
Qed.

Lemma mem_map_given {A} `{!PageAlloc A} CN CS hyp_secs cpu_as as_ (s : mstate A) va pp n flags sec :
  pa_plain (as_colors as_) = true -> as_ok as_ s -> page_flags flags ->
  all_clrs CN (pg_colors pp) = true -> 1 <= n ->
  va mod PAGE_SIZE = 0 -> pg_base pp mod PAGE_SIZE = 0 -> room as_ va (pg_base pp) n ->
  mem_find_sec hyp_secs as_ va = Some sec ->
  mem_find_sec hyp_secs as_ (va + n * PAGE_SIZE - 1) = Some sec ->
  (forall u, in_pages as_ va n u -> mem_translate (ms_mem s) (as_pt as_) u = None) ->
  (mem_map CN CS hyp_secs cpu_as as_ va (Some pp) n flags s = Fault NullDeref /\ refused as_ (8 * n) (ms_pages s)) \/
  (exists s', mem_map CN CS hyp_secs cpu_as as_ va (Some pp) n flags s = Ok (0, s') /\
     mapped_to as_ (8 * n) s s' va (pg_base pp) n).
Proof.
  intros Hplain Hok Hf Hc Hn Hva Hpa Hroom Hs1 Hs2 Hun. unfold mem_map. rewrite page_base by done.
  rewrite Hs1, wrap_small by (destruct Hroom as (_ & _ & ? & ? & _); unfold PAGE_SIZE in *; lia).
  rewrite bool_decide_true by done. cbn [negb].
  rewrite (pm_bind _ _ s (Some pp) s) by done. cbv beta iota. rewrite Hc. cbn [negb].
  destruct (map_loop_spec as_ Hplain n flags Hf (map_fuel n) s va (pg_base pp) 0)
    as [[E Hr]|(s' & E & Hm)];
    [done|unfold map_fuel; lia|lia|by rewrite Z.sub_0_r|done|done|by rewrite Z.sub_0_r|left|right].
  - rewrite Z.sub_0_r in Hr. split; [by apply pm_fault|done].
  - rewrite Z.sub_0_r in Hm. exists s'. split; [|done]. by prun E.
Qed.

(** ** The properties *)

(** C16. Mapping [n] given, uncoloured pages at an unmapped range of an address
    space: unless the allocator, with at most eight pages taken for each page to
    map, refuses a table (and a null pointer is dereferenced), the call returns 0, every address of the range then
    translates to the corresponding address of the block, every other address
    translates as before, and the tables stay well formed with no page of theirs
    allocatable. *)
Theorem mem_map_correct {A} `{!PageAlloc A} CN CS hyp_secs cpu_as as_ (s : mstate A) va pp n flags sec :
  pa_plain (as_colors as_) = true -> as_ok as_ s -> page_flags flags ->
  all_clrs CN (pg_colors pp) = true -> 1 <= n ->
  va mod PAGE_SIZE = 0 -> pg_base pp mod PAGE_SIZE = 0 -> room as_ va (pg_base pp) n ->
  mem_find_sec hyp_secs as_ va = Some sec ->
  mem_find_sec hyp_secs as_ (va + n * PAGE_SIZE - 1) = Some sec ->
  (forall u, in_pages as_ va n u -> mem_translate (ms_mem s) (as_pt as_) u = None) ->
  (mem_map CN CS hyp_secs cpu_as as_ va (Some pp) n flags s = Fault NullDeref /\ refused as_ (8 * n) (ms_pages s)) \/
  (exists s', mem_map CN CS hyp_secs cpu_as as_ va (Some pp) n flags s = Ok (0, s') /\ as_ok as_ s' /\
     forall u, mem_translate (ms_mem s') (as_pt as_) u =
       if decide (in_pages as_ va n u) then Some (pg_base pp + (nv (as_pt as_) u - nv (as_pt as_) va))
       else mem_translate (ms_mem s) (as_pt as_) u).
Proof.
  intros Hplain Hok Hf Hc Hn Hva Hpa Hroom Hs1 Hs2 Hun.
  destruct (mem_map_given CN CS hyp_secs cpu_as as_ s va pp n flags sec) as [?|(s' & E & Hok' & _ & Ht & _)]; try done; [by left|].
  right. by exists s'.
Qed.

(** A VM's address space with an empty root table, and a pool of 64 free pages. *)
Definition demo_as : addr_space := mk_as (mk_pt 0x40000000 0 sv39x4_pt_dscr) AS_VM 0 1.
Definition demo_pages : mem * list page_pool := (∅, [mk_pool 0x80000000 64 64 0 100]).
Definition demo_ms : mstate (mem * list page_pool) := mk_mst demo_pages ∅ [].
#[local] Instance demo_alloc : PageAlloc (mem * list page_pool) := pools_page_alloc 1 1.

Lemma demo_pages_inv : pools_inv demo_pages.
Proof.
  split; simpl.
  - constructor; [|constructor]. unfold pool_wf. simpl. lia.
  - intros [|i] p; simpl; [|done]. intros [= <-]. simpl. unfold PAGE_SIZE. split_and!; done || lia.
  - intros [|i] [|k] p q; simpl; done.
Qed.

Lemma demo_as_ok : as_ok demo_as demo_ms.
Proof.
  apply empty_as_ok; [by right|done|done|apply demo_pages_inv|].
  intros p (i & q & j & Hq & Hj & -> & _). destruct i; simpl in Hq; [|done]. simplify_eq. simpl in *. left.
  unfold tsize, PAGE_SIZE. change (nent _ _) with 2048. lia.
Qed.

Lemma mem_map_correct_witness :
  exists s', mem_map 1 1 [] demo_as demo_as 0xC0000000 (Some (mem_ppages_get 0x90000000 3)) 3 PTE_VM_FLAGS demo_ms
      = Ok (0, s') /\
    mem_translate (ms_mem s') (as_pt demo_as) 0xC0001234 = Some 0x90001234.
Proof.
  destruct (mem_map_correct 1 1 [] demo_as demo_as demo_ms 0xC0000000 (mem_ppages_get 0x90000000 3) 3 PTE_VM_FLAGS 0)
    as [[E _]|(s' & E & _ & Htr)].
  - reflexivity.
  - apply demo_as_ok.
  - by right.
  - reflexivity.
  - lia.
  - reflexivity.
  - reflexivity.
  - vm_compute. repeat split; discriminate.
  - reflexivity.
  - reflexivity.
  - intros u _. apply empty_translate; [by right|done|done].
  - exfalso. assert (match mem_map 1 1 [] demo_as demo_as 0xC0000000 (Some (mem_ppages_get 0x90000000 3)) 3
      PTE_VM_FLAGS demo_ms with Ok _ => true | Fault _ => false end = true) as H by (vm_compute; reflexivity).
    rewrite E in H. discriminate H.
  - exists s'. split; [exact E|]. rewrite Htr, decide_True; [reflexivity|]. vm_compute. split; [discriminate|reflexivity].
Defined.

(** Splitting an entry into a table of the next level keeps every
    translation of the address space. For an entry that maps a superpage
    (aligned to its size), is reserved or is empty, the call returns with the
    entry replaced by a table, unless the allocator refuses the page: then an
    empty entry is left as it is, and for any other a null pointer is
    dereferenced. *)
Theorem mem_expand_pte_preserves {A} `{!PageAlloc A} cpu_as as_ (s : mstate A) k va b :
  pa_plain (as_colors as_) = true -> as_ok as_ s -> (k < 2)%nat ->
  tab (ms_mem s) (as_pt as_) k va = Some b ->
  pte_addr (ld (ms_mem s) (b + 8 * ix (as_pt as_) va k)) mod lsize (as_pt as_) k = 0 ->
  (mem_expand_pte cpu_as as_ va (Z.of_nat k) s = Fault NullDeref /\ refused as_ 0 (ms_pages s)) \/
  (exists s', mem_expand_pte cpu_as as_ va (Z.of_nat k) s = Ok (tt, s') /\ as_ok as_ s' /\
     (forall u, mem_translate (ms_mem s') (as_pt as_) u = mem_translate (ms_mem s) (as_pt as_) u) /\
     (is_Some (tab (ms_mem s') (as_pt as_) (S k) va) \/ refused as_ 0 (ms_pages s))).
Proof.
  intros Hplain Hok Hk Hb Hal.
  destruct (mem_expand_pte_spec as_ Hplain cpu_as s k va b Hok Hk Hb Hal) as [?|(s' & E & (Hok' & _ & Ht) & Hs)];
    [by left|right]. exists s'. done.
Qed.

(** A superpage of 2 MiB, mapped in the address space above and then split. *)
Definition demo_super : mstate (mem * list page_pool) :=
  match map_loop demo_as true 512 PTE_VM_FLAGS 0xC0200000 0x90000000 0 (map_fuel 512) demo_ms with
  | Ok (_, s) => s | Fault _ => demo_ms
  end.

Lemma demo_super_ok : as_ok demo_as demo_super.
Proof.
  unfold demo_super.
  destruct (map_loop_spec (A := mem * list page_pool) demo_as) with (n := 512) (flags := PTE_VM_FLAGS)
    (fuel := map_fuel 512) (s := demo_ms) (vaddr := 0xC0200000) (paddr := 0x90000000) (count := 0)
    as [[E _]|(s' & E & Hok & _)].
  - reflexivity.
  - by right.
  - apply demo_as_ok.
  - unfold map_fuel. lia.
  - lia.
  - vm_compute. repeat split; discriminate.
  - reflexivity.
  - reflexivity.
  - intros u _. apply empty_translate; [by right|done|done].
  - exfalso. assert (match map_loop demo_as true 512 PTE_VM_FLAGS 0xC0200000 0x90000000 0 (map_fuel 512) demo_ms
      with Ok _ => true | Fault _ => false end = true) as H by (vm_compute; reflexivity).
    rewrite E in H. discriminate H.
  - by rewrite E.
Qed.

Lemma mem_expand_pte_preserves_witness :
  exists s', mem_expand_pte demo_as demo_as 0xC0200000 1 demo_super = Ok (tt, s') /\
    mem_translate (ms_mem s') (as_pt demo_as) 0xC0201234 = mem_translate (ms_mem demo_super) (as_pt demo_as) 0xC0201234.
Proof.
  destruct (mem_expand_pte_preserves demo_as demo_as demo_super 1 0xC0200000 0x80000000) as [[E _]|(s' & E & _ & Ht & _)].
  - reflexivity.
  - apply demo_super_ok.
  - lia.
  - vm_compute. reflexivity.
  - vm_compute. reflexivity.
  - exfalso. assert (match mem_expand_pte demo_as demo_as 0xC0200000 1 demo_super with Ok _ => true | Fault _ => false end
      = true) as H by (vm_compute; reflexivity). change 1 with (Z.of_nat 1) in H. rewrite E in H. discriminate H.
  - exists s'. split; [exact E|]. apply Ht.
Defined.

(** The result of a mapping and the translation of a probe afterwards. *)
Definition outcome (u : Z) (r : res (Z * mstate (mem * list page_pool))) : res (Z * option Z) :=
  '(z, s) ← r; Ok (z, mem_translate (ms_mem s) (as_pt demo_as) u).

(** [mem_map] refuses to override a mapping only where a run of entries
    begins. With page [0xC0001000] mapped, mapping that page again panics, but
    mapping the two pages from [0xC0000000] on returns 0 and silently redirects
    it to another page. *)
Theorem mem_map_silent_override :
  let map va pa n s := mem_map 1 1 [] demo_as demo_as va (Some (mem_ppages_get pa n)) n PTE_VM_FLAGS s in
  outcome 0xC0001000 (map 0xC0001000 0x90000000 1 demo_ms) = Ok (0, Some 0x90000000) /\
  outcome 0xC0001000 ('(_, s) ← map 0xC0001000 0x90000000 1 demo_ms; map 0xC0001000 0xA0001000 1 s)
    = Fault (Panic "trying to override previous mapping") /\
  outcome 0xC0001000 ('(_, s) ← map 0xC0001000 0x90000000 1 demo_ms; map 0xC0000000 0xA0000000 2 s)
    = Ok (0, Some 0xA0001000).
Proof. split; [vm_compute; reflexivity|]. split; vm_compute; reflexivity. Qed.

(** [mem_inflate_pt] advances from the start of the range in steps of a
    level's size and misses the last entry of a range that is not aligned to it:
    512 coloured pages mapped at an address 1 MiB above a 2 MiB boundary end in
    a null pointer, while the same pages uncoloured are mapped. *)
Theorem mem_inflate_pt_gap :
  let map colors := mem_map 2 1 [] demo_as demo_as 0xC0100000 (Some (mk_ppages 0x90000000 512 colors)) 512
                      PTE_VM_FLAGS demo_ms in
  outcome 0xC02FF000 (map 1) = Fault NullDeref /\ outcome 0xC02FF000 (map 3) = Ok (0, Some 0x901FF000).
Proof. split; vm_compute; reflexivity. Qed.

(** The hypervisor's address space maps physical memory one to one, but
    only the GiBs that end inside a region: after [as_arch_init] an address
    translates to itself if its GiB starts at or after the one of a region's
    base and before the one of its end, and as before otherwise. The part of a
    region after its last GiB boundary is not mapped. *)
Theorem as_identity_map {A} `{!PageAlloc A} as_ (s : mstate A) regions :
  as_ok as_ s -> as_type as_ = AS_HYP -> pt_dscr (as_pt as_) = sv39_pt_dscr ->
  Forall (fun r => 0 <= fst r /\ 0 <= snd r /\ fst r + snd r <= 2 ^ 39) regions ->
  exists s', as_arch_init as_ regions s = Ok (tt, s') /\ as_ok as_ s' /\
    forall u, mem_translate (ms_mem s') (as_pt as_) u =
      if decide (Exists (fun r => in_region r (nv (as_pt as_) u)) regions) then Some (nv (as_pt as_) u)
      else mem_translate (ms_mem s) (as_pt as_) u.
Proof. intros Hok Ht Hd Hr. unfold as_arch_init. rewrite Ht. by apply identity_spec. Qed.

(** The address space of the hypervisor on a board whose memory is the 768 MiB
    from [0x80200000] on: nothing is mapped. *)
Definition demo_hyp_as : addr_space := mk_as (mk_pt 0x40000000 0 sv39_pt_dscr) AS_HYP 0 0.

Lemma as_identity_map_witness :
  exists s', as_arch_init demo_hyp_as [(0x80200000, 0x30000000)] demo_ms = Ok (tt, s') /\
    mem_translate (ms_mem s') (as_pt demo_hyp_as) 0x80200000 = None.
Proof.
  destruct (as_identity_map demo_hyp_as demo_ms [(0x80200000, 0x30000000)]) as (s' & E & _ & Ht).
  - apply empty_as_ok; [by left|done|done|apply demo_pages_inv|].
    intros p (i & q & j & Hq & Hj & -> & _). destruct i; simpl in Hq; [|done]. simplify_eq. simpl in *. left.
    unfold tsize, PAGE_SIZE. change (nent _ _) with 512. lia.
  - reflexivity.
  - reflexivity.
  - constructor; [simpl; lia|constructor].
  - exists s'. split; [exact E|]. rewrite Ht, decide_False.
    + apply empty_translate; [by left|done|done].
    + intros H. inversion_clear H as [? ? Hin|? ? Hin]; [|inversion Hin]. vm_compute in Hin. destruct Hin as [_ Hin].
      discriminate Hin.
Defined.
