(* ===== verification/VPage.v ===== *)
(** * Allocation of virtual pages

    [mem_alloc_vpage] of [core/mem.c], for a range the caller asks for: it takes
    the range if no page of it is mapped or reserved, and marks its entries as
    reserved for the mapping that follows. *)

From S2P Require Import Prelude Bit Bitmap PagePool PageTable MemMap MapProofs.

(** ** Reserved entries *)
Lemma pte_rsw_bits w :
  pte_valid (pte_set_rsw w PTE_RSW_RSRV) = pte_valid w /\ pte_table (pte_set_rsw w PTE_RSW_RSRV) = pte_table w /\
  pte_check_rsw (pte_set_rsw w PTE_RSW_RSRV) PTE_RSW_RSRV = true.
Proof.
  assert (forall msk, Z.land msk 768 = 0 -> Z.land (pte_set_rsw w PTE_RSW_RSRV) msk = Z.land w msk) as Hm.
  { intros msk Hz. unfold pte_set_rsw. rewrite Z.land_lor_distr_l.
    change (Z.land PTE_RSW_RSRV PTE_RSW_MSK) with 768. rewrite (Z.land_comm 768 msk), Hz, Z.lor_0_r.
    rewrite <- Z.land_assoc. f_equal. apply Z.bits_inj'. intros i Hi. rewrite Z.land_spec, Z.lnot_spec by lia.
    assert (Z.testbit (Z.land msk 768) i = false) as Hb by (rewrite Hz; apply Z.bits_0).
    rewrite Z.land_spec in Hb. change PTE_RSW_MSK with 768.
    destruct (Z.testbit 768 i), (Z.testbit msk i); simpl in *; congruence. }
  unfold pte_valid, pte_table. rewrite !Hm by done. split_and!; [done|done|].
  unfold pte_check_rsw, pte_set_rsw. rewrite Z.land_lor_distr_l, <- !Z.land_assoc.
  rewrite (Z.land_comm (Z.lnot PTE_RSW_MSK)), Z.land_lnot_diag, Z.land_0_r. done.
Qed.

Section VPage.
Context {A : Type} `{!PageAlloc A} (hyp_secs : list section) (as_ : addr_space).
Let pt := as_pt as_.

(** A page is free if the entry its walk ends at is neither valid nor reserved. *)
#[local] Notation rsvd := (MapProofs.rsvd as_).
Definition free (m : mem) (u : Z) : bool := negb (pte_valid (ld m (snd (leaf m pt u)))) && negb (rsvd m u).

Definition keeps (t : Z) (s s' : mstate A) : Prop :=
  same_map as_ t s s' /\ forall u, rsvd (ms_mem s') u = rsvd (ms_mem s) u.

Lemma translate_free m u : pt_wf m pt -> (mem_translate m pt u = None <-> pte_valid (ld m (snd (leaf m pt u))) = false).
Proof. intros Hwf. rewrite mem_translate_leaf by done. unfold out. by destruct (pte_valid _). Qed.

Lemma free_iff m u : pt_wf m pt -> free m u = true <-> mem_translate m pt u = None /\ rsvd m u = false.
Proof.
  intros Hwf. rewrite translate_free by done. unfold free. rewrite andb_true_iff, !negb_true_iff. done.
Qed.

Lemma keeps_refl s : as_ok as_ s -> keeps 0 s s.
Proof. intros Hok. split; [by apply same_map_refl|done]. Qed.

Lemma keeps_trans t1 t2 s1 s2 s3 : keeps t1 s1 s2 -> keeps t2 s2 s3 -> keeps (t1 + t2) s1 s3.
Proof.
  intros (M1 & R1) (M2 & R2). split; [by eapply same_map_trans|]. intros u. by rewrite R2, R1.
Qed.

Lemma keeps_weaken t1 t2 s s' : keeps t1 s s' -> t1 <= t2 -> keeps t2 s s'.
Proof. intros (M & R) H. split; [by eapply same_map_weaken|done]. Qed.

Lemma keeps_free t s s' u : as_ok as_ s -> keeps t s s' -> free (ms_mem s') u = free (ms_mem s) u.
Proof.
  intros [Hwf _ _] (([Hwf' _ _] & _ & Ht) & Hr).
  apply eq_true_iff_eq. rewrite !free_iff by done. by rewrite Hr, Ht.
Qed.

(** The walk of [va] passes the tables above its last entry. *)
Lemma leaf_tab m k va e :
  leaf m pt va = (k, e) -> (k < 3)%nat /\ exists b, tab m pt k va = Some b /\ e = b + 8 * ix pt va k.
Proof.
  unfold leaf. destruct (tab m pt 2 va) as [b|] eqn:E2; [|destruct (tab m pt 1 va) as [b|] eqn:E1];
    intros [= <- <-]; (split; [lia|]); eauto.
Qed.

Lemma leaf_same m k va vb e : is_sv pt -> leaf m pt va = (k, e) -> same pt (S k) va vb -> leaf m pt vb = (k, e).
Proof.
  intros Hsv E Hs. destruct (leaf_tab m k va e E) as (Hk & b & Hb & ->).
  pose proof (proj1 (same_S pt Hsv k va vb Hk) Hs) as [Hs' Hi].
  unfold leaf in *. destruct k as [|[|[|k]]]; [| | |lia].
  - destruct (tab m pt 2 va) eqn:T2; [done|]. destruct (tab m pt 1 va) eqn:T1; [done|].
    rewrite <- (tab_same m pt 1 va vb) by (done || lia). rewrite T1.
    assert (tab m pt 2 vb = None) as ->.
    { pose proof (tab_same m pt 1 va vb Hsv ltac:(lia) Hs) as E1. rewrite T1 in E1. simpl in E1 |- *. by rewrite <- E1. }
    congruence.
  - destruct (tab m pt 2 va) eqn:T2; [done|]. rewrite <- (tab_same m pt 2 va vb) by (done || lia).
    rewrite T2. rewrite <- (tab_same m pt 1 va vb) by (done || lia). rewrite Hb, Hi. done.
  - rewrite <- (tab_same m pt 2 va vb) by (done || lia). by rewrite Hb, Hi.
Qed.

(** *** A new table below a free entry *)
Lemma rsvd_set_table_same m k va b new u :
  pt_wf m pt -> (k < 2)%nat -> tab m pt k va = Some b -> pte_table (ld m (b + 8 * ix pt va k)) = false ->
  pte_check_rsw (ld m (b + 8 * ix pt va k)) PTE_RSW_RSRV = false ->
  0 < new < 2 ^ 56 -> new mod 4096 = 0 -> fresh m pt new ->
  rsvd (mem_zero (st m (b + 8 * ix pt va k) (pte_set new PTE_TABLE PTE_HYP_FLAGS)) new 4096) u = rsvd m u.
Proof.
  intros Hwf Hk Hb Ht Hc Hnew Hal Hf. pose proof (w_sv _ _ Hwf) as Hsv.
  rewrite rsvd_set_table by done. case_decide as Hs; [|done]. symmetry. unfold MapProofs.rsvd. fold pt.
  by rewrite (leaf_same m k va u _ Hsv (leaf_at m pt k va b ltac:(lia) Hb Ht) Hs).
Qed.

Lemma leaf_set_table_other m k va b new u :
  pt_wf m pt -> (k < 2)%nat -> tab m pt k va = Some b ->
  0 < new < 2 ^ 56 -> new mod 4096 = 0 -> fresh m pt new -> ~ same pt (S k) va u ->
  leaf (mem_zero (st m (b + 8 * ix pt va k) (pte_set new PTE_TABLE PTE_HYP_FLAGS)) new 4096) pt u = leaf m pt u.
Proof.
  intros Hwf Hk Hb Hnew Hal Hf Hs. unfold leaf. rewrite !tab_set_table by (done || lia). by rewrite !decide_False by tauto.
Qed.

(** ** The search *)
Section Search.
Context (Hplain : pa_plain (as_colors as_) = true) (at_ va n : Z) (s0 : mstate A).
Context (Hat : at_ <> 0) (Hok0 : as_ok as_ s0).
Context (Hva : va mod PAGE_SIZE = 0) (Hv0 : 0 <= va) (Hv1 : va + n * PAGE_SIZE < 2 ^ 64).
Context (Hfit : nv pt va + n * PAGE_SIZE <= 2 ^ wdt pt 0).

Lemma sv0 : is_sv pt.
Proof. apply (w_sv _ _ (ok_wf _ _ Hok0)). Qed.

(** The entries of the first [c] pages hold no other page. *)
Definition saturated (m : mem) (c : Z) : Prop :=
  forall u u', in_pages as_ va c u -> same pt (S (fst (leaf m pt u))) u u' -> in_pages as_ va c u'.

(** The first [c] pages have been found free, with [t] pages taken for tables. *)
Definition found (t : Z) (s : mstate A) (c : Z) : Prop :=
  keeps t s0 s /\ (forall u, in_pages as_ va c u -> free (ms_mem s0) u = true) /\ saturated (ms_mem s) c.

Record good (s : mstate A) (v : vsearch) (k : nat) : Prop := {
  g_lvl : va_lvl v = Z.of_nat k;
  g_k : (k < 3)%nat;
  g_count : 0 <= va_count v <= n;
  g_addr : va_addr v = va + va_count v * PAGE_SIZE;
  g_page : 0 < va_count v -> va_page v = va;
  g_ok : va_failed v = false;
  g_found : found (4 * (3 * va_count v + va_lvl v)) s (va_count v);
  g_tab : va_count v < n -> is_Some (tab (ms_mem s) pt k (va_addr v))
}.

Definition bad (s : mstate A) (v : vsearch) : Prop :=
  va_failed v = true /\ va_page v = 0 /\ keeps (4 * (3 * n + 2)) s0 s /\ exists u, in_pages as_ va n u /\ free (ms_mem s0) u = false.

(** What decreases. *)
Definition todo (v : vsearch) : Z := 3 * (n - va_count v) + 2 - va_lvl v.

Lemma nv_at c : 0 <= c < n -> nv pt (va + c * PAGE_SIZE) = nv pt va + c * PAGE_SIZE.
Proof. intros Hc. apply nv_add; [apply sv0|unfold PAGE_SIZE; lia|unfold PAGE_SIZE in *; lia]. Qed.

Lemma page_at c : (va + c * PAGE_SIZE) mod PAGE_SIZE = 0.
Proof. unfold PAGE_SIZE in *. by rewrite Z_mod_plus_full. Qed.

(** The pages of an aligned entry extend the range. *)
Lemma in_pages_block c k u :
  (k < 3)%nat -> 0 <= c < n -> (va + c * PAGE_SIZE) mod lsize pt k = 0 ->
  in_pages as_ va (c + lsize pt k / PAGE_SIZE) u <->
    in_pages as_ va c u \/ same pt (S k) (va + c * PAGE_SIZE) u.
Proof.
  intros Hk Hc Hal. pose proof sv0 as Hsv. rewrite same_block by (rewrite ?nv_mod; done).
  destruct (lsize_pages as_ k Hsv Hk) as (q & Hq & El & Eq). fold pt in El, Eq.
  rewrite nv_at, Eq, El by done.
  unfold in_pages. fold pt. unfold PAGE_SIZE in *. lia.
Qed.

Lemma in_pages_at c : 0 <= c < n -> in_pages as_ va n (va + c * PAGE_SIZE) /\ ~ in_pages as_ va c (va + c * PAGE_SIZE).
Proof. intros Hc. unfold in_pages. fold pt. rewrite nv_at by done. unfold PAGE_SIZE. lia. Qed.

(** Taking an entry. *)
Lemma found_weaken t1 t2 s c : found t1 s c -> t1 <= t2 -> found t2 s c.
Proof. intros (K & F & S) H. split; [by eapply keeps_weaken|done]. Qed.

Lemma found_take t s c k b :
  found t s c -> (k < 3)%nat -> 0 <= c < n -> (va + c * PAGE_SIZE) mod lsize pt k = 0 ->
  tab (ms_mem s) pt k (va + c * PAGE_SIZE) = Some b ->
  let w := ld (ms_mem s) (b + 8 * ix pt (va + c * PAGE_SIZE) k) in
  pte_valid w = false -> pte_check_rsw w PTE_RSW_RSRV = false ->
  found t s (c + lsize pt k / PAGE_SIZE).
Proof.
  intros (Hk0 & Hfree & Hsat) Hk Hc Hal Hb w Hv Hr. pose proof sv0 as Hsv.
  assert (pte_table w = false) as Ht by (destruct (pte_table w) eqn:E; [by rewrite pte_table_valid in Hv|done]).
  pose proof (leaf_at (ms_mem s) pt k _ b Hk Hb Ht) as Hl.
  split_and!; [done| |].
  - intros u [Hu|Hu]%in_pages_block; try done; [by apply Hfree|].
    rewrite <- (keeps_free _ s0 s u Hok0 Hk0). unfold free, MapProofs.rsvd. fold pt. rewrite (leaf_same _ k _ u _ Hsv Hl Hu). simpl snd.
    fold w. by rewrite Hv, Hr.
  - intros u u' [Hu|Hu]%in_pages_block Hs; try done; apply in_pages_block; try done.
    + left. by eapply Hsat.
    + right. rewrite (leaf_same _ k _ u _ Hsv Hl Hu) in Hs. simpl fst in Hs. by eapply same_trans.
Qed.

(** Refining an entry that cannot be taken. *)
Lemma found_refine t s s' c k b new :
  found t s c -> (k < 2)%nat -> 0 <= c < n -> tab (ms_mem s) pt k (va + c * PAGE_SIZE) = Some b ->
  let w := ld (ms_mem s) (b + 8 * ix pt (va + c * PAGE_SIZE) k) in
  pte_valid w = false -> pte_check_rsw w PTE_RSW_RSRV = false ->
  0 < new < 2 ^ 56 -> new mod 4096 = 0 -> fresh (ms_mem s) pt new -> pa_avail (ms_pages s) new -> as_ok as_ s' ->
  takes as_ 4 (ms_pages s) (ms_pages s') ->
  ms_mem s' = mem_zero (st (ms_mem s) (b + 8 * ix pt (va + c * PAGE_SIZE) k) (pte_set new PTE_TABLE PTE_HYP_FLAGS)) new 4096 ->
  found (t + 4) s' c /\ tab (ms_mem s') pt (S k) (va + c * PAGE_SIZE) = Some new.
Proof.
  intros (Hk0 & Hfree & Hsat) Hk Hc Hb w Hv Hr Hnew Hal Hf Hav Hok' Hst Em. pose proof sv0 as Hsv.
  pose proof Hk0 as ((Hok & _ & _) & _). pose proof Hok as [Hwf _ _].
  assert (pte_table w = false) as Ht by (destruct (pte_table w) eqn:E; [by rewrite pte_table_valid in Hv|done]).
  destruct (alloc_pt_same as_ s s' k (va + c * PAGE_SIZE) b new) as (Hsame & Htab & _); try done.
  split; [|done]. split_and!; [|done|].
  - eapply keeps_trans; [done|]. split; [done|]. intros u. rewrite Em. by apply rsvd_set_table_same.
  - intros u u' Hu Hs. assert (~ same pt (S k) (va + c * PAGE_SIZE) u) as Hns.
    { intros Hs'. apply (proj2 (in_pages_at c Hc)). apply (Hsat u); [done|].
      pose proof (leaf_at (ms_mem s) pt k _ b ltac:(lia) Hb Ht) as Hl.
      rewrite (leaf_same _ k _ u _ Hsv Hl Hs'). by apply same_sym. }
    rewrite Em, leaf_set_table_other in Hs by (done || lia). by eapply Hsat.
Qed.

Lemma found_bad t s c k b v :
  t <= 4 * (3 * n + 2) -> found t s c -> (k < 3)%nat -> 0 <= c < n -> tab (ms_mem s) pt k (va + c * PAGE_SIZE) = Some b ->
  let w := ld (ms_mem s) (b + 8 * ix pt (va + c * PAGE_SIZE) k) in
  pte_check_rsw w PTE_RSW_RSRV || (pte_valid w && negb (pte_table w)) = true ->
  va_failed v = true -> va_page v = 0 -> bad s v.
Proof.
  intros Ht2 (Hk0 & _ & _) Hk Hc Hb w Hw Hf Hp. pose proof Hk0 as ((Hok & _ & _) & _). pose proof Hok as [Hwf _ _].
  split_and!; try done; [by eapply keeps_weaken|]. exists (va + c * PAGE_SIZE). split; [by apply in_pages_at|].
  assert (pte_table w = false) as Ht.
  { destruct (pte_table w) eqn:Et; [|done]. exfalso. rewrite andb_false_r, orb_false_r in Hw.
    destruct (decide (k = 2)%nat) as [->|].
    - pose proof (w_last _ _ Hwf _ b Hb : pte_table w = false). congruence.
    - pose proof (w_clear _ _ Hwf k _ b ltac:(lia) Hb Et : pte_check_rsw w _ = false). congruence. }
  rewrite <- (keeps_free _ s0 s _ Hok0 Hk0). unfold free, MapProofs.rsvd. fold pt. rewrite (leaf_at _ _ k _ b Hk Hb Ht). simpl snd. fold w.
  rewrite Ht, andb_true_r in Hw. by destruct (pte_valid w), (pte_check_rsw w PTE_RSW_RSRV).
Qed.

(** What a run of the search ends in. *)
Definition outcome (r : res (vsearch * mstate A)) (Q : vsearch -> mstate A -> Prop) : Prop :=
  (r = Fault (Panic "failed to alloc page table") /\ refused as_ (4 * (3 * n + 2)) (ms_pages s0)) \/
  exists v s, r = Ok (v, s) /\ (bad s v \/ Q v s).

Lemma vpage_entries_spec d s k b entry v :
  good s v k -> Z.of_nat d = nent pt k - entry ->
  (va_count v < n -> tab (ms_mem s) pt k (va_addr v) = Some b /\ ix pt (va_addr v) k = entry /\ entry < nent pt k) ->
  outcome (vpage_entries as_ at_ n (b + 8 * entry) entry v d s)
    (fun v' s' => (exists k', good s' v' k') /\ todo v' <= todo v /\ (va_count v < n -> todo v' < todo v)).
Proof.
  revert s entry v. induction d as [|d IH]; intros s entry v Hg Hd Hent; pose proof Hg as [El Hk Hc Ea Hpg Hnf Hfound Htab];
    cbn [vpage_entries]; fold pt; rewrite El, Hnf.
  { replace (va_count v <? n) with false by (destruct (Z.ltb_spec (va_count v) n) as [Hlt|]; [destruct (Hent Hlt) as (_ & _ & ?); lia|done]).
    rewrite andb_false_r. simpl. right. exists v, s. split; [done|]. right. split; [by exists k|].
    split; [lia|]. intros Hlt. destruct (Hent Hlt) as (_ & _ & ?). lia. }
  destruct (Z.ltb_spec (va_count v) n) as [Hlt|Hge].
  2:{ rewrite andb_false_r. simpl. right. exists v, s. split; [done|]. right. split; [by exists k|]. lia. }
  destruct (Hent Hlt) as (Hb & Hix & Hlte). rewrite Ea in Hb, Hix. clear Hent. subst entry.
  set (a := va + va_count v * PAGE_SIZE) in *. replace (ix pt a k <? nent pt k) with true by lia.
  cbn [andb negb]. pose proof sv0 as Hsv.
  pose proof Hfound as (((Hok & Hrtc & _) & _) & _ & _). pose proof Hok as [Hwf _ _].
  pose proof (w_base _ _ Hwf k _ b Hk Hb) as Hb0. pose proof (ix_range pt Hsv a k Hk) as Hir.
  assert (forall s1 : mstate A, load (b + 8 * ix pt a k) s1 = Ok (ld (ms_mem s1) (b + 8 * ix pt a k), s1)) as Hload.
  { intros s1. unfold load. by replace (_ =? 0) with false by lia. }
  prun (Hload s). set (w := ld (ms_mem s) _). replace (at_ =? 0) with false by lia. cbn [negb].
  destruct (_ || _) eqn:Ebad.
  { right. eexists _, s. split; [done|]. left. apply (found_bad (4 * (3 * va_count v + va_lvl v)) s (va_count v) k b); done || lia. }
  apply orb_false_iff in Ebad as [Hrsw Hvt].
  destruct (pte_valid w) eqn:Hv; cbn [negb].
  { (* a table *)
    assert (pte_table w = true) as Ht by (by destruct (pte_table w)).
    assert ((k < 2)%nat) as Hk2.
    { destruct (decide (k = 2)%nat) as [->|]; [|lia]. pose proof (w_last _ _ Hwf _ b Hb : pte_table w = false). congruence. }
    prun (Hload s). fold w. rewrite Ht. right. eexists _, s. split; [done|]. right. split.
    - exists (S k). split; simpl; try done; try lia; [eapply found_weaken; [done|rewrite El; lia]|]. intros _. rewrite Ea. fold a. rewrite Hb. simpl. fold w. rewrite Ht. by eexists.
    - unfold todo. simpl. rewrite El. lia. }
  assert (pte_table w = false) as Hnt by (destruct (pte_table w) eqn:E; [by rewrite pte_table_valid in Hv|done]).
  destruct (geometry pt Hsv) as (_ & EL3 & _ & _ & _ & E2 & _).
  destruct (pte_allocable as_ w (Z.of_nat k) (n - va_count v) (va_addr v)) eqn:Eal.
  - assert (a mod lsize pt k = 0 /\ lsize pt k <= (n - va_count v) * PAGE_SIZE) as [Hal Hroom].
    { unfold pte_allocable in Eal. fold pt in Eal. rewrite EL3, Ea in Eal. fold a in Eal. apply orb_true_iff in Eal as [Ek|Ek].
      - assert (k = 2%nat) as -> by lia. rewrite E2. pose proof (page_at (va_count v)). unfold PAGE_SIZE in *. fold a in H. lia.
      - lia. }
    destruct (lsize_pages as_ k Hsv Hk) as (q & Hq & Elq & Eq). fold pt in Elq, Eq. rewrite Eq.
    prun (Hload s). fold w. rewrite Hnt. cbn [va_lvl va_addr va_count va_page va_failed].
    rewrite Ea. fold a. rewrite (wrap_small 64 (a + lsize pt k)) by (unfold a, PAGE_SIZE in *; lia).
    assert (forall j, (j < 3)%nat -> (va_count v + q < n -> is_Some (tab (ms_mem s) pt j (a + lsize pt k))) ->
      good s (mk_vs (Z.of_nat j) (a + lsize pt k) (va_count v + q) (if va_count v =? 0 then a else va_page v) false) j) as Hgood.
    { intros j Hj Htj. split; simpl; try done; try (unfold a, PAGE_SIZE in *; lia).
      - intros _. destruct (Z.eqb_spec (va_count v) 0) as [E0|]; [unfold a; rewrite E0; lia|apply Hpg; lia].
      - rewrite <- Eq. eapply found_weaken; [by apply (found_take (4 * (3 * va_count v + va_lvl v)) s (va_count v) k b); [..|lia| | | |]|lia]. }
    destruct (Z.leb_spec (nent pt k) (ix pt a k + 1)).
    + right. eexists _, s. split; [done|]. right. split; [exists 0%nat; apply (Hgood 0%nat); [lia|by eexists]|].
      unfold todo. simpl. rewrite El. lia.
    + destruct (next_entry pt k a Hsv Hk Hal ltac:(lia)) as (_ & Hs & Hi).
      replace (b + 8 * ix pt a k + 8) with (b + 8 * (ix pt a k + 1)) by lia.
      assert (tab (ms_mem s) pt k (a + lsize pt k) = Some b) as Hb' by (by rewrite <- (tab_same _ _ k a _ Hsv ltac:(lia) Hs)).
      destruct (IH s (ix pt a k + 1) (mk_vs (Z.of_nat k) (a + lsize pt k) (va_count v + q) (if va_count v =? 0 then a else va_page v) false))
        as [Hf|(v' & s' & E' & Hr)]; [apply Hgood; [done|by eexists]|lia|done|by left|].
      right. exists v', s'. split; [done|]. destruct Hr as [Hbad|(Hg' & Hle & _)]; [by left|]. right. split; [done|].
      unfold todo in *. simpl in Hle. rewrite El. lia.
  - assert ((k < 2)%nat) as Hk2.
    { destruct (decide (k = 2)%nat) as [->|]; [|lia]. unfold pte_allocable in Eal. fold pt in Eal. by rewrite EL3 in Eal. }
    rewrite Ea. fold a.
    destruct (mem_alloc_pt_spec as_ Hplain s k a b Hok Hk2 Hb)
      as [(s' & E & _ & _ & _ & Href)|(new & s' & E & Hr & Haln & Hf & Hav & Hok' & Hst & _ & Em)].
    + fold pt in E. prun E. left. split; [done|]. eapply refused_later; [apply Hrtc|done|lia].
    + fold pt in E, Em. prun E. replace (new =? 0) with false by lia. prun (Hload s').
      destruct (found_refine _ s s' (va_count v) k b new Hfound Hk2 ltac:(lia) Hb Hv Hrsw Hr Haln Hf Hav Hok' Hst Em) as [Hfound' Htab'].
      fold a in Htab'. rewrite Em. rewrite (ld_set_table (ms_mem s) pt k a b new Hwf Hk2 Hb Hf k a b Hk Hb).
      rewrite decide_True by (split; [done|by apply same_refl]). destruct (pte_set_table new) as [_ ->].
      right. eexists _, s'. split; [done|]. right. split.
      * exists (S k). split; simpl; try done; try lia. eapply found_weaken; [done|]. rewrite El. lia.
      * unfold todo. simpl. rewrite El. lia.
Qed.

(** The outer loop, with fuel for what is left to do. *)
Lemma vpage_search_spec fuel s v k top :
  good s v k -> (Z.to_nat (todo v) < fuel)%nat -> va + 2 * n * PAGE_SIZE <= top + 1 <= 2 ^ 64 -> 0 < va ->
  outcome (vpage_search as_ at_ n top v fuel s) (fun v' s' => found (4 * (3 * n + 2)) s' n /\ va_failed v' = false /\ (0 < n -> va_page v' = va)).
Proof.
  intros Hg Hf Htop Hvp. revert s v k Hg Hf. induction fuel as [|f IH]; intros s v k Hg Hf; [lia|].
  pose proof Hg as [El Hk Hc Ea Hpg Hnf Hfound Htab]. cbn [vpage_search]. fold pt. rewrite Hnf, andb_true_r.
  destruct (Z.ltb_spec (va_count v) n) as [Hlt|].
  2:{ right. exists v, s. split; [done|]. right. assert (va_count v = n) as En by lia. rewrite En in *.
      split; [eapply found_weaken; [done|lia]|]. done. }
  replace (u64 (top + 1 - va_addr v) / PAGE_SIZE <? n) with false.
  2:{ symmetry. apply Z.ltb_ge. rewrite wrap_small by (unfold PAGE_SIZE in *; lia).
      apply Z.div_le_lower_bound; unfold PAGE_SIZE in *; lia. }
  rewrite pm_get_mem. destruct (Htab Hlt) as [b Hb]. pose proof Hfound as (((Hok & _ & _) & _) & _ & _).
  pose proof Hok as [Hwf _ _]. rewrite El, (pt_get_pte_tab _ _ k _ b) by done.
  rewrite (index_of_entry (ms_mem s) pt k _ b Hwf Hk Hb). pose proof (ix_range pt sv0 (va_addr v) k Hk) as Hir.
  destruct (vpage_entries_spec (Z.to_nat (nent pt k - ix pt (va_addr v) k)) s k b (ix pt (va_addr v) k) v)
    as [[E Hr]|(v' & s' & E & Hcase)]; [done|fold pt; lia|intros _; split; [done|split; [done|lia]]| |].
  - left. split; [|done]. by apply pm_fault.
  - fold pt in E. prun E. destruct Hcase as [Hbad|((k' & Hg') & _ & Hlt')].
    + right. exists v', s'. split; [|by left]. destruct Hbad as (Hfl & _). destruct f; cbn [vpage_search]; by rewrite Hfl, andb_false_r.
    + apply (IH s' v' k' Hg'). specialize (Hlt' Hlt). pose proof (g_count _ _ _ Hg'). pose proof (g_lvl _ _ _ Hg').
      pose proof (g_k _ _ _ Hg'). unfold todo in *. lia.
Qed.

(** *** Marking *)
Lemma tab_above m k u b j : tab m pt k u = Some b -> (j < k)%nat ->
  exists b0, tab m pt j u = Some b0 /\ pte_table (ld m (b0 + 8 * ix pt u j)) = true.
Proof.
  revert b. induction k as [|k IH]; intros b Hb Hj; [lia|]. simpl in Hb.
  destruct (tab m pt k u) as [b0|] eqn:E; [|done]. simpl in Hb.
  destruct (decide (j = k)) as [->|]; [|by apply (IH b0); [|lia]].
  exists b0. split; [done|]. by destruct (pte_table _).
Qed.

Lemma first_invalid_spec d s k u b j pte0 :
  as_ok as_ s -> (k < 3)%nat -> tab (ms_mem s) pt k u = Some b ->
  pte_valid (ld (ms_mem s) (b + 8 * ix pt u k)) = false -> (j + d = 3)%nat -> (j <= k)%nat ->
  first_invalid as_ u (Z.of_nat j) pte0 d s = Ok ((Z.of_nat k, b + 8 * ix pt u k), s).
Proof.
  intros Hok Hk Hb Hv. revert j pte0. induction d as [|d IH]; intros j pte0 Hd Hj; [lia|].
  cbn [first_invalid]. fold pt. rewrite pm_get_mem. pose proof Hok as [Hwf _ _].
  destruct (decide (j = k)) as [->|].
  - prun (load_entry as_ s k u b Hok Hk Hb). fold pt. rewrite Hv. cbn [negb]. by rewrite (pt_get_pte_tab _ _ k u b).
  - destruct (tab_above _ k u b j Hb ltac:(lia)) as (b0 & Hb0 & Ht).
    prun (load_entry as_ s j u b0 Hok ltac:(lia) Hb0). fold pt. rewrite (pte_table_valid _ Ht). cbn [negb].
    replace (Z.of_nat j + 1) with (Z.of_nat (S j)) by lia. apply IH; lia.
Qed.

(** Marking an entry as reserved changes no translation and no other mark. *)
Lemma mark_one s k u b :
  as_ok as_ s -> (k < 3)%nat -> tab (ms_mem s) pt k u = Some b ->
  pte_valid (ld (ms_mem s) (b + 8 * ix pt u k)) = false ->
  exists s', (w ← load (b + 8 * ix pt u k); store (b + 8 * ix pt u k) (pte_set_rsw w PTE_RSW_RSRV)) s = Ok (tt, s') /\
    same_map as_ 0 s s' /\ (forall x, leaf (ms_mem s') pt x = leaf (ms_mem s) pt x) /\
    forall x, rsvd (ms_mem s') x = (if decide (same pt (S k) u x) then true else rsvd (ms_mem s) x).
Proof.
  intros Hok Hk Hb Hv. pose proof Hok as [Hwf _ _]. pose proof (w_sv _ _ Hwf) as Hsv.
  set (e := b + 8 * ix pt u k) in *. set (w := ld (ms_mem s) e) in *.
  pose proof (w_base _ _ Hwf k u b Hk Hb). pose proof (ix_range pt Hsv u k Hk).
  assert (pte_table w = false) as Ht by (destruct (pte_table w) eqn:E; [by rewrite pte_table_valid in Hv|done]).
  destruct (pte_rsw_bits w) as (Ev & Et & Er). rewrite Hv in Ev. rewrite Ht in Et.
  pose proof (leaf_at (ms_mem s) pt k u b Hk Hb Ht) as Hl.
  assert (forall x, leaf (st (ms_mem s) e (pte_set_rsw w PTE_RSW_RSRV)) pt x = leaf (ms_mem s) pt x) as Hleaf.
  { intros x. unfold e. rewrite leaf_set_leaf by done. case_decide as Hs; [|done].
    symmetry. by apply (leaf_same _ k u x). }
  exists (mk_mst (ms_pages s) (st (ms_mem s) e (pte_set_rsw w PTE_RSW_RSRV)) (ms_tlb s)). split.
  { unfold load, store, mbind, PM_bind. by replace (e =? 0) with false by (unfold e; lia). }
  split_and!; cbn [ms_mem]; [|done|].
  - split; [by apply set_leaf_ok|]. split; [by apply evolves_leaf|]. intros x. simpl. unfold e.
    rewrite translate_set_leaf by done. case_decide as Hs; [|done].
    unfold out. rewrite Ev. symmetry. apply translate_free; [done|]. by rewrite (leaf_same _ k u x _ Hsv Hl Hs).
  - intros x. unfold MapProofs.rsvd. fold pt. rewrite Hleaf, ld_st. destruct (decide (same pt (S k) u x)) as [Hs|Hs].
    + rewrite (leaf_same _ k u x _ Hsv Hl Hs). simpl snd. by rewrite decide_True.
    + rewrite decide_False; [done|]. intros E. apply Hs. destruct (leaf (ms_mem s) pt x) as [j e'] eqn:Elx.
      destruct (leaf_tab _ j x e' Elx) as (Hj & b' & Hb' & ->). simpl in E. unfold e in E.
      by destruct (entry_inj (ms_mem s) pt k j u x b b') as [_ ?].
Qed.

(** The state after [c] pages have been marked. *)
Record marked (s1 s : mstate A) (c : Z) : Prop := {
  mk_map : same_map as_ 0 s1 s;
  mk_leaf : forall x, leaf (ms_mem s) pt x = leaf (ms_mem s1) pt x;
  mk_rsvd : forall x, rsvd (ms_mem s) x = if decide (in_pages as_ va c x) then true else rsvd (ms_mem s1) x
}.

(** The next page to mark begins a block of its entry, which lies in the range. *)
Lemma marked_block s1 s c k e :
  as_ok as_ s1 -> (forall u, in_pages as_ va n u -> free (ms_mem s1) u = true) -> saturated (ms_mem s1) n ->
  marked s1 s c -> 0 <= c < n -> leaf (ms_mem s) pt (va + c * PAGE_SIZE) = (k, e) -> (k < 3)%nat ->
  (va + c * PAGE_SIZE) mod lsize pt k = 0 /\ lsize pt k / PAGE_SIZE <= n - c.
Proof.
  intros Hok1 Hfree Hsat [_ Hleaf Hrs] Hc Hl Hk. pose proof sv0 as Hsv. set (a := va + c * PAGE_SIZE) in *.
  pose proof (nv_at c Hc) as Hna. fold a in Hna. destruct (in_pages_at c Hc) as [Hin Hnin]. fold a in Hin, Hnin.
  assert (forall u, same pt (S k) a u -> in_pages as_ va n u) as Hblk.
  { intros u Hs. apply (Hsat a); [done|]. by rewrite <- Hleaf, Hl. }
  pose proof (lsize_pos pt Hsv k) as Hlp. pose proof (nv_range pt a Hsv) as Hr.
  destruct (span pt k Hsv Hk) as (x & Hx & Esp). pose proof (nent_pos pt k Hsv Hk).
  assert (nv pt a mod lsize pt k = 0) as Hal.
  { destruct (decide (nv pt a mod lsize pt k = 0)) as [|Hne]; [done|exfalso].
    pose proof (Z.div_mod (nv pt a) (lsize pt k) ltac:(lia)) as Hdm.
    pose proof (Z.mod_pos_bound (nv pt a) (lsize pt k) Hlp). pose proof (Z.div_pos (nv pt a) (lsize pt k)).
    assert (nv pt (nv pt a - 1) = nv pt a - 1) as Eu by (apply Z.mod_small; lia).
    assert (same pt (S k) a (nv pt a - 1)) as Hs.
    { simpl. unfold pre. rewrite Eu. apply (Z.div_unique _ _ _ (nv pt a mod lsize pt k - 1)); lia. }
    pose proof (Hblk _ Hs) as Hu. assert (in_pages as_ va c (nv pt a - 1)) as Huc.
    { unfold in_pages in *. fold pt in Hu |- *. rewrite Eu in *. lia. }
    pose proof (Hrs a) as Ha. rewrite decide_False in Ha by done.
    pose proof (Hrs (nv pt a - 1)) as Hb. rewrite decide_True in Hb by done.
    pose proof (Hfree a Hin) as Hfa. apply free_iff in Hfa as [_ Hfa]; [|apply Hok1].
    unfold MapProofs.rsvd in Ha, Hb, Hfa. fold pt in Ha, Hb, Hfa. rewrite (leaf_same _ k a _ _ Hsv Hl Hs) in Hb. rewrite Hl in Ha. congruence. }
  split; [by rewrite <- nv_mod|].
  assert (nv pt a + lsize pt k <= 2 ^ wdt pt 0) as Htop.
  { pose proof (Z.div_mod (nv pt a) (lsize pt k) ltac:(lia)) as Hdm. set (y := nv pt a / lsize pt k) in *.
    assert (y < nent pt k * x) by (apply (Z.mul_lt_mono_pos_l (lsize pt k)); lia). nia. }
  assert (nv pt (nv pt a + lsize pt k - 1) = nv pt a + lsize pt k - 1) as Eu by (apply Z.mod_small; lia).
  assert (same pt (S k) a (nv pt a + lsize pt k - 1)) as Hs by (apply same_block; [done|done|done|lia]).
  pose proof (Hblk _ Hs) as Hu. destruct (lsize_pages as_ k Hsv Hk) as (q & Hq & El & Eq). fold pt in El, Eq.
  rewrite Eq. unfold in_pages in Hu. fold pt in Hu. rewrite Eu, Hna, El in Hu. unfold PAGE_SIZE in *. lia.
Qed.

Lemma mark_reserved_spec fuel s1 s c :
  as_ok as_ s1 -> (forall u, in_pages as_ va n u -> free (ms_mem s1) u = true) -> saturated (ms_mem s1) n ->
  marked s1 s c -> 0 <= c <= n -> (Z.to_nat (n - c) < fuel)%nat ->
  exists s', mark_reserved as_ n (va + c * PAGE_SIZE) c fuel s = Ok (tt, s') /\ marked s1 s' n.
Proof.
  intros Hok1 Hfree Hsat. revert s c. induction fuel as [|f IH]; intros s c Hm Hc Hf; [lia|].
  cbn [mark_reserved]. destruct (Z.ltb_spec c n) as [Hlt|].
  2:{ exists s. split; [done|]. by assert (c = n) as <- by lia. }
  pose proof sv0 as Hsv. pose proof Hm as [Hmap Hleaf Hrs]. pose proof Hmap as (Hok & _ & Htr).
  set (a := va + c * PAGE_SIZE) in *. destruct (leaf (ms_mem s) pt a) as [k e] eqn:Hl.
  destruct (leaf_tab _ k a e Hl) as (Hk & b & Hb & ->).
  destruct (marked_block s1 s c k _ Hok1 Hfree Hsat Hm ltac:(lia) Hl Hk) as [Hal Hq]. fold a in Hal.
  destruct (in_pages_at c ltac:(lia)) as [Hin _]. fold a in Hin.
  assert (pte_valid (ld (ms_mem s) (b + 8 * ix pt a k)) = false) as Hv.
  { pose proof (Hfree a Hin) as Hfa. apply free_iff in Hfa as [Hfa _]; [|apply Hok1].
    rewrite <- Htr in Hfa. apply translate_free in Hfa; [|apply Hok]. by rewrite Hl in Hfa. }
  destruct (geometry pt Hsv) as (_ & EL3 & _). fold pt. rewrite EL3. change (Z.to_nat 3) with 3%nat.
  prun (first_invalid_spec 3 s k a b 0 0 Hok Hk Hb Hv ltac:(lia) ltac:(lia)).
  destruct (mark_one s k a b Hok Hk Hb Hv) as (s2 & E2 & Hmap2 & Hleaf2 & Hrs2).
  assert (forall K : unit -> PM A unit, (w ← load (b + 8 * ix pt a k); store (b + 8 * ix pt a k) (pte_set_rsw w PTE_RSW_RSRV) ≫= K) s = K tt s2) as Hrun.
  { intros K. revert E2. unfold mbind, PM_bind. destruct (load _ s) as [[w s3]|]; [|done].
    by destruct (store _ _ s3) as [[[] s4]|]; [intros [= ->]|]. }
  rewrite Hrun. replace (3 <=? Z.of_nat k) with false by lia.
  destruct (lsize_pages as_ k Hsv Hk) as (q & Hq0 & El & Eq). fold pt in El, Eq. rewrite Eq in *.
  rewrite wrap_small by (unfold a, PAGE_SIZE in *; lia).
  replace (a + lsize pt k) with (va + (c + q) * PAGE_SIZE) by (unfold a; rewrite El; lia).
  apply IH; [|lia|lia]. split.
  - by apply (same_map_trans as_ 0 0 s1 s).
  - intros x. by rewrite Hleaf2.
  - intros x. rewrite Hrs2, Hrs, <- Eq. pose proof (in_pages_block c k x Hk ltac:(lia) Hal) as Hb'. fold a in Hb'.
    repeat case_decide; tauto.
Qed.
End Search.

(** A range that can be asked for in section [i]. The code wants room for the
    whole range after every part of it, hence the factor 2. *)
Record askable (i : nat) (va n : Z) : Prop := {
  a_aligned : va mod PAGE_SIZE = 0;
  a_pos : 0 < va;
  a_pages : 1 <= n;
  a_fit : nv pt va + n * PAGE_SIZE <= 2 ^ wdt pt 0;
  a_sec : mem_find_sec hyp_secs as_ va = Some i;
  a_room : exists sec, sections hyp_secs (as_type as_) !! i = Some sec /\
    va + 2 * n * PAGE_SIZE <= sec_end sec + 1 <= 2 ^ 64
}.

(** The range is reserved, nothing else has changed. *)
Definition reserved_to (t : Z) (s s' : mstate A) (va n : Z) : Prop :=
  same_map as_ t s s' /\
  forall u, rsvd (ms_mem s') u = if decide (in_pages as_ va n u) then true else rsvd (ms_mem s) u.

Lemma mem_alloc_vpage_spec fuel i va n s :
  pa_plain (as_colors as_) = true -> as_ok as_ s -> askable i va n ->
  (Z.to_nat (3 * n + 2) < fuel)%nat ->
  (mem_alloc_vpage hyp_secs as_ fuel i va n s = Fault (Panic "failed to alloc page table") /\ refused as_ (4 * (3 * n + 2)) (ms_pages s)) \/
  (exists s', mem_alloc_vpage hyp_secs as_ fuel i va n s = Ok (va, s') /\
     (forall u, in_pages as_ va n u -> free (ms_mem s) u = true) /\ reserved_to (4 * (3 * n + 2)) s s' va n) \/
  (exists s', mem_alloc_vpage hyp_secs as_ fuel i va n s = Ok (0, s') /\
     (exists u, in_pages as_ va n u /\ free (ms_mem s) u = false) /\ keeps (4 * (3 * n + 2)) s s').
Proof.
  intros Hplain Hok [Hva Hvp Hn Hfit Hfs (sec & Hsec & Hroom)] Hfuel. unfold mem_alloc_vpage.
  rewrite Hsec, Hfs, bool_decide_true by done. replace (va =? 0) with false by lia. cbn [negb andb].
  rewrite page_base by done.
  assert (good va n s s (mk_vs 0 va 0 0 false) 0) as Hg.
  { split; simpl; try done; try lia.
    split_and!; [by apply keeps_refl|..]; intros u; unfold in_pages; lia. }
  destruct (vpage_search_spec Hplain va va n s ltac:(lia) Hok Hva ltac:(lia) ltac:(unfold PAGE_SIZE in *; lia) Hfit
    fuel s (mk_vs 0 va 0 0 false) 0 (sec_end sec) Hg) as [[E Hr]|(v & s1 & E & Hc)];
    [unfold todo; simpl; lia|done|done| |].
  { left. split; [|done]. by apply pm_fault. }
  right. prun E. destruct Hc as [(Hf & Hp & Hk & Hu)|(Hfound & Hf & Hp)].
  - right. rewrite Hp. simpl. exists s1. done.
  - left. rewrite (Hp ltac:(lia)), Hf. replace (va =? 0) with false by lia. cbn [negb andb].
    destruct Hfound as (Hk & Hfree & Hsat). pose proof Hk as (Hsame & Hrs). pose proof Hsame as (Hok1 & _).
    destruct (mark_reserved_spec va n s Hok ltac:(lia) ltac:(unfold PAGE_SIZE in *; lia) Hfit (S (Z.to_nat n)) s1 s1 0)
      as (s2 & E2 & [Hm2 _ Hrs2]); [done| |done| |lia|lia|].
    + intros u Hu. rewrite (keeps_free _ s s1) by done. by apply Hfree.
    + split; [by apply same_map_refl|done|]. intros x. rewrite decide_False; [done|]. unfold in_pages. lia.
    + rewrite Z.mul_0_l, Z.add_0_r in E2. prun E2. exists s2. split; [done|]. split; [done|].
      split; [|by intros u; rewrite Hrs2, Hrs]. rewrite <- (Z.add_0_r (4 * _)). by eapply same_map_trans.
Qed.
End VPage.

(** C19. Taking a range of virtual pages at an address the caller gives: with
    fuel for three steps a page the search ends, and unless the allocator,
    with at most twelve pages taken for each page and eight more, refuses a table (the code panics), the range is handed out
    exactly when none of its pages is mapped or reserved; its pages are then
    reserved. In both cases every translation and every other reservation of the
    address space stays, and the tables stay well formed. *)
Theorem mem_alloc_vpage_correct {A} `{!PageAlloc A} hyp_secs as_ fuel i va n (s : mstate A) :
  pa_plain (as_colors as_) = true -> as_ok as_ s -> askable hyp_secs as_ i va n ->
  (Z.to_nat (3 * n + 2) < fuel)%nat ->
  (mem_alloc_vpage hyp_secs as_ fuel i va n s = Fault (Panic "failed to alloc page table") /\ refused as_ (4 * (3 * n + 2)) (ms_pages s)) \/
  (exists r s', mem_alloc_vpage hyp_secs as_ fuel i va n s = Ok (r, s') /\ as_ok as_ s' /\
     (forall u, mem_translate (ms_mem s') (as_pt as_) u = mem_translate (ms_mem s) (as_pt as_) u) /\
     ((r = va /\ (forall u, in_pages as_ va n u -> free as_ (ms_mem s) u = true) /\
       forall u, rsvd as_ (ms_mem s') u = if decide (in_pages as_ va n u) then true else rsvd as_ (ms_mem s) u) \/
      (r = 0 /\ (exists u, in_pages as_ va n u /\ free as_ (ms_mem s) u = false) /\
       forall u, rsvd as_ (ms_mem s') u = rsvd as_ (ms_mem s) u))).
Proof.
  intros Hplain Hok Ha Hf.
  destruct (mem_alloc_vpage_spec hyp_secs as_ fuel i va n s Hplain Hok Ha Hf)
    as [?|[(s' & E & Hfree & (Hok' & _ & Ht) & Hr)|(s' & E & Hu & (Hok' & _ & Ht) & Hr)]]; [by left|right..].
  - exists va, s'. split_and!; try done. by left.
  - exists 0, s'. split_and!; try done. by right.
Qed.

#[local] Instance demo_alloc' : PageAlloc (mem * list page_pool) := pools_page_alloc 1 1.

Lemma demo_askable : askable [] demo_as 0 0xC0000000 3.
Proof. split; try reflexivity; try lia. - vm_compute; discriminate. - exists (mk_sec 0 (2 ^ 64 - 1) false). split; [reflexivity|simpl; unfold PAGE_SIZE; lia]. Qed.

Lemma mem_alloc_vpage_correct_witness :
  exists s', mem_alloc_vpage [] demo_as 20 0 0xC0000000 3 demo_ms = Ok (0xC0000000, s') /\
    rsvd demo_as (ms_mem s') 0xC0002000 = true.
Proof.
  destruct (mem_alloc_vpage_correct [] demo_as 20 0 0xC0000000 3 demo_ms) as [[E _]|(r & s' & E & _ & _ & Hc)].
  - reflexivity.
  - apply demo_as_ok.
  - exact demo_askable.
  - lia.
  - exfalso. vm_compute in E. discriminate E.
  - exists s'. assert (r = 0xC0000000) as -> by (vm_compute in E; by injection E as <- _).
    split; [exact E|]. destruct Hc as [(_ & _ & Hr)|(H0 & _)]; [|discriminate H0].
    rewrite Hr, decide_True; [reflexivity|]. vm_compute. split; [discriminate|reflexivity].
Defined.
