(* ===== verification/MapAlloc.v ===== *)
(** * Mapping new pages

    [mem_map] without a block of the caller: every entry gets a block of
    physical pages of its own, as large as the entry if the allocator has one,
    and otherwise the entry is split and smaller blocks are tried. *)

From S2P Require Import Prelude Bit Bitmap PagePool PageTable MemMap MapProofs.

Section MapAlloc.
Context {A : Type} `{!PageAlloc A} (as_ : addr_space) (Hplain : pa_plain (as_colors as_) = true).
Let pt := as_pt as_.

(** The blocks for the entries that a range of [n] pages can fill are aligned to
    their size when alignment is asked for, now and after any allocations. *)
Definition aligned_blocks (n : Z) (a : A) : Prop :=
  forall t a1 k pp a2, takes as_ t a a1 -> (k < 3)%nat -> lsize pt k / PAGE_SIZE <= n ->
    pa_alloc a1 (as_colors as_) (lsize pt k / PAGE_SIZE) true = Some (pp, a2) -> pg_size pp <> 0 ->
    pg_base pp mod lsize pt k = 0.

Definition page_of (p : Z) : Z := p - p mod PAGE_SIZE.

Lemma page_of_aligned p : page_of p mod PAGE_SIZE = 0.
Proof. unfold page_of. rewrite Zminus_mod_idemp_r, Z.sub_diag. done. Qed.

(** The page [p] could be allocated in [s], cannot in [s'], and is in no table. *)
Definition handed_out (s s' : mstate A) (p : Z) : Prop :=
  pa_avail (ms_pages s) p /\ ~ pa_avail (ms_pages s') p /\ fresh (ms_mem s') pt p.

Lemma handed_before t s s1 s2 p : takes as_ t (ms_pages s) (ms_pages s1) -> handed_out s1 s2 p -> handed_out s s2 p.
Proof. intros Ht (Hav & ? & ?). split_and!; try done. by eapply takes_mono. Qed.

(** A page that cannot be allocated and is in no table gets into none. *)
Lemma fresh_later t s s' p :
  pa_inv (ms_pages s) -> is_sv pt -> evolves as_ t s s' -> p mod PAGE_SIZE = 0 -> ~ pa_avail (ms_pages s) p ->
  fresh (ms_mem s) pt p -> fresh (ms_mem s') pt p.
Proof.
  intros Hinv Hsv [_ Htab _] Hp Hn Hf j vb b Hj Hb.
  assert (0 < tsize pt j) by (unfold tsize; pose proof (ix_range pt Hsv vb j Hj); lia).
  destruct (decide (b + tsize pt j <= p)); [by left|]. destruct (decide (p + 4096 <= b)); [by right|exfalso].
  destruct (Htab (Z.max b p)) as [(j' & v' & b' & Hj' & Hb' & Hx)|(q & Hq & Hx)].
  - exists j, vb, b. fold pt. split; [done|]. split; [done|lia].
  - fold pt in Hb', Hx. destruct (Hf j' v' b' Hj' Hb'); lia.
  - pose proof (pa_avail_aligned _ _ Hinv Hq) as Hqa. apply Hn. replace p with q; [done|].
    unfold PAGE_SIZE in *. pose proof (Z.div_mod p 4096). pose proof (Z.div_mod q 4096). lia.
Qed.

Lemma handed_after t s s1 s2 p :
  as_ok as_ s1 -> evolves as_ t s1 s2 -> p mod PAGE_SIZE = 0 -> handed_out s s1 p -> handed_out s s2 p.
Proof.
  intros [Hwf Hinv _] Hev Hp (Hav & Hn & Hf). split_and!; [done| |].
  - intros H. apply Hn. eapply takes_mono; [apply Hev|done].
  - eapply fresh_later; [done|apply Hwf|done..].
Qed.

(** The [c] pages from [v] on are mapped to pages that were available and are
    not any more, no two to the same; all else is as before, and at most [t]
    pages were taken. *)
Record owned_map (t : Z) (s s' : mstate A) (v c : Z) : Prop := {
  o_ok : as_ok as_ s';
  o_evolves : evolves as_ t s s';
  o_out : forall u, ~ in_pages as_ v c u -> mem_translate (ms_mem s') pt u = mem_translate (ms_mem s) pt u;
  o_in : forall u, in_pages as_ v c u -> exists p, mem_translate (ms_mem s') pt u = Some p /\
    p mod PAGE_SIZE = u mod PAGE_SIZE /\ handed_out s s' (page_of p);
  o_quiet : quiet as_ (ms_mem s) (ms_mem s');
  o_inj : forall u u' p p', in_pages as_ v c u -> in_pages as_ v c u' ->
    mem_translate (ms_mem s') pt u = Some p -> mem_translate (ms_mem s') pt u' = Some p' ->
    page_of p = page_of p' -> nv pt u / PAGE_SIZE = nv pt u' / PAGE_SIZE
}.

Lemma owned_nil s v : as_ok as_ s -> owned_map 0 s s v 0.
Proof. intros Hok. split; try done; [by apply evolves_same; [apply takes_refl|]|..]; intros u; unfold in_pages; lia || done. Qed.

Lemma owned_weaken t1 t2 s s' v c : owned_map t1 s s' v c -> t1 <= t2 -> owned_map t2 s s' v c.
Proof. intros [O1 O2 O3 O4 OQ O5] H. split; try done. by eapply evolves_weaken. Qed.

Lemma owned_same t1 t2 s s1 s2 v c :
  same_map as_ t1 s s1 -> quiet as_ (ms_mem s) (ms_mem s1) -> owned_map t2 s1 s2 v c -> owned_map (t1 + t2) s s2 v c.
Proof.
  intros (_ & R & T) Q [O1 O2 O3 O4 OQ O5]. split; try done.
  - by eapply evolves_trans.
  - intros u Hu. by rewrite O3, T.
  - intros u Hu. destruct (O4 u Hu) as (p & ? & ? & Hh). exists p. split_and!; try done. eapply handed_before; [apply R|done].
  - by eapply quiet_trans.
Qed.

Lemma owned_app t1 t2 s s1 s2 v c d :
  0 <= c -> 0 <= d -> (d = 0 \/ nv pt (v + c * PAGE_SIZE) = nv pt v + c * PAGE_SIZE) ->
  owned_map t1 s s1 v c -> owned_map t2 s1 s2 (v + c * PAGE_SIZE) d -> owned_map (t1 + t2) s s2 v (c + d).
Proof.
  intros Hc Hd Hnv [O1 O2 O3 O4 OQ O5] [P1 P2 P3 P4 PQ P5].
  assert (forall u, in_pages as_ v (c + d) u <-> in_pages as_ v c u \/ in_pages as_ (v + c * PAGE_SIZE) d u) as Hin.
  { clear -Hc Hd Hnv. intros u. unfold in_pages, PAGE_SIZE in *. fold pt. destruct Hnv as [->|Hnv]; [lia|]. rewrite Hnv. lia. }
  assert (forall u, in_pages as_ v c u -> ~ in_pages as_ (v + c * PAGE_SIZE) d u) as Hdis.
  { clear -Hc Hd Hnv. intros u. unfold in_pages, PAGE_SIZE in *. fold pt. destruct Hnv as [->|Hnv]; [lia|]. rewrite Hnv. lia. }
  assert (forall u, in_pages as_ v c u -> mem_translate (ms_mem s2) pt u = mem_translate (ms_mem s1) pt u) as Hold.
  { intros u Hu. apply P3. by apply Hdis. }
  (* a page of the first part was taken before the second part was mapped *)
  assert (forall u u' p p', in_pages as_ v c u -> in_pages as_ (v + c * PAGE_SIZE) d u' ->
    mem_translate (ms_mem s2) pt u = Some p -> mem_translate (ms_mem s2) pt u' = Some p' -> page_of p <> page_of p') as Hcross.
  { intros u u' p p' Hu Hu' Ep Ep' E. rewrite Hold in Ep by done. destruct (O4 u Hu) as (q & Eq & _ & _ & Hn & _).
    destruct (P4 u' Hu') as (q' & Eq' & _ & Hav & _). rewrite Ep in Eq. rewrite Ep' in Eq'. simplify_eq.
    apply Hn. by rewrite E. }
  split; [done|by eapply evolves_trans|..|by eapply quiet_trans|].
  - intros u Hu. rewrite Hin in Hu. rewrite P3, O3 by tauto. done.
  - intros u [Hu|Hu]%Hin.
    + rewrite Hold by done. destruct (O4 u Hu) as (p & E & ? & Hh). exists p. split_and!; try done.
      by eapply handed_after; [..|apply page_of_aligned|done].
    + destruct (P4 u Hu) as (p & E & ? & Hh). exists p. split_and!; try done. eapply handed_before; [apply O2|done].
  - intros u u' p p' [Hu|Hu]%Hin [Hu'|Hu']%Hin Ep Ep' E.
    + rewrite Hold in Ep, Ep' by done. by eapply O5.
    + exfalso. by eapply (Hcross u u').
    + exfalso. by eapply (Hcross u' u).
    + by eapply P5.
Qed.

(** An entry mapped to a block just allocated. *)
Lemma owned_block t1 t2 s s1 s2 v q pb :
  1 <= q -> pb mod PAGE_SIZE = 0 -> v mod PAGE_SIZE = 0 ->
  takes as_ t1 (ms_pages s) (ms_pages s1) -> ms_mem s1 = ms_mem s ->
  (forall j, 0 <= j < q -> pa_avail (ms_pages s) (pb + j * PAGE_SIZE) /\ ~ pa_avail (ms_pages s1) (pb + j * PAGE_SIZE)) ->
  as_ok as_ s -> as_ok as_ s1 -> mapped_to as_ t2 s1 s2 v pb q -> owned_map (t1 + t2) s s2 v q.
Proof.
  intros Hq Hpb Hv Hst Em Hav Hok0 Hok1 (Hok & R & T & Q). fold pt in T. rewrite Em in T, Q.
  pose proof (w_sv _ _ (ok_wf _ _ Hok0)) as Hsv. destruct (geometry pt Hsv) as (_ & _ & _ & _ & _ & E2 & _).
  assert (nv pt v mod PAGE_SIZE = 0) as Hnv by (rewrite <- Hv; unfold PAGE_SIZE; rewrite <- E2; by apply nv_mod; [|lia]).
  assert (forall u, in_pages as_ v q u -> exists j, 0 <= j < q /\ page_of (pb + (nv pt u - nv pt v)) = pb + j * PAGE_SIZE /\
    nv pt u / PAGE_SIZE = nv pt v / PAGE_SIZE + j /\ (pb + (nv pt u - nv pt v)) mod PAGE_SIZE = u mod PAGE_SIZE) as Hj.
  { intros u Hu. unfold in_pages in Hu. fold pt in Hu.
    assert (nv pt u mod PAGE_SIZE = u mod PAGE_SIZE) as Hmu by (unfold PAGE_SIZE; rewrite <- E2; by apply nv_mod; [|lia]).
    exists (nv pt u / PAGE_SIZE - nv pt v / PAGE_SIZE). unfold page_of, PAGE_SIZE in *.
    assert ((pb + (nv pt u - nv pt v)) mod 4096 = nv pt u mod 4096) as Em'.
    { pose proof (Z.div_mod pb 4096). pose proof (Z.div_mod (nv pt v) 4096).
      replace (pb + (nv pt u - nv pt v)) with (nv pt u + (pb / 4096 - nv pt v / 4096) * 4096) by lia. apply Z_mod_plus_full. }
    rewrite Em'. pose proof (Z.div_mod (nv pt u) 4096). pose proof (Z.div_mod (nv pt v) 4096).
    pose proof (Z.mod_pos_bound (nv pt u) 4096). split_and!; lia. }
  split; [done|eapply evolves_trans; [by apply evolves_same|done]|..|done|].
  - intros u Hu. rewrite T. by rewrite decide_False.
  - intros u Hu. destruct (Hj u Hu) as (j & Hjr & Ej & _ & Emod). exists (pb + (nv pt u - nv pt v)).
    rewrite T, decide_True by done. rewrite Ej. split_and!; try done.
    destruct (Hav j Hjr) as [Ha Hn]. eapply handed_after; [exact Hok1|exact R|unfold PAGE_SIZE in *; by rewrite Z_mod_plus_full|].
    split_and!; [done|done|]. rewrite Em. by apply (ok_owned _ _ Hok0).
  - intros u u' p p' Hu Hu'. rewrite !T, !decide_True by done. intros [= <-] [= <-].
    destruct (Hj u Hu) as (j & Hjr & -> & -> & _), (Hj u' Hu') as (j' & Hjr' & -> & -> & _). unfold PAGE_SIZE. lia.
Qed.
Lemma aligned_later n t a a' : aligned_blocks n a -> takes as_ t a a' -> aligned_blocks n a'.
Proof. intros H Ht t' a1 k pp a2 Ht'. apply (H (t + t')). by eapply takes_trans. Qed.

(** *** One table's entries *)

(** The block for an entry was refused: a table of smaller entries instead. *)
Lemma refine_entry {B} s k va b (r : B) :
  as_ok as_ s -> (k < 2)%nat -> tab (ms_mem s) pt k va = Some b -> mem_translate (ms_mem s) pt va = None ->
  refused as_ 0 (ms_pages s) \/
  exists s', (m ← get_mem; let pte := pt_get_pte m pt (Z.of_nat k) va in
      w ← load pte; (if negb (pte_valid w) then mem_alloc_pt as_ pte (Z.of_nat k) va;; mret tt else mret tt);; mret r) s
      = Ok (r, s') /\
    same_map as_ 4 s s' /\ is_Some (tab (ms_mem s') pt (S k) va) /\ quiet as_ (ms_mem s) (ms_mem s').
Proof.
  intros Hok Hk Hb Htr. pose proof Hok as [Hwf _ _]. rewrite pm_get_mem. cbv zeta.
  pose proof (load_entry as_ s k va b Hok ltac:(lia) Hb) as El. fold pt in El. prun El. clear El.
  rewrite (pt_get_pte_tab _ _ k va b) by (done || lia). set (w := ld _ _).
  destruct (pte_valid w) eqn:Ev; cbn [negb].
  - right. exists s. split; [done|]. split; [by eapply same_map_weaken; [apply same_map_refl|]|]. split; [|by intros u].
    simpl. rewrite Hb. simpl. fold w. destruct (pte_table w) eqn:Et; [by eexists|].
    rewrite (translate_at _ _ k va b) in Htr by (done || lia). unfold out in Htr. fold w in Htr. by rewrite Ev in Htr.
  - destruct (mem_alloc_pt_spec as_ Hplain s k va b Hok Hk Hb)
      as [(s' & E & _ & _ & _ & Hr)|(new & s' & E & Hr & Hal & Hf & Hav & Hok' & Hst & _ & Em)]; [by left|right].
    destruct (alloc_pt_same as_ s s' k va b new) as (Hs & Ht & Hq); try done. fold pt in E, Ht.
    exists s'. split; [|split_and!; [done|by eexists|done]].
    rewrite (pm_bind _ _ s tt s') by (by prun E). done.
Qed.

Section New.
Context (n flags : Z) (Hflags : page_flags flags).

(** What the loop over the entries of one table does: it maps at least one
    entry, or leaves a table below the first. *)
Lemma map_new_entries d s k b entry vaddr paddr count :
  (k < 3)%nat -> as_ok as_ s -> aligned_blocks n (ms_pages s) -> Z.of_nat d = nent pt k - entry -> 0 <= count <= n ->
  room as_ vaddr 0 (n - count) -> vaddr mod lsize pt k = 0 ->
  (forall u, in_pages as_ vaddr (n - count) u -> mem_translate (ms_mem s) pt u = None) ->
  (entry < nent pt k -> tab (ms_mem s) pt k vaddr = Some b /\ ix pt vaddr k = entry) ->
  refused as_ (n - count) (ms_pages s) \/
  exists c p' s', map_entries as_ false n flags (Z.of_nat k) (b + 8 * entry) entry vaddr paddr count d s
      = Ok ((vaddr + c * PAGE_SIZE, p', count + c), s') /\
    0 <= c <= n - count /\ owned_map (c + 4) s s' vaddr c /\
    (entry < nent pt k -> 0 < n - count -> lsize pt k / PAGE_SIZE <= n - count ->
       0 < c \/ (k < 2)%nat /\ is_Some (tab (ms_mem s') pt (S k) vaddr)).
Proof.
  intros Hk. revert s entry vaddr paddr count. induction d as [|d IH]; intros s entry vaddr paddr count Hok Hal Hd Hc Hroom Hva Hun Hent;
    cbn [map_entries]; fold pt.
  { replace (entry <? nent pt k) with false by lia. simpl. right. exists 0, paddr, s.
    rewrite Z.mul_0_l, !Z.add_0_r. split_and!; try done; try lia. by eapply owned_weaken; [apply owned_nil|]. }
  destruct (Hent ltac:(lia)) as [Hb Hix]. clear Hent.
  destruct (_ && _ && _) eqn:Eg.
  2:{ right. exists 0, paddr, s. rewrite Z.mul_0_l, !Z.add_0_r. split_and!; try done; try lia.
      by eapply owned_weaken; [apply owned_nil|]. }
  pose proof Hok as [Hwf Hinv Hown]. pose proof (w_sv _ _ Hwf) as Hsv.
  destruct (geometry pt Hsv) as (_ & EL & _ & _ & _ & E2 & _). rewrite EL.
  destruct (lsize_pages as_ k Hsv Hk) as (q & Hq & El & Eq). fold pt in El, Eq.
  destruct Hroom as (_ & Hp1 & Hv0 & Hv1 & Hnv). fold pt in Hnv. rewrite Eq in *.
  assert (q <= n - count) as Hle by lia.
  destruct (pa_alloc_ok (ms_pages s) (as_colors as_) q true Hinv Hplain ltac:(lia)) as (pp & a' & Ea & Hinv' & Hmono & Hr).
  set (s1 := mk_mst a' (ms_mem s) (ms_tlb s)).
  assert (alloc_pages (as_colors as_) q true s = Ok (pp, s1)) as Eal by (unfold alloc_pages; by rewrite Ea).
  assert (as_ok as_ s1) as Hok1 by (split; [done|done|]; intros p Hp; by apply Hown, Hmono).
  prun Eal. destruct Hr as [E0|(En & Hb0 & Htop & Hbal & Hav)].
  - (* refused *)
    rewrite E0. replace (0 <? q) with true by lia.
    assert (takes as_ 0 (ms_pages s) a') as Ht0.
    { eapply takes_step; [|exact Ea|lia|done|]; [lia|]. apply takes_refl. lia. }
    destruct (decide (k = 2)%nat) as [->|].
    { left. rewrite E2 in El. exists (ms_pages s), q, true, pp, a'. split; [apply takes_refl; lia|].
      unfold PAGE_SIZE in El. split; [lia|done]. }
    replace (Z.of_nat k =? 3 - 1) with false by lia.
    destruct (refine_entry s1 k vaddr b (vaddr, paddr, count) Hok1 ltac:(lia) Hb) as [Hr|(s2 & E & Hs & Ht & Hqt)].
    { apply Hun. unfold in_pages, PAGE_SIZE. lia. }
    { left. eapply refused_later; [exact Ht0|done|lia]. }
    right. exists 0, paddr, s2. rewrite Z.mul_0_l, !Z.add_0_r. split; [exact E|].
    split_and!; try lia; [|intros; right; split; [lia|done]].
    rewrite <- (Z.add_0_r (0 + 4)). eapply owned_same; [|exact Hqt|apply owned_nil, Hs].
    destruct Hs as (O & R & T). split; [done|]. split; [|done].
    eapply evolves_trans; [|exact R]. by apply evolves_same.
  - (* granted *)
    rewrite En. replace (q <? q) with false by lia.
    assert (takes as_ q (ms_pages s) a') as Htq.
    { eapply takes_step; [|exact Ea|lia|done|]; [lia|]. apply takes_refl. lia. }
    assert (pg_base pp mod lsize pt k = 0) as Hba.
    { apply (Hal 0 (ms_pages s) k pp a'); [by apply takes_refl|done|by rewrite Eq; lia|by rewrite Eq|lia]. }
    rewrite <- Hix. destruct (map_one as_ s1 k vaddr b (pg_base pp) flags) as (s2 & Es2 & Hm2 & Ht2);
      [done|done|done|done|unfold PAGE_SIZE in *; lia|done|done|]. fold pt in Es2, Hm2, Ht2.
    prun Es2. rewrite Eq in *. rewrite (wrap_small 64 (vaddr + _)) by (unfold PAGE_SIZE in *; lia).
    assert (owned_map q s s2 vaddr q) as Ho.
    { rewrite <- (Z.add_0_r q) at 1. apply (owned_block q 0 s s1 s2 vaddr q (pg_base pp)); try done; [lia|].
      rewrite El in Hva. unfold PAGE_SIZE in *. apply Z.mod_divide; [lia|]. apply Z.mod_divide in Hva as [z Hz]; [|lia].
      exists (z * q). lia. }
    pose proof (o_ok _ _ _ _ _ Ho) as Hok2.
    replace (b + 8 * ix pt vaddr k + 8) with (b + 8 * (ix pt vaddr k + 1)) by lia.
    assert (q < n - count -> nv pt (vaddr + lsize pt k) = nv pt vaddr + lsize pt k) as Hnx.
    { intros ?. rewrite El. apply nv_add; unfold PAGE_SIZE in *; done || lia. }
    destruct (IH s2 (ix pt vaddr k + 1) (vaddr + lsize pt k) (u64 (pg_base pp + lsize pt k)) (count + q))
      as [Hr|(c & p' & s3 & E3 & Hc3 & Ho3 & _)].
    + done.
    + eapply aligned_later; [done|apply Ho].
    + lia.
    + lia.
    + unfold room. fold pt. split_and!; try (unfold PAGE_SIZE in *; lia).
      destruct (decide (q < n - count)); [rewrite Hnx by done; lia|].
      pose proof (nv_range pt (vaddr + lsize pt k) Hsv). unfold PAGE_SIZE in *. lia.
    + pose proof (lsize_pos pt Hsv k). rewrite <- Z.add_mod_idemp_l, Hva, Z.add_0_l by lia. apply Z_mod_same_full.
    + intros u Hu. unfold in_pages in Hu. fold pt in Hu.
      destruct (decide (q < n - count)) as [Hlt|]; [rewrite Hnx in Hu by done|unfold PAGE_SIZE in *; lia].
      rewrite (o_out _ _ _ _ _ Ho); [apply Hun|]; unfold in_pages; fold pt; unfold PAGE_SIZE in *; lia.
    + intros Hlt. destruct (next_entry pt k vaddr Hsv Hk Hva Hlt) as (_ & Hs & ->). split; [|done].
      rewrite Ht2. by rewrite <- (tab_same _ _ k _ _ Hsv ltac:(lia) Hs).
    + left. eapply refused_later; [apply Ho|exact Hr|lia].
    + right. exists (q + c), p', s3. rewrite E3, El. split_and!; [|lia|lia| |by left; lia].
      { replace (vaddr + q * PAGE_SIZE + c * PAGE_SIZE) with (vaddr + (q + c) * PAGE_SIZE) by lia.
        by replace (count + q + c) with (count + (q + c)) by lia. }
      rewrite El in Ho3, Hnx. replace (q + c + 4) with (q + (c + 4)) by lia. eapply owned_app; [lia|lia| |done|done].
      destruct (decide (c = 0)); [by left|right]. apply Hnx. lia.
Qed.
(** *** The outer loop *)

(** A pass maps at least one page, or adds a table to the walk of the next page,
    which has [e] tables below the root. *)
Lemma map_new_loop fuel s e vaddr paddr count :
  as_ok as_ s -> aligned_blocks n (ms_pages s) -> (e < 3)%nat -> is_Some (tab (ms_mem s) pt e vaddr) ->
  (count < n \/ e = 0%nat) -> 3 * (n - count) < Z.of_nat (fuel + e) ->
  0 <= count <= n -> room as_ vaddr 0 (n - count) -> vaddr mod 4096 = 0 ->
  (forall u, in_pages as_ vaddr (n - count) u -> mem_translate (ms_mem s) pt u = None) ->
  let t := 37 * (n - count) - 12 * Z.of_nat e in
  refused as_ t (ms_pages s) \/
  exists s', map_loop as_ false n flags vaddr paddr count fuel s = Ok (tt, s') /\ owned_map t s s' vaddr (n - count).
Proof.
  revert s e vaddr paddr count. induction fuel as [|f IH];
    intros s e vaddr paddr count Hok Hal He Hte Hce Hf Hc Hroom Hva Hun t; subst t; cbn [map_loop];
    (destruct (Z.ltb_spec count n) as [Hlt|]; [|right; exists s; split; [done|];
      assert (n - count = 0) as -> by lia; assert (e = 0)%nat as -> by lia; by apply owned_nil]); [lia|].
  pose proof Hok as [Hwf _ _]. pose proof (w_sv _ _ Hwf) as Hsv.
  destruct (geometry pt Hsv) as (_ & EL & _). fold pt. rewrite EL.
  destruct (map_level_spec as_ Hplain 3 s 0 (n - count) vaddr 0 0 (pt_root pt))
    as [[E Hr]|(k & b & s1 & E & Hk & Hb & Hl & Hv1 & _ & Hsame & Hq1 & Hdeep)]; try done; try lia.
  { apply Hun. unfold in_pages, PAGE_SIZE. lia. }
  { left. eapply refused_weaken; [done|]. lia. }
  fold pt in E, Hb, Hl, Hv1, Hdeep. prun E. pose proof Hsame as (Hok1 & Htk1 & Ht1). pose proof Hok1 as [Hwf1 _ _].
  replace (3 <=? Z.of_nat k) with false by lia. rewrite (index_of_entry _ pt _ _ _ Hwf1 Hk Hb).
  pose proof (ix_range pt Hsv vaddr k Hk). pose proof (Hdeep e He Hte) as Hek.
  destruct (map_new_entries (Z.to_nat (nent pt k - ix pt vaddr k)) s1 k b (ix pt vaddr k) vaddr paddr count)
    as [Hr|(c & p' & s2 & E2 & Hc2 & Ho2 & Hpos)]; try done; try lia.
  { eapply aligned_later; [done|apply Htk1]. }
  { intros u Hu. rewrite Ht1. by apply Hun. }
  { left. eapply refused_later; [apply Htk1|done|]. lia. }
  prun E2. clear E E2. pose proof (owned_same _ _ _ _ _ _ _ Hsame Hq1 Ho2) as Ho. pose proof (o_ok _ _ _ _ _ Ho) as Hok2.
  destruct Hroom as (_ & Hp1 & Hv0 & Hv2 & Hnv). fold pt in Hnv.
  destruct (lsize_pages as_ k Hsv Hk) as (q & Hq & El & Eq). fold pt in El, Eq.
  assert (c < n - count -> nv pt (vaddr + c * PAGE_SIZE) = nv pt vaddr + c * PAGE_SIZE) as Hnx.
  { intros ?. apply nv_add; [done|unfold PAGE_SIZE; lia|unfold PAGE_SIZE in *; lia]. }
  assert (exists e', (e' < 3)%nat /\ is_Some (tab (ms_mem s2) pt e' (vaddr + c * PAGE_SIZE)) /\
    (count + c < n \/ e' = 0%nat) /\ 3 * c + Z.of_nat e' >= Z.of_nat e + 1 /\ (0 < c -> e' = 0%nat)) as (e' & He' & Hte' & Hce' & Hdec & Hz).
  { destruct (Hpos ltac:(lia) ltac:(lia) ltac:(unfold PAGE_SIZE in *; lia)) as [Hc0|[Hk2 Htk]].
    - exists 0%nat. split_and!; [lia|by eexists|by right|lia|done].
    - destruct (decide (0 < c)); [exists 0%nat; split_and!; [lia|by eexists|by right|lia|done]|].
      exists (S k). replace c with 0 in * by lia. rewrite Z.mul_0_l, Z.add_0_r. split_and!; [lia|done|lia|lia|lia]. }
  clear Hpos. destruct (IH s2 e' (vaddr + c * PAGE_SIZE) p' (count + c)) as [Hr|(s3 & E3 & Ho3)]; try done; try lia.
  - eapply aligned_later; [exact Hal|apply Ho].
  - unfold room. fold pt. split_and!; try (unfold PAGE_SIZE in *; lia).
    destruct (decide (c < n - count)); [rewrite Hnx by done; unfold PAGE_SIZE in *; lia|].
    pose proof (nv_range pt (vaddr + c * PAGE_SIZE) Hsv). unfold PAGE_SIZE in *. lia.
  - unfold PAGE_SIZE. by rewrite Z_mod_plus_full.
  - intros u Hu. unfold in_pages in Hu. fold pt in Hu.
    destruct (decide (c < n - count)) as [Hlt'|]; [rewrite Hnx in Hu by done|unfold PAGE_SIZE in *; lia].
    rewrite (o_out _ _ _ _ _ Ho); [apply Hun|]; unfold in_pages; fold pt; unfold PAGE_SIZE in *; lia.
  - left. eapply refused_later; [apply Ho|exact Hr|]. lia.
  - right. exists s3. split; [done|].
    eapply owned_weaken; [|instantiate (1 := 4 * (2 - Z.of_nat 0) + (c + 4) + (37 * (n - (count + c)) - 12 * Z.of_nat e')); lia].
    replace (n - count) with (c + (n - (count + c))) by lia.
    eapply owned_app; [lia|lia| |done|done]. destruct (decide (c < n - count)); [right; by apply Hnx|left; lia].
Qed.
End New.
End MapAlloc.

(** ** The page pools *)

(** Each pool begins at a multiple of the blocks that [n] pages can hold. *)
Definition aligned_pools (pt : page_table) (n : Z) (pools : list page_pool) : Prop :=
  forall p k, p ∈ pools -> (k < 3)%nat -> lsize pt k / PAGE_SIZE <= n ->
    (pp_base p / PAGE_SIZE) mod (lsize pt k / PAGE_SIZE) = 0.

Lemma pools_alloc_shape CN CS a colors n al pp a' :
  pools_inv a -> all_clrs CN colors = true -> 1 <= n -> pools_alloc CN CS a colors n al = Some (pp, a') ->
  (forall p', p' ∈ snd a' -> exists p, p ∈ snd a /\ pp_base p' = pp_base p) /\
  (pg_size pp <> 0 -> al = true -> (forall p, p ∈ snd a -> (pp_base p / PAGE_SIZE) mod n = 0) ->
     (pg_base pp / PAGE_SIZE) mod n = 0).
Proof.
  destruct a as [m pools]. intros [Hwf _ _] Hc Hn Ha. unfold pools_alloc, mem_alloc_ppages in Ha. simpl in *.
  destruct (alloc_from_pools_spec CN CS m pools colors n al (mk_ppages 0 0 0))
    as (pp1 & pools' & m' & Ea & Hr); [done|done|by rewrite Hc|done|].
  rewrite Ea in Ha. simpl in Ha. simplify_eq. simpl.
  destruct Hr as [(E0 & -> & ->)|(l1 & p & l2 & p' & bit & -> & -> & [_ Eb _ _ _ _ Ep] & Hres)].
  - split; [eauto|done].
  - split.
    + intros q Hq. apply elem_of_app in Hq as [Hq|[->|Hq]%elem_of_cons].
      * exists q. split; [apply elem_of_app; by left|done].
      * exists p. split; [apply elem_of_app; right; by left|by subst p'].
      * exists q. split; [apply elem_of_app; right; by right|done].
    + intros _ -> Hal. rewrite Eb. unfold PAGE_SIZE in *. rewrite Z.div_add by lia.
      apply aligned_residue; [done|by apply Hres|]. apply Hal. apply elem_of_app. right. by left.
Qed.

Section PoolsAligned.
Context (CN CS : Z) (as_ : addr_space) (Hsv : is_sv (as_pt as_)) (Hplain : all_clrs CN (as_colors as_) = true).
#[local] Instance pools_instance : PageAlloc (mem * list page_pool) := pools_page_alloc CN CS.

Lemma takes_pools n t a a' :
  takes as_ t a a' -> pools_inv a -> aligned_pools (as_pt as_) n (snd a) ->
  pools_inv a' /\ aligned_pools (as_pt as_) n (snd a').
Proof.
  induction 1 as [|t a q al pp a1 a' Hq Ea _ _ _ IH]; [done|]. intros Hinv Hal.
  destruct (pools_alloc_ok CN CS a (as_colors as_) q al Hinv Hplain Hq) as (pp' & a2 & Ea' & Hinv2 & _).
  simpl in Ea. rewrite Ea in Ea'. simplify_eq. apply IH; [done|].
  destruct (pools_alloc_shape CN CS a (as_colors as_) q al pp' a2 Hinv Hplain Hq Ea) as [Hsh _].
  intros p' k Hp Hk Hn. destruct (Hsh p' Hp) as (p & Hp0 & ->). by apply Hal.
Qed.

Lemma pools_aligned_blocks n a :
  pools_inv a -> aligned_pools (as_pt as_) n (snd a) -> aligned_blocks as_ n a.
Proof.
  intros Hinv Hal t a1 k pp a2 Ht Hk Hn Ea Hne. destruct (takes_pools n t a a1 Ht Hinv Hal) as [Hinv1 Hal1].
  destruct (lsize_pages as_ k Hsv Hk) as (q & Hq & El & Eq). rewrite Eq in *.
  destruct (pools_alloc_shape CN CS a1 (as_colors as_) q true pp a2 Hinv1 Hplain ltac:(lia) Ea) as [_ Hb].
  destruct (pools_alloc_ok CN CS a1 (as_colors as_) q true Hinv1 Hplain ltac:(lia)) as (pp2 & a3 & Ea' & _ & _ & Hg).
  simpl in Ea. rewrite Ea in Ea'. injection Ea' as <- <-. destruct Hg as [?|(_ & _ & _ & Hpal & _)]; [done|].
  assert ((pg_base pp / PAGE_SIZE) mod q = 0) as Hm.
  { apply Hb; [done|done|]. intros p Hp. rewrite <- Eq. apply Hal1; [done|done|by rewrite Eq]. }
  rewrite El. apply Z.mod_divide; [unfold PAGE_SIZE; lia|]. apply Z.mod_divide in Hm as [z Hz]; [|lia].
  exists z. pose proof (Z.div_mod (pg_base pp) PAGE_SIZE). unfold PAGE_SIZE in *. lia.
Qed.
End PoolsAligned.

Lemma mem_map_new {A} `{!PageAlloc A} CN CS hyp_secs cpu_as as_ (s : mstate A) va n flags sec :
  pa_plain (as_colors as_) = true -> as_ok as_ s -> aligned_blocks as_ n (ms_pages s) -> page_flags flags ->
  all_clrs CN (as_colors as_) = true -> 1 <= n -> va mod PAGE_SIZE = 0 -> room as_ va 0 n ->
  mem_find_sec hyp_secs as_ va = Some sec ->
  mem_find_sec hyp_secs as_ (va + n * PAGE_SIZE - 1) = Some sec ->
  (forall u, in_pages as_ va n u -> mem_translate (ms_mem s) (as_pt as_) u = None) ->
  refused as_ (37 * n) (ms_pages s) \/
  exists s', mem_map CN CS hyp_secs cpu_as as_ va None n flags s = Ok (0, s') /\ owned_map as_ (37 * n) s s' va n.
Proof.
  intros Hplain Hok Hal Hf Hc Hn Hva Hroom Hs1 Hs2 Hun. unfold mem_map. rewrite page_base by done.
  rewrite Hs1, wrap_small by (destruct Hroom as (_ & _ & ? & ? & _); unfold PAGE_SIZE in *; lia).
  rewrite bool_decide_true by done. cbn [negb]. rewrite Hc. cbn [negb].
  rewrite (pm_bind _ _ s None s) by done. cbv beta iota.
  destruct (map_new_loop as_ Hplain n flags Hf (map_fuel n) s 0 va 0 0) as [Hr|(s' & E & Ho)];
    try done; try lia; try (by rewrite ?Z.sub_0_r).
  - unfold map_fuel. lia.
  - left. by rewrite !Z.sub_0_r in Hr.
  - right. rewrite !Z.sub_0_r in *. exists s'. split; [by prun E|done].
Qed.

(** ** The property *)

(** C17. Mapping [n] new pages at an unmapped, uncoloured range: unless the
    allocator, with at most 37 pages taken for each page to map, refuses a page
    or a table, the call returns 0 and every page of the range is backed by a
    page of its own that was free before, is taken now and lies in no table, at
    the same offset; every other address translates as before, and no page of the tables can be
    allocated. The blocks the allocator returns for entries must be aligned, as
    those of pools with aligned bases are. *)
Theorem mem_map_alloc_correct {A} `{!PageAlloc A} CN CS hyp_secs cpu_as as_ (s : mstate A) va n flags sec :
  pa_plain (as_colors as_) = true -> as_ok as_ s -> aligned_blocks as_ n (ms_pages s) -> page_flags flags ->
  all_clrs CN (as_colors as_) = true -> 1 <= n -> va mod PAGE_SIZE = 0 -> room as_ va 0 n ->
  mem_find_sec hyp_secs as_ va = Some sec ->
  mem_find_sec hyp_secs as_ (va + n * PAGE_SIZE - 1) = Some sec ->
  (forall u, in_pages as_ va n u -> mem_translate (ms_mem s) (as_pt as_) u = None) ->
  refused as_ (37 * n) (ms_pages s) \/
  exists s', mem_map CN CS hyp_secs cpu_as as_ va None n flags s = Ok (0, s') /\ as_ok as_ s' /\
    (forall u, ~ in_pages as_ va n u -> mem_translate (ms_mem s') (as_pt as_) u = mem_translate (ms_mem s) (as_pt as_) u) /\
    (forall u, in_pages as_ va n u -> exists p, mem_translate (ms_mem s') (as_pt as_) u = Some p /\
       p mod PAGE_SIZE = u mod PAGE_SIZE /\ handed_out as_ s s' (page_of p)) /\
    (forall u u' p p', in_pages as_ va n u -> in_pages as_ va n u' ->
       mem_translate (ms_mem s') (as_pt as_) u = Some p -> mem_translate (ms_mem s') (as_pt as_) u' = Some p' ->
       page_of p = page_of p' -> nv (as_pt as_) u / PAGE_SIZE = nv (as_pt as_) u' / PAGE_SIZE).
Proof.
  intros Hplain Hok Hal Hf Hc Hn Hva Hroom Hs1 Hs2 Hun.
  destruct (mem_map_new CN CS hyp_secs cpu_as as_ s va n flags sec) as [?|(s' & E & [O1 O2 O3 O4 OQ O5])]; try done; [by left|].
  right. by exists s'.
Qed.

#[local] Instance demo_alloc2 : PageAlloc (mem * list page_pool) := pools_page_alloc 1 1.

Lemma demo_aligned : aligned_blocks demo_as 4 (ms_pages demo_ms).
Proof.
  apply (pools_aligned_blocks 1 1); [by right|reflexivity|apply demo_pages_inv|].
  intros p k [->|Hp]%elem_of_cons Hk _; [|by apply elem_of_nil in Hp]. destruct k as [|[|[|k]]]; [reflexivity..|lia].
Qed.

Lemma mem_map_alloc_correct_witness :
  exists s', mem_map 1 1 [] demo_as demo_as 0xC0000000 None 4 PTE_VM_FLAGS demo_ms = Ok (0, s') /\
    exists p, mem_translate (ms_mem s') (as_pt demo_as) 0xC0003123 = Some p /\ p mod PAGE_SIZE = 0x123.
Proof.
  destruct (mem_map_alloc_correct 1 1 [] demo_as demo_as demo_ms 0xC0000000 4 PTE_VM_FLAGS 0)
    as [Hr|(s' & E & _ & _ & Hin & _)].
  - reflexivity.
  - apply demo_as_ok.
  - exact demo_aligned.
  - by right.
  - reflexivity.
  - lia.
  - reflexivity.
  - vm_compute. repeat split; discriminate.
  - reflexivity.
  - reflexivity.
  - intros u _. apply empty_translate; [by right|done|done].
  - eexists. split; [vm_compute; reflexivity|]. eexists. split; [vm_compute; reflexivity|reflexivity].
  - exists s'. split; [exact E|]. destruct (Hin 0xC0003123) as (p & Ep & Em & _).
    + vm_compute. split; [discriminate|reflexivity].
    + exists p. split; [exact Ep|]. rewrite Em. reflexivity.
Defined.

(** ** A pool that is used up *)

(** A pool of six pages, all taken by the mapping of one page: two tables (of
    four pages and of one) and the page. *)
Definition full_ms : mstate (mem * list page_pool) :=
  match mem_map 1 1 [] demo_as demo_as 0xC0000000 None 1 PTE_VM_FLAGS (mk_mst (∅, [mk_pool 0x80000000 6 6 0 100]) ∅ []) with
  | Ok (_, s) => s | Fault _ => demo_ms
  end.

(** When a block is refused [mem_map] asks for a table to split the entry and
    ignores that it is refused, too: it tries the same entry again, forever. Any
    number of passes ends where it began. *)
Theorem mem_map_hangs fuel : map_loop demo_as false 512 PTE_VM_FLAGS 0xC0200000 0 0 fuel full_ms = Fault Hang.
Proof.
  induction fuel as [|f IH]; [reflexivity|]. cbn [map_loop]. change (0 <? 512) with true. cbv iota.
  rewrite (pm_bind _ _ full_ms (1, 0x80000008) full_ms) by (vm_compute; reflexivity). cbv beta iota.
  change (lvls (pt_dscr (as_pt demo_as)) <=? 1) with false. cbv iota.
  rewrite (pm_bind _ _ full_ms (0xC0200000, 0, 0) full_ms) by (vm_compute; reflexivity). exact IH.
Qed.
