(* ===== verification/Isolate.v ===== *)
(** * Isolation of address spaces

    What mapping in one address space can do to another. The functional
    theorems of [MapProofs] and [MapAlloc] are about ranges that are not mapped
    yet; here the arguments are arbitrary. Whatever [mem_map] is asked to do with
    uncoloured pages, it writes to tables of its own address space and to pages
    that could be allocated, so that every other address space whose tables are
    apart keeps its translations. *)

From S2P Require Import Prelude Bit Bitmap PagePool PageTable MemMap MapProofs.

(** ** Two address spaces *)
Section Two.
Context {A : Type} `{!PageAlloc A}.

(** No address is in a table of both. *)
Definition apart (as1 as2 : addr_space) (m : mem) : Prop :=
  forall x, table_addr as1 m x -> table_addr as2 m x -> False.

(** The walks of an address space depend on its tables alone. *)
Section Agree.
Context (as_ : addr_space) (m m' : mem).
Let pt := as_pt as_.
Context (Hsv : is_sv pt) (Hag : forall x, table_addr as_ m x -> ld m' x = ld m x).

Lemma agree_entry k va b : (k < 3)%nat -> tab m pt k va = Some b -> ld m' (b + 8 * ix pt va k) = ld m (b + 8 * ix pt va k).
Proof. intros Hk Hb. apply Hag. by eapply entry_addr. Qed.

Lemma agree_tab k va : (k < 3)%nat -> tab m' pt k va = tab m pt k va.
Proof.
  induction k as [|k IH]; intros Hk; [done|]. simpl. rewrite IH by lia.
  destruct (tab m pt k va) as [b|] eqn:Hb; [|done]. simpl. by rewrite agree_entry by (done || lia).
Qed.

Lemma agree_wf : pt_wf m pt -> pt_wf m' pt.
Proof.
  intros [_ Hroot Hbase Hdisj Hlast Hclear]. split; [done|done|..].
  - intros k va b Hk. rewrite agree_tab by done. by apply Hbase.
  - intros k j va vb b b' Hk Hj. rewrite !agree_tab by done. by apply Hdisj.
  - intros va b. rewrite agree_tab by lia. intros Hb. rewrite agree_entry by (done || lia). by apply Hlast.
  - intros k va b Hk. rewrite agree_tab by lia. intros Hb. rewrite agree_entry by (done || lia). by apply Hclear.
Qed.

Lemma agree_translate u : pt_wf m pt -> mem_translate m' pt u = mem_translate m pt u.
Proof.
  intros Hwf. rewrite !mem_translate_leaf by (done || by apply agree_wf). unfold leaf. rewrite !agree_tab by lia.
  destruct (tab m pt 2 u) as [b|] eqn:E2; [|destruct (tab m pt 1 u) as [b|] eqn:E1]; simpl.
  - by rewrite agree_entry by (done || lia).
  - by rewrite agree_entry by (done || lia).
  - by rewrite (agree_entry 0 u (pt_root pt)) by (done || lia).
Qed.

Lemma agree_rsvd u : pt_wf m pt -> rsvd as_ m' u = rsvd as_ m u.
Proof.
  intros Hwf. unfold rsvd, leaf. fold pt. rewrite !agree_tab by lia.
  destruct (tab m pt 2 u) as [b|] eqn:E2; [|destruct (tab m pt 1 u) as [b|] eqn:E1]; simpl.
  - by rewrite agree_entry by (done || lia).
  - by rewrite agree_entry by (done || lia).
  - by rewrite (agree_entry 0 u (pt_root pt)) by (done || lia).
Qed.

Lemma agree_table_addr x : table_addr as_ m' x -> table_addr as_ m x.
Proof. intros (k & v & b & Hk & Hb & Hx). rewrite agree_tab in Hb by done. by exists k, v, b. Qed.
End Agree.

(** The tables of an address space are not written while another evolves. *)
Lemma evolves_agree as1 as2 t (s s' : mstate A) :
  as_ok as2 s -> apart as1 as2 (ms_mem s) -> evolves as1 t s s' ->
  forall x, table_addr as2 (ms_mem s) x -> ~ avail_addr (ms_pages s) x /\ ld (ms_mem s') x = ld (ms_mem s) x.
Proof.
  intros [_ _ Hown] Hap [_ _ Hmem] x Hx.
  assert (~ avail_addr (ms_pages s) x) as Hn.
  { destruct Hx as (k & v & b & Hk & Hb & Hx). intros (p & Hp & Hpx). destruct (Hown p Hp k v b Hk Hb); lia. }
  split; [done|]. destruct (decide (ld (ms_mem s') x = ld (ms_mem s) x)) as [|Hne]; [done|exfalso].
  destruct (Hmem x Hne) as [H|H]; [by apply (Hap x)|done].
Qed.

(** What an address space keeps while another evolves. *)
Lemma evolves_other as1 as2 t (s s' : mstate A) :
  as_ok as2 s -> apart as1 as2 (ms_mem s) -> evolves as1 t s s' -> pa_inv (ms_pages s') ->
  as_ok as2 s' /\ apart as1 as2 (ms_mem s') /\
  (forall u, mem_translate (ms_mem s') (as_pt as2) u = mem_translate (ms_mem s) (as_pt as2) u).
Proof.
  intros Hok Hap Hev Hinv'. pose proof Hok as [Hwf Hinv Hown]. pose proof (w_sv _ _ Hwf) as Hsv.
  pose proof (evolves_agree _ _ _ _ _ Hok Hap Hev) as Hall. pose proof (fun x Hx => proj2 (Hall x Hx)) as Hag.
  destruct Hev as [Ht Htab Hmem]. split_and!.
  - split; [by eapply agree_wf|done|]. intros p Hp j vb b Hj. rewrite (agree_tab _ (ms_mem s)) by done.
    apply Hown; [by eapply takes_mono|done].
  - intros x H1 H2. apply (agree_table_addr as2 (ms_mem s)) in H2; [|done|done].
    destruct (Htab x H1) as [H|H]; [by apply (Hap x)|by apply (Hall x)].
  - intros u. by apply agree_translate.
Qed.
End Two.

(** ** Any call of [mem_map] *)
Section Frame.
Context {A : Type} `{!PageAlloc A} (as_ : addr_space) (Hplain : pa_plain (as_colors as_) = true).
Let pt := as_pt as_.

Definition moves (s s' : mstate A) : Prop := as_ok as_ s' /\ exists t, evolves as_ t s s'.

Lemma moves_refl s : as_ok as_ s -> moves s s.
Proof. intros Hok. split; [done|]. exists 0. by apply evolves_same; [apply takes_refl|]. Qed.

Lemma moves_trans s1 s2 s3 : moves s1 s2 -> moves s2 s3 -> moves s1 s3.
Proof. intros (_ & t & E1) (O & t' & E2). split; [done|]. exists (t + t'). by eapply evolves_trans. Qed.

Lemma alloc_pt_moves s k va b r s' :
  as_ok as_ s -> (k < 2)%nat -> tab (ms_mem s) pt k va = Some b ->
  mem_alloc_pt as_ (b + 8 * ix pt va k) (Z.of_nat k) va s = Ok (r, s') ->
  moves s s' /\ ((r = 0 /\ ms_mem s' = ms_mem s) \/ tab (ms_mem s') pt (S k) va = Some r).
Proof.
  intros Hok Hk Hb E. pose proof Hok as [Hwf _ _].
  destruct (mem_alloc_pt_spec as_ Hplain s k va b Hok Hk Hb)
    as [(s1 & E1 & Hok1 & Ht & Em & _)|(new & s1 & E1 & Hr & Hal & Hf & Hav & Hok1 & Ht & _ & Em)];
    fold pt in E1; rewrite E1 in E; injection E as <- <-.
  - split; [split; [done|exists 0; by apply evolves_same]|by left].
  - split; [split; [done|exists 4; by eapply evolves_table]|]. right. rewrite Em, tab_set_table by (done || lia).
    rewrite decide_True, decide_True; [done|done|]. split; [by apply same_refl; apply Hwf|lia].
Qed.

Lemma leaf_moves s k va b w s' :
  as_ok as_ s -> (k < 3)%nat -> tab (ms_mem s) pt k va = Some b -> pte_table w = false ->
  store (b + 8 * ix pt va k) w s = Ok (tt, s') ->
  moves s s' /\ (forall v, tab (ms_mem s') pt k v = tab (ms_mem s) pt k v).
Proof.
  intros Hok Hk Hb Hw. pose proof Hok as [Hwf _ _]. unfold store. destruct (_ =? 0); [done|]. intros [= <-]. split.
  - split; [by apply set_leaf_ok|exists 0; by apply evolves_leaf].
  - intros v. simpl. rewrite tab_set_leaf by done. by rewrite decide_False by lia.
Qed.

Lemma pm_ok {B C} (m : PM A B) (k : B -> PM A C) s c s' :
  (m ≫= k) s = Ok (c, s') -> exists b s1, m s = Ok (b, s1) /\ k b s1 = Ok (c, s').
Proof. unfold mbind, PM_bind. destruct (m s) as [[b s1]|]; [eauto|done]. Qed.

Lemma level_moves d s k left vaddr paddr pte0 b lvl pte s' :
  d = (3 - k)%nat -> (k < 3)%nat -> as_ok as_ s -> 1 <= left -> vaddr mod 4096 = 0 -> paddr mod 4096 = 0 ->
  tab (ms_mem s) pt k vaddr = Some b ->
  map_level as_ left vaddr paddr (Z.of_nat k) pte0 d s = Ok ((lvl, pte), s') ->
  moves s s' /\ exists k' b', lvl = Z.of_nat k' /\ (k' < 3)%nat /\ tab (ms_mem s') pt k' vaddr = Some b' /\
    pte = b' + 8 * ix pt vaddr k' /\ vaddr mod lsize pt k' = 0.
Proof.
  revert s k pte0 b. induction d as [|d IH]; intros s k pte0 b Hd Hk Hok Hl Hva Hpa Hb; [lia|].
  pose proof Hok as [Hwf _ _]. pose proof (w_sv _ _ Hwf) as Hsv. fold pt in Hsv.
  destruct (geometry pt Hsv) as (_ & EL & Hterm & _ & _ & E2 & _).
  cbn [map_level]. fold pt. rewrite pm_get_mem, Hterm by done.
  pose proof (load_entry as_ s k vaddr b Hok Hk Hb) as El. fold pt in El. prun El. clear El.
  set (w := ld _ _). unfold pt_pte_mappable. fold pt. rewrite (pt_get_pte_tab _ _ k vaddr b) by done.
  destruct (negb (pte_valid w) && _ && _ && _) eqn:Em.
  { intros [= <- <- <-]. split; [by apply moves_refl|]. exists k, b. split_and!; try done. lia. }
  destruct (decide (k = 2)%nat) as [->|].
  { (* the last level holds no table, and a free entry can be mapped *)
    pose proof (w_last _ _ Hwf vaddr b Hb : pte_table w = false) as Ht. rewrite Ht.
    destruct (pte_valid w); simpl; [done|]. exfalso. rewrite E2 in Em. unfold PAGE_SIZE in Em. simpl in Em. lia. }
  replace (Z.of_nat k + 1) with (Z.of_nat (S k)) by lia. destruct (pte_valid w) eqn:Ev; simpl.
  - destruct (pte_table w) eqn:Et; simpl; [|done]. apply (IH s (S k) _ (pte_addr w)); try done; try lia.
    simpl. rewrite Hb. simpl. fold w. by rewrite Et.
  - intros (r & s1 & E1 & E3)%pm_ok. destruct (alloc_pt_moves s k vaddr b r s1) as [Hm1 Hc]; [done|lia|done|done|].
    pose proof Hm1 as [Hok1 _]. destruct Hc as [[-> Em1]|Hb1].
    + exfalso. destruct d as [|d]; [lia|]. cbn [map_level] in E3. fold pt in E3. rewrite pm_get_mem, Hterm in E3 by lia.
      rewrite Em1, (pt_get_pte_null _ _ k vaddr b) in E3 by (done || lia). done.
    + destruct (IH s1 (S k) _ r ltac:(lia) ltac:(lia) Hok1 Hl Hva Hpa Hb1 E3) as [Hm2 H]. split; [by eapply moves_trans|done].
Qed.

(** Addresses are taken modulo the width of the page table. *)
Lemma same_wrap k v : is_sv pt -> (k <= 3)%nat -> same pt k v (u64 v).
Proof.
  intros Hsv Hk. destruct (geometry pt Hsv) as (W & _). assert (nv pt (u64 v) = nv pt v) as E.
  { unfold nv, wrap. assert (exists x, 0 <= x /\ 2 ^ 64 = 2 ^ wdt pt 0 * 2 ^ x) as (x & Hx & ->).
    { destruct W as [-> | ->]; [exists 25|exists 23]; done. }
    assert (0 < 2 ^ wdt pt 0) by (destruct W as [-> | ->]; done).
    rewrite Z.rem_mul_r by lia. rewrite Z.mul_comm, Z_mod_plus_full. apply Z.mod_mod. lia. }
  destruct k as [|k]; [done|]. simpl. unfold pre. by rewrite E.
Qed.

(** The next entry's address, also where the address wraps around. *)
Lemma next_moves m k vaddr b :
  is_sv pt -> (k < 3)%nat -> vaddr mod lsize pt k = 0 -> tab m pt k vaddr = Some b ->
  ix pt vaddr k + 1 < nent pt k ->
  tab m pt k (u64 (vaddr + lsize pt k)) = Some b /\ ix pt (u64 (vaddr + lsize pt k)) k = ix pt vaddr k + 1.
Proof.
  intros Hsv Hk Hva Hb Hlt. destruct (next_entry pt k vaddr Hsv Hk Hva Hlt) as (_ & Hs & Hi).
  pose proof (same_wrap (S k) (vaddr + lsize pt k) Hsv ltac:(lia)) as [Hw Ew]%same_S; [|done|done].
  rewrite <- Ew, Hi. split; [|done]. rewrite <- (tab_same _ _ k (vaddr + lsize pt k)), <- (tab_same _ _ k vaddr) by (done || lia).
  done.
Qed.

Lemma wrap_aligned x y : 0 <= y <= 64 -> x mod 2 ^ y = 0 -> u64 x mod 2 ^ y = 0.
Proof.
  intros Hy Hx. unfold wrap. replace (2 ^ 64) with (2 ^ y * 2 ^ (64 - y)) by (rewrite <- Z.pow_add_r by lia; f_equal; lia).
  rewrite Z.rem_mul_r, Z.mul_comm, Z_mod_plus_full, Hx by lia. apply Z.mod_0_l. lia.
Qed.

Lemma level_aligned k : is_sv pt -> (k < 3)%nat ->
  (forall x, x mod lsize pt k = 0 -> x mod 4096 = 0) /\
  (forall x, x mod lsize pt k = 0 -> u64 (x + lsize pt k) mod lsize pt k = 0) /\ lsize pt k mod 4096 = 0.
Proof.
  intros Hsv Hk. destruct (lsize_pages as_ k Hsv Hk) as (q & Hq & El & _). fold pt in El. unfold PAGE_SIZE in El.
  destruct (geometry pt Hsv) as (_ & _ & _ & E0 & E1 & E2 & _).
  assert (exists y, 12 <= y <= 64 /\ lsize pt k = 2 ^ y) as (y & Hy & Ey).
  { destruct k as [|[|[|k]]]; [exists 30|exists 21|exists 12|lia]; (split; [lia|done]). }
  split_and!.
  - intros x (z & ->)%Z.mod_divide; [|lia]. rewrite El. apply Z.mod_divide; [lia|]. exists (z * q). lia.
  - intros x Hx. rewrite Ey. apply wrap_aligned; [lia|]. rewrite <- Ey, <- Z.add_mod_idemp_l, Hx, Z.add_0_l by lia.
    apply Z_mod_same_full.
  - rewrite El. apply Z.mod_mul. lia.
Qed.

Section Flags.
Context (given : bool) (n flags : Z) (Hflags : page_flags flags).

Lemma entries_moves d s k b entry vaddr paddr count v' p' c' s' :
  (k < 3)%nat -> as_ok as_ s -> vaddr mod lsize pt k = 0 -> (given = true -> paddr mod 4096 = 0) ->
  (entry < nent pt k -> tab (ms_mem s) pt k vaddr = Some b /\ ix pt vaddr k = entry) ->
  map_entries as_ given n flags (Z.of_nat k) (b + 8 * entry) entry vaddr paddr count d s = Ok ((v', p', c'), s') ->
  moves s s' /\ v' mod 4096 = 0 /\ (given = true -> p' mod 4096 = 0).
Proof.
  intros Hk. revert s entry vaddr paddr count. induction d as [|d IH]; intros s entry vaddr paddr count Hok Hva Hpa Hent;
    pose proof Hok as [Hwf Hinv Hown]; pose proof (w_sv _ _ Hwf) as Hsv; fold pt in Hsv;
    destruct (level_aligned k Hsv Hk) as (Hpg & Hnx & Hl0); cbn [map_entries]; fold pt.
  { destruct (_ && _ && _); [done|]. intros [= <- <- <- <-]. split; [by apply moves_refl|]. auto. }
  destruct (_ && _ && _) eqn:Eg; [|intros [= <- <- <- <-]; split; [by apply moves_refl|]; auto].
  destruct (Hent ltac:(lia)) as [Hb Hix]. clear Hent. subst entry.
  destruct (geometry pt Hsv) as (_ & EL & _).
  destruct (lsize_pages as_ k Hsv Hk) as (q & Hq & El & Eq). fold pt in El, Eq.
  pose proof (Hnx vaddr Hva) as Hva'.
  assert (forall p0 s0, as_ok as_ s0 -> moves s s0 -> ms_mem s0 = ms_mem s -> (given = true -> p0 mod 4096 = 0) ->
    (store (b + 8 * ix pt vaddr k) (pte_set p0 PTE_PAGE flags);;
     map_entries as_ given n flags (Z.of_nat k) (b + 8 * ix pt vaddr k + 8) (ix pt vaddr k + 1) (u64 (vaddr + lsize pt k))
       (u64 (p0 + lsize pt k)) (count + lsize pt k / PAGE_SIZE) d) s0 = Ok ((v', p', c'), s') ->
    moves s s' /\ v' mod 4096 = 0 /\ (given = true -> p' mod 4096 = 0)) as Hnext.
  { intros p0 s0 Hok0 Hm0 Em0 Hp0 ([] & s1 & E3 & E4)%pm_ok. rewrite <- Em0 in Hb.
    destruct (leaf_moves s0 k vaddr b _ s1 Hok0 Hk Hb (proj2 (pte_set_page p0 flags Hflags)) E3) as [Hm1 Ht1].
    replace (b + 8 * ix pt vaddr k + 8) with (b + 8 * (ix pt vaddr k + 1)) in E4 by lia.
    eapply IH in E4 as (Hm2 & Hv & Hp); [| |done| |].
    - split; [|done]. eapply moves_trans; [done|]. by eapply moves_trans.
    - apply Hm1.
    - intros Hg. apply (wrap_aligned _ 12); [lia|]. change (2 ^ 12) with 4096.
      rewrite <- Z.add_mod_idemp_l, Hp0, Z.add_0_l by (done || lia). done.
    - intros Hlt. rewrite Ht1. by apply next_moves. }
  destruct given eqn:Egv; [by apply Hnext; [|apply moves_refl|..]|].
  intros (pp & s1 & Ea & Er)%pm_ok.
  assert (moves s s1 /\ ms_mem s1 = ms_mem s) as [Hm1 Em1].
  { unfold alloc_pages in Ea. destruct (pa_alloc_ok (ms_pages s) (as_colors as_) (lsize pt k / PAGE_SIZE) true Hinv Hplain ltac:(lia))
      as (pp' & a' & Ea' & Hinv' & Hmono & Hg). rewrite Ea' in Ea. injection Ea as <- <-. split; [|done].
    split; [split; [done|done|intros p Hp; by apply Hown, Hmono]|]. exists (pg_size pp'). apply evolves_same; [|done].
    eapply takes_step; [|exact Ea'| |done|]; [lia| |apply takes_refl; lia]. destruct Hg as [->|[-> _]]; lia. }
  destruct (pg_size pp <? _); [|by eapply Hnext; [apply Hm1|..|done]].
  rewrite EL in Er. destruct (Z.of_nat k =? 3 - 1) eqn:Ek; [done|].
  rewrite pm_get_mem in Er. apply pm_ok in Er as (w & s2 & Ew & Er).
  rewrite <- Em1 in Hb. rewrite (pt_get_pte_tab _ _ k vaddr b) in Ew, Er by (done || rewrite Em1; done).
  unfold load in Ew. destruct (_ =? 0); [done|]. injection Ew as <- <-.
  apply pm_ok in Er as ([] & s3 & Ew & [= <- <- <- <-]). split; [|split; [auto|done]].
  eapply moves_trans; [done|]. destruct (negb _).
  - apply pm_ok in Ew as (r & s4 & E4 & [= <-]). eapply alloc_pt_moves; [apply Hm1| |done|done]. lia.
  - injection Ew as <-. by apply moves_refl, Hm1.
Qed.
Lemma loop_moves fuel s vaddr paddr count s' :
  as_ok as_ s -> vaddr mod 4096 = 0 -> (given = true -> paddr mod 4096 = 0) ->
  map_loop as_ given n flags vaddr paddr count fuel s = Ok (tt, s') -> moves s s'.
Proof.
  revert s vaddr paddr count. induction fuel as [|f IH]; intros s vaddr paddr count Hok Hva Hpa; cbn [map_loop];
    (destruct (Z.ltb_spec count n) as [Hlt|]; [|intros [= <-]; by apply moves_refl]); [done|].
  pose proof Hok as [Hwf _ _]. pose proof (w_sv _ _ Hwf) as Hsv. destruct (geometry pt Hsv) as (_ & EL & _).
  fold pt. rewrite EL. intros ([lvl pte] & s1 & E1 & E)%pm_ok.
  apply (level_moves _ s 0 _ _ _ _ (pt_root pt)) in E1 as (Hm1 & k & b & -> & Hk & Hb & -> & Hal); try done; try lia.
  2:{ destruct given; [by apply Hpa|done]. }
  replace (3 <=? Z.of_nat k) with false in E by lia. pose proof Hm1 as [[Hwf1 _ _] _].
  rewrite (index_of_entry (ms_mem s1) pt _ _ _ Hwf1 Hk Hb) in E. apply pm_ok in E as ([[v p] c] & s2 & E2 & E3).
  eapply entries_moves in E2 as (Hm2 & Hv & Hp); [|done|apply Hm1|done|done|done].
  eapply moves_trans; [done|]. eapply moves_trans; [done|]. eapply IH; [apply Hm2|done|done|done].
Qed.
End Flags.

Lemma mem_map_moves CN CS hyp_secs cpu_as va pp n flags s r s' :
  as_ok as_ s -> page_flags flags -> all_clrs CN (default (as_colors as_) (pg_colors <$> pp)) = true ->
  default 0 (pg_base <$> pp) mod PAGE_SIZE = 0 ->
  mem_map CN CS hyp_secs cpu_as as_ va pp n flags s = Ok (r, s') -> moves s s'.
Proof.
  intros Hok Hf Hc Hb. unfold mem_map. set (vaddr := Z.land _ _).
  assert (vaddr mod 4096 = 0) as Hva.
  { unfold vaddr. change (PAGE_SIZE - 1) with (Z.ones 12). rewrite <- Z.ldiff_land, Z.ldiff_ones_r, Z.shiftl_mul_pow2 by lia.
    apply Z.mod_mul. lia. }
  destruct (mem_find_sec _ _ vaddr); [|intros [= <- <-]; by apply moves_refl].
  destruct (negb _); [intros [= <- <-]; by apply moves_refl|]. destruct pp as [pp|]; simpl in Hc, Hb.
  - rewrite (pm_bind _ _ s (Some pp) s) by done. cbv beta iota. rewrite Hc. cbn [negb].
    intros ([] & s1 & E & [= <- <-])%pm_ok. exact (loop_moves true n flags Hf _ _ _ _ _ _ Hok Hva (fun _ => Hb) E).
  - rewrite Hc. cbn [negb]. rewrite (pm_bind _ _ s None s) by done. cbv beta iota.
    intros ([] & s1 & E & [= <- <-])%pm_ok. by apply (loop_moves false n flags Hf) in E.
Qed.
End Frame.

(** ** The property *)

(** C14. Isolation of address spaces: whatever range [mem_map] maps in one address
    space, to a given uncoloured block or to new pages, mapped before or not, an
    address space with tables apart from those of the first and from the pages
    that can be allocated translates every address as before; its tables stay
    well formed and apart, and none of their pages can be allocated. *)
Theorem mem_map_isolated {A} `{!PageAlloc A} CN CS hyp_secs cpu_as as1 as2 va pp n flags (s : mstate A) r s' :
  pa_plain (as_colors as1) = true -> as_ok as1 s -> as_ok as2 s -> apart as1 as2 (ms_mem s) -> page_flags flags ->
  all_clrs CN (default (as_colors as1) (pg_colors <$> pp)) = true -> default 0 (pg_base <$> pp) mod PAGE_SIZE = 0 ->
  mem_map CN CS hyp_secs cpu_as as1 va pp n flags s = Ok (r, s') ->
  (forall u, mem_translate (ms_mem s') (as_pt as2) u = mem_translate (ms_mem s) (as_pt as2) u) /\
  as_ok as1 s' /\ as_ok as2 s' /\ apart as1 as2 (ms_mem s').
Proof.
  intros Hplain Hok1 Hok2 Hap Hf Hc Hb E.
  destruct (mem_map_moves as1 Hplain CN CS hyp_secs cpu_as va pp n flags s r s') as (Hok1' & t & Hev); try done.
  by destruct (evolves_other as1 as2 t s s') as (Hok2' & Hap' & Htr); [..|apply Hok1'|].
Qed.

(** Two VMs with their root tables side by side. *)
Definition demo_as2 : addr_space := mk_as (mk_pt 0x40004000 0 sv39x4_pt_dscr) AS_VM 0 2.
#[local] Instance demo_alloc3 : PageAlloc (mem * list page_pool) := pools_page_alloc 1 1.

Lemma demo_as2_ok : as_ok demo_as2 demo_ms.
Proof.
  apply empty_as_ok; [by right|done|done|apply demo_pages_inv|].
  intros p (i & q & j & Hq & Hj & -> & _). destruct i; simpl in Hq; [|done]. simplify_eq. simpl in *. left.
  unfold tsize, PAGE_SIZE. change (nent _ _) with 2048. lia.
Qed.

Lemma demo_apart : apart demo_as demo_as2 (ms_mem demo_ms).
Proof.
  intros x (k & v & b & Hk & Hb & Hx) (k' & v' & b' & Hk' & Hb' & Hx'). simpl in Hb, Hb'. rewrite empty_tab in Hb by (by right).
  rewrite empty_tab in Hb' by (by right). destruct k, k'; try done. simplify_eq.
  change (tsize (as_pt demo_as) 0) with 16384 in Hx. simpl in Hx, Hx'. lia.
Qed.

Lemma mem_map_isolated_witness :
  exists s', mem_map 1 1 [] demo_as demo_as 0xC0000000 None 4 PTE_VM_FLAGS demo_ms = Ok (0, s') /\
    mem_translate (ms_mem s') (as_pt demo_as2) 0xC0003123 = None /\
    is_Some (mem_translate (ms_mem s') (as_pt demo_as) 0xC0003123).
Proof.
  eexists. split; [vm_compute; reflexivity|]. split; [|vm_compute; by eexists].
  edestruct (mem_map_isolated 1 1 [] demo_as demo_as demo_as2 0xC0000000 None 4 PTE_VM_FLAGS demo_ms 0) as [Ht _].
  - reflexivity.
  - apply demo_as_ok.
  - apply demo_as2_ok.
  - apply demo_apart.
  - by right.
  - reflexivity.
  - reflexivity.
  - vm_compute. reflexivity.
  - rewrite Ht. apply empty_translate; [by right|done|done].
Defined.
