(* ===== verification/ListC.v ===== *)
(** * Intrusive singly linked lists

    [lib/inc/list.h]: a node is the address of a word that holds the address
    of the next node, [NULL] is 0. Every function takes the list's lock around
    its body, so each is one atomic operation here. *)

From S2P Require Import Prelude.

Record list_t := mk_list { head : Z; tail : Z }.

Definition list_init : list_t := mk_list 0 0.

Definition list_push (m : mem) (l : list_t) (node : Z) : mem * list_t :=
  if node =? 0 then (m, l)
  else
    let m := st m node 0 in
    let m := if tail l =? 0 then m else st m (tail l) node in
    (m, mk_list (if head l =? 0 then node else head l) node).

Definition list_pop (m : mem) (l : list_t) : Z * mem * list_t :=
  if head l =? 0 then (0, m, l)
  else
    let temp := head l in
    let head' := ld m temp in
    (temp, st m temp 0, mk_list head' (if head' =? 0 then 0 else tail l)).

Definition list_peek (l : list_t) : Z := head l.
Definition list_empty (l : list_t) : bool := head l =? 0.

(** [list_foreach]: the nodes visited, in order. *)
Fixpoint list_nodes (fuel : nat) (m : mem) (node : Z) : option (list Z) :=
  if node =? 0 then Some []
  else match fuel with
  | O => None
  | S f => rest ← list_nodes f m (ld m node); Some (node :: rest)
  end.

(** The search loop of [list_rm]: the node reached and its predecessor. *)
Fixpoint list_rm_loop (fuel : nat) (m : mem) (node temp prev : Z) : option (Z * Z) :=
  if (temp =? 0) || (temp =? node) then Some (temp, prev)
  else match fuel with
  | O => None
  | S f => list_rm_loop f m node (ld m temp) temp
  end.

(** [list_rm] returns true in every case; writing through a null [temp_prev]
    is a fault. Neither [head] nor [tail] is updated. *)
Definition list_rm (fuel : nat) (m : mem) (l : list_t) (node : Z) : res mem :=
  if node =? 0 then Ok m
  else
    match list_rm_loop fuel m node (head l) 0 with
    | None => Fault Hang
    | Some (temp, prev) =>
        if negb (temp =? 0) && (temp =? node) then
          if prev =? 0 then Fault NullDeref else Ok (st m prev (ld m temp))
        else Ok m
    end.

(** ** Abstraction: the list of node addresses *)
Fixpoint chain (m : mem) (xs : list Z) : Prop :=
  match xs with
  | [] => True
  | x :: rest => ld m x = default 0 (hd_error rest) /\ chain m rest
  end.

Definition list_rep (m : mem) (l : list_t) (xs : list Z) : Prop :=
  head l = default 0 (hd_error xs) /\ tail l = default 0 (last xs) /\
  chain m xs /\ NoDup xs /\ 0 ∉ xs.

(** Memory that differs at most at the listed addresses. *)
Definition same_but (as_ : list Z) (m m' : mem) : Prop :=
  forall a, a ∉ as_ -> ld m' a = ld m a.

Lemma chain_same_but as_ m m' xs :
  same_but as_ m m' -> (forall x, x ∈ xs -> x ∉ as_) -> chain m xs -> chain m' xs.
Proof.
  intros Hs. induction xs as [|x xs IH]; simpl; [done|].
  intros Ha [? ?]. rewrite Hs by set_solver. split; [done|]. apply IH; set_solver.
Qed.

Lemma chain_frame m a v xs : a ∉ xs -> chain m xs -> chain (st m a v) xs.
Proof.
  induction xs as [|x xs IH]; simpl; [done|].
  intros Ha [? ?]. rewrite ld_st_ne by set_solver. split; [done|]. apply IH; set_solver.
Qed.

Lemma chain_app_cons m xs y ys :
  chain m (xs ++ y :: ys) <->
  chain m (y :: ys) /\
  (forall i x, xs !! i = Some x -> ld m x = default 0 ((xs ++ y :: ys) !! S i)).
Proof.
  induction xs as [|x xs IH]; simpl; [naive_solver|].
  rewrite IH. split.
  - intros (Hx & Hy & Hall). split; [done|]. intros [|i] z Hz; simpl in *; simplify_eq.
    + rewrite Hx. by destruct xs.
    + by apply Hall.
  - intros (Hy & Hall). split_and!; [|done|].
    + rewrite (Hall 0%nat x eq_refl). by destruct xs.
    + intros i z Hz. apply (Hall (S i) z Hz).
Qed.

Lemma chain_snoc m xs x n :
  chain m (xs ++ [x]) -> n ∉ xs ++ [x] -> NoDup (xs ++ [x]) -> x <> n ->
  chain (st (st m n 0) x n) (xs ++ [x; n]).
Proof.
  intros Hc Hn Hd Hxn. induction xs as [|y xs IH]; simpl in *.
  - rewrite !ld_st_eq, ld_st_ne, ld_st_eq by done. done.
  - destruct Hc as [Hy Hc]. apply NoDup_cons in Hd as [Hyx Hd].
    split; [|apply IH; set_solver].
    rewrite !ld_st_ne by set_solver. rewrite Hy. by destruct xs.
Qed.

Lemma list_push_rep m l xs n :
  list_rep m l xs -> n <> 0 -> n ∉ xs ->
  list_rep (fst (list_push m l n)) (snd (list_push m l n)) (xs ++ [n]).
Proof.
  intros (Hh & Ht & Hc & Hd & H0) Hn Hin. unfold list_push.
  destruct (Z.eqb_spec n 0); [done|]. simpl.
  assert (NoDup (xs ++ [n])) as Hd'.
  { rewrite NoDup_app. split_and!; [done|set_solver|apply NoDup_singleton]. }
  assert (0 ∉ xs ++ [n]) as H0' by set_solver.
  destruct xs as [|x xs _] using rev_ind.
  - simpl in *. rewrite Hh, Ht. simpl. split_and!; try done. simpl. by rewrite ld_st_eq.
  - rewrite last_snoc in Ht. simpl in Ht.
    assert (x <> 0 /\ x <> n) as [? ?] by set_solver.
    assert (head l <> 0) as Hh0 by (rewrite Hh; destruct xs; simpl; set_solver).
    rewrite Ht. replace (x =? 0) with false by lia. replace (head l =? 0) with false by lia.
    rewrite <- app_assoc in *. simpl in *. split_and!; simpl; try done.
    + rewrite Hh. by destruct xs.
    + change [x; n] with ([x] ++ [n]). by rewrite app_assoc, last_snoc.
    + by apply chain_snoc.
Qed.

Lemma list_push_same m l xs n a :
  list_rep m l xs -> a <> n -> a ∉ xs -> ld (fst (list_push m l n)) a = ld m a.
Proof.
  intros (_ & Ht & _) Ha Hax. unfold list_push. destruct (n =? 0); simpl; [done|].
  destruct (Z.eqb_spec (tail l) 0); [by rewrite ld_st_ne|].
  rewrite !ld_st_ne; [done|done|]. intros E. rewrite E in Ht.
  destruct (last xs) eqn:El; simpl in Ht; [|congruence].
  apply Hax. rewrite Ht. by apply last_Some_elem_of.
Qed.

Lemma list_rep_frame m m' l xs :
  (forall x, x ∈ xs -> ld m' x = ld m x) -> list_rep m l xs -> list_rep m' l xs.
Proof.
  intros Hs (? & ? & Hc & ? & ?). split_and!; try done. clear -Hs Hc.
  induction xs as [|x xs IH]; simpl in *; [done|]. destruct Hc.
  rewrite Hs by set_solver. split; [done|]. apply IH; set_solver.
Qed.

Lemma list_rep_nil m : list_rep m list_init [].
Proof. split_and!; try done; [apply NoDup_nil_2|set_solver]. Qed.

Lemma list_pop_rep m l xs :
  list_rep m l xs ->
  match xs with
  | [] => list_pop m l = (0, m, l)
  | x :: rest => exists m' l', list_pop m l = (x, m', l') /\ list_rep m' l' rest /\
                   ld m' x = 0 /\ same_but [x] m m'
  end.
Proof.
  intros (Hh & Ht & Hc & Hd & H0). unfold list_pop. destruct xs as [|x xs]; simpl in *.
  { by rewrite Hh. }
  assert (x <> 0) by set_solver. destruct Hc as [Hx Hc]. apply NoDup_cons in Hd as [Hxx Hd].
  rewrite Hh. replace (x =? 0) with false by lia. do 2 eexists. split; [done|]. split_and!.
  - split_and!; simpl; [done| |by apply chain_frame|done|set_solver].
    rewrite Hx. destruct xs as [|y ys]; simpl; [done|].
    replace (y =? 0) with false by (symmetry; apply Z.eqb_neq; set_solver). by rewrite Ht.
  - apply ld_st_eq.
  - intros a Ha. apply ld_st_ne. set_solver.
Qed.

Lemma list_nodes_rep m xs fuel :
  chain m xs -> 0 ∉ xs -> (length xs <= fuel)%nat ->
  list_nodes fuel m (default 0 (hd_error xs)) = Some xs.
Proof.
  revert fuel. induction xs as [|x xs IH]; intros fuel Hc H0 Hf; [by destruct fuel|].
  destruct fuel as [|fuel]; simpl in *; [lia|]. destruct Hc as [Hx Hc].
  replace (x =? 0) with false by (symmetry; apply Z.eqb_neq; set_solver).
  rewrite Hx, IH by (set_solver || lia || done). done.
Qed.

(** *** Removal *)
Lemma list_rm_loop_found m xs y ys prev fuel :
  chain m (xs ++ y :: ys) -> y ∉ xs -> 0 ∉ xs ++ y :: ys ->
  (length xs <= fuel)%nat ->
  list_rm_loop fuel m y (default 0 (hd_error (xs ++ y :: ys))) prev
    = Some (y, default prev (last xs)).
Proof.
  revert prev fuel. induction xs as [|x xs IH]; intros prev fuel Hc Hy H0 Hf; simpl in *.
  - destruct fuel; simpl; rewrite Z.eqb_refl, orb_true_r; done.
  - destruct fuel as [|fuel]; simpl; [lia|].
    replace (x =? 0) with false by (symmetry; apply Z.eqb_neq; set_solver).
    replace (x =? y) with false by (symmetry; apply Z.eqb_neq; set_solver). simpl.
    destruct Hc as [Hx Hc]. rewrite Hx, IH by (set_solver || lia || done).
    rewrite last_cons. by destruct (last xs).
Qed.

(** Removing a node that is not the first splices it out of the chain. *)
Lemma list_rm_interior m l xs p y ys fuel :
  list_rep m l (xs ++ p :: y :: ys) -> (S (length xs) <= fuel)%nat ->
  exists m', list_rm fuel m l y = Ok m' /\ chain m' (xs ++ p :: ys) /\
    head l = default 0 (hd_error (xs ++ p :: ys)).
Proof.
  intros (Hh & Ht & Hc & Hd & H0) Hf. unfold list_rm.
  assert (y <> 0 /\ p <> 0) as [? ?] by set_solver.
  replace (y =? 0) with false by lia.
  assert (xs ++ p :: y :: ys = (xs ++ [p]) ++ y :: ys) as Eq by (by rewrite <- app_assoc).
  rewrite Hh, Eq, list_rm_loop_found, last_snoc; cycle 1.
  { by rewrite <- Eq. }
  { rewrite Eq in Hd. apply NoDup_app in Hd as (_ & Hd & _). intros Hin.
    apply (Hd y Hin). set_solver. }
  { by rewrite <- Eq. }
  { rewrite length_app. simpl. lia. }
  replace (y =? 0) with false by lia. rewrite Z.eqb_refl. simpl.
  replace (p =? 0) with false by lia. eexists. split; [done|].
  apply NoDup_app in Hd as (Hdx & Hxp & Hpys). apply NoDup_cons in Hpys as [Hpy Hd].
  apply chain_app_cons in Hc as [(Hp & Hy & Hc) Hall]. split; [|by rewrite <- Eq; destruct xs].
  apply chain_app_cons. split.
  - simpl. rewrite ld_st_eq. split; [done|]. apply chain_frame; set_solver.
  - intros i x Hx. rewrite ld_st_ne.
    + rewrite (Hall i x Hx). f_equal. apply lookup_lt_Some in Hx.
      destruct (decide (S i < length xs)%nat).
      * by rewrite !lookup_app_l by lia.
      * rewrite !lookup_app_r by lia. by replace (S i - length xs)%nat with 0%nat by lia.
    + intros ->. apply (Hxp x); [by eapply list_elem_of_lookup_2|set_solver].
Qed.

(** ** The queue interface

    What the clients of the list rely on: a first-in first-out queue of
    distinct node addresses. *)
Class Fifo (Q : Type) := {
  fifo_view : Q -> list Z -> Prop;
  fifo_push : Q -> Z -> Q;
  fifo_pop : Q -> Z * Q;
  fifo_push_view q xs n : fifo_view q xs -> n <> 0 -> n ∉ xs ->
    fifo_view (fifo_push q n) (xs ++ [n]);
  fifo_pop_nil q : fifo_view q [] -> fifo_pop q = (0, q);
  fifo_pop_cons q x xs : fifo_view q (x :: xs) ->
    exists q', fifo_pop q = (x, q') /\ fifo_view q' xs
}.

#[export] Program Instance list_fifo : Fifo (mem * list_t) := {|
  fifo_view q xs := list_rep (fst q) (snd q) xs;
  fifo_push q n := list_push (fst q) (snd q) n;
  fifo_pop q := let '(x, m, l) := list_pop (fst q) (snd q) in (x, (m, l))
|}.
Next Obligation. intros [m l] xs n ? ? ?. by apply list_push_rep. Qed.
Next Obligation.
  intros [m l] H. simpl in *. by rewrite (list_pop_rep m l [] H).
Qed.
Next Obligation.
  intros [m l] x xs H. simpl in *.
  destruct (list_pop_rep m l (x :: xs) H) as (m' & l' & -> & ? & _). by exists (m', l').
Qed.

(** Pushing a sequence and popping it again, over any queue. *)
Section Clients.
Context {Q : Type} {HQ : Fifo Q}.

Fixpoint push_all (q : Q) (ns : list Z) : Q :=
  match ns with [] => q | n :: rest => push_all (fifo_push q n) rest end.

Fixpoint pop_n (q : Q) (k : nat) : list Z * Q :=
  match k with
  | O => ([], q)
  | S k' => let '(x, q1) := fifo_pop q in let '(xs, q2) := pop_n q1 k' in (x :: xs, q2)
  end.

Lemma push_all_view q xs ns :
  fifo_view q xs -> NoDup (xs ++ ns) -> 0 ∉ ns -> fifo_view (push_all q ns) (xs ++ ns).
Proof.
  revert q xs. induction ns as [|n ns IH]; intros q xs Hv Hd H0; simpl; [by rewrite app_nil_r|].
  rewrite (cons_middle n xs ns), app_assoc in *. apply IH; [|done|set_solver].
  apply NoDup_app in Hd as (Hd & _ & _). apply NoDup_app in Hd as (_ & Hd & _).
  apply fifo_push_view; [done|set_solver|]. intros Hin. by apply (Hd n Hin), list_elem_of_singleton.
Qed.

Lemma pop_n_view q xs ys :
  fifo_view q (xs ++ ys) -> exists q', pop_n q (length xs) = (xs, q') /\ fifo_view q' ys.
Proof.
  revert q. induction xs as [|x xs IH]; intros q Hv; simpl; [by exists q|].
  destruct (fifo_pop_cons q x (xs ++ ys) Hv) as (q1 & -> & H1).
  destruct (IH q1 H1) as (q2 & -> & ?). by exists q2.
Qed.
End Clients.

(** ** Properties *)

(** Any queue that meets the interface hands nodes back in the order they
    were pushed, and the intrusive list of [list.h] meets it: pushing distinct
    nodes [ns] on an empty list and popping as many times returns exactly [ns]
    and leaves the list empty. *)
Theorem list_fifo_order m ns :
  NoDup ns -> 0 ∉ ns ->
  exists q', pop_n (push_all (m, list_init) ns) (length ns) = (ns, q') /\
    fifo_view q' [] /\ fifo_pop q' = (0, q').
Proof.
  intros Hd H0.
  assert (fifo_view (m, list_init) []) as H.
  { simpl. split_and!; try done; [apply NoDup_nil_2|set_solver]. }
  apply (push_all_view _ [] ns) in H; [|done|done]. simpl app in H.
  rewrite <- (app_nil_r ns) in H at 2.
  destruct (pop_n_view _ ns [] H) as (q' & -> & Hv). exists q'.
  split_and!; [done|done|by apply fifo_pop_nil].
Qed.

Lemma list_fifo_order_witness :
  exists q', pop_n (push_all (∅, list_init) [8; 24; 16]) 3 = ([8; 24; 16], q') /\
    fifo_view q' [] /\ fifo_pop q' = (0, q').
Proof.
  apply (list_fifo_order ∅ [8; 24; 16]); [|set_solver].
  repeat (apply NoDup_cons; split; [set_solver|]). apply NoDup_nil_2.
Defined.

(** [list_rm] removes an interior node correctly, but removing the first
    node writes through a null pointer, and removing the last one leaves [tail]
    on the removed node, so that a node pushed afterwards is not on the list. *)
Theorem list_rm_behaviour m l xs p y ys :
  list_rep m l (xs ++ p :: y :: ys) ->
  (forall fuel, (S (length xs) <= fuel)%nat ->
   exists m', list_rm fuel m l y = Ok m' /\ chain m' (xs ++ p :: ys)) /\
  (forall fuel, list_rm fuel m l (head l) = Fault NullDeref) /\
  (ys = [] -> forall n fuel, (S (length xs) <= fuel)%nat -> n <> 0 -> n ∉ xs ++ [p; y] ->
   exists m', list_rm fuel m l y = Ok m' /\
     list_nodes (S fuel) (fst (list_push m' l n)) (head (snd (list_push m' l n)))
       = Some (xs ++ [p])).
Proof.
  intros Hrep. pose proof Hrep as (Hh & Ht & _ & Hd & H0). split_and!.
  - intros fuel Hf. destruct (list_rm_interior m l xs p y ys fuel Hrep Hf) as (m' & ? & ? & _).
    by exists m'.
  - intros fuel. assert (head l <> 0) by (rewrite Hh; destruct xs; simpl; set_solver).
    unfold list_rm. replace (head l =? 0) with false by lia.
    destruct fuel; simpl; rewrite Z.eqb_refl, orb_true_r, Z.eqb_refl;
      replace (head l =? 0) with false by lia; done.
  - intros -> n fuel Hf Hn Hin.
    destruct (list_rm_interior m l xs p y [] fuel Hrep Hf) as (m' & Hrm & Hc & Hh').
    exists m'. split; [done|].
    change (xs ++ [p; y]) with (xs ++ [p] ++ [y]) in *. rewrite app_assoc in Ht, Hd, Hin.
    rewrite last_snoc in Ht. simpl in Ht.
    assert (head l <> 0) by (rewrite Hh; destruct xs; simpl; set_solver).
    assert (y <> 0) by set_solver.
    unfold list_push. replace (n =? 0) with false by lia. rewrite Ht.
    replace (y =? 0) with false by lia. replace (head l =? 0) with false by lia. simpl fst.
    simpl snd. simpl head. rewrite Hh'.
    apply NoDup_app in Hd as (_ & Hd & _).
    apply list_nodes_rep; [|set_solver|rewrite length_app; simpl; lia].
    apply chain_frame; [intros Hy; by apply (Hd y Hy), list_elem_of_singleton|].
    apply chain_frame; [set_solver|done].
Qed.

Definition rm_demo : mem * list_t :=
  list_push (fst (list_push ∅ list_init 8)) (snd (list_push ∅ list_init 8)) 16.

Lemma list_rm_behaviour_witness :
  let '(m, l) := rm_demo in
  (forall fuel, (1 <= fuel)%nat -> exists m', list_rm fuel m l 16 = Ok m' /\ chain m' [8]) /\
  (forall fuel, list_rm fuel m l (head l) = Fault NullDeref) /\
  (@nil Z = [] -> forall n fuel, (1 <= fuel)%nat -> n <> 0 -> n ∉ [8; 16] ->
   exists m', list_rm fuel m l 16 = Ok m' /\
     list_nodes (S fuel) (fst (list_push m' l n)) (head (snd (list_push m' l n))) = Some [8]).
Proof.
  apply (list_rm_behaviour (fst rm_demo) (snd rm_demo) [] 8 16 []).
  split_and!; [reflexivity|reflexivity|by vm_compute| |set_solver].
  repeat (apply NoDup_cons; split; [set_solver|]). apply NoDup_nil_2.
Defined.
