(* ===== verification/ObjCache.v ===== *)
(** * The object cache

    [core/objcache.c]: fixed-size objects carved out of one-page slabs. Every
    object is preceded by the slab's own list node, so the node of an object
    [obj] is the word at [obj - 8]. *)

From S2P Require Import Prelude Bit PagePool ListC.

Definition NODE_SIZE : Z := 8.
(** [sizeof(slab->header)]: next (8), free (8 + 8 + 4, padded to 24), three
    sizes (24) and the cache pointer (8). *)
Definition HEADER_SIZE : Z := 64.

Record slab := mk_slab {
  sl_free : list_t;
  sl_objsize : Z;
  sl_objnum : Z;
  sl_objcount : Z
}.

(** [oc_slabs] lists the slab pages in push order and [oc_hdr] holds their
    headers; [oc_last_free] is a slab address or 0. *)
Record objcache := mk_oc {
  oc_osize : Z;
  oc_slabs : list Z;
  oc_last_free : Z;
  oc_hdr : gmap Z slab
}.

(** The loop of [slab_create] that pushes every object on the free list. *)
Fixpoint push_objs (m : mem) (l : list_t) (obj objsize : Z) (k : nat) : mem * list_t :=
  match k with
  | O => (m, l)
  | S k' => let '(m', l') := list_push m l obj in push_objs m' l' (obj + objsize) objsize k'
  end.

(** [page] is the result of [mem_alloc_page(1, sec, false)]. *)
Definition slab_create (m : mem) (osize page : Z) : mem * option slab :=
  if page =? 0 then (m, None)
  else
    let objsize := ALIGN (NODE_SIZE + osize) 8 in
    let objnum := (PAGE_SIZE - HEADER_SIZE) / objsize in
    let '(m', free) :=
      push_objs (mem_zero m page PAGE_SIZE) list_init (page + HEADER_SIZE) objsize
        (Z.to_nat objnum) in
    (m', Some (mk_slab free objsize objnum objnum)).

Definition slab_alloc (m : mem) (s : slab) : Z * mem * slab :=
  let '(obj, m', free') := list_pop m (sl_free s) in
  if obj =? 0 then (0, m', mk_slab free' (sl_objsize s) (sl_objnum s) (sl_objcount s))
  else (obj + NODE_SIZE, st m' obj 0,
        mk_slab free' (sl_objsize s) (sl_objnum s) (u64 (sl_objcount s - 1))).

Definition page_of (a : Z) : Z := Z.land a (Z.lnot (PAGE_SIZE - 1)).

Definition slab_free (m : mem) (page : Z) (s : slab) (obj : Z) : bool * mem * slab :=
  let obj_addr := obj - NODE_SIZE in
  if (page_of page =? page_of obj_addr) &&
     (u64 (Z.land obj_addr (PAGE_SIZE - 1) - HEADER_SIZE) mod sl_objsize s =? 0) &&
     (ld m obj_addr =? 0)
  then
    let '(m', free') := list_push (mem_zero m obj_addr (sl_objsize s)) (sl_free s) obj_addr in
    (true, m', mk_slab free' (sl_objsize s) (sl_objnum s) (u64 (sl_objcount s + 1)))
  else (false, m, s).

Definition slab_get (obj : Z) : Z := page_of obj.
Definition slab_full (s : slab) : bool := sl_objcount s =? 0.
Definition slab_empty (s : slab) : bool := sl_objnum s =? sl_objcount s.

(** Creates a slab and pushes it on the list of the cache; [list_push] ignores
    the null node of a slab that could not be created. *)
Definition oc_grow (m : mem) (oc : objcache) (page : Z) : mem * objcache :=
  match slab_create m (oc_osize oc) page with
  | (m', Some s) =>
      (m', mk_oc (oc_osize oc) (oc_slabs oc ++ [page]) page (<[page := s]> (oc_hdr oc)))
  | (m', None) => (m', mk_oc (oc_osize oc) (oc_slabs oc) 0 (oc_hdr oc))
  end.

Definition objcache_init (m : mem) (osize : Z) (prime : bool) (page : Z) : mem * objcache :=
  let oc := mk_oc osize [] 0 ∅ in
  if prime then oc_grow m oc page else (m, oc).

(** [objcache_alloc]. With [last_free] null the code looks for a slab that is
    not full, and then creates a new one in any case, because the condition it
    tests again is still true. *)
Definition objcache_alloc (m : mem) (oc : objcache) (page : Z) : Z * mem * objcache :=
  let '(m1, oc1) := if oc_last_free oc =? 0 then oc_grow m oc page else (m, oc) in
  match oc_hdr oc1 !! oc_last_free oc1 with
  | Some s =>
      let '(obj, m2, s') := slab_alloc m1 s in
      (obj, m2, mk_oc (oc_osize oc1) (oc_slabs oc1) (oc_last_free oc1)
                  (<[oc_last_free oc1 := s']> (oc_hdr oc1)))
  | None => (0, m1, oc1)
  end.

(** [objcache_free] returns true for every object of a slab of the cache, also
    when [slab_free] refuses it. *)
Definition objcache_free (m : mem) (oc : objcache) (obj : Z) : bool * mem * objcache :=
  match oc_hdr oc !! slab_get obj with
  | Some s =>
      let '(_, m', s') := slab_free m (slab_get obj) s obj in
      (true, m', mk_oc (oc_osize oc) (oc_slabs oc) (oc_last_free oc)
                   (<[slab_get obj := s']> (oc_hdr oc)))
  | None => (false, m, oc)
  end.

(** ** Slab invariant *)
Lemma page_of_add page off :
  page mod PAGE_SIZE = 0 -> 0 <= off < PAGE_SIZE -> page_of (page + off) = page.
Proof.
  unfold page_of, PAGE_SIZE. intros Hp Ho. change (4096 - 1) with (Z.ones 12).
  rewrite <- Z.ldiff_land, Z.ldiff_ones_r, Z.shiftl_mul_pow2, Z.shiftr_div_pow2 by lia.
  change (2 ^ 12) with 4096. Z.to_euclidean_division_equations. lia.
Qed.

Lemma page_off_add page off :
  page mod PAGE_SIZE = 0 -> 0 <= off < PAGE_SIZE -> Z.land (page + off) (PAGE_SIZE - 1) = off.
Proof.
  unfold PAGE_SIZE. intros Hp Ho. change (4096 - 1) with (Z.ones 12).
  rewrite Z.land_ones by lia. change (2 ^ 12) with 4096.
  rewrite <- Zplus_mod_idemp_l, Hp. apply Z.mod_small. lia.
Qed.

Definition slab_node (page : Z) (s : slab) (x : Z) : Prop :=
  exists i, 0 <= i < sl_objnum s /\ x = page + HEADER_SIZE + i * sl_objsize s.

Record slab_inv (m : mem) (page : Z) (s : slab) (fs : list Z) : Prop := {
  si_page : page mod PAGE_SIZE = 0 /\ 0 < page;
  si_size : 16 <= sl_objsize s /\ 0 <= sl_objnum s /\
            HEADER_SIZE + sl_objnum s * sl_objsize s <= PAGE_SIZE;
  si_list : list_rep m (sl_free s) fs;
  si_nodes : forall x, x ∈ fs -> slab_node page s x;
  si_count : sl_objcount s = Z.of_nat (length fs);
  si_used : forall x, slab_node page s x -> x ∉ fs -> ld m x = 0
}.

Lemma slab_node_off page s x m fs :
  slab_inv m page s fs -> slab_node page s x ->
  exists off, x = page + off /\ HEADER_SIZE <= off < PAGE_SIZE - 8 /\
    (off - HEADER_SIZE) mod sl_objsize s = 0 /\ 0 < x.
Proof.
  intros [[? ?] (? & ? & Hs) _ _ _ _] (i & Hi & ->).
  unfold HEADER_SIZE, PAGE_SIZE in *.
  exists (64 + i * sl_objsize s). split_and!; [lia|nia|nia| |nia].
  rewrite Z.add_simpl_l. apply Z_mod_mult.
Qed.

Fixpoint node_seq (x step : Z) (k : nat) : list Z :=
  match k with O => [] | S k' => x :: node_seq (x + step) step k' end.

Lemma elem_of_node_seq x step k y :
  y ∈ node_seq x step k <-> exists i, 0 <= i < Z.of_nat k /\ y = x + i * step.
Proof.
  revert x. induction k as [|k IH]; intros x; simpl.
  - split; [set_solver|]. intros (i & ? & _). lia.
  - rewrite elem_of_cons, IH. split.
    + intros [->|(i & ? & ->)]; [exists 0|exists (i + 1)]; lia.
    + intros (i & ? & ->). destruct (decide (i = 0)) as [->|]; [left; lia|].
      right. exists (i - 1). lia.
Qed.

Lemma length_node_seq x step k : length (node_seq x step k) = k.
Proof. revert x. induction k; intros; simpl; auto. Qed.

Lemma push_objs_rep k m l xs obj objsize :
  list_rep m l xs -> 0 < obj -> 0 < objsize -> (forall x, x ∈ xs -> x < obj) ->
  list_rep (fst (push_objs m l obj objsize k)) (snd (push_objs m l obj objsize k))
    (xs ++ node_seq obj objsize k).
Proof.
  revert m l xs obj. induction k as [|k IH]; intros m l xs obj Hr Ho Hs Hx; simpl.
  { by rewrite app_nil_r. }
  pose proof (list_push_rep m l xs obj Hr ltac:(lia)
    ltac:(intros Hin; specialize (Hx _ Hin); lia)) as Hr'.
  destruct (list_push m l obj) as [m' l']. simpl in Hr'.
  rewrite (cons_middle obj xs), app_assoc. apply IH; [done|lia|lia|].
  intros x [Hin|Hin]%elem_of_app; [specialize (Hx _ Hin); lia|set_solver by lia].
Qed.

Lemma slab_create_inv m osize page :
  page mod PAGE_SIZE = 0 -> 0 < page -> 1 <= osize ->
  exists m' s fs, slab_create m osize page = (m', Some s) /\ slab_inv m' page s fs /\
    sl_objcount s = sl_objnum s /\ sl_objnum s = (PAGE_SIZE - HEADER_SIZE) / sl_objsize s /\
    sl_objsize s = ALIGN (NODE_SIZE + osize) 8 /\
    fs = node_seq (page + HEADER_SIZE) (sl_objsize s) (Z.to_nat (sl_objnum s)) /\
    (forall x, slab_node page s x -> x ∈ fs).
Proof.
  intros Hp Hp0 Ho. unfold slab_create. replace (page =? 0) with false by lia.
  set (objsize := ALIGN (NODE_SIZE + osize) 8).
  set (objnum := (PAGE_SIZE - HEADER_SIZE) / objsize).
  assert (16 <= objsize) as Hos.
  { destruct (ALIGN_spec (NODE_SIZE + osize) 8) as [? [k Hk]]; [lia|].
    fold objsize in H, Hk. unfold NODE_SIZE in *. lia. }
  assert (0 <= objnum /\ HEADER_SIZE + objnum * objsize <= PAGE_SIZE) as [Hn Hfit].
  { split; [apply Z.div_pos; unfold PAGE_SIZE, HEADER_SIZE; lia|].
    pose proof (Z.mul_div_le (PAGE_SIZE - HEADER_SIZE) objsize ltac:(lia)).
    fold objnum in H. lia. }
  pose proof (push_objs_rep (Z.to_nat objnum) (mem_zero m page PAGE_SIZE) list_init []
    (page + HEADER_SIZE) objsize) as Hr.
  simpl app in Hr. destruct (push_objs _ _ _ _ _) as [m' free]. simpl in Hr.
  assert (list_rep m' free (node_seq (page + HEADER_SIZE) objsize (Z.to_nat objnum))) as Hrep.
  { apply Hr; [|unfold HEADER_SIZE; lia|lia|set_solver].
    split_and!; try done; [apply NoDup_nil_2|set_solver]. }
  set (s := mk_slab free objsize objnum objnum).
  assert (forall x, slab_node page s x ->
    x ∈ node_seq (page + HEADER_SIZE) objsize (Z.to_nat objnum)) as Hall.
  { intros x (i & ? & ->). simpl in *. apply elem_of_node_seq. exists i. lia. }
  do 3 eexists. split; [done|]. split_and!; [|done..].
  split; simpl; [done|lia|exact Hrep| | |].
  - intros x (i & ? & ->)%elem_of_node_seq. exists i. simpl. lia.
  - rewrite length_node_seq. lia.
  - intros x Hx Hnin. by destruct Hnin; apply Hall.
Qed.

Lemma slab_alloc_inv m page s fs :
  slab_inv m page s fs -> sl_objcount s < 2 ^ 64 ->
  match fs with
  | [] => exists s', slab_alloc m s = (0, m, s') /\ slab_inv m page s' []
  | x :: fs' => exists m' s', slab_alloc m s = (x + NODE_SIZE, m', s') /\
      slab_inv m' page s' fs' /\ same_but [x] m m' /\ x <> 0 /\
      sl_objsize s' = sl_objsize s /\ sl_objnum s' = sl_objnum s
  end.
Proof.
  intros [Hp Hs Hl Hn Hc Hu] Hlt. unfold slab_alloc. pose proof (list_pop_rep m (sl_free s) fs Hl) as Hpop.
  destruct fs as [|x fs].
  - rewrite Hpop. simpl. eexists. split; [done|]. by split.
  - destruct Hpop as (m' & l' & -> & Hl' & Hx & Hsame).
    assert (x <> 0) as Hx0 by (destruct Hl as (_ & _ & _ & _ & ?); set_solver).
    replace (x =? 0) with false by lia. do 2 eexists. split; [done|].
    assert (x ∉ fs) as Hxf by (destruct Hl as (_ & _ & _ & Hd & _); by apply NoDup_cons in Hd as [? _]).
    split_and!; try done.
    + split; simpl; [done|done| | | |].
      * destruct Hl' as (? & ? & ? & ? & ?). split_and!; try done. by apply chain_frame.
      * intros y Hy. destruct (Hn y) as (i & ? & ->); [set_solver|]. by exists i.
      * rewrite wrap_small; simpl length in Hc; lia.
      * intros y Hy Hyf. destruct (decide (y = x)) as [->|]; [by rewrite ld_st_eq|].
        rewrite ld_st_ne by done. rewrite Hsame by set_solver.
        destruct Hy as (i & ? & ->). apply Hu; [by exists i|set_solver].
    + intros a Ha. rewrite ld_st_ne by set_solver. by apply Hsame.
Qed.

Lemma slab_nodes_apart page s x y :
  0 < sl_objsize s -> slab_node page s x -> slab_node page s y -> x <> y ->
  ~ (x <= y < x + sl_objsize s).
Proof. intros ? (i & ? & ->) (j & ? & ->) Hne. assert (i <> j) by congruence. nia. Qed.

Lemma slab_checks m page s fs x :
  slab_inv m page s fs -> slab_node page s x ->
  (page_of page =? page_of x) = true /\
  (u64 (Z.land x (PAGE_SIZE - 1) - HEADER_SIZE) mod sl_objsize s =? 0) = true.
Proof.
  intros Hi Hx. pose proof (si_page _ _ _ _ Hi) as [Hp ?].
  destruct (slab_node_off page s x m fs Hi Hx) as (off & -> & Ho & Hm & _).
  unfold HEADER_SIZE, PAGE_SIZE in *.
  rewrite page_off_add, page_of_add by (done || unfold PAGE_SIZE; lia).
  rewrite <- (Z.add_0_r page) at 1. rewrite page_of_add by (done || unfold PAGE_SIZE; lia).
  rewrite wrap_small by lia. rewrite Hm. lia.
Qed.

Lemma slab_free_length m page s fs :
  slab_inv m page s fs -> Z.of_nat (length fs) <= sl_objnum s.
Proof.
  intros [_ (_ & ? & _) (_ & _ & _ & Hd & _) Hn _ _].
  enough (length fs <= length (node_seq (page + HEADER_SIZE) (sl_objsize s)
    (Z.to_nat (sl_objnum s))))%nat by (rewrite length_node_seq in *; lia).
  apply submseteq_length, NoDup_submseteq; [done|].
  intros x Hx. destruct (Hn x Hx) as (i & ? & ->). apply elem_of_node_seq.
  exists i. lia.
Qed.

Lemma slab_free_inv m page s fs x :
  slab_inv m page s fs -> slab_node page s x -> x ∉ fs ->
  exists m' s', slab_free m page s (x + NODE_SIZE) = (true, m', s') /\
    slab_inv m' page s' (fs ++ [x]) /\
    (forall a, ~ (x <= a < x + sl_objsize s) -> ~ (slab_node page s a) -> ld m' a = ld m a).
Proof.
  intros Hi Hx Hxf. destruct (slab_checks m page s fs x Hi Hx) as [C1 C2].
  destruct (slab_node_off page s x m fs Hi Hx) as (off & _ & _ & _ & Hx0).
  pose proof Hi as [Hp Hs Hl Hn Hc Hu].
  unfold slab_free. rewrite Z.add_simpl_r, C1, C2, (Hu x) by done. simpl.
  set (m0 := mem_zero m x (sl_objsize s)).
  assert (forall y, slab_node page s y -> y <> x -> ld m0 y = ld m y) as H0.
  { intros y Hy Hne. unfold m0. rewrite ld_mem_zero. case_decide as D; [|done].
    by destruct (slab_nodes_apart page s x y ltac:(lia) Hx Hy ltac:(done)). }
  assert (ld m0 x = 0) as H0x by (unfold m0; rewrite ld_mem_zero; case_decide; [done|lia]).
  assert (list_rep m0 (sl_free s) fs) as Hl0.
  { apply (list_rep_frame m); [|done]. intros y Hy. apply H0; [by apply Hn|set_solver]. }
  pose proof (list_push_rep m0 (sl_free s) fs x Hl0 ltac:(lia) Hxf) as Hl1.
  assert (forall a, a <> x -> a ∉ fs -> ld (fst (list_push m0 (sl_free s) x)) a = ld m0 a) as Hfr.
  { intros a Ha Haf. by apply (list_push_same m0 _ fs). }
  destruct (list_push m0 (sl_free s) x) as [m1 l1]. simpl in *.
  pose proof (slab_free_length m page s fs Hi) as Hlen.
  do 2 eexists. split; [done|]. split.
  - split; simpl; [done|done|done| | |].
    + intros y [Hy|Hy]%elem_of_app.
      * destruct (Hn y Hy) as (i & ? & ->). by exists i.
      * apply list_elem_of_singleton in Hy as ->. destruct Hx as (i & ? & ->). by exists i.
    + rewrite length_app, wrap_small; simpl; [lia|].
      unfold PAGE_SIZE, HEADER_SIZE in *. nia.
    + intros y Hy Hyf. assert (slab_node page s y) as Hy' by (destruct Hy as (i & ? & ->); by exists i).
      rewrite Hfr by set_solver. rewrite H0 by set_solver. apply Hu; set_solver.
  - intros a Ha Hna. rewrite Hfr.
    + unfold m0. rewrite ld_mem_zero. by case_decide.
    + intros ->. done.
    + intros Haf. apply Hna. by apply Hn.
Qed.

(** ** What clients rely on

    An allocator of objects of [oa_size] bytes: allocated objects do not
    overlap, neither operation touches the bytes of another live object, and a
    client may write inside its own objects. *)
Definition in_obj (size o a : Z) : Prop := o <= a < o + size.

Class ObjAlloc (A : Type) := {
  oa_size : A -> Z;
  oa_inv : mem -> A -> gset Z -> Prop;
  oa_alloc : mem -> A -> Z -> Z * mem * A;
  oa_free : mem -> A -> Z -> mem * A;
  oa_alloc_spec m a live page :
    oa_inv m a live -> page mod PAGE_SIZE = 0 -> 0 <= page ->
    exists o m' a', oa_alloc m a page = (o, m', a') /\ oa_size a' = oa_size a /\
      (o = 0 /\ oa_inv m' a' live \/
       o <> 0 /\ o ∉ live /\ oa_inv m' a' ({[o]} ∪ live)) /\
      (forall x b, x ∈ live -> in_obj (oa_size a) x b -> ld m' b = ld m b);
  oa_free_spec m a live o :
    oa_inv m a live -> o ∈ live ->
    exists m' a', oa_free m a o = (m', a') /\ oa_inv m' a' (live ∖ {[o]}) /\
      oa_size a' = oa_size a /\
      (forall x b, x ∈ live -> x <> o -> in_obj (oa_size a) x b -> ld m' b = ld m b);
  oa_frame m m' a live :
    oa_inv m a live ->
    (forall b, (forall x, x ∈ live -> ~ in_obj (oa_size a) x b) -> ld m' b = ld m b) ->
    oa_inv m' a live;
  oa_apart m a live x y b :
    oa_inv m a live -> x ∈ live -> y ∈ live -> x <> y ->
    in_obj (oa_size a) x b -> ~ in_obj (oa_size a) y b;
  oa_nonnull m a live : oa_inv m a live -> 0 ∉ live
}.

(** A cache has no slab, or exactly one, which [last_free] designates for ever
    after. *)
Definition oc_inv (m : mem) (oc : objcache) (live : gset Z) : Prop :=
  1 <= oc_osize oc /\
  ((oc_last_free oc = 0 /\ oc_slabs oc = [] /\ oc_hdr oc = ∅ /\ live = ∅) \/
   exists page s fs, oc_last_free oc = page /\ oc_slabs oc = [page] /\
     oc_hdr oc = {[ page := s ]} /\ slab_inv m page s fs /\
     NODE_SIZE + oc_osize oc <= sl_objsize s /\
     forall o, o ∈ live <-> slab_node page s (o - NODE_SIZE) /\ (o - NODE_SIZE) ∉ fs).

Lemma obj_not_node page s o osize a :
  16 <= sl_objsize s -> NODE_SIZE + osize <= sl_objsize s ->
  slab_node page s (o - NODE_SIZE) -> in_obj osize o a -> ~ slab_node page s a.
Proof.
  unfold NODE_SIZE, in_obj. intros ? ? (i & ? & E) Ha (j & ? & E').
  assert (0 < (j - i) * sl_objsize s < sl_objsize s) by (rewrite Z.mul_sub_distr_r; lia).
  destruct (decide (j <= i)); nia.
Qed.

Lemma objs_apart page s o x osize a :
  16 <= sl_objsize s -> NODE_SIZE + osize <= sl_objsize s ->
  slab_node page s (o - NODE_SIZE) -> slab_node page s (x - NODE_SIZE) ->
  x <> o -> in_obj osize x a -> ~ (o - NODE_SIZE <= a < o - NODE_SIZE + sl_objsize s).
Proof.
  unfold NODE_SIZE, in_obj. intros ? ? (i & ? & E) (j & ? & E') ? Ha Ha'.
  assert (i <> j) by (intros ->; lia).
  assert (- sl_objsize s < (j - i) * sl_objsize s < sl_objsize s)
    by (rewrite Z.mul_sub_distr_r; lia).
  destruct (decide (j <= i)); nia.
Qed.

Lemma slab_inv_count m page s fs : slab_inv m page s fs -> sl_objcount s < 2 ^ 64.
Proof.
  intros Hi. pose proof (slab_free_length m page s fs Hi). destruct Hi as [_ (? & ? & ?) _ _ -> _].
  unfold HEADER_SIZE, PAGE_SIZE in *. nia.
Qed.

(** One allocation from a slab whose live objects are [live]. *)
Lemma slab_alloc_live m osize page s fs (live : gset Z) :
  slab_inv m page s fs -> NODE_SIZE + osize <= sl_objsize s ->
  (forall o, o ∈ live <-> slab_node page s (o - NODE_SIZE) /\ (o - NODE_SIZE) ∉ fs) ->
  exists o m' s' fs', slab_alloc m s = (o, m', s') /\ slab_inv m' page s' fs' /\
    (forall x b, x ∈ live -> in_obj osize x b -> ld m' b = ld m b) /\
    sl_objsize s' = sl_objsize s /\
    (fs = [] /\ o = 0 /\ (forall o', o' ∈ live <-> slab_node page s' (o' - NODE_SIZE) /\ (o' - NODE_SIZE) ∉ fs') \/
     o <> 0 /\ o ∉ live /\
     forall o', o' ∈ {[o]} ∪ live <-> slab_node page s' (o' - NODE_SIZE) /\ (o' - NODE_SIZE) ∉ fs').
Proof.
  intros Hi Hsz Hlive. pose proof (slab_alloc_inv m page s fs Hi (slab_inv_count _ _ _ _ Hi)) as Ha.
  destruct fs as [|x fs].
  - destruct Ha as (s' & Ha & Hi'). exists 0, m, s', [].
    assert (sl_objsize s' = sl_objsize s /\ sl_objnum s' = sl_objnum s) as [Es En].
    { unfold slab_alloc in Ha. destruct (list_pop m (sl_free s)) as [[obj m'] l'].
      by destruct (obj =? 0); simplify_eq/=. }
    split_and!; [done..|]. left. split_and!; [done..|].
    intros o'. rewrite (Hlive o'). unfold slab_node. by rewrite Es, En.
  - destruct Ha as (m' & s' & -> & Hi' & Hsame & Hx0 & Es & En).
    exists (x + NODE_SIZE), m', s', fs.
    pose proof (si_size _ _ _ _ Hi) as (Hos & _ & _).
    assert (slab_node page s x) as Hx by (apply (si_nodes _ _ _ _ Hi); set_solver).
    assert (0 < x) as Hx1 by (by destruct (slab_node_off page s x m _ Hi Hx) as (? & _ & _ & _ & ?)).
    assert (x ∉ fs) as Hxf.
    { destruct (si_list _ _ _ _ Hi) as (_ & _ & _ & Hd & _). by apply NoDup_cons in Hd as [? _]. }
    assert (forall y, slab_node page s' y <-> slab_node page s y) as Hnode.
    { intros y. unfold slab_node. by rewrite Es, En. }
    split_and!; [done|done| |done|right; split_and!].
    + intros y b Hy Hb. apply Hsame. apply Hlive in Hy as [Hy _].
      intros ->%list_elem_of_singleton. by apply (obj_not_node page s y osize x).
    + unfold NODE_SIZE. lia.
    + intros Hin. apply Hlive in Hin as [_ Hnin]. rewrite Z.add_simpl_r in Hnin. set_solver.
    + intros o'. rewrite elem_of_union, elem_of_singleton, Hlive, Hnode. split.
      * intros [->|[? ?]]; [by rewrite Z.add_simpl_r|set_solver].
      * intros [? ?]. destruct (decide (o' = x + NODE_SIZE)); [by left|right].
        split; [done|]. apply not_elem_of_cons. split; [lia|done].
Qed.

(** Allocating from the slab of a one-slab cache. *)
Lemma oc_alloc_slab m osize page s fs (live : gset Z) :
  1 <= osize -> slab_inv m page s fs -> NODE_SIZE + osize <= sl_objsize s ->
  (forall o, o ∈ live <-> slab_node page s (o - NODE_SIZE) /\ (o - NODE_SIZE) ∉ fs) ->
  exists o m' s', slab_alloc m s = (o, m', s') /\
    (o = 0 /\ oc_inv m' (mk_oc osize [page] page {[ page := s' ]}) live \/
     o <> 0 /\ o ∉ live /\ oc_inv m' (mk_oc osize [page] page {[ page := s' ]}) ({[o]} ∪ live)) /\
    (forall x b, x ∈ live -> in_obj osize x b -> ld m' b = ld m b).
Proof.
  intros Ho Hi Hsz Hlive.
  destruct (slab_alloc_live m osize page s fs live Hi Hsz Hlive)
    as (o & m' & s' & fs' & -> & Hi' & Hsame & Es & Hcase). rewrite <- Es in Hsz.
  do 3 eexists. split; [done|]. split; [|done].
  destruct Hcase as [(_ & -> & Hlive')|(? & ? & Hlive')]; [left|right; split; [done|]];
    (split; [done|]; split; [done|]; right; by exists page, s', fs').
Qed.

Lemma oc_alloc_inv m oc live page :
  oc_inv m oc live -> page mod PAGE_SIZE = 0 -> 0 <= page ->
  exists o m' oc', objcache_alloc m oc page = (o, m', oc') /\ oc_osize oc' = oc_osize oc /\
    (o = 0 /\ oc_inv m' oc' live \/
     o <> 0 /\ o ∉ live /\ oc_inv m' oc' ({[o]} ∪ live)) /\
    (forall x b, x ∈ live -> in_obj (oc_osize oc) x b -> ld m' b = ld m b).
Proof.
  intros [Ho [(Hl & Hs & Hh & ->)|(pg & s & fs & Hl & Hs & Hh & Hi & Hsz & Hlive)]] Hp Hp0;
    unfold objcache_alloc; rewrite Hl.
  - simpl. unfold oc_grow. destruct (decide (page = 0)) as [->|].
    + unfold slab_create. simpl. rewrite Hh, lookup_empty.
      do 3 eexists. split_and!; [done|done| |set_solver]. left. split; [done|]. split; [done|].
      by left.
    + destruct (slab_create_inv m (oc_osize oc) page Hp ltac:(lia) Ho)
        as (m1 & s & fs & -> & Hi & _ & _ & Hsz & _ & Hall). simpl.
      rewrite Hh, Hs, lookup_insert_eq, insert_empty.
      destruct (oc_alloc_slab m1 (oc_osize oc) page s fs ∅ Ho Hi) as (o & m' & s' & -> & Hc & _).
      { rewrite Hsz. apply ALIGN_spec. lia. }
      { intros o. split; [set_solver|]. intros [Hn Hnf]. by destruct Hnf; apply Hall. }
      do 3 eexists. rewrite insert_singleton_eq. split; [done|]. split; [done|]. split; [exact Hc|set_solver].
  - assert (pg <> 0) by (pose proof (si_page _ _ _ _ Hi); lia).
    replace (pg =? 0) with false by lia. rewrite Hl, Hh, Hs, lookup_singleton_eq.
    destruct (oc_alloc_slab m (oc_osize oc) pg s fs live Ho Hi Hsz Hlive) as (o & m' & s' & -> & Hc).
    do 3 eexists. rewrite insert_singleton_eq. split; [done|]. split; [done|exact Hc].
Qed.

Lemma oc_free_inv m oc live o :
  oc_inv m oc live -> o ∈ live ->
  exists m' oc', objcache_free m oc o = (true, m', oc') /\ oc_inv m' oc' (live ∖ {[o]}) /\
    oc_osize oc' = oc_osize oc /\
    (forall x b, x ∈ live -> x <> o -> in_obj (oc_osize oc) x b -> ld m' b = ld m b).
Proof.
  intros [Ho [(_ & _ & _ & ->)|(pg & s & fs & Hl & Hs & Hh & Hi & Hsz & Hlive)]] Hin; [set_solver|].
  pose proof Hin as Hin'. apply Hlive in Hin' as [Hn Hnf].
  pose proof (si_size _ _ _ _ Hi) as (Hos & _ & _).
  assert (slab_get o = pg) as Hg.
  { destruct (slab_node_off pg s _ m fs Hi Hn) as (off & E & ? & _ & _).
    unfold slab_get. replace o with (pg + (off + 8)) by (unfold NODE_SIZE in E; lia).
    apply page_of_add; [apply (si_page _ _ _ _ Hi)|unfold HEADER_SIZE, PAGE_SIZE in *; lia]. }
  unfold objcache_free. rewrite Hg, Hh, lookup_singleton_eq.
  destruct (slab_free_inv m pg s fs (o - NODE_SIZE) Hi Hn Hnf) as (m' & s' & Hf & Hi' & Hsame).
  rewrite Z.sub_add in Hf. rewrite Hf. do 2 eexists. split; [done|].
  assert (sl_objsize s' = sl_objsize s /\ forall y, slab_node pg s' y <-> slab_node pg s y)
    as [Es Hnode].
  { unfold slab_free in Hf. destruct (_ && _ && _); [|done].
    destruct (list_push _ _ _). by simplify_eq. }
  split; [|split; [done|]].
  - split; [done|]. right. exists pg, s', (fs ++ [o - NODE_SIZE]). simpl.
    rewrite insert_singleton_eq. split_and!; try done.
    { by rewrite Es. }
    intros o'. rewrite elem_of_difference, elem_of_singleton, Hlive, Hnode, not_elem_of_app,
      list_elem_of_singleton. split; [intros [[? ?] ?]|intros (? & ? & ?)]; split_and!; try done; lia.
  - intros x b Hx Hne Hb. apply Hlive in Hx as [Hx _]. apply Hsame.
    + by apply (objs_apart pg s o x (oc_osize oc)).
    + by apply (obj_not_node pg s x (oc_osize oc)).
Qed.

Lemma oc_frame m m' oc live :
  oc_inv m oc live ->
  (forall b, (forall x, x ∈ live -> ~ in_obj (oc_osize oc) x b) -> ld m' b = ld m b) ->
  oc_inv m' oc live.
Proof.
  intros [Ho [H|(pg & s & fs & Hl & Hs & Hh & Hi & Hsz & Hlive)]] Hfr; (split; [done|]); [by left|].
  right. exists pg, s, fs. split_and!; try done.
  pose proof (si_size _ _ _ _ Hi) as (Hos & _ & _).
  assert (forall x, slab_node pg s x -> ld m' x = ld m x) as Hsame.
  { intros x Hx. apply Hfr. intros y Hy Hb. apply Hlive in Hy as [Hy _].
    by apply (obj_not_node pg s y (oc_osize oc) x). }
  destruct Hi as [? ? Hrep Hn ? Hu]. split; try done.
  - apply (list_rep_frame m); [|done]. intros x Hx. by apply Hsame, Hn.
  - intros x Hx Hxf. rewrite Hsame by done. by apply Hu.
Qed.

Lemma oc_apart m oc live x y b :
  oc_inv m oc live -> x ∈ live -> y ∈ live -> x <> y ->
  in_obj (oc_osize oc) x b -> ~ in_obj (oc_osize oc) y b.
Proof.
  intros [Ho [(_ & _ & _ & ->)|(pg & s & fs & Hl & Hs & Hh & Hi & Hsz & Hlive)]] Hx Hy Hne Hb Hb';
    [set_solver|].
  apply Hlive in Hx as [Hx _]. apply Hlive in Hy as [Hy _].
  pose proof (si_size _ _ _ _ Hi) as (Hos & _ & _).
  apply (objs_apart pg s y x (oc_osize oc) b); try done. unfold in_obj, NODE_SIZE in *. lia.
Qed.

Lemma oc_nonnull m oc live : oc_inv m oc live -> 0 ∉ live.
Proof.
  intros [Ho [(_ & _ & _ & ->)|(pg & s & fs & Hl & Hs & Hh & Hi & Hsz & Hlive)]] H0; [set_solver|].
  apply Hlive in H0 as [Hx _]. destruct (slab_node_off pg s _ m fs Hi Hx) as (? & _ & _ & _ & ?).
  unfold NODE_SIZE in *. lia.
Qed.

(** The objects a cache can still hand out. *)
Definition oc_left (oc : objcache) : Z :=
  match oc_hdr oc !! oc_last_free oc with
  | Some s => sl_objcount s
  | None => (PAGE_SIZE - HEADER_SIZE) / ALIGN (NODE_SIZE + oc_osize oc) 8
  end.

Lemma slab_alloc_left m page s fs :
  slab_inv m page s fs ->
  exists o m' s', slab_alloc m s = (o, m', s') /\ 0 <= sl_objcount s /\
    (o = 0 <-> sl_objcount s = 0) /\ (o <> 0 -> sl_objcount s' = sl_objcount s - 1).
Proof.
  intros Hi. pose proof (slab_alloc_inv m page s fs Hi (slab_inv_count _ _ _ _ Hi)) as Ha.
  pose proof (si_count _ _ _ _ Hi) as Hc. destruct fs as [|x fs]; simpl in Hc.
  - destruct Ha as (s' & -> & _). do 3 eexists. split; [done|]. split_and!; try done; lia.
  - destruct Ha as (m' & s' & -> & Hi' & _).
    assert (0 < x) as Hx.
    { destruct (slab_node_off page s x m _ Hi) as (? & _ & _ & _ & ?); [|done].
      apply (si_nodes _ _ _ _ Hi). set_solver. }
    pose proof (si_count _ _ _ _ Hi'). do 3 eexists. split; [done|].
    unfold NODE_SIZE. split_and!; lia.
Qed.

Lemma oc_alloc_left m oc live page :
  oc_inv m oc live -> page mod PAGE_SIZE = 0 -> 0 < page ->
  exists o m' oc', objcache_alloc m oc page = (o, m', oc') /\ 0 <= oc_left oc /\
    (o = 0 <-> oc_left oc = 0) /\ (o <> 0 -> oc_left oc' = oc_left oc - 1).
Proof.
  intros [Ho [(Hl & Hs & Hh & ->)|(pg & s & fs & Hl & Hs & Hh & Hi & _)]] Hp Hp0;
    unfold objcache_alloc, oc_left; rewrite Hl, Hh.
  - simpl. unfold oc_grow.
    destruct (slab_create_inv m (oc_osize oc) page Hp ltac:(lia) Ho)
      as (m1 & s & fs & -> & Hi & Ec & En & Es & _). simpl. rewrite Hh, lookup_empty, lookup_insert_eq.
    destruct (slab_alloc_left m1 page s fs Hi) as (o & m' & s' & -> & H0 & H1 & H2).
    do 3 eexists. split; [done|]. simpl. rewrite lookup_insert_eq.
    rewrite Ec, En, Es in *. done.
  - assert (pg <> 0) by (pose proof (si_page _ _ _ _ Hi); lia).
    replace (pg =? 0) with false by lia. rewrite Hl, Hh, lookup_singleton_eq.
    destruct (slab_alloc_left m pg s fs Hi) as (o & m' & s' & -> & H0 & H1 & H2).
    do 3 eexists. split; [done|]. simpl. by rewrite lookup_insert_eq.
Qed.

#[export] Program Instance objcache_alloc_impl : ObjAlloc objcache := {|
  oa_size := oc_osize;
  oa_inv := oc_inv;
  oa_alloc := objcache_alloc;
  oa_free m oc o := let '(_, m', oc') := objcache_free m oc o in (m', oc');
  oa_frame := oc_frame;
  oa_apart := oc_apart;
  oa_nonnull := oc_nonnull
|}.
Next Obligation. intros. by apply oc_alloc_inv. Qed.
Next Obligation.
  intros m oc live o Hi Ho. destruct (oc_free_inv m oc live o Hi Ho) as (m' & oc' & H & ?).
  exists m', oc'. simpl. rewrite H. done.
Qed.

(** ** Histories of a cache *)
Inductive oc_op := OcAlloc (page : Z) | OcFree (obj : Z).

(** Runs a history, with the set of objects handed out and not given back; a
    free of an object that is not in the set is a client error and stops the
    run. *)
Fixpoint oc_run (m : mem) (oc : objcache) (live : gset Z) (ops : list oc_op)
    : option (list Z * mem * objcache * gset Z) :=
  match ops with
  | [] => Some ([], m, oc, live)
  | OcAlloc page :: rest =>
      let '(o, m', oc') := objcache_alloc m oc page in
      '(os, m2, oc2, live2) ← oc_run m' oc' (if o =? 0 then live else {[o]} ∪ live) rest;
      Some (o :: os, m2, oc2, live2)
  | OcFree o :: rest =>
      if decide (o ∈ live) then
        let '(_, m', oc') := objcache_free m oc o in oc_run m' oc' (live ∖ {[o]}) rest
      else None
  end.

Definition oc_op_ok (op : oc_op) : Prop :=
  match op with OcAlloc page => page mod PAGE_SIZE = 0 /\ 0 <= page | OcFree _ => True end.

#[export] Instance oc_op_ok_dec op : Decision (oc_op_ok op).
Proof. destruct op; simpl; apply _. Defined.

Lemma oc_run_inv ops m oc live os m2 oc2 live2 :
  Forall oc_op_ok ops -> oc_inv m oc live -> oc_run m oc live ops = Some (os, m2, oc2, live2) ->
  oc_inv m2 oc2 live2.
Proof.
  revert m oc live os. induction ops as [|op ops IH]; intros m oc live os Hok Hi Hr; simpl in Hr.
  { by simplify_eq. }
  apply Forall_cons in Hok as [Hop Hok]. destruct op as [page|o].
  - destruct Hop as [Hp Hp0]. destruct (oc_alloc_inv m oc live page Hi Hp Hp0)
      as (o & m' & oc' & E & _ & Hc & _). rewrite E in Hr.
    destruct (oc_run m' oc' _ ops) as [[[[os' ?] ?] ?]|] eqn:Er; simplify_eq/=.
    eapply IH; [done| |exact Er]. destruct Hc as [[-> ?]|(Ho & _ & ?)]; [done|].
    by replace (o =? 0) with false by lia.
  - case_decide as Hin; [|done].
    destruct (oc_free_inv m oc live o Hi Hin) as (m' & oc' & E & Hi' & _). rewrite E in Hr.
    by eapply IH.
Qed.

Definition oc_allocs (m : mem) (oc : objcache) (pages : list Z) : list Z :=
  match oc_run m oc ∅ (OcAlloc <$> pages) with Some (os, _, _, _) => os | None => [] end.

(** Allocations from a cache whose slab has the free nodes [fs]. *)
Lemma oc_run_allocs_slab pages m osize page s fs live :
  slab_inv m page s fs -> page <> 0 ->
  exists m2 oc2 live2,
    oc_run m (mk_oc osize [page] page {[ page := s ]}) live (OcAlloc <$> pages)
    = Some (take (length pages) (Z.add NODE_SIZE <$> fs) ++ replicate (length pages - length fs) 0,
            m2, oc2, live2).
Proof.
  revert m s fs live. induction pages as [|pg pages IH]; intros m s fs live Hi Hp; simpl; [eauto|].
  unfold objcache_alloc. simpl. replace (page =? 0) with false by lia. simpl.
  rewrite lookup_singleton_eq.
  pose proof (slab_alloc_inv m page s fs Hi (slab_inv_count _ _ _ _ Hi)) as Ha.
  destruct fs as [|x fs].
  - destruct Ha as (s' & -> & Hi'). rewrite insert_singleton_eq.
    destruct (IH m s' [] live Hi' Hp) as (? & ? & ? & E). 
    change (list_fmap Z oc_op OcAlloc pages) with (OcAlloc <$> pages). simpl.
    rewrite E. simpl. rewrite take_nil, Nat.sub_0_r. simpl. eauto.
  - destruct Ha as (m' & s' & -> & Hi' & _). rewrite insert_singleton_eq.
    match goal with |- context [oc_run m' _ ?lv] => destruct (IH m' s' fs lv Hi' Hp) as (? & ? & ? & E) end.
    change (list_fmap Z oc_op OcAlloc pages) with (OcAlloc <$> pages).
    rewrite E. simpl. rewrite (Z.add_comm x). eauto.
Qed.

(** The first allocation of a fresh cache creates its slab. *)
Lemma oc_run_fresh m osize page pages m' s :
  page <> 0 -> slab_create m osize page = (m', Some s) ->
  oc_run m (mk_oc osize [] 0 ∅) ∅ (OcAlloc <$> (page :: pages)) =
  oc_run m' (mk_oc osize [page] page {[ page := s ]}) ∅ (OcAlloc <$> (page :: pages)).
Proof.
  intros Hp E. simpl. unfold objcache_alloc. simpl. unfold oc_grow. simpl. rewrite E.
  replace (page =? 0) with false by lia. simpl. by rewrite insert_empty.
Qed.

Lemma node_seq_shift d x step k : Z.add d <$> node_seq x step k = node_seq (d + x) step k.
Proof.
  revert x. induction k as [|k IH]; intros x; simpl; [done|]. rewrite IH. do 2 f_equal. lia.
Qed.

(** ** Properties *)

(** Whatever sequence of allocations and frees is made on a fresh cache
    (frees only of objects that are allocated), the objects handed out and not
    yet freed are exactly the used slots of the cache: an allocation never
    returns an object that is still in use. *)
Theorem objcache_no_double_allocation m osize ops os m2 oc2 live page :
  1 <= osize -> Forall oc_op_ok ops ->
  oc_run m (snd (objcache_init m osize false 0)) ∅ ops = Some (os, m2, oc2, live) ->
  page mod PAGE_SIZE = 0 -> 0 <= page ->
  exists o m3 oc3, objcache_alloc m2 oc2 page = (o, m3, oc3) /\ o ∉ live ∖ {[0]} /\
    (o <> 0 -> exists m4 oc4, objcache_free m3 oc3 o = (true, m4, oc4) /\ oc_inv m4 oc4 live) /\
    (forall x b, x ∈ live -> in_obj (oc_osize oc2) x b -> ld m3 b = ld m2 b).
Proof.
  intros Ho Hok Hr Hp Hp0.
  assert (oc_inv m2 oc2 live) as Hi.
  { eapply oc_run_inv; [done| |done]. split; [done|]. left. done. }
  destruct (oc_alloc_inv m2 oc2 live page Hi Hp Hp0) as (o & m3 & oc3 & E & _ & Hc & Hs).
  exists o, m3, oc3. split_and!; [done| | |done].
  - destruct Hc as [[-> _]|(? & ? & _)]; set_solver.
  - intros Hne. destruct Hc as [[? _]|(_ & Hn & Hi')]; [done|].
    destruct (oc_free_inv m3 oc3 _ o Hi') as (m4 & oc4 & E' & Hi4 & _); [set_solver|].
    exists m4, oc4. split; [done|].
    by replace (({[o]} ∪ live) ∖ {[o]}) with live in Hi4 by set_solver.
Qed.

Lemma objcache_no_double_allocation_witness :
  let '(os, m2, oc2, live) :=
    default ([], ∅, mk_oc 0 [] 0 ∅, ∅)
      (oc_run ∅ (mk_oc 1000 [] 0 ∅) ∅ [OcAlloc 4096; OcAlloc 8192; OcFree (4096 + 72)]) in
  exists o m3 oc3, objcache_alloc m2 oc2 0 = (o, m3, oc3) /\ o ∉ live ∖ {[0]} /\
    (o <> 0 -> exists m4 oc4, objcache_free m3 oc3 o = (true, m4, oc4) /\ oc_inv m4 oc4 live) /\
    (forall x b, x ∈ live -> in_obj (oc_osize oc2) x b -> ld m3 b = ld m2 b).
Proof.
  destruct (oc_run _ _ _ _) as [[[[os m2] oc2] live]|] eqn:E; [|by vm_compute in E].
  apply (objcache_no_double_allocation ∅ 1000 [OcAlloc 4096; OcAlloc 8192; OcFree (4096 + 72)]
    os m2 oc2 live 0); [lia| |exact E|reflexivity|lia].
  repeat constructor; simpl; (reflexivity || lia).
Defined.

(** A cache never grows past its first slab: the allocations made on a
    fresh cache return, in address order, the [(4096 - 64) / objsize] objects
    of that slab, and then null for ever, whatever pages the page allocator
    could provide. *)
Theorem objcache_single_slab m osize page pages :
  1 <= osize -> page mod PAGE_SIZE = 0 -> 0 < page ->
  let objsize := ALIGN (NODE_SIZE + osize) 8 in
  let objnum := Z.to_nat ((PAGE_SIZE - HEADER_SIZE) / objsize) in
  oc_allocs m (snd (objcache_init m osize false 0)) (page :: pages) =
    take (S (length pages))
      (node_seq (page + HEADER_SIZE + NODE_SIZE) objsize objnum)
    ++ replicate (S (length pages) - objnum) 0.
Proof.
  intros Ho Hp Hp0 objsize objnum.
  unfold oc_allocs, objcache_init. simpl snd.
  destruct (slab_create_inv m osize page Hp Hp0 Ho) as (m' & s & fs & E & Hi & _ & En & Es & -> & _).
  rewrite (oc_run_fresh m osize page pages m' s ltac:(lia) E).
  match type of Hi with slab_inv _ _ _ ?fs =>
    destruct (oc_run_allocs_slab (page :: pages) m' osize page s fs ∅ Hi ltac:(lia))
      as (? & ? & ? & ->) end.
  rewrite length_node_seq, node_seq_shift, En, Es. fold objsize. do 2 f_equal.
  unfold NODE_SIZE, HEADER_SIZE. f_equal. lia.
Qed.

Lemma objcache_single_slab_witness :
  oc_allocs ∅ (mk_oc 1336 [] 0 ∅) [4096; 8192; 12288; 16384] = [4168; 5512; 6856; 0].
Proof.
  apply (objcache_single_slab ∅ 1336 4096 [8192; 12288; 16384]); [lia|reflexivity|lia].
Defined.

(** The test that an object is not already free looks only at its link,
    which is null for the last node of the free list: freeing the most recently
    freed object again is accepted, and the two next allocations then return
    the same object. *)
Theorem objcache_double_free :
  let oc0 := mk_oc 1336 [] 0 ∅ in
  let '(a, m1, oc1) := objcache_alloc ∅ oc0 4096 in
  let '(b, m2, oc2) := objcache_alloc m1 oc1 0 in
  let '(c, m3, oc3) := objcache_alloc m2 oc2 0 in
  let '(r1, m4, oc4) := objcache_free m3 oc3 a in
  let '(r2, m5, oc5) := objcache_free m4 oc4 a in
  let '(x, m6, oc6) := objcache_alloc m5 oc5 0 in
  let '(y, _, _) := objcache_alloc m6 oc6 0 in
  a <> 0 /\ r1 = true /\ r2 = true /\ x = a /\ y = a.
Proof. vm_compute. split_and!; done. Qed.
