(* ===== verification/CpuMsg.v ===== *)
(** * Messages between CPUs

    [core/cpu.c]: [cpu_send_msg], [cpu_get_msg] and [cpu_msg_handler]. A message
    is copied into a node taken from the object cache [msg_cache]; the node is
    pushed on the event list of the target CPU and given back to the cache when
    the message is fetched. The file is written against the allocator interface
    [ObjAlloc] and refines a family of message queues. *)

From S2P Require Import Prelude Bit PagePool ListC ObjCache.

Record cpu_msg := mk_msg { msg_handler : Z; msg_event : Z; msg_data : Z }.

#[export] Instance cpu_msg_eq_dec : EqDecision cpu_msg.
Proof. solve_decision. Defined.

Definition msg_wf (msg : cpu_msg) : Prop :=
  0 <= msg_handler msg < 2 ^ 32 /\ 0 <= msg_event msg < 2 ^ 32.

(** [cpu_msg_node_t]: the link, the two 32-bit fields packed in one word, and
    the data word. *)
Definition MSG_NODE_SIZE : Z := 24.

Definition msg_store (m : mem) (node : Z) (msg : cpu_msg) : mem :=
  st (st m (node + 8) (Z.lor (msg_handler msg) (Z.shiftl (msg_event msg) 32)))
     (node + 16) (msg_data msg).

Definition msg_load (m : mem) (node : Z) : cpu_msg :=
  mk_msg (u32 (ld m (node + 8))) (Z.shiftr (ld m (node + 8)) 32) (ld m (node + 16)).

Section Messages.
Context {A : Type} {HA : ObjAlloc A}.

(** The shared memory, the message cache, the event list of every CPU and the
    inter-processor interrupts raised so far. *)
Record msg_state := mk_ms {
  ms_mem : mem;
  ms_cache : A;
  ms_events : gmap Z list_t;
  ms_ipis : list Z
}.

Definition cpu_events (s : msg_state) (cpu : Z) : list_t := default list_init (ms_events s !! cpu).

(** [page] is what the page allocator would provide to the cache. *)
Definition cpu_send_msg (s : msg_state) (trgtcpu : Z) (msg : cpu_msg) (page : Z) : res msg_state :=
  let '(node, m1, a1) := oa_alloc (ms_mem s) (ms_cache s) page in
  if node =? 0 then Fault (Panic "cant allocate msg node")
  else
    let m2 := msg_store m1 node msg in
    let '(m3, l) := list_push m2 (cpu_events s trgtcpu) node in
    Ok (mk_ms m3 a1 (<[trgtcpu := l]> (ms_events s)) (ms_ipis s ++ [trgtcpu])).

Definition cpu_get_msg (s : msg_state) (cpu : Z) : option cpu_msg * msg_state :=
  let '(node, m1, l) := list_pop (ms_mem s) (cpu_events s cpu) in
  if node =? 0 then (None, mk_ms m1 (ms_cache s) (<[cpu := l]> (ms_events s)) (ms_ipis s))
  else
    let msg := msg_load m1 node in
    let '(m2, a2) := oa_free m1 (ms_cache s) node in
    (Some msg, mk_ms m2 a2 (<[cpu := l]> (ms_events s)) (ms_ipis s)).

(** [ipi_cpumsg_handlers]: the number of registered handlers and which of the
    table's entries are not null. The loop returns the calls it makes. *)
Fixpoint cpu_msg_handler (fuel : nat) (handler_num : Z) (registered : Z -> bool)
    (s : msg_state) (cpu : Z) : option (list cpu_msg * msg_state) :=
  match fuel with
  | O => None
  | S f =>
      match cpu_get_msg s cpu with
      | (None, s') => Some ([], s')
      | (Some msg, s') =>
          '(calls, s2) ← cpu_msg_handler f handler_num registered s' cpu;
          Some ((if (msg_handler msg <? handler_num) && registered (msg_handler msg)
                 then [msg] else []) ++ calls, s2)
      end
  end.

(** ** The queues the heap represents *)

(** [nodes c] are the nodes on the list of CPU [c], and [q c] the messages. *)
Record msg_rep (s : msg_state) (nodes : Z -> list Z) (q : Z -> list cpu_msg) : Prop := {
  mr_size : oa_size (ms_cache s) = MSG_NODE_SIZE;
  mr_live : exists live, oa_inv (ms_mem s) (ms_cache s) live /\ forall c x, x ∈ nodes c -> x ∈ live;
  mr_list : forall c, list_rep (ms_mem s) (cpu_events s c) (nodes c);
  mr_disj : forall c c' x, x ∈ nodes c -> x ∈ nodes c' -> c = c';
  mr_msgs : forall c, q c = msg_load (ms_mem s) <$> nodes c
}.

Lemma msg_load_ext m m' node :
  ld m' (node + 8) = ld m (node + 8) -> ld m' (node + 16) = ld m (node + 16) ->
  msg_load m' node = msg_load m node.
Proof. unfold msg_load. by intros -> ->. Qed.

Lemma msg_load_store m node msg : msg_wf msg -> msg_load (msg_store m node msg) node = msg.
Proof.
  intros [Hh He]. unfold msg_load, msg_store.
  rewrite ld_st_eq, (ld_st_ne _ (node + 16)), ld_st_eq by lia. destruct msg as [h e d]; simpl in *.
  f_equal.
  - apply Z.bits_inj'. intros i Hi. rewrite wrap_testbit, Z.lor_spec, Z.shiftl_spec by lia.
    destruct (Z.ltb_spec i 32); simpl.
    + rewrite (Z.testbit_neg_r _ (i - 32)) by lia. by rewrite orb_false_r.
    + destruct (Z.eq_dec h 0) as [->|]; [by rewrite Z.bits_0|].
      symmetry. apply Z.bits_above_log2; [lia|]. apply Z.log2_lt_pow2; [lia|].
      apply (Z.lt_le_trans _ (2 ^ 32)); [lia|]. apply Z.pow_le_mono_r; lia.
  - rewrite Z.shiftr_lor, Z.shiftr_shiftl_l, Z.sub_diag, Z.shiftl_0_r by lia.
    rewrite Z.shiftr_div_pow2, Z.div_small by lia. done.
Qed.

Lemma words_apart m (a : A) live x y i j :
  oa_inv m a live -> oa_size a = MSG_NODE_SIZE -> x ∈ live -> y ∈ live ->
  0 <= i < 24 -> 0 <= j < 24 -> x + i = y + j -> x = y.
Proof.
  intros Hi Hs Hx Hy ? ? E. destruct (decide (x = y)) as [|Hne]; [done|].
  destruct (oa_apart m a live x y (x + i) Hi Hx Hy Hne); rewrite Hs; unfold in_obj, MSG_NODE_SIZE; lia.
Qed.

(** Writes inside the object [node] and to the links of the nodes of CPU [c]
    keep the allocator's invariant, every message in another node, and the
    lists of the other CPUs. *)
Lemma msg_writes m m3 (a : A) live (nodes : Z -> list Z) c node :
  oa_inv m a live -> oa_size a = MSG_NODE_SIZE -> node ∈ live ->
  (forall c' x, x ∈ nodes c' -> x ∈ live /\ x <> node) ->
  (forall c c' x, x ∈ nodes c -> x ∈ nodes c' -> c = c') ->
  (forall b, ~ in_obj MSG_NODE_SIZE node b -> b ∉ nodes c -> ld m3 b = ld m b) ->
  oa_inv m3 a live /\
  (forall c' x, x ∈ nodes c' -> msg_load m3 x = msg_load m x) /\
  (forall c' l, c' <> c -> list_rep m l (nodes c') -> list_rep m3 l (nodes c')).
Proof.
  intros Hi Hs Hn Hnodes Hd Hw.
  assert (forall c' x k, x ∈ nodes c' -> 0 <= k < 24 -> ~ in_obj MSG_NODE_SIZE node (x + k)) as Hout.
  { intros c' x k Hx Hk. destruct (Hnodes c' x Hx) as [Hlx Hne]. rewrite <- Hs.
    apply (oa_apart m a live x); try done. rewrite Hs. unfold in_obj, MSG_NODE_SIZE. lia. }
  split_and!.
  - apply (oa_frame m); [done|]. intros b Hb. rewrite Hs in Hb. apply Hw; [by apply Hb|].
    intros Hin. destruct (Hnodes c b Hin) as [Hlb _]. apply (Hb b Hlb).
    unfold in_obj, MSG_NODE_SIZE. lia.
  - intros c' x Hx. destruct (Hnodes c' x Hx) as [Hlx _].
    assert (forall k, k = 8 \/ k = 16 -> ld m3 (x + k) = ld m (x + k)) as Hk.
    { intros k Hk. apply Hw; [apply (Hout c'); [done|lia]|].
      intros Hin. destruct (Hnodes c _ Hin) as [Hlk _].
      pose proof (words_apart m a live x (x + k) k 0 Hi Hs Hlx Hlk). lia. }
    apply msg_load_ext; apply Hk; lia.
  - intros c' l Hne. apply list_rep_frame. intros x Hx. rewrite <- (Z.add_0_r x) at 1 2.
    apply Hw; [apply (Hout c'); [done|lia]|]. rewrite Z.add_0_r. intros Hxc. by destruct Hne; eapply Hd.
Qed.

Lemma msg_rep_ext s nodes q q' :
  (forall c, q' c = q c) -> msg_rep s nodes q -> msg_rep s nodes q'.
Proof. intros E [? ? ? ? Hq]. split; try done. intros c. by rewrite E. Qed.

(** Adding a message to the list of one CPU, once its node is allocated. *)
Lemma msg_push_rep m (a : A) ev ips live nodes c node msg :
  let s := mk_ms m a ev ips in
  oa_inv m a live -> node ∈ live -> msg_wf msg ->
  msg_rep s nodes (fun c' => msg_load m <$> nodes c') ->
  (forall c' x, x ∈ nodes c' -> x ∈ live /\ x <> node) ->
  let '(m3, l) := list_push (msg_store m node msg) (cpu_events s c) node in
  forall ips', msg_rep (mk_ms m3 a (<[c := l]> ev) ips')
    (fun c' => if decide (c' = c) then nodes c ++ [node] else nodes c')
    (fun c' => if decide (c' = c) then (msg_load m <$> nodes c) ++ [msg] else msg_load m <$> nodes c').
Proof.
  intros s Hi Hn Hwf [Hs _ Hl Hd _] Hnodes. simpl in *.
  assert (node <> 0) as Hn0 by (pose proof (oa_nonnull m a live Hi); set_solver).
  assert (node ∉ nodes c) as Hnc by (intros Hx; by destruct (Hnodes c node Hx)).
  set (m2 := msg_store m node msg).
  assert (forall b, ~ in_obj MSG_NODE_SIZE node b -> ld m2 b = ld m b) as H2.
  { intros b Hb. unfold m2, msg_store, in_obj, MSG_NODE_SIZE in *. rewrite !ld_st_ne by lia. done. }
  assert (list_rep m2 (cpu_events s c) (nodes c)) as Hl2.
  { apply (list_rep_frame m); [|apply Hl]. intros x Hx. destruct (Hnodes c x Hx) as [Hlx Hne].
    apply H2. rewrite <- Hs. apply (oa_apart m a live x); try done.
    rewrite Hs. unfold in_obj, MSG_NODE_SIZE. lia. }
  pose proof (list_push_rep m2 _ _ node Hl2 Hn0 Hnc) as Hp.
  pose proof (fun b => list_push_same m2 _ _ node b Hl2) as H3.
  destruct (list_push m2 (cpu_events s c) node) as [m3 l]. simpl in Hp, H3. intros ips'.
  destruct (msg_writes m m3 a live nodes c node) as (Hi3 & Hload & Hl3); try done.
  { intros b Hb Hbc. rewrite H3; [by apply H2| |done].
    intros ->. apply Hb. unfold in_obj, MSG_NODE_SIZE. lia. }
  assert (msg_load m3 node = msg) as Hmsg.
  { transitivity (msg_load m2 node); [|by apply msg_load_store].
    apply msg_load_ext; apply H3; try lia; intros Hin; destruct (Hnodes c _ Hin) as [Hlk _].
    - pose proof (words_apart m a live node (node + 8) 8 0 Hi Hs Hn Hlk). lia.
    - pose proof (words_apart m a live node (node + 16) 16 0 Hi Hs Hn Hlk). lia. }
  split; simpl.
  - done.
  - exists live. split; [done|]. intros c' x. case_decide; [|intros Hx; by apply Hnodes in Hx as [? _]].
    intros [Hx| ->%list_elem_of_singleton]%elem_of_app; [by apply Hnodes in Hx as [? _]|done].
  - intros c'. unfold cpu_events. simpl. case_decide; [subst c'; by rewrite lookup_insert_eq|].
    rewrite lookup_insert_ne by done. apply Hl3; [done|apply Hl].
  - intros c1 c2 x. do 2 case_decide; subst; rewrite ?elem_of_app, ?list_elem_of_singleton;
      naive_solver.
  - assert (forall c', msg_load m <$> nodes c' = msg_load m3 <$> nodes c') as Hmap.
    { intros c'. apply list_fmap_ext. intros i x Hx.
      symmetry. eapply Hload, list_elem_of_lookup_2, Hx. }
    intros c'. rewrite !Hmap. case_decide; [|done]. rewrite fmap_app. simpl. by rewrite Hmsg.
Qed.

Lemma cpu_send_msg_rep s nodes q c msg page :
  msg_rep s nodes q -> msg_wf msg -> page mod PAGE_SIZE = 0 -> 0 <= page ->
  cpu_send_msg s c msg page = Fault (Panic "cant allocate msg node") \/
  exists s' node, cpu_send_msg s c msg page = Ok s' /\
    msg_rep s' (fun c' => if decide (c' = c) then nodes c ++ [node] else nodes c')
      (fun c' => if decide (c' = c) then q c ++ [msg] else q c') /\
    ms_ipis s' = ms_ipis s ++ [c].
Proof.
  intros Hr Hwf Hp Hp0. pose proof Hr as [Hs (live & Hi & Hlive) Hl Hd Hq].
  destruct (oa_alloc_spec _ _ _ page Hi Hp Hp0) as (node & m1 & a1 & E & Es & Hc & Hsame).
  rewrite Hs in Hsame. unfold cpu_send_msg. rewrite E.
  destruct Hc as [[-> _]|(Hn0 & Hn & Hi1)]; [by left|]. right.
  replace (node =? 0) with false by lia.
  assert (forall c' x k, x ∈ nodes c' -> 0 <= k < 24 -> ld m1 (x + k) = ld (ms_mem s) (x + k)) as Hw.
  { intros c' x k Hx Hk. apply (Hsame x); [by eapply Hlive|]. unfold in_obj, MSG_NODE_SIZE. lia. }
  assert (forall c', q c' = msg_load m1 <$> nodes c') as Hq1.
  { intros c'. rewrite Hq. apply list_fmap_ext. intros i x Hx%list_elem_of_lookup_2.
    symmetry. apply msg_load_ext; apply (Hw c'); (done || lia). }
  pose proof (msg_push_rep m1 a1 (ms_events s) (ms_ipis s) ({[node]} ∪ live) nodes c node msg) as Hpush.
  simpl in Hpush. unfold cpu_events at 1 in Hpush. simpl in Hpush. fold (cpu_events s c) in Hpush.
  destruct (list_push (msg_store m1 node msg) (cpu_events s c) node) as [m3 l].
  eexists _, node. split; [done|]. split; [|done].
  apply (msg_rep_ext _ _ (fun c' => if decide (c' = c) then (msg_load m1 <$> nodes c) ++ [msg]
    else msg_load m1 <$> nodes c')).
  { intros c'. by rewrite !Hq1. }
  apply Hpush; [done|set_solver|done| |].
  - split; simpl; [by rewrite Es| |intros c'|done|done].
    + exists ({[node]} ∪ live). split; [done|]. intros c' x Hx. specialize (Hlive c' x Hx). set_solver.
    + apply (list_rep_frame (ms_mem s)); [|apply Hl]. intros x Hx.
      rewrite <- (Z.add_0_r x). apply (Hw c'); [done|lia].
  - intros c' x Hx. specialize (Hlive c' x Hx). set_solver.
Qed.

(** Giving back the node of a message that was unlinked. *)
Lemma msg_free_rep m m1 (a : A) live (nodes : Z -> list Z) node :
  oa_inv m a live -> oa_size a = MSG_NODE_SIZE -> (forall c x, x ∈ nodes c -> x ∈ live) ->
  node ∈ live -> same_but [node] m m1 ->
  msg_load m1 node = msg_load m node /\
  exists m2 a2, oa_free m1 a node = (m2, a2) /\ oa_inv m2 a2 (live ∖ {[node]}) /\
    oa_size a2 = MSG_NODE_SIZE /\
    forall c x, x ∈ nodes c -> x <> node ->
      msg_load m2 x = msg_load m x /\ ld m2 x = ld m1 x /\ ld m1 x = ld m x.
Proof.
  intros Hi Hs Hlive Hn Hsame.
  assert (forall b, b <> node -> ld m1 b = ld m b) as H1 by (intros b Hb; apply Hsame; set_solver).
  split; [apply msg_load_ext; apply H1; lia|].
  assert (oa_inv m1 a live) as Hi1.
  { apply (oa_frame m); [done|]. intros b Hb. apply H1. intros ->. apply (Hb node Hn).
    rewrite Hs. unfold in_obj, MSG_NODE_SIZE. lia. }
  destruct (oa_free_spec _ _ _ node Hi1 Hn) as (m2 & a2 & -> & Hi2 & Es & Hfree).
  rewrite Hs in Hfree. exists m2, a2. split_and!; [done|done|by rewrite Es|].
  intros c x Hx Hne. specialize (Hlive c x Hx).
  assert (forall k, 0 <= k < 24 -> ld m2 (x + k) = ld m1 (x + k) /\ ld m1 (x + k) = ld m (x + k)) as Hk.
  { intros k Hk. split; [apply (Hfree x); [done..|]; unfold in_obj, MSG_NODE_SIZE; lia|].
    apply H1. intros E. apply Hne, (words_apart _ _ _ x node k 0 Hi1 Hs); try done; lia. }
  split_and!.
  - apply msg_load_ext; edestruct Hk as [-> ->]; (done || lia).
  - rewrite <- (Z.add_0_r x). apply Hk. lia.
  - rewrite <- (Z.add_0_r x). apply Hk. lia.
Qed.

Lemma cpu_get_msg_rep s nodes q c :
  msg_rep s nodes q ->
  match q c with
  | [] => exists s', cpu_get_msg s c = (None, s') /\ msg_rep s' nodes q /\ ms_ipis s' = ms_ipis s
  | msg :: rest => exists s' nodes', cpu_get_msg s c = (Some msg, s') /\
      msg_rep s' nodes' (fun c' => if decide (c' = c) then rest else q c') /\ ms_ipis s' = ms_ipis s
  end.
Proof.
  intros [Hs (live & Hi & Hlive) Hl Hd Hq].
  unfold cpu_get_msg. pose proof (list_pop_rep _ _ _ (Hl c)) as Hpop. rewrite (Hq c).
  destruct (nodes c) as [|node ns] eqn:En; simpl.
  - rewrite Hpop. simpl. eexists. split; [done|]. split; [|done].
    split; simpl; [done|by exists live| |done|done].
    intros c'. unfold cpu_events at 1. simpl. destruct (decide (c' = c)) as [->|].
    + rewrite lookup_insert_eq. apply Hl.
    + rewrite lookup_insert_ne by done. apply Hl.
  - destruct Hpop as (m1 & l & -> & Hl1 & _ & Hsame).
    assert (node ∈ live) as Hn by (apply (Hlive c); rewrite En; set_solver).
    replace (node =? 0) with false
      by (symmetry; apply Z.eqb_neq; pose proof (oa_nonnull _ _ _ Hi); set_solver).
    destruct (msg_free_rep _ m1 _ live nodes node Hi Hs Hlive Hn Hsame)
      as (-> & m2 & a2 & -> & Hi2 & Hs2 & Hkeep).
    assert (node ∉ ns) as Hnns
      by (destruct (Hl c) as (_ & _ & _ & Hnd & _); rewrite En in Hnd; by apply NoDup_cons in Hnd as [? _]).
    assert (forall x, x ∈ ns -> x ∈ nodes c /\ x <> node) as Hns by (rewrite En; set_solver).
    assert (forall c' x, c' <> c -> x ∈ nodes c' -> x <> node) as Hother.
    { intros c' x Hne Hx ->. apply Hne, (Hd c' c node); [done|rewrite En; set_solver]. }
    eexists _, (fun c' => if decide (c' = c) then ns else nodes c'). split; [done|]. split; [|done].
    split; simpl.
    + done.
    + exists (live ∖ {[node]}). split; [done|]. intros c' x. case_decide; intros Hx; subst.
      * destruct (Hns x Hx). apply elem_of_difference. split; [by eapply Hlive|set_solver].
      * apply elem_of_difference. split; [by eapply Hlive|]. specialize (Hother c' x). set_solver.
    + intros c'. unfold cpu_events. simpl. case_decide; subst.
      * rewrite lookup_insert_eq. apply (list_rep_frame m1); [|done].
        intros x Hx. destruct (Hns x Hx). by eapply Hkeep.
      * rewrite lookup_insert_ne by done. apply (list_rep_frame (ms_mem s)); [|apply Hl].
        intros x Hx. destruct (Hkeep c' x Hx (Hother c' x ltac:(done) Hx)) as (_ & -> & ->). done.
    + intros c1 c2 x. do 2 case_decide; subst; naive_solver.
    + intros c'. case_decide; subst; [|rewrite Hq]; apply list_fmap_ext;
        intros i x Hx%list_elem_of_lookup_2; symmetry; eapply Hkeep; naive_solver.
Qed.

(** Draining a queue dispatches its messages in order. *)
Definition dispatched (handler_num : Z) (registered : Z -> bool) (msgs : list cpu_msg) : list cpu_msg :=
  filter (fun msg => msg_handler msg < handler_num /\ registered (msg_handler msg) = true) msgs.

Lemma cpu_msg_handler_rep msgs fuel hn reg s nodes q c :
  msg_rep s nodes q -> q c = msgs -> (length msgs < fuel)%nat ->
  exists s' nodes', cpu_msg_handler fuel hn reg s c = Some (dispatched hn reg msgs, s') /\
    msg_rep s' nodes' (fun c' => if decide (c' = c) then [] else q c').
Proof.
  revert fuel s nodes q. induction msgs as [|msg msgs IH]; intros fuel s nodes q Hr Hq Hf;
    (destruct fuel as [|fuel]; [simpl in Hf; lia|]); simpl;
    pose proof (cpu_get_msg_rep s nodes q c Hr) as Hg; rewrite Hq in Hg.
  - destruct Hg as (s' & -> & Hr' & _). eexists _, nodes. split; [done|].
    eapply msg_rep_ext; [|exact Hr']. intros c'. simpl. by case_decide; subst.
  - destruct Hg as (s' & nodes' & -> & Hr' & _).
    destruct (IH fuel s' nodes' _ Hr') as (s2 & nodes2 & -> & Hr2); [by rewrite decide_True|simpl in Hf; lia|].
    simpl. eexists _, nodes2. split.
    + f_equal. f_equal. unfold dispatched. rewrite filter_cons.
      destruct (Z.ltb_spec (msg_handler msg) hn), (reg (msg_handler msg)) eqn:Er; simpl;
        case_decide; naive_solver lia.
    + eapply msg_rep_ext; [|exact Hr2]. intros c'. simpl. by case_decide.
Qed.

(** ** Histories *)

(** [MDrain c] is the handler of the message interrupt on CPU [c]. *)
Inductive msg_op :=
  | MSend (c : Z) (msg : cpu_msg) (page : Z)
  | MGet (c : Z)
  | MDrain (c : Z).

Definition msg_op_ok (op : msg_op) : Prop :=
  match op with
  | MSend _ msg page => msg_wf msg /\ page mod PAGE_SIZE = 0 /\ 0 <= page
  | _ => True
  end.

Definition msg_step (fuel : nat) (hn : Z) (reg : Z -> bool) (s : msg_state) (op : msg_op)
    : res (list cpu_msg * msg_state) :=
  match op with
  | MSend c msg page => s' ← cpu_send_msg s c msg page; Ok ([], s')
  | MGet c => let '(o, s') := cpu_get_msg s c in Ok (option_list o, s')
  | MDrain c =>
      match cpu_msg_handler fuel hn reg s c with Some r => Ok r | None => Fault Hang end
  end.

Fixpoint msg_run (fuel : nat) (hn : Z) (reg : Z -> bool) (s : msg_state) (ops : list msg_op)
    : res (list (list cpu_msg)) :=
  match ops with
  | [] => Ok []
  | op :: rest =>
      '(out, s') ← msg_step fuel hn reg s op; outs ← msg_run fuel hn reg s' rest; Ok (out :: outs)
  end.

(** The specification: one first-in first-out queue of messages per CPU. *)
Definition mq_step (hn : Z) (reg : Z -> bool) (q : Z -> list cpu_msg) (op : msg_op)
    : list cpu_msg * (Z -> list cpu_msg) :=
  match op with
  | MSend c msg _ => ([], fun c' => if decide (c' = c) then q c ++ [msg] else q c')
  | MGet c => (take 1 (q c), fun c' => if decide (c' = c) then drop 1 (q c) else q c')
  | MDrain c => (dispatched hn reg (q c), fun c' => if decide (c' = c) then [] else q c')
  end.

Fixpoint mq_run (hn : Z) (reg : Z -> bool) (q : Z -> list cpu_msg) (ops : list msg_op)
    : list (list cpu_msg) :=
  match ops with
  | [] => []
  | op :: rest => let '(out, q') := mq_step hn reg q op in out :: mq_run hn reg q' rest
  end.

Lemma msg_step_refines fuel hn reg s nodes q op :
  msg_rep s nodes q -> msg_op_ok op -> (forall c, (length (q c) < fuel)%nat) ->
  msg_step fuel hn reg s op = Fault (Panic "cant allocate msg node") \/
  exists s' nodes', msg_step fuel hn reg s op = Ok (fst (mq_step hn reg q op), s') /\
    msg_rep s' nodes' (snd (mq_step hn reg q op)).
Proof.
  intros Hr Hok Hf. destruct op as [c msg page|c|c]; simpl in *.
  - destruct Hok as (Hwf & Hp & Hp0).
    destruct (cpu_send_msg_rep s nodes q c msg page Hr Hwf Hp Hp0) as [->|(s' & node & -> & Hr' & _)];
      [by left|right]. eexists _, _. split; [done|exact Hr'].
  - right. pose proof (cpu_get_msg_rep s nodes q c Hr) as Hg. destruct (q c) as [|msg rest] eqn:E.
    + destruct Hg as (s' & -> & Hr' & _). eexists _, _. split; [done|].
      eapply msg_rep_ext; [|exact Hr']. intros c'. simpl. case_decide; by subst.
    + destruct Hg as (s' & nodes' & -> & Hr' & _). eexists _, _. by split; [|exact Hr'].
  - right. destruct (cpu_msg_handler_rep (q c) fuel hn reg s nodes q c Hr eq_refl (Hf c))
      as (s' & nodes' & -> & Hr'). eexists _, _. by split; [|exact Hr'].
Qed.

Lemma mq_step_length hn reg q op c n :
  (forall c, (length (q c) <= n)%nat) -> (length (snd (mq_step hn reg q op) c) <= S n)%nat.
Proof.
  intros Hn. pose proof (Hn c). destruct op as [c0 msg page|c0|c0]; simpl; case_decide; subst; simpl; try lia.
  - rewrite length_app. simpl. lia.
  - rewrite length_drop. lia.
Qed.

Lemma msg_run_refines ops n fuel hn reg s nodes q :
  msg_rep s nodes q -> Forall msg_op_ok ops -> (forall c, (length (q c) <= n)%nat) ->
  (n + length ops < fuel)%nat ->
  msg_run fuel hn reg s ops = Fault (Panic "cant allocate msg node") \/
  msg_run fuel hn reg s ops = Ok (mq_run hn reg q ops).
Proof.
  revert n s nodes q. induction ops as [|op ops IH]; intros n s nodes q Hr Hok Hn Hf; simpl; [by right|].
  apply Forall_cons in Hok as [Hop Hok]. simpl in Hf.
  destruct (msg_step_refines fuel hn reg s nodes q op Hr Hop) as [->|(s' & nodes' & -> & Hr')];
    [intros c; specialize (Hn c); lia|by left|].
  simpl. destruct (mq_step hn reg q op) as [out q'] eqn:E. simpl in *.
  destruct (IH (S n) s' nodes' q' Hr' Hok) as [->| ->]; [|lia|by left|by right].
  intros c. pose proof (mq_step_length hn reg q op c n Hn) as Hl. by rewrite E in Hl.
Qed.

Lemma msg_rep_init m (a : A) ips :
  oa_inv m a ∅ -> oa_size a = MSG_NODE_SIZE ->
  msg_rep (mk_ms m a ∅ ips) (fun _ => []) (fun _ => []).
Proof.
  intros Hi Hs. split; simpl; try done.
  - exists ∅. split; [done|set_solver].
  - intros c. apply list_rep_nil.
  - set_solver.
Qed.

(** C36. Over any object allocator, the message primitives implement one queue
    of messages per CPU: every interleaving of sends, fetches and drains by the
    message interrupt produces exactly the messages the queues would, each
    delivered once, to its target, in sending order, messages for unregistered
    handlers being dropped; the only way to stop is the panic of a send that
    finds no free node. *)
Theorem cpu_msg_refines m a ops fuel hn reg :
  oa_inv m a ∅ -> oa_size a = MSG_NODE_SIZE -> Forall msg_op_ok ops -> (length ops < fuel)%nat ->
  msg_run fuel hn reg (mk_ms m a ∅ []) ops = Fault (Panic "cant allocate msg node") \/
  msg_run fuel hn reg (mk_ms m a ∅ []) ops = Ok (mq_run hn reg (fun _ => []) ops).
Proof.
  intros Hi Hs Hok Hf. apply (msg_run_refines ops 0 fuel hn reg _ (fun _ => []) (fun _ => [])).
  - by apply msg_rep_init.
  - done.
  - simpl. lia.
  - lia.
Qed.
End Messages.
Arguments msg_state : clear implicits.

Definition msg_demo : list msg_op :=
  [MSend 1 (mk_msg 0 5 77) 4096; MSend 2 (mk_msg 1 6 78) 0; MSend 1 (mk_msg 9 7 79) 0; MGet 2;
   MDrain 1; MGet 1].

(** [cpu_init]'s [objcache_init(&msg_cache, sizeof(cpu_msg_node_t), ...)]. *)
Definition msg_cache : objcache := mk_oc MSG_NODE_SIZE [] 0 ∅.

Lemma msg_cache_inv m : oc_inv m msg_cache ∅.
Proof. split; [done|]. by left. Qed.

Lemma cpu_msg_refines_witness :
  msg_run 7 2 (fun _ => true) (mk_ms ∅ msg_cache ∅ []) msg_demo
    = Ok [[]; []; []; [mk_msg 1 6 78]; [mk_msg 0 5 77]; []].
Proof.
  destruct (cpu_msg_refines ∅ msg_cache msg_demo 7 2 (fun _ => true)) as [E|E].
  - apply msg_cache_inv.
  - reflexivity.
  - repeat constructor; simpl; done || lia.
  - simpl. lia.
  - exfalso. vm_compute in E. discriminate E.
  - rewrite E. vm_compute. reflexivity.
Defined.

(** A send succeeds exactly when the cache has an object left. *)
Lemma cpu_send_msg_left (s : msg_state objcache) nodes q c msg page :
  msg_rep s nodes q -> page mod PAGE_SIZE = 0 -> 0 < page ->
  0 <= oc_left (ms_cache s) /\
  if decide (oc_left (ms_cache s) = 0)
  then cpu_send_msg s c msg page = Fault (Panic "cant allocate msg node")
  else exists s', cpu_send_msg s c msg page = Ok s' /\
         oc_left (ms_cache s') = oc_left (ms_cache s) - 1.
Proof.
  intros [_ (live & Hi & _) _ _ _] Hp Hp0.
  destruct (oc_alloc_left (ms_mem s) (ms_cache s) live page Hi Hp Hp0)
    as (o & m' & oc' & E & H0 & Hz & Hd). split; [done|].
  unfold cpu_send_msg. simpl. rewrite E. case_decide as D.
  - by rewrite (proj2 Hz D).
  - assert (o <> 0) as Hne by tauto. replace (o =? 0) with false by lia.
    destruct (list_push _ _ _) as [m3 l]. eexists. split; [done|]. by apply Hd.
Qed.

Definition is_ok {B} (r : res B) : bool := match r with Ok _ => true | Fault _ => false end.

Lemma msg_sends_left sends (s : msg_state objcache) nodes q fuel hn reg :
  msg_rep s nodes q ->
  (forall op, op ∈ sends -> exists c msg page, op = MSend c msg page /\ msg_op_ok op /\ 0 < page) ->
  is_ok (msg_run fuel hn reg s sends) = true <-> Z.of_nat (length sends) <= oc_left (ms_cache s) .
Proof.
  revert s nodes q. induction sends as [|op sends IH]; intros s nodes q Hr Hs; simpl.
  - destruct Hr as [_ (live & Hi & _) _ _ _].
    destruct (oc_alloc_left (ms_mem s) (ms_cache s) live 4096 Hi eq_refl ltac:(lia)) as (? & ? & ? & _ & ? & _).
    split; [lia|done].
  - destruct (Hs op) as (c & msg & page & -> & (Hwf & Hp & _) & Hp0); [set_solver|]. simpl.
    destruct (cpu_send_msg_left s nodes q c msg page Hr Hp Hp0) as [H0 Hc].
    case_decide as D; [rewrite Hc; simpl; split; [done|lia]|].
    destruct Hc as (s1 & E & Hl). rewrite E. simpl.
    destruct (cpu_send_msg_rep s nodes q c msg page Hr Hwf Hp ltac:(lia))
      as [E'|(s' & node & E' & Hr' & _)]; rewrite E in E'; [done|]. simplify_eq.
    specialize (IH s' _ _ Hr' ltac:(set_solver)).
    destruct (msg_run fuel hn reg s' sends); simpl in *; rewrite Hl in IH; split; intros; try done;
      apply IH in H || (assert (false = true) by (apply IH; lia)); try done; lia.
Qed.

(** The node cache holds 126 messages for the whole system and never
    grows: a burst of sends, to whatever CPUs, succeeds exactly when it has at
    most 126 messages, even though the page allocator provides a page each
    time; the 127th stops the hypervisor. *)
Theorem cpu_msg_exhaustion sends fuel hn reg :
  (forall op, op ∈ sends -> exists c msg page, op = MSend c msg page /\ msg_op_ok op /\ 0 < page) ->
  is_ok (msg_run fuel hn reg (mk_ms ∅ msg_cache ∅ []) sends) = true <-> (length sends <= 126)%nat.
Proof.
  intros Hs. rewrite (msg_sends_left sends _ (fun _ => []) (fun _ => [])); [|apply msg_rep_init|done].
  - change (oc_left (ms_cache _)) with 126. lia.
  - apply msg_cache_inv.
  - done.
Qed.

Lemma cpu_msg_exhaustion_witness :
  is_ok (msg_run 1 0 (fun _ => true) (mk_ms ∅ msg_cache ∅ [])
    (replicate 126 (MSend 1 (mk_msg 0 0 0) 4096))) = true <->
  (length (replicate 126 (MSend 1 (mk_msg 0 0 0) 4096)) <= 126)%nat.
Proof.
  apply (cpu_msg_exhaustion (replicate 126 (MSend 1 (mk_msg 0 0 0) 4096)) 1 0 (fun _ => true)).
  intros op ->%elem_of_replicate_inv. exists 1, (mk_msg 0 0 0), 4096.
  split; [done|]. split; [|lia]. repeat split; simpl; lia || done.
Defined.
