(* ===== verification/Locks.v ===== *)
(** * Ticket lock and CPU barrier

    [arch/riscv/riscv_locks.c] and [cpu_sync_barrier] of [core/inc/cpu.h], as
    step relations over the interleavings of the CPUs. *)

From S2P Require Import Prelude Bit.

Module TicketLock.

(** The lock is one 32-bit word: [owner] in its low half, [next] in the high
    one. *)
Definition TICKET_SHIFT : Z := 16.
Definition owner (w : Z) : Z := Z.land w 65535.
Definition next (w : Z) : Z := Z.land (Z.shiftr w TICKET_SHIFT) 65535.

Definition spin_lock_unlocked (w : Z) : bool := owner w =? next w.
Definition spin_lock_check (w : Z) : bool := negb (spin_lock_unlocked w).

(** The [amoadd.w] of [spin_lock]: the new word, and the ticket drawn from the
    old one. *)
Definition spin_lock_draw (w : Z) : Z * Z :=
  (u32 (w + Z.shiftl 1 TICKET_SHIFT), next w).

(** The [lr.w]/[sc.w] pair of [spin_trylock], which succeeds or fails as a
    whole. *)
Definition spin_trylock (w : Z) : bool * Z :=
  let mask := Z.shiftl 65535 TICKET_SHIFT in
  if Z.land w mask =? Z.land (Z.shiftl w TICKET_SHIFT) mask
  then (true, u32 (w + Z.shiftl 1 TICKET_SHIFT)) else (false, w).

(** The 16-bit store of [spin_unlock]. *)
Definition spin_unlock_store (w v : Z) : Z :=
  Z.lor (Z.land w (Z.shiftl 65535 TICKET_SHIFT)) (wrap 16 v).

(** Where a CPU is: outside, spinning with a ticket, inside the critical
    section, or inside [spin_unlock] with the value of [owner] it has read. *)
Inductive pc := Outside | Spinning (ticket : Z) | Inside | Releasing (v : Z).

Record state := mk_st { word : Z; pcs : list pc }.

Inductive step : state -> state -> Prop :=
  | SLock s t : pcs s !! t = Some Outside ->
      step s (mk_st (fst (spin_lock_draw (word s)))
                (<[t := if snd (spin_lock_draw (word s)) =? owner (word s) then Inside
                        else Spinning (snd (spin_lock_draw (word s)))]> (pcs s)))
  | SPoll s t k : pcs s !! t = Some (Spinning k) ->
      step s (mk_st (word s) (<[t := if k =? owner (word s) then Inside else Spinning k]> (pcs s)))
  | STry s t : pcs s !! t = Some Outside ->
      step s (mk_st (snd (spin_trylock (word s)))
                (<[t := if fst (spin_trylock (word s)) then Inside else Outside]> (pcs s)))
  | SUnlockRead s t : pcs s !! t = Some Inside ->
      step s (mk_st (word s) (<[t := Releasing (owner (word s))]> (pcs s)))
  | SUnlockStore s t v : pcs s !! t = Some (Releasing v) ->
      step s (mk_st (spin_unlock_store (word s) (v + 1)) (<[t := Outside]> (pcs s))).

(** [n] CPUs and a lock with [SPINLOCK_INITVAL]. *)
Definition init (n : nat) : state := mk_st 0 (replicate n Outside).
Definition reachable (n : nat) : state -> Prop := rtc step (init n).

(** *** The word as a pair of 16-bit counters *)
Definition pack (o n : Z) : Z := wrap 16 o + 65536 * wrap 16 n.

Lemma wrap16_range o : 0 <= wrap 16 o < 65536.
Proof. unfold wrap. change 65536 with (2 ^ 16). apply Z.mod_pos_bound. lia. Qed.

Lemma pack_range o n : 0 <= pack o n < 2 ^ 32.
Proof. pose proof (wrap16_range o). pose proof (wrap16_range n). unfold pack. lia. Qed.

Lemma land_65535 a : Z.land a 65535 = wrap 16 a.
Proof. change 65535 with (Z.ones 16). by rewrite Z.land_ones by lia. Qed.

Lemma owner_pack o n : owner (pack o n) = wrap 16 o.
Proof.
  unfold owner. rewrite land_65535. unfold pack, wrap at 1. change (2 ^ 16) with 65536.
  rewrite (Z.mul_comm 65536), Z_mod_plus_full. apply Z.mod_small, wrap16_range.
Qed.

Lemma next_pack o n : next (pack o n) = wrap 16 n.
Proof.
  unfold next, TICKET_SHIFT. rewrite land_65535, Z.shiftr_div_pow2 by lia. change (2 ^ 16) with 65536.
  unfold pack. rewrite (Z.mul_comm 65536), Z.div_add by lia.
  rewrite (Z.div_small (wrap 16 o)) by apply wrap16_range. rewrite Z.add_0_l.
  unfold wrap at 1. apply Z.mod_small, wrap16_range.
Qed.

Lemma draw_pack o n : u32 (pack o n + Z.shiftl 1 TICKET_SHIFT) = pack o (n + 1).
Proof.
  unfold TICKET_SHIFT. rewrite Z.shiftl_1_l. unfold pack, wrap. change (2 ^ 16) with 65536.
  change (2 ^ 32) with 4294967296. Z.to_euclidean_division_equations. lia.
Qed.

Lemma high_half w : 0 <= w < 2 ^ 32 ->
  Z.land w (Z.shiftl 65535 TICKET_SHIFT) = 65536 * (w / 65536).
Proof.
  intros Hw. unfold TICKET_SHIFT. rewrite (Z.mul_comm 65536). change 65536 with (2 ^ 16).
  rewrite <- Z.shiftr_div_pow2, <- Z.shiftl_mul_pow2 by lia.
  apply Z.bits_inj'. intros i Hi.
  rewrite Z.land_spec, !Z.shiftl_spec by lia. change 65535 with (Z.ones 16).
  destruct (Z.ltb_spec i 16).
  - rewrite !(Z.testbit_neg_r _ (i - 16)) by lia. apply andb_false_r.
  - rewrite Z.testbit_ones_nonneg, Z.shiftr_spec, Z.sub_add by lia.
    destruct (Z.ltb_spec (i - 16) 16); [by rewrite andb_true_r|].
    rewrite andb_false_r. symmetry.
    destruct (Z.eq_dec w 0) as [->|]; [by rewrite Z.bits_0|].
    apply Z.bits_above_log2; [lia|]. apply Z.log2_lt_pow2; [lia|].
    apply (Z.lt_le_trans _ (2 ^ 32)); [lia|]. apply Z.pow_le_mono_r; lia.
Qed.

Lemma unlock_pack o n : spin_unlock_store (pack o n) (wrap 16 o + 1) = pack (o + 1) n.
Proof.
  unfold spin_unlock_store. rewrite high_half by apply pack_range.
  assert (pack o n / 65536 = wrap 16 n) as ->.
  { unfold pack. rewrite (Z.mul_comm 65536), Z.div_add by lia.
    rewrite (Z.div_small (wrap 16 o)) by apply wrap16_range. lia. }
  rewrite Z.lor_comm, <- Z.add_nocarry_lor.
  - unfold pack. f_equal. unfold wrap. change (2 ^ 16) with 65536.
    Z.to_euclidean_division_equations. lia.
  - apply Z.bits_inj'. intros i Hi. rewrite Z.land_spec, Z.bits_0, wrap_testbit by lia.
    rewrite (Z.mul_comm 65536). change 65536 with (2 ^ 16). rewrite <- Z.shiftl_mul_pow2 by lia.
    rewrite Z.shiftl_spec by lia. destruct (Z.ltb_spec i 16); [|done].
    rewrite (Z.testbit_neg_r _ (i - 16)) by lia. by rewrite andb_false_r.
Qed.

Lemma trylock_pack o n :
  spin_trylock (pack o n) =
    if wrap 16 o =? wrap 16 n then (true, pack o (n + 1)) else (false, pack o n).
Proof.
  unfold spin_trylock. rewrite draw_pack, high_half by apply pack_range.
  pose proof (wrap16_range o). pose proof (wrap16_range n).
  assert (Z.land (Z.shiftl (pack o n) TICKET_SHIFT) (Z.shiftl 65535 TICKET_SHIFT) =
    65536 * wrap 16 o) as ->.
  { unfold TICKET_SHIFT. rewrite <- Z.shiftl_land. change (Z.land (pack o n) 65535) with (owner (pack o n)).
    rewrite owner_pack, Z.shiftl_mul_pow2 by lia. lia. }
  assert (pack o n / 65536 = wrap 16 n) as -> by
    (unfold pack; Z.to_euclidean_division_equations; lia).
  destruct (Z.eqb_spec (65536 * wrap 16 n) (65536 * wrap 16 o)), (Z.eqb_spec (wrap 16 o) (wrap 16 n));
    done || lia.
Qed.

(** *** The queue behind the lock

    [order] lists the CPUs that hold a ticket, oldest first. *)
Definition at_ticket (o : Z) (i : nat) (p : pc) : Prop :=
  p = Spinning (wrap 16 (o + Z.of_nat i)) \/ i = 0%nat /\ (p = Inside \/ p = Releasing (wrap 16 o)).

Record inv (n : nat) (s : state) (o : Z) (order : list nat) : Prop := {
  inv_num : length (pcs s) = n;
  inv_word : word s = pack o (o + Z.of_nat (length order));
  inv_nodup : NoDup order;
  inv_in : forall t p, pcs s !! t = Some p -> p = Outside \/ t ∈ order;
  inv_pc : forall i t, order !! i = Some t -> exists p, pcs s !! t = Some p /\ at_ticket o i p
}.

Lemma wrap16_eq o d : 0 <= d < 65536 -> (wrap 16 (o + d) =? wrap 16 o) = (d =? 0).
Proof.
  intros Hd. unfold wrap. change (2 ^ 16) with 65536.
  destruct (Z.eqb_spec d 0) as [->|]; [rewrite Z.add_0_r; apply Z.eqb_refl|].
  apply Z.eqb_neq. Z.to_euclidean_division_equations. lia.
Qed.

Lemma inv_length n s o order : inv n s o order -> (length order <= n)%nat.
Proof.
  intros [Hn _ Hd _ Hp]. rewrite <- (length_seq n 0). apply submseteq_length, NoDup_submseteq; [done|].
  intros t (i & Hi)%list_elem_of_lookup. destruct (Hp i t Hi) as (p & Ht%lookup_lt_Some & _).
  apply elem_of_seq. lia.
Qed.

Lemma inv_outside n s o order t :
  inv n s o order -> pcs s !! t = Some Outside -> t ∉ order /\ (length order < n)%nat.
Proof.
  intros Hi Ht. pose proof Hi as [Hn _ Hd _ Hp].
  assert (t ∉ order) as Hout.
  { intros (i & Hx)%list_elem_of_lookup. destruct (Hp i t Hx) as (p & E & [->|(_ & [->| ->])]); congruence. }
  split; [done|]. rewrite <- (length_seq n 0).
  enough (length (t :: order) <= length (seq 0 n))%nat by (simpl in *; lia).
  apply submseteq_length, NoDup_submseteq; [by apply NoDup_cons|].
  intros x [->|(i & Hx)%list_elem_of_lookup]%elem_of_cons; apply elem_of_seq.
  - apply lookup_lt_Some in Ht. lia.
  - destruct (Hp i x Hx) as (p & E%lookup_lt_Some & _). lia.
Qed.

(** Drawing a ticket appends the CPU to the queue. *)
Lemma inv_enqueue n s o order t p :
  inv n s o order -> pcs s !! t = Some Outside -> at_ticket o (length order) p ->
  inv n (mk_st (pack o (o + Z.of_nat (length order) + 1)) (<[t := p]> (pcs s))) o (order ++ [t]).
Proof.
  intros Hi Ht Hp. destruct (inv_outside _ _ _ _ _ Hi Ht) as [Hout _]. destruct Hi as [Hn Hw Hd Hin Hpc].
  assert (t < length (pcs s))%nat as Hlt by (by eapply lookup_lt_Some).
  split; simpl.
  - by rewrite length_insert.
  - rewrite length_app. simpl. f_equal. lia.
  - apply NoDup_app. split_and!; [done|set_solver|apply NoDup_singleton].
  - intros t' p'. destruct (decide (t = t')) as [->|]; [set_solver|].
    rewrite list_lookup_insert_ne by done. intros [->|]%Hin; set_solver.
  - intros i t' [[_ Hx]|[-> <-]]%lookup_snoc_Some.
    + destruct (Hpc i t' Hx) as (p' & ? & ?). exists p'. split; [|done].
      rewrite list_lookup_insert_ne; [done|]. intros ->. apply Hout. by eapply list_elem_of_lookup_2.
    + exists p. by rewrite list_lookup_insert_eq.
Qed.

(** A CPU of the queue changes its place without leaving the queue. *)
Lemma inv_update n s o order i t p :
  inv n s o order -> order !! i = Some t -> at_ticket o i p ->
  inv n (mk_st (word s) (<[t := p]> (pcs s))) o order.
Proof.
  intros [Hn Hw Hd Hin Hpc] Hi Hp.
  assert (t < length (pcs s))%nat as Hlt by (destruct (Hpc i t Hi) as (? & ?%lookup_lt_Some & _); done).
  split; simpl; [by rewrite length_insert|done|done| |].
  - intros t' p'. destruct (decide (t = t')) as [->|]; [right; by eapply list_elem_of_lookup_2|].
    rewrite list_lookup_insert_ne by done. apply Hin.
  - intros j t' Hj. destruct (decide (t = t')) as [->|].
    + rewrite (NoDup_lookup order j i t' Hd Hj Hi). exists p. by rewrite list_lookup_insert_eq.
    + rewrite list_lookup_insert_ne by done. by apply Hpc.
Qed.

(** The holder leaves the head of the queue. *)
Lemma inv_dequeue n s o order t :
  inv n s o (t :: order) ->
  inv n (mk_st (pack (o + 1) (o + Z.of_nat (length (t :: order)))) (<[t := Outside]> (pcs s)))
    (o + 1) order.
Proof.
  intros [Hn Hw Hd Hin Hpc]. apply NoDup_cons in Hd as [Hnt Hd].
  split; simpl; [by rewrite length_insert|f_equal; lia|done| |].
  - intros t' p'. rewrite list_lookup_insert_Some. intros [(_ & <- & _)|[Hne Ht]]; [by left|].
    destruct (Hin t' p' Ht); set_solver.
  - intros i t' Hi. destruct (Hpc (S i) t' Hi) as (p & ? & Hp). exists p. split.
    + rewrite list_lookup_insert_ne; [done|]. intros ->. apply Hnt. by eapply list_elem_of_lookup_2.
    + destruct Hp as [->|[? _]]; [left|lia]. do 2 f_equal. lia.
Qed.

(** The place in the queue of a CPU that is not outside. *)
Lemma inv_place n s o order t p :
  inv n s o order -> pcs s !! t = Some p -> p <> Outside ->
  exists i, order !! i = Some t /\ at_ticket o i p.
Proof.
  intros [_ _ _ Hin Hpc] Ht Hp. destruct (Hin t p Ht) as [|(i & Hi)%list_elem_of_lookup]; [done|].
  exists i. destruct (Hpc i t Hi) as (p' & ? & ?). by simplify_eq.
Qed.

Lemma inv_step n s s' o order :
  Z.of_nat n <= 65536 -> inv n s o order -> step s s' -> exists o' order', inv n s' o' order'.
Proof.
  intros Hn Hi Hs. destruct Hs as [s t Ht|s t k Ht|s t Ht|s t Ht|s t v Ht].
  - destruct (inv_outside _ _ _ _ _ Hi Ht) as [_ Hlen].
    exists o, (order ++ [t]). unfold spin_lock_draw. simpl.
    rewrite (inv_word _ _ _ _ Hi), draw_pack, next_pack, owner_pack, wrap16_eq by lia.
    apply inv_enqueue; [done|done|].
    destruct (Z.eqb_spec (Z.of_nat (length order)) 0); [right; split; [lia|by left]|by left].
  - destruct (inv_place _ _ _ _ _ _ Hi Ht) as (i & Hx & Hk); [done|].
    destruct Hk as [Hk|[_ [?|?]]]; [|done..]. simplify_eq.
    exists o, order. rewrite (inv_word _ _ _ _ Hi) at 2. rewrite owner_pack.
    pose proof (inv_length _ _ _ _ Hi). apply lookup_lt_Some in Hx as Hlt.
    rewrite wrap16_eq by lia. apply (inv_update n s o order i); [done|done|].
    destruct (Z.eqb_spec (Z.of_nat i) 0); [right; split; [lia|by left]|by left].
  - destruct (inv_outside _ _ _ _ _ Hi Ht) as [Hno Hlen].
    rewrite (inv_word _ _ _ _ Hi), trylock_pack, Z.eqb_sym, wrap16_eq by lia.
    destruct (Z.eqb_spec (Z.of_nat (length order)) 0) as [E|]; simpl.
    + exists o, (order ++ [t]). rewrite E, Z.add_0_r.
      pose proof (inv_enqueue n s o order t Inside Hi Ht) as He. rewrite E, Z.add_0_r in He.
      apply He. right. split; [lia|by left].
    + exists o, order. rewrite list_insert_id by done. rewrite <- (inv_word _ _ _ _ Hi). by destruct s.
  - destruct (inv_place _ _ _ _ _ _ Hi Ht) as (i & Hx & Hk); [done|].
    destruct Hk as [?|[-> _]]; [done|].
    exists o, order. apply (inv_update n s o order 0); [done|done|].
    rewrite (inv_word _ _ _ _ Hi), owner_pack. right. split; [done|by right].
  - destruct (inv_place _ _ _ _ _ _ Hi Ht) as (i & Hx & Hk); [done|].
    destruct Hk as [?|[-> [?|?]]]; [done..|]. simplify_eq.
    destruct order as [|t' order]; simplify_eq/=. exists (o + 1), order.
    rewrite (inv_word _ _ _ _ Hi), unlock_pack. by apply inv_dequeue.
Qed.

Lemma reachable_inv n s : Z.of_nat n <= 65536 -> reachable n s -> exists o order, inv n s o order.
Proof.
  intros Hn Hr. unfold reachable in Hr. remember (init n) as s0 eqn:E0.
  assert (exists o order, inv n s0 o order) as H0.
  { subst. exists 0, []. split; simpl; [by rewrite length_replicate|done|apply NoDup_nil_2| |set_solver].
    intros t p [-> _]%lookup_replicate. by left. }
  clear E0. induction Hr as [|s0 s1 s2 Hs _ IH]; [done|].
  apply IH. destruct H0 as (o & order & H0). by eapply inv_step.
Qed.

Definition holds (p : pc) : Prop := p = Inside \/ exists v, p = Releasing v.

(** C37. With at most 65,536 CPUs the ticket lock gives mutual exclusion in
    every reachable state, through all wrap-arounds of the 16-bit tickets: two
    CPUs that hold the lock are the same CPU. *)
Theorem ticket_mutual_exclusion n s t1 t2 p1 p2 :
  Z.of_nat n <= 65536 -> reachable n s ->
  pcs s !! t1 = Some p1 -> pcs s !! t2 = Some p2 -> holds p1 -> holds p2 -> t1 = t2.
Proof.
  intros Hn Hr H1 H2 Hh1 Hh2. destruct (reachable_inv n s Hn Hr) as (o & order & Hi).
  assert (forall t p, pcs s !! t = Some p -> holds p -> order !! 0%nat = Some t) as Hhead.
  { intros t p Ht Hh. destruct (inv_place _ _ _ _ _ _ Hi Ht) as (i & Hx & Hk).
    { destruct Hh as [->|[? ->]]; done. }
    destruct Hk as [->|[-> _]]; [destruct Hh as [?|[? ?]]; done|done]. }
  pose proof (Hhead t1 p1 H1 Hh1). pose proof (Hhead t2 p2 H2 Hh2). congruence.
Qed.

Lemma ticket_demo_reachable : reachable 2 (mk_st 131072 [Inside; Spinning 1]).
Proof.
  eapply rtc_l; [apply (SLock (init 2) 0); reflexivity|].
  eapply rtc_l; [apply (SLock (mk_st 65536 [Inside; Outside]) 1); reflexivity|]. apply rtc_refl.
Qed.

Lemma ticket_mutual_exclusion_witness :
  reachable 2 (mk_st 131072 [Inside; Spinning 1]) /\
  Forall (fun t => [Inside; Spinning 1] !! t = Some Inside -> 0%nat = t) [0%nat; 1%nat].
Proof.
  split; [apply ticket_demo_reachable|]. apply Forall_forall. intros t _ Ht.
  apply (ticket_mutual_exclusion 2 (mk_st 131072 [Inside; Spinning 1]) 0 t Inside Inside);
    [lia|apply ticket_demo_reachable|reflexivity|exact Ht|by left|by left].
Defined.

(** The lock is first come, first served and never stuck: in every
    reachable state the CPUs that hold a ticket form a queue; only its head can
    hold the lock, and if the head is still spinning its next poll takes it. *)
Theorem ticket_fifo_progress n s :
  Z.of_nat n <= 65536 -> reachable n s ->
  exists order, NoDup order /\
    (forall t p, pcs s !! t = Some p -> (p <> Outside <-> t ∈ order)) /\
    (forall t p, pcs s !! t = Some p -> holds p -> hd_error order = Some t) /\
    (forall t rest k, order = t :: rest -> pcs s !! t = Some (Spinning k) ->
       step s (mk_st (word s) (<[t := Inside]> (pcs s)))) /\
    (forall t s', (exists k, pcs s !! t = Some (Spinning k)) -> step s s' ->
       pcs s' !! t = Some Inside -> hd_error order = Some t).
Proof.
  intros Hn Hr. destruct (reachable_inv n s Hn Hr) as (o & order & Hi).
  exists order. pose proof Hi as [_ Hw Hd Hin Hpc]. pose proof (inv_length _ _ _ _ Hi) as Hlen.
  split_and!; [done| | | |].
  - intros t p Ht. split; [by destruct (Hin t p Ht)|].
    intros (i & Hx)%list_elem_of_lookup. destruct (Hpc i t Hx) as (p' & E & [->|(_ & [->| ->])]);
      rewrite Ht in E; simplify_eq; done.
  - intros t p Ht Hh. destruct (inv_place _ _ _ _ _ _ Hi Ht) as (i & Hx & Hk).
    { destruct Hh as [->|[? ->]]; done. }
    destruct Hk as [->|[-> _]]; [destruct Hh as [?|[? ?]]; done|]. by destruct order.
  - intros t rest k -> Ht. destruct (Hpc 0%nat t eq_refl) as (p & E & Hk). rewrite Ht in E.
    simplify_eq. destruct Hk as [Hk|[_ [?|?]]]; [|done..]. simplify_eq.
    pose proof (SPoll s t _ Ht) as Hs. rewrite Hw in Hs at 2. rewrite owner_pack, Z.add_0_r, Z.eqb_refl in Hs.
    exact Hs.
  - intros t s' [k Ht] Hs Hin'. destruct (inv_place _ _ _ _ _ _ Hi Ht) as (i & Hx & Hk); [done|].
    destruct Hk as [Hk|[_ [?|?]]]; [|done..]. simplify_eq. apply lookup_lt_Some in Hx as Hlt.
    destruct (decide (i = 0%nat)) as [->|Hne]; [by destruct order|]. exfalso.
    destruct Hs; simpl in Hin'; apply list_lookup_insert_Some in Hin' as [(-> & E & _)|[_ E]]; try congruence.
    rewrite Ht in H. simplify_eq. rewrite Hw, owner_pack, wrap16_eq in E by lia.
    destruct (Z.eqb_spec (Z.of_nat i) 0); [lia|done].
Qed.

Lemma ticket_fifo_progress_witness :
  exists order, NoDup order /\
    (forall t p, [Inside; Spinning 1] !! t = Some p -> (p <> Outside <-> t ∈ order)).
Proof.
  destruct (ticket_fifo_progress 2 (mk_st 131072 [Inside; Spinning 1])) as (order & H1 & H2 & _);
    [lia|apply ticket_demo_reachable|by exists order].
Defined.
End TicketLock.

Module Barrier.

(** A CPU: how many times it has entered the barrier and left it, and the count
    it waits for while inside. *)
Record bcpu := mk_bcpu { entered : Z; left : Z; waits : option Z }.

(** [cpu_synctoken_t], and the CPUs that use it. *)
Record bstate := mk_bs { tk_n : Z; tk_ready : bool; tk_count : Z; bcpus : list bcpu }.

Definition cpu_sync_init (s : bstate) (n : Z) : bstate := mk_bs n true 0 (bcpus s).

(** The locked section of [cpu_sync_barrier]: the new count and [next_count]. *)
Definition barrier_enter (count n : Z) : Z * Z :=
  let count' := u64 (count + 1) in (count', ALIGN count' n).

Inductive bstep : bstate -> bstate -> Prop :=
  | BInit s : tk_ready s = false ->
      bstep s (cpu_sync_init s (Z.of_nat (length (bcpus s))))
  | BEnter s i c : bcpus s !! i = Some c -> waits c = None -> tk_ready s = true ->
      bstep s (mk_bs (tk_n s) true (fst (barrier_enter (tk_count s) (tk_n s)))
                (<[i := mk_bcpu (entered c + 1) (left c)
                          (Some (snd (barrier_enter (tk_count s) (tk_n s))))]> (bcpus s)))
  | BLeave s i c target : bcpus s !! i = Some c -> waits c = Some target ->
      target <= tk_count s ->
      bstep s (mk_bs (tk_n s) (tk_ready s) (tk_count s)
                (<[i := mk_bcpu (entered c) (left c + 1) None]> (bcpus s))).

Definition binit (n : nat) : bstate := mk_bs 0 false 0 (replicate n (mk_bcpu 0 0 None)).
Definition breachable (n : nat) : bstate -> Prop := rtc bstep (binit n).

Definition total (cs : list bcpu) : Z := foldr (fun c acc => entered c + acc) 0 cs.

Lemma total_insert cs i c c' :
  cs !! i = Some c -> total (<[i := c']> cs) = total cs + (entered c' - entered c).
Proof.
  revert i. induction cs as [|x cs IH]; intros [|i] Hi; simplify_eq/=; [lia|]. rewrite (IH i Hi). lia.
Qed.

Lemma total_bounds cs k :
  (forall i c, cs !! i = Some c -> k <= entered c) -> k * Z.of_nat (length cs) <= total cs.
Proof.
  induction cs as [|c cs IH]; intros H; simpl; [lia|].
  pose proof (H 0%nat c eq_refl). specialize (IH (fun i c' Hi => H (S i) c' Hi)). lia.
Qed.

(** If everyone has entered at most [k] times and someone fewer, the total is
    short of [k] rounds. *)
Lemma total_short cs k i c :
  (forall j c', cs !! j = Some c' -> entered c' <= k) -> cs !! i = Some c -> entered c < k ->
  total cs < k * Z.of_nat (length cs).
Proof.
  revert i. induction cs as [|x cs IH]; intros i H Hi Hc; [done|].
  assert (total cs <= k * Z.of_nat (length cs)) as Hle.
  { clear -H. assert (forall j c', cs !! j = Some c' -> entered c' <= k) as H' by (intros j; apply (H (S j))).
    clear H. induction cs as [|y cs IH]; simpl; [lia|].
    pose proof (H' 0%nat y eq_refl). specialize (IH (fun j c' Hj => H' (S j) c' Hj)). lia. }
  pose proof (H 0%nat x eq_refl). destruct i as [|i]; simplify_eq/=; [lia|].
  specialize (IH i (fun j c' Hj => H (S j) c' Hj) Hi Hc). lia.
Qed.

Lemma ALIGN_round k n x : 0 < n -> k * n < x <= (k + 1) * n -> ALIGN x n = (k + 1) * n.
Proof.
  intros Hn Hx. unfold ALIGN. f_equal. symmetry. apply (Z.div_unique _ _ _ (x - 1 - k * n)); lia.
Qed.

Record binv (s : bstate) : Prop := {
  i_n : if tk_ready s then tk_n s = Z.of_nat (length (bcpus s)) else total (bcpus s) = 0;
  i_count : tk_count s = total (bcpus s);
  i_cpu : forall i c, bcpus s !! i = Some c ->
    0 <= left c /\
    match waits c with
    | None => entered c = left c
    | Some target => entered c = left c + 1 /\ tk_ready s = true /\
                     target = (left c + 1) * Z.of_nat (length (bcpus s))
    end;
  i_all : forall i j c c', bcpus s !! i = Some c -> bcpus s !! j = Some c' -> left c <= entered c'
}.

Lemma binv_init n : binv (binit n).
Proof.
  assert (total (replicate n (mk_bcpu 0 0 None)) = 0) as E by (induction n; simpl; lia).
  split; simpl; [done|done| |].
  - by intros i c [-> _]%lookup_replicate.
  - intros i j c c' [-> _]%lookup_replicate [-> _]%lookup_replicate. done.
Qed.

(** Entering from the outside draws the end of the current round. *)
Lemma enter_target s i c :
  binv s -> bcpus s !! i = Some c -> waits c = None -> total (bcpus s) + 1 < 2 ^ 64 ->
  barrier_enter (tk_count s) (Z.of_nat (length (bcpus s))) =
    (tk_count s + 1, (left c + 1) * Z.of_nat (length (bcpus s))).
Proof.
  intros [_ Hc Hcpu Hall] Hi Hw Hb. destruct (Hcpu i c Hi) as [H0 He]. rewrite Hw in He.
  assert (forall j c', bcpus s !! j = Some c' -> entered c' <= left c + 1) as Hup.
  { intros j c' Hj. pose proof (Hall j i c' c Hj Hi). destruct (Hcpu j c' Hj) as [_ Hj'].
    destruct (waits c'); lia. }
  pose proof (total_bounds (bcpus s) (left c) (fun j c' Hj => Hall i j c c' Hi Hj)) as Hlo.
  pose proof (total_short (bcpus s) (left c + 1) i c Hup Hi ltac:(lia)) as Hhi.
  assert (0 <= left c * Z.of_nat (length (bcpus s))) by lia.
  unfold barrier_enter. rewrite wrap_small by lia. f_equal.
  apply ALIGN_round; [|lia]. apply lookup_lt_Some in Hi. lia.
Qed.

(** The total a CPU waits for is reached only when everyone has entered. *)
Lemma leave_all s i c target :
  binv s -> bcpus s !! i = Some c -> waits c = Some target -> target <= tk_count s ->
  forall j c', bcpus s !! j = Some c' -> left c + 1 <= entered c'.
Proof.
  intros [_ Hc Hcpu Hall] Hi Hw Ht j c' Hj. destruct (Hcpu i c Hi) as [_ He]. rewrite Hw in He.
  destruct He as (He & _ & ->). destruct (Z.le_gt_cases (left c + 1) (entered c')) as [|Hlt]; [done|].
  exfalso. rewrite Hc in Ht. pose proof (total_short (bcpus s) (left c + 1) j c') as Hs.
  enough (total (bcpus s) < (left c + 1) * Z.of_nat (length (bcpus s))) by lia.
  apply Hs; [|done|lia]. intros k d Hk. destruct (Hcpu k d Hk) as [_ Hd].
  pose proof (Hall k j d c' Hk Hj). destruct (waits d); lia.
Qed.

Lemma binv_step s s' : binv s -> bstep s s' -> total (bcpus s') < 2 ^ 64 -> binv s'.
Proof.
  intros Hi Hs. pose proof Hi as [Hn Hcnt Hcpu Hall].
  destruct Hs as [s Hr|s i c Hc Hw Hr|s i c target Hc Hw Ht]; simpl; intros Hb; rewrite ?Hr in *.
  - split; simpl; try done. intros i c Hc. destruct (Hcpu i c Hc) as [? Hw]. split; [done|].
    by destruct (waits c); [destruct Hw as (_ & ? & _); congruence|].
  - rewrite (total_insert _ i c) in Hb by done. simpl in Hb. rewrite Hn.
    pose proof (enter_target s i c Hi Hc Hw ltac:(lia)) as [= E1 E2]. rewrite E2, E1.
    destruct (Hcpu i c Hc) as [H0 He]. rewrite Hw in He. split; simpl.
    + by rewrite length_insert.
    + rewrite (total_insert _ i c) by done. simpl. lia.
    + rewrite length_insert. intros j d [(<- & <- & _)|[_ Hd]]%list_lookup_insert_Some; simpl; [lia|].
      specialize (Hcpu j d Hd). done.
    + intros j k d d' [(<- & <- & _)|[_ Hd]]%list_lookup_insert_Some
        [(<- & <- & _)|[_ Hd']]%list_lookup_insert_Some; simpl; try lia.
      * pose proof (Hall _ _ _ _ Hc Hd'). lia.
      * pose proof (Hall _ _ _ _ Hd Hc). lia.
      * pose proof (Hall _ _ _ _ Hd Hd'). lia.
  - pose proof (leave_all s i c target Hi Hc Hw Ht) as Hl.
    destruct (Hcpu i c Hc) as [H0 He]. rewrite Hw in He. split; simpl.
    + rewrite length_insert, (total_insert _ i c) by done. simpl. rewrite Z.sub_diag, Z.add_0_r. done.
    + rewrite (total_insert _ i c) by done. simpl. lia.
    + rewrite length_insert. intros j d [(<- & <- & _)|[_ Hd]]%list_lookup_insert_Some; simpl; [lia|].
      specialize (Hcpu j d Hd). done.
    + intros j k d d' [(<- & <- & _)|[_ Hd]]%list_lookup_insert_Some
        [(<- & <- & _)|[_ Hd']]%list_lookup_insert_Some; simpl.
      * specialize (Hl i c Hc). lia.
      * specialize (Hl k d' Hd'). lia.
      * pose proof (Hall _ _ _ _ Hd Hc). lia.
      * pose proof (Hall _ _ _ _ Hd Hd'). lia.
Qed.

Lemma total_step s s' : bstep s s' -> total (bcpus s) <= total (bcpus s').
Proof.
  intros []; simpl; [lia|rewrite (total_insert _ i c) by done; simpl; lia..].
Qed.

Lemma breachable_inv n s : breachable n s -> total (bcpus s) < 2 ^ 64 -> binv s.
Proof.
  revert s. apply (rtc_ind_r (fun s => total (bcpus s) < 2 ^ 64 -> binv s)); [intros _; apply binv_init|].
  intros s s' _ Hs IH Hb. eapply binv_step; [apply IH|done|done]. pose proof (total_step _ _ Hs). lia.
Qed.

(** A CPU leaves the barrier for the [k]-th time only after every CPU has
    entered it [k] times (for fewer than 2^64 entries in all, the range of the
    counter); and when every CPU that is not waiting has caught up, a waiting
    CPU can leave: the barrier neither lets a CPU through early nor blocks the
    last one. *)
Theorem barrier_correct n s :
  breachable n s -> total (bcpus s) < 2 ^ 64 ->
  (forall i j c c', bcpus s !! i = Some c -> bcpus s !! j = Some c' -> left c <= entered c') /\
  (forall i c target, bcpus s !! i = Some c -> waits c = Some target ->
     (forall j c', bcpus s !! j = Some c' -> left c + 1 <= entered c') ->
     bstep s (mk_bs (tk_n s) (tk_ready s) (tk_count s)
               (<[i := mk_bcpu (entered c) (left c + 1) None]> (bcpus s)))).
Proof.
  intros Hr Hb. pose proof (breachable_inv n s Hr Hb) as Hi. split; [by apply i_all|].
  intros i c target Hc Hw Hall. eapply BLeave; [done|done|].
  destruct Hi as [_ -> Hcpu _]. destruct (Hcpu i c Hc) as [_ He]. rewrite Hw in He.
  destruct He as (_ & _ & ->). by apply total_bounds.
Qed.

Lemma barrier_correct_witness :
  bstep (mk_bs 2 true 2 [mk_bcpu 1 0 (Some 2); mk_bcpu 1 0 (Some 2)])
    (mk_bs 2 true 2 [mk_bcpu 1 1 None; mk_bcpu 1 0 (Some 2)]).
Proof.
  apply (barrier_correct 2 (mk_bs 2 true 2 [mk_bcpu 1 0 (Some 2); mk_bcpu 1 0 (Some 2)])) with
    (i := 0%nat) (c := mk_bcpu 1 0 (Some 2)) (target := 2); [|reflexivity|reflexivity|reflexivity|].
  - eapply rtc_l; [apply (BInit (binit 2)); reflexivity|].
    eapply rtc_l; [apply (BEnter _ 0 (mk_bcpu 0 0 None)); reflexivity|].
    eapply rtc_l; [apply (BEnter _ 1 (mk_bcpu 0 0 None)); reflexivity|]. apply rtc_refl.
  - intros [|[|j]] c' [= <-]; simpl; lia.
Defined.
End Barrier.
