(* ===== verification/Vmm.v ===== *)
(** * Assigning CPUs to virtual machines

    The assignment phases of [vmm_init] ([core/vmm.c]). Every CPU walks the
    list of VMs twice, with a barrier in between: first it claims a place in a
    VM it has affinity with, then, if it got none, in any VM that needs CPUs.
    The table of assignments is shared; the update of an entry is done under
    the entry's lock and is one step here, and the CPUs run in any order. *)

From S2P Require Import Prelude.

Record vm_cfg := mk_cfg { cpu_affinity : Z; cfg_cpu_num : Z }.

(** [struct vm_assignment], without its lock and the page table entry the
    master shares later. *)
Record vm_assignment := mk_asg { asg_master : bool; asg_ncpus : Z; asg_cpus : Z }.

Definition asg_take (c : Z) (a : vm_assignment) : vm_assignment :=
  mk_asg true (u64 (asg_ncpus a + 1)) (Z.lor (asg_cpus a) (Z.shiftl 1 c)).

(** The body of the first loop: the entry and, if CPU [c] got a place, whether
    as the master. *)
Definition affinity_claim (cfg : vm_cfg) (c : Z) (a : vm_assignment) : vm_assignment * option bool :=
  if negb (Z.land (cpu_affinity cfg) (Z.shiftl 1 c) =? 0) then
    if negb (asg_master a) then (asg_take c a, Some true)
    else if asg_ncpus a <? cfg_cpu_num cfg then (asg_take c a, Some false)
    else (a, None)
  else (a, None).

(** The body of the second loop. *)
Definition remaining_claim (cfg : vm_cfg) (c : Z) (a : vm_assignment) : vm_assignment * option bool :=
  if asg_ncpus a <? cfg_cpu_num cfg then
    if negb (asg_master a) then (asg_take c a, Some true) else (asg_take c a, Some false)
  else (a, None).

(** Where a CPU is: at VM [i] of the first loop, at the barrier, at VM [i] of
    the second loop, or done; with the VM it got and whether as the master. *)
Inductive vpc := Aff (i : nat) | Bar (r : option (nat * bool)) | Rem (i : nat) | Fin (r : option (nat * bool)).

Definition got (p : vpc) : option (nat * bool) :=
  match p with Bar r | Fin r => r | Aff _ | Rem _ => None end.

Record vstate := mk_vst { vms : list vm_assignment; cpus : list vpc }.

Definition is_aff (p : vpc) : bool := match p with Aff _ => true | _ => false end.
Definition is_fin (p : vpc) : bool := match p with Fin _ => true | _ => false end.

Section Assign.
Context (cfgs : list vm_cfg).

Inductive vstep : vstate -> vstate -> Prop :=
  | VAff s c i cfg a a' r :
      cpus s !! c = Some (Aff i) -> cfgs !! i = Some cfg -> vms s !! i = Some a ->
      affinity_claim cfg (Z.of_nat c) a = (a', r) ->
      vstep s (mk_vst (<[i := a']> (vms s))
        (<[c := match r with Some m => Bar (Some (i, m)) | None => Aff (S i) end]> (cpus s)))
  | VAffEnd s c i :
      cpus s !! c = Some (Aff i) -> i = length cfgs ->
      vstep s (mk_vst (vms s) (<[c := Bar None]> (cpus s)))
  | VBar s c r :
      cpus s !! c = Some (Bar r) -> forallb (fun p => negb (is_aff p)) (cpus s) = true ->
      vstep s (mk_vst (vms s) (<[c := match r with Some _ => Fin r | None => Rem 0 end]> (cpus s)))
  | VRem s c i cfg a a' r :
      cpus s !! c = Some (Rem i) -> cfgs !! i = Some cfg -> vms s !! i = Some a ->
      remaining_claim cfg (Z.of_nat c) a = (a', r) ->
      vstep s (mk_vst (<[i := a']> (vms s))
        (<[c := match r with Some m => Fin (Some (i, m)) | None => Rem (S i) end]> (cpus s)))
  | VRemEnd s c i :
      cpus s !! c = Some (Rem i) -> i = length cfgs ->
      vstep s (mk_vst (vms s) (<[c := Fin None]> (cpus s))).

Definition vinit (n : nat) : vstate := mk_vst (replicate (length cfgs) (mk_asg false 0 0)) (replicate n (Aff 0)).
Definition vreachable (n : nat) : vstate -> Prop := rtc vstep (vinit n).

(** ** Counting the CPUs of a VM *)
Definition tally (P : vpc -> bool) (l : list vpc) : Z := foldr (fun p acc => Z.b2z (P p) + acc) 0 l.

Lemma tally_insert P l c x y :
  l !! c = Some x -> tally P (<[c := y]> l) = tally P l + Z.b2z (P y) - Z.b2z (P x).
Proof.
  revert c. induction l as [|p l IH]; intros [|c] H; simplify_eq/=; [lia|]. rewrite (IH c H). lia.
Qed.

Lemma tally_range P l : 0 <= tally P l <= Z.of_nat (length l).
Proof. induction l as [|p l IH]; simpl; [lia|]. destruct (P p); simpl; lia. Qed.

Definition on_vm (j : nat) (p : vpc) : bool := match got p with Some (i, _) => i =? j | None => false end%nat.
Definition master_of (j : nat) (p : vpc) : bool := match got p with Some (i, m) => (i =? j) && m | None => false end%nat.

Definition full (s : vstate) (j : nat) : Prop :=
  forall a cfg, vms s !! j = Some a -> cfgs !! j = Some cfg -> cfg_cpu_num cfg <= asg_ncpus a.

(** ** The invariant *)
Record asg_ok (l : list vpc) (j : nat) (a : vm_assignment) (cfg : vm_cfg) : Prop := {
  ao_bits : forall c, Z.testbit (asg_cpus a) (Z.of_nat c) = default false (on_vm j <$> l !! c);
  ao_ncpus : asg_ncpus a = tally (on_vm j) l;
  ao_max : asg_ncpus a <= cfg_cpu_num cfg;
  ao_master : tally (master_of j) l = Z.b2z (asg_master a);
  ao_empty : asg_master a = false -> asg_ncpus a = 0
}.

Record vinv (n : nat) (s : vstate) : Prop := {
  vi_cpus : length (cpus s) = n;
  vi_vms : length (vms s) = length cfgs;
  vi_asg : forall j a cfg, vms s !! j = Some a -> cfgs !! j = Some cfg -> asg_ok (cpus s) j a cfg;
  vi_at : forall c i, cpus s !! c = Some (Aff i) \/ cpus s !! c = Some (Rem i) -> (i <= length cfgs)%nat;
  vi_rem : forall c i j, cpus s !! c = Some (Rem i) -> (j < i)%nat -> full s j;
  vi_fin : forall c j, cpus s !! c = Some (Fin None) -> full s j
}.

(** A CPU that moves on without having got a place. *)
Lemma asg_ok_move l c p p' j a cfg :
  l !! c = Some p -> got p' = got p -> asg_ok l j a cfg -> asg_ok (<[c := p']> l) j a cfg.
Proof.
  intros Hp Hg [Hb Hn Hm Hma He].
  assert (on_vm j p' = on_vm j p /\ master_of j p' = master_of j p) as [E1 E2] by (unfold on_vm, master_of; by rewrite Hg).
  split; [|rewrite (tally_insert _ _ _ _ _ Hp), E1; lia|done|rewrite (tally_insert _ _ _ _ _ Hp), E2; lia|done].
  intros d. rewrite Hb. destruct (decide (d = c)) as [->|].
  - rewrite Hp, list_lookup_insert_eq by (by eapply lookup_lt_Some). simpl. by rewrite E1.
  - by rewrite list_lookup_insert_ne.
Qed.

(** A CPU that got a place in VM [i]. *)
Lemma asg_ok_take l c p p' i a cfg :
  l !! c = Some p -> got p = None -> got p' = Some (i, negb (asg_master a)) ->
  (length l <= 64)%nat -> 1 <= cfg_cpu_num cfg -> (asg_master a = true -> asg_ncpus a < cfg_cpu_num cfg) ->
  asg_ok l i a cfg -> asg_ok (<[c := p']> l) i (asg_take (Z.of_nat c) a) cfg.
Proof.
  intros Hp Hg Hg' Hl Hc Hlt [Hb Hn Hm Hma He].
  assert (on_vm i p = false /\ master_of i p = false /\ on_vm i p' = true /\ master_of i p' = negb (asg_master a))
    as (E1 & E2 & E3 & E4).
  { unfold on_vm, master_of. rewrite Hg, Hg', Nat.eqb_refl. done. }
  pose proof (tally_range (on_vm i) l).
  assert (u64 (asg_ncpus a + 1) = asg_ncpus a + 1) as Eu by (apply wrap_small; lia).
  split; simpl; rewrite ?Eu, ?(tally_insert _ _ _ _ _ Hp), ?E1, ?E2, ?E3, ?E4.
  - intros d. rewrite Z.lor_spec, Hb, Z.shiftl_1_l, Z.pow2_bits_eqb by lia. destruct (decide (d = c)) as [->|].
    + rewrite Z.eqb_refl, orb_true_r, list_lookup_insert_eq by (by eapply lookup_lt_Some). simpl. by rewrite E3.
    + rewrite list_lookup_insert_ne by done. replace (Z.of_nat c =? Z.of_nat d) with false by lia. apply orb_false_r.
  - simpl. lia.
  - destruct (asg_master a); [specialize (Hlt eq_refl); lia|]. rewrite He by done. lia.
  - rewrite Hma. by destruct (asg_master a).
  - done.
Qed.

Section Step.
Context (n : nat) (Hn : (n <= 64)%nat) (Hcfg : Forall (fun cfg => 1 <= cfg_cpu_num cfg) cfgs).

Lemma vinv_move s c p p' :
  vinv n s -> cpus s !! c = Some p -> got p' = got p ->
  (forall i, p' = Aff i \/ p' = Rem i -> (i <= length cfgs)%nat) ->
  (forall i j, p' = Rem i -> (j < i)%nat -> full s j) -> (forall j, p' = Fin None -> full s j) ->
  vinv n (mk_vst (vms s) (<[c := p']> (cpus s))).
Proof.
  intros [Hc Hv Ha Hat Hrem Hfin] Hp Hg H1 H2 H3. split; simpl; [by rewrite length_insert|done| | | |].
  - intros j a cfg Hj Hcf. by eapply asg_ok_move, Ha.
  - intros d i [Hd|Hd]; apply list_lookup_insert_Some in Hd as [(<- & -> & _)|[_ Hd]];
      [apply H1; by left|eapply Hat; by left|apply H1; by right|eapply Hat; by right].
  - intros d i j [(<- & -> & _)|[_ Hd]]%list_lookup_insert_Some; [by apply (H2 i)|by eapply Hrem].
  - intros d j [(<- & -> & _)|[_ Hd]]%list_lookup_insert_Some; [by apply H3|by eapply Hfin].
Qed.

Lemma vinv_take s c p p' i a cfg :
  vinv n s -> cpus s !! c = Some p -> got p = None -> got p' = Some (i, negb (asg_master a)) ->
  vms s !! i = Some a -> cfgs !! i = Some cfg -> (asg_master a = true -> asg_ncpus a < cfg_cpu_num cfg) ->
  vinv n (mk_vst (<[i := asg_take (Z.of_nat c) a]> (vms s)) (<[c := p']> (cpus s))).
Proof.
  intros [Hc Hv Ha Hat Hrem Hfin] Hp Hg Hg' Hi Hcf Hlt.
  pose proof (proj1 (Forall_lookup _ _) Hcfg i cfg Hcf) as Hpos. simpl in Hpos.
  pose proof (Ha i a cfg Hi Hcf) as Hok.
  assert (asg_ncpus a <= asg_ncpus (asg_take (Z.of_nat c) a)) as Hmono.
  { pose proof (asg_ok_take _ _ _ _ _ _ _ Hp Hg Hg' ltac:(lia) Hpos Hlt Hok) as [_ -> _ _ _].
    rewrite (ao_ncpus _ _ _ _ Hok), (tally_insert _ _ _ _ _ Hp). unfold on_vm. rewrite Hg. destruct (got p') as [[??]|]; simpl; [|lia].
    destruct (_ =? _)%nat; simpl; lia. }
  assert (forall j, full s j -> full (mk_vst (<[i := asg_take (Z.of_nat c) a]> (vms s)) (<[c := p']> (cpus s))) j) as Hfull.
  { intros j Hf a' cfg' Ha' Hcf'. simpl in Ha'. apply list_lookup_insert_Some in Ha' as [(<- & <- & _)|[_ Ha']].
    - specialize (Hf a cfg' Hi Hcf'). lia.
    - by apply Hf. }
  split; simpl; [by rewrite length_insert|by rewrite length_insert| | | |].
  - intros j a' cfg' Ha' Hcf'. apply list_lookup_insert_Some in Ha' as [(<- & <- & _)|[Hne Ha']].
    + rewrite Hcf in Hcf'. simplify_eq. by eapply asg_ok_take.
    + destruct (Ha j a' cfg' Ha' Hcf') as [Hb Hnc Hm Hma He].
      assert (on_vm j p = false /\ on_vm j p' = false /\ master_of j p = false /\ master_of j p' = false) as (E1 & E2 & E3 & E4).
      { unfold on_vm, master_of. rewrite Hg, Hg'. by replace (i =? j)%nat with false by (symmetry; by apply Nat.eqb_neq). }
      split; rewrite ?(tally_insert _ _ _ _ _ Hp), ?E1, ?E2, ?E3, ?E4; simpl; try done; [|lia|lia].
      intros d. rewrite Hb. destruct (decide (d = c)) as [->|]; [|by rewrite list_lookup_insert_ne].
      rewrite Hp, list_lookup_insert_eq by (by eapply lookup_lt_Some). simpl. by rewrite E1, E2.
  - assert (forall x, p' <> Aff x /\ p' <> Rem x) as Hpc by (intros x; by destruct p'; split; intros [= ->]).
    intros d x [Hd|Hd]; apply list_lookup_insert_Some in Hd as [(_ & Hx & _)|[_ Hd]];
      [by destruct (Hpc x)|eapply Hat; by left|by destruct (Hpc x)|eapply Hat; by right].
  - intros d x j [(_ & -> & _)|[_ Hd]]%list_lookup_insert_Some; [done|]. intros Hj. by eapply Hfull, Hrem.
  - intros d j [(_ & -> & _)|[_ Hd]]%list_lookup_insert_Some; [done|]. by eapply Hfull, Hfin.
Qed.

(** What a claim does. *)
Lemma affinity_claim_cases cfg c a a' r :
  affinity_claim cfg c a = (a', r) ->
  (a' = a /\ r = None) \/
  (a' = asg_take c a /\ r = Some (negb (asg_master a)) /\ (asg_master a = true -> asg_ncpus a < cfg_cpu_num cfg)).
Proof.
  unfold affinity_claim. destruct (negb (Z.land _ _ =? 0)); [|intros [= <- <-]; by left].
  destruct (asg_master a); simpl; [|intros [= <- <-]; by right].
  destruct (Z.ltb_spec (asg_ncpus a) (cfg_cpu_num cfg)); intros [= <- <-]; [by right|by left].
Qed.

Lemma remaining_claim_cases cfg c a a' r :
  remaining_claim cfg c a = (a', r) ->
  (a' = a /\ r = None /\ cfg_cpu_num cfg <= asg_ncpus a) \/
  (a' = asg_take c a /\ r = Some (negb (asg_master a)) /\ (asg_master a = true -> asg_ncpus a < cfg_cpu_num cfg)).
Proof.
  unfold remaining_claim. destruct (Z.ltb_spec (asg_ncpus a) (cfg_cpu_num cfg)); [|intros [= <- <-]; by left].
  destruct (asg_master a); simpl; intros [= <- <-]; by right.
Qed.

Lemma vinv_step s s' : vinv n s -> vstep s s' -> vinv n s'.
Proof.
  intros Hi Hs. destruct Hs as [s c i cfg a a' r Hp Hcf Ha Hcl|s c i Hp ->|s c r Hp _|s c i cfg a a' r Hp Hcf Ha Hcl|s c i Hp ->].
  - apply affinity_claim_cases in Hcl as [[-> ->]|(-> & -> & Hlt)]; [|by eapply vinv_take].
    rewrite list_insert_id by done. eapply vinv_move; try done. intros x [[= <-]|?]; [|done].
    apply lookup_lt_Some in Hcf. lia.
  - eapply vinv_move; try done; naive_solver.
  - eapply vinv_move; try done; destruct r; try done; try naive_solver lia.
  - apply remaining_claim_cases in Hcl as [(-> & -> & Hf)|(-> & -> & Hlt)]; [|by eapply vinv_take].
    rewrite list_insert_id by done. eapply vinv_move; try done.
    + intros x [?|[= <-]]; [done|]. apply lookup_lt_Some in Hcf. lia.
    + intros x j [= <-] Hj. destruct (decide (j = i)) as [->|]; [|eapply vi_rem; [done|done|lia]].
      intros a0 cfg0 Ha0 Hc0. by simplify_eq.
  - eapply vinv_move; try done; [naive_solver|]. intros j _ a cfg Ha Hcf.
    eapply (vi_rem n s Hi c (length cfgs) j); try done. by eapply lookup_lt_Some.
Qed.

Lemma vreachable_inv s : vreachable n s -> vinv n s.
Proof.
  revert s. apply (rtc_ind_r (vinv n)); [|intros s s' _ Hs Hi; by eapply vinv_step].
  assert (forall P, P (Aff 0) = false -> tally P (replicate n (Aff 0)) = 0) as Ht.
  { intros P HP. clear Hn. induction n as [|m IH]; simpl; [done|]. rewrite HP, IH. done. }
  split; simpl; [by rewrite length_replicate|by rewrite length_replicate| | | |].
  - intros j a cfg [-> _]%lookup_replicate Hcf. split; simpl; rewrite ?Ht by done; try done.
    + intros c. rewrite Z.bits_0. destruct (replicate n (Aff 0) !! c) eqn:E; [|done].
      by apply lookup_replicate in E as [-> _].
    + pose proof (proj1 (Forall_lookup _ _) Hcfg j cfg Hcf). simpl in *. lia.
  - intros c i [[E _]%lookup_replicate|[E _]%lookup_replicate]; simplify_eq; lia.
  - by intros c i j [E _]%lookup_replicate.
  - by intros c j [E _]%lookup_replicate.
Qed.
End Step.

(** ** Termination *)
Definition weight (p : vpc) : Z :=
  let l := Z.of_nat (length cfgs) in
  match p with
  | Aff i => 2 * l + 4 - Z.of_nat i | Bar _ => l + 3 | Rem i => l + 2 - Z.of_nat i | Fin _ => 0
  end.

Definition work (s : vstate) : Z := foldr (fun p acc => weight p + acc) 0 (cpus s).

Lemma work_insert l c x y :
  l !! c = Some x ->
  foldr (fun p acc => weight p + acc) 0 (<[c := y]> l) = foldr (fun p acc => weight p + acc) 0 l + weight y - weight x.
Proof.
  revert c. induction l as [|p l IH]; intros [|c] H; simplify_eq/=; [lia|]. rewrite (IH c H). lia.
Qed.

Lemma work_nonneg n s : vinv n s -> 0 <= work s.
Proof.
  intros Hi. assert (Forall (fun p => 0 <= weight p) (cpus s)) as Hf.
  { apply Forall_lookup. intros c p Hp. destruct p as [i| |i|]; simpl; try lia.
    - pose proof (vi_at n s Hi c i (or_introl Hp)). lia.
    - pose proof (vi_at n s Hi c i (or_intror Hp)). lia. }
  unfold work. clear Hi. induction Hf; simpl; lia.
Qed.

Lemma work_decreases n s s' : vinv n s -> vstep s s' -> work s' < work s.
Proof.
  intros Hi Hs. unfold work.
  destruct Hs as [s c i cfg a a' r Hp _ _ _|s c i Hp ->|s c r Hp _|s c i cfg a a' r Hp _ _ _|s c i Hp ->]; simpl;
    rewrite (work_insert _ _ _ _ Hp).
  - pose proof (vi_at n s Hi c i (or_introl Hp)). destruct r; simpl; lia.
  - simpl. lia.
  - destruct r; simpl; lia.
  - pose proof (vi_at n s Hi c i (or_intror Hp)). destruct r; simpl; lia.
  - simpl. lia.
Qed.

(** Someone can move as long as not everyone is done. *)
Lemma vmm_progress n s : vinv n s -> (forall c p, cpus s !! c = Some p -> exists r, p = Fin r) \/ exists s', vstep s s'.
Proof.
  intros Hi. pose proof (vi_vms n s Hi) as Hl.
  destruct (forallb (fun p => negb (is_aff p)) (cpus s)) eqn:Ea.
  2:{ right. assert (exists p, p ∈ cpus s /\ is_aff p = true) as (p & Hin & Hp).
      { apply not_true_iff_false in Ea. destruct (decide (Exists (fun p => is_aff p = true) (cpus s))) as [He|He].
        - apply Exists_exists in He as (p & ? & ?). by exists p.
        - destruct Ea. apply forallb_forall. intros p Hp%list_elem_of_In.
          destruct (is_aff p) eqn:E; [|done]. destruct He. apply Exists_exists. by exists p. }
      apply list_elem_of_lookup in Hin as [c Hc]. destruct p as [i| | |]; try done.
      pose proof (vi_at n s Hi c i (or_introl Hc)). destruct (decide (i = length cfgs)) as [->|].
      - eexists. by eapply VAffEnd.
      - destruct (lookup_lt_is_Some_2 cfgs i) as [cfg Hcf]; [lia|].
        destruct (lookup_lt_is_Some_2 (vms s) i) as [a Ha]; [lia|].
        destruct (affinity_claim cfg (Z.of_nat c) a) eqn:E. eexists. by eapply VAff. }
  destruct (decide (Forall (fun p => is_fin p = true) (cpus s))) as [Hf|Hf].
  { left. intros c p Hc. pose proof (proj1 (Forall_lookup _ _) Hf c p Hc). destruct p; try done. by eexists. }
  right. apply not_Forall_Exists in Hf; [|apply _]. apply Exists_exists in Hf as (p & Hin & Hp).
  apply list_elem_of_lookup in Hin as [c Hc]. destruct p as [i|r|i|r]; simpl in Hp; try done.
  - exfalso. apply (proj1 (forallb_forall _ _)) with (x := Aff i) in Ea; [done|]. by eapply list_elem_of_In, list_elem_of_lookup_2.
  - eexists. by eapply VBar.
  - pose proof (vi_at n s Hi c i (or_intror Hc)). destruct (decide (i = length cfgs)) as [->|].
    + eexists. by eapply VRemEnd.
    + destruct (lookup_lt_is_Some_2 cfgs i) as [cfg Hcf]; [lia|].
      destruct (lookup_lt_is_Some_2 (vms s) i) as [a Ha]; [lia|].
      destruct (remaining_claim cfg (Z.of_nat c) a) eqn:E. eexists. by eapply VRem.
Qed.
End Assign.

(** C38. For up to 64 CPUs and VMs that ask for at least one CPU each, whatever
    the order in which the CPUs run: the CPU mask of a VM holds exactly the CPUs
    that were assigned to it, its count is their number and never exceeds what
    the VM asks for, and exactly one of them is its master as soon as there is
    one; a CPU stays without a VM only if every VM has all its CPUs; the phases
    always end, with every CPU done. *)
Theorem vmm_assignment_correct cfgs n s :
  (n <= 64)%nat -> Forall (fun cfg => 1 <= cfg_cpu_num cfg) cfgs -> vreachable cfgs n s ->
  (forall j a cfg, vms s !! j = Some a -> cfgs !! j = Some cfg ->
     (forall c p, cpus s !! c = Some p ->
        Z.testbit (asg_cpus a) (Z.of_nat c) = true <-> exists m, got p = Some (j, m)) /\
     asg_ncpus a = tally (on_vm j) (cpus s) /\ asg_ncpus a <= cfg_cpu_num cfg /\
     tally (master_of j) (cpus s) = (if asg_ncpus a =? 0 then 0 else 1)) /\
  (forall c, cpus s !! c = Some (Fin None) -> forall j a cfg, vms s !! j = Some a -> cfgs !! j = Some cfg ->
     asg_ncpus a = cfg_cpu_num cfg) /\
  ((forall c p, cpus s !! c = Some p -> exists r, p = Fin r) \/ exists s', vstep cfgs s s') /\
  (forall s', vstep cfgs s s' -> 0 <= work cfgs s' < work cfgs s).
Proof.
  intros Hn Hcfg Hr. pose proof (vreachable_inv cfgs n Hn Hcfg s Hr) as Hi. split_and!.
  - intros j a cfg Ha Hcf. pose proof (vi_asg _ _ _ Hi j a cfg Ha Hcf) as [Hb Hnc Hm Hma He]. split_and!; [|done|done|].
    + intros c p Hp. rewrite Hb, Hp. simpl. unfold on_vm. destruct (got p) as [[i m]|]; [|naive_solver].
      rewrite Nat.eqb_eq. naive_solver.
    + rewrite Hma. destruct (asg_master a) eqn:Em; simpl; [|by rewrite He].
      assert (tally (master_of j) (cpus s) <= tally (on_vm j) (cpus s)) as Hle; [|destruct (Z.eqb_spec (asg_ncpus a) 0); simpl in *; lia].
      clear. induction (cpus s) as [|p l IH]; simpl; [lia|]. unfold on_vm at 1, master_of at 1.
      destruct (got p) as [[i m]|]; [|simpl; lia]. destruct (i =? j)%nat, m; simpl; lia.
  - intros c Hc j a cfg Ha Hcf. pose proof (vi_fin _ _ _ Hi c j Hc a cfg Ha Hcf).
    pose proof (ao_max _ _ _ _ (vi_asg _ _ _ Hi j a cfg Ha Hcf)). lia.
  - by eapply vmm_progress.
  - intros s' Hs. split; [|by eapply work_decreases]. eapply work_nonneg. by eapply vinv_step.
Qed.

(** Two VMs and one CPU that has affinity with neither: it becomes the master
    of the first. *)
Definition demo_cfgs : list vm_cfg := [mk_cfg 2 1; mk_cfg 0 1].

Lemma demo_assignment : vreachable demo_cfgs 1 (mk_vst [mk_asg true 1 1; mk_asg false 0 0] [Fin (Some (0%nat, true))]).
Proof.
  eapply rtc_l; [eapply (VAff demo_cfgs _ 0 0); reflexivity|]. simpl.
  eapply rtc_l; [eapply (VAff demo_cfgs _ 0 1); reflexivity|]. simpl.
  eapply rtc_l; [eapply (VAffEnd demo_cfgs _ 0 2); reflexivity|]. simpl.
  eapply rtc_l; [eapply (VBar demo_cfgs _ 0); reflexivity|]. simpl.
  eapply rtc_l; [eapply (VRem demo_cfgs _ 0 0); reflexivity|]. simpl. apply rtc_refl.
Qed.

Lemma vmm_assignment_correct_witness :
  tally (master_of 0) [Fin (Some (0%nat, true))] = (if 1 =? 0 then 0 else 1).
Proof.
  destruct (vmm_assignment_correct demo_cfgs 1 (mk_vst [mk_asg true 1 1; mk_asg false 0 0] [Fin (Some (0%nat, true))]))
    as (H & _).
  - lia.
  - repeat constructor; simpl; lia.
  - apply demo_assignment.
  - destruct (H 0%nat (mk_asg true 1 1) (mk_cfg 2 1) eq_refl eq_refl) as (_ & _ & _ & Hm). exact Hm.
Defined.
