(* ===== verification/State.v ===== *)
(** * The run-time state of the hypervisor

    The state the trap handlers work on: the physical CPUs with their CSRs,
    their event list and their virtual CPU, the virtual machines, the PLIC
    registers, the interrupt tables and the shared-memory table; and the state
    and error monad the handlers are written in. A virtual CPU is named by the
    physical CPU it is pinned to, a VM by its number.

    The event lists hold messages rather than nodes: the node-level code of
    [cpu.c] refines them ([CpuMsg]), including the shared budget of nodes
    ([hy_left]), whose exhaustion panics. *)

From S2P Require Import Prelude Bit Bitmap CpuMsg.

(** ** Platform and firmware

    What the hypervisor is compiled for, and what is not part of its code: the
    implemented bits of the priority registers of the PLIC, the answers of the
    M-mode firmware, guest memory as read by [hlvx.hu], and the content of
    uninitialised locals. *)
Class Env := {
  plic_cntxt_num : Z;
  plic_base : Z;
  cpu_num : Z;
  prio_mask : Z -> Z;
  firmware : Z -> Z -> list Z -> Z * Z;
  guest_fetch : Z -> Z;
  uninit_error : Z;
  uninit_value : Z
}.

(** ** PLIC registers *)
Definition PLIC_MAX_INTERRUPTS : Z := 1024.
Definition PLIC_NUM_ENBL_REGS : Z := 32.
Definition PLIC_CLAIMCMPLT_OFF : Z := 2097152.

Record plic := mk_plic {
  pl_impl : Z;
  pl_prio : mem;
  pl_pend : mem;
  pl_enbl : mem;
  pl_threshold : mem
}.

(** ** Virtual machines *)
Inductive hsm_state := STARTED | STOPPED | START_PENDING | STOP_PENDING.

#[export] Instance hsm_state_eq_dec : EqDecision hsm_state.
Proof. solve_decision. Defined.

Definition hsm_code (h : hsm_state) : Z :=
  match h with STARTED => 0 | STOPPED => 1 | START_PENDING => 2 | STOP_PENDING => 3 end.

Record vcpu := mk_vcpu {
  vc_id : Z;
  vc_vm : Z;
  vc_active : bool;
  vc_hart_id : Z;
  vc_regs : mem;
  vc_hstatus : Z;
  vc_sstatus : Z;
  vc_sepc : Z;
  vc_state : hsm_state;
  vc_start_addr : Z;
  vc_priv : Z
}.

(** The virtual PLIC is the memory of [vplic_t] after its lock and context
    count, as 32-bit words in the order of the structure's fields. *)
Record vplic := mk_vplic { vp_cntxt_num : Z; vp_mem : mem }.

(** The handlers of emulated regions and of the hypervisor's own interrupts that
    the RISC-V code registers. *)
Inductive emul_handler := VPLIC_GLOBAL | VPLIC_HART.

#[export] Instance emul_handler_eq_dec : EqDecision emul_handler.
Proof. solve_decision. Defined.

(** The physical base and the flags of an emulated region are never read. *)
Inductive emul_node :=
  | EMUL_MEM (va_base size : Z) (handler : emul_handler)
  | EMUL_REG (addr : Z) (handler : emul_handler).

Record ipc := mk_ipc { ipc_base : Z; ipc_size : Z; ipc_shmem_id : Z; ipc_interrupts : list Z }.

Record shmem := mk_shmem {
  sh_size : Z; sh_colors : Z; sh_place_phys : bool; sh_phys : Z; sh_masters : Z
}.

Record vm := mk_vm {
  vm_id : Z;
  vm_master : Z;
  vm_cpu_num : Z;
  vm_cpus : Z;
  vm_vcpu_list : list Z;
  vm_vplic : vplic;
  vm_emul_list : list emul_node;
  vm_interrupts : mem;
  vm_ipcs : list ipc
}.

Record cpu := mk_cpu {
  c_plic_cntxt : Z;
  c_vcpu : option vcpu;
  c_csr : mem;
  c_events : list cpu_msg
}.

Inductive irq_handler := CPU_MSG_HANDLER | SBI_TIMER_IRQ_HANDLER.

#[export] Instance irq_handler_eq_dec : EqDecision irq_handler.
Proof. solve_decision. Defined.

(** What leaves the hypervisor: calls to the firmware, completions written to
    the PLIC, and messages on the console. *)
Inductive event :=
  | Ecall (eid fid : Z) (args : list Z)
  | PlicComplete (cntxt id : Z)
  | Warn (msg : string).

#[export] Instance event_eq_dec : EqDecision event.
Proof. solve_decision. Defined.

Record hyp := mk_hyp {
  hy_cpus : gmap Z cpu;
  hy_vms : gmap Z vm;
  hy_plic : plic;
  hy_left : Z;
  hy_shmem : list shmem;
  hy_hyp_int : mem;
  hy_glb_int : mem;
  hy_handlers : gmap Z irq_handler;
  hy_trace : list event
}.

(** ** The monad of the handlers *)
Definition M (A : Type) : Type := hyp -> res (A * hyp).

#[export] Instance M_ret : MRet M := fun A a s => Ok (a, s).
#[export] Instance M_bind : MBind M :=
  fun A B k m s => match m s with Ok (a, s') => k a s' | Fault f => Fault f end.

Definition get_st : M hyp := fun s => Ok (s, s).
Definition fail {A} (f : fault) : M A := fun _ => Fault f.
Definition ERROR {A} (msg : string) : M A := fail (Panic msg).
Definition gets {A} (f : hyp -> A) : M A := fun s => Ok (f s, s).
Definition mod_st (f : hyp -> hyp) : M unit := fun s => Ok (tt, f s).

Definition set_cpus (g : gmap Z cpu -> gmap Z cpu) (s : hyp) : hyp :=
  mk_hyp (g (hy_cpus s)) (hy_vms s) (hy_plic s) (hy_left s) (hy_shmem s) (hy_hyp_int s)
    (hy_glb_int s) (hy_handlers s) (hy_trace s).
Definition set_vms (g : gmap Z vm -> gmap Z vm) (s : hyp) : hyp :=
  mk_hyp (hy_cpus s) (g (hy_vms s)) (hy_plic s) (hy_left s) (hy_shmem s) (hy_hyp_int s)
    (hy_glb_int s) (hy_handlers s) (hy_trace s).
Definition set_plic (g : plic -> plic) (s : hyp) : hyp :=
  mk_hyp (hy_cpus s) (hy_vms s) (g (hy_plic s)) (hy_left s) (hy_shmem s) (hy_hyp_int s)
    (hy_glb_int s) (hy_handlers s) (hy_trace s).
Definition set_left (g : Z -> Z) (s : hyp) : hyp :=
  mk_hyp (hy_cpus s) (hy_vms s) (hy_plic s) (g (hy_left s)) (hy_shmem s) (hy_hyp_int s)
    (hy_glb_int s) (hy_handlers s) (hy_trace s).
Definition set_shmem (g : list shmem -> list shmem) (s : hyp) : hyp :=
  mk_hyp (hy_cpus s) (hy_vms s) (hy_plic s) (hy_left s) (g (hy_shmem s)) (hy_hyp_int s)
    (hy_glb_int s) (hy_handlers s) (hy_trace s).
Definition set_ints (h g : mem) (t : gmap Z irq_handler) (s : hyp) : hyp :=
  mk_hyp (hy_cpus s) (hy_vms s) (hy_plic s) (hy_left s) (hy_shmem s) h g t (hy_trace s).
Definition log (e : event) : M unit :=
  mod_st (fun s => mk_hyp (hy_cpus s) (hy_vms s) (hy_plic s) (hy_left s) (hy_shmem s)
    (hy_hyp_int s) (hy_glb_int s) (hy_handlers s) (hy_trace s ++ [e])).

(** A CPU that is not there, a CPU without a virtual CPU and a VM that is not
    there are null pointers. *)
Definition get_cpu (c : Z) : M cpu :=
  s ← get_st; match hy_cpus s !! c with Some x => mret x | None => fail NullDeref end.
Definition put_cpu (c : Z) (x : cpu) : M unit := mod_st (set_cpus (fun m => <[c := x]> m)).
Definition get_vcpu (c : Z) : M vcpu :=
  x ← get_cpu c; match c_vcpu x with Some v => mret v | None => fail NullDeref end.
Definition set_vcpu (v : vcpu) (x : cpu) : cpu := mk_cpu (c_plic_cntxt x) (Some v) (c_csr x) (c_events x).
Definition put_vcpu (c : Z) (v : vcpu) : M unit := x ← get_cpu c; put_cpu c (set_vcpu v x).
Definition get_vm (i : Z) : M vm :=
  s ← get_st; match hy_vms s !! i with Some x => mret x | None => fail NullDeref end.
Definition put_vm (i : Z) (x : vm) : M unit := mod_st (set_vms (fun m => <[i := x]> m)).

(** [emul_access_t]. *)
Record emul_access := mk_acc {
  acc_addr : Z; acc_write : bool; acc_sign_ext : bool; acc_width : Z; acc_reg : Z; acc_reg_width : Z
}.

(** ** Control and status registers *)
Definition CSR_SSTATUS : Z := 256.
Definition CSR_SIE : Z := 260.
Definition CSR_SEPC : Z := 321.
Definition CSR_SCAUSE : Z := 322.
Definition CSR_STVAL : Z := 323.
Definition CSR_SIP : Z := 324.
Definition CSR_VSSTATUS : Z := 512.
Definition CSR_VSTVEC : Z := 517.
Definition CSR_VSSCRATCH : Z := 576.
Definition CSR_VSEPC : Z := 577.
Definition CSR_VSCAUSE : Z := 578.
Definition CSR_VSTVAL : Z := 579.
Definition CSR_VSATP : Z := 640.
Definition CSR_HSTATUS : Z := 1536.
Definition CSR_HIE : Z := 1540.
Definition CSR_HTIMEDELTA : Z := 1541.
Definition CSR_HCOUNTEREN : Z := 1542.
Definition CSR_HTVAL : Z := 1603.
Definition CSR_HVIP : Z := 1605.
Definition CSR_HTINST : Z := 1610.
Definition CSR_HGATP : Z := 1664.

Definition set_csr (k v : Z) (x : cpu) : cpu :=
  mk_cpu (c_plic_cntxt x) (c_vcpu x) (st (c_csr x) k v) (c_events x).
Definition CSRR (c k : Z) : M Z := x ← get_cpu c; mret (ld (c_csr x) k).
Definition CSRW (c k v : Z) : M unit := x ← get_cpu c; put_cpu c (set_csr k v x).
Definition CSRS (c k v : Z) : M unit :=
  x ← get_cpu c; put_cpu c (set_csr k (Z.lor (ld (c_csr x) k) v) x).
Definition CSRC (c k v : Z) : M unit :=
  x ← get_cpu c; put_cpu c (set_csr k (Z.ldiff (ld (c_csr x) k) v) x).

(** ** Guest registers *)
Definition REG_A0 : Z := 10.
Definition REG_A1 : Z := 11.
Definition REG_A2 : Z := 12.
Definition REG_A3 : Z := 13.
Definition REG_A4 : Z := 14.
Definition REG_A6 : Z := 16.
Definition REG_A7 : Z := 17.

(** [vcpu_readreg] and [vcpu_writereg]: register [x0] and numbers past 31 read
    as zero and ignore writes; [regs] holds [x1] to [x31] from index 0. *)
Definition readreg (v : vcpu) (reg : Z) : Z :=
  if (reg <=? 0) || (31 <? reg) then 0 else ld (vc_regs v) (reg - 1).
Definition set_regs (r : mem) (v : vcpu) : vcpu :=
  mk_vcpu (vc_id v) (vc_vm v) (vc_active v) (vc_hart_id v) r (vc_hstatus v) (vc_sstatus v)
    (vc_sepc v) (vc_state v) (vc_start_addr v) (vc_priv v).
Definition writereg (v : vcpu) (reg val : Z) : vcpu :=
  if (reg <=? 0) || (31 <? reg) then v else set_regs (st (vc_regs v) (reg - 1) val) v.

Definition vcpu_readreg (c reg : Z) : M Z := v ← get_vcpu c; mret (readreg v reg).
Definition vcpu_writereg (c reg val : Z) : M unit := v ← get_vcpu c; put_vcpu c (writereg v reg val).
Definition set_sepc (pc : Z) (v : vcpu) : vcpu :=
  mk_vcpu (vc_id v) (vc_vm v) (vc_active v) (vc_hart_id v) (vc_regs v) (vc_hstatus v) (vc_sstatus v)
    pc (vc_state v) (vc_start_addr v) (vc_priv v).
Definition vcpu_readpc (c : Z) : M Z := v ← get_vcpu c; mret (vc_sepc v).
Definition vcpu_writepc (c pc : Z) : M unit := v ← get_vcpu c; put_vcpu c (set_sepc pc v).

(** ** Reasoning about runs *)
(** What a computation that succeeded went through. *)
Lemma bind_ok {A B} (m : M A) (k : A -> M B) s b s2 :
  (m ≫= k) s = Ok (b, s2) -> exists a s1, m s = Ok (a, s1) /\ k a s1 = Ok (b, s2).
Proof. unfold mbind, M_bind. destruct (m s) as [[a s1]|]; [eauto|done]. Qed.

Lemma get_cpu_ok c s x s' : get_cpu c s = Ok (x, s') -> s' = s /\ hy_cpus s !! c = Some x.
Proof.
  intros (a & s1 & [= <- <-] & H)%bind_ok. destruct (hy_cpus s !! c) eqn:E; [|done].
  by injection H as <- <-.
Qed.

Lemma get_vcpu_ok c s v s' :
  get_vcpu c s = Ok (v, s') -> s' = s /\ exists x, hy_cpus s !! c = Some x /\ c_vcpu x = Some v.
Proof.
  intros (x & s1 & [-> Hx]%get_cpu_ok & H)%bind_ok. destruct (c_vcpu x) eqn:E; [|done].
  injection H as <- <-. eauto.
Qed.

Lemma get_vm_ok i s x s' : get_vm i s = Ok (x, s') -> s' = s /\ hy_vms s !! i = Some x.
Proof.
  intros (a & s1 & [= <- <-] & H)%bind_ok. destruct (hy_vms s !! i) eqn:E; [|done].
  by injection H as <- <-.
Qed.

(** Running a computation whose first step is known. *)
Lemma bind_eq {A B} (m : M A) (k : A -> M B) s a s1 : m s = Ok (a, s1) -> (m ≫= k) s = k a s1.
Proof. unfold mbind, M_bind. by intros ->. Qed.

Lemma bind_ret {A B} (a : A) (k : A -> M B) s : (mret a ≫= k) s = k a s.
Proof. done. Qed.

Lemma bind_fault {A B} (m : M A) (k : A -> M B) s f : m s = Fault f -> (m ≫= k) s = Fault f.
Proof. unfold mbind, M_bind. by intros ->. Qed.

Lemma get_cpu_eq c s x : hy_cpus s !! c = Some x -> get_cpu c s = Ok (x, s).
Proof. intros E. unfold get_cpu, get_st, mbind, M_bind. by rewrite E. Qed.

Lemma get_vcpu_eq c s x v : hy_cpus s !! c = Some x -> c_vcpu x = Some v -> get_vcpu c s = Ok (v, s).
Proof. intros E Ev. unfold get_vcpu. rewrite (bind_eq _ _ _ _ _ (get_cpu_eq c s x E)). by rewrite Ev. Qed.

Lemma get_vm_eq i s x : hy_vms s !! i = Some x -> get_vm i s = Ok (x, s).
Proof. intros E. unfold get_vm, get_st, mbind, M_bind. by rewrite E. Qed.

(** [mrun E] runs the first step of a bind with the equation [E]. *)
Ltac mrun E := rewrite (bind_eq _ _ _ _ _ E); cbv beta.

(** ** A concrete platform and state

    One hart with 31 interrupt sources, as on the single-core board, whose
    firmware answers every call with success; one VM with one virtual CPU. *)
Definition demo_env : Env := {|
  plic_cntxt_num := 2; plic_base := 201326592; cpu_num := 1;
  prio_mask := fun i => if (1 <=? i) && (i <=? 31) then 7 else 0;
  firmware := fun _ _ _ => (0, 0); guest_fetch := fun _ => 0;
  uninit_error := 0; uninit_value := 0 |}.

Definition demo_vcpu : vcpu := mk_vcpu 0 0 true 0 ∅ 0 0 0 STARTED 0 0.
Definition demo_cpu : cpu := mk_cpu 1 (Some demo_vcpu) ∅ [].
Definition demo_vm (m : mem) : vm := mk_vm 0 0 1 1 [0] (mk_vplic 2 m) [] ∅ [].
Definition demo_hyp (m : mem) : hyp :=
  mk_hyp {[ 0 := demo_cpu ]} {[ 0 := demo_vm m ]} (mk_plic 31 ∅ ∅ ∅ ∅) 126 [] ∅ ∅ ∅ [].
