(* ===== verification/Calls.v ===== *)
(** * Firmware calls, messages and virtual CPUs

    The wrappers of [arch/riscv/sbi.c] around [ecall], the message primitives
    of [core/cpu.c] over the run-time state, the translation between virtual
    and physical CPU numbers of [core/inc/vm.h], and the virtual CPU operations
    of [core/vm.c] and [arch/riscv/vm.c]. *)

From S2P Require Import Prelude Bit Bitmap CpuMsg State.

Section Calls.
Context {Henv : Env}.

(** ** Calls to the firmware *)
Definition SBI_EXTID_BASE : Z := 16.
Definition SBI_EXTID_TIME : Z := 1414090053.
Definition SBI_EXTID_IPI : Z := 7557193.
Definition SBI_EXTID_HSM : Z := 4739917.
Definition SBI_EXTID_RFNC : Z := 1380339267.
Definition SBI_EXTID_BAO : Z := 134220704.

Definition sbi_ecall (eid fid : Z) (args : list Z) : M (Z * Z) :=
  log (Ecall eid fid args);; mret (firmware eid fid args).

Definition sbi_console_putchar (ch : Z) : M (Z * Z) := sbi_ecall 1 0 [ch; 0; 0; 0; 0; 0].
Definition sbi_console_getchar : M (Z * Z) := sbi_ecall 2 0 [0; 0; 0; 0; 0; 0].
Definition sbi_get_spec_version : M (Z * Z) := sbi_ecall SBI_EXTID_BASE 0 [0; 0; 0; 0; 0; 0].
Definition sbi_get_impl_id : M (Z * Z) := sbi_ecall SBI_EXTID_BASE 1 [0; 0; 0; 0; 0; 0].
Definition sbi_get_impl_version : M (Z * Z) := sbi_ecall SBI_EXTID_BASE 2 [0; 0; 0; 0; 0; 0].
Definition sbi_probe_extension (e : Z) : M (Z * Z) := sbi_ecall SBI_EXTID_BASE 3 [e; 0; 0; 0; 0; 0].
Definition sbi_get_mvendorid : M (Z * Z) := sbi_ecall SBI_EXTID_BASE 4 [0; 0; 0; 0; 0; 0].
Definition sbi_get_marchid : M (Z * Z) := sbi_ecall SBI_EXTID_BASE 5 [0; 0; 0; 0; 0; 0].
Definition sbi_get_mimpid : M (Z * Z) := sbi_ecall SBI_EXTID_BASE 6 [0; 0; 0; 0; 0; 0].
Definition sbi_send_ipi (hart_mask base : Z) : M (Z * Z) :=
  sbi_ecall SBI_EXTID_IPI 0 [hart_mask; base; 0; 0; 0; 0].
Definition sbi_set_timer (stime_value : Z) : M (Z * Z) :=
  sbi_ecall SBI_EXTID_TIME 0 [stime_value; 0; 0; 0; 0; 0].
Definition sbi_remote_fence_i (hart_mask base : Z) : M (Z * Z) :=
  sbi_ecall SBI_EXTID_RFNC 0 [hart_mask; base; 0; 0; 0; 0].
Definition sbi_remote_sfence_vma (hart_mask base start size : Z) : M (Z * Z) :=
  sbi_ecall SBI_EXTID_RFNC 1 [hart_mask; base; start; size; 0; 0].
Definition sbi_remote_hfence_gvma (hart_mask base start size : Z) : M (Z * Z) :=
  sbi_ecall SBI_EXTID_RFNC 3 [hart_mask; base; start; size; 0; 0].
Definition sbi_remote_hfence_gvma_vmid (hart_mask base start size vmid : Z) : M (Z * Z) :=
  sbi_ecall SBI_EXTID_RFNC 4 [hart_mask; base; start; size; vmid; 0].
Definition sbi_remote_hfence_vvma (hart_mask base start size : Z) : M (Z * Z) :=
  sbi_ecall SBI_EXTID_RFNC 5 [hart_mask; base; start; size; 0; 0].
Definition sbi_remote_hfence_vvma_asid (hart_mask base start size asid : Z) : M (Z * Z) :=
  sbi_ecall SBI_EXTID_RFNC 6 [hart_mask; base; start; size; asid; 0].
Definition sbi_hart_start (hartid start_addr priv : Z) : M (Z * Z) :=
  sbi_ecall SBI_EXTID_HSM 0 [hartid; start_addr; priv; 0; 0; 0].
Definition sbi_hart_stop : M (Z * Z) := sbi_ecall SBI_EXTID_HSM 1 [0; 0; 0; 0; 0; 0].
Definition sbi_hart_status (hartid : Z) : M (Z * Z) := sbi_ecall SBI_EXTID_HSM 2 [hartid; 0; 0; 0; 0; 0].

(** ** Messages *)

(** The message handlers are numbered in the order in which the linker places
    them; any three distinct numbers do. *)
Definition VPLIC_IPI_ID : Z := 0.
Definition SBI_MSG_ID : Z := 1.
Definition IPC_CPUSMG_ID : Z := 2.

Definition interrupts_arch_ipi_send (target_cpu : Z) : M unit :=
  sbi_send_ipi (u64 (Z.shiftl 1 target_cpu)) 0;; mret tt.
Definition interrupts_cpu_sendipi (target_cpu : Z) : M unit := interrupts_arch_ipi_send target_cpu.

Definition add_event (msg : cpu_msg) (x : cpu) : cpu :=
  mk_cpu (c_plic_cntxt x) (c_vcpu x) (c_csr x) (c_events x ++ [msg]).

Definition send_msg (trgtcpu : Z) (msg : cpu_msg) : M unit :=
  left ← gets hy_left;
  if left =? 0 then ERROR "cant allocate msg node"
  else
    mod_st (set_left (fun n => n - 1));;
    x ← get_cpu trgtcpu; put_cpu trgtcpu (add_event msg x);;
    interrupts_cpu_sendipi trgtcpu.

Definition get_msg (c : Z) : M (option cpu_msg) :=
  x ← get_cpu c;
  match c_events x with
  | [] => mret None
  | msg :: rest =>
      put_cpu c (mk_cpu (c_plic_cntxt x) (c_vcpu x) (c_csr x) rest);;
      mod_st (set_left (fun n => n + 1));; mret (Some msg)
  end.

(** Everything but the CPUs, the node budget and the trace is kept. *)
Definition same_rest (s s' : hyp) : Prop :=
  hy_vms s' = hy_vms s /\ hy_plic s' = hy_plic s /\ hy_shmem s' = hy_shmem s /\
  hy_hyp_int s' = hy_hyp_int s /\ hy_glb_int s' = hy_glb_int s /\ hy_handlers s' = hy_handlers s.

Lemma send_msg_spec s d msg y :
  hy_left s <> 0 -> hy_cpus s !! d = Some y ->
  exists s', send_msg d msg s = Ok (tt, s') /\ hy_cpus s' = <[d := add_event msg y]> (hy_cpus s) /\
    same_rest s s' /\ hy_left s' = hy_left s - 1.
Proof.
  intros Hl Hy. unfold send_msg. mrun (eq_refl : gets hy_left s = Ok (hy_left s, s)).
  replace (hy_left s =? 0) with false by lia.
  mrun (eq_refl : mod_st (set_left (fun n => n - 1)) s = Ok (tt, set_left (fun n => n - 1) s)).
  assert (hy_cpus (set_left (fun n => n - 1) s) !! d = Some y) as Hy' by done.
  mrun (get_cpu_eq d _ y Hy'). eexists. split; [done|]. by split_and!.
Qed.

(** ** Virtual and physical CPU numbers

    [vm->cpus] read as a bitmap is the two 32-bit halves of the word. *)
Definition word_bitmap (w : Z) : mem := st (st ∅ 0 (u32 w)) 1 (u32 (Z.shiftr w 32)).

Definition vm_translate_to_pcpuid (v : vm) (vcpuid : Z) : Z :=
  bitmap_find_nth (word_bitmap (vm_cpus v)) 0 64 (u64 (vcpuid + 1)) 0 true.

Definition vm_translate_to_vcpuid (v : vm) (pcpuid : Z) : Z :=
  bitmap_count (word_bitmap (vm_cpus v)) 0 0 pcpuid true.

Fixpoint translate_mask (tr : Z -> Z) (mask i pmask : Z) (k : nat) : Z :=
  match k with
  | O => pmask
  | S k' =>
      translate_mask tr mask (i + 1)
        (if negb (Z.land mask (Z.shiftl 1 i) =? 0) && (0 <=? tr i)
         then Z.lor pmask (Z.shiftl 1 (tr i)) else pmask) k'
  end.

Definition vm_translate_to_pcpu_mask (v : vm) (mask len : Z) : Z :=
  translate_mask (vm_translate_to_pcpuid v) mask 0 0 (Z.to_nat len).

Definition vm_translate_to_vcpu_mask (v : vm) (mask len : Z) : Z :=
  translate_mask (vm_translate_to_vcpuid v) mask 0 0 (Z.to_nat len).

(** ** Virtual CPUs of a VM *)

(** [vm_cpu_init]: the CPU joins the VM. *)
Definition vm_cpu_init (c : Z) (v : vm) : vm :=
  mk_vm (vm_id v) (vm_master v) (vm_cpu_num v) (Z.lor (vm_cpus v) (u64 (Z.shiftl 1 c)))
    (vm_vcpu_list v) (vm_vplic v) (vm_emul_list v) (vm_interrupts v) (vm_ipcs v).

(** The loop of [vm_vcpu_init] that numbers the virtual CPU. *)
Fixpoint vcpu_id_loop (fuel : nat) (v : vm) (c count offset : Z) : option Z :=
  if count <? vm_cpu_num v then
    if offset =? c then Some count
    else match fuel with
         | O => None
         | S f => vcpu_id_loop f v c
                    (if negb (Z.land (Z.shiftl 1 offset) (vm_cpus v) =? 0) then count + 1 else count)
                    (offset + 1)
         end
  else Some 0.

Definition HSTATUS_RESET : Z := Z.lor (Z.shiftl 1 7) (Z.shiftl 2 32).
Definition SSTATUS_RESET : Z := Z.lor (Z.lor (Z.shiftl 1 8) (Z.shiftl 3 13)) (Z.shiftl 3 15).
Definition VSSTATUS_RESET : Z := Z.lor (Z.lor (Z.shiftl 1 63) (Z.shiftl 3 13)) (Z.shiftl 3 15).

Definition vcpu_arch_reset (c : Z) (entry : Z) : M unit :=
  v ← get_vcpu c;
  put_vcpu c (mk_vcpu (vc_id v) (vc_vm v) (vc_active v) (u32 (vc_id v))
    (st ∅ (REG_A0 - 1) (u32 (vc_id v))) HSTATUS_RESET SSTATUS_RESET entry
    (vc_state v) (vc_start_addr v) (vc_priv v));;
  CSRW c CSR_HCOUNTEREN 7;; CSRW c CSR_HTIMEDELTA 0;; CSRW c CSR_VSSTATUS VSSTATUS_RESET;;
  CSRW c CSR_HIE 0;; CSRW c CSR_VSTVEC 0;; CSRW c CSR_VSSCRATCH 0;; CSRW c CSR_VSEPC 0;;
  CSRW c CSR_VSCAUSE 0;; CSRW c CSR_VSTVAL 0;; CSRW c CSR_HVIP 0;; CSRW c CSR_VSATP 0.

Definition vcpu_arch_init (v : vcpu) : vcpu :=
  mk_vcpu (vc_id v) (vc_vm v) (vc_active v) (vc_hart_id v) (vc_regs v) (vc_hstatus v) (vc_sstatus v)
    (vc_sepc v) (if vc_id v =? 0 then STARTED else STOPPED) (vc_start_addr v) (vc_priv v).

(** [vm_vcpu_init]: a zeroed virtual CPU, numbered, reset and listed. *)
Definition vm_vcpu_init (c i entry : Z) : M unit :=
  v ← get_vm i;
  match vcpu_id_loop 64 v c 0 0 with
  | None => fail Hang
  | Some id =>
      put_vcpu c (vcpu_arch_init (mk_vcpu id i false 0 ∅ 0 0 0 STARTED 0 0));;
      vcpu_arch_reset c entry;;
      put_vm i (mk_vm (vm_id v) (vm_master v) (vm_cpu_num v) (vm_cpus v) (vm_vcpu_list v ++ [c])
                  (vm_vplic v) (vm_emul_list v) (vm_interrupts v) (vm_ipcs v))
  end.

(** [vm_get_vcpu]: the first virtual CPU of the list with the number, as the
    physical CPU that holds it. *)
Fixpoint find_vcpu (cpus : gmap Z cpu) (vcpuid : Z) (l : list Z) : option (Z * vcpu) :=
  match l with
  | [] => None
  | p :: rest =>
      match x ← cpus !! p; c_vcpu x with
      | Some v => if vc_id v =? vcpuid then Some (p, v) else find_vcpu cpus vcpuid rest
      | None => find_vcpu cpus vcpuid rest
      end
  end.

Definition vm_get_vcpu (i vcpuid : Z) : M (option (Z * vcpu)) :=
  v ← get_vm i; cpus ← gets hy_cpus; mret (find_vcpu cpus vcpuid (vm_vcpu_list v)).

(** [vm_msg_broadcast]. The mask [1U << i] is undefined from [i = 32] on, which
    is where the loop stops making sense. *)
Fixpoint msg_broadcast_loop (fuel : nat) (c : Z) (v : vm) (msg : cpu_msg) (i n : Z) : M unit :=
  if n <? u64 (vm_cpu_num v - 1) then
    match fuel with
    | O => fail Hang
    | S f =>
        if negb (Z.land (Z.shiftl 1 i) (vm_cpus v) =? 0) && negb (i =? c) then
          send_msg i msg;; msg_broadcast_loop f c v msg (i + 1) (n + 1)
        else msg_broadcast_loop f c v msg (i + 1) n
    end
  else mret tt.

Definition vm_msg_broadcast (c : Z) (v : vm) (msg : cpu_msg) : M unit :=
  msg_broadcast_loop 32 c v msg 0 0.

(** ** Running *)
Definition cpu_idle {A} : M A := fail Idle.

(** [vcpu_arch_run]: enters the guest, or goes idle. *)
Definition vcpu_arch_run (c : Z) : M unit :=
  v ← get_vcpu c; if decide (vc_state v = STARTED) then mret tt else cpu_idle.

Definition vcpu_run (c : Z) : M unit :=
  v ← get_vcpu c;
  put_vcpu c (mk_vcpu (vc_id v) (vc_vm v) true (vc_hart_id v) (vc_regs v) (vc_hstatus v)
    (vc_sstatus v) (vc_sepc v) (vc_state v) (vc_start_addr v) (vc_priv v));;
  vcpu_arch_run c.

(** ** Virtual CPUs under the operations *)
Definition has_vcpu (s : hyp) (c : Z) (v : vcpu) : Prop :=
  exists y, hy_cpus s !! c = Some y /\ c_vcpu y = Some v.

Lemma has_get s c v : has_vcpu s c v -> get_vcpu c s = Ok (v, s).
Proof. intros (y & Hy & Hv). by apply (get_vcpu_eq c s y v). Qed.

Lemma has_readreg s c v r : has_vcpu s c v -> vcpu_readreg c r s = Ok (readreg v r, s).
Proof. intros H. unfold vcpu_readreg. by mrun (has_get s c v H). Qed.

Lemma has_put s c v w :
  has_vcpu s c v -> exists s', put_vcpu c w s = Ok (tt, s') /\ has_vcpu s' c w /\ same_rest s s' /\
    hy_left s' = hy_left s /\ (forall d, d <> c -> hy_cpus s' !! d = hy_cpus s !! d) /\
    (c_events <$> hy_cpus s' !! c) = (c_events <$> hy_cpus s !! c).
Proof.
  intros (y & Hy & Hv). unfold put_vcpu. mrun (get_cpu_eq c s y Hy). eexists. split; [done|].
  split_and!; try done.
  - exists (set_vcpu w y). simpl. by rewrite lookup_insert_eq.
  - intros d Hd. simpl. by rewrite lookup_insert_ne.
  - simpl. by rewrite lookup_insert_eq, Hy.
Qed.

Lemma has_csrw s c v k val : has_vcpu s c v -> exists s', CSRW c k val s = Ok (tt, s') /\ has_vcpu s' c v.
Proof.
  intros (y & Hy & Hv). unfold CSRW. mrun (get_cpu_eq c s y Hy). eexists. split; [done|].
  exists (set_csr k val y). simpl. by rewrite lookup_insert_eq.
Qed.

Lemma has_csrw_bind s c v k val (f : unit -> M unit) (P : hyp -> Prop) :
  has_vcpu s c v -> (forall s1, has_vcpu s1 c v -> exists s', f tt s1 = Ok (tt, s') /\ P s') ->
  exists s', (CSRW c k val ≫= f) s = Ok (tt, s') /\ P s'.
Proof. intros H Hf. destruct (has_csrw s c v k val H) as (s1 & E & H1). mrun E. by apply Hf. Qed.

Definition reset_vcpu (v : vcpu) (entry : Z) : vcpu :=
  mk_vcpu (vc_id v) (vc_vm v) (vc_active v) (u32 (vc_id v)) (st ∅ (REG_A0 - 1) (u32 (vc_id v)))
    HSTATUS_RESET SSTATUS_RESET entry (vc_state v) (vc_start_addr v) (vc_priv v).

Lemma has_reset s c v entry :
  has_vcpu s c v ->
  exists s', vcpu_arch_reset c entry s = Ok (tt, s') /\ has_vcpu s' c (reset_vcpu v entry).
Proof.
  intros H. unfold vcpu_arch_reset. mrun (has_get s c v H).
  destruct (has_put s c v (reset_vcpu v entry) H) as (s0 & E0 & H0 & _). mrun E0. clear E0 H.
  revert H0. generalize s0. clear s0. intros s0 H0.
  do 10 (apply (has_csrw_bind _ _ _ _ _ _ _ H0); clear s0 H0; intros s0 H0).
  by apply has_csrw.
Qed.

(** ** The numbering of virtual CPUs *)
Definition rank (w c : Z) : Z := cnt (Z.testbit w) 0 (Z.to_nat c).

Lemma word_bitmap_bit w j :
  0 <= w < 2 ^ 64 -> 0 <= j < 64 -> bit_at (word_bitmap w) 0 j = Z.testbit w j.
Proof.
  intros Hw Hj. rewrite bit_at_unfold, Z.add_0_l. unfold word_bitmap.
  destruct (Z.ltb_spec j 32) as [H|H].
  - rewrite Z.div_small, Z.mod_small, ld_st_ne, ld_st_eq, wrap_testbit by lia.
    by replace (j <? 32) with true by lia.
  - replace (j / 32) with 1 by (apply (Z.div_unique j 32 1 (j - 32)); lia).
    replace (j mod 32) with (j - 32) by (apply (Z.mod_unique j 32 1 (j - 32)); lia).
    rewrite ld_st_eq, wrap_testbit, Z.shiftr_spec by lia.
    replace (j - 32 <? 32) with true by lia. simpl. f_equal. lia.
Qed.

Lemma word_bitmap_cnt w k :
  0 <= w < 2 ^ 64 -> k <= 64 -> cnt (has_bit (word_bitmap w) 0 true) 0 (Z.to_nat k) = rank w k.
Proof.
  intros Hw Hk. apply cnt_ext. intros j Hj. unfold has_bit. rewrite word_bitmap_bit by lia.
  by destruct (Z.testbit w j).
Qed.

Lemma vm_translate_to_vcpuid_spec v c :
  0 <= vm_cpus v < 2 ^ 64 -> 0 <= c <= 64 -> vm_translate_to_vcpuid v c = rank (vm_cpus v) c.
Proof.
  intros Hw Hc. unfold vm_translate_to_vcpuid. rewrite bitmap_count_spec, Z.sub_0_r.
  apply word_bitmap_cnt; lia.
Qed.

(** The result is the physical CPU with the given rank, or [-1]. *)
Lemma vm_translate_to_pcpuid_spec v n :
  0 <= vm_cpus v < 2 ^ 64 -> 0 <= n < 2 ^ 64 - 1 ->
  let r := vm_translate_to_pcpuid v n in
  (r = -1 /\ rank (vm_cpus v) 64 <= n) \/
  (0 <= r < 64 /\ Z.testbit (vm_cpus v) r = true /\ rank (vm_cpus v) r = n).
Proof.
  intros Hw Hn. unfold vm_translate_to_pcpuid. rewrite wrap_small by lia.
  destruct (bitmap_find_nth_spec (word_bitmap (vm_cpus v)) 0 64 (n + 1) 0 true)
    as [[-> H]|(Hr & Hb & H)]; [lia|lia| |]; simpl.
  - left. split; [done|]. change (Z.to_nat (64 - 0)) with (Z.to_nat 64) in H.
    rewrite word_bitmap_cnt in H by lia. lia.
  - right. split; [done|]. set (r := bitmap_find_nth _ _ _ _ _ _) in *.
    unfold has_bit in Hb. rewrite word_bitmap_bit in Hb by lia. split; [by destruct (Z.testbit _ r)|].
    rewrite Z.sub_0_r, word_bitmap_cnt in H by lia. lia.
Qed.

Lemma vm_translate_to_pcpuid_wild v n :
  0 <= vm_cpus v < 2 ^ 64 -> 0 <= n < 2 ^ 64 ->
  vm_translate_to_pcpuid v n = -1 \/
  0 <= vm_translate_to_pcpuid v n < 64 /\ Z.testbit (vm_cpus v) (vm_translate_to_pcpuid v n) = true.
Proof.
  intros Hw Hn. destruct (decide (n = 2 ^ 64 - 1)) as [->|].
  - left. unfold vm_translate_to_pcpuid. by replace (u64 (2 ^ 64 - 1 + 1)) with 0.
  - destruct (vm_translate_to_pcpuid_spec v n Hw ltac:(lia)) as [[-> _]|(? & ? & _)]; [by left|by right].
Qed.

Lemma land_shiftl_1 w i : 0 <= i -> negb (Z.land w (Z.shiftl 1 i) =? 0) = Z.testbit w i.
Proof. intros. rewrite land_pow2_eqb by done. apply negb_involutive. Qed.

Lemma rank_succ w c : 0 <= c -> rank w (c + 1) = rank w c + Z.b2z (Z.testbit w c).
Proof.
  intros Hc. unfold rank. replace (Z.to_nat (c + 1)) with (Z.to_nat c + 1)%nat by lia.
  rewrite cnt_add. simpl. rewrite Z.add_0_r. do 3 f_equal. lia.
Qed.

Lemma rank_range w c : 0 <= c -> 0 <= rank w c <= c.
Proof. intros Hc. pose proof (cnt_range (Z.testbit w) 0 (Z.to_nat c)). unfold rank. lia. Qed.

Lemma rank_mono w a b : 0 <= a <= b -> rank w a <= rank w b.
Proof.
  intros H. unfold rank. rewrite <- (Z.sub_0_r b), (cnt_split _ 0 a b), Z.sub_0_r by lia.
  pose proof (cnt_range (Z.testbit w) a (Z.to_nat (b - a))). lia.
Qed.

Lemma vcpu_id_loop_spec v c fuel offset :
  0 <= offset <= c -> rank (vm_cpus v) c < vm_cpu_num v -> c - offset <= Z.of_nat fuel ->
  vcpu_id_loop fuel v c (rank (vm_cpus v) offset) offset = Some (rank (vm_cpus v) c).
Proof.
  revert offset. induction fuel as [|fuel IH]; intros offset Ho Hc Hf; simpl;
    (replace (rank (vm_cpus v) offset <? vm_cpu_num v) with true
       by (pose proof (rank_mono (vm_cpus v) offset c ltac:(lia)); lia));
    destruct (Z.eqb_spec offset c) as [->|Hne]; try done; [lia|].
  rewrite Z.land_comm, land_shiftl_1 by lia.
  rewrite <- (IH (offset + 1)) by lia. rewrite rank_succ by lia.
  by destruct (Z.testbit (vm_cpus v) offset); rewrite ?Z.add_0_r.
Qed.

(** ** Translated masks *)
Lemma translate_mask_spec tr mask i pmask k b :
  0 <= i -> 0 <= b ->
  Z.testbit (translate_mask tr mask i pmask k) b = true <->
  Z.testbit pmask b = true \/
  exists j, i <= j < i + Z.of_nat k /\ Z.testbit mask j = true /\ tr j = b.
Proof.
  revert i pmask. induction k as [|k IH]; intros i pmask Hi Hb; simpl.
  { split; [by left|]. intros [|(j & ? & _)]; [done|lia]. }
  rewrite IH, land_shiftl_1 by lia.
  destruct (Z.testbit mask i) eqn:E, (Z.leb_spec 0 (tr i)); simpl.
  - rewrite Z.lor_spec, orb_true_iff, Z.shiftl_1_l, Z.pow2_bits_eqb, Z.eqb_eq by done. split.
    + intros [[?|<-]|(j & ? & ? & ?)]; [by left|right; exists i; auto with lia|].
      right. exists j. auto with lia.
    + intros [?|(j & ? & ? & ?)]; [by left; left|].
      destruct (decide (j = i)) as [->|]; [by left; right|]. right. exists j. auto with lia.
  - split; (intros [?|(j & ? & ? & ?)]; [by left|right; exists j; split_and!; try done; try lia]).
    destruct (decide (j = i)) as [->|]; lia.
  - split; (intros [?|(j & ? & ? & ?)]; [by left|right; exists j; split_and!; try done; try lia]).
    destruct (decide (j = i)) as [->|]; [congruence|lia].
  - split; (intros [?|(j & ? & ? & ?)]; [by left|right; exists j; split_and!; try done; try lia]).
    destruct (decide (j = i)) as [->|]; [congruence|lia].
Qed.

(** ** Properties *)

(** Once all CPUs of a VM have joined it, the number each virtual CPU is
    given is the rank of its physical CPU among them; [vm_translate_to_pcpuid]
    and [vm_translate_to_vcpuid] are inverse to each other between those
    numbers and those CPUs, and a number that names no virtual CPU translates
    to [-1]. *)
Theorem vcpu_numbering v c n :
  0 <= vm_cpus v < 2 ^ 64 -> vm_cpu_num v = rank (vm_cpus v) 64 ->
  0 <= c < 64 -> Z.testbit (vm_cpus v) c = true -> 0 <= n < 2 ^ 64 - 1 ->
  (exists id, vcpu_id_loop 64 v c 0 0 = Some id /\ 0 <= id < vm_cpu_num v /\
     vm_translate_to_vcpuid v c = id /\ vm_translate_to_pcpuid v id = c) /\
  (n < vm_cpu_num v -> vm_translate_to_vcpuid v (vm_translate_to_pcpuid v n) = n) /\
  (vm_cpu_num v <= n -> vm_translate_to_pcpuid v n = -1).
Proof.
  intros Hw Hnum Hc Hb Hn.
  pose proof (rank_succ (vm_cpus v) c ltac:(lia)) as Hs. rewrite Hb in Hs. simpl in Hs.
  pose proof (rank_mono (vm_cpus v) (c + 1) 64 ltac:(lia)) as Hm.
  pose proof (rank_range (vm_cpus v) c ltac:(lia)) as Hr.
  split_and!.
  - exists (rank (vm_cpus v) c). split_and!; [|lia|lia|by apply vm_translate_to_vcpuid_spec; lia|].
    + change 0 with (rank (vm_cpus v) 0) at 1. apply vcpu_id_loop_spec; lia.
    + destruct (vm_translate_to_pcpuid_spec v (rank (vm_cpus v) c) Hw ltac:(lia)) as [[_ ?]|(? & Hb' & E)];
        [lia|]. set (r := vm_translate_to_pcpuid v _) in *.
      apply (cnt_rank_inj (Z.testbit (vm_cpus v)) 0); try done; try lia. by rewrite !Z.sub_0_r.
  - intros Hlt. destruct (vm_translate_to_pcpuid_spec v n Hw Hn) as [[_ ?]|(? & _ & E)]; [lia|].
    rewrite vm_translate_to_vcpuid_spec by lia. exact E.
  - intros Hge. destruct (vm_translate_to_pcpuid_spec v n Hw Hn) as [[? _]|(? & Hb' & E)]; [done|].
    exfalso. set (r := vm_translate_to_pcpuid v n) in *.
    pose proof (rank_succ (vm_cpus v) r ltac:(lia)) as Hs'. rewrite Hb' in Hs'. simpl in Hs'.
    pose proof (rank_mono (vm_cpus v) (r + 1) 64 ltac:(lia)). lia.
Qed.

(** A hart mask given by a guest is translated to a set of physical CPUs of
    its own VM only: bit [p] of the result is set exactly when [p] is the CPU
    of one of the virtual CPUs the mask names, and the result is contained in
    [vm->cpus]. *)
Theorem translated_mask_in_vm v mask p :
  0 <= vm_cpus v < 2 ^ 64 -> 0 <= p ->
  Z.testbit (vm_translate_to_pcpu_mask v mask 64) p = true <->
  Z.testbit (vm_cpus v) p = true /\ Z.testbit mask (rank (vm_cpus v) p) = true /\ p < 64.
Proof.
  intros Hw Hp. unfold vm_translate_to_pcpu_mask. rewrite translate_mask_spec, Z.bits_0 by lia.
  change (Z.of_nat (Z.to_nat 64)) with 64. split.
  - intros [?|(j & Hj & Hm & <-)]; [done|].
    destruct (vm_translate_to_pcpuid_spec v j Hw ltac:(lia)) as [[E _]|(? & ? & ->)]; [lia|].
    split_and!; try done; lia.
  - intros (Hb & Hm & Hlt). right. exists (rank (vm_cpus v) p).
    pose proof (rank_range (vm_cpus v) p Hp) as Hr.
    split_and!; [lia|lia|done|].
    destruct (vm_translate_to_pcpuid_spec v (rank (vm_cpus v) p) Hw ltac:(lia)) as [[_ H]|(? & Hb' & E)].
    + pose proof (rank_succ (vm_cpus v) p Hp) as Hs. rewrite Hb in Hs. simpl in Hs.
      pose proof (rank_mono (vm_cpus v) (p + 1) 64 ltac:(lia)). lia.
    + set (r := vm_translate_to_pcpuid v _) in *.
      apply (cnt_rank_inj (Z.testbit (vm_cpus v)) 0); try done; try lia. by rewrite !Z.sub_0_r.
Qed.
End Calls.

Definition demo_vm2 : vm := mk_vm 0 1 2 10 [] (mk_vplic 4 ∅) [] ∅ [].

Lemma vcpu_numbering_witness :
  exists id, vcpu_id_loop 64 demo_vm2 3 0 0 = Some id /\ 0 <= id < 2 /\
    vm_translate_to_vcpuid demo_vm2 3 = id /\ vm_translate_to_pcpuid demo_vm2 id = 3.
Proof.
  apply (vcpu_numbering demo_vm2 3 0); simpl; try done; lia.
Defined.

Lemma translated_mask_in_vm_witness :
  Z.testbit (vm_translate_to_pcpu_mask demo_vm2 2 64) 3 = true <->
  Z.testbit 10 3 = true /\ Z.testbit 2 1 = true /\ 3 < 64.
Proof. apply (translated_mask_in_vm demo_vm2 2 3); simpl; lia. Defined.
