(* ===== verification/Plic.v ===== *)
(** * The platform-level interrupt controller driver

    [arch/riscv/plic.c], over the registers of [State.plic]. The priority
    registers keep the bits of [prio_mask] of what is written to them; a source
    that is not implemented has no such bits. *)

From S2P Require Import Prelude Bit Bitmap CpuMsg State.

Definition PRIV_M : Z := 3.
Definition PRIV_S : Z := 2.
Definition PRIV_U : Z := 0.

Section Plic.
Context {Henv : Env}.

(** ** Contexts *)
Record plic_cntxt := mk_cntxt { hart_id : Z; mode : Z }.

Definition plic_plat_cntxt_to_id (c : plic_cntxt) : Z :=
  if negb (mode c =? PRIV_M) && negb (mode c =? PRIV_S) then -1
  else s32 (hart_id c * 2 + (if mode c =? PRIV_M then 0 else 1)).

(** C division and remainder truncate towards zero: the identifier [-1] is the
    supervisor context of hart 0. *)
Definition plic_plat_id_to_cntxt (id : Z) : plic_cntxt :=
  if id <? plic_cntxt_num
  then mk_cntxt (Z.quot id 2) (if Z.rem id 2 =? 0 then PRIV_M else PRIV_S)
  else mk_cntxt (-1) 0.

(** The argument is unsigned. *)
Definition plic_cntxt_valid (cntxt_id : Z) : bool :=
  let c := plic_plat_id_to_cntxt (s32 cntxt_id) in
  (u32 cntxt_id <? plic_cntxt_num) && (mode c <=? PRIV_S).

(** ** Registers *)
Definition set_prio_reg (p : plic) (i v : Z) : plic :=
  mk_plic (pl_impl p) (st (pl_prio p) i (Z.land v (prio_mask i))) (pl_pend p) (pl_enbl p) (pl_threshold p).
Definition set_enbl_reg (p : plic) (i v : Z) : plic :=
  mk_plic (pl_impl p) (pl_prio p) (pl_pend p) (st (pl_enbl p) i v) (pl_threshold p).
Definition set_threshold_reg (p : plic) (i v : Z) : plic :=
  mk_plic (pl_impl p) (pl_prio p) (pl_pend p) (pl_enbl p) (st (pl_threshold p) i v).

Definition enbl_reg (cntxt int_id : Z) : Z := PLIC_NUM_ENBL_REGS * cntxt + int_id / 32.
Definition enbl_mask (int_id : Z) : Z := Z.shiftl 1 (int_id mod 32).

Fixpoint scan_loop (p : plic) (i : Z) (k : nat) : Z * plic :=
  match k with
  | O => (0, p)
  | S k' =>
      let p1 := set_prio_reg p i (u32 (-1)) in
      if ld (pl_prio p1) i =? 0 then (i - 1, p1)
      else scan_loop (set_prio_reg p1 i 0) (i + 1) k'
  end.

Definition plic_scan_max_int (p : plic) : Z * plic :=
  scan_loop p 1 (Z.to_nat (PLIC_MAX_INTERRUPTS - 1)).

Fixpoint clear_prios (p : plic) (i : Z) (k : nat) : plic :=
  match k with O => p | S k' => clear_prios (set_prio_reg p i 0) (i + 1) k' end.
Fixpoint clear_enbls (p : plic) (i : Z) (k : nat) : plic :=
  match k with O => p | S k' => clear_enbls (set_enbl_reg p i 0) (i + 1) k' end.

Definition plic_init (p : plic) : plic :=
  let '(impl, p1) := plic_scan_max_int p in
  let p2 := mk_plic impl (pl_prio p1) (pl_pend p1) (pl_enbl p1) (pl_threshold p1) in
  let p3 := clear_prios p2 0 (Z.to_nat (impl + 1)) in
  clear_enbls p3 0 (Z.to_nat (plic_cntxt_num * PLIC_NUM_ENBL_REGS)).

Definition plic_set_enbl (p : plic) (cntxt int_id : Z) (en : bool) : plic :=
  if (u32 int_id <=? pl_impl p) && plic_cntxt_valid cntxt then
    let r := enbl_reg (u32 cntxt) (u32 int_id) in
    set_enbl_reg p r
      (if en then Z.lor (ld (pl_enbl p) r) (enbl_mask (u32 int_id))
       else Z.ldiff (ld (pl_enbl p) r) (enbl_mask (u32 int_id)))
  else p.

Definition plic_get_enbl (p : plic) (cntxt int_id : Z) : bool :=
  if (u32 int_id <=? pl_impl p) && plic_cntxt_valid cntxt
  then negb (Z.land (ld (pl_enbl p) (enbl_reg (u32 cntxt) (u32 int_id))) (enbl_mask (u32 int_id)) =? 0)
  else false.

Definition plic_set_prio (p : plic) (int_id prio : Z) : plic :=
  if u32 int_id <=? pl_impl p then set_prio_reg p (u32 int_id) prio else p.

Definition plic_get_prio (p : plic) (int_id : Z) : Z :=
  if u32 int_id <=? pl_impl p then ld (pl_prio p) (u32 int_id) else 0.

Definition plic_get_pend (p : plic) (int_id : Z) : bool :=
  if u32 int_id <=? pl_impl p
  then negb (Z.land (ld (pl_pend p) (u32 int_id / 32)) (Z.shiftl 1 (u32 int_id mod 32)) =? 0)
  else false.

Definition plic_set_threshold (p : plic) (cntxt threshold : Z) : plic :=
  if plic_cntxt_valid cntxt then set_threshold_reg p (u32 cntxt) threshold else p.

Definition plic_get_thrshold (p : plic) (cntxt : Z) : Z :=
  if plic_cntxt_valid cntxt then ld (pl_threshold p) (u32 cntxt) else 0.

Definition plic_cpu_init (c : Z) : M unit :=
  x ← get_cpu c;
  let cntxt := plic_plat_cntxt_to_id (mk_cntxt (s32 c) PRIV_S) in
  put_cpu c (mk_cpu (u32 cntxt) (c_vcpu x) (c_csr x) (c_events x));;
  mod_st (set_plic (fun p => set_threshold_reg p (u32 cntxt) 0)).

(** ** Properties *)

(** The loop stops at the first source whose priority reads back as zero. *)
Lemma scan_loop_spec p i k :
  0 < i -> (forall j, prio_mask j = Z.land (u32 (-1)) (prio_mask j)) ->
  let '(r, p') := scan_loop p i k in
  pl_pend p' = pl_pend p /\ pl_enbl p' = pl_enbl p /\ pl_threshold p' = pl_threshold p /\
  ((exists j, i <= j < i + Z.of_nat k /\ prio_mask j = 0 /\ r = j - 1 /\
      forall h, i <= h < j -> prio_mask h <> 0) \/
   (r = 0 /\ forall h, i <= h < i + Z.of_nat k -> prio_mask h <> 0)).
Proof.
  revert p i. induction k as [|k IH]; intros p i Hi Hm; simpl.
  { split_and!; try done. right. split; [done|]. lia. }
  rewrite ld_st_eq, <- Hm. destruct (Z.eqb_spec (prio_mask i) 0) as [E|E].
  { split_and!; try done. left. exists i. split_and!; lia || done. }
  specialize (IH (set_prio_reg (set_prio_reg p i (u32 (-1))) i 0) (i + 1) ltac:(lia) Hm).
  destruct (scan_loop _ _ _) as [r p']. simpl in IH. destruct IH as (? & ? & ? & Hr).
  split_and!; try done. destruct Hr as [(j & ? & ? & ? & Hj)|[? Hj]].
  - left. exists j. split_and!; try done; try lia.
    intros h Hh. destruct (decide (h = i)) as [->|]; [done|]. apply Hj. lia.
  - right. split; [done|]. intros h Hh. destruct (decide (h = i)) as [->|]; [done|]. apply Hj. lia.
Qed.

(** The scan of the priority registers finds the number of implemented
    sources when there are fewer than 1023; when all 1023 are implemented the
    loop ends without a result and the driver believes that there are none, so
    that every later request on a source other than 0 is ignored. *)
Theorem plic_scan_correct p n :
  (forall j, prio_mask j = Z.land (u32 (-1)) (prio_mask j)) ->
  0 <= n <= 1023 -> (forall j, 1 <= j <= n -> prio_mask j <> 0) ->
  (forall j, n < j -> prio_mask j = 0) ->
  (n < 1023 -> fst (plic_scan_max_int p) = n) /\
  (n = 1023 -> fst (plic_scan_max_int p) = 0 /\
     forall cntxt i en, 0 < i < 2 ^ 32 ->
       plic_set_enbl (plic_init p) cntxt i en = plic_init p).
Proof.
  intros Hm Hn Himp Hun. unfold plic_scan_max_int, plic_init.
  pose proof (scan_loop_spec p 1 (Z.to_nat (PLIC_MAX_INTERRUPTS - 1)) ltac:(lia) Hm) as H.
  unfold plic_scan_max_int. destruct (scan_loop _ _ _) as [r p']. simpl in H. destruct H as (_ & _ & _ & H).
  change (Z.of_nat _) with 1023 in H. simpl fst. split.
  - intros Hlt. destruct H as [(j & ? & Hj & -> & Hbelow)|[-> Hall]].
    + destruct (Z.lt_trichotomy (j - 1) n) as [?|[?|?]]; [|done|].
      * destruct (Himp j); [lia|done].
      * destruct (Hbelow (n + 1)); [lia|]. apply Hun. lia.
    + destruct (Hall (n + 1)); [lia|]. apply Hun. lia.
  - intros ->. assert (r = 0) as ->.
    { destruct H as [(j & ? & Hj & _)|[? _]]; [|done]. destruct (Himp j); [lia|done]. }
    split; [done|]. intros cntxt i en Hi. unfold plic_set_enbl. rewrite wrap_small by lia.
    set (p2 := clear_enbls _ _ _).
    assert (pl_impl p2 = 0) as ->.
    { unfold p2. assert (forall q i k, pl_impl (clear_enbls q i k) = pl_impl q) as ->; [|done].
      clear. intros q i k. revert q i. induction k as [|k IH]; intros q i; simpl; [done|]. by rewrite IH. }
    by replace (i <=? 0) with false by lia.
Qed.

Lemma plic_cntxt_valid_spec c :
  0 < plic_cntxt_num < 2 ^ 31 -> 0 <= c < 2 ^ 31 ->
  plic_cntxt_valid c = (c <? plic_cntxt_num) && Z.odd c.
Proof.
  intros Hn Hc. unfold plic_cntxt_valid, plic_plat_id_to_cntxt. rewrite sgn_small, wrap_small by lia.
  destruct (Z.ltb_spec c plic_cntxt_num); simpl; [|done].
  rewrite Z.rem_mod_nonneg by lia. rewrite Zmod_odd. by destruct (Z.odd c).
Qed.

Lemma plic_get_enbl_spec p c i :
  0 < plic_cntxt_num < 2 ^ 31 -> 0 <= c < 2 ^ 31 -> 0 <= i < 1024 ->
  plic_get_enbl p c i = (i <=? pl_impl p) && (c <? plic_cntxt_num) && Z.odd c &&
    Z.testbit (ld (pl_enbl p) (enbl_reg c i)) (i mod 32).
Proof.
  intros Hn Hc Hi. unfold plic_get_enbl. rewrite plic_cntxt_valid_spec, !wrap_small by lia.
  destruct (i <=? pl_impl p); simpl; [|done]. destruct ((c <? plic_cntxt_num) && Z.odd c); simpl; [|done].
  unfold enbl_mask. rewrite land_pow2_eqb by (apply Z.mod_pos_bound; lia). apply negb_involutive.
Qed.

Lemma enbl_word_bit (en : bool) w i b :
  0 <= i mod 32 -> 0 <= b ->
  Z.testbit (if en then Z.lor w (enbl_mask i) else Z.ldiff w (enbl_mask i)) b =
  if en then Z.testbit w b || (b =? i mod 32) else Z.testbit w b && negb (b =? i mod 32).
Proof.
  intros Hi Hb. unfold enbl_mask. rewrite Z.shiftl_1_l.
  destruct en; rewrite ?Z.lor_spec, ?Z.ldiff_spec, Z.pow2_bits_eqb, (Z.eqb_sym b) by done; done.
Qed.

(** Enabling or disabling a source sets exactly that bit of that context:
    it reads back as written, every other source and context keeps its
    value, and machine-mode contexts (even identifiers) and sources past the
    implemented ones are never written. *)
Theorem plic_set_enbl_correct p cntxt i en c' i' :
  0 < plic_cntxt_num < 2 ^ 31 -> 0 <= cntxt < 2 ^ 31 -> 0 <= i < 1024 -> 0 <= c' < 2 ^ 31 ->
  0 <= i' < 1024 -> pl_impl p < 1024 ->
  plic_get_enbl (plic_set_enbl p cntxt i en) c' i' =
    (if (c' =? cntxt) && (i' =? i) && (i <=? pl_impl p) && (cntxt <? plic_cntxt_num) && Z.odd cntxt
     then en else plic_get_enbl p c' i') /\
  (Z.even cntxt = true \/ pl_impl p < i -> plic_set_enbl p cntxt i en = p).
Proof.
  intros Hnum Hc Hi Hc' Hi' Himp. rewrite !plic_get_enbl_spec by done.
  unfold plic_set_enbl. rewrite plic_cntxt_valid_spec, !wrap_small by lia.
  assert (0 <= i mod 32 < 32 /\ 0 <= i' mod 32 < 32) as [? ?] by (split; apply Z.mod_pos_bound; lia).
  split.
  - destruct (i <=? pl_impl p) eqn:Ei; simpl; [|by rewrite !andb_false_r].
    destruct (cntxt <? plic_cntxt_num) eqn:Ec; simpl; [|by rewrite !andb_false_r].
    destruct (Z.odd cntxt) eqn:Eo; simpl; [|by rewrite !andb_false_r].
    rewrite !andb_true_r, ld_st.
    destruct (Z.eqb_spec c' cntxt) as [->|Hne]; simpl.
    + rewrite Ec, Eo. case_decide as D; unfold enbl_reg, PLIC_NUM_ENBL_REGS in D.
      * assert (i / 32 = i' / 32) as Hd by lia.
        rewrite enbl_word_bit by lia. unfold enbl_reg, PLIC_NUM_ENBL_REGS. rewrite Hd.
        destruct (Z.eqb_spec i' i) as [->|Hii]; simpl.
        -- rewrite Z.eqb_refl, Ei. simpl. by destruct en, (Z.testbit _ _).
        -- replace (i' mod 32 =? i mod 32) with false; [by destruct en; simpl; rewrite ?orb_false_r, ?andb_true_r|].
           symmetry. apply Z.eqb_neq. intros E. apply Hii.
           rewrite (Z.div_mod i 32), (Z.div_mod i' 32); lia.
      * destruct (Z.eqb_spec i' i) as [->|]; [done|done].
    + case_decide as D; [|done]. exfalso. unfold enbl_reg, PLIC_NUM_ENBL_REGS in D.
      assert (0 <= i / 32 < 32 /\ 0 <= i' / 32 < 32) by (Z.to_euclidean_division_equations; lia). lia.
  - intros [He|Hlt].
    + replace (Z.odd cntxt) with false; [by rewrite !andb_false_r|].
      rewrite <- Z.negb_even, He. done.
    + by replace (i <=? pl_impl p) with false by lia.
Qed.
End Plic.

#[local] Existing Instance demo_env.

Lemma plic_scan_correct_witness :
  fst (plic_scan_max_int (mk_plic 0 ∅ ∅ ∅ ∅)) = 31.
Proof.
  apply (plic_scan_correct (mk_plic 0 ∅ ∅ ∅ ∅) 31); simpl; [|lia| | |lia].
  - intros j. by destruct ((1 <=? j) && (j <=? 31)).
  - intros j Hj. by replace ((1 <=? j) && (j <=? 31)) with true by lia.
  - intros j Hj. by replace ((1 <=? j) && (j <=? 31)) with false by lia.
Defined.

Lemma plic_set_enbl_correct_witness :
  plic_get_enbl (plic_set_enbl (mk_plic 31 ∅ ∅ ∅ ∅) 1 5 true) 1 5 = true.
Proof.
  destruct (plic_set_enbl_correct (mk_plic 31 ∅ ∅ ∅ ∅) 1 5 true 1 5) as [-> _];
    [simpl; lia..|reflexivity].
Defined.
