(* ===== verification/Vplic.v ===== *)
(** * The virtual interrupt controller

    [arch/riscv/vplic.c]: the PLIC a guest sees. Its state is kept as the words
    of [vplic_t] in memory order, because the code accepts the identifier 1024,
    one past the last source, and then reads the first word of the next field.
    Every operation acts for the virtual CPU of the CPU it runs on. *)

From S2P Require Import Prelude Bit Bitmap CpuMsg State Calls Plic.

(** ** Layout of [vplic_t] *)
Definition HW_OFF : Z := 0.
Definition PEND_OFF : Z := 32.
Definition ACT_OFF : Z := 64.
Definition PRIO_OFF : Z := 96.
Definition ENBL_OFF : Z := 1120.
Definition enbl_off (vcntxt : Z) : Z := ENBL_OFF + 32 * vcntxt.

Section Vplic.
Context {Henv : Env}.

Definition threshold_off (vcntxt : Z) : Z := ENBL_OFF + 32 * plic_cntxt_num + vcntxt.
Definition vplic_words : Z := ENBL_OFF + 33 * plic_cntxt_num.

(** ** Contexts *)
Definition vplic_vcntxt_to_pcntxt (v : vm) (vcntxt_id : Z) : Z :=
  let vcntxt := plic_plat_id_to_cntxt vcntxt_id in
  let h := s32 (vm_translate_to_pcpuid v (u64 (hart_id vcntxt))) in
  if 0 <=? h then plic_plat_cntxt_to_id (mk_cntxt h (mode vcntxt)) else -1.

Definition vplic_vcntxt_valid (v : vm) (vcntxt_id : Z) : bool :=
  (u64 vcntxt_id <? vp_cntxt_num (vm_vplic v)) && (mode (plic_plat_id_to_cntxt vcntxt_id) <=? PRIV_S).

(** ** Getters *)
Definition vplic_get_pend (m : mem) (id : Z) : bool :=
  (id <=? PLIC_MAX_INTERRUPTS) && negb (bitmap_get m PEND_OFF id =? 0).
Definition vplic_get_act (m : mem) (id : Z) : bool :=
  (id <=? PLIC_MAX_INTERRUPTS) && negb (bitmap_get m ACT_OFF id =? 0).
Definition vplic_get_enbl (m : mem) (vcntxt id : Z) : bool :=
  (id <=? PLIC_MAX_INTERRUPTS) && negb (bitmap_get m (enbl_off vcntxt) id =? 0).
Definition vplic_get_prio (m : mem) (id : Z) : Z :=
  if id <=? PLIC_MAX_INTERRUPTS then ld m (PRIO_OFF + id) else 0.
Definition vplic_get_hw (m : mem) (id : Z) : bool :=
  (id <=? PLIC_MAX_INTERRUPTS) && negb (bitmap_get m HW_OFF id =? 0).
Definition vplic_get_theshold (m : mem) (vcntxt : Z) : Z := ld m (threshold_off vcntxt).

(** [vplic_set_hw]. *)
Definition vplic_set_hw (m : mem) (id : Z) : mem :=
  if id <=? PLIC_MAX_INTERRUPTS then bitmap_set m HW_OFF id else m.

(** ** The next interrupt to take *)
Definition candidate (m : mem) (vcntxt i : Z) : bool :=
  vplic_get_pend m i && negb (vplic_get_act m i) && vplic_get_enbl m vcntxt i.

Fixpoint next_pending_loop (m : mem) (vcntxt i max_prio int_id : Z) (k : nat) : Z * Z :=
  match k with
  | O => (max_prio, int_id)
  | S k' =>
      if candidate m vcntxt i && (max_prio <? vplic_get_prio m i)
      then next_pending_loop m vcntxt (i + 1) (vplic_get_prio m i) i k'
      else next_pending_loop m vcntxt (i + 1) max_prio int_id k'
  end.

Definition vplic_next_pending (m : mem) (vcntxt : Z) : Z :=
  let '(max_prio, int_id) := next_pending_loop m vcntxt 0 0 0 (Z.to_nat (PLIC_MAX_INTERRUPTS + 1)) in
  if vplic_get_theshold m vcntxt <? max_prio then int_id else 0.

(** ** State access *)
Definition cur_vm (c : Z) : M vm := v ← get_vcpu c; get_vm (vc_vm v).
Definition cur_vplic (c : Z) : M mem := x ← cur_vm c; mret (vp_mem (vm_vplic x)).
Definition set_vplic_mem (m : mem) (x : vm) : vm :=
  mk_vm (vm_id x) (vm_master x) (vm_cpu_num x) (vm_cpus x) (vm_vcpu_list x)
    (mk_vplic (vp_cntxt_num (vm_vplic x)) m) (vm_emul_list x) (vm_interrupts x) (vm_ipcs x).
Definition put_vplic (c : Z) (m : mem) : M unit :=
  v ← get_vcpu c; x ← get_vm (vc_vm v); put_vm (vc_vm v) (set_vplic_mem m x).

(** ** Operations *)
Definition HIP_VSEIP : Z := 1024.
Definition UPDATE_HART_LINE : Z := 0.

Definition vplic_update_hart_line (c vcntxt : Z) : M unit :=
  x ← cur_vm c;
  let pcntxt := plic_plat_id_to_cntxt (vplic_vcntxt_to_pcntxt x vcntxt) in
  if u64 (hart_id pcntxt) =? c then
    if negb (vplic_next_pending (vp_mem (vm_vplic x)) vcntxt =? 0)
    then CSRS c CSR_HVIP HIP_VSEIP else CSRC c CSR_HVIP HIP_VSEIP
  else send_msg (u64 (hart_id pcntxt)) (mk_msg VPLIC_IPI_ID UPDATE_HART_LINE (u64 vcntxt)).

Definition vplic_ipi_handler (c event data : Z) : M unit :=
  if event =? UPDATE_HART_LINE then vplic_update_hart_line c (s32 data) else mret tt.

Definition vplic_set_threshold (c vcntxt threshold : Z) : M unit :=
  m ← cur_vplic c; put_vplic c (st m (threshold_off vcntxt) threshold);;
  x ← cur_vm c;
  mod_st (set_plic (fun p => plic_set_threshold p (vplic_vcntxt_to_pcntxt x vcntxt) threshold));;
  vplic_update_hart_line c vcntxt.

Definition vplic_set_enbl (c vcntxt id : Z) (set : bool) : M unit :=
  m ← cur_vplic c;
  if (id <=? PLIC_MAX_INTERRUPTS) && negb (Bool.eqb (vplic_get_enbl m vcntxt id) set) then
    put_vplic c (if set then bitmap_set m (enbl_off vcntxt) id else bitmap_clear m (enbl_off vcntxt) id);;
    m' ← cur_vplic c;
    if vplic_get_hw m' id then
      x ← cur_vm c;
      mod_st (set_plic (fun p => plic_set_enbl p (vplic_vcntxt_to_pcntxt x vcntxt) id set))
    else vplic_update_hart_line c vcntxt
  else mret tt.

(** The loop of [vplic_set_prio] and [vplic_inject] over the contexts. *)
Fixpoint update_lines (c : Z) (test : mem -> Z -> bool) (i : Z) (k : nat) : M unit :=
  match k with
  | O => mret tt
  | S k' =>
      (if mode (plic_plat_id_to_cntxt i) =? PRIV_S then
         m ← cur_vplic c; if test m i then vplic_update_hart_line c i else mret tt
       else mret tt);;
      update_lines c test (i + 1) k'
  end.

Definition vplic_set_prio (c id prio : Z) : M unit :=
  m ← cur_vplic c;
  if (id <=? PLIC_MAX_INTERRUPTS) && negb (vplic_get_prio m id =? prio) then
    put_vplic c (st m (PRIO_OFF + id) prio);;
    m' ← cur_vplic c;
    if vplic_get_hw m' id then mod_st (set_plic (fun p => plic_set_prio p id prio))
    else
      x ← cur_vm c;
      update_lines c (fun m i => vplic_get_enbl m i id) 0 (Z.to_nat (vp_cntxt_num (vm_vplic x)))
  else mret tt.

Definition vplic_claim (c vcntxt : Z) : M Z :=
  m ← cur_vplic c;
  let int_id := vplic_next_pending m vcntxt in
  put_vplic c (bitmap_set (bitmap_clear m PEND_OFF int_id) ACT_OFF int_id);;
  vplic_update_hart_line c vcntxt;; mret int_id.

(** [int_id] is the guest's value as an [int]. Nothing checks it; as a bitmap
    index a negative value is an address 2^61 bytes away, which faults. *)
Definition vplic_complete (c vcntxt int_id : Z) : M unit :=
  if int_id <? 0 then ERROR "internal hypervisor abort - PANIC"
  else
    m ← cur_vplic c;
    (if vplic_get_hw m int_id then x ← get_cpu c; log (PlicComplete (c_plic_cntxt x) int_id) else mret tt);;
    put_vplic c (bitmap_clear m ACT_OFF int_id);;
    vplic_update_hart_line c vcntxt.

Definition vplic_inject (c id : Z) : M unit :=
  m ← cur_vplic c;
  if (0 <? id) && (id <=? PLIC_MAX_INTERRUPTS) && negb (vplic_get_pend m id) then
    put_vplic c (bitmap_set m PEND_OFF id);;
    m' ← cur_vplic c;
    if vplic_get_hw m' id then
      v ← get_vcpu c;
      vplic_update_hart_line c (plic_plat_cntxt_to_id (mk_cntxt (s32 (vc_id v)) PRIV_S))
    else
      x ← cur_vm c;
      update_lines c (fun m i => vplic_get_enbl m i id &&
                                 (vplic_get_theshold m i <? vplic_get_prio m id))
        0 (Z.to_nat (vp_cntxt_num (vm_vplic x)))
  else mret tt.

(** ** Emulated registers *)
Definition vplic_emul_prio_access (c : Z) (acc : emul_access) : M unit :=
  let int_id := Z.land (u64 (acc_addr acc - plic_base)) 4095 / 4 in
  if acc_write acc then val ← vcpu_readreg c (acc_reg acc); vplic_set_prio c int_id (u32 val)
  else m ← cur_vplic c; vcpu_writereg c (acc_reg acc) (vplic_get_prio m int_id).

Fixpoint pend_word (m : mem) (first i : Z) (k : nat) : Z :=
  match k with
  | O => 0
  | S k' => Z.lor (if vplic_get_pend m (first + i) then Z.shiftl 1 i else 0) (pend_word m first (i + 1) k')
  end.

Definition vplic_emul_pend_access (c : Z) (acc : emul_access) : M unit :=
  if acc_write acc then mret tt
  else
    let first_int := Z.land (u64 (acc_addr acc - plic_base)) 4095 / 4 * 32 in
    m ← cur_vplic c; vcpu_writereg c (acc_reg acc) (pend_word m first_int 0 32).

Fixpoint enbl_word (m : mem) (vcntxt first i : Z) (k : nat) : Z :=
  match k with
  | O => 0
  | S k' => Z.lor (if vplic_get_enbl m vcntxt (first + i) then Z.shiftl 1 i else 0)
              (enbl_word m vcntxt first (i + 1) k')
  end.

Fixpoint set_enbl_word (c vcntxt first val i : Z) (k : nat) : M unit :=
  match k with
  | O => mret tt
  | S k' =>
      vplic_set_enbl c vcntxt (first + i) (negb (Z.land val (Z.shiftl 1 i) =? 0));;
      set_enbl_word c vcntxt first val (i + 1) k'
  end.

Definition vplic_emul_enbl_access (c : Z) (acc : emul_access) : M unit :=
  let off := u64 (acc_addr acc - plic_base) in
  let vcntxt_id := Z.land (u64 (off - 8192)) 2097151 / 4 / PLIC_NUM_ENBL_REGS in
  let first_int := Z.land off 127 / 4 * 32 in
  val ← (if acc_write acc then vcpu_readreg c (acc_reg acc) else mret 0);
  x ← cur_vm c;
  (if vplic_vcntxt_valid x vcntxt_id && acc_write acc
   then set_enbl_word c vcntxt_id first_int val 0 32 else mret tt);;
  if acc_write acc then mret tt
  else m ← cur_vplic c;
       vcpu_writereg c (acc_reg acc)
         (if vplic_vcntxt_valid x vcntxt_id then enbl_word m vcntxt_id first_int 0 32 else 0).

Definition vplic_global_emul_handler (c : Z) (acc : emul_access) : M bool :=
  if negb (acc_width acc =? 4) || negb (Z.land (acc_addr acc) 3 =? 0) then mret false
  else
    let page := Z.land (Z.shiftr (acc_addr acc) 12) 3 in
    (if page =? 0 then vplic_emul_prio_access c acc
     else if page =? 1 then vplic_emul_pend_access c acc
     else vplic_emul_enbl_access c acc);;
    mret true.

Definition vplic_hart_emul_handler (c : Z) (acc : emul_access) : M bool :=
  if (4 <? acc_width acc) || negb (Z.land (acc_addr acc) 3 =? 0) then mret false
  else
    let vcntxt := Z.land (Z.shiftr (u64 (acc_addr acc - plic_base - PLIC_CLAIMCMPLT_OFF)) 12) 1023 in
    x ← cur_vm c;
    if negb (vplic_vcntxt_valid x vcntxt) then
      (if acc_write acc then mret tt else vcpu_writereg c (acc_reg acc) 0);; mret true
    else
      let reg := Z.land (acc_addr acc) 15 in
      (if reg =? 0 then
         if acc_write acc then val ← vcpu_readreg c (acc_reg acc); vplic_set_threshold c vcntxt (u32 val)
         else vcpu_writereg c (acc_reg acc) (vplic_get_theshold (vp_mem (vm_vplic x)) vcntxt)
       else if reg =? 4 then
         if acc_write acc then val ← vcpu_readreg c (acc_reg acc); vplic_complete c vcntxt (s32 val)
         else id ← vplic_claim c vcntxt; vcpu_writereg c (acc_reg acc) (u64 id)
       else mret tt);;
      mret true.

Definition PLIC_GLOBAL_SIZE : Z := ALIGN (8192 + 128 * plic_cntxt_num) 4096.
Definition PLIC_HART_SIZE : Z := 4096 * plic_cntxt_num.

(** [vm_emul_add_mem] and [vm_emul_add_reg], when the cache has a node left. *)
Definition vm_emul_add (n : emul_node) (x : vm) : vm :=
  mk_vm (vm_id x) (vm_master x) (vm_cpu_num x) (vm_cpus x) (vm_vcpu_list x) (vm_vplic x)
    (vm_emul_list x ++ [n]) (vm_interrupts x) (vm_ipcs x).
Definition vm_emul_add_mem (va_base size : Z) (h : emul_handler) (x : vm) : vm :=
  vm_emul_add (EMUL_MEM va_base size h) x.
Definition vm_emul_add_reg (addr : Z) (h : emul_handler) (x : vm) : vm :=
  vm_emul_add (EMUL_REG addr h) x.

Definition vplic_init (c vplic_base : Z) (x : vm) : vm :=
  if c =? vm_master x then
    let x1 := vm_emul_add_mem vplic_base PLIC_GLOBAL_SIZE VPLIC_GLOBAL x in
    let x2 := vm_emul_add_mem (vplic_base + PLIC_CLAIMCMPLT_OFF) PLIC_HART_SIZE VPLIC_HART x1 in
    mk_vm (vm_id x2) (vm_master x2) (vm_cpu_num x2) (vm_cpus x2) (vm_vcpu_list x2)
      (mk_vplic (vm_cpu_num x2 * 2) (vp_mem (vm_vplic x2))) (vm_emul_list x2) (vm_interrupts x2)
      (vm_ipcs x2)
  else x.

(** ** Selection of the next interrupt *)
Lemma next_pending_loop_spec m vc i mp id k :
  let '(mp', id') := next_pending_loop m vc i mp id k in
  mp <= mp' /\
  (forall j, i <= j < i + Z.of_nat k -> candidate m vc j = true -> vplic_get_prio m j <= mp') /\
  ((mp' = mp /\ id' = id) \/
   (i <= id' < i + Z.of_nat k /\ candidate m vc id' = true /\ vplic_get_prio m id' = mp' /\ mp < mp' /\
    forall j, i <= j < id' -> candidate m vc j = true -> vplic_get_prio m j < mp')).
Proof.
  revert i mp id. induction k as [|k IH]; intros i mp id; simpl.
  { split; [lia|]. split; [lia|by left]. }
  destruct (candidate m vc i) eqn:Ec; simpl; [destruct (Z.ltb_spec mp (vplic_get_prio m i)) as [Hlt|Hge]|].
  - specialize (IH (i + 1) (vplic_get_prio m i) i).
    destruct (next_pending_loop _ _ _ _ _ _) as [mp' id']. destruct IH as (H1 & H2 & H3). split; [lia|]. split.
    + intros j Hj Hc. destruct (decide (j = i)) as [->|]; [lia|]. apply H2; [lia|done].
    + right. destruct H3 as [[-> ->]|(? & ? & ? & ? & H3)].
      * split_and!; try done; lia.
      * split_and!; try done; try lia. intros j Hj Hc. destruct (decide (j = i)) as [->|]; [lia|].
        apply H3; [lia|done].
  - specialize (IH (i + 1) mp id). destruct (next_pending_loop _ _ _ _ _ _) as [mp' id'].
    destruct IH as (H1 & H2 & H3). split; [lia|]. split.
    + intros j Hj Hc. destruct (decide (j = i)) as [->|]; [lia|]. apply H2; [lia|done].
    + destruct H3 as [?|(? & ? & ? & ? & H3)]; [by left|right]. split_and!; try done; try lia.
      intros j Hj Hc. destruct (decide (j = i)) as [->|]; [lia|]. apply H3; [lia|done].
  - specialize (IH (i + 1) mp id). destruct (next_pending_loop _ _ _ _ _ _) as [mp' id'].
    destruct IH as (H1 & H2 & H3). split; [lia|]. split.
    + intros j Hj Hc. destruct (decide (j = i)) as [->|]; [congruence|]. apply H2; [lia|done].
    + destruct H3 as [?|(? & ? & ? & ? & H3)]; [by left|right]. split_and!; try done; try lia.
      intros j Hj Hc. destruct (decide (j = i)) as [->|]; [congruence|]. apply H3; [lia|done].
Qed.

(** What [vplic_next_pending] promises: an eligible source above the threshold,
    of the highest priority, the lowest identifier first; or 0. *)
Definition is_next (m : mem) (vc r : Z) : Prop :=
  (r = 0 /\ forall j, 1 <= j <= 1024 -> candidate m vc j = true ->
     vplic_get_prio m j <= vplic_get_theshold m vc) \/
  (1 <= r <= 1024 /\ candidate m vc r = true /\ vplic_get_theshold m vc < vplic_get_prio m r /\
   forall j, 0 <= j <= 1024 -> candidate m vc j = true ->
     vplic_get_prio m j <= vplic_get_prio m r /\ (j < r -> vplic_get_prio m j < vplic_get_prio m r)).

Lemma next_pending_is_next m vc :
  candidate m vc 0 = false -> 0 <= vplic_get_theshold m vc -> is_next m vc (vplic_next_pending m vc).
Proof.
  intros H0 Ht. unfold vplic_next_pending.
  pose proof (next_pending_loop_spec m vc 0 0 0 (Z.to_nat (PLIC_MAX_INTERRUPTS + 1))) as H.
  destruct (next_pending_loop _ _ _ _ _ _) as [mp id]. change (Z.of_nat _) with 1025 in H.
  destruct H as (H1 & H2 & H3). destruct (Z.ltb_spec (vplic_get_theshold m vc) mp) as [Hlt|Hge].
  - right. destruct H3 as [[-> ->]|(? & Hc & <- & ? & H3)]; [lia|].
    assert (id <> 0) by congruence.
    split_and!; try done; try lia. intros j Hj Hcj. split; [apply H2; [lia|done]|].
    intros. apply H3; [lia|done].
  - left. split; [done|]. intros j Hj Hc. specialize (H2 j ltac:(lia) Hc). lia.
Qed.

(** ** Running on the virtual PLIC of one VM *)
Definition view (s : hyp) (c : Z) (v : vcpu) (x : vm) (m : mem) : Prop :=
  (exists y, hy_cpus s !! c = Some y /\ c_vcpu y = Some v) /\
  hy_vms s !! vc_vm v = Some (set_vplic_mem m x).

(** The context is one of a virtual CPU that runs on CPU [c]. *)
Definition local_cntxt (c : Z) (x : vm) (vc : Z) : Prop :=
  u64 (hart_id (plic_plat_id_to_cntxt (vplic_vcntxt_to_pcntxt x vc))) = c.

(** Every other VM and every other CPU is untouched. *)
Definition only (c i : Z) (s s' : hyp) : Prop :=
  (forall w, w <> i -> hy_vms s' !! w = hy_vms s !! w) /\
  (forall d, d <> c -> hy_cpus s' !! d = hy_cpus s !! d).

#[local] Instance only_preorder c i : PreOrder (only c i).
Proof.
  split; [by split|]. intros s1 s2 s3 [H1 H2] [H3 H4]. split.
  - intros w Hw. rewrite H3, H1; done.
  - intros d Hd. rewrite H4, H2; done.
Qed.

Definition hvip (s : hyp) (c : Z) : Z :=
  match hy_cpus s !! c with Some y => ld (c_csr y) CSR_HVIP | None => 0 end.

Lemma cur_vm_view s c v x m : view s c v x m -> cur_vm c s = Ok (set_vplic_mem m x, s).
Proof.
  intros [(y & Hy & Hv) Hx]. unfold cur_vm. mrun (get_vcpu_eq c s y v Hy Hv). by apply get_vm_eq.
Qed.

Lemma cur_vplic_view s c v x m : view s c v x m -> cur_vplic c s = Ok (m, s).
Proof. intros H. unfold cur_vplic. by mrun (cur_vm_view s c v x m H). Qed.

Lemma put_vplic_view s c v x m m' :
  view s c v x m ->
  exists s', put_vplic c m' s = Ok (tt, s') /\ view s' c v x m' /\ only c (vc_vm v) s s' /\
    hvip s' c = hvip s c.
Proof.
  intros [(y & Hy & Hv) Hx]. unfold put_vplic. mrun (get_vcpu_eq c s y v Hy Hv).
  mrun (get_vm_eq _ s _ Hx). eexists. split; [done|]. split_and!.
  - split; [by exists y|]. simpl. by rewrite lookup_insert_eq.
  - split; [|done]. intros w Hw. simpl. by rewrite lookup_insert_ne.
  - done.
Qed.

Lemma csr_write_view s c v x m k f :
  view s c v x m ->
  exists s', (z ← get_cpu c; put_cpu c (set_csr k (f (ld (c_csr z) k)) z)) s = Ok (tt, s') /\
    view s' c v x m /\ only c (vc_vm v) s s' /\ (k = CSR_HVIP -> hvip s' c = f (hvip s c)).
Proof.
  intros [(y & Hy & Hv) Hx]. mrun (get_cpu_eq c s y Hy). eexists. split; [done|]. split_and!.
  - split; [|done]. exists (set_csr k (f (ld (c_csr y) k)) y). simpl. by rewrite lookup_insert_eq.
  - split; [done|]. intros d Hd. simpl. by rewrite lookup_insert_ne.
  - intros ->. unfold hvip. simpl. rewrite lookup_insert_eq, Hy. simpl. by rewrite ld_st_eq.
Qed.

(** On the CPU of the context, the pending bit of the guest's external interrupt
    follows the state of the virtual PLIC. *)
Lemma update_hart_line_local s c v x m vc :
  view s c v x m -> local_cntxt c x vc ->
  exists s', vplic_update_hart_line c vc s = Ok (tt, s') /\ view s' c v x m /\
    only c (vc_vm v) s s' /\
    Z.testbit (hvip s' c) 10 = negb (vplic_next_pending m vc =? 0).
Proof.
  intros Hv Hl. unfold vplic_update_hart_line.
  mrun (cur_vm_view s c v x m Hv).
  change (vplic_vcntxt_to_pcntxt (set_vplic_mem m x) vc) with (vplic_vcntxt_to_pcntxt x vc).
  unfold local_cntxt in Hl. rewrite Hl, Z.eqb_refl.
  change (vp_mem (vm_vplic (set_vplic_mem m x))) with m.
  destruct (vplic_next_pending m vc =? 0); cbn [negb].
  - destruct (csr_write_view s c v x m CSR_HVIP (fun z => Z.ldiff z HIP_VSEIP) Hv)
      as (s' & Hs & Hv' & Ho & Hh). exists s'. split_and!; try done.
    rewrite Hh, Z.ldiff_spec by done. by rewrite andb_false_r.
  - destruct (csr_write_view s c v x m CSR_HVIP (fun z => Z.lor z HIP_VSEIP) Hv)
      as (s' & Hs & Hv' & Ho & Hh). exists s'. split_and!; try done.
    rewrite Hh, Z.lor_spec by done. by rewrite orb_true_r.
Qed.

(** ** The bits of the virtual PLIC *)
Lemma vplic_get_pend_bit m id : 0 <= id <= 1024 -> vplic_get_pend m id = mbit m (32 * PEND_OFF + id).
Proof.
  intros H. unfold vplic_get_pend, PLIC_MAX_INTERRUPTS. rewrite bitmap_get_spec.
  replace (id <=? 1024) with true by lia. unfold bit_at. by destruct (mbit _ _).
Qed.

Lemma vplic_get_act_bit m id : 0 <= id <= 1024 -> vplic_get_act m id = mbit m (32 * ACT_OFF + id).
Proof.
  intros H. unfold vplic_get_act, PLIC_MAX_INTERRUPTS. rewrite bitmap_get_spec.
  replace (id <=? 1024) with true by lia. unfold bit_at. by destruct (mbit _ _).
Qed.

Lemma vplic_get_enbl_bit m vc id :
  0 <= id <= 1024 -> vplic_get_enbl m vc id = mbit m (32 * enbl_off vc + id).
Proof.
  intros H. unfold vplic_get_enbl, PLIC_MAX_INTERRUPTS. rewrite bitmap_get_spec.
  replace (id <=? 1024) with true by lia. unfold bit_at. by destruct (mbit _ _).
Qed.

(** A claimed interrupt is active, so no context is offered it again. *)
Lemma claimed_not_candidate m id vc :
  0 <= id <= 1024 ->
  candidate (bitmap_set (bitmap_clear m PEND_OFF id) ACT_OFF id) vc id = false.
Proof.
  intros Hid. unfold candidate. rewrite vplic_get_act_bit, mbit_set, Z.eqb_refl by done.
  simpl. by rewrite andb_false_r.
Qed.

(** A virtual PLIC offers a context the right interrupt: if source 0 is not
    pending, [vplic_next_pending] returns an interrupt that is pending, not
    active, enabled in the context and above its threshold, of the highest
    priority and, among equals, the lowest identifier; and it returns 0 exactly
    when there is none. *)
Theorem vplic_next_pending_correct m vc :
  candidate m vc 0 = false -> 0 <= vplic_get_theshold m vc ->
  is_next m vc (vplic_next_pending m vc) /\
  (vplic_next_pending m vc = 0 <->
   forall j, 1 <= j <= 1024 -> candidate m vc j = true -> vplic_get_prio m j <= vplic_get_theshold m vc) /\
  (forall r, is_next m vc r -> r = vplic_next_pending m vc).
Proof.
  intros H0 Ht. pose proof (next_pending_is_next m vc H0 Ht) as Hn. split; [done|]. split.
  - destruct Hn as [[-> Hn]|(? & Hc & Hlt & _)]; [done|]. split; [lia|].
    intros Hj. specialize (Hj (vplic_next_pending m vc) ltac:(lia) Hc). lia.
  - intros r Hr. set (q := vplic_next_pending m vc) in *.
    destruct Hr as [[-> Hr]|(? & Hc & Hlt & Hr)], Hn as [[-> Hn]|(? & Hc' & Hlt' & Hn)]; [done| | |].
    + specialize (Hr q ltac:(lia) Hc'). lia.
    + specialize (Hn r ltac:(lia) Hc). lia.
    + destruct (Hr q ltac:(lia) Hc') as [_ Hq], (Hn r ltac:(lia) Hc) as [_ Hr'].
      destruct (Z.lt_trichotomy r q) as [?|[?|?]]; [|done|].
      * destruct (Hr q ltac:(lia) Hc') as [? _]. specialize (Hr' ltac:(lia)). lia.
      * destruct (Hn r ltac:(lia) Hc) as [? _]. specialize (Hq ltac:(lia)). lia.
Qed.

(** C39. A claim on the context of the running virtual CPU returns the next
    pending interrupt and takes it: it is no longer pending, it is active, no
    context is offered it again before it is completed, no other source
    (1 to 1023) changes, and the guest's interrupt line is then raised exactly when another
    interrupt remains to be taken. Other VMs and CPUs are not touched. *)
Theorem vplic_claim_correct s c v x m vc :
  view s c v x m -> local_cntxt c x vc -> candidate m vc 0 = false -> 0 <= vplic_get_theshold m vc ->
  exists id s' m', vplic_claim c vc s = Ok (id, s') /\ is_next m vc id /\ view s' c v x m' /\
    (forall j, 1 <= j < 1024 ->
       vplic_get_pend m' j = vplic_get_pend m j && negb (j =? id) /\
       vplic_get_act m' j = vplic_get_act m j || (j =? id)) /\
    (id <> 0 -> forall vc', vplic_next_pending m' vc' <> id) /\
    Z.testbit (hvip s' c) 10 = negb (vplic_next_pending m' vc =? 0) /\
    only c (vc_vm v) s s'.
Proof.
  intros Hv Hl H0 Ht. pose proof (next_pending_is_next m vc H0 Ht) as Hn.
  unfold vplic_claim. mrun (cur_vplic_view s c v x m Hv). set (id := vplic_next_pending m vc) in *.
  assert (0 <= id <= 1024) as Hid by (destruct Hn as [[-> _]|[? _]]; lia).
  set (m' := bitmap_set (bitmap_clear m PEND_OFF id) ACT_OFF id).
  destruct (put_vplic_view s c v x m m' Hv) as (s1 & E1 & Hv1 & Ho1 & _). mrun E1.
  destruct (update_hart_line_local s1 c v x m' vc Hv1 Hl) as (s2 & E2 & Hv2 & Ho2 & Hb). mrun E2.
  exists id, s2, m'. split_and!; try done; [| |by etrans].
  - intros j Hj. rewrite !vplic_get_pend_bit, !vplic_get_act_bit by lia. unfold m'.
    rewrite !mbit_set, !mbit_clear. unfold PEND_OFF, ACT_OFF. split; zbool; simpl; try lia; 
      rewrite ?andb_true_r, ?andb_false_r, ?orb_true_r, ?orb_false_r; try done; lia.
  - intros Hne vc' E. unfold vplic_next_pending in E.
    pose proof (next_pending_loop_spec m' vc' 0 0 0 (Z.to_nat (PLIC_MAX_INTERRUPTS + 1))) as H.
    destruct (next_pending_loop _ _ _ _ _ _) as [mp i']. destruct H as (_ & _ & H).
    destruct (vplic_get_theshold m' vc' <? mp); [|congruence]. subst i'.
    destruct H as [[_ ?]|(_ & Hc & _)]; [done|]. unfold m' in Hc. by rewrite claimed_not_candidate in Hc.
Qed.

(** [vplic_complete] does not check the identifier the guest writes. In
    range it ends the activation of that interrupt only; but any value up to
    2^31 - 1 is used as a bit index, so the guest clears a bit of its choice in
    the 256 MiB that follow the active bits: past [32 * (vplic_words - 64)] the
    bit lies outside the virtual PLIC, in other hypervisor data. *)
Theorem vplic_complete_unchecked s c v x m vc id :
  view s c v x m -> local_cntxt c x vc -> 0 <= id < 2 ^ 31 ->
  exists s' m', vplic_complete c vc id s = Ok (tt, s') /\ view s' c v x m' /\
    (forall k, mbit m' k = mbit m k && negb (k =? 32 * ACT_OFF + id)) /\
    (32 * (vplic_words - ACT_OFF) <= id -> vplic_words <= (32 * ACT_OFF + id) / 32) /\
    Z.testbit (hvip s' c) 10 = negb (vplic_next_pending m' vc =? 0).
Proof.
  intros Hv Hl Hid. unfold vplic_complete. replace (id <? 0) with false by lia.
  mrun (cur_vplic_view s c v x m Hv).
  assert (exists s0, (if vplic_get_hw m id then x0 ← get_cpu c; log (PlicComplete (c_plic_cntxt x0) id)
    else mret tt) s = Ok (tt, s0) /\ view s0 c v x m) as (s0 & E0 & Hv0).
  { destruct (vplic_get_hw m id); [|by eexists]. destruct Hv as [(y & Hy & Hv) Hx].
    mrun (get_cpu_eq c s y Hy). eexists. split; [done|]. split; [by exists y|done]. }
  mrun E0. set (m' := bitmap_clear m ACT_OFF id).
  destruct (put_vplic_view s0 c v x m m' Hv0) as (s1 & E1 & Hv1 & _). mrun E1.
  destruct (update_hart_line_local s1 c v x m' vc Hv1 Hl) as (s2 & E2 & Hv2 & _ & Hb).
  exists s2, m'. split_and!; try done.
  - intros k. unfold m'. rewrite mbit_clear. apply andb_comm.
  - intros Hge. apply Z.div_le_lower_bound; lia.
Qed.

(** ** Enable registers *)
Lemma set_enbl_view s c v x m vc id set :
  view s c v x m -> local_cntxt c x vc -> 0 <= id < 1024 ->
  exists s' m', vplic_set_enbl c vc id set s = Ok (tt, s') /\ view s' c v x m' /\
    (forall k, mbit m' k = if k =? 32 * enbl_off vc + id then set else mbit m k).
Proof.
  intros Hv Hl Hid. unfold vplic_set_enbl. mrun (cur_vplic_view s c v x m Hv).
  rewrite vplic_get_enbl_bit by lia. unfold PLIC_MAX_INTERRUPTS. replace (id <=? 1024) with true by lia.
  destruct (Bool.eqb (mbit m _) set) eqn:E; simpl.
  { apply eqb_prop in E. exists s, m. split; [done|]. split; [done|].
    intros k. destruct (Z.eqb_spec k (32 * enbl_off vc + id)) as [->|]; done. }
  set (m' := if set then _ else _).
  destruct (put_vplic_view s c v x m m' Hv) as (s1 & E1 & Hv1 & _). mrun E1.
  mrun (cur_vplic_view s1 c v x m' Hv1).
  assert (forall k, mbit m' k = if k =? 32 * enbl_off vc + id then set else mbit m k) as Hm.
  { intros k. unfold m'. destruct set; rewrite ?mbit_set, ?mbit_clear;
      by destruct (k =? 32 * enbl_off vc + id). }
  destruct (vplic_get_hw m' id).
  - mrun (cur_vm_view s1 c v x m' Hv1). eexists _, m'. split; [done|]. split; [|done]. exact Hv1.
  - destruct (update_hart_line_local s1 c v x m' vc Hv1 Hl) as (s2 & E2 & Hv2 & _). by exists s2, m'.
Qed.

Lemma set_enbl_word_view k s c v x m vc first val i :
  view s c v x m -> local_cntxt c x vc -> 0 <= first -> 0 <= i -> first + i + Z.of_nat k <= 1024 ->
  exists s' m', set_enbl_word c vc first val i k s = Ok (tt, s') /\ view s' c v x m' /\
    (forall b, mbit m' b =
       if (32 * enbl_off vc + first + i <=? b) && (b <? 32 * enbl_off vc + first + i + Z.of_nat k)
       then Z.testbit val (b - 32 * enbl_off vc - first) else mbit m b).
Proof.
  revert s m i. induction k as [|k IH]; intros s m i Hv Hl Hf Hi Hb; simpl set_enbl_word.
  { exists s, m. split; [done|]. split; [done|]. intros b. zbool; simpl; done || lia. }
  rewrite land_shiftl_1 by done.
  destruct (set_enbl_view s c v x m vc (first + i) (Z.testbit val i) Hv Hl ltac:(lia))
    as (s1 & m1 & E1 & Hv1 & Hm1). mrun E1.
  destruct (IH s1 m1 (i + 1) Hv1 Hl Hf ltac:(lia) ltac:(lia)) as (s2 & m2 & E2 & Hv2 & Hm2).
  exists s2, m2. split; [done|]. split; [done|]. intros b. rewrite Hm2, Hm1.
  zbool; simpl; try done; try lia. f_equal. lia.
Qed.

Lemma enbl_word_bits m vc first i k b :
  0 <= i -> 0 <= first -> 0 <= b -> first + i + Z.of_nat k <= 1024 ->
  Z.testbit (enbl_word m vc first i k) b =
  (i <=? b) && (b <? i + Z.of_nat k) && mbit m (32 * enbl_off vc + first + b).
Proof.
  revert i. induction k as [|k IH]; intros i Hi Hf Hb Hk; simpl.
  { rewrite Z.bits_0. zbool; simpl; done || lia. }
  rewrite Z.lor_spec, IH, vplic_get_enbl_bit by lia.
  destruct (decide (b = i)) as [->|Hne].
  - rewrite Z.add_assoc. destruct (mbit m _); zbool; simpl; try lia; try done;
      rewrite ?Z.bits_0, ?Z.shiftl_1_l, ?Z.pow2_bits_true by lia; done.
  - destruct (mbit m (32 * enbl_off vc + (first + i))); rewrite ?Z.bits_0; zbool; simpl; try lia; try done;
      rewrite ?Z.shiftl_1_l, ?Z.pow2_bits_false by lia; done.
Qed.

(** The address of enable word [w] of context [vc]. *)
Lemma enbl_decode vc w :
  0 <= vc < 1000 -> 0 <= w < 32 -> 0 <= plic_base < 2 ^ 62 ->
  let off := u64 (plic_base + 8192 + 128 * vc + 4 * w - plic_base) in
  Z.land (u64 (off - 8192)) 2097151 / 4 / PLIC_NUM_ENBL_REGS = vc /\ Z.land off 127 / 4 * 32 = 32 * w.
Proof.
  intros Hvc Hw Hb. cbv zeta.
  replace (plic_base + 8192 + 128 * vc + 4 * w - plic_base) with (8192 + 128 * vc + 4 * w) by lia.
  rewrite (wrap_small 64 (8192 + 128 * vc + 4 * w)), (wrap_small 64 (_ - 8192)) by lia.
  change 2097151 with (Z.ones 21). change 127 with (Z.ones 7).
  rewrite !Z.land_ones by lia. unfold PLIC_NUM_ENBL_REGS.
  change (2 ^ 21) with 2097152. change (2 ^ 7) with 128.
  split; Z.to_euclidean_division_equations; lia.
Qed.

Lemma vcpu_readreg_view s c v x m r : view s c v x m -> vcpu_readreg c r s = Ok (readreg v r, s).
Proof. intros [(y & Hy & Hv) _]. unfold vcpu_readreg. by mrun (get_vcpu_eq c s y v Hy Hv). Qed.

Lemma vcpu_writereg_view s c v x m r val :
  view s c v x m ->
  exists s', vcpu_writereg c r val s = Ok (tt, s') /\ view s' c (writereg v r val) x m.
Proof.
  intros [(y & Hy & Hv) Hx]. unfold vcpu_writereg, put_vcpu. mrun (get_vcpu_eq c s y v Hy Hv).
  mrun (get_cpu_eq c s y Hy). eexists. split; [done|]. split.
  - exists (set_vcpu (writereg v r val) y). simpl. by rewrite lookup_insert_eq.
  - replace (vc_vm (writereg v r val)) with (vc_vm v); [done|].
    unfold writereg. by destruct (_ || _).
Qed.

(** The enable registers a guest writes read back: a write of any value to
    an enable word of a supervisor context of its own, followed by a read of the same
    word, delivers the low 32 bits of the value, and the write changes no other
    bit of the virtual PLIC. *)
Theorem vplic_enbl_roundtrip s c v x m vc w reg rd :
  view s c v x m -> local_cntxt c x vc -> vplic_vcntxt_valid x vc = true ->
  0 <= vc < 1000 -> 0 <= w < 32 -> 0 <= plic_base < 2 ^ 62 ->
  let addr := plic_base + 8192 + 128 * vc + 4 * w in
  let val := readreg v reg in
  exists s1 s2 m', vplic_emul_enbl_access c (mk_acc addr true true 4 reg 8) s = Ok (tt, s1) /\
    vplic_emul_enbl_access c (mk_acc addr false true 4 rd 8) s1 = Ok (tt, s2) /\
    view s2 c (writereg v rd (u32 val)) x m' /\
    (forall b, ~ (32 * (enbl_off vc + w) <= b < 32 * (enbl_off vc + w) + 32) -> mbit m' b = mbit m b).
Proof.
  intros Hv Hl Hval Hvc Hw Hb addr val.
  destruct (enbl_decode vc w Hvc Hw Hb) as [D1 D2].
  unfold vplic_emul_enbl_access. simpl acc_addr. simpl acc_write. simpl acc_reg.
  fold addr in D1, D2. cbv zeta in D1, D2. cbv zeta. rewrite D1, D2. cbv iota.
  mrun (vcpu_readreg_view s c v x m reg Hv). mrun (cur_vm_view s c v x m Hv).
  change (vplic_vcntxt_valid (set_vplic_mem m x) vc) with (vplic_vcntxt_valid x vc).
  rewrite Hval. simpl andb. cbv iota.
  destruct (set_enbl_word_view 32 s c v x m vc (32 * w) val 0 Hv Hl ltac:(lia) ltac:(lia) ltac:(lia))
    as (s1 & m' & E1 & Hv1 & Hm). mrun E1. exists s1.
  rewrite bind_ret. mrun (cur_vm_view s1 c v x m' Hv1).
  change (vplic_vcntxt_valid (set_vplic_mem m' x) vc) with (vplic_vcntxt_valid x vc).
  rewrite Hval. simpl andb. cbv iota. rewrite bind_ret.
  mrun (cur_vplic_view s1 c v x m' Hv1).
  assert (enbl_word m' vc (32 * w) 0 32 = u32 val) as ->.
  { apply Z.bits_inj'. intros b Hb0. rewrite enbl_word_bits, wrap_testbit, Hm by lia.
    change (Z.of_nat 32) with 32. zbool; simpl; try lia; try done. f_equal. lia. }
  destruct (vcpu_writereg_view s1 c v x m' rd (u32 val) Hv1) as (s2 & E2 & Hv2).
  exists s2, m'. split; [done|]. split; [done|]. split; [done|].
  intros b Hnb. rewrite Hm. change (Z.of_nat 32) with 32. zbool; simpl; done || lia.
Qed.
End Vplic.

#[local] Existing Instance demo_env.

(** Source 5 pending, enabled for the supervisor context, with priority 3. *)
Definition demo_vplic : mem :=
  st (bitmap_set (bitmap_set ∅ PEND_OFF 5) (enbl_off 1) 5) (PRIO_OFF + 5) 3.

Lemma demo_view m : view (demo_hyp m) 0 demo_vcpu (demo_vm m) m.
Proof. split; [|done]. by exists demo_cpu. Qed.

Lemma vplic_next_pending_correct_witness :
  is_next demo_vplic 1 5 /\ vplic_next_pending demo_vplic 1 = 5.
Proof.
  destruct (vplic_next_pending_correct demo_vplic 1) as (H & _ & _); [reflexivity|vm_compute; discriminate|].
  assert (vplic_next_pending demo_vplic 1 = 5) as E by (vm_compute; reflexivity).
  rewrite E in H. split; [exact H|exact E].
Defined.

Lemma vplic_claim_correct_witness :
  exists id s', vplic_claim 0 1 (demo_hyp demo_vplic) = Ok (id, s') /\ is_next demo_vplic 1 id.
Proof.
  destruct (vplic_claim_correct (demo_hyp demo_vplic) 0 demo_vcpu (demo_vm demo_vplic) demo_vplic 1)
    as (id & s' & m' & E & Hn & _).
  - apply demo_view.
  - vm_compute. reflexivity.
  - vm_compute. reflexivity.
  - vm_compute. discriminate.
  - exists id, s'. split; [exact E|exact Hn].
Defined.

Lemma vplic_complete_unchecked_witness :
  exists s' m', vplic_complete 0 1 40000 (demo_hyp ∅) = Ok (tt, s') /\
    view s' 0 demo_vcpu (demo_vm ∅) m' /\ vplic_words <= (32 * ACT_OFF + 40000) / 32.
Proof.
  destruct (vplic_complete_unchecked (demo_hyp ∅) 0 demo_vcpu (demo_vm ∅) ∅ 1 40000)
    as (s' & m' & E & Hv & _ & Ho & _).
  - apply demo_view.
  - vm_compute. reflexivity.
  - lia.
  - exists s', m'. split; [exact E|]. split; [exact Hv|]. apply Ho. vm_compute. discriminate.
Defined.

Lemma vplic_enbl_roundtrip_witness :
  exists s1 s2 m', vplic_emul_enbl_access 0 (mk_acc (201326592 + 8192 + 128 * 1 + 4 * 2) true true 4 10 8)
      (demo_hyp ∅) = Ok (tt, s1) /\
    vplic_emul_enbl_access 0 (mk_acc (201326592 + 8192 + 128 * 1 + 4 * 2) false true 4 11 8) s1 = Ok (tt, s2) /\
    view s2 0 (writereg demo_vcpu 11 (u32 (readreg demo_vcpu 10))) (demo_vm ∅) m'.
Proof.
  destruct (vplic_enbl_roundtrip (demo_hyp ∅) 0 demo_vcpu (demo_vm ∅) ∅ 1 2 10 11)
    as (s1 & s2 & m' & E1 & E2 & Hv & _).
  - apply demo_view.
  - vm_compute. reflexivity.
  - vm_compute. reflexivity.
  - lia.
  - lia.
  - simpl. lia.
  - exists s1, s2, m'. split; [exact E1|]. split; [exact E2|exact Hv].
Defined.
