(* ===== verification/Ipc.v ===== *)
(** * Inter-VM communication

    [core/ipc.c]: shared memory objects and the notification of the VMs that
    share one. *)

From S2P Require Import Prelude Bit Bitmap PagePool CpuMsg State Calls Plic Vplic.

Section Ipc.
Context {Henv : Env}.

Definition IPC_NOTIFY : Z := 0.
Definition HC_E_SUCCESS : Z := 0.
Definition HC_E_INVAL_ARGS : Z := 3.

Definition ipc_get_shmem (t : list shmem) (shmem_id : Z) : option shmem :=
  if shmem_id <? Z.of_nat (length t) then t !! Z.to_nat shmem_id else None.

Fixpoint ipc_find_by_shmemid (l : list ipc) (shmem_id : Z) : option ipc :=
  match l with
  | [] => None
  | o :: rest => if ipc_shmem_id o =? shmem_id then Some o else ipc_find_by_shmemid rest shmem_id
  end.

(** [interrupts_vm_inject] and [interrupts_arch_vm_inject]: into the virtual CPU
    of the current CPU. *)
Definition interrupts_vm_inject (c id : Z) : M unit := vplic_inject c (s32 id).

Definition ipc_notify (c shmem_id event_id : Z) : M unit :=
  x ← cur_vm c;
  match ipc_find_by_shmemid (vm_ipcs x) shmem_id with
  | Some o =>
      if event_id <? Z.of_nat (length (ipc_interrupts o))
      then interrupts_vm_inject c (s32 (default 0 (ipc_interrupts o !! Z.to_nat event_id)))
      else mret tt
  | None => mret tt
  end.

(** [ipc_msg_data_t]: the two identifiers as bytes. *)
Definition ipc_data (shmem_id event_id : Z) : Z := u8 shmem_id + 256 * u8 event_id.

Definition ipc_handler (c event data : Z) : M unit :=
  if event =? IPC_NOTIFY then ipc_notify c (u8 data) (u8 (data / 256)) else mret tt.

Fixpoint ipc_send_loop (masters : Z) (msg : cpu_msg) (i : Z) (k : nat) : M unit :=
  match k with
  | O => mret tt
  | S k' =>
      (if negb (Z.land masters (Z.shiftl 1 i) =? 0) then send_msg i msg else mret tt);;
      ipc_send_loop masters msg (i + 1) k'
  end.

Definition ipc_hypercall (c arg0 arg1 arg2 : Z) : M Z :=
  x ← cur_vm c;
  t ← gets hy_shmem;
  match (if arg0 <? Z.of_nat (length (vm_ipcs x)) then vm_ipcs x !! Z.to_nat arg0 else None) with
  | Some o =>
      match ipc_get_shmem t (ipc_shmem_id o) with
      | Some sh =>
          ipc_send_loop (Z.ldiff (sh_masters sh) (vm_cpus x))
            (mk_msg IPC_CPUSMG_ID IPC_NOTIFY (ipc_data (ipc_shmem_id o) arg1)) 0 (Z.to_nat cpu_num);;
          mret (- HC_E_SUCCESS)
      | None => mret (- HC_E_INVAL_ARGS)
      end
  | None => mret (- HC_E_INVAL_ARGS)
  end.

(** ** Setup *)

(** [ipc_alloc_shmem], on the page pools of the system. *)
Fixpoint ipc_alloc_shmem (cn cs : Z) (m : mem) (pools : list page_pool) (t : list shmem)
    : res (list shmem * list page_pool * mem) :=
  match t with
  | [] => Ok ([], pools, m)
  | sh :: rest =>
      if sh_place_phys sh then
        '(rest', pools', m') ← ipc_alloc_shmem cn cs m pools rest; Ok (sh :: rest', pools', m')
      else
        match mem_alloc_ppages cn cs m pools (sh_colors sh) (NUM_PAGES (sh_size sh)) false with
        | None => Fault Hang
        | Some (pp, pools1, m1) =>
            if pg_size pp <? NUM_PAGES (sh_size sh) then Fault (Panic "failed to allocate shared memory")
            else
              '(rest', pools', m') ← ipc_alloc_shmem cn cs m1 pools1 rest;
              Ok (mk_shmem (sh_size sh) (sh_colors sh) (sh_place_phys sh) (pg_base pp) (sh_masters sh)
                    :: rest', pools', m')
        end
  end.

Definition set_masters (f : Z -> Z) (sh : shmem) : shmem :=
  mk_shmem (sh_size sh) (sh_colors sh) (sh_place_phys sh) (sh_phys sh) (f (sh_masters sh)).

(** [ipc_setup_masters], before and after its barrier. *)
Definition ipc_reset_masters (t : list shmem) : list shmem := set_masters (fun _ => 0) <$> t.

Fixpoint ipc_add_masters (c : Z) (ipcs : list ipc) (t : list shmem) : list shmem :=
  match ipcs with
  | [] => t
  | o :: rest =>
      ipc_add_masters c rest
        (if (0 <=? ipc_shmem_id o) && (ipc_shmem_id o <? Z.of_nat (length t))
         then alter (set_masters (fun w => Z.lor w (Z.shiftl 1 c))) (Z.to_nat (ipc_shmem_id o)) t
         else t)
  end.

(** All CPUs reset the table; after the barrier the master of each VM adds
    itself, in some order. *)
Fixpoint ipc_setup (masters : list (Z * list ipc)) (t : list shmem) : list shmem :=
  match masters with
  | [] => ipc_reset_masters t
  | (c, ipcs) :: rest => ipc_add_masters c ipcs (ipc_setup rest t)
  end.

(** ** Notifications *)
Lemma ipc_send_loop_spec k s masters msg i :
  0 <= i -> Z.of_nat k <= hy_left s ->
  (forall d, i <= d < i + Z.of_nat k -> Z.testbit masters d = true -> is_Some (hy_cpus s !! d)) ->
  exists s', ipc_send_loop masters msg i k s = Ok (tt, s') /\ same_rest s s' /\
    forall d, hy_cpus s' !! d =
      if (i <=? d) && (d <? i + Z.of_nat k) && Z.testbit masters d
      then add_event msg <$> hy_cpus s !! d else hy_cpus s !! d.
Proof.
  revert s i. induction k as [|k IH]; intros s i Hi Hl Hd; simpl ipc_send_loop.
  { exists s. split; [done|]. split; [by split_and!|]. intros d. zbool; simpl; done || lia. }
  rewrite land_shiftl_1 by done. destruct (Z.testbit masters i) eqn:Eb.
  - destruct (Hd i ltac:(lia) Eb) as [y Hy].
    destruct (send_msg_spec s i msg y ltac:(lia) Hy) as (s1 & E1 & Hc1 & Hr1 & Hl1). mrun E1.
    destruct (IH s1 (i + 1)) as (s2 & E2 & Hr2 & Hc2); [lia|lia| |].
    { intros d Hd' Hb. rewrite Hc1, lookup_insert_ne by lia. apply Hd; [lia|done]. }
    exists s2. split; [done|]. split.
    { destruct Hr1 as (? & ? & ? & ? & ? & ?), Hr2 as (? & ? & ? & ? & ? & ?). split_and!; congruence. }
    intros d. rewrite Hc2, Hc1. destruct (decide (d = i)) as [->|Hne].
    + rewrite lookup_insert_eq, Hy, Eb. zbool; simpl; done || lia.
    + rewrite lookup_insert_ne by done. zbool; simpl; done || lia.
  - rewrite bind_ret. destruct (IH s (i + 1)) as (s2 & E2 & Hr2 & Hc2); [lia|lia| |].
    { intros d Hd' Hb. apply Hd; [lia|done]. }
    exists s2. split; [done|]. split; [done|]. intros d. rewrite Hc2.
    destruct (decide (d = i)) as [->|Hne]; [rewrite Eb, !andb_false_r; done|]. zbool; simpl; done || lia.
Qed.

(** A notification hypercall with an invalid object or an invalid shared
    memory fails with [-HC_E_INVAL_ARGS] and changes nothing. Otherwise it
    succeeds, and sends one message to each CPU that is the master of another
    VM sharing the object and to no other CPU, its own VM's in particular;
    nothing else changes. *)
Theorem ipc_hypercall_correct s c v x m ipc_id event arg2 :
  view s c v x m -> 0 <= ipc_id -> 0 <= cpu_num <= hy_left s ->
  (forall d, 0 <= d < cpu_num -> is_Some (hy_cpus s !! d)) ->
  match (o ← vm_ipcs x !! Z.to_nat ipc_id; sh ← ipc_get_shmem (hy_shmem s) (ipc_shmem_id o); Some (o, sh)) with
  | None => ipc_hypercall c ipc_id event arg2 s = Ok (- HC_E_INVAL_ARGS, s)
  | Some (o, sh) =>
      exists s', ipc_hypercall c ipc_id event arg2 s = Ok (- HC_E_SUCCESS, s') /\ same_rest s s' /\
        forall d, hy_cpus s' !! d =
          if (0 <=? d) && (d <? cpu_num) && Z.testbit (sh_masters sh) d && negb (Z.testbit (vm_cpus x) d)
          then add_event (mk_msg IPC_CPUSMG_ID IPC_NOTIFY (ipc_data (ipc_shmem_id o) event))
                 <$> hy_cpus s !! d
          else hy_cpus s !! d
  end.
Proof.
  intros Hv Hi Hl Hd. unfold ipc_hypercall. mrun (cur_vm_view s c v x m Hv).
  mrun (eq_refl : gets hy_shmem s = Ok (hy_shmem s, s)).
  change (vm_ipcs (set_vplic_mem m x)) with (vm_ipcs x).
  change (vm_cpus (set_vplic_mem m x)) with (vm_cpus x).
  destruct (vm_ipcs x !! Z.to_nat ipc_id) as [o|] eqn:Eo; simpl.
  - pose proof (lookup_lt_Some _ _ _ Eo). replace (ipc_id <? Z.of_nat (length (vm_ipcs x))) with true by lia.
    destruct (ipc_get_shmem (hy_shmem s) (ipc_shmem_id o)) as [sh|]; simpl; [|done].
    destruct (ipc_send_loop_spec (Z.to_nat cpu_num) s (Z.ldiff (sh_masters sh) (vm_cpus x))
      (mk_msg IPC_CPUSMG_ID IPC_NOTIFY (ipc_data (ipc_shmem_id o) event)) 0) as (s' & E & Hr & Hc);
      [lia|lia|intros d Hd' _; apply Hd; lia|].
    mrun E. exists s'. split; [done|]. split; [done|]. intros d. rewrite Hc, Z2Nat.id, Z.ldiff_spec by lia.
    zbool; simpl; try done; lia.
  - by destruct (ipc_id <? Z.of_nat (length (vm_ipcs x))).
Qed.

(** ** Masters *)
Lemma ipc_add_masters_spec c ipcs t k d :
  0 <= c -> 0 <= d ->
  Z.testbit (default 0 (sh_masters <$> ipc_add_masters c ipcs t !! k)) d =
  Z.testbit (default 0 (sh_masters <$> t !! k)) d ||
  ((d =? c) && (Nat.ltb k (length t)) && existsb (fun o => ipc_shmem_id o =? Z.of_nat k) ipcs).
Proof.
  intros Hc Hd. revert t. induction ipcs as [|o ipcs IH]; intros t; simpl.
  { by rewrite andb_false_r, orb_false_r. }
  rewrite IH. destruct (Z.leb_spec 0 (ipc_shmem_id o)), (Z.ltb_spec (ipc_shmem_id o) (Z.of_nat (length t))); simpl.
  - rewrite length_alter. destruct (Z.eqb_spec (ipc_shmem_id o) (Z.of_nat k)) as [E|Hne]; simpl.
    + replace (Z.to_nat (ipc_shmem_id o)) with k by lia. rewrite list_lookup_alter_eq.
      destruct (t !! k) as [sh|] eqn:Et.
      * simpl. rewrite Z.lor_spec, Z.shiftl_1_l, Z.pow2_bits_eqb, (Z.eqb_sym c) by done.
        apply lookup_lt_Some in Et as ?. replace (Nat.ltb k (length t)) with true by (symmetry; apply Nat.ltb_lt; lia).
        destruct (Z.testbit (sh_masters sh) d), (d =? c), (existsb _ ipcs); done.
      * apply lookup_ge_None in Et. lia.
    + rewrite list_lookup_alter_ne by lia. done.
  - destruct (Z.eqb_spec (ipc_shmem_id o) (Z.of_nat k)) as [E|Hne]; simpl; [|done].
    replace (Nat.ltb k (length t)) with false by (symmetry; apply Nat.ltb_ge; lia).
    by rewrite !andb_false_r.
  - destruct (Z.eqb_spec (ipc_shmem_id o) (Z.of_nat k)) as [E|Hne]; simpl; [lia|done].
  - destruct (Z.eqb_spec (ipc_shmem_id o) (Z.of_nat k)) as [E|Hne]; simpl; [lia|done].
Qed.

Lemma length_add_masters c ipcs t : length (ipc_add_masters c ipcs t) = length t.
Proof.
  revert t. induction ipcs as [|o ipcs IH]; intros t; simpl; [done|]. rewrite IH.
  destruct (_ && _); [apply length_alter|done].
Qed.

Lemma length_setup masters t : length (ipc_setup masters t) = length t.
Proof.
  induction masters as [|[c ipcs] masters IH]; simpl; [apply length_fmap|].
  by rewrite length_add_masters.
Qed.

(** The masters of a shared memory are the masters of the VMs that use it. *)
Lemma ipc_setup_spec masters t k d :
  0 <= d -> Forall (fun e => 0 <= fst e) masters -> (k < length t)%nat ->
  Z.testbit (default 0 (sh_masters <$> ipc_setup masters t !! k)) d =
  existsb (fun e => (d =? fst e) && existsb (fun o => ipc_shmem_id o =? Z.of_nat k) (snd e)) masters.
Proof.
  intros Hd Hm Hk. induction masters as [|[c ipcs] masters IH]; simpl.
  - unfold ipc_reset_masters. rewrite list_lookup_fmap. destruct (t !! k); simpl; apply Z.bits_0.
  - apply Forall_cons in Hm as [Hc Hm]. simpl in Hc.
    rewrite ipc_add_masters_spec, IH, length_setup by done.
    replace (Nat.ltb k (length t)) with true by (symmetry; by apply Nat.ltb_lt).
    rewrite andb_true_r. apply orb_comm.
Qed.
End Ipc.

(** Two VMs on two CPUs that share one memory object. *)
Definition demo_env2 : Env := {|
  plic_cntxt_num := 4; plic_base := 201326592; cpu_num := 2; prio_mask := fun _ => 7;
  firmware := fun _ _ _ => (0, 0); guest_fetch := fun _ => 0; uninit_error := 0; uninit_value := 0 |}.

Definition demo_hyp2 : hyp :=
  mk_hyp {[ 0 := demo_cpu; 1 := mk_cpu 3 (Some (mk_vcpu 0 1 true 0 ∅ 0 0 0 STARTED 0 0)) ∅ [] ]}
    {[ 0 := mk_vm 0 0 1 1 [0] (mk_vplic 2 ∅) [] ∅ [mk_ipc 0 4096 0 [7]];
       1 := mk_vm 1 1 1 2 [1] (mk_vplic 2 ∅) [] ∅ [mk_ipc 0 4096 0 [7]] ]}
    (mk_plic 31 ∅ ∅ ∅ ∅) 126 [mk_shmem 4096 0 false 0 3] ∅ ∅ ∅ [].

#[local] Existing Instance demo_env2.

Lemma ipc_hypercall_correct_witness :
  exists s', ipc_hypercall 0 0 0 0 demo_hyp2 = Ok (0, s') /\ same_rest demo_hyp2 s'.
Proof.
  destruct (ipc_hypercall_correct demo_hyp2 0 demo_vcpu
    (mk_vm 0 0 1 1 [0] (mk_vplic 2 ∅) [] ∅ [mk_ipc 0 4096 0 [7]]) ∅ 0 0 0) as (s' & E & Hr & _).
  - split; [by exists demo_cpu|done].
  - lia.
  - simpl. lia.
  - intros d Hd. simpl in Hd. assert (d = 0 \/ d = 1) as [-> | ->] by lia; eexists; reflexivity.
  - exists s'. split; [exact E|exact Hr].
Defined.
