(* ===== verification/Interrupts.v ===== *)
(** * Interrupt ownership

    The tables of [core/interrupts.c] and the operations of
    [arch/riscv/interrupts.c] that do not dispatch: which interrupts belong to
    the hypervisor and which to a VM, enabling, polling and clearing. *)

From S2P Require Import Prelude Bit Bitmap CpuMsg State Calls Plic Vplic.

Section Interrupts.
Context {Henv : Env}.

Definition SOFT_INT_ID : Z := PLIC_MAX_INTERRUPTS + 1.
Definition TIMR_INT_ID : Z := PLIC_MAX_INTERRUPTS + 2.
Definition MAX_INTERRUPTS : Z := TIMR_INT_ID + 1.
Definition IPI_CPU_MSG : Z := SOFT_INT_ID.

Definition SIE_SSIE : Z := 2.
Definition SIE_STIE : Z := 32.
Definition SIE_SEIE : Z := 512.

Definition interrupts_arch_cpu_enable (c : Z) (en : bool) : M unit :=
  if en then CSRS c CSR_SSTATUS 2 else CSRC c CSR_SSTATUS 2.

Definition interrupts_arch_enable (c int_id : Z) (en : bool) : M unit :=
  if int_id =? SOFT_INT_ID then if en then CSRS c CSR_SIE SIE_SSIE else CSRC c CSR_SIE SIE_SSIE
  else if int_id =? TIMR_INT_ID then if en then CSRS c CSR_SIE SIE_STIE else CSRC c CSR_SIE SIE_STIE
  else
    x ← get_cpu c;
    mod_st (set_plic (fun p => plic_set_enbl p (c_plic_cntxt x) int_id en));;
    mod_st (set_plic (fun p => plic_set_prio p int_id 254)).
Definition interrupts_cpu_enable (c int_id : Z) (en : bool) : M unit := interrupts_arch_enable c int_id en.

Definition interrupts_arch_check (c int_id : Z) : M bool :=
  if int_id =? SOFT_INT_ID then v ← CSRR c CSR_SIP; mret (negb (Z.land v SIE_SSIE =? 0))
  else if int_id =? TIMR_INT_ID then v ← CSRR c CSR_SIP; mret (negb (Z.land v SIE_STIE =? 0))
  else p ← gets hy_plic; mret (plic_get_pend p int_id).
Definition interrupts_check (c int_id : Z) : M bool := interrupts_arch_check c int_id.

Definition interrupts_arch_clear (c int_id : Z) : M unit :=
  if int_id =? SOFT_INT_ID then CSRC c CSR_SIP SIE_SSIE
  else log (Warn "trying to clear timer or external interrupt").
Definition interrupts_clear (c int_id : Z) : M unit := interrupts_arch_clear c int_id.

Definition interrupts_arch_conflict (bitmap : mem) (int_id : Z) : bool :=
  negb (bitmap_get bitmap 0 int_id =? 0).

Definition interrupt_is_reserved (bitmap : mem) (int_id : Z) : bool :=
  negb (bitmap_get bitmap 0 int_id =? 0).

Definition vm_has_interrupt (x : vm) (int_id : Z) : bool :=
  negb (bitmap_get (vm_interrupts x) 0 int_id =? 0).

(** [interrupts_arch_vm_assign] and the update of [vm->interrupt_bitmap]. *)
Definition assign_interrupt (id : Z) (x : vm) : vm :=
  mk_vm (vm_id x) (vm_master x) (vm_cpu_num x) (vm_cpus x) (vm_vcpu_list x)
    (mk_vplic (vp_cntxt_num (vm_vplic x)) (vplic_set_hw (vp_mem (vm_vplic x)) (s32 id)))
    (vm_emul_list x) (bitmap_set (vm_interrupts x) 0 id) (vm_ipcs x).

Definition interrupts_vm_assign (i id : Z) : M unit :=
  s ← get_st;
  if interrupts_arch_conflict (hy_glb_int s) id then ERROR "Interrupts conflict"
  else
    x ← get_vm i;
    put_vm i (assign_interrupt id x);;
    mod_st (set_ints (hy_hyp_int s) (bitmap_set (hy_glb_int s) 0 id) (hy_handlers s)).

Definition interrupts_reserve (int_id : Z) (h : irq_handler) : M unit :=
  if int_id <? MAX_INTERRUPTS then
    mod_st (fun s => set_ints (bitmap_set (hy_hyp_int s) 0 int_id) (bitmap_set (hy_glb_int s) 0 int_id)
                       (<[int_id := h]> (hy_handlers s)) s)
  else mret tt.

(** [interrupts_arch_init], without the mapping of the controller's registers,
    and [interrupts_init]; the barrier between master and the others is the
    one of [Locks.Barrier]. *)
Definition interrupts_arch_init (c : Z) (master : bool) : M unit :=
  (if master then mod_st (set_plic plic_init) else mret tt);;
  plic_cpu_init c;;
  CSRS c CSR_SIE SIE_SEIE.

Definition interrupts_init (c : Z) (master : bool) : M unit :=
  interrupts_arch_init c master;;
  (if master then interrupts_reserve IPI_CPU_MSG CPU_MSG_HANDLER else mret tt);;
  interrupts_cpu_enable c IPI_CPU_MSG true.

(** ** Ownership

    [owns s id o]: interrupt [id] belongs to VM [o], or to the hypervisor
    ([None]). *)
Definition owns (s : hyp) (id : Z) (o : option Z) : Prop :=
  match o with
  | None => bit_at (hy_hyp_int s) 0 id = true
  | Some i => exists x, hy_vms s !! i = Some x /\ bit_at (vm_interrupts x) 0 id = true
  end.

Record exclusive (s : hyp) : Prop := {
  ex_global : forall id o, owns s id o -> bit_at (hy_glb_int s) 0 id = true;
  ex_unique : forall id o o', owns s id o -> owns s id o' -> o = o';
  ex_handler : forall id, 0 <= id -> owns s id None -> is_Some (hy_handlers s !! id)
}.

Lemma conflict_bit m id : interrupts_arch_conflict m id = bit_at m 0 id.
Proof. unfold interrupts_arch_conflict. rewrite bitmap_get_spec. by destruct (bit_at m 0 id). Qed.

Lemma reserve_exclusive s id h s' :
  exclusive s -> bit_at (hy_glb_int s) 0 id = false -> interrupts_reserve id h s = Ok (tt, s') -> exclusive s'.
Proof.
  intros [Hg Hu Hh] Hf. unfold interrupts_reserve. destruct (id <? MAX_INTERRUPTS); intros [= <-]; [|done].
  assert (forall k o, owns s k o -> k <> id) as Hne by (intros k o Ho ->; apply Hg in Ho; congruence).
  assert (forall k o, owns (set_ints (bitmap_set (hy_hyp_int s) 0 id) (bitmap_set (hy_glb_int s) 0 id)
    (<[id:=h]> (hy_handlers s)) s) k o -> k = id /\ o = None \/ owns s k o) as Hinv.
  { intros k [i|]; simpl; [by right|]. rewrite bit_at_set, orb_true_iff, Z.eqb_eq.
    intros [->|?]; [by left|by right]. }
  split.
  - intros k o [[-> _]|Ho]%Hinv; simpl; rewrite bit_at_set, orb_true_iff, Z.eqb_eq; [by left|right].
    by eapply Hg.
  - intros k o o' [[-> ->]|Ho]%Hinv [[? ->]|Ho']%Hinv; [done| | |by eapply Hu]; subst;
      exfalso; by eapply Hne.
  - intros k Hk Ho. simpl. destruct (decide (k = id)) as [->|].
    + rewrite lookup_insert_eq. eauto.
    + rewrite lookup_insert_ne by done. apply Hh; [done|].
      destruct (Hinv k None Ho) as [[? _]|?]; done.
Qed.

Lemma assign_exclusive s i id s' :
  exclusive s -> interrupts_vm_assign i id s = Ok (tt, s') -> exclusive s' /\ owns s' id (Some i).
Proof.
  intros [Hg Hu Hh] H. unfold interrupts_vm_assign in H. rewrite (bind_eq get_st _ s s s eq_refl) in H.
  rewrite conflict_bit in H. destruct (bit_at (hy_glb_int s) 0 id) eqn:Hf; [done|].
  apply bind_ok in H as (x & s1 & [-> Hx]%get_vm_ok & H). injection H as <-.
  assert (forall k o, owns s k o -> k <> id) as Hne by (intros k o Ho ->; apply Hg in Ho; congruence).
  set (s' := set_ints _ _ _ _).
  assert (forall k o, owns s' k o -> k = id /\ o = Some i \/ owns s k o) as Hinv.
  { intros k [j|]; simpl; [|by right]. intros (y & Hy & Hb). destruct (decide (j = i)) as [->|].
    - rewrite lookup_insert_eq in Hy. injection Hy as <-. simpl in Hb.
      rewrite bit_at_set, orb_true_iff, Z.eqb_eq in Hb. destruct Hb as [->|?]; [by left|right; eauto].
    - rewrite lookup_insert_ne in Hy by done. right. eauto. }
  split; [split|].
  - intros k o [[-> _]|Ho]%Hinv; simpl; rewrite bit_at_set, orb_true_iff, Z.eqb_eq; [by left|right].
    by eapply Hg.
  - intros k o o' [[-> ->]|Ho]%Hinv [[? ->]|Ho']%Hinv; [done| | |by eapply Hu]; subst;
      exfalso; by eapply Hne.
  - intros k Hk Ho. apply Hh; [done|]. destruct (Hinv k None Ho) as [[_ ?]|?]; done.
  - simpl. eexists. rewrite lookup_insert_eq. split; [done|]. simpl. by rewrite bit_at_set, Z.eqb_refl.
Qed.

Lemma assign_ok s i id x :
  hy_vms s !! i = Some x -> bit_at (hy_glb_int s) 0 id = false ->
  exists s1, interrupts_vm_assign i id s = Ok (tt, s1) /\
    hy_glb_int s1 = bitmap_set (hy_glb_int s) 0 id.
Proof.
  intros Hx Hf. unfold interrupts_vm_assign. mrun (eq_refl : get_st s = Ok (s, s)).
  rewrite conflict_bit, Hf. mrun (get_vm_eq i s x Hx). by eexists.
Qed.

Lemma assign_conflict s i id :
  bit_at (hy_glb_int s) 0 id = true ->
  interrupts_vm_assign i id s = Fault (Panic "Interrupts conflict").
Proof.
  intros Hf. unfold interrupts_vm_assign. mrun (eq_refl : get_st s = Ok (s, s)).
  by rewrite conflict_bit, Hf.
Qed.

(** The boot sequence: reservations of distinct interrupts by the hypervisor,
    then assignments to VMs. *)
Inductive int_op := Reserve (id : Z) (h : irq_handler) | Assign (vm id : Z).

Definition int_step (op : int_op) : M unit :=
  match op with Reserve id h => interrupts_reserve id h | Assign i id => interrupts_vm_assign i id end.

Fixpoint int_run (ops : list int_op) : M unit :=
  match ops with [] => mret tt | op :: rest => int_step op;; int_run rest end.

Definition op_id (op : int_op) : Z := match op with Reserve id _ => id | Assign _ id => id end.
Definition is_reserve (op : int_op) : bool := match op with Reserve _ _ => true | _ => false end.

(** A reservation never meets an interrupt that is already taken. *)
Fixpoint reserves_first (seen : list Z) (ops : list int_op) : Prop :=
  match ops with
  | [] => True
  | op :: rest => (is_reserve op = true -> op_id op ∉ seen) /\ reserves_first (op_id op :: seen) rest
  end.

Lemma glb_step s op s' :
  int_step op s = Ok (tt, s') ->
  forall k, bit_at (hy_glb_int s') 0 k = true -> k = op_id op \/ bit_at (hy_glb_int s) 0 k = true.
Proof.
  destruct op as [id h|i id]; simpl.
  - unfold interrupts_reserve. destruct (id <? MAX_INTERRUPTS); intros [= <-] k; simpl; [|by right].
    rewrite bit_at_set, orb_true_iff, Z.eqb_eq. done.
  - unfold interrupts_vm_assign. rewrite (bind_eq get_st _ s s s eq_refl).
    destruct (interrupts_arch_conflict _ _); [done|].
    intros (x & s1 & [-> Hx]%get_vm_ok & H)%bind_ok. injection H as <-. simpl. intros k.
    rewrite bit_at_set, orb_true_iff, Z.eqb_eq. done.
Qed.

Lemma int_run_exclusive ops seen s s' :
  exclusive s -> reserves_first seen ops -> (forall k, bit_at (hy_glb_int s) 0 k = true -> k ∈ seen) ->
  int_run ops s = Ok (tt, s') -> exclusive s'.
Proof.
  revert seen s. induction ops as [|op ops IH]; intros seen s He Hr Hs; simpl.
  { by intros [= <-]. }
  intros (u & s1 & E & H)%bind_ok. destruct u, Hr as [Hop Hr].
  apply (IH (op_id op :: seen) s1); [|done| |done].
  - destruct op as [id h|i id]; simpl in *.
    + eapply reserve_exclusive; [done| |done]. destruct (bit_at (hy_glb_int s) 0 id) eqn:Eb; [|done].
      destruct (Hop eq_refl). by apply Hs.
    + by eapply assign_exclusive.
  - intros k Hk. destruct (glb_step s op s1 E k Hk) as [->|Hk']; [set_solver|]. specialize (Hs k Hk'). set_solver.
Qed.

Lemma int_run_app ops ops' s s1 : int_run ops s = Ok (tt, s1) -> int_run (ops ++ ops') s = int_run ops' s1.
Proof.
  revert s. induction ops as [|op ops IH]; intros s; [by intros [= ->]|]. simpl.
  intros ([] & s2 & E1 & H)%bind_ok. mrun E1. by apply IH.
Qed.

(** C40. Interrupts have one owner, provided no reservation of the hypervisor comes after
    another reservation or an assignment of the same interrupt ([interrupts_reserve] does
    not look whether it is taken): in every state that such a sequence of reservations
    and assignments reaches from the one without owners, no interrupt belongs to two VMs
    or to a VM and the hypervisor, and every interrupt of the hypervisor has a handler;
    an assignment of an interrupt that has an owner then stops the boot with a panic,
    whatever would follow it. *)
Theorem interrupt_ownership ops s s' :
  hy_hyp_int s = ∅ -> (forall i x, hy_vms s !! i = Some x -> vm_interrupts x = ∅) -> hy_glb_int s = ∅ ->
  reserves_first [] ops -> int_run ops s = Ok (tt, s') ->
  exclusive s' /\
  (forall i id o rest, owns s' id o ->
     int_run (ops ++ Assign i id :: rest) s = Fault (Panic "Interrupts conflict")).
Proof.
  intros Hh Hv Hg Hr Hrun.
  assert (forall id, bit_at ∅ 0 id = false) as H0.
  { intros id. rewrite bit_at_unfold, ld_empty. apply Z.bits_0. }
  assert (exclusive s') as He.
  { apply (int_run_exclusive ops [] s); [|done| |done].
    - assert (forall id o, ~ owns s id o) as Hno.
      { intros id [i|]; simpl; [intros (x & Hx & Hb); rewrite (Hv i x Hx), H0 in Hb; done|].
        rewrite Hh, H0. done. }
      split; [intros id o Ho|intros id o o' Ho|intros id _ Ho]; by destruct (Hno _ _ Ho).
    - intros k Hk. rewrite Hg, H0 in Hk. done. }
  split; [done|]. intros i id o rest Ho. rewrite (int_run_app _ _ _ _ Hrun). simpl.
  apply bind_fault, assign_conflict. by apply (ex_global _ He id o).
Qed.
End Interrupts.

#[local] Existing Instance demo_env.

Lemma interrupt_ownership_witness :
  let ops := [Reserve IPI_CPU_MSG CPU_MSG_HANDLER; Reserve TIMR_INT_ID SBI_TIMER_IRQ_HANDLER; Assign 0 5] in
  (exists s', int_run ops (demo_hyp ∅) = Ok (tt, s') /\ exclusive s') /\
  int_run (ops ++ [Assign 0 5]) (demo_hyp ∅) = Fault (Panic "Interrupts conflict").
Proof.
  intros ops. destruct (int_run ops (demo_hyp ∅)) as [[[] s']|] eqn:E; [|vm_compute in E; discriminate E].
  destruct (interrupt_ownership ops (demo_hyp ∅) s') as [He Hc]; [reflexivity| |reflexivity| |exact E|].
  - simpl. intros i x [<- <-]%lookup_singleton_Some. reflexivity.
  - simpl. unfold IPI_CPU_MSG, SOFT_INT_ID, TIMR_INT_ID, PLIC_MAX_INTERRUPTS.
    repeat split; intros; set_solver by lia.
  - split; [exists s'; split; [reflexivity|exact He]|]. apply (Hc 0 5 (Some 0) []).
    vm_compute in E. injection E as <-. eexists. by split.
Defined.

(** A reservation after an assignment succeeds, and the interrupt has two owners. *)
Theorem late_reserve_two_owners :
  exists s', int_run [Assign 0 5; Reserve 5 CPU_MSG_HANDLER] (demo_hyp ∅) = Ok (tt, s') /\
    owns s' 5 (Some 0) /\ owns s' 5 None.
Proof.
  destruct (int_run [Assign 0 5; Reserve 5 CPU_MSG_HANDLER] (demo_hyp ∅)) as [[[] s']|] eqn:E;
    [|vm_compute in E; discriminate E].
  exists s'. split; [reflexivity|]. vm_compute in E. injection E as <-. split; [|by vm_compute]. eexists. by split.
Qed.

