(* ===== verification/Sbi.v ===== *)
(** * The SBI interface offered to guests

    [arch/riscv/sbi.c]: the handlers of the environment calls of a guest, and
    of the messages they send to other CPUs. A result is the pair (error,
    value) of [struct sbiret]; fields the code leaves uninitialised are
    [uninit_error] and [uninit_value]. *)

From S2P Require Import Prelude Bit Bitmap PagePool CpuMsg State Calls Plic Vplic Ipc Interrupts.

Section Sbi.
Context {Henv : Env}.

Definition SBI_SUCCESS : Z := 0.
Definition SBI_ERR_FAILURE : Z := -1.
Definition SBI_ERR_NOT_SUPPORTED : Z := -2.
Definition SBI_ERR_INVALID_PARAM : Z := -3.
Definition SBI_ERR_ALREADY_AVAILABLE : Z := -6.
Definition HC_IPC : Z := 1.
Definition HC_E_INVAL_ID : Z := 2.

Definition HIP_VSSIP : Z := 4.
Definition HIP_VSTIP : Z := 64.

Definition ext_table : list Z :=
  [0; 4; 5; 6; 7; SBI_EXTID_BASE; SBI_EXTID_TIME; SBI_EXTID_IPI; SBI_EXTID_RFNC; SBI_EXTID_HSM].

Definition SEND_IPI : Z := 0.
Definition HART_START : Z := 1.

Definition set_hsm (st : hsm_state) (v : vcpu) : vcpu :=
  mk_vcpu (vc_id v) (vc_vm v) (vc_active v) (vc_hart_id v) (vc_regs v) (vc_hstatus v) (vc_sstatus v)
    (vc_sepc v) st (vc_start_addr v) (vc_priv v).

(** ** Messages *)
Definition sbi_msg_handler (c event data : Z) : M unit :=
  if event =? SEND_IPI then CSRS c CSR_HVIP HIP_VSSIP
  else if event =? HART_START then
    v ← get_vcpu c;
    if decide (vc_state v = START_PENDING) then
      vcpu_arch_reset c (vc_start_addr v);;
      vcpu_writereg c REG_A1 (vc_priv v);;
      w ← get_vcpu c; put_vcpu c (set_hsm STARTED w)
    else mret tt
  else log (Warn "unknown sbi msg").

(** ** Extensions *)
Definition sbi_time_handler (c fid : Z) : M (Z * Z) :=
  if negb (fid =? 0) then mret (SBI_ERR_NOT_SUPPORTED, 0)
  else
    stime_value ← vcpu_readreg c REG_A0;
    sbi_set_timer stime_value;;
    CSRC c CSR_HVIP HIP_VSTIP;; CSRS c CSR_SIE SIE_STIE;;
    mret (SBI_SUCCESS, 0).

Definition sbi_timer_irq_handler (c : Z) : M unit :=
  CSRS c CSR_HVIP HIP_VSTIP;; CSRC c CSR_SIE SIE_STIE.

Fixpoint ipi_loop (x : vm) (hart_mask base : Z) (i : Z) (k : nat) : M unit :=
  match k with
  | O => mret tt
  | S k' =>
      (if negb (bitmap_get (word_bitmap hart_mask) 0 i =? 0) then
         let phart_id := vm_translate_to_pcpuid x (u64 (base + i)) in
         if 0 <=? phart_id then send_msg phart_id (mk_msg SBI_MSG_ID SEND_IPI 0) else mret tt
       else mret tt);;
      ipi_loop x hart_mask base (i + 1) k'
  end.

Definition sbi_ipi_handler (c fid : Z) : M (Z * Z) :=
  if negb (fid =? 0) then mret (SBI_ERR_NOT_SUPPORTED, 0)
  else
    hart_mask ← vcpu_readreg c REG_A0;
    base ← vcpu_readreg c REG_A1;
    x ← cur_vm c;
    ipi_loop x hart_mask base 0 64;;
    mret (SBI_SUCCESS, 0).

Definition sbi_base_handler (c fid : Z) : M (Z * Z) :=
  extid ← vcpu_readreg c REG_A0;
  if fid =? 0 then mret (SBI_SUCCESS, 2)
  else if fid =? 3 then mret (SBI_SUCCESS, if existsb (Z.eqb extid) ext_table then extid else 0)
  else mret (SBI_SUCCESS, 0).

Definition sbi_rfence_handler (c fid : Z) : M (Z * Z) :=
  hart_mask ← vcpu_readreg c REG_A0;
  base ← vcpu_readreg c REG_A1;
  start_addr ← vcpu_readreg c REG_A2;
  size ← vcpu_readreg c REG_A3;
  asid ← vcpu_readreg c REG_A4;
  if negb (base =? 0) &&
     ((64 <=? base) || (0 <? bitmap_find_nth (word_bitmap hart_mask) 0 64 1 (64 - base) true))
  then log (Warn "sbi invalid hart_mask");; mret (SBI_ERR_INVALID_PARAM, 0)
  else
    x ← cur_vm c;
    let phart_mask := vm_translate_to_pcpu_mask x (Z.shiftr hart_mask base) 64 in
    if fid =? 0 then sbi_remote_fence_i phart_mask 0
    else if fid =? 1 then sbi_remote_hfence_vvma phart_mask 0 start_addr size
    else if fid =? 2 then sbi_remote_hfence_vvma_asid phart_mask 0 start_addr size asid
    else mret (SBI_ERR_NOT_SUPPORTED, uninit_value).

Definition start_pending (start_addr priv : Z) (v : vcpu) : vcpu :=
  mk_vcpu (vc_id v) (vc_vm v) (vc_active v) (vc_hart_id v) (vc_regs v) (vc_hstatus v) (vc_sstatus v)
    (vc_sepc v) START_PENDING start_addr priv.

Definition sbi_hsm_start_handler (c : Z) : M (Z * Z) :=
  vhart_id ← vcpu_readreg c REG_A0;
  v ← get_vcpu c;
  if vhart_id =? vc_id v then mret (SBI_ERR_ALREADY_AVAILABLE, uninit_value)
  else
    o ← vm_get_vcpu (vc_vm v) vhart_id;
    match o with
    | None => mret (SBI_ERR_INVALID_PARAM, uninit_value)
    | Some (p, w) =>
        match vc_state w with
        | STARTED => mret (SBI_ERR_ALREADY_AVAILABLE, uninit_value)
        | STOPPED =>
            start_addr ← vcpu_readreg c REG_A1;
            priv ← vcpu_readreg c REG_A2;
            put_vcpu p (start_pending start_addr priv w);;
            send_msg p (mk_msg SBI_MSG_ID HART_START 3735928559);;
            mret (SBI_SUCCESS, uninit_value)
        | START_PENDING | STOP_PENDING => mret (SBI_ERR_FAILURE, uninit_value)
        end
    end.

Definition sbi_hsm_status_handler (c : Z) : M (Z * Z) :=
  vhart_id ← vcpu_readreg c REG_A0;
  v ← get_vcpu c;
  o ← vm_get_vcpu (vc_vm v) vhart_id;
  match o with
  | Some (_, w) => mret (SBI_SUCCESS, hsm_code (vc_state w))
  | None => mret (SBI_ERR_INVALID_PARAM, uninit_value)
  end.

Definition sbi_hsm_handler (c fid : Z) : M (Z * Z) :=
  if fid =? 0 then sbi_hsm_start_handler c
  else if fid =? 2 then sbi_hsm_status_handler c
  else mret (SBI_ERR_NOT_SUPPORTED, uninit_value).

Definition sbi_bao_handler (c fid : Z) : M (Z * Z) :=
  arg0 ← vcpu_readreg c REG_A0;
  arg1 ← vcpu_readreg c REG_A1;
  arg2 ← vcpu_readreg c REG_A2;
  if fid =? HC_IPC then e ← ipc_hypercall c arg0 arg1 arg2; mret (e, uninit_value)
  else mret (- HC_E_INVAL_ID, uninit_value).

(** ** Legacy calls *)
Definition sbi_lgcy_putchar_handler (c : Z) : M unit :=
  v ← vcpu_readreg c REG_A0; sbi_console_putchar (u8 v);; mret tt.

Definition sbi_lgcy_getchar_handler (c : Z) : M unit :=
  '(e, v) ← sbi_console_getchar;
  vcpu_writereg c REG_A0 (u64 e);; vcpu_writereg c REG_A1 (u64 v).

(** The handlers of the legacy IPI and fence calls are empty. *)
Definition sbi_lgcy_handler (c extid : Z) : M unit :=
  if extid =? 0 then sbi_time_handler c 0;; mret tt
  else if extid =? 4 then mret tt
  else if (5 <=? extid) && (extid <=? 7) then mret tt
  else if extid =? 1 then sbi_lgcy_putchar_handler c
  else if extid =? 2 then sbi_lgcy_getchar_handler c
  else log (Warn "guest issued unsupported sbi legacy extension call").

(** ** The environment call of a guest *)
Definition sbi_ext_handler (c extid fid : Z) : M (Z * Z) :=
  if extid =? SBI_EXTID_BASE then sbi_base_handler c fid
  else if extid =? SBI_EXTID_TIME then sbi_time_handler c fid
  else if extid =? SBI_EXTID_IPI then sbi_ipi_handler c fid
  else if extid =? SBI_EXTID_RFNC then sbi_rfence_handler c fid
  else if extid =? SBI_EXTID_HSM then sbi_hsm_handler c fid
  else if extid =? SBI_EXTID_BAO then sbi_bao_handler c fid
  else log (Warn "guest issued unsupport sbi extension call");;
       mret (uninit_error, SBI_ERR_NOT_SUPPORTED).

Definition sbi_vs_handler (c : Z) : M Z :=
  extid ← vcpu_readreg c REG_A7;
  (if extid <? 16 then sbi_lgcy_handler c extid
   else
     fid ← vcpu_readreg c REG_A6;
     '(e, v) ← sbi_ext_handler c extid fid;
     vcpu_writereg c REG_A0 (u64 e);; vcpu_writereg c REG_A1 (u64 v));;
  mret 4.

(** ** Start-up *)
Fixpoint probe_all (l : list Z) : M unit :=
  match l with
  | [] => mret tt
  | e :: rest =>
      '(err, v) ← sbi_probe_extension e;
      if negb (err =? SBI_SUCCESS) || (v =? 0) then ERROR "sbi does not support ext" else probe_all rest
  end.

Definition sbi_init : M unit :=
  '(err, v) ← sbi_get_spec_version;
  if negb (err =? SBI_SUCCESS) || (v <? 2) then ERROR "not supported SBI spec version"
  else probe_all ext_table;; interrupts_reserve TIMR_INT_ID SBI_TIMER_IRQ_HANDLER.

Lemma find_vcpu_in cpus n l p w :
  find_vcpu cpus n l = Some (p, w) -> p ∈ l /\ exists y, cpus !! p = Some y /\ c_vcpu y = Some w /\ vc_id w = n.
Proof.
  induction l as [|q l IH]; simpl; [done|]. destruct (cpus !! q) as [y|] eqn:Ey; simpl.
  - destruct (c_vcpu y) as [v|] eqn:Ev; [|intros [? ?]%IH; set_solver].
    destruct (Z.eqb_spec (vc_id v) n); [|intros [? ?]%IH; set_solver].
    intros [= <- <-]. split; [set_solver|]. eauto.
  - intros [? ?]%IH. set_solver.
Qed.

(** The virtual CPU after its start message. *)
Definition started (w : vcpu) : vcpu :=
  set_hsm STARTED (writereg (reset_vcpu w (vc_start_addr w)) REG_A1 (vc_priv w)).

Lemma hart_start_msg s p w :
  has_vcpu s p w -> vc_state w = START_PENDING ->
  exists s', sbi_msg_handler p HART_START 3735928559 s = Ok (tt, s') /\ has_vcpu s' p (started w).
Proof.
  intros H Hs. unfold sbi_msg_handler. simpl. mrun (has_get s p w H). rewrite decide_True by done.
  destruct (has_reset s p w (vc_start_addr w) H) as (s1 & E1 & H1). mrun E1.
  set (w1 := reset_vcpu _ _) in *.
  assert (exists s2, vcpu_writereg p REG_A1 (vc_priv w) s1 = Ok (tt, s2) /\
    has_vcpu s2 p (writereg w1 REG_A1 (vc_priv w))) as (s2 & E2 & H2).
  { unfold vcpu_writereg. mrun (has_get s1 p w1 H1).
    destruct (has_put s1 p w1 (writereg w1 REG_A1 (vc_priv w)) H1) as (s2 & ? & ? & _). by exists s2. }
  mrun E2. mrun (has_get s2 p _ H2).
  destruct (has_put s2 p _ (started w) H2) as (s3 & E3 & H3 & _). exists s3. split; [|done]. exact E3.
Qed.

(** ** Properties *)

(** Starting a virtual CPU. If the target is another virtual CPU of the VM
    in state STOPPED, the call succeeds, and when the target CPU has handled the
    message it was sent, the target runs: state STARTED, program counter and
    argument as requested, [a0] its hart number. In any other state nothing
    changes and the call reports why. *)
Theorem sbi_hart_start_correct s c i x v y p w yp :
  hy_cpus s !! c = Some y -> c_vcpu y = Some v -> vc_vm v = i -> hy_vms s !! i = Some x ->
  readreg v REG_A0 <> vc_id v ->
  find_vcpu (hy_cpus s) (readreg v REG_A0) (vm_vcpu_list x) = Some (p, w) ->
  hy_cpus s !! p = Some yp -> hy_left s <> 0 -> 0 <= vc_id w < 2 ^ 32 ->
  match vc_state w with
  | STOPPED =>
      exists s1 s2 w', sbi_hsm_start_handler c s = Ok ((SBI_SUCCESS, uninit_value), s1) /\
        (c_events <$> hy_cpus s1 !! p) = Some (c_events yp ++ [mk_msg SBI_MSG_ID HART_START 3735928559]) /\
        sbi_msg_handler p HART_START 3735928559 s1 = Ok (tt, s2) /\
        get_vcpu p s2 = Ok (w', s2) /\
        vc_state w' = STARTED /\ vc_sepc w' = readreg v REG_A1 /\ readreg w' REG_A1 = readreg v REG_A2 /\
        readreg w' REG_A0 = vc_id w
  | STARTED => sbi_hsm_start_handler c s = Ok ((SBI_ERR_ALREADY_AVAILABLE, uninit_value), s)
  | _ => sbi_hsm_start_handler c s = Ok ((SBI_ERR_FAILURE, uninit_value), s)
  end.
Proof.
  intros Hy Hv Hi Hx Hne Hf Hyp Hl Hid.
  assert (has_vcpu s c v) as Hhas by (by exists y).
  pose proof (find_vcpu_in _ _ _ _ _ Hf) as (_ & yp' & Hyp' & Hw & Hwid).
  assert (yp' = yp) as -> by congruence.
  assert (has_vcpu s p w) as Hhasw by (by exists yp).
  assert (vm_get_vcpu i (readreg v REG_A0) s = Ok (Some (p, w), s)) as Hget.
  { unfold vm_get_vcpu. mrun (get_vm_eq i s x Hx). mrun (eq_refl : gets hy_cpus s = Ok (hy_cpus s, s)).
    by rewrite Hf. }
  unfold sbi_hsm_start_handler. mrun (has_readreg s c v REG_A0 Hhas). mrun (has_get s c v Hhas).
  replace (readreg v REG_A0 =? vc_id v) with false by lia. rewrite Hi. mrun Hget.
  destruct (vc_state w) eqn:Es; try done.
  mrun (has_readreg s c v REG_A1 Hhas). mrun (has_readreg s c v REG_A2 Hhas).
  set (w1 := start_pending _ _ w).
  destruct (has_put s p w w1 Hhasw) as (s0 & E0 & (y0 & Hy0 & Hw0) & _ & Hl0 & _ & Hev). mrun E0.
  destruct (send_msg_spec s0 p (mk_msg SBI_MSG_ID HART_START 3735928559) y0 ltac:(lia) Hy0)
    as (s1 & E1 & Hc1 & _ & _). mrun E1.
  assert (has_vcpu s1 p w1) as H1.
  { exists (add_event (mk_msg SBI_MSG_ID HART_START 3735928559) y0). by rewrite Hc1, lookup_insert_eq. }
  destruct (hart_start_msg s1 p w1 H1 eq_refl) as (s2 & E2 & H2).
  exists s1, s2, (started w1). split_and!; try done.
  - rewrite Hc1, lookup_insert_eq. simpl. rewrite Hy0, Hyp in Hev. simpl in Hev. by injection Hev as ->.
  - by apply has_get.
  - unfold started, readreg. simpl. rewrite ld_st_ne, ld_st_eq by done. apply wrap_small. lia.
Qed.

Lemma translate_mask_0 v : 0 <= vm_cpus v < 2 ^ 64 -> vm_translate_to_pcpu_mask v 0 64 = 0.
Proof.
  intros Hw. apply Z.bits_inj'. intros b Hb.
  destruct (Z.testbit (vm_translate_to_pcpu_mask v 0 64) b) eqn:E; [|by rewrite Z.bits_0].
  unfold vm_translate_to_pcpu_mask in E. rewrite translate_mask_spec in E by lia.
  destruct E as [E|(j & _ & E & _)]; by rewrite Z.bits_0 in E.
Qed.

(** Remote fences. With [hart_mask_base] 0 the firmware is asked to fence
    exactly the physical CPUs of the harts the guest named. With a base [b]
    from 1 to 32 the mask is shifted the wrong way: a request for harts
    [b .. 2b - 1], whose mask is below [2^b], is accepted but asks the firmware
    to fence no hart at all. *)
Theorem sbi_rfence_mask s c i x v :
  has_vcpu s c v -> vc_vm v = i -> hy_vms s !! i = Some x -> 0 <= vm_cpus x < 2 ^ 64 ->
  let mask := readreg v REG_A0 in
  let b := readreg v REG_A1 in
  let fence pmask := Ecall SBI_EXTID_RFNC 0 [pmask; 0; 0; 0; 0; 0] in
  (b = 0 -> exists r s' pmask, sbi_rfence_handler c 0 s = Ok (r, s') /\
     hy_trace s' = hy_trace s ++ [fence pmask] /\
     forall p, 0 <= p < 64 -> Z.testbit pmask p =
       Z.testbit (vm_cpus x) p && Z.testbit mask (rank (vm_cpus x) p)) /\
  (1 <= b <= 32 -> 0 <= mask < 2 ^ b -> exists r s', sbi_rfence_handler c 0 s = Ok (r, s') /\
     hy_trace s' = hy_trace s ++ [fence 0]).
Proof.
  intros Hv Hi Hx Hw mask b fence. unfold sbi_rfence_handler.
  assert (cur_vm c s = Ok (x, s)) as Hcur.
  { unfold cur_vm. mrun (has_get s c v Hv). rewrite Hi. by apply get_vm_eq. }
  mrun (has_readreg s c v REG_A0 Hv). mrun (has_readreg s c v REG_A1 Hv).
  mrun (has_readreg s c v REG_A2 Hv). mrun (has_readreg s c v REG_A3 Hv).
  mrun (has_readreg s c v REG_A4 Hv). fold mask b. split.
  - intros ->. rewrite Z.eqb_refl. cbn [negb andb]. mrun Hcur. rewrite Z.shiftr_0_r.
    do 3 eexists. split; [done|]. split; [done|]. intros p Hp.
    pose proof (translated_mask_in_vm x mask p Hw ltac:(lia)) as H.
    destruct (Z.testbit (vm_translate_to_pcpu_mask x mask 64) p) eqn:E;
      destruct (Z.testbit (vm_cpus x) p) eqn:E1, (Z.testbit mask (rank (vm_cpus x) p)) eqn:E2; simpl; try done;
      naive_solver.
  - intros Hb Hm. replace (b =? 0) with false by lia. replace (64 <=? b) with false by lia.
    cbn [negb andb orb].
    assert (bitmap_find_nth (word_bitmap mask) 0 64 1 (64 - b) true = -1) as ->.
    { destruct (bitmap_find_nth_spec (word_bitmap mask) 0 64 1 (64 - b) true) as [[? _]|(Hr & Hbit & _)];
        [lia|lia|done|]. exfalso. set (r := bitmap_find_nth _ _ _ _ _ _) in *. unfold has_bit in Hbit.
      rewrite word_bitmap_bit in Hbit by (split; [lia|]; apply (Z.lt_le_trans _ (2 ^ b)); [lia|];
        apply Z.pow_le_mono_r; lia) || lia.
      assert (Z.testbit mask r = false) as E; [|by rewrite E in Hbit].
      destruct (Z.eq_dec mask 0) as [->|]; [apply Z.bits_0|].
      apply Z.bits_above_log2; [lia|]. apply Z.log2_lt_pow2; [lia|].
      apply (Z.lt_le_trans _ (2 ^ b)); [lia|]. apply Z.pow_le_mono_r; lia. }
    change (0 <? -1) with false. cbn [andb]. mrun Hcur. rewrite Z.eqb_refl, Z.shiftr_div_pow2, Z.div_small, translate_mask_0 by lia.
    by do 2 eexists.
Qed.

(** A call to an extension the hypervisor does not know (number 16 and
    above) writes [SBI_ERR_NOT_SUPPORTED] to the value register, and returns in
    the error register whatever the uninitialised local held: content of the
    hypervisor's stack reaches the guest, and 0 would read as success. *)
Theorem sbi_unknown_extension s c v :
  has_vcpu s c v -> 16 <= readreg v REG_A7 ->
  readreg v REG_A7 ∉ [SBI_EXTID_BASE; SBI_EXTID_TIME; SBI_EXTID_IPI; SBI_EXTID_RFNC; SBI_EXTID_HSM;
                      SBI_EXTID_BAO] ->
  exists s' w, sbi_vs_handler c s = Ok (4, s') /\ has_vcpu s' c w /\
    readreg w REG_A0 = u64 uninit_error /\ readreg w REG_A1 = u64 SBI_ERR_NOT_SUPPORTED.
Proof.
  intros Hv Hge Hin. unfold sbi_vs_handler. mrun (has_readreg s c v REG_A7 Hv).
  replace (readreg v REG_A7 <? 16) with false by lia.
  set (e := readreg v REG_A7) in *.
  assert (exists s1, sbi_ext_handler c e (readreg v REG_A6) s = Ok ((uninit_error, SBI_ERR_NOT_SUPPORTED), s1) /\
    has_vcpu s1 c v) as (s1 & E1 & H1).
  { unfold sbi_ext_handler. rewrite !not_elem_of_cons in Hin. destruct Hin as (N1 & N2 & N3 & N4 & N5 & N6 & _).
    do 6 rewrite (proj2 (Z.eqb_neq _ _)) by done. eexists. split; [done|]. exact Hv. }
  assert (forall r val s0 v0, has_vcpu s0 c v0 ->
    exists s1, vcpu_writereg c r val s0 = Ok (tt, s1) /\ has_vcpu s1 c (writereg v0 r val)) as Hwr.
  { intros r val s0 v0 H0. unfold vcpu_writereg. mrun (has_get s0 c v0 H0).
    destruct (has_put s0 c v0 (writereg v0 r val) H0) as (s2 & ? & ? & _). by exists s2. }
  destruct (Hwr REG_A0 (u64 uninit_error) s1 v H1) as (s2 & E2 & H2).
  destruct (Hwr REG_A1 (u64 SBI_ERR_NOT_SUPPORTED) s2 _ H2) as (s3 & E3 & H3).
  exists s3, (writereg (writereg v REG_A0 (u64 uninit_error)) REG_A1 (u64 SBI_ERR_NOT_SUPPORTED)).
  split; [|split; [done|]].
  - rewrite (bind_eq _ _ s tt s3); [done|]. mrun (has_readreg s c v REG_A6 Hv). mrun E1. by mrun E2.
  - unfold readreg, writereg. simpl. by rewrite ld_st_eq, ld_st_ne, ld_st_eq.
Qed.
End Sbi.

#[local] Existing Instance demo_env2.

(** One VM on CPUs 0 and 1; the first virtual CPU asks to start the second. *)
Definition regs_of (l : list (Z * Z)) : mem := foldr (fun '(r, v) m => st m (r - 1) v) ∅ l.
Definition caller (l : list (Z * Z)) : vcpu := mk_vcpu 0 0 true 0 (regs_of l) 0 0 0 STARTED 0 0.
Definition sleeper : vcpu := mk_vcpu 1 0 false 0 ∅ 0 0 0 STOPPED 0 0.
Definition smp_vm : vm := mk_vm 0 0 2 3 [0; 1] (mk_vplic 4 ∅) [] ∅ [].
Definition smp_hyp (l : list (Z * Z)) : hyp :=
  mk_hyp {[ 0 := mk_cpu 1 (Some (caller l)) ∅ []; 1 := mk_cpu 3 (Some sleeper) ∅ [] ]}
    {[ 0 := smp_vm ]} (mk_plic 31 ∅ ∅ ∅ ∅) 126 [] ∅ ∅ ∅ [].

Lemma sbi_hart_start_correct_witness :
  exists s1 s2 w', sbi_hsm_start_handler 0 (smp_hyp [(REG_A0, 1); (REG_A1, 4096); (REG_A2, 7)])
      = Ok ((0, 0), s1) /\
    sbi_msg_handler 1 HART_START 3735928559 s1 = Ok (tt, s2) /\
    get_vcpu 1 s2 = Ok (w', s2) /\ vc_state w' = STARTED /\ vc_sepc w' = 4096.
Proof.
  destruct (sbi_hart_start_correct (smp_hyp [(REG_A0, 1); (REG_A1, 4096); (REG_A2, 7)]) 0 0 smp_vm
    (caller [(REG_A0, 1); (REG_A1, 4096); (REG_A2, 7)])
    (mk_cpu 1 (Some (caller [(REG_A0, 1); (REG_A1, 4096); (REG_A2, 7)])) ∅ [])
    1 sleeper (mk_cpu 3 (Some sleeper) ∅ [])) as (s1 & s2 & w' & E1 & _ & E2 & E3 & E4 & E5 & _);
    try reflexivity; [vm_compute; discriminate|vm_compute; discriminate|simpl; lia|].
  exists s1, s2, w'. split; [exact E1|]. split; [exact E2|]. split; [exact E3|]. split; [exact E4|exact E5].
Defined.

Lemma sbi_rfence_mask_witness :
  exists r s', sbi_rfence_handler 0 0 (smp_hyp [(REG_A0, 1); (REG_A1, 1)]) = Ok (r, s') /\
    hy_trace s' = [] ++ [Ecall SBI_EXTID_RFNC 0 [0; 0; 0; 0; 0; 0]].
Proof.
  apply (sbi_rfence_mask (smp_hyp [(REG_A0, 1); (REG_A1, 1)]) 0 0 smp_vm (caller [(REG_A0, 1); (REG_A1, 1)])).
  - by eexists.
  - reflexivity.
  - reflexivity.
  - simpl. lia.
  - vm_compute. split; discriminate.
  - vm_compute. split; [discriminate|reflexivity].
Defined.
