(* ===== verification/Traps.v ===== *)
(** * Traps

    Interrupt dispatch ([core/interrupts.c], [arch/riscv/interrupts.c],
    [arch/riscv/plic.c], [core/cpu.c]) and synchronous exceptions of guests
    ([arch/riscv/sync_exceptions.c]): the emulation of device accesses and the
    routing of environment calls. *)

From S2P Require Import Prelude Bit Bitmap PagePool CpuMsg State Calls Plic Vplic Ipc Interrupts Sbi.

(** ** Instructions *)
Definition INS_COMPRESSED (ins : Z) : bool := negb (Z.land ins 3 =? 3).
Definition INS_SIZE (ins : Z) : Z := if Z.land ins 3 =? 3 then 4 else 2.
Definition INS_OPCODE (ins : Z) : Z := Z.land ins 127.
Definition INS_FUNCT3 (ins : Z) : Z := Z.land (Z.shiftr ins 12) 7.
Definition INS_RD (ins : Z) : Z := Z.land (Z.shiftr ins 7) 31.
Definition INS_RS2 (ins : Z) : Z := Z.land (Z.shiftr ins 20) 31.
Definition INS_C_OPCODE (ins : Z) : Z := Z.land ins 57347.
Definition INS_C_RD_RS2 (ins : Z) : Z := Z.land (Z.shiftr ins 2) 7.
Definition MATCH_LOAD : Z := 3.
Definition MATCH_STORE : Z := 35.
Definition MATCH_C_LOAD : Z := 16384.
Definition MATCH_C_STORE : Z := 49152.
Definition REGLEN : Z := 8.
Definition TINST_PSEUDO_STORE : Z := 12320.
Definition TINST_PSEUDO_LOAD : Z := 12288.
Definition TINST_INS_SIZE (tinst : Z) : Z := if Z.land tinst 2 =? 0 then 2 else 4.

(** The decoded access, whose address is filled in by the caller; [None] is the
    result [-1]. *)
Definition ins_ldst_decode (ins : Z) : option emul_access :=
  if INS_COMPRESSED ins then
    if negb (INS_C_OPCODE ins =? MATCH_C_LOAD) && negb (INS_C_OPCODE ins =? MATCH_C_STORE) then None
    else Some (mk_acc 0 (INS_C_OPCODE ins =? MATCH_C_STORE) true 4 (INS_C_RD_RS2 ins + 8) REGLEN)
  else
    if negb (INS_OPCODE ins =? MATCH_LOAD) && negb (INS_OPCODE ins =? MATCH_STORE) then None
    else
      let f := Z.land (INS_FUNCT3 ins) 3 in
      let width := if f =? 0 then 1 else if f =? 1 then 2 else if f =? 2 then 4 else 8 in
      let write := INS_OPCODE ins =? MATCH_STORE in
      Some (mk_acc 0 write (Z.land (INS_FUNCT3 ins) 4 =? 0) width
              (if write then INS_RS2 ins else INS_RD ins) REGLEN).

Definition is_pseudo_ins (ins : Z) : bool := (u32 ins =? TINST_PSEUDO_STORE) || (u32 ins =? TINST_PSEUDO_LOAD).

Section Traps.
Context {Henv : Env}.

Definition read_ins (ins_addr : Z) : M Z :=
  if negb (Z.land ins_addr 1 =? 0) then ERROR "trying to read guest unaligned instruction"
  else
    let ins := u32 (guest_fetch ins_addr) in
    mret (if Z.land ins 3 =? 3 then Z.lor ins (u32 (Z.shiftl (u32 (guest_fetch (ins_addr + 2))) 16)) else ins).

(** [vm_emul_get]: the region or register at the address; the kind that was
    asked for is not looked at. *)
Fixpoint vm_emul_get (l : list emul_node) (addr : Z) : option emul_handler :=
  match l with
  | [] => None
  | EMUL_MEM base size h :: rest =>
      if (base <=? addr) && (addr <? base + size) then Some h else vm_emul_get rest addr
  | EMUL_REG a h :: rest => if a =? addr then Some h else vm_emul_get rest addr
  end.
Definition vm_emul_get_mem (x : vm) (addr : Z) : option emul_handler := vm_emul_get (vm_emul_list x) addr.
Definition vm_emul_get_reg (x : vm) (addr : Z) : option emul_handler := vm_emul_get (vm_emul_list x) addr.

Definition run_emul_handler (c : Z) (h : emul_handler) (acc : emul_access) : M bool :=
  match h with
  | VPLIC_GLOBAL => vplic_global_emul_handler c acc
  | VPLIC_HART => vplic_hart_emul_handler c acc
  end.

Definition set_addr (addr : Z) (a : emul_access) : emul_access :=
  mk_acc addr (acc_write a) (acc_sign_ext a) (acc_width a) (acc_reg a) (acc_reg_width a).

(** The instruction that faulted and its size, from [htinst] or from guest
    memory. *)
Definition fault_ins (c : Z) : M (Z * Z) :=
  ins ← CSRR c CSR_HTINST;
  if ins =? 0 then
    ins_addr ← CSRR c CSR_SEPC;
    ins ← read_ins ins_addr; mret (ins, INS_SIZE ins)
  else if is_pseudo_ins ins then ERROR "fault on 1st stage page table walk"
  else mret (Z.lor ins 2, TINST_INS_SIZE ins).

Definition guest_page_fault_handler (c : Z) : M Z :=
  htval ← CSRR c CSR_HTVAL;
  let addr := u64 (Z.shiftl htval 2) in
  x ← cur_vm c;
  match vm_emul_get_mem x addr with
  | Some h =>
      '(ins, ins_size) ← fault_ins c;
      match ins_ldst_decode ins with
      | None => ERROR "cant decode ld/st instruction"
      | Some emul =>
          ok ← run_emul_handler c h (set_addr addr emul);
          if (ok : bool) then mret ins_size else ERROR "emulation handler failed"
      end
  | None => ERROR "no emulation handler for abort"
  end.

Definition SCAUSE_CODE_ECV : Z := 10.
Definition SCAUSE_CODE_LGPF : Z := 21.
Definition SCAUSE_CODE_SGPF : Z := 23.
Definition HSTATUS_SPV : Z := 128.

Definition internal_exception_handler {A} : M A := ERROR "internal hypervisor abort - PANIC".

Definition sync_exception_handler (c : Z) : M unit :=
  scause ← CSRR c CSR_SCAUSE;
  hstatus ← CSRR c CSR_HSTATUS;
  (if Z.land hstatus HSTATUS_SPV =? 0 then internal_exception_handler else mret tt);;
  pc_step ← (if scause =? SCAUSE_CODE_ECV then sbi_vs_handler c
             else if (scause =? SCAUSE_CODE_LGPF) || (scause =? SCAUSE_CODE_SGPF)
             then guest_page_fault_handler c
             else ERROR "unkown synchronous exception");
  pc ← vcpu_readpc c; vcpu_writepc c (u64 (pc + pc_step)).

(** ** Interrupts *)

(** The handlers registered for messages between CPUs. *)
Definition run_msg_handler (c : Z) (msg : cpu_msg) : M unit :=
  if msg_handler msg =? VPLIC_IPI_ID then vplic_ipi_handler c (msg_event msg) (msg_data msg)
  else if msg_handler msg =? SBI_MSG_ID then sbi_msg_handler c (msg_event msg) (msg_data msg)
  else if msg_handler msg =? IPC_CPUSMG_ID then ipc_handler c (msg_event msg) (msg_data msg)
  else mret tt.

Fixpoint msg_loop (fuel : nat) (c : Z) : M unit :=
  match fuel with
  | O => fail Hang
  | S f =>
      o ← get_msg c;
      match o with
      | None => mret tt
      | Some msg => run_msg_handler c msg;; msg_loop f c
      end
  end.

(** No handler sends a message to its own CPU, so the queue only shrinks. *)
Definition msg_handler_hyp (c : Z) : M unit :=
  x ← get_cpu c; msg_loop (S (length (c_events x))) c.

Inductive irq_res := HANDLED_BY_HYP | FORWARD_TO_VM.

Definition run_irq_handler (c : Z) (h : irq_handler) : M unit :=
  match h with
  | CPU_MSG_HANDLER => msg_handler_hyp c
  | SBI_TIMER_IRQ_HANDLER => sbi_timer_irq_handler c
  end.

Definition interrupts_handle (c int_id : Z) : M irq_res :=
  x ← cur_vm c;
  s ← get_st;
  if vm_has_interrupt x int_id then interrupts_vm_inject c int_id;; mret FORWARD_TO_VM
  else if interrupt_is_reserved (hy_hyp_int s) int_id then
    match hy_handlers s !! int_id with
    | Some h => run_irq_handler c h;; mret HANDLED_BY_HYP
    | None => fail NullDeref
    end
  else ERROR "received unknown interrupt id".

(** [id] is the value read from the claim register. *)
Definition plic_handle (c id : Z) : M unit :=
  if negb (id =? 0) then
    r ← interrupts_handle c id;
    match r with
    | HANDLED_BY_HYP => x ← get_cpu c; log (PlicComplete (c_plic_cntxt x) id)
    | FORWARD_TO_VM => mret tt
    end
  else mret tt.

Definition SCAUSE_INT : Z := 2 ^ 63.

Definition interrupts_arch_handle (c claim : Z) : M unit :=
  scause ← CSRR c CSR_SCAUSE;
  if scause =? SCAUSE_INT + 1 then interrupts_handle c SOFT_INT_ID;; CSRC c CSR_SIP SIE_SSIE
  else if scause =? SCAUSE_INT + 5 then interrupts_handle c TIMR_INT_ID;; mret tt
  else if scause =? SCAUSE_INT + 9 then plic_handle c claim
  else mret tt.

Definition cpu_idle_wakeup (c : Z) : M unit :=
  pend ← interrupts_check c IPI_CPU_MSG;
  (if (pend : bool) then interrupts_clear c IPI_CPU_MSG;; msg_handler_hyp c else mret tt);;
  x ← get_cpu c;
  match c_vcpu x with Some _ => vcpu_run c | None => cpu_idle end.

(** ** Decoding *)
Lemma ins_field x a w lo mid hi :
  x = lo + 2 ^ a * mid + 2 ^ (a + w) * hi -> 0 <= a -> 0 <= w -> 0 <= lo < 2 ^ a -> 0 <= mid < 2 ^ w ->
  Z.land (Z.shiftr x a) (Z.ones w) = mid.
Proof.
  intros -> Ha Hw Hlo Hmid. rewrite Z.land_ones, Z.shiftr_div_pow2 by lia.
  rewrite Z.pow_add_r by lia.
  replace (lo + 2 ^ a * mid + 2 ^ a * 2 ^ w * hi) with (lo + (mid + hi * 2 ^ w) * 2 ^ a) by lia.
  rewrite Z.div_add, Z.div_small, Z.add_0_l, Z_mod_plus_full by lia. by apply Z.mod_small.
Qed.

(** The encodings of the RV64 loads and stores. *)
Definition enc_load (f3 rd rs1 imm : Z) : Z := 3 + 2 ^ 7 * rd + 2 ^ 12 * f3 + 2 ^ 15 * rs1 + 2 ^ 20 * imm.
Definition enc_store (f3 rs1 rs2 imm : Z) : Z :=
  35 + 2 ^ 7 * (imm mod 32) + 2 ^ 12 * f3 + 2 ^ 15 * rs1 + 2 ^ 20 * rs2 + 2 ^ 25 * (imm / 32).
(** [c.lw] (funct3 2) and [c.sw] (funct3 6) with the scrambled offset bits [hi]
    (12..10) and [lo] (6..5). *)
Definition enc_c (f3 r rs1 hi lo : Z) : Z := 4 * r + 2 ^ 5 * lo + 2 ^ 7 * rs1 + 2 ^ 10 * hi + 2 ^ 13 * f3.

Lemma full_ins ins k : ins = 3 + 4 * k -> INS_COMPRESSED ins = false /\ INS_SIZE ins = 4.
Proof.
  intros ->. unfold INS_COMPRESSED, INS_SIZE. change 3 with (Z.ones 2) at 2 5.
  rewrite Z.land_ones by lia. rewrite (Z.mul_comm 4). change (2 ^ 2) with 4.
  by rewrite Z_mod_plus_full.
Qed.

Lemma decode_width f3 :
  0 <= f3 < 8 ->
  (if Z.land f3 3 =? 0 then 1 else if Z.land f3 3 =? 1 then 2 else if Z.land f3 3 =? 2 then 4 else 8)
    = 2 ^ (f3 mod 4) /\ (Z.land f3 4 =? 0) = (f3 <? 4).
Proof.
  intros H. assert (f3 ∈ [0; 1; 2; 3; 4; 5; 6; 7]) as Hin by (rewrite !elem_of_cons; lia).
  repeat (apply elem_of_cons in Hin as [->|Hin]; [done|]). by apply elem_of_nil in Hin.
Qed.

Lemma decode_load f3 rd rs1 imm :
  0 <= f3 < 8 -> 0 <= rd < 32 -> 0 <= rs1 < 32 -> 0 <= imm < 4096 ->
  let ins := enc_load f3 rd rs1 imm in
  ins_ldst_decode ins = Some (mk_acc 0 false (f3 <? 4) (2 ^ (f3 mod 4)) rd 8) /\ INS_SIZE ins = 4.
Proof.
  intros Hf Hd Hs Hi ins.
  destruct (full_ins ins (2 ^ 5 * rd + 2 ^ 10 * f3 + 2 ^ 13 * rs1 + 2 ^ 18 * imm)) as [E1 E2];
    [unfold ins, enc_load; lia|]. split; [|done]. unfold ins_ldst_decode. rewrite E1.
  assert (INS_OPCODE ins = 3) as ->.
  { unfold INS_OPCODE. rewrite <- (Z.shiftr_0_r ins).
    apply (ins_field ins 0 7 0 3 (rd + 2 ^ 5 * f3 + 2 ^ 8 * rs1 + 2 ^ 13 * imm)); unfold ins, enc_load; lia. }
  assert (INS_FUNCT3 ins = f3) as ->.
  { apply (ins_field ins 12 3 (3 + 2 ^ 7 * rd) f3 (rs1 + 2 ^ 5 * imm)); unfold ins, enc_load; lia. }
  assert (INS_RD ins = rd) as ->.
  { apply (ins_field ins 7 5 3 rd (f3 + 2 ^ 3 * rs1 + 2 ^ 8 * imm)); unfold ins, enc_load; lia. }
  destruct (decode_width f3 Hf) as [-> ->]. done.
Qed.

Lemma decode_store f3 rs1 rs2 imm :
  0 <= f3 < 4 -> 0 <= rs1 < 32 -> 0 <= rs2 < 32 -> 0 <= imm < 4096 ->
  let ins := enc_store f3 rs1 rs2 imm in
  ins_ldst_decode ins = Some (mk_acc 0 true true (2 ^ (f3 mod 4)) rs2 8) /\ INS_SIZE ins = 4.
Proof.
  intros Hf Hs Hr Hi ins.
  assert (0 <= imm mod 32 < 32 /\ 0 <= imm / 32 < 128) as [? ?]
    by (split; [apply Z.mod_pos_bound; lia|Z.to_euclidean_division_equations; lia]).
  set (lo := imm mod 32) in *. set (hi := imm / 32) in *.
  assert (ins = 35 + 2 ^ 7 * lo + 2 ^ 12 * f3 + 2 ^ 15 * rs1 + 2 ^ 20 * rs2 + 2 ^ 25 * hi) as Ei by done.
  destruct (full_ins ins (8 + 2 ^ 5 * lo + 2 ^ 10 * f3 + 2 ^ 13 * rs1 + 2 ^ 18 * rs2 + 2 ^ 23 * hi)) as [E1 E2];
    [lia|]. split; [|done]. unfold ins_ldst_decode. rewrite E1.
  assert (INS_OPCODE ins = 35) as ->.
  { unfold INS_OPCODE. rewrite <- (Z.shiftr_0_r ins).
    apply (ins_field ins 0 7 0 35 (lo + 2 ^ 5 * f3 + 2 ^ 8 * rs1 + 2 ^ 13 * rs2 + 2 ^ 18 * hi)); lia. }
  assert (INS_FUNCT3 ins = f3) as ->.
  { apply (ins_field ins 12 3 (35 + 2 ^ 7 * lo) f3 (rs1 + 2 ^ 5 * rs2 + 2 ^ 10 * hi)); lia. }
  assert (INS_RS2 ins = rs2) as ->.
  { apply (ins_field ins 20 5 (35 + 2 ^ 7 * lo + 2 ^ 12 * f3 + 2 ^ 15 * rs1) rs2 hi); lia. }
  destruct (decode_width f3 ltac:(lia)) as [-> ->]. by replace (f3 <? 4) with true by lia.
Qed.

Lemma decode_compressed (w : bool) r rs1 hi lo :
  0 <= r < 8 -> 0 <= rs1 < 8 -> 0 <= hi < 8 -> 0 <= lo < 4 ->
  let ins := enc_c (if w then 6 else 2) r rs1 hi lo in
  ins_ldst_decode ins = Some (mk_acc 0 w true 4 (r + 8) 8) /\ INS_SIZE ins = 2.
Proof.
  intros Hr Hs Hh Hl ins. set (f3 := if w then 6 else 2) in *.
  assert (0 <= f3 < 8) as Hf by (destruct w; unfold f3; lia).
  assert (ins = 4 * r + 2 ^ 5 * lo + 2 ^ 7 * rs1 + 2 ^ 10 * hi + 2 ^ 13 * f3) as Ei by done.
  assert (Z.land ins 3 = 0) as E3.
  { rewrite <- (Z.shiftr_0_r ins).
    apply (ins_field ins 0 2 0 0 (r + 2 ^ 3 * lo + 2 ^ 5 * rs1 + 2 ^ 8 * hi + 2 ^ 11 * f3)); lia. }
  assert (INS_C_OPCODE ins = 2 ^ 13 * f3) as Eo.
  { unfold INS_C_OPCODE. change 57347 with (Z.lor 3 (Z.shiftl 7 13)).
    rewrite Z.land_lor_distr_r, E3, Z.lor_0_l.
    assert (Z.shiftr ins 13 = f3) as Es.
    { rewrite Z.shiftr_div_pow2 by lia. symmetry.
      apply (Z.div_unique _ _ _ (4 * r + 2 ^ 5 * lo + 2 ^ 7 * rs1 + 2 ^ 10 * hi)); lia. }
    transitivity (Z.shiftl (Z.land (Z.shiftr ins 13) 7) 13).
    - apply Z.bits_inj'. intros n Hn. rewrite Z.land_spec, !Z.shiftl_spec, Z.land_spec by lia.
      destruct (Z.ltb_spec n 13); [rewrite !(Z.testbit_neg_r _ (n - 13)) by lia; apply andb_false_r|].
      rewrite Z.shiftr_spec by lia. do 2 f_equal. lia.
    - rewrite Es. change 7 with (Z.ones 3). rewrite Z.land_ones, Z.mod_small, Z.shiftl_mul_pow2 by lia. lia. }
  unfold ins_ldst_decode, INS_COMPRESSED, INS_SIZE. rewrite E3, Eo. split; [|done].
  assert (INS_C_RD_RS2 ins = r) as ->.
  { apply (ins_field ins 2 3 0 r (lo + 2 ^ 2 * rs1 + 2 ^ 5 * hi + 2 ^ 8 * f3)); lia. }
  by destruct w.
Qed.

(** The decoder of device accesses understands every RV64 load and store
    and [c.lw]/[c.sw]: for each encoding it recovers the direction, the width,
    the sign extension and the register, and the size of the instruction the
    guest is advanced by. *)
Theorem ins_decode_correct f3 r rs1 imm (w : bool) :
  0 <= r < 32 -> 0 <= rs1 < 32 -> 0 <= imm < 4096 ->
  (0 <= f3 < 8 -> ins_ldst_decode (enc_load f3 r rs1 imm)
     = Some (mk_acc 0 false (f3 <? 4) (2 ^ (f3 mod 4)) r 8) /\ INS_SIZE (enc_load f3 r rs1 imm) = 4) /\
  (0 <= f3 < 4 -> ins_ldst_decode (enc_store f3 rs1 r imm)
     = Some (mk_acc 0 true true (2 ^ (f3 mod 4)) r 8) /\ INS_SIZE (enc_store f3 rs1 r imm) = 4) /\
  (r < 8 -> rs1 < 8 -> let ins := enc_c (if w then 6 else 2) r rs1 (imm / 512) (imm mod 4) in
     ins_ldst_decode ins = Some (mk_acc 0 w true 4 (r + 8) 8) /\ INS_SIZE ins = 2).
Proof.
  intros Hr Hs Hi. split_and!.
  - intros Hf. by apply decode_load.
  - intros Hf. by apply decode_store.
  - intros Hr8 Hs8. apply decode_compressed; try lia; Z.to_euclidean_division_equations; lia.
Qed.
End Traps.

Lemma ins_decode_correct_witness :
  ins_ldst_decode (enc_load 2 10 11 4) = Some (mk_acc 0 false true 4 10 8) /\
  INS_SIZE (enc_load 2 10 11 4) = 4.
Proof. apply (ins_decode_correct 2 10 11 4 true); lia. Defined.
