(* ===== verification/Confine.v ===== *)
(** * What a trap of a guest can touch

    A synchronous exception of a guest (an environment call or an emulated
    device access) and an interrupt taken while it runs are followed through
    every handler they can reach, for the guest of VM [x] that runs on CPU
    [c]. *)

From S2P Require Import Prelude Bit Bitmap PagePool CpuMsg State Calls Plic Vplic Ipc Interrupts Sbi Traps.

Section Confine.
Context {Henv : Env} (c i : Z) (x : vm).
Hypothesis Hcpus : 0 <= vm_cpus x < 2 ^ 64.
Hypothesis Hc : Z.testbit (vm_cpus x) c = true.
Hypothesis Hlist : forall p, p ∈ vm_vcpu_list x -> Z.testbit (vm_cpus x) p = true.

(** The memory past the virtual PLIC belongs to other objects. *)
Definition inside (m : mem) : Prop :=
  forall k, ~ (0 <= k < vplic_words) -> ld m k = ld (vp_mem (vm_vplic x)) k.

(** The virtual contexts the hypervisor works on for the VM. *)
Definition own_cntxt (vc : Z) : Prop :=
  0 <= vc < vp_cntxt_num (vm_vplic x) /\ mode (plic_plat_id_to_cntxt vc) <= PRIV_S.

(** A request to update an interrupt line names such a context. *)
Definition good_msg (msg : cpu_msg) : Prop :=
  msg_handler msg = VPLIC_IPI_ID -> own_cntxt (s32 (msg_data msg)).

Definition good_vcpu (v : vcpu) : Prop := vc_vm v = i /\ 0 <= vc_id v < vm_cpu_num x.

(** The guest of [x] is on CPU [c], and the requests queued for the CPUs of the
    VM are good. *)
Definition runs (s : hyp) : Prop :=
  (exists m, hy_vms s !! i = Some (set_vplic_mem m x) /\ inside m) /\
  (exists y v, hy_cpus s !! c = Some y /\ c_vcpu y = Some v /\ good_vcpu v) /\
  forall d y, Z.testbit (vm_cpus x) d = true -> hy_cpus s !! d = Some y -> Forall good_msg (c_events y).

(** A CPU of another VM may only receive inter-VM notifications. *)
Definition notified (o o' : option cpu) : Prop :=
  match o, o' with
  | Some y, Some y' =>
      c_plic_cntxt y' = c_plic_cntxt y /\ c_vcpu y' = c_vcpu y /\ c_csr y' = c_csr y /\
      exists l, c_events y' = c_events y ++ l /\ Forall (fun m => msg_handler m = IPC_CPUSMG_ID) l
  | None, None => True
  | _, _ => False
  end.

(** Other VMs and the tables of the hypervisor are kept. *)
Definition kept (s s' : hyp) : Prop :=
  (forall w, w <> i -> hy_vms s' !! w = hy_vms s !! w) /\ hy_shmem s' = hy_shmem s /\
  hy_hyp_int s' = hy_hyp_int s /\ hy_glb_int s' = hy_glb_int s /\ hy_handlers s' = hy_handlers s.

Definition confined (s s' : hyp) : Prop :=
  kept s s' /\
  forall d, Z.testbit (vm_cpus x) d = false -> notified (hy_cpus s !! d) (hy_cpus s' !! d).

Lemma notified_refl o : notified o o.
Proof. destruct o as [y|]; simpl; [|done]. split_and!; try done. exists []. by rewrite app_nil_r. Qed.

#[local] Instance confined_preorder : PreOrder confined.
Proof.
  split.
  - intros s. split; [by split_and!|]. intros d _. apply notified_refl.
  - intros s1 s2 s3 [(A1 & A2 & A3 & A4 & A5) Hd] [(B1 & B2 & B3 & B4 & B5) Hd'].
    split; [split_and!; [intros w Hw; rewrite B1, A1; done|congruence..]|]. intros d E. specialize (Hd d E). specialize (Hd' d E).
    destruct (hy_cpus s1 !! d), (hy_cpus s2 !! d), (hy_cpus s3 !! d); simpl in *; try done.
    destruct Hd as (? & ? & ? & l & El & ?), Hd' as (? & ? & ? & l' & El' & ?).
    split_and!; try congruence. exists (l ++ l'). rewrite El', El, app_assoc. split; [done|by apply Forall_app].
Qed.

Definition stays {A} (m : M A) (V : A -> Prop) : Prop :=
  forall s a s', runs s -> m s = Ok (a, s') -> runs s' /\ confined s s' /\ V a.

Lemma stays_ret {A} (a : A) (V : A -> Prop) : V a -> stays (mret a) V.
Proof. intros HV s b s' Hr [= <- <-]. split_and!; try done. Qed.

Lemma stays_bind {A B} (m : M A) (k : A -> M B) V W :
  stays m V -> (forall a, V a -> stays (k a) W) -> stays (m ≫= k) W.
Proof.
  intros Hm Hk s b s2 Hr (a & s1 & E1 & E2)%bind_ok.
  destruct (Hm s a s1 Hr E1) as (Hr1 & Hc1 & HV). destruct (Hk a HV s1 b s2 Hr1 E2) as (? & ? & ?).
  split_and!; try done. by etrans.
Qed.

Lemma stays_weaken {A} (m : M A) (V W : A -> Prop) : stays m V -> (forall a, V a -> W a) -> stays m W.
Proof. intros Hm HVW s a s' Hr E. destruct (Hm s a s' Hr E) as (? & ? & ?). auto. Qed.

Lemma stays_log e : stays (log e) (fun _ => True).
Proof. intros s b s' Hr [= _ <-]. split_and!; try done. split; [by split_and!|]. intros. apply notified_refl. Qed.

Lemma stays_shmem : stays (gets hy_shmem) (fun _ => True).
Proof. intros s b s' Hr [= _ <-]. split_and!; try done. Qed.

Lemma stays_get_vcpu : stays (get_vcpu c) good_vcpu.
Proof.
  intros s v s' Hr [-> (y & Hy & Hv)]%get_vcpu_ok. split_and!; try done.
  destruct Hr as (_ & (y' & v' & Hy' & Hv' & ?) & _). congruence.
Qed.

Lemma stays_get_vm : stays (get_vm i) (fun a => exists m, a = set_vplic_mem m x /\ inside m).
Proof.
  intros s a s' Hr [-> Hx]%get_vm_ok. split_and!; try done.
  destruct Hr as [(m & Hr & Hin) _]. exists m. split; [congruence|done].
Qed.

Lemma stays_cur_vm : stays (cur_vm c) (fun a => exists m, a = set_vplic_mem m x /\ inside m).
Proof. eapply stays_bind; [apply stays_get_vcpu|]. intros v [Hv _]. rewrite Hv. apply stays_get_vm. Qed.

Lemma stays_readreg r : stays (vcpu_readreg c r) (fun _ => True).
Proof. eapply stays_bind; [apply stays_get_vcpu|]. intros v _. by apply stays_ret. Qed.

(** Replacing a CPU of the VM. *)
Lemma stays_put_cpu p (f : cpu -> cpu) :
  Z.testbit (vm_cpus x) p = true ->
  (forall y, p = c -> (exists v, c_vcpu y = Some v /\ good_vcpu v) ->
     exists v, c_vcpu (f y) = Some v /\ good_vcpu v) ->
  (forall y, Forall good_msg (c_events y) -> Forall good_msg (c_events (f y))) ->
  stays (y ← get_cpu p; put_cpu p (f y)) (fun _ => True).
Proof.
  intros Hp Hf Hq s b s' Hr (y & s1 & [-> Hy]%get_cpu_ok & [= _ <-])%bind_ok.
  destruct Hr as (Hx & (y0 & v0 & Hy0 & Hv0 & Hi0) & Hm). split_and!; [split_and!; [done|..]| |done].
  - simpl. destruct (decide (p = c)) as [->|].
    + rewrite Hy in Hy0. injection Hy0 as ->. destruct (Hf y0 eq_refl) as (v & ? & ?); [eauto|].
      exists (f y0), v. by rewrite lookup_insert_eq.
    + exists y0, v0. by rewrite lookup_insert_ne.
  - simpl. intros d z Hd. destruct (decide (p = d)) as [->|].
    + rewrite lookup_insert_eq. intros [= <-]. apply Hq. by eapply Hm.
    + rewrite lookup_insert_ne by done. by apply Hm.
  - split; [by split_and!|]. intros d Hd. simpl. rewrite lookup_insert_ne by congruence. apply notified_refl.
Qed.

Lemma stays_csr (f : mem -> mem) :
  stays (y ← get_cpu c; put_cpu c (mk_cpu (c_plic_cntxt y) (c_vcpu y) (f (c_csr y)) (c_events y)))
    (fun _ => True).
Proof. apply (stays_put_cpu c); [done| |done]. intros y _ H. exact H. Qed.

Lemma stays_put_vcpu p v :
  Z.testbit (vm_cpus x) p = true -> (p = c -> good_vcpu v) -> stays (put_vcpu p v) (fun _ => True).
Proof. intros Hp Hv. apply (stays_put_cpu p (set_vcpu v)); [done| |done]. intros y E _. exists v. auto. Qed.

Lemma stays_writereg r val : stays (vcpu_writereg c r val) (fun _ => True).
Proof.
  eapply stays_bind; [apply stays_get_vcpu|]. intros v Hv. apply stays_put_vcpu; [done|]. intros _.
  unfold writereg. by destruct (_ || _).
Qed.

Lemma stays_ecall eid fid args : stays (sbi_ecall eid fid args) (fun _ => True).
Proof. eapply stays_bind; [apply stays_log|]. intros _ _. by apply stays_ret. Qed.

(** Messages reach the VM's own CPUs, or are inter-VM notifications. *)
Lemma stays_send d msg :
  Z.testbit (vm_cpus x) d = true /\ good_msg msg \/ msg_handler msg = IPC_CPUSMG_ID ->
  stays (send_msg d msg) (fun _ => True).
Proof.
  intros Hd s b s' Hr H. unfold send_msg in H.
  rewrite (bind_eq _ _ s (hy_left s) s eq_refl) in H. destruct (hy_left s =? 0); [done|].
  rewrite (bind_eq _ _ s tt (set_left (fun n => n - 1) s) eq_refl) in H.
  apply bind_ok in H as (y & s1 & [-> Hy]%get_cpu_ok & H). simpl in Hy. injection H as _ <-.
  assert (good_msg msg) as Hg by (destruct Hd as [[_ Hd]|Hd]; [done|]; intros E; rewrite Hd in E; discriminate E).
  destruct Hr as (Hx & (y0 & v0 & Hy0 & Hv0 & Hi0) & Hm). split_and!; [split_and!; [done|..]| |done].
  - simpl. destruct (decide (d = c)) as [->|].
    + exists (add_event msg y), v0. rewrite lookup_insert_eq. split_and!; try done; simpl; [congruence|apply Hi0..].
    + exists y0, v0. by rewrite lookup_insert_ne.
  - simpl. intros e z He. destruct (decide (d = e)) as [->|].
    + rewrite lookup_insert_eq. intros [= <-]. simpl. apply Forall_app. split; [by eapply Hm|by apply Forall_singleton].
    + rewrite lookup_insert_ne by done. by apply Hm.
  - split; [by split_and!|]. intros e He. simpl. destruct (decide (d = e)) as [->|].
    + rewrite lookup_insert_eq, Hy. simpl. split_and!; try done. exists [msg]. split; [done|].
      apply Forall_singleton. destruct Hd as [[? _]|]; congruence.
    + rewrite lookup_insert_ne by done. apply notified_refl.
Qed.

Lemma stays_vm_get_vcpu n :
  stays (vm_get_vcpu i n) (fun o => match o with
    | Some (p, w) => Z.testbit (vm_cpus x) p = true /\ (p = c -> good_vcpu w) | None => True end).
Proof.
  intros s o s' Hr (a & s1 & [-> Ha]%get_vm_ok & [= <- <-])%bind_ok. split_and!; try done.
  destruct Hr as ((m & Hx & _) & (y0 & v0 & Hy0 & Hv0 & Hi0) & _).
  assert (a = set_vplic_mem m x) as -> by congruence.
  destruct (find_vcpu _ _ _) as [[p w]|] eqn:E; [|done].
  apply find_vcpu_in in E as (Hp & y & Hy & Hw & _). split; [by apply Hlist|]. intros ->. congruence.
Qed.

Lemma stays_if {A} (b : bool) (m1 m2 : M A) V : stays m1 V -> stays m2 V -> stays (if b then m1 else m2) V.
Proof. by destruct b. Qed.

Ltac stay :=
  repeat match goal with
  | |- forall _, _ -> stays _ _ => intros ? ?
  | |- stays (if _ then _ else _) _ => apply stays_if
  | |- stays (mret _) _ => apply stays_ret; done
  | |- stays (vcpu_readreg _ _ ≫= _) _ => eapply stays_bind; [apply stays_readreg|]
  | |- stays (get_vcpu _ ≫= _) _ => eapply stays_bind; [apply stays_get_vcpu|]
  | |- stays (cur_vm _ ≫= _) _ => eapply stays_bind; [apply stays_cur_vm|]
  | |- stays (log _ ≫= _) _ => eapply stays_bind; [apply stays_log|]
  | |- stays (log _) _ => apply stays_log
  | |- stays (CSRS _ _ _ ≫= _) _ => eapply stays_bind; [apply (stays_csr (fun r => st r _ (Z.lor (ld r _) _)))|]
  | |- stays (CSRC _ _ _ ≫= _) _ => eapply stays_bind; [apply (stays_csr (fun r => st r _ (Z.ldiff (ld r _) _)))|]
  | |- stays (CSRS _ _ _) _ => apply (stays_csr (fun r => st r _ (Z.lor (ld r _) _)))
  | |- stays (CSRC _ _ _) _ => apply (stays_csr (fun r => st r _ (Z.ldiff (ld r _) _)))
  | |- stays (CSRW _ _ _ ≫= _) _ => eapply stays_bind; [apply (stays_csr (fun r => st r _ _))|]
  | |- stays (CSRW _ _ _) _ => apply (stays_csr (fun r => st r _ _))
  | |- stays (gets hy_shmem ≫= _) _ => eapply stays_bind; [apply stays_shmem|]
  | |- stays (vcpu_writereg _ _ _ ≫= _) _ => eapply stays_bind; [apply stays_writereg|]
  | |- stays (vcpu_writereg _ _ _) _ => apply stays_writereg
  end.

Lemma stays_time fid : stays (sbi_time_handler c fid) (fun _ => True).
Proof. unfold sbi_time_handler. stay. eapply stays_bind; [apply stays_ecall|]. stay. Qed.

Lemma stays_ipi_loop m mask base j k :
  stays (ipi_loop (set_vplic_mem m x) mask base j k) (fun _ => True).
Proof.
  revert j. induction k as [|k IH]; intros j; simpl; [by apply stays_ret|].
  apply (stays_bind _ _ (fun _ => True)); [|intros _ _; apply IH].
  apply stays_if; [|by apply stays_ret].
  change (vm_translate_to_pcpuid (set_vplic_mem m x)) with (vm_translate_to_pcpuid x).
  destruct (Z.leb_spec 0 (vm_translate_to_pcpuid x (u64 (base + j)))) as [Hp|]; [|by apply stays_ret].
  apply stays_send. left. split; [|by intros E].
  destruct (vm_translate_to_pcpuid_wild x (u64 (base + j)) Hcpus) as [E|[_ ?]]; [|lia|done].
  apply wrap_range. lia.
Qed.

Lemma stays_ipi fid : stays (sbi_ipi_handler c fid) (fun _ => True).
Proof.
  unfold sbi_ipi_handler. stay. destruct H1 as (m & -> & _). eapply stays_bind; [apply stays_ipi_loop|]. stay.
Qed.

Lemma stays_rfence fid : stays (sbi_rfence_handler c fid) (fun _ => True).
Proof. unfold sbi_rfence_handler. stay; apply stays_ecall. Qed.

Lemma stays_hsm fid : stays (sbi_hsm_handler c fid) (fun _ => True).
Proof.
  unfold sbi_hsm_handler, sbi_hsm_start_handler, sbi_hsm_status_handler. stay.
  - match goal with H : good_vcpu ?v |- stays (vm_get_vcpu (vc_vm ?v) _ ≫= _) _ => rewrite (proj1 H) end.
    eapply stays_bind; [apply stays_vm_get_vcpu|]. intros [[p w]|] Hp; [|stay].
    destruct Hp as [Hp Hw]. destruct (vc_state w); stay.
    eapply stays_bind; [apply stays_put_vcpu; [done|exact Hw]|]. intros _ _.
    eapply stays_bind; [apply stays_send; left; by split|]. stay.
  - match goal with H : good_vcpu ?v |- stays (vm_get_vcpu (vc_vm ?v) _ ≫= _) _ => rewrite (proj1 H) end.
    eapply stays_bind; [apply stays_vm_get_vcpu|]. intros [[p w]|] _; stay.
Qed.

Lemma stays_ipc_send masters data j k :
  stays (ipc_send_loop masters (mk_msg IPC_CPUSMG_ID IPC_NOTIFY data) j k) (fun _ => True).
Proof.
  revert j. induction k as [|k IH]; intros j; simpl; [by apply stays_ret|].
  apply (stays_bind _ _ (fun _ => True)); [|intros _ _; apply IH]. stay. apply stays_send. by right.
Qed.

Lemma stays_bao fid : stays (sbi_bao_handler c fid) (fun _ => True).
Proof.
  unfold sbi_bao_handler, ipc_hypercall. stay.
  apply (stays_bind _ _ (fun _ => True)); [|stay]. stay.
  destruct (if _ <? _ then _ else None) as [o|]; [|stay].
  destruct (ipc_get_shmem _ _); [|stay]. eapply stays_bind; [apply stays_ipc_send|]. stay.
Qed.

Lemma stays_legacy extid : stays (sbi_lgcy_handler c extid) (fun _ => True).
Proof.
  unfold sbi_lgcy_handler, sbi_lgcy_putchar_handler, sbi_lgcy_getchar_handler. stay.
  - eapply stays_bind; [apply stays_time|]. stay.
  - eapply stays_bind; [apply stays_ecall|]. stay.
  - eapply stays_bind; [apply stays_ecall|]. intros [e v] _. stay.
Qed.

Lemma stays_ext extid fid : stays (sbi_ext_handler c extid fid) (fun _ => True).
Proof.
  unfold sbi_ext_handler. stay; [|apply stays_time|apply stays_ipi|apply stays_rfence|apply stays_hsm|
    apply stays_bao]. unfold sbi_base_handler. stay.
Qed.

Lemma stays_vs_handler : stays (sbi_vs_handler c) (fun pc => pc = 4).
Proof.
  unfold sbi_vs_handler. stay. apply (stays_bind _ _ (fun _ => True)); [|stay].
  stay; [apply stays_legacy|]. eapply stays_bind; [apply stays_ext|]. intros [e v] _. stay.
Qed.

(** ** Emulated devices *)

(** The virtual contexts of the VM map to contexts of its own CPUs. *)
Hypothesis Hnum : vm_cpu_num x = rank (vm_cpus x) 64.
Hypothesis Hcntxt : vp_cntxt_num (vm_vplic x) = 2 * vm_cpu_num x.
Hypothesis Hplat : vp_cntxt_num (vm_vplic x) <= plic_cntxt_num < 2 ^ 31.
Hypothesis Hharts : forall h, Z.testbit (vm_cpus x) h = true -> 2 * h + 1 < plic_cntxt_num.

Lemma vcntxt_target vc :
  0 <= vc < vp_cntxt_num (vm_vplic x) -> mode (plic_plat_id_to_cntxt vc) <= PRIV_S ->
  Z.testbit (vm_cpus x) (u64 (hart_id (plic_plat_id_to_cntxt (vplic_vcntxt_to_pcntxt x vc)))) = true.
Proof.
  intros Hvc Hmode.
  assert (plic_plat_id_to_cntxt vc = mk_cntxt (vc / 2) PRIV_S) as E.
  { unfold plic_plat_id_to_cntxt in *. replace (vc <? plic_cntxt_num) with true in * by lia.
    rewrite Z.quot_div_nonneg by lia. simpl in Hmode. destruct (Z.rem vc 2 =? 0); [|done].
    unfold PRIV_M, PRIV_S in Hmode. lia. }
  assert (0 <= vc / 2 < vm_cpu_num x) as Hk by (Z.to_euclidean_division_equations; lia).
  pose proof (rank_range (vm_cpus x) 64 ltac:(lia)) as Hr64.
  unfold vplic_vcntxt_to_pcntxt. rewrite E. cbn [hart_id mode].
  rewrite (wrap_small 64 (vc / 2)) by lia.
  destruct (vm_translate_to_pcpuid_spec x (vc / 2) Hcpus ltac:(lia)) as [[_ ?]|(Hh & Hb & _)]; [lia|].
  set (h := vm_translate_to_pcpuid x (vc / 2)) in *. specialize (Hharts h Hb).
  rewrite sgn_small by lia. replace (0 <=? h) with true by lia.
  unfold plic_plat_cntxt_to_id. cbn [mode hart_id]. simpl. rewrite sgn_small by lia.
  unfold plic_plat_id_to_cntxt. replace (h * 2 + 1 <? plic_cntxt_num) with true by lia. cbn [hart_id].
  rewrite Z.quot_div_nonneg by lia. replace ((h * 2 + 1) / 2) with h by (Z.to_euclidean_division_equations; lia).
  by rewrite wrap_small by lia.
Qed.

Lemma stays_cur_vplic : stays (cur_vplic c) inside.
Proof. eapply stays_bind; [apply stays_cur_vm|]. intros a (m & -> & Hm). by apply stays_ret. Qed.

Lemma stays_put_vplic m : inside m -> stays (put_vplic c m) (fun _ => True).
Proof.
  intros Hm. eapply stays_bind; [apply stays_get_vcpu|]. intros v [-> _].
  eapply stays_bind; [apply stays_get_vm|]. intros a (m0 & -> & _).
  intros s b s' Hr [= _ <-]. destruct Hr as (Hx & Hy & Hq). split_and!; [split_and!| |done].
  - exists m. simpl. by rewrite lookup_insert_eq.
  - done.
  - done.
  - split; [|intros; apply notified_refl]. split_and!; try done.
    intros w Hw. simpl. by rewrite lookup_insert_ne.
Qed.

Lemma stays_plic f : stays (mod_st (set_plic f)) (fun _ => True).
Proof.
  intros s b s' Hr [= _ <-]. split_and!; try done. split; [by split_and!|]. intros. apply notified_refl.
Qed.

(** *** Writes inside the virtual PLIC *)
Lemma inside_st m a v : inside m -> 0 <= a < vplic_words -> inside (st m a v).
Proof. intros Hm Ha k Hk. rewrite ld_st_ne by (intros ->; done). by apply Hm. Qed.

Lemma inside_set m o id : inside m -> 0 <= o + id / 32 < vplic_words -> inside (bitmap_set m o id).
Proof. intros. by apply inside_st. Qed.

Lemma inside_clear m o id : inside m -> 0 <= o + id / 32 < vplic_words -> inside (bitmap_clear m o id).
Proof. intros. by apply inside_st. Qed.

Lemma cntxt_num_pos : 0 < vm_cpu_num x <= 64.
Proof.
  rewrite Hnum. pose proof (rank_range (vm_cpus x) 64 ltac:(lia)) as Hr.
  destruct (vm_translate_to_pcpuid_spec x 0 Hcpus ltac:(lia)) as [[E H0]|(? & Hb & _)].
  - exfalso. assert (0 <= c < 64) as Hc64.
    { destruct (Z.ltb_spec c 0); [by rewrite Z.testbit_neg_r in Hc|]. split; [done|].
      destruct (Z.ltb_spec c 64); [done|]. rewrite Z.bits_above_log2 in Hc; [done|lia|].
      destruct (Z.eq_dec (vm_cpus x) 0) as [->|]; [simpl; lia|].
      apply Z.log2_lt_pow2; [lia|]. apply (Z.lt_le_trans _ (2 ^ 64)); [lia|]. apply Z.pow_le_mono_r; lia. }
    pose proof (rank_succ (vm_cpus x) c ltac:(lia)) as Hs. rewrite Hc in Hs. simpl in Hs.
    pose proof (rank_mono (vm_cpus x) (c + 1) 64 ltac:(lia)).
    pose proof (rank_range (vm_cpus x) c ltac:(lia)). lia.
  - set (r := vm_translate_to_pcpuid x 0) in *.
    pose proof (rank_succ (vm_cpus x) r ltac:(lia)) as Hs. rewrite Hb in Hs. simpl in Hs.
    pose proof (rank_mono (vm_cpus x) (r + 1) 64 ltac:(lia)).
    pose proof (rank_range (vm_cpus x) r ltac:(lia)). lia.
Qed.

Lemma low_word o id : 0 <= o <= 64 -> 0 <= id <= 1024 -> 0 <= o + id / 32 < vplic_words.
Proof.
  intros. pose proof cntxt_num_pos. unfold vplic_words, ENBL_OFF.
  assert (0 <= id / 32 <= 32) by (Z.to_euclidean_division_equations; lia). lia.
Qed.

Lemma valid_own m vc : 0 <= vc < 2 ^ 64 -> vplic_vcntxt_valid (set_vplic_mem m x) vc = true -> own_cntxt vc.
Proof.
  intros Hvc Hv. unfold vplic_vcntxt_valid in Hv. rewrite wrap_small in Hv by lia.
  apply andb_true_iff in Hv as [?%Z.ltb_lt ?%Z.leb_le]. simpl in *. split; lia.
Qed.

(** A context survives the trip through the data of a message. *)
Lemma data_own vc e : own_cntxt vc -> own_cntxt (s32 (msg_data (mk_msg VPLIC_IPI_ID e (u64 vc)))).
Proof. intros [Hvc Hm]. simpl. rewrite wrap_small, sgn_small by lia. by split. Qed.

Lemma stays_update vc : own_cntxt vc -> stays (vplic_update_hart_line c vc) (fun _ => True).
Proof.
  intros [Hvc Hm]. eapply stays_bind; [apply stays_cur_vm|]. intros a (m & -> & _).
  apply stays_if.
  - apply stays_if; [apply (stays_csr (fun r => st r _ (Z.lor (ld r _) _)))|
      apply (stays_csr (fun r => st r _ (Z.ldiff (ld r _) _)))].
  - apply stays_send. left. split; [by apply vcntxt_target|]. intros _. by apply data_own.
Qed.

Lemma enbl_word_inside vc id :
  own_cntxt vc -> 0 <= id < 1024 -> 0 <= enbl_off vc + id / 32 < vplic_words.
Proof.
  intros [Hvc _] Hid. unfold vplic_words, enbl_off, ENBL_OFF.
  assert (0 <= id / 32 < 32) by (Z.to_euclidean_division_equations; lia). lia.
Qed.

Lemma next_pending_range m vc : 0 <= vplic_next_pending m vc <= 1024.
Proof.
  unfold vplic_next_pending.
  pose proof (next_pending_loop_spec m vc 0 0 0 (Z.to_nat (PLIC_MAX_INTERRUPTS + 1))) as H.
  destruct (next_pending_loop _ _ _ _ _ _) as [mp id]. change (Z.of_nat _) with 1025 in H.
  destruct H as (_ & _ & H). destruct (_ <? mp); lia.
Qed.

Ltac vstay :=
  repeat first
    [ progress stay
    | match goal with
      | |- stays (cur_vplic _ ≫= _) _ => eapply stays_bind; [apply stays_cur_vplic|]
      | |- stays (put_vplic _ _ ≫= _) _ => eapply stays_bind; [apply stays_put_vplic|]
      | |- stays (mod_st (set_plic _) ≫= _) _ => eapply stays_bind; [apply stays_plic|]
      | |- stays (mod_st (set_plic _)) _ => apply stays_plic
      | |- stays (vplic_update_hart_line _ _ ≫= _) _ => eapply stays_bind; [apply stays_update; done|]
      | |- stays (vplic_update_hart_line _ _) _ => apply stays_update; done
      end ].

Lemma stays_threshold vc t : own_cntxt vc -> stays (vplic_set_threshold c vc t) (fun _ => True).
Proof.
  intros H. unfold vplic_set_threshold. vstay. apply inside_st; [done|]. destruct H as [Hvc _].
  unfold threshold_off, vplic_words, ENBL_OFF. lia.
Qed.

Lemma stays_set_enbl vc id b : own_cntxt vc -> 0 <= id < 1024 -> stays (vplic_set_enbl c vc id b) (fun _ => True).
Proof.
  intros H Hid. unfold vplic_set_enbl. vstay.
  destruct b; [apply inside_set|apply inside_clear]; try done; by apply enbl_word_inside.
Qed.

Lemma stays_set_enbl_word vc first val j k :
  own_cntxt vc -> 0 <= first -> 0 <= j -> first + j + Z.of_nat k <= 1024 ->
  stays (set_enbl_word c vc first val j k) (fun _ => True).
Proof.
  intros H Hf. revert j. induction k as [|k IH]; intros j Hj Hk; simpl; [by apply stays_ret|].
  eapply stays_bind; [apply stays_set_enbl; [done|lia]|]. intros _ _. apply IH; lia.
Qed.

Lemma stays_claim vc : own_cntxt vc -> stays (vplic_claim c vc) (fun _ => True).
Proof.
  intros H. unfold vplic_claim. vstay. pose proof (next_pending_range a vc) as Hr.
  apply inside_set; [apply inside_clear; [done|]|]; apply low_word; unfold PEND_OFF, ACT_OFF; lia.
Qed.

(** A completion is confined only if its identifier is. *)
Lemma stays_complete vc id :
  own_cntxt vc -> 0 <= ACT_OFF + id / 32 < vplic_words -> stays (vplic_complete c vc id) (fun _ => True).
Proof.
  intros H Hid. unfold vplic_complete. vstay; [by intros s b s' _ E|].
  apply (stays_bind _ _ (fun _ => True)); [|vstay; by apply inside_clear]. vstay.
  intros s b s' Hr (y & s1 & [-> _]%get_cpu_ok & E)%bind_ok.
  by apply (stays_log (PlicComplete (c_plic_cntxt y) id) s b s').
Qed.

Lemma stays_update_lines test j k :
  0 <= j -> j + Z.of_nat k <= vp_cntxt_num (vm_vplic x) -> stays (update_lines c test j k) (fun _ => True).
Proof.
  revert j. induction k as [|k IH]; intros j Hj Hk; simpl; [by apply stays_ret|].
  apply (stays_bind _ _ (fun _ => True)); [|intros _ _; apply IH; lia].
  destruct (Z.eqb_spec (mode (plic_plat_id_to_cntxt j)) PRIV_S) as [E|]; [|by apply stays_ret]. vstay.
  apply stays_update. split; lia.
Qed.

Lemma stays_set_prio id prio : 0 <= id < 1024 -> stays (vplic_set_prio c id prio) (fun _ => True).
Proof.
  intros Hid. pose proof cntxt_num_pos. unfold vplic_set_prio. vstay.
  - apply inside_st; [done|]. unfold PRIO_OFF, vplic_words, ENBL_OFF. lia.
  - cbv beta in *. match goal with H : exists m, _ |- _ => destruct H as (m & -> & _) end.
    simpl vm_vplic. simpl vp_cntxt_num. apply stays_update_lines; lia.
Qed.

Lemma land_low z w n : 0 <= w -> Z.ones w = n -> 0 <= Z.land z n < 2 ^ w.
Proof. intros Hw <-. rewrite Z.land_ones by done. apply Z.mod_pos_bound. lia. Qed.

Lemma stays_enbl_access acc : stays (vplic_emul_enbl_access c acc) (fun _ => True).
Proof.
  unfold vplic_emul_enbl_access.
  pose proof (land_low (u64 (u64 (acc_addr acc - plic_base) - 8192)) 21 2097151 ltac:(lia) eq_refl) as Ho.
  pose proof (land_low (u64 (acc_addr acc - plic_base)) 7 127 ltac:(lia) eq_refl) as Hf.
  set (o := Z.land _ 2097151) in *. set (f := Z.land _ 127) in *. change (2 ^ 21) with 2097152 in Ho.
  change (2 ^ 7) with 128 in Hf.
  apply (stays_bind _ _ (fun _ => True)); [vstay; apply stays_readreg|]. intros val _.
  eapply stays_bind; [apply stays_cur_vm|]. intros a (m & -> & _).
  apply (stays_bind _ _ (fun _ => True)); [|vstay].
  match goal with |- stays (if ?b then _ else _) _ => destruct b eqn:E end; [|by apply stays_ret].
  apply andb_true_iff in E as [E _]. apply stays_set_enbl_word; [apply (valid_own m); [|done]|..];
    unfold PLIC_NUM_ENBL_REGS in *; Z.to_euclidean_division_equations; lia.
Qed.

Lemma stays_global acc : stays (vplic_global_emul_handler c acc) (fun _ => True).
Proof.
  unfold vplic_global_emul_handler. vstay. apply (stays_bind _ _ (fun _ => True)); [|vstay].
  vstay; [unfold vplic_emul_prio_access|unfold vplic_emul_pend_access|apply stays_enbl_access]; vstay.
  apply stays_set_prio.
  pose proof (land_low (u64 (acc_addr acc - plic_base)) 12 4095 ltac:(lia) eq_refl).
  Z.to_euclidean_division_equations; lia.
Qed.

(** The completion an access performs is in range. *)
Definition good_complete (acc : emul_access) (s : hyp) : Prop :=
  acc_write acc = true -> Z.land (acc_addr acc) 15 = 4 ->
  forall v, get_vcpu c s = Ok (v, s) -> 0 <= ACT_OFF + s32 (readreg v (acc_reg acc)) / 32 < vplic_words.

Lemma stays_hart acc s b s' :
  runs s -> good_complete acc s -> vplic_hart_emul_handler c acc s = Ok (b, s') ->
  runs s' /\ confined s s'.
Proof.
  intros Hr Hg. unfold vplic_hart_emul_handler.
  pose proof (land_low (Z.shiftr (u64 (acc_addr acc - plic_base - PLIC_CLAIMCMPLT_OFF)) 12) 10 1023
    ltac:(lia) eq_refl) as Hvc.
  set (vc := Z.land _ 1023) in *. destruct (_ || _); [intros [= _ <-]; done|].
  intros (a & s1 & E1 & H)%bind_ok. pose proof E1 as E1'.
  apply stays_cur_vm in E1' as (_ & _ & m & -> & _); [|done].
  assert (s1 = s) as ->.
  { apply bind_ok in E1 as (v & s2 & [-> _]%get_vcpu_ok & [-> _]%get_vm_ok). done. }
  destruct (vplic_vcntxt_valid (set_vplic_mem m x) vc) eqn:E; cbn [negb] in H.
  - assert (own_cntxt vc) as Hown by (apply (valid_own m); [lia|done]).
    destruct (Z.land (acc_addr acc) 15 =? 4) eqn:E4.
    + apply Z.eqb_eq in E4. rewrite E4 in H. simpl in H.
      destruct (acc_write acc) eqn:Ew.
      * apply bind_ok in H as ([] & s2 & H & [= _ <-]).
        apply bind_ok in H as (val & s3 & (v & s4 & Hv & [= <- <-])%bind_ok & H).
        pose proof Hv as Hv'. apply get_vcpu_ok in Hv' as [-> _].
        apply (stays_complete vc _ Hown (Hg Ew E4 v Hv)) in H as (? & ? & _); done.
      * refine (_ (stays_bind _ _ (fun _ => True) (fun _ => True) _ _ s b s' Hr H)).
        { intros (? & ? & _). done. }
        { eapply stays_bind; [by apply stays_claim|]. vstay. }
        { vstay. }
    + refine (_ (stays_bind _ _ (fun _ => True) (fun _ => True) _ _ s b s' Hr H)).
      * intros (? & ? & _). done.
      * vstay. by apply stays_threshold.
      * vstay.
  - refine (_ (stays_bind _ _ (fun _ => True) (fun _ => True) _ _ s b s' Hr H)).
    + intros (? & ? & _). done.
    + vstay.
    + vstay.
Qed.

(** ** The trap *)
Lemma stays_readonly {A} (m : M A) V :
  (forall s a s', runs s -> m s = Ok (a, s') -> s' = s /\ V a) -> stays m V.
Proof. intros Hm s a s' Hr E. destruct (Hm s a s' Hr E) as [-> ?]. done. Qed.

Lemma csrr_ok k s a s' : CSRR c k s = Ok (a, s') -> s' = s.
Proof. by intros (y & s1 & [-> _]%get_cpu_ok & [= _ <-])%bind_ok. Qed.

Lemma fault_ins_ok s a s' : fault_ins c s = Ok (a, s') -> s' = s.
Proof.
  intros (ins & s1 & ->%csrr_ok & H)%bind_ok. destruct (ins =? 0).
  - apply bind_ok in H as (pc & s2 & ->%csrr_ok & H). unfold read_ins in H.
    destruct (negb _) in H; [done|]. by injection H.
  - destruct (is_pseudo_ins ins); [done|]. by injection H.
Qed.

(** The access a guest page fault performs. *)
Definition fault_access (s : hyp) (acc : emul_access) : Prop :=
  exists htval ins sz emul, CSRR c CSR_HTVAL s = Ok (htval, s) /\ fault_ins c s = Ok ((ins, sz), s) /\
    ins_ldst_decode ins = Some emul /\ acc = set_addr (u64 (Z.shiftl htval 2)) emul.

Lemma page_fault_confined s n s' :
  runs s -> (forall acc, fault_access s acc -> good_complete acc s) ->
  guest_page_fault_handler c s = Ok (n, s') -> runs s' /\ confined s s'.
Proof.
  intros Hr Hg (htval & s1 & E1 & H)%bind_ok. pose proof (csrr_ok _ _ _ _ E1) as ->.
  apply bind_ok in H as (a & s1 & Ec & H).
  assert (s1 = s) as ->.
  { apply bind_ok in Ec as (v & s2 & [-> _]%get_vcpu_ok & [-> _]%get_vm_ok). done. }
  destruct (vm_emul_get_mem a _) as [h|]; [|done].
  apply bind_ok in H as ([ins sz] & s1 & E2 & H). pose proof (fault_ins_ok _ _ _ E2) as ->.
  destruct (ins_ldst_decode ins) as [emul|] eqn:Ed; [|done].
  apply bind_ok in H as (ok & s1 & E3 & H).
  assert (s' = s1) as -> by (destruct ok; [by injection H|done]).
  destruct h; simpl in E3.
  - destruct (stays_global _ s ok s1 Hr E3) as (? & ? & _). done.
  - eapply stays_hart; [done| |exact E3]. apply Hg. exists htval, ins, sz, emul. done.
Qed.

Lemma sync_exception_confined s s' :
  runs s -> (forall acc, fault_access s acc -> good_complete acc s) ->
  sync_exception_handler c s = Ok (tt, s') -> runs s' /\ confined s s'.
Proof.
  intros Hr Hg (scause & s1 & ->%csrr_ok & H)%bind_ok.
  apply bind_ok in H as (hstatus & s1 & ->%csrr_ok & H). apply bind_ok in H as ([] & s1 & E & H).
  assert (s1 = s) as -> by (destruct (_ =? 0); [done|by injection E]).
  apply bind_ok in H as (n & s1 & E1 & H).
  assert (runs s1 /\ confined s s1) as [Hr1 Hc1].
  { destruct (scause =? SCAUSE_CODE_ECV).
    - destruct (stays_vs_handler s n s1 Hr E1) as (? & ? & _). done.
    - destruct (_ || _); [|done]. by eapply page_fault_confined. }
  refine (_ (stays_bind (vcpu_readpc c) _ (fun _ => True) (fun _ => True) _ _ s1 tt s' Hr1 H)).
  - intros (? & ? & _). split; [done|]. by etrans.
  - eapply stays_bind; [apply stays_get_vcpu|]. vstay.
  - intros pc _. eapply stays_bind; [apply stays_get_vcpu|]. intros v Hv. by apply stays_put_vcpu.
Qed.

(** ** Interrupts *)

Lemma vcpu_own_cntxt v : good_vcpu v -> own_cntxt (plic_plat_cntxt_to_id (mk_cntxt (s32 (vc_id v)) PRIV_S)).
Proof.
  intros [_ Hid]. pose proof cntxt_num_pos. rewrite sgn_small by lia.
  unfold plic_plat_cntxt_to_id. cbn [mode hart_id]. change (PRIV_S =? PRIV_M) with false.
  change (PRIV_S =? PRIV_S) with true. simpl negb. simpl andb. cbv iota. rewrite sgn_small by lia.
  split; [lia|]. unfold plic_plat_id_to_cntxt. replace (_ <? plic_cntxt_num) with true by lia. simpl.
  destruct (Z.rem _ 2 =? 0) eqn:E; [|done]. apply Z.eqb_eq in E. rewrite Z.rem_mod_nonneg in E by lia.
  Z.to_euclidean_division_equations. lia.
Qed.

Lemma stays_inject id : stays (vplic_inject c id) (fun _ => True).
Proof.
  unfold vplic_inject. eapply stays_bind; [apply stays_cur_vplic|]. intros a Ha.
  destruct ((0 <? id) && (id <=? PLIC_MAX_INTERRUPTS) && negb _) eqn:E; [|vstay].
  unfold PLIC_MAX_INTERRUPTS in E. vstay.
  - apply inside_set; [done|]. apply low_word; unfold PEND_OFF; lia.
  - apply stays_update. by apply vcpu_own_cntxt.
  - cbv beta in *. match goal with H : exists m, _ |- _ => destruct H as (m' & -> & _) end.
    pose proof cntxt_num_pos. simpl vm_vplic. simpl vp_cntxt_num. apply stays_update_lines; lia.
Qed.

Lemma stays_reset entry : stays (vcpu_arch_reset c entry) (fun _ => True).
Proof.
  unfold vcpu_arch_reset. stay. eapply stays_bind; [by apply stays_put_vcpu|]. stay.
Qed.

Lemma stays_sbi_msg e data : stays (sbi_msg_handler c e data) (fun _ => True).
Proof.
  unfold sbi_msg_handler. stay. destruct (decide _); [|stay].
  eapply stays_bind; [apply stays_reset|]. stay. by apply stays_put_vcpu.
Qed.

Lemma stays_ipc_handler e data : stays (ipc_handler c e data) (fun _ => True).
Proof.
  unfold ipc_handler, ipc_notify. stay. destruct (ipc_find_by_shmemid _ _); stay. apply stays_inject.
Qed.

Lemma stays_run_msg msg : good_msg msg -> stays (run_msg_handler c msg) (fun _ => True).
Proof.
  intros Hg. unfold run_msg_handler. destruct (Z.eqb_spec (msg_handler msg) VPLIC_IPI_ID) as [E|].
  - unfold vplic_ipi_handler. stay. by apply stays_update, Hg.
  - stay; [apply stays_sbi_msg|apply stays_ipc_handler].
Qed.

Lemma stays_get_msg : stays (get_msg c) (fun o => match o with Some msg => good_msg msg | None => True end).
Proof.
  intros s o s' Hr (y & s1 & [-> Hy]%get_cpu_ok & H)%bind_ok.
  pose proof Hr as (_ & _ & Hq). specialize (Hq c y Hc Hy).
  destruct (c_events y) as [|msg rest] eqn:E; [by injection H as <- <-|].
  apply Forall_cons in Hq as [Hmsg Hrest]. apply bind_ok in H as ([] & s1 & H1 & H).
  apply bind_ok in H as ([] & s2 & [= <-] & [= <- <-]).
  refine (_ (stays_put_cpu c (fun z => mk_cpu (c_plic_cntxt z) (c_vcpu z) (c_csr z) (tail (c_events z)))
    Hc _ _ s tt s1 Hr _)).
  - intros (Hr1 & Hc1 & _). split_and!; done.
  - intros z _ Hz. exact Hz.
  - intros z Hz. simpl. destruct Hz; simpl; [constructor|done].
  - rewrite (bind_eq _ _ s y s (get_cpu_eq _ _ _ Hy)), E. exact H1.
Qed.

Lemma stays_msg_loop fuel : stays (msg_loop fuel c) (fun _ => True).
Proof.
  induction fuel as [|f IH]; simpl; [by intros s b s' _|].
  eapply stays_bind; [apply stays_get_msg|]. intros [msg|] Hm; [|stay].
  eapply stays_bind; [by apply stays_run_msg|]. by intros _ _.
Qed.

Lemma stays_get_st : stays get_st (fun _ => True).
Proof. by apply stays_readonly; intros s a s' _ [= <- <-]. Qed.

Lemma stays_get_cpu : stays (get_cpu c) (fun _ => True).
Proof. apply stays_readonly. by intros s a s' _ [-> _]%get_cpu_ok. Qed.

Lemma stays_irq h : stays (run_irq_handler c h) (fun _ => True).
Proof.
  destruct h; simpl; [|unfold sbi_timer_irq_handler; stay].
  eapply stays_bind; [apply stays_get_cpu|]. intros y _. apply stays_msg_loop.
Qed.

Lemma stays_interrupts_handle id : stays (interrupts_handle c id) (fun _ => True).
Proof.
  unfold interrupts_handle. stay. eapply stays_bind; [apply stays_get_st|]. intros s0 _. stay.
  - eapply stays_bind; [apply stays_inject|]. stay.
  - destruct (hy_handlers s0 !! id); [|by intros s b s' _]. eapply stays_bind; [apply stays_irq|]. stay.
  - by intros s b s' _.
Qed.

Lemma stays_arch_handle claim : stays (interrupts_arch_handle c claim) (fun _ => True).
Proof.
  unfold interrupts_arch_handle, plic_handle.
  eapply stays_bind; [apply (stays_readonly (CSRR c CSR_SCAUSE) (fun _ => True)); intros s a s' _ H; by apply csrr_ok in H|].
  stay.
  - eapply stays_bind; [apply stays_interrupts_handle|]. stay.
  - eapply stays_bind; [apply stays_interrupts_handle|]. stay.
  - eapply stays_bind; [apply stays_interrupts_handle|]. intros [] _; [|stay].
    eapply stays_bind; [apply stays_get_cpu|]. stay.
Qed.
End Confine.

(** The set-up of VM [x], on whose CPU [c] the guest is: the number of CPUs and
    of contexts, and contexts of the interrupt controller for its harts. *)
Record wf_guest `{!Env} (c : Z) (x : vm) : Prop := {
  wg_cpus : 0 <= vm_cpus x < 2 ^ 64;
  wg_on : Z.testbit (vm_cpus x) c = true;
  wg_list : forall p, p ∈ vm_vcpu_list x -> Z.testbit (vm_cpus x) p = true;
  wg_num : vm_cpu_num x = rank (vm_cpus x) 64;
  wg_cntxt : vp_cntxt_num (vm_vplic x) = 2 * vm_cpu_num x;
  wg_plat : vp_cntxt_num (vm_vplic x) <= plic_cntxt_num < 2 ^ 31;
  wg_harts : forall h, Z.testbit (vm_cpus x) h = true -> 2 * h + 1 < plic_cntxt_num
}.

(** ** Executions *)

(** What happens on CPU [c] while the guest is on it: it runs and changes its
    registers and status registers (the hardware sets those that describe a
    trap), it traps, or an interrupt arrives. *)
Inductive guest_event `{!Env} (c : Z) : hyp -> hyp -> Prop :=
  | GRun s y v regs sepc csr :
      hy_cpus s !! c = Some y -> c_vcpu y = Some v ->
      guest_event c s (set_cpus (fun m => <[c := mk_cpu (c_plic_cntxt y)
        (Some (set_sepc sepc (set_regs regs v))) csr (c_events y)]> m) s)
  | GTrap s s' :
      (forall acc, fault_access c s acc -> good_complete c acc s) ->
      sync_exception_handler c s = Ok (tt, s') -> guest_event c s s'
  | GIrq s s' claim : interrupts_arch_handle c claim s = Ok (tt, s') -> guest_event c s s'.

Lemma guest_event_confined `{!Env} c i x s s' :
  wf_guest c x -> runs c i x s -> guest_event c s s' -> runs c i x s' /\ confined i x s s'.
Proof.
  intros [] Hr Hev. revert Hr. destruct Hev as [s0 y v regs sepc csr Hy Hv|s0 s1 Hg E|s0 s1 claim E]; intros Hr.
  - refine (_ (stays_put_cpu c i x wg_on0 c
      (fun z => mk_cpu (c_plic_cntxt z) (set_sepc sepc ∘ set_regs regs <$> c_vcpu z) csr (c_events z))
      _ _ _ s0 tt _ Hr _)).
    + intros (? & ? & _). split; eassumption.
    + done.
    + intros z _ (w & Hw & Hg). exists (set_sepc sepc (set_regs regs w)). cbn [c_vcpu]. by rewrite Hw.
    + done.
    + rewrite (bind_eq _ _ s0 y s0 (get_cpu_eq _ _ _ Hy)), Hv. reflexivity.
  - by eapply sync_exception_confined.
  - eapply stays_arch_handle in E as (? & ? & _); by eauto.
Qed.

(** C1. Isolation over whole executions: however long the guest runs, whatever
    it does to its registers, whatever it asks for in traps (environment calls
    and accesses to emulated devices, other than a completion with an identifier
    out of range) and whatever interrupts arrive on its CPU (with the messages
    of other CPUs they dispatch), no memory outside the VM's own virtual PLIC is
    written, every other VM's
    record and the hypervisor's tables are as at the start, and the CPUs of
    other VMs have at most received inter-VM notifications; the guest stays on
    its CPU under the invariant. *)
Theorem guest_execution_confined `{!Env} c i x s s' :
  wf_guest c x -> runs c i x s -> rtc (guest_event c) s s' -> runs c i x s' /\ confined i x s s'.
Proof.
  intros Hw Hr Hrun. revert Hr. induction Hrun as [s|s1 s2 s3 Hev _ IH]; intros Hr.
  - split; [done|]. apply confined_preorder.
  - destruct (guest_event_confined c i x s1 s2 Hw Hr Hev) as [Hr2 Hc2].
    destruct (IH Hr2) as [Hr3 Hc3]. split; [done|]. pose proof (confined_preorder i x). by etrans.
Qed.

#[local] Existing Instance demo_env2.

(** The guest of [Sbi.smp_hyp] traps with a call to start a hart. *)
Definition trap_hyp : hyp :=
  mk_hyp {[ 0 := mk_cpu 1 (Some (caller [(REG_A7, SBI_EXTID_HSM); (REG_A0, 1); (REG_A1, 4096)]))
                   (st (st ∅ CSR_SCAUSE 10) CSR_HSTATUS 128) [];
            1 := mk_cpu 3 (Some sleeper) ∅ [] ]}
    {[ 0 := smp_vm ]} (mk_plic 31 ∅ ∅ ∅ ∅) 126 [] ∅ ∅ ∅ [].

Lemma smp_wf : wf_guest 0 smp_vm.
Proof.
  split; try reflexivity; try (simpl; lia).
  - intros p Hp. apply elem_of_cons in Hp as [->|Hp]; [reflexivity|].
    apply list_elem_of_singleton in Hp as ->. reflexivity.
  - intros h Hh. simpl in *. destruct (Z.ltb_spec h 0); [lia|]. destruct (Z.ltb_spec h 2); [lia|].
    rewrite Z.bits_above_log2 in Hh; [done|lia|simpl; lia].
Qed.

Lemma trap_runs : runs 0 0 smp_vm trap_hyp.
Proof.
  split_and!.
  - exists ∅. split; [reflexivity|]. intros k _. reflexivity.
  - eexists _, _. split; [reflexivity|]. split; [reflexivity|]. split; [done|simpl; lia].
  - intros d y _ Hd. unfold trap_hyp in Hd. cbn [hy_cpus] in Hd.
    apply lookup_insert_Some in Hd as [[_ <-]|[_ [_ <-]%lookup_singleton_Some]]; constructor.
Qed.

(** The guest traps, then takes a timer interrupt it has not been given: the
    hypervisor's handler forwards it as a virtual timer interrupt. *)
Definition timer_hyp : hyp :=
  mk_hyp {[ 0 := mk_cpu 1 (Some (caller [])) (st ∅ CSR_SCAUSE (SCAUSE_INT + 5)) []; 1 := mk_cpu 3 (Some sleeper) ∅ [] ]}
    {[ 0 := smp_vm ]} (mk_plic 31 ∅ ∅ ∅ ∅) 126 [] (bitmap_set ∅ 0 TIMR_INT_ID) ∅
    {[ TIMR_INT_ID := SBI_TIMER_IRQ_HANDLER ]} [].

Lemma timer_runs : runs 0 0 smp_vm timer_hyp.
Proof.
  split_and!.
  - exists ∅. split; [reflexivity|]. intros k _. reflexivity.
  - eexists _, _. split; [reflexivity|]. split; [reflexivity|]. split; [done|simpl; lia].
  - intros d y _ Hd. unfold timer_hyp in Hd. cbn [hy_cpus] in Hd.
    apply lookup_insert_Some in Hd as [[_ <-]|[_ [_ <-]%lookup_singleton_Some]]; constructor.
Qed.

Lemma guest_execution_confined_witness :
  (exists s', sync_exception_handler 0 trap_hyp = Ok (tt, s') /\
    runs 0 0 smp_vm s' /\ confined 0 smp_vm trap_hyp s') /\
  (exists s', interrupts_arch_handle 0 0 timer_hyp = Ok (tt, s') /\
    runs 0 0 smp_vm s' /\ confined 0 smp_vm timer_hyp s').
Proof.
  split.
  - destruct (sync_exception_handler 0 trap_hyp) as [[[] s']|] eqn:E; [|vm_compute in E; discriminate E].
    exists s'. split; [reflexivity|].
    apply (guest_execution_confined 0 0 smp_vm trap_hyp s'); [exact smp_wf|exact trap_runs|].
    apply rtc_once. apply (GTrap 0 trap_hyp s'); [|exact E].
    intros acc (htval & ins & sz & emul & _ & E2 & E3 & _). vm_compute in E2.
    injection E2 as <- <-. vm_compute in E3. discriminate E3.
  - destruct (interrupts_arch_handle 0 0 timer_hyp) as [[[] s']|] eqn:E; [|vm_compute in E; discriminate E].
    exists s'. split; [reflexivity|].
    apply (guest_execution_confined 0 0 smp_vm timer_hyp s'); [exact smp_wf|exact timer_runs|].
    apply rtc_once. by apply (GIrq 0 timer_hyp s' 0).
Defined.
