(* ===== verification/Dispatch.v ===== *)
(** * The dispatch of messages ends

    [cpu_msg_handler] takes messages from the CPU's queue until it is empty.
    The handlers may send messages, but never to their own CPU, so the loop
    ends after the messages that were queued when it began. *)

From S2P Require Import Prelude Bit Bitmap CpuMsg State Calls Plic Vplic Ipc Interrupts Sbi Traps.

Section Dispatch.
Context {Henv : Env} (c : Z).

Definition events (s : hyp) : option (list cpu_msg) := c_events <$> hy_cpus s !! c.

(** [m] does not hang and leaves the queue of the CPU as it is. *)
Definition quiet {A} (m : M A) : Prop :=
  forall s, match m s with Ok (_, s') => events s' = events s | Fault f => f <> Hang end.

Lemma quiet_ret {A} (a : A) : quiet (mret a).
Proof. by intros s. Qed.

Lemma quiet_bind {A B} (m : M A) (k : A -> M B) : quiet m -> (forall a, quiet (k a)) -> quiet (m ≫= k).
Proof.
  intros Hm Hk s. specialize (Hm s). destruct (m s) as [[a s1]|f] eqn:E.
  - rewrite (bind_eq m k s a s1 E). specialize (Hk a s1). destruct (k a s1) as [[b s2]|]; [|done]. congruence.
  - by rewrite (bind_fault m k s f E).
Qed.

Lemma quiet_if {A} (b : bool) (m1 m2 : M A) : quiet m1 -> quiet m2 -> quiet (if b then m1 else m2).
Proof. by destruct b. Qed.

Lemma quiet_log e : quiet (log e).
Proof. by intros s. Qed.

Lemma quiet_fail {A} f : f <> Hang -> quiet (fail f : M A).
Proof. by intros Hf s. Qed.

Lemma quiet_get_st : quiet get_st.
Proof. by intros s. Qed.

Lemma quiet_get_cpu d : quiet (get_cpu d).
Proof.
  apply quiet_bind; [apply quiet_get_st|]. intros s. destruct (hy_cpus s !! d); [apply quiet_ret|by apply quiet_fail].
Qed.

Lemma quiet_get_vm i : quiet (get_vm i).
Proof.
  apply quiet_bind; [apply quiet_get_st|]. intros s. destruct (hy_vms s !! i); [apply quiet_ret|by apply quiet_fail].
Qed.

Lemma quiet_get_vcpu d : quiet (get_vcpu d).
Proof.
  apply quiet_bind; [apply quiet_get_cpu|]. intros y. destruct (c_vcpu y); [apply quiet_ret|by apply quiet_fail].
Qed.

Lemma quiet_put_vm i x : quiet (put_vm i x).
Proof. by intros s. Qed.

Lemma quiet_set_plic f : quiet (mod_st (set_plic f)).
Proof. by intros s. Qed.

(** Replacing a CPU without touching its queue. *)
Lemma quiet_update d (f : cpu -> cpu) : (forall y, c_events (f y) = c_events y) -> quiet (y ← get_cpu d; put_cpu d (f y)).
Proof.
  intros Hf s. destruct (hy_cpus s !! d) as [y|] eqn:E.
  - rewrite (bind_eq _ _ s y s (get_cpu_eq _ _ _ E)). simpl. unfold events. simpl.
    destruct (decide (d = c)) as [->|]; [by rewrite lookup_insert_eq, E; simpl; rewrite Hf|by rewrite lookup_insert_ne].
  - rewrite (bind_fault _ _ s NullDeref); [done|]. unfold get_cpu.
    rewrite (bind_eq _ _ s s s eq_refl). by rewrite E.
Qed.

(** A message to another CPU. *)
Lemma quiet_send d msg : d <> c -> quiet (send_msg d msg).
Proof.
  intros Hd s. unfold send_msg. rewrite (bind_eq _ _ s (hy_left s) s eq_refl). destruct (hy_left s =? 0); [done|].
  rewrite (bind_eq _ _ s tt (set_left (fun n => n - 1) s) eq_refl).
  destruct (hy_cpus s !! d) as [y|] eqn:E.
  - rewrite (bind_eq (get_cpu d) _ _ y (set_left (fun n => n - 1) s)) by (by apply get_cpu_eq).
    unfold events. simpl. by rewrite lookup_insert_ne.
  - rewrite (bind_fault _ _ _ NullDeref); [done|]. unfold get_cpu.
    rewrite (bind_eq _ _ _ _ _ eq_refl). simpl. by rewrite E.
Qed.

Ltac hush :=
  repeat match goal with
  | |- forall _, quiet _ => intros ?
  | |- quiet (if decide _ then _ else _) => destruct (decide _)
  | |- quiet (if _ then _ else _) => apply quiet_if
  | |- quiet (mret _) => apply quiet_ret
  | |- quiet (log _) => apply quiet_log
  | |- quiet (get_vcpu _) => apply quiet_get_vcpu
  | |- quiet (get_vm _) => apply quiet_get_vm
  | |- quiet (put_vm _ _) => apply quiet_put_vm
  | |- quiet (put_vcpu _ _) => by apply (quiet_update _ (set_vcpu _))
  | |- quiet (CSRS _ ?k ?v) => by apply (quiet_update _ (fun y => set_csr k (Z.lor (ld (c_csr y) k) v) y))
  | |- quiet (CSRC _ ?k ?v) => by apply (quiet_update _ (fun y => set_csr k (Z.ldiff (ld (c_csr y) k) v) y))
  | |- quiet (CSRW _ ?k ?v) => by apply (quiet_update _ (set_csr k v))
  | |- quiet (_ ≫= _) => apply quiet_bind
  end.

Lemma quiet_update_hart_line vc : quiet (vplic_update_hart_line c vc).
Proof.
  unfold vplic_update_hart_line, cur_vm. apply quiet_bind; [hush|]. intros a.
  destruct (Z.eqb_spec (u64 (hart_id (plic_plat_id_to_cntxt (vplic_vcntxt_to_pcntxt a vc)))) c); hush.
  by apply quiet_send.
Qed.

Lemma quiet_update_lines test i k : quiet (update_lines c test i k).
Proof.
  revert i. induction k as [|k IH]; intros i; simpl; [apply quiet_ret|].
  apply quiet_bind; [|intros _; apply IH]. unfold cur_vplic, cur_vm. hush. apply quiet_update_hart_line.
Qed.

Lemma quiet_inject id : quiet (vplic_inject c id).
Proof.
  unfold vplic_inject, cur_vplic, put_vplic, cur_vm. hush;
    [apply quiet_update_hart_line|apply quiet_update_lines].
Qed.

Lemma quiet_run_msg msg : quiet (run_msg_handler c msg).
Proof.
  unfold run_msg_handler, vplic_ipi_handler, sbi_msg_handler, vcpu_arch_reset, vcpu_writereg, ipc_handler, ipc_notify, cur_vm.
  hush; [apply quiet_update_hart_line|].
  destruct (ipc_find_by_shmemid _ _); hush. apply quiet_inject.
Qed.

Lemma get_msg_eq s y : hy_cpus s !! c = Some y ->
  get_msg c s = match c_events y with
    | [] => Ok (None, s)
    | msg :: rest => Ok (Some msg, set_left (fun n => n + 1)
        (set_cpus (fun m => <[c := mk_cpu (c_plic_cntxt y) (c_vcpu y) (c_csr y) rest]> m) s))
    end.
Proof. intros Hy. unfold get_msg. rewrite (bind_eq _ _ s y s (get_cpu_eq _ _ _ Hy)). by destruct (c_events y). Qed.

(** With fuel for the messages in the queue the loop does not run out. *)
Lemma msg_loop_ends fuel s q :
  events s = Some q -> (length q < fuel)%nat ->
  match msg_loop fuel c s with Ok (_, s') => events s' = Some [] | Fault f => f <> Hang end.
Proof.
  revert s q. induction fuel as [|f IH]; intros s q Hq Hf; [lia|]. simpl.
  unfold events in Hq. destruct (hy_cpus s !! c) as [y|] eqn:Hy; [|done]. simpl in Hq. injection Hq as Hq.
  pose proof (get_msg_eq s y Hy) as E. rewrite Hq in E. destruct q as [|msg rest].
  { rewrite (bind_eq _ _ _ _ _ E). simpl. unfold events. by rewrite Hy; simpl; rewrite Hq. }
  rewrite (bind_eq _ _ _ _ _ E). set (s1 := set_left _ _) in *.
  assert (events s1 = Some rest) as E1 by (unfold events, s1; simpl; by rewrite lookup_insert_eq).
  pose proof (quiet_run_msg msg s1) as Hr. destruct (run_msg_handler c msg s1) as [[[] s2]|g] eqn:E2.
  - rewrite (bind_eq _ _ _ _ _ E2). apply (IH s2 rest); [congruence|simpl in Hf; lia].
  - by rewrite (bind_fault _ _ _ _ E2).
Qed.
End Dispatch.

(** The dispatch of messages ends: whatever is queued for a CPU, its message
    handler returns with the queue empty or panics (a handler runs out of message
    nodes or meets a missing object); it never loops for ever, because no handler
    sends a message to its own CPU. *)
Theorem msg_dispatch_terminates `{!Env} c s y :
  hy_cpus s !! c = Some y ->
  match msg_handler_hyp c s with Ok (_, s') => events c s' = Some [] | Fault f => f <> Hang end.
Proof.
  intros Hy. unfold msg_handler_hyp. rewrite (bind_eq _ _ s y s (get_cpu_eq _ _ _ Hy)).
  apply (msg_loop_ends c _ s (c_events y)); [unfold events; by rewrite Hy|lia].
Qed.

#[local] Existing Instance demo_env2.

(** Two messages are queued: an inter-processor interrupt and an unknown one. *)
Definition queued_hyp : hyp :=
  mk_hyp {[ 0 := mk_cpu 1 (Some (caller [])) ∅ [mk_msg SBI_MSG_ID SEND_IPI 0; mk_msg 77 0 0] ]}
    {[ 0 := smp_vm ]} (mk_plic 31 ∅ ∅ ∅ ∅) 124 [] ∅ ∅ ∅ [].

Lemma msg_dispatch_terminates_witness :
  exists s', msg_handler_hyp 0 queued_hyp = Ok (tt, s') /\ events 0 s' = Some [].
Proof.
  pose proof (msg_dispatch_terminates 0 queued_hyp _ eq_refl) as H.
  destruct (msg_handler_hyp 0 queued_hyp) as [[[] s']|] eqn:E; [|vm_compute in E; discriminate E].
  exists s'. split; [reflexivity|exact H].
Defined.
