(* ===== verification/VmInit.v ===== *)
(** * Set-up of virtual machines

    [core/vm.c] from [vm_master_init] to [vm_init], with [vm_arch_init] of the
    RISC-V part, [core/iommu.c] and [mem_map_reclr] of [core/mem.c]: the address
    space of a VM is created and its memory regions, image, devices and shared
    memory objects are mapped as the configuration says. These functions work on
    the page tables and page pools of [MemMap] and on the hypervisor state of
    [State]; the copies of image pages and the cache maintenance are a log. *)

From S2P Require Import Prelude Bit Bitmap PagePool PageTable MemMap State Calls Vplic Ipc Interrupts.

(** ** Configuration *)
Record mem_region := mk_rgn {
  rg_base : Z; rg_size : Z; rg_colors : Z; rg_place_phys : bool; rg_phys : Z
}.

Record dev_region := mk_dev { dv_pa : Z; dv_va : Z; dv_size : Z; dv_interrupts : list Z; dv_id : Z }.

Record vm_config := mk_vmcfg {
  img_base : Z; img_load : Z; img_size : Z;
  cf_entry : Z;
  cf_colors : Z;
  cf_cpu_num : Z;
  cf_regions : list mem_region;
  cf_devs : list dev_region;
  cf_ipcs : list ipc
}.

(** ** State *)

(** Copies between pages, and the cache maintenance the platform defines. *)
Inductive iop := Memcpy (dst src len : Z) | CacheFlush (base len : Z).

(** [is_as] holds the address space of each VM, [is_iommu] the devices of each
    VM, the newest last. *)
Record istate (A : Type) := mk_is {
  is_ms : mstate A; is_hyp : hyp; is_as : gmap Z addr_space; is_iommu : gmap Z (list Z); is_ops : list iop
}.
Arguments mk_is {A} _ _ _ _ _.
Arguments is_ms {A} _.
Arguments is_hyp {A} _.
Arguments is_as {A} _.
Arguments is_iommu {A} _.
Arguments is_ops {A} _.

Definition IM (A B : Type) : Type := istate A -> res (B * istate A).

#[export] Instance IM_ret A : MRet (IM A) := fun B b s => Ok (b, s).
#[export] Instance IM_bind A : MBind (IM A) :=
  fun B C k m s => match m s with Ok (b, s') => k b s' | Fault f => Fault f end.

Section VmInit.
Context {A : Type} `{!PageAlloc A} {Henv : Env}.

Definition faili {B} (f : fault) : IM A B := fun _ => Fault f.
Definition liftp {B} (m : PM A B) : IM A B :=
  fun s => '(b, ms) ← m (is_ms s); Ok (b, mk_is ms (is_hyp s) (is_as s) (is_iommu s) (is_ops s)).
Definition lifth {B} (m : M B) : IM A B :=
  fun s => '(b, h) ← m (is_hyp s); Ok (b, mk_is (is_ms s) h (is_as s) (is_iommu s) (is_ops s)).
Definition op (o : iop) : IM A unit :=
  fun s => Ok (tt, mk_is (is_ms s) (is_hyp s) (is_as s) (is_iommu s) (is_ops s ++ [o])).
Definition get_as (i : Z) : IM A addr_space :=
  fun s => match is_as s !! i with Some a => Ok (a, s) | None => Fault NullDeref end.
Definition put_as (i : Z) (a : addr_space) : IM A unit :=
  fun s => Ok (tt, mk_is (is_ms s) (is_hyp s) (<[i := a]> (is_as s)) (is_iommu s) (is_ops s)).

Fixpoint iter {B} (f : B -> IM A unit) (l : list B) : IM A unit :=
  match l with [] => mret tt | x :: rest => f x;; iter f rest end.

(** What the platform and the linker fix: the colours, the sections and the
    address space of the hypervisor on the current CPU, its memory regions, the
    pages of a [vcpu_t], the tables a search may visit, and whether the cache of
    IOMMU nodes of a VM can serve one more. *)
Context (COLOR_NUM COLOR_SIZE : Z) (hyp_secs : list section) (cpu_as : addr_space) (platform_regions : list (Z * Z))
  (vcpu_pages : Z) (fuel : nat) (iommu_node : Z -> list Z -> bool).

Definition SEC_VM_ANY : nat := 0.

Definition alloc_vpage (a : addr_space) (sec : nat) (at_ n : Z) : IM A Z :=
  liftp (mem_alloc_vpage hyp_secs a fuel sec at_ n).
Definition map (a : addr_space) (va : Z) (pp : option ppages) (n flags : Z) : IM A Z :=
  liftp (mem_map COLOR_NUM COLOR_SIZE hyp_secs cpu_as a va pp n flags).

(** ** Recolouring *)
Definition clr_bit (colors i clr_offset : Z) : bool := Z.testbit colors ((i + clr_offset) / COLOR_SIZE mod COLOR_NUM).

(** The colours of the first [COLOR_NUM] that are not assigned. *)
Fixpoint missing_clrs (colors i : Z) (k : nat) : Z :=
  match k with O => 0 | S k' => (if Z.testbit colors i then 0 else 1) + missing_clrs colors (i + 1) k' end.

Fixpoint missing_pages (colors clr_offset i : Z) (k : nat) : Z :=
  match k with
  | O => 0
  | S k' => (if clr_bit colors i clr_offset then 0 else 1) + missing_pages colors clr_offset (i + 1) k'
  end.

Definition reclr_count (colors clr_offset n : Z) : Z :=
  n / (COLOR_NUM * COLOR_SIZE) * COLOR_SIZE * missing_clrs colors 0 (Z.to_nat COLOR_NUM) +
  missing_pages colors clr_offset 0 (Z.to_nat (n mod (COLOR_NUM * COLOR_SIZE))).

(** The pages of the image, one entry of the last level each: an image page of
    a colour of the VM is mapped, another is copied to the next new page. *)
Fixpoint reclr_loop (a : addr_space) (flags clr_offset base : Z) (vaddr paddr clrd_vaddr phys_va index i : Z) (k : nat)
    : IM A unit :=
  match k with
  | O => mret tt
  | S k' =>
      m ← liftp get_mem;
      let pte := pt_get_pte m (as_pt a) (lvls (pt_dscr (as_pt a)) - 1) vaddr in
      if clr_bit (as_colors a) i clr_offset then
        liftp (store pte (pte_set paddr PTE_PAGE flags));;
        reclr_loop a flags clr_offset base (u64 (vaddr + PAGE_SIZE)) (u64 (paddr + PAGE_SIZE)) clrd_vaddr
          (u64 (phys_va + PAGE_SIZE)) index (i + 1) k'
      else
        op (Memcpy clrd_vaddr phys_va PAGE_SIZE);;
        index ← liftp (next_clr COLOR_NUM COLOR_SIZE base index (as_colors a));
        liftp (store pte (pte_set (u64 (base + index * PAGE_SIZE)) PTE_PAGE flags));;
        reclr_loop a flags clr_offset base (u64 (vaddr + PAGE_SIZE)) (u64 (paddr + PAGE_SIZE))
          (u64 (clrd_vaddr + PAGE_SIZE)) (u64 (phys_va + PAGE_SIZE)) (index + 1) (i + 1) k'
  end.

Definition mem_map_reclr (a : addr_space) (va : Z) (ppages : option ppages) (n flags : Z) : IM A Z :=
  match ppages with
  | None => faili (Panic "no indication on what to recolor")
  | Some pp =>
  let clr_offset := (pg_base pp / PAGE_SIZE) mod (COLOR_NUM * COLOR_SIZE) in
  let reclrd_num := reclr_count (as_colors a) clr_offset n in
  if all_clrs COLOR_NUM (as_colors a) || (reclrd_num =? 0) then map a va (Some pp) n flags
  else
    reclrd_va_base ← alloc_vpage cpu_as SEC_HYP_VM 0 reclrd_num;
    reclrd_ppages ← liftp (alloc_pages (as_colors a) reclrd_num false);
    map cpu_as reclrd_va_base (Some reclrd_ppages) reclrd_num PTE_HYP_FLAGS;;
    phys_va_base ← alloc_vpage cpu_as SEC_HYP_VM 0 n;
    map cpu_as phys_va_base (Some pp) n PTE_HYP_FLAGS;;
    let vaddr := Z.land va (Z.lnot (PAGE_SIZE - 1)) in
    liftp (mem_inflate_pt cpu_as a vaddr (n * PAGE_SIZE));;
    reclr_loop a flags clr_offset (pg_base reclrd_ppages) vaddr (pg_base pp) reclrd_va_base phys_va_base 0 0 (Z.to_nat n);;
    op (CacheFlush reclrd_va_base (reclrd_num * PAGE_SIZE));;
    liftp (free_pages (mk_ppages (pg_base pp) reclrd_num (u64 (Z.lnot (as_colors a)))));;
    liftp (mem_free_vpage hyp_secs cpu_as cpu_as fuel reclrd_va_base reclrd_num false);;
    liftp (mem_free_vpage hyp_secs cpu_as cpu_as fuel phys_va_base n false);;
    mret 0
  end.

(** ** Mapping the memory of a VM *)
Definition vm_copy_img_to_rgn (cfg : vm_config) (reg : mem_region) : IM A unit :=
  let n_img := NUM_PAGES (img_size cfg) in
  src_va ← alloc_vpage cpu_as SEC_HYP_GLOBAL 0 n_img;
  r ← map cpu_as src_va (Some (mem_ppages_get (img_load cfg) n_img)) n_img PTE_HYP_FLAGS;
  if negb (r =? 0) then faili (Panic "mem_map failed")
  else
    let offset := u64 (img_base cfg - rg_base reg) in
    let dst_phys := u64 (rg_phys reg + offset) in
    dst_va ← alloc_vpage cpu_as SEC_HYP_GLOBAL 0 n_img;
    r ← map cpu_as dst_va (Some (mem_ppages_get dst_phys n_img)) n_img PTE_HYP_FLAGS;
    if negb (r =? 0) then faili (Panic "mem_map failed")
    else op (Memcpy dst_va src_va (n_img * PAGE_SIZE));; op (CacheFlush dst_va (n_img * PAGE_SIZE)).

Definition vm_map_mem_region (i : Z) (reg : mem_region) : IM A unit :=
  let n := NUM_PAGES (rg_size reg) in
  a ← get_as i;
  va ← alloc_vpage a SEC_VM_ANY (rg_base reg) n;
  if negb (va =? rg_base reg) then faili (Panic "failed to allocate vm's dev address")
  else if rg_place_phys reg then map a va (Some (mem_ppages_get (rg_phys reg) n)) n PTE_VM_FLAGS;; mret tt
  else map a va None n PTE_VM_FLAGS;; mret tt.

Definition vm_map_img_rgn_inplace (i : Z) (cfg : vm_config) (reg : mem_region) : IM A unit :=
  let n_before := u64 (img_base cfg - rg_base reg) / PAGE_SIZE in
  let n_aft := u64 (u64 (rg_base reg + rg_size reg) - u64 (img_base cfg + img_size cfg)) / PAGE_SIZE in
  let n_img := NUM_PAGES (img_size cfg) in
  let n_total := n_before + n_aft + n_img in
  let pa_img := mem_ppages_get (img_load cfg) n_img in
  a ← get_as i;
  va ← alloc_vpage a SEC_VM_ANY (rg_base reg) n_total;
  map a va None n_before PTE_VM_FLAGS;;
  (if all_clrs COLOR_NUM (as_colors a) then map a (u64 (va + n_before * PAGE_SIZE)) (Some pa_img) n_img PTE_VM_FLAGS
   else mem_map_reclr a (u64 (va + n_before * PAGE_SIZE)) (Some pa_img) n_img PTE_VM_FLAGS);;
  map a (u64 (va + (n_before + n_img) * PAGE_SIZE)) None n_aft PTE_VM_FLAGS;;
  mret tt.

Definition vm_map_img_rgn (i : Z) (cfg : vm_config) (reg : mem_region) : IM A unit :=
  if rg_place_phys reg then vm_copy_img_to_rgn cfg reg;; vm_map_mem_region i reg
  else vm_map_img_rgn_inplace i cfg reg.

(** One pass of the loop over the regions, and the loop. *)
Definition vm_init_region (i : Z) (cfg : vm_config) (reg : mem_region) : IM A unit :=
  if range_in_range (img_base cfg) (img_size cfg) (rg_base reg) (rg_size reg) then vm_map_img_rgn i cfg reg
  else vm_map_mem_region i reg.

Definition vm_init_mem_regions (i : Z) (cfg : vm_config) : IM A unit := iter (vm_init_region i cfg) (cf_regions cfg).

(** A shared memory object the configuration does not have is ignored; a
    mapping larger than its object is cut to the object's size. *)
Definition vm_init_ipc (i : Z) (cfg : vm_config) : IM A unit :=
  lifth (x ← get_vm i;
         put_vm i (mk_vm (vm_id x) (vm_master x) (vm_cpu_num x) (vm_cpus x) (vm_vcpu_list x) (vm_vplic x)
                     (vm_emul_list x) (vm_interrupts x) (cf_ipcs cfg)));;
  iter (fun o =>
    h ← lifth get_st;
    match ipc_get_shmem (hy_shmem h) (ipc_shmem_id o) with
    | None => lifth (log (Warn "Invalid shmem id in configuration. Ignored."))
    | Some sh =>
        size ← (if sh_size sh <? ipc_size o
                then lifth (log (Warn "Trying to map region to smaller shared memory. Truncated"));; mret (sh_size sh)
                else mret (ipc_size o));
        vm_map_mem_region i (mk_rgn (ipc_base o) size (sh_colors sh) true (sh_phys sh))
    end) (cf_ipcs cfg).

(** ** Devices *)
Definition iommu_arch_vm_init : Z := 0.
Definition iommu_arch_vm_add_device (dev_id : Z) : Z := 0.

(** [iommu_vm_init]; the cache of nodes is empty at first. *)
Definition iommu_vm_init (i : Z) : IM A Z := mret iommu_arch_vm_init.

Definition iommu_vm_add_device (i dev_id : Z) : IM A Z :=
  fun s =>
    let res := if negb (dev_id =? 0) then iommu_arch_vm_add_device dev_id else -1 in
    let l := default [] (is_iommu s !! i) in
    if 0 <=? res then
      if iommu_node i l then
        Ok (res, mk_is (is_ms s) (is_hyp s) (is_as s) (<[i := l ++ [dev_id]]> (is_iommu s)) (is_ops s))
      else Ok (-1, s)
    else Ok (res, s).

Definition vm_init_dev (i : Z) (cfg : vm_config) : IM A unit :=
  iter (fun dev =>
    let n := ALIGN (dv_size dev) PAGE_SIZE / PAGE_SIZE in
    a ← get_as i;
    va ← alloc_vpage a SEC_VM_ANY (dv_va dev) n;
    liftp (mem_map_dev COLOR_NUM COLOR_SIZE hyp_secs cpu_as a va (dv_pa dev) n);;
    iter (fun id => lifth (interrupts_vm_assign i id)) (dv_interrupts dev)) (cf_devs cfg);;
  r ← iommu_vm_init i;
  if 0 <=? r then
    iter (fun dev =>
      if negb (dv_id dev =? 0) then
        r ← iommu_vm_add_device i (dv_id dev);
        if r <? 0 then faili (Panic "Failed to add device to iommu") else mret tt
      else mret tt) (cf_devs cfg)
  else mret tt.

(** ** The whole set-up *)
Definition vm_master_init (c i : Z) (cfg : vm_config) : IM A unit :=
  x ← lifth (get_vm i);
  a ← liftp (as_init COLOR_NUM COLOR_SIZE hyp_secs fuel cpu_as platform_regions AS_VM i 0 (cf_colors cfg));
  put_as i a;;
  lifth (put_vm i (mk_vm i c (cf_cpu_num cfg) (vm_cpus x) (vm_vcpu_list x) (vm_vplic x) [] (vm_interrupts x) (vm_ipcs x))).

Definition HGATP_MODE_DFLT : Z := Z.shiftl 8 60.
Definition HGATP_VMID_MSK : Z := Z.shiftl (Z.ones 14) 44.

(** The root table's physical address, or what the local held before when the
    translation fails. *)
Definition vm_arch_init (c i : Z) : IM A unit :=
  a ← get_as i;
  m ← liftp get_mem;
  let root_pt_pa := default uninit_value (mem_translate m (as_pt cpu_as) (pt_root (as_pt a))) in
  x ← lifth (get_vm i);
  lifth (CSRW c CSR_HGATP (Z.lor (Z.lor (Z.shiftr root_pt_pa 12) HGATP_MODE_DFLT)
                                 (Z.land (u64 (Z.shiftl (vm_id x) 44)) HGATP_VMID_MSK)));;
  lifth (put_vm i (vplic_init c plic_base x)).

(** [vm_vcpu_init] with the allocation of the page that holds the virtual CPU. *)
Definition vm_vcpu_alloc_init (c i entry : Z) : IM A unit :=
  p ← liftp (mem_alloc_page COLOR_NUM COLOR_SIZE hyp_secs fuel cpu_as vcpu_pages SEC_HYP_VM false);
  if p =? 0 then faili (Panic "failed to allocate vcpu") else lifth (vm_vcpu_init c i entry).

(** [vm_init] on CPU [c] between its barriers. *)
Definition vm_init_join (c i : Z) (cfg : vm_config) (master : bool) : IM A unit :=
  (if master then vm_master_init c i cfg else mret tt);;
  lifth (x ← get_vm i; put_vm i (vm_cpu_init c x)).

Definition vm_init_finish (c i : Z) (cfg : vm_config) (master : bool) : IM A unit :=
  vm_arch_init c i;;
  if master then vm_init_mem_regions i cfg;; vm_init_dev i cfg;; vm_init_ipc i cfg else mret tt.

End VmInit.

(** [vm_init] on all CPUs of a VM, each with the address space of the hypervisor
    it runs in: the barriers keep the three parts apart, and [joins], [vcpus] and
    [finishes] are the orders in which the CPUs get through them. *)
Definition vm_init {A : Type} `{!PageAlloc A} {Henv : Env} (COLOR_NUM COLOR_SIZE : Z) (hyp_secs : list section)
    (cpu_as : Z -> addr_space) (platform_regions : list (Z * Z)) (vcpu_pages : Z) (fuel : nat)
    (iommu_node : Z -> list Z -> bool) (joins vcpus finishes : list Z) (master i : Z) (cfg : vm_config) : IM A unit :=
  iter (fun c => vm_init_join COLOR_NUM COLOR_SIZE hyp_secs (cpu_as c) platform_regions fuel c i cfg (c =? master)) joins;;
  iter (fun c => vm_vcpu_alloc_init COLOR_NUM COLOR_SIZE hyp_secs (cpu_as c) vcpu_pages fuel c i (cf_entry cfg)) vcpus;;
  iter (fun c => vm_init_finish COLOR_NUM COLOR_SIZE hyp_secs (cpu_as c) fuel iommu_node c i cfg (c =? master)) finishes.

(** ** The VM in the address spaces of its CPUs

    The end of [vmm_init] ([core/vmm.c]) and [vmm_arch_init]: the master maps the
    pages of [vm_t] and publishes the entry of its root table; the other CPUs of
    the VM copy the entry to their own root tables. *)
Section Vmm.
Context {A : Type} `{!PageAlloc A} {Henv : Env} (COLOR_NUM COLOR_SIZE : Z) (hyp_secs : list section) (fuel : nat).

Definition CSR_HEDELEG : Z := 0x602.
Definition CSR_HIDELEG : Z := 0x603.

(** VSSI, VSTI and VSEI; ECU, IPF, LPF and SPF. *)
Definition vmm_arch_init (c : Z) : M unit :=
  CSRW c CSR_HIDELEG (Z.lor (Z.lor (Z.shiftl 1 2) (Z.shiftl 1 6)) (Z.shiftl 1 10));;
  CSRW c CSR_HEDELEG (Z.lor (Z.lor (Z.lor (Z.shiftl 1 8) (Z.shiftl 1 12)) (Z.shiftl 1 13)) (Z.shiftl 1 15)).

Definition BAO_VM_BASE : Z := 0xffffffe000000000.

(** The entry the master publishes as [vm_shared_table]. *)
Definition vmm_map_vm (cpu_as : addr_space) (vm_npages : Z) : PM A Z :=
  va ← mem_alloc_vpage hyp_secs cpu_as fuel SEC_HYP_VM BAO_VM_BASE vm_npages;
  mem_map COLOR_NUM COLOR_SIZE hyp_secs cpu_as cpu_as va None vm_npages PTE_HYP_FLAGS;;
  (if va =? 0 then failp NullDeref else m ← get_mem; put_mem (mem_zero m va (vm_npages * PAGE_SIZE)));;
  m ← get_mem;
  load (pt_get_pte m (as_pt cpu_as) 0 BAO_VM_BASE).

(** Another CPU: 0 is not published yet, and the CPU waits. *)
Definition vmm_join_vm (cpu_as : addr_space) (vm_shared_table : Z) : PM A unit :=
  if vm_shared_table =? 0 then failp Hang
  else
    m ← get_mem;
    store (pt_get_pte m (as_pt cpu_as) 0 BAO_VM_BASE) vm_shared_table.
End Vmm.
