(* ===== verification/VmMap.v ===== *)
(** * The memory of a virtual machine

    What the set-up of [VmInit] maps into the address space of a VM, for VMs
    without colours: each memory region of the configuration is mapped where the
    configuration places it, or to pages of the VM's own, and nothing else is. *)

From S2P Require Import Prelude Bit Bitmap PagePool PageTable MemMap MapProofs VPage MapAlloc Isolate State Calls Vplic Ipc.
From S2P Require Import Interrupts VmInit.

Lemma NUM_PAGES_mono x y : x <= y -> NUM_PAGES x <= NUM_PAGES y.
Proof.
  intros H. unfold NUM_PAGES, ALIGN, PAGE_SIZE. rewrite !Z.div_mul by lia. apply Z.div_le_mono; lia.
Qed.

Section VmMap.
Context {A : Type} `{!PageAlloc A} (CN CS : Z) (hyp_secs : list section) (cpu_as a : addr_space) (fuel : nat).
Let pt := as_pt a.
Context (Hplain : pa_plain (as_colors a) = true) (Hcol : all_clrs CN (as_colors a) = true) (Htype : as_type a = AS_VM).

(** Reserved entries are mapped. *)
Definition tidy (m : mem) : Prop := forall u, rsvd a m u = true -> is_Some (mem_translate m pt u).

Record vm_range (base n : Z) : Prop := {
  r_aligned : base mod PAGE_SIZE = 0;
  r_pos : 0 < base;
  r_pages : 1 <= n;
  r_top : base + n * PAGE_SIZE <= 2 ^ wdt pt 0
}.

Lemma find_sec_vm va : 0 <= va < 2 ^ 64 -> mem_find_sec hyp_secs a va = Some 0%nat.
Proof.
  intros Hva. unfold mem_find_sec. rewrite Htype. simpl.
  by replace ((0 <=? va) && (va <=? 2 ^ 64 - 1)) with true by lia.
Qed.

Lemma width_small : is_sv pt -> 2 ^ wdt pt 0 <= 2 ^ 41.
Proof. intros Hsv. destruct (geometry pt Hsv) as ([-> | ->] & _); done. Qed.

Section Range.
Context (base n : Z) (Hr : vm_range base n) (Hsv : is_sv pt).

Lemma range_nv : nv pt base = base.
Proof.
  destruct Hr as [? ? ? ?]. pose proof (nv_range pt base Hsv). unfold nv. apply Z.mod_small. unfold PAGE_SIZE in *. lia.
Qed.

Lemma range_askable : askable hyp_secs a 0 base n.
Proof.
  pose proof range_nv as Hnv. destruct Hr as [Hal Hp Hn Ht]. pose proof (width_small Hsv). unfold PAGE_SIZE in *.
  split; try done.
  - fold pt. unfold PAGE_SIZE. lia.
  - apply find_sec_vm. lia.
  - exists (mk_sec 0 (2 ^ 64 - 1) false). rewrite Htype. split; [done|]. simpl. unfold PAGE_SIZE. lia.
Qed.

Lemma range_secs : mem_find_sec hyp_secs a base = Some 0%nat /\ mem_find_sec hyp_secs a (base + n * PAGE_SIZE - 1) = Some 0%nat.
Proof. destruct Hr. pose proof (width_small Hsv). split; apply find_sec_vm; unfold PAGE_SIZE in *; lia. Qed.

Lemma range_room p : 0 <= p -> p + n * PAGE_SIZE <= 2 ^ 56 -> room a base p n.
Proof.
  intros H0 H1. pose proof range_nv as Hnv. destruct Hr. pose proof (width_small Hsv). unfold room. fold pt.
  rewrite Hnv. split_and!; unfold PAGE_SIZE in *; lia.
Qed.
End Range.

(** Reserving a range of a VM. *)
Lemma reserve_range base n s :
  as_ok a s -> tidy (ms_mem s) -> vm_range base n -> (Z.to_nat (3 * n + 2) < fuel)%nat ->
  refused a (4 * (3 * n + 2)) (ms_pages s) \/
  ((exists u, in_pages a base n u /\ is_Some (mem_translate (ms_mem s) pt u)) /\
   exists s', mem_alloc_vpage hyp_secs a fuel SEC_VM_ANY base n s = Ok (0, s')) \/
  ((forall u, in_pages a base n u -> mem_translate (ms_mem s) pt u = None) /\
   exists s', mem_alloc_vpage hyp_secs a fuel SEC_VM_ANY base n s = Ok (base, s') /\
     same_map a (4 * (3 * n + 2)) s s' /\
     forall u, rsvd a (ms_mem s') u = true -> in_pages a base n u \/ is_Some (mem_translate (ms_mem s) pt u)).
Proof.
  intros Hok Htd Hr Hf. pose proof Hok as [Hwf _ _]. pose proof (w_sv _ _ Hwf) as Hsv.
  destruct (mem_alloc_vpage_spec hyp_secs a fuel 0 base n s Hplain Hok (range_askable base n Hr Hsv) Hf)
    as [[_ H]|[(s' & E & Hfree & Hm & Hrs)|(s' & E & (u & Hu & Hf') & Hk)]].
  - by left.
  - right. right. split; [intros u Hu; by apply Hfree, free_iff in Hu as [? _]|]. exists s'. split_and!; [done|done|].
    intros u. rewrite Hrs. case_decide; [by left|]. right. by apply Htd.
  - right. left. split; [|by exists s']. exists u. split; [done|].
    destruct (mem_translate (ms_mem s) pt u) as [p|] eqn:Et; [by eexists|].
    destruct (rsvd a (ms_mem s) u) eqn:Er; [rewrite <- Et; by apply Htd|].
    assert (free a (ms_mem s) u = true) by (by apply free_iff). congruence.
Qed.

(** *** Backed ranges *)

(** The [c] pages from [v] on are mapped, each address to where [back] says or,
    where it says nothing, to a page that was free and is taken now; nothing else
    has changed. *)
Record backed (t : Z) (s s' : mstate A) (v c : Z) (back : Z -> option Z) : Prop := {
  b_ok : as_ok a s';
  b_evolves : evolves a t s s';
  b_quiet : quiet a (ms_mem s) (ms_mem s');
  b_out : forall u, ~ in_pages a v c u -> mem_translate (ms_mem s') pt u = mem_translate (ms_mem s) pt u;
  b_in : forall u, in_pages a v c u -> exists p, mem_translate (ms_mem s') pt u = Some p /\
    match back u with
    | Some q => p = q
    | None => p mod PAGE_SIZE = u mod PAGE_SIZE /\ handed_out a s s' (page_of p)
    end
}.

Lemma backed_given t s s' v p c back :
  (forall u, in_pages a v c u -> back u = Some (p + (nv pt u - nv pt v))) ->
  mapped_to a t s s' v p c -> backed t s s' v c back.
Proof.
  intros Hb (Hok & Hev & Ht & Hq). fold pt in Ht. split; try done; intros u Hu; rewrite Ht.
  - by rewrite decide_False.
  - rewrite decide_True by done. eexists. split; [done|]. by rewrite Hb.
Qed.

Lemma backed_new t s s' v c back :
  (forall u, in_pages a v c u -> back u = None) -> owned_map a t s s' v c -> backed t s s' v c back.
Proof.
  intros Hb [Hok Hev Hout Hin Hq _]. fold pt in Hout, Hin. split; try done. intros u Hu.
  destruct (Hin u Hu) as (p & Ep & Hp). exists p. split; [done|]. by rewrite Hb.
Qed.

Lemma backed_app t1 t2 s s1 s2 v c d back :
  0 <= c -> 0 <= d -> (d = 0 \/ nv pt (v + c * PAGE_SIZE) = nv pt v + c * PAGE_SIZE) ->
  backed t1 s s1 v c back -> backed t2 s1 s2 (v + c * PAGE_SIZE) d back -> backed (t1 + t2) s s2 v (c + d) back.
Proof.
  intros Hc Hd Hnv [O1 E1 Q1 X1 I1] [O2 E2 Q2 X2 I2].
  assert (forall u, in_pages a v (c + d) u <-> in_pages a v c u \/ in_pages a (v + c * PAGE_SIZE) d u) as Hin.
  { clear -Hc Hd Hnv. intros u. unfold in_pages, PAGE_SIZE in *. fold pt. destruct Hnv as [->|Hnv]; [lia|]. rewrite Hnv. lia. }
  assert (forall u, in_pages a v c u -> ~ in_pages a (v + c * PAGE_SIZE) d u) as Hdis.
  { clear -Hc Hd Hnv. intros u. unfold in_pages, PAGE_SIZE in *. fold pt. destruct Hnv as [->|Hnv]; [lia|]. rewrite Hnv. lia. }
  split; [done|by eapply evolves_trans|by eapply quiet_trans|..].
  - intros u Hu. rewrite Hin in Hu. rewrite X2, X1 by tauto. done.
  - intros u [Hu|Hu]%Hin.
    + rewrite X2 by (by apply Hdis). destruct (I1 u Hu) as (p & Ep & Hp). exists p. split; [done|].
      destruct (back u); [done|]. destruct Hp as (? & Hh). split; [done|].
      by eapply handed_after; [..|apply page_of_aligned|done].
    + destruct (I2 u Hu) as (p & Ep & Hp). exists p. split; [done|]. destruct (back u); [done|].
      destruct Hp as (? & Hh). split; [done|]. eapply handed_before; [apply E1|done].
Qed.

(** After the entries of a range have been reserved. *)
Lemma backed_reserved t1 t2 s s1 s2 v c back :
  same_map a t1 s s1 ->
  (forall u, rsvd a (ms_mem s1) u = true -> in_pages a v c u \/ is_Some (mem_translate (ms_mem s) pt u)) ->
  backed t2 s1 s2 v c back ->
  as_ok a s2 /\ tidy (ms_mem s2) /\ evolves a (t1 + t2) s s2 /\
  (forall u, ~ in_pages a v c u -> mem_translate (ms_mem s2) pt u = mem_translate (ms_mem s) pt u) /\
  (forall u, in_pages a v c u -> exists p, mem_translate (ms_mem s2) pt u = Some p /\
    match back u with
    | Some q => p = q
    | None => p mod PAGE_SIZE = u mod PAGE_SIZE /\ handed_out a s s2 (page_of p)
    end).
Proof.
  intros (Hok1 & Hev1 & Ht1) Hrs [Hok2 Hev2 Hq Hout Hin]. fold pt in Ht1. split_and!.
  - done.
  - intros u Hr. apply Hq, Hrs in Hr. destruct (decide (in_pages a v c u)) as [Hi|Hi].
    + destruct (Hin u Hi) as (p & -> & _). by eexists.
    + rewrite Hout, Ht1 by done. tauto.
  - by eapply evolves_trans.
  - intros u Hi. by rewrite Hout.
  - intros u Hi. destruct (Hin u Hi) as (p & Ep & Hp). exists p. split; [done|]. destruct (back u); [done|].
    destruct Hp as (? & Hh). split; [done|]. eapply handed_before; [apply Hev1|done].
Qed.

(** New pages for a range that may be empty. *)
Lemma map_new_any va n s back :
  as_ok a s -> aligned_blocks a n (ms_pages s) -> 0 <= n -> 0 < va -> va mod PAGE_SIZE = 0 ->
  va + n * PAGE_SIZE <= 2 ^ wdt pt 0 -> (forall u, in_pages a va n u -> back u = None) ->
  (forall u, in_pages a va n u -> mem_translate (ms_mem s) pt u = None) ->
  refused a (37 * n) (ms_pages s) \/
  exists s', mem_map CN CS hyp_secs cpu_as a va None n PTE_VM_FLAGS s = Ok (0, s') /\ backed (37 * n) s s' va n back.
Proof.
  intros Hok Hal Hn Hv Hva Htop Hb Hu. pose proof Hok as [Hwf _ _]. pose proof (w_sv _ _ Hwf) as Hsv.
  pose proof (width_small Hsv) as Hw. destruct (decide (n = 0)) as [->|].
  - right. exists s. split.
    + unfold mem_map. rewrite page_base by done. replace (va + 0 * PAGE_SIZE - 1) with (va - 1) by lia.
      rewrite wrap_small, !find_sec_vm by (unfold PAGE_SIZE in *; lia).
      rewrite bool_decide_true by done. cbn [negb]. by rewrite Hcol.
    + apply backed_new; [done|]. by apply owned_nil.
  - assert (vm_range va n) as Hr by (split; done || lia). destruct (range_secs va n Hr Hsv) as [Hs1 Hs2].
    destruct (mem_map_new CN CS hyp_secs cpu_as a s va n PTE_VM_FLAGS 0) as [H|(s' & E & Ho)]; try done; try lia.
    + by right.
    + apply range_room; [done|done|done|]. unfold PAGE_SIZE in *. lia.
    + by left.
    + right. exists s'. split; [done|]. by apply backed_new.
Qed.

(** *** Regions *)
Definition region_pages (reg : mem_region) : Z := NUM_PAGES (rg_size reg).
Definition region_back (reg : mem_region) (u : Z) : option Z :=
  if rg_place_phys reg then Some (rg_phys reg + (nv pt u - rg_base reg)) else None.

(** A region that can be mapped: it lies in the VM's address space and, if it is
    placed, in physical memory; otherwise the pools have aligned blocks. *)
Record region_fits (pages : A) (reg : mem_region) : Prop := {
  rf_range : vm_range (rg_base reg) (region_pages reg);
  rf_fuel : (Z.to_nat (3 * region_pages reg + 2) < fuel)%nat;
  rf_place : rg_place_phys reg = true -> 0 <= rg_phys reg /\ rg_phys reg mod PAGE_SIZE = 0 /\
    rg_phys reg + region_pages reg * PAGE_SIZE <= 2 ^ 56;
  rf_blocks : rg_place_phys reg = false -> aligned_blocks a (region_pages reg) pages
}.

(** [vm_map_mem_region] once the address space is known. *)
Definition map_region (reg : mem_region) : PM A unit :=
  let n := region_pages reg in
  va ← mem_alloc_vpage hyp_secs a fuel SEC_VM_ANY (rg_base reg) n;
  if negb (va =? rg_base reg) then failp (Panic "failed to allocate vm's dev address")
  else if rg_place_phys reg
       then mem_map CN CS hyp_secs cpu_as a va (Some (mem_ppages_get (rg_phys reg) n)) n PTE_VM_FLAGS;; mret tt
       else mem_map CN CS hyp_secs cpu_as a va None n PTE_VM_FLAGS;; mret tt.

(** What mapping [n] pages at [b] ends in: the allocator gives out, the range is
    taken, or it is mapped. *)
Definition placed (r : res (unit * mstate A)) (s : mstate A) (b n : Z) (back : Z -> option Z) : Prop :=
  (forall u, in_pages a b n u -> mem_translate (ms_mem s) pt u = None) /\
  exists s', r = Ok (tt, s') /\ as_ok a s' /\ tidy (ms_mem s') /\ evolves a (49 * n + 8) s s' /\
    (forall u, ~ in_pages a b n u -> mem_translate (ms_mem s') pt u = mem_translate (ms_mem s) pt u) /\
    (forall u, in_pages a b n u -> exists p, mem_translate (ms_mem s') pt u = Some p /\
      match back u with
      | Some q => p = q
      | None => p mod PAGE_SIZE = u mod PAGE_SIZE /\ handed_out a s s' (page_of p)
      end).

Lemma placed_intro r s s1 s2 b n t2 back :
  (forall u, in_pages a b n u -> mem_translate (ms_mem s) pt u = None) -> r = Ok (tt, s2) ->
  same_map a (4 * (3 * n + 2)) s s1 ->
  (forall u, rsvd a (ms_mem s1) u = true -> in_pages a b n u \/ is_Some (mem_translate (ms_mem s) pt u)) ->
  backed t2 s1 s2 b n back -> t2 <= 37 * n -> placed r s b n back.
Proof.
  intros Hu E Hs Hrs Hb Ht. split; [done|]. exists s2.
  destruct (backed_reserved _ _ s s1 s2 b n back Hs Hrs Hb) as (O & T & Ev & Out & In). split_and!; try done.
  eapply evolves_weaken; [done|]. lia.
Qed.

Lemma map_region_spec reg s :
  as_ok a s -> tidy (ms_mem s) -> region_fits (ms_pages s) reg ->
  refused a (49 * region_pages reg + 8) (ms_pages s) \/
  ((exists u, in_pages a (rg_base reg) (region_pages reg) u /\ is_Some (mem_translate (ms_mem s) pt u)) /\
   map_region reg s = Fault (Panic "failed to allocate vm's dev address")) \/
  placed (map_region reg s) s (rg_base reg) (region_pages reg) (region_back reg).
Proof.
  intros Hok Htd [Hr Hf Hpl Hbl]. pose proof Hok as [Hwf _ _]. pose proof (w_sv _ _ Hwf) as Hsv.
  set (n := region_pages reg) in *. set (b := rg_base reg) in *. unfold map_region. fold n b.
  pose proof (range_nv b n Hr Hsv) as Hnv. destruct (range_secs b n Hr Hsv) as [Hs1 Hs2].
  pose proof Hr as [Hal Hp Hn Htop].
  destruct (reserve_range b n s Hok Htd Hr Hf) as [H|[(Hu & s1 & E)|(Hu & s1 & E & Hsm & Hrs)]].
  - left. eapply refused_weaken; [done|]. lia.
  - right. left. split; [done|]. prun E. by replace (negb (0 =? b)) with true by lia.
  - prun E. replace (negb (b =? b)) with false by lia. pose proof Hsm as (Hok1 & Hev1 & Ht1). fold pt in Ht1.
    assert (forall u, in_pages a b n u -> mem_translate (ms_mem s1) pt u = None) as Hu1 by (intros u Hi; rewrite Ht1; by apply Hu).
    destruct (rg_place_phys reg) eqn:Epl.
    + destruct (Hpl eq_refl) as (Hp0 & Hpal & Hp1).
      destruct (mem_map_given CN CS hyp_secs cpu_as a s1 b (mem_ppages_get (rg_phys reg) n) n PTE_VM_FLAGS 0)
        as [[_ H]|(s2 & E2 & Hm)]; try done; [by right|by apply range_room| |].
      * left. eapply refused_later; [apply Hev1|exact H|lia].
      * right. right. eapply placed_intro; [done|by prun E2|done|done| |].
        -- eapply backed_given; [|exact Hm]. intros u _. unfold region_back. by rewrite Epl, Hnv.
        -- lia.
    + destruct (map_new_any b n s1 (region_back reg)) as [H|(s2 & E2 & Hm)]; try done; try lia.
      * eapply aligned_later; [by apply Hbl|apply Hev1].
      * intros u _. unfold region_back. by rewrite Epl.
      * left. eapply refused_later; [apply Hev1|exact H|lia].
      * right. right. eapply placed_intro; [done|by prun E2|done|done|done|]. lia.
Qed.
(** *** The region of the image, in place *)
Section Image.
Context (cfg : vm_config) (reg : mem_region).
Let n_img := NUM_PAGES (img_size cfg).

(** [vm_map_img_rgn_inplace] of a VM without colours, once the address space is
    known. *)
Definition map_img : PM A unit :=
  let n_before := u64 (img_base cfg - rg_base reg) / PAGE_SIZE in
  let n_aft := u64 (u64 (rg_base reg + rg_size reg) - u64 (img_base cfg + img_size cfg)) / PAGE_SIZE in
  va ← mem_alloc_vpage hyp_secs a fuel SEC_VM_ANY (rg_base reg) (n_before + n_aft + n_img);
  mem_map CN CS hyp_secs cpu_as a va None n_before PTE_VM_FLAGS;;
  mem_map CN CS hyp_secs cpu_as a (u64 (va + n_before * PAGE_SIZE)) (Some (mem_ppages_get (img_load cfg) n_img)) n_img PTE_VM_FLAGS;;
  mem_map CN CS hyp_secs cpu_as a (u64 (va + (n_before + n_img) * PAGE_SIZE)) None n_aft PTE_VM_FLAGS;;
  mret tt.

Definition img_back (u : Z) : option Z :=
  if decide (in_pages a (img_base cfg) n_img u) then Some (img_load cfg + (nv pt u - img_base cfg)) else None.

(** The image lies in the region, all in whole pages but for the end of the
    image, and was loaded to physical memory. *)
Record img_fits : Prop := {
  if_base : rg_base reg <= img_base cfg;
  if_aligned : img_base cfg mod PAGE_SIZE = 0;
  if_size : 0 < img_size cfg;
  if_top : img_base cfg + img_size cfg <= rg_base reg + rg_size reg;
  if_region : rg_size reg mod PAGE_SIZE = 0;
  if_load : 0 <= img_load cfg /\ img_load cfg mod PAGE_SIZE = 0 /\ img_load cfg + n_img * PAGE_SIZE <= 2 ^ 56
}.

(** The pages before, of and after the image. *)
Lemma img_pages :
  img_fits -> vm_range (rg_base reg) (region_pages reg) -> is_sv pt ->
  exists nb na, u64 (img_base cfg - rg_base reg) / PAGE_SIZE = nb /\
    u64 (u64 (rg_base reg + rg_size reg) - u64 (img_base cfg + img_size cfg)) / PAGE_SIZE = na /\
    0 <= nb /\ 0 <= na /\ 1 <= n_img /\ nb + na + n_img = region_pages reg /\ img_base cfg = rg_base reg + nb * PAGE_SIZE.
Proof.
  intros [Hb Hal Hs Ht Hrg _] [Hral Hp Hn Htop] Hsv. pose proof (width_small Hsv) as Hw.
  unfold region_pages, n_img, NUM_PAGES, ALIGN, PAGE_SIZE in *. rewrite !Z.div_mul in * by lia.
  pose proof (Z.div_mod (img_base cfg) 4096). pose proof (Z.div_mod (rg_base reg) 4096). pose proof (Z.div_mod (rg_size reg) 4096).
  pose proof (Z.div_mod (img_size cfg + 4096 - 1) 4096). pose proof (Z.mod_pos_bound (img_size cfg + 4096 - 1) 4096).
  assert ((rg_size reg + 4096 - 1) / 4096 = rg_size reg / 4096) as En by (symmetry; apply (Z.div_unique _ _ _ 4095); lia).
  rewrite En in *.
  exists (img_base cfg / 4096 - rg_base reg / 4096),
    (rg_base reg / 4096 + rg_size reg / 4096 - img_base cfg / 4096 - (img_size cfg + 4096 - 1) / 4096).
  rewrite (wrap_small 64 (img_base cfg - rg_base reg)), (wrap_small 64 (rg_base reg + rg_size reg)),
    (wrap_small 64 (img_base cfg + img_size cfg)) by lia.
  rewrite (wrap_small 64 (rg_base reg + rg_size reg - _)) by lia. split_and!; try lia.
  - symmetry. apply (Z.div_unique _ _ _ 0); lia.
  - symmetry. apply (Z.div_unique _ _ _ (4095 - (img_size cfg + 4096 - 1) mod 4096)); lia.
Qed.

Lemma map_img_spec s :
  as_ok a s -> tidy (ms_mem s) -> img_fits -> vm_range (rg_base reg) (region_pages reg) ->
  (Z.to_nat (3 * region_pages reg + 2) < fuel)%nat -> aligned_blocks a (region_pages reg) (ms_pages s) ->
  (forall u, in_pages a (rg_base reg) (region_pages reg) u -> mem_translate (ms_mem s) pt u = None) ->
  refused a (49 * region_pages reg + 8) (ms_pages s) \/
  placed (map_img s) s (rg_base reg) (region_pages reg) img_back.
Proof.
  intros Hok Htd Hi Hr Hf Hbl Hun. pose proof Hok as [Hwf _ _]. pose proof (w_sv _ _ Hwf) as Hsv.
  destruct (img_pages Hi Hr Hsv) as (nb & na & Enb & Ena & Hnb & Hna & Hni & Htot & Eib).
  pose proof Hi as [_ Hial _ _ _ (Hl0 & Hlal & Hl1)].
  pose proof (range_nv _ _ Hr Hsv) as Hnv. pose proof Hr as [Hral Hp Hn Htop]. pose proof (width_small Hsv) as Hw.
  unfold map_img. rewrite Enb, Ena, Htot. set (n := region_pages reg) in *. set (b := rg_base reg) in *.
  assert (forall m, m <= n -> aligned_blocks a m (ms_pages s)) as Hbl'.
  { intros m Hm t a1 k pp a2 Ht Hk Hle. by apply (Hbl t a1 k pp a2 Ht Hk); [lia]. }
  assert (forall c, 0 <= c < n -> nv pt (b + c * PAGE_SIZE) = b + c * PAGE_SIZE) as Hnvc.
  { intros c Hc. unfold nv. apply Z.mod_small. unfold PAGE_SIZE in *. lia. }
  assert (forall c, (b + c * PAGE_SIZE) mod PAGE_SIZE = 0) as Halc.
  { intros c. unfold PAGE_SIZE in *. by rewrite Z_mod_plus_full. }
  destruct (reserve_range b n s Hok Htd Hr Hf) as [H|[((u & Hu & Hm) & _)|(_ & s1 & E & Hsm & Hrs)]].
  { left. eapply refused_weaken; [done|lia]. }
  { rewrite Hun in Hm by done. by destruct Hm. }
  pose proof Hsm as (Hok1 & Hev1 & Ht1). fold pt in Ht1. prun E. clear E.
  (* before *)
  destruct (map_new_any b nb s1 img_back) as [H|(s2 & E2 & Hm2)]; try done; try lia.
  { eapply aligned_later; [apply Hbl'; lia|apply Hev1]. }
  { unfold PAGE_SIZE in *. lia. }
  { intros u Hu. unfold img_back. rewrite decide_False; [done|]. unfold in_pages in *. fold pt in Hu |- *.
    rewrite Eib, Hnvc by lia. unfold PAGE_SIZE in *. lia. }
  { intros u Hu. rewrite Ht1. apply Hun. unfold in_pages in *. unfold PAGE_SIZE in *. lia. }
  { left. eapply refused_later; [apply Hev1|exact H|lia]. }
  prun E2. clear E2. pose proof Hm2 as [Hok2 Hev2 _ Hout2 _].
  assert (forall u, in_pages a (b + nb * PAGE_SIZE) (n - nb) u -> in_pages a b n u /\ ~ in_pages a b nb u) as Hrest.
  { intros u Hu. unfold in_pages in *. fold pt in Hu |- *. rewrite Hnvc in Hu by lia. unfold PAGE_SIZE in *. lia. }
  (* image *)
  rewrite (wrap_small 64 (b + nb * PAGE_SIZE)) by (unfold PAGE_SIZE in *; lia).
  assert (vm_range (b + nb * PAGE_SIZE) n_img) as Hri by (split; [done|unfold PAGE_SIZE in *; lia..]).
  destruct (range_secs _ _ Hri Hsv) as [Hs1 Hs2].
  destruct (mem_map_given CN CS hyp_secs cpu_as a s2 (b + nb * PAGE_SIZE) (mem_ppages_get (img_load cfg) n_img) n_img PTE_VM_FLAGS 0)
    as [[_ H]|(s3 & E3 & Hm3)]; try done; [by right|by apply range_room| | |].
  { intros u Hu. fold pt. destruct (Hrest u) as [H1 H2].
    - unfold in_pages in *. unfold PAGE_SIZE in *. lia.
    - rewrite Hout2, Ht1 by done. by apply Hun. }
  { left. eapply refused_later; [eapply takes_trans; [apply Hev1|apply Hev2]|exact H|]. lia. }
  prun E3. clear E3. apply (backed_given _ _ _ _ _ _ img_back) in Hm3.
  2:{ intros u Hu. unfold img_back. rewrite <- Eib in *. rewrite decide_True by done. rewrite Eib at 1 2. rewrite Hnvc by lia. done. }
  pose proof Hm3 as [Hok3 Hev3 _ Hout3 _].
  (* after *)
  rewrite (wrap_small 64 (b + (nb + n_img) * PAGE_SIZE)) by (unfold PAGE_SIZE in *; lia).
  assert (na <> 0 -> nv pt (b + (nb + n_img) * PAGE_SIZE) = b + (nb + n_img) * PAGE_SIZE) as Hnva by (intros; apply Hnvc; lia).
  assert (forall u, in_pages a (b + (nb + n_img) * PAGE_SIZE) na u ->
    in_pages a b n u /\ ~ in_pages a b nb u /\ ~ in_pages a (b + nb * PAGE_SIZE) n_img u) as Haft.
  { intros u Hu. unfold in_pages in *. fold pt in Hu |- *. destruct (decide (na = 0)); [lia|].
    rewrite Hnva in Hu by done. rewrite Hnvc by lia. unfold PAGE_SIZE in *. lia. }
  destruct (map_new_any (b + (nb + n_img) * PAGE_SIZE) na s3 img_back) as [H|(s4 & E4 & Hm4)]; try done; try lia.
  { eapply aligned_later; [apply (Hbl' na); lia|]. eapply takes_trans; [apply Hev1|]. eapply takes_trans; [apply Hev2|apply Hev3]. }
  { unfold PAGE_SIZE in *. lia. }
  { intros u Hu. unfold img_back. rewrite decide_False; [done|]. rewrite Eib. by apply Haft. }
  { intros u Hu. destruct (Haft u Hu) as (H1 & H2 & H3). rewrite Hout3, Hout2, Ht1 by done. by apply Hun. }
  { left. eapply refused_later; [eapply takes_trans; [apply Hev1|]; eapply takes_trans; [apply Hev2|apply Hev3]|exact H|]. lia. }
  right. assert (backed (37 * nb + (8 * n_img + 37 * na)) s1 s4 b (nb + (n_img + na)) img_back) as Hall.
  { eapply backed_app; [lia|lia| |exact Hm2|eapply backed_app; [lia|lia| |exact Hm3|]].
    - right. rewrite Hnv. apply Hnvc. lia.
    - destruct (decide (na = 0)) as [->|]; [by left|right].
      replace (b + nb * PAGE_SIZE + n_img * PAGE_SIZE) with (b + (nb + n_img) * PAGE_SIZE) by lia.
      rewrite Hnva, Hnvc by (done || lia). lia.
    - by replace (b + nb * PAGE_SIZE + n_img * PAGE_SIZE) with (b + (nb + n_img) * PAGE_SIZE) by lia. }
  replace (nb + (n_img + na)) with n in Hall by lia.
  eapply placed_intro; [done|by prun E4|done|done|done|lia].
Qed.
End Image.
End VmMap.

(** ** The configured regions of a VM *)
Section Regions.
Context {A : Type} `{!PageAlloc A} (CN CS : Z) (hyp_secs : list section) (cpu_as a : addr_space) (fuel : nat).
Let pt := as_pt a.
Context (Hplain : pa_plain (as_colors a) = true) (Hcol : all_clrs CN (as_colors a) = true) (Htype : as_type a = AS_VM).
Context (i : Z) (cfg : vm_config).

Definition has_img (reg : mem_region) : bool := range_in_range (img_base cfg) (img_size cfg) (rg_base reg) (rg_size reg).

(** Where the addresses of a region lead. *)
Definition backing (reg : mem_region) : Z -> option Z := if has_img reg then img_back a cfg else region_back a reg.

Definition in_reg (reg : mem_region) (u : Z) : Prop := in_pages a (rg_base reg) (region_pages reg) u.

(** The region fits; the one that holds the image is not placed elsewhere. *)
Definition region_ok (pages : A) (reg : mem_region) : Prop :=
  region_fits a fuel pages reg /\ (has_img reg = true -> rg_place_phys reg = false /\ img_fits cfg reg).

Definition disjoint_regs (l : list mem_region) : Prop :=
  forall j k r1 r2 u, l !! j = Some r1 -> l !! k = Some r2 -> j <> k -> in_reg r1 u -> in_reg r2 u -> False.

Definition cost (l : list mem_region) : Z := foldr (fun reg acc => 49 * region_pages reg + 8 + acc) 0 l.

Lemma liftp_run {B} (m : PM A B) (s : istate A) b ms :
  m (is_ms s) = Ok (b, ms) -> liftp m s = Ok (b, mk_is ms (is_hyp s) (is_as s) (is_iommu s) (is_ops s)).
Proof. intros E. unfold liftp. by rewrite E. Qed.

Lemma im_bind {B C} (m : IM A B) (k : B -> IM A C) s b s' : m s = Ok (b, s') -> (m ≫= k) s = k b s'.
Proof. unfold mbind, IM_bind. by intros ->. Qed.

Lemma im_lift_bind {B C} (m : PM A B) (k : B -> PM A C) (s : istate A) :
  (b ← liftp m; liftp (k b)) s = liftp (m ≫= k) s.
Proof.
  unfold liftp, mbind, IM_bind, PM_bind. destruct (m (is_ms s)) as [[b ms]|]; simpl; [|done].
  unfold mbind. simpl. by destruct (k b ms) as [[c ms']|].
Qed.

Lemma im_bind_ext {B C} (m : IM A B) (k k' : B -> IM A C) s :
  (forall b s', k b s' = k' b s') -> (m ≫= k) s = (m ≫= k') s.
Proof. intros H. unfold mbind, IM_bind. destruct (m s) as [[b s']|]; [apply H|done]. Qed.

Lemma im_lift_ret {B C} (m : PM A B) (c : C) (s : istate A) : (liftp m;; mret c) s = liftp (m;; mret c) s.
Proof. rewrite <- im_lift_bind. apply im_bind_ext. by intros b [ms h x y z]. Qed.

Lemma region_run reg s : is_as s !! i = Some a ->
  vm_map_mem_region CN CS hyp_secs cpu_as fuel i reg s = liftp (map_region CN CS hyp_secs cpu_as a fuel reg) s.
Proof.
  intros Ha. unfold vm_map_mem_region. rewrite (im_bind _ _ s a s) by (unfold get_as; by rewrite Ha).
  unfold map_region, alloc_vpage, map. rewrite <- im_lift_bind. apply im_bind_ext. intros va s1.
  destruct (negb _); [done|]. destruct (rg_place_phys reg); apply im_lift_ret.
Qed.

Lemma img_run reg s : is_as s !! i = Some a ->
  vm_map_img_rgn_inplace CN CS hyp_secs cpu_as fuel i cfg reg s = liftp (map_img CN CS hyp_secs cpu_as a fuel cfg reg) s.
Proof.
  intros Ha. unfold vm_map_img_rgn_inplace. rewrite (im_bind _ _ s a s) by (unfold get_as; by rewrite Ha).
  unfold map_img, alloc_vpage, map. rewrite <- im_lift_bind. apply im_bind_ext. intros va s1.
  rewrite <- im_lift_bind. apply im_bind_ext. intros _ s2. rewrite Hcol.
  rewrite <- im_lift_bind. apply im_bind_ext. intros _ s3. apply im_lift_ret.
Qed.

Lemma init_region_spec reg (s : istate A) :
  is_as s !! i = Some a -> as_ok a (is_ms s) -> tidy a (ms_mem (is_ms s)) -> region_ok (ms_pages (is_ms s)) reg ->
  (forall u, in_reg reg u -> mem_translate (ms_mem (is_ms s)) pt u = None) ->
  refused a (49 * region_pages reg + 8) (ms_pages (is_ms s)) \/
  exists m : PM A unit, vm_init_region CN CS hyp_secs cpu_as fuel i cfg reg s = liftp m s /\
    placed a (m (is_ms s)) (is_ms s) (rg_base reg) (region_pages reg) (backing reg).
Proof.
  intros Ha Hok Htd [[Hr Hf Hpl Hbl] Himg] Hun. unfold vm_init_region, backing. fold (has_img reg). destruct (has_img reg).
  - destruct (Himg eq_refl) as [Enp Hfits]. unfold vm_map_img_rgn. rewrite Enp, img_run by done.
    destruct (map_img_spec CN CS hyp_secs cpu_as a fuel Hplain Hcol Htype cfg reg (is_ms s)) as [?|Hp]; try done;
      [by apply Hbl|by left|]. right. eexists. split; [done|exact Hp].
  - rewrite region_run by done.
    destruct (map_region_spec CN CS hyp_secs cpu_as a fuel Hplain Hcol Htype reg (is_ms s)) as [?|[((u & Hu & Hm) & _)|Hp]];
      try done; [by left|by rewrite Hun in Hm by done; destruct Hm|]. right. eexists. split; [done|exact Hp].
Qed.

(** *** A list of regions *)

(** Each region is mapped to its backing, nothing else has changed. *)
Record regions_mapped (bk : mem_region -> Z -> option Z) (l : list mem_region) (s s' : mstate A) : Prop := {
  rs_ok : as_ok a s';
  rs_tidy : tidy a (ms_mem s');
  rs_evolves : evolves a (cost l) s s';
  rs_out : forall u, (forall reg, reg ∈ l -> ~ in_reg reg u) ->
    mem_translate (ms_mem s') pt u = mem_translate (ms_mem s) pt u;
  rs_in : forall reg u, reg ∈ l -> in_reg reg u -> exists p, mem_translate (ms_mem s') pt u = Some p /\
    match bk reg u with
    | Some q => p = q
    | None => p mod PAGE_SIZE = u mod PAGE_SIZE /\ handed_out a s s' (page_of p)
    end
}.

Lemma regions_nil bk s : as_ok a s -> tidy a (ms_mem s) -> regions_mapped bk [] s s.
Proof.
  intros Hok Htd. split; try done.
  - by apply evolves_same; [apply takes_refl|].
  - intros reg u Hr. by apply elem_of_nil in Hr.
Qed.

Lemma regions_cons bk reg l r s s1 s2 :
  placed a r s (rg_base reg) (region_pages reg) (bk reg) -> r = Ok (tt, s1) -> disjoint_regs (reg :: l) ->
  regions_mapped bk l s1 s2 -> regions_mapped bk (reg :: l) s s2.
Proof.
  intros (_ & s1' & E1 & Hok1 & Htd1 & Hev1 & Hout1 & Hin1) E Hdis [Hok2 Htd2 Hev2 Hout2 Hin2].
  rewrite E1 in E. injection E as ->.
  assert (forall r u, r ∈ l -> in_reg r u -> ~ in_reg reg u) as Hno.
  { intros r' u [k Hk]%list_elem_of_lookup Hu Hu'. by apply (Hdis 0%nat (S k) reg r' u). }
  split; try done; simpl.
  - by eapply evolves_trans.
  - intros u Hu. rewrite Hout2 by (intros r' Hr'; apply Hu; by right). apply Hout1. apply Hu. by left.
  - intros r' u [->|Hr]%elem_of_cons Hu.
    + rewrite Hout2 by (intros r0 Hr0 Hu0; by eapply Hno). destruct (Hin1 u Hu) as (p & Ep & Hp). exists p. split; [done|].
      destruct (bk reg u); [done|]. destruct Hp as (? & Hh). split; [done|].
      by eapply handed_after; [..|apply page_of_aligned|done].
    + destruct (Hin2 r' u Hr Hu) as (p & Ep & Hp). exists p. split; [done|]. destruct (bk r' u); [done|].
      destruct Hp as (? & Hh). split; [done|]. eapply handed_before; [apply Hev1|done].
Qed.

Lemma cost_nonneg l : (forall reg, reg ∈ l -> 1 <= region_pages reg) -> 0 <= cost l.
Proof.
  induction l as [|r l IH]; intros Hpos; simpl; [lia|]. pose proof (Hpos r ltac:(by left)).
  assert (0 <= cost l); [|lia]. apply IH. intros r' Hr'. apply Hpos. by right.
Qed.

(** What the loops ask of the regions still to be mapped. *)
Record regions_ready (ok : A -> mem_region -> Prop) (l : list mem_region) (s : mstate A) : Prop := {
  rd_ok : as_ok a s;
  rd_tidy : tidy a (ms_mem s);
  rd_disj : disjoint_regs l;
  rd_fit : forall reg, reg ∈ l -> ok (ms_pages s) reg;
  rd_free : forall reg u, reg ∈ l -> in_reg reg u -> mem_translate (ms_mem s) pt u = None
}.

Lemma ready_tail (ok : A -> mem_region -> Prop) reg l r s s1 back :
  (forall t p p' rg, takes a t p p' -> ok p rg -> ok p' rg) ->
  regions_ready ok (reg :: l) s -> placed a r s (rg_base reg) (region_pages reg) back -> r = Ok (tt, s1) ->
  regions_ready ok l s1.
Proof.
  intros Hmono [Hok Htd Hdis Hfit Hun] (_ & s1' & E1 & Hok1 & Htd1 & Hev1 & Hout1 & _) E. rewrite E1 in E. injection E as ->.
  split; try done.
  - intros j k r1 r2 u H1 H2 Hne. by apply (Hdis (S j) (S k) r1 r2 u); [..|congruence].
  - intros r' Hr. eapply Hmono; [apply Hev1|]. apply Hfit. by right.
  - intros r' u Hr Hu. rewrite Hout1; [apply (Hun r'); [by right|done]|].
    intros Hu'. apply list_elem_of_lookup in Hr as [k Hk]. by apply (Hdis 0%nat (S k) reg r' u).
Qed.

Lemma fits_later t p p' reg : takes a t p p' -> region_fits a fuel p reg -> region_fits a fuel p' reg.
Proof. intros Ht [H1 H2 H3 H4]. split; try done. intros Hnp. eapply aligned_later; [by apply H4|done]. Qed.

Lemma ok_later t p p' reg : takes a t p p' -> region_ok p reg -> region_ok p' reg.
Proof. intros Ht [H1 H2]. split; [by eapply fits_later|done]. Qed.

Lemma ok_pages p reg : region_ok p reg -> 1 <= region_pages reg.
Proof. by intros [[[] _ _ _] _]. Qed.

Lemma regions_loop l (s : istate A) :
  is_as s !! i = Some a -> regions_ready region_ok l (is_ms s) ->
  refused a (cost l) (ms_pages (is_ms s)) \/
  exists ms, iter (vm_init_region CN CS hyp_secs cpu_as fuel i cfg) l s = Ok (tt, mk_is ms (is_hyp s) (is_as s) (is_iommu s) (is_ops s)) /\
    regions_mapped backing l (is_ms s) ms.
Proof.
  revert s. induction l as [|reg l IH]; intros s Ha Hrd; pose proof Hrd as [Hok Htd Hdis Hfit Hun].
  { right. exists (is_ms s). split; [by destruct s|]. by apply regions_nil. }
  assert (0 <= cost l) as Hcost by (apply cost_nonneg; intros r Hr; eapply ok_pages, Hfit; by right).
  destruct (init_region_spec reg s) as [H|(m & E & Hpl)]; try done; [apply Hfit; by left|intros u; apply Hun; by left| |].
  { left. simpl. eapply refused_weaken; [done|lia]. }
  pose proof Hpl as (_ & ms & Em & _ & _ & Hev & _). rewrite (liftp_run _ _ _ _ Em) in E.
  cbn [iter]. rewrite (im_bind _ _ _ _ _ E). set (s1 := mk_is ms _ _ _ _).
  destruct (IH s1 Ha) as [H|(ms' & E' & Hm)]; [by eapply ready_tail; [apply ok_later|..]| |].
  - left. simpl. eapply refused_later; [apply Hev|exact H|lia].
  - right. exists ms'. split; [done|]. by eapply regions_cons.
Qed.

(** *** Shared memory *)

(** The window of the VM on a shared memory object: as large as the VM asks for,
    but not larger than the object. *)
Definition ipc_region (t : list shmem) (o : ipc) : option mem_region :=
  sh ← ipc_get_shmem t (ipc_shmem_id o);
  Some (mk_rgn (ipc_base o) (Z.min (ipc_size o) (sh_size sh)) (sh_colors sh) true (sh_phys sh)).

Fixpoint ipc_regions (t : list shmem) (l : list ipc) : list mem_region :=
  match l with
  | [] => []
  | o :: rest => match ipc_region t o with Some reg => reg :: ipc_regions t rest | None => ipc_regions t rest end
  end.

Lemma ipc_regions_elem t l reg :
  reg ∈ ipc_regions t l -> exists o sh, o ∈ l /\ ipc_get_shmem t (ipc_shmem_id o) = Some sh /\
    reg = mk_rgn (ipc_base o) (Z.min (ipc_size o) (sh_size sh)) (sh_colors sh) true (sh_phys sh).
Proof.
  induction l as [|o l IH]; simpl; [by intros ?%elem_of_nil|]. unfold ipc_region.
  destruct (ipc_get_shmem t (ipc_shmem_id o)) as [sh|] eqn:E; simpl.
  - intros [->|H]%elem_of_cons; [exists o, sh; split_and!; try done; by left|].
    destruct (IH H) as (o' & sh' & Ho & ?). exists o', sh'. split; [by right|done].
  - intros H. destruct (IH H) as (o' & sh' & Ho & ?). exists o', sh'. split; [by right|done].
Qed.

Definition ipc_step (o : ipc) : IM A unit :=
  h ← lifth get_st;
  match ipc_get_shmem (hy_shmem h) (ipc_shmem_id o) with
  | None => lifth (log (Warn "Invalid shmem id in configuration. Ignored."))
  | Some sh =>
      size ← (if sh_size sh <? ipc_size o
              then lifth (log (Warn "Trying to map region to smaller shared memory. Truncated"));; mret (sh_size sh)
              else mret (ipc_size o));
      vm_map_mem_region CN CS hyp_secs cpu_as fuel i (mk_rgn (ipc_base o) size (sh_colors sh) true (sh_phys sh))
  end.

(** The state but for what is printed. *)
Definition same_vm_state (s s' : istate A) : Prop :=
  is_as s' = is_as s /\ hy_shmem (is_hyp s') = hy_shmem (is_hyp s) /\ hy_vms (is_hyp s') = hy_vms (is_hyp s).

Definition warned (msg : string) (s : istate A) : istate A :=
  match lifth (log (Warn msg)) s with Ok (_, s') => s' | Fault _ => s end.

Lemma ipc_step_spec o (s : istate A) :
  is_as s !! i = Some a ->
  exists s1, same_vm_state s s1 /\ is_ms s1 = is_ms s /\
    ipc_step o s = match ipc_region (hy_shmem (is_hyp s)) o with
                   | None => Ok (tt, s1)
                   | Some reg => liftp (map_region CN CS hyp_secs cpu_as a fuel reg) s1
                   end.
Proof.
  intros Ha. unfold ipc_step, ipc_region. rewrite (im_bind _ _ s (is_hyp s) s) by (by destruct s).
  destruct (ipc_get_shmem _ _) as [sh|]; simpl; [|by exists (warned "Invalid shmem id in configuration. Ignored." s)].
  destruct (Z.ltb_spec (sh_size sh) (ipc_size o)).
  - exists (warned "Trying to map region to smaller shared memory. Truncated" s). rewrite Z.min_r by lia.
    by rewrite <- region_run by done.
  - exists s. rewrite Z.min_l by lia. by rewrite <- region_run by done.
Qed.

Lemma ipc_loop l (s : istate A) :
  let regs := ipc_regions (hy_shmem (is_hyp s)) l in
  is_as s !! i = Some a -> regions_ready (region_fits a fuel) regs (is_ms s) ->
  refused a (cost regs) (ms_pages (is_ms s)) \/
  exists s', iter ipc_step l s = Ok (tt, s') /\ same_vm_state s s' /\
    regions_mapped (region_back a) regs (is_ms s) (is_ms s').
Proof.
  revert s. induction l as [|o l IH]; intros s regs Ha Hrd; pose proof Hrd as [Hok Htd Hdis Hfit Hun].
  { right. exists s. split; [done|]. split; [done|]. by apply regions_nil. }
  destruct (ipc_step_spec o s Ha) as (s1 & (Has & Hsh & Hvm) & Ems & E). cbn [iter]. subst regs. simpl in *.
  destruct (ipc_region (hy_shmem (is_hyp s)) o) as [reg|]; simpl in *.
  - set (regs := ipc_regions _ l) in *.
    assert (0 <= cost regs) as Hcost.
    { apply cost_nonneg. intros r Hr. by destruct (Hfit r ltac:(by right)) as [[] _ _ _]. }
    destruct (map_region_spec CN CS hyp_secs cpu_as a fuel Hplain Hcol Htype reg (is_ms s))
      as [H|[((u & Hu & Hm) & _)|Hpl]]; try done; [apply Hfit; by left|..].
    { left. eapply refused_weaken; [done|lia]. }
    { fold pt in Hm. rewrite (Hun reg u) in Hm by (done || by left). by destruct Hm. }
    pose proof Hpl as (_ & ms & Em & _ & _ & Hev & _). rewrite <- Ems in Em. rewrite (liftp_run _ _ _ _ Em) in E.
    rewrite (im_bind _ _ _ _ _ E). rewrite Ems in Em. set (s2 := mk_is ms _ _ _ _).
    destruct (IH s2) as [H|(s' & E' & (Has' & Hsh' & Hvm') & Hm)]; simpl; rewrite ?Has, ?Hsh; try done.
    { by eapply ready_tail; [apply fits_later|..]. }
    { simpl in H. rewrite Hsh in H. fold regs in H. left. eapply refused_later; [apply Hev|exact H|lia]. }
    simpl in *. rewrite Hsh in Hm. fold regs in Hm. right. exists s'. split; [done|]. split; [|by eapply regions_cons].
    split_and!; congruence.
  - rewrite (im_bind _ _ _ _ _ E). rewrite <- Ems, <- Hsh in Hrd |- *. rewrite <- Has in Ha.
    destruct (IH s1 Ha Hrd) as [H|(s' & E' & (Has' & Hsh' & Hvm') & Hm)]; [by left|].
    right. exists s'. split; [done|]. split; [|done]. split_and!; congruence.
Qed.
End Regions.

(** ** The properties *)
Section Claims.
Context {A : Type} `{!PageAlloc A} (CN CS : Z) (hyp_secs : list section) (cpu_as a : addr_space) (fuel : nat) (i : Z).

(** A VM without colours whose address space is [a]. *)
Record plain_vm (s : istate A) : Prop := {
  pv_as : is_as s !! i = Some a;
  pv_type : as_type a = AS_VM;
  pv_plain : pa_plain (as_colors a) = true;
  pv_colors : all_clrs CN (as_colors a) = true;
  pv_ok : as_ok a (is_ms s);
  pv_tidy : tidy a (ms_mem (is_ms s))
}.

(** Mapping a memory region of a VM: if an address of the region is mapped
    already the code panics; otherwise the call returns and the region is mapped,
    each address to its offset from where the region is placed or, if it is not
    placed, to a page that was free, is taken now and is in no table. No other address of the VM
    changes, and the hypervisor's state does not. The allocator must not refuse
    a page or a table before 49 pages for each page of the region are taken. *)
Theorem vm_map_mem_region_correct reg (s : istate A) :
  plain_vm s -> region_fits a fuel (ms_pages (is_ms s)) reg ->
  let n := region_pages reg in
  let r := vm_map_mem_region CN CS hyp_secs cpu_as fuel i reg s in
  refused a (49 * n + 8) (ms_pages (is_ms s)) \/
  ((exists u, in_pages a (rg_base reg) n u /\ is_Some (mem_translate (ms_mem (is_ms s)) (as_pt a) u)) /\
   r = Fault (Panic "failed to allocate vm's dev address")) \/
  exists ms, r = Ok (tt, mk_is ms (is_hyp s) (is_as s) (is_iommu s) (is_ops s)) /\
    as_ok a ms /\ tidy a (ms_mem ms) /\
    (forall u, ~ in_pages a (rg_base reg) n u ->
       mem_translate (ms_mem ms) (as_pt a) u = mem_translate (ms_mem (is_ms s)) (as_pt a) u) /\
    (forall u, in_pages a (rg_base reg) n u -> exists p, mem_translate (ms_mem ms) (as_pt a) u = Some p /\
       if rg_place_phys reg then p = rg_phys reg + (nv (as_pt a) u - rg_base reg)
       else p mod PAGE_SIZE = u mod PAGE_SIZE /\ handed_out a (is_ms s) ms (page_of p)).
Proof.
  intros [Ha Ht Hp Hc Hok Htd] Hf n r. subst r. rewrite (region_run CN CS hyp_secs cpu_as a) by done.
  destruct (map_region_spec CN CS hyp_secs cpu_as a fuel Hp Hc Ht reg (is_ms s) Hok Htd Hf) as [?|[[Hu E]|Hpl]].
  - by left.
  - right. left. split; [done|]. unfold liftp. by rewrite E.
  - right. right. destruct Hpl as (_ & ms & E & Hok' & Htd' & _ & Hout & Hin). exists ms.
    split; [by apply liftp_run|]. split_and!; try done. intros u Hu. destruct (Hin u Hu) as (p & Ep & H).
    exists p. split; [done|]. unfold region_back in H. by destruct (rg_place_phys reg).
Qed.

(** C13. The memory of a VM is what its configuration gives it: with disjoint
    regions in an empty address space, one of which may hold the image in place,
    the set-up returns; an address of the VM then translates if and only if it
    lies in a region, and leads to the region's place, to the image, or to a page
    that was free, is taken now and is in no table of the VM. No other address space changes. The
    allocator must not refuse a page or a table before [cost] pages are taken. *)
Theorem vm_memory_confined cfg (s : istate A) :
  plain_vm s -> (forall u, mem_translate (ms_mem (is_ms s)) (as_pt a) u = None) ->
  disjoint_regs a (cf_regions cfg) ->
  (forall reg, reg ∈ cf_regions cfg -> region_ok a fuel cfg (ms_pages (is_ms s)) reg) ->
  refused a (cost (cf_regions cfg)) (ms_pages (is_ms s)) \/
  exists ms, vm_init_mem_regions CN CS hyp_secs cpu_as fuel i cfg s
      = Ok (tt, mk_is ms (is_hyp s) (is_as s) (is_iommu s) (is_ops s)) /\
    (forall reg u, reg ∈ cf_regions cfg -> in_reg a reg u -> is_Some (mem_translate (ms_mem ms) (as_pt a) u)) /\
    (forall u p, mem_translate (ms_mem ms) (as_pt a) u = Some p -> exists reg, reg ∈ cf_regions cfg /\ in_reg a reg u /\
       match backing a cfg reg u with
       | Some q => p = q
       | None => p mod PAGE_SIZE = u mod PAGE_SIZE /\ handed_out a (is_ms s) ms (page_of p)
       end) /\
    (forall as2, as_ok as2 (is_ms s) -> apart a as2 (ms_mem (is_ms s)) ->
       forall u, mem_translate (ms_mem ms) (as_pt as2) u = mem_translate (ms_mem (is_ms s)) (as_pt as2) u).
Proof.
  intros [Ha Ht Hp Hc Hok Htd] Hempty Hdis Hfit.
  destruct (regions_loop CN CS hyp_secs cpu_as a fuel Hp Hc Ht i cfg (cf_regions cfg) s) as [?|(ms & E & Hm)]; [done|by split|by left|].
  right. exists ms. split; [exact E|]. destruct Hm as [Hok' _ Hev Hout Hin]. split_and!.
  - intros reg u Hr Hu. destruct (Hin reg u Hr Hu) as (p & -> & _). by eexists.
  - intros u p Ep. destruct (decide (Exists (fun reg => in_reg a reg u) (cf_regions cfg))) as [He|He].
    + apply Exists_exists in He as (reg & Hr & Hu). exists reg. split; [done|]. split; [done|].
      destruct (Hin reg u Hr Hu) as (p' & Ep' & Hb). rewrite Ep in Ep'. by simplify_eq.
    + rewrite Hout, Hempty in Ep; [done|]. intros reg Hr Hu. apply He, Exists_exists. by exists reg.
  - intros as2 Hok2 Hap u. by destruct (evolves_other a as2 _ _ _ Hok2 Hap Hev (ok_inv _ _ Hok')) as (_ & _ & ->).
Qed.

(** C18. Shared memory stays inside its object: whatever window on a shared memory
    object the configuration of a VM asks for, an address the set-up of the
    windows makes translate leads to the window's offset in the object, within
    the pages of the object, and no other address of the VM changes. *)
Theorem vm_shmem_confined cfg x (s : istate A) :
  plain_vm s -> hy_vms (is_hyp s) !! i = Some x ->
  let regs := ipc_regions (hy_shmem (is_hyp s)) (cf_ipcs cfg) in
  regions_ready a (region_fits a fuel) regs (is_ms s) ->
  refused a (cost regs) (ms_pages (is_ms s)) \/
  exists s', vm_init_ipc CN CS hyp_secs cpu_as fuel i cfg s = Ok (tt, s') /\
    forall u, mem_translate (ms_mem (is_ms s')) (as_pt a) u = mem_translate (ms_mem (is_ms s)) (as_pt a) u \/
      exists o sh, o ∈ cf_ipcs cfg /\ ipc_get_shmem (hy_shmem (is_hyp s)) (ipc_shmem_id o) = Some sh /\
        mem_translate (ms_mem (is_ms s')) (as_pt a) u = Some (sh_phys sh + (nv (as_pt a) u - ipc_base o)) /\
        0 <= nv (as_pt a) u - ipc_base o < NUM_PAGES (sh_size sh) * PAGE_SIZE.
Proof.
  intros [Ha Ht Hp Hc Hok Htd] Hx regs Hrd. unfold vm_init_ipc.
  set (x' := mk_vm (vm_id x) (vm_master x) (vm_cpu_num x) (vm_cpus x) (vm_vcpu_list x) (vm_vplic x)
               (vm_emul_list x) (vm_interrupts x) (cf_ipcs cfg)).
  set (s0 := mk_is (is_ms s) (set_vms (fun m => <[i := x']> m) (is_hyp s)) (is_as s) (is_iommu s) (is_ops s)).
  rewrite (im_bind _ _ s tt s0).
  2:{ unfold lifth. by rewrite (bind_eq _ _ _ _ _ (get_vm_eq i (is_hyp s) x Hx)). }
  destruct (ipc_loop CN CS hyp_secs cpu_as a fuel Hp Hc Ht i (cf_ipcs cfg) s0 Ha Hrd) as [?|(s' & E & _ & Hm)]; [by left|].
  right. exists s'. split; [exact E|]. intros u. destruct Hm as [_ _ _ Hout Hin]. simpl in Hout, Hin. fold regs in Hout, Hin.
  destruct (decide (Exists (fun reg => in_reg a reg u) regs)) as [He|He].
  - right. apply Exists_exists in He as (reg & Hr & Hu). destruct (ipc_regions_elem _ _ reg Hr) as (o & sh & Ho & Hsh & Ereg).
    exists o, sh. split; [done|]. split; [done|]. destruct (Hin reg u Hr Hu) as (p & Ep & Hb).
    destruct (rd_fit _ _ _ _ Hrd reg Hr) as [Hrg _ _ _]. pose proof (w_sv _ _ (ok_wf _ _ Hok)) as Hsv.
    pose proof (range_nv a _ _ Hrg Hsv) as Hnv. unfold in_reg, in_pages in Hu. rewrite Hnv in Hu. subst reg.
    unfold region_back in Hb. simpl in *. subst p. split; [done|]. split; [lia|].
    assert (NUM_PAGES (Z.min (ipc_size o) (sh_size sh)) <= NUM_PAGES (sh_size sh)) by (apply NUM_PAGES_mono; lia).
    unfold region_pages, PAGE_SIZE in *. simpl in *. lia.
  - left. apply Hout. intros reg Hr Hu. apply He, Exists_exists. by exists reg.
Qed.
End Claims.

(** ** A VM with a placed region, an image and a window on shared memory *)
#[local] Instance demo_alloc4 : PageAlloc (mem * list page_pool) := pools_page_alloc 1 1.

Definition demo_placed : mem_region := mk_rgn 0x80000000 0x3000 0 true 0x90000000.
Definition demo_image : mem_region := mk_rgn 0xC0000000 0x4000 0 false 0.
Definition demo_cfg : vm_config :=
  mk_vmcfg 0xC0001000 0x88000000 0x1800 0xC0001000 0 1 [demo_placed; demo_image] [] [mk_ipc 0xD0000000 0x9000 0 []].
Definition demo_is : istate (mem * list page_pool) :=
  mk_is demo_ms
    (mk_hyp {[ 0 := demo_cpu ]} {[ 0 := demo_vm ∅ ]} (mk_plic 31 ∅ ∅ ∅ ∅) 126 [mk_shmem 0x2000 0 true 0xA0000000 0] ∅ ∅ ∅ [])
    {[ 0 := demo_as ]} ∅ [].

Lemma demo_plain : plain_vm 1 demo_as 0 demo_is.
Proof.
  split; try reflexivity; [exact demo_as_ok|]. intros u Hu. exfalso. revert Hu. unfold rsvd.
  assert (ms_mem (is_ms demo_is) = ∅) as -> by reflexivity. by rewrite ld_empty.
Qed.

Lemma demo_empty u : mem_translate (ms_mem (is_ms demo_is)) (as_pt demo_as) u = None.
Proof. apply empty_translate; [by right|done|done]. Qed.

Lemma demo_placed_fits : region_fits demo_as 60 (ms_pages demo_ms) demo_placed.
Proof.
  split; try done. vm_compute. lia.
Qed.

Lemma vm_map_mem_region_correct_witness :
  exists ms, vm_map_mem_region 1 1 [] demo_as 60 0 demo_placed demo_is
      = Ok (tt, mk_is ms (is_hyp demo_is) (is_as demo_is) (is_iommu demo_is) (is_ops demo_is)) /\
    mem_translate (ms_mem ms) (as_pt demo_as) 0x80002004 = Some 0x90002004.
Proof.
  destruct (vm_map_mem_region_correct 1 1 [] demo_as demo_as 60 0 demo_placed demo_is demo_plain demo_placed_fits)
    as [_|[[(u & _ & Hm) _]|(ms & E & _ & _ & _ & Hin)]].
  - eexists. split; [vm_compute; reflexivity|vm_compute; reflexivity].
  - exfalso. rewrite demo_empty in Hm. by destruct Hm.
  - exists ms. split; [exact E|]. destruct (Hin 0x80002004) as (p & -> & Hp); [vm_compute; split; [discriminate|reflexivity]|].
    simpl in Hp. rewrite Hp. reflexivity.
Defined.

Lemma demo_disjoint : disjoint_regs demo_as (cf_regions demo_cfg).
Proof.
  intros [|[|j]] [|[|k]] r1 r2 u H1 H2 Hne; simplify_eq/=; try done; intros U1 U2; unfold in_reg, in_pages in U1, U2;
    simpl in U1, U2; change (nv _ 0x80000000) with 0x80000000 in *; change (nv _ 0xC0000000) with 0xC0000000 in *;
    change (region_pages demo_placed * PAGE_SIZE) with 0x3000 in *; change (region_pages demo_image * PAGE_SIZE) with 0x4000 in *; lia.
Qed.

Lemma demo_regions_ok reg : reg ∈ cf_regions demo_cfg -> region_ok demo_as 60 demo_cfg (ms_pages (is_ms demo_is)) reg.
Proof.
  intros [->|[->|[]%elem_of_nil]%elem_of_cons]%elem_of_cons; (split; [|intros Hh; vm_compute in Hh; try done]).
  - apply demo_placed_fits.
  - split; try done; [vm_compute; lia|]. intros _. apply demo_aligned.
Qed.

Lemma vm_memory_confined_witness :
  exists ms, vm_init_mem_regions 1 1 [] demo_as 60 0 demo_cfg demo_is
      = Ok (tt, mk_is ms (is_hyp demo_is) (is_as demo_is) (is_iommu demo_is) (is_ops demo_is)) /\
    mem_translate (ms_mem ms) (as_pt demo_as) 0x80003000 = None /\
    mem_translate (ms_mem ms) (as_pt demo_as) 0xC0002010 = Some 0x88001010.
Proof.
  destruct (vm_memory_confined 1 1 [] demo_as demo_as 60 0 demo_cfg demo_is demo_plain demo_empty demo_disjoint demo_regions_ok)
    as [_|(ms & E & Hin & Hout & _)].
  - eexists. split; [vm_compute; reflexivity|split; vm_compute; reflexivity].
  - exists ms. split; [exact E|]. split.
    + destruct (mem_translate (ms_mem ms) (as_pt demo_as) 0x80003000) as [p|] eqn:Ep; [exfalso|done].
      destruct (Hout _ _ Ep) as (reg & [->|[->|[]%elem_of_nil]%elem_of_cons]%elem_of_cons & [H1 H2] & _); vm_compute in H1, H2; congruence.
    + destruct (Hin demo_image 0xC0002010) as [p Ep]; [right; by left|vm_compute; split; [discriminate|reflexivity]|].
      destruct (Hout _ _ Ep) as (reg & [->|[->|[]%elem_of_nil]%elem_of_cons]%elem_of_cons & [H1 H2] & Hb);
        [vm_compute in H1, H2; congruence|]. rewrite Ep. vm_compute in Hb. by rewrite Hb.
Defined.

Lemma demo_ipc_ready :
  regions_ready demo_as (region_fits demo_as 60) (ipc_regions (hy_shmem (is_hyp demo_is)) (cf_ipcs demo_cfg)) (is_ms demo_is).
Proof.
  split; [exact demo_as_ok|apply demo_plain| | |].
  - by intros [|j] [|k] r1 r2 u H1 H2 Hne; simplify_eq/=.
  - intros reg [->|[]%elem_of_nil]%elem_of_cons. split; try done. vm_compute; lia.
  - intros reg u _ _. apply demo_empty.
Qed.

(** The VM asks for nine pages of an object of two: it gets two. *)
Lemma vm_shmem_confined_witness :
  match vm_init_ipc 1 1 [] demo_as 60 0 demo_cfg demo_is with
  | Ok (_, s') => mem_translate (ms_mem (is_ms s')) (as_pt demo_as) 0xD0002000 = None
  | _ => False
  end.
Proof.
  destruct (vm_shmem_confined 1 1 [] demo_as demo_as 60 0 demo_cfg (demo_vm ∅) demo_is demo_plain eq_refl demo_ipc_ready)
    as [_|(s' & E & H)].
  - vm_compute. reflexivity.
  - rewrite E.
    destruct (H 0xD0002000) as [-> |(o & sh & [->|[]%elem_of_nil]%elem_of_cons & Hsh & _ & Hr)]; [apply demo_empty|].
    exfalso. vm_compute in Hsh. injection Hsh as <-. vm_compute in Hr. by destruct Hr as [_ Hr].
Defined.

(** ** The VM in the address spaces of its CPUs *)

(** A CPU that has copied the entry of the master sees the VM where the master
    does: every address under the entry translates as in the address space of
    the master, if the root table of the CPU is no table of the master. *)
Theorem vmm_shared_view {A} `{!PageAlloc A} (master cpu_as : addr_space) (s s' : mstate A) w u :
  pt_dscr (as_pt master) = sv39_pt_dscr -> pt_dscr (as_pt cpu_as) = sv39_pt_dscr -> pt_wf (ms_mem s) (as_pt master) ->
  ~ table_addr master (ms_mem s) (pt_root (as_pt cpu_as) + 8 * ix (as_pt cpu_as) BAO_VM_BASE 0) ->
  w = ld (ms_mem s) (pt_root (as_pt master) + 8 * ix (as_pt master) BAO_VM_BASE 0) ->
  vmm_join_vm cpu_as w s = Ok (tt, s') ->
  ix (as_pt master) u 0 = ix (as_pt master) BAO_VM_BASE 0 ->
  mem_translate (ms_mem s') (as_pt cpu_as) u = mem_translate (ms_mem s) (as_pt master) u.
Proof.
  intros D1 D2 Hwf Hap Hw Hj Hu. pose proof (w_sv _ _ Hwf) as Hsv.
  assert (ix (as_pt cpu_as) u 0 = ix (as_pt cpu_as) BAO_VM_BASE 0) as Hu'.
  { unfold ix, pt_getpteindex_by_va, pt_nentries, off, wdt in *. by rewrite D1 in Hu; rewrite D2. }
  set (pte := pt_root (as_pt cpu_as) + _) in *. set (m := ms_mem s) in *.
  unfold vmm_join_vm in Hj. destruct (w =? 0); [done|]. rewrite pm_get_mem in Hj.
  change (pt_get_pte _ _ 0 _) with pte in Hj. unfold store in Hj. destruct (Z.eqb_spec pte 0) as [|Hne]; [done|].
  injection Hj as <-. simpl. fold m.
  rewrite (mem_translate_leaf m (as_pt master)) by done. pose proof (leaf_pos m (as_pt master) u Hwf) as Hpos.
  assert (forall lvl, pt_getpteindex_by_va (as_pt cpu_as) u lvl = pt_getpteindex_by_va (as_pt master) u lvl) as Hix.
  { intros lvl. unfold pt_getpteindex_by_va, pt_nentries, off, wdt. by rewrite D1, D2. }
  assert (forall lvl, off (as_pt cpu_as) lvl = off (as_pt master) lvl) as Hoff by (intros lvl; unfold off; by rewrite D1, D2).
  assert (forall k b, (k < 3)%nat -> tab m (as_pt master) k u = Some b ->
    ld (st m pte w) (b + 8 * ix (as_pt master) u k) = ld m (b + 8 * ix (as_pt master) u k)) as Hld.
  { intros k b Hk Hb. apply ld_st_ne. intros E. apply Hap. rewrite E. by eapply entry_addr. }
  assert (exists addr, translate_loop (st m pte w) (as_pt cpu_as) u pte 0 3 = (addr, Z.of_nat (fst (leaf m (as_pt master) u))) /\
    addr <> 0 /\ ld (st m pte w) addr = ld m (snd (leaf m (as_pt master) u))) as (addr & El & Ha & Ed).
  { assert (forall x, negb (pte_valid x) || negb (pte_table x) = negb (pte_table x)) as Hs.
    { intros x. destruct (pte_table x) eqn:E; [by rewrite pte_table_valid|by rewrite orb_true_r]. }
    pose proof (w_last _ _ Hwf u) as Hl. pose proof (fun b => Hld 1%nat b ltac:(lia)) as H1.
    pose proof (fun b => Hld 2%nat b ltac:(lia)) as H2. rewrite <- Hu in Hw. clear Hld.
    unfold leaf in *. cbn [translate_loop]. rewrite ld_st_eq, !Hix, !Hs. simpl tab in *. rewrite <- Hw in *.
    change (pt_getpteindex_by_va (as_pt master) u (0 + 1)) with (ix (as_pt master) u 1).
    change (pt_getpteindex_by_va (as_pt master) u (0 + 1 + 1)) with (ix (as_pt master) u 2).
    destruct (pte_table w); simpl in *; [|exists pte; split; [done|]; split; [done|by rewrite ld_st_eq]]. rewrite (H1 _ eq_refl).
    destruct (pte_table (ld m (_ + 8 * ix (as_pt master) u 1))); simpl in *; [|eexists; split; [done|]; split; [lia|by apply H1]].
    rewrite (H2 _ eq_refl), (Hl _ eq_refl). simpl. eexists. split; [done|]. split; [lia|by apply H2]. }
  unfold mem_translate, out. rewrite D2. change (Z.to_nat (lvls sv39_pt_dscr)) with 3%nat.
  change (pt_root (as_pt cpu_as) + 8 * pt_getpteindex_by_va (as_pt cpu_as) u 0)
    with (pt_root (as_pt cpu_as) + 8 * ix (as_pt cpu_as) u 0). rewrite Hu'. fold pte. rewrite El, Ed, Hoff.
  by replace (addr =? 0) with false by lia.
Qed.
