(* ===== verification/Boot.v ===== *)
(** * Memory at boot

    The rest of [core/mem.c], from [cpu_boot_alloc_size] to [mem_init], with
    [core/config.c] and [core/cache.c]: the pool of the region the hypervisor was
    loaded to is set up, the configuration is mapped, the memory that it places
    is reserved, and the other regions get their pools. The code runs on the
    master CPU, in its own address space, before any VM exists. *)

From S2P Require Import Prelude Bit Bitmap PagePool PageTable MemMap State Ipc VmInit.

(** ** Cache colours *)
Inductive cache_kind := UNIFIED | SEPARATE | DATA | INSTRUCTION.
Inductive cache_index := PIPT | VIPT.

#[export] Instance cache_kind_eq_dec : EqDecision cache_kind.
Proof. solve_decision. Defined.
#[export] Instance cache_index_eq_dec : EqDecision cache_index.
Proof. solve_decision. Defined.

(** [cache_t]; the arrays of two are pairs, the first for data. *)
Record cache := mk_cache {
  c_lvls : Z; c_min_shared : Z; c_type : Z -> cache_kind; c_indexed : Z -> cache_index * cache_index;
  c_line_size : Z -> Z * Z; c_numset : Z -> Z * Z
}.

(** The new [(COLOR_NUM, COLOR_SIZE)], given the old; [None] is a division by
    zero. The index [UNIFIED] into the pairs is 0. *)
Definition cache_calc_colors (d : cache) (page_size : Z) (old : Z * Z) : option (Z * Z) :=
  if c_lvls d =? 0 then Some old
  else
    let llc := c_min_shared d in
    if negb (bool_decide (c_type d llc = UNIFIED)) || negb (bool_decide ((c_indexed d llc).1 = PIPT)) then Some old
    else
      let llc_way_size := u64 ((c_numset d llc).1 * (c_line_size d llc).1) in
      let flc_way_size :=
        if negb (bool_decide (c_type d 0 = UNIFIED)) then
          let flc := u64 ((c_numset d 0).1 * (c_line_size d 0).1) in
          let flc_i := u64 ((c_numset d 0).2 * (c_line_size d 0).2) in
          if (bool_decide ((c_indexed d 0).1 = PIPT) || (flc_i <? flc)) && bool_decide ((c_indexed d 0).2 = PIPT)
          then flc_i else flc
        else 0 in
      let llc_num_colors := llc_way_size / page_size in
      let flc_num_colors := flc_way_size / page_size in
      if flc_num_colors =? 0 then None
      else Some (llc_num_colors / flc_num_colors, flc_num_colors).

(** ** Reservation *)

(** Placed blocks of a list, one after the other, up to the first that fails. *)
Fixpoint reserve_regions (m : mem) (pool : page_pool) (regs : list mem_region) : bool * page_pool * mem :=
  match regs with
  | [] => (true, pool, m)
  | reg :: rest =>
      if rg_place_phys reg then
        let '(ok, pool', m') := mem_reserve_ppool_ppages m pool (mem_ppages_get (rg_phys reg) (NUM_PAGES (rg_size reg))) in
        if ok then reserve_regions m' pool' rest else (false, pool', m')
      else reserve_regions m pool rest
  end.

Fixpoint reserve_vms (m : mem) (pool : page_pool) (vms : list vm_config) : bool * page_pool * mem :=
  match vms with
  | [] => (true, pool, m)
  | cfg :: rest =>
      let '(ok, pool', m') := reserve_regions m pool (cf_regions cfg) in
      if ok then reserve_vms m' pool' rest else (false, pool', m')
  end.

Fixpoint reserve_shmems (m : mem) (pool : page_pool) (l : list shmem) : bool * page_pool * mem :=
  match l with
  | [] => (true, pool, m)
  | sh :: rest =>
      if sh_place_phys sh then
        let '(ok, pool', m') := mem_reserve_ppool_ppages m pool (mem_ppages_get (sh_phys sh) (NUM_PAGES (sh_size sh))) in
        if ok then reserve_shmems m' pool' rest else (false, pool', m')
      else reserve_shmems m pool rest
  end.

Definition mem_reserve_vm_cfg (m : mem) (pool : page_pool) (vms : list vm_config) (shmems : list shmem)
    : bool * page_pool * mem :=
  let '(ok, pool', m') := reserve_vms m pool vms in
  if ok then reserve_shmems m' pool' shmems else (false, pool', m').

(** The last component is [config_found]. *)
Definition mem_reserve_config (m : mem) (pool : page_pool) (config_addr config_size : Z) (found : bool)
    : bool * page_pool * mem * bool :=
  if found then (true, pool, m, true)
  else if range_in_range config_addr config_size (pp_base pool) (u64 (pp_size pool * PAGE_SIZE)) then
    let '(ok, pool', m') := mem_reserve_ppool_ppages m pool (mem_ppages_get config_addr (NUM_PAGES config_size)) in
    (ok, pool', m', ok)
  else (true, pool, m, false).

(** [struct config]; the arrays that its pointers lead to are lists. *)
Record config := mk_config {
  bc_header_size : Z; bc_size : Z; bc_hyp_colors : Z; bc_shmems : list shmem; bc_vms : list vm_config
}.

Definition mem_reserve_physical_memory (m : mem) (pool : page_pool) (config_addr : Z) (cfg : config) (found : bool)
    : bool * page_pool * mem * bool :=
  let '(ok, pool', m') := mem_reserve_vm_cfg m pool (bc_vms cfg) (bc_shmems cfg) in
  if ok then mem_reserve_config m' pool' config_addr (bc_size cfg) found else (false, pool', m', found).

(** The load address of an image is relative to the configuration; the other
    pointers become those of the arrays. *)
Definition adjust_image (phys : Z) (c : vm_config) : vm_config :=
  mk_vmcfg (img_base c) (if img_load c =? 0 then 0 else u64 (img_load c + phys)) (img_size c) (cf_entry c) (cf_colors c)
    (cf_cpu_num c) (cf_regions c) (cf_devs c) (cf_ipcs c).
Definition config_adjust_to_va (phys : Z) (cfg : config) : config :=
  mk_config (bc_header_size cfg) (bc_size cfg) (bc_hyp_colors cfg) (bc_shmems cfg) (adjust_image phys <$> bc_vms cfg).

(** ** Pools and the configuration *)

(** What the platform description and the linker fix: the number of CPUs, the
    size of [cpu_t], of the image and of a built-in configuration, and the memory
    regions. *)
Record platform := mk_plat {
  pf_cpu_num : Z; pf_cpu_size : Z; pf_image_size : Z; pf_config_size : Z; pf_regions : list mem_region
}.

Definition SIZEOF_CONFIG : Z := 88.
Definition SIZEOF_POOL : Z := 56.

Section Boot.
Context (CN CS : Z) (hyp_secs : list section) (fuel : nat) (plat : platform) (cpu_as : addr_space).
#[local] Instance boot_alloc : PageAlloc (mem * list page_pool) := pools_page_alloc CN CS.
Notation BM := (PM (mem * list page_pool)).

(** Bitmaps are words of the memory of the pools; a virtual page is the words
    from a quarter of its address on. *)
Definition bitmap_of (va : Z) : Z := va / 4.
Definition clear_bitmap (va n : Z) : BM unit :=
  fun s => Ok (tt, mk_mst (mem_zero (ms_pages s).1 (bitmap_of va) (n * PAGE_SIZE / 4), (ms_pages s).2) (ms_mem s) (ms_tlb s)).

(** A function on the memory of the bitmaps. *)
Definition on_bitmaps {B} (f : mem -> B * mem) : BM B :=
  fun s => let '(b, m) := f (ms_pages s).1 in Ok (b, mk_mst (m, (ms_pages s).2) (ms_mem s) (ms_tlb s)).
Definition set_pools (l : list page_pool) : BM unit :=
  fun s => Ok (tt, mk_mst ((ms_pages s).1, l) (ms_mem s) (ms_tlb s)).
Definition get_pools : BM (list page_pool) := fun s => Ok ((ms_pages s).2, s).

Fixpoint sum_pt_size (i : Z) (k : nat) : Z :=
  match k with O => 0 | S k' => pt_size (as_pt cpu_as) i + sum_pt_size (i + 1) k' end.
Definition cpu_boot_alloc_size : Z :=
  ALIGN (pf_cpu_size plat) PAGE_SIZE + sum_pt_size 1 (Z.to_nat (lvls (pt_dscr (as_pt cpu_as)) - 1)).

(** The pages of the bitmap of [size] pages. *)
Definition bitmap_pages (size : Z) : Z := size / (8 * PAGE_SIZE) + (if size mod (8 * PAGE_SIZE) =? 0 then 0 else 1).

Definition reserve (pool : page_pool) (pp : ppages) : BM (bool * page_pool) :=
  on_bitmaps (fun m => mem_reserve_ppool_ppages m pool pp).

Definition root_pool_set_up_bitmap (load_addr : Z) (pool : page_pool) : BM (bool * page_pool) :=
  let bitmap_size := bitmap_pages (pp_size pool) in
  if pp_size pool <=? bitmap_size then mret (false, pool)
  else
    let bitmap_base := u64 (load_addr + pf_image_size plat + pf_config_size plat + pf_cpu_num plat * cpu_boot_alloc_size) in
    let bitmap_pp := mem_ppages_get bitmap_base bitmap_size in
    root_bitmap ← mem_alloc_vpage hyp_secs cpu_as fuel SEC_HYP_GLOBAL 0 bitmap_size;
    if root_bitmap =? 0 then mret (false, pool)
    else
      let pool := mk_pool (pp_base pool) (pp_size pool) (pp_free pool) (pp_last pool) (bitmap_of root_bitmap) in
      mem_map CN CS hyp_secs cpu_as cpu_as root_bitmap (Some bitmap_pp) bitmap_size PTE_HYP_FLAGS;;
      clear_bitmap root_bitmap bitmap_size;;
      reserve pool bitmap_pp.

Definition pp_root_reserve_hyp_mem (load_addr : Z) (pool : page_pool) : BM (bool * page_pool) :=
  let cpu_size := u64 (pf_cpu_num plat * cpu_boot_alloc_size) in
  let cpu_base_addr := u64 (load_addr + pf_image_size plat + pf_config_size plat) in
  '(image_reserved, pool) ← reserve pool (mem_ppages_get load_addr (NUM_PAGES (pf_image_size plat)));
  '(cpu_reserved, pool) ← reserve pool (mem_ppages_get cpu_base_addr (NUM_PAGES cpu_size));
  mret (image_reserved && cpu_reserved, pool).

(** Both parts work on the static [root_pool], which is the result here. *)
Definition pp_root_init (load_addr : Z) (region : mem_region) : BM (bool * page_pool) :=
  let size := rg_size region / PAGE_SIZE in
  let pool := mk_pool (ALIGN (rg_base region) PAGE_SIZE) size size 0 0 in
  '(ok, pool) ← root_pool_set_up_bitmap load_addr pool;
  if negb ok then mret (false, pool)
  else
    '(ok, pool) ← pp_root_reserve_hyp_mem load_addr pool;
    if negb ok then mret (false, pool)
    else mret (true, mk_pool (pp_base pool) (pp_size pool) (pp_free pool) 0 (pp_bitmap pool)).

(** A pool whose bitmap could not be set up is returned with what it has. *)
Definition pp_init (base size : Z) : BM page_pool :=
  let pages := NUM_PAGES size in
  let pool := mk_pool (ALIGN base PAGE_SIZE) pages 0 0 0 in
  let bitmap_size := bitmap_pages pages in
  if size <=? bitmap_size then mret pool
  else
    pp ← alloc_pages (as_colors cpu_as) bitmap_size false;
    if negb (pg_size pp =? bitmap_size) then mret pool
    else
      va ← mem_alloc_vpage hyp_secs cpu_as fuel SEC_HYP_GLOBAL 0 bitmap_size;
      if va =? 0 then mret pool
      else
        mem_map CN CS hyp_secs cpu_as cpu_as va (Some pp) bitmap_size PTE_HYP_FLAGS;;
        clear_bitmap va bitmap_size;;
        mret (mk_pool (pp_base pool) pages (u64 (pages - bitmap_size)) 0 (bitmap_of va)).

(** [mem_reserve_physical_memory] on a pool; one without a bitmap must not hold
    anything that is placed. *)
Definition in_pool (pool : page_pool) (base n : Z) : bool :=
  range_in_range base (n * PAGE_SIZE) (pp_base pool) (pp_size pool * PAGE_SIZE).
Definition asks (cfg : config) (config_addr : Z) (found : bool) (pool : page_pool) : bool :=
  existsb (fun c => existsb (fun r => rg_place_phys r && in_pool pool (rg_phys r) (NUM_PAGES (rg_size r))) (cf_regions c)) (bc_vms cfg) ||
  existsb (fun sh => sh_place_phys sh && in_pool pool (sh_phys sh) (NUM_PAGES (sh_size sh))) (bc_shmems cfg) ||
  negb found && range_in_range config_addr (bc_size cfg) (pp_base pool) (pp_size pool * PAGE_SIZE).

Definition reserve_all (config_addr : Z) (cfg : config) (found : bool) (pool : page_pool) : BM (bool * page_pool * bool) :=
  if (pp_bitmap pool =? 0) && asks cfg config_addr found pool then failp NullDeref
  else on_bitmaps (fun m =>
    let '(ok, pool', m', found') := mem_reserve_physical_memory m pool config_addr cfg found in ((ok, pool', found'), m')).

(** The nodes for pools: [Some k] are left in the slab, [None] is no slab yet. *)
Definition pools_per_slab : Z := (PAGE_SIZE - 64) / ALIGN (8 + SIZEOF_POOL) 8.
Definition new_slab : BM (option Z) :=
  p ← mem_alloc_page CN CS hyp_secs fuel cpu_as 1 SEC_HYP_GLOBAL false; mret (if p =? 0 then None else Some pools_per_slab).
Definition alloc_node (nodes : option Z) : BM (bool * option Z) :=
  slab ← match nodes with Some k => mret (Some k) | None => new_slab end;
  mret (match slab with Some k => if 0 <? k then (true, Some (k - 1)) else (false, Some k) | None => (false, None) end).

(** The regions but the root region, known by its index. *)
Fixpoint create_ppools (config_addr : Z) (cfg : config) (root i : nat) (regs : list mem_region) (nodes : option Z) (found : bool)
    : BM (bool * bool) :=
  match regs with
  | [] => mret (true, found)
  | reg :: rest =>
      if (i =? root)%nat then create_ppools config_addr cfg root (S i) rest nodes found
      else
        '(got, nodes) ← alloc_node nodes;
        if negb got then create_ppools config_addr cfg root (S i) rest nodes found
        else
          pool ← pp_init (rg_base reg) (rg_size reg);
          '(ok, pool, found) ← reserve_all config_addr cfg found pool;
          if negb ok then mret (false, found)
          else
            l ← get_pools;
            set_pools (l ++ [pool]);;
            create_ppools config_addr cfg root (S i) rest nodes found
  end.

Definition mem_create_ppools (config_addr : Z) (cfg : config) (root : nat) (found : bool) : BM (bool * bool) :=
  nodes ← new_slab; create_ppools config_addr cfg root 0 (pf_regions plat) nodes found.

(** The header of the configuration is mapped, a second part at the address the
    pointer arithmetic of the code gives: [vm_config_ptr + PAGE_SIZE] counts
    structures. *)
Definition mem_map_vm_config (config_addr header_size : Z) : BM (bool * Z) :=
  vm_config_ptr ← mem_alloc_vpage hyp_secs cpu_as fuel SEC_HYP_GLOBAL 0 1;
  if vm_config_ptr =? 0 then mret (false, 0)
  else
    mem_map CN CS hyp_secs cpu_as cpu_as vm_config_ptr (Some (mem_ppages_get config_addr 1)) 1 PTE_HYP_FLAGS;;
    if PAGE_SIZE <? header_size then
      let n := NUM_PAGES (header_size - PAGE_SIZE) in
      va ← mem_alloc_vpage hyp_secs cpu_as fuel SEC_HYP_GLOBAL (u64 (vm_config_ptr + PAGE_SIZE * SIZEOF_CONFIG)) n;
      if va =? 0 then mret (false, vm_config_ptr)
      else
        mem_map CN CS hyp_secs cpu_as cpu_as va (Some (mem_ppages_get (u64 (config_addr + PAGE_SIZE)) n)) n PTE_HYP_FLAGS;;
        mret (true, vm_config_ptr)
    else mret (true, vm_config_ptr).

(** The root pool is the first of the list. *)
Definition mem_init_vm_config (config_addr : Z) (cfg : config) : BM (bool * bool * config) :=
  '(ok, _) ← mem_map_vm_config config_addr (bc_header_size cfg);
  if negb ok then mret (false, false, cfg)
  else
    let cfg := config_adjust_to_va config_addr cfg in
    l ← get_pools;
    match l with
    | [] => mret (false, false, cfg)
    | pool :: rest =>
        '(ok, pool, found) ← reserve_all config_addr cfg false pool;
        set_pools (pool :: rest);; mret (ok, found, cfg)
    end.

Fixpoint find_root_region (load_addr : Z) (regs : list mem_region) (i : nat) : option (nat * mem_region) :=
  match regs with
  | [] => None
  | reg :: rest =>
      if range_in_range load_addr (pf_image_size plat) (rg_base reg) (rg_size reg) then Some (i, reg)
      else find_root_region load_addr rest (S i)
  end.
Definition mem_find_root_region (load_addr : Z) : option (nat * mem_region) := find_root_region load_addr (pf_regions plat) 0.

(** The index of the root region and its pool. *)
Definition mem_setup_root_pool (load_addr : Z) : BM (option (nat * page_pool)) :=
  match mem_find_root_region load_addr with
  | None => mret None
  | Some (i, reg) => '(ok, pool) ← pp_root_init load_addr reg; mret (if (ok : bool) then Some (i, pool) else None)
  end.

Definition config_is_builtin : bool := negb (pf_config_size plat =? 0).

(** [mem_init] on the master CPU after [as_init]; [config_off] is where the linker
    puts a built-in configuration. Recolouring the hypervisor is an argument. *)
Definition mem_init (color_hypervisor : Z -> Z -> BM unit) (load_addr config_addr config_off : Z) (cfg : config) : BM config :=
  root ← mem_setup_root_pool load_addr;
  match root with
  | None => failp (Panic "couldn't not initialize root pool")
  | Some (i, pool) =>
      set_pools [pool];;
      let config_addr := if config_is_builtin then u64 (config_off + load_addr) else config_addr in
      '(ok, found, cfg) ← mem_init_vm_config config_addr cfg;
      if negb ok then failp (Panic "couldn't init config")
      else
        (if all_clrs CN (bc_hyp_colors cfg) then (mret tt : BM unit) else color_hypervisor load_addr config_addr);;
        '(ok, found) ← mem_create_ppools config_addr cfg i found;
        if negb ok then failp (Panic "couldn't create additional page pools")
        else if negb found then failp (Panic "config was not loaded in a defined platform region")
        else mret cfg
  end.
End Boot.

(** ** What the reservation achieves *)

(** The blocks the configuration places, in the order of the loops. *)
Definition region_blocks (regs : list mem_region) : list ppages :=
  (fun r => mem_ppages_get (rg_phys r) (NUM_PAGES (rg_size r))) <$> filter (fun r => rg_place_phys r = true) regs.
Definition shmem_blocks (l : list shmem) : list ppages :=
  (fun sh => mem_ppages_get (sh_phys sh) (NUM_PAGES (sh_size sh))) <$> filter (fun sh => sh_place_phys sh = true) l.
Definition placed_blocks (vms : list vm_config) (shmems : list shmem) : list ppages :=
  (vms ≫= fun c => region_blocks (cf_regions c)) ++ shmem_blocks shmems.

Fixpoint reserve_blocks (m : mem) (pool : page_pool) (l : list ppages) : bool * page_pool * mem :=
  match l with
  | [] => (true, pool, m)
  | pp :: rest =>
      let '(ok, pool', m') := mem_reserve_ppool_ppages m pool pp in
      if ok then reserve_blocks m' pool' rest else (false, pool', m')
  end.

Lemma reserve_blocks_app m pool l k :
  reserve_blocks m pool (l ++ k) =
  let '(ok, pool', m') := reserve_blocks m pool l in if ok then reserve_blocks m' pool' k else (false, pool', m').
Proof.
  revert m pool. induction l as [|b l IH]; intros m pool; simpl; [done|].
  destruct (mem_reserve_ppool_ppages m pool b) as [[[] p'] m']; [apply IH|done].
Qed.

Lemma reserve_regions_blocks m pool regs : reserve_regions m pool regs = reserve_blocks m pool (region_blocks regs).
Proof.
  revert m pool. induction regs as [|r regs IH]; intros m pool; [done|]. unfold region_blocks. simpl.
  rewrite filter_cons. destruct (rg_place_phys r); simpl; [|apply IH].
  destruct (mem_reserve_ppool_ppages m pool _) as [[[] p'] m']; [apply IH|done].
Qed.

Lemma reserve_vms_blocks m pool vms :
  reserve_vms m pool vms = reserve_blocks m pool (vms ≫= fun c => region_blocks (cf_regions c)).
Proof.
  revert m pool. induction vms as [|c vms IH]; intros m pool; [done|].
  cbn [reserve_vms mbind list_bind]. rewrite reserve_blocks_app, reserve_regions_blocks.
  destruct (reserve_blocks _ _ _) as [[[] p'] m']; [apply IH|done].
Qed.

Lemma reserve_shmems_blocks m pool l : reserve_shmems m pool l = reserve_blocks m pool (shmem_blocks l).
Proof.
  revert m pool. induction l as [|r l IH]; intros m pool; [done|]. unfold shmem_blocks. simpl.
  rewrite filter_cons. destruct (sh_place_phys r); simpl; [|apply IH].
  destruct (mem_reserve_ppool_ppages m pool _) as [[[] p'] m']; [apply IH|done].
Qed.

Lemma reserve_vm_cfg_blocks m pool vms shmems :
  mem_reserve_vm_cfg m pool vms shmems = reserve_blocks m pool (placed_blocks vms shmems).
Proof.
  unfold mem_reserve_vm_cfg, placed_blocks. rewrite reserve_blocks_app, reserve_vms_blocks.
  destruct (reserve_blocks _ _ _) as [[[] p'] m']; [apply reserve_shmems_blocks|done].
Qed.

(** A block of whole pages in the physical address space. *)
Definition block_ok (b : ppages) : Prop :=
  0 <= pg_base b /\ 1 <= pg_size b /\ pg_base b mod PAGE_SIZE = 0 /\ pg_base b + pg_size b * PAGE_SIZE < 2 ^ 64.

(** The block lies in the pool, and page [j] of the pool in the block. *)
Definition inside (p : page_pool) (b : ppages) : Prop :=
  pp_base p <= pg_base b /\ pg_base b + pg_size b * PAGE_SIZE <= pp_base p + pp_size p * PAGE_SIZE.
Definition covers (p : page_pool) (b : ppages) (j : Z) : Prop :=
  pg_base b <= pp_base p + j * PAGE_SIZE < pg_base b + pg_size b * PAGE_SIZE.

#[export] Instance inside_dec p b : Decision (inside p b).
Proof. unfold inside. apply _. Defined.
#[export] Instance covers_dec p b j : Decision (covers p b j).
Proof. unfold covers. apply _. Defined.

(** No page of the blocks in the pool is taken, and none is in two of them. *)
Definition all_free (m : mem) (p : page_pool) (l : list ppages) : Prop :=
  forall b j, b ∈ l -> inside p b -> covers p b j -> taken m p j = false.
Definition no_overlap (p : page_pool) (l : list ppages) : Prop :=
  forall i k b c j, l !! i = Some b -> l !! k = Some c -> i <> k -> inside p b -> inside p c -> covers p b j -> covers p c j -> False.

Lemma inside_range p b : pool_wf p -> block_ok b ->
  range_in_range (pg_base b) (pg_size b * PAGE_SIZE) (pp_base p) (pp_size p * PAGE_SIZE) = true <-> inside p b.
Proof.
  intros (? & ? & _) (? & ? & _ & ?). unfold range_in_range, inside, PAGE_SIZE in *. rewrite !wrap_small by lia.
  rewrite andb_true_iff, !Z.leb_le. done.
Qed.

(** One block: outside the pool it is ignored, inside it is marked. *)
Lemma reserve_one m p b :
  pool_wf p -> pp_base p mod PAGE_SIZE = 0 -> block_ok b ->
  exists ok p' m', mem_reserve_ppool_ppages m p b = (ok, p', m') /\ same_geometry p p' /\ pool_wf p' /\
    (ok = true <-> (inside p b -> forall j, covers p b j -> taken m p j = false)) /\
    (forall j, taken m' p' j = bool_decide (inside p b /\ covers p b j) || taken m p j).
Proof.
  intros Hwf Hpa Hb. pose proof Hwf as (? & ? & Hlast & ?). destruct (decide (inside p b)) as [Hi|Hi].
  - destruct Hb as (? & Hn & Hba & _). unfold inside, PAGE_SIZE in *.
    set (off := pg_base b / 4096 - pp_base p / 4096).
    assert (pg_base b = pp_base p + off * 4096) as Eb.
    { unfold off. pose proof (Z.div_mod (pg_base b) 4096). pose proof (Z.div_mod (pp_base p) 4096). lia. }
    assert (b = mk_ppages (pp_base p + off * PAGE_SIZE) (pg_size b) (pg_colors b)) as -> by (destruct b; simpl in *; by rewrite Eb).
    destruct (mem_reserve_correct m p off (pg_size b)) as (ok & p' & m' & E & Hok & Htk & Hfree); [done|lia|lia|lia|].
    exists ok, p', m'. split; [exact E|].
    assert (same_geometry p p' /\ pp_last p' = pp_last p) as [Hg Hl].
    { unfold mem_reserve_ppool_ppages in E. simpl in E. rewrite block_in_range in E by (done || lia). by simplify_eq/=. }
    assert (forall j, covers p (mk_ppages (pp_base p + off * PAGE_SIZE) (pg_size b) (pg_colors b)) j <-> off <= j < off + pg_size b) as Hc.
    { intros j. unfold covers, PAGE_SIZE. simpl. lia. }
    split; [done|]. split; [|split].
    + destruct Hg as (E1 & E2 & _). unfold pool_wf. rewrite <- E1, <- E2, Hl, Hfree.
      pose proof (wrap_range 64 (pp_free p - pg_size b)). lia.
    + rewrite Hok. split.
      * intros Hj _ j Hcj. apply Hj. by apply Hc.
      * intros Hj j Hr. apply Hj; [simpl; unfold PAGE_SIZE; lia|by apply Hc].
    + intros j. rewrite Htk. f_equal. destruct (bool_decide _) eqn:Ed.
      * apply bool_decide_eq_true in Ed as [_ Hcj]. apply Hc in Hcj. lia.
      * apply bool_decide_eq_false in Ed. destruct (decide (off <= j < off + pg_size b)) as [Hr|]; [|lia].
        destruct Ed. split; [simpl; unfold PAGE_SIZE; lia|by apply Hc].
  - exists true, p, m. unfold mem_reserve_ppool_ppages.
    destruct (range_in_range _ _ _ _) eqn:E; [by apply inside_range in E|]. simpl. split_and!; try done.
    intros j. by rewrite bool_decide_false by tauto.
Qed.

Lemma geometry_inside p p' b : same_geometry p p' -> (inside p' b <-> inside p b) /\ forall j, covers p' b j <-> covers p b j.
Proof. intros (E1 & E2 & _). unfold inside, covers. by rewrite E1, E2. Qed.

Lemma reserve_blocks_spec m p l :
  pool_wf p -> pp_base p mod PAGE_SIZE = 0 -> Forall block_ok l ->
  exists ok p' m', reserve_blocks m p l = (ok, p', m') /\ same_geometry p p' /\ pool_wf p' /\
    (ok = true <-> all_free m p l /\ no_overlap p l) /\
    (ok = true -> forall j, taken m' p' j = true <-> taken m p j = true \/ exists b, b ∈ l /\ inside p b /\ covers p b j).
Proof.
  revert m p. induction l as [|b l IH]; intros m p Hwf Hpa Hl.
  { exists true, p, m. split_and!; try done.
    - split; [|done]. split; [by intros b j ?%elem_of_nil|by intros [|i]].
    - intros _ j. split; [by left|]. by intros [?|(b & ?%elem_of_nil & _)]. }
  apply Forall_cons in Hl as [Hb Hl]. simpl.
  destruct (reserve_one m p b Hwf Hpa Hb) as (ok & p1 & m1 & -> & Hg1 & Hwf1 & Hok & Htk1).
  assert (no_overlap p (b :: l) <-> no_overlap p l /\ forall c j, c ∈ l -> inside p b -> inside p c -> covers p b j -> covers p c j -> False) as Hno.
  { split.
    - intros H. split; [intros i k c d j Hc Hd Hik; by apply (H (S i) (S k)); [..|congruence]|].
      intros c j [k Hk]%list_elem_of_lookup. by apply (H 0%nat (S k)).
    - intros [H1 H2] [|i] [|k] c d j Hc Hd Hik; simplify_eq/=.
      + intros Hi Hj C1 C2. by eapply (H2 d j (list_elem_of_lookup_2 _ _ _ Hd)).
      + intros Hi Hj C1 C2. by eapply (H2 c j (list_elem_of_lookup_2 _ _ _ Hc)).
      + by apply (H1 i k c d j); [..|congruence]. }
  assert (all_free m p (b :: l) <-> (inside p b -> forall j, covers p b j -> taken m p j = false) /\ all_free m p l) as Haf.
  { split.
    - intros H. split; [intros Hi j; apply H; [by left|done]|intros c j Hc; apply H; by right].
    - intros [H1 H2] c j [->|Hc]%elem_of_cons Hi Hj; [by apply H1|by eapply H2]. }
  destruct ok.
  - destruct (IH m1 p1 Hwf1) as (ok' & p2 & m2 & -> & Hg2 & Hwf2 & Hok' & Htk2).
    { destruct Hg1 as (<- & _). done. }
    { done. }
    exists ok', p2, m2. split; [done|]. split; [|split; [done|]].
    { destruct Hg1 as (A1 & A2 & A3), Hg2 as (B1 & B2 & B3). split_and!; congruence. }
    assert (forall c, (inside p1 c <-> inside p c) /\ forall j, covers p1 c j <-> covers p c j) as Hg by (intros c; by apply geometry_inside).
    split.
    + rewrite Hok', Haf, Hno. split.
      * intros [F N]. split; [split; [by apply Hok|]|split].
        -- intros c j Hc Hi Hj. specialize (F c j Hc (proj2 (proj1 (Hg c)) Hi) (proj2 (proj2 (Hg c) j) Hj)).
           rewrite Htk1 in F. by apply orb_false_iff in F as [_ ?].
        -- intros i k c d j Hc Hd Hik Ic Id Cc Cd. eapply (N i k c d j); try done; by apply Hg.
        -- intros c j Hc Ib Ic Cb Cc. specialize (F c j Hc (proj2 (proj1 (Hg c)) Ic) (proj2 (proj2 (Hg c) j) Cc)).
           rewrite Htk1, bool_decide_true in F by done. done.
      * intros [[_ F] [N D]]. split.
        -- intros c j Hc Ic Cc. rewrite Htk1. apply orb_false_iff. apply (proj1 (Hg c)) in Ic. apply (proj2 (Hg c)) in Cc.
           split; [|by eapply F]. apply bool_decide_false. intros [Ib Cb]. by eapply D.
        -- intros i k c d j Hc Hd Hik Ic Id Cc Cd. eapply (N i k c d j); try done; by apply Hg.
    + intros E j. rewrite Htk2, Htk1, orb_true_iff, bool_decide_eq_true by done. split.
      * intros [[[Ib Cb]|?]|(c & Hc & Ic & Cc)]; [right; exists b; split; [by left|done]|by left|].
        right. exists c. split; [by right|]. by split; apply Hg.
      * intros [?|(c & [->|Hc]%elem_of_cons & Ic & Cc)]; [by left; right|by left; left|].
        right. exists c. split; [done|]. by split; apply Hg.
  - exists false, p1, m1. split_and!; try done. split; [done|]. intros [F _]. apply Haf in F as [F _]. by apply Hok in F.
Qed.

(** The reservation of the memory that the configuration places: in a pool
    of whole pages it succeeds exactly when no page of a placed region or shared
    memory object in the pool was taken and no two of these share a page; then
    exactly their pages, and those taken before, are taken. *)
Theorem mem_reserve_vm_cfg_correct m p vms shmems :
  pool_wf p -> pp_base p mod PAGE_SIZE = 0 -> Forall block_ok (placed_blocks vms shmems) ->
  exists ok p' m', mem_reserve_vm_cfg m p vms shmems = (ok, p', m') /\ same_geometry p p' /\ pool_wf p' /\
    (ok = true <-> all_free m p (placed_blocks vms shmems) /\ no_overlap p (placed_blocks vms shmems)) /\
    (ok = true -> forall j, taken m' p' j = true <->
       taken m p j = true \/ exists b, b ∈ placed_blocks vms shmems /\ inside p b /\ covers p b j).
Proof. intros. rewrite reserve_vm_cfg_blocks. by apply reserve_blocks_spec. Qed.

(** Two VMs and a shared memory object in a pool of 64 pages. *)
Definition boot_pool : page_pool := mk_pool 0x80000000 64 64 0 100.
Definition boot_vms : list vm_config :=
  [mk_vmcfg 0 0 0 0 0 1 [mk_rgn 0x1000 0x3000 0 true 0x80002000; mk_rgn 0x8000 0x1000 0 false 0] [] [];
   mk_vmcfg 0 0 0 0 0 1 [mk_rgn 0x1000 0x1800 0 true 0x80008000] [] []].
Definition boot_shmems : list shmem := [mk_shmem 0x1000 0 true 0x80010000 0].

Lemma mem_reserve_vm_cfg_correct_witness :
  exists p' m', mem_reserve_vm_cfg ∅ boot_pool boot_vms boot_shmems = (true, p', m') /\
    taken m' p' 9 = true /\ taken m' p' 5 = false.
Proof.
  destruct (mem_reserve_vm_cfg_correct ∅ boot_pool boot_vms boot_shmems) as (ok & p' & m' & E & _ & _ & _ & Ht).
  - vm_compute. split_and!; done || discriminate.
  - reflexivity.
  - repeat constructor; vm_compute; done || discriminate.
  - assert (ok = true) as -> by (vm_compute in E; by simplify_eq).
    exists p', m'. split; [done|]. split.
    + apply Ht; [done|]. right. exists (mem_ppages_get 0x80008000 2). split; [right; by left|]. vm_compute. split_and!; done || discriminate.
    + apply not_true_iff_false. intros [H|(b & [->|[->|[->|[]%elem_of_nil]%elem_of_cons]%elem_of_cons]%elem_of_cons & _ & [C1 C2])]%Ht;
        [done|..|done]; vm_compute in C1, C2; congruence.
Defined.

(** A block that is only partly in the pool is not reserved at all, and the
    reservation succeeds: its last page outside, its first stays free. *)
Theorem mem_reserve_straddling :
  mem_reserve_vm_cfg ∅ boot_pool [mk_vmcfg 0 0 0 0 0 1 [mk_rgn 0x1000 0x2000 0 true 0x8003F000] [] []] [] = (true, boot_pool, ∅) /\
  covers boot_pool (mem_ppages_get 0x8003F000 2) 63 /\ taken ∅ boot_pool 63 = false.
Proof. split; [reflexivity|]. split; [vm_compute; split; done || discriminate|reflexivity]. Qed.

(** With a unified first-level cache the number of colours is divided by zero. *)
Theorem cache_calc_colors_unified d ps old :
  c_lvls d <> 0 -> c_type d (c_min_shared d) = UNIFIED -> (c_indexed d (c_min_shared d)).1 = PIPT -> c_type d 0 = UNIFIED ->
  cache_calc_colors d ps old = None.
Proof.
  intros H1 H2 H3 H4. unfold cache_calc_colors. replace (c_lvls d =? 0) with false by lia. rewrite H2, H3, H4.
  by rewrite !bool_decide_true by done.
Qed.

(** The address space of the hypervisor on the master CPU, empty but for its
    root table, and its sections. *)
Definition boot_as : addr_space := mk_as (mk_pt 0x40000000 0 sv39_pt_dscr) AS_HYP 0 0.
Definition boot_secs : list section :=
  [mk_sec 0x1000000000 0x1FFFFFFFFF true; mk_sec 0x2000000000 0x20000FFFFF true; mk_sec 0x2000100000 0x2FFFFFFFFF true;
   mk_sec 0x3000000000 0x33FFFFFFFF false; mk_sec 0x3400000000 0x37FFFFFFFF true].
Definition boot_ms : mstate (mem * list page_pool) := mk_mst (∅, [boot_pool]) ∅ [].

(** The second page of the header of a large configuration is not mapped behind
    the first, but 88 pages further on. *)
Theorem config_header_misplaced :
  match mem_map_vm_config 1 1 boot_secs 60 boot_as 0x90000000 0x1800 boot_ms with
  | Ok ((ok, va), s) =>
      ok = true /\ mem_translate (ms_mem s) (as_pt boot_as) va = Some 0x90000000 /\
      mem_translate (ms_mem s) (as_pt boot_as) (va + 0x1000) = None /\
      mem_translate (ms_mem s) (as_pt boot_as) (va + 88 * 0x1000) = Some 0x90001000
  | Fault _ => False
  end.
Proof. vm_compute. split_and!; reflexivity. Qed.

(** The pool of a region that does not begin at a page boundary reaches past the
    end of the region. *)
Theorem pp_init_past_region :
  match pp_init 1 1 boot_secs 60 boot_as 0x80100800 0x40000 boot_ms with
  | Ok (pool, _) => pp_base pool = 0x80101000 /\ 0x80100800 + 0x40000 < pp_base pool + pp_size pool * PAGE_SIZE
  | Fault _ => False
  end.
Proof. vm_compute. split; reflexivity. Qed.
