(* ===== verification/Partition.v ===== *)
(** * Partitioning of memory between virtual machines

    The master CPUs of several VMs set up the memory of their VMs at the same
    time. Here the regions are mapped one by one in any order, as an interleaving
    of the loops of [vm_init_mem_regions] on these CPUs: no VM gets at the memory
    of another one, at the tables of any VM or at pages that are still free. *)

From S2P Require Import Prelude Bit Bitmap PagePool PageTable MemMap MapProofs VPage MapAlloc Isolate State Calls Vplic Ipc.
From S2P Require Import Interrupts VmInit VmMap Boot.

(** A VM: its number and address space, the address space of the hypervisor on
    its master CPU, and its configuration. *)
Record vmdesc := mk_vmd { vd_id : Z; vd_as : addr_space; vd_cpu : addr_space; vd_cfg : vm_config }.

(** ** Requests with the same colours *)
Section Colours.
Context {A : Type} `{!PageAlloc A} (as1 as2 : addr_space) (Hc : as_colors as1 = as_colors as2).

Lemma takes_colors t a a' : takes as1 t a a' -> takes as2 t a a'.
Proof.
  induction 1 as [|t a n al pp a1 a' Hn Ea Hp Hm _ IH]; [by apply takes_refl|].
  rewrite Hc in Ea. by eapply takes_step.
Qed.

Lemma refused_colors t a : refused as1 t a -> refused as2 t a.
Proof.
  intros (a1 & n & al & pp & a2 & Ht & Hn & Ea & Hp). rewrite Hc in Ea. exists a1, n, al, pp, a2.
  split; [by apply takes_colors|done].
Qed.
End Colours.

Section Partition.
Context {A : Type} `{!PageAlloc A} (CN CS : Z) (hyp_secs : list section) (fuel : nat) (vms : list vmdesc) (colors : Z).

Definition tr (s : istate A) (v : vmdesc) (u : Z) : option Z := mem_translate (ms_mem (is_ms s)) (as_pt (vd_as v)) u.

(** ** Schedules *)

(** A region of a VM to be mapped. *)
Definition task : Type := vmdesc * mem_region.

Definition run (sched : list task) : IM A unit :=
  iter (fun x => vm_init_region CN CS hyp_secs (vd_cpu x.1) fuel (vd_id x.1) (vd_cfg x.1) x.2) sched.

Definition task_reg (x : task) (u : Z) : Prop := in_reg (vd_as x.1) x.2 u.
Definition task_back (x : task) (u : Z) : option Z := backing (vd_as x.1) (vd_cfg x.1) x.2 u.

(** The address [q] is where the configuration places an address of the region. *)
Definition fixed (x : task) (q : Z) : Prop := exists u, task_reg x u /\ task_back x u = Some q.

Definition other (v w : vmdesc) : Prop := vd_id v <> vd_id w.

(** The page of [p] cannot be allocated and is in no table of a VM. *)
Definition guarded (s : istate A) (p : Z) : Prop :=
  ~ pa_avail (ms_pages (is_ms s)) (page_of p) /\
  forall w, w ∈ vms -> fresh (ms_mem (is_ms s)) (as_pt (vd_as w)) (page_of p).

(** The address spaces, while regions are mapped. *)
Record spaces_ok (s : istate A) : Prop := {
  sp_vm : forall v, v ∈ vms -> plain_vm CN (vd_as v) (vd_id v) s;
  sp_colors : forall v, v ∈ vms -> as_colors (vd_as v) = colors;
  sp_ids : forall v w, v ∈ vms -> w ∈ vms -> vd_id v = vd_id w -> v = w;
  sp_apart : forall v w, v ∈ vms -> w ∈ vms -> other v w -> apart (vd_as v) (vd_as w) (ms_mem (is_ms s))
}.

(** What is mapped, and what the configuration still asks for. *)
Record separated (todo : list task) (s : istate A) : Prop := {
  se_own : forall v u p, v ∈ vms -> tr s v u = Some p -> guarded s p;
  se_sep : forall v w u u' p p', v ∈ vms -> w ∈ vms -> other v w -> tr s v u = Some p -> tr s w u' = Some p' ->
    page_of p <> page_of p';
  se_fixed : forall x q, x ∈ todo -> fixed x q -> guarded s q;
  se_fixsep : forall x q w u p, x ∈ todo -> fixed x q -> w ∈ vms -> other w x.1 -> tr s w u = Some p ->
    page_of p <> page_of q;
  se_fixfix : forall x y q r, x ∈ todo -> y ∈ todo -> other x.1 y.1 -> fixed x q -> fixed y r -> page_of q <> page_of r
}.

(** The regions still to be mapped. *)
Record tasks_ok (todo : list task) (s : istate A) : Prop := {
  tk_vm : forall x, x ∈ todo -> x.1 ∈ vms;
  tk_ok : forall x, x ∈ todo -> region_ok (vd_as x.1) fuel (vd_cfg x.1) (ms_pages (is_ms s)) x.2;
  tk_disj : forall j k x y u, todo !! j = Some x -> todo !! k = Some y -> j <> k -> vd_id x.1 = vd_id y.1 ->
    task_reg x u -> task_reg y u -> False;
  tk_free : forall x u, x ∈ todo -> task_reg x u -> tr s x.1 u = None
}.

(** ** One region *)
Section Step.
Context (v : vmdesc) (reg : mem_region) (todo : list task) (s : istate A) (ms : mstate A).
Let a := vd_as v.
Let s1 : istate A := mk_is ms (is_hyp s) (is_as s) (is_iommu s) (is_ops s).
Let x0 : task := (v, reg).
Context (Hsp : spaces_ok s) (Hv : v ∈ vms) (t : Z) (Hok1 : as_ok a ms) (Htd1 : tidy a (ms_mem ms)) (Hev : evolves a t (is_ms s) ms).
Context (Hout : forall u, ~ task_reg x0 u -> mem_translate (ms_mem ms) (as_pt a) u = tr s v u).
Context (Hin : forall u, task_reg x0 u -> exists p, mem_translate (ms_mem ms) (as_pt a) u = Some p /\
  match task_back x0 u with
  | Some q => p = q
  | None => p mod PAGE_SIZE = u mod PAGE_SIZE /\ handed_out a (is_ms s) ms (page_of p)
  end).

Lemma other_dec w : w ∈ vms -> w = v \/ other v w.
Proof.
  intros Hw. destruct (decide (vd_id v = vd_id w)) as [E|E]; [left|by right].
  symmetry. by apply (sp_ids _ Hsp).
Qed.

Lemma step_agree w x :
  w ∈ vms -> other v w -> table_addr (vd_as w) (ms_mem (is_ms s)) x ->
  ~ avail_addr (ms_pages (is_ms s)) x /\ ld (ms_mem ms) x = ld (ms_mem (is_ms s)) x.
Proof.
  intros Hw Ho. destruct (sp_vm _ Hsp w Hw) as [_ _ _ _ Hok _].
  by apply (evolves_agree a (vd_as w) t (is_ms s) ms Hok (sp_apart _ Hsp v w Hv Hw Ho) Hev).
Qed.

Lemma step_other w :
  w ∈ vms -> other v w ->
  as_ok (vd_as w) ms /\ apart a (vd_as w) (ms_mem ms) /\ tidy (vd_as w) (ms_mem ms) /\
  (forall u, mem_translate (ms_mem ms) (as_pt (vd_as w)) u = tr s w u).
Proof.
  intros Hw Ho. destruct (sp_vm _ Hsp w Hw) as [_ _ _ _ Hok Htd].
  destruct (evolves_other a (vd_as w) t (is_ms s) ms) as (H1 & H2 & H3); [done|by apply Hsp|done|by apply Hok1|].
  split_and!; try done. pose proof (ok_wf _ _ Hok) as Hwf. intros u Hu.
  rewrite (agree_rsvd _ (ms_mem (is_ms s))) in Hu; [|apply Hwf|by intros x Hx; apply (step_agree w)|done].
  rewrite H3. by apply Htd.
Qed.

Lemma step_spaces : spaces_ok s1.
Proof.
  split; [|apply Hsp|apply Hsp|].
  - intros w Hw. destruct (sp_vm _ Hsp w Hw) as [H1 H2 H3 H4 _ _].
    destruct (other_dec w Hw) as [->|Ho]; [by split|]. by destruct (step_other w Hw Ho) as (? & _ & ? & _).
  - intros w w' Hw Hw' Ho. simpl.
    assert (forall z, z ∈ vms -> other v z -> forall y, table_addr (vd_as z) (ms_mem ms) y ->
      table_addr (vd_as z) (ms_mem (is_ms s)) y) as Hsame.
    { intros z Hz Hoz y. apply agree_table_addr; [apply (ok_wf _ _ (pv_ok _ _ _ _ (sp_vm _ Hsp z Hz)))|].
      intros y' Hy'. by apply (step_agree z). }
    destruct (other_dec w Hw) as [->|Hvw]; [by apply step_other|]. destruct (other_dec w' Hw') as [->|Hvw'].
    + intros y H1 H2. by destruct (step_other w Hw Hvw) as (_ & Hap & _); apply (Hap y).
    + intros y H1 H2. apply (sp_apart _ Hsp w w' Hw Hw' Ho y); by apply Hsame.
Qed.

Lemma step_fresh w p :
  w ∈ vms -> other v w -> fresh (ms_mem (is_ms s)) (as_pt (vd_as w)) p -> fresh (ms_mem ms) (as_pt (vd_as w)) p.
Proof.
  intros Hw Ho Hf j vb b Hj. rewrite (agree_tab _ (ms_mem (is_ms s))); [by apply Hf|..|done].
  - apply (ok_wf _ _ (pv_ok _ _ _ _ (sp_vm _ Hsp w Hw))).
  - intros x Hx. by apply (step_agree w).
Qed.

Lemma guarded_later p : guarded s p -> guarded s1 p.
Proof.
  intros [Hn Hf]. split; [intros H; apply Hn; eapply takes_mono; [apply Hev|done]|].
  intros w Hw. destruct (other_dec w Hw) as [->|Ho]; [|by apply step_fresh; [..|apply Hf]].
  destruct (pv_ok _ _ _ _ (sp_vm _ Hsp v Hv)) as [Hwf Hinv _].
  eapply fresh_later; [done|apply Hwf|done|apply page_of_aligned|done|by apply Hf].
Qed.

Lemma guarded_new p : handed_out a (is_ms s) ms (page_of p) -> guarded s1 p.
Proof.
  intros (Hav & Hn & Hf). split; [done|]. intros w Hw. destruct (other_dec w Hw) as [->|Ho]; [done|].
  apply step_fresh; [done|done|]. by apply (ok_owned _ _ (pv_ok _ _ _ _ (sp_vm _ Hsp w Hw))).
Qed.

(** An address of the VM leads where it led, where the configuration says, or to
    a page just handed out. *)
Lemma step_cases u p :
  tr s1 v u = Some p ->
  tr s v u = Some p \/ task_reg x0 u /\ (fixed x0 p \/ handed_out a (is_ms s) ms (page_of p)).
Proof.
  intros E. destruct (decide (in_reg a reg u)) as [Hu|Hu].
  - right. split; [done|]. destruct (Hin u Hu) as (p' & Ep & Hb). change (tr s1 v u = Some p') in Ep. rewrite E in Ep. simplify_eq.
    destruct (task_back x0 u) as [q|] eqn:Eb; [left; rewrite Hb; by exists u|right; apply Hb].
  - left. rewrite <- Hout by done. done.
Qed.

Lemma step_separated : separated (x0 :: todo) s -> separated todo s1.
Proof.
  intros [Hown Hsep Hfx Hfs Hff]. assert (x0 ∈ x0 :: todo) as Hx0 by (by left).
  assert (forall w u, w ∈ vms -> other v w -> tr s1 w u = tr s w u) as Hsame.
  { intros w u Hw Ho. destruct (step_other w Hw Ho) as (_ & _ & _ & E). apply E. }
  assert (forall q, guarded s q -> forall p, handed_out a (is_ms s) ms (page_of p) -> page_of p <> page_of q) as Hnew.
  { intros q [Hn _] p (Hav & _) E. apply Hn. by rewrite <- E. }
  assert (forall w u u' p p', w ∈ vms -> other v w -> tr s1 v u = Some p -> tr s1 w u' = Some p' -> page_of p <> page_of p') as Hvw.
  { intros w u u' p p' Hw Ho Ep Ep'. rewrite Hsame in Ep' by done.
    destruct (step_cases u p Ep) as [E|[_ [Hf|Hh]]]; [by eapply (Hsep v w)| |].
    - intros E. eapply (Hfs x0 p w u' p'); try done.
    - by eapply Hnew; [eapply Hown|]. }
  split.
  - intros w u p Hw Ep. destruct (other_dec w Hw) as [->|Ho].
    + destruct (step_cases u p Ep) as [E|[_ [Hf|Hh]]];
        [by eapply guarded_later, Hown|by eapply guarded_later, Hfx|by apply guarded_new].
    + rewrite Hsame in Ep by done. by eapply guarded_later, Hown.
  - intros w w' u u' p p' Hw Hw' Ho Ep Ep'. destruct (other_dec w Hw) as [->|Hvw0]; [by eapply Hvw|].
    destruct (other_dec w' Hw') as [->|Hvw']; [intros E; by eapply (Hvw w u' u)|].
    rewrite Hsame in Ep, Ep' by done. by eapply (Hsep w w').
  - intros x q Hx Hf. eapply guarded_later, Hfx; [by right|done].
  - intros x q w u p Hx Hf Hw Ho Ep. destruct (other_dec w Hw) as [->|Hvw0].
    + destruct (step_cases u p Ep) as [E|[_ [Hf'|Hh]]].
      * eapply (Hfs x q v u p); try done. by right.
      * eapply (Hff x0 x p q); try done. by right.
      * eapply Hnew; [|done]. eapply Hfx; [by right|done].
    + rewrite Hsame in Ep by done. eapply (Hfs x q w u p); try done. by right.
  - intros x y q r Hx Hy. apply Hff; by right.
Qed.

Lemma step_tasks : tasks_ok (x0 :: todo) s -> tasks_ok todo s1.
Proof.
  intros [Hvm Hok Hdis Hfr]. split.
  - intros x Hx. apply Hvm. by right.
  - intros x Hx. assert (x ∈ x0 :: todo) as Hx' by (by right). eapply ok_later; [|by apply Hok].
    eapply takes_colors; [|apply Hev]. unfold a. rewrite (sp_colors _ Hsp v), (sp_colors _ Hsp x.1); [done|by apply Hvm|done].
  - intros j k x y u Hj Hk Hne. by apply (Hdis (S j) (S k)); [..|congruence].
  - intros x u Hx Hu. assert (x ∈ x0 :: todo) as Hx' by (by right). pose proof (Hfr x u Hx' Hu) as Hn.
    destruct (other_dec x.1 (Hvm x Hx')) as [E|Ho]; 
      [|destruct (step_other _ (Hvm x Hx') Ho) as (_ & _ & _ & E); unfold tr; simpl; by rewrite E].
    unfold tr. simpl. rewrite E in *. fold a. rewrite Hout; [done|]. intros Hu0.
    apply list_elem_of_lookup in Hx as [k Hk]. apply (Hdis 0%nat (S k) x0 x u); try done. simpl. by rewrite E.
Qed.
End Step.

(** ** All regions *)
Lemma run_spec todo s :
  spaces_ok s -> tasks_ok todo s -> separated todo s ->
  (exists v, v ∈ vms /\ refused (vd_as v) (cost todo.*2) (ms_pages (is_ms s))) \/
  exists s', run todo s = Ok (tt, s') /\ spaces_ok s' /\ separated [] s' /\
    (forall v u p, v ∈ vms -> tr s v u = Some p -> tr s' v u = Some p) /\
    (forall x u, x ∈ todo -> task_reg x u -> is_Some (tr s' x.1 u)) /\
    (forall v u p, v ∈ vms -> tr s' v u = Some p -> tr s v u = Some p \/
       exists x, x ∈ todo /\ x.1 = v /\ task_reg x u /\ default p (task_back x u) = p).
Proof.
  revert s. induction todo as [|[v reg] todo IH]; intros s Hsp Htk Hse.
  { right. exists s. split_and!; try done; [by intros x u ?%elem_of_nil|by left]. }
  assert (v ∈ vms) as Hv by (apply (tk_vm _ _ Htk (v, reg)); by left).
  destruct (sp_vm _ Hsp v Hv) as [H1 H2 H3 H4 H5 H6].
  destruct (init_region_spec CN CS hyp_secs (vd_cpu v) (vd_as v) fuel H3 H4 H2 (vd_id v) (vd_cfg v) reg s) as [Hr|(m & E & Hpl)];
    try done; [apply (tk_ok _ _ Htk (v, reg)); by left|intros u; apply (tk_free _ _ Htk (v, reg)); by left|..].
  { left. exists v. split; [done|]. eapply refused_weaken; [done|].
    change (cost _) with (49 * region_pages reg + 8 + cost todo.*2). assert (0 <= cost todo.*2); [|lia]. apply cost_nonneg. intros r (x & -> & Hx)%list_elem_of_fmap.
    eapply ok_pages, (tk_ok _ _ Htk). by right. }
  destruct Hpl as (_ & ms & Em & Hok1 & Htd1 & Hev & Hout & Hin). unfold liftp in E. rewrite Em in E. simpl in E.
  set (s1 := mk_is ms _ _ _ _) in E.
  pose proof (step_spaces v s ms Hsp Hv _ Hok1 Htd1 Hev) as Hsp1.
  pose proof (step_separated v reg todo s ms Hsp Hv _ Hok1 Hev Hout Hin Hse) as Hse1.
  pose proof (step_tasks v reg todo s ms Hsp Hv _ Hok1 Hev Hout Htk) as Htk1. fold s1 in Hsp1, Hse1, Htk1.
  assert (forall w u, w ∈ vms -> other v w -> tr s1 w u = tr s w u) as Hsame.
  { intros w u Hw Ho. destruct (step_other v s ms Hsp Hv _ Hok1 Hev w Hw Ho) as (_ & _ & _ & Ew). apply Ew. }
  destruct (IH s1 Hsp1 Htk1 Hse1) as [(w & Hw & Hr)|(s' & E' & Hsp' & Hse' & Hkeep & Hmap & Hback)].
  { left. exists w. split; [done|]. eapply (refused_later _ (49 * region_pages reg + 8)); [|exact Hr|done].
    eapply takes_colors; [|apply Hev]. by rewrite (sp_colors _ Hsp v), (sp_colors _ Hsp w). }
  right. exists s'. cbn [run iter]. split; [exact (eq_trans (im_bind _ _ _ _ _ E) E')|]. split_and!; try done.
  - intros w u p Hw Ep. apply Hkeep; [done|]. destruct (other_dec v s Hsp Hv w Hw) as [->|Ho]; [|by rewrite Hsame].
    unfold tr. simpl. rewrite Hout; [done|]. intros Hu.
    assert (tr s v u = None); [|congruence]. apply (tk_free _ _ Htk (v, reg)); [by left|done].
  - intros x u [->|Hx]%elem_of_cons Hu; [|by apply Hmap]. destruct (Hin u Hu) as (p & Ep & _).
    exists p. by apply Hkeep.
  - intros w u p Hw Ep. destruct (Hback w u p Hw Ep) as [E1|(x & Hx & Hx1)]; [|right; exists x; split; [by right|done]].
    destruct (other_dec v s Hsp Hv w Hw) as [->|Ho]; [|left; by rewrite <- Hsame].
    destruct (decide (in_reg (vd_as v) reg u)) as [Hu|Hu]; [right|left; by rewrite <- E1; symmetry; apply Hout].
    exists (v, reg). split; [by left|]. split_and!; try done. destruct (Hin u Hu) as (p' & Ep' & Hb).
    change (tr s1 v u = Some p') in Ep'. rewrite E1 in Ep'. injection Ep' as <-.
    change (backing _ _ _ u) with (task_back (v, reg) u) in Hb. destruct (task_back (v, reg) u); [by subst|done].
Qed.
End Partition.

(** ** The property *)

(** C12. Static partitioning: when the regions of any number of uncoloured VMs
    with separate, empty address spaces are mapped in any order, and the places
    the configuration gives to different VMs are different pages that cannot be
    allocated and hold no table, then, unless the allocator refuses a page or a
    table, every address of every region is mapped as the configuration says,
    no page of physical memory is mapped for two VMs, and no page a VM can reach
    can be allocated again or holds a table of a VM. *)
Theorem vms_share_no_memory {A} `{!PageAlloc A} CN CS hyp_secs fuel vms colors sched (s : istate A) :
  spaces_ok CN vms colors s -> (forall v u, v ∈ vms -> tr s v u = None) -> tasks_ok fuel vms sched s ->
  (forall x q, x ∈ sched -> fixed x q -> guarded vms s q) ->
  (forall x y q r, x ∈ sched -> y ∈ sched -> other x.1 y.1 -> fixed x q -> fixed y r -> page_of q <> page_of r) ->
  (exists v, v ∈ vms /\ refused (vd_as v) (cost sched.*2) (ms_pages (is_ms s))) \/
  exists s', run CN CS hyp_secs fuel sched s = Ok (tt, s') /\
    (forall x u, x ∈ sched -> task_reg x u -> is_Some (tr s' x.1 u)) /\
    (forall v u p, v ∈ vms -> tr s' v u = Some p ->
       guarded vms s' p /\ exists x, x ∈ sched /\ x.1 = v /\ task_reg x u /\ default p (task_back x u) = p) /\
    (forall v w u u' p p', v ∈ vms -> w ∈ vms -> other v w -> tr s' v u = Some p -> tr s' w u' = Some p' ->
       page_of p <> page_of p').
Proof.
  intros Hsp Hempty Htk Hfx Hff.
  destruct (run_spec CN CS hyp_secs fuel vms colors sched s Hsp Htk) as [?|(s' & E & _ & [Hown Hsep _ _ _] & _ & Hmap & Hback)];
    [|by left|].
  { split; [intros v u p Hv Ep|intros v w u u' p p' Hv _ _ Ep _|done|intros x q v u p _ _ Hv _ Ep|done]; by rewrite Hempty in Ep. }
  right. exists s'. split_and!; try done. intros v u p Hv Ep. split; [by eapply Hown|].
  destruct (Hback v u p Hv Ep) as [E0|?]; [|done]. by rewrite Hempty in E0.
Qed.

(** Two VMs: the first has a placed region, the second one with its image and
    one placed elsewhere; the three are mapped in turn. *)
#[local] Instance demo_alloc5 : PageAlloc (mem * list page_pool) := pools_page_alloc 1 1.

Definition demo_vm1 : vmdesc := mk_vmd 1 demo_as demo_as (mk_vmcfg 0 0 1 0x80000000 0 1 [demo_placed] [] []).
Definition demo_placed2 : mem_region := mk_rgn 0x80000000 0x2000 0 true 0x90010000.
Definition demo_vm2 : vmdesc :=
  mk_vmd 2 demo_as2 demo_as (mk_vmcfg 0xC0001000 0x88000000 0x1800 0xC0001000 0 1 [demo_image; demo_placed2] [] []).
Definition demo_vms : list vmdesc := [demo_vm1; demo_vm2].
Definition demo_sched : list task := [(demo_vm2, demo_image); (demo_vm1, demo_placed); (demo_vm2, demo_placed2)].
Definition demo_is2 : istate (mem * list page_pool) :=
  mk_is demo_ms (is_hyp demo_is) {[ 1 := demo_as; 2 := demo_as2 ]} ∅ [].

Lemma demo_all (P : task -> Prop) :
  P (demo_vm2, demo_image) -> P (demo_vm1, demo_placed) -> P (demo_vm2, demo_placed2) -> forall x, x ∈ demo_sched -> P x.
Proof. intros ??? x. unfold demo_sched. by intros [->|[->|[->|[]%elem_of_nil]%elem_of_cons]%elem_of_cons]%elem_of_cons. Qed.

Lemma demo_both (P : vmdesc -> Prop) : P demo_vm1 -> P demo_vm2 -> forall v, v ∈ demo_vms -> P v.
Proof. intros ?? v. unfold demo_vms. by intros [->|[->|[]%elem_of_nil]%elem_of_cons]%elem_of_cons. Qed.

Lemma demo_pairs (P : vmdesc -> vmdesc -> Prop) :
  P demo_vm1 demo_vm1 -> P demo_vm1 demo_vm2 -> P demo_vm2 demo_vm1 -> P demo_vm2 demo_vm2 ->
  forall v w, v ∈ demo_vms -> w ∈ demo_vms -> P v w.
Proof. intros ???? v w Hv Hw. revert v Hv. by apply demo_both; revert w Hw; apply demo_both. Qed.

Lemma demo_none v u : v ∈ demo_vms -> tr demo_is2 v u = None.
Proof. revert v. apply demo_both; apply empty_translate; by right || done. Qed.

Lemma demo_spaces : spaces_ok 1 demo_vms 0 demo_is2.
Proof.
  assert (forall a, tidy a (ms_mem (is_ms demo_is2))) as Ht.
  { intros a u Hu. exfalso. revert Hu. unfold rsvd. change (ms_mem (is_ms demo_is2)) with (∅ : mem). by rewrite ld_empty. }
  split.
  - apply demo_both; split; try reflexivity; [exact demo_as_ok|apply Ht|exact demo_as2_ok|apply Ht].
  - by apply demo_both.
  - by apply (demo_pairs (fun v w => vd_id v = vd_id w -> v = w)).
  - apply (demo_pairs (fun v w => other v w -> apart _ _ _)); intros Ho; try by destruct Ho.
    + apply demo_apart.
    + intros x H1 H2. by apply (demo_apart x).
Qed.

Lemma demo_reg v base n u :
  v ∈ demo_vms -> 0 <= base < 2 ^ 41 -> in_pages (vd_as v) base n u ->
  base <= nv (as_pt (vd_as v)) u < base + n * PAGE_SIZE.
Proof.
  intros Hv Hb. assert (nv (as_pt (vd_as v)) base = base) as E; [|unfold in_pages; by rewrite E].
  revert v Hv. apply (demo_both (fun v => nv (as_pt (vd_as v)) base = base)); unfold nv; apply Z.mod_small; done.
Qed.

(** The places the configurations fix. *)
Definition demo_place (v : vmdesc) (q : Z) : Prop :=
  if vd_id v =? 1 then 0x90000000 <= q < 0x90003000
  else 0x88000000 <= q < 0x88002000 \/ 0x90010000 <= q < 0x90012000.

Lemma demo_fixed x q : x ∈ demo_sched -> fixed x q -> demo_place x.1 q.
Proof.
  revert x. apply (demo_all (fun x => fixed x q -> demo_place x.1 q)); intros (u & Hu & Hq).
  - change (img_back demo_as2 (vd_cfg demo_vm2) u = Some q) in Hq. unfold img_back in Hq.
    destruct (decide _) as [Hi|]; [|done]. injection Hq as <-.
    apply (demo_reg demo_vm2 (img_base _)) in Hi; [|by right; left|by vm_compute]. left.
    change (NUM_PAGES _ * PAGE_SIZE) with 0x2000 in Hi. simpl in *. lia.
  - change (Some (0x90000000 + (nv (as_pt demo_as) u - 0x80000000)) = Some q) in Hq. injection Hq as <-.
    apply (demo_reg demo_vm1 0x80000000) in Hu; [|by left|by vm_compute].
    change (region_pages _ * PAGE_SIZE) with 0x3000 in Hu. unfold demo_place. simpl in *. lia.
  - change (Some (0x90010000 + (nv (as_pt demo_as2) u - 0x80000000)) = Some q) in Hq. injection Hq as <-.
    apply (demo_reg demo_vm2 0x80000000) in Hu; [|by right; left|by vm_compute].
    change (region_pages _ * PAGE_SIZE) with 0x2000 in Hu. right. simpl in *. lia.
Qed.

Lemma demo_guarded x q : x ∈ demo_sched -> fixed x q -> guarded demo_vms demo_is2 q.
Proof.
  intros Hx Hf. assert (0x88000000 <= page_of q) as Hq.
  { pose proof (demo_fixed x q Hx Hf) as Hp. unfold demo_place in Hp. unfold page_of, PAGE_SIZE.
    assert (0x88000000 <= q) by (destruct (vd_id x.1 =? 1); lia).
    assert (0x88000 <= q / 4096) by (apply Z.div_le_lower_bound; lia). pose proof (Z.div_mod q 4096). lia. }
  split.
  - intros (i & p & j & Hp & Hj & E & _). destruct i; simpl in Hp; [|done]. simplify_eq. simpl in *. unfold PAGE_SIZE in *. lia.
  - apply (demo_both (fun w => fresh _ _ _)); intros j vb b Hj; simpl; rewrite empty_tab by (by right); (destruct j; [|done]);
      intros [= <-]; left; unfold tsize; change (nent _ _) with 2048; simpl; lia.
Qed.

Lemma demo_tasks : tasks_ok 60 demo_vms demo_sched demo_is2.
Proof.
  split.
  - apply (demo_all (fun x => x.1 ∈ demo_vms)); [by right; left|by left|by right; left].
  - apply (demo_all (fun x => region_ok _ _ _ _ _)).
    + split; [split; try done; [vm_compute; lia|]|intros _; split; [done|]; by split].
      intros _. apply (pools_aligned_blocks 1 1); [by right|reflexivity|apply demo_pages_inv|].
      intros p k [->|Hp]%elem_of_cons Hk _; [|by apply elem_of_nil in Hp]. destruct k as [|[|[|k]]]; [reflexivity..|lia].
    + split; [exact demo_placed_fits|by vm_compute].
    + split; [split; try done; vm_compute; lia|by vm_compute].
  - assert (forall u, task_reg (demo_vm2, demo_image) u -> task_reg (demo_vm2, demo_placed2) u -> False) as Hd.
    { intros u H1 H2. apply (demo_reg demo_vm2 0xC0000000) in H1; [|by right; left|by vm_compute].
      apply (demo_reg demo_vm2 0x80000000) in H2; [|by right; left|by vm_compute].
      change (region_pages (demo_vm2, demo_placed2).2 * PAGE_SIZE) with 0x2000 in H2. simpl in *. lia. }
    intros [|[|[|j]]] [|[|[|k]]] x y u Hx Hy Hne Hid H1 H2; simplify_eq/=; try done; by eapply Hd.
  - intros x u Hx _. apply demo_none. revert x Hx.
    apply (demo_all (fun x => x.1 ∈ demo_vms)); [by right; left|by left|by right; left].
Qed.

Lemma demo_places x y q r :
  x ∈ demo_sched -> y ∈ demo_sched -> other x.1 y.1 -> fixed x q -> fixed y r -> page_of q <> page_of r.
Proof.
  intros Hx Hy Ho Hq Hr Eq. apply demo_fixed in Hq, Hr; [|done|done]. revert Ho Hq Hr.
  pose proof (tk_vm _ _ _ _ demo_tasks x Hx) as Hvx. pose proof (tk_vm _ _ _ _ demo_tasks y Hy) as Hvy. revert Hvx Hvy.
  generalize (x.1) (y.1). apply (demo_pairs (fun v w => other v w -> demo_place v q -> demo_place w r -> False));
    unfold other, demo_place, page_of, PAGE_SIZE in *; simpl;
    pose proof (Z.div_mod q 4096); pose proof (Z.div_mod r 4096);
    pose proof (Z.mod_pos_bound q 4096); pose proof (Z.mod_pos_bound r 4096); intros; lia.
Qed.

Lemma vms_share_no_memory_witness :
  match run 1 1 [] 60 demo_sched demo_is2 with
  | Ok (_, s') =>
      match tr s' demo_vm1 0x80000004, tr s' demo_vm2 0xC0000010 with
      | Some p, Some p' => page_of p <> page_of p'
      | _, _ => False
      end
  | Fault _ => False
  end.
Proof.
  destruct (vms_share_no_memory 1 1 [] 60 demo_vms 0 demo_sched demo_is2 demo_spaces (fun v u Hv => demo_none v u Hv)
    demo_tasks demo_guarded demo_places) as [_|(s' & E & H1 & H2 & H3)].
  - vm_compute. discriminate.
  - rewrite E. destruct (H1 (demo_vm1, demo_placed) 0x80000004) as [p Ep]; [by right; left|vm_compute; split; [discriminate|reflexivity]|].
    destruct (H1 (demo_vm2, demo_image) 0xC0000010) as [p' Ep']; [by left|vm_compute; split; [discriminate|reflexivity]|].
    simpl in Ep, Ep'. rewrite Ep, Ep'. apply (H3 demo_vm1 demo_vm2 0x80000004 0xC0000010); [by left|by right; left|done..].
Defined.

(** ** Places at boot

    What the reservation at boot guarantees about the places of the
    configuration. *)
Definition config_block (config_addr : Z) (cfg : config) : ppages := mem_ppages_get config_addr (NUM_PAGES (bc_size cfg)).
Definition boot_blocks (config_addr : Z) (cfg : config) : list ppages :=
  placed_blocks (bc_vms cfg) (bc_shmems cfg) ++ [config_block config_addr cfg].
Definition img_block (c : vm_config) : ppages := mem_ppages_get (img_load c) (NUM_PAGES (img_size c)).
Definition reg_block (r : mem_region) : ppages := mem_ppages_get (rg_phys r) (NUM_PAGES (rg_size r)).

Definition in_block (b : ppages) (q : Z) : Prop := pg_base b <= q < pg_base b + pg_size b * PAGE_SIZE.

Lemma reserve_physical_blocks m p config_addr cfg p' m' :
  mem_reserve_physical_memory m p config_addr cfg false = (true, p', m', true) ->
  reserve_blocks m p (boot_blocks config_addr cfg) = (true, p', m').
Proof.
  unfold mem_reserve_physical_memory, boot_blocks. rewrite reserve_blocks_app, reserve_vm_cfg_blocks.
  destruct (reserve_blocks m p _) as [[[] p1] m1]; [|done]. unfold mem_reserve_config, config_block. simpl.
  destruct (range_in_range _ _ _ _); [|done]. destruct (mem_reserve_ppool_ppages _ _ _) as [[[] p2] m2]; intros [=]; by subst.
Qed.

(** Parts of different elements of a list come at different places. *)
Lemma bind_lookup_ne {X Y} (f : X -> list Y) l i k x x' y y' :
  l !! i = Some x -> l !! k = Some x' -> i <> k -> y ∈ f x -> y' ∈ f x' ->
  exists i' k', i' <> k' /\ (l ≫= f) !! i' = Some y /\ (l ≫= f) !! k' = Some y'.
Proof.
  revert i k. induction l as [|z l IH]; intros [|i] [|k] Hx Hx' Hne Hy Hy'; simplify_eq/=.
  - apply list_elem_of_lookup in Hy as [i' Hi]. assert (y' ∈ l ≫= f) as [k' Hk]%list_elem_of_lookup.
    { apply list_elem_of_bind. exists x'. split; [done|]. by eapply list_elem_of_lookup_2. }
    exists i', (length (f x) + k')%nat. apply lookup_lt_Some in Hi as Hlt. split; [lia|].
    split; [by apply lookup_app_l_Some|]. rewrite lookup_app_r by lia. by replace (length (f x) + k' - length (f x))%nat with k' by lia.
  - apply list_elem_of_lookup in Hy' as [k' Hk]. assert (y ∈ l ≫= f) as [i' Hi]%list_elem_of_lookup.
    { apply list_elem_of_bind. exists x. split; [done|]. by eapply list_elem_of_lookup_2. }
    exists (length (f x') + i')%nat, k'. apply lookup_lt_Some in Hk as Hlt. split; [lia|].
    split; [|by apply lookup_app_l_Some]. rewrite lookup_app_r by lia. by replace (length (f x') + i' - length (f x'))%nat with i' by lia.
  - destruct (IH i k Hx Hx' ltac:(congruence) Hy Hy') as (i' & k' & Hne' & Hi & Hk).
    exists (length (f z) + i')%nat, (length (f z) + k')%nat. split; [lia|].
    rewrite !lookup_app_r by lia. by replace (length (f z) + i' - length (f z))%nat with i' by lia;
      replace (length (f z) + k' - length (f z))%nat with k' by lia.
Qed.

Section BootPlaces.
Context (config_addr : Z) (cfg : config) (vms : list vmdesc) (fuel : nat) (m m' : mem) (p p' : page_pool) (pools : list page_pool).
#[local] Instance places_alloc CN CS : PageAlloc (mem * list page_pool) := pools_page_alloc CN CS.

(** The configuration is that of the VMs, all its blocks are in the pool, the
    images are part of it, and start at a page. *)
Record boot_ok : Prop := {
  bo_pool : pool_wf p /\ pp_base p mod PAGE_SIZE = 0;
  bo_blocks : forall b, b ∈ boot_blocks config_addr cfg -> block_ok b /\ inside p b;
  bo_vms : bc_vms cfg = vd_cfg <$> vms;
  bo_nodup : NoDup vms;
  bo_images : forall v q, v ∈ vms -> in_block (img_block (vd_cfg v)) q -> in_block (config_block config_addr cfg) q;
  bo_load : forall v, v ∈ vms -> img_load (vd_cfg v) mod PAGE_SIZE = 0
}.

(** A place is in the image or in the block of the region. *)
Lemma fixed_in_block {A} `{!PageAlloc A} (a : A) x q :
  is_sv (as_pt (vd_as x.1)) -> region_ok (vd_as x.1) fuel (vd_cfg x.1) a x.2 -> fixed x q ->
  in_block (img_block (vd_cfg x.1)) q \/ rg_place_phys x.2 = true /\ in_block (reg_block x.2) q.
Proof.
  intros Hsv [[Hr _ _ _] Himg] (u & Hu & Hq). unfold task_back, backing in Hq. destruct (has_img _ _).
  - left. destruct (Himg eq_refl) as [_ Hf]. unfold img_back in Hq. destruct (decide _) as [Hi|]; [|done]. injection Hq as <-.
    destruct (img_pages _ _ _ Hf Hr Hsv) as (nb & na & _ & _ & Hnb & Hna & Hni & Htot & Eb).
    assert (vm_range (vd_as x.1) (img_base (vd_cfg x.1)) (NUM_PAGES (img_size (vd_cfg x.1)))) as Hri.
    { destruct Hr as [? ? ? ?]. split; [by apply Hf|unfold PAGE_SIZE in *; lia|done|unfold PAGE_SIZE in *; lia]. }
    unfold in_pages in Hi. rewrite (range_nv _ _ _ Hri Hsv) in Hi. unfold in_block, img_block. simpl. lia.
  - right. unfold region_back in Hq. destruct (rg_place_phys x.2); [|done]. split; [done|]. injection Hq as <-.
    unfold task_reg, in_reg, in_pages in Hu. rewrite (range_nv _ _ _ Hr Hsv) in Hu. unfold in_block, reg_block, region_pages in *. simpl. lia.
Qed.

Lemma page_in_block b q : pg_base b mod PAGE_SIZE = 0 -> in_block b q -> in_block b (page_of q).
Proof.
  unfold in_block, page_of, PAGE_SIZE. intros Hb Hq. pose proof (Z.div_mod q 4096). pose proof (Z.div_mod (pg_base b) 4096).
  pose proof (Z.mod_pos_bound q 4096). lia.
Qed.

Lemma block_page b q :
  pp_base p mod PAGE_SIZE = 0 -> block_ok b -> inside p b -> in_block b q ->
  exists j, 0 <= j < pp_size p /\ page_of q = pp_base p + j * PAGE_SIZE /\ covers p b j.
Proof.
  intros Hp (_ & _ & Hb & _) [Hi1 Hi2] Hq%page_in_block; [|done]. exists (page_of q / PAGE_SIZE - pp_base p / PAGE_SIZE).
  pose proof (page_of_aligned q). unfold covers, in_block, PAGE_SIZE in *.
  pose proof (Z.div_mod (page_of q) 4096). pose proof (Z.div_mod (pp_base p) 4096). lia.
Qed.
End BootPlaces.

(** The blocks after a reservation that has succeeded. *)
Section Reserved.
Context (CN CS config_addr : Z) (cfg : config) (vms : list vmdesc) (fuel : nat) (m m' : mem) (p p' : page_pool)
  (pools : list page_pool) (sched : list task).
Context (Hboot : boot_ok config_addr cfg vms p).
Context (Hres : mem_reserve_physical_memory m p config_addr cfg false = (true, p', m', true)).
Context (Hsch : forall x, x ∈ sched -> x.1 ∈ vms /\ x.2 ∈ cf_regions (vd_cfg x.1) /\ is_sv (as_pt (vd_as x.1)) /\
  @region_ok _ (pools_page_alloc CN CS) (vd_as x.1) fuel (vd_cfg x.1) (m', pools) x.2).
Let bl := boot_blocks config_addr cfg.
Let cb := config_block config_addr cfg.
Let placed := placed_blocks (bc_vms cfg) (bc_shmems cfg).

Lemma blocks_reserved :
  same_geometry p p' /\ no_overlap p bl /\
  (forall j, taken m' p' j = true <-> taken m p j = true \/ exists b, b ∈ bl /\ inside p b /\ covers p b j).
Proof.
  destruct Hboot as [[Hwf Hpa] Hbl _ _ _ _]. pose proof (reserve_physical_blocks _ _ _ _ _ _ Hres) as E.
  destruct (reserve_blocks_spec m p bl) as (ok & p1 & m1 & E1 & Hg & _ & Hok & Htk); [done|done| |].
  { apply Forall_forall. intros b Hb. by apply Hbl. }
  unfold bl in E1. rewrite E in E1. injection E1 as <- <- <-. split_and!; [done|by apply Hok|by apply Htk].
Qed.

Lemma config_index : bl !! length placed = Some cb.
Proof. unfold bl, boot_blocks. fold placed. by rewrite lookup_app_r, Nat.sub_diag by lia. Qed.

(** The block of a place. *)
Lemma place_block x q :
  x ∈ sched -> fixed x q ->
  in_block (img_block (vd_cfg x.1)) q /\ in_block cb q \/ rg_place_phys x.2 = true /\ in_block (reg_block x.2) q.
Proof.
  intros Hx Hf. destruct (Hsch x Hx) as (Hv & Hr & Hsv & Hro).
  destruct (fixed_in_block fuel (m', pools) x q Hsv Hro Hf) as [Hi|Hi]; [left|by right]. split; [done|].
  by eapply (bo_images _ _ _ _ Hboot).
Qed.

Lemma region_block_elem x : x ∈ sched -> rg_place_phys x.2 = true -> reg_block x.2 ∈ region_blocks (cf_regions (vd_cfg x.1)).
Proof.
  intros Hx Hp. destruct (Hsch x Hx) as (_ & Hr & _). apply list_elem_of_fmap. exists x.2. split; [done|].
  by apply list_elem_of_filter.
Qed.

Lemma region_index x :
  x ∈ sched -> rg_place_phys x.2 = true -> exists i, bl !! i = Some (reg_block x.2) /\ (i < length placed)%nat.
Proof.
  intros Hx Hpl. assert (reg_block x.2 ∈ placed) as [i Hi]%list_elem_of_lookup.
  { apply elem_of_app. left. apply list_elem_of_bind. exists (vd_cfg x.1). split; [by apply region_block_elem|].
    rewrite (bo_vms _ _ _ _ Hboot). apply list_elem_of_fmap_2. by apply Hsch. }
  exists i. split; [by apply lookup_app_l_Some|]. by eapply lookup_lt_Some.
Qed.

Lemma blocks_apart i k b c q r :
  bl !! i = Some b -> bl !! k = Some c -> i <> k -> in_block b q -> in_block c r -> page_of q <> page_of r.
Proof.
  intros Hi Hk Hne Hq Hr Eq. apply list_elem_of_lookup_2 in Hi as Hb, Hk as Hc. destruct Hboot as [[_ Hpa] Hbl _ _ _ _].
  destruct (Hbl b Hb) as [Hbo Hbi], (Hbl c Hc) as [Hco Hci].
  destruct (block_page p b q) as (j & _ & Ej & Cj); [done..|]. destruct (block_page p c r) as (j' & _ & Ej' & Cj'); [done..|].
  apply (proj1 (proj2 blocks_reserved) i k b c j Hi Hk Hne Hbi Hci Cj). replace j with j'; [done|]. unfold PAGE_SIZE in *. lia.
Qed.

Lemma regions_index x y :
  x ∈ sched -> y ∈ sched -> other x.1 y.1 -> rg_place_phys x.2 = true -> rg_place_phys y.2 = true ->
  exists i k, i <> k /\ bl !! i = Some (reg_block x.2) /\ bl !! k = Some (reg_block y.2).
Proof.
  intros Hx Hy Ho Px Py. pose proof (bo_vms _ _ _ _ Hboot) as Hvms.
  destruct (proj1 (list_elem_of_lookup _ _) (proj1 (Hsch x Hx))) as [i Hi], (proj1 (list_elem_of_lookup _ _) (proj1 (Hsch y Hy))) as [k Hk].
  destruct (bind_lookup_ne (fun c => region_blocks (cf_regions c)) (bc_vms cfg) i k (vd_cfg x.1) (vd_cfg y.1) (reg_block x.2) (reg_block y.2))
    as (i' & k' & Hne & Hi' & Hk').
  - by rewrite Hvms, list_lookup_fmap, Hi.
  - by rewrite Hvms, list_lookup_fmap, Hk.
  - intros <-. apply Ho. rewrite Hi in Hk. by injection Hk as ->.
  - by apply region_block_elem.
  - by apply region_block_elem.
  - exists i', k'. split; [done|]. unfold bl, boot_blocks, placed_blocks. rewrite <- app_assoc. by split; apply lookup_app_l_Some.
Qed.

Lemma places_unavailable x q :
  pools_inv (m', pools) -> p' ∈ pools -> x ∈ sched -> fixed x q -> ~ pools_avail (m', pools) (page_of q).
Proof.
  intros Hinv Hp' Hx Hf (i & po & j & Hpo & Hj & Ej & Ht). destruct blocks_reserved as ((G1 & G2 & _) & _ & Htk).
  assert (exists b, b ∈ bl /\ in_block b q) as (b & Hb & Hq).
  { destruct (place_block x q Hx Hf) as [[_ Hq]|[Hpl Hq]].
    - exists cb. split; [eapply list_elem_of_lookup_2, config_index|done].
    - destruct (region_index x Hx Hpl) as (k & Hk & _). exists (reg_block x.2). split; [by eapply list_elem_of_lookup_2|done]. }
  destruct (bo_blocks _ _ _ _ Hboot b Hb) as [Hbk Hbi].
  destruct (block_page p b q (proj2 (bo_pool _ _ _ _ Hboot)) Hbk Hbi Hq) as (j' & Hj' & Ej' & Cj').
  apply list_elem_of_lookup in Hp' as [k Hk].
  destruct (pool_page_inj (m', pools) i k po p' j j') as [<- <-]; try done; [by rewrite <- G2|by rewrite <- Ej, Ej', G1|].
  simpl in Hpo. rewrite Hk in Hpo. injection Hpo as <-. simpl in Ht. rewrite (proj2 (Htk j)) in Ht; [done|]. right. by exists b.
Qed.

Lemma places_apart x y q r :
  x ∈ sched -> y ∈ sched -> other x.1 y.1 -> fixed x q -> fixed y r -> page_of q = page_of r ->
  in_block (img_block (vd_cfg x.1)) (page_of q) /\ in_block (img_block (vd_cfg y.1)) (page_of q).
Proof.
  intros Hx Hy Ho Hq Hr Eq. pose proof (bo_load _ _ _ _ Hboot) as Hld. pose proof config_index as Hcb.
  destruct (Hsch x Hx) as (Hvx & _), (Hsch y Hy) as (Hvy & _).
  destruct (place_block x q Hx Hq) as [[Ix Cx]|[Px Bx]], (place_block y r Hy Hr) as [[Iy Cy]|[Py By]].
  - split; [|rewrite Eq]; (apply page_in_block; [by apply Hld|done]).
  - destruct (region_index y Hy Py) as (k & Hk & Hlt). by destruct (blocks_apart _ k _ _ q r Hcb Hk ltac:(lia) Cx By).
  - destruct (region_index x Hx Px) as (k & Hk & Hlt). by destruct (blocks_apart k _ _ _ q r Hk Hcb ltac:(lia) Bx Cy).
  - destruct (regions_index x y Hx Hy Ho Px Py) as (i & k & Hne & Hi & Hk). by destruct (blocks_apart i k _ _ q r Hi Hk Hne Bx By).
Qed.
End Reserved.


(** A VM with a placed region and one with its image in the configuration. *)
Definition boot_rgn : mem_region := mk_rgn 0x80000000 0x3000 0 true 0x80008000.
Definition boot_vm1 : vmdesc := mk_vmd 1 demo_as demo_as (mk_vmcfg 0 0x80022000 0x1000 0x80000000 0 1 [boot_rgn] [] []).
Definition boot_vm2 : vmdesc :=
  mk_vmd 2 demo_as2 demo_as (mk_vmcfg 0xC0001000 0x80020000 0x1800 0xC0001000 0 1 [demo_image] [] []).
Definition boot_cfg : config := mk_config 0x800 0x4000 0 [] (vd_cfg <$> [boot_vm1; boot_vm2]).
Definition boot_sched : list task := [(boot_vm2, demo_image); (boot_vm1, boot_rgn)].
Definition boot_result : bool * page_pool * mem * bool := mem_reserve_physical_memory ∅ boot_pool 0x80020000 boot_cfg false.
Definition boot_mem : mem := boot_result.1.2.
Definition boot_pool' : page_pool := boot_result.1.1.2.

Lemma boot_cfg_ok : boot_ok 0x80020000 boot_cfg [boot_vm1; boot_vm2] boot_pool.
Proof.
  assert (img_block (vd_cfg boot_vm1) = mk_ppages 0x80022000 1 0) as E1 by reflexivity.
  assert (img_block (vd_cfg boot_vm2) = mk_ppages 0x80020000 2 0) as E2 by reflexivity.
  assert (config_block 0x80020000 boot_cfg = mk_ppages 0x80020000 4 0) as E3 by reflexivity.
  split.
  - split; [vm_compute; split_and!; done || discriminate|reflexivity].
  - intros b [->|[->|[]%elem_of_nil]%elem_of_cons]%elem_of_cons; vm_compute; split_and!; done || discriminate.
  - reflexivity.
  - repeat constructor; rewrite ?elem_of_cons, ?elem_of_nil; naive_solver.
  - intros v q [->|[->|[]%elem_of_nil]%elem_of_cons]%elem_of_cons; rewrite E3, ?E1, ?E2; unfold in_block, PAGE_SIZE; simpl; lia.
  - by intros v [->|[->|[]%elem_of_nil]%elem_of_cons]%elem_of_cons.
Qed.

Lemma boot_pools_inv : pools_inv (boot_mem, [boot_pool']).
Proof.
  split; simpl.
  - repeat constructor; vm_compute; done || discriminate.
  - intros [|i] q Hq; simplify_eq/=. vm_compute. split_and!; done || discriminate.
  - by intros [|i] [|k] q r Hq Hr Hne; simplify_eq/=.
Qed.

