(* ===== verification/StringC.v ===== *)
(** * Strings and memory blocks

    [lib/string.c] on a memory of bytes. [memcpy] copies words when both
    addresses are aligned; a word is read in full before it is written. *)

From S2P Require Import Prelude.

Definition WORD_SIZE : Z := 8.

(** ** Copying and filling *)

(** [dst_tmp[i] = src_tmp[i]] for the [k] bytes from [i] on. *)
Fixpoint copy_bytes (m : mem) (dst src : Z) (k : nat) : mem :=
  match k with
  | O => m
  | S k' => copy_bytes (st m dst (ld m src)) (dst + 1) (src + 1) k'
  end.

Definition load_word (m : mem) (a : Z) : list Z := (fun i => ld m (a + i)) <$> seqZ 0 8.
Fixpoint store_bytes (m : mem) (a : Z) (bs : list Z) : mem :=
  match bs with [] => m | b :: rest => store_bytes (st m a b) (a + 1) rest end.

(** The loop over words: the memory, the two pointers and [i] where it stops. *)
Fixpoint copy_words (m : mem) (dst src i count : Z) (fuel : nat) : mem * Z * Z * Z :=
  if i <? count then
    if u32 (count - 1) <? i + (WORD_SIZE - 1) then (m, dst, src, i)
    else match fuel with
         | O => (m, dst, src, i)
         | S f => copy_words (store_bytes m dst (load_word m src)) (dst + WORD_SIZE) (src + WORD_SIZE)
                    (i + WORD_SIZE) count f
         end
  else (m, dst, src, i).

Definition memcpy (m : mem) (dst src count : Z) : mem :=
  if (Z.land src (WORD_SIZE - 1) =? 0) && (Z.land dst (WORD_SIZE - 1) =? 0) then
    let '(m', dst', src', i) := copy_words m dst src 0 count (Z.to_nat count) in
    if i <=? u32 (count - 1) then copy_bytes m' dst' src' (Z.to_nat (count - i)) else m'
  else copy_bytes m dst src (Z.to_nat count).

Fixpoint memset_loop (m : mem) (d c : Z) (k : nat) : mem :=
  match k with O => m | S k' => memset_loop (st m d (u8 c)) (d + 1) c k' end.
Definition memset (m : mem) (dest c count : Z) : mem := memset_loop m dest c (Z.to_nat count).

(** ** Strings

    A string ends at the first zero byte; a loop that runs past [fuel] bytes
    has met none. *)
Fixpoint str_end (m : mem) (s : Z) (fuel : nat) : option Z :=
  if ld m s =? 0 then Some s
  else match fuel with O => None | S f => str_end m (s + 1) f end.

Definition strlen (m : mem) (s : Z) (fuel : nat) : option Z := e ← str_end m s fuel; Some (u32 (e - s)).

Fixpoint strnlen_loop (m : mem) (str : Z) (n : nat) : Z :=
  if ld m str =? 0 then str else match n with O => str | S n' => strnlen_loop m (str + 1) n' end.
Definition strnlen (m : mem) (s n : Z) : Z := u32 (strnlen_loop m s (Z.to_nat n) - s).

(** The copying loop: each byte is stored before it is tested for zero. *)
Fixpoint strcpy_loop (m : mem) (dest src : Z) (fuel : nat) : option mem :=
  let m' := st m dest (ld m src) in
  if ld m src =? 0 then Some m'
  else match fuel with O => None | S f => strcpy_loop m' (dest + 1) (src + 1) f end.

Definition strcpy (m : mem) (dest src : Z) (fuel : nat) : option mem := strcpy_loop m dest src fuel.
Definition strcat (m : mem) (dest src : Z) (fuel : nat) : option mem :=
  e ← str_end m dest fuel; strcpy_loop m e src fuel.

Fixpoint strcmp_loop (m : mem) (tmp0 tmp1 : Z) (fuel : nat) : option (Z * Z) :=
  if (ld m tmp0 =? ld m tmp1) && negb (ld m tmp0 =? 0) && negb (ld m tmp1 =? 0) then
    match fuel with O => None | S f => strcmp_loop m (tmp0 + 1) (tmp1 + 1) f end
  else Some (tmp0, tmp1).

(** The result compares the pointers, not what they point to. *)
Definition strcmp (m : mem) (str0 str1 : Z) (fuel : nat) : option Z :=
  '(t0, t1) ← strcmp_loop m str0 str1 fuel; Some (Z.b2z (negb (t0 =? t1))).

(** ** Facts *)
Definition disjoint (a b n : Z) : Prop := a + n <= b \/ b + n <= a.

(** [n] bytes from [src] are at [dst], the rest of the memory is as it was. *)
Definition copied (m m' : mem) (dst src n : Z) : Prop :=
  forall a, ld m' a = if decide (dst <= a < dst + n) then ld m (src + (a - dst)) else ld m a.

Lemma copied_nil m dst src : copied m m dst src 0.
Proof. intros a. by rewrite decide_False by lia. Qed.

Lemma copied_app m m1 m2 dst src n1 n2 :
  0 <= n1 -> 0 <= n2 -> disjoint dst src (n1 + n2) ->
  copied m m1 dst src n1 -> copied m1 m2 (dst + n1) (src + n1) n2 -> copied m m2 dst src (n1 + n2).
Proof.
  intros H1 H2 Hd C1 C2 a. rewrite C2. unfold disjoint in Hd. destruct (decide (dst + n1 <= a < dst + n1 + n2)).
  - rewrite C1, decide_False, decide_True by lia. f_equal. lia.
  - rewrite C1. repeat case_decide; try lia; done.
Qed.

Lemma copy_bytes_spec m dst src k : disjoint dst src (Z.of_nat k) -> copied m (copy_bytes m dst src k) dst src (Z.of_nat k).
Proof.
  revert m dst src. induction k as [|k IH]; intros m dst src Hd; [apply copied_nil|]. simpl copy_bytes.
  replace (Z.of_nat (S k)) with (1 + Z.of_nat k) in * by lia.
  eapply (copied_app m (st m dst (ld m src))); [lia|lia|done| |].
  - intros a. rewrite ld_st. destruct (decide (dst = a)) as [<-|].
    + rewrite decide_True by lia. f_equal. lia.
    + by rewrite decide_False by lia.
  - apply IH. unfold disjoint in *. lia.
Qed.

Lemma store_bytes_spec m a bs b :
  ld (store_bytes m a bs) b = if decide (a <= b < a + Z.of_nat (length bs)) then default 0 (bs !! Z.to_nat (b - a)) else ld m b.
Proof.
  revert m a. induction bs as [|x bs IH]; intros m a; simpl; [by rewrite decide_False by lia|].
  rewrite IH, ld_st. destruct (decide (a + 1 <= b < _)).
  - rewrite decide_True by lia. replace (Z.to_nat (b - a)) with (S (Z.to_nat (b - (a + 1)))) by lia. done.
  - destruct (decide (a = b)) as [->|]; [|by rewrite decide_False by lia].
    rewrite decide_True by lia. by rewrite Z.sub_diag.
Qed.

Lemma copy_word_spec m dst src : disjoint dst src 8 -> copied m (store_bytes m dst (load_word m src)) dst src 8.
Proof.
  intros Hd a. rewrite store_bytes_spec. unfold load_word. rewrite length_fmap, length_seqZ.
  change (Z.of_nat (Z.to_nat 8)) with 8. case_decide; [|done].
  rewrite list_lookup_fmap, lookup_seqZ_lt by lia. simpl. f_equal. lia.
Qed.

Lemma copy_words_spec m dst src i count fuel :
  0 <= i -> i mod 8 = 0 -> count < 2 ^ 31 -> i <= count -> (Z.to_nat (count - i) <= fuel)%nat -> disjoint dst src (count - i) ->
  exists m' c, copy_words m dst src i count fuel = (m', dst + c, src + c, i + c) /\
    0 <= c <= count - i /\ copied m m' dst src c.
Proof.
  revert m dst src i. induction fuel as [|f IH]; intros m dst src i Hi Ha Hc Hle Hf Hd; cbn [copy_words].
  { replace (i <? count) with false by lia. exists m, 0. rewrite !Z.add_0_r. split; [done|]. split; [lia|apply copied_nil]. }
  destruct (Z.ltb_spec i count); [|exists m, 0; rewrite !Z.add_0_r; split; [done|]; split; [lia|apply copied_nil]].
  rewrite wrap_small by lia. unfold WORD_SIZE in *.
  destruct (Z.ltb_spec (count - 1) (i + (8 - 1))).
  { exists m, 0. rewrite !Z.add_0_r. split; [done|]. split; [lia|apply copied_nil]. }
  destruct (IH (store_bytes m dst (load_word m src)) (dst + 8) (src + 8) (i + 8)) as (m' & c & -> & Hc' & C).
  - lia.
  - rewrite <- Z.add_mod_idemp_l, Ha by lia. done.
  - done.
  - lia.
  - lia.
  - unfold disjoint in *. lia.
  - exists m', (8 + c). split; [|split; [lia|]].
    + by rewrite !Z.add_assoc.
    + eapply copied_app; [lia|lia| |apply copy_word_spec|exact C]; unfold disjoint in *; lia.
Qed.

(** [memcpy] copies: for fewer than 2^31 bytes between regions that do not
    overlap, whatever the alignment, the destination holds the bytes of the
    source and no other byte is changed. *)
Theorem memcpy_correct m dst src count :
  0 <= count < 2 ^ 31 -> disjoint dst src count ->
  forall a, ld (memcpy m dst src count) a = if decide (dst <= a < dst + count) then ld m (src + (a - dst)) else ld m a.
Proof.
  intros Hc Hd. change (copied m (memcpy m dst src count) dst src count). unfold memcpy.
  destruct (_ && _).
  - destruct (copy_words_spec m dst src 0 count (Z.to_nat count)) as (m' & c & -> & Hcr & C);
      [lia|done|lia|lia|lia|by rewrite Z.sub_0_r|]. rewrite Z.add_0_l.
    destruct (Z.leb_spec c (u32 (count - 1))) as [Hle|Hgt].
    + replace count with (c + Z.of_nat (Z.to_nat (count - c))) at 2 by lia.
      eapply copied_app; [lia|lia| |exact C|apply copy_bytes_spec]; unfold disjoint in *; lia.
    + assert (c = count) as -> by (destruct (decide (count = 0)); [lia|rewrite wrap_small in Hgt; lia]). done.
  - replace count with (Z.of_nat (Z.to_nat count)) at 2 by lia. apply copy_bytes_spec. by rewrite Z2Nat.id by lia.
Qed.

Lemma memcpy_correct_witness :
  ld (memcpy (st (st ∅ 16 65) 26 66) 32 16 11) 42 = if decide (32 <= 42 < 32 + 11) then ld (st (st ∅ 16 65) 26 66) (16 + (42 - 32)) else ld (st (st ∅ 16 65) 26 66) 42.
Proof. apply (memcpy_correct (st (st ∅ 16 65) 26 66) 32 16 11); [lia|unfold disjoint; lia]. Defined.

(** [strcmp] returns 1 for two equal strings at different addresses, and for two
    different strings that differ at the same position as well: it tells nothing
    about the contents. *)
Theorem strcmp_compares_pointers m s0 s1 fuel r :
  s0 <> s1 -> strcmp m s0 s1 fuel = Some r -> r = 1.
Proof.
  intros Hne. unfold strcmp. destruct (strcmp_loop m s0 s1 fuel) as [[t0 t1]|] eqn:E; [|done]. simpl. intros [= <-].
  assert (t0 - s0 = t1 - s1) as Ed; [|by replace (t0 =? t1) with false by lia].
  clear Hne. revert s0 s1 E. induction fuel as [|f IH]; intros s0 s1; simpl; destruct (_ && _ && _); try done;
    try (intros [= <- <-]; lia). intros H. apply IH in H. lia.
Qed.
