(* ===== verification/Printk.v ===== *)
(** * Formatted output

    [lib/printk.c] and [core/console.c]. The format and the strings it prints
    are read from a memory of bytes; the bytes stored through [str] are
    returned as a list, and the buffer is taken not to overlap what is read.
    The arguments are the 64-bit slots that [va_arg] reads in turn, and [char]
    is unsigned, as on RISC-V. *)

From S2P Require Import Prelude StringC.

Definition PRINT_TEXT_LEN : Z := 0x100.

Definition va_arg (args : list Z) : res (Z * list Z) :=
  match args with a :: rest => Ok (a, rest) | [] => Fault OutOfBounds end.

(** ** Conversions *)

Definition hex_digit (byte : Z) : Z := if byte <=? 9 then byte + 0x30 else byte + (0x61 - 0xa).

(** The loop over the hexadecimal digits from index [i] on. *)
Fixpoint hex_loop (number length length_in_bits i : Z) (keep_zeros zero_padding : bool) (k : nat) : list Z :=
  match k with
  | O => []
  | S k' =>
    let byte := Z.land (Z.shiftr number (length_in_bits - (i + 1) * 4)) 0xF in
    let keep := keep_zeros || negb (byte =? 0) || (i =? length - 1) in
    (if keep || zero_padding then [hex_digit byte] else [])
    ++ hex_loop number length length_in_bits (i + 1) keep zero_padding k'
  end.

Definition fmt_hex (is_long zero_padding : bool) (arg : Z) : list Z :=
  let number := if is_long then u64 arg else u32 arg in
  let length := if is_long then 16 else 8 in
  hex_loop number length (if is_long then 64 else 32) 0 false zero_padding (Z.to_nat length).

(** Division by repeated subtraction. *)
Fixpoint quotient_loop (number divisor quotient : Z) (fuel : nat) : Z * Z :=
  if divisor <=? number then
    match fuel with
    | O => (quotient, number)
    | S f => quotient_loop (number - divisor) divisor (quotient + 1) f
    end
  else (quotient, number).

(** The divisor that follows the one of digit [i]. *)
Definition new_div_val (i : nat) : Z := Nat.iter (8 - i) (fun d => u64 (d * 10)) 1.

Fixpoint dec_loop (number divisor : Z) (i : nat) (keep_zeros zero_padding : bool) (k : nat) : list Z :=
  match k with
  | O => [u8 (number + 0x30)]
  | S k' =>
    let '(q, number') := quotient_loop number divisor 0 (Z.to_nat (number / divisor)) in
    let keep := keep_zeros || negb (q =? 0) in
    (if keep || zero_padding then [u8 (q + 0x30)] else [])
    ++ dec_loop number' (new_div_val i) (S i) keep zero_padding k'
  end.

Definition fmt_dec (is_unsigned is_long zero_padding : bool) (arg : Z) : list Z :=
  if is_unsigned then
    dec_loop (if is_long then u64 arg else u32 arg) 1000000000 0 false zero_padding 9
  else
    let number_signed := if is_long then s64 arg else s32 arg in
    if number_signed <? 0 then 0x2d :: dec_loop (u64 (- number_signed)) 1000000000 0 false zero_padding 9
    else dec_loop (u64 number_signed) 1000000000 0 false zero_padding 9.

(** The bytes of the string at [p] that are kept, and the new [len]. *)
Fixpoint str_loop (m : mem) (p len : Z) (k : nat) : list Z * Z :=
  if (ld m p =? 0) || (PRINT_TEXT_LEN <=? len) then ([], len)
  else match k with
       | O => ([], len)
       | S k' => let '(out, len') := str_loop m (p + 1) (len + 1) k' in (ld m p :: out, len')
       end.

(** ** [vsprintk] *)

(** The [switch] at the conversion character [c]: the bytes stored, the
    arguments left and [len]. *)
Definition conversion (m : mem) (c : Z) (zero_padding is_long : bool) (args : list Z) (len : Z) : res (list Z * list Z * Z) :=
  if c =? 0x78 then '(a, args') ← va_arg args; Ok (fmt_hex is_long zero_padding a, args', len)
  else if c =? 0x75 then '(a, args') ← va_arg args; Ok (fmt_dec true is_long zero_padding a, args', len)
  else if (c =? 0x69) || (c =? 0x64) then '(a, args') ← va_arg args; Ok (fmt_dec false is_long zero_padding a, args', len)
  else if c =? 0x73 then
    '(a, args') ← va_arg args;
    let '(out, len') := str_loop m a len (Z.to_nat (PRINT_TEXT_LEN - len)) in Ok (out, args', len')
  else if c =? 0x63 then '(a, args') ← va_arg args; Ok ([u8 a], args', len)
  else if c =? 0x25 then Ok ([c], args, len)
  else if c =? 9 then Ok ([0x25; c], args, len)
  else if c =? 10 then Ok ([0x25; 13; 10], args, len)
  else Ok ([], args, len).

(** What is stored for a line feed or a tab at the current position. *)
Definition control (c : Z) : list Z := (if c =? 10 then [13; 10] else []) ++ (if c =? 9 then [c] else []).

(** The flags after a percent sign at [fmt]: where the conversion is. *)
Definition flags (m : mem) (fmt : Z) : Z * bool * bool :=
  let f1 := fmt + 1 in
  let zero_padding := ld m f1 =? 0x30 in
  let f2 := if zero_padding then f1 + 1 else f1 in
  let is_long := ld m f2 =? 0x6c in
  (if is_long then f2 + 1 else f2, zero_padding, is_long).

(** The bytes stored, and the position where the loop over the format ends. *)
Fixpoint vsprintk_loop (m : mem) (fmt : Z) (args : list Z) (len : Z) (fuel : nat) : res (list Z * Z) :=
  let c := ld m fmt in
  if c =? 0 then Ok ([], fmt)
  else match fuel with
  | O => Fault Hang
  | S f =>
    if negb (c =? 0x25) && negb (c =? 10) && negb (c =? 9) then
      '(out, e) ← vsprintk_loop m (fmt + 1) args len f; Ok (c :: out, e)
    else if c =? 0x25 then
      let '(fmt', zero_padding, is_long) := flags m fmt in
      '(o, args', len') ← conversion m (ld m fmt') zero_padding is_long args len;
      '(out, e) ← vsprintk_loop m (fmt' + 1) args' len' f;
      Ok (o ++ control (ld m fmt') ++ out, e)
    else '(out, e) ← vsprintk_loop m (fmt + 1) args len f; Ok (control c ++ out, e)
  end.

(** The contents of the buffer, its terminator included, and the result. *)
Definition vsprintk (m : mem) (fmt : Z) (args : list Z) (fuel : nat) : res (list Z * Z) :=
  '(out, e) ← vsprintk_loop m fmt args (strnlen m fmt PRINT_TEXT_LEN) fuel;
  Ok (out ++ [0], strnlen m e PRINT_TEXT_LEN).

(** [console_write] hands the UART the bytes before the terminator, once the
    console is ready. *)
Fixpoint uart_puts (s : list Z) : list Z :=
  match s with c :: rest => if c =? 0 then [] else c :: uart_puts rest | [] => [] end.
Definition console_write (ready : bool) (s : list Z) : list Z := if ready then uart_puts s else [].

(** What reaches the UART, and the result. *)
Definition printk (ready : bool) (m : mem) (fmt : Z) (args : list Z) (fuel : nat) : res (list Z * Z) :=
  '(buf, i) ← vsprintk m fmt args fuel; Ok (console_write ready buf, i).

(** ** Formats

    A format as the caller means it: literal characters, line feeds, tabs and
    conversions with their two flags. *)
Inductive conv := CHex | CUns | CInt | CDec | CStr | CChr | CPercent.
Inductive item := Lit (c : Z) | Newline | Tab | Conv (zero_padding is_long : bool) (k : conv).

Definition conv_char (k : conv) : Z :=
  match k with CHex => 0x78 | CUns => 0x75 | CInt => 0x69 | CDec => 0x64 | CStr => 0x73 | CChr => 0x63 | CPercent => 0x25 end.

Definition encode (it : item) : list Z :=
  match it with
  | Lit c => [c] | Newline => [10] | Tab => [9]
  | Conv zp lng k => [0x25] ++ (if zp then [0x30] else []) ++ (if lng then [0x6c] else []) ++ [conv_char k]
  end.

Definition item_ok (it : item) : bool :=
  match it with Lit c => negb (c =? 0) && (negb (c =? 0x25) && negb (c =? 10) && negb (c =? 9)) | _ => true end.

(** What an item prints, the arguments it leaves and the space it uses up:
    strings stop when the format and the strings so far reach the length of
    the buffer. *)
Definition render (m : mem) (it : item) (args : list Z) (len : Z) : res (list Z * list Z * Z) :=
  match it with
  | Lit c => Ok ([c], args, len)
  | Newline => Ok ([13; 10], args, len)
  | Tab => Ok ([9], args, len)
  | Conv _ _ CPercent => Ok ([0x25], args, len)
  | Conv zp lng k =>
    '(a, args') ← va_arg args;
    match k with
    | CHex => Ok (fmt_hex lng zp a, args', len)
    | CUns => Ok (fmt_dec true lng zp a, args', len)
    | CStr => let '(out, len') := str_loop m a len (Z.to_nat (PRINT_TEXT_LEN - len)) in Ok (out, args', len')
    | CChr => Ok ([u8 a], args', len)
    | _ => Ok (fmt_dec false lng zp a, args', len)
    end
  end.

Fixpoint render_all (m : mem) (its : list item) (args : list Z) (len : Z) : res (list Z) :=
  match its with
  | [] => Ok []
  | it :: rest => '(o, args', len') ← render m it args len; out ← render_all m rest args' len'; Ok (o ++ out)
  end.

(** The bytes [bs] are in memory from [p] on. *)
Fixpoint bytes_at (m : mem) (p : Z) (bs : list Z) : Prop :=
  match bs with [] => True | b :: rest => ld m p = b /\ bytes_at m (p + 1) rest end.

Definition format (its : list item) : list Z := (its ≫= encode) ++ [0].

(** ** Reading numbers back *)

Definition digit_val (base c : Z) : option Z :=
  let d := if (0x30 <=? c) && (c <=? 0x39) then c - 0x30
           else if (0x61 <=? c) && (c <=? 0x66) then c - 0x57 else base in
  if d <? base then Some d else None.

Fixpoint read_acc (base acc : Z) (s : list Z) : option Z :=
  match s with
  | [] => Some acc
  | c :: rest => d ← digit_val base c; read_acc base (acc * base + d) rest
  end.

Definition read_num (base : Z) (s : list Z) : option Z :=
  match s with [] => None | _ => read_acc base 0 s end.

Definition read_int (s : list Z) : option Z :=
  match s with c :: rest => if c =? 0x2d then Z.opp <$> read_num 10 rest else read_num 10 s | [] => None end.

(** ** The digits *)

Lemma digit_val_hex b : 0 <= b < 16 -> digit_val 16 (hex_digit b) = Some b.
Proof.
  intros Hb. assert (b ∈ seqZ 0 16) as Hin by (apply elem_of_seqZ; lia). clear Hb. revert b Hin.
  apply Forall_forall. vm_compute. repeat constructor.
Qed.

Lemma digit_val_dec d : 0 <= d < 10 -> digit_val 10 (u8 (d + 0x30)) = Some d.
Proof.
  intros Hb. assert (d ∈ seqZ 0 10) as Hin by (apply elem_of_seqZ; lia). clear Hb. revert d Hin.
  apply Forall_forall. vm_compute. repeat constructor.
Qed.

Lemma hex_nibble number k :
  0 <= number -> number / 16 ^ Z.of_nat k = number / 16 ^ Z.of_nat (S k) * 16 + Z.land (Z.shiftr number (4 * Z.of_nat k)) 0xF.
Proof.
  intros Hn. change 15 with (Z.ones 4). rewrite Z.land_ones, Z.shiftr_div_pow2 by lia.
  rewrite Z.pow_mul_r by lia. change (2 ^ 4) with 16.
  rewrite Nat2Z.inj_succ, Z.pow_succ_r, (Z.mul_comm 16), <- Z.div_div by lia.
  rewrite (Z.div_mod (number / 16 ^ Z.of_nat k) 16) at 1 by lia. lia.
Qed.

Lemma hex_loop_read number n keep zp k :
  0 <= number -> (k <= n)%nat -> (keep = false -> number / 16 ^ Z.of_nat k = 0) ->
  read_acc 16 (number / 16 ^ Z.of_nat k)
    (hex_loop number (Z.of_nat n) (4 * Z.of_nat n) (Z.of_nat n - Z.of_nat k) keep zp k) = Some number.
Proof.
  intros Hn. revert keep. induction k as [|k IH]; intros keep Hk Hz; cbn [hex_loop read_acc].
  { by rewrite Z.pow_0_r, Z.div_1_r. }
  replace (4 * Z.of_nat n - (Z.of_nat n - Z.of_nat (S k) + 1) * 4) with (4 * Z.of_nat k) by lia.
  replace (Z.of_nat n - Z.of_nat (S k) + 1) with (Z.of_nat n - Z.of_nat k) by lia.
  pose proof (hex_nibble number k Hn) as Hd.
  set (b := Z.land _ 15) in *. set (keep' := keep || _ || _).
  assert (0 <= b < 16) as Hb by (subst b; change 15 with (Z.ones 4); rewrite Z.land_ones by lia; apply Z.mod_pos_bound; lia).
  assert (keep' = false -> number / 16 ^ Z.of_nat k = 0) as Hz'.
  { subst keep'. intros [[Hk1 Hk2]%orb_false_iff _]%orb_false_iff. rewrite Hd, Hz by done. lia. }
  specialize (IH keep' ltac:(lia) Hz').
  destruct (keep' || zp) eqn:E; simpl app.
  - cbn [read_acc]. rewrite digit_val_hex by done. simpl. by rewrite <- Hd.
  - apply orb_false_iff in E as [E _]. rewrite Hz' in IH by done.
    rewrite Hz by (by destruct keep). done.
Qed.

Lemma quotient_loop_spec number divisor q fuel :
  0 < divisor -> 0 <= number -> (Z.to_nat (number / divisor) <= fuel)%nat ->
  quotient_loop number divisor q fuel = (q + number / divisor, number mod divisor).
Proof.
  revert number q. induction fuel as [|f IH]; intros number q Hd Hn Hf; cbn [quotient_loop].
  - assert (number < divisor).
    { pose proof (Z.div_pos number divisor). assert (number / divisor = 0) as E by lia.
      apply Z.div_small_iff in E; lia. }
    replace (divisor <=? number) with false by lia. rewrite Z.div_small, Z.mod_small by lia. f_equal; lia.
  - destruct (Z.leb_spec divisor number).
    + assert ((number - divisor) / divisor = number / divisor - 1) as E.
      { replace (number - divisor) with (number + (-1) * divisor) by lia. rewrite Z.div_add; lia. }
      rewrite IH by lia. rewrite E. f_equal; [lia|].
      replace (number - divisor) with (number + (-1) * divisor) by lia. apply Z.mod_add. lia.
    + rewrite Z.div_small, Z.mod_small by lia. f_equal; lia.
Qed.

Lemma new_div_val_pow i : (i <= 8)%nat -> new_div_val i = 10 ^ Z.of_nat (8 - i).
Proof. intros Hi. do 9 (destruct i as [|i]; [done|]). lia. Qed.

Lemma dec_loop_read number acc keep zp k :
  (k <= 9)%nat -> 0 <= number < 10 ^ Z.of_nat (S k) -> (keep = false -> acc = 0) ->
  read_acc 10 acc (dec_loop number (10 ^ Z.of_nat k) (9 - k) keep zp k) = Some (acc * 10 ^ Z.of_nat (S k) + number).
Proof.
  revert number acc keep. induction k as [|k IH]; intros number acc keep Hk Hn Hz; cbn [dec_loop].
  { change (10 ^ Z.of_nat 1) with 10 in *. cbn [read_acc]. rewrite digit_val_dec by lia. done. }
  rewrite new_div_val_pow by lia. replace (8 - (9 - S k))%nat with k by lia.
  replace (S (9 - S k)) with (9 - k)%nat by lia.
  assert (0 < 10 ^ Z.of_nat (S k)) as Hp by (apply Z.pow_pos_nonneg; lia).
  rewrite quotient_loop_spec by lia. rewrite Z.add_0_l.
  rewrite (Nat2Z.inj_succ (S k)), Z.pow_succ_r in * by lia.
  set (p := 10 ^ Z.of_nat (S k)) in *.
  assert (0 <= number / p < 10) as Hq by (split; [apply Z.div_pos; lia|apply Z.div_lt_upper_bound; lia]).
  pose proof (Z.mod_pos_bound number p Hp) as Hm. pose proof (Z.div_mod number p ltac:(lia)) as Hdm.
  destruct (keep || negb (number / p =? 0)) eqn:Ek; simpl orb; simpl app; cbn [read_acc].
  - rewrite digit_val_dec by done. simpl mbind. rewrite (IH _ _ true) by (done || lia). f_equal. nia.
  - apply orb_false_iff in Ek as [Ek1 Ek2%negb_false_iff%Z.eqb_eq].
    rewrite Hz by done. destruct zp; simpl app; cbn [read_acc].
    + rewrite digit_val_dec by done. simpl mbind. rewrite (IH _ _ false) by (lia || (intros; lia)). f_equal. nia.
    + rewrite (IH _ 0 false) by (done || lia). f_equal. nia.
Qed.

Lemma dec_loop_cons number divisor i keep zp k : exists c s, dec_loop number divisor i keep zp k = c :: s.
Proof.
  revert number divisor i keep. induction k as [|k IH]; intros number divisor i keep; cbn [dec_loop]; [eauto|].
  destruct (quotient_loop _ _ _ _) as [q n']. destruct (_ || zp); simpl app; [eauto|apply IH].
Qed.

(** ** The theorems *)

Lemma sgn_range w x : 0 < w -> - 2 ^ (w - 1) <= x < 2 ^ (w - 1) -> sgn w x = x.
Proof.
  intros Hw Hx. destruct (decide (0 <= x)); [apply sgn_small; lia|]. unfold sgn.
  assert (2 ^ w = 2 * 2 ^ (w - 1)) as E by (rewrite <- Z.pow_succ_r by lia; f_equal; lia).
  replace (x mod 2 ^ w) with (x + 2 ^ w).
  - replace (_ <? _) with false by lia. lia.
  - symmetry. rewrite <- (Z.mod_add x 1) by lia. rewrite Z.mul_1_l. apply Z.mod_small. lia.
Qed.

Lemma read_dec n zp : 0 <= n < 10 ^ 10 -> read_num 10 (dec_loop n 1000000000 0 false zp 9) = Some n.
Proof.
  intros Hn. pose proof (dec_loop_read n 0 false zp 9 ltac:(lia) Hn ltac:(done)) as H.
  change (10 ^ Z.of_nat 9) with 1000000000 in H. simpl Nat.sub in H.
  destruct (dec_loop_cons n 1000000000 0 false zp 9) as (c & s & E). rewrite E in *. exact H.
Qed.

Lemma dec_loop_not_minus n zp : 0 <= n < 10 ^ 10 ->
  exists c s, dec_loop n 1000000000 0 false zp 9 = c :: s /\ c <> 0x2d.
Proof.
  intros Hn. pose proof (read_dec n zp Hn) as H.
  destruct (dec_loop_cons n 1000000000 0 false zp 9) as (c & s & E). rewrite E in *. exists c, s. split; [done|].
  intros ->. by vm_compute in H.
Qed.

Lemma hex_loop_cons number n bits keep zp k : (k < n)%nat ->
  exists c s, hex_loop number (Z.of_nat n) bits (Z.of_nat n - Z.of_nat (S k)) keep zp (S k) = c :: s.
Proof.
  revert keep. induction k as [|k IH]; intros keep Hk; cbn [hex_loop].
  - change (Z.of_nat 1) with 1. rewrite Z.eqb_refl, orb_true_r. simpl. eauto.
  - destruct (_ || zp); simpl app; [eauto|].
    replace (Z.of_nat n - Z.of_nat (S (S k)) + 1) with (Z.of_nat n - Z.of_nat (S k)) by lia. apply IH. lia.
Qed.

Lemma read_hex x zp k : 0 <= x < 16 ^ Z.of_nat (S k) ->
  read_num 16 (hex_loop x (Z.of_nat (S k)) (4 * Z.of_nat (S k)) 0 false zp (S k)) = Some x.
Proof.
  intros Hx. pose proof (Z.div_small _ _ Hx) as Hs.
  pose proof (hex_loop_read x (S k) false zp (S k) ltac:(lia) ltac:(lia) (fun _ => Hs)) as H.
  destruct (hex_loop_cons x (S k) (4 * Z.of_nat (S k)) false zp k ltac:(lia)) as (c & s & E).
  rewrite Hs, Z.sub_diag, E in *. exact H.
Qed.

(** Numbers print to what reads back as the same number, with and without
    zero padding: [%x] for every 32-bit and [%lx] for every 64-bit value, [%u],
    [%d] and [%i] for every 32-bit value, and the long forms [%lu], [%ld] and
    [%li] below 10^10 in magnitude. *)
Theorem printk_number_roundtrip (is_long zero_padding : bool) (x : Z) :
  (0 <= x < 2 ^ (if is_long then 64 else 32) -> read_num 16 (fmt_hex is_long zero_padding x) = Some x) /\
  (0 <= x < (if is_long then 10 ^ 10 else 2 ^ 32) -> read_num 10 (fmt_dec true is_long zero_padding x) = Some x) /\
  ((if is_long then - 10 ^ 10 < x < 10 ^ 10 else - 2 ^ 31 <= x < 2 ^ 31) -> read_int (fmt_dec false is_long zero_padding x) = Some x).
Proof.
  split; [|split].
  - intros Hx. unfold fmt_hex.
    replace (if is_long then u64 x else u32 x) with x by (by destruct is_long; rewrite wrap_small).
    destruct is_long; [apply (read_hex x zero_padding 15)|apply (read_hex x zero_padding 7)]; exact Hx.
  - intros Hx. unfold fmt_dec. destruct is_long; rewrite wrap_small by lia; apply read_dec; lia.
  - intros Hx. unfold fmt_dec.
    replace (if is_long then s64 x else s32 x) with x by (by destruct is_long; rewrite sgn_range by lia).
    destruct (Z.ltb_spec x 0).
    + rewrite wrap_small by (destruct is_long; lia). unfold read_int.
      change (0x2d =? 0x2d) with true. cbn iota. rewrite read_dec by (destruct is_long; lia). simpl. f_equal. lia.
    + rewrite wrap_small by (destruct is_long; lia).
      destruct (dec_loop_not_minus x zero_padding) as (c & s & E & Hc); [destruct is_long; lia|].
      pose proof (read_dec x zero_padding ltac:(destruct is_long; lia)) as Hr. rewrite E in *.
      unfold read_int. by replace (c =? 0x2d) with false by lia.
Qed.

Lemma printk_number_roundtrip_witness : read_int (fmt_dec false false true (-2147483648)) = Some (-2147483648).
Proof. apply (printk_number_roundtrip false true (-2147483648)). lia. Defined.

Lemma bytes_at_app m p a b : bytes_at m p (a ++ b) <-> bytes_at m p a /\ bytes_at m (p + Z.of_nat (length a)) b.
Proof.
  revert p. induction a as [|x a IH]; intros p; cbn [app bytes_at length].
  - rewrite Z.add_0_r. tauto.
  - rewrite IH. replace (p + 1 + Z.of_nat (length a)) with (p + Z.of_nat (S (length a))) by lia. tauto.
Qed.

(** The parser finds the conversion of an encoded item. *)
Lemma flags_encode m p zp lng k :
  bytes_at m p (encode (Conv zp lng k)) ->
  flags m p = (p + Z.of_nat (length (encode (Conv zp lng k))) - 1, zp, lng) /\ ld m p = 0x25 /\
  ld m (p + Z.of_nat (length (encode (Conv zp lng k))) - 1) = conv_char k.
Proof.
  unfold flags. destruct zp, lng, k; cbn [encode app bytes_at length conv_char]; intros H; destruct_and! H;
    repeat (match goal with E : ld m ?a = ?v |- context [ld m ?a] => rewrite E end; cbn [Z.eqb Pos.eqb]);
    split_and!; try done; try (repeat f_equal; lia);
    match goal with E : ld m ?a = ?v |- ld m ?b = ?v => replace b with a by lia; exact E end.
Qed.

Lemma conversion_render m zp lng k args len :
  conversion m (conv_char k) zp lng args len = render m (Conv zp lng k) args len /\ control (conv_char k) = [].
Proof. by destruct k. Qed.

Lemma bytes_at_eq m p q bs : p = q -> bytes_at m p bs -> bytes_at m q bs.
Proof. by intros ->. Qed.

Lemma vsprintk_loop_spec m p its args len fuel :
  forallb item_ok its = true -> bytes_at m p (format its) -> (length its <= fuel)%nat ->
  vsprintk_loop m p args len fuel =
    (out ← render_all m its args len; Ok (out, p + Z.of_nat (length (its ≫= encode)))).
Proof.
  revert p args len fuel. induction its as [|it its IH]; intros p args len fuel Hok Hb Hf.
  { destruct Hb as [Hb _]. destruct fuel; cbn [vsprintk_loop]; rewrite Hb; simpl; by rewrite Z.add_0_r. }
  destruct fuel as [|fuel]; cbn [length] in Hf; [lia|].
  cbn [forallb] in Hok. apply andb_true_iff in Hok as [Hi Hok].
  unfold format in Hb. rewrite bind_cons, <- app_assoc in Hb. apply bytes_at_app in Hb as [Hit Hb].
  rewrite bind_cons, length_app, Nat2Z.inj_add, Z.add_assoc.
  specialize (fun args' len' => IH _ args' len' fuel Hok Hb ltac:(lia)).
  destruct it as [c| | |zp lng k]; cbn [vsprintk_loop].
  - destruct Hit as [-> _]. cbn [item_ok] in Hi. apply andb_true_iff in Hi as [->%negb_true_iff ->].
    simpl in IH |- *. rewrite IH. by destruct (render_all _ _ _ _).
  - destruct Hit as [-> _]. simpl. simpl in IH. rewrite IH. by destruct (render_all _ _ _ _).
  - destruct Hit as [-> _]. simpl. simpl in IH. rewrite IH. by destruct (render_all _ _ _ _).
  - destruct (flags_encode m p zp lng k Hit) as (Hfl & -> & Hc). rewrite Hfl, Hc.
    destruct (conversion_render m zp lng k args len) as [-> ->]. cbn [render_all].
    replace (p + Z.of_nat (length (encode (Conv zp lng k))) - 1 + 1) with (p + Z.of_nat (length (encode (Conv zp lng k)))) by lia.
    destruct (render _ _ _ _) as [[[o args'] len']|f]; simpl; [|done]. 
    rewrite IH. by destruct (render_all _ _ _ _).
Qed.

Lemma encode_nonzero it : item_ok it = true -> Forall (fun b => b <> 0) (encode it).
Proof.
  destruct it as [c| | |[] [] []]; cbn [item_ok encode]; intros H; repeat constructor; try done.
  apply andb_true_iff in H as [H _]. apply negb_true_iff in H. lia.
Qed.

Lemma strnlen_loop_spec m p bs n :
  Forall (fun b => b <> 0) bs -> bytes_at m p (bs ++ [0]) ->
  strnlen_loop m p n = p + Z.min (Z.of_nat n) (Z.of_nat (length bs)).
Proof.
  revert p n. induction bs as [|b bs IH]; intros p n Hnz; cbn [app bytes_at].
  - intros [Hb _]. destruct n; cbn [strnlen_loop]; rewrite Hb; simpl length; simpl; lia.
  - intros [Hb Hrest]. apply Forall_cons in Hnz as [Hbz Hnz].
    destruct n as [|n]; cbn [strnlen_loop]; rewrite Hb; replace (b =? 0) with false by lia; [simpl length; lia|].
    rewrite (IH (p + 1) n) by done. simpl length. lia.
Qed.

Lemma strnlen_spec m p bs n :
  Forall (fun b => b <> 0) bs -> bytes_at m p (bs ++ [0]) -> 0 <= n < 2 ^ 32 ->
  strnlen m p n = Z.min n (Z.of_nat (length bs)).
Proof.
  intros Hnz Hb Hn. unfold strnlen. rewrite (strnlen_loop_spec m p bs) by done.
  rewrite Z2Nat.id by lia. rewrite wrap_small; lia.
Qed.

(** [vsprintk] prints what its format says: for any sequence of literals,
    line feeds, tabs and conversions laid out in memory as a C string, it
    returns, and the buffer holds the rendering of the items in turn (a line
    feed as carriage return and line feed, the arguments consumed in order,
    strings cut when the format and the strings reach 256 bytes) followed by a
    zero; a missing argument is read past the end. The result is 0, since the
    length is taken at the end of the format. *)
Theorem vsprintk_refines m p its args fuel :
  forallb item_ok its = true -> bytes_at m p (format its) -> (length its <= fuel)%nat ->
  vsprintk m p args fuel =
    (out ← render_all m its args (Z.min 256 (Z.of_nat (length (its ≫= encode)))); Ok (out ++ [0], 0)).
Proof.
  intros Hok Hb Hf. unfold vsprintk, PRINT_TEXT_LEN.
  rewrite (strnlen_spec m p (its ≫= encode)); [|..|done|lia].
  2:{ clear -Hok. induction its as [|it its IH]; [constructor|]. cbn [forallb] in Hok.
      apply andb_true_iff in Hok as [H1 H2]. rewrite bind_cons. apply Forall_app_2; [by apply encode_nonzero|by apply IH]. }
  rewrite (vsprintk_loop_spec m p its) by done. destruct (render_all _ _ _ _); simpl; [|done].
  apply bytes_at_app in Hb as [_ Hb]. by rewrite (strnlen_spec m _ []) by (done || lia || constructor).
Qed.

(** [printk("x%d: 0x%0lx\n", 5, 255)]. *)
Definition dump_items : list item :=
  [Lit 0x78; Conv false false CDec; Lit 0x3a; Lit 0x20; Lit 0x30; Lit 0x78; Conv true true CHex; Newline].
Definition dump_mem : mem := store_bytes ∅ 64 (format dump_items).

Lemma vsprintk_refines_witness :
  vsprintk dump_mem 64 [5; 255] 20 = (out ← render_all dump_mem dump_items [5; 255] 12; Ok (out ++ [0], 0)) /\
  render_all dump_mem dump_items [5; 255] 12 =
    Ok ([0x78; 0x35; 0x3a; 0x20; 0x30; 0x78] ++ replicate 14 0x30 ++ [0x66; 0x66; 13; 10]).
Proof. split; [apply (vsprintk_refines dump_mem 64 dump_items); [done|by vm_compute|simpl; lia]|done]. Defined.

(** [%lu] of 10^10, as in the time stamps of [init.c], prints a colon for the
    leading digit. *)
Theorem printk_long_not_decimal : fmt_dec true true false (10 ^ 10) = [0x3a; 0x30; 0x30; 0x30; 0x30; 0x30; 0x30; 0x30; 0x30; 0x30].
Proof. by vm_compute. Qed.

(** A format that ends in a percent sign is read past its terminator. *)
Theorem vsprintk_stray_percent m p args len fuel :
  bytes_at m p [0x25; 0] -> vsprintk_loop m p args len (S fuel) = vsprintk_loop m (p + 2) args len fuel.
Proof.
  intros (H1 & H2 & _). cbn [vsprintk_loop]. rewrite H1.
  assert (flags m p = (p + 1, false, false)) as -> by (unfold flags; simpl; rewrite H2; simpl; by rewrite H2).
  simpl. rewrite H2. simpl.
  replace (p + 1 + 1) with (p + 2) by lia. by destruct (vsprintk_loop _ _ _ _ _) as [[]|].
Qed.

(** A percent sign before a line feed prints the line feed twice. *)
Theorem vsprintk_percent_newline m p args fuel :
  bytes_at m p [0x25; 10; 0] -> vsprintk m p args (S (S fuel)) = Ok ([0x25; 13; 10; 13; 10; 0], 0).
Proof.
  intros (H1 & H2 & H3 & _). unfold vsprintk. cbn [vsprintk_loop]. rewrite H1.
  assert (flags m p = (p + 1, false, false)) as -> by (unfold flags; simpl; rewrite H2; simpl; by rewrite H2).
  simpl. rewrite H2. simpl. rewrite H3. simpl. by rewrite (strnlen_spec m (p + 1 + 1) []) by (done || constructor).
Qed.

(** The buffer is not bounded: a format of [n] literal characters stores [n + 1]
    bytes, so that 256 of them overrun the 256 bytes of [printk]. *)
Theorem vsprintk_unbounded m p n args :
  bytes_at m p (format (replicate n (Lit 0x41))) ->
  vsprintk m p args n = Ok (replicate n 0x41 ++ [0], 0).
Proof.
  intros Hb. unfold vsprintk. 
  assert (forallb item_ok (replicate n (Lit 0x41)) = true) as Hok by (clear; induction n; done).
  rewrite (vsprintk_loop_spec m p (replicate n (Lit 0x41))) by (done || rewrite length_replicate; lia).
  assert (forall len, render_all m (replicate n (Lit 0x41)) args len = Ok (replicate n 0x41)) as ->.
  { clear. intros len. induction n as [|n IH]; [done|]. simpl. by rewrite IH. }
  apply bytes_at_app in Hb as [_ Hb]. simpl. by rewrite (strnlen_spec m _ []) by (done || lia || constructor).
Qed.
