(* ===== verification/SbiFifo.v ===== *)
(** * Queues of the firmware

    [src/opensbi/lib/sbi/sbi_fifo.c] and [include/sbi/sbi_fifo.h]: a ring buffer
    of fixed capacity. Each operation runs with the lock of the queue held and is
    one function here. The memory of the queue is an array of entries, of which an
    operation copies one at a time, so [entry_size] does not appear; the arguments
    are references, so the checks against null pointers do not either. *)

From S2P Require Import Prelude.

(** Results of [include/sbi/sbi_error.h]. *)
Definition SBI_ENOENT : Z := -1009.
Definition SBI_ENOSPC : Z := -1005.

(** [enum sbi_fifo_inplace_update_types] *)
Inductive sbi_fifo_inplace_update_types :=
  | SBI_FIFO_SKIP
  | SBI_FIFO_UPDATED
  | SBI_FIFO_UNCHANGED.

#[export] Instance inplace_update_types_eq_dec : EqDecision sbi_fifo_inplace_update_types.
Proof. solve_decision. Defined.

Section Fifo.
Context {E : Type}.

Record sbi_fifo := mk_fifo { queue : list E; num_entries : Z; avail : Z; tail : Z }.

(** [zero] is the entry with all bytes zero. *)
Definition sbi_fifo_init (zero : E) (entries : Z) : sbi_fifo :=
  mk_fifo (replicate (Z.to_nat entries) zero) entries 0 0.

Definition __sbi_fifo_is_full (f : sbi_fifo) : bool := avail f =? num_entries f.
Definition __sbi_fifo_is_empty (f : sbi_fifo) : bool := avail f =? 0.
Definition sbi_fifo_avail (f : sbi_fifo) : Z := avail f.
Definition sbi_fifo_is_full (f : sbi_fifo) : Z := Z.b2z (__sbi_fifo_is_full f).
Definition sbi_fifo_is_empty (f : sbi_fifo) : Z := Z.b2z (__sbi_fifo_is_empty f).

Definition __sbi_fifo_reset (zero : E) (f : sbi_fifo) : sbi_fifo :=
  mk_fifo (replicate (Z.to_nat (num_entries f)) zero) (num_entries f) 0 0.

Definition __sbi_fifo_enqueue (f : sbi_fifo) (data : E) : sbi_fifo :=
  let head := u32 (tail f + avail f) in
  let head := if num_entries f <=? head then u32 (head - num_entries f) else head in
  mk_fifo (<[Z.to_nat head := data]> (queue f)) (num_entries f) (wrap 16 (avail f + 1)) (tail f).

Definition sbi_fifo_enqueue (f : sbi_fifo) (data : E) : Z * sbi_fifo :=
  if __sbi_fifo_is_full f then (SBI_ENOSPC, f) else (0, __sbi_fifo_enqueue f data).

(** The entry copied out is [None] where the read is past the memory of the
    queue. *)
Definition sbi_fifo_dequeue (f : sbi_fifo) : Z * option E * sbi_fifo :=
  if __sbi_fifo_is_empty f then (SBI_ENOENT, None, f)
  else
    let data := queue f !! Z.to_nat (tail f) in
    let tail1 := wrap 16 (tail f + 1) in
    let tail2 := if num_entries f <=? tail1 then 0 else tail1 in
    (0, data, mk_fifo (queue f) (num_entries f) (wrap 16 (avail f - 1)) tail2).

(** The loop of [sbi_fifo_inplace_update] from index [i] on, [k] entries left.
    [fptr] is the callback with its input given: it returns its verdict and the
    entry as it leaves it. *)
Fixpoint inplace_loop (fptr : E -> sbi_fifo_inplace_update_types * E) (f : sbi_fifo)
    (i : Z) (k : nat) : sbi_fifo_inplace_update_types * sbi_fifo :=
  match k with
  | O => (SBI_FIFO_UNCHANGED, f)
  | S k' =>
      let index := tail f + i in
      let index := if num_entries f <=? index then index - num_entries f else index in
      match queue f !! Z.to_nat index with
      | None => (SBI_FIFO_UNCHANGED, f)
      | Some entry =>
          let (ret, entry') := fptr entry in
          let f' := mk_fifo (<[Z.to_nat index := entry']> (queue f)) (num_entries f) (avail f) (tail f) in
          match ret with
          | SBI_FIFO_SKIP | SBI_FIFO_UPDATED => (ret, f')
          | SBI_FIFO_UNCHANGED => inplace_loop fptr f' (i + 1) k'
          end
      end
  end.

Definition sbi_fifo_inplace_update (fptr : E -> sbi_fifo_inplace_update_types * E) (f : sbi_fifo) :
    sbi_fifo_inplace_update_types * sbi_fifo :=
  if __sbi_fifo_is_empty f then (SBI_FIFO_UNCHANGED, f)
  else inplace_loop fptr f 0 (Z.to_nat (avail f)).

(** ** The abstract queue

    A list of at most [num_entries] entries, the oldest first. *)
Definition fifo_abs (f : sbi_fifo) : list E :=
  take (Z.to_nat (avail f)) (drop (Z.to_nat (tail f)) (queue f ++ queue f)).

Record fifo_wf (f : sbi_fifo) : Prop := {
  wf_mem : Z.of_nat (length (queue f)) = num_entries f;
  wf_num : 0 < num_entries f < 2 ^ 16;
  wf_avail : 0 <= avail f <= num_entries f;
  wf_tail : 0 <= tail f < num_entries f }.

(** What [fptr] does to a list of entries: it is applied to each in turn, up to
    the first it skips or updates. *)
Fixpoint update_list (fptr : E -> sbi_fifo_inplace_update_types * E) (l : list E) :
    sbi_fifo_inplace_update_types * list E :=
  match l with
  | [] => (SBI_FIFO_UNCHANGED, [])
  | e :: l' =>
      let (ret, e') := fptr e in
      match ret with
      | SBI_FIFO_SKIP | SBI_FIFO_UPDATED => (ret, e' :: l')
      | SBI_FIFO_UNCHANGED => let (r, l2) := update_list fptr l' in (r, e' :: l2)
      end
  end.

(** The position in the array of the [i]-th entry. *)
Definition slot (f : sbi_fifo) (i : Z) : Z :=
  if num_entries f <=? tail f + i then tail f + i - num_entries f else tail f + i.

Lemma fifo_abs_length f : fifo_wf f -> length (fifo_abs f) = Z.to_nat (avail f).
Proof.
  intros []. unfold fifo_abs. rewrite length_take, length_drop, length_app. lia.
Qed.

Lemma fifo_abs_lookup f i : fifo_wf f -> 0 <= i < avail f ->
  fifo_abs f !! Z.to_nat i = queue f !! Z.to_nat (slot f i).
Proof.
  intros [] Hi. unfold fifo_abs, slot. rewrite lookup_take_lt, lookup_drop by lia.
  destruct (Z.leb_spec (num_entries f) (tail f + i)).
  - rewrite lookup_app_r by lia. f_equal. lia.
  - rewrite lookup_app_l by lia. f_equal. lia.
Qed.

Lemma slot_inj f i j : fifo_wf f -> 0 <= i < num_entries f -> 0 <= j < num_entries f ->
  slot f i = slot f j -> i = j.
Proof. intros [] Hi Hj. unfold slot. zbool; lia. Qed.

Lemma slot_range f i : fifo_wf f -> 0 <= i < num_entries f ->
  (Z.to_nat (slot f i) < length (queue f))%nat /\ 0 <= slot f i.
Proof. intros [] Hi. unfold slot. zbool; lia. Qed.

(** A list is the content of a queue when it has its length and its entries. *)
Lemma fifo_abs_eq f l : fifo_wf f -> Z.of_nat (length l) = avail f ->
  (forall i, 0 <= i < avail f -> l !! Z.to_nat i = queue f !! Z.to_nat (slot f i)) ->
  fifo_abs f = l.
Proof.
  intros Hf Hl H. apply list_eq. intros i.
  destruct (decide (Z.of_nat i < avail f)) as [Hi|Hi].
  - rewrite <- (Nat2Z.id i), fifo_abs_lookup, H; done || lia.
  - rewrite !lookup_ge_None_2; [done|lia|]. rewrite fifo_abs_length by done. lia.
Qed.

Lemma sbi_fifo_init_abs zero n : 0 < n < 2 ^ 16 ->
  fifo_wf (sbi_fifo_init zero n) /\ fifo_abs (sbi_fifo_init zero n) = [].
Proof.
  intros Hn. split; [|done]. split; simpl; rewrite ?length_replicate; lia.
Qed.

Lemma sbi_fifo_enqueue_abs f e : fifo_wf f ->
  let l := fifo_abs f in
  let (r, f') := sbi_fifo_enqueue f e in
  fifo_wf f' /\ num_entries f' = num_entries f /\
  (r, fifo_abs f') = if Z.of_nat (length l) =? num_entries f then (SBI_ENOSPC, l)
                     else (0, l ++ [e]).
Proof.
  intros Hf. cbv zeta. pose proof Hf as []. unfold sbi_fifo_enqueue, __sbi_fifo_is_full.
  rewrite fifo_abs_length, Z2Nat.id by (done || lia).
  destruct (Z.eqb_spec (avail f) (num_entries f)) as [|Hn]; [done|].
  unfold __sbi_fifo_enqueue. rewrite (wrap_small 32 (tail f + avail f)) by lia.
  rewrite (wrap_small 16) by lia.
  assert ((if num_entries f <=? tail f + avail f then u32 (tail f + avail f - num_entries f)
           else tail f + avail f) = slot f (avail f)) as ->.
  { unfold slot. destruct (Z.leb_spec (num_entries f) (tail f + avail f)); [|done].
    apply wrap_small. lia. }
  set (f' := mk_fifo _ _ _ _).
  assert (fifo_wf f') as Hf' by (split; simpl; rewrite ?length_insert; lia).
  split; [done|]. split; [done|]. f_equal. apply fifo_abs_eq; [done| |].
  { rewrite length_app, fifo_abs_length by done. simpl. lia. }
  simpl. intros i Hi. change (slot f' i) with (slot f i).
  destruct (decide (i = avail f)) as [->|].
  - rewrite lookup_app_r, fifo_abs_length, Nat.sub_diag by (rewrite ?fifo_abs_length; done || lia).
    rewrite list_lookup_insert_eq; [done|]. apply slot_range; done || lia.
  - rewrite lookup_app_l by (rewrite fifo_abs_length by done; lia).
    rewrite fifo_abs_lookup by (done || lia). rewrite list_lookup_insert_ne; [done|].
    intros ?. destruct (slot_range f i), (slot_range f (avail f)); try done; try lia.
    pose proof (slot_inj f i (avail f) Hf). lia.
Qed.

Lemma sbi_fifo_dequeue_abs f : fifo_wf f ->
  match sbi_fifo_dequeue f with
  | (r, out, f') =>
      fifo_wf f' /\ num_entries f' = num_entries f /\
      match fifo_abs f with
      | [] => r = SBI_ENOENT /\ f' = f
      | e :: l => r = 0 /\ out = Some e /\ fifo_abs f' = l
      end
  end.
Proof.
  intros Hf. pose proof Hf as []. unfold sbi_fifo_dequeue, __sbi_fifo_is_empty.
  pose proof (fifo_abs_length f Hf) as Hl.
  destruct (Z.eqb_spec (avail f) 0) as [E0|Hn].
  { rewrite E0 in Hl. destruct (fifo_abs f) eqn:Ha; done. }
  rewrite !(wrap_small 16) by lia. set (f' := mk_fifo _ _ _ _).
  assert (fifo_wf f') as Hf' by (split; simpl; zbool; lia).
  split; [done|]. split; [done|]. destruct (fifo_abs f) as [|e l] eqn:Ha.
  { simpl in Hl. lia. }
  split; [done|]. simpl in Hl. split.
  - pose proof (fifo_abs_lookup f 0 Hf ltac:(lia)) as H0. rewrite Ha in H0. simpl in H0.
    rewrite H0. unfold slot. f_equal. zbool; lia.
  - apply fifo_abs_eq; [done|simpl; lia|]. intros i Hi. simpl in Hi.
    pose proof (fifo_abs_lookup f (i + 1) Hf ltac:(lia)) as H1. rewrite Ha in H1.
    replace (Z.to_nat (i + 1)) with (S (Z.to_nat i)) in H1 by lia. simpl in H1. rewrite H1.
    simpl. f_equal. f_equal. unfold slot. simpl. zbool; lia.
Qed.

(** Writing the slot of the [i]-th entry writes the [i]-th entry. *)
Lemma set_slot_abs f i e : fifo_wf f -> 0 <= i < avail f ->
  let f' := mk_fifo (<[Z.to_nat (slot f i) := e]> (queue f)) (num_entries f) (avail f) (tail f) in
  fifo_wf f' /\ fifo_abs f' = <[Z.to_nat i := e]> (fifo_abs f).
Proof.
  intros Hf Hi f'. pose proof Hf as [].
  assert (fifo_wf f') as Hf' by (split; simpl; rewrite ?length_insert; lia).
  split; [done|]. apply fifo_abs_eq; [done| |].
  { rewrite length_insert, fifo_abs_length by done. simpl. lia. }
  simpl. intros j Hj. change (slot f' j) with (slot f j).
  destruct (slot_range f i), (slot_range f j); try done; try lia.
  destruct (decide (i = j)) as [->|].
  - rewrite !list_lookup_insert_eq; [done|done|]. rewrite fifo_abs_length by done. lia.
  - pose proof (slot_inj f i j Hf). rewrite !list_lookup_insert_ne by lia.
    by rewrite fifo_abs_lookup by (done || lia).
Qed.

Lemma inplace_loop_abs fptr k : forall f i l1 l2, fifo_wf f ->
  fifo_abs f = l1 ++ l2 -> Z.of_nat (length l1) = i -> length l2 = k ->
  match inplace_loop fptr f i k with
  | (r, f') => fifo_wf f' /\ num_entries f' = num_entries f /\
               r = fst (update_list fptr l2) /\
               fifo_abs f' = l1 ++ snd (update_list fptr l2)
  end.
Proof.
  induction k as [|k IH]; intros f i l1 l2 Hf Ha H1 H2.
  { by destruct l2. }
  destruct l2 as [|e l2]; [done|]. simpl in H2.
  pose proof (fifo_abs_length f Hf) as Hl. rewrite Ha, length_app in Hl. simpl in Hl.
  assert (0 <= i < avail f) as Hi by lia. simpl.
  change (if num_entries f <=? tail f + i then tail f + i - num_entries f else tail f + i)
    with (slot f i).
  rewrite <- fifo_abs_lookup, Ha by done.
  replace (Z.to_nat i) with (length l1) by lia. rewrite list_lookup_middle by done.
  destruct (fptr e) as [ret e'] eqn:Ee. destruct (set_slot_abs f i e' Hf Hi) as [Hf' Ha'].
  rewrite Ha in Ha'. replace (Z.to_nat i) with (length l1 + 0)%nat in Ha' by lia.
  rewrite insert_app_r in Ha'. simpl in Ha'.
  destruct ret; [done|done|].
  specialize (IH _ (i + 1) (l1 ++ [e']) l2 Hf'). rewrite <- app_assoc in IH. simpl in IH.
  destruct (inplace_loop _ _ _ _) as [r f'] eqn:El. destruct (update_list fptr l2) as [r2 l'].
  destruct IH as (? & ? & -> & ->); [done|rewrite length_app; simpl; lia|lia|].
  by rewrite <- app_assoc.
Qed.

Lemma sbi_fifo_inplace_update_abs fptr f : fifo_wf f ->
  match sbi_fifo_inplace_update fptr f with
  | (r, f') => fifo_wf f' /\ num_entries f' = num_entries f /\
               (r, fifo_abs f') = update_list fptr (fifo_abs f)
  end.
Proof.
  intros Hf. unfold sbi_fifo_inplace_update, __sbi_fifo_is_empty.
  pose proof (fifo_abs_length f Hf) as Hl. destruct (Z.eqb_spec (avail f) 0) as [E0|Hn].
  { rewrite E0 in Hl. by destruct (fifo_abs f). }
  pose proof (inplace_loop_abs fptr (Z.to_nat (avail f)) f 0 [] (fifo_abs f) Hf eq_refl eq_refl Hl) as H.
  destruct (inplace_loop _ _ _ _) as [r f'], (update_list fptr (fifo_abs f)) as [r2 l2].
  by destruct H as (? & ? & -> & ->).
Qed.

(** ** Refinement

    The operations of the interface, on the ring buffer and on a bounded list. *)
Inductive fifo_op :=
  | OpEnqueue (e : E)
  | OpDequeue
  | OpUpdate (fptr : E -> sbi_fifo_inplace_update_types * E)
  | OpAvail | OpIsFull | OpIsEmpty | OpReset.

Inductive fifo_out :=
  | OutRc (r : Z)
  | OutDeq (r : Z) (e : option E)
  | OutUpd (r : sbi_fifo_inplace_update_types).

Definition fifo_step (zero : E) (f : sbi_fifo) (op : fifo_op) : fifo_out * sbi_fifo :=
  match op with
  | OpEnqueue e => let (r, f') := sbi_fifo_enqueue f e in (OutRc r, f')
  | OpDequeue => let '(r, e, f') := sbi_fifo_dequeue f in (OutDeq r e, f')
  | OpUpdate fptr => let (r, f') := sbi_fifo_inplace_update fptr f in (OutUpd r, f')
  | OpAvail => (OutRc (sbi_fifo_avail f), f)
  | OpIsFull => (OutRc (sbi_fifo_is_full f), f)
  | OpIsEmpty => (OutRc (sbi_fifo_is_empty f), f)
  | OpReset => (OutRc 1, __sbi_fifo_reset zero f)
  end.

Definition queue_step (cap : Z) (l : list E) (op : fifo_op) : fifo_out * list E :=
  match op with
  | OpEnqueue e => if Z.of_nat (length l) =? cap then (OutRc SBI_ENOSPC, l) else (OutRc 0, l ++ [e])
  | OpDequeue => match l with
                 | [] => (OutDeq SBI_ENOENT None, [])
                 | e :: l' => (OutDeq 0 (Some e), l')
                 end
  | OpUpdate fptr => let (r, l') := update_list fptr l in (OutUpd r, l')
  | OpAvail => (OutRc (Z.of_nat (length l)), l)
  | OpIsFull => (OutRc (Z.b2z (Z.of_nat (length l) =? cap)), l)
  | OpIsEmpty => (OutRc (Z.b2z (Z.of_nat (length l) =? 0)), l)
  | OpReset => (OutRc 1, [])
  end.

Fixpoint run_ops {S} (step : S -> fifo_op -> fifo_out * S) (s : S) (ops : list fifo_op) :
    list fifo_out * S :=
  match ops with
  | [] => ([], s)
  | op :: ops' => let (o, s') := step s op in
                  let (os, s'') := run_ops step s' ops' in (o :: os, s'')
  end.

Lemma fifo_step_refines zero f op : fifo_wf f ->
  match fifo_step zero f op with
  | (o, f') => fifo_wf f' /\ num_entries f' = num_entries f /\
               (o, fifo_abs f') = queue_step (num_entries f) (fifo_abs f) op
  end.
Proof.
  intros Hf. pose proof (fifo_abs_length f Hf) as Hl. pose proof Hf as [].
  assert (Z.of_nat (length (fifo_abs f)) = avail f) as Hz by lia.
  destruct op; simpl; rewrite ?Hz; try done.
  - pose proof (sbi_fifo_enqueue_abs f e Hf) as H. cbv zeta in H. rewrite Hz in H.
    destruct (sbi_fifo_enqueue f e) as [r f'] eqn:Er. destruct H as (? & ? & H).
    split; [done|]. split; [done|]. destruct (_ =? _); by injection H as -> ->.
  - pose proof (sbi_fifo_dequeue_abs f Hf) as H. unfold sbi_fifo_dequeue, __sbi_fifo_is_empty in *.
    destruct (Z.eqb_spec (avail f) 0) as [E0|_].
    + rewrite E0 in Hz. by destruct (fifo_abs f).
    + destruct H as (? & ? & H). split; [done|]. split; [done|].
      destruct (fifo_abs f); [by destruct H|]. by destruct H as (_ & -> & ->).
  - pose proof (sbi_fifo_inplace_update_abs fptr f Hf) as H.
    destruct (sbi_fifo_inplace_update fptr f) as [r f'], (update_list fptr _) as [r2 l2].
    destruct H as (? & ? & H). by injection H as -> ->.
  - split; [|done]. split; simpl; rewrite ?length_replicate; lia.
Qed.

(** A queue of [n] entries behaves as a list of at most [n] entries: every
    sequence of operations after [sbi_fifo_init] gives the results that the same
    sequence gives on the bounded list, and leaves the content that it leaves. *)
Theorem sbi_fifo_refines zero n ops : 0 < n < 2 ^ 16 ->
  let (os, f) := run_ops (fifo_step zero) (sbi_fifo_init zero n) ops in
  (os, fifo_abs f) = run_ops (queue_step n) [] ops.
Proof.
  intros Hn. destruct (sbi_fifo_init_abs zero n Hn) as [Hf Ha]. rewrite <- Ha.
  change n with (num_entries (sbi_fifo_init zero n)) at 2.
  generalize dependent (sbi_fifo_init zero n). intros f Hf _.
  revert f Hf. induction ops as [|op ops IH]; intros f Hf; [done|]. simpl.
  pose proof (fifo_step_refines zero f op Hf) as H.
  destruct (fifo_step zero f op) as [o f'] eqn:Eo. destruct H as (Hf' & Hn' & H).
  specialize (IH f' Hf'). rewrite Hn' in IH. rewrite <- H.
  destruct (run_ops (fifo_step zero) f' ops) as [os f2]. by rewrite <- IH.
Qed.

End Fifo.
Arguments sbi_fifo : clear implicits.
Arguments fifo_op : clear implicits.
Arguments fifo_out : clear implicits.

(** A queue of two entries that fills, wraps around and empties. *)
Lemma sbi_fifo_refines_witness :
  run_ops (queue_step 2) [] [OpEnqueue 5; OpDequeue; OpEnqueue 6; OpEnqueue 7; OpEnqueue 8; OpDequeue]
  = ([OutRc 0; OutDeq 0 (Some 5); OutRc 0; OutRc 0; OutRc SBI_ENOSPC; OutDeq 0 (Some 6)], [7]).
Proof.
  symmetry.
  exact (sbi_fifo_refines 0 2
    [OpEnqueue 5; OpDequeue; OpEnqueue 6; OpEnqueue 7; OpEnqueue 8; OpDequeue] ltac:(lia)).
Defined.
