(* ===== verification/SbiTlb.v ===== *)
(** * Remote fences of the firmware: requests

    [src/opensbi/lib/sbi/sbi_tlb.c], the remote fence handler of
    [sbi_ecall_replace.c], and the choice of target harts ([sbi_ipi_send_many] of
    [sbi_ipi.c], [sbi_hsm_hart_interruptible_mask] of [sbi_hsm.c],
    [sbi_domain_get_assigned_hartmask] of [sbi_domain.c]). The hypervisor and its
    guests flush the translations of other harts through these functions. This
    file is about one request; the exchange between harts is in SbiShoot.

    A hart mask is a number of [SBI_HARTMASK_MAX_BITS] bits. A function executed by
    the target ([local_fn]) is a constructor of [tlb_fn], never null, and its
    effect is the list of fence instructions it executes. The counters of the
    performance monitor have no effect on fences and are left out. *)

From S2P Require Import Prelude SbiFifo.

Definition SBI_EINVAL : Z := -3.
Definition SBI_ENOTSUPP : Z := -2.
Definition SBI_TLB_FLUSH_ALL : Z := 2 ^ 64 - 1.
Definition SBI_TLB_FIFO_NUM_ENTRIES : Z := 8.
Definition SBI_HARTMASK_MAX_BITS : Z := 128.
Definition PAGE_SHIFT : Z := 12.
Definition PAGE_SIZE : Z := 4096.
Definition HGATP_VMID_SHIFT : Z := 44.
Definition HGATP_VMID_MASK : Z := 0x03FFF00000000000.

(** The functions [sbi_tlb_local_*]. *)
Inductive tlb_fn :=
  | local_hfence_vvma | local_hfence_gvma | local_sfence_vma
  | local_hfence_vvma_asid | local_hfence_gvma_vmid | local_sfence_vma_asid
  | local_fence_i.

#[export] Instance tlb_fn_eq_dec : EqDecision tlb_fn.
Proof. solve_decision. Defined.

(** [struct sbi_tlb_info] *)
Record sbi_tlb_info := mk_tlb {
  start : Z; size : Z; asid : Z; vmid : Z; local_fn : tlb_fn; smask : Z }.

(** [SBI_HARTMASK_INIT_EXCEPT] and [SBI_TLB_INFO_INIT]. *)
Definition sbi_hartmask_init_except (h : Z) : Z :=
  if h <? SBI_HARTMASK_MAX_BITS then Z.lor 0 (Z.shiftl 1 h) else 0.
Definition sbi_tlb_info_init (st sz a v : Z) (fn : tlb_fn) (src : Z) : sbi_tlb_info :=
  mk_tlb st sz a v fn (sbi_hartmask_init_except src).

(** [sbi_hartmask_for_each_hart]: the harts of a mask, in increasing order. *)
Definition hartmask_harts (m : Z) : list Z :=
  filter (fun h => Z.testbit m h = true) (seqZ 0 SBI_HARTMASK_MAX_BITS).

(** ** Fence instructions *)
Inductive fence :=
  | SFENCE_VMA (va asid : option Z)
  | HFENCE_GVMA (gpa_4 vmid : option Z)
  | HFENCE_VVMA (hgatp : Z) (va asid : option Z)
  | FENCE_I.

(** [for (i = 0; i < size; i += PAGE_SIZE) f(start + i)], in 64-bit arithmetic. The
    fuel is what a loop that ends takes. *)
Fixpoint flush_loop (fuel : nat) (f : Z -> fence) (st sz i : Z) : option (list fence) :=
  if i <? sz then
    match fuel with
    | O => None
    | S k => fs ← flush_loop k f st sz (u64 (i + PAGE_SIZE)); Some (f (u64 (st + i)) :: fs)
    end
  else Some [].

Definition flush_range (f : Z -> fence) (t : sbi_tlb_info) : option (list fence) :=
  flush_loop (Z.to_nat (size t / PAGE_SIZE + 1)) f (start t) (size t) 0.

(** Each function with the value of the CSR [hgatp] before and after it; [None] is
    a loop that does not end. *)
Definition sbi_tlb_local_hfence_vvma (t : sbi_tlb_info) (hgatp : Z) : option (list fence * Z) :=
  let hgatp' := Z.land (u64 (Z.shiftl (vmid t) HGATP_VMID_SHIFT)) HGATP_VMID_MASK in
  if ((start t =? 0) && (size t =? 0)) || (size t =? SBI_TLB_FLUSH_ALL)
  then Some ([HFENCE_VVMA hgatp' None None], hgatp)
  else fs ← flush_range (fun va => HFENCE_VVMA hgatp' (Some va) None) t; Some (fs, hgatp).

Definition sbi_tlb_local_hfence_gvma (t : sbi_tlb_info) (hgatp : Z) : option (list fence * Z) :=
  if ((start t =? 0) && (size t =? 0)) || (size t =? SBI_TLB_FLUSH_ALL)
  then Some ([HFENCE_GVMA None None], hgatp)
  else fs ← flush_range (fun a => HFENCE_GVMA (Some (Z.shiftr a 2)) None) t; Some (fs, hgatp).

Definition sbi_tlb_local_sfence_vma (t : sbi_tlb_info) (hgatp : Z) : option (list fence * Z) :=
  if ((start t =? 0) && (size t =? 0)) || (size t =? SBI_TLB_FLUSH_ALL)
  then Some ([SFENCE_VMA None None], hgatp)
  else fs ← flush_range (fun va => SFENCE_VMA (Some va) None) t; Some (fs, hgatp).

Definition sbi_tlb_local_hfence_vvma_asid (t : sbi_tlb_info) (hgatp : Z) : option (list fence * Z) :=
  let hgatp' := Z.land (u64 (Z.shiftl (vmid t) HGATP_VMID_SHIFT)) HGATP_VMID_MASK in
  if (start t =? 0) && (size t =? 0) then Some ([HFENCE_VVMA hgatp' None None], hgatp)
  else if size t =? SBI_TLB_FLUSH_ALL then Some ([HFENCE_VVMA hgatp' None (Some (asid t))], hgatp)
  else fs ← flush_range (fun va => HFENCE_VVMA hgatp' (Some va) (Some (asid t))) t; Some (fs, hgatp).

Definition sbi_tlb_local_hfence_gvma_vmid (t : sbi_tlb_info) (hgatp : Z) : option (list fence * Z) :=
  if (start t =? 0) && (size t =? 0) then Some ([HFENCE_GVMA None None], hgatp)
  else if size t =? SBI_TLB_FLUSH_ALL then Some ([HFENCE_GVMA None (Some (vmid t))], hgatp)
  else fs ← flush_range (fun a => HFENCE_GVMA (Some (Z.shiftr a 2)) (Some (vmid t))) t;
       Some (fs, hgatp).

Definition sbi_tlb_local_sfence_vma_asid (t : sbi_tlb_info) (hgatp : Z) : option (list fence * Z) :=
  if (start t =? 0) && (size t =? 0) then Some ([SFENCE_VMA None None], hgatp)
  else if size t =? SBI_TLB_FLUSH_ALL then Some ([SFENCE_VMA None (Some (asid t))], hgatp)
  else fs ← flush_range (fun va => SFENCE_VMA (Some va) (Some (asid t))) t; Some (fs, hgatp).

Definition sbi_tlb_local_fence_i (t : sbi_tlb_info) (hgatp : Z) : option (list fence * Z) :=
  Some ([FENCE_I], hgatp).

(** The call [tinfo->local_fn(tinfo)]. *)
Definition call_local_fn (t : sbi_tlb_info) (hgatp : Z) : option (list fence * Z) :=
  match local_fn t with
  | local_hfence_vvma => sbi_tlb_local_hfence_vvma t hgatp
  | local_hfence_gvma => sbi_tlb_local_hfence_gvma t hgatp
  | local_sfence_vma => sbi_tlb_local_sfence_vma t hgatp
  | local_hfence_vvma_asid => sbi_tlb_local_hfence_vvma_asid t hgatp
  | local_hfence_gvma_vmid => sbi_tlb_local_hfence_gvma_vmid t hgatp
  | local_sfence_vma_asid => sbi_tlb_local_sfence_vma_asid t hgatp
  | local_fence_i => sbi_tlb_local_fence_i t hgatp
  end.

(** ** Merging a request into a queued one *)
Definition tlb_range_check (curr next : sbi_tlb_info) :
    sbi_fifo_inplace_update_types * sbi_tlb_info :=
  let next_end := u64 (start next + size next) in
  let curr_end := u64 (start curr + size curr) in
  let mask := Z.lor (smask curr) (smask next) in
  if (start next <=? start curr) && (curr_end <? next_end) then
    (SBI_FIFO_UPDATED, mk_tlb (start next) (size next) (asid curr) (vmid curr) (local_fn curr) mask)
  else if (start curr <=? start next) && (next_end <=? curr_end) then
    (SBI_FIFO_SKIP, mk_tlb (start curr) (size curr) (asid curr) (vmid curr) (local_fn curr) mask)
  else (SBI_FIFO_UNCHANGED, curr).

Definition tlb_update_cb (next curr : sbi_tlb_info) :
    sbi_fifo_inplace_update_types * sbi_tlb_info :=
  if bool_decide (local_fn next = local_sfence_vma_asid)
     && bool_decide (local_fn curr = local_sfence_vma_asid) then
    if asid next =? asid curr then tlb_range_check curr next else (SBI_FIFO_UNCHANGED, curr)
  else if bool_decide (local_fn next = local_sfence_vma)
          && bool_decide (local_fn curr = local_sfence_vma) then tlb_range_check curr next
  else (SBI_FIFO_UNCHANGED, curr).

(** The start of [tlb_update]: a range that is too long becomes a flush of
    everything. The request is shared by the calls for all targets. *)
Definition tlb_limit (tlb_range_flush_limit : Z) (t : sbi_tlb_info) : sbi_tlb_info :=
  if tlb_range_flush_limit <? size t
  then mk_tlb 0 SBI_TLB_FLUSH_ALL (asid t) (vmid t) (local_fn t) (smask t) else t.

(** ** The ecall and its targets *)
Record regs := mk_regs { a0 : Z; a1 : Z; a2 : Z; a3 : Z; a4 : Z }.

(** [sbi_ecall_rfence_handler]: the request it passes to [sbi_tlb_request] with
    [a0] and [a1], or the error it returns. *)
Definition sbi_ecall_rfence_handler (misa_h : bool) (hgatp source_hart funcid : Z) (r : regs) :
    Z + sbi_tlb_info :=
  let hvmid := Z.shiftr (Z.land hgatp HGATP_VMID_MASK) HGATP_VMID_SHIFT in
  if (3 <=? funcid) && (funcid <=? 6) && negb misa_h then inl SBI_ENOTSUPP
  else match funcid with
  | 0 => inr (sbi_tlb_info_init 0 0 0 0 local_fence_i source_hart)
  | 4 => inr (sbi_tlb_info_init (a2 r) (a3 r) 0 0 local_hfence_gvma source_hart)
  | 3 => inr (sbi_tlb_info_init (a2 r) (a3 r) 0 (a4 r) local_hfence_gvma_vmid source_hart)
  | 6 => inr (sbi_tlb_info_init (a2 r) (a3 r) 0 hvmid local_hfence_vvma source_hart)
  | 5 => inr (sbi_tlb_info_init (a2 r) (a3 r) (a4 r) hvmid local_hfence_vvma_asid source_hart)
  | 1 => inr (sbi_tlb_info_init (a2 r) (a3 r) 0 0 local_sfence_vma source_hart)
  | 2 => inr (sbi_tlb_info_init (a2 r) (a3 r) (a4 r) 0 local_sfence_vma_asid source_hart)
  | _ => inl SBI_ENOTSUPP
  end.

(** [sbi_domain_get_assigned_hartmask], on the two words of the mask. *)
Definition mask_word (m b : Z) : Z := u64 (Z.shiftr m (64 * b)).
Definition sbi_domain_get_assigned_hartmask (assigned hbase : Z) : Z :=
  let bword := hbase / 64 in
  let boff := hbase mod 64 in
  let ret := Z.shiftr (mask_word assigned bword) boff in
  if negb (boff =? 0) && (bword + 1 <? SBI_HARTMASK_MAX_BITS / 64)
  then Z.lor ret (u64 (Z.shiftl (Z.land (mask_word assigned (bword + 1)) (Z.shiftl 1 boff - 1))
                                (64 - boff)))
  else ret.

Definition SBI_HSM_STATE_STARTED : Z := 0.
Definition SBI_HSM_STATE_SUSPENDED : Z := 4.

Section Targets.
(** The harts of the caller's domain, the state of each hart
    ([__sbi_hsm_hart_get_state]) and [sbi_scratch_last_hartid()]. *)
Variables (assigned : Z) (hstate : Z -> Z) (last_hartid : Z).

Definition interruptible (i : Z) : bool :=
  (hstate i =? SBI_HSM_STATE_STARTED) || (hstate i =? SBI_HSM_STATE_SUSPENDED).

(** The loop over [[i, hend)]; [k] harts are left. *)
Fixpoint interruptible_loop (dmask hbase i : Z) (k : nat) (out : Z) : Z :=
  match k with
  | O => out
  | S k' =>
      let hmask := Z.shiftl 1 (i - hbase) in
      interruptible_loop dmask hbase (i + 1) k'
        (if negb (Z.land dmask hmask =? 0) && interruptible i then Z.lor out hmask else out)
  end.

Definition sbi_hsm_hart_interruptible_mask (hbase : Z) : Z + Z :=
  let hend := last_hartid + 1 in
  if hend <=? hbase then inl SBI_EINVAL
  else
    let hend := if 64 <? hend - hbase then hbase + 64 else hend in
    inr (interruptible_loop (sbi_domain_get_assigned_hartmask assigned hbase) hbase hbase
           (Z.to_nat (hend - hbase)) 0).

(** [for (i = hbase; m; i++, m >>= 1) if (m & 1) sbi_ipi_send(..., i, ...)]: the
    harts it sends to. A 64-bit mask takes 64 rounds. *)
Fixpoint send_loop (k : nat) (i m : Z) : list Z :=
  match k with
  | O => []
  | S k' => if m =? 0 then []
            else (if Z.testbit m 0 then [i] else []) ++ send_loop k' (i + 1) (Z.shiftr m 1)
  end.

(** The loop over blocks of 64 harts, when all harts are asked for. *)
Fixpoint send_all (k : nat) (hbase : Z) : list Z :=
  match k with
  | O => []
  | S k' => match sbi_hsm_hart_interruptible_mask hbase with
            | inl _ => []
            | inr m => send_loop 64 hbase m ++ send_all k' (hbase + 64)
            end
  end.

(** [sbi_ipi_send_many]: the harts it sends to, in order, or its error. *)
Definition sbi_ipi_send_many (hmask hbase : Z) : Z + list Z :=
  if negb (hbase =? 2 ^ 64 - 1) then
    match sbi_hsm_hart_interruptible_mask hbase with
    | inl rc => inl rc
    | inr m => inr (send_loop 64 hbase (Z.land m hmask))
    end
  else inr (send_all (Z.to_nat (last_hartid / 64 + 2)) 0).

End Targets.

(** ** What a request asks for

    A translation that a hart may cache: a supervisor one, a guest physical one, a
    virtual supervisor one, or the instructions fetched. *)
Inductive target :=
  | TS (asid va : Z)
  | TG (vmid gpa : Z)
  | TV (vmid asid va : Z)
  | TI.

(** The translations a fence removes, in pages of 4KB; [hfence.gvma] takes its
    address divided by four. *)
Definition same_page (a : option Z) (va : Z) : bool :=
  match a with None => true | Some a => Z.shiftr a PAGE_SHIFT =? Z.shiftr va PAGE_SHIFT end.
Definition same_id (a : option Z) (id : Z) : bool :=
  match a with None => true | Some a => a =? id end.
Definition same_gpage (a : option Z) (gpa : Z) : bool :=
  match a with None => true | Some a => Z.shiftr a (PAGE_SHIFT - 2) =? Z.shiftr gpa PAGE_SHIFT end.

Definition fence_hits (f : fence) (x : target) : bool :=
  match f, x with
  | SFENCE_VMA va a, TS a' va' => same_page va va' && same_id a a'
  | HFENCE_GVMA g v, TG v' gpa => same_gpage g gpa && same_id v v'
  | HFENCE_VVMA hgatp va a, TV v' a' va' =>
      (Z.shiftr (Z.land hgatp HGATP_VMID_MASK) HGATP_VMID_SHIFT =? v') && same_page va va' && same_id a a'
  | FENCE_I, TI => true
  | _, _ => false
  end.

Definition flushed (fs : list fence) (x : target) : bool := existsb (fun f => fence_hits f x) fs.

(** The addresses of a request: all of them when [start] and [size] are zero or
    [size] is the greatest number, otherwise [[start, start + size)]. *)
Definition whole (t : sbi_tlb_info) : bool :=
  ((start t =? 0) && (size t =? 0)) || (size t =? SBI_TLB_FLUSH_ALL).
Definition in_range (t : sbi_tlb_info) (a : Z) : bool :=
  whole t || ((start t <=? a) && (a <? start t + size t)).

Definition requested (t : sbi_tlb_info) (x : target) : bool :=
  match local_fn t, x with
  | local_sfence_vma, TS _ va => in_range t va
  | local_sfence_vma_asid, TS a va => (asid t =? a) && in_range t va
  | local_hfence_gvma, TG _ gpa => in_range t gpa
  | local_hfence_gvma_vmid, TG v gpa => (vmid t =? v) && in_range t gpa
  | local_hfence_vvma, TV v _ va => (vmid t =? v) && in_range t va
  | local_hfence_vvma_asid, TV v a va => (vmid t =? v) && (asid t =? a) && in_range t va
  | local_fence_i, TI => true
  | _, _ => false
  end.

(** A request whose range starts at a page, does not reach the end of the address
    space and ends the loop of the flush; [vmid] fits its field. *)
Record range_ok (t : sbi_tlb_info) : Prop := {
  ok_page : start t mod PAGE_SIZE = 0;
  ok_start : 0 <= start t;
  ok_size : 0 <= size t;
  ok_end : start t + size t < 2 ^ 64;
  ok_loop : size t <= 2 ^ 64 - PAGE_SIZE \/ size t = SBI_TLB_FLUSH_ALL;
  ok_vmid : 0 <= vmid t < 2 ^ 14 }.

Lemma flush_loop_spec fuel f st sz : forall i, 0 <= i -> sz <= 2 ^ 64 - PAGE_SIZE ->
  sz - i < Z.of_nat fuel * PAGE_SIZE ->
  exists fs, flush_loop fuel f st sz i = Some fs /\
    forall j, 0 <= j -> i + PAGE_SIZE * j < sz -> In (f (u64 (st + (i + PAGE_SIZE * j)))) fs.
Proof.
  unfold PAGE_SIZE. induction fuel as [|k IH]; intros i Hi Hsz Hf; simpl.
  { destruct (Z.ltb_spec i sz); [lia|]. exists []. split; [done|]. intros. lia. }
  destruct (Z.ltb_spec i sz) as [Hlt|Hge].
  - unfold PAGE_SIZE. rewrite (wrap_small 64 (i + 4096)) by lia.
    destruct (IH (i + 4096)) as (fs & -> & H); [lia|done|lia|]. simpl.
    eexists. split; [done|]. intros j Hj Hlt'. destruct (decide (j = 0)) as [->|].
    + left. do 2 f_equal. lia.
    + right. replace (i + 4096 * j) with (i + 4096 + 4096 * (j - 1)) by lia. apply H; lia.
  - exists []. split; [done|]. intros. lia.
Qed.

(** The loop of a request executes a fence for the page of each address. *)
Lemma flush_range_spec f t : range_ok t -> size t <> SBI_TLB_FLUSH_ALL ->
  exists fs, flush_range f t = Some fs /\
    forall a, start t <= a < start t + size t ->
      exists b, In (f b) fs /\ 0 <= b < 2 ^ 64 /\ Z.shiftr b PAGE_SHIFT = Z.shiftr a PAGE_SHIFT.
Proof.
  intros [Hp Hs Hz He [Hl|Hl] _] Hn; [|done]. unfold flush_range.
  destruct (flush_loop_spec (Z.to_nat (size t / PAGE_SIZE + 1)) f (start t) (size t) 0) as (fs & E & H);
    [lia|done| |].
  { unfold PAGE_SIZE. pose proof (Z.div_pos (size t) 4096).
    rewrite Z2Nat.id by lia. Z.to_euclidean_division_equations. lia. }
  exists fs. split; [done|]. intros a Ha.
  specialize (H ((a - start t) / PAGE_SIZE)). unfold PAGE_SIZE, PAGE_SHIFT in *.
  set (j := (a - start t) / 4096) in *.
  assert (0 <= j /\ 4096 * j <= a - start t < 4096 * j + 4096) as [Hj1 Hj2].
  { subst j. Z.to_euclidean_division_equations. lia. }
  exists (u64 (start t + (0 + 4096 * j))). split; [apply H; lia|]. rewrite wrap_small by lia.
  split; [lia|]. rewrite !Z.shiftr_div_pow2 by lia. change (2 ^ 12) with 4096.
  Z.to_euclidean_division_equations. lia.
Qed.

Lemma flushed_one f x : flushed [f] x = fence_hits f x.
Proof. unfold flushed. simpl. apply orb_false_r. Qed.

Lemma flushed_in f fs x : In f fs -> fence_hits f x = true -> flushed fs x = true.
Proof. intros. apply existsb_exists. by exists f. Qed.

(** The field of [hgatp] that a virtual supervisor fence is executed with. *)
Lemma hgatp_vmid v : 0 <= v < 2 ^ 14 ->
  Z.shiftr (Z.land (Z.land (u64 (Z.shiftl v HGATP_VMID_SHIFT)) HGATP_VMID_MASK) HGATP_VMID_MASK)
    HGATP_VMID_SHIFT = v.
Proof.
  intros Hv. unfold HGATP_VMID_SHIFT.
  change HGATP_VMID_MASK with (Z.shiftl (Z.ones 14) 44).
  rewrite wrap_small by (rewrite Z.shiftl_mul_pow2 by lia; lia).
  rewrite <- !Z.shiftl_land, Z.shiftr_shiftl_l, Z.sub_diag, Z.shiftl_0_r by lia.
  rewrite !Z.land_ones by lia. rewrite !Z.mod_small by (rewrite ?Z.mod_small; lia). done.
Qed.

Lemma gpage_shift b : Z.shiftr (Z.shiftr b 2) (PAGE_SHIFT - 2) = Z.shiftr b PAGE_SHIFT.
Proof. unfold PAGE_SHIFT. rewrite Z.shiftr_shiftr by lia. done. Qed.

Definition address (x : target) : Z :=
  match x with TS _ va => va | TG _ gpa => gpa | TV _ _ va => va | TI => 0 end.

(** The common shape of the functions: one fence for everything, one for all
    addresses, or a fence for each page. *)
Lemma local_body_spec t (hgatp : Z) (fz fa : fence) (f : Z -> fence) : range_ok t ->
  (forall x, requested t x = true ->
     in_range t (address x) = true /\ fence_hits fz x = true /\ fence_hits fa x = true /\
     forall b, Z.shiftr b PAGE_SHIFT = Z.shiftr (address x) PAGE_SHIFT -> fence_hits (f b) x = true) ->
  exists fs,
    (if (start t =? 0) && (size t =? 0) then Some ([fz], hgatp)
     else if size t =? SBI_TLB_FLUSH_ALL then Some ([fa], hgatp)
     else fs ← flush_range f t; Some (fs, hgatp)) = Some (fs, hgatp) /\
    forall x, requested t x = true -> flushed fs x = true.
Proof.
  intros Hok Hx. unfold in_range, whole in Hx. destruct (_ && _).
  { eexists. split; [done|]. intros x Rx. rewrite flushed_one. by apply Hx. }
  destruct (Z.eqb_spec (size t) SBI_TLB_FLUSH_ALL) as [|Hn].
  { eexists. split; [done|]. intros x Rx. rewrite flushed_one. by apply Hx. }
  destruct (flush_range_spec f t Hok Hn) as (fs & -> & H). exists fs. split; [done|].
  simpl in Hx. intros x Rx. destruct (Hx x Rx) as (Ha & _ & _ & Hp).
  destruct (H (address x)) as (b & Hb & _ & E); [lia|].
  eapply flushed_in; [done|]. by apply Hp.
Qed.

Lemma if_orb {A} (a b : bool) (x y : A) : (if a || b then x else y) = if a then x else if b then x else y.
Proof. by destruct a. Qed.

(** Evaluates what a fence of the function of [t] does to a translation that the
    request asks for. *)
Ltac solve_hits :=
  repeat match goal with
  | H : andb _ _ = true |- _ => apply andb_true_iff in H as [? ?]
  | H : Z.eqb _ _ = true |- _ => apply Z.eqb_eq in H
  end; subst; cbn [address fence_hits same_page same_id same_gpage andb] in *;
  try assumption; rewrite ?hgatp_vmid, ?gpage_shift by assumption;
  repeat match goal with H : Z.shiftr ?b _ = _ |- context [Z.shiftr ?b _] => rewrite H end;
  rewrite ?Z.eqb_refl; reflexivity.

(** The function of a request does what the request asks for. *)
Lemma local_fn_flushes t hgatp : range_ok t ->
  exists fs, call_local_fn t hgatp = Some (fs, hgatp) /\
    forall x, requested t x = true -> flushed fs x = true.
Proof.
  intros Hok. pose proof (ok_vmid t Hok) as Hv.
  unfold call_local_fn, sbi_tlb_local_hfence_vvma, sbi_tlb_local_hfence_gvma,
    sbi_tlb_local_sfence_vma, sbi_tlb_local_hfence_vvma_asid, sbi_tlb_local_hfence_gvma_vmid,
    sbi_tlb_local_sfence_vma_asid, sbi_tlb_local_fence_i.
  rewrite !if_orb.
  destruct (local_fn t) eqn:Efn;
    try (apply local_body_spec; [assumption|]; unfold requested; rewrite Efn;
         intros [] Hx; try discriminate Hx; repeat split; intros; solve_hits).
  exists [FENCE_I]. split; [done|]. unfold requested. rewrite Efn. by intros [].
Qed.

(** ** Merging *)
Definition covers (e t : sbi_tlb_info) : Prop :=
  forall x, requested t x = true -> requested e x = true.

#[export] Instance covers_preorder : PreOrder covers.
Proof. split; [by intros t x|]. intros a b c H1 H2 x Hx. auto. Qed.

(** Requests of the two kinds that are merged ask for all addresses with [size]
    alone. *)
Definition mergeable (t : sbi_tlb_info) : bool :=
  bool_decide (local_fn t = local_sfence_vma) || bool_decide (local_fn t = local_sfence_vma_asid).
Definition entry_ok (t : sbi_tlb_info) : Prop :=
  range_ok t /\ (mergeable t = true -> start t <> 0 \/ size t <> 0).

Lemma covers_range e t : local_fn e = local_fn t -> (mergeable t = true \/ vmid e = vmid t) ->
  (local_fn t = local_sfence_vma \/ asid e = asid t) ->
  (forall a, in_range t a = true -> in_range e a = true) -> covers e t.
Proof.
  unfold mergeable. intros Hf Hv Ha Hr x. unfold requested. rewrite Hf.
  destruct (local_fn t), x; intros Hx; try done; auto;
    (destruct Ha as [Ha|Ha]; [try done|rewrite ?Ha]);
    (destruct Hv as [Hv|Hv]; [try done|rewrite ?Hv]);
    repeat (apply andb_true_iff in Hx as [Hx ?]); rewrite ?andb_true_iff; auto.
Qed.

(** What a verdict of the merge guarantees. *)
Definition merged (r : sbi_fifo_inplace_update_types) (curr next curr' : sbi_tlb_info) : Prop :=
  match r with
  | SBI_FIFO_UNCHANGED => curr' = curr
  | _ => entry_ok curr' /\ smask curr' = Z.lor (smask curr) (smask next) /\
         covers curr' curr /\ covers curr' next
  end.

Lemma in_range_sub t e : range_ok t -> range_ok e -> (start t <> 0 \/ size t <> 0) ->
  start e <= start t -> start t + size t <= start e + size e ->
  forall a, in_range t a = true -> in_range e a = true.
Proof.
  intros [] [] Hz Hs He a. unfold in_range, whole, SBI_TLB_FLUSH_ALL.
  rewrite !orb_true_iff, !andb_true_iff. lia.
Qed.

Lemma tlb_range_check_correct curr next : entry_ok curr -> entry_ok next ->
  mergeable curr = true -> local_fn next = local_fn curr ->
  (local_fn curr = local_sfence_vma \/ asid next = asid curr) ->
  match tlb_range_check curr next with (r, curr') => merged r curr next curr' end.
Proof.
  intros [Hc Hcz] [Hn Hnz] Hm Hf Ha.
  assert (mergeable next = true) as Hm' by (unfold mergeable in *; by rewrite Hf).
  specialize (Hcz Hm). specialize (Hnz Hm'). pose proof Hc as []. pose proof Hn as [].
  unfold tlb_range_check. rewrite !wrap_small by lia.
  destruct ((start next <=? start curr) && _) eqn:E1.
  - set (c' := mk_tlb _ _ _ _ _ _). assert (range_ok c') as Hok by (split; simpl; lia || done).
    split; [done|]. split; [done|].
    split; apply covers_range; simpl; try done; try tauto.
    + apply in_range_sub; simpl; done || lia.
    + destruct Ha as [Ha|Ha]; [left; congruence|right; done].
  - destruct ((start curr <=? start next) && _) eqn:E2; [|done].
    split; [done|]. split; [done|]. split.
    + apply covers_range; simpl; tauto || done.
    + apply covers_range; simpl; try done; [by left| |].
      * destruct Ha as [Ha|Ha]; [left; congruence|by right].
      * apply (in_range_sub next curr); done || lia.
Qed.

Lemma tlb_update_cb_merges next curr : entry_ok curr -> entry_ok next ->
  match tlb_update_cb next curr with (r, curr') => merged r curr next curr' end.
Proof.
  intros Hc Hn. unfold tlb_update_cb.
  destruct (local_fn next) eqn:En, (local_fn curr) eqn:Ec; simpl; try done.
  - apply tlb_range_check_correct; auto; [|congruence]. unfold mergeable. by rewrite Ec.
  - destruct (Z.eqb_spec (asid next) (asid curr)); [|done].
    apply tlb_range_check_correct; auto; [|congruence]. unfold mergeable. by rewrite Ec.
Qed.

Lemma tlb_update_cb_unchanged t c c' :
  tlb_update_cb t c = (SBI_FIFO_UNCHANGED, c') -> c' = c.
Proof.
  unfold tlb_update_cb, tlb_range_check. intros H.
  repeat match type of H with context [if ?b then _ else _] => destruct b end; by simplify_eq.
Qed.

(** The queue after a merge: as before, or with one entry that has absorbed the
    request. *)
Lemma update_list_split t l :
  match update_list (tlb_update_cb t) l with
  | (SBI_FIFO_UNCHANGED, l') => l' = l
  | (ret, l') => exists l1 c c' l2, l = l1 ++ c :: l2 /\ l' = l1 ++ c' :: l2 /\
                                    tlb_update_cb t c = (ret, c')
  end.
Proof.
  induction l as [|c l IH]; [done|]. simpl. destruct (tlb_update_cb t c) as [ret c'] eqn:E.
  destruct ret; [by exists [], c, c', l|by exists [], c, c', l|].
  apply tlb_update_cb_unchanged in E as ->. destruct (update_list (tlb_update_cb t) l) as [r l'].
  destruct r; [| |by subst]; destruct IH as (l1 & d & d' & l2 & -> & -> & ?); by exists (c :: l1), d, d', l2.
Qed.

(** C30. A well-formed request ([entry_ok]: it starts at a page, ends below the top of the
    address space, names a VM that fits its field, and, for the two kinds that are merged,
    does not have both [start] and [size] zero) that is merged into a queue of well-formed
    entries, or dropped because of one of them, is not lost: one entry changes, and it asks
    then for everything that it and the request asked for, with the harts that wait for
    either in its mask; it is well-formed again; otherwise the queue is as it was. The two
    theorems below are requests that are lost because they are not well-formed. *)
Theorem tlb_merge_correct t f : fifo_wf f -> Forall entry_ok (fifo_abs f) -> entry_ok t ->
  match sbi_fifo_inplace_update (tlb_update_cb t) f with
  | (SBI_FIFO_UNCHANGED, f') => fifo_abs f' = fifo_abs f
  | (_, f') => exists l1 c c' l2, fifo_abs f = l1 ++ c :: l2 /\ fifo_abs f' = l1 ++ c' :: l2 /\
      entry_ok c' /\ smask c' = Z.lor (smask c) (smask t) /\ covers c' c /\ covers c' t
  end.
Proof.
  intros Hf Hl Ht. pose proof (sbi_fifo_inplace_update_abs (tlb_update_cb t) f Hf) as H.
  pose proof (update_list_split t (fifo_abs f)) as Hs.
  destruct (sbi_fifo_inplace_update _ f) as [ret f']. destruct H as (_ & _ & H). rewrite <- H in Hs.
  assert (forall c c', c ∈ fifo_abs f -> tlb_update_cb t c = (ret, c') -> merged ret c t c') as Hm.
  { intros c c' Hin E. rewrite Forall_forall in Hl.
    pose proof (tlb_update_cb_merges t c (Hl c Hin) Ht) as Hm. by rewrite E in Hm. }
  destruct ret; [| |done]; destruct Hs as (l1 & c & c' & l2 & E1 & E2 & Ec); exists l1, c, c', l2;
    (split; [done|]); (split; [done|]); (apply (Hm c c'); [rewrite E1; set_solver|done]).
Qed.

(** The entry that stays queued when a flush of all addresses, written with
    [start] and [size] zero, meets a range that starts at 0: the flush of all
    addresses is lost, whichever of the two came first. *)
Theorem tlb_range_check_loses_flush_all :
  let all := mk_tlb 0 0 0 0 local_sfence_vma 1 in
  let page := mk_tlb 0 4096 0 0 local_sfence_vma 2 in
  tlb_range_check page all = (SBI_FIFO_SKIP, mk_tlb 0 4096 0 0 local_sfence_vma 3) /\
  tlb_range_check all page = (SBI_FIFO_UPDATED, mk_tlb 0 4096 0 0 local_sfence_vma 3) /\
  requested all (TS 0 4096) = true /\
  requested (mk_tlb 0 4096 0 0 local_sfence_vma 3) (TS 0 4096) = false.
Proof. repeat split; reflexivity. Qed.

(** The end of a range that reaches the end of the address space is zero, and the
    request for the last page is dropped when any lower range is queued. *)
Theorem tlb_range_check_loses_last_page :
  let last := mk_tlb (2 ^ 64 - 4096) 4096 0 0 local_sfence_vma 1 in
  let page := mk_tlb 0x1000 4096 0 0 local_sfence_vma 2 in
  tlb_range_check page last = (SBI_FIFO_SKIP, mk_tlb 0x1000 4096 0 0 local_sfence_vma 3) /\
  requested last (TS 0 (2 ^ 64 - 1)) = true /\
  requested (mk_tlb 0x1000 4096 0 0 local_sfence_vma 3) (TS 0 (2 ^ 64 - 1)) = false.
Proof. repeat split; reflexivity. Qed.

(** A range that does not start at a page and crosses into the next one: the
    second page is not flushed. *)
Theorem flush_unaligned_misses :
  let t := mk_tlb 0x1800 0x1000 0 0 local_sfence_vma 1 in
  call_local_fn t 0 = Some ([SFENCE_VMA (Some 0x1800) None], 0) /\
  requested t (TS 0 0x2000) = true /\
  flushed [SFENCE_VMA (Some 0x1800) None] (TS 0 0x2000) = false.
Proof. repeat split; reflexivity. Qed.

Lemma tlb_limit_covers lim t : covers (tlb_limit lim t) t.
Proof.
  unfold tlb_limit. destruct (lim <? size t); [|done].
  apply covers_range; simpl; try done; by right.
Qed.

(** A request the merge handles: its range is too long and becomes a flush of
    everything, or it is well-formed. *)
Definition request_ok (lim : Z) (t : sbi_tlb_info) : Prop :=
  (lim < size t /\ 0 <= vmid t < 2 ^ 14) \/ entry_ok t.

Lemma tlb_limit_ok lim t : request_ok lim t -> entry_ok (tlb_limit lim t).
Proof.
  unfold tlb_limit. destruct (Z.ltb_spec lim (size t)) as [Hl|Hl].
  - intros Ht. assert (0 <= vmid t < 2 ^ 14) as Hv by (destruct Ht as [[_ ?]|[[] _]]; done).
    split; [|by right]. unfold SBI_TLB_FLUSH_ALL. split; simpl; try lia; [done|by right].
  - intros [[? _]|?]; [lia|done].
Qed.

(** The function of a request, executed on the target hart, ends, removes from
    the hart every translation that the request asks for, whatever its kind and
    also when its range is too long and has been widened, and restores [hgatp]. *)
Theorem tlb_request_flushed lim t hgatp : request_ok lim t ->
  exists fs, call_local_fn (tlb_limit lim t) hgatp = Some (fs, hgatp) /\
    forall x, requested t x = true -> flushed fs x = true.
Proof.
  intros Ht. destruct (tlb_limit_ok lim t Ht) as [Hok _].
  destruct (local_fn_flushes _ hgatp Hok) as (fs & E & H). exists fs. split; [done|].
  intros x Hx. by apply H, tlb_limit_covers.
Qed.

(** ** Targets *)
Lemma filter_ext_in {A} (P Q : A -> Prop) `{!forall x, Decision (P x)} `{!forall x, Decision (Q x)} (l : list A) :
  (forall x, x ∈ l -> P x <-> Q x) -> filter P l = filter Q l.
Proof.
  induction l as [|a l IH]; intros Hl; [done|]. rewrite !filter_cons.
  rewrite IH by (intros; apply Hl; by constructor).
  specialize (Hl a ltac:(by constructor)). do 2 case_decide; tauto || done.
Qed.

Lemma filter_none {A} (P : A -> Prop) `{!forall x, Decision (P x)} (l : list A) :
  (forall x, x ∈ l -> ~ P x) -> filter P l = [].
Proof.
  intros Hl. induction l as [|a l IH]; [done|]. rewrite filter_cons_False.
  - apply IH. intros. apply Hl. by constructor.
  - apply Hl. by constructor.
Qed.

Lemma mask_word_testbit m b i : 0 <= i < 64 -> 0 <= b ->
  Z.testbit (mask_word m b) i = Z.testbit m (64 * b + i).
Proof.
  intros. unfold mask_word. rewrite wrap_testbit, Z.shiftr_spec by lia.
  destruct (Z.ltb_spec i 64); [|lia]. simpl. f_equal. lia.
Qed.

Lemma testbit_high n m i : 0 <= m < 2 ^ n -> 0 <= n <= i -> Z.testbit m i = false.
Proof.
  intros Hm Hi. rewrite <- (wrap_small n m Hm), wrap_testbit by lia.
  by destruct (Z.ltb_spec i n); [lia|].
Qed.

Lemma mask_word_high m b i : 64 <= i -> Z.testbit (mask_word m b) i = false.
Proof. intros. unfold mask_word. rewrite wrap_testbit by lia. by destruct (Z.ltb_spec i 64); [lia|]. Qed.

Lemma assigned_testbit m hbase i :
  0 <= m < 2 ^ SBI_HARTMASK_MAX_BITS -> 0 <= hbase < SBI_HARTMASK_MAX_BITS -> 0 <= i < 64 ->
  Z.testbit (sbi_domain_get_assigned_hartmask m hbase) i = Z.testbit m (hbase + i).
Proof.
  unfold SBI_HARTMASK_MAX_BITS. intros Hm Hb Hi. unfold sbi_domain_get_assigned_hartmask.
  assert (hbase = 64 * (hbase / 64) + hbase mod 64) as Eb by (apply Z.div_mod; lia).
  assert (0 <= hbase mod 64 < 64) as Ho by (apply Z.mod_pos_bound; lia).
  assert (0 <= hbase / 64 <= 1) as Hw by (Z.to_euclidean_division_equations; lia).
  set (w := hbase / 64) in *. set (o := hbase mod 64) in *. rewrite Eb.
  change (SBI_HARTMASK_MAX_BITS / 64) with 2.
  assert (Z.testbit (Z.shiftr (mask_word m w) o) i =
          if i + o <? 64 then Z.testbit m (64 * w + o + i) else false) as Elow.
  { rewrite Z.shiftr_spec by lia. destruct (Z.ltb_spec (i + o) 64).
    - rewrite mask_word_testbit by lia. f_equal. lia.
    - by rewrite mask_word_high by lia. }
  destruct (negb (o =? 0) && (w + 1 <? 2)) eqn:Ec.
  - rewrite Z.lor_spec, Elow, wrap_testbit, Z.shiftl_spec, Z.land_spec by lia.
    change (Z.shiftl 1 o - 1) with (Z.pred (Z.shiftl 1 o)). rewrite Z.shiftl_1_l, <- Z.ones_equiv.
    rewrite Z.testbit_ones by lia. destruct (Z.ltb_spec i 64); [|lia]. simpl.
    destruct (Z.ltb_spec (i + o) 64).
    + destruct (Z.leb_spec 0 (i - (64 - o))); [lia|]. by rewrite andb_false_r, orb_false_r.
    + rewrite mask_word_testbit by lia. destruct (Z.leb_spec 0 (i - (64 - o))); [|lia].
      destruct (Z.ltb_spec (i - (64 - o)) o); [|lia]. rewrite andb_true_r. simpl. f_equal. lia.
  - rewrite Elow. destruct (Z.ltb_spec (i + o) 64); [done|]. symmetry.
    apply (testbit_high 128); lia.
Qed.

Lemma single_bit_test d k : 0 <= k -> negb (Z.land d (Z.shiftl 1 k) =? 0) = Z.testbit d k.
Proof.
  intros Hk. rewrite Z.shiftl_1_l. destruct (Z.testbit d k) eqn:E.
  - apply negb_true_iff, Z.eqb_neq. intros H. apply (f_equal (fun z => Z.testbit z k)) in H.
    rewrite Z.land_spec, E, Z.pow2_bits_true, Z.bits_0 in H by done. done.
  - apply negb_false_iff, Z.eqb_eq, Z.bits_inj'. intros i Hi.
    rewrite Z.land_spec, Z.pow2_bits_eqb, Z.bits_0 by done.
    destruct (Z.eqb_spec k i) as [<-|]; [by rewrite E|apply andb_false_r].
Qed.

Section TargetProofs.
Context (assigned : Z) (hstate : Z -> Z) (last_hartid : Z).
Hypothesis Hassigned : 0 <= assigned < 2 ^ SBI_HARTMASK_MAX_BITS.
Hypothesis Hlast : 0 <= last_hartid < SBI_HARTMASK_MAX_BITS.

(** A hart that may be sent to. *)
Definition eligible (h : Z) : bool :=
  (h <=? last_hartid) && Z.testbit assigned h && interruptible hstate h.

Lemma interruptible_loop_testbit dmask hbase k : forall i out j, hbase <= i -> 0 <= j ->
  Z.testbit (interruptible_loop hstate dmask hbase i k out) j =
  Z.testbit out j || ((i - hbase <=? j) && (j <? i - hbase + Z.of_nat k)
                      && Z.testbit dmask j && interruptible hstate (hbase + j)).
Proof.
  induction k as [|k IH]; intros i out j Hi Hj; cbn [interruptible_loop].
  - destruct (Z.leb_spec (i - hbase) j), (Z.ltb_spec j (i - hbase + Z.of_nat 0));
      try lia; by rewrite orb_false_r.
  - rewrite IH, single_bit_test by lia. destruct (decide (j = i - hbase)) as [->|Hne].
    + replace (hbase + (i - hbase)) with i by lia.
      destruct (Z.leb_spec (i + 1 - hbase) (i - hbase)); [lia|].
      destruct (Z.leb_spec (i - hbase) (i - hbase)); [|lia].
      destruct (Z.ltb_spec (i - hbase) (i - hbase + Z.of_nat (S k))); [|lia]. simpl.
      rewrite orb_false_r. destruct (_ && _); [|by rewrite orb_false_r].
      rewrite Z.lor_spec, Z.shiftl_1_l, Z.pow2_bits_true by lia. done.
    + assert (forall b : bool, Z.testbit (if b then Z.lor out (Z.shiftl 1 (i - hbase)) else out) j
                        = Z.testbit out j) as ->.
      { intros []; [|done]. rewrite Z.lor_spec, Z.shiftl_1_l, Z.pow2_bits_false by lia.
        apply orb_false_r. }
      do 3 f_equal. f_equal; zbool; lia.
Qed.

Lemma interruptible_mask_testbit hbase : 0 <= hbase ->
  match sbi_hsm_hart_interruptible_mask assigned hstate last_hartid hbase with
  | inl rc => rc = SBI_EINVAL /\ last_hartid < hbase
  | inr m => hbase <= last_hartid /\ forall j, 0 <= j ->
      Z.testbit m j = (j <? 64) && eligible (hbase + j)
  end.
Proof.
  intros Hb. unfold sbi_hsm_hart_interruptible_mask, SBI_HARTMASK_MAX_BITS in *.
  destruct (Z.leb_spec (last_hartid + 1) hbase); [split; [done|lia]|]. split; [lia|].
  intros j Hj. rewrite interruptible_loop_testbit, Z.bits_0, Z.sub_diag by lia.
  rewrite orb_false_l. unfold eligible. 
  match goal with |- context [Z.to_nat (?e - hbase)] => set (hend := e) end.
  rewrite Z2Nat.id by (subst hend; zbool; lia).
  assert (((0 <=? j) && (j <? 0 + (hend - hbase))) = (j <? 64) && (hbase + j <=? last_hartid)) as ->.
  { subst hend. destruct (Z.ltb_spec 64 (last_hartid + 1 - hbase)); zbool; lia || done. }
  destruct (Z.ltb_spec j 64); [|done]. rewrite assigned_testbit by (unfold SBI_HARTMASK_MAX_BITS; lia).
  simpl. by rewrite <- andb_assoc.
Qed.

Lemma send_loop_filter k : forall i m, 0 <= m < 2 ^ Z.of_nat k ->
  send_loop k i m = filter (fun h => Z.testbit m (h - i) = true) (seqZ i (Z.of_nat k)).
Proof.
  induction k as [|k IH]; intros i m Hm; [done|]. cbn [send_loop].
  destruct (Z.eqb_spec m 0) as [->|Hne].
  { symmetry. apply filter_none. intros x _. by rewrite Z.bits_0. }
  rewrite seqZ_cons, filter_cons, Z.sub_diag by lia.
  rewrite IH.
  - replace (Z.pred (Z.of_nat (S k))) with (Z.of_nat k) by lia.
    assert (filter (fun h => Z.testbit (Z.shiftr m 1) (h - (i + 1)) = true) (seqZ (i + 1) (Z.of_nat k))
            = filter (fun h => Z.testbit m (h - i) = true) (seqZ (Z.succ i) (Z.of_nat k))) as ->.
    { apply filter_ext_in. intros x Hx. apply elem_of_seqZ in Hx.
      rewrite Z.shiftr_spec by lia. replace (x - (i + 1) + 1) with (x - i) by lia. done. }
    destruct (Z.testbit m 0); by case_decide.
  - rewrite Nat2Z.inj_succ, Z.pow_succ_r in Hm by lia. rewrite Z.shiftr_div_pow2 by lia.
    change (2 ^ 1) with 2. Z.to_euclidean_division_equations. lia.
Qed.

Lemma mask_range m : (forall j, 64 <= j -> Z.testbit m j = false) -> u64 m = m.
Proof.
  intros H. apply Z.bits_inj'. intros j Hj. rewrite wrap_testbit by lia.
  destruct (Z.ltb_spec j 64); [done|]. by rewrite H.
Qed.

(** The harts of [[hbase, hbase + 64)] that [m] has and that may be sent to. *)
Lemma send_loop_eligible hbase m (P : Z -> bool) :
  (forall j, 0 <= j -> Z.testbit m j = (j <? 64) && P (hbase + j)) ->
  send_loop 64 hbase m = filter (fun h => P h = true) (seqZ hbase 64).
Proof.
  intros Hm. assert (0 <= m < 2 ^ 64) as Hr.
  { rewrite <- (mask_range m); [apply wrap_range; lia|]. intros j Hj. rewrite Hm by lia.
    by destruct (Z.ltb_spec j 64); [lia|]. }
  rewrite send_loop_filter by done. apply filter_ext_in. intros x Hx.
  apply elem_of_seqZ in Hx. rewrite Hm by lia. destruct (Z.ltb_spec (x - hbase) 64); [|lia].
  simpl. by replace (hbase + (x - hbase)) with x by lia.
Qed.

Lemma send_all_filter k : forall hbase, 0 <= hbase -> last_hartid < hbase + 64 * Z.of_nat k ->
  send_all assigned hstate last_hartid k hbase =
  filter (fun h => eligible h = true) (seqZ hbase (64 * Z.of_nat k)).
Proof.
  induction k as [|k IH]; intros hbase Hb Hk; [done|]. cbn [send_all].
  pose proof (interruptible_mask_testbit hbase Hb) as Hm.
  destruct (sbi_hsm_hart_interruptible_mask _ _ _ hbase) as [rc|m].
  - symmetry. apply filter_none. intros x Hx%elem_of_seqZ. unfold eligible.
    by destruct (Z.leb_spec x last_hartid); [lia|].
  - destruct Hm as [_ Hm]. rewrite (send_loop_eligible hbase m eligible Hm), IH by lia.
    replace (64 * Z.of_nat (S k)) with (64 + 64 * Z.of_nat k) by lia.
    by rewrite seqZ_app, filter_app by lia.
Qed.

(** A request is sent to exactly the harts that its mask has, that belong to the
    caller's domain and that are started or suspended, each once and in increasing
    order; with base -1, to all harts of the domain that are; a base past the last
    hart is an error. *)
Theorem sbi_ipi_send_many_targets hmask hbase : 0 <= hmask < 2 ^ 64 -> 0 <= hbase < 2 ^ 64 ->
  sbi_ipi_send_many assigned hstate last_hartid hmask hbase =
  if hbase =? 2 ^ 64 - 1 then inr (filter (fun h => eligible h = true) (seqZ 0 (last_hartid + 1)))
  else if last_hartid <? hbase then inl SBI_EINVAL
  else inr (filter (fun h => eligible h && Z.testbit hmask (h - hbase) = true) (seqZ hbase 64)).
Proof.
  intros Hm Hb. unfold sbi_ipi_send_many. destruct (Z.eqb_spec hbase (2 ^ 64 - 1)) as [->|Hne]; simpl negb.
  - cbv iota. f_equal.
    rewrite send_all_filter; [|lia|Z.to_euclidean_division_equations; lia].
    set (n := 64 * _). assert (last_hartid < n).
    { subst n. Z.to_euclidean_division_equations; lia. }
    replace n with (last_hartid + 1 + (n - last_hartid - 1)) by lia.
    rewrite seqZ_app, filter_app by lia.
    rewrite (filter_none _ (seqZ (0 + _) _)); [apply app_nil_r|].
    intros x Hx%elem_of_seqZ. unfold eligible. by destruct (Z.leb_spec x last_hartid); [lia|].
  - cbv iota. pose proof (interruptible_mask_testbit hbase ltac:(lia)) as H.
    destruct (sbi_hsm_hart_interruptible_mask _ _ _ hbase) as [rc|m].
    + destruct H as [-> H]. by destruct (Z.ltb_spec last_hartid hbase); [|lia].
    + destruct H as [H Hj]. destruct (Z.ltb_spec last_hartid hbase); [lia|]. f_equal.
      apply (send_loop_eligible hbase _ (fun h => eligible h && Z.testbit hmask (h - hbase))).
      intros j Hj0. rewrite Z.land_spec, Hj, <- andb_assoc by done. do 3 f_equal. lia.
Qed.

End TargetProofs.

(** The hypotheses hold for a machine of four harts, hart 3 of another domain and
    hart 1 stopped: a request to all harts of the mask 0b1111 goes to 0 and 2. *)
Lemma sbi_ipi_send_many_targets_witness :
  sbi_ipi_send_many 7 (fun h => if h =? 1 then 1 else 0) 3 15 0 = inr [0; 2].
Proof. by rewrite (sbi_ipi_send_many_targets 7 _ 3 ltac:(done) ltac:(done)). Defined.

(** A request of two pages of an address space, and one that is too long. *)
Lemma tlb_request_flushed_witness :
  (exists fs, call_local_fn (tlb_limit 0x4000 (mk_tlb 0x2000 0x2000 5 0 local_sfence_vma_asid 1)) 0
     = Some (fs, 0) /\ flushed fs (TS 5 0x3fff) = true) /\
  (exists fs, call_local_fn (tlb_limit 0x1000 (mk_tlb 0x2001 0x2000 0 7 local_hfence_vvma 1)) 9
     = Some (fs, 9) /\ flushed fs (TV 7 3 0x3fff) = true).
Proof.
  split.
  - destruct (tlb_request_flushed 0x4000 (mk_tlb 0x2000 0x2000 5 0 local_sfence_vma_asid 1) 0)
      as (fs & E & Hx).
    + right. split; [split; simpl; try (unfold PAGE_SIZE; lia); reflexivity|simpl; lia].
    + exists fs. split; [exact E|apply Hx; reflexivity].
  - destruct (tlb_request_flushed 0x1000 (mk_tlb 0x2001 0x2000 0 7 local_hfence_vvma 1) 9)
      as (fs & E & Hx).
    + left. simpl. lia.
    + exists fs. split; [exact E|apply Hx; reflexivity].
Defined.

Lemma tlb_merge_correct_witness :
  let q := snd (sbi_fifo_enqueue (sbi_fifo_init (mk_tlb 0 0 0 0 local_fence_i 0) 8)
                  (mk_tlb 0x2000 0x1000 0 0 local_sfence_vma 1)) in
  exists l1 c c' l2, fifo_abs q = l1 ++ c :: l2 /\
    fifo_abs (snd (sbi_fifo_inplace_update
      (tlb_update_cb (mk_tlb 0x1000 0x4000 0 0 local_sfence_vma 2)) q)) = l1 ++ c' :: l2 /\
    entry_ok c' /\ smask c' = Z.lor (smask c) 2 /\ covers c' c /\
    covers c' (mk_tlb 0x1000 0x4000 0 0 local_sfence_vma 2).
Proof.
  intros q. refine (tlb_merge_correct (mk_tlb 0x1000 0x4000 0 0 local_sfence_vma 2) q _ _ _).
  - split; vm_compute; split; discriminate || reflexivity.
  - change (fifo_abs q) with [mk_tlb 0x2000 0x1000 0 0 local_sfence_vma 1]. repeat constructor;
      simpl; try (unfold PAGE_SIZE; lia); reflexivity.
  - split; [split; simpl; try (unfold PAGE_SIZE; lia); reflexivity|simpl; lia].
Defined.
