(* ===== verification/SbiShoot.v ===== *)
(** * Remote fences of the firmware: the exchange between harts

    [tlb_update], [tlb_sync], [tlb_process], [tlb_process_count] and
    [tlb_entry_process] of [src/opensbi/lib/sbi/sbi_tlb.c], with the parts of
    [sbi_ipi_send] and [sbi_ipi_process] of [sbi_ipi.c] that call them, on several
    harts at once. A step of a hart is one access to what harts share: an operation
    on a queue (under its lock), an exchange of a word [tlb_sync], an update of
    [ipi_type]. The nested calls of the code are the argument [cont] of a program
    counter. Harts do not take interrupts while in the firmware.

    The proof goes through an abstract protocol ([vstep]) on what matters of each
    hart: the entries queued for it, the harts it has still to notify, its
    [tlb_sync] word and the call it is in. *)

From S2P Require Import Prelude SbiFifo SbiTlb.

(** Events: a call of [sbi_tlb_request] with its targets, the fences executed by a
    hart, and the return of the call. *)
Inductive event :=
  | Call (h : nat) (t : sbi_tlb_info) (targets : list nat)
  | Flush (r : nat) (fs : list fence)
  | Return (h : nat).

(** Where [tlb_process_count] and [tlb_process] return to: the loop of
    [tlb_update], the loop of [tlb_sync], or [sbi_ipi_process] with the events it
    has still to handle. *)
Inductive cont :=
  | KEnq (t : sbi_tlb_info) (r : nat) (rest : list nat)
  | KSync (t : sbi_tlb_info) (r : nat) (rest : list nat)
  | KIpi (ipi_type ipi_event : Z).

Inductive pc :=
  | Smode
  | SendNext (t : sbi_tlb_info) (targets : list nat)
  | Enq (t : sbi_tlb_info) (r : nat) (rest : list nat)
  | SetBit (t : sbi_tlb_info) (r : nat) (rest : list nat)
  | Sync (t : sbi_tlb_info) (r : nat) (rest : list nat)
  | Deq (deq_count : Z) (k : cont)
  | Notify (rem : list nat) (deq_count : Z) (k : cont)
  | Ipi (ipi_type ipi_event : Z).

Record hart := mk_hart {
  hpc : pc; tlb_fifo : sbi_fifo sbi_tlb_info; tlb_sync : Z; ipi_type : Z; hgatp : Z }.
Record state := mk_state { harts : list hart; trace : list event }.

Definition set_pc (p : pc) (x : hart) := mk_hart p (tlb_fifo x) (tlb_sync x) (ipi_type x) (hgatp x).
Definition set_fifo f (x : hart) := mk_hart (hpc x) f (tlb_sync x) (ipi_type x) (hgatp x).
Definition set_sync v (x : hart) := mk_hart (hpc x) (tlb_fifo x) v (ipi_type x) (hgatp x).
Definition set_ipi v (x : hart) := mk_hart (hpc x) (tlb_fifo x) (tlb_sync x) v (hgatp x).
Definition set_hgatp v (x : hart) := mk_hart (hpc x) (tlb_fifo x) (tlb_sync x) (ipi_type x) v.

Definition on (h : nat) (f : hart -> hart) (s : state) : state :=
  mk_state (alter f h (harts s)) (trace s).
Definition goto (h : nat) (p : pc) : state -> state := on h (set_pc p).
Definition emit (e : event) (s : state) : state := mk_state (harts s) (e :: trace s).

Definition resume (k : cont) : pc :=
  match k with
  | KEnq t r rest => Enq t r rest
  | KSync t r rest => Sync t r rest
  | KIpi w ev => Ipi w ev
  end.

(** The events of [sbi_ipi.c] and [sbi_tlb.c], in the order they are created. *)
Definition ipi_smode_event : Z := 0.
Definition tlb_event : Z := 2.

Section Machine.
Variable tlb_range_flush_limit : Z.

(** [sbi_ipi_send] with [tlb_update] for the next target [r]: an unknown hart is
    skipped; the calling hart flushes at once; otherwise the request is merged into
    the queue of [r], or is to be queued. *)
Definition tlb_update (h r : nat) (x : hart) (t : sbi_tlb_info) (rest : list nat) (s : state) :
    option state :=
  match harts s !! r with
  | None => Some (goto h (SendNext t rest) s)
  | Some y =>
      let t' := tlb_limit tlb_range_flush_limit t in
      if decide (r = h) then
        '(fs, g) ← call_local_fn t' (hgatp x);
        Some (emit (Flush h fs) (on h (fun y => set_pc (SendNext t' rest) (set_hgatp g y)) s))
      else
        let (ret, f') := sbi_fifo_inplace_update (tlb_update_cb t') (tlb_fifo y) in
        let s' := on r (set_fifo f') s in
        Some (goto h (if decide (ret = SBI_FIFO_UNCHANGED) then Enq t' r rest
                      else SetBit t' r rest) s')
  end.

(** The head of the loops of [tlb_process_count(scratch, 1)] and [tlb_process]: the
    next entry is taken and its function called, or the loop ends. *)
Definition tlb_dequeue (h : nat) (x : hart) (n : Z) (k : cont) (s : state) : option state :=
  match sbi_fifo_dequeue (tlb_fifo x) with
  | (0, Some e, f') =>
      '(fs, g) ← call_local_fn e (hgatp x);
      let rem := map Z.to_nat (hartmask_harts (smask e)) in
      Some (emit (Flush h fs)
              (on h (fun y => set_pc (Notify rem n k) (set_hgatp g (set_fifo f' y))) s))
  | (0, None, _) => None
  | (_, _, f') => Some (on h (fun y => set_pc (resume k) (set_fifo f' y)) s)
  end.

(** The loop of [tlb_entry_process] over the harts to notify, and the end of the
    body of the calling loop: [tlb_process_count] counts and leaves once the count
    exceeds 1, [tlb_process] does not count. *)
Definition tlb_notify (h : nat) (rem : list nat) (n : Z) (k : cont) (s : state) : state :=
  match rem with
  | x :: rem' =>
      match harts s !! x with
      | None => goto h (Notify rem' n k) s
      | Some y =>
          on x (set_sync 1) (goto h (if tlb_sync y =? 0 then Notify rem' n k else Notify rem n k) s)
      end
  | [] =>
      match k with
      | KIpi _ _ => goto h (Deq n k) s
      | _ => goto h (if 1 <? n + 1 then resume k else Deq (n + 1) k) s
      end
  end.

(** [sbi_ipi_send] after the update: the event is raised for [r]. *)
Definition ipi_set_bit (h r : nat) (t : sbi_tlb_info) (rest : list nat) (s : state) : option state :=
  y ← harts s !! r;
  Some (goto h (Sync t r rest) (on r (set_ipi (Z.lor (ipi_type y) (Z.shiftl 1 tlb_event))) s)).

(** The loop of [tlb_sync]: an exchange, then the queue of the hart is served. *)
Definition tlb_sync_loop (h r : nat) (x : hart) (t : sbi_tlb_info) (rest : list nat) (s : state) : state :=
  let p := if tlb_sync x =? 0 then Deq 0 (KSync t r rest) else SendNext t rest in
  on h (fun y => set_pc p (set_sync 0 y)) s.

(** The loop of [sbi_ipi_process] over the events of the word it has taken. *)
Definition ipi_process_loop (h : nat) (w ev : Z) (s : state) : state :=
  goto h
    (if w =? 0 then Smode
     else if Z.testbit w 0 && (ev =? tlb_event) then Deq 0 (KIpi (Z.shiftr w 1) (ev + 1))
     else Ipi (Z.shiftr w 1) (ev + 1)) s.

(** One step of hart [h] inside the firmware. *)
Definition run (h : nat) (s : state) : option state :=
  x ← harts s !! h;
  match hpc x with
  | Smode => None
  | SendNext t [] => Some (emit (Return h) (goto h Smode s))
  | SendNext t (r :: rest) => tlb_update h r x t rest s
  | Enq t r rest =>
      y ← harts s !! r;
      let (rc, f') := sbi_fifo_enqueue (tlb_fifo y) t in
      Some (goto h (if rc <? 0 then Deq 0 (KEnq t r rest) else SetBit t r rest) (on r (set_fifo f') s))
  | SetBit t r rest => ipi_set_bit h r t rest s
  | Sync t r rest => Some (tlb_sync_loop h r x t rest s)
  | Deq n k => tlb_dequeue h x n k s
  | Notify rem n k => Some (tlb_notify h rem n k s)
  | Ipi w ev => Some (ipi_process_loop h w ev s)
  end.

(** The requests that supervisors make. *)
Variable allowed : sbi_tlb_info -> Prop.

(** The steps of the machine: a hart in supervisor mode makes a remote fence call
    with an allowed request, takes a software interrupt (at any time) or writes
    [hgatp]; another event is raised for a hart; or a hart runs in the firmware. *)
Inductive step : state -> state -> Prop :=
  | step_call s h x assigned hstate last misa_h funcid r t targets :
      harts s !! h = Some x -> hpc x = Smode ->
      sbi_ecall_rfence_handler misa_h (hgatp x) (Z.of_nat h) funcid r = inr t ->
      sbi_ipi_send_many assigned hstate last (a0 r) (a1 r) = inr targets ->
      allowed t ->
      step s (emit (Call h t (map Z.to_nat targets)) (goto h (SendNext t (map Z.to_nat targets)) s))
  | step_ipi s h x :
      harts s !! h = Some x -> hpc x = Smode ->
      step s (on h (set_ipi 0) (goto h (Ipi (ipi_type x) 0) s))
  | step_smode s h x :
      harts s !! h = Some x ->
      step s (on h (set_ipi (Z.lor (ipi_type x) (Z.shiftl 1 ipi_smode_event))) s)
  | step_hgatp s h x v :
      harts s !! h = Some x -> hpc x = Smode -> step s (on h (set_hgatp v) s)
  | step_run s h s' : run h s = Some s' -> step s s'.

(** [sbi_tlb_init] on each of [n] harts. *)
Definition tlb_zero : sbi_tlb_info := mk_tlb 0 0 0 0 local_fence_i 0.
Definition init (n : nat) : state :=
  mk_state (replicate n (mk_hart Smode (sbi_fifo_init tlb_zero SBI_TLB_FIFO_NUM_ENTRIES) 0 0 0)) [].
Definition reachable (n : nat) : state -> Prop := rtc step (init n).

End Machine.

(** ** What a call must achieve

    [call_of h tr] is the request and the targets of the last call of [h] in a
    trace (newest event first), with the events since. *)
Fixpoint call_of (h : nat) (tr : list event) : option (sbi_tlb_info * list nat * list event) :=
  match tr with
  | [] => None
  | e :: tr' =>
      let later := '(t, tg, evs) ← call_of h tr'; Some (t, tg, e :: evs) in
      match e with
      | Call h' t tg => if decide (h' = h) then Some (t, tg, []) else later
      | _ => later
      end
  end.

(** Hart [r] has executed fences, among the events [evs], for all that [t] asks
    for. *)
Definition served (evs : list event) (r : nat) (t : sbi_tlb_info) : Prop :=
  exists fs, Flush r fs ∈ evs /\ forall x, requested t x = true -> flushed fs x = true.

(** ** The protocol *)
Record view := mk_view {
  vq : list sbi_tlb_info;                        (* queued for the hart *)
  vrem : list nat;                               (* still to notify *)
  vsync : bool;                                  (* [tlb_sync] *)
  vcall : option (sbi_tlb_info * list nat);      (* request and targets left *)
  vwait : option nat }.                          (* hart whose answer is awaited *)

Definition vset_q q (v : view) := mk_view q (vrem v) (vsync v) (vcall v) (vwait v).
Definition vset_rem l (v : view) := mk_view (vq v) l (vsync v) (vcall v) (vwait v).
Definition vset_sync b (v : view) := mk_view (vq v) (vrem v) b (vcall v) (vwait v).
Definition vset_deq q l (v : view) := mk_view q l (vsync v) (vcall v) (vwait v).
Definition vset_answer c (v : view) := mk_view (vq v) (vrem v) false c None.
Definition vset_call c w (v : view) := mk_view (vq v) (vrem v) (vsync v) c w.

Lemma lookup_alter_inv {A} (f : A -> A) (i : nat) (l : list A) (j : nat) y : alter f i l !! j = Some y ->
  exists x, l !! j = Some x /\ y = if decide (i = j) then f x else x.
Proof.
  destruct (decide (i = j)) as [->|Hn].
  - rewrite list_lookup_alter_eq. intros (x & ? & ?)%fmap_Some_1. eauto.
  - rewrite list_lookup_alter_ne by done. eauto.
Qed.

(** Turns lookups in an updated list into lookups in the list before. *)
Ltac alt :=
  repeat match goal with
  | H : alter _ _ _ !! _ = Some ?y |- _ =>
      let x := fresh y in apply lookup_alter_inv in H as (x & H & ?)
  end; subst; simpl in *.

Section Protocol.
Variable lim : Z.

Inductive vstep : list view * list event -> list view * list event -> Prop :=
  | vs_call vs tr h v t tg :
      vs !! h = Some v -> vcall v = None -> request_ok lim t -> smask t = Z.shiftl 1 (Z.of_nat h) ->
      vstep (vs, tr) (alter (vset_call (Some (t, tg)) None) h vs, Call h t tg :: tr)
  | vs_skip vs tr h v t r l :
      vs !! h = Some v -> vcall v = Some (t, r :: l) -> vwait v = None -> vs !! r = None ->
      vstep (vs, tr) (alter (vset_call (Some (t, l)) None) h vs, tr)
  | vs_local vs tr h v t l fs g g' :
      vs !! h = Some v -> vcall v = Some (t, h :: l) -> vwait v = None ->
      call_local_fn (tlb_limit lim t) g = Some (fs, g') ->
      vstep (vs, tr) (alter (vset_call (Some (tlb_limit lim t, l)) None) h vs, Flush h fs :: tr)
  | vs_limit vs tr h v t l :
      vs !! h = Some v -> vcall v = Some (t, l) -> vwait v = None ->
      vstep (vs, tr) (alter (vset_call (Some (tlb_limit lim t, l)) None) h vs, tr)
  | vs_merge vs tr h v t r l w c c' l1 l2 ret :
      vs !! h = Some v -> vcall v = Some (t, r :: l) -> vwait v = None -> r <> h ->
      vs !! r = Some w -> vq w = l1 ++ c :: l2 -> ret <> SBI_FIFO_UNCHANGED ->
      tlb_update_cb (tlb_limit lim t) c = (ret, c') ->
      vstep (vs, tr) (alter (vset_call (Some (tlb_limit lim t, r :: l)) (Some r)) h
                       (alter (vset_q (l1 ++ c' :: l2)) r vs), tr)
  | vs_enqueue vs tr h v t r l w :
      vs !! h = Some v -> vcall v = Some (t, r :: l) -> vwait v = None -> r <> h ->
      entry_ok t -> vs !! r = Some w ->
      vstep (vs, tr) (alter (vset_call (Some (t, r :: l)) (Some r)) h
                       (alter (vset_q (vq w ++ [t])) r vs), tr)
  | vs_dequeue vs tr r w e q fs g g' :
      vs !! r = Some w -> vq w = e :: q -> vrem w = [] -> call_local_fn e g = Some (fs, g') ->
      vstep (vs, tr) (alter (vset_deq q (map Z.to_nat (hartmask_harts (smask e)))) r vs, Flush r fs :: tr)
  | vs_notify vs tr r w x l :
      vs !! r = Some w -> vrem w = x :: l ->
      vstep (vs, tr) (alter (vset_sync true) x (alter (vset_rem l) r vs), tr)
  | vs_answered vs tr h v t r l :
      vs !! h = Some v -> vcall v = Some (t, r :: l) -> vwait v = Some r -> vsync v = true ->
      vstep (vs, tr) (alter (vset_answer (Some (t, l))) h vs, tr)
  | vs_return vs tr h v t :
      vs !! h = Some v -> vcall v = Some (t, []) ->
      vstep (vs, tr) (alter (vset_call None None) h vs, Return h :: tr).

(** The answers that are on their way to hart [h]: entries queued for it, harts
    about to notify it, and its [tlb_sync]. *)
Definition tok (h : nat) (v : view) : nat :=
  length (filter (fun e => Z.testbit (smask e) (Z.of_nat h) = true) (vq v))
  + length (filter (fun x => x = h) (vrem v)).
Definition tokens (vs : list view) (h : nat) : nat :=
  sum_list_with (tok h) vs + match vs !! h with Some v => Nat.b2n (vsync v) | None => 0 end.

(** A call of [h] that has still to do the targets [l] with request [t]. *)
Definition call_ok (N : nat) (tr : list event) (h : nat) (t : sbi_tlb_info) (l : list nat) : Prop :=
  exists t0 tg evs, call_of h tr = Some (t0, tg, evs) /\ covers t t0 /\
    forall r, r ∈ tg -> r ∈ l \/ (N <= r)%nat \/ served evs r t0.

(** Hart [r] has served the last call of [h]. *)
Definition answered (tr : list event) (h r : nat) : Prop :=
  exists t0 tg evs, call_of h tr = Some (t0, tg, evs) /\ served evs r t0.

Record vinv (vs : list view) (tr : list event) : Prop := {
  v_len : (length vs <= 128)%nat;
  v_ok r w e : vs !! r = Some w -> e ∈ vq w -> entry_ok e;
  v_tok h v : vs !! h = Some v -> tokens vs h = match vwait v with Some _ => 1 | None => 0 end%nat;
  v_queued r w e h v : vs !! r = Some w -> e ∈ vq w ->
    Z.testbit (smask e) (Z.of_nat h) = true -> vs !! h = Some v ->
    vwait v = Some r /\ exists t l, vcall v = Some (t, l) /\ covers e t;
  v_rem r w h v : vs !! r = Some w -> h ∈ vrem w -> vs !! h = Some v ->
    vwait v = Some r /\ answered tr h r;
  v_sync h v : vs !! h = Some v -> vsync v = true -> exists r, vwait v = Some r /\ answered tr h r;
  v_call h v t l : vs !! h = Some v -> vcall v = Some (t, l) ->
    request_ok lim t /\ smask t = Z.shiftl 1 (Z.of_nat h) /\ call_ok (length vs) tr h t l;
  v_wait h v r : vs !! h = Some v -> vwait v = Some r ->
    r <> h /\ exists t l, vcall v = Some (t, r :: l);
  v_returned tr1 h tr2 : tr = tr1 ++ Return h :: tr2 ->
    exists t0 tg evs, call_of h tr2 = Some (t0, tg, evs) /\
      forall r, r ∈ tg -> (r < length vs)%nat -> served evs r t0 }.

(** *** Lookups, counts and traces *)
Lemma sum_alter {A} (g : A -> nat) f (i : nat) (l : list A) x : l !! i = Some x ->
  (sum_list_with g (alter f i l) + g x = sum_list_with g l + g (f x))%nat.
Proof.
  revert i. induction l as [|a l IH]; intros [|i] H; simplify_eq/=; [lia|]. specialize (IH i H). lia.
Qed.

Lemma sum_alter_same {A} (g : A -> nat) f (i : nat) (l : list A) : (forall x, g (f x) = g x) ->
  sum_list_with g (alter f i l) = sum_list_with g l.
Proof. intros Hg. revert i. induction l as [|a l IH]; intros [|i]; simpl; try done; [|f_equal; apply IH]. by rewrite Hg. Qed.

Lemma sum_zero {A} (g : A -> nat) (l : list A) (i : nat) x :
  sum_list_with g l = 0%nat -> l !! i = Some x -> g x = 0%nat.
Proof. revert i. induction l as [|a l IH]; intros [|i] Hs H; simplify_eq/=; [lia|]. apply (IH i); [lia|done]. Qed.

Lemma sum_all_zero {A} (g : A -> nat) (l : list A) :
  (forall i x, l !! i = Some x -> g x = 0%nat) -> sum_list_with g l = 0%nat.
Proof.
  induction l as [|a l IH]; intros H; [done|]. simpl. rewrite (H 0%nat a eq_refl), IH; [done|].
  intros i x Hx. by apply (H (S i)).
Qed.

Lemma filter_length_zero {A} (P : A -> Prop) `{!forall x, Decision (P x)} (l : list A) :
  length (filter P l) = 0%nat -> forall x, x ∈ l -> ~ P x.
Proof.
  intros Hl x Hx Px. apply length_zero_iff_nil in Hl.
  assert (x ∈ filter P l) as Hf by by apply list_elem_of_filter. rewrite Hl in Hf. by apply elem_of_nil in Hf.
Qed.

Lemma tok_zero h v : tok h v = 0%nat ->
  (forall e, e ∈ vq v -> Z.testbit (smask e) (Z.of_nat h) = false) /\ h ∉ vrem v.
Proof.
  unfold tok. intros H. split.
  - intros e He. apply not_true_is_false.
    apply (filter_length_zero (fun e => Z.testbit (smask e) (Z.of_nat h) = true) (vq v)); [lia|done].
  - intros Hin. apply (filter_length_zero (fun x => x = h) (vrem v) ltac:(lia) h); done.
Qed.

Lemma tok_absent h v : (forall e, e ∈ vq v -> Z.testbit (smask e) (Z.of_nat h) = false) ->
  h ∉ vrem v -> tok h v = 0%nat.
Proof.
  intros Hq Hr. unfold tok. rewrite !filter_none; [done| |].
  - intros x Hx ->. done.
  - intros e He. by rewrite Hq.
Qed.

(** A hart that waits for no answer is in no mask. *)
Lemma idle_absent vs tr h v : vinv vs tr -> vs !! h = Some v -> vwait v = None ->
  vsync v = false /\ forall r w, vs !! r = Some w ->
    (forall e, e ∈ vq w -> Z.testbit (smask e) (Z.of_nat h) = false) /\ h ∉ vrem w.
Proof.
  intros [] Hv Hw. pose proof (v_tok0 h v Hv) as Ht. rewrite Hw in Ht. unfold tokens in Ht.
  rewrite Hv in Ht. split; [destruct (vsync v); simpl in Ht; lia|].
  intros r w Hr. apply tok_zero. eapply sum_zero; [|done]. lia.
Qed.

Lemma call_of_cons h e tr t tg evs : call_of h tr = Some (t, tg, evs) ->
  (forall t' tg', e <> Call h t' tg') -> call_of h (e :: tr) = Some (t, tg, e :: evs).
Proof.
  intros H He. simpl. rewrite H. simpl. destruct e; try done. case_decide; [|done].
  subst. by destruct (He t0 targets).
Qed.

Lemma served_cons evs e r t : served evs r t -> served (e :: evs) r t.
Proof. intros (fs & H & ?). exists fs. split; [by constructor|done]. Qed.

(** What the history of [h'] guarantees still holds after [tr] has become [tr']. *)
Definition extends (tr tr' : list event) (h : nat) : Prop :=
  (forall r, answered tr h r -> answered tr' h r) /\
  (forall N t l, call_ok N tr h t l -> call_ok N tr' h t l).

Lemma extends_cons tr e h : (forall t tg, e <> Call h t tg) -> extends tr (e :: tr) h.
Proof.
  intros He. split.
  - intros r (t0 & tg & evs & H & Hs). exists t0, tg, (e :: evs).
    split; [by apply call_of_cons|by apply served_cons].
  - intros N t l (t0 & tg & evs & H & Hc & Hr). exists t0, tg, (e :: evs).
    split; [by apply call_of_cons|]. split; [done|]. intros r Hin.
    destruct (Hr r Hin) as [?|[?|?]]; auto using served_cons.
Qed.

Definition returns_ok (N : nat) (tr : list event) : Prop :=
  forall tr1 h tr2, tr = tr1 ++ Return h :: tr2 ->
    exists t0 tg evs, call_of h tr2 = Some (t0, tg, evs) /\
      forall r, r ∈ tg -> (r < N)%nat -> served evs r t0.

Lemma returns_cons N e tr : returns_ok N tr -> (forall h, e <> Return h) -> returns_ok N (e :: tr).
Proof. intros H He [|e' tr1] h tr2 E; simplify_eq/=; [by destruct (He h)|]. by eapply H. Qed.

(** The answer to [h] once [r] has executed the entry [e]. *)
Lemma answered_flush vs tr r w e h v fs g g' : vinv vs tr -> vs !! r = Some w -> e ∈ vq w ->
  Z.testbit (smask e) (Z.of_nat h) = true -> vs !! h = Some v ->
  call_local_fn e g = Some (fs, g') -> answered (Flush r fs :: tr) h r.
Proof.
  intros Hi Hr He Hb Hv Hc. destruct (v_queued _ _ Hi r w e h v Hr He Hb Hv) as (_ & t & l & Hcall & Hcov).
  destruct (v_call _ _ Hi h v t l Hv Hcall) as (_ & _ & t0 & tg & evs & Hof & Hcov0 & _).
  pose proof (v_ok _ _ Hi r w e Hr He) as [Hok _].
  destruct (local_fn_flushes e g Hok) as (fs' & E & Hfl). rewrite E in Hc. simplify_eq.
  exists t0, tg, (Flush r fs :: evs). split; [by apply call_of_cons|].
  exists fs. split; [constructor|]. auto.
Qed.

Lemma tokens_same (vs vs' : list view) h :
  sum_list_with (tok h) vs' = sum_list_with (tok h) vs ->
  (vsync <$> vs' !! h) = (vsync <$> vs !! h) -> tokens vs' h = tokens vs h.
Proof. unfold tokens. intros -> H. destruct (vs' !! h), (vs !! h); by simplify_eq/=; rewrite ?H. Qed.

Lemma tokens_call c o h vs x v : vs !! h = Some v ->
  tokens (alter (vset_call c o) h vs) x = tokens vs x.
Proof.
  intros Hv. apply tokens_same.
  - by apply sum_alter_same.
  - destruct (decide (h = x)) as [->|].
    + rewrite list_lookup_alter_eq, Hv. done.
    + by rewrite list_lookup_alter_ne.
Qed.

(** Steps that change only the call of a hart that waits for no answer. *)
Lemma step_own vs tr tr' h v c : vinv vs tr -> vs !! h = Some v -> vwait v = None ->
  (forall h', h' <> h -> extends tr tr' h') -> returns_ok (length vs) tr' ->
  match c with
  | Some (t, l) => request_ok lim t /\ smask t = Z.shiftl 1 (Z.of_nat h) /\ call_ok (length vs) tr' h t l
  | None => True
  end ->
  vinv (alter (vset_call c None) h vs) tr'.
Proof.
  intros Hi Hv Hw Hx Hret Hc. destruct (idle_absent vs tr h v Hi Hv Hw) as [Hns Habs].
  pose proof Hi as []. constructor; try rewrite length_alter; [done|..|done].
  - intros r w e Hr He. alt. eapply v_ok0; [done|]. by destruct (decide (h = r)).
  - intros x y Hy. alt. rewrite (tokens_call _ _ _ _ _ v Hv). pose proof (v_tok0 x y0 Hy).
    destruct (decide (h = x)) as [->|]; [|done]. by simplify_eq; rewrite Hw in *.
  - intros r w e x y Hr He Hb Hy. alt.
    assert (e ∈ vq w0) as He' by by destruct (decide (h = r)).
    destruct (decide (h = x)) as [->|].
    { destruct (Habs r w0 Hr) as [Hq _]. by rewrite Hq in Hb. }
    eauto.
  - intros r w x y Hr He Hy. alt. assert (x ∈ vrem w0) as He' by by destruct (decide (h = r)).
    destruct (decide (h = x)) as [->|].
    { by destruct (Habs r w0 Hr). }
    destruct (v_rem0 r w0 x y0 Hr He' Hy). split; [done|]. by apply Hx.
  - intros x y Hy Hs. alt. destruct (decide (h = x)) as [->|].
    { simplify_eq. simpl in Hs. congruence. }
    destruct (v_sync0 x y0 Hy Hs) as (r & ? & ?). exists r. split; [done|]. by apply Hx.
  - intros x y t l Hy Hc'. alt. destruct (decide (h = x)) as [->|].
    { simplify_eq/=. done. }
    destruct (v_call0 x y0 t l Hy Hc') as (? & ? & ?). split; [done|]. split; [done|]. by apply Hx.
  - intros x y r Hy Hr. alt. destruct (decide (h = x)) as [->|]; [done|]. eauto.
Qed.

Lemma tokens_queue vs r w q x d : vs !! r = Some w ->
  (length (filter (fun e => Z.testbit (smask e) (Z.of_nat x) = true) q)
   = length (filter (fun e => Z.testbit (smask e) (Z.of_nat x) = true) (vq w)) + d)%nat ->
  tokens (alter (vset_q q) r vs) x = (tokens vs x + d)%nat.
Proof.
  intros Hr Hd. unfold tokens. pose proof (sum_alter (tok x) (vset_q q) r vs w Hr) as H.
  unfold tok at 2 4 in H. simpl in H.
  assert (match alter (vset_q q) r vs !! x with Some v => Nat.b2n (vsync v) | None => 0 end =
          match vs !! x with Some v => Nat.b2n (vsync v) | None => 0 end)%nat as ->; [|lia].
  destruct (decide (r = x)) as [->|].
  - by rewrite list_lookup_alter_eq, Hr.
  - by rewrite list_lookup_alter_ne.
Qed.

(** Steps that put an answer for [h] into the queue of [r]. *)
Lemma step_wait vs tr h v t0 t r l w q : vinv vs tr -> vs !! h = Some v ->
  vcall v = Some (t0, r :: l) -> vwait v = None -> r <> h -> vs !! r = Some w ->
  request_ok lim t -> smask t = Z.shiftl 1 (Z.of_nat h) -> call_ok (length vs) tr h t (r :: l) ->
  (forall e, e ∈ q -> entry_ok e) ->
  (forall x, (length (filter (fun e => Z.testbit (smask e) (Z.of_nat x) = true) q) =
     length (filter (fun e => Z.testbit (smask e) (Z.of_nat x) = true) (vq w))
     + if decide (x = h) then 1 else 0)%nat) ->
  (forall e, e ∈ q -> Z.testbit (smask e) (Z.of_nat h) = true -> covers e t) ->
  (forall e x, e ∈ q -> x <> h -> Z.testbit (smask e) (Z.of_nat x) = true ->
     exists e0, e0 ∈ vq w /\ Z.testbit (smask e0) (Z.of_nat x) = true /\ covers e e0) ->
  vinv (alter (vset_call (Some (t, r :: l)) (Some r)) h (alter (vset_q q) r vs)) tr.
Proof.
  intros Hi Hv Hc Hw Hne Hr Hrq Hsm Hcall Hok Hcnt Hcov Hold.
  destruct (idle_absent vs tr h v Hi Hv Hw) as [Hns Habs]. pose proof Hi as [].
  constructor; try rewrite !length_alter; [done|..|done].
  - intros r' u e Hr' He. alt. destruct (decide (r = r')) as [->|];
      destruct (decide (h = r')); simpl in He; eauto.
  - intros x y Hy. rewrite (tokens_call _ _ _ _ _ v) by by rewrite list_lookup_alter_ne.
    rewrite (tokens_queue _ _ _ _ _ _ Hr (Hcnt x)). alt.
    rewrite (v_tok0 x y1 Hy). repeat case_decide; simplify_eq/=; rewrite ?Hw; done || lia.
  - intros r' u e x y Hr' He Hb Hy. alt.
    assert (e ∈ if decide (r = r') then q else vq u1) as He'.
    { by destruct (decide (h = r')), (decide (r = r')). }
    destruct (decide (r = r')) as [<-|Hr2].
    + simplify_eq. destruct (decide (h = x)) as [->|Hx]; simpl.
      * split; [done|]. exists t, (r :: l). split; [done|]. by apply Hcov.
      * destruct (Hold e x He' ltac:(congruence) Hb) as (e0 & He0 & Hb0 & Hce).
        destruct (v_queued0 r w e0 x y1 Hr He0 Hb0 Hy) as (? & t1 & l1 & Ec & ?).
        destruct (decide (r = x)); simpl; (split; [done|]); exists t1, l1;
          (split; [done|by etrans]).
    + destruct (decide (h = x)) as [->|Hx].
      * destruct (Habs r' u1 Hr') as [Hq _]. by rewrite Hq in Hb.
      * destruct (v_queued0 r' u1 e x y1 Hr' He' Hb Hy). by destruct (decide (r = x)).
  - intros r' u x y Hr' He Hy. alt.
    assert (x ∈ vrem u1) as He' by by destruct (decide (h = r')), (decide (r = r')).
    destruct (decide (h = x)) as [->|Hx].
    + by destruct (Habs r' u1 Hr').
    + destruct (v_rem0 r' u1 x y1 Hr' He' Hy). by destruct (decide (r = x)).
  - intros x y Hy Hs. alt. destruct (decide (h = x)) as [->|].
    { destruct (decide (r = x)); simplify_eq/=; congruence. }
    destruct (v_sync0 x y1 Hy) as (r2 & ? & ?); [by destruct (decide (r = x))|].
    exists r2. by destruct (decide (r = x)).
  - intros x y t2 l2 Hy Hc'. alt. destruct (decide (h = x)) as [->|].
    { destruct (decide (r = x)); by simplify_eq/=. }
    apply (v_call0 x y1 t2 l2 Hy). by destruct (decide (r = x)).
  - intros x y r2 Hy Hr2. alt. destruct (decide (h = x)) as [->|].
    { simplify_eq/=. split; [done|]. eauto. }
    destruct (decide (r = x)); simpl in *; eauto.
Qed.

(** *** Counts of the harts of a mask *)
Lemma filter_eq_count (x : nat) l : NoDup l ->
  length (filter (fun y => y = x) l) = if decide (x ∈ l) then 1%nat else 0%nat.
Proof.
  induction 1 as [|a l Ha Hl IH]; [done|]. rewrite filter_cons.
  destruct (decide (a = x)) as [->|Hne].
  - simpl. rewrite IH, decide_False by done. rewrite decide_True; [done|constructor].
  - rewrite IH. do 2 case_decide; set_solver.
Qed.

Lemma mask_harts_elem m x : (x < 128)%nat ->
  x ∈ map Z.to_nat (hartmask_harts m) <-> Z.testbit m (Z.of_nat x) = true.
Proof.
  intros Hx. unfold hartmask_harts, SBI_HARTMASK_MAX_BITS. rewrite list_elem_of_fmap. split.
  - intros (y & -> & Hy). apply list_elem_of_filter in Hy as [Hb Hy%elem_of_seqZ].
    by rewrite Z2Nat.id by lia.
  - intros Hb. exists (Z.of_nat x). split; [lia|]. apply list_elem_of_filter. split; [done|].
    apply elem_of_seqZ. lia.
Qed.

Lemma mask_harts_count m x : (x < 128)%nat ->
  length (filter (fun y => y = x) (map Z.to_nat (hartmask_harts m)))
  = Nat.b2n (Z.testbit m (Z.of_nat x)).
Proof.
  intros Hx. rewrite filter_eq_count.
  - pose proof (mask_harts_elem m x Hx). case_decide; destruct (Z.testbit m (Z.of_nat x)); simpl; tauto || naive_solver.
  - apply NoDup_fmap_2_strong.
    + intros a b [_ Ha%elem_of_seqZ]%list_elem_of_filter [_ Hb%elem_of_seqZ]%list_elem_of_filter. lia.
    + apply NoDup_filter, NoDup_seqZ.
Qed.

(** [r] takes the entry [e] of its queue and executes it. *)
Lemma step_dequeue vs tr r w e q fs g g' : vinv vs tr -> vs !! r = Some w -> vq w = e :: q ->
  vrem w = [] -> call_local_fn e g = Some (fs, g') ->
  vinv (alter (vset_deq q (map Z.to_nat (hartmask_harts (smask e)))) r vs) (Flush r fs :: tr).
Proof.
  intros Hi Hr Hq Hrem Hfn. pose proof Hi as [].
  assert (forall h, extends tr (Flush r fs :: tr) h) as Hx by (intros; by apply extends_cons).
  assert (forall u, u ∈ q -> u ∈ vq w) as Hsub by (intros; rewrite Hq; by constructor).
  set (F := vset_deq q _).
  constructor; try rewrite !length_alter; [done|..|].
  - intros r' u d Hr' Hd. alt. destruct (decide (r = r')); simplify_eq/=; eauto.
  - intros x y Hy. alt. pose proof (lookup_lt_Some _ _ _ Hy) as Hlt.
    assert (tokens (alter F r vs) x = tokens vs x) as ->.
    { apply tokens_same.
      - pose proof (sum_alter (tok x) F r vs w Hr) as H. unfold tok at 2 4 in H. simpl in H.
        rewrite Hq, Hrem, mask_harts_count, filter_cons in H by lia.
        destruct (Z.testbit (smask e) (Z.of_nat x)); case_decide; simpl in H; done || lia.
      - destruct (decide (r = x)) as [->|]; [|by rewrite list_lookup_alter_ne].
        by rewrite list_lookup_alter_eq, Hr. }
    rewrite (v_tok0 x y0 Hy). by destruct (decide (r = x)).
  - intros r' u d x y Hr' Hd Hb Hy. alt.
    assert (vwait (if decide (r = x) then F y0 else y0) = vwait y0) as -> by by destruct (decide (r = x)).
    assert (vcall (if decide (r = x) then F y0 else y0) = vcall y0) as -> by by destruct (decide (r = x)).
    destruct (decide (r = r')); simplify_eq/=; eauto.
  - intros r' u x y Hr' Hd Hy. alt. pose proof (lookup_lt_Some _ _ _ Hy) as Hlt.
    assert (vwait (if decide (r = x) then F y0 else y0) = vwait y0) as -> by by destruct (decide (r = x)).
    destruct (decide (r = r')) as [<-|]; simplify_eq/=.
    + apply mask_harts_elem in Hd; [|lia].
      assert (e ∈ vq w) as He by (rewrite Hq; constructor). split.
      * by eapply (v_queued0 r w e x y0).
      * by eapply (answered_flush vs tr r w e x y0 fs).
    + destruct (v_rem0 r' u0 x y0 Hr' Hd Hy). split; [done|by apply Hx].
  - intros x y Hy Hs. alt.
    assert (vwait (if decide (r = x) then F y0 else y0) = vwait y0) as -> by by destruct (decide (r = x)).
    destruct (v_sync0 x y0 Hy) as (r2 & ? & ?); [by destruct (decide (r = x))|].
    exists r2. split; [done|by apply Hx].
  - intros x y t l Hy Hc. alt. destruct (v_call0 x y0 t l Hy) as (? & ? & ?).
    { by destruct (decide (r = x)). }
    split; [done|]. split; [done|]. by apply Hx.
  - intros x y r2 Hy Hw. alt. destruct (decide (r = x)); simpl in *; eauto.
  - by apply returns_cons.
Qed.

(** A hart that is to be notified has not been notified yet. *)
Lemma notify_ready vs tr r w x l y : vinv vs tr -> vs !! r = Some w -> vrem w = x :: l ->
  vs !! x = Some y -> vsync y = false.
Proof.
  intros [] Hr Hl Hy. assert (x ∈ vrem w) as Hin by (rewrite Hl; constructor).
  destruct (v_rem0 r w x y Hr Hin Hy) as [Hw _]. pose proof (v_tok0 x y Hy) as Ht.
  rewrite Hw in Ht. unfold tokens in Ht. rewrite Hy in Ht.
  assert (0 < tok x w)%nat as Hpos.
  { unfold tok. rewrite Hl, filter_cons_True by done. simpl. lia. }
  assert (tok x w <= sum_list_with (tok x) vs)%nat.
  { pose proof (sum_alter (tok x) (fun _ => mk_view [] [] false None None) r vs w Hr) as H.
    unfold tok at 4 in H. simpl in H. lia. }
  destruct (vsync y); simpl in Ht; [lia|done].
Qed.

Lemma step_notify vs tr r w x l : vinv vs tr -> vs !! r = Some w -> vrem w = x :: l ->
  vinv (alter (vset_sync true) x (alter (vset_rem l) r vs)) tr.
Proof.
  intros Hi Hr Hl. pose proof Hi as [].
  assert (x ∈ vrem w) as Hin by (rewrite Hl; constructor).
  assert (forall z u u', vs !! z = Some u ->
    u' = (if decide (x = z) then vset_sync true (if decide (r = z) then vset_rem l u else u)
          else if decide (r = z) then vset_rem l u else u) ->
    vq u' = vq u /\ vcall u' = vcall u /\ vwait u' = vwait u /\ (forall d, d ∈ vrem u' -> d ∈ vrem u)) as Hview.
  { intros z u u' Hu ->. assert (r = z -> forall d, d ∈ l -> d ∈ vrem u).
    { intros <- d Hd. simplify_eq. rewrite Hl. by constructor. }
    destruct (decide (x = z)), (decide (r = z)); simpl; repeat split; auto. }
  constructor; try rewrite !length_alter; [done|..|done].
  - intros r' u d Hr' Hd. alt. destruct (Hview r' _ _ Hr' eq_refl) as (Eq & _). rewrite Eq in Hd. eauto.
  - intros z u Hu. pose proof (lookup_alter_inv _ _ _ _ _ Hu) as (u1 & Hu1 & Eu).
    apply lookup_alter_inv in Hu1 as (u2 & Hu2 & ->).
    destruct (Hview z u2 u Hu2 Eu) as (_ & _ & -> & _). rewrite <- (v_tok0 z u2 Hu2). unfold tokens.
    rewrite Hu, Hu2. assert (sum_list_with (tok z) (alter (vset_sync true) x (alter (vset_rem l) r vs))
      = sum_list_with (tok z) (alter (vset_rem l) r vs)) as -> by by apply sum_alter_same.
    pose proof (sum_alter (tok z) (vset_rem l) r vs w Hr) as H. unfold tok at 2 4 in H. simpl in H.
    rewrite Hl, filter_cons in H. destruct (decide (x = z)) as [->|Hne].
    + pose proof (notify_ready vs tr r w z l u2 Hi Hr Hl Hu2) as Hs. rewrite Eu, Hs. simpl in *. lia.
    + subst u. destruct (decide (r = z)); simpl; lia.
  - intros r' u d z v Hr' Hd Hb Hv. alt. destruct (Hview r' _ _ Hr' eq_refl) as (Eq & _).
    rewrite Eq in Hd. destruct (Hview z _ _ Hv eq_refl) as (_ & -> & -> & _). eauto.
  - intros r' u z v Hr' Hd Hv. alt. destruct (Hview r' _ _ Hr' eq_refl) as (_ & _ & _ & Hsub).
    destruct (Hview z _ _ Hv eq_refl) as (_ & _ & -> & _). eauto.
  - intros z v Hv Hs. alt. destruct (Hview z _ _ Hv eq_refl) as (_ & _ & -> & _).
    destruct (decide (x = z)) as [->|]; [by eauto|].
    apply v_sync0; [done|]. by destruct (decide (r = z)).
  - intros z v t l' Hv Hc. alt. destruct (Hview z _ _ Hv eq_refl) as (_ & Ec & _).
    rewrite Ec in Hc. eauto.
  - intros z v r2 Hv Hw. alt. destruct (Hview z _ _ Hv eq_refl) as (_ & -> & Ew & _).
    rewrite Ew in Hw. eauto.
Qed.

(** [h] sees its answer. *)
Lemma step_answered vs tr h v t r l : vinv vs tr -> vs !! h = Some v ->
  vcall v = Some (t, r :: l) -> vwait v = Some r -> vsync v = true ->
  vinv (alter (vset_answer (Some (t, l))) h vs) tr.
Proof.
  intros Hi Hv Hc Hw Hs. pose proof Hi as []. set (F := vset_answer _).
  assert (sum_list_with (tok h) vs = 0%nat) as Hsum.
  { pose proof (v_tok0 h v Hv) as Ht. unfold tokens in Ht. rewrite Hv, Hw, Hs in Ht. simpl in Ht. lia. }
  assert (forall x, sum_list_with (tok x) (alter F h vs) = sum_list_with (tok x) vs) as Hsums
    by (intros x; by apply sum_alter_same).
  assert (forall r' u, vs !! r' = Some u ->
    (forall e, e ∈ vq u -> Z.testbit (smask e) (Z.of_nat h) = false) /\ h ∉ vrem u) as Habs.
  { intros r' u Hu. apply tok_zero. by eapply sum_zero. }
  assert (forall (b : bool) u, vq (if b then F u else u) = vq u /\ vrem (if b then F u else u) = vrem u) as Hsame
    by (by intros []).
  constructor; try rewrite !length_alter; [done|..|done].
  - intros r' u d Hr' Hd. alt. destruct (decide (h = r')); simpl in Hd; eauto.
  - intros x y Hy. unfold tokens. rewrite Hsums, Hy. alt. pose proof (v_tok0 x y0 Hy) as Ht.
    unfold tokens in Ht. rewrite Hy in Ht. destruct (decide (h = x)) as [->|]; [|done].
    simplify_eq/=. lia.
  - intros r' u d x y Hr' Hd Hb Hy. alt.
    assert (d ∈ vq u0) as Hd' by by destruct (decide (h = r')).
    destruct (decide (h = x)) as [->|]; [|by eauto].
    destruct (Habs r' u0 Hr') as [Hq _]. by rewrite Hq in Hb.
  - intros r' u x y Hr' Hd Hy. alt. assert (x ∈ vrem u0) as Hd' by by destruct (decide (h = r')).
    destruct (decide (h = x)) as [->|]; [|by eauto]. by destruct (Habs r' u0 Hr').
  - intros x y Hy Hs'. alt. destruct (decide (h = x)) as [->|]; [done|by eauto].
  - intros x y t' l' Hy Hc'. alt. destruct (decide (h = x)) as [->|]; [|by eauto].
    simplify_eq/=. destruct (v_call0 x v t' (r :: l') Hv Hc) as (? & ? & t0 & tg & evs & Hof & Hcov & Hr).
    split; [done|]. split; [done|]. exists t0, tg, evs. split; [done|]. split; [done|].
    intros r0 Hin. destruct (Hr r0 Hin) as [Hin'|?]; [|by auto].
    apply elem_of_cons in Hin' as [->|?]; [|by auto].
    destruct (v_sync0 x v Hv Hs) as (r1 & Hw1 & t1 & tg1 & evs1 & Hof1 & Hsv). simplify_eq. auto.
  - intros x y r2 Hy Hr2. alt. destruct (decide (h = x)) as [->|]; [done|by eauto].
Qed.

Lemma tlb_limit_smask t : smask (tlb_limit lim t) = smask t.
Proof. unfold tlb_limit. by destruct (lim <? size t). Qed.

Lemma call_ok_limit N tr h t l : call_ok N tr h t l -> call_ok N tr h (tlb_limit lim t) l.
Proof.
  intros (t0 & tg & evs & ? & Hc & ?). exists t0, tg, evs. split; [done|]. split; [|done].
  etrans; [apply tlb_limit_covers|done].
Qed.

(** A target is done with: it is no hart, or it has been served. *)
Lemma call_ok_next N tr h t r l : call_ok N tr h t (r :: l) ->
  ((N <= r)%nat \/ exists t0 tg evs, call_of h tr = Some (t0, tg, evs) /\ served evs r t0) ->
  call_ok N tr h t l.
Proof.
  intros (t0 & tg & evs & E & Hc & Hr) Hd. exists t0, tg, evs. split; [done|]. split; [done|].
  intros r0 Hin. destruct (Hr r0 Hin) as [Hin'|?]; [|by auto].
  apply elem_of_cons in Hin' as [->|?]; [|by auto].
  destruct Hd as [?|(? & ? & ? & ? & ?)]; simplify_eq; auto.
Qed.

Lemma bit_of_self h x : Z.testbit (Z.shiftl 1 (Z.of_nat h)) (Z.of_nat x) = bool_decide (x = h).
Proof.
  rewrite Z.shiftl_1_l, Z.pow2_bits_eqb by lia. case_bool_decide as E.
  - subst. apply Z.eqb_refl.
  - apply Z.eqb_neq. lia.
Qed.

Lemma filter_bits_app x (l1 l2 : list sbi_tlb_info) :
  length (filter (fun e => Z.testbit (smask e) (Z.of_nat x) = true) (l1 ++ l2)) =
  (length (filter (fun e => Z.testbit (smask e) (Z.of_nat x) = true) l1)
   + length (filter (fun e => Z.testbit (smask e) (Z.of_nat x) = true) l2))%nat.
Proof. by rewrite filter_app, length_app. Qed.

Lemma filter_bits_cons x e l :
  length (filter (fun e => Z.testbit (smask e) (Z.of_nat x) = true) (e :: l)) =
  (Nat.b2n (Z.testbit (smask e) (Z.of_nat x))
   + length (filter (fun e => Z.testbit (smask e) (Z.of_nat x) = true) l))%nat.
Proof. rewrite filter_cons. case_decide as E; [by rewrite E|]. by apply not_true_is_false in E as ->. Qed.

Lemma step_merge vs tr h v t r l w c c' l1 l2 ret : vinv vs tr ->
  vs !! h = Some v -> vcall v = Some (t, r :: l) -> vwait v = None -> r <> h ->
  vs !! r = Some w -> vq w = l1 ++ c :: l2 -> ret <> SBI_FIFO_UNCHANGED ->
  tlb_update_cb (tlb_limit lim t) c = (ret, c') ->
  vinv (alter (vset_call (Some (tlb_limit lim t, r :: l)) (Some r)) h
         (alter (vset_q (l1 ++ c' :: l2)) r vs)) tr.
Proof.
  intros Hi Hv Hc Hw Hne Hr Hq Hret Hcb. pose proof Hi as [].
  destruct (v_call0 h v t (r :: l) Hv Hc) as (Hrq & Hsm & Hcall).
  destruct (idle_absent vs tr h v Hi Hv Hw) as [_ Habs]. destruct (Habs r w Hr) as [Habs' _].
  pose proof (tlb_limit_ok lim t Hrq) as Hok.
  assert (entry_ok c) as Hcok by (eapply v_ok0; [done|]; rewrite Hq; set_solver).
  pose proof (tlb_update_cb_merges _ _ Hcok Hok) as Hm. rewrite Hcb in Hm.
  assert (entry_ok c' /\ smask c' = Z.lor (smask c) (smask t) /\ covers c' c /\ covers c' (tlb_limit lim t))
    as (Hok' & Hmask & Hcc & Hct) by (unfold merged in Hm; rewrite tlb_limit_smask in Hm; by destruct ret).
  assert (forall x, Z.testbit (smask c') (Z.of_nat x) =
                    Z.testbit (smask c) (Z.of_nat x) || bool_decide (x = h)) as Hbit.
  { intros x. by rewrite Hmask, Z.lor_spec, Hsm, bit_of_self. }
  assert (Z.testbit (smask c) (Z.of_nat h) = false) as Hch by (apply Habs'; rewrite Hq; set_solver).
  eapply step_wait; try done.
  - by right.
  - by rewrite tlb_limit_smask.
  - by apply call_ok_limit.
  - intros e He. rewrite elem_of_app, elem_of_cons in He. destruct He as [He|[->|He]]; [|done|];
      (eapply v_ok0; [done|]; rewrite Hq; set_solver).
  - intros x. rewrite Hq, !filter_bits_app, !filter_bits_cons, Hbit. case_decide as E.
    + subst. rewrite Hch, bool_decide_true by done. simpl. lia.
    + rewrite bool_decide_false, orb_false_r by done. lia.
  - intros e He Hb. rewrite elem_of_app, elem_of_cons in He. destruct He as [He|[->|He]]; [|done|];
      rewrite Habs' in Hb by (rewrite Hq; set_solver); done.
  - intros e x He Hx Hb. rewrite elem_of_app, elem_of_cons in He. destruct He as [He|[->|He]].
    + exists e. rewrite Hq. split; [set_solver|done].
    + exists c. rewrite Hbit, bool_decide_false, orb_false_r in Hb by done. rewrite Hq. split; [set_solver|done].
    + exists e. rewrite Hq. split; [set_solver|done].
Qed.

Lemma step_enqueue vs tr h v t r l w : vinv vs tr ->
  vs !! h = Some v -> vcall v = Some (t, r :: l) -> vwait v = None -> r <> h ->
  entry_ok t -> vs !! r = Some w ->
  vinv (alter (vset_call (Some (t, r :: l)) (Some r)) h (alter (vset_q (vq w ++ [t])) r vs)) tr.
Proof.
  intros Hi Hv Hc Hw Hne Hok Hr. pose proof Hi as [].
  destruct (v_call0 h v t (r :: l) Hv Hc) as (Hrq & Hsm & Hcall).
  destruct (idle_absent vs tr h v Hi Hv Hw) as [_ Habs]. destruct (Habs r w Hr) as [Habs' _].
  eapply step_wait; try done.
  - intros e [He|He]%elem_of_app; [by eauto|]. by apply list_elem_of_singleton in He as ->.
  - intros x. rewrite filter_bits_app, filter_bits_cons, Hsm, bit_of_self. simpl.
    case_decide; [rewrite bool_decide_true by done|rewrite bool_decide_false by done]; simpl; lia.
  - intros e [He|He]%elem_of_app Hb; [by rewrite Habs' in Hb|].
    by apply list_elem_of_singleton in He as ->.
  - intros e x [He|He]%elem_of_app Hx Hb; [by exists e|]. apply list_elem_of_singleton in He as ->.
    by rewrite Hsm, bit_of_self, bool_decide_false in Hb.
Qed.

(** Every step of the protocol preserves the invariant. *)
Lemma vstep_inv p p' : vstep p p' -> vinv (fst p) (snd p) -> vinv (fst p') (snd p').
Proof.
  intros Hs Hi. destruct Hs; simpl in *;
    [ | | | |by eapply step_merge|by eapply step_enqueue|by eapply step_dequeue
     |by eapply step_notify|by eapply step_answered| ].
  - eapply step_own; try done.
    + destruct (vwait v) as [r|] eqn:Ew; [|done].
      destruct (v_wait _ _ Hi h v r H Ew) as (_ & ? & ? & ?). congruence.
    + intros h' Hne. apply extends_cons. congruence.
    + by apply returns_cons; [exact (v_returned _ _ Hi)|].
    + split; [done|]. split; [done|]. exists t, tg, []. simpl. rewrite decide_True by done.
      split; [done|]. split; [done|]. auto.
  - destruct (v_call _ _ Hi h v t (r :: l) H H0) as (? & ? & Hc).
    eapply step_own; try done; [exact (v_returned _ _ Hi)|].
    split; [done|]. split; [done|]. eapply call_ok_next; [done|]. left. by apply lookup_ge_None.
  - destruct (v_call _ _ Hi h v t (h :: l) H H0) as (Hrq & ? & Hc).
    eapply step_own; try done; [intros; by apply extends_cons|by apply returns_cons; [exact (v_returned _ _ Hi)|]|].
    split; [right; by apply tlb_limit_ok|]. split; [by rewrite tlb_limit_smask|].
    apply call_ok_limit, call_ok_next with h; [by apply (extends_cons tr)|]. right.
    destruct Hc as (t0 & tg & evs & Hof & Hcov & _). exists t0, tg, (Flush h fs :: evs).
    split; [by apply call_of_cons|]. exists fs. split; [constructor|]. intros x Hx.
    destruct (local_fn_flushes (tlb_limit lim t) g (proj1 (tlb_limit_ok lim t Hrq))) as (fs' & E & Hfl).
    simplify_eq. by apply Hfl, tlb_limit_covers, Hcov.
  - destruct (v_call _ _ Hi h v t l H H0) as (Hrq & ? & Hc).
    eapply step_own; try done; [exact (v_returned _ _ Hi)|].
    split; [right; by apply tlb_limit_ok|]. split; [by rewrite tlb_limit_smask|]. by apply call_ok_limit.
  - destruct (v_call _ _ Hi h v t [] H H0) as (_ & _ & t0 & tg & evs & Hof & _ & Hr).
    eapply step_own; try done.
    + destruct (vwait v) as [r|] eqn:Ew; [|done].
      destruct (v_wait _ _ Hi h v r H Ew) as (_ & ? & ? & ?). congruence.
    + intros; by apply extends_cons.
    + intros [|e tr1] h' tr2 E; simplify_eq/=; [|by eapply (v_returned _ _ Hi)].
      exists t0, tg, evs. split; [done|]. intros r Hin Hlt.
      destruct (Hr r Hin) as [?%elem_of_nil|[?|?]]; [done|lia|done].
Qed.

End Protocol.

(** ** The machine follows the protocol *)
Definition cont_call (k : cont) : option (sbi_tlb_info * list nat) :=
  match k with
  | KEnq t r rest | KSync t r rest => Some (t, r :: rest)
  | KIpi _ _ => None
  end.
Definition pc_call (p : pc) : option (sbi_tlb_info * list nat) :=
  match p with
  | SendNext t l => Some (t, l)
  | Enq t r rest | SetBit t r rest | Sync t r rest => Some (t, r :: rest)
  | Deq _ k | Notify _ _ k => cont_call k
  | _ => None
  end.
Definition cont_wait (k : cont) : option nat := match k with KSync _ r _ => Some r | _ => None end.
Definition pc_wait (p : pc) : option nat :=
  match p with
  | SetBit _ r _ | Sync _ r _ => Some r
  | Deq _ k | Notify _ _ k => cont_wait k
  | _ => None
  end.
Definition pc_rem (p : pc) : list nat := match p with Notify rem _ _ => rem | _ => [] end.

Definition view_of (x : hart) : view :=
  mk_view (fifo_abs (tlb_fifo x)) (pc_rem (hpc x)) (negb (tlb_sync x =? 0)) (pc_call (hpc x)) (pc_wait (hpc x)).
Definition abs (s : state) : list view * list event := (view_of <$> harts s, trace s).

(** A request to be queued has been limited and is for another hart. *)
Definition pc_enq (p : pc) : option (sbi_tlb_info * nat) :=
  match p with
  | Enq t r _ | Deq _ (KEnq t r _) | Notify _ _ (KEnq t r _) => Some (t, r)
  | _ => None
  end.
Definition hart_ok (h : nat) (x : hart) : Prop :=
  fifo_wf (tlb_fifo x) /\ forall t r, pc_enq (hpc x) = Some (t, r) -> entry_ok t /\ r <> h.
Definition cinv (s : state) : Prop := forall h x, harts s !! h = Some x -> hart_ok h x.

Lemma view_alter f g (h : nat) (l : list hart) :
  (forall x, l !! h = Some x -> view_of (f x) = g (view_of x)) ->
  view_of <$> alter f h l = alter g h (view_of <$> l).
Proof.
  revert h. induction l as [|a l IH]; intros [|h] H; simpl; try done.
  - f_equal. by apply H.
  - f_equal. by apply IH.
Qed.

Lemma view_alter_id f (h : nat) (l : list hart) :
  (forall x, l !! h = Some x -> view_of (f x) = view_of x) -> view_of <$> alter f h l = view_of <$> l.
Proof.
  intros H. rewrite (view_alter f id h l H). apply list_eq. intros i.
  destruct (decide (h = i)) as [->|].
  - rewrite list_lookup_alter_eq. by destruct ((view_of <$> l) !! i).
  - by rewrite list_lookup_alter_ne.
Qed.

Lemma view_lookup s h x : harts s !! h = Some x -> (view_of <$> harts s) !! h = Some (view_of x).
Proof. intros H. by rewrite list_lookup_fmap, H. Qed.

Lemma resume_call k : pc_call (resume k) = cont_call k /\ pc_wait (resume k) = cont_wait k /\
  pc_rem (resume k) = [] /\ forall n, pc_enq (resume k) = pc_enq (Deq n k).
Proof. by destruct k. Qed.

Section Simulation.
Variable lim : Z.

Definition simulates (s s' : state) : Prop := abs s' = abs s \/ vstep lim (abs s) (abs s').

(** Steps that only move the program counter of one hart, or change what the
    protocol does not see. *)
Lemma sim_silent s h x f : harts s !! h = Some x -> view_of (f x) = view_of x ->
  simulates s (on h f s).
Proof. intros Hx Hf. left. unfold abs. simpl. f_equal. apply view_alter_id. intros z Hz. congruence. Qed.

Lemma cinv_on s h x f : cinv s -> harts s !! h = Some x -> hart_ok h (f x) -> cinv (on h f s).
Proof.
  intros Hc Hx Hf i y Hy. apply lookup_alter_inv in Hy as (z & Hz & ->).
  destruct (decide (h = i)) as [->|]; [by simplify_eq|]. by apply Hc.
Qed.

Lemma cinv_same s h f : (forall y, hpc (f y) = hpc y /\ tlb_fifo (f y) = tlb_fifo y) ->
  cinv s -> cinv (on h f s).
Proof.
  intros Hf Hc i y Hy. apply lookup_alter_inv in Hy as (z & Hz & ->). destruct (Hc i z Hz) as [H1 H2].
  destruct (decide (h = i)); [|done]. destruct (Hf z) as [E1 E2]. unfold hart_ok. by rewrite E1, E2.
Qed.

Lemma cinv_emit s e : cinv s -> cinv (emit e s).
Proof. done. Qed.

(** The lookup of another hart. *)
Lemma on_other s h r f x : h <> r -> harts s !! h = Some x -> harts (on r f s) !! h = Some x.
Proof. intros. simpl. by rewrite list_lookup_alter_ne. Qed.

(** [h] writes the queue of [r] and goes on. *)
Lemma view_issue s h x r f p : harts s !! h = Some x -> r <> h -> pc_rem (hpc x) = [] -> pc_rem p = [] ->
  view_of <$> alter (set_pc p) h (alter (set_fifo f) r (harts s)) =
  alter (vset_call (pc_call p) (pc_wait p)) h (alter (vset_q (fifo_abs f)) r (view_of <$> harts s)).
Proof.
  intros Hx Hne H1 H2. rewrite <- (view_alter (set_fifo f) _ r (harts s)) by done.
  apply view_alter. intros z Hz. rewrite list_lookup_alter_ne in Hz by done. simplify_eq.
  unfold view_of, vset_call. simpl. by rewrite H1, H2.
Qed.

(** A queue that is written back as it was. *)
Lemma view_same_queue (vs : list view) r y : vs !! r = Some y -> alter (vset_q (vq y)) r vs = vs.
Proof.
  intros Hy. apply list_eq. intros i. destruct (decide (r = i)) as [->|].
  - rewrite list_lookup_alter_eq, Hy. by destruct y.
  - by rewrite list_lookup_alter_ne.
Qed.

Lemma sim_update s h x t r rest s' : vinv lim (view_of <$> harts s) (trace s) -> cinv s ->
  harts s !! h = Some x -> hpc x = SendNext t (r :: rest) ->
  tlb_update lim h r x t rest s = Some s' -> cinv s' /\ simulates s s'.
Proof.
  intros Hi Hc Hx Hp H. pose proof (view_lookup s h x Hx) as Hvx. pose proof (Hc h x Hx) as [Hwf _].
  assert (vcall (view_of x) = Some (t, r :: rest)) as Hcall by (simpl; by rewrite Hp).
  assert (vwait (view_of x) = None) as Hwait by (simpl; by rewrite Hp).
  destruct (v_call _ _ _ Hi h _ t _ Hvx Hcall) as (Hrq & _ & _).
  pose proof (tlb_limit_ok lim t Hrq) as Hok. unfold tlb_update in H.
  destruct (harts s !! r) as [y|] eqn:Hy; [destruct (decide (r = h)) as [->|Hne]|].
  - destruct (call_local_fn _ _) as [[fs g]|] eqn:Hfn; simplify_eq/=. split.
    + apply cinv_emit. by apply cinv_on with x.
    + right. unfold abs. simpl. rewrite (view_alter _ (vset_call (Some (tlb_limit lim t, rest)) None)).
      * by eapply vs_local.
      * intros z Hz. simplify_eq. unfold view_of, vset_call. simpl. by rewrite Hp.
  - pose proof (Hc r y Hy) as [Hwfy Hyq]. pose proof (view_lookup s r y Hy) as Hvy.
    pose proof (sbi_fifo_inplace_update_abs (tlb_update_cb (tlb_limit lim t)) (tlb_fifo y) Hwfy) as Hu.
    pose proof (update_list_split (tlb_limit lim t) (fifo_abs (tlb_fifo y))) as Hs.
    destruct (sbi_fifo_inplace_update _ _) as [ret f']. destruct Hu as (Hwf' & _ & Hu).
    rewrite <- Hu in Hs. simplify_eq. split.
    + apply cinv_on with x; [by eapply cinv_on|by apply on_other|]. split; [done|].
      case_decide; simpl; intros ?? [=]; subst; done.
    + right. unfold abs. simpl.
      destruct ret; simpl.
      1, 2: destruct Hs as (l1 & c & c' & l2 & E1 & E2 & Ecb);
        rewrite (view_issue _ _ _ _ _ _ Hx) by (done || by rewrite Hp); rewrite E2;
        by refine (vs_merge lim _ _ h _ t r rest _ c c' l1 l2 _ Hvx Hcall Hwait Hne Hvy E1 _ Ecb).
      rewrite (view_issue _ _ _ _ _ _ Hx), Hs by (done || by rewrite Hp).
      change (fifo_abs (tlb_fifo y)) with (vq (view_of y)). rewrite (view_same_queue _ _ _ Hvy).
      by eapply vs_limit.
  - simplify_eq. split; [by apply cinv_on with x|]. right. unfold abs. simpl.
    rewrite (view_alter _ (vset_call (Some (t, rest)) None)).
    + eapply vs_skip; try done. by rewrite list_lookup_fmap, Hy.
    + intros z Hz. simplify_eq. unfold view_of, vset_call. simpl. by rewrite Hp.
Qed.

Lemma sim_enq s h x t r rest s' : cinv s ->
  harts s !! h = Some x -> hpc x = Enq t r rest -> run lim h s = Some s' -> cinv s' /\ simulates s s'.
Proof.
  intros Hc Hx Hp H. unfold run, ipi_set_bit, tlb_sync_loop, ipi_process_loop in H. rewrite Hx in H. simpl in H. rewrite Hp in H.
  destruct (Hc h x Hx) as [Hwf Hq]. rewrite Hp in Hq. destruct (Hq t r eq_refl) as [Hok Hne].
  destruct (harts s !! r) as [y|] eqn:Hy; [|done]. simpl in H.
  pose proof (Hc r y Hy) as [Hwfy Hyq]. pose proof (view_lookup s r y Hy) as Hvy.
  pose proof (sbi_fifo_enqueue_abs (tlb_fifo y) t Hwfy) as He. cbv zeta in He.
  destruct (sbi_fifo_enqueue (tlb_fifo y) t) as [rc f']. destruct He as (Hwf' & _ & He).
  simplify_eq. split.
  - apply cinv_on with x; [by eapply cinv_on|by apply on_other|]. split; [done|].
    destruct (rc <? 0); simpl; intros ?? [=]; subst; done.
  - unfold simulates, abs. simpl. rewrite (view_issue _ _ _ _ _ _ Hx); [|done|by rewrite Hp|by destruct (rc <? 0)].
    destruct (_ =? _); injection He as -> ->; simpl.
    + left. f_equal. change (fifo_abs (tlb_fifo y)) with (vq (view_of y)).
      rewrite (view_same_queue _ _ _ Hvy). rewrite <- (view_alter (set_pc (Deq 0 (KEnq t r rest)))).
      * apply view_alter_id. intros z Hz. simplify_eq. unfold view_of. simpl. by rewrite Hp.
      * intros z Hz. simplify_eq. unfold view_of, vset_call. simpl. by rewrite Hp.
    + right. change (fifo_abs (tlb_fifo y)) with (vq (view_of y)).
      eapply vs_enqueue; try done; [by apply view_lookup|..]; simpl; by rewrite Hp.
Qed.

Lemma sim_deq s h x n k s' : cinv s -> harts s !! h = Some x -> hpc x = Deq n k ->
  tlb_dequeue h x n k s = Some s' -> cinv s' /\ simulates s s'.
Proof.
  intros Hc Hx Hp H. destruct (Hc h x Hx) as [Hwf Hq]. unfold tlb_dequeue in H.
  pose proof (sbi_fifo_dequeue_abs (tlb_fifo x) Hwf) as Hd.
  destruct (sbi_fifo_dequeue (tlb_fifo x)) as [[rc out] f']. destruct Hd as (Hwf' & _ & Hd).
  rewrite Hp in Hq.
  destruct (fifo_abs (tlb_fifo x)) as [|e q] eqn:Ea.
  - destruct Hd as [-> ->]. simpl in H. simplify_eq. destruct (resume_call k) as (E1 & E2 & E3 & E4). split.
    + apply cinv_on with x; [done|done|]. split; [done|]. simpl. by rewrite (E4 n).
    + apply sim_silent with x; [done|]. unfold view_of. simpl. by rewrite Hp, E1, E2, E3.
  - destruct Hd as (-> & -> & Ea'). simpl in H.
    destruct (call_local_fn e (hgatp x)) as [[fs g]|] eqn:Hfn; simplify_eq/=. split.
    + apply cinv_emit, cinv_on with x; [done|done|]. split; [done|]. by destruct k.
    + right. unfold abs. simpl.
      rewrite (view_alter _ (vset_deq (fifo_abs f') (map Z.to_nat (hartmask_harts (smask e))))).
      * eapply vs_dequeue; try done; [by apply view_lookup|done|simpl; by rewrite Hp].
      * intros z Hz. simplify_eq. unfold view_of, vset_deq. simpl. by rewrite Hp.
Qed.

Lemma sim_notify s h x rem n k : cinv s -> harts s !! h = Some x -> hpc x = Notify rem n k ->
  cinv (tlb_notify h rem n k s) /\ simulates s (tlb_notify h rem n k s).
Proof.
  intros Hc Hx Hp. destruct (Hc h x Hx) as [Hwf Hq]. rewrite Hp in Hq.
  assert (forall n', pc_enq (Deq n' k) = pc_enq (Notify rem n k)) as Hk by by destruct k.
  destruct (resume_call k) as (E1 & E2 & E3 & E4).
  assert (forall p, pc_call p = cont_call k -> pc_wait p = cont_wait k -> pc_rem p = [] ->
    rem = [] -> (forall n', pc_enq p = pc_enq (Deq n' k)) ->
    cinv (goto h p s) /\ simulates s (goto h p s)) as Hend.
  { intros p P1 P2 P3 -> P4. split.
    - apply cinv_on with x; [done|done|]. split; [done|]. simpl. by rewrite (P4 n), Hk.
    - apply sim_silent with x; [done|]. unfold view_of. simpl. by rewrite Hp, P1, P2, P3. }
  unfold tlb_notify. destruct rem as [|z rem].
  { destruct k; apply Hend; try done; by destruct (1 <? n + 1). }
  assert (forall f : hart -> hart, (forall y, hpc (f y) = hpc y /\ tlb_fifo (f y) = tlb_fifo y) ->
    forall p, pc_enq p = pc_enq (Notify (z :: rem) n k) -> cinv (on z f (goto h p s))) as Hcinv.
  { intros f Hf p Hpe. apply cinv_same; [done|]. apply cinv_on with x; [done|done|].
    split; [done|]. simpl. by rewrite Hpe. }
  destruct (harts s !! z) as [y|] eqn:Hz.
  - destruct (Z.eqb_spec (tlb_sync y) 0) as [E0|E0].
    + split; [apply Hcinv; [done|by destruct k]|]. right. unfold abs. simpl.
      rewrite (view_alter _ (vset_sync true)) by done.
      rewrite (view_alter _ (vset_rem rem)).
      * eapply vs_notify; [by apply view_lookup|]. simpl. by rewrite Hp.
      * intros u Hu. simplify_eq. unfold view_of, vset_rem. simpl. by rewrite Hp.
    + split; [by apply Hcinv|]. left. unfold abs. simpl. f_equal. rewrite !view_alter_id; [done| |].
      * intros u Hu. simplify_eq. unfold view_of. simpl. by rewrite Hp.
      * intros u Hu. apply lookup_alter_inv in Hu as (u' & Hu & ->). simplify_eq.
        assert (tlb_sync y =? 0 = false) as Hf by by apply Z.eqb_neq.
        unfold view_of. destruct (decide (h = z)); simpl; by rewrite Hf.
  - split; [apply cinv_on with x; [done|done|]; split; [done|exact Hq]|].
    right. unfold abs. simpl. rewrite (view_alter _ (vset_rem rem)).
    + assert (alter (vset_rem rem) h (view_of <$> harts s) =
        alter (vset_sync true) z (alter (vset_rem rem) h (view_of <$> harts s))) as E.
      { apply list_eq. intros i. destruct (decide (z = i)) as [<-|Hi].
        - rewrite list_lookup_alter_eq. destruct (decide (h = z)) as [<-|]; [congruence|].
          by rewrite list_lookup_alter_ne, list_lookup_fmap, Hz.
        - by rewrite (list_lookup_alter_ne _ _ z). }
      rewrite E. eapply vs_notify; [by apply view_lookup|]. simpl. by rewrite Hp.
    + intros u Hu. simplify_eq. unfold view_of, vset_rem. simpl. by rewrite Hp.
Qed.

Lemma sim_run s h s' : vinv lim (view_of <$> harts s) (trace s) -> cinv s -> run lim h s = Some s' ->
  cinv s' /\ simulates s s'.
Proof.
  intros Hi Hc H. pose proof H as H0. unfold run, ipi_set_bit, tlb_sync_loop, ipi_process_loop in H. destruct (harts s !! h) as [x|] eqn:Hx; [|done]. simpl in H.
  pose proof (view_lookup s h x Hx) as Hvx. pose proof (Hc h x Hx) as [Hwf Hq].
  destruct (hpc x) as [|t [|r rest]|t r rest|t r rest|t r rest|n k|rem n k|w ev] eqn:Hp; simplify_eq.
  - split; [by apply cinv_emit, cinv_on with x|]. right. unfold abs. simpl.
    rewrite (view_alter _ (vset_call None None)).
    + eapply vs_return; [done|]. simpl. by rewrite Hp.
    + intros u Hu. simplify_eq. unfold view_of, vset_call. simpl. by rewrite Hp.
  - by eapply sim_update.
  - by eapply sim_enq.
  - destruct (harts s !! r) as [y|] eqn:Hy; [|done]. simpl in H. simplify_eq. split.
    + assert (exists x', harts (on r (set_ipi (Z.lor (ipi_type y) (Z.shiftl 1 tlb_event))) s) !! h = Some x'
        /\ tlb_fifo x' = tlb_fifo x) as (x' & Hx' & Ef).
      { simpl. destruct (decide (r = h)) as [->|].
        - rewrite list_lookup_alter_eq, Hx. by eexists.
        - rewrite list_lookup_alter_ne by done. by eexists. }
      apply cinv_on with x'; [by apply cinv_same|done|]. split; [simpl; by rewrite Ef|done].
    + left. unfold abs. simpl. f_equal. rewrite !view_alter_id; [done|done|].
      intros u Hu. apply lookup_alter_inv in Hu as (u' & Hu & ->). simplify_eq.
      unfold view_of. destruct (decide (r = h)); simpl; by rewrite Hp.
  - destruct (Z.eqb_spec (tlb_sync x) 0) as [E0|E0].
    + split; [by apply cinv_on with x|]. apply sim_silent with x; [done|].
      unfold view_of. simpl. by rewrite Hp, E0.
    + split; [by apply cinv_on with x|]. right. unfold abs. simpl.
      rewrite (view_alter _ (vset_answer (Some (t, rest)))).
      * eapply vs_answered; [done|..]; simpl; rewrite ?Hp; try done. by destruct (Z.eqb_spec (tlb_sync x) 0).
      * intros u Hu. simplify_eq. unfold view_of, vset_answer. simpl. by rewrite Hp.
  - by eapply sim_deq.
  - by eapply sim_notify.
  - split; [apply cinv_on with x; [done|done|]; split; [done|]|apply sim_silent with x; [done|]];
      (destruct (w =? 0); [|destruct (_ && _)]); unfold view_of; simpl; by rewrite ?Hp.
Qed.

Lemma sim_step s s' : (length (harts s) <= 128)%nat -> vinv lim (view_of <$> harts s) (trace s) ->
  cinv s -> step lim (request_ok lim) s s' -> cinv s' /\ simulates s s'.
Proof.
  intros Hn Hi Hc Hs. destruct Hs.
  - split; [by apply cinv_emit, cinv_on with x; [| |split; [apply (Hc h x)|]]|]. right. unfold abs. simpl.
    rewrite (view_alter _ (vset_call (Some (t, map Z.to_nat targets)) None)).
    + apply vs_call with (view_of x); [by apply view_lookup|simpl; by rewrite H0|done|].
      apply lookup_lt_Some in H. revert H1. unfold sbi_ecall_rfence_handler.
      assert (sbi_hartmask_init_except (Z.of_nat h) = Z.shiftl 1 (Z.of_nat h)) as E.
      { unfold sbi_hartmask_init_except, SBI_HARTMASK_MAX_BITS.
        destruct (Z.ltb_spec (Z.of_nat h) 128); [done|lia]. }
      intros H1. destruct (_ && _); [done|].
      repeat match type of H1 with context [match ?z with _ => _ end] => destruct z end;
        simplify_eq; exact E.
    + intros u Hu. simplify_eq. unfold view_of, vset_call. simpl. by rewrite H0.
  - destruct (Hc h x H). split.
    + apply cinv_same; [done|]. by apply cinv_on with x.
    + left. unfold abs. simpl. f_equal. rewrite !view_alter_id; [done| |done].
      intros u Hu. simplify_eq. unfold view_of. simpl. by rewrite H0.
  - split; [apply cinv_on with x; [done|done|apply (Hc h x H)]|by apply sim_silent with x].
  - split; [apply cinv_on with x; [done|done|apply (Hc h x H)]|by apply sim_silent with x].
  - by eapply sim_run.
Qed.

(** ** What holds in every reachable state *)
Lemma init_inv n : (n <= 128)%nat ->
  cinv (init n) /\ vinv lim (view_of <$> harts (init n)) (trace (init n)).
Proof.
  intros Hn. assert (forall h x, harts (init n) !! h = Some x ->
    x = mk_hart Smode (sbi_fifo_init tlb_zero SBI_TLB_FIFO_NUM_ENTRIES) 0 0 0) as Hx.
  { intros h x H. by apply lookup_replicate in H as [-> _]. }
  split.
  - intros h x H. rewrite (Hx h x H). split; [|done]. by apply sbi_fifo_init_abs.
  - assert (forall h v, (view_of <$> harts (init n)) !! h = Some v -> v = mk_view [] [] false None None) as Hv.
    { intros h v H. rewrite list_lookup_fmap in H. apply fmap_Some_1 in H as (x & Hh & ->).
      by rewrite (Hx h x Hh). }
    constructor.
    + rewrite length_fmap. simpl. by rewrite length_replicate.
    + intros r w e H. rewrite (Hv r w H). intros []%elem_of_nil.
    + intros h v H. unfold tokens. rewrite H, (Hv h v H). simpl. rewrite Nat.add_0_r.
      clear. by induction n.
    + intros r w e h v H. rewrite (Hv r w H). intros []%elem_of_nil.
    + intros r w h v H. rewrite (Hv r w H). intros []%elem_of_nil.
    + intros h v H. by rewrite (Hv h v H).
    + intros h v t l H. by rewrite (Hv h v H).
    + intros h v r H. by rewrite (Hv h v H).
    + intros [] h tr2 H; done.
Qed.

Lemma run_length h s s' : run lim h s = Some s' -> length (harts s') = length (harts s).
Proof.
  unfold run, ipi_set_bit, tlb_sync_loop, ipi_process_loop, tlb_update, tlb_dequeue, tlb_notify, goto, mbind, option_bind. intros H.
  repeat (match type of H with
  | context [match ?z with _ => _ end] => destruct z; try discriminate H
  end); simplify_eq; simpl; rewrite ?length_alter; reflexivity.
Qed.

Lemma step_length s s' : step lim (request_ok lim) s s' -> length (harts s') = length (harts s).
Proof. destruct 1; simpl; rewrite ?length_alter; try done. by eapply run_length. Qed.

Theorem shoot_reachable_inv n s : (n <= 128)%nat -> reachable lim (request_ok lim) n s ->
  length (harts s) = n /\ cinv s /\ vinv lim (view_of <$> harts s) (trace s).
Proof.
  intros Hn. unfold reachable. apply (rtc_ind_r (fun s => length (harts s) = n /\ cinv s /\
    vinv lim (view_of <$> harts s) (trace s))).
  - split; [simpl; by rewrite length_replicate|]. by apply init_inv.
  - intros u v _ Huv (Hl & Hc & Hi). split; [by rewrite (step_length _ _ Huv)|].
    destruct (sim_step u v) as [Hc' Hs]; [lia|done|done|done|]. split; [done|].
    destruct Hs as [E|Hv].
    + unfold abs in E. by injection E as -> ->.
    + by apply (vstep_inv lim _ _ Hv).
Qed.

(** C6. Let all calls be well-formed ([request_ok]): the range is longer than the limit
    from which everything is flushed, or it starts at a page, ends below the top of the
    address space, is not the pair of zeroes that [sfence.vma] requests may use for all
    addresses, and names a VM that fits its field. Then, when a remote fence call of a hart
    returns, every hart among its targets has, since the call was made, executed fences that
    remove every translation that the request asks for: for up to 128 harts that call at
    once, for all interleavings, with requests merged, queues full and harts that serve
    others while they wait. [flush_all_call_lost] below is a call with both zeroes that
    returns without its flush. *)
Theorem remote_fence_complete n s tr1 h tr2 : (n <= 128)%nat ->
  reachable lim (request_ok lim) n s -> trace s = tr1 ++ Return h :: tr2 ->
  exists t targets evs, call_of h tr2 = Some (t, targets, evs) /\
    forall r, r ∈ targets -> (r < n)%nat -> served evs r t.
Proof.
  intros Hn Hr Ht. destruct (shoot_reachable_inv n s Hn Hr) as (Hl & _ & Hi).
  destruct (v_returned _ _ _ Hi tr1 h tr2 Ht) as (t & tg & evs & E & H).
  exists t, tg, evs. split; [done|]. by rewrite length_fmap, Hl in H.
Qed.

Lemma notify_ready_sync n s r x z rem c k y : (n <= 128)%nat ->
  reachable lim (request_ok lim) n s -> harts s !! r = Some x -> hpc x = Notify (z :: rem) c k ->
  harts s !! z = Some y -> tlb_sync y = 0.
Proof.
  intros Hn Hr Hx Hp Hy. destruct (shoot_reachable_inv n s Hn Hr) as (_ & _ & Hi).
  pose proof (notify_ready lim _ _ r (view_of x) z rem (view_of y) Hi) as H.
  rewrite !(view_lookup s) with (x := x) in H by done. simpl in H. rewrite Hp in H.
  specialize (H eq_refl eq_refl (view_lookup s z y Hy)). by destruct (Z.eqb_spec (tlb_sync y) 0).
Qed.

(** The word of a hart that is about to be notified is clear: the loop that
    notifies ends at its first exchange, and no notification is overwritten. *)
Theorem notify_first_exchange n s r x z rem c k y : (n <= 128)%nat ->
  reachable lim (request_ok lim) n s -> harts s !! r = Some x -> hpc x = Notify (z :: rem) c k ->
  harts s !! z = Some y ->
  tlb_sync y = 0 /\
  exists s' x' y', run lim r s = Some s' /\ harts s' !! r = Some x' /\ hpc x' = Notify rem c k /\
    harts s' !! z = Some y' /\ tlb_sync y' = 1.
Proof.
  intros Hn Hr Hx Hp Hy. pose proof (notify_ready_sync n s r x z rem c k y Hn Hr Hx Hp Hy) as E. split; [done|].
  destruct (shoot_reachable_inv n s Hn Hr) as (_ & _ & Hi).
  assert (z <> r) as Hne.
  { intros ->. destruct (v_rem _ _ _ Hi r (view_of x) r (view_of x)) as [Hw _];
      [by apply view_lookup|simpl; rewrite Hp; constructor|by apply view_lookup|].
    destruct (v_wait _ _ _ Hi r (view_of x) r) as [? _]; [by apply view_lookup|done|done]. }
  unfold run, ipi_set_bit, tlb_sync_loop, ipi_process_loop. rewrite Hx. simpl. rewrite Hp. simpl. rewrite Hy, E. simpl.
  do 3 eexists. split; [done|]. simpl. rewrite list_lookup_alter_ne, list_lookup_alter_eq, Hx by done.
  split; [done|]. split; [done|]. rewrite list_lookup_alter_eq, list_lookup_alter_ne, Hy by done. done.
Qed.

End Simulation.

(** ** Schedules

    A schedule that can be executed: calls, interrupts and steps of harts on a
    machine whose harts are all started and of one domain. *)
Inductive cmd := DoCall (h : nat) (funcid : Z) (r : regs) | DoIpi (h : nat) | DoRun (h : nat).

Definition exec_cmd (lim : Z) (s : state) (c : cmd) : option state :=
  match c with
  | DoCall h funcid r =>
      x ← harts s !! h;
      match hpc x, sbi_ecall_rfence_handler true (hgatp x) (Z.of_nat h) funcid r,
            sbi_ipi_send_many (2 ^ 128 - 1) (fun _ => 0) (Z.of_nat (length (harts s)) - 1) (a0 r) (a1 r) with
      | Smode, inr t, inr tg =>
          Some (emit (Call h t (map Z.to_nat tg)) (goto h (SendNext t (map Z.to_nat tg)) s))
      | _, _, _ => None
      end
  | DoIpi h =>
      x ← harts s !! h;
      match hpc x with
      | Smode => Some (on h (set_ipi 0) (goto h (Ipi (ipi_type x) 0) s))
      | _ => None
      end
  | DoRun h => run lim h s
  end.
Fixpoint exec (lim : Z) (s : state) (cs : list cmd) : option state :=
  match cs with
  | [] => Some s
  | c :: cs' => s' ← exec_cmd lim s c; exec lim s' cs'
  end.

Definition cmd_allowed (allowed : sbi_tlb_info -> Prop) (c : cmd) : Prop :=
  match c with
  | DoCall h funcid r => forall g t,
      sbi_ecall_rfence_handler true g (Z.of_nat h) funcid r = inr t -> allowed t
  | _ => True
  end.

Lemma exec_reaches lim allowed cs : forall s s', Forall (cmd_allowed allowed) cs ->
  exec lim s cs = Some s' -> rtc (step lim allowed) s s'.
Proof.
  induction cs as [|c cs IH]; intros s s' Ha H; simpl in H; [by simplify_eq|].
  inversion Ha as [|?? Hc Hcs]; subst. destruct (exec_cmd lim s c) as [u|] eqn:Eu; [|done].
  apply rtc_l with u; [|by apply IH]. clear IH H. destruct c as [h f r|h|h]; simpl in *.
  - destruct (harts s !! h) as [x|] eqn:Hx; [|done]. simpl in Eu.
    destruct (hpc x) eqn:Hp; try done.
    destruct (sbi_ecall_rfence_handler _ _ _ _ _) as [|t] eqn:Et; [done|].
    destruct (sbi_ipi_send_many _ _ _ _ _) as [|tg] eqn:Etg; [done|]. simplify_eq.
    by eapply step_call; [..|by eapply Hc].
  - destruct (harts s !! h) as [x|] eqn:Hx; [|done]. simpl in Eu.
    destruct (hpc x) eqn:Hp; try done. simplify_eq. by eapply step_ipi.
  - by eapply step_run.
Qed.

(** Harts 1 and 2 ask hart 0 to flush ranges, the second of which is merged into
    the first; hart 0 serves both. [first] and [second] are the registers of the
    two calls. *)
Definition merge_schedule (first second : regs) : list cmd :=
  [DoCall 1 1 first; DoRun 1; DoRun 1; DoRun 1;
   DoCall 2 1 second; DoRun 2; DoRun 2;
   DoIpi 0; DoRun 0; DoRun 0; DoRun 0; DoRun 0; DoRun 0; DoRun 0;
   DoRun 2; DoRun 2].

Definition page_schedule : list cmd :=
  merge_schedule (mk_regs 1 0 0x1000 0x1000 0) (mk_regs 1 0 0x1000 0x1000 0).

Lemma page_schedule_allowed : Forall (cmd_allowed (request_ok 0x1000)) page_schedule.
Proof.
  assert (forall m, request_ok 0x1000 (mk_tlb 0x1000 0x1000 0 0 local_sfence_vma m)) as H.
  { intros m. right. split; [split; simpl; try (unfold PAGE_SIZE; lia); reflexivity|simpl; lia]. }
  unfold page_schedule, merge_schedule. rewrite !Forall_cons. repeat split; try done;
    intros g t [= <-]; apply H.
Qed.

Lemma remote_fence_complete_witness :
  exists s tr2, reachable 0x1000 (request_ok 0x1000) 3 s /\ trace s = [] ++ Return 2 :: tr2 /\
    exists t targets evs, call_of 2 tr2 = Some (t, targets, evs) /\
      forall r, r ∈ targets -> (r < 3)%nat -> served evs r t.
Proof.
  set (cs := page_schedule).
  assert (Forall (cmd_allowed (request_ok 0x1000)) cs) as Ha.
  { apply page_schedule_allowed. }
  destruct (exec 0x1000 (init 3) cs) as [s|] eqn:E; [|vm_compute in E; discriminate].
  pose proof (exec_reaches _ _ _ _ _ Ha E) as Hr.
  assert (trace s = [] ++ Return 2 :: drop 1 (trace s)) as Ht by (vm_compute in E; injection E as <-; reflexivity).
  exists s, (drop 1 (trace s)). split; [exact Hr|]. split; [exact Ht|].
  exact (remote_fence_complete 0x1000 3 s [] 2 _ ltac:(lia) Hr Ht).
Defined.

Lemma notify_first_exchange_witness :
  exists s x z rem c k y, reachable 0x1000 (request_ok 0x1000) 3 s /\ harts s !! 0%nat = Some x /\
    hpc x = Notify (z :: rem) c k /\ harts s !! z = Some y /\ tlb_sync y = 0 /\
    exists s' x' y', run 0x1000 0 s = Some s' /\ harts s' !! 0%nat = Some x' /\ hpc x' = Notify rem c k /\
      harts s' !! z = Some y' /\ tlb_sync y' = 1.
Proof.
  set (cs := take 12 page_schedule).
  assert (Forall (cmd_allowed (request_ok 0x1000)) cs) as Ha.
  { apply Forall_take, page_schedule_allowed. }
  destruct (exec 0x1000 (init 3) cs) as [s|] eqn:E; [|vm_compute in E; discriminate].
  pose proof (exec_reaches _ _ _ _ _ Ha E) as Hr. vm_compute in E. injection E as Es.
  do 7 eexists. split; [exact Hr|]. rewrite <- Es. do 3 (split; [reflexivity|]). rewrite Es.
  refine (notify_first_exchange 0x1000 3 s 0 _ _ _ _ _ _ ltac:(lia) Hr _ _ _);
    rewrite <- ?Es; reflexivity.
Defined.

(** When a request to flush all addresses is written with [start] and [size] zero,
    a call can return without the flush: hart 2 asks for all addresses while a range
    of hart 1 that starts at 0 is queued, and hart 0 flushes one page for both. *)
Theorem flush_all_call_lost :
  exists s tr2, reachable 0x1000 (fun _ => True) 3 s /\ trace s = Return 2 :: tr2 /\
    exists t evs, call_of 2 tr2 = Some (t, [0%nat], evs) /\
      requested t (TS 0 0x1000) = true /\
      forall fs, Flush 0 fs ∈ evs -> flushed fs (TS 0 0x1000) = false.
Proof.
  set (cs := merge_schedule (mk_regs 1 0 0 0x1000 0) (mk_regs 1 0 0 0 0)).
  destruct (exec 0x1000 (init 3) cs) as [s|] eqn:E; [|vm_compute in E; discriminate].
  assert (reachable 0x1000 (fun _ => True) 3 s) as Hr.
  { eapply exec_reaches; [|exact E]. by repeat constructor. }
  vm_compute in E. injection E as <-.
  do 2 eexists. split; [exact Hr|]. split; [reflexivity|]. do 2 eexists. split; [reflexivity|].
  split; [reflexivity|]. intros fs Hf.
  repeat (apply elem_of_cons in Hf as [Hf|Hf]; [try discriminate Hf; injection Hf as ->; reflexivity|]).
  by apply elem_of_nil in Hf.
Qed.
