(* ===== verification/SbiLive.v ===== *)
(** * Remote fences of the firmware: calls can always return

    On the machine of SbiShoot, from every state that it reaches and for every hart
    that is in a remote fence call, there is a continuation in which the call
    returns: no wake-up is lost and no set of harts that wait for each other, with
    queues full or not, is stuck. *)

From S2P Require Import Prelude SbiFifo SbiTlb SbiShoot.

(** The target that a program counter has chosen, and the events that
    [sbi_ipi_process] has still to handle. *)
Definition cont_target (k : cont) : option nat :=
  match k with KEnq _ r _ | KSync _ r _ => Some r | KIpi _ _ => None end.
Definition pc_target (p : pc) : option nat :=
  match p with
  | Enq _ r _ | SetBit _ r _ | Sync _ r _ => Some r
  | Deq _ k | Notify _ _ k => cont_target k
  | _ => None
  end.
Definition pc_word (p : pc) : Z :=
  match p with
  | Ipi w _ | Deq _ (KIpi w _) | Notify _ _ (KIpi w _) => w
  | _ => 0
  end.

(** The hart will run [tlb_process] before it leaves the firmware. *)
Definition busy (p : pc) : Prop :=
  match p with
  | Deq _ (KIpi _ _) | Notify _ _ (KIpi _ _) => True
  | Ipi w ev => 0 <= ev <= tlb_event /\ Z.testbit w (tlb_event - ev) = true
  | _ => False
  end.

(** Hart [r] has been woken, or is about to be. *)
Definition attended (hs : list hart) (r : nat) (y : hart) : Prop :=
  Z.testbit (ipi_type y) tlb_event = true \/ busy (hpc y) \/
  exists h x t rest, hs !! h = Some x /\ hpc x = SetBit t r rest.

Record linv (hs : list hart) : Prop := {
  l_att r y : hs !! r = Some y -> fifo_abs (tlb_fifo y) <> [] -> attended hs r y;
  l_target h x r : hs !! h = Some x -> pc_target (hpc x) = Some r -> is_Some (hs !! r);
  l_word h x : hs !! h = Some x -> 0 <= ipi_type x /\ 0 <= pc_word (hpc x) }.

(** A step that moves the program counter of [h] and changes nothing else. *)
Lemma linv_goto hs h x p : linv hs -> hs !! h = Some x ->
  (forall t r rest, hpc x <> SetBit t r rest) ->
  (busy (hpc x) -> fifo_abs (tlb_fifo x) <> [] -> busy p) ->
  (forall r, pc_target p = Some r -> is_Some (hs !! r)) -> 0 <= pc_word p ->
  linv (alter (set_pc p) h hs).
Proof.
  intros [] Hx Hs Hb Ht Hw. constructor.
  - intros r y Hy Hq. alt.
    assert (fifo_abs (tlb_fifo y0) <> []) as Hq' by by destruct (decide (h = r)).
    destruct (l_att0 r y0 Hy Hq') as [H|[H|(i & z & t & rest & Hz & Ez)]].
    + left. by destruct (decide (h = r)).
    + right. left. destruct (decide (h = r)) as [->|]; [|done]. simplify_eq. by apply Hb.
    + right. right. exists i, z, t, rest. split; [|done].
      destruct (decide (h = i)) as [->|]; [|by rewrite list_lookup_alter_ne].
      simplify_eq. by destruct (Hs t r rest).
  - intros i z r Hz Hr. alt. assert (is_Some (hs !! r)) as [u Hu].
    { destruct (decide (h = i)); simpl in Hr; eauto. }
    destruct (alter (set_pc p) h hs !! r) eqn:E; [done|]. apply lookup_ge_None in E.
    rewrite length_alter in E. apply lookup_lt_Some in Hu. lia.
  - intros i z Hz. alt. destruct (l_word0 i z0 Hz). by destruct (decide (h = i)).
Qed.

(** A step that changes what does not matter here. *)
Lemma linv_same hs h f : linv hs ->
  (forall y, hs !! h = Some y -> hpc (f y) = hpc y /\ ipi_type (f y) = ipi_type y /\
     (fifo_abs (tlb_fifo (f y)) <> [] -> fifo_abs (tlb_fifo y) <> [])) ->
  linv (alter f h hs).
Proof.
  intros [] Hf.
  assert (forall i y, alter f h hs !! i = Some y -> exists y0, hs !! i = Some y0 /\ hpc y = hpc y0 /\
    ipi_type y = ipi_type y0 /\ (fifo_abs (tlb_fifo y) <> [] -> fifo_abs (tlb_fifo y0) <> [])) as Hl.
  { intros i y Hy. alt. exists y0. split; [done|]. destruct (decide (h = i)); [subst; by apply Hf|done]. }
  assert (forall i y0, hs !! i = Some y0 -> exists y, alter f h hs !! i = Some y /\ hpc y = hpc y0) as Hl'.
  { intros i y0 Hy. destruct (decide (h = i)) as [->|].
    - rewrite list_lookup_alter_eq, Hy. simpl. eexists. split; [done|]. by apply Hf.
    - rewrite list_lookup_alter_ne by done. eauto. }
  constructor.
  - intros r y Hy Hq. destruct (Hl r y Hy) as (y0 & Hy0 & E1 & E2 & E3).
    destruct (l_att0 r y0 Hy0 (E3 Hq)) as [H|[H|(i & z & t & rest & Hz & Ez)]].
    + left. by rewrite E2.
    + right. left. by rewrite E1.
    + right. right. destruct (Hl' i z Hz) as (z' & Hz' & E). exists i, z', t, rest. by rewrite E.
  - intros i z r Hz Hr. destruct (Hl i z Hz) as (z0 & Hz0 & E1 & _). rewrite E1 in Hr.
    destruct (l_target0 i z0 r Hz0 Hr) as [u Hu]. destruct (Hl' r u Hu) as (? & ? & _). by eexists.
  - intros i z Hz. destruct (Hl i z Hz) as (z0 & Hz0 & E1 & E2 & _). rewrite E1, E2. by apply l_word0 with i.
Qed.

Lemma alter_alter {A} (f g : A -> A) (h : nat) (l : list A) :
  alter (fun y => f (g y)) h l = alter f h (alter g h l).
Proof. revert h. induction l as [|a l IH]; intros [|h]; simpl; try done. f_equal. apply IH. Qed.

Lemma is_some_alter {A} (f : A -> A) (h r : nat) (l : list A) :
  is_Some (l !! r) -> is_Some (alter f h l !! r).
Proof. rewrite !lookup_lt_is_Some, length_alter. done. Qed.

Lemma set_event_nonneg v e : 0 <= v -> 0 <= Z.lor v (Z.shiftl 1 e).
Proof. intros Hv. apply Z.lor_nonneg. split; [done|]. by apply Z.shiftl_nonneg. Qed.

(** [h] has put a request into the queue of [r], and will wake [r]. *)
Lemma linv_issue hs h x f t r rest : linv hs -> hs !! h = Some x -> r <> h -> is_Some (hs !! r) ->
  (forall t r rest, hpc x <> SetBit t r rest) -> ~ busy (hpc x) ->
  linv (alter (set_pc (SetBit t r rest)) h (alter (set_fifo f) r hs)).
Proof.
  intros [] Hx Hne Hr Hs Hb. constructor.
  - intros i y Hy Hq. destruct (decide (i = r)) as [->|Hi].
    { right. right. exists h, (set_pc (SetBit t r rest) x), t, rest. split; [|done].
      rewrite list_lookup_alter_eq, list_lookup_alter_ne, Hx by done. done. }
    alt. destruct (decide (r = i)) as [|]; [done|].
    assert (fifo_abs (tlb_fifo y1) <> []) as Hq' by by destruct (decide (h = i)).
    destruct (l_att0 i y1 Hy Hq') as [H|[H|(j & z & t' & rest' & Hz & Ez)]].
    + left. by destruct (decide (h = i)).
    + right. left. destruct (decide (h = i)) as [->|]; [by simplify_eq|done].
    + right. right. assert (j <> h) by (intros ->; simplify_eq; by destruct (Hs t' i rest')).
      destruct (decide (j = r)) as [->|].
      * exists r, (set_fifo f z), t', rest'. split; [|done].
        by rewrite list_lookup_alter_ne, list_lookup_alter_eq, Hz.
      * exists j, z, t', rest'. split; [|done]. by rewrite !list_lookup_alter_ne.
  - intros i z r' Hz Hr'. do 2 apply is_some_alter. alt.
    destruct (decide (h = i)), (decide (r = i)); simplify_eq/=; eauto.
  - intros i z Hz. alt. destruct (l_word0 i z1 Hz).
    destruct (decide (h = i)), (decide (r = i)); simpl; done || lia.
Qed.

(** [h] wakes [r]. *)
Lemma linv_setbit hs h x y t r rest : linv hs -> hs !! h = Some x -> hpc x = SetBit t r rest ->
  hs !! r = Some y ->
  linv (alter (set_pc (Sync t r rest)) h
         (alter (set_ipi (Z.lor (ipi_type y) (Z.shiftl 1 tlb_event))) r hs)).
Proof.
  intros [] Hx Hp Hy. assert (forall v, Z.testbit (Z.lor v (Z.shiftl 1 tlb_event)) tlb_event = true) as Hbit.
  { intros v. rewrite Z.lor_spec. apply orb_true_r. }
  constructor.
  - intros i u Hu Hq. alt. destruct (decide (r = i)) as [->|Hi].
    { left. destruct (decide (h = i)); apply Hbit. }
    assert (fifo_abs (tlb_fifo u1) <> []) as Hq' by by destruct (decide (h = i)).
    destruct (l_att0 i u1 Hu Hq') as [H|[H|(j & z & t' & rest' & Hz & Ez)]].
    + left. by destruct (decide (h = i)).
    + right. left. destruct (decide (h = i)) as [->|]; [|done]. simplify_eq. by rewrite Hp in H.
    + right. right. assert (j <> h) by (intros ->; simplify_eq; congruence).
      destruct (decide (j = r)) as [->|].
      * eexists r, _, t', rest'. rewrite list_lookup_alter_ne, list_lookup_alter_eq, Hz by done. by split.
      * exists j, z, t', rest'. split; [|done]. by rewrite !list_lookup_alter_ne.
  - intros i z r' Hz Hr'. do 2 apply is_some_alter. alt.
    destruct (decide (h = i)), (decide (r = i)); simplify_eq/=; eauto.
  - intros i z Hz. alt. destruct (l_word0 i z1 Hz). destruct (l_word0 r y Hy) as [Hw _].
    assert (0 <= Z.lor (ipi_type y) (Z.shiftl 1 tlb_event)) by by apply set_event_nonneg.
    destruct (decide (h = i)), (decide (r = i)); simpl; done || lia.
Qed.

(** A hart takes its interrupt; another event is raised. *)
Lemma linv_ipi hs h x : linv hs -> hs !! h = Some x -> hpc x = Smode ->
  linv (alter (set_ipi 0) h (alter (set_pc (Ipi (ipi_type x) 0)) h hs)).
Proof.
  intros [] Hx Hp. destruct (l_word0 h x Hx) as [Hw _]. rewrite <- alter_alter. constructor.
  - intros i u Hu Hq. alt.
    assert (fifo_abs (tlb_fifo u0) <> []) as Hq' by by destruct (decide (h = i)).
    destruct (l_att0 i u0 Hu Hq') as [H|[H|(j & z & t' & rest' & Hz & Ez)]].
    + destruct (decide (h = i)) as [->|]; [|by left]. simplify_eq. right. left. simpl.
      unfold tlb_event in *. split; [lia|done].
    + right. left. destruct (decide (h = i)) as [->|]; [|done]. simplify_eq. by rewrite Hp in H.
    + right. right. exists j, z, t', rest'. split; [|done]. rewrite list_lookup_alter_ne; [done|].
      intros ->. simplify_eq. congruence.
  - intros i z r' Hz Hr'. apply is_some_alter. alt. destruct (decide (h = i)); simplify_eq/=; eauto.
  - intros i z Hz. alt. destruct (l_word0 i z0 Hz). destruct (decide (h = i)); simpl; done || lia.
Qed.

Lemma linv_smode hs h x : linv hs -> hs !! h = Some x ->
  linv (alter (set_ipi (Z.lor (ipi_type x) (Z.shiftl 1 ipi_smode_event))) h hs).
Proof.
  intros [] Hx. destruct (l_word0 h x Hx) as [Hw _]. constructor.
  - intros i u Hu Hq. alt.
    assert (fifo_abs (tlb_fifo u0) <> []) as Hq' by by destruct (decide (h = i)).
    destruct (l_att0 i u0 Hu Hq') as [H|[H|(j & z & t' & rest' & Hz & Ez)]].
    + left. destruct (decide (h = i)) as [->|]; [|done]. simplify_eq.
      change (Z.testbit (Z.lor (ipi_type x) (Z.shiftl 1 ipi_smode_event)) tlb_event = true).
      by rewrite Z.lor_spec, H.
    + right. left. by destruct (decide (h = i)).
    + right. right. destruct (decide (h = j)) as [->|].
      * eexists j, _, t', rest'. rewrite list_lookup_alter_eq, Hz. by split.
      * exists j, z, t', rest'. split; [|done]. by rewrite list_lookup_alter_ne.
  - intros i z r' Hz Hr'. apply is_some_alter. alt. destruct (decide (h = i)); simplify_eq/=; eauto.
  - intros i z Hz. alt. destruct (l_word0 i z0 Hz).
    assert (0 <= Z.lor (ipi_type x) (Z.shiftl 1 ipi_smode_event)) by by apply set_event_nonneg.
    destruct (decide (h = i)); simpl; done || lia.
Qed.

Lemma linv_move hs h x p (f : hart -> hart) : linv hs -> hs !! h = Some x ->
  hpc (f x) = hpc x /\ ipi_type (f x) = ipi_type x /\
    (fifo_abs (tlb_fifo (f x)) <> [] -> fifo_abs (tlb_fifo x) <> []) ->
  (forall t r rest, hpc x <> SetBit t r rest) ->
  (busy (hpc x) -> fifo_abs (tlb_fifo (f x)) <> [] -> busy p) ->
  (forall r, pc_target p = Some r -> is_Some (hs !! r)) -> 0 <= pc_word p ->
  linv (alter (fun y => set_pc p (f y)) h hs).
Proof.
  intros Hl Hx Hf Hs Hb Ht Hw. rewrite alter_alter. destruct Hf as (E1 & E2 & E3).
  apply linv_goto with (f x); try done.
  - apply linv_same; [done|]. intros y Hy. by simplify_eq.
  - by rewrite list_lookup_alter_eq, Hx.
  - intros ???. rewrite E1. apply Hs.
  - by rewrite E1.
  - intros r Hr. by apply is_some_alter, Ht.
Qed.

Section Live.
Variable lim : Z.
Abbreviation reach := (reachable lim (request_ok lim)).

Lemma linv_update s h x t r rest s' : cinv s -> linv (harts s) -> harts s !! h = Some x ->
  hpc x = SendNext t (r :: rest) -> tlb_update lim h r x t rest s = Some s' -> linv (harts s').
Proof.
  intros Hc Hl Hx Hp H. unfold tlb_update in H.
  assert (forall p f, hpc (f x) = hpc x /\ ipi_type (f x) = ipi_type x /\
    (fifo_abs (tlb_fifo (f x)) <> [] -> fifo_abs (tlb_fifo x) <> []) ->
    (forall r, pc_target p = Some r -> is_Some (harts s !! r)) -> pc_word p = 0 ->
    linv (alter (fun y => set_pc p (f y)) h (harts s))) as Hmove.
  { intros p f Hf Ht Hw. apply linv_move with x; try done; rewrite ?Hw, ?Hp; done. }
  destruct (harts s !! r) as [y|] eqn:Hy; [destruct (decide (r = h)) as [->|Hne]|].
  - destruct (call_local_fn _ _) as [[fs g]|]; simplify_eq/=. by apply (Hmove _ (set_hgatp g)).
  - pose proof (Hc r y Hy) as [Hwf _].
    pose proof (sbi_fifo_inplace_update_abs (tlb_update_cb (tlb_limit lim t)) (tlb_fifo y) Hwf) as Hu.
    pose proof (update_list_split (tlb_limit lim t) (fifo_abs (tlb_fifo y))) as Hs.
    destruct (sbi_fifo_inplace_update _ _) as [ret f']. destruct Hu as (_ & _ & Hu).
    rewrite <- Hu in Hs. simplify_eq. simpl. case_decide as Eu.
    + subst ret. apply linv_goto with x; try done; rewrite ?Hp; try done.
      * apply linv_same; [done|]. intros z Hz. simplify_eq/=. by rewrite Hs.
      * by rewrite list_lookup_alter_ne.
      * simpl. intros ? [= <-]. apply is_some_alter. by eexists.
    + apply linv_issue with x; rewrite ?Hp, ?Hy; try done; solve [by eexists|by intros []].
  - simplify_eq. by apply (Hmove _ id).
Qed.

Lemma linv_run s h s' : cinv s -> linv (harts s) -> run lim h s = Some s' -> linv (harts s').
Proof.
  intros Hc Hl H. unfold run, ipi_set_bit, tlb_sync_loop, ipi_process_loop in H. destruct (harts s !! h) as [x|] eqn:Hx; [|done]. simpl in H.
  pose proof (Hc h x Hx) as [Hwf Hq]. pose proof (l_word _ Hl h x Hx) as [_ Hw].
  pose proof (l_target _ Hl h x) as Ht.
  destruct (hpc x) as [|t [|r rest]|t r rest|t r rest|t r rest|n k|rem n k|w ev] eqn:Hp; simplify_eq.
  - apply (linv_move _ h x Smode id); rewrite ?Hp; done.
  - by eapply linv_update.
  - destruct (harts s !! r) as [y|] eqn:Hy; [|done]. simpl in H.
    pose proof (Hc r y Hy) as [Hwfy _]. destruct (Hq t r eq_refl) as [_ Hne].
    pose proof (sbi_fifo_enqueue_abs (tlb_fifo y) t Hwfy) as He. cbv zeta in He.
    destruct (sbi_fifo_enqueue (tlb_fifo y) t) as [rc f']. destruct He as (_ & _ & He). simplify_eq. simpl.
    destruct (_ =? _); injection He as -> Ef; simpl.
    + apply linv_goto with x; try done; rewrite ?Hp; try done.
      * apply linv_same; [done|]. intros z Hz. simplify_eq/=. by rewrite Ef.
      * by rewrite list_lookup_alter_ne.
      * simpl. intros ? [= <-]. apply is_some_alter. by eexists.
    + apply linv_issue with x; rewrite ?Hp, ?Hy; try done; solve [by eexists|by intros []].
  - destruct (harts s !! r) as [y|] eqn:Hy; [|done]. simplify_eq/=. by eapply linv_setbit.
  - apply (linv_move _ h x _ (set_sync 0)); rewrite ?Hp; try done.
    + destruct (tlb_sync x =? 0); simpl; [|done]. intros ? [= <-]. by apply Ht.
    + by destruct (tlb_sync x =? 0).
  - unfold tlb_dequeue in H. pose proof (sbi_fifo_dequeue_abs (tlb_fifo x) Hwf) as Hd.
    destruct (sbi_fifo_dequeue (tlb_fifo x)) as [[rc out] f']. destruct Hd as (_ & _ & Hd).
    destruct (fifo_abs (tlb_fifo x)) as [|e q] eqn:Ea.
    + destruct Hd as [-> ->]. simpl in H. simplify_eq.
      apply (linv_move _ h x _ (set_fifo (tlb_fifo x))); rewrite ?Hp; try done; destruct k; simpl; try done;
        rewrite ?Ea; try done; intros ? [= <-]; by apply Ht.
    + destruct Hd as (-> & -> & Ef). simpl in H.
      destruct (call_local_fn e (hgatp x)) as [[fs g]|]; simplify_eq/=.
      apply (linv_move _ h x _ (fun y => set_hgatp g (set_fifo f' y))); rewrite ?Hp; simpl; try done;
        rewrite ?Ea; try done; solve [by destruct k|by auto].
  - unfold tlb_notify. assert (forall p, pc_target p = cont_target k -> 0 <= pc_word p ->
      (busy (hpc x) -> busy p) -> linv (alter (set_pc p) h (harts s))) as Hm.
    { intros p H1 H2 H3. apply (linv_move _ h x p id); rewrite ?Hp in *; try done; auto.
      rewrite H1. intros r Hr. by apply Ht. }
    destruct rem as [|z rem].
    + destruct k; simpl; apply Hm; rewrite ?Hp; try done; by destruct (1 <? n + 1).
    + destruct (harts s !! z) as [y|]; simpl; [apply linv_same; [|done]|];
        apply Hm; rewrite ?Hp; try (by destruct k); try (by destruct (tlb_sync y =? 0));
        destruct (tlb_sync y =? 0); by destruct k.
  - simpl in Hw. simpl. apply (linv_move _ h x _ id); rewrite ?Hp; try done.
    + intros [He Hb] _. destruct (Z.eqb_spec w 0) as [->|]; [by rewrite Z.bits_0 in Hb|].
      destruct (Z.eqb_spec ev tlb_event) as [->|Hne].
      * rewrite Z.sub_diag in Hb. by rewrite <- Z.bit0_odd, Hb.
      * rewrite andb_false_r. simpl. split; [lia|]. rewrite Z.shiftr_spec by lia. rewrite <- Hb. f_equal. lia.
    + destruct (w =? 0); [done|]. by destruct (_ && _).
    + destruct (w =? 0); [done|]. destruct (_ && _); simpl; by apply Z.shiftr_nonneg.
Qed.

Lemma linv_step s s' : cinv s -> linv (harts s) -> step lim (request_ok lim) s s' -> linv (harts s').
Proof.
  intros Hc Hl Hs. destruct Hs; simpl.
  - apply (linv_move _ h x _ id); rewrite ?H0; done.
  - by apply linv_ipi.
  - by apply linv_smode.
  - by apply linv_same.
  - by eapply linv_run.
Qed.

Lemma reachable_linv n s : (n <= 128)%nat -> reach n s -> linv (harts s).
Proof.
  intros Hn Hr. assert (reach n s /\ linv (harts s)) as [_ H]; [|done]. revert s Hr.
  apply (rtc_ind_r (fun s => reach n s /\ linv (harts s))).
  - split; [apply rtc_refl|]. constructor; simpl; intros ? ?.
    + intros [-> _]%lookup_replicate. done.
    + intros ? [-> _]%lookup_replicate. done.
    + intros [-> _]%lookup_replicate. done.
  - intros u v _ Huv [Hu Hl]. split; [by eapply rtc_r|].
    destruct (shoot_reachable_inv lim n u Hn Hu) as (_ & Hc & _). by eapply linv_step.
Qed.

(** No wake-up is lost: when a hart is in supervisor mode and requests are
    queued for it, its event is pending or a hart is about to raise it. *)
Theorem no_lost_wakeup n s r y : (n <= 128)%nat -> reach n s -> harts s !! r = Some y ->
  hpc y = Smode -> fifo_abs (tlb_fifo y) <> [] ->
  Z.testbit (ipi_type y) tlb_event = true \/
  exists h x t rest, harts s !! h = Some x /\ hpc x = SetBit t r rest.
Proof.
  intros Hn Hr Hy Hp Hq. destruct (l_att _ (reachable_linv n s Hn Hr) r y Hy Hq) as [?|[Hb|?]]; auto.
  by rewrite Hp in Hb.
Qed.

(** ** One step of a hart *)
Abbreviation entries x := (fifo_abs (tlb_fifo x)).

(** Where the next step of hart [r] leads, from [y] to [y']. *)
Definition next_pc (s : state) (y y' : hart) : Prop :=
  match hpc y with
  | Smode => False
  | SendNext t [] => entries y' = entries y /\ hpc y' = Smode
  | SendNext t (r2 :: rest) => entries y' = entries y /\ exists t',
      hpc y' = SendNext t' rest \/ hpc y' = Enq t' r2 rest \/ hpc y' = SetBit t' r2 rest
  | Enq t r2 rest => entries y' = entries y /\
      (hpc y' = SetBit t r2 rest \/
       hpc y' = Deq 0 (KEnq t r2 rest) /\ exists z, harts s !! r2 = Some z /\ entries z <> [])
  | SetBit t r2 rest => entries y' = entries y /\ hpc y' = Sync t r2 rest
  | Sync t r2 rest => entries y' = entries y /\
      (hpc y' = SendNext t rest \/ hpc y' = Deq 0 (KSync t r2 rest) /\ tlb_sync y = 0)
  | Deq n k => (entries y = [] /\ entries y' = [] /\ hpc y' = resume k) \/
      exists e rem, entries y = e :: entries y' /\ hpc y' = Notify rem n k
  | Notify (z :: rem) n k => entries y' = entries y /\ hpc y' = Notify rem n k
  | Notify [] n k => entries y' = entries y /\
      hpc y' = match k with
               | KIpi _ _ => Deq n k
               | _ => if 1 <? n + 1 then resume k else Deq (n + 1) k
               end
  | Ipi w ev => entries y' = entries y /\
      hpc y' = if w =? 0 then Smode
               else if Z.testbit w 0 && (ev =? tlb_event) then Deq 0 (KIpi (Z.shiftr w 1) (ev + 1))
               else Ipi (Z.shiftr w 1) (ev + 1)
  end.

(** Other harts stay where they are, or have raised an event. *)
Definition same_pc (p p' : pc) : Prop :=
  p' = p \/ exists t q rest, p = SetBit t q rest /\ p' = Sync t q rest.
Definition frame (r : nat) (s s' : state) : Prop :=
  forall h x, h <> r -> harts s !! h = Some x ->
    exists x', harts s' !! h = Some x' /\ same_pc (hpc x) (hpc x').

Lemma frame_refl r s : frame r s s.
Proof. intros h x _ Hx. exists x. split; [done|by left]. Qed.

Lemma frame_trans r s1 s2 s3 : frame r s1 s2 -> frame r s2 s3 -> frame r s1 s3.
Proof.
  intros H1 H2 h x Hn Hx. destruct (H1 h x Hn Hx) as (y & Hy & E1).
  destruct (H2 h y Hn Hy) as (z & Hz & E2). exists z. split; [done|].
  destruct E1 as [E1|(t & q & rest & E1 & E1')], E2 as [E2|(t2 & q2 & rest2 & E2 & E2')].
  - left. congruence.
  - right. exists t2, q2, rest2. by rewrite <- E1.
  - right. exists t, q, rest. by rewrite E2.
  - congruence.
Qed.

(** An update of [r] after one of another hart that keeps its program counter. *)
Lemma frame_on r s f : frame r s (on r f s).
Proof.
  intros h x Hn Hx. exists x. split; [|by left]. simpl. by rewrite list_lookup_alter_ne.
Qed.
Lemma frame_keep r i s f : (forall y, hpc (f y) = hpc y) -> frame r s (on i f s).
Proof.
  intros Hf h x Hn Hx. simpl. destruct (decide (i = h)) as [->|].
  - rewrite list_lookup_alter_eq, Hx. eexists. split; [done|left; apply Hf].
  - rewrite list_lookup_alter_ne by done. exists x. split; [done|by left].
Qed.
Lemma frame_emit r e s s' : frame r s s' -> frame r s (emit e s').
Proof. done. Qed.

Lemma lookup_on s r f y : harts s !! r = Some y -> harts (on r f s) !! r = Some (f y).
Proof. intros Hy. simpl. by rewrite list_lookup_alter_eq, Hy. Qed.

Lemma lookup_on_ne s r i f y : i <> r -> harts s !! r = Some y -> harts (on i f s) !! r = Some y.
Proof. intros Hn Hy. simpl. by rewrite list_lookup_alter_ne. Qed.

(** A hart in the firmware can always take a step. *)
Definition stepped (r : nat) (s : state) (y : hart) (os : option state) : Prop :=
  exists s' y', os = Some s' /\ frame r s s' /\ harts s' !! r = Some y' /\ next_pc s y y'.

Lemma stepped_on r s y f : harts s !! r = Some y -> next_pc s y (f y) -> stepped r s y (Some (on r f s)).
Proof.
  intros Hy Hn. exists (on r f s), (f y). split; [done|]. split; [apply frame_on|].
  split; [by apply lookup_on|done].
Qed.

Lemma update_stepped n s r y t r2 rest : (n <= 128)%nat -> reach n s -> harts s !! r = Some y ->
  hpc y = SendNext t (r2 :: rest) -> stepped r s y (tlb_update lim r r2 y t rest s).
Proof.
  intros Hn Hr Hy Hp. destruct (shoot_reachable_inv lim n s Hn Hr) as (_ & Hc & Hi). unfold tlb_update.
  destruct (harts s !! r2) as [z|] eqn:Hz.
  2: { apply stepped_on; [done|]. unfold next_pc. rewrite Hp. split; [done|]. exists t. by left. }
  destruct (decide (r2 = r)) as [->|Hne].
  - assert (z = y) as -> by congruence. assert (request_ok lim t) as Hrq.
    { eapply (v_call _ _ _ Hi r); [by apply (view_lookup s r y)|]. simpl. by rewrite Hp. }
    destruct (local_fn_flushes (tlb_limit lim t) (hgatp y)) as (fs & -> & _); [by apply tlb_limit_ok|].
    simpl. eexists _, _. split; [done|]. split; [apply frame_emit, frame_on|].
    split; [by apply lookup_on|]. unfold next_pc. rewrite Hp. split; [done|]. eexists. by left.
  - destruct (sbi_fifo_inplace_update _ _) as [ret f'].
    eexists _, _. split; [done|]. split.
    { eapply frame_trans; [by apply (frame_keep r r2 s (set_fifo f'))|apply frame_on]. }
    split; [apply lookup_on; by apply lookup_on_ne|]. unfold next_pc. rewrite Hp. split; [done|].
    exists (tlb_limit lim t). simpl. case_decide; auto.
Qed.

Lemma run_stepped n s r y : (n <= 128)%nat -> reach n s -> harts s !! r = Some y ->
  hpc y <> Smode -> stepped r s y (run lim r s).
Proof.
  intros Hn Hr Hy Hns. destruct (shoot_reachable_inv lim n s Hn Hr) as (_ & Hc & Hi).
  pose proof (reachable_linv n s Hn Hr) as Hl. destruct (Hc r y Hy) as [Hwf Hq].
  unfold run, ipi_set_bit, tlb_sync_loop, ipi_process_loop. rewrite Hy. simpl.
  destruct (hpc y) as [|t [|r2 rest]|t r2 rest|t r2 rest|t r2 rest|c k|rem c k|w ev] eqn:Hp; [done|..].
  - eexists _, _. split; [done|]. split; [apply frame_emit, frame_on|].
    split; [by apply lookup_on|]. unfold next_pc. by rewrite Hp.
  - by eapply update_stepped.
  - destruct (Hq t r2 eq_refl) as [_ Hne].
    destruct (l_target _ Hl r y r2 Hy) as [z Hz]; [by rewrite Hp|]. rewrite Hz. simpl.
    pose proof (Hc r2 z Hz) as [Hwfz _].
    pose proof (sbi_fifo_enqueue_abs (tlb_fifo z) t Hwfz) as He. cbv zeta in He.
    destruct (sbi_fifo_enqueue (tlb_fifo z) t) as [rc f']. destruct He as (_ & _ & He).
    eexists _, _. split; [done|]. split.
    { eapply frame_trans; [by apply (frame_keep r r2 s (set_fifo f'))|apply frame_on]. }
    split; [apply lookup_on; by apply lookup_on_ne|]. unfold next_pc. rewrite Hp. split; [done|].
    destruct (Z.eqb_spec (Z.of_nat (length (fifo_abs (tlb_fifo z)))) (num_entries (tlb_fifo z))) as [Ef|];
      injection He as -> _; simpl; [right|by left].
    split; [done|]. exists z. split; [done|]. intros E0. rewrite E0 in Ef. simpl in Ef.
    pose proof (wf_num _ Hwfz). lia.
  - destruct (l_target _ Hl r y r2 Hy) as [z Hz]; [by rewrite Hp|]. rewrite Hz. simpl.
    set (F := set_ipi _). assert (exists y1, harts (on r2 F s) !! r = Some y1 /\ tlb_fifo y1 = tlb_fifo y) as (y1 & Hy1 & E1).
    { destruct (decide (r2 = r)) as [->|]; [exists (F y); split; [by apply lookup_on|done]|].
      exists y. split; [by apply lookup_on_ne|done]. }
    eexists _, _. split; [done|]. split.
    { eapply frame_trans; [by apply (frame_keep r r2 s F)|apply frame_on]. }
    split; [by apply lookup_on|]. unfold next_pc. rewrite Hp. simpl. by rewrite E1.
  - apply stepped_on; [done|]. unfold next_pc. rewrite Hp. split; [done|]. simpl.
    destruct (Z.eqb_spec (tlb_sync y) 0); auto.
  - unfold tlb_dequeue. pose proof (sbi_fifo_dequeue_abs (tlb_fifo y) Hwf) as Hd.
    destruct (sbi_fifo_dequeue (tlb_fifo y)) as [[rc out] f']. destruct Hd as (_ & _ & Hd).
    destruct (fifo_abs (tlb_fifo y)) as [|e q] eqn:Ea.
    + destruct Hd as [-> ->]. simpl. apply stepped_on; [done|]. unfold next_pc. rewrite Hp, Ea. by left.
    + destruct Hd as (-> & -> & Ef). simpl.
      assert (entry_ok e) as [Hok _].
      { eapply (v_ok _ _ _ Hi r); [by apply view_lookup|]. simpl. rewrite Ea. constructor. }
      destruct (local_fn_flushes e (hgatp y) Hok) as (fs & -> & _). simpl.
      eexists _, _. split; [done|]. split; [apply frame_emit, frame_on|].
      split; [by apply lookup_on|]. unfold next_pc. rewrite Hp, Ea. right. simpl. rewrite Ef. by do 2 eexists.
  - destruct rem as [|z rem].
    + destruct k; apply stepped_on; try done; unfold next_pc; by rewrite Hp.
    + simpl. destruct (harts s !! z) as [u|] eqn:Hu.
      * pose proof (notify_ready_sync lim n s r y z rem c k u Hn Hr Hy Hp Hu) as Hs0.
        rewrite Hs0. simpl. set (p := Notify rem c k).
        assert (exists y1, harts (on z (set_sync 1) (goto r p s)) !! r = Some y1 /\ hpc y1 = p /\ tlb_fifo y1 = tlb_fifo y)
          as (y1 & Hy1 & E1 & E2).
        { destruct (decide (z = r)) as [->|].
          - exists (set_sync 1 (set_pc p y)). split; [apply lookup_on; by apply lookup_on|done].
          - exists (set_pc p y). split; [apply lookup_on_ne; [done|by apply lookup_on]|done]. }
        eexists _, y1. split; [done|]. split; [|split; [done|]].
        { eapply frame_trans; [apply (frame_on r s (set_pc p))|by apply frame_keep]. }
        unfold next_pc. rewrite Hp, E2. done.
      * apply stepped_on; [done|]. unfold next_pc. by rewrite Hp.
  - apply stepped_on; [done|]. unfold next_pc. by rewrite Hp.
Qed.

(** ** Continuations

    [can r s Q]: from [s], a continuation in which the other harts stay where they
    are leads to a state where hart [r] satisfies [Q]. *)
Section Continuations.
Context (n : nat) (Hn : (n <= 128)%nat).

Definition can (r : nat) (s : state) (Q : state -> hart -> Prop) : Prop :=
  exists s' y, rtc (step lim (request_ok lim)) s s' /\ frame r s s' /\ harts s' !! r = Some y /\ Q s' y.

Lemma can_here r s y (Q : state -> hart -> Prop) : harts s !! r = Some y -> Q s y -> can r s Q.
Proof. intros Hy HQ. exists s, y. split; [apply rtc_refl|]. split; [apply frame_refl|done]. Qed.

Lemma can_trans r s (P Q : state -> hart -> Prop) : reach n s -> can r s P ->
  (forall s' y, reach n s' -> harts s' !! r = Some y -> P s' y -> can r s' Q) -> can r s Q.
Proof.
  intros Hr (s1 & y1 & Hs1 & Hf1 & Hy1 & HP) H. assert (reach n s1) as Hr1 by (unfold reachable in *; by etrans).
  destruct (H s1 y1 Hr1 Hy1 HP) as (s2 & y2 & Hs2 & Hf2 & Hy2 & HQ).
  exists s2, y2. split; [by etrans|]. split; [by eapply frame_trans|done].
Qed.

(** Hart [r] takes a step. *)
Lemma can_run r s y (Q : state -> hart -> Prop) : reach n s -> harts s !! r = Some y -> hpc y <> Smode ->
  (forall s' y', reach n s' -> harts s' !! r = Some y' -> next_pc s y y' -> can r s' Q) -> can r s Q.
Proof.
  intros Hr Hy Hp H. destruct (run_stepped n s r y Hn Hr Hy Hp) as (s' & y' & Hs & Hf & Hy' & Hx).
  apply (can_trans r s (fun u z => reach n u /\ u = s' /\ z = y')); [done| |].
  - exists s', y'. split; [by apply rtc_once, step_run with r|]. split; [done|]. split; [done|].
    split; [|done]. eapply rtc_r; [done|by apply step_run with r].
  - intros u z _ Hz (Hu & -> & ->). eauto.
Qed.

(** Hart [r] is about to take an entry, with [q] queued for it. *)
Definition at_deq (q : list sbi_tlb_info) (s : state) (y : hart) : Prop :=
  entries y = q /\ exists c k, hpc y = Deq c k.

Lemma at_deq_here r s y q c k : harts s !! r = Some y -> entries y = q -> hpc y = Deq c k ->
  can r s (at_deq q).
Proof. intros Hy Eq Ep. apply can_here with y; [done|]. split; [done|]. by exists c, k. Qed.

Ltac next_step :=
  match goal with
  | Hr : reach n ?s, Hy : harts ?s !! ?r = Some ?y, Hp : hpc ?y = _ |- can ?r ?s _ =>
      let Hx := fresh "Hx" in
      apply (can_run r s y); [done|done|by rewrite Hp|];
      intros ? ? ? ? Hx; unfold next_pc in Hx; rewrite Hp in Hx
  end.

Lemma deq_ipi_busy r m : forall s y w ev, reach n s -> harts s !! r = Some y -> hpc y = Ipi w ev ->
  busy (Ipi w ev) -> tlb_event - ev = Z.of_nat m -> can r s (at_deq (entries y)).
Proof.
  induction m as [|m IH]; intros s y w ev Hr Hy Hp [He Hb] Hm; next_step; destruct Hx as [Eq Ep];
    (destruct (Z.eqb_spec w 0) as [->|_]; [by rewrite Z.bits_0 in Hb|]).
  - replace (tlb_event - ev) with 0 in Hb by lia. rewrite Hb in Ep.
    destruct (Z.eqb_spec ev tlb_event); [|lia]. simpl in Ep. by eapply at_deq_here.
  - destruct (Z.eqb_spec ev tlb_event); [lia|]. rewrite andb_false_r in Ep. rewrite <- Eq.
    eapply IH; [done|done|done| |lia]. split; [lia|]. rewrite Z.shiftr_spec, <- Hb by lia. f_equal. lia.
Qed.

(** An idle hart with requests queued can be woken. *)
Lemma deq_pending r s y : reach n s -> harts s !! r = Some y -> hpc y = Smode ->
  Z.testbit (ipi_type y) tlb_event = true -> can r s (at_deq (entries y)).
Proof.
  intros Hr Hy Hp Hb. set (s1 := on r (set_ipi 0) (goto r (Ipi (ipi_type y) 0) s)).
  set (y1 := set_ipi 0 (set_pc (Ipi (ipi_type y) 0) y)).
  assert (step lim (request_ok lim) s s1) as Hs by by apply step_ipi.
  apply (can_trans r s (fun u z => u = s1 /\ z = y1)); [done| |].
  - exists s1, y1. split; [by apply rtc_once|]. split; [|split; [apply lookup_on; by apply lookup_on|done]].
    eapply frame_trans; [apply frame_on|by apply frame_keep].
  - intros u z Hu Hz [-> ->].
    change (entries y) with (entries y1). apply (deq_ipi_busy r 2 s1 y1 (ipi_type y) 0); try done.
Qed.

Lemma deq_smode r s y : reach n s -> harts s !! r = Some y -> hpc y = Smode -> entries y <> [] ->
  can r s (at_deq (entries y)).
Proof.
  intros Hr Hy Hp Hq.
  destruct (l_att _ (reachable_linv n s Hn Hr) r y Hy Hq) as [Hb|[Hb|(h & x & t & rest & Hx & Ex)]].
  - by apply deq_pending.
  - by rewrite Hp in Hb.
  - assert (h <> r) as Hne by congruence.
    assert (run lim h s = Some (goto h (Sync t r rest)
      (on r (set_ipi (Z.lor (ipi_type y) (Z.shiftl 1 tlb_event))) s))) as Hs.
    { unfold run, ipi_set_bit, tlb_sync_loop, ipi_process_loop. rewrite Hx. simpl. rewrite Ex, Hy. done. }
    set (F := set_ipi _) in Hs. set (s1 := goto _ _ _) in Hs.
    assert (harts s1 !! r = Some (F y)) as Hy1 by (apply lookup_on_ne; [done|by apply lookup_on]).
    apply (can_trans r s (fun u z => u = s1 /\ z = F y)); [done| |].
    + exists s1, (F y). split; [by apply rtc_once, step_run with h|]. split; [|done].
      intros i z Hi Hz. destruct (decide (i = h)) as [->|].
      * assert (z = x) as -> by congruence. exists (set_pc (Sync t r rest) x).
        split; [apply lookup_on; by apply lookup_on_ne|]. right. by exists t, r, rest.
      * exists z. split; [|by left]. apply lookup_on_ne; [done|]. by apply lookup_on_ne.
    + intros u z Hu Hz [-> ->]. change (entries y) with (entries (F y)). apply deq_pending; try done.
      unfold F. change (Z.testbit (Z.lor (ipi_type y) (Z.shiftl 1 tlb_event)) tlb_event = true).
      rewrite Z.lor_spec. apply orb_true_r.
Qed.

(** From each program counter of a call with targets [l] left after the current
    one, given that it can from the next target on. *)
Definition deq_from (r : nat) (p : sbi_tlb_info -> pc) : Prop :=
  forall s y t, reach n s -> harts s !! r = Some y -> entries y <> [] -> hpc y = p t ->
    can r s (at_deq (entries y)).

Lemma deq_sync r r2 l : deq_from r (fun t => SendNext t l) -> deq_from r (fun t => Sync t r2 l).
Proof.
  intros HS s y t Hr Hy Hq Hp. next_step. destruct Hx as (Eq & [Ep|[Ep _]]); rewrite <- Eq in *.
  - by eapply HS.
  - by eapply at_deq_here.
Qed.

Lemma deq_setbit r r2 l : deq_from r (fun t => SendNext t l) -> deq_from r (fun t => SetBit t r2 l).
Proof.
  intros HS s y t Hr Hy Hq Hp. next_step. destruct Hx as (Eq & Ep). rewrite <- Eq in *.
  by eapply deq_sync.
Qed.

Lemma deq_enq r r2 l : deq_from r (fun t => SendNext t l) -> deq_from r (fun t => Enq t r2 l).
Proof.
  intros HS s y t Hr Hy Hq Hp. next_step. destruct Hx as (Eq & [Ep|[Ep _]]); rewrite <- Eq in *.
  - by eapply deq_setbit.
  - by eapply at_deq_here.
Qed.

Lemma deq_send r l : deq_from r (fun t => SendNext t l).
Proof.
  induction l as [|r2 l IH]; intros s y t Hr Hy Hq Hp; next_step.
  - destruct Hx as (Eq & Ep). rewrite <- Eq in *. by apply deq_smode.
  - destruct Hx as (Eq & t' & [Ep|[Ep|Ep]]); rewrite <- Eq in *;
      [by eapply IH|by eapply deq_enq|by eapply deq_setbit].
Qed.

Lemma deq_ipi r m : forall s y w ev, (Z.to_nat w < m)%nat -> reach n s -> harts s !! r = Some y ->
  entries y <> [] -> hpc y = Ipi w ev -> can r s (at_deq (entries y)).
Proof.
  induction m as [|m IH]; intros s y w ev Hm Hr Hy Hq Hp; [lia|].
  destruct (l_word _ (reachable_linv n s Hn Hr) r y Hy) as [_ Hw]. rewrite Hp in Hw. simpl in Hw.
  next_step. destruct Hx as (Eq & Ep). rewrite <- Eq in *. destruct (Z.eqb_spec w 0) as [|Hw0].
  { by apply deq_smode. }
  destruct (_ && _).
  - by eapply at_deq_here.
  - eapply IH; [|done|done|done|done]. rewrite Z.shiftr_div_pow2 by lia. change (2 ^ 1) with 2.
    Z.to_euclidean_division_equations. lia.
Qed.

Lemma deq_resume r k s y : reach n s -> harts s !! r = Some y -> entries y <> [] ->
  hpc y = resume k -> can r s (at_deq (entries y)).
Proof.
  destruct k; simpl; intros.
  - by eapply (deq_enq r _ rest (deq_send r rest)).
  - by eapply (deq_sync r _ rest (deq_send r rest)).
  - eapply (deq_ipi r (S (Z.to_nat ipi_type))); [|done|done|done|done]; lia.
Qed.

(** The loop that notifies ends. *)
Lemma notify_all r rem : forall s y c k, reach n s -> harts s !! r = Some y -> hpc y = Notify rem c k ->
  can r s (fun _ z => entries z = entries y /\ hpc z = Notify [] c k).
Proof.
  induction rem as [|x rem IH]; intros s y c k Hr Hy Hp.
  - by apply can_here with y.
  - next_step. destruct Hx as (Eq & Ep). rewrite <- Eq. by apply IH.
Qed.

(** Hart [r], wherever it is, can take the next entry of its queue. *)
Lemma can_deq r s y : reach n s -> harts s !! r = Some y -> entries y <> [] ->
  can r s (at_deq (entries y)).
Proof.
  intros Hr Hy Hq. destruct (hpc y) as [|t l|t r2 l|t r2 l|t r2 l|c k|rem c k|w ev] eqn:Hp.
  - by apply deq_smode.
  - by eapply deq_send.
  - by eapply (deq_enq r r2 l (deq_send r l)).
  - by eapply (deq_setbit r r2 l (deq_send r l)).
  - by eapply (deq_sync r r2 l (deq_send r l)).
  - by eapply at_deq_here.
  - eapply can_trans; [done|by eapply notify_all|]. clear Hp.
    intros s1 y1 Hr1 Hy1 [Eq Hp]. rewrite <- Eq in *. next_step. destruct Hx as (Eq' & Ep).
    rewrite <- Eq' in *. destruct k; [destruct (1 <? c + 1) eqn:Ec|destruct (1 <? c + 1) eqn:Ec|].
    1, 3: by eapply deq_resume.
    all: by eapply at_deq_here.
  - eapply (deq_ipi r (S (Z.to_nat w))); [|done|done|done|done]; lia.
Qed.

(** Hart [r] can serve all that is queued for it. *)
Lemma can_drain r q : forall s y, reach n s -> harts s !! r = Some y -> entries y = q ->
  can r s (fun _ z => entries z = [] /\ pc_rem (hpc z) = []).
Proof.
  induction q as [|e q IH]; intros s y Hr Hy Hq.
  - destruct (pc_rem (hpc y)) as [|x rem] eqn:Hrem; [by apply can_here with y|].
    destruct (hpc y) as [| | | | | |rem' c k|] eqn:Hp; try done. simpl in Hrem. subst rem'.
    eapply can_trans; [done|by eapply notify_all|]. intros s1 y1 Hr1 Hy1 [Eq Hp1].
    apply can_here with y1; [done|]. rewrite Eq, Hp1. done.
  - eapply can_trans; [done|apply can_deq; [done|done|by rewrite Hq]|].
    intros s1 y1 Hr1 Hy1 (Eq & c & k & Hp). next_step. destruct Hx as [(E & _)|(e' & rem & E & _)]; [congruence|].
    eapply IH; [done|done|congruence].
Qed.

(** A hart that serves others while it waits comes back to its own call. *)
Lemma can_resume h m : forall s y c k, (Z.to_nat (2 - c) < m)%nat -> reach n s -> harts s !! h = Some y ->
  cont_target k <> None -> hpc y = Deq c k \/ (exists rem, hpc y = Notify rem c k) ->
  can h s (fun _ z => hpc z = resume k).
Proof.
  induction m as [|m IH]; intros s y c k Hm Hr Hy Hk Hp; [lia|].
  assert (forall s y, reach n s -> harts s !! h = Some y -> forall rem, hpc y = Notify rem c k ->
    can h s (fun _ z => hpc z = resume k)) as HN.
  { clear s y Hr Hy Hp. intros s y Hr Hy rem Hp. eapply can_trans; [done|by eapply notify_all|]. clear Hp.
    intros s1 y1 Hr1 Hy1 [_ Hp]. next_step. destruct Hx as [_ Ep].
    assert (hpc y' = if 1 <? c + 1 then resume k else Deq (c + 1) k) as Ep' by by destruct k.
    destruct (Z.ltb_spec 1 (c + 1)); [by eapply can_here|]. eapply (IH _ _ (c + 1)); [lia|done|done|done|by left]. }
  destruct Hp as [Hp|[rem Hp]]; [|by eapply HN].
  next_step. destruct Hx as [(_ & _ & Ep)|(e & rem & _ & Ep)]; [by eapply can_here|by eapply HN].
Qed.

(** When the hart that [h] waits for has nothing left to do, [h] has its answer. *)
Lemma drained_answer s h x r y : reach n s -> harts s !! h = Some x -> pc_wait (hpc x) = Some r ->
  harts s !! r = Some y -> entries y = [] -> pc_rem (hpc y) = [] -> tlb_sync x <> 0.
Proof.
  intros Hr Hx Hw Hy Hq Hrem. destruct (shoot_reachable_inv lim n s Hn Hr) as (_ & _ & Hi).
  pose proof (view_lookup s h x Hx) as Hvx.
  pose proof (v_tok _ _ _ Hi h (view_of x) Hvx) as Ht. simpl in Ht. rewrite Hw in Ht.
  assert (sum_list_with (tok h) (view_of <$> harts s) = 0%nat) as E0.
  { apply sum_all_zero. intros i v Hv. apply tok_absent.
    - intros e He. apply not_true_is_false. intros Hb.
      destruct (v_queued _ _ _ Hi i v e h _ Hv He Hb Hvx) as (Hw' & _). simpl in Hw'. rewrite Hw in Hw'.
      injection Hw' as <-. rewrite (view_lookup s r y Hy) in Hv. injection Hv as <-. simpl in He.
      rewrite Hq in He. by apply elem_of_nil in He.
    - intros He. destruct (v_rem _ _ _ Hi i v h _ Hv He Hvx) as (Hw' & _). simpl in Hw'. rewrite Hw in Hw'.
      injection Hw' as <-. rewrite (view_lookup s r y Hy) in Hv. injection Hv as <-. simpl in He.
      rewrite Hrem in He. by apply elem_of_nil in He. }
  unfold tokens in Ht. rewrite E0, Hvx in Ht. simpl in Ht. by destruct (Z.eqb_spec (tlb_sync x) 0).
Qed.

Abbreviation goes s s' := (rtc (step lim (request_ok lim)) s s').

(** The target of a hart is another hart, which can serve all it has to. *)
Lemma target_drained s h x r : reach n s -> harts s !! h = Some x -> pc_target (hpc x) = Some r -> r <> h ->
  exists s' x' y, goes s s' /\ reach n s' /\ harts s' !! h = Some x' /\ same_pc (hpc x) (hpc x') /\
    harts s' !! r = Some y /\ entries y = [] /\ pc_rem (hpc y) = [].
Proof.
  intros Hr Hx Ht Hne. destruct (l_target _ (reachable_linv n s Hn Hr) h x r Hx Ht) as [y Hy].
  destruct (can_drain r (entries y) s y Hr Hy eq_refl) as (s' & y' & Hs & Hf & Hy' & Hq & Hrem).
  destruct (Hf h x) as (x' & Hx' & Hsame); [done|done|]. exists s', x', y'.
  split; [done|]. split; [unfold reachable in *; by etrans|]. done.
Qed.

Lemma call_synced s h x t r l : reach n s -> harts s !! h = Some x -> hpc x = Sync t r l ->
  exists s' x', goes s s' /\ reach n s' /\ harts s' !! h = Some x' /\ hpc x' = SendNext t l.
Proof.
  intros Hr Hx Hp. destruct (shoot_reachable_inv lim n s Hn Hr) as (_ & _ & Hi).
  assert (r <> h) as Hne.
  { eapply (v_wait _ _ _ Hi h (view_of x)); [by apply view_lookup|]. simpl. by rewrite Hp. }
  destruct (target_drained s h x r Hr Hx) as (s1 & x1 & y & Hs1 & Hr1 & Hx1 & Hsame & Hy & Hq & Hrem);
    [by rewrite Hp|done|].
  assert (hpc x1 = Sync t r l) as Hp1 by (destruct Hsame as [|(? & ? & ? & ? & ?)]; congruence).
  assert (tlb_sync x1 <> 0) as Hsync by (eapply (drained_answer s1 h x1 r y); try done; by rewrite Hp1).
  destruct (run_stepped n s1 h x1 Hn Hr1 Hx1) as (s2 & x2 & Hs2 & _ & Hx2 & Hnx); [by rewrite Hp1|].
  unfold next_pc in Hnx. rewrite Hp1 in Hnx. destruct Hnx as (_ & [Ep|[_ ?]]); [|done].
  apply step_run with (allowed := request_ok lim) in Hs2.
  exists s2, x2. split; [by eapply rtc_r|]. split; [by eapply rtc_r|done].
Qed.

(** One step of [h], as a continuation. *)
Lemma one_step s h x : reach n s -> harts s !! h = Some x -> hpc x <> Smode ->
  exists s' x', goes s s' /\ reach n s' /\ harts s' !! h = Some x' /\ next_pc s x x'.
Proof.
  intros Hr Hx Hp. destruct (run_stepped n s h x Hn Hr Hx Hp) as (s' & x' & Hs & _ & Hx' & Hnx).
  apply step_run with (allowed := request_ok lim) in Hs.
  exists s', x'. split; [by apply rtc_once|]. split; [by eapply rtc_r|done].
Qed.

Lemma call_setbit s h x t r l : reach n s -> harts s !! h = Some x -> hpc x = SetBit t r l ->
  exists s' x', goes s s' /\ reach n s' /\ harts s' !! h = Some x' /\ hpc x' = SendNext t l.
Proof.
  intros Hr Hx Hp. destruct (one_step s h x Hr Hx) as (s1 & x1 & Hs1 & Hr1 & Hx1 & Hnx); [by rewrite Hp|].
  unfold next_pc in Hnx. rewrite Hp in Hnx. destruct Hnx as [_ Ep].
  destruct (call_synced s1 h x1 t r l Hr1 Hx1 Ep) as (s2 & x2 & ? & ?). exists s2, x2. split; [by etrans|done].
Qed.

Lemma call_enq s h x t r l : reach n s -> harts s !! h = Some x -> hpc x = Enq t r l ->
  exists s' x', goes s s' /\ reach n s' /\ harts s' !! h = Some x' /\ hpc x' = SendNext t l.
Proof.
  intros Hr Hx Hp. destruct (shoot_reachable_inv lim n s Hn Hr) as (_ & Hc & _).
  destruct (Hc h x Hx) as [_ Hq]. rewrite Hp in Hq. destruct (Hq t r eq_refl) as [_ Hne].
  destruct (target_drained s h x r Hr Hx) as (s1 & x1 & y & Hs1 & Hr1 & Hx1 & Hsame & Hy & Hqy & _);
    [by rewrite Hp|done|].
  assert (hpc x1 = Enq t r l) as Hp1 by (destruct Hsame as [|(? & ? & ? & ? & ?)]; congruence).
  destruct (one_step s1 h x1 Hr1 Hx1) as (s2 & x2 & Hs2 & Hr2 & Hx2 & Hnx); [by rewrite Hp1|].
  unfold next_pc in Hnx. rewrite Hp1 in Hnx. destruct Hnx as [_ [Ep|[_ (z & Hz & Hqz)]]]; [|congruence].
  destruct (call_setbit s2 h x2 t r l Hr2 Hx2 Ep) as (s3 & x3 & ? & ?). exists s3, x3.
  split; [by do 2 (etrans; [done|])|done].
Qed.

Lemma call_send h l : forall s x t, reach n s -> harts s !! h = Some x -> hpc x = SendNext t l ->
  exists s' tr, goes s s' /\ trace s' = Return h :: tr.
Proof.
  induction l as [|r l IH]; intros s x t Hr Hx Hp.
  - exists (emit (Return h) (goto h Smode s)), (trace s). split; [|done]. apply rtc_once, step_run with h.
    unfold run, ipi_set_bit, tlb_sync_loop, ipi_process_loop. rewrite Hx. simpl. by rewrite Hp.
  - assert (exists s' x' t', goes s s' /\ reach n s' /\ harts s' !! h = Some x' /\ hpc x' = SendNext t' l)
      as (s' & x' & t' & Hs & Hr' & Hx' & Hp').
    { destruct (one_step s h x Hr Hx) as (s1 & x1 & Hs1 & Hr1 & Hx1 & Hnx); [by rewrite Hp|].
      unfold next_pc in Hnx. rewrite Hp in Hnx. destruct Hnx as (_ & t' & [Ep|[Ep|Ep]]).
      - by exists s1, x1, t'.
      - destruct (call_enq s1 h x1 t' r l Hr1 Hx1 Ep) as (s2 & x2 & ? & ?).
        exists s2, x2, t'. split; [by etrans|done].
      - destruct (call_setbit s1 h x1 t' r l Hr1 Hx1 Ep) as (s2 & x2 & ? & ?).
        exists s2, x2, t'. split; [by etrans|done]. }
    destruct (IH s' x' t' Hr' Hx' Hp') as (s2 & tr & ? & ?). exists s2, tr. split; [by etrans|done].
Qed.

(** A hart that is back in its call can complete it. *)
Lemma call_resumed s h x k : reach n s -> harts s !! h = Some x -> cont_target k <> None ->
  hpc x = resume k -> exists s' tr, goes s s' /\ trace s' = Return h :: tr.
Proof.
  intros Hr Hx Hk Hp. destruct k as [t r l|t r l|]; [| |done]; simpl in Hp.
  - destruct (call_enq s h x t r l Hr Hx Hp) as (s1 & x1 & Hs & Hr1 & Hx1 & Hp1).
    destruct (call_send h l s1 x1 t Hr1 Hx1 Hp1) as (s2 & tr & ? & ?). exists s2, tr. split; [by etrans|done].
  - destruct (call_synced s h x t r l Hr Hx Hp) as (s1 & x1 & Hs & Hr1 & Hx1 & Hp1).
    destruct (call_send h l s1 x1 t Hr1 Hx1 Hp1) as (s2 & tr & ? & ?). exists s2, tr. split; [by etrans|done].
Qed.

End Continuations.

(** C29. Remote fence calls do not deadlock: from every reachable state, and for
    every hart that is in a call, whatever its queue and the other harts do, there
    is a continuation in which the call returns. *)
Theorem remote_fence_returns n s h x : (n <= 128)%nat -> reach n s -> harts s !! h = Some x ->
  pc_call (hpc x) <> None ->
  exists s' tr, rtc (step lim (request_ok lim)) s s' /\ trace s' = Return h :: tr.
Proof.
  intros Hn Hr Hx Hc. assert (forall c k, cont_call k <> None ->
    hpc x = Deq c k \/ (exists rem, hpc x = Notify rem c k) ->
    exists s' tr, rtc (step lim (request_ok lim)) s s' /\ trace s' = Return h :: tr) as HD.
  { intros c k Hk Hp. assert (cont_target k <> None) as Ht by by destruct k.
    destruct (can_resume n Hn h _ s x c k (Nat.lt_succ_diag_r _) Hr Hx Ht Hp) as (s1 & x1 & Hs1 & _ & Hx1 & Hp1).
    destruct (call_resumed n Hn s1 h x1 k) as (s2 & tr & ? & ?); [unfold reachable in *; by etrans|done|done|done|].
    exists s2, tr. split; [by etrans|done]. }
  destruct (hpc x) as [|t l|t r l|t r l|t r l|c k|rem c k|w ev] eqn:Hp; try done.
  - by eapply call_send.
  - by apply (call_resumed n Hn s h x (KEnq t r l)).
  - destruct (call_setbit n Hn s h x t r l Hr Hx Hp) as (s1 & x1 & Hs & Hr1 & Hx1 & Hp1).
    destruct (call_send n Hn h l s1 x1 t Hr1 Hx1 Hp1) as (s2 & tr & ? & ?). exists s2, tr. split; [by etrans|done].
  - by apply (call_resumed n Hn s h x (KSync t r l)).
  - eapply HD; [done|by left].
  - eapply HD; [done|right; by exists rem].
Qed.

End Live.

(** Hart 1 has asked hart 0 for a flush and waits; hart 0 is in supervisor mode. *)
Lemma waiting_state : exists s x y, reachable 0x1000 (request_ok 0x1000) 3 s /\
  harts s !! 0%nat = Some y /\ hpc y = Smode /\ fifo_abs (tlb_fifo y) <> [] /\
  harts s !! 1%nat = Some x /\ pc_call (hpc x) <> None.
Proof.
  destruct (exec 0x1000 (init 3) (take 4 page_schedule)) as [s|] eqn:E; [|vm_compute in E; discriminate].
  assert (reachable 0x1000 (request_ok 0x1000) 3 s) as Hr.
  { eapply exec_reaches; [apply Forall_take, page_schedule_allowed|exact E]. }
  vm_compute in E. injection E as <-. do 3 eexists. split; [exact Hr|].
  split; [reflexivity|]. split; [reflexivity|]. split; [discriminate|]. split; [reflexivity|discriminate].
Qed.

Lemma no_lost_wakeup_witness : exists s y, harts s !! 0%nat = Some y /\ hpc y = Smode /\
  (Z.testbit (ipi_type y) tlb_event = true \/
   exists h x t rest, harts s !! h = Some x /\ hpc x = SetBit t 0 rest).
Proof.
  destruct waiting_state as (s & x & y & Hr & Hy & Hp & Hq & _). exists s, y.
  split; [exact Hy|]. split; [exact Hp|].
  exact (no_lost_wakeup 0x1000 3 s 0 y ltac:(lia) Hr Hy Hp Hq).
Defined.

Lemma remote_fence_returns_witness : exists s s' tr, reachable 0x1000 (request_ok 0x1000) 3 s /\
  rtc (step 0x1000 (request_ok 0x1000)) s s' /\ trace s' = Return 1 :: tr.
Proof.
  destruct waiting_state as (s & x & y & Hr & _ & _ & _ & Hx & Hc). exists s.
  destruct (remote_fence_returns 0x1000 3 s 1 x ltac:(lia) Hr Hx Hc) as (s' & tr & H). exists s', tr.
  split; [exact Hr|exact H].
Defined.
