(* ===== verification/SbiDomain.v ===== *)
(** * Domains of the firmware

    [src/opensbi/lib/sbi/sbi_domain.c] and [sbi_math.c]: a domain is a set of harts
    with the memory regions that software on them may access. Regions are arrays
    that end with an entry of order 0; iterating over an array without such an
    entry reads past it ([OutOfBounds]). Domains are [struct]s at addresses, which
    the two tables of the firmware hold; several tables and masks refer to the same
    domain, so the domains are kept in a store. The name of a domain, which is only
    printed, is left out, and so is the possibility that other code makes [root]
    point to other regions (none does). *)

From Stdlib Require Import Sorted.
From S2P Require Import Prelude SbiFifo SbiTlb.

Definition SBI_EALREADY : Z := -6.
Definition ROOT_REGION_MAX : Z := 16.
Definition SBI_DOMAIN_MAX_INDEX : Z := 32.
Definition PRV_U : Z := 0.
Definition PRV_S : Z := 1.
Definition PRV_M : Z := 3.

(** [enum sbi_domain_access] and the flags of regions. *)
Definition SBI_DOMAIN_READ : Z := 1.
Definition SBI_DOMAIN_WRITE : Z := 2.
Definition SBI_DOMAIN_EXECUTE : Z := 4.
Definition SBI_DOMAIN_MMIO : Z := 8.
Definition SBI_DOMAIN_MEMREGION_READABLE : Z := 1.
Definition SBI_DOMAIN_MEMREGION_WRITEABLE : Z := 2.
Definition SBI_DOMAIN_MEMREGION_EXECUTABLE : Z := 4.
Definition SBI_DOMAIN_MEMREGION_MMODE : Z := 8.
Definition SBI_DOMAIN_MEMREGION_MMIO : Z := 2 ^ 31.

(** [BIT(nr)], [1UL << nr]: the shift instruction of RISC-V takes the low six bits
    of the amount. *)
Definition BIT (nr : Z) : Z := Z.shiftl 1 (nr mod 64).

(** The test [a & b]. *)
Definition has (a b : Z) : bool := negb (Z.land a b =? 0).

(** [struct sbi_domain_memregion] *)
Record sbi_domain_memregion := mk_region { order : Z; base : Z; flags : Z }.

#[export] Instance memregion_eq_dec : EqDecision sbi_domain_memregion.
Proof. solve_decision. Defined.

(** ** Memory regions *)
Fixpoint log2roundup_loop (fuel : nat) (x ret : Z) : Z :=
  match fuel with
  | O => ret
  | S fuel' => if x <=? Z.shiftl 1 ret then ret else log2roundup_loop fuel' x (ret + 1)
  end.

(** The loop runs while [ret < __riscv_xlen]. *)
Definition log2roundup (x : Z) : Z := log2roundup_loop 64 x 0.

(** The loop of [sbi_domain_memregion_init]: the base and the order it ends with. *)
Fixpoint memregion_loop (fuel : nat) (addr size ord : Z) : Z * Z :=
  match fuel with
  | O => (0, ord)
  | S fuel' =>
      if ord <? 64 then
        let b := Z.land addr (Z.lnot (Z.shiftl 1 ord - 1)) in
        let e := u64 (b + Z.shiftl 1 ord) in
        let last := u64 (addr + size - 1) in
        if (b <=? addr) && (addr <? e) && (b <=? last) && (last <? e) then (b, ord)
        else memregion_loop fuel' addr size (ord + 1)
      else (0, ord)
  end.

Definition sbi_domain_memregion_init (addr size fl : Z) : sbi_domain_memregion :=
  let '(b, o) := memregion_loop 65 addr size (log2roundup size) in mk_region o b fl.

(** The last address of a region. *)
Definition region_end (r : sbi_domain_memregion) : Z :=
  if order r <? 64 then u64 (base r + (Z.shiftl 1 (order r) - 1)) else 2 ^ 64 - 1.
Definition region_contains (r : sbi_domain_memregion) (addr : Z) : bool :=
  (base r <=? addr) && (addr <=? region_end r).

Definition access_rwx (access_flags : Z) : Z :=
  Z.lor (Z.lor (if has access_flags SBI_DOMAIN_READ then SBI_DOMAIN_MEMREGION_READABLE else 0)
               (if has access_flags SBI_DOMAIN_WRITE then SBI_DOMAIN_MEMREGION_WRITEABLE else 0))
        (if has access_flags SBI_DOMAIN_EXECUTE then SBI_DOMAIN_MEMREGION_EXECUTABLE else 0).

(** What a region that contains the address answers. *)
Definition region_allows (r : sbi_domain_memregion) (access_flags : Z) : bool :=
  let mmio := has access_flags SBI_DOMAIN_MMIO in
  let rmmio := has (flags r) SBI_DOMAIN_MEMREGION_MMIO in
  let rwx := access_rwx access_flags in
  if (mmio && negb rmmio) || (negb mmio && rmmio) then false
  else Z.land (flags r) rwx =? rwx.

(** The loop of [sbi_domain_check_addr] over an array of regions. *)
Fixpoint check_loop (a : list sbi_domain_memregion) (addr mode access_flags : Z) : res bool :=
  match a with
  | [] => Fault OutOfBounds
  | r :: a' =>
      if order r =? 0 then Ok (mode =? PRV_M)
      else if (mode =? PRV_M) && negb (has (flags r) SBI_DOMAIN_MEMREGION_MMODE)
      then check_loop a' addr mode access_flags
      else if region_contains r addr then Ok (region_allows r access_flags)
      else check_loop a' addr mode access_flags
  end.

Definition is_region_valid (r : sbi_domain_memregion) : bool :=
  if (order r <? 3) || (64 <? order r) then false
  else Z.land (base r) (BIT (order r) - 1) =? 0.

Definition is_region_subset (regA regB : sbi_domain_memregion) : bool :=
  let regA_start := base regA in
  let regA_end := u64 (base regA + (BIT (order regA) - 1)) in
  let regB_start := base regB in
  let regB_end := u64 (base regB + (BIT (order regA) - 1)) in
  (regB_start <=? regA_start) && (regA_start <? regB_end)
  && (regB_start <? regA_end) && (regA_end <=? regB_end).

Definition is_region_conflict (regA regB : sbi_domain_memregion) : bool :=
  (is_region_subset regA regB || is_region_subset regB regA) && (flags regA =? flags regB).

Definition is_region_before (regA regB : sbi_domain_memregion) : bool :=
  (order regA <? order regB) || ((order regA =? order regB) && (base regA <? base regB)).

(** ** Domains *)

(** [struct sbi_domain]; a null pointer is [None]. *)
Record sbi_domain := mk_domain {
  index : Z; assigned_harts : Z; possible_harts : option Z;
  regions : option (list sbi_domain_memregion);
  boot_hartid : Z; next_arg1 : Z; next_addr : Z; next_mode : Z; system_reset_allowed : bool }.

Definition set_regions (a : list sbi_domain_memregion) (d : sbi_domain) : sbi_domain :=
  mk_domain (index d) (assigned_harts d) (possible_harts d) (Some a) (boot_hartid d)
    (next_arg1 d) (next_addr d) (next_mode d) (system_reset_allowed d).
Definition set_index (i : Z) (d : sbi_domain) : sbi_domain :=
  mk_domain i (assigned_harts d) (possible_harts d) (regions d) (boot_hartid d)
    (next_arg1 d) (next_addr d) (next_mode d) (system_reset_allowed d).
Definition set_assigned (m : Z) (d : sbi_domain) : sbi_domain :=
  mk_domain (index d) m (possible_harts d) (regions d) (boot_hartid d)
    (next_arg1 d) (next_addr d) (next_mode d) (system_reset_allowed d).
Definition set_boot (h : Z) (d : sbi_domain) : sbi_domain :=
  mk_domain (index d) (assigned_harts d) (possible_harts d) (regions d) h
    (next_arg1 d) (next_addr d) (next_mode d) (system_reset_allowed d).

(** [sbi_hartmask_set_hart], [sbi_hartmask_clear_hart], [sbi_hartmask_test_hart] *)
Definition sbi_hartmask_set_hart (h m : Z) : Z :=
  if h <? SBI_HARTMASK_MAX_BITS then Z.lor m (Z.shiftl 1 h) else m.
Definition sbi_hartmask_clear_hart (h m : Z) : Z :=
  if h <? SBI_HARTMASK_MAX_BITS then Z.ldiff m (Z.shiftl 1 h) else m.
Definition sbi_hartmask_test_hart (h m : Z) : bool :=
  if h <? SBI_HARTMASK_MAX_BITS then Z.testbit m h else false.

Definition sbi_domain_is_assigned_hart (dom : option sbi_domain) (hartid : Z) : bool :=
  match dom with
  | Some d => sbi_hartmask_test_hart hartid (assigned_harts d)
  | None => false
  end.

Definition sbi_domain_check_addr (dom : option sbi_domain) (addr mode access_flags : Z) : res bool :=
  match dom with
  | None => Ok false
  | Some d => match regions d with
              | None => Fault NullDeref
              | Some a => check_loop a addr mode access_flags
              end
  end.

(** [sbi_domain_for_each_memregion]: the regions in front of the end mark. *)
Fixpoint memregions (a : list sbi_domain_memregion) : option (list sbi_domain_memregion) :=
  match a with
  | [] => None
  | r :: a' => if order r =? 0 then Some [] else cons r <$> memregions a'
  end.

(** The inner loop of the sort: [reg] is compared with every region behind it and
    exchanged with those that belong before it. The result is the region that ends
    up in the place of [reg] and the regions behind it, also when a conflict ends
    the loop. *)
Fixpoint sort_inner (reg : sbi_domain_memregion) (l : list sbi_domain_memregion) :
    bool * sbi_domain_memregion * list sbi_domain_memregion :=
  match l with
  | [] => (true, reg, [])
  | reg1 :: l' =>
      if is_region_conflict reg1 reg then (false, reg, l)
      else if is_region_before reg1 reg then
        let '(ok, z, l2) := sort_inner reg1 l' in (ok, z, reg :: l2)
      else
        let '(ok, z, l2) := sort_inner reg l' in (ok, z, reg1 :: l2)
  end.

Fixpoint sort_outer (k : nat) (l : list sbi_domain_memregion) : bool * list sbi_domain_memregion :=
  match k, l with
  | S k', reg :: l' =>
      let '(ok, z, l2) := sort_inner reg l' in
      if ok then let '(ok2, l3) := sort_outer k' l2 in (ok2, z :: l3) else (false, z :: l2)
  | _, _ => (true, l)
  end.

(** [for (i = 0; i < count - 1; i++)] *)
Definition sort_regions (l : list sbi_domain_memregion) : bool * list sbi_domain_memregion :=
  sort_outer (length l - 1) l.

Section Platform.
(** [sbi_platform_hart_invalid] of the platform. *)
Variable hart_invalid : Z -> bool.

Definition sanitize_domain (fw : sbi_domain_memregion) (d : sbi_domain) : res (Z * sbi_domain) :=
  match possible_harts d with
  | None => Ok (SBI_EINVAL, d)
  | Some ph =>
      if existsb hart_invalid (hartmask_harts ph) then Ok (SBI_EINVAL, d)
      else match regions d with
      | None => Ok (SBI_EINVAL, d)
      | Some a =>
          match memregions a with
          | None => if forallb is_region_valid a then Fault OutOfBounds else Ok (SBI_EINVAL, d)
          | Some rs =>
              if negb (forallb is_region_valid rs) then Ok (SBI_EINVAL, d)
              else if negb (existsb (fun r => bool_decide (r = fw)) rs) then Ok (SBI_EINVAL, d)
              else
                let '(ok, rs') := sort_regions rs in
                let d' := set_regions (rs' ++ drop (length rs) a) d in
                if negb ok then Ok (SBI_EINVAL, d')
                else if negb (next_mode d =? PRV_S) && negb (next_mode d =? PRV_U)
                then Ok (SBI_EINVAL, d')
                else
                  allowed ← sbi_domain_check_addr (Some d') (next_addr d) (next_mode d)
                              SBI_DOMAIN_EXECUTE;
                  Ok (if (allowed : bool) then 0 else SBI_EINVAL, d')
          end
      end
  end.

(** The variables of [sbi_domain.c]. *)
Record domains := mk_domains {
  dom_at : gmap Z sbi_domain;
  hartid_to_domain_table : gmap Z Z;
  domidx_to_domain_table : list (option Z);
  domain_count : Z;
  domain_finalized : bool;
  root_fw_region : sbi_domain_memregion;
  root_memregs_count : Z }.

(** The address of [root]. *)
Definition root : Z := 0.

Definition upd_doms (f : gmap Z sbi_domain -> gmap Z sbi_domain) (s : domains) : domains :=
  mk_domains (f (dom_at s)) (hartid_to_domain_table s) (domidx_to_domain_table s)
    (domain_count s) (domain_finalized s) (root_fw_region s) (root_memregs_count s).

(** [sbi_domain_for_each]: the domains of the index table in front of the first
    empty entry. *)
Fixpoint domain_list (t : list (option Z)) : option (list Z) :=
  match t with
  | [] => None
  | None :: _ => Some []
  | Some p :: t' => cons p <$> domain_list t'
  end.

(** The search of [sbi_domain_register] for the domain in the index table. *)
Fixpoint registered (t : list (option Z)) (p : Z) : res bool :=
  match t with
  | [] => Fault OutOfBounds
  | None :: _ => Ok false
  | Some q :: t' => if q =? p then Ok true else registered t' p
  end.

(** The body of the loop of [sbi_domain_register] over the harts to assign. *)
Definition assign_hart (cold_hartid p : Z) (s : domains) (i : Z) : domains :=
  match dom_at s !! p with
  | None => s
  | Some d =>
      if negb (sbi_hartmask_test_hart i (default 0 (possible_harts d))) then s
      else
        let m1 := match hartid_to_domain_table s !! i with
                  | Some t => alter (fun x => set_assigned (sbi_hartmask_clear_hart i (assigned_harts x)) x)
                                t (dom_at s)
                  | None => dom_at s
                  end in
        let m2 := alter (fun x => set_assigned (sbi_hartmask_set_hart i (assigned_harts x)) x) p m1 in
        let m3 := if (i =? cold_hartid) && negb (boot_hartid d =? cold_hartid)
                  then alter (set_boot cold_hartid) p m2 else m2 in
        mk_domains m3 (<[i := p]> (hartid_to_domain_table s)) (domidx_to_domain_table s)
          (domain_count s) (domain_finalized s) (root_fw_region s) (root_memregs_count s)
  end.

Definition sbi_domain_register (cold_hartid : Z) (dom : option Z) (assign_mask : option Z)
    (s : domains) : res (Z * domains) :=
  match dom, assign_mask with
  | Some p, Some mask =>
      if domain_finalized s then Ok (SBI_EINVAL, s)
      else
        known ← registered (domidx_to_domain_table s) p;
        if (known : bool) then Ok (SBI_EALREADY, s)
        else if SBI_DOMAIN_MAX_INDEX <=? domain_count s then Ok (SBI_ENOSPC, s)
        else match dom_at s !! p with
        | None => Fault NullDeref
        | Some d =>
            '(rc, d1) ← sanitize_domain (root_fw_region s) d;
            if negb (rc =? 0) then Ok (rc, upd_doms <[p := d1]> s)
            else
              let i := domain_count s in
              let d2 := set_assigned 0 (set_index i d1) in
              let s1 := mk_domains (<[p := d2]> (dom_at s)) (hartid_to_domain_table s)
                          (<[Z.to_nat i := Some p]> (domidx_to_domain_table s)) (u32 (i + 1))
                          (domain_finalized s) (root_fw_region s) (root_memregs_count s) in
              Ok (0, foldl (assign_hart cold_hartid p) s1 (hartmask_harts mask))
        end
  | _, _ => Ok (SBI_EINVAL, s)
  end.

(** ** The root domain *)

(** One pass of [sbi_domain_root_add_memregion] over the regions: two consecutive
    regions that make an aligned region of the next order are merged, and the
    regions behind them move up. The number is that of the merges. *)
Definition mergeable_regions (nreg nreg1 : sbi_domain_memregion) : bool :=
  (Z.land (base nreg) (BIT (order nreg + 1) - 1) =? 0)
  && (u64 (base nreg + BIT (order nreg)) =? base nreg1)
  && (order nreg =? order nreg1) && (flags nreg =? flags nreg1).

Fixpoint merge_pass (l : list sbi_domain_memregion) : nat * list sbi_domain_memregion :=
  match l with
  | nreg :: (nreg1 :: l') as tl =>
      if mergeable_regions nreg nreg1 then
        let '(k, l2) := merge_pass l' in
        (S k, mk_region (order nreg + 1) (base nreg) (flags nreg) :: l2)
      else let '(k, l2) := merge_pass tl in (k, nreg :: l2)
  | _ => (O, l)
  end.

Definition region_end_mark (r : sbi_domain_memregion) : sbi_domain_memregion :=
  mk_region 0 (base r) (flags r).

(** The pass on the array: every merge leaves a copy of the end mark behind. *)
Definition merge_array (a rs : list sbi_domain_memregion) : nat * list sbi_domain_memregion :=
  let '(k, rs') := merge_pass rs in
  let rest := drop (length rs) a in
  (k, rs' ++ replicate k (default (mk_region 0 0 0) (rest !! 0%nat)) ++ rest).

(** The loop that sorts and merges. A round merges regions or is the last one. *)
Fixpoint root_optimize (fuel : nat) (s : domains) : res (Z * domains) :=
  match fuel with
  | O => Fault Hang
  | S fuel' =>
      match dom_at s !! root with
      | None => Fault NullDeref
      | Some d =>
          '(rc, d1) ← sanitize_domain (root_fw_region s) d;
          let s1 := upd_doms <[root := d1]> s in
          if negb (rc =? 0) then Ok (rc, s1)
          else match a ← regions d1; rs ← memregions a; Some (merge_array a rs) with
          | None => Fault OutOfBounds
          | Some (O, _) => Ok (0, s1)
          | Some (k, a') =>
              root_optimize fuel'
                (mk_domains (<[root := set_regions a' d1]> (dom_at s)) (hartid_to_domain_table s)
                   (domidx_to_domain_table s) (domain_count s) (domain_finalized s)
                   (root_fw_region s) (u32 (root_memregs_count s - Z.of_nat k)))
          end
      end
  end.

(** [is_region_conflict] with one of the regions of [root]. *)
Fixpoint conflicts (reg : sbi_domain_memregion) (a : list sbi_domain_memregion) : res bool :=
  match a with
  | [] => Fault OutOfBounds
  | nreg :: a' => if order nreg =? 0 then Ok false
                  else if is_region_conflict reg nreg then Ok true else conflicts reg a'
  end.

Definition sbi_domain_root_add_memregion (reg : option sbi_domain_memregion) (s : domains) :
    res (Z * domains) :=
  match reg, dom_at s !! root with
  | _, None => Fault NullDeref
  | None, _ => Ok (SBI_EINVAL, s)
  | Some reg, Some d =>
      if domain_finalized s || (ROOT_REGION_MAX <=? root_memregs_count s) then Ok (SBI_EINVAL, s)
      else match regions d with
      | None => Fault NullDeref
      | Some a =>
          c ← conflicts reg a;
          if (c : bool) then Ok (SBI_EINVAL, s)
          else
            let n := Z.to_nat (root_memregs_count s) in
            let a' := alter region_end_mark (S n) (<[n := reg]> a) in
            root_optimize (length a)
              (mk_domains (<[root := set_regions a' d]> (dom_at s)) (hartid_to_domain_table s)
                 (domidx_to_domain_table s) (domain_count s) (domain_finalized s)
                 (root_fw_region s) (u32 (root_memregs_count s + 1)))
      end
  end.

(** The fields of [struct sbi_scratch] that [sbi_domain_init] reads. *)
Record scratch_info := mk_scratch_info {
  fw_start : Z; fw_size : Z; scr_next_arg1 : Z; scr_next_addr : Z; scr_next_mode : Z }.

(** The variables before [sbi_domain_init]. *)
Definition static_root : sbi_domain :=
  mk_domain 0 0 (Some 0) (Some (replicate 17 (mk_region 0 0 0))) 0 0 0 0 true.
Definition static_domains : domains :=
  mk_domains {[root := static_root]}
    ∅ (replicate 32 None) 0 false (mk_region 0 0 0) 0.

(** [root_hmask]: the harts of the platform are added to it. *)
Definition root_hmask_fill (m : Z) : Z :=
  foldl (fun m i => if hart_invalid i then m else sbi_hartmask_set_hart i m) m
    (seqZ 0 SBI_HARTMASK_MAX_BITS).

(** The root domain and the variables that [sbi_domain_init] hands over to the
    registration. *)
Definition root_setup (sc : scratch_info) (cold_hartid hmask : Z) (s : domains) (d : sbi_domain) : sbi_domain :=
  let all := sbi_domain_memregion_init 0 (2 ^ 64 - 1)
               (Z.lor (Z.lor SBI_DOMAIN_MEMREGION_READABLE SBI_DOMAIN_MEMREGION_WRITEABLE)
                      SBI_DOMAIN_MEMREGION_EXECUTABLE) in
  let n := Z.to_nat (root_memregs_count s) in
  let a := default [] (regions d) in
  let a' := alter region_end_mark (S (S n))
              (<[S n := all]> (<[n := sbi_domain_memregion_init (fw_start sc) (fw_size sc) 0]> a)) in
  mk_domain (index d) (assigned_harts d) (Some hmask) (Some a') cold_hartid
    (scr_next_arg1 sc) (scr_next_addr sc) (scr_next_mode sc) (system_reset_allowed d).

Definition set_root (sc : scratch_info) (s : domains) (d : sbi_domain) : domains :=
  mk_domains (<[root := d]> (dom_at s)) (hartid_to_domain_table s)
    (domidx_to_domain_table s) (domain_count s) (domain_finalized s)
    (sbi_domain_memregion_init (fw_start sc) (fw_size sc) 0) (u32 (root_memregs_count s + 2)).

Definition sbi_domain_init (sc : scratch_info) (cold_hartid : Z) (s : domains) : res (Z * domains) :=
  match dom_at s !! root with
  | None => Fault NullDeref
  | Some d =>
      let hmask := root_hmask_fill (default 0 (possible_harts d)) in
      sbi_domain_register cold_hartid (Some root) (Some hmask)
        (set_root sc s (root_setup sc cold_hartid hmask s d))
  end.

End Platform.

(** ** The region that a range of addresses is given *)
Lemma log2roundup_loop_spec x fuel : forall ret, 0 <= x <= 2 ^ 64 -> 0 <= ret -> ret + Z.of_nat fuel = 64 ->
  (ret = 0 \/ 2 ^ (ret - 1) < x) ->
  let r := log2roundup_loop fuel x ret in
  ret <= r <= 64 /\ x <= 2 ^ r /\ (r = 0 \/ 2 ^ (r - 1) < x).
Proof.
  induction fuel as [|fuel IH]; intros ret Hx Hr Hf Hlow; simpl.
  - assert (ret = 64) as -> by lia. lia.
  - rewrite Z.shiftl_1_l. case_match eqn:E.
    + apply Z.leb_le in E. lia.
    + apply Z.leb_gt in E.
      assert (2 ^ (ret + 1 - 1) < x) by (by replace (ret + 1 - 1) with ret by lia).
      destruct (IH (ret + 1)) as (A & B & C); [lia..|by right|]. split; [lia|]. done.
Qed.

Lemma log2roundup_spec x : 0 <= x <= 2 ^ 64 ->
  0 <= log2roundup x <= 64 /\ x <= 2 ^ log2roundup x /\ (log2roundup x = 0 \/ 2 ^ (log2roundup x - 1) < x).
Proof. intros. apply log2roundup_loop_spec; lia. Qed.

Lemma log2roundup_low x o : 0 <= x <= 2 ^ 64 -> 0 <= o < log2roundup x -> 2 ^ o < x.
Proof.
  intros Hx Ho. destruct (log2roundup_spec x Hx) as (_ & _ & [E|E]); [lia|].
  eapply Z.le_lt_trans; [|exact E]. apply Z.pow_le_mono_r; lia.
Qed.

(** The block of order [o] that an address lies in. *)
Definition block (addr o : Z) : Z := addr - addr mod 2 ^ o.

Lemma block_range addr o : 0 <= o -> block addr o <= addr < block addr o + 2 ^ o.
Proof. intros. unfold block. pose proof (Z.mod_pos_bound addr (2 ^ o)). lia. Qed.

Lemma block_divide addr o : 0 <= o -> (2 ^ o | block addr o).
Proof.
  intros. exists (addr / 2 ^ o). unfold block. pose proof (Z.div_mod addr (2 ^ o)). lia.
Qed.

Lemma block_land addr o : 0 <= addr -> 0 <= o -> Z.land addr (Z.lnot (Z.shiftl 1 o - 1)) = block addr o.
Proof.
  intros. rewrite Z.shiftl_1_l, <- Z.ldiff_land, Z.sub_1_r, <- Z.ones_equiv, Z.ldiff_ones_r by lia.
  rewrite Z.shiftr_div_pow2, Z.shiftl_mul_pow2 by lia. unfold block.
  pose proof (Z.div_mod addr (2 ^ o)). lia.
Qed.

Lemma block_unique addr o b : 0 <= o -> (2 ^ o | b) -> b <= addr < b + 2 ^ o -> b = block addr o.
Proof.
  intros Ho [k ->] H. unfold block. pose proof (Z.div_mod addr (2 ^ o)).
  assert (addr / 2 ^ o = k) as <-; [|lia]. symmetry. apply (Z.div_unique addr (2 ^ o) k (addr - k * 2 ^ o)); lia.
Qed.

(** The upper bound of an aligned block wraps around only to 0. *)
Lemma block_top addr o : 0 <= addr < 2 ^ 64 -> 0 <= o < 64 -> 0 <= block addr o /\ block addr o + 2 ^ o <= 2 ^ 64.
Proof.
  intros Ha Ho. destruct (block_divide addr o) as [k E]; [lia|].
  pose proof (block_range addr o ltac:(lia)) as R. rewrite E in *.
  assert (2 ^ 64 = 2 ^ (64 - o) * 2 ^ o) as P. { rewrite <- Z.pow_add_r by lia. f_equal. lia. }
  assert (0 < 2 ^ o) by lia. assert (0 < 2 ^ (64 - o)) by (apply Z.pow_pos_nonneg; lia).
  rewrite P in *. clear P E. generalize dependent (2 ^ (64 - o)). generalize dependent (2 ^ o).
  intros n R Hn m Ha Hm. assert (0 <= k) by nia. assert (k < m) by nia. nia.
Qed.

Definition fits (addr size o : Z) : Prop :=
  addr + size <= block addr o + 2 ^ o /\ block addr o + 2 ^ o < 2 ^ 64.

Lemma memregion_test addr size o : 0 <= addr -> 0 < size -> addr + size <= 2 ^ 64 -> 0 <= o < 64 ->
  let b := Z.land addr (Z.lnot (Z.shiftl 1 o - 1)) in
  let e := u64 (b + Z.shiftl 1 o) in
  let last := u64 (addr + size - 1) in
  (b <=? addr) && (addr <? e) && (b <=? last) && (last <? e) = true <-> fits addr size o.
Proof.
  intros Ha Hs Hr Ho. cbv zeta. rewrite block_land, Z.shiftl_1_l by lia. unfold fits.
  pose proof (block_range addr o ltac:(lia)). destruct (block_top addr o); [lia..|].
  rewrite (wrap_small 64 (addr + size - 1)) by lia.
  rewrite !andb_true_iff, !Z.leb_le, !Z.ltb_lt.
  destruct (decide (block addr o + 2 ^ o = 2 ^ 64)) as [E|].
  - rewrite E. change (u64 (2 ^ 64)) with 0. lia.
  - rewrite wrap_small by lia. lia.
Qed.

Lemma memregion_loop_spec addr size fuel : 0 <= addr -> 0 < size -> addr + size <= 2 ^ 64 ->
  forall ord, 0 <= ord <= 64 -> 64 - ord < Z.of_nat fuel -> exists o, ord <= o <= 64 /\
    memregion_loop fuel addr size ord = (if o <? 64 then block addr o else 0, o) /\
    (o < 64 -> fits addr size o) /\ forall o', ord <= o' < o -> ~ fits addr size o'.
Proof.
  intros Ha Hs Hr. induction fuel as [|fuel IH]; intros ord Ho Hf; [lia|]. simpl memregion_loop.
  destruct (Z.ltb_spec ord 64).
  - pose proof (memregion_test addr size ord Ha Hs Hr ltac:(lia)) as T. cbv zeta in T.
    case_match eqn:E.
    + exists ord. destruct (Z.ltb_spec ord 64); [|lia]. rewrite block_land by lia.
      split; [lia|]. split; [done|]. split; [intros; by apply T|lia].
    + destruct (IH (ord + 1)) as (o & A & B & C & D); [lia..|].
      exists o. split; [lia|]. split; [done|]. split; [done|]. intros o' Ho'.
      destruct (decide (o' = ord)) as [->|]; [|apply D; lia]. intros F%T. congruence.
  - exists 64. assert (ord = 64) as -> by lia. repeat split; (done || lia).
Qed.

(** A region whose base is a multiple of its size and which does not wrap around. *)
Definition region_ok (r : sbi_domain_memregion) : Prop :=
  0 <= order r <= 64 /\ 0 <= base r /\ (2 ^ order r | base r) /\ base r + 2 ^ order r <= 2 ^ 64.

Lemma region_contains_iff r x : region_ok r -> 0 <= x < 2 ^ 64 ->
  region_contains r x = true <-> base r <= x < base r + 2 ^ order r.
Proof.
  intros (Ho & Hb & Hd & Ht) Hx. unfold region_contains, region_end.
  rewrite andb_true_iff, !Z.leb_le. rewrite Z.shiftl_1_l. destruct (Z.ltb_spec (order r) 64).
  - assert (0 < 2 ^ order r) by (apply Z.pow_pos_nonneg; lia). rewrite wrap_small by lia. lia.
  - assert (order r = 64) as E by lia. rewrite E in *. lia.
Qed.

Lemma memregion_init_ok addr size fl : 0 <= addr -> 0 < size -> addr + size <= 2 ^ 64 ->
  let r := sbi_domain_memregion_init addr size fl in
  region_ok r /\ flags r = fl /\ base r <= addr /\ addr + size <= base r + 2 ^ order r /\
  (forall o, 0 <= o < order r -> ~ fits addr size o).
Proof.
  intros Ha Hs Hr. unfold sbi_domain_memregion_init.
  destruct (log2roundup_spec size) as (L1 & L2 & _); [lia|].
  destruct (memregion_loop_spec addr size 65 Ha Hs Hr (log2roundup size)) as (o & A & -> & C & D); [lia..|].
  simpl. unfold region_ok. simpl. split; [|split; [done|]].
  - destruct (Z.ltb_spec o 64).
    + destruct (block_top addr o); [lia..|]. pose proof (block_divide addr o). repeat split; lia || auto with lia.
    + assert (o = 64) as -> by lia. repeat split; try lia. apply Z.divide_0_r.
  - assert (forall o', 0 <= o' < o -> ~ fits addr size o').
    { intros o' Ho'. destruct (decide (o' < log2roundup size)); [|apply D; lia].
      pose proof (log2roundup_low size o' ltac:(lia) ltac:(lia)).
      pose proof (block_range addr o' ltac:(lia)). unfold fits. lia. }
    split; [|split; [|done]].
    + destruct (Z.ltb_spec o 64); [|lia]. pose proof (block_range addr o). lia.
    + destruct (Z.ltb_spec o 64); [by apply C|]. assert (o = 64) as -> by lia. lia.
Qed.

(** The region made for a range of addresses contains the range, its base is a
    multiple of its size, and no region of a smaller order does, unless the smaller
    one ends at the top of the address space. *)
Theorem sbi_domain_memregion_init_least addr size fl : 0 <= addr -> 0 < size -> addr + size <= 2 ^ 64 ->
  let r := sbi_domain_memregion_init addr size fl in
  flags r = fl /\ region_ok r /\
  (forall x, addr <= x < addr + size -> region_contains r x = true) /\
  forall r', region_ok r' -> base r' + 2 ^ order r' < 2 ^ 64 ->
    (forall x, addr <= x < addr + size -> region_contains r' x = true) -> order r <= order r'.
Proof.
  intros Ha Hs Hr. destruct (memregion_init_ok addr size fl Ha Hs Hr) as (Ok & Hf & Hb & He & Hmin).
  split; [done|]. split; [done|]. split.
  - intros x Hx. apply region_contains_iff; [done|lia..].
  - intros r' Ok' Ht Hc. destruct (decide (order r' < order (sbi_domain_memregion_init addr size fl)));
      [|lia]. exfalso. apply (Hmin (order r')); [by destruct Ok' as ((? & _) & _)|].
    pose proof (Hc addr ltac:(lia)) as C1. pose proof (Hc (addr + size - 1) ltac:(lia)) as C2.
    apply region_contains_iff in C1, C2; [|done || lia..].
    pose proof (block_unique addr (order r') (base r')) as E. destruct Ok' as (? & _ & ? & _).
    unfold fits. rewrite <- E by (done || lia). lia.
Qed.

(** A region that ends at the top of the address space is not found: its upper
    bound wraps around to 0, and the region becomes the whole address space. *)
Theorem memregion_init_top :
  sbi_domain_memregion_init (2 ^ 64 - 4096) 4096 7 = mk_region 64 0 7 /\
  region_ok (mk_region 12 (2 ^ 64 - 4096) 7).
Proof.
  split; [by vm_compute|]. unfold region_ok; simpl. split; [lia|]. split; [lia|]. split; [|lia].
  by exists (2 ^ 52 - 1).
Qed.

(** ** Which region decides an access *)
Definition deciding (rs : list sbi_domain_memregion) (addr : Z) : option sbi_domain_memregion :=
  List.find (fun r => region_contains r addr) rs.

Definition decision (rs : list sbi_domain_memregion) (addr acc : Z) : bool :=
  match deciding rs addr with Some r => region_allows r acc | None => false end.

Lemma check_loop_deciding a rs addr mode acc : memregions a = Some rs -> mode <> PRV_M ->
  check_loop a addr mode acc = Ok (decision rs addr acc).
Proof.
  intros Ha Hm. unfold decision, deciding. revert rs Ha. induction a as [|r a IH]; intros rs Ha; simpl in *; [done|].
  assert (mode =? PRV_M = false) as E by lia. rewrite E in *. simpl.
  destruct (order r =? 0); simplify_eq; [done|].
  destruct (memregions a) as [rs'|]; simplify_eq/=. case_match; [done|]. by apply IH.
Qed.

Definition le_order (r1 r2 : sbi_domain_memregion) : Prop := is_region_before r2 r1 = false.
Definition sorted_regions (rs : list sbi_domain_memregion) : Prop := StronglySorted le_order rs.

Lemma le_order_order r1 r2 : le_order r1 r2 -> order r1 <= order r2.
Proof. unfold le_order, is_region_before. rewrite orb_false_iff. lia. Qed.

Lemma deciding_smallest rs addr : sorted_regions rs ->
  match deciding rs addr with
  | Some r => r ∈ rs /\ region_contains r addr = true /\
              forall r', r' ∈ rs -> region_contains r' addr = true -> order r <= order r'
  | None => forall r', r' ∈ rs -> region_contains r' addr = false
  end.
Proof.
  unfold deciding. induction 1 as [|r rs Hs IH Hr]; simpl; [intros ? []%not_elem_of_nil|].
  destruct (region_contains r addr) eqn:E.
  - split; [by left|]. split; [done|]. intros r' [->|Hin]%elem_of_cons _; [lia|].
    rewrite Forall_forall in Hr. by apply le_order_order, Hr.
  - destruct (List.find _ rs).
    + destruct IH as (A & B & C). split; [by right|]. split; [done|].
      intros r' [->|Hin]%elem_of_cons Hc; [congruence|auto].
    + intros r' [->|Hin]%elem_of_cons; auto.
Qed.

(** ** The sort *)
Lemma le_order_trans r1 r2 r3 : le_order r1 r2 -> le_order r2 r3 -> le_order r1 r3.
Proof.
  unfold le_order, is_region_before. rewrite !orb_false_iff, !andb_false_iff. lia.
Qed.

Lemma before_le r1 r2 : is_region_before r1 r2 = true -> le_order r1 r2.
Proof.
  unfold le_order, is_region_before. rewrite orb_true_iff, orb_false_iff, andb_true_iff, andb_false_iff. lia.
Qed.

Lemma sort_inner_spec l : forall reg ok z l2, sort_inner reg l = (ok, z, l2) ->
  z :: l2 ≡ₚ reg :: l /\ (ok = true -> le_order z reg /\ Forall (le_order z) l2).
Proof.
  induction l as [|reg1 l IH]; intros reg ok z l2 E; simpl in E.
  - simplify_eq. split; [done|]. intros _. split; [|done]. unfold le_order, is_region_before. lia.
  - destruct (is_region_conflict reg1 reg); [by simplify_eq|].
    destruct (is_region_before reg1 reg) eqn:B.
    + destruct (sort_inner reg1 l) as [[ok' z'] l'] eqn:E'. simplify_eq.
      destruct (IH _ _ _ _ E') as [P S]. split.
      * by rewrite (Permutation_swap reg z), P.
      * intros Hok. destruct (S Hok) as [A F]. apply before_le in B.
        pose proof (le_order_trans _ _ _ A B). by split; [|constructor].
    + destruct (sort_inner reg l) as [[ok' z'] l'] eqn:E'. simplify_eq.
      destruct (IH _ _ _ _ E') as [P S]. split.
      * rewrite (Permutation_swap reg1 z), P. apply Permutation_swap.
      * intros Hok. destruct (S Hok) as [A F]. split; [done|]. constructor; [|done].
        by eapply le_order_trans.
Qed.

Lemma sort_outer_spec k : forall l ok l', sort_outer k l = (ok, l') -> (length l <= S k)%nat ->
  l' ≡ₚ l /\ (ok = true -> sorted_regions l').
Proof.
  induction k as [|k IH]; intros l ok l' E Hl.
  - destruct l as [|r [|]]; simpl in *; simplify_eq; [| |lia]; split; try done; intros _; repeat constructor.
  - destruct l as [|r l]; simplify_eq/=; [split; [done|]; intros _; constructor|].
    destruct (sort_inner r l) as [[ok1 z] l2] eqn:E1. destruct (sort_inner_spec _ _ _ _ _ E1) as [P S].
    assert (length l2 = length l) by (apply Permutation_length in P; simpl in P; lia).
    destruct ok1; [|by simplify_eq]. destruct (sort_outer k l2) as [ok2 l3] eqn:E2. simplify_eq.
    destruct (IH _ _ _ E2) as [P2 S2]; [lia|]. split; [by rewrite P2|]. intros Hok.
    constructor; [by apply S2|]. destruct (S eq_refl) as [_ F]. by rewrite P2.
Qed.

Lemma sort_regions_spec l ok l' : sort_regions l = (ok, l') ->
  l' ≡ₚ l /\ (ok = true -> sorted_regions l').
Proof. intros E. eapply sort_outer_spec; [exact E|lia]. Qed.

(** ** Checks on a domain *)
Lemma memregions_split a rs : memregions a = Some rs ->
  exists t rest, a = rs ++ t :: rest /\ order t = 0 /\ Forall (fun r => order r <> 0) rs.
Proof.
  revert rs. induction a as [|r a IH]; intros rs H; simpl in H; [done|].
  destruct (Z.eqb_spec (order r) 0); simplify_eq/=; [by exists r, a|].
  destruct (memregions a) as [rs'|]; simplify_eq/=.
  destruct (IH _ eq_refl) as (t & rest & -> & Ht & F). exists t, rest. auto.
Qed.

Lemma memregions_app rs t rest : Forall (fun r => order r <> 0) rs -> order t = 0 ->
  memregions (rs ++ t :: rest) = Some rs.
Proof.
  intros F Ht. induction F as [|r rs Hr F IH]; simpl.
  - by rewrite Ht.
  - destruct (Z.eqb_spec (order r) 0); [done|]. by rewrite IH.
Qed.

(** The regions of an array in another order. *)
Lemma memregions_reorder a rs rs' : memregions a = Some rs -> rs' ≡ₚ rs ->
  memregions (rs' ++ drop (length rs) a) = Some rs'.
Proof.
  intros (t & rest & -> & Ht & F)%memregions_split P. rewrite drop_app_length.
  apply memregions_app; [by rewrite P|done].
Qed.

Lemma set_regions_same a d : regions d = Some a -> set_regions a d = d.
Proof. destruct d. simpl. by intros ->. Qed.

Section Sanitize.
Context (hart_invalid : Z -> bool).

(** What [sanitize_domain] establishes. *)
Record sanitized (fw : sbi_domain_memregion) (d : sbi_domain) (rs : list sbi_domain_memregion) : Prop := {
  san_regions : exists a, regions d = Some a /\ memregions a = Some rs;
  san_sorted : sorted_regions rs;
  san_valid : Forall (fun r => is_region_valid r = true) rs;
  san_fw : fw ∈ rs;
  san_harts : exists ph, possible_harts d = Some ph /\
                forall h, h ∈ hartmask_harts ph -> hart_invalid h = false;
  san_mode : next_mode d = PRV_S \/ next_mode d = PRV_U;
  san_next : sbi_domain_check_addr (Some d) (next_addr d) (next_mode d) SBI_DOMAIN_EXECUTE = Ok true }.

Lemma existsb_false {A} (f : A -> bool) l x : existsb f l = false -> x ∈ l -> f x = false.
Proof.
  intros E Hx. apply not_true_is_false. intros T. apply not_true_iff_false in E. apply E.
  apply existsb_exists. exists x. by rewrite <- list_elem_of_In.
Qed.

Lemma sanitize_domain_spec fw d a rs : regions d = Some a -> memregions a = Some rs ->
  exists rc rs', sanitize_domain hart_invalid fw d = Ok (rc, set_regions (rs' ++ drop (length rs) a) d) /\
    rs' ≡ₚ rs /\ (rc = 0 \/ rc = SBI_EINVAL) /\
    (rc = 0 -> sanitized fw (set_regions (rs' ++ drop (length rs) a) d) rs').
Proof.
  intros Hd Ha. unfold sanitize_domain. rewrite Hd, Ha.
  assert (set_regions (rs ++ drop (length rs) a) d = d) as Esame.
  { destruct (memregions_split _ _ Ha) as (t & rest & -> & _). rewrite drop_app_length.
    by apply set_regions_same. }
  assert (exists rs', Ok (SBI_EINVAL, d) = Ok (SBI_EINVAL, set_regions (rs' ++ drop (length rs) a) d) /\
    rs' ≡ₚ rs /\ (SBI_EINVAL = 0 \/ SBI_EINVAL = SBI_EINVAL) /\
    (SBI_EINVAL = 0 -> sanitized fw (set_regions (rs' ++ drop (length rs) a) d) rs')) as Hrej.
  { exists rs. rewrite Esame. repeat split; auto; done. }
  destruct (possible_harts d) as [ph|] eqn:Hph; [|by eauto].
  destruct (existsb hart_invalid (hartmask_harts ph)) eqn:Hh; [by eauto|].
  destruct (forallb is_region_valid rs) eqn:Hv; simpl; [|by eauto].
  destruct (existsb _ rs) eqn:Hfw; simpl; [|by eauto].
  destruct (sort_regions rs) as [ok rs'] eqn:Es. destruct (sort_regions_spec _ _ _ Es) as [P S].
  pose proof (memregions_reorder _ _ _ Ha P) as Hm.
  assert (exists rs'', Ok (SBI_EINVAL, set_regions (rs' ++ drop (length rs) a) d) =
       Ok (SBI_EINVAL, set_regions (rs'' ++ drop (length rs) a) d) /\
    rs'' ≡ₚ rs /\ (SBI_EINVAL = 0 \/ SBI_EINVAL = SBI_EINVAL) /\
    (SBI_EINVAL = 0 -> sanitized fw (set_regions (rs'' ++ drop (length rs) a) d) rs'')) as Hrej2.
  { exists rs'. repeat split; auto; done. }
  destruct ok; simpl negb; cbv iota; [|by eauto].
  destruct (negb (next_mode d =? PRV_S) && negb (next_mode d =? PRV_U)) eqn:Hmode; [by eauto|].
  assert (next_mode d = PRV_S \/ next_mode d = PRV_U) as Hmode' by lia.
  assert (next_mode d <> PRV_M) by (unfold PRV_S, PRV_U, PRV_M in *; lia).
  unfold sbi_domain_check_addr. simpl regions. cbv iota. erewrite check_loop_deciding by eassumption.
  simpl. destruct (decision rs' (next_addr d) SBI_DOMAIN_EXECUTE) eqn:Eal; [|by eauto].
  exists 0, rs'. split; [done|]. split; [done|]. split; [by left|]. intros _. constructor; simpl.
  - eauto.
  - auto.
  - rewrite P. apply Forall_forall. intros r Hr. rewrite forallb_forall in Hv. by apply Hv, list_elem_of_In.
  - rewrite P. apply existsb_exists in Hfw as (r & Hr & Er%bool_decide_eq_true). subst.
    by apply list_elem_of_In.
  - exists ph. split; [done|]. intros. by eapply existsb_false.
  - done.
  - erewrite check_loop_deciding by eassumption. by rewrite Eal.
Qed.

(** [sanitize_domain] returns for every domain whose regions have an end mark. It
    only reorders the regions; it reports success or [SBI_EINVAL], and on success
    the regions are sorted by size, each is valid, the region of the firmware is
    among them, the possible harts exist, and the next stage runs in supervisor or
    user mode at an address that may be executed. *)
Theorem sanitize_domain_correct fw d a rs : regions d = Some a -> memregions a = Some rs ->
  exists rc rs', sanitize_domain hart_invalid fw d = Ok (rc, set_regions (rs' ++ drop (length rs) a) d) /\
    rs' ≡ₚ rs /\ (rc = 0 \/ rc = SBI_EINVAL) /\
    (rc = 0 -> sanitized fw (set_regions (rs' ++ drop (length rs) a) d) rs').
Proof. apply sanitize_domain_spec. Qed.

(** In a domain that passes the checks, an access from supervisor or user mode is
    decided by a region of the smallest order among those that contain the address,
    in whatever order the regions were given, and is refused where there is none. *)
Theorem sbi_domain_check_addr_smallest fw d d' a rs addr mode acc :
  regions d = Some a -> memregions a = Some rs ->
  sanitize_domain hart_invalid fw d = Ok (0, d') -> mode <> PRV_M ->
  (exists r, r ∈ rs /\ region_contains r addr = true /\
     (forall r', r' ∈ rs -> region_contains r' addr = true -> order r <= order r') /\
     sbi_domain_check_addr (Some d') addr mode acc = Ok (region_allows r acc)) \/
  ((forall r, r ∈ rs -> region_contains r addr = false) /\
     sbi_domain_check_addr (Some d') addr mode acc = Ok false).
Proof.
  intros Hd Ha Es Hm.
  destruct (sanitize_domain_spec fw d a rs Hd Ha) as (rc & rs' & Es' & P & _ & S).
  rewrite Es in Es'. simplify_eq. specialize (S eq_refl).
  pose proof (memregions_reorder _ _ _ Ha P) as Hr.
  unfold sbi_domain_check_addr. simpl. erewrite check_loop_deciding by eassumption.
  pose proof (deciding_smallest rs' addr (san_sorted _ _ _ S)) as D.
  setoid_rewrite <- P. unfold decision. destruct (deciding rs' addr) as [r|]; [left|by right].
  destruct D as (A & B & C). eauto.
Qed.

End Sanitize.

(** ** Conflicts between regions

    [is_region_subset] computes the end of the second region from the order of the
    first. A region is a subset of another one, for it, just when their bases are
    the same, so that a region inside another one with the same flags but another
    base is no conflict. *)
Theorem is_region_subset_same_base rA rB :
  region_ok rA -> region_ok rB -> 0 < order rA < 64 -> base rB + 2 ^ order rA <= 2 ^ 64 ->
  is_region_subset rA rB = true <-> base rA = base rB.
Proof.
  intros (Ho & Hb & _ & Ht) (_ & HbB & _ & _) H64 HB. unfold is_region_subset, BIT.
  rewrite (Z.mod_small (order rA) 64), Z.shiftl_1_l by lia.
  assert (2 <= 2 ^ order rA).
  { change 2 with (2 ^ 1) at 1. apply Z.pow_le_mono_r; lia. }
  rewrite !wrap_small by lia. rewrite !andb_true_iff, !Z.leb_le, !Z.ltb_lt. lia.
Qed.

(** Of three regions, the first and the last conflict (same base and flags). They
    are exchanged with the one between them and never compared with each other, so
    the conflict is not reported; in another order it is. *)
Theorem sort_misses_conflict :
  let a := mk_region 20 0 7 in let b := mk_region 15 (2 ^ 24) 1 in let c := mk_region 12 0 7 in
  is_region_conflict c a = true /\ sort_regions [a; b; c] = (true, [c; b; a]) /\
  fst (sort_regions [a; c; b]) = false.
Proof. by vm_compute. Qed.

(** ** Examples *)
Lemma sbi_domain_memregion_init_least_witness :
  sbi_domain_memregion_init 0x80000100 0x2000 5 = mk_region 14 0x80000000 5 /\
  region_contains (sbi_domain_memregion_init 0x80000100 0x2000 5) 0x80000100 = true.
Proof.
  split; [by vm_compute|].
  destruct (sbi_domain_memregion_init_least 0x80000100 0x2000 5) as (_ & _ & H & _); [lia..|].
  apply H. lia.
Defined.

Definition ex_regions : list sbi_domain_memregion :=
  [mk_region 64 0 7; mk_region 18 0x80000000 0; mk_region 12 0x80001000 1; mk_region 0 0 0].
Definition ex_domain : sbi_domain := mk_domain 0 0 (Some 15) (Some ex_regions) 0 0 0x80200000 PRV_S true.
Definition ex_valid (h : Z) : bool := 4 <=? h.

Lemma sanitize_domain_correct_witness :
  exists rc rs, sanitize_domain ex_valid (mk_region 18 0x80000000 0) ex_domain =
    Ok (rc, set_regions (rs ++ [mk_region 0 0 0]) ex_domain) /\ rs ≡ₚ take 3 ex_regions.
Proof.
  destruct (sanitize_domain_correct ex_valid (mk_region 18 0x80000000 0) ex_domain ex_regions (take 3 ex_regions))
    as (rc & rs & E & P & _); [done..|]. by exists rc, rs.
Defined.

(** The smallest of three regions decides. *)
Definition ex_sanitized : sbi_domain :=
  set_regions [mk_region 12 0x80001000 1; mk_region 18 0x80000000 0; mk_region 64 0 7; mk_region 0 0 0] ex_domain.

Lemma sbi_domain_check_addr_smallest_witness :
  sanitize_domain ex_valid (mk_region 18 0x80000000 0) ex_domain = Ok (0, ex_sanitized) /\
  sbi_domain_check_addr (Some ex_sanitized) 0x80001234 PRV_S SBI_DOMAIN_READ = Ok true.
Proof.
  split; [by vm_compute|].
  destruct (sbi_domain_check_addr_smallest ex_valid (mk_region 18 0x80000000 0) ex_domain ex_sanitized ex_regions
    (take 3 ex_regions) 0x80001234 PRV_S SBI_DOMAIN_READ) as [(r & Hin & _ & Hmin & E)|[_ E]];
    [done|done|by vm_compute|done| |by vm_compute].
  rewrite E. specialize (Hmin (mk_region 12 0x80001000 1)).
  assert (order r <= 12) by (apply Hmin; [by repeat constructor|by vm_compute]).
  unfold ex_regions in Hin. simpl in Hin. rewrite !elem_of_cons in Hin.
  destruct Hin as [->|[->|[->|[]%not_elem_of_nil]]]; simpl in *; done || lia.
Defined.
