(* ===== verification/SbiDomInv.v ===== *)
(** * Registered domains of the firmware

    The state of [sbi_domain.c] across calls: every hart belongs to at most one
    domain, the tables and the masks of the domains agree, and every registered
    domain has passed the checks. [sbi_domain_init] and [sbi_domain_register] keep
    this; [sbi_domain_root_add_memregion] keeps it when it succeeds. *)

From Stdlib Require Import Sorted.
From S2P Require Import Prelude SbiFifo SbiTlb SbiDomain.

(** ** Hart masks *)
Lemma hartmask_harts_elem m h : h ∈ hartmask_harts m <-> 0 <= h < 128 /\ Z.testbit m h = true.
Proof.
  unfold hartmask_harts, SBI_HARTMASK_MAX_BITS. rewrite list_elem_of_filter, elem_of_seqZ. tauto.
Qed.

Lemma set_hart_testbit h m i : 0 <= h < 128 -> 0 <= i ->
  Z.testbit (sbi_hartmask_set_hart h m) i = bool_decide (i = h) || Z.testbit m i.
Proof.
  intros Hh Hi. unfold sbi_hartmask_set_hart, SBI_HARTMASK_MAX_BITS.
  destruct (Z.ltb_spec h 128); [|lia]. rewrite Z.lor_spec, Z.shiftl_1_l, Z.pow2_bits_eqb by lia.
  rewrite orb_comm. f_equal. rewrite Z.eqb_sym. case_bool_decide; lia.
Qed.

Lemma clear_hart_testbit h m i : 0 <= h < 128 -> 0 <= i ->
  Z.testbit (sbi_hartmask_clear_hart h m) i = negb (bool_decide (i = h)) && Z.testbit m i.
Proof.
  intros Hh Hi. unfold sbi_hartmask_clear_hart, SBI_HARTMASK_MAX_BITS.
  destruct (Z.ltb_spec h 128); [|lia]. rewrite Z.ldiff_spec, Z.shiftl_1_l, Z.pow2_bits_eqb by lia.
  rewrite andb_comm, Z.eqb_sym. do 2 f_equal. case_bool_decide; lia.
Qed.

Section Inv.
Context (hart_invalid : Z -> bool).

(** A domain with the settings of another one: everything but its index, the harts
    assigned to it and its boot hart. *)
Definition same_config (d d' : sbi_domain) : Prop :=
  regions d' = regions d /\ possible_harts d' = possible_harts d /\
  next_addr d' = next_addr d /\ next_mode d' = next_mode d.

Lemma sanitized_same_config fw d d' rs : same_config d d' ->
  sanitized hart_invalid fw d rs -> sanitized hart_invalid fw d' rs.
Proof.
  intros (R & P & A & M) [H1 H2 H3 H4 H5 H6 H7]. unfold sbi_domain_check_addr in H7.
  constructor; unfold sbi_domain_check_addr; by rewrite ?R, ?P, ?A, ?M.
Qed.

Definition assigned (d : sbi_domain) (h : Z) : bool := Z.testbit (assigned_harts d) h.
Definition possible (d : sbi_domain) (h : Z) : bool := Z.testbit (default 0 (possible_harts d)) h.

(** The invariant: [ps] are the registered domains in the order of their indices. *)
Record dom_inv (s : domains) (ps : list Z) : Prop := {
  inv_count : domain_count s = Z.of_nat (length ps);
  inv_room : (length ps <= 32)%nat;
  inv_table : domidx_to_domain_table s = map Some ps ++ replicate (32 - length ps) None;
  inv_nodup : NoDup ps;
  inv_dom : forall k p, ps !! k = Some p -> exists d rs, dom_at s !! p = Some d /\
      index d = Z.of_nat k /\ sanitized hart_invalid (root_fw_region s) d rs;
  inv_owner : forall h p, hartid_to_domain_table s !! h = Some p <->
      0 <= h < 128 /\ p ∈ ps /\ exists d, dom_at s !! p = Some d /\ assigned d h = true;
  inv_possible : forall p d h, p ∈ ps -> dom_at s !! p = Some d -> 0 <= h < 128 ->
      assigned d h = true -> possible d h = true }.

(** ** The assignment of one hart *)
Definition assign_upd (c p i : Z) (d0 : sbi_domain) (own : option Z) (q : Z) (x : sbi_domain) : sbi_domain :=
  let x1 := if decide (own = Some q) then set_assigned (sbi_hartmask_clear_hart i (assigned_harts x)) x else x in
  let x2 := if decide (p = q) then set_assigned (sbi_hartmask_set_hart i (assigned_harts x1)) x1 else x1 in
  if decide (p = q /\ i = c /\ boot_hartid d0 <> c) then set_boot c x2 else x2.

Lemma assign_hart_lookup c p s i d q : dom_at s !! p = Some d -> 0 <= i < 128 -> possible d i = true ->
  dom_at (assign_hart c p s i) !! q = assign_upd c p i d (hartid_to_domain_table s !! i) q <$> dom_at s !! q /\
  hartid_to_domain_table (assign_hart c p s i) = <[i := p]> (hartid_to_domain_table s).
Proof.
  intros Hp Hi Hpos. unfold assign_hart. rewrite Hp. unfold sbi_hartmask_test_hart, SBI_HARTMASK_MAX_BITS.
  destruct (Z.ltb_spec i 128); [|lia]. unfold possible in Hpos. rewrite Hpos. simpl. split; [|done].
  assert (forall f p' (m1 : gmap Z sbi_domain), alter f p' m1 !! q =
    (if decide (p' = q) then f else id) <$> m1 !! q) as A.
  { intros f p' m1. rewrite lookup_alter. destruct (m1 !! q) eqn:Eq; case_decide; subst; by rewrite ?Eq. }
  unfold assign_upd. destruct (hartid_to_domain_table s !! i) as [t|];
    destruct (Z.eqb_spec i c), (Z.eqb_spec (boot_hartid d) c); simpl; rewrite ?A;
    destruct (dom_at s !! q); simpl; try done; repeat case_decide; simpl; try done; naive_solver.
Qed.

Lemma assign_upd_config c p i d0 own q x : same_config x (assign_upd c p i d0 own q x) /\
  index (assign_upd c p i d0 own q x) = index x.
Proof. unfold assign_upd. repeat case_decide; done. Qed.

Lemma assign_upd_assigned c p i d0 own q x h : 0 <= i < 128 -> 0 <= h ->
  assigned (assign_upd c p i d0 own q x) h =
  if decide (h = i) then bool_decide (p = q) || (negb (bool_decide (own = Some q)) && assigned x i)
  else assigned x h.
Proof.
  intros Hi Hh. unfold assigned, assign_upd.
  repeat case_decide; simplify_eq/=; rewrite ?set_hart_testbit, ?clear_hart_testbit by lia;
    repeat case_bool_decide; simplify_eq/=; done.
Qed.

(** What does not change. *)
Lemma assign_hart_frame c p s i :
  domidx_to_domain_table (assign_hart c p s i) = domidx_to_domain_table s /\
  domain_count (assign_hart c p s i) = domain_count s /\
  domain_finalized (assign_hart c p s i) = domain_finalized s /\
  root_fw_region (assign_hart c p s i) = root_fw_region s.
Proof. unfold assign_hart. repeat (case_match; try done). Qed.

Lemma assign_hart_skip c p s i d : dom_at s !! p = Some d -> 0 <= i < 128 -> possible d i = false ->
  assign_hart c p s i = s.
Proof.
  intros Hp Hi Hn. unfold assign_hart, sbi_hartmask_test_hart, SBI_HARTMASK_MAX_BITS. rewrite Hp.
  destruct (Z.ltb_spec i 128); [|lia]. unfold possible in Hn. by rewrite Hn.
Qed.

Lemma assign_hart_inv c p s i ps d : dom_inv s ps -> p ∈ ps -> dom_at s !! p = Some d -> 0 <= i < 128 ->
  possible d i = true -> dom_inv (assign_hart c p s i) ps.
Proof.
  intros [I1 I2 I3 I4 I5 I6 I7] Hp Hd Hi Hpos.
  destruct (assign_hart_frame c p s i) as (F1 & F2 & F3 & F4).
  pose proof (fun q => proj1 (assign_hart_lookup c p s i d q Hd Hi Hpos)) as L.
  destruct (assign_hart_lookup c p s i d p Hd Hi Hpos) as [_ T].
  constructor; try congruence.
  - rewrite F4. intros k q Hq. destruct (I5 k q Hq) as (x & rs & Hx & Hk & S).
    destruct (assign_upd_config c p i d (hartid_to_domain_table s !! i) q x) as [C N].
    eexists _, rs. rewrite L, Hx. split; [done|]. split; [congruence|]. by eapply sanitized_same_config.
  - intros h q. rewrite T, lookup_insert, L. case_decide as Eh.
    + subst h. split.
      * intros [= ->]. split; [done|]. split; [done|]. rewrite Hd. eexists. split; [done|].
        rewrite assign_upd_assigned by lia. case_decide; [|done]. by rewrite bool_decide_eq_true_2.
      * intros (_ & Hq & x' & Hx' & Ha). apply fmap_Some in Hx' as (x & Hx & ->).
        rewrite assign_upd_assigned in Ha by lia. case_decide; [|done].
        apply orb_true_iff in Ha as [->%bool_decide_eq_true|[Hne Hb]%andb_true_iff]; [done|].
        exfalso. apply negb_true_iff, bool_decide_eq_false in Hne. apply Hne, I6. eauto.
    + rewrite I6. split.
      * intros (Hh & Hq & x & Hx & Ha). split; [done|]. split; [done|]. rewrite Hx. eexists.
        split; [done|]. rewrite assign_upd_assigned by lia. by case_decide.
      * intros (Hh & Hq & x' & Hx' & Ha). apply fmap_Some in Hx' as (x & Hx & ->).
        rewrite assign_upd_assigned in Ha by lia. case_decide; [done|]. eauto.
  - intros q x' h Hq Hx' Hh Ha. rewrite L in Hx'. apply fmap_Some in Hx' as (x & Hx & ->).
    destruct (assign_upd_config c p i d (hartid_to_domain_table s !! i) q x) as [(_ & C & _) _].
    unfold possible. rewrite C. change (possible x h = true). rewrite assign_upd_assigned in Ha by lia. case_decide as Eh; [|by eapply I7].
    subst h. apply orb_true_iff in Ha as [->%bool_decide_eq_true|[_ Hb]%andb_true_iff]; [|by eapply I7].
    by simplify_eq.
Qed.

Lemma same_config_refl d : same_config d d.
Proof. done. Qed.
Lemma same_config_trans d1 d2 d3 : same_config d1 d2 -> same_config d2 d3 -> same_config d1 d3.
Proof. unfold same_config. intros (-> & -> & -> & ->). done. Qed.
Lemma same_config_possible d d' h : same_config d d' -> possible d' h = possible d h.
Proof. intros (_ & E & _). unfold possible. by rewrite E. Qed.

(** The domains of one state keep their settings in another. *)
Definition keeps_config (s s' : domains) : Prop :=
  forall q x, dom_at s !! q = Some x -> exists x', dom_at s' !! q = Some x' /\ same_config x x'.

Lemma assign_hart_keeps c p s i d : dom_at s !! p = Some d -> 0 <= i < 128 -> keeps_config s (assign_hart c p s i).
Proof.
  intros Hd Hi q x Hx. destruct (possible d i) eqn:Hpos.
  - destruct (assign_hart_lookup c p s i d q Hd Hi Hpos) as [-> _]. rewrite Hx. eexists. split; [done|].
    apply assign_upd_config.
  - rewrite (assign_hart_skip _ _ _ _ d); eauto using same_config_refl.
Qed.

Lemma assign_all c p l : forall s ps d, dom_inv s ps -> p ∈ ps -> dom_at s !! p = Some d ->
  Forall (fun i => 0 <= i < 128) l ->
  let s' := foldl (assign_hart c p) s l in
  dom_inv s' ps /\ keeps_config s s' /\ domain_finalized s' = domain_finalized s /\
  root_fw_region s' = root_fw_region s /\
  forall h, hartid_to_domain_table s' !! h =
    if decide (h ∈ l /\ possible d h = true) then Some p else hartid_to_domain_table s !! h.
Proof.
  induction l as [|i l IH]; intros s ps d Inv Hp Hd F; simpl.
  - split; [done|]. split; [intros q x Hx; eauto using same_config_refl|]. split; [done|]. done.
  - apply Forall_cons in F as [Hi F]. pose proof (assign_hart_keeps c p s i d Hd Hi) as K.
    destruct (K p d Hd) as (d' & Hd' & C). destruct (assign_hart_frame c p s i) as (_ & _ & F3 & F4).
    assert (dom_inv (assign_hart c p s i) ps) as Inv'.
    { destruct (possible d i) eqn:E; [by eapply assign_hart_inv|]. by erewrite assign_hart_skip. }
    destruct (IH _ ps d' Inv' Hp Hd' F) as (A & B & E1 & E2 & T). split; [done|]. split.
    { intros q x Hx. destruct (K q x Hx) as (x1 & Hx1 & C1). destruct (B q x1 Hx1) as (x2 & Hx2 & C2).
      eauto using same_config_trans. }
    split; [congruence|]. split; [congruence|]. intros h. rewrite T, (same_config_possible _ _ h C).
    destruct (possible d i) eqn:E.
    + destruct (assign_hart_lookup c p s i d p Hd Hi E) as [_ ->]. rewrite lookup_insert.
      pose proof (elem_of_cons l h i) as EC. clear -E EC. repeat case_decide; naive_solver.
    + rewrite (assign_hart_skip _ _ _ _ d) by done. pose proof (elem_of_cons l h i) as EC. clear -E EC.
      repeat case_decide; try done; exfalso; rewrite EC in *; intuition congruence.
Qed.

(** ** Registration *)
Lemma registered_spec ps k p : (0 < k)%nat ->
  registered (map Some ps ++ replicate k None) p = Ok (bool_decide (p ∈ ps)).
Proof.
  intros Hk. induction ps as [|q ps IH]; simpl.
  - destruct k; [lia|]. done.
  - destruct (Z.eqb_spec q p) as [->|Hne].
    + rewrite bool_decide_eq_true_2; [done|by left].
    + rewrite IH. f_equal. apply bool_decide_ext. set_solver.
Qed.

Lemma dom_inv_other s ps p d1 : dom_inv s ps -> p ∉ ps -> dom_inv (upd_doms <[p := d1]> s) ps.
Proof.
  intros [I1 I2 I3 I4 I5 I6 I7] Hp.
  assert (forall q, q ∈ ps -> <[p := d1]> (dom_at s) !! q = dom_at s !! q) as L.
  { intros q Hq. apply lookup_insert_ne. by intros ->. }
  constructor; simpl; try done.
  - intros k q Hq. rewrite L by by eapply list_elem_of_lookup_2. eauto.
  - intros h q. rewrite I6. split; intros (Hh & Hq & x & Hx & Ha); (split; [done|split; [done|]]);
      exists x; rewrite L in * by done; done.
  - intros q x h Hq. rewrite L by done. by apply I7.
Qed.

(** The state between the checks and the assignment of harts. *)
Lemma dom_inv_append s ps p d2 rs : dom_inv s ps -> p ∉ ps -> (length ps < 32)%nat ->
  sanitized hart_invalid (root_fw_region s) d2 rs -> assigned_harts d2 = 0 ->
  index d2 = domain_count s ->
  dom_inv (mk_domains (<[p := d2]> (dom_at s)) (hartid_to_domain_table s)
             (<[Z.to_nat (domain_count s) := Some p]> (domidx_to_domain_table s))
             (u32 (domain_count s + 1)) (domain_finalized s) (root_fw_region s) (root_memregs_count s))
          (ps ++ [p]).
Proof.
  intros [I1 I2 I3 I4 I5 I6 I7] Hp Hl HS Ha0 Hi.
  assert (forall q, q ∈ ps -> <[p := d2]> (dom_at s) !! q = dom_at s !! q) as L.
  { intros q Hq. apply lookup_insert_ne. by intros ->. }
  constructor; simpl.
  - rewrite length_app. simpl. rewrite wrap_small by lia. lia.
  - rewrite length_app. simpl. lia.
  - rewrite I1, Nat2Z.id, I3. rewrite insert_app_r_alt by (rewrite length_map; lia).
    rewrite length_map, Nat.sub_diag, length_app. simpl length.
    replace (32 - length ps)%nat with (S (32 - (length ps + 1))) by lia.
    rewrite map_app, <- app_assoc. done.
  - apply NoDup_app. split; [done|]. split; [set_solver|]. apply NoDup_singleton.
  - intros k q Hq. apply lookup_app_Some in Hq as [Hq|[Hk Hq]].
    + rewrite L by by eapply list_elem_of_lookup_2. eauto.
    + apply list_lookup_singleton_Some in Hq as [Hk0 <-]. exists d2, rs.
      rewrite lookup_insert_eq. split; [done|]. split; [lia|done].
  - intros h q. rewrite I6. split.
    + intros (Hh & Hq & x & Hx & Ha). split; [done|]. split; [set_solver|]. exists x. by rewrite L.
    + intros (Hh & Hq & x & Hx & Ha). split; [done|]. apply elem_of_app in Hq as [Hq|Hq].
      * split; [done|]. exists x. by rewrite <- L.
      * apply list_elem_of_singleton in Hq as ->. rewrite lookup_insert_eq in Hx. simplify_eq.
        unfold assigned in Ha. by rewrite Ha0, Z.bits_0 in Ha.
  - intros q x h Hq Hx Hh Ha. apply elem_of_app in Hq as [Hq|Hq].
    + rewrite L in Hx by done. eauto.
    + apply list_elem_of_singleton in Hq as ->. rewrite lookup_insert_eq in Hx. simplify_eq.
      unfold assigned in Ha. by rewrite Ha0, Z.bits_0 in Ha.
Qed.

(** The regions of a domain have an end mark. *)
Definition terminated (d : sbi_domain) : Prop :=
  forall a, regions d = Some a -> exists rs, memregions a = Some rs.

Lemma sanitize_cases fw d : terminated d -> exists rc d1, sanitize_domain hart_invalid fw d = Ok (rc, d1) /\
  (rc = 0 \/ rc = SBI_EINVAL) /\ possible_harts d1 = possible_harts d /\
  (rc = 0 -> exists rs, sanitized hart_invalid fw d1 rs).
Proof.
  intros T. destruct (regions d) as [a|] eqn:Ha.
  - destruct (T a Ha) as [rs Hr].
    destruct (sanitize_domain_spec hart_invalid fw d a rs Ha Hr) as (rc & rs' & E & _ & Hrc & S).
    exists rc, (set_regions (rs' ++ drop (length rs) a) d). eauto 6.
  - exists SBI_EINVAL, d. unfold sanitize_domain. rewrite Ha.
    split; [repeat case_match; done|]. split; [by right|]. done.
Qed.

Lemma register_spec c p mask s ps d : dom_inv s ps -> domain_finalized s = false ->
  (length ps < 32)%nat -> p ∉ ps -> dom_at s !! p = Some d -> terminated d ->
  exists rc d1 s', sanitize_domain hart_invalid (root_fw_region s) d = Ok (rc, d1) /\
    sbi_domain_register hart_invalid c (Some p) (Some mask) s = Ok (rc, s') /\
    (rc = 0 \/ rc = SBI_EINVAL) /\ dom_inv s' (if rc =? 0 then ps ++ [p] else ps) /\
    domain_finalized s' = false /\ root_fw_region s' = root_fw_region s /\
    keeps_config (upd_doms <[p := d1]> s) s' /\
    forall h, hartid_to_domain_table s' !! h =
      if decide (rc = 0 /\ h ∈ hartmask_harts mask /\ possible d h = true) then Some p
      else hartid_to_domain_table s !! h.
Proof.
  intros Inv Hfin Hl Hp Hd T. unfold sbi_domain_register. rewrite Hfin, (inv_table _ _ Inv).
  rewrite registered_spec by lia. rewrite bool_decide_eq_false_2 by done. simpl.
  rewrite (inv_count _ _ Inv). unfold SBI_DOMAIN_MAX_INDEX. destruct (Z.leb_spec 32 (Z.of_nat (length ps))); [lia|].
  rewrite Hd. destruct (sanitize_cases (root_fw_region s) d T) as (rc & d1 & -> & Hrc & Hph & HS). simpl.
  destruct (Z.eqb_spec rc 0) as [->|Hne]; simpl.
  - destruct (HS eq_refl) as [rs S1].
    pose proof (dom_inv_append s ps p (set_assigned 0 (set_index (domain_count s) d1)) rs Inv Hp Hl) as Inv1.
    assert (same_config d1 (set_assigned 0 (set_index (domain_count s) d1))) as C by done.
    specialize (Inv1 (sanitized_same_config _ _ _ _ C S1) eq_refl eq_refl).
    rewrite (inv_count _ _ Inv), (inv_table _ _ Inv), Hfin in Inv1.
    destruct (assign_all c p (hartmask_harts mask) _ _
      (set_assigned 0 (set_index (Z.of_nat (length ps)) d1)) Inv1) as (I2 & K & F1 & F2 & Tb).
    + set_solver.
    + simpl. apply lookup_insert_eq.
    + apply Forall_forall. intros h Hh%hartmask_harts_elem. tauto.
    + eexists 0, d1, _. split; [done|]. split; [done|]. split; [by left|]. split; [exact I2|].
      split; [by rewrite F1|]. split; [by rewrite F2|]. split.
      * intros q x Hx. simpl in Hx. rewrite lookup_insert in Hx. case_decide; simplify_eq.
        -- destruct (K q (set_assigned 0 (set_index (Z.of_nat (length ps)) x))) as (x' & Hx' & Cx).
           { simpl. apply lookup_insert_eq. } exists x'. done.
        -- apply K. simpl. by rewrite lookup_insert_ne.
      * intros h. rewrite Tb. simpl. unfold possible. simpl. rewrite Hph. repeat case_decide; naive_solver.
  - exists rc, d1, (upd_doms <[p := d1]> s). split; [done|]. split; [done|]. split; [done|].
    destruct (Z.eqb_spec rc 0); [done|].
    split; [by apply dom_inv_other|]. split; [done|]. split; [done|].
    split; [intros q x Hx; eauto using same_config_refl|]. intros h. case_decide; [naive_solver|done].
Qed.

(** C21. Registration of a domain returns 0 or [SBI_EINVAL] and keeps the invariant:
    a hart belongs to one domain, as its mask and the table both say, to a domain
    for which it is possible, and every registered domain has passed the checks.
    On success the harts of the mask that are possible for the domain belong to it;
    no other hart changes its domain, and none does on failure. *)
Theorem sbi_domain_register_owner c p mask s ps d : dom_inv s ps -> domain_finalized s = false ->
  (length ps < 32)%nat -> p ∉ ps -> dom_at s !! p = Some d -> terminated d ->
  exists rc s', sbi_domain_register hart_invalid c (Some p) (Some mask) s = Ok (rc, s') /\
    (rc = 0 \/ rc = SBI_EINVAL) /\ dom_inv s' (if rc =? 0 then ps ++ [p] else ps) /\
    forall h, hartid_to_domain_table s' !! h =
      if decide (rc = 0 /\ h ∈ hartmask_harts mask /\ possible d h = true) then Some p
      else hartid_to_domain_table s !! h.
Proof.
  intros Inv Hfin Hl Hp Hd T.
  destruct (register_spec c p mask s ps d) as (rc & d1 & s' & _ & E & Hrc & I & _ & _ & _ & Tb); eauto 7.
Qed.

(** A domain that is registered already is reported and nothing changes. *)
Theorem sbi_domain_register_twice c p mask s ps : dom_inv s ps -> domain_finalized s = false ->
  (length ps < 32)%nat -> p ∈ ps ->
  sbi_domain_register hart_invalid c (Some p) (Some mask) s = Ok (SBI_EALREADY, s).
Proof.
  intros Inv Hfin Hl Hp. unfold sbi_domain_register. rewrite Hfin, (inv_table _ _ Inv).
  rewrite registered_spec by lia. by rewrite bool_decide_eq_true_2.
Qed.

(** Once 32 domains are registered, looking for another one reads past the table,
    before the number of domains is compared with the size of the table. *)
Theorem sbi_domain_register_full c p mask s ps : dom_inv s ps -> domain_finalized s = false ->
  length ps = 32%nat -> p ∉ ps ->
  sbi_domain_register hart_invalid c (Some p) (Some mask) s = Fault OutOfBounds.
Proof.
  intros Inv Hfin Hl Hp. unfold sbi_domain_register. rewrite Hfin, (inv_table _ _ Inv), Hl.
  rewrite app_nil_r. enough (registered (map Some ps) p = Fault OutOfBounds) as -> by done.
  clear -Hp. induction ps as [|q ps IH]; [done|]. simpl. destruct (Z.eqb_spec q p); [set_solver|].
  apply IH. set_solver.
Qed.

(** ** Initialisation *)
Lemma root_hmask_testbit l : forall m h, Forall (fun i => 0 <= i < 128) l -> 0 <= h ->
  Z.testbit (foldl (fun m i => if hart_invalid i then m else sbi_hartmask_set_hart i m) m l) h =
  Z.testbit m h || (bool_decide (h ∈ l) && negb (hart_invalid h)).
Proof.
  induction l as [|i l IH]; intros m h F Hh; simpl.
  - by rewrite orb_false_r.
  - apply Forall_cons in F as [Hi F]. rewrite IH by done.
    assert (bool_decide (h ∈ i :: l) = bool_decide (h = i) || bool_decide (h ∈ l)) as ->.
    { repeat case_bool_decide; set_solver. }
    assert (Z.testbit (if hart_invalid i then m else sbi_hartmask_set_hart i m) h =
      (bool_decide (h = i) && negb (hart_invalid i)) || Z.testbit m h) as ->.
    { destruct (hart_invalid i); [by rewrite andb_false_r|]. by rewrite andb_true_r, set_hart_testbit. }
    destruct (decide (h = i)) as [->|Hne].
    + rewrite (bool_decide_eq_true_2 (i = i)) by done.
      by destruct (Z.testbit m i), (bool_decide (i ∈ l)), (hart_invalid i).
    + by rewrite (bool_decide_eq_false_2 (h = i)).
Qed.

Lemma root_hmask_fill_testbit h : 0 <= h < 128 ->
  Z.testbit (root_hmask_fill hart_invalid 0) h = negb (hart_invalid h).
Proof.
  intros Hh. unfold root_hmask_fill, SBI_HARTMASK_MAX_BITS.
  rewrite root_hmask_testbit, Z.bits_0; [|apply Forall_seqZ; lia|lia].
  rewrite bool_decide_eq_true_2; [done|]. apply elem_of_seqZ. lia.
Qed.

Definition all_region : sbi_domain_memregion := mk_region 64 0 7.

Lemma all_region_init :
  sbi_domain_memregion_init 0 (2 ^ 64 - 1)
    (Z.lor (Z.lor SBI_DOMAIN_MEMREGION_READABLE SBI_DOMAIN_MEMREGION_WRITEABLE)
           SBI_DOMAIN_MEMREGION_EXECUTABLE) = all_region.
Proof. by vm_compute. Qed.

(** The two regions of the root domain are in their order already. *)
Lemma root_sort fw : region_ok fw -> flags fw = 0 -> sort_regions [fw; all_region] = (true, [fw; all_region]).
Proof.
  intros (Ho & Hb & Hd & Ht) Hf.
  assert (is_region_before all_region fw = false) as B.
  { unfold is_region_before. change (order all_region) with 64. change (base all_region) with 0.
    destruct (Z.ltb_spec 64 (order fw)); [lia|]. destruct (Z.eqb_spec 64 (order fw)) as [E|]; [|done].
    rewrite <- E in Ht. destruct (Z.ltb_spec 0 (base fw)); [lia|done]. }
  assert (is_region_conflict all_region fw = false) as C.
  { unfold is_region_conflict. rewrite Hf. apply andb_false_r. }
  unfold sort_regions. cbn [length Nat.sub sort_outer sort_inner]. by rewrite B, C.
Qed.

Definition root_array (fw : sbi_domain_memregion) : list sbi_domain_memregion :=
  fw :: all_region :: replicate 15 (mk_region 0 0 0).

Lemma sanitize_root fw d d1 : region_ok fw -> flags fw = 0 -> regions d = Some (root_array fw) ->
  sanitize_domain hart_invalid fw d = Ok (0, d1) ->
  memregions (root_array fw) = Some [fw; all_region] /\ regions d1 = Some (root_array fw).
Proof.
  intros Hok Hf Hreg S1. destruct (decide (order fw = 0)) as [E0|Hne].
  - exfalso. assert (memregions (root_array fw) = Some []) as Hm by (simpl; by rewrite E0).
    destruct (sanitize_domain_spec hart_invalid fw d _ _ Hreg Hm) as (rc & rs & S2 & P & _ & HS).
    rewrite S1 in S2. simplify_eq. destruct (HS eq_refl) as [_ _ _ Hin _ _ _]. rewrite P in Hin.
    by apply not_elem_of_nil in Hin.
  - assert (memregions (root_array fw) = Some [fw; all_region]) as Hm.
    { simpl. by destruct (Z.eqb_spec (order fw) 0). }
    split; [done|]. unfold sanitize_domain in S1. rewrite Hreg, Hm, root_sort in S1 by done.
    destruct (possible_harts d) as [ph|]; [|done]. destruct (existsb _ (hartmask_harts ph)); [done|].
    destruct (forallb _ _); [|done]. destruct (existsb _ _); [|done]. simpl negb in S1. cbv iota in S1.
    destruct (_ && _); [done|]. destruct (sbi_domain_check_addr _ _ _ _); by simplify_eq/=.
Qed.

Lemma root_decision fw addr acc : region_ok fw -> flags fw = 0 -> 0 <= addr < 2 ^ 64 ->
  has acc SBI_DOMAIN_MMIO = false -> access_rwx acc <> 0 ->
  decision [fw; all_region] addr acc = negb (region_contains fw addr).
Proof.
  intros Ok Hf Ha Hm Hx. unfold decision, deciding. simpl. destruct (region_contains fw addr); simpl.
  - unfold region_allows. rewrite Hf, Hm, Z.land_0_l. by apply Z.eqb_neq.
  - assert (region_contains all_region addr = true) as ->.
    { apply region_contains_iff; [|done|].
      - split; [simpl; lia|]. split; [simpl; lia|]. split; [apply Z.divide_0_r|simpl; lia].
      - simpl. lia. }
    unfold region_allows. rewrite Hm. simpl. unfold access_rwx.
    by destruct (has acc SBI_DOMAIN_READ), (has acc SBI_DOMAIN_WRITE), (has acc SBI_DOMAIN_EXECUTE).
Qed.

Lemma static_inv s : domain_count s = 0 -> domidx_to_domain_table s = replicate 32 None ->
  hartid_to_domain_table s = ∅ -> dom_inv s [].
Proof.
  intros C T H. constructor; rewrite ?C, ?T, ?H; try done.
  - simpl. lia.
  - apply NoDup_nil_2.
  - intros h p. rewrite lookup_empty. split; [done|]. intros (_ & []%not_elem_of_nil & _).
  - intros p d h []%not_elem_of_nil.
Qed.

Lemma root_setup_regions sc c hm :
  regions (root_setup sc c hm static_domains static_root) =
  Some (root_array (sbi_domain_memregion_init (fw_start sc) (fw_size sc) 0)).
Proof. unfold root_setup. rewrite all_region_init. done. Qed.

(** The registration of the root domain. *)
Lemma register_root c fw hm d s0 : region_ok fw -> flags fw = 0 -> regions d = Some (root_array fw) ->
  possible_harts d = Some hm -> (forall h, 0 <= h < 128 -> Z.testbit hm h = negb (hart_invalid h)) ->
  dom_at s0 !! root = Some d -> root_fw_region s0 = fw -> hartid_to_domain_table s0 = ∅ ->
  domidx_to_domain_table s0 = replicate 32 None -> domain_count s0 = 0 -> domain_finalized s0 = false ->
  exists rc s', sbi_domain_register hart_invalid c (Some root) (Some hm) s0 = Ok (rc, s') /\
    (rc = 0 \/ rc = SBI_EINVAL) /\
    (rc = 0 -> dom_inv s' [root] /\ root_fw_region s' = fw /\
      (forall h, hartid_to_domain_table s' !! h =
         if decide (0 <= h < 128 /\ hart_invalid h = false) then Some root else None) /\
      exists d', dom_at s' !! root = Some d' /\ regions d' = Some (root_array fw) /\
        memregions (root_array fw) = Some [fw; all_region]).
Proof.
  intros Hok Hf Hreg Hph Hbit Hd Hfw Hht Hdt Hc Hfin.
  assert (terminated d) as T.
  { intros a Ha. rewrite Hreg in Ha. simplify_eq. simpl. case_match; simpl; eauto. }
  destruct (register_spec c root hm s0 [] d) as (rc & d1 & s' & S1 & E & Hrc & I & _ & F & K & Tb);
    [by apply static_inv|done|simpl; lia|by intros ?%not_elem_of_nil|done..|].
  exists rc, s'. split; [done|]. split; [done|]. intros ->. split; [done|]. split; [congruence|]. split.
  - intros h. rewrite Tb, Hht, lookup_empty. apply decide_ext. unfold possible. rewrite Hph. simpl.
    rewrite hartmask_harts_elem. split.
    + intros (_ & [Hh B] & _). split; [done|]. rewrite Hbit in B by done. by apply negb_true_iff.
    + intros [Hh B]. rewrite Hbit, B by done. done.
  - destruct (K root d1) as (d2 & Hd2 & C2 & _). { simpl. apply lookup_insert_eq. }
    exists d2. rewrite Hfw in S1. destruct (sanitize_root fw d d1 Hok Hf Hreg S1). by rewrite C2.
Qed.

Lemma init_root sc c : 0 <= fw_start sc -> 0 < fw_size sc -> fw_start sc + fw_size sc <= 2 ^ 64 ->
  let fw := sbi_domain_memregion_init (fw_start sc) (fw_size sc) 0 in
  exists rc s', sbi_domain_init hart_invalid sc c static_domains = Ok (rc, s') /\
    (rc = 0 \/ rc = SBI_EINVAL) /\
    (rc = 0 -> dom_inv s' [root] /\ root_fw_region s' = fw /\
      (forall h, hartid_to_domain_table s' !! h =
         if decide (0 <= h < 128 /\ hart_invalid h = false) then Some root else None) /\
      exists d', dom_at s' !! root = Some d' /\ regions d' = Some (root_array fw) /\
        memregions (root_array fw) = Some [fw; all_region]).
Proof.
  intros Hs Hz Hr fw. destruct (memregion_init_ok (fw_start sc) (fw_size sc) 0 Hs Hz Hr) as (Hok & Hf & _).
  fold fw in Hok, Hf. unfold sbi_domain_init.
  rewrite (lookup_singleton_eq root static_root : dom_at static_domains !! root = _). cbv zeta.
  set (hm := root_hmask_fill hart_invalid (default 0 (possible_harts static_root))).
  apply (register_root c fw hm (root_setup sc c hm static_domains static_root)
    (set_root sc static_domains (root_setup sc c hm static_domains static_root)));
    [done|done|by apply root_setup_regions|done|apply root_hmask_fill_testbit|apply lookup_insert_eq|done..].
Qed.

(** After [sbi_domain_init] the root domain owns every hart of the platform, and
    software in supervisor or user mode may not access the firmware, that is the
    smallest region around it, and may access everything else. *)
Theorem sbi_domain_init_protects_firmware sc c :
  0 <= fw_start sc -> 0 < fw_size sc -> fw_start sc + fw_size sc <= 2 ^ 64 ->
  let fw := sbi_domain_memregion_init (fw_start sc) (fw_size sc) 0 in
  exists rc s', sbi_domain_init hart_invalid sc c static_domains = Ok (rc, s') /\
    (rc = 0 \/ rc = SBI_EINVAL) /\
    (rc = 0 -> dom_inv s' [root] /\ root_fw_region s' = fw /\
      (forall h, hartid_to_domain_table s' !! h =
         if decide (0 <= h < 128 /\ hart_invalid h = false) then Some root else None) /\
      exists d, dom_at s' !! root = Some d /\
        forall addr mode acc, 0 <= addr < 2 ^ 64 -> mode <> PRV_M ->
          has acc SBI_DOMAIN_MMIO = false -> access_rwx acc <> 0 ->
          sbi_domain_check_addr (Some d) addr mode acc = Ok (negb (region_contains fw addr))).
Proof.
  intros Hs Hz Hr fw. destruct (memregion_init_ok (fw_start sc) (fw_size sc) 0 Hs Hz Hr) as (Hok & Hf & _).
  fold fw in Hok, Hf. destruct (init_root sc c Hs Hz Hr) as (rc & s' & E & Hrc & H).
  exists rc, s'. split; [exact E|]. split; [done|]. intros H0.
  destruct (H H0) as (I & F & T & d' & Hd' & R & M).
  split; [done|]. split; [done|]. split; [done|]. exists d'. split; [done|].
  intros addr mode acc Ha Hm Hmm Hx. unfold sbi_domain_check_addr. rewrite R.
  erewrite check_loop_deciding by eassumption. f_equal. by apply root_decision.
Qed.

(** ** Regions added to the root domain *)
Definition covered (rs : list sbi_domain_memregion) (addr f : Z) : Prop :=
  exists r, r ∈ rs /\ region_contains r addr = true /\ flags r = f.

Lemma BIT_small o : 0 <= o < 64 -> BIT o = 2 ^ o.
Proof. intros. unfold BIT. by rewrite Z.mod_small, Z.shiftl_1_l by lia. Qed.

Lemma land_mask_divide b o : 0 <= o -> Z.land b (2 ^ o - 1) = 0 -> (2 ^ o | b).
Proof.
  intros Ho H. rewrite Z.sub_1_r, <- Z.ones_equiv, Z.land_ones in H by done.
  apply Z.mod_divide; [|done]. pose proof (Z.pow_pos_nonneg 2 o). lia.
Qed.

Definition merged_region (r : sbi_domain_memregion) : sbi_domain_memregion :=
  mk_region (order r + 1) (base r) (flags r).

Lemma mergeable_bounds r r1 : region_ok r -> region_ok r1 -> le_order r r1 -> mergeable_regions r r1 = true ->
  flags r1 = flags r /\ order r1 = order r /\ order r < 64 /\ base r1 = base r + 2 ^ order r /\
  (2 ^ (order r + 1) | base r).
Proof.
  intros (Ho & Hb & Hd & Ht) (Ho1 & Hb1 & Hd1 & Ht1) Hle M. unfold mergeable_regions in M.
  rewrite !andb_true_iff, !Z.eqb_eq in M. destruct M as (((Mb & Mn) & Mo) & Mf).
  unfold le_order, is_region_before in Hle. rewrite Mo in *. apply orb_false_iff in Hle as [_ Hle].
  rewrite Z.eqb_refl, andb_true_l, Z.ltb_ge in Hle.
  assert (order r1 < 64) as H64.
  { destruct (decide (order r1 = 64)) as [E|]; [|lia]. rewrite E in *.
    replace (base r) with 0 in Mn by lia. change (u64 (0 + BIT 64)) with 1 in Mn. lia. }
  rewrite (BIT_small (order r1)) in Mn by lia. assert (0 < 2 ^ order r1) by (apply Z.pow_pos_nonneg; lia).
  assert (base r1 = base r + 2 ^ order r1) as E1.
  { destruct (decide (base r + 2 ^ order r1 = 2 ^ 64)) as [E|].
    - rewrite E in Mn. change (u64 (2 ^ 64)) with 0 in Mn.
      pose proof (Z.pow_lt_mono_r 2 (order r1) 64). lia.
    - rewrite wrap_small in Mn by lia. lia. }
  repeat split; try congruence || lia.
  destruct (decide (order r1 = 63)) as [E|].
  - rewrite E in *. replace (base r) with 0 by lia. apply Z.divide_0_r.
  - rewrite BIT_small in Mb by lia. apply land_mask_divide; [lia|done].
Qed.

Lemma mergeable_ok r r1 : region_ok r -> region_ok r1 -> le_order r r1 -> mergeable_regions r r1 = true ->
  region_ok (merged_region r) /\ flags r1 = flags r /\
  forall x, 0 <= x < 2 ^ 64 ->
    region_contains (merged_region r) x = region_contains r x || region_contains r1 x.
Proof.
  intros Ok Ok1 Hle M. destruct (mergeable_bounds r r1 Ok Ok1 Hle M) as (Hf & Ho & H64 & Hb & Hd).
  assert (2 ^ (order r + 1) = 2 * 2 ^ order r) as P by (rewrite Z.pow_add_r; destruct Ok; lia).
  assert (region_ok (merged_region r)) as Okm.
  { destruct Ok as (? & ? & _ & ?), Ok1 as (_ & _ & _ & T1). rewrite Ho, Hb in T1. unfold region_ok. simpl.
    rewrite P. split; [lia|]. split; [done|]. rewrite <- P. split; [done|]. rewrite P. lia. }
  split; [done|]. split; [done|]. intros x Hx. apply eq_true_iff_eq. rewrite orb_true_iff.
  rewrite !region_contains_iff by done. simpl. rewrite P, Ho, Hb. destruct Ok.
  assert (0 < 2 ^ order r) by (apply Z.pow_pos_nonneg; lia). lia.
Qed.

Lemma merge_pass_cons2 r r1 l : merge_pass (r :: r1 :: l) =
  if mergeable_regions r r1 then let '(k, l2) := merge_pass l in (S k, merged_region r :: l2)
  else let '(k, l2) := merge_pass (r1 :: l) in (k, r :: l2).
Proof. done. Qed.

Lemma merge_pass_length n : forall l k l', (length l <= n)%nat -> merge_pass l = (k, l') ->
  (length l' + k = length l)%nat /\ (k = O -> l' = l) /\
  (Forall (fun r => 3 <= order r) l -> Forall (fun r => 3 <= order r) l').
Proof.
  induction n as [|n IH]; intros l k l' Hn E; destruct l as [|r [|r1 l]]; simpl in Hn; try lia;
    [by simplify_eq/=..|by simplify_eq/=|by simplify_eq/=|].
  rewrite merge_pass_cons2 in E.
  destruct (mergeable_regions r r1).
  - destruct (merge_pass l) as [k2 l2] eqn:E2. simplify_eq. destruct (IH l k2 l2) as (A & _ & C); [lia|done|].
    split; [simpl; lia|]. split; [done|]. intros [H1 [H2 H3]%Forall_cons]%Forall_cons.
    constructor; [simpl; lia|auto].
  - destruct (merge_pass (r1 :: l)) as [k2 l2] eqn:E2. simplify_eq.
    destruct (IH (r1 :: l) k l2 ltac:(simpl; lia) E2) as (A & B & C). simpl in A.
    split; [simpl; lia|]. split; [intros ->; by rewrite B|]. intros [H1 H2]%Forall_cons.
    constructor; auto.
Qed.

Lemma covered_cons r rs addr f :
  covered (r :: rs) addr f <-> (region_contains r addr = true /\ flags r = f) \/ covered rs addr f.
Proof.
  unfold covered. split.
  - intros (x & [->|Hx]%elem_of_cons & H); [by left|right; eauto].
  - intros [H|(x & Hx & H)]; [exists r|exists x]; (split; [|done]); [by left|by right].
Qed.

Lemma merge_pass_covers n : forall l k l', (length l <= n)%nat -> merge_pass l = (k, l') ->
  Forall region_ok l -> sorted_regions l ->
  Forall region_ok l' /\ forall addr f, 0 <= addr < 2 ^ 64 -> covered l' addr f <-> covered l addr f.
Proof.
  induction n as [|n IH]; intros l k l' Hn E Ok S; destruct l as [|r [|r1 l]]; simpl in Hn; try lia;
    [by simplify_eq/=..|by simplify_eq/=|by simplify_eq/=|].
  rewrite merge_pass_cons2 in E.
  apply Forall_cons in Ok as [Or [Or1 Ol]%Forall_cons]. apply StronglySorted_inv in S as [S Sr].
  apply Forall_cons in Sr as [Sr _].
  destruct (mergeable_regions r r1) eqn:M.
  - destruct (merge_pass l) as [k2 l2] eqn:E2. simplify_eq. apply StronglySorted_inv in S as [S _].
    destruct (IH l k2 l2) as (A & B); [lia|done..|].
    destruct (mergeable_ok r r1 Or Or1 Sr M) as (Om & Hf & Hc). split; [by constructor|].
    intros addr f Ha. rewrite !covered_cons, B by done.
    rewrite Hc, orb_true_iff by done. rewrite Hf. simpl. tauto.
  - destruct (merge_pass (r1 :: l)) as [k2 l2] eqn:E2. simplify_eq.
    destruct (IH (r1 :: l) k l2 ltac:(simpl; lia) E2) as (A & B); [by constructor|done|].
    split; [by constructor|]. intros addr f Ha. rewrite covered_cons, B by done. by rewrite (covered_cons r).
Qed.

Lemma merge_array_spec a rs k a' : memregions a = Some rs -> Forall (fun r => 3 <= order r) rs ->
  merge_array a rs = (k, a') ->
  exists rs', merge_pass rs = (k, rs') /\ memregions a' = Some rs' /\ length a' = length a.
Proof.
  intros (t & rest & -> & Ht & _)%memregions_split F E. unfold merge_array in E.
  destruct (merge_pass rs) as [k2 rs'] eqn:Em. rewrite drop_app_length in E. simpl in E. simplify_eq.
  destruct (merge_pass_length _ rs k rs' (le_n _) Em) as (L & _ & F'). exists rs'. split; [done|].
  assert (Forall (fun r => order r <> 0) rs') as Fne by (eapply Forall_impl; [by apply F'|]; simpl; lia).
  split.
  - destruct k; simpl; by apply memregions_app.
  - rewrite !length_app, length_replicate. lia.
Qed.

Lemma valid_order r : is_region_valid r = true -> 3 <= order r.
Proof. unfold is_region_valid. destruct (Z.ltb_spec (order r) 3); [done|lia]. Qed.

(** The state in which only the regions of the root domain are different. *)
Definition with_regions (a : list sbi_domain_memregion) (n : Z) (d : sbi_domain) (s : domains) : domains :=
  mk_domains (<[root := set_regions a d]> (dom_at s)) (hartid_to_domain_table s)
    (domidx_to_domain_table s) (domain_count s) (domain_finalized s) (root_fw_region s) n.

Lemma root_optimize_spec fuel : forall s d a rs, dom_at s !! root = Some d -> regions d = Some a ->
  memregions a = Some rs -> (length rs < fuel)%nat -> root_memregs_count s = Z.of_nat (length rs) ->
  Z.of_nat (length a) < 2 ^ 32 -> Forall region_ok rs ->
  exists rc a' rs', root_optimize hart_invalid fuel s = Ok (rc, with_regions a' (Z.of_nat (length rs')) d s) /\
    (rc = 0 \/ rc = SBI_EINVAL) /\ length a' = length a /\ memregions a' = Some rs' /\
    Forall region_ok rs' /\
    (forall addr f, 0 <= addr < 2 ^ 64 -> covered rs' addr f <-> covered rs addr f) /\
    (rc = 0 -> sanitized hart_invalid (root_fw_region s) (set_regions a' d) rs').
Proof.
  induction fuel as [|fuel IH]; intros s d a rs Hd Ha Hm Hf Hn Hl Ok; [lia|].
  simpl root_optimize. rewrite Hd.
  destruct (sanitize_domain_spec hart_invalid (root_fw_region s) d a rs Ha Hm) as (rc & rs1 & -> & P & Hrc & HS).
  assert (forall addr f, covered rs1 addr f <-> covered rs addr f) as Hcov.
  { intros. unfold covered. by setoid_rewrite P. }
  pose proof (Permutation_length P) as Lp. pose proof (memregions_reorder _ _ _ Hm P) as Hm1.
  set (a1 := rs1 ++ drop (length rs) a) in *.
  assert (length a1 = length a) as La1.
  { unfold a1. destruct (memregions_split _ _ Hm) as (t & rest & -> & _).
    rewrite drop_app_length, !length_app. lia. }
  assert (Forall region_ok rs1) as Ok1 by by rewrite P.
  assert (upd_doms <[root := set_regions a1 d]> s = with_regions a1 (Z.of_nat (length rs1)) d s) as Eu.
  { unfold upd_doms, with_regions. by rewrite Hn, Lp. }
  simpl. destruct (Z.eqb_spec rc 0) as [->|Hne]; simpl negb; cbv iota.
  2: { exists rc, a1, rs1. rewrite Eu. split; [done|]. split; [done|]. split; [done|]. split; [done|].
    split; [done|]. split; [intros; apply Hcov|done]. }
  pose proof (HS eq_refl) as San. rewrite Hm1. simpl.
  assert (Forall (fun r => 3 <= order r) rs1) as F3.
  { eapply Forall_impl; [apply (san_valid _ _ _ _ San)|]. apply valid_order. }
  destruct (merge_array a1 rs1) as [k a2] eqn:Em.
  destruct (merge_array_spec a1 rs1 k a2 Hm1 F3 Em) as (rs2 & Ep & Hm2 & La2).
  destruct (merge_pass_length _ rs1 k rs2 (le_n _) Ep) as (L2 & _).
  destruct (merge_pass_covers _ rs1 k rs2 (le_n _) Ep Ok1 (san_sorted _ _ _ _ San)) as (Ok2 & C2).
  destruct k as [|k].
  - exists 0, a1, rs1. rewrite Eu. split; [done|]. split; [by left|]. split; [done|].
    split; [done|]. split; [done|]. split; [intros; apply Hcov|done].
  - destruct (IH (with_regions a2 (Z.of_nat (length rs2)) d s) (set_regions a2 d) a2 rs2)
      as (rc3 & a3 & rs3 & E3 & H3 & L3 & M3 & O3 & C3 & S3); [apply lookup_insert_eq|done|done|lia|done|lia|done|].
    exists rc3, a3, rs3. split.
    + rewrite Hn, wrap_small.
      2: { destruct (memregions_split _ _ Hm) as (t & rest & -> & _). rewrite length_app in Hl. lia. }
      replace (Z.of_nat (length rs) - Z.of_nat (S k)) with (Z.of_nat (length rs2)) by lia.
      refine (eq_trans E3 _). unfold with_regions. simpl. by rewrite insert_insert_eq.
    + split; [done|]. split; [lia|]. split; [done|]. split; [done|]. split; [|done].
      intros addr f Hx. rewrite C3, C2 by done. apply Hcov.
Qed.

Lemma conflicts_spec reg a rs : memregions a = Some rs ->
  conflicts reg a = Ok (existsb (is_region_conflict reg) rs).
Proof.
  revert rs. induction a as [|r a IH]; intros rs H; simpl in *; [done|].
  destruct (order r =? 0); simplify_eq/=; [done|].
  destruct (memregions a) as [rs'|]; simplify_eq/=. rewrite (IH rs') by done.
  by destruct (is_region_conflict reg r).
Qed.

Lemma dom_inv_with_regions s ps d a n rs : dom_inv s ps -> dom_at s !! root = Some d ->
  sanitized hart_invalid (root_fw_region s) (set_regions a d) rs -> dom_inv (with_regions a n d s) ps.
Proof.
  intros [I1 I2 I3 I4 I5 I6 I7] Hd San.
  assert (forall q x', <[root := set_regions a d]> (dom_at s) !! q = Some x' ->
    exists x, dom_at s !! q = Some x /\ assigned_harts x' = assigned_harts x /\
      possible_harts x' = possible_harts x) as L.
  { intros q x'. rewrite lookup_insert. case_decide; intros; simplify_eq; eauto. }
  assert (forall q x, dom_at s !! q = Some x -> exists x', <[root := set_regions a d]> (dom_at s) !! q = Some x' /\
      assigned_harts x' = assigned_harts x /\ index x' = index x /\
      (q = root -> x' = set_regions a d) /\ (q <> root -> x' = x)) as R.
  { intros q x Hx. rewrite lookup_insert. case_decide; simplify_eq; [exists (set_regions a d)|exists x]; naive_solver. }
  constructor; simpl; try done.
  - intros k q Hq. destruct (I5 k q Hq) as (x & rsx & Hx & Hk & Sx). destruct (R q x Hx) as (x' & -> & _ & Hi & H1 & H2).
    destruct (decide (q = root)) as [E|E]; [rewrite (H1 E) in *|rewrite (H2 E) in *]; eauto 6.
    exists (set_regions a d), rs. split; [done|]. split; [congruence|done].
  - intros h q. rewrite I6. split; intros (Hh & Hq & x & Hx & Ha); (split; [done|split; [done|]]).
    + destruct (R q x Hx) as (x' & Hx' & E & _). exists x'. split; [done|]. unfold assigned in *. by rewrite E.
    + destruct (L q x Hx) as (x0 & Hx0 & E & _). exists x0. split; [done|]. unfold assigned in *. by rewrite <- E.
  - intros q x' h Hq Hx' Hh Ha. destruct (L q x' Hx') as (x & Hx & E1 & E2). unfold assigned, possible in *.
    rewrite E1 in Ha. rewrite E2. by eapply I7.
Qed.

(** The root domain: its array of 17 regions, and the regions in it. *)
Record root_wf (s : domains) (d : sbi_domain) (a rs : list sbi_domain_memregion) : Prop := {
  rw_dom : dom_at s !! root = Some d;
  rw_array : regions d = Some a;
  rw_regions : memregions a = Some rs;
  rw_length : length a = 17%nat;
  rw_count : root_memregs_count s = Z.of_nat (length rs);
  rw_ok : Forall region_ok rs }.

Lemma append_region a rs reg : memregions a = Some rs -> (S (length rs) < length a)%nat -> order reg <> 0 ->
  memregions (alter region_end_mark (S (length rs)) (<[length rs := reg]> a)) = Some (rs ++ [reg]).
Proof.
  intros (t & rest & -> & Ht & F)%memregions_split Hl Hr. rewrite length_app in Hl. simpl in Hl.
  destruct rest as [|t2 rest]; [simpl in Hl; lia|].
  rewrite insert_app_r_alt, Nat.sub_diag by lia. simpl.
  rewrite alter_app_r_alt by lia. replace (S (length rs) - length rs)%nat with 1%nat by lia. simpl.
  change (reg :: ?x) with ([reg] ++ x). rewrite app_assoc. apply memregions_app; [|done].
  apply Forall_app. split; [done|]. by constructor.
Qed.

(** C22. Adding a well-formed region to the root domain ends, before the domains are
    finalized and while there are fewer than 16 regions. It is refused with [SBI_EINVAL],
    or the invariant of the domains is kept and the sorted and merged regions give every
    address the same set of flags as the old regions and the new one did: an address lies
    in a region with the flags [f] afterwards exactly when it did before. Which of several
    regions decides at an address can change ([root_add_flips_decision] below). The harts
    keep their domains. *)
Theorem sbi_domain_root_add_memregion_correct s ps d a rs reg :
  dom_inv s ps -> root_wf s d a rs -> domain_finalized s = false -> (length rs < 16)%nat ->
  region_ok reg -> order reg <> 0 ->
  exists rc s', sbi_domain_root_add_memregion hart_invalid (Some reg) s = Ok (rc, s') /\
    (rc = 0 \/ rc = SBI_EINVAL) /\ hartid_to_domain_table s' = hartid_to_domain_table s /\
    (rc = 0 -> dom_inv s' ps /\ exists d' a' rs', root_wf s' d' a' rs' /\
       forall addr f, 0 <= addr < 2 ^ 64 -> covered rs' addr f <-> covered (reg :: rs) addr f).
Proof.
  intros Inv [Wd Wa Wr Wl Wc Wo] Hfin Hlen Hok Hne. unfold sbi_domain_root_add_memregion.
  rewrite Wd, Hfin, Wa, Wc, (conflicts_spec reg a rs) by done. unfold ROOT_REGION_MAX.
  destruct (Z.leb_spec 16 (Z.of_nat (length rs))); [lia|]. simpl.
  destruct (existsb _ rs).
  { exists SBI_EINVAL, s. split; [done|]. split; [by right|]. split; [done|]. done. }
  rewrite Nat2Z.id. set (a1 := alter _ _ _).
  assert (memregions a1 = Some (rs ++ [reg])) as M1 by (apply append_region; [done|lia|done]).
  assert (length a1 = 17%nat) as L1 by (unfold a1; by rewrite length_alter, length_insert).
  assert (Z.of_nat (length (rs ++ [reg])) = u32 (Z.of_nat (length rs) + 1)) as C1.
  { rewrite length_app. simpl. rewrite wrap_small by lia. lia. }
  rewrite <- C1, <- Hfin. change (mk_domains _ _ _ _ _ _ _) with (with_regions a1 (Z.of_nat (length (rs ++ [reg]))) d s).
  destruct (root_optimize_spec (length a) (with_regions a1 (Z.of_nat (length (rs ++ [reg]))) d s)
    (set_regions a1 d) a1 (rs ++ [reg])) as (rc & a2 & rs2 & E & Hrc & L2 & M2 & O2 & C2 & S2).
  - apply lookup_insert_eq.
  - done.
  - done.
  - rewrite length_app. simpl. lia.
  - done.
  - rewrite L1. lia.
  - apply Forall_app. split; [done|]. by constructor.
  - exists rc. eexists. split; [exact E|]. split; [done|]. split; [done|]. intros Hrc0. specialize (S2 Hrc0).
    assert (with_regions a2 (Z.of_nat (length rs2)) (set_regions a1 d)
        (with_regions a1 (Z.of_nat (length (rs ++ [reg]))) d s) =
      with_regions a2 (Z.of_nat (length rs2)) d s) as ->.
    { unfold with_regions. simpl. by rewrite insert_insert_eq. }
    split; [by eapply dom_inv_with_regions|]. exists (set_regions a2 d), a2, rs2. split.
    + constructor; try done; [apply lookup_insert_eq|congruence].
    + intros addr f Ha. rewrite C2 by done. unfold covered. by setoid_rewrite (Permutation_app_comm rs [reg]).
Qed.

End Inv.

(** ** Examples

    A platform of four harts with the firmware at 2 GiB. *)
Definition ex_invalid (h : Z) : bool := 4 <=? h.
Definition ex_scratch : scratch_info := mk_scratch_info 0x80000000 0x40000 0x82200000 0x80200000 PRV_S.
Definition ex_mask : Z := 15.
Definition ex_root : sbi_domain := root_setup ex_scratch 0 ex_mask static_domains static_root.
Definition ex_state : domains := set_root ex_scratch static_domains ex_root.
Definition ex_fw : sbi_domain_memregion := mk_region 18 0x80000000 0.
Definition ex_mmio : sbi_domain_memregion := mk_region 14 0x2000000 SBI_DOMAIN_MEMREGION_MMIO.

Lemma ex_inv : dom_inv ex_invalid ex_state [].
Proof. by apply static_inv. Qed.

Lemma ex_regions_ok : Forall region_ok [ex_fw; all_region].
Proof.
  repeat constructor; simpl; try lia; [exists (2 ^ 13)|exists 0]; lia.
Qed.

Lemma ex_mmio_ok : region_ok ex_mmio.
Proof. repeat constructor; simpl; try lia. exists (2 ^ 11). lia. Qed.

Lemma ex_root_wf : root_wf ex_state ex_root (root_array ex_fw) [ex_fw; all_region].
Proof. constructor; [by vm_compute..|apply ex_regions_ok]. Qed.

(** The regions of the root domain after a call. *)
Definition root_regions (r : res (Z * domains)) : option (Z * list sbi_domain_memregion) :=
  match r with
  | Ok (rc, s) => d ← dom_at s !! root; a ← regions d; rs ← memregions a; Some (rc, rs)
  | Fault _ => None
  end.

(** A region beside the firmware that could be merged with its region is refused,
    since the check after the merge does not find the region of the firmware; the
    merged region stays in the root domain, and every later addition is refused. *)
Theorem root_add_beside_firmware :
  root_regions (sbi_domain_root_add_memregion ex_invalid (Some (mk_region 18 0x80040000 0)) ex_state) =
    Some (SBI_EINVAL, [mk_region 19 0x80000000 0; all_region]) /\
  root_regions ('(_, s) ← sbi_domain_root_add_memregion ex_invalid (Some (mk_region 18 0x80040000 0)) ex_state;
     sbi_domain_root_add_memregion ex_invalid (Some ex_mmio) s) =
    Some (SBI_EINVAL, [mk_region 19 0x80000000 0; all_region; ex_mmio]).
Proof. by vm_compute. Qed.

(** A region that fails the checks is refused but stays in the root domain, and a
    valid region is then refused too. *)
Theorem root_add_keeps_rejected :
  root_regions ('(_, s) ← sbi_domain_root_add_memregion ex_invalid (Some (mk_region 2 0x1000 7)) ex_state;
     sbi_domain_root_add_memregion ex_invalid (Some ex_mmio) s) =
    Some (SBI_EINVAL, [ex_fw; all_region; mk_region 2 0x1000 7; ex_mmio]).
Proof. by vm_compute. Qed.

(** Two regions with the same range and different flags are accepted, and their order
    depends on the exchanges of the sort: a region added beside them flips what the domain
    decides about a write there. *)
Definition root_add (reg : sbi_domain_memregion) (r : res (Z * domains)) : res (Z * domains) :=
  '(_, s) ← r; sbi_domain_root_add_memregion ex_invalid (Some reg) s.
Definition root_allows (addr mode acc : Z) (r : res (Z * domains)) : option (Z * bool) :=
  match r with
  | Ok (rc, s) => match sbi_domain_check_addr (dom_at s !! root) addr mode acc with Ok b => Some (rc, b) | Fault _ => None end
  | Fault _ => None
  end.

Theorem root_add_flips_decision :
  let s := root_add (mk_region 12 0x3000 1) (root_add (mk_region 12 0x3000 7) (Ok (0, ex_state))) in
  root_allows 0x3000 PRV_S SBI_DOMAIN_WRITE s = Some (0, true) /\
  root_allows 0x3000 PRV_S SBI_DOMAIN_WRITE (root_add (mk_region 12 0x2000 7) s) = Some (0, false).
Proof. by vm_compute. Qed.

Lemma sbi_domain_init_protects_firmware_witness :
  0 <= fw_start ex_scratch /\ 0 < fw_size ex_scratch /\
  (exists rc s', sbi_domain_init ex_invalid ex_scratch 0 static_domains = Ok (rc, s') /\
     (rc = 0 -> root_fw_region s' = ex_fw)) /\
  root_regions (sbi_domain_init ex_invalid ex_scratch 0 static_domains) = Some (0, [ex_fw; all_region]).
Proof.
  split; [done|]. split; [done|]. split; [|by vm_compute].
  destruct (sbi_domain_init_protects_firmware ex_invalid ex_scratch 0) as (rc & s' & E & _ & H);
    [done|done|by vm_compute|].
  exists rc, s'. split; [done|]. intros ->. destruct (H eq_refl) as (_ & -> & _). by vm_compute.
Defined.

Lemma sbi_domain_register_owner_witness :
  dom_inv ex_invalid ex_state [] /\
  (exists rc s', sbi_domain_register ex_invalid 0 (Some root) (Some ex_mask) ex_state = Ok (rc, s') /\
     dom_inv ex_invalid s' (if rc =? 0 then [root] else [])) /\
  fmap fst (root_regions (sbi_domain_register ex_invalid 0 (Some root) (Some ex_mask) ex_state)) = Some 0.
Proof.
  split; [exact ex_inv|]. split; [|by vm_compute].
  destruct (sbi_domain_register_owner ex_invalid 0 root ex_mask ex_state [] ex_root ex_inv)
    as (rc & s' & E & _ & I & _).
  - done.
  - simpl. lia.
  - by intros ?%not_elem_of_nil.
  - by vm_compute.
  - intros a Ha. exists [ex_fw; all_region]. replace a with (root_array ex_fw); [by vm_compute|].
    assert (regions ex_root = Some (root_array ex_fw)) as E by by vm_compute. congruence.
  - by exists rc, s'.
Defined.

Lemma sbi_domain_root_add_memregion_correct_witness :
  root_wf ex_state ex_root (root_array ex_fw) [ex_fw; all_region] /\
  (exists rc s', sbi_domain_root_add_memregion ex_invalid (Some ex_mmio) ex_state = Ok (rc, s') /\
     (rc = 0 -> dom_inv ex_invalid s' [])) /\
  root_regions (sbi_domain_root_add_memregion ex_invalid (Some ex_mmio) ex_state) =
    Some (0, [ex_mmio; ex_fw; all_region]).
Proof.
  split; [exact ex_root_wf|]. split; [|by vm_compute].
  destruct (sbi_domain_root_add_memregion_correct ex_invalid ex_state [] ex_root (root_array ex_fw)
    [ex_fw; all_region] ex_mmio ex_inv ex_root_wf) as (rc & s' & E & _ & _ & H);
    [done|simpl; lia|exact ex_mmio_ok|done|].
  exists rc, s'. split; [done|]. intros H0. by destruct (H H0).
Defined.
