(* ===== verification/SbiPmp.v ===== *)
(** * Physical memory protection

    [pmp_set] and [pmp_get] of [src/opensbi/lib/sbi/riscv_asm.c],
    [sbi_hart_pmp_configure] and the detection of the unit in [sbi_hart.c]. The
    regions of the domain of a hart become entries of its PMP unit, which then
    decides the accesses of supervisor and user mode.

    The unit is hardware: its sizes and what it makes of values that are not legal
    are the class [PmpHw], its behaviour follows the privileged architecture (64-bit
    registers; an address register keeps the bits that are implemented, an entry
    that is locked keeps its value, entries that are not implemented read as zero). *)

From Stdlib Require Import Sorted.
From S2P Require Import Prelude SbiFifo SbiTlb SbiDomain SbiDomInv.

Definition PMP_R : Z := 0x01.
Definition PMP_W : Z := 0x02.
Definition PMP_X : Z := 0x04.
Definition PMP_A : Z := 0x18.
Definition PMP_A_TOR : Z := 0x08.
Definition PMP_A_NA4 : Z := 0x10.
Definition PMP_A_NAPOT : Z := 0x18.
Definition PMP_L : Z := 0x80.
Definition PMP_SHIFT : Z := 2.
Definition PMP_COUNT : Z := 64.
Definition PMP_ADDR_MASK : Z := 2 ^ 54 - 1.
Definition CSR_PMPCFG0 : Z := 0x3a0.
Definition CSR_PMPADDR0 : Z := 0x3b0.

(** ** Bit search of [sbi_bitops.h] *)
Definition ffs_step (k : Z) (s : Z * Z) : Z * Z :=
  let '(num, word) := s in
  if Z.land word (Z.ones k) =? 0 then (num + k, Z.shiftr word k) else (num, word).

Definition __ffs (word : Z) : Z :=
  fst (ffs_step 1 (ffs_step 2 (ffs_step 4 (ffs_step 8 (ffs_step 16 (ffs_step 32 (0, word))))))).

Definition fls_step (k : Z) (s : Z * Z) : Z * Z :=
  let '(num, word) := s in
  if Z.land word (u64 (Z.shiftl (2 ^ 64 - 1) (64 - k))) =? 0
  then (num - k, u64 (Z.shiftl word k)) else (num, word).

Definition __fls (word : Z) : Z :=
  fst (fls_step 1 (fls_step 2 (fls_step 4 (fls_step 8 (fls_step 16 (fls_step 32 (63, word))))))).

(** ** The PMP unit *)

(** The entries and address bits that are implemented, the granularity (regions are
    multiples of [2 ^ (pmp_grain + 2)] bytes), the address registers that can be
    accessed without a trap, and the legal value written for a configuration. *)
Class PmpHw := {
  pmp_entries : Z;
  pmp_width : Z;
  pmp_grain : Z;
  pmp_csrs : Z;
  pmp_legal : Z -> Z;
  pmp_entries_range : 0 < pmp_entries <= pmp_csrs;
  pmp_csrs_range : pmp_csrs <= 64;
  pmp_width_range : 0 <= pmp_grain < pmp_width;
  pmp_width_max : pmp_width <= 54;
  pmp_legal_range : forall b, 0 <= pmp_legal b < 256;
  pmp_legal_legal : forall b, pmp_legal (pmp_legal b) = pmp_legal b;
  pmp_legal_keeps : forall b, 0 <= b < 256 -> Z.land b 0x60 = 0 ->
    (has b PMP_W = true -> has b PMP_R = true) -> pmp_legal b = b }.

(** The configuration byte and the address of each entry, and the other registers
    that [csr_read_num] and [csr_write_num] know. *)
Record csrs := mk_csrs { cfgs : mem; addrs : mem; others : mem }.

Section Pmp.
Context {hw : PmpHw}.

Definition cfg (c : csrs) (n : Z) : Z := if n <? pmp_entries then ld (cfgs c) n else 0.
Definition locked (c : csrs) (n : Z) : bool := has (cfg c n) PMP_L.

(** A configuration register holds the bytes of eight entries. *)
Definition cfg_word (c : csrs) (k : Z) : Z :=
  foldr (fun j w => Z.lor (Z.shiftl (cfg c (8 * k + j)) (8 * j)) w) 0 (seqZ 0 8).
Definition cfg_byte (v j : Z) : Z := Z.land (Z.shiftr v (8 * j)) 0xff.
Definition write_cfg (k v : Z) (c : csrs) : csrs :=
  mk_csrs (foldr (fun j m => if (8 * k + j <? pmp_entries) && negb (locked c (8 * k + j))
                             then st m (8 * k + j) (pmp_legal (cfg_byte v j)) else m)
                 (cfgs c) (seqZ 0 8)) (addrs c) (others c).

(** Bits below the granularity read as ones in a power-of-two entry and as zeros
    otherwise. *)
Definition read_addr (c : csrs) (n : Z) : Z :=
  let v := ld (addrs c) n in
  if pmp_entries <=? n then 0
  else if has (cfg c n) PMP_A_NA4 then Z.lor v (Z.ones (Z.max 0 (pmp_grain - 1)))
  else Z.ldiff v (Z.ones pmp_grain).
Definition write_addr (n v : Z) (c : csrs) : csrs :=
  if (n <? pmp_entries) && negb (locked c n)
     && negb (locked c (n + 1) && (Z.land (cfg c (n + 1)) PMP_A =? PMP_A_TOR))
  then mk_csrs (cfgs c) (st (addrs c) n (Z.land v (Z.ones pmp_width))) (others c) else c.

(** The registers of [csr_read_num] and [csr_write_num] that are not those of the
    PMP unit: cycle and instruction counters, performance counters and events. *)
Definition other_csr (n : Z) : bool :=
  (n =? 0xb00) || (n =? 0xb02) || ((0xb03 <=? n) && (n <=? 0xb1f))
  || (n =? 0x320) || ((0x323 <=? n) && (n <=? 0x33f)).
Definition is_cfg_csr (n : Z) : bool := (CSR_PMPCFG0 <=? n) && (n <? CSR_PMPCFG0 + 16).
Definition is_addr_csr (n : Z) : bool := (CSR_PMPADDR0 <=? n) && (n <? CSR_PMPADDR0 + 64).

(** A 64-bit hart has no odd configuration registers. *)
Definition csr_read_num (n : Z) (c : csrs) : res Z :=
  if is_cfg_csr n then
    if Z.even n then Ok (cfg_word c ((n - CSR_PMPCFG0) / 2)) else Fault (Panic "illegal instruction")
  else if is_addr_csr n then Ok (read_addr c (n - CSR_PMPADDR0))
  else if other_csr n then Ok (ld (others c) n)
  else Fault (Panic "Unknown CSR").

Definition csr_write_num (n v : Z) (c : csrs) : res csrs :=
  if is_cfg_csr n then
    if Z.even n then Ok (write_cfg ((n - CSR_PMPCFG0) / 2) v c) else Fault (Panic "illegal instruction")
  else if is_addr_csr n then Ok (write_addr (n - CSR_PMPADDR0) v c)
  else if other_csr n then Ok (mk_csrs (cfgs c) (addrs c) (st (others c) n v))
  else Fault (Panic "Unknown CSR").

(** ** [pmp_set] and [pmp_get] *)
Definition pmpcfg_csr (n : Z) : Z := Z.land (CSR_PMPCFG0 + Z.shiftr n 2) (Z.lnot 1).
Definition pmpcfg_shift (n : Z) : Z := Z.shiftl (Z.land n 7) 3.

Definition pmpaddr_encode (addr log2len : Z) : Z :=
  if log2len =? PMP_SHIFT then Z.shiftr addr PMP_SHIFT
  else if log2len =? 64 then 2 ^ 64 - 1
  else
    let addrmask := Z.shiftl 1 (log2len - PMP_SHIFT) - 1 in
    Z.lor (Z.land (Z.shiftr addr PMP_SHIFT) (Z.lnot addrmask)) (Z.shiftr addrmask 1).

Definition pmp_set (n prot addr log2len : Z) (c : csrs) : res (Z * csrs) :=
  if (PMP_COUNT <=? n) || (64 <? log2len) || (log2len <? PMP_SHIFT) then Ok (SBI_EINVAL, c)
  else
    let prot := Z.lor (Z.land prot (Z.lnot PMP_A))
                      (if log2len =? PMP_SHIFT then PMP_A_NA4 else PMP_A_NAPOT) in
    let cfgmask := Z.lnot (Z.shiftl 0xff (pmpcfg_shift n)) in
    w ← csr_read_num (pmpcfg_csr n) c;
    let pmpcfg := Z.lor (Z.land w cfgmask)
                        (Z.land (u64 (Z.shiftl prot (pmpcfg_shift n))) (Z.lnot cfgmask)) in
    c1 ← csr_write_num (CSR_PMPADDR0 + n) (pmpaddr_encode addr log2len) c;
    c2 ← csr_write_num (pmpcfg_csr n) pmpcfg c1;
    Ok (0, c2).

Fixpoint ctz_loop (fuel : nat) (x ret : Z) : Z :=
  match fuel with
  | O => ret
  | S fuel' => if Z.land x 1 =? 0 then ctz_loop fuel' (Z.shiftr x 1) (ret + 1) else ret
  end.
Definition ctz (x : Z) : Z := if x =? 0 then 8 * 8 else ctz_loop 64 x 0.

(** The three results of [pmp_get]. *)
Definition pmp_get (n : Z) (c : csrs) : res (Z * (Z * Z * Z)) :=
  if PMP_COUNT <=? n then Ok (SBI_EINVAL, (0, 0, 0))
  else
    let cfgmask := Z.shiftl 0xff (pmpcfg_shift n) in
    w ← csr_read_num (pmpcfg_csr n) c;
    let prot := Z.shiftr (Z.land w cfgmask) (pmpcfg_shift n) in
    a ← csr_read_num (CSR_PMPADDR0 + n) c;
    if Z.land prot PMP_A =? PMP_A_NAPOT then
      if a =? 2 ^ 64 - 1 then Ok (0, (prot, 0, 64))
      else
        let t1 := ctz (Z.lxor a (2 ^ 64 - 1)) in
        Ok (0, (prot, u64 (Z.shiftl (Z.land a (Z.lnot (Z.shiftl 1 t1 - 1))) PMP_SHIFT), t1 + PMP_SHIFT + 1))
    else Ok (0, (prot, u64 (Z.shiftl a PMP_SHIFT), PMP_SHIFT)).

(** ** Configuration from the regions of a domain *)

(** The fields of [struct hart_features] about the unit. *)
Record hart_features := mk_features { pmp_count : Z; pmp_addr_bits : Z; pmp_gran : Z }.

Definition pmp_flags (fl : Z) : Z :=
  Z.lor (Z.lor (Z.lor (if has fl SBI_DOMAIN_MEMREGION_READABLE then PMP_R else 0)
                      (if has fl SBI_DOMAIN_MEMREGION_WRITEABLE then PMP_W else 0))
               (if has fl SBI_DOMAIN_MEMREGION_EXECUTABLE then PMP_X else 0))
        (if has fl SBI_DOMAIN_MEMREGION_MMODE then PMP_L else 0).

(** A region that is too small or out of range is reported on the console and left
    out. *)
Fixpoint configure_loop (f : hart_features) (a : list sbi_domain_memregion) (pmp_idx : Z) (c : csrs) :
    res csrs :=
  match a with
  | [] => Fault OutOfBounds
  | r :: a' =>
      if order r =? 0 then Ok c
      else if pmp_count f <=? pmp_idx then Ok c
      else
        let pmp_gran_log2 := log2roundup (pmp_gran f) in
        let pmp_bits := wrap 32 (pmp_addr_bits f - 1) in
        let pmp_addr_max := Z.lor (BIT pmp_bits) (BIT pmp_bits - 1) in
        if (pmp_gran_log2 <=? order r) && (Z.shiftr (base r) PMP_SHIFT <? pmp_addr_max) then
          '(_, c') ← pmp_set pmp_idx (pmp_flags (flags r)) (base r) (order r) c;
          configure_loop f a' (pmp_idx + 1) c'
        else configure_loop f a' pmp_idx c
  end.

Definition sbi_hart_pmp_configure (f : hart_features) (dom : option sbi_domain) (c : csrs) : res (Z * csrs) :=
  if pmp_count f =? 0 then Ok (0, c)
  else match dom with
       | None => Fault NullDeref
       | Some d => match regions d with
                   | None => Fault NullDeref
                   | Some a => c' ← configure_loop f a 0 c; Ok (0, c')
                   end
       end.

(** ** Detection of the unit *)

(** [csr_read_allowed] and [csr_write_allowed] on an address register: [None] is a
    trap. *)
Definition read_allowed (n : Z) (c : csrs) : option Z :=
  if n <? pmp_csrs then Some (read_addr c n) else None.
Definition write_allowed (n v : Z) (c : csrs) : option csrs :=
  if n <? pmp_csrs then Some (write_addr n v c) else None.

Definition hart_pmp_get_allowed_addr (c : csrs) : Z * csrs :=
  let c1 := write_cfg 0 0 c in
  match write_allowed 0 PMP_ADDR_MASK c1 with
  | None => (0, c1)
  | Some c2 => (default 0 (read_allowed 0 c2), c2)
  end.

(** The macro [__check_csr] for the address registers. The variable [val] that holds
    the value to write is the one the register is read into. *)
Fixpoint count_loop (k : nat) (n cnt : Z) (c : csrs) : Z * csrs :=
  match k with
  | O => (cnt, c)
  | S k' =>
      match read_allowed n c with
      | None => (cnt, c)
      | Some val =>
          match write_allowed n val c with
          | None => (cnt, c)
          | Some c1 =>
              let old := read_addr c1 n in
              let c2 := write_addr n val c1 in
              if old =? val then count_loop k' (n + 1) (cnt + 1) c2 else (cnt, c2)
          end
      end
  end.

(** The part of [hart_detect_features] about the unit. *)
Definition detect_pmp (c : csrs) : hart_features * csrs :=
  let '(val, c1) := hart_pmp_get_allowed_addr c in
  if val =? 0 then (mk_features 0 0 0, c1)
  else
    let '(n, c2) := count_loop 64 0 0 c1 in
    (mk_features n (u32 (__fls val + 1)) (u64 (s32 (Z.shiftl 1 (__ffs val + 2)))), c2).

(** ** What the unit allows *)
Definition napot_match (a y : Z) : bool :=
  Z.land (Z.lxor a y) (Z.lnot (Z.lxor a (a + 1))) =? 0.

(** Whether an entry matches the byte at an address. *)
Definition pmp_match (c : csrs) (n x : Z) : bool :=
  let a := read_addr c n in
  let y := Z.shiftr x PMP_SHIFT in
  let mode := Z.land (cfg c n) PMP_A in
  if mode =? PMP_A_NAPOT then napot_match a y
  else if mode =? PMP_A_NA4 then a =? y
  else if mode =? PMP_A_TOR then ((n =? 0) || (read_addr c (n - 1) <=? y)) && (y <? a)
  else false.

(** The first entry that matches decides. *)
Fixpoint pmp_find (k : nat) (n x : Z) (c : csrs) : option Z :=
  match k with
  | O => None
  | S k' => if pmp_match c n x then Some n else pmp_find k' (n + 1) x c
  end.

(** Access to the byte at [x] with the permissions [perm] (of [PMP_R], [PMP_W],
    [PMP_X]). *)
Definition pmp_allows (c : csrs) (mode x perm : Z) : bool :=
  match pmp_find (Z.to_nat pmp_entries) 0 x c with
  | None => mode =? PRV_M
  | Some n => if (mode =? PRV_M) && negb (locked c n) then true
              else Z.land (cfg c n) perm =? perm
  end.

(** ** Bits and bytes *)
Lemma testbit_ff x : 0 <= x -> Z.testbit 0xff x = (x <? 8).
Proof. intros. change 0xff with (Z.ones 8). rewrite Z.testbit_ones by lia. lia. Qed.

Lemma byte_high b i : 0 <= b < 256 -> 8 <= i -> Z.testbit b i = false.
Proof. intros. apply (testbit_high 8); [done|lia]. Qed.

Lemma cfg_byte_testbit v j i : 0 <= j -> 0 <= i -> Z.testbit (cfg_byte v j) i = (i <? 8) && Z.testbit v (8 * j + i).
Proof.
  intros. unfold cfg_byte. rewrite Z.land_spec, Z.shiftr_spec, testbit_ff by lia.
  rewrite andb_comm. do 2 f_equal. lia.
Qed.

(** The contribution of byte [b] at place [p] to the bits of place [j]. *)
Lemma placed_testbit b p j i : 0 <= b < 256 -> 0 <= p -> 0 <= j -> 0 <= i < 8 ->
  Z.testbit (Z.shiftl b (8 * p)) (8 * j + i) = bool_decide (j = p) && Z.testbit b i.
Proof.
  intros Hb Hp Hj Hi. rewrite Z.shiftl_spec by lia. case_bool_decide as E; simpl.
  - subst. f_equal. lia.
  - destruct (decide (j < p)); [apply Z.testbit_neg_r; lia|apply byte_high; [done|lia]].
Qed.

Lemma byte_eq b b' : 0 <= b < 256 -> 0 <= b' < 256 ->
  (forall i, 0 <= i < 8 -> Z.testbit b i = Z.testbit b' i) -> b = b'.
Proof.
  intros H H' E. apply Z.bits_inj'. intros i Hi. destruct (decide (i < 8)); [apply E; lia|].
  rewrite !byte_high by (done || lia). done.
Qed.

Lemma cfg_byte_range v j : 0 <= cfg_byte v j < 256.
Proof. unfold cfg_byte. change 0xff with (Z.ones 8). rewrite Z.land_ones by lia. apply Z.mod_pos_bound. lia. Qed.

Lemma cfg_byte_word (f : Z -> Z) j l : (forall i, 0 <= f i < 256) -> NoDup l -> Forall (fun p => 0 <= p) l ->
  0 <= j -> cfg_byte (foldr (fun p w => Z.lor (Z.shiftl (f p) (8 * p)) w) 0 l) j =
            if decide (j ∈ l) then f j else 0.
Proof.
  intros Hf Hn Hl Hj. apply byte_eq; [apply cfg_byte_range|case_decide; [done|lia]|]. intros i Hi.
  rewrite cfg_byte_testbit by lia. destruct (Z.ltb_spec i 8); [|lia]. simpl.
  induction Hn as [|p l Hp Hn IH]; simpl; [by rewrite !Z.bits_0|].
  apply Forall_cons in Hl as [Hp0 Hl]. rewrite Z.lor_spec, placed_testbit, IH by done.
  destruct (decide (j = p)) as [->|Hne].
  - rewrite bool_decide_eq_true_2 by done. rewrite (decide_False (P := p ∈ l)) by done.
    rewrite decide_True by set_solver. rewrite Z.bits_0. by rewrite orb_false_r.
  - rewrite bool_decide_eq_false_2 by done. simpl. repeat case_decide; set_solver.
Qed.

(** The word with one byte replaced, as [pmp_set] computes it. *)
Definition put_byte (w i p : Z) : Z :=
  Z.lor (Z.land w (Z.lnot (Z.shiftl 0xff (8 * i))))
        (Z.land (u64 (Z.shiftl p (8 * i))) (Z.lnot (Z.lnot (Z.shiftl 0xff (8 * i))))).

Lemma cfg_byte_put w i p j : 0 <= p < 256 -> 0 <= i < 8 -> 0 <= j < 8 ->
  cfg_byte (put_byte w i p) j = if decide (j = i) then p else cfg_byte w j.
Proof.
  intros Hp Hi Hj. apply byte_eq; [apply cfg_byte_range|case_decide; [done|apply cfg_byte_range]|].
  intros t Ht. rewrite cfg_byte_testbit by lia. destruct (Z.ltb_spec t 8); [|lia]. simpl.
  unfold put_byte. rewrite Z.lnot_involutive, Z.lor_spec, !Z.land_spec, Z.lnot_spec by lia.
  rewrite wrap_testbit, !placed_testbit by lia. rewrite testbit_ff by lia.
  destruct (Z.ltb_spec (8 * j + t) 64); [|lia]. destruct (Z.ltb_spec t 8); [|lia].
  case_bool_decide; case_decide; try done; simpl.
  - by rewrite andb_false_r, andb_true_r.
  - rewrite andb_true_r, orb_false_r, cfg_byte_testbit by lia. destruct (Z.ltb_spec t 8); [done|lia].
Qed.

Lemma foldr_st (b : Z) (ok : Z -> bool) (v : Z -> Z) m l n :
  ld (foldr (fun j m => if ok j then st m (b + j) (v j) else m) m l) n =
  if decide (n - b ∈ l /\ ok (n - b) = true) then v (n - b) else ld m n.
Proof.
  induction l as [|j l IH]; simpl.
  - done.
  - destruct (ok j) eqn:E.
    + rewrite ld_st. destruct (decide (b + j = n)) as [<-|Hne].
      * replace (b + j - b) with j by lia. rewrite decide_True; [done|]. split; [by left|done].
      * rewrite IH. apply decide_ext. rewrite elem_of_cons. naive_solver lia.
    + rewrite IH. apply decide_ext. rewrite elem_of_cons. naive_solver congruence.
Qed.

Lemma write_cfg_ld k v c n : 0 <= k -> 0 <= n ->
  ld (cfgs (write_cfg k v c)) n =
  if decide (n / 8 = k /\ n < pmp_entries /\ locked c n = false) then pmp_legal (cfg_byte v (n mod 8))
  else ld (cfgs c) n.
Proof.
  intros Hk Hn. unfold write_cfg. cbn [cfgs].
  rewrite (foldr_st (8 * k) (fun j => (8 * k + j <? pmp_entries) && negb (locked c (8 * k + j)))
    (fun j => pmp_legal (cfg_byte v j))).
  replace (8 * k + (n - 8 * k)) with n by lia.
  pose proof (Z.div_mod n 8 ltac:(lia)). pose proof (Z.mod_pos_bound n 8 ltac:(lia)).
  destruct (decide (n / 8 = k)) as [E|E].
  - subst k. replace (n - 8 * (n / 8)) with (n mod 8) by lia. apply decide_ext.
    rewrite elem_of_seqZ, andb_true_iff, negb_true_iff, Z.ltb_lt. naive_solver lia.
  - rewrite !decide_False; [done|naive_solver|]. rewrite elem_of_seqZ. intros [H' _]. apply E.
    symmetry. apply (Z.div_unique n 8 k (n - 8 * k)); lia.
Qed.

Lemma pmpcfg_csr_eq n : 0 <= n -> pmpcfg_csr n = CSR_PMPCFG0 + 2 * (n / 8).
Proof.
  intros Hn. unfold pmpcfg_csr, CSR_PMPCFG0. rewrite <- Z.ldiff_land. change 1 with (Z.ones 1).
  rewrite Z.ldiff_ones_r, Z.shiftl_mul_pow2, !Z.shiftr_div_pow2 by lia.
  change (2 ^ 1) with 2. change (2 ^ 2) with 4.
  replace (0x3a0 + n / 4) with (n / 4 + 0x1d0 * 2) by lia.
  rewrite Z.div_add, Z.div_div by lia. change (4 * 2) with 8. lia.
Qed.

Lemma pmpcfg_shift_eq n : 0 <= n -> pmpcfg_shift n = 8 * (n mod 8).
Proof.
  intros. unfold pmpcfg_shift. change 7 with (Z.ones 3). rewrite Z.land_ones, Z.shiftl_mul_pow2 by lia.
  change (2 ^ 3) with 8. lia.
Qed.

Lemma csr_cfg_access n c : 0 <= n < 64 ->
  csr_read_num (pmpcfg_csr n) c = Ok (cfg_word c (n / 8)) /\
  forall v, csr_write_num (pmpcfg_csr n) v c = Ok (write_cfg (n / 8) v c).
Proof.
  intros Hn. rewrite pmpcfg_csr_eq by lia. assert (0 <= n / 8 < 8) by (split; [apply Z.div_pos|apply Z.div_lt_upper_bound]; lia).
  unfold csr_read_num, csr_write_num, is_cfg_csr.
  replace (CSR_PMPCFG0 + 2 * (n / 8) - CSR_PMPCFG0) with (n / 8 * 2) by lia. rewrite Z.div_mul by lia.
  destruct (Z.leb_spec CSR_PMPCFG0 (CSR_PMPCFG0 + 2 * (n / 8))); [|lia].
  destruct (Z.ltb_spec (CSR_PMPCFG0 + 2 * (n / 8)) (CSR_PMPCFG0 + 16)); [|lia]. simpl.
  rewrite Z.even_add, Z.even_mul. done.
Qed.

Lemma csr_addr_access n c : 0 <= n < 64 ->
  csr_read_num (CSR_PMPADDR0 + n) c = Ok (read_addr c n) /\
  forall v, csr_write_num (CSR_PMPADDR0 + n) v c = Ok (write_addr n v c).
Proof.
  intros Hn. unfold csr_read_num, csr_write_num, is_cfg_csr, is_addr_csr, CSR_PMPADDR0, CSR_PMPCFG0.
  replace (0x3b0 + n - 0x3b0) with n by lia.
  destruct (Z.ltb_spec (0x3b0 + n) (0x3a0 + 16)); [lia|]. rewrite andb_false_r.
  destruct (Z.leb_spec 0x3b0 (0x3b0 + n)); [|lia].
  destruct (Z.ltb_spec (0x3b0 + n) (0x3b0 + 64)); [|lia]. done.
Qed.

(** The configuration bytes are legal and the addresses have the implemented bits. *)
Record csrs_ok (c : csrs) : Prop := {
  ok_cfg : forall n, 0 <= n < pmp_entries -> pmp_legal (ld (cfgs c) n) = ld (cfgs c) n;
  ok_addr : forall n, 0 <= n < pmp_entries -> 0 <= ld (addrs c) n < 2 ^ pmp_width }.

Lemma cfg_range c n : csrs_ok c -> 0 <= n -> 0 <= cfg c n < 256.
Proof.
  intros [H _] Hn. unfold cfg. destruct (Z.ltb_spec n pmp_entries); [|lia].
  rewrite <- H by lia. apply pmp_legal_range.
Qed.

Lemma cfg_word_byte c k j : csrs_ok c -> 0 <= k -> 0 <= j < 8 -> cfg_byte (cfg_word c k) j = cfg c (8 * k + j).
Proof.
  intros Hc Hk Hj. unfold cfg_word.
  pose proof (cfg_byte_word (fun j => cfg c (Z.max 0 (8 * k + j))) j (seqZ 0 8)) as E. cbv beta in E.
  rewrite decide_True in E by (apply elem_of_seqZ; lia).
  replace (Z.max 0 (8 * k + j)) with (8 * k + j) in E by lia.
  rewrite <- E; [f_equal|intros; apply cfg_range; [done|lia]|apply NoDup_seqZ|apply Forall_seqZ; lia|lia].
  change (seqZ 0 8) with [0; 1; 2; 3; 4; 5; 6; 7]. simpl foldr. by rewrite !Z.max_r by lia.
Qed.

Lemma write_addr_ok n v c : csrs_ok c -> csrs_ok (write_addr n v c).
Proof.
  intros [H1 H2]. unfold write_addr. case_match; [|done]. constructor; simpl; [done|].
  intros m Hm. rewrite ld_st. case_decide; [|auto]. pose proof pmp_width_range.
  rewrite Z.land_ones by lia. apply Z.mod_pos_bound. apply Z.pow_pos_nonneg; lia.
Qed.

Lemma write_addr_ld n v c m : locked c n = false -> locked c (n + 1) = false -> n < pmp_entries ->
  ld (addrs (write_addr n v c)) m = if decide (n = m) then Z.land v (Z.ones pmp_width) else ld (addrs c) m.
Proof.
  intros H1 H2 Hn. unfold write_addr. rewrite H1, H2. destruct (Z.ltb_spec n pmp_entries); [|lia]. simpl.
  apply ld_st.
Qed.

Lemma write_addr_cfgs n v c : cfgs (write_addr n v c) = cfgs c.
Proof. unfold write_addr. by case_match. Qed.

Lemma write_cfg_addrs k v c : addrs (write_cfg k v c) = addrs c.
Proof. done. Qed.

(** What [pmp_set] writes into the configuration. *)
Definition entry_cfg (prot log2len : Z) : Z :=
  Z.lor (Z.land prot (Z.lnot PMP_A)) (if log2len =? PMP_SHIFT then PMP_A_NA4 else PMP_A_NAPOT).

Lemma pmp_set_spec n prot addr len c : csrs_ok c -> 0 <= n < pmp_entries -> 2 <= len <= 64 ->
  locked c n = false -> locked c (n + 1) = false ->
  0 <= entry_cfg prot len < 256 -> pmp_legal (entry_cfg prot len) = entry_cfg prot len ->
  exists c', pmp_set n prot addr len c = Ok (0, c') /\ csrs_ok c' /\
    cfg c' n = entry_cfg prot len /\
    ld (addrs c') n = Z.land (pmpaddr_encode addr len) (Z.ones pmp_width) /\
    forall m, 0 <= m -> m <> n -> cfg c' m = cfg c m /\ ld (addrs c') m = ld (addrs c) m.
Proof.
  intros Hc Hn Hl L1 L2 Hr Hp. pose proof pmp_entries_range. pose proof pmp_csrs_range.
  unfold pmp_set. unfold PMP_COUNT, PMP_SHIFT at 1.
  destruct (Z.leb_spec 64 n); [lia|]. destruct (Z.ltb_spec 64 len); [lia|]. destruct (Z.ltb_spec len 2); [lia|].
  simpl orb. cbv iota zeta. fold (entry_cfg prot len).
  destruct (csr_cfg_access n c ltac:(lia)) as [-> _]. simpl mbind.
  destruct (csr_addr_access n c ltac:(lia)) as [_ ->]. simpl mbind.
  set (c1 := write_addr n _ c).
  destruct (csr_cfg_access n c1 ltac:(lia)) as [_ ->]. simpl mbind.
  rewrite pmpcfg_shift_eq by lia. set (w := cfg_word c (n / 8)).
  fold (put_byte w (n mod 8) (entry_cfg prot len)).
  pose proof (Z.div_mod n 8 ltac:(lia)) as Dn. pose proof (Z.mod_pos_bound n 8 ltac:(lia)).
  assert (0 <= n / 8) by (apply Z.div_pos; lia).
  assert (forall m, cfg c1 m = cfg c m) as Ec1 by (intros; unfold cfg, c1; by rewrite write_addr_cfgs).
  assert (forall m, 0 <= m -> m / 8 = n / 8 -> cfg_byte w (m mod 8) = cfg c m) as Ew.
  { intros m Hm E. unfold w. rewrite cfg_word_byte; [|done|done|apply Z.mod_pos_bound; lia].
    f_equal. pose proof (Z.div_mod m 8 ltac:(lia)). lia. }
  set (c2 := write_cfg _ _ c1).
  assert (forall m, 0 <= m -> cfg c2 m = if decide (m = n) then entry_cfg prot len else cfg c m) as E2.
  { intros m Hm. unfold cfg at 1. destruct (Z.ltb_spec m pmp_entries) as [Hlt|Hge].
    2: { rewrite decide_False by lia. unfold cfg. by destruct (Z.ltb_spec m pmp_entries); [lia|]. }
    unfold c2. rewrite write_cfg_ld by lia. unfold locked. rewrite Ec1. fold (locked c m).
    pose proof (Z.mod_pos_bound m 8 ltac:(lia)).
    assert (ld (cfgs c1) m = cfg c m) as Ei.
    { rewrite <- Ec1. unfold cfg. by destruct (Z.ltb_spec m pmp_entries); [|lia]. }
    case_decide as D.
    - destruct D as (D1 & _ & _). rewrite cfg_byte_put by lia.
      destruct (decide (m = n)) as [->|Hne]; [by rewrite decide_True|].
      rewrite decide_False by (pose proof (Z.div_mod m 8 ltac:(lia)); lia).
      rewrite Ew by done. unfold cfg. destruct (Z.ltb_spec m pmp_entries); [|lia]. by apply (ok_cfg c Hc).
    - rewrite decide_False; [done|]. intros ->. apply D. done. }
  exists c2. split; [done|]. split; [|split; [|split]].
  - constructor; [|apply (ok_addr _ (write_addr_ok n _ c Hc))].
    intros m Hm. pose proof (E2 m ltac:(lia)) as E. unfold cfg at 1 in E.
    destruct (Z.ltb_spec m pmp_entries); [|lia]. rewrite E. case_decide; [done|].
    unfold cfg. destruct (Z.ltb_spec m pmp_entries); [|lia]. by apply (ok_cfg c Hc).
  - rewrite E2 by lia. by rewrite decide_True.
  - unfold c2. rewrite write_cfg_addrs. unfold c1. rewrite write_addr_ld by (done || lia). by rewrite decide_True.
  - intros m Hm Hne. rewrite E2, decide_False by done. split; [done|].
    unfold c2. rewrite write_cfg_addrs. unfold c1. rewrite write_addr_ld by (done || lia). by rewrite decide_False.
Qed.

(** ** Power-of-two regions *)

(** The address of a block of [2 ^ (k + 1)] words: its number and [k] trailing ones. *)
Definition napot (q k : Z) : Z := q * 2 ^ (k + 1) + Z.ones k.

Lemma napot_lor q k : 0 <= k -> napot q k = Z.lor (Z.shiftl q (k + 1)) (Z.ones k).
Proof.
  intros Hk. unfold napot. rewrite <- Z.shiftl_mul_pow2 by lia.
  assert (Z.land (Z.shiftl q (k + 1)) (Z.ones k) = 0) as E; [|by rewrite Z.add_nocarry_lxor, Z.lxor_lor].
  apply Z.bits_inj'. intros i Hi. rewrite Z.land_spec, Z.shiftl_spec, Z.testbit_ones, Z.bits_0 by lia.
  destruct (Z.ltb_spec i k); [|by rewrite !andb_false_r]. by rewrite Z.testbit_neg_r by lia.
Qed.

Lemma napot_testbit q k i : 0 <= k -> 0 <= i ->
  Z.testbit (napot q k) i = (i <? k) || Z.testbit q (i - (k + 1)).
Proof.
  intros. rewrite napot_lor, Z.lor_spec, Z.shiftl_spec, Z.testbit_ones by lia.
  rewrite orb_comm. f_equal. lia.
Qed.

Lemma napot_mask q k : 0 <= k -> Z.lxor (napot q k) (napot q k + 1) = Z.ones (k + 1).
Proof.
  intros Hk. assert (napot q k + 1 = Z.lor (Z.shiftl q (k + 1)) (2 ^ k)) as ->.
  { unfold napot. rewrite <- Z.shiftl_mul_pow2, Z.ones_equiv by lia.
    assert (Z.land (Z.shiftl q (k + 1)) (2 ^ k) = 0) as E;
      [|rewrite <- Z.lxor_lor, <- Z.add_nocarry_lxor by done; lia].
    apply Z.bits_inj'. intros i Hi.
    rewrite Z.land_spec, Z.shiftl_spec, Z.pow2_bits_eqb, Z.bits_0 by lia.
    destruct (Z.eqb_spec k i); [|by rewrite andb_false_r]. by rewrite Z.testbit_neg_r by lia. }
  apply Z.bits_inj'. intros i Hi.
  rewrite Z.lxor_spec, napot_testbit, Z.lor_spec, Z.shiftl_spec, Z.pow2_bits_eqb, Z.testbit_ones by lia.
  destruct (Z.ltb_spec i k), (Z.eqb_spec k i), (Z.ltb_spec i (k + 1)); try lia;
    rewrite ?(Z.testbit_neg_r q (i - (k + 1))) by lia; try done.
  - destruct (Z.leb_spec 0 i); [done|lia].
  - destruct (Z.leb_spec 0 i); [done|lia].
  - rewrite !orb_false_l, orb_false_r, xorb_nilpotent. by rewrite andb_false_r.
Qed.

Lemma napot_match_iff q k y : 0 <= k -> napot_match (napot q k) y = true <-> y / 2 ^ (k + 1) = q.
Proof.
  intros Hk. unfold napot_match. rewrite napot_mask, Z.eqb_eq, <- Z.ldiff_land, Z.ldiff_ones_r by lia.
  rewrite Z.shiftl_eq_0_iff, Z.shiftr_lxor, Z.lxor_eq_0_iff by lia.
  assert (Z.shiftr (napot q k) (k + 1) = q) as ->.
  { rewrite Z.shiftr_div_pow2 by lia. unfold napot. rewrite Z.add_comm, Z.div_add by lia.
    rewrite Z.div_small; [lia|]. rewrite Z.ones_equiv.
    assert (2 ^ (k + 1) = 2 * 2 ^ k) by (rewrite Z.pow_add_r; lia). pose proof (Z.pow_pos_nonneg 2 k). lia. }
  rewrite Z.shiftr_div_pow2 by lia. done.
Qed.

(** The value of the address register for a region, once written. *)
Lemma encode_napot b o : 3 <= o < 64 -> 0 <= b -> (2 ^ o | b) -> pmpaddr_encode b o = napot (b / 2 ^ o) (o - 3).
Proof.
  intros Ho Hb Hd. unfold pmpaddr_encode, PMP_SHIFT.
  destruct (Z.eqb_spec o 2); [lia|]. destruct (Z.eqb_spec o 64); [lia|].
  rewrite napot_lor by lia. rewrite Z.shiftl_1_l, Z.sub_1_r, <- Z.ones_equiv. f_equal.
  - rewrite <- Z.ldiff_land, Z.ldiff_ones_r, Z.shiftr_shiftr by lia. replace (2 + (o - 2)) with o by lia.
    replace (o - 3 + 1) with (o - 2) by lia. by rewrite Z.shiftr_div_pow2 by lia.
  - rewrite Z.ones_equiv, Z.shiftr_div_pow2 by lia. rewrite <- Z.sub_1_r.
    assert (2 ^ (o - 2) = 2 * 2 ^ (o - 3)) as -> by (rewrite <- Z.pow_succ_r by lia; f_equal; lia).
    change (2 ^ 1) with 2. replace (2 * 2 ^ (o - 3) - 1) with (1 + (2 ^ (o - 3) - 1) * 2) by lia.
    rewrite Z.div_add by lia. rewrite Z.ones_equiv. change (1 / 2) with 0. lia.
Qed.

(** A region that the unit can enforce. *)
Record region_fits (r : sbi_domain_memregion) : Prop := {
  fit_ok : region_ok r;
  fit_order : 3 <= order r;
  fit_grain : pmp_grain + 2 <= order r;
  fit_base : base r < 2 ^ (pmp_width + 2);
  fit_rw : has (flags r) SBI_DOMAIN_MEMREGION_WRITEABLE = true ->
           has (flags r) SBI_DOMAIN_MEMREGION_READABLE = true }.

Lemma ones_mod_ones a b : 0 <= b <= a -> Z.land (Z.ones a) (Z.ones b) = Z.ones b.
Proof.
  intros H. apply Z.bits_inj'. intros i Hi. rewrite Z.land_spec, !Z.testbit_ones by lia. lia.
Qed.

Lemma encode_stored b o : 3 <= o <= pmp_width + 2 -> 0 <= b < 2 ^ (pmp_width + 2) -> (2 ^ o | b) ->
  Z.land (pmpaddr_encode b o) (Z.ones pmp_width) = napot (b / 2 ^ o) (o - 3).
Proof.
  intros Ho Hb Hd. pose proof pmp_width_range. pose proof pmp_width_max.
  rewrite encode_napot, Z.land_ones by (done || lia). apply Z.mod_small.
  assert (2 ^ o = 4 * 2 ^ (o - 2)) as P.
  { change 4 with (2 ^ 2). rewrite <- Z.pow_add_r by lia. f_equal. lia. }
  destruct Hd as [k Hk]. rewrite Hk, Z.div_mul by lia.
  unfold napot. replace (o - 3 + 1) with (o - 2) by lia. rewrite Z.ones_equiv.
  assert (2 ^ (o - 2) = 2 * 2 ^ (o - 3)) as P3. { rewrite <- Z.pow_succ_r by lia. f_equal. lia. }
  assert (2 ^ pmp_width = 2 ^ (pmp_width + 2 - o) * 2 ^ (o - 2)) as P4.
  { rewrite <- Z.pow_add_r by lia. f_equal. lia. }
  assert (2 ^ (pmp_width + 2) = 4 * 2 ^ pmp_width) as P5 by (rewrite Z.pow_add_r; lia).
  pose proof (Z.pow_pos_nonneg 2 (o - 3)). pose proof (Z.pow_pos_nonneg 2 (pmp_width + 2 - o)).
  assert (k < 2 ^ (pmp_width + 2 - o)) by nia. assert (0 <= k) by nia. nia.
Qed.

(** The register holds a power-of-two address whose block is that of the region. *)
Lemma stored_napot r : region_fits r ->
  exists q k, 0 <= k /\ pmp_grain - 1 <= k /\
    Z.land (pmpaddr_encode (base r) (order r)) (Z.ones pmp_width) = napot q k /\
    forall x, 0 <= x < 2 ^ (pmp_width + 2) ->
      (Z.shiftr x 2 / 2 ^ (k + 1) = q <-> base r <= x < base r + 2 ^ order r).
Proof.
  intros [(Ho & Hb & Hd & Ht) H3 Hg Hw _]. pose proof pmp_width_range. pose proof pmp_width_max.
  assert (forall x, 0 <= x < 2 ^ (pmp_width + 2) -> Z.shiftr x 2 / 2 ^ (pmp_width + 1) = 0) as Hx0.
  { intros x Hx. rewrite Z.shiftr_div_pow2, Z.div_div, <- Z.pow_add_r by lia. apply Z.div_small.
    assert (2 ^ (pmp_width + 2) < 2 ^ (2 + (pmp_width + 1))) by (apply Z.pow_lt_mono_r; lia). lia. }
  destruct (decide (order r <= pmp_width + 2)) as [Hs|Hs].
  - exists (base r / 2 ^ order r), (order r - 3). split; [lia|]. split; [lia|].
    replace (order r - 3 + 1) with (order r - 2) by lia.
    assert (2 ^ order r = 4 * 2 ^ (order r - 2)) as P.
    { change 4 with (2 ^ 2). rewrite <- Z.pow_add_r by lia. f_equal. lia. }
    split; [apply encode_stored; done || lia|]. destruct Hd as [k Hk]. rewrite Hk, Z.div_mul by lia.
    intros x Hx. rewrite Z.shiftr_div_pow2, Z.div_div by lia. change (2 ^ 2) with 4. rewrite <- P.
    pose proof (Z.div_mod x (2 ^ order r)). pose proof (Z.mod_pos_bound x (2 ^ order r)). split.
    + intros <-. lia.
    + intros Hr. symmetry. apply (Z.div_unique x (2 ^ order r) k (x - k * 2 ^ order r)); lia.
  - assert (base r = 0) as Hb0.
    { destruct Hd as [k Hk]. assert (2 ^ (pmp_width + 2) < 2 ^ order r) by (apply Z.pow_lt_mono_r; lia).
      clear Ht Hx0. assert (k = 0) as ->; [|lia]. nia. }
    exists 0, pmp_width. split; [lia|]. split; [lia|]. split.
    + unfold napot. simpl. rewrite Hb0. destruct (decide (order r = 64)) as [E|].
      * unfold pmpaddr_encode, PMP_SHIFT. rewrite E. simpl. change (2 ^ 64 - 1) with (Z.ones 64).
        apply ones_mod_ones. lia.
      * rewrite encode_napot; [|lia|lia|apply Z.divide_0_r]. unfold napot. rewrite Z.div_0_l by lia. simpl.
        apply ones_mod_ones. lia.
    + intros x Hx. rewrite Hx0 by done. rewrite Hb0.
      assert (2 ^ (pmp_width + 2) < 2 ^ order r) by (apply Z.pow_lt_mono_r; lia). lia.
Qed.

(** ** The entry of a region *)
Lemma has_testbit a k : 0 <= k -> has a (Z.shiftl 1 k) = Z.testbit a k.
Proof. apply single_bit_test. Qed.

Lemma flags_testbit fl o : o <> 2 -> let p := entry_cfg (pmp_flags fl) o in
  0 <= p < 256 /\ Z.land p 0x60 = 0 /\ Z.land p PMP_A = PMP_A_NAPOT /\ has p PMP_A_NA4 = true /\
  Z.testbit p 0 = Z.testbit fl 0 /\ Z.testbit p 1 = Z.testbit fl 1 /\ Z.testbit p 2 = Z.testbit fl 2 /\
  has p PMP_L = has fl SBI_DOMAIN_MEMREGION_MMODE.
Proof.
  intros Ho. cbv zeta. unfold entry_cfg, PMP_SHIFT. destruct (Z.eqb_spec o 2); [done|].
  unfold pmp_flags.
  change SBI_DOMAIN_MEMREGION_READABLE with (Z.shiftl 1 0). change SBI_DOMAIN_MEMREGION_WRITEABLE with (Z.shiftl 1 1).
  change SBI_DOMAIN_MEMREGION_EXECUTABLE with (Z.shiftl 1 2). rewrite !has_testbit by lia.
  destruct (Z.testbit fl 0), (Z.testbit fl 1), (Z.testbit fl 2), (has fl SBI_DOMAIN_MEMREGION_MMODE);
    repeat split; vm_compute; congruence.
Qed.

Lemma land_low3 a b p : Z.testbit a 0 = Z.testbit b 0 -> Z.testbit a 1 = Z.testbit b 1 ->
  Z.testbit a 2 = Z.testbit b 2 -> 0 <= p < 8 -> Z.land a p = Z.land b p.
Proof.
  intros E0 E1 E2 Hp. apply Z.bits_inj'. intros i Hi. rewrite !Z.land_spec.
  destruct (decide (i < 3)).
  - assert (i = 0 \/ i = 1 \/ i = 2) as [->|[->| ->]] by lia; congruence.
  - rewrite (testbit_high 3 p) by (change (2 ^ 3) with 8; lia). by rewrite !andb_false_r.
Qed.

Record entry_of (c : csrs) (n : Z) (r : sbi_domain_memregion) : Prop := {
  entry_range : 0 <= n < pmp_entries;
  entry_cfg_eq : cfg c n = entry_cfg (pmp_flags (flags r)) (order r);
  entry_addr : ld (addrs c) n = Z.land (pmpaddr_encode (base r) (order r)) (Z.ones pmp_width) }.

Lemma entry_legal r : region_fits r -> let p := entry_cfg (pmp_flags (flags r)) (order r) in
  0 <= p < 256 /\ pmp_legal p = p.
Proof.
  intros [_ H3 _ _ Hrw]. destruct (flags_testbit (flags r) (order r) ltac:(lia)) as (H & H60 & _ & _ & T0 & T1 & _).
  cbv zeta. split; [done|]. apply pmp_legal_keeps; [done..|]. revert Hrw.
  change SBI_DOMAIN_MEMREGION_READABLE with (Z.shiftl 1 0). change SBI_DOMAIN_MEMREGION_WRITEABLE with (Z.shiftl 1 1).
  change PMP_W with (Z.shiftl 1 1). change PMP_R with (Z.shiftl 1 0). rewrite !has_testbit by lia. by rewrite T0, T1.
Qed.

Lemma read_addr_napot c n q k : 0 <= n < pmp_entries -> has (cfg c n) PMP_A_NA4 = true ->
  ld (addrs c) n = napot q k -> 0 <= k -> pmp_grain - 1 <= k -> read_addr c n = napot q k.
Proof.
  intros Hn Hc Ha Hk Hg. unfold read_addr. destruct (Z.leb_spec pmp_entries n); [lia|]. rewrite Hc, Ha.
  apply Z.bits_inj'. intros i Hi. rewrite Z.lor_spec, Z.testbit_ones, napot_testbit by lia.
  destruct (Z.ltb_spec i (Z.max 0 (pmp_grain - 1))); [|by rewrite andb_false_r, orb_false_r].
  destruct (Z.ltb_spec i k); [done|lia].
Qed.

Lemma entry_match c n r x : entry_of c n r -> region_fits r -> 0 <= x < 2 ^ (pmp_width + 2) ->
  pmp_match c n x = region_contains r x.
Proof.
  intros [Hn Hc Ha] Hf Hx. destruct (stored_napot r Hf) as (q & k & Hk & Hg & Es & Hm). rewrite Es in Ha.
  destruct (flags_testbit (flags r) (order r)) as (_ & _ & HA & HN & _); [destruct Hf; lia|].
  rewrite <- Hc in HA, HN. unfold pmp_match, PMP_SHIFT. rewrite HA. simpl.
  rewrite (read_addr_napot c n q k) by done. apply eq_true_iff_eq.
  rewrite napot_match_iff, Hm by done. symmetry. apply region_contains_iff; [apply (fit_ok r Hf)|].
  pose proof pmp_width_max. pose proof pmp_width_range.
  assert (2 ^ (pmp_width + 2) <= 2 ^ 64) by (apply Z.pow_le_mono_r; lia). lia.
Qed.

(** Entries from [n] on are off and can be written. *)
Definition fresh (c : csrs) (n : Z) : Prop :=
  forall m, n <= m -> Z.land (cfg c m) PMP_A = 0 /\ locked c m = false.

Lemma fresh_match c n m x : fresh c n -> n <= m -> pmp_match c m x = false.
Proof. intros F Hm. destruct (F m Hm) as [E _]. unfold pmp_match. by rewrite E. Qed.

(** The features of a hart with this unit. *)
Definition features_ok (f : hart_features) : Prop :=
  0 <= pmp_count f <= pmp_entries /\ pmp_addr_bits f = pmp_width /\ pmp_gran f = 2 ^ (pmp_grain + 2).

Lemma log2roundup_pow2 n : 0 <= n < 64 -> log2roundup (2 ^ n) = n.
Proof.
  intros Hn. assert (0 < 2 ^ n <= 2 ^ 64) as Hp by (split; [lia|apply Z.pow_le_mono_r; lia]).
  destruct (log2roundup_spec (2 ^ n)) as (A & B & C); [lia|].
  apply Z.pow_le_mono_r_iff in B; [|lia..]. destruct C as [C|C]; [lia|].
  apply Z.pow_lt_mono_r_iff in C; lia.
Qed.

Lemma fits_test f r : features_ok f -> region_fits r ->
  (log2roundup (pmp_gran f) <=? order r)
  && (Z.shiftr (base r) PMP_SHIFT <? Z.lor (BIT (wrap 32 (pmp_addr_bits f - 1))) (BIT (wrap 32 (pmp_addr_bits f - 1)) - 1))
  = true.
Proof.
  intros (_ & Hw & Hg) [(Ho & Hb & Hd & Ht) H3 Hgr Hbase _]. pose proof pmp_width_range. pose proof pmp_width_max.
  rewrite Hg, log2roundup_pow2 by lia. destruct (Z.leb_spec (pmp_grain + 2) (order r)); [|lia]. simpl.
  rewrite Hw, (wrap_small 32) by lia. unfold BIT. rewrite Z.mod_small, Z.shiftl_1_l by lia.
  assert (Z.lor (2 ^ (pmp_width - 1)) (2 ^ (pmp_width - 1) - 1) = 2 ^ pmp_width - 1) as ->.
  { rewrite !Z.sub_1_r, <- !Z.ones_equiv. apply Z.bits_inj'. intros i Hi.
    rewrite Z.lor_spec, Z.pow2_bits_eqb, !Z.testbit_ones by lia.
    destruct (Z.eqb_spec (Z.pred pmp_width) i), (Z.ltb_spec i (Z.pred pmp_width)), (Z.ltb_spec i pmp_width),
      (Z.leb_spec 0 i); done || lia. }
  apply Z.ltb_lt. unfold PMP_SHIFT. rewrite Z.shiftr_div_pow2 by lia.
  assert (2 ^ (pmp_width + 2) = 4 * 2 ^ pmp_width) as P by (rewrite Z.pow_add_r; lia).
  assert (2 ^ order r = 8 * 2 ^ (order r - 3)) as P8.
  { change 8 with (2 ^ 3). rewrite <- Z.pow_add_r by lia. f_equal. lia. }
  assert (2 ^ pmp_width = 2 * 2 ^ (pmp_width - 1)) as Pw by (rewrite <- Z.pow_succ_r by lia; f_equal; lia).
  destruct Hd as [k Hk]. rewrite Hk, P8 in *. change (2 ^ 2) with 4.
  replace (k * (8 * 2 ^ (order r - 3))) with (2 * (k * 2 ^ (order r - 3)) * 4) in * by lia.
  rewrite Z.div_mul by lia. lia.
Qed.

(** ** The configuration of a hart *)
Lemma configure_loop_spec f a : features_ok f -> forall rs idx c, memregions a = Some rs ->
  Forall region_fits rs -> 0 <= idx -> idx + Z.of_nat (length rs) <= pmp_count f ->
  csrs_ok c -> fresh c idx ->
  exists c', configure_loop f a idx c = Ok c' /\ csrs_ok c' /\
    (forall i r, rs !! i = Some r -> entry_of c' (idx + Z.of_nat i) r) /\
    (forall m, 0 <= m < idx -> cfg c' m = cfg c m /\ ld (addrs c') m = ld (addrs c) m) /\
    fresh c' (idx + Z.of_nat (length rs)).
Proof.
  intros Hf. induction a as [|r a IH]; intros rs idx c Hm Fr Hi Hc Ok F; simpl in *; [done|].
  destruct (order r =? 0); simplify_eq/=.
  { exists c. split; [done|]. split; [done|]. split; [done|]. split; [done|]. by rewrite Z.add_0_r. }
  destruct (memregions a) as [rs'|] eqn:Ha; simplify_eq/=. apply Forall_cons in Fr as [Fit Fr].
  destruct (Z.leb_spec (pmp_count f) idx); [lia|]. rewrite (fits_test f r Hf Fit).
  destruct (entry_legal r Fit) as [Hr Hl]. destruct Hf as (Hcnt & Hf2).
  destruct (pmp_set_spec idx (pmp_flags (flags r)) (base r) (order r) c) as (c1 & E & Ok1 & C1 & A1 & O1);
    [done|lia|destruct Fit as [(? & _)]; lia|by apply F|apply F; lia|done..|].
  rewrite E. simpl. destruct (IH rs' (idx + 1) c1) as (c2 & E2 & Ok2 & En & O2 & F2); [done|done|lia|lia|done| |].
  - intros m Hm'. unfold locked. destruct (O1 m ltac:(lia) ltac:(lia)) as [-> _]. apply F. lia.
  - exists c2. split; [done|]. split; [done|]. split; [|split].
    + intros [|i] r' Hr'; simpl in Hr'; simplify_eq.
      * rewrite Z.add_0_r. destruct (O2 idx ltac:(lia)) as [Ec Ea]. constructor; [lia|congruence..].
      * replace (idx + Z.of_nat (S i)) with (idx + 1 + Z.of_nat i) by lia. auto.
    + intros m Hm'. destruct (O2 m ltac:(lia)) as [-> ->]. apply O1; lia.
    + by replace (idx + Z.of_nat (S (length rs'))) with (idx + 1 + Z.of_nat (length rs')) by lia.
Qed.

Lemma pmp_find_none k : forall n x c, fresh c n -> pmp_find k n x c = None.
Proof.
  induction k as [|k IH]; intros n x c F; simpl; [done|]. rewrite (fresh_match c n) by (done || lia).
  apply IH. intros m Hm. apply F. lia.
Qed.

(** The search of the unit finds the region that decides for the domain. *)
Lemma pmp_find_deciding c x rs : forall n k, 0 <= x < 2 ^ (pmp_width + 2) -> Forall region_fits rs ->
  (forall i r, rs !! i = Some r -> entry_of c (n + Z.of_nat i) r) -> fresh c (n + Z.of_nat (length rs)) ->
  (length rs <= k)%nat ->
  match deciding rs x with
  | Some r => exists m, pmp_find k n x c = Some m /\ entry_of c m r
  | None => pmp_find k n x c = None
  end.
Proof.
  unfold deciding. induction rs as [|r rs IH]; intros n k Hx Fr En F Hk; simpl in *.
  - apply pmp_find_none. by rewrite Z.add_0_r in F.
  - destruct k as [|k]; [lia|]. apply Forall_cons in Fr as [Fit Fr].
    pose proof (En 0%nat r eq_refl) as E0. rewrite Z.add_0_r in E0. simpl. rewrite (entry_match c n r x) by done.
    destruct (region_contains r x); [by exists n|].
    apply IH; [done|done| | |lia].
    + intros i r' Hr'. replace (n + 1 + Z.of_nat i) with (n + Z.of_nat (S i)) by lia. by apply En.
    + by replace (n + 1 + Z.of_nat (length rs)) with (n + Z.of_nat (S (length rs))) by lia.
Qed.

Lemma region_allows_perm r perm : 0 < perm < 8 ->
  (Z.land (flags r) perm =? perm) = region_allows r perm || region_allows r (perm + SBI_DOMAIN_MMIO).
Proof.
  intros Hp. assert (perm = 1 \/ perm = 2 \/ perm = 3 \/ perm = 4 \/ perm = 5 \/ perm = 6 \/ perm = 7) as H by lia.
  unfold region_allows. destruct (has (flags r) SBI_DOMAIN_MEMREGION_MMIO);
    destruct H as [->|[->|[->|[->|[->|[->| ->]]]]]]; simpl; by rewrite ?orb_false_r.
Qed.

Lemma configure_decides f d a rs c : features_ok f -> regions d = Some a -> memregions a = Some rs ->
  Forall region_fits rs -> 0 < Z.of_nat (length rs) <= pmp_count f -> csrs_ok c -> fresh c 0 ->
  exists c', sbi_hart_pmp_configure f (Some d) c = Ok (0, c') /\
    forall x mode perm, 0 <= x < 2 ^ (pmp_width + 2) -> mode <> PRV_M -> 0 < perm < 8 ->
      pmp_allows c' mode x perm = decision rs x perm || decision rs x (perm + SBI_DOMAIN_MMIO).
Proof.
  intros Hf Ha Hm Fr Hl Ok F. unfold sbi_hart_pmp_configure. destruct (Z.eqb_spec (pmp_count f) 0); [lia|].
  rewrite Ha. destruct (configure_loop_spec f a Hf rs 0 c) as (c' & -> & Ok' & En & _ & F'); [done..|lia|lia|done|done|].
  exists c'. split; [done|]. intros x mode perm Hx Hmode Hp. unfold pmp_allows.
  assert (mode =? PRV_M = false) as -> by lia. destruct Hf as (Hc & _).
  pose proof (pmp_find_deciding c' x rs 0 (Z.to_nat pmp_entries) Hx Fr En F' ltac:(lia)) as D.
  unfold decision. destruct (deciding rs x) as [r|] eqn:E; [|by rewrite D].
  destruct D as (m & -> & [_ Ec _]). simpl. rewrite Ec, <- region_allows_perm by done.
  apply find_some in E as [Hin _]. rewrite Forall_forall in Fr.
  pose proof (Fr r ltac:(by apply list_elem_of_In)) as Fit.
  destruct (flags_testbit (flags r) (order r)) as (_ & _ & _ & _ & T0 & T1 & T2 & _); [destruct Fit; lia|].
  by rewrite (land_low3 _ (flags r)) by (done || lia).
Qed.

(** C15. After the configuration of a hart, its PMP unit allows supervisor and user
    mode just the accesses that [sbi_domain_check_addr] allows in the domain of the
    hart (to memory or to devices), for every address the unit knows, if the regions
    fit the unit. *)
Theorem sbi_hart_pmp_configure_enforces f d a rs c :
  features_ok f -> regions d = Some a -> memregions a = Some rs ->
  Forall region_fits rs -> 0 < Z.of_nat (length rs) <= pmp_count f -> csrs_ok c -> fresh c 0 ->
  exists c', sbi_hart_pmp_configure f (Some d) c = Ok (0, c') /\
    forall x mode perm, 0 <= x < 2 ^ (pmp_width + 2) -> mode <> PRV_M -> 0 < perm < 8 ->
      exists b b', sbi_domain_check_addr (Some d) x mode perm = Ok b /\
        sbi_domain_check_addr (Some d) x mode (perm + SBI_DOMAIN_MMIO) = Ok b' /\
        pmp_allows c' mode x perm = b || b'.
Proof.
  intros Hf Ha Hm Fr Hl Ok F. destruct (configure_decides f d a rs c) as (c' & E & D); [done..|].
  exists c'. split; [done|]. intros x mode perm Hx Hmode Hp. unfold sbi_domain_check_addr. rewrite Ha.
  exists (decision rs x perm), (decision rs x (perm + SBI_DOMAIN_MMIO)).
  rewrite !(check_loop_deciding a rs) by done. split; [done|]. split; [done|]. by apply D.
Qed.

(** ** Reading an entry back *)
Lemma ctz_loop_spec t : forall fuel x r, 0 <= x -> (t < fuel)%nat ->
  (forall i, 0 <= i < Z.of_nat t -> Z.testbit x i = false) -> Z.testbit x (Z.of_nat t) = true ->
  ctz_loop fuel x r = r + Z.of_nat t.
Proof.
  induction t as [|t IH]; intros fuel x r Hx Hf Hz Ho; (destruct fuel as [|fuel]; [lia|]); simpl ctz_loop;
    change (Z.land x 1) with (Z.land x (Z.ones 1)); rewrite Z.land_ones by lia; change (2 ^ 1) with 2;
    rewrite <- Z.bit0_mod.
  - change (Z.of_nat 0) with 0 in *. rewrite Ho. simpl. lia.
  - rewrite Hz by lia. simpl Z.b2z. simpl Z.eqb. cbv iota. rewrite IH; [lia| |lia| |].
    + by apply Z.shiftr_nonneg.
    + intros i Hi. rewrite Z.shiftr_spec by lia. apply Hz. lia.
    + rewrite Z.shiftr_spec by lia. rewrite <- Ho. f_equal. lia.
Qed.

Lemma ctz_napot q k : 0 <= k < 64 -> 0 <= q -> napot q k < 2 ^ 64 -> ctz (Z.lxor (napot q k) (2 ^ 64 - 1)) = k.
Proof.
  intros Hk Hq Hn. assert (0 <= napot q k) as H0.
  { unfold napot. rewrite Z.ones_equiv. pose proof (Z.pow_pos_nonneg 2 k). nia. }
  assert (forall i, 0 <= i < 64 -> Z.testbit (Z.lxor (napot q k) (2 ^ 64 - 1)) i = negb (Z.testbit (napot q k) i)) as B.
  { intros i Hi. rewrite Z.lxor_spec. change (2 ^ 64 - 1) with (Z.ones 64). rewrite Z.testbit_ones_nonneg by lia.
    destruct (Z.ltb_spec i 64); [by rewrite xorb_true_r|lia]. }
  assert (Z.testbit (Z.lxor (napot q k) (2 ^ 64 - 1)) k = true) as Hbit.
  { rewrite B, napot_testbit by lia. rewrite Z.ltb_irrefl, Z.testbit_neg_r by lia. done. }
  unfold ctz. destruct (Z.eqb_spec (Z.lxor (napot q k) (2 ^ 64 - 1)) 0) as [E|].
  { rewrite E, Z.bits_0 in Hbit. done. }
  rewrite (ctz_loop_spec (Z.to_nat k)); [lia| |lia| |].
  - by apply Z.lxor_nonneg.
  - intros i Hi. rewrite B, napot_testbit by lia. by destruct (Z.ltb_spec i k); [|lia].
  - by rewrite Z2Nat.id by lia.
Qed.

Lemma cfg_byte_shift w i : 0 <= i -> Z.shiftr (Z.land w (Z.shiftl 0xff (8 * i))) (8 * i) = cfg_byte w i.
Proof.
  intros Hi. apply Z.bits_inj'. intros t Ht. rewrite cfg_byte_testbit, Z.shiftr_spec, Z.land_spec by lia.
  rewrite Z.shiftl_spec by lia. replace (t + 8 * i - 8 * i) with t by lia. rewrite testbit_ff by lia.
  rewrite andb_comm. do 2 f_equal. lia.
Qed.

(** The result of [pmp_get] on an entry that holds a power-of-two address. *)
Lemma pmp_get_napot n c q k : csrs_ok c -> 0 <= n < pmp_entries ->
  Z.land (cfg c n) PMP_A = PMP_A_NAPOT -> ld (addrs c) n = napot q k -> 0 <= k < 60 -> pmp_grain - 1 <= k ->
  0 <= q -> napot q k < 2 ^ 54 ->
  pmp_get n c = Ok (0, (cfg c n, q * 2 ^ (k + 3), k + 3)).
Proof.
  intros Hc Hn HA Ha Hk Hg Hq Hb. pose proof pmp_entries_range. pose proof pmp_csrs_range.
  pose proof (cfg_range c n Hc ltac:(lia)) as Hr.
  assert (has (cfg c n) PMP_A_NA4 = true) as HN.
  { unfold has, PMP_A, PMP_A_NAPOT, PMP_A_NA4 in *. apply negb_true_iff, Z.eqb_neq. intros E0.
    assert (Z.land (Z.land (cfg c n) 0x18) 0x10 = 0x10) as E1 by by rewrite HA.
    rewrite <- Z.land_assoc in E1. change (Z.land 0x18 0x10) with 0x10 in E1. lia. }
  unfold pmp_get, PMP_COUNT. destruct (Z.leb_spec 64 n); [lia|].
  destruct (csr_cfg_access n c ltac:(lia)) as [-> _]. simpl mbind.
  destruct (csr_addr_access n c ltac:(lia)) as [-> _]. simpl mbind.
  rewrite (read_addr_napot c n q k), pmpcfg_shift_eq by (done || lia).
  rewrite cfg_byte_shift by (apply Z.mod_pos_bound; lia).
  rewrite cfg_word_byte; [|done|apply Z.div_pos; lia|apply Z.mod_pos_bound; lia].
  rewrite <- Z.div_mod by lia. rewrite HA, Z.eqb_refl.
  destruct (Z.eqb_spec (napot q k) (2 ^ 64 - 1)); [lia|]. rewrite ctz_napot by lia.
  rewrite Z.shiftl_1_l, Z.sub_1_r, <- Z.ones_equiv, <- Z.ldiff_land.
  assert (Z.ldiff (napot q k) (Z.ones k) = q * 2 ^ (k + 1)) as ->.
  { rewrite <- Z.shiftl_mul_pow2 by lia. apply Z.bits_inj'. intros i Hi.
    rewrite Z.ldiff_spec, napot_testbit, Z.testbit_ones_nonneg, Z.shiftl_spec by lia.
    destruct (Z.ltb_spec i k); simpl; [by rewrite Z.testbit_neg_r by lia|by rewrite andb_true_r]. }
  unfold PMP_SHIFT. rewrite Z.shiftl_mul_pow2, <- Z.mul_assoc, <- Z.pow_add_r by lia.
  replace (k + 1 + 2) with (k + 3) by lia. rewrite wrap_small.
  - do 3 f_equal. lia.
  - split; [nia|]. unfold napot in Hb. rewrite Z.ones_equiv in Hb.
    assert (2 ^ (k + 3) = 4 * 2 ^ (k + 1)) by (rewrite <- (Z.pow_add_r 2 2) by lia; f_equal; lia).
    pose proof (Z.pow_pos_nonneg 2 k). nia.
Qed.

Lemma entry_cfg_legal prot o : 0 <= prot < 256 -> Z.land prot 0x60 = 0 ->
  (has prot PMP_W = true -> has prot PMP_R = true) -> o <> 2 ->
  0 <= entry_cfg prot o < 256 /\ Z.land (entry_cfg prot o) PMP_A = PMP_A_NAPOT /\
  pmp_legal (entry_cfg prot o) = entry_cfg prot o.
Proof.
  intros Hp H60 Hrw Ho. unfold entry_cfg, PMP_SHIFT. destruct (Z.eqb_spec o 2); [done|].
  unfold PMP_A, PMP_A_NAPOT. rewrite <- Z.ldiff_land.
  set (p := Z.lor (Z.ldiff prot 0x18) 0x18).
  assert (forall i, 0 <= i < 3 -> Z.testbit p i = Z.testbit prot i) as Hb.
  { intros i Hi. unfold p. rewrite Z.lor_spec, Z.ldiff_spec.
    assert (i = 0 \/ i = 1 \/ i = 2) as [->|[->| ->]] by lia; change (Z.testbit 0x18 _) with false;
      by rewrite andb_true_r, orb_false_r. }
  assert (0 <= p < 256) as Hr.
  { split; [apply Z.lor_nonneg; split; [apply Z.ldiff_nonneg; lia|lia]|].
    assert (Z.land p 0xff = p) as E.
    2: { pose proof (cfg_byte_range p 0) as H. unfold cfg_byte in H. rewrite Z.mul_0_r, Z.shiftr_0_r, E in H. lia. }
    unfold p. rewrite Z.land_lor_distr_l. change (Z.land 0x18 0xff) with 0x18. f_equal.
    apply Z.bits_inj'. intros i Hi. rewrite Z.land_spec, Z.ldiff_spec, testbit_ff by lia.
    destruct (Z.ltb_spec i 8); [by rewrite andb_true_r|]. by rewrite byte_high by (done || lia). }
  split; [done|]. split.
  - unfold p. rewrite Z.land_lor_distr_l, Z.ldiff_land, <- Z.land_assoc, (Z.land_comm (Z.lnot _)), Z.land_lnot_diag.
    by rewrite Z.land_0_r.
  - apply pmp_legal_keeps; [done| |].
    + unfold p. rewrite Z.land_lor_distr_l, Z.ldiff_land, <- Z.land_assoc, (Z.land_comm (Z.lnot _)), Z.land_assoc, H60.
      done.
    + revert Hrw. change PMP_W with (Z.shiftl 1 1). change PMP_R with (Z.shiftl 1 0).
      rewrite !has_testbit, !Hb by lia. done.
Qed.

(** [pmp_get] returns what [pmp_set] has written: the permissions with the mode of
    a power-of-two entry, the base and the order of the region, for every region
    that the address registers can represent. *)
Theorem pmp_set_get n prot addr len c : csrs_ok c -> 0 <= n < pmp_entries ->
  locked c n = false -> locked c (n + 1) = false ->
  0 <= prot < 256 -> Z.land prot 0x60 = 0 -> (has prot PMP_W = true -> has prot PMP_R = true) ->
  Z.max 3 (pmp_grain + 2) <= len <= pmp_width + 2 -> 0 <= addr < 2 ^ (pmp_width + 2) -> (2 ^ len | addr) ->
  exists c', pmp_set n prot addr len c = Ok (0, c') /\
    pmp_get n c' = Ok (0, (Z.lor (Z.ldiff prot PMP_A) PMP_A_NAPOT, addr, len)).
Proof.
  intros Hc Hn L1 L2 Hp H60 Hrw Hl Ha Hd. pose proof pmp_width_range. pose proof pmp_width_max.
  destruct (entry_cfg_legal prot len Hp H60 Hrw ltac:(lia)) as (Hr & HA & Hlg).
  destruct (pmp_set_spec n prot addr len c) as (c' & E & Hc' & Ec & Ea & _); [done..|lia|done|done|done|done|].
  exists c'. split; [done|]. rewrite encode_stored in Ea by (done || lia).
  rewrite (pmp_get_napot n c' (addr / 2 ^ len) (len - 3)); try done; try lia.
  - rewrite Ec. replace (len - 3 + 3) with len by lia. destruct Hd as [k ->]. rewrite Z.div_mul by lia.
    unfold entry_cfg, PMP_SHIFT. destruct (Z.eqb_spec len 2); [lia|]. by rewrite Z.ldiff_land.
  - by rewrite Ec.
  - apply Z.div_pos; lia.
  - rewrite <- encode_stored, Z.land_ones by (done || lia).
    assert (2 ^ pmp_width <= 2 ^ 54) by (apply Z.pow_le_mono_r; lia).
    pose proof (Z.mod_pos_bound (pmpaddr_encode addr len) (2 ^ pmp_width)). lia.
Qed.

(** A region of the whole address space (order 64) reads back as one of the order
    [pmp_width + 3], which is 57 for 54 address bits: [pmp_get] looks for a register
    with all 64 bits set, which keeps at most 54. *)
Theorem pmp_get_whole_space n prot c : csrs_ok c -> 0 <= n < pmp_entries ->
  locked c n = false -> locked c (n + 1) = false ->
  0 <= prot < 256 -> Z.land prot 0x60 = 0 -> (has prot PMP_W = true -> has prot PMP_R = true) ->
  exists c', pmp_set n prot 0 64 c = Ok (0, c') /\
    pmp_get n c' = Ok (0, (Z.lor (Z.ldiff prot PMP_A) PMP_A_NAPOT, 0, pmp_width + 3)).
Proof.
  intros Hc Hn L1 L2 Hp H60 Hrw. pose proof pmp_width_range. pose proof pmp_width_max.
  destruct (entry_cfg_legal prot 64 Hp H60 Hrw ltac:(lia)) as (Hr & HA & Hlg).
  destruct (pmp_set_spec n prot 0 64 c) as (c' & E & Hc' & Ec & Ea & _); [done..|lia|done|done|done|done|].
  exists c'. split; [done|]. change (pmpaddr_encode 0 64) with (Z.ones 64) in Ea.
  rewrite ones_mod_ones in Ea by lia.
  rewrite (pmp_get_napot n c' 0 pmp_width); try done; try lia.
  - rewrite Ec. unfold entry_cfg, PMP_SHIFT. simpl. by rewrite Z.ldiff_land.
  - by rewrite Ec.
  - unfold napot. simpl. rewrite Z.ones_equiv.
    assert (2 ^ pmp_width <= 2 ^ 54) by (apply Z.pow_le_mono_r; lia). lia.
Qed.

End Pmp.

(** ** Bit search *)
Definition lowest (w i : Z) : Prop := 0 <= i /\ Z.testbit w i = true /\ forall j, 0 <= j < i -> Z.testbit w j = false.

(** The state of the search: the word is shifted by [num], the bits below are zero,
    and a bit is set among the next [n]. *)
Definition ffs_inv (w0 n : Z) (s : Z * Z) : Prop :=
  let '(num, w) := s in 0 <= num /\ w = Z.shiftr w0 num /\ (forall j, 0 <= j < num -> Z.testbit w0 j = false) /\
    Z.land w (Z.ones n) <> 0.

Lemma ffs_step_inv w0 k s : 0 < k -> ffs_inv w0 (2 * k) s -> ffs_inv w0 k (ffs_step k s).
Proof.
  intros Hk. destruct s as [num w]. simpl. intros (Hn & -> & Hz & Hne).
  destruct (Z.eqb_spec (Z.land (Z.shiftr w0 num) (Z.ones k)) 0) as [E|E]; simpl; [|done].
  split; [lia|]. split; [by rewrite Z.shiftr_shiftr by lia|].
  assert (forall j, 0 <= j < k -> Z.testbit (Z.shiftr w0 num) j = false) as Hlow.
  { intros j Hj. assert (Z.testbit (Z.land (Z.shiftr w0 num) (Z.ones k)) j = false) as B by by rewrite E, Z.bits_0.
    rewrite Z.land_spec, Z.testbit_ones_nonneg in B by lia. destruct (Z.ltb_spec j k); [|lia].
    by rewrite andb_true_r in B. }
  split.
  - intros j Hj. destruct (decide (j < num)); [apply Hz; lia|].
    specialize (Hlow (j - num) ltac:(lia)). rewrite Z.shiftr_spec in Hlow by lia.
    by replace (j - num + num) with j in Hlow by lia.
  - intros E2. apply Hne. apply Z.bits_inj'. intros j Hj.
    rewrite Z.land_spec, Z.testbit_ones_nonneg, Z.bits_0 by lia.
    destruct (Z.ltb_spec j (2 * k)); [|by rewrite andb_false_r]. rewrite andb_true_r.
    destruct (decide (j < k)); [apply Hlow; lia|].
    assert (Z.testbit (Z.land (Z.shiftr (Z.shiftr w0 num) k) (Z.ones k)) (j - k) = false) as B by by rewrite E2, Z.bits_0.
    rewrite Z.land_spec, Z.testbit_ones_nonneg in B by lia. destruct (Z.ltb_spec (j - k) k); [|lia].
    rewrite andb_true_r, Z.shiftr_spec in B by lia. by replace (j - k + k) with j in B by lia.
Qed.

Lemma __ffs_lowest w : 0 < w < 2 ^ 64 -> lowest w (__ffs w).
Proof.
  intros Hw. unfold __ffs.
  assert (ffs_inv w (2 * 32) (0, w)) as I.
  { simpl. split; [lia|]. split; [done|]. split; [lia|]. rewrite Z.land_ones, Z.mod_small by lia. lia. }
  apply ffs_step_inv, (ffs_step_inv w 16), (ffs_step_inv w 8), (ffs_step_inv w 4), (ffs_step_inv w 2),
    (ffs_step_inv w 1) in I; [|lia..].
  destruct (ffs_step 1 _) as [num w1]. simpl in *. destruct I as (Hn & -> & Hz & Hne).
  split; [done|]. split; [|done]. apply not_false_is_true. intros E. apply Hne.
  rewrite Z.land_ones by lia. change (2 ^ 1) with 2. rewrite <- Z.bit0_mod, Z.shiftr_spec by lia. by rewrite Z.add_0_l, E.
Qed.

(** The state of the other search: the word without its [63 - num] leading zeros, of
    which fewer than [n] are left. *)
Definition fls_inv (w0 n : Z) (s : Z * Z) : Prop :=
  let '(num, w) := s in num <= 63 /\ w = w0 * 2 ^ (63 - num) /\ 2 ^ (64 - n) <= w < 2 ^ 64.

Lemma fls_step_inv w0 k s : 0 < k <= 32 -> fls_inv w0 (2 * k) s -> fls_inv w0 k (fls_step k s).
Proof.
  intros Hk. destruct s as [num w]. unfold fls_inv, fls_step. intros (Hn & Hw & Hr).
  assert (Z.land w (u64 (Z.shiftl (2 ^ 64 - 1) (64 - k))) =? 0 = (w <? 2 ^ (64 - k))) as ->.
  { assert (u64 (Z.shiftl (2 ^ 64 - 1) (64 - k)) = Z.shiftl (Z.ones k) (64 - k)) as ->.
    { apply Z.bits_inj'. intros i Hi. rewrite wrap_testbit, !Z.shiftl_spec by lia.
      change (2 ^ 64 - 1) with (Z.ones 64). rewrite !Z.testbit_ones by lia.
      destruct (Z.ltb_spec i 64), (Z.leb_spec 0 (i - (64 - k))), (Z.ltb_spec (i - (64 - k)) 64),
        (Z.ltb_spec (i - (64 - k)) k); simpl; done || lia. }
    assert (Z.land w (Z.shiftl (Z.ones k) (64 - k)) = Z.shiftl (w / 2 ^ (64 - k)) (64 - k)) as ->.
    { rewrite <- Z.shiftr_div_pow2 by lia. apply Z.bits_inj'. intros i Hi.
      rewrite Z.land_spec, !Z.shiftl_spec, Z.testbit_ones by lia.
      destruct (Z.leb_spec 0 (i - (64 - k))).
      - rewrite Z.shiftr_spec by lia. replace (i - (64 - k) + (64 - k)) with i by lia.
        destruct (Z.ltb_spec (i - (64 - k)) k); [by rewrite andb_true_r|]. simpl. rewrite andb_false_r.
        symmetry. apply (testbit_high 64); lia.
      - rewrite andb_false_r. by rewrite Z.testbit_neg_r by lia. }
    apply eq_true_iff_eq. rewrite Z.eqb_eq, Z.ltb_lt, Z.shiftl_eq_0_iff by lia.
    rewrite Z.div_small_iff by lia. assert (0 < 2 ^ (64 - k)) by (apply Z.pow_pos_nonneg; lia).
    assert (0 < 2 ^ (64 - 2 * k)) by (apply Z.pow_pos_nonneg; lia). lia. }
  destruct (Z.ltb_spec w (2 ^ (64 - k))); [|lia].
  assert (2 ^ 64 = 2 ^ (64 - k) * 2 ^ k) as P by (rewrite <- Z.pow_add_r by lia; f_equal; lia).
  assert (2 ^ (64 - k) = 2 ^ (64 - 2 * k) * 2 ^ k) as P2 by (rewrite <- Z.pow_add_r by lia; f_equal; lia).
  assert (0 < 2 ^ k) by (apply Z.pow_pos_nonneg; lia).
  assert (0 < 2 ^ (64 - 2 * k)) by (apply Z.pow_pos_nonneg; lia).
  rewrite Z.shiftl_mul_pow2, wrap_small by (rewrite ?P; nia || lia). split; [lia|]. split; [|rewrite P, P2; nia].
  replace (63 - (num - k)) with (63 - num + k) by lia. rewrite Z.pow_add_r by lia. lia.
Qed.

Lemma __fls_log2 w : 0 < w < 2 ^ 64 -> __fls w = Z.log2 w.
Proof.
  intros Hw. unfold __fls.
  assert (fls_inv w (2 * 32) (63, w)) as I by (unfold fls_inv; simpl; lia).
  apply fls_step_inv, (fls_step_inv w 16), (fls_step_inv w 8), (fls_step_inv w 4), (fls_step_inv w 2),
    (fls_step_inv w 1) in I; [|lia..].
  destruct (fls_step 1 _) as [num w1]. unfold fls_inv in I. simpl fst. destruct I as (Hn & -> & Hr).
  assert (Z.log2 (w * 2 ^ (63 - num)) = 63) as E by (apply Z.log2_unique; [lia|]; exact Hr).
  rewrite Z.log2_mul_pow2 in E by lia. lia.
Qed.

(** ** What the detection finds *)
Section Detect.
Context {hw : PmpHw}.

Lemma write_addr_locked n v c m : locked (write_addr n v c) m = locked c m.
Proof. unfold locked, cfg. by rewrite write_addr_cfgs. Qed.

(** Writing a value back that was read changes nothing that can be read. *)
Lemma read_write_back n c : 0 <= n -> (forall m, 0 <= m -> locked c m = false) -> csrs_ok c ->
  read_addr (write_addr n (read_addr c n) c) n = read_addr c n.
Proof.
  intros Hn L Hc. pose proof pmp_width_range. destruct (decide (n < pmp_entries)) as [Hlt|Hge].
  - unfold read_addr at 1. destruct (Z.leb_spec pmp_entries n); [lia|].
    rewrite write_addr_ld, decide_True by (done || lia || apply L; lia). unfold cfg at 1. rewrite write_addr_cfgs. fold (cfg c n).
    unfold read_addr. destruct (Z.leb_spec pmp_entries n); [lia|].
    pose proof (ok_addr c Hc n ltac:(lia)) as Hr. set (v := ld (addrs c) n) in *.
    assert (forall i, pmp_width <= i -> Z.testbit v i = false) as Hv by (intros; apply (testbit_high pmp_width); lia).
    destruct (has (cfg c n) PMP_A_NA4); apply Z.bits_inj'; intros i Hi.
    + rewrite !Z.lor_spec, Z.land_spec, Z.lor_spec, !Z.testbit_ones_nonneg by lia.
      destruct (Z.ltb_spec i pmp_width); [by destruct (Z.testbit v i), (i <? Z.max 0 (pmp_grain - 1))|].
      rewrite Hv by done. by destruct (Z.ltb_spec i (Z.max 0 (pmp_grain - 1))); [lia|].
    + rewrite !Z.ldiff_spec, Z.land_spec, Z.ldiff_spec, !Z.testbit_ones_nonneg by lia.
      destruct (Z.ltb_spec i pmp_width); [by destruct (Z.testbit v i), (i <? pmp_grain)|]. by rewrite Hv.
  - unfold read_addr. destruct (Z.leb_spec pmp_entries n); [done|lia].
Qed.

Lemma count_loop_spec k : forall n cnt c, 0 <= n -> (forall m, 0 <= m -> locked c m = false) -> csrs_ok c ->
  fst (count_loop k n cnt c) = cnt + Z.max 0 (Z.min (Z.of_nat k) (pmp_csrs - n)).
Proof.
  induction k as [|k IH]; intros n cnt c Hn L Hc; simpl count_loop; [simpl; lia|].
  unfold read_allowed. destruct (Z.ltb_spec n pmp_csrs); [|simpl; lia].
  unfold write_allowed. destruct (Z.ltb_spec n pmp_csrs); [|lia].
  rewrite read_write_back, Z.eqb_refl by done.
  rewrite IH; [lia|lia| |by do 2 apply write_addr_ok]. intros m Hm. rewrite !write_addr_locked. by apply L.
Qed.

Lemma allowed_addr_spec c : csrs_ok c -> (forall m, 0 <= m -> locked c m = false) ->
  let '(val, c1) := hart_pmp_get_allowed_addr c in
  val = Z.ldiff (Z.ones pmp_width) (Z.ones pmp_grain) /\ csrs_ok c1 /\ forall m, 0 <= m -> locked c1 m = false.
Proof.
  intros Hc L. pose proof pmp_entries_range. pose proof pmp_csrs_range. pose proof pmp_width_range. pose proof pmp_width_max.
  assert (pmp_legal 0 = 0) as L0 by (apply pmp_legal_keeps; [lia|done|done]).
  assert (forall j, cfg_byte 0 j = 0) as B0 by (intros; unfold cfg_byte; by rewrite Z.shiftr_0_l).
  unfold hart_pmp_get_allowed_addr. set (c0 := write_cfg 0 0 c).
  assert (forall m, 0 <= m -> ld (cfgs c0) m = 0 \/ ld (cfgs c0) m = ld (cfgs c) m) as E0.
  { intros m Hm. unfold c0. rewrite write_cfg_ld by lia. case_decide; [left|by right]. by rewrite B0, L0. }
  assert (csrs_ok c0) as Hc0.
  { constructor; [|apply (ok_addr c Hc)]. intros m Hm. destruct (E0 m ltac:(lia)) as [->| ->]; [done|].
    by apply (ok_cfg c Hc). }
  assert (forall m, 0 <= m -> locked c0 m = false) as Lc0.
  { intros m Hm. pose proof (L m Hm) as Lm. unfold locked, cfg in *.
    destruct (Z.ltb_spec m pmp_entries); [|done]. by destruct (E0 m Hm) as [->| ->]. }
  assert (cfg c0 0 = 0) as Z0.
  { unfold cfg. destruct (Z.ltb_spec 0 pmp_entries); [|lia]. unfold c0. rewrite write_cfg_ld by lia.
    rewrite decide_True by (split; [done|split; [lia|by apply L]]). by rewrite B0, L0. }
  unfold write_allowed. destruct (Z.ltb_spec 0 pmp_csrs); [|lia]. set (c1 := write_addr 0 _ c0).
  unfold read_allowed. destruct (Z.ltb_spec 0 pmp_csrs); [|lia]. simpl default.
  split; [|split; [by apply write_addr_ok|intros m Hm; unfold c1; rewrite write_addr_locked; by apply Lc0]].
  unfold read_addr. destruct (Z.leb_spec pmp_entries 0); [lia|].
  assert (cfg c1 0 = 0) as -> by (unfold c1, cfg; rewrite write_addr_cfgs; exact Z0). simpl has. cbv iota.
  unfold c1. rewrite write_addr_ld by (try apply Lc0; lia). rewrite decide_True by done.
  change PMP_ADDR_MASK with (Z.ones 54). by rewrite ones_mod_ones by lia.
Qed.

Lemma lowest_unique w i j : lowest w i -> lowest w j -> i = j.
Proof.
  intros (Hi & Ti & Zi) (Hj & Tj & Zj). destruct (Z.lt_trichotomy i j) as [H|[H|H]]; [|done|].
  - rewrite (Zj i) in Ti by lia. done.
  - rewrite (Zi j) in Tj by lia. done.
Qed.

(** The detection finds the implemented address bits and the granularity of the
    unit. The number of entries it finds is that of the address registers that can
    be read without a trap, whether their entries are implemented or not: each
    register is compared with the value it was just read from. *)
Theorem detect_pmp_counts_registers c : csrs_ok c -> (forall m, 0 <= m -> locked c m = false) -> pmp_grain < 29 ->
  fst (detect_pmp c) = mk_features pmp_csrs pmp_width (2 ^ (pmp_grain + 2)).
Proof.
  intros Hc L Hg. pose proof pmp_entries_range. pose proof pmp_csrs_range. pose proof pmp_width_range. pose proof pmp_width_max.
  unfold detect_pmp. pose proof (allowed_addr_spec c Hc L) as A.
  destruct (hart_pmp_get_allowed_addr c) as [val c1]. destruct A as (Ev & Hc1 & L1).
  assert (val = Z.shiftl (Z.ones (pmp_width - pmp_grain)) pmp_grain) as Es.
  { rewrite Ev. apply Z.bits_inj'. intros i Hi. rewrite Z.ldiff_spec, Z.shiftl_spec, !Z.testbit_ones by lia.
    destruct (Z.leb_spec 0 i), (Z.ltb_spec i pmp_width), (Z.ltb_spec i pmp_grain), (Z.leb_spec 0 (i - pmp_grain)),
      (Z.ltb_spec (i - pmp_grain) (pmp_width - pmp_grain)); simpl; done || lia. }
  assert (val = 2 ^ pmp_width - 2 ^ pmp_grain) as Ep.
  { rewrite Es, Z.shiftl_mul_pow2, Z.ones_equiv by lia.
    replace (2 ^ pmp_width) with (2 ^ (pmp_width - pmp_grain) * 2 ^ pmp_grain) by (rewrite <- Z.pow_add_r by lia; f_equal; lia).
    lia. }
  assert (2 ^ pmp_grain <= 2 ^ (pmp_width - 1)) by (apply Z.pow_le_mono_r; lia).
  assert (2 ^ pmp_width = 2 * 2 ^ (pmp_width - 1)) by (rewrite <- Z.pow_succ_r by lia; f_equal; lia).
  assert (2 ^ pmp_width <= 2 ^ 54) by (apply Z.pow_le_mono_r; lia).
  assert (0 < 2 ^ pmp_grain) by lia.
  destruct (Z.eqb_spec val 0); [lia|].
  assert (Z.log2 val = pmp_width - 1) as Hlog by (apply Z.log2_unique; [lia|]; replace (Z.succ (pmp_width - 1)) with pmp_width by lia; lia).
  assert (lowest val pmp_grain) as Hlow.
  { split; [lia|]. split.
    - rewrite Es, Z.shiftl_spec, Z.sub_diag by lia. apply Z.ones_spec_low. lia.
    - intros j Hj. rewrite Es, Z.shiftl_spec by lia. apply Z.testbit_neg_r. lia. }
  rewrite __fls_log2, Hlog by lia. rewrite (lowest_unique val (__ffs val) pmp_grain) by (try apply __ffs_lowest; done || lia).
  pose proof (count_loop_spec 64 0 0 c1 ltac:(lia) L1 Hc1) as Hcount.
  destruct (count_loop 64 0 0 c1) as [cnt c2]. simpl in Hcount. simpl fst. f_equal.
  - lia.
  - rewrite wrap_small; lia.
  - rewrite Z.shiftl_1_l. assert (2 ^ (pmp_grain + 2) <= 2 ^ 30) by (apply Z.pow_le_mono_r; lia).
    rewrite sgn_small, wrap_small; change (2 ^ (32 - 1)) with (2 ^ 31); lia.
Qed.

Lemma all_region_fits : region_fits all_region.
Proof.
  pose proof pmp_width_range. pose proof pmp_width_max. constructor; simpl; try lia; [|done].
  unfold region_ok. simpl. split; [lia|]. split; [lia|]. split; [apply Z.divide_0_r|lia].
Qed.

Lemma perm_access perm : 0 < perm < 8 -> has perm SBI_DOMAIN_MMIO = false /\ access_rwx perm <> 0.
Proof.
  intros Hp. assert (perm = 1 \/ perm = 2 \/ perm = 3 \/ perm = 4 \/ perm = 5 \/ perm = 6 \/ perm = 7)
    as [->|[->|[->|[->|[->|[->| ->]]]]]] by lia; done.
Qed.

(** No region of the root domain is one of devices. *)
Lemma root_mmio fw x perm : flags fw = 0 -> 0 < perm < 8 ->
  decision [fw; all_region] x (perm + SBI_DOMAIN_MMIO) = false.
Proof.
  intros Hf Hp. assert (has (perm + SBI_DOMAIN_MMIO) SBI_DOMAIN_MMIO = true) as Hm.
  { assert (perm = 1 \/ perm = 2 \/ perm = 3 \/ perm = 4 \/ perm = 5 \/ perm = 6 \/ perm = 7)
      as [->|[->|[->|[->|[->|[->| ->]]]]]] by lia; done. }
  unfold decision, deciding. simpl. destruct (region_contains fw x).
  - unfold region_allows. by rewrite Hf, Hm.
  - destruct (region_contains all_region x); [|done]. unfold region_allows. by rewrite Hm.
Qed.

(** C7. From initialisation to protection: once [sbi_domain_init] has succeeded and a
    hart has been configured for the root domain, its PMP unit refuses supervisor
    and user mode every access to the firmware and allows every other access, if the
    region of the firmware fits the unit. *)
Theorem firmware_protected hart_invalid sc cold f c s :
  0 <= fw_start sc -> 0 < fw_size sc -> fw_start sc + fw_size sc <= 2 ^ 64 ->
  let fw := sbi_domain_memregion_init (fw_start sc) (fw_size sc) 0 in
  sbi_domain_init hart_invalid sc cold static_domains = Ok (0, s) ->
  3 <= order fw -> pmp_grain + 2 <= order fw -> base fw < 2 ^ (pmp_width + 2) ->
  features_ok f -> 2 <= pmp_count f -> csrs_ok c -> fresh c 0 ->
  exists d c', dom_at s !! root = Some d /\ sbi_hart_pmp_configure f (Some d) c = Ok (0, c') /\
    (forall x mode perm, fw_start sc <= x < fw_start sc + fw_size sc -> x < 2 ^ (pmp_width + 2) ->
       mode <> PRV_M -> 0 < perm < 8 -> pmp_allows c' mode x perm = false) /\
    (forall x mode perm, 0 <= x < 2 ^ (pmp_width + 2) -> region_contains fw x = false ->
       mode <> PRV_M -> 0 < perm < 8 -> pmp_allows c' mode x perm = true).
Proof.
  intros Hs Hz Hr fw Hi H3 Hg Hb Hf Hcnt Hc F. pose proof pmp_width_range. pose proof pmp_width_max.
  destruct (memregion_init_ok (fw_start sc) (fw_size sc) 0 Hs Hz Hr) as (Hok & Hfl & Hlo & Hhi & _).
  fold fw in Hok, Hfl, Hlo, Hhi.
  destruct (init_root hart_invalid sc cold Hs Hz Hr) as (rc & s' & Hi' & _ & I). rewrite Hi in Hi'. simplify_eq.
  destruct (I eq_refl) as (_ & _ & _ & d & Hd & Hreg & Hmem). fold fw in Hreg, Hmem.
  assert (Forall region_fits [fw; all_region]) as Fr.
  { constructor; [by constructor; try done; rewrite Hfl|]. constructor; [apply all_region_fits|done]. }
  destruct (configure_decides f d (root_array fw) [fw; all_region] c) as (c' & E & D); [done..|simpl; lia|done|done|].
  exists d, c'. split; [done|]. split; [done|].
  assert (forall x mode perm, 0 <= x < 2 ^ (pmp_width + 2) -> mode <> PRV_M -> 0 < perm < 8 ->
    pmp_allows c' mode x perm = negb (region_contains fw x)) as A.
  { intros x mode perm Hx Hm Hp. rewrite D by done.
    assert (2 ^ (pmp_width + 2) <= 2 ^ 64) by (apply Z.pow_le_mono_r; lia).
    rewrite (root_decision fw x perm), (root_mmio fw x perm) by (done || lia || apply perm_access; lia).
    by rewrite orb_false_r. }
  split; intros x mode perm Hx H1 Hm Hp; rewrite A by (done || lia).
  - assert (2 ^ (pmp_width + 2) <= 2 ^ 64) by (apply Z.pow_le_mono_r; lia).
    assert (region_contains fw x = true) as -> by (apply region_contains_iff; done || lia). done.
  - by rewrite H1.
Qed.

End Detect.

(** ** Examples

    A unit with [entries] of 16 entries implemented, 54 address bits and regions of
    four bytes or more. A configuration keeps its defined bits, and write permission
    only with read permission. *)
Definition legal_cfg (b : Z) : Z :=
  let b := Z.land b 0x9f in if has b PMP_W && negb (has b PMP_R) then Z.land b 0x9d else b.

Definition legal_check (b : Z) : bool :=
  (legal_cfg (legal_cfg b) =? legal_cfg b) && (0 <=? legal_cfg b) && (legal_cfg b <? 256)
  && (negb (Z.land b 0x60 =? 0) || (has b PMP_W && negb (has b PMP_R)) || (legal_cfg b =? b)).

Lemma legal_checked b : 0 <= b < 256 -> legal_check b = true.
Proof.
  intros Hb. assert (forallb legal_check (seqZ 0 256) = true) as H by by vm_compute.
  rewrite forallb_forall in H. apply H, list_elem_of_In, elem_of_seqZ. lia.
Qed.

Lemma legal_low b : legal_cfg b = legal_cfg (Z.land b 0xff) /\ 0 <= Z.land b 0xff < 256.
Proof.
  split.
  - unfold legal_cfg. by rewrite <- (Z.land_assoc b 0xff 0x9f).
  - change 0xff with (Z.ones 8). rewrite Z.land_ones by lia. apply Z.mod_pos_bound. lia.
Qed.

Program Definition pmp_unit (entries : Z) (H : 0 < entries <= 16) : PmpHw :=
  {| pmp_entries := entries; pmp_width := 54; pmp_grain := 0; pmp_csrs := 16; pmp_legal := legal_cfg |}.
Next Obligation. done. Qed.
Next Obligation. intros. lia. Qed.
Next Obligation. intros. lia. Qed.
Next Obligation. intros. lia. Qed.
Next Obligation.
  intros _ _ b. destruct (legal_low b) as [-> Hb]. pose proof (legal_checked _ Hb) as H.
  unfold legal_check in H. lia.
Qed.
Next Obligation.
  intros _ _ b. destruct (legal_low b) as [-> Hb]. pose proof (legal_checked _ Hb) as H.
  unfold legal_check in H. lia.
Qed.
Next Obligation.
  intros _ _ b Hb H60 Hrw. pose proof (legal_checked _ Hb) as H. unfold legal_check in H.
  rewrite H60 in H. destruct (has b PMP_W); [rewrite Hrw in H by done|]; simpl in H; lia.
Qed.

Definition unit16 : PmpHw := pmp_unit 16 ltac:(lia).
Definition unit8 : PmpHw := pmp_unit 8 ltac:(lia).
Definition reset_csrs : csrs := mk_csrs ∅ ∅ ∅.

Lemma reset_ok (hw : PmpHw) : pmp_legal 0 = 0 -> csrs_ok reset_csrs.
Proof.
  intros H. pose proof pmp_width_range. constructor; intros n Hn; simpl; rewrite ld_empty; [done|].
  split; [lia|apply Z.pow_pos_nonneg; lia].
Qed.

Lemma reset_fresh (hw : PmpHw) : fresh reset_csrs 0.
Proof. intros m _. unfold locked, cfg. simpl. rewrite ld_empty. by case_match. Qed.

(** Eight of the 16 registers belong to no entry, and the detection counts them. *)
Lemma detect_pmp_counts_registers_witness :
  @pmp_entries unit8 = 8 /\ fst (@detect_pmp unit8 reset_csrs) = mk_features 16 54 4.
Proof.
  split; [done|]. apply (@detect_pmp_counts_registers unit8).
  - by apply reset_ok.
  - intros m Hm. by apply (@reset_fresh unit8).
  - simpl. lia.
Defined.

Lemma pmp_set_get_witness : exists c',
  @pmp_set unit16 3 5 0x80000000 18 reset_csrs = Ok (0, c') /\ @pmp_get unit16 3 c' = Ok (0, (0x1d, 0x80000000, 18)).
Proof.
  apply (@pmp_set_get unit16); try done; try (simpl; lia).
  by exists 0x2000.
Defined.

Definition ex_features : hart_features := mk_features 16 54 4.

Lemma ex_regions_fit : Forall (@region_fits unit16) [ex_fw; all_region].
Proof.
  constructor; [|constructor; [apply all_region_fits|done]].
  constructor; try done; try (simpl; lia). by apply (Forall_inv ex_regions_ok).
Qed.

Lemma sbi_hart_pmp_configure_enforces_witness :
  exists c', @sbi_hart_pmp_configure unit16 ex_features (Some ex_root) reset_csrs = Ok (0, c') /\
    exists b b', sbi_domain_check_addr (Some ex_root) 0x80000000 PRV_S PMP_R = Ok b /\
      sbi_domain_check_addr (Some ex_root) 0x80000000 PRV_S (PMP_R + SBI_DOMAIN_MMIO) = Ok b' /\
      @pmp_allows unit16 c' PRV_S 0x80000000 PMP_R = b || b'.
Proof.
  destruct (@sbi_hart_pmp_configure_enforces unit16 ex_features ex_root (root_array ex_fw) [ex_fw; all_region] reset_csrs)
    as (c' & E & D).
  - by split; [simpl; lia|].
  - by vm_compute.
  - by vm_compute.
  - exact ex_regions_fit.
  - simpl. lia.
  - by apply reset_ok.
  - apply reset_fresh.
  - exists c'. split; [done|]. apply D; [simpl; lia|done|unfold PMP_R; lia].
Defined.

(** A unit of 54 address bits, the firmware at 2 GiB. *)
Lemma firmware_protected_witness : exists s d c',
  sbi_domain_init ex_invalid ex_scratch 0 static_domains = Ok (0, s) /\
  dom_at s !! root = Some d /\ @sbi_hart_pmp_configure unit16 ex_features (Some d) reset_csrs = Ok (0, c') /\
  @pmp_allows unit16 c' PRV_S 0x80000010 PMP_R = false /\ @pmp_allows unit16 c' PRV_U 0x80040000 PMP_X = true.
Proof.
  destruct (sbi_domain_init ex_invalid ex_scratch 0 static_domains) as [[rc s]|] eqn:E;
    [|by apply (f_equal root_regions) in E; vm_compute in E].
  assert (rc = 0) as ->.
  { apply (f_equal (fun r => match r with Ok (rc, _) => rc | _ => 1 end)) in E. vm_compute in E. congruence. }
  destruct (@firmware_protected unit16 ex_invalid ex_scratch 0 ex_features reset_csrs s)
    as (d & c' & Hd & Ec & H1 & H2);
    [done|done|by vm_compute|exact E|by vm_compute..|by split; [simpl; lia|]|simpl; lia|by apply reset_ok|apply reset_fresh|].
  exists s, d, c'. split; [reflexivity|]. split; [exact Hd|]. split; [exact Ec|]. split.
  - apply H1; [simpl; lia|simpl; lia|done|unfold PMP_R; lia].
  - apply H2; [simpl; lia|by vm_compute|done|unfold PMP_X; lia].
Defined.
