(* ===== verification/SbiHsm.v ===== *)
(** * Hart states of the firmware

    [src/opensbi/lib/sbi/sbi_hsm.c] with the ecall handler of [sbi_ecall_hsm.c] and
    the warm boot of [sbi_init.c]: software starts, stops and suspends harts, and
    several harts may do so at once. Each access to the state of a hart
    ([hdata->state], a compare-and-exchange or a read) and each write to the next
    stage of another hart is one step of a hart; the checks in front of an access
    are made in the step before it. The other work of the boot path is one step, and
    does not fail.

    The harts begin after the cold boot: the hart that booted is about to enter the
    next stage, the others wait. The domains are those of [SbiDomain]. A platform may
    have a device for harts ([struct sbi_hsm_device], none is in this repository);
    the results of its functions are inputs of the steps, and as documented
    [hart_stop] does not return. *)

From S2P Require Import Prelude SbiFifo SbiTlb SbiDomain SbiDomInv.

Definition SBI_EFAIL : Z := -1.
Definition SBI_EDENIED : Z := -4.
Definition SBI_EINVALID_ADDR : Z := -5.
Definition SBI_HSM_STATE_STOPPED : Z := 1.
Definition SBI_HSM_STATE_START_PENDING : Z := 2.
Definition SBI_HSM_STATE_STOP_PENDING : Z := 3.
Definition SBI_HSM_STATE_RESUME_PENDING : Z := 6.
Definition SBI_HSM_SUSP_NON_RET_BIT : Z := 0x80000000.
Definition SBI_HSM_SUSPEND_RET_DEFAULT : Z := 0.
Definition SBI_HSM_SUSPEND_RET_PLATFORM : Z := 0x10000000.
Definition SBI_HSM_SUSPEND_NON_RET_DEFAULT : Z := 0x80000000.
Definition SBI_HSM_SUSPEND_NON_RET_PLATFORM : Z := 0x90000000.
Definition SBI_EXT_HSM_HART_START : Z := 0.
Definition SBI_EXT_HSM_HART_STOP : Z := 1.
Definition SBI_EXT_HSM_HART_GET_STATUS : Z := 2.
Definition SBI_EXT_HSM_HART_SUSPEND : Z := 3.
Definition MIP_SSIP_STIP : Z := 0x22.

(** The next stage of a hart, in its scratch space. *)
Record stage := mk_stage { st_addr : Z; st_mode : Z; st_arg1 : Z }.

#[export] Instance stage_eq_dec : EqDecision stage.
Proof. solve_decision. Defined.

(** Where a hart is. *)
Inductive pc :=
  | Guest                             (* below the firmware *)
  | StartCas (t : nat) (a : stage)    (* [sbi_hsm_hart_start]: the exchange *)
  | StartCount (t : nat) (a : stage)  (* [sbi_init_count] *)
  | StartArg (t : nat) (a : stage) (n : Z)  (* the writes of the next stage *)
  | StartAddr (t : nat) (a : stage) (n : Z)
  | StartMode (t : nat) (a : stage) (n : Z)
  | StartSend (t : nat) (n : Z)       (* the device or an interrupt *)
  | StopCas                           (* [sbi_hsm_hart_stop] *)
  | ExitCas                           (* [sbi_hsm_exit] *)
  | Off                               (* stopped by the device *)
  | WarmBoot                          (* [init_warmboot]: the read of the state *)
  | WaitStart                         (* [sbi_hsm_hart_wait] *)
  | Startup                           (* the rest of [init_warm_startup] *)
  | NextJump                          (* [sbi_hsm_prepare_next_jump] *)
  | Switch (booted : bool)            (* [sbi_hart_switch_mode] *)
  | SuspendCas (ty : Z)               (* [sbi_hsm_hart_suspend] *)
  | SuspendDo (ty : Z)
  | SuspendRestore (ret : Z)
  | ResumeStart                       (* [sbi_hsm_hart_resume_start] *)
  | ResumeFinish                      (* [sbi_hsm_hart_resume_finish] *)
  | Hung.                             (* [sbi_hart_hang] *)

#[export] Instance pc_eq_dec : EqDecision pc.
Proof. solve_decision. Defined.

(** A hart: [struct sbi_hsm_data], its next stage, interrupt registers, number of
    boots and position. *)
Record hart := mk_hart {
  hstate : Z; suspend_type : Z; saved_mie : Z; saved_mip : Z;
  next : stage; mie : Z; mip : Z; init_count : Z; hpc : pc }.

Definition set_state (v : Z) (x : hart) : hart :=
  mk_hart v (suspend_type x) (saved_mie x) (saved_mip x) (next x) (mie x) (mip x) (init_count x) (hpc x).
Definition set_next (a : stage) (x : hart) : hart :=
  mk_hart (hstate x) (suspend_type x) (saved_mie x) (saved_mip x) a (mie x) (mip x) (init_count x) (hpc x).
Definition set_pc (p : pc) (x : hart) : hart :=
  mk_hart (hstate x) (suspend_type x) (saved_mie x) (saved_mip x) (next x) (mie x) (mip x) (init_count x) p.
Definition count_boot (x : hart) : hart :=
  mk_hart (hstate x) (suspend_type x) (saved_mie x) (saved_mip x) (next x) (mie x) (mip x)
    (u64 (init_count x + 1)) (hpc x).

(** [hdata->suspend_type = ...] and [__sbi_hsm_suspend_non_ret_save] *)
Definition suspend_save (ty : Z) (x : hart) : hart :=
  if has ty SBI_HSM_SUSP_NON_RET_BIT
  then mk_hart (hstate x) ty (mie x) (Z.land (mip x) MIP_SSIP_STIP) (next x) (mie x) (mip x) (init_count x) (hpc x)
  else mk_hart (hstate x) ty (saved_mie x) (saved_mip x) (next x) (mie x) (mip x) (init_count x) (hpc x).
(** [__sbi_hsm_suspend_non_ret_restore]: the other bits of [mip] are read-only. *)
Definition non_ret_restore (x : hart) : hart :=
  mk_hart (hstate x) (suspend_type x) (saved_mie x) (saved_mip x) (next x) (saved_mie x)
    (Z.lor (Z.ldiff (mip x) MIP_SSIP_STIP) (Z.land (saved_mip x) MIP_SSIP_STIP)) (init_count x) (hpc x).
(** The registers after a reset into the warm boot path ([mstatus_init], which
    disables all interrupts; what is pending is not defined). *)
Definition reset_interrupts (pending : Z) (x : hart) : hart :=
  mk_hart (hstate x) (suspend_type x) (saved_mie x) (saved_mip x) (next x) 0 pending (init_count x) (hpc x).

(** What happens: a start takes effect, a hart stops, enters a next stage, resumes, a
    call returns. *)
Inductive event :=
  | EStart (h t : nat) (a : stage)
  | EExit (t : nat)
  | EBoot (t : nat) (a : stage)
  | EResume (t : nat) (a : stage)
  | ERet (h : nat) (err value : Z).

Record state := mk_state { harts : list hart; trace : list event }.

Definition on (h : nat) (f : hart -> hart) (s : state) : state := mk_state (alter f h (harts s)) (trace s).
Definition goto (h : nat) (p : pc) : state -> state := on h (set_pc p).
Definition emit (e : event) (s : state) : state := mk_state (harts s) (e :: trace s).

(** [atomic_cmpxchg(&hdata->state, old, new)] on hart [t], and whether it succeeded. *)
Definition cmpxchg (t : nat) (old new : Z) (s : state) : option (Z * state) :=
  x ← harts s !! t;
  Some (hstate x, if hstate x =? old then on t (set_state new) s else s).

(** The end of [sbi_ecall_hsm_handler]: a result that is not an error is the value. *)
Definition ecall_return (h : nat) (ret : Z) (s : state) : state :=
  emit (if 0 <=? ret then ERet h 0 ret else ERet h ret 0) (goto h Guest s).

Section Machine.

(** The platform: the functions its device has, and the domains. *)
Variables (dev_start dev_stop dev_suspend : bool) (doms : domains).

Definition hsm_device_has_hart_hotplug : bool := dev_start && dev_stop.
Definition hsm_device_has_hart_secondary_boot : bool := dev_start && negb dev_stop.

(** [sbi_domain_thishart_ptr()] *)
Definition thishart_domain (h : nat) : option sbi_domain :=
  p ← hartid_to_domain_table doms !! Z.of_nat h; dom_at doms !! p.

(** An access check that does not return is a refusal; it always returns in a domain
    that has passed the checks. *)
Definition may_execute (d : sbi_domain) (addr mode : Z) : bool :=
  match sbi_domain_check_addr (Some d) addr mode SBI_DOMAIN_EXECUTE with Ok b => b | Fault _ => false end.

(** [sbi_hsm_hart_start], up to the exchange; the hart number is 32 bits wide. *)
Definition sbi_hsm_hart_start (h : nat) (dom : option sbi_domain) (a0 saddr smode priv : Z) (s : state) : state :=
  let hartid := u32 a0 in
  if negb (smode =? PRV_S) && negb (smode =? PRV_U) then ecall_return h SBI_EINVAL s
  else match dom with
       | Some d =>
           if negb (sbi_domain_is_assigned_hart dom hartid) then ecall_return h SBI_EINVAL s
           else if negb (may_execute d saddr smode) then ecall_return h SBI_EINVALID_ADDR s
           else match harts s !! Z.to_nat hartid with
                | None => ecall_return h SBI_EINVAL s
                | Some _ => goto h (StartCas (Z.to_nat hartid) (mk_stage saddr smode priv)) s
                end
       | None => match harts s !! Z.to_nat hartid with
                 | None => ecall_return h SBI_EINVAL s
                 | Some _ => goto h (StartCas (Z.to_nat hartid) (mk_stage saddr smode priv)) s
                 end
       end.

Definition sbi_hsm_hart_get_state (dom : option sbi_domain) (a0 : Z) (s : state) : Z :=
  let hartid := u32 a0 in
  if negb (sbi_domain_is_assigned_hart dom hartid) then SBI_EINVAL
  else match harts s !! Z.to_nat hartid with None => SBI_EINVAL | Some x => hstate x end.

(** [sbi_hsm_hart_suspend], up to the exchange. *)
Definition sbi_hsm_hart_suspend (h : nat) (dom : option sbi_domain) (a0 raddr rmode priv : Z) (s : state) : state :=
  let ty := u32 a0 in
  match dom with
  | None => ecall_return h SBI_EINVAL s
  | Some d =>
      if (SBI_HSM_SUSPEND_RET_DEFAULT <? ty) && (ty <? SBI_HSM_SUSPEND_RET_PLATFORM)
      then ecall_return h SBI_EINVAL s
      else if (SBI_HSM_SUSPEND_NON_RET_DEFAULT <? ty) && (ty <? SBI_HSM_SUSPEND_NON_RET_PLATFORM)
      then ecall_return h SBI_EINVAL s
      else if has ty SBI_HSM_SUSP_NON_RET_BIT && negb (rmode =? PRV_S) && negb (rmode =? PRV_U)
      then ecall_return h SBI_EINVAL s
      else if has ty SBI_HSM_SUSP_NON_RET_BIT && negb (may_execute d raddr rmode)
      then ecall_return h SBI_EINVALID_ADDR s
      else on h (fun x => set_pc (SuspendCas ty) (set_next (mk_stage raddr rmode priv) x)) s
  end.

(** [sbi_ecall_hsm_handler]; [smode] is the mode that the call comes from. *)
Definition sbi_ecall_hsm_handler (h : nat) (funcid a0 a1 a2 smode : Z) (s : state) : state :=
  let dom := thishart_domain h in
  if funcid =? SBI_EXT_HSM_HART_START then sbi_hsm_hart_start h dom a0 a1 smode a2 s
  else if funcid =? SBI_EXT_HSM_HART_STOP then
    match dom with None => ecall_return h SBI_EFAIL s | Some _ => goto h StopCas s end
  else if funcid =? SBI_EXT_HSM_HART_GET_STATUS then
    ecall_return h (sbi_hsm_hart_get_state dom a0 s) s
  else if funcid =? SBI_EXT_HSM_HART_SUSPEND then sbi_hsm_hart_suspend h dom a0 a1 smode a2 s
  else ecall_return h SBI_ENOTSUPP s.

(** What the environment decides: the call that a guest makes, the result of a
    function of the device, what is pending after a reset, that a suspended hart
    comes back through the warm boot. *)
Inductive input :=
  | Call (funcid a0 a1 a2 smode : Z)
  | Go (rc : Z)
  | Reset (pending : Z).

(** The exchange of [sbi_hsm_hart_start]. *)
Definition start_cas (h t : nat) (a : stage) (s : state) : option state :=
  '(old, s1) ← cmpxchg t SBI_HSM_STATE_STOPPED SBI_HSM_STATE_START_PENDING s;
  Some (if old =? SBI_HSM_STATE_STARTED then ecall_return h SBI_EALREADY s1
        else if negb (old =? SBI_HSM_STATE_STOPPED) then ecall_return h SBI_EINVAL s1
        else emit (EStart h t a) (goto h (StartCount t a) s1)).

(** [init_count = sbi_init_count(hartid)], before the writes *)
Definition start_count (h t : nat) (a : stage) (s : state) : option state :=
  y ← harts s !! t; Some (goto h (StartArg t a (init_count y)) s).

(** The end of [sbi_hsm_hart_start]: the device powers a stopped hart up, or an
    interrupt is sent; [n] is the count read before the writes. *)
Definition start_send (h t : nat) (n rc : Z) (s : state) : option state :=
  _ ← harts s !! t;
  if hsm_device_has_hart_hotplug || (hsm_device_has_hart_secondary_boot && (n =? 0))
  then Some (ecall_return h rc (on t (fun y => match hpc y with
                                               | Off => if rc =? 0 then set_pc WarmBoot y else y
                                               | _ => y
                                               end) s))
  else Some (ecall_return h 0 s).

(** A change of the own state that must find the hart in state [old]. *)
Definition own_cas (h : nat) (old new : Z) (p : pc) (s : state) : option state :=
  '(o, s1) ← cmpxchg h old new s;
  Some (if o =? old then goto h p s1 else goto h Hung s1).

(** Its three writes to the next stage of hart [t]. *)
Definition write_arg1 (t : nat) (a : stage) : state -> state :=
  on t (fun y => set_next (mk_stage (st_addr (next y)) (st_mode (next y)) (st_arg1 a)) y).
Definition write_addr (t : nat) (a : stage) : state -> state :=
  on t (fun y => set_next (mk_stage (st_addr a) (st_mode (next y)) (st_arg1 (next y))) y).
Definition write_mode (t : nat) (a : stage) : state -> state :=
  on t (fun y => set_next (mk_stage (st_addr (next y)) (st_mode a) (st_arg1 (next y))) y).

(** The exchange of [sbi_hsm_hart_stop]. *)
Definition sbi_hsm_hart_stop (h : nat) (s : state) : option state :=
  '(o, s1) ← cmpxchg h SBI_HSM_STATE_STARTED SBI_HSM_STATE_STOP_PENDING s;
  Some (if o =? SBI_HSM_STATE_STARTED then goto h ExitCas s1 else ecall_return h SBI_EFAIL s1).

Definition sbi_hsm_exit (h : nat) (s : state) : option state :=
  s1 ← own_cas h SBI_HSM_STATE_STOP_PENDING SBI_HSM_STATE_STOPPED
         (if hsm_device_has_hart_hotplug then Off else WarmBoot) s;
  Some (emit (EExit h) s1).

(** [init_warmboot]: the state decides between resume and startup. *)
Definition init_warmboot (h : nat) (s : state) : state :=
  let st := sbi_hsm_hart_get_state (thishart_domain h) (Z.of_nat h) s in
  goto h (if st <? 0 then Hung else if st =? SBI_HSM_STATE_SUSPENDED then ResumeStart else WaitStart) s.

(** One turn of the loop of [sbi_hsm_hart_wait]. *)
Definition sbi_hsm_hart_wait (h : nat) (x : hart) (s : state) : state :=
  if hstate x =? SBI_HSM_STATE_START_PENDING then goto h Startup s else s.

(** [init_warm_startup] behind [sbi_hsm_init]. *)
Definition init_warm_startup (h : nat) : state -> state :=
  on h (fun y => set_pc NextJump (count_boot y)).

Definition sbi_hsm_prepare_next_jump (h : nat) (s : state) : option state :=
  own_cas h SBI_HSM_STATE_START_PENDING SBI_HSM_STATE_STARTED (Switch true) s.

(** [sbi_hsm_hart_suspend]: the exchange, the suspension and the way back. *)
Definition suspend_cas (h : nat) (ty : Z) (s : state) : option state :=
  '(o, s1) ← cmpxchg h SBI_HSM_STATE_STARTED SBI_HSM_STATE_SUSPENDED s;
  Some (if o =? SBI_HSM_STATE_STARTED then on h (fun y => set_pc (SuspendDo ty) (suspend_save ty y)) s1
        else goto h (SuspendRestore SBI_EDENIED) s1).

Definition suspend_do (h : nat) (ty rc : Z) (s : state) : option state :=
  let ret := if dev_suspend then rc else SBI_ENOTSUPP in
  if ret =? SBI_ENOTSUPP then
    if ty =? SBI_HSM_SUSPEND_RET_DEFAULT then Some (goto h (SuspendRestore 0) s)
    else if ty =? SBI_HSM_SUSPEND_NON_RET_DEFAULT
    then Some (on h (fun y => set_pc WarmBoot (reset_interrupts (mip y) y)) s)
    else Some (goto h (SuspendRestore ret) s)
  else Some (goto h (SuspendRestore ret) s).

Definition suspend_restore (h : nat) (ret : Z) (s : state) : option state :=
  '(o, s1) ← cmpxchg h SBI_HSM_STATE_SUSPENDED SBI_HSM_STATE_STARTED s;
  Some (if o =? SBI_HSM_STATE_SUSPENDED then ecall_return h ret s1 else goto h Hung s1).

Definition sbi_hsm_hart_resume_start (h : nat) (s : state) : option state :=
  own_cas h SBI_HSM_STATE_SUSPENDED SBI_HSM_STATE_RESUME_PENDING ResumeFinish s.

Definition sbi_hsm_hart_resume_finish (h : nat) (s : state) : option state :=
  s1 ← own_cas h SBI_HSM_STATE_RESUME_PENDING SBI_HSM_STATE_STARTED (Switch false) s;
  Some (on h non_ret_restore s1).

(** A step of hart [h]. *)
Definition hsm_step (h : nat) (i : input) (s : state) : option state :=
  x ← harts s !! h;
  match hpc x, i with
  | Guest, Call f a0 a1 a2 m => Some (sbi_ecall_hsm_handler h f a0 a1 a2 m s)
  | StartCas t a, Go _ => start_cas h t a s
  | StartCount t a, Go _ => start_count h t a s
  | StartArg t a n, Go _ => Some (goto h (StartAddr t a n) (write_arg1 t a s))
  | StartAddr t a n, Go _ => Some (goto h (StartMode t a n) (write_addr t a s))
  | StartMode t a n, Go _ => Some (goto h (StartSend t n) (write_mode t a s))
  | StartSend t n, Go rc => start_send h t n rc s
  | StopCas, Go _ => sbi_hsm_hart_stop h s
  | ExitCas, Go _ => sbi_hsm_exit h s
  | WarmBoot, Go _ => Some (init_warmboot h s)
  | WaitStart, Go _ => Some (sbi_hsm_hart_wait h x s)
  | Startup, Go _ => Some (init_warm_startup h s)
  | NextJump, Go _ => sbi_hsm_prepare_next_jump h s
  | Switch b, Go _ =>
      Some (emit (if b then EBoot h (next x) else EResume h (next x)) (goto h Guest s))
  | SuspendCas ty, Go _ => suspend_cas h ty s
  | SuspendDo ty, Go rc => suspend_do h ty rc s
  | SuspendDo ty, Reset pending =>
      if dev_suspend then Some (on h (fun y => set_pc WarmBoot (reset_interrupts pending y)) s) else None
  | SuspendRestore ret, Go _ => suspend_restore h ret s
  | ResumeStart, Go _ => sbi_hsm_hart_resume_start h s
  | ResumeFinish, Go _ => sbi_hsm_hart_resume_finish h s
  | _, _ => None
  end.

Inductive hstep : state -> state -> Prop :=
  | hstep_intro h i s s' : hsm_step h i s = Some s' -> hstep s s'.

(** The state after the cold boot ([sbi_hsm_init] with [cold_boot]): hart [cold] is
    about to enter its next stage, the others are stopped. *)
Definition hsm_init (cold : nat) (ns : list stage) : state :=
  mk_state (imap (fun h a => if decide (h = cold)
                             then mk_hart SBI_HSM_STATE_START_PENDING 0 0 0 a 0 0 1 NextJump
                             else mk_hart SBI_HSM_STATE_STOPPED 0 0 0 a 0 0 0 WarmBoot) ns) [].

End Machine.

(** ** Reachable states *)
(** The parts of a step. *)
Ltac unfold_step_in H :=
  unfold hsm_step, write_arg1, write_addr, write_mode, sbi_hsm_hart_stop, sbi_hsm_exit, init_warmboot, sbi_hsm_hart_wait,
    init_warm_startup, sbi_hsm_prepare_next_jump, suspend_cas, suspend_do, suspend_restore, sbi_hsm_hart_resume_start,
    sbi_hsm_hart_resume_finish in H.

Lemma on_lookup h f s q y : harts (on h f s) !! q = Some y ->
  exists x, harts s !! q = Some x /\ y = if decide (h = q) then f x else x.
Proof.
  unfold on. simpl. rewrite list_lookup_alter. case_decide; subst.
  - intros (x & ? & ?)%fmap_Some_1. eauto.
  - eauto.
Qed.

(** The state of a hart that is at a given place. *)
Definition state_at (p : pc) (v : Z) : Prop :=
  match p with
  | Guest | StartCas _ _ | StartCount _ _ | StartArg _ _ _ | StartAddr _ _ _ | StartMode _ _ _ | StartSend _ _
  | StopCas | Switch _ | SuspendCas _ => v = SBI_HSM_STATE_STARTED
  | ExitCas => v = SBI_HSM_STATE_STOP_PENDING
  | Off | WaitStart => v = SBI_HSM_STATE_STOPPED \/ v = SBI_HSM_STATE_START_PENDING
  | WarmBoot => v = SBI_HSM_STATE_STOPPED \/ v = SBI_HSM_STATE_START_PENDING \/ v = SBI_HSM_STATE_SUSPENDED
  | Startup | NextJump => v = SBI_HSM_STATE_START_PENDING
  | SuspendDo _ | SuspendRestore _ | ResumeStart => v = SBI_HSM_STATE_SUSPENDED
  | ResumeFinish => v = SBI_HSM_STATE_RESUME_PENDING
  | Hung => False
  end.

(** Whether hart [t] has been started since it last stopped; hart [cold] is up from
    the beginning. *)
Fixpoint up (cold : nat) (tr : list event) (t : nat) : bool :=
  match tr with
  | [] => bool_decide (t = cold)
  | EStart _ t' _ :: tr' => if decide (t' = t) then true else up cold tr' t
  | EExit t' :: tr' => if decide (t' = t) then false else up cold tr' t
  | _ :: tr' => up cold tr' t
  end.

(** A hart is started only when it is down, and stops only when it is up. *)
Fixpoint alternates (cold : nat) (tr : list event) : Prop :=
  match tr with
  | [] => True
  | EStart _ t _ :: tr' => up cold tr' t = false /\ alternates cold tr'
  | EExit t :: tr' => up cold tr' t = true /\ alternates cold tr'
  | _ :: tr' => alternates cold tr'
  end.

Section Invariant.
Context (dev_start dev_stop dev_suspend : bool) (doms : domains) (cold : nat).
Abbreviation step := (hsm_step dev_start dev_stop dev_suspend doms).

(** Every hart belongs to its own domain. *)
Definition harts_owned (n : nat) : Prop :=
  (n <= 128)%nat /\ forall h, (h < n)%nat ->
    sbi_domain_is_assigned_hart (thishart_domain doms h) (Z.of_nat h) = true.

Record hsm_inv (s : state) : Prop := {
  hsm_at : forall q x, harts s !! q = Some x -> state_at (hpc x) (hstate x) /\
    (hstate x = SBI_HSM_STATE_STOPPED <-> up cold (trace s) q = false);
  hsm_alternates : alternates cold (trace s) }.

Lemma owned_state n h s x : harts_owned n -> length (harts s) = n -> harts s !! h = Some x ->
  sbi_hsm_hart_get_state (thishart_domain doms h) (Z.of_nat h) s = hstate x.
Proof.
  intros [Hn Ho] Hl Hx. apply lookup_lt_Some in Hx as Hlt. unfold sbi_hsm_hart_get_state.
  rewrite wrap_small by lia. rewrite Ho by lia. simpl. by rewrite Nat2Z.id, Hx.
Qed.

(** Steps that only move hart [h], with its state as it was or moved with it. *)
Lemma inv_local s h f tr : hsm_inv s ->
  (forall t, up cold tr t = up cold (trace s) t) -> alternates cold tr ->
  (forall x, harts s !! h = Some x -> state_at (hpc (f x)) (hstate (f x)) /\
     (hstate (f x) = SBI_HSM_STATE_STOPPED <-> hstate x = SBI_HSM_STATE_STOPPED)) ->
  hsm_inv (mk_state (harts (on h f s)) tr).
Proof.
  intros [Ha Hal] Hup Htr Hf. constructor; [|done]. intros q y Hy. cbn [harts] in Hy.
  apply on_lookup in Hy as (x & Hx & ->).
  cbn [trace]. rewrite Hup. destruct (Ha q x Hx) as [H1 H2]. case_decide as E; [|done]. subst q.
  destruct (Hf x Hx) as [F1 F2]. split; [done|]. by rewrite F2.
Qed.

Lemma on_on h f g s : on h f (on h g s) = on h (fun x => f (g x)) s.
Proof.
  unfold on. simpl. f_equal. apply list_eq. intros q. rewrite !list_lookup_alter.
  case_decide; subst; [|done]. rewrite decide_True by done. by destruct (harts s !! q).
Qed.

(** A result of a call does not start or stop a hart. *)
Definition quiet (e : event) : Prop :=
  match e with EStart _ _ _ | EExit _ => False | _ => True end.

Lemma quiet_up e tr t : quiet e -> up cold (e :: tr) t = up cold tr t.
Proof. by destruct e. Qed.
Lemma quiet_alternates e tr : quiet e -> alternates cold tr -> alternates cold (e :: tr).
Proof. by destruct e. Qed.

(** The move of one hart, without or with an event. *)
Definition keeps_stopped (f : hart -> hart) (x : hart) : Prop :=
  state_at (hpc (f x)) (hstate (f x)) /\
  (hstate (f x) = SBI_HSM_STATE_STOPPED <-> hstate x = SBI_HSM_STATE_STOPPED).

Lemma inv_on h f s : hsm_inv s -> (forall x, harts s !! h = Some x -> keeps_stopped f x) -> hsm_inv (on h f s).
Proof. intros I Hf. exact (inv_local s h f (trace s) I (fun _ => eq_refl) (hsm_alternates s I) Hf). Qed.

Lemma inv_emit e s : quiet e -> hsm_inv s -> hsm_inv (emit e s).
Proof.
  intros Hq [Ha Hal]. constructor; [|by apply quiet_alternates]. intros q x Hx. simpl trace.
  rewrite quiet_up by done. by apply Ha.
Qed.

Lemma inv_return h ret s x : hsm_inv s -> harts s !! h = Some x -> hstate x = SBI_HSM_STATE_STARTED ->
  hsm_inv (ecall_return h ret s).
Proof.
  intros I Hx Hs. unfold ecall_return. apply inv_emit; [by case_match|]. apply inv_on; [done|].
  intros y Hy. simplify_eq. split; simpl; [done|]. by rewrite Hs.
Qed.

(** The writes of a start call to another hart, and its power-up. *)
Lemma inv_other h f s : hsm_inv s ->
  (forall x, harts s !! h = Some x -> hstate (f x) = hstate x /\
     (hpc (f x) = hpc x \/ (hpc x = Off /\ hpc (f x) = WarmBoot))) -> hsm_inv (on h f s).
Proof.
  intros I Hf. apply inv_on; [done|]. intros x Hx. destruct (Hf x Hx) as [E1 E2]. unfold keeps_stopped. rewrite E1.
  split; [|done]. destruct (hsm_at s I h x Hx) as [A _]. destruct E2 as [->|[E3 ->]]; [done|].
  rewrite E3 in A. simpl in *. tauto.
Qed.

(** A change of the own state that finds what it expects. *)
Lemma inv_own_cas h old new p s s' x : hsm_inv s -> harts s !! h = Some x -> hstate x = old ->
  state_at p new -> (new = SBI_HSM_STATE_STOPPED <-> old = SBI_HSM_STATE_STOPPED) ->
  own_cas h old new p s = Some s' -> hsm_inv s' /\ s' = on h (fun x => set_pc p (set_state new x)) s.
Proof.
  intros I Hx Hs Hp Hst E. unfold own_cas, cmpxchg in E. rewrite Hx in E. simpl in E.
  rewrite Hs, Z.eqb_refl in E. simplify_eq. unfold goto. rewrite on_on. split; [|done].
  apply inv_on; [done|]. intros y Hy. simplify_eq. by split.
Qed.

Lemma handler_inv h f a0 a1 a2 m s x : hsm_inv s -> harts s !! h = Some x -> hpc x = Guest ->
  hsm_inv (sbi_ecall_hsm_handler doms h f a0 a1 a2 m s).
Proof.
  intros I Hx Hp. destruct (hsm_at s I h x Hx) as [Hs _]. rewrite Hp in Hs. simpl in Hs.
  assert (forall ret, hsm_inv (ecall_return h ret s)) as R by (intros; by eapply inv_return).
  assert (forall p, state_at p SBI_HSM_STATE_STARTED -> hsm_inv (goto h p s)) as G.
  { intros p Hp'. apply inv_on; [done|]. intros y Hy. simplify_eq. split; simpl; by rewrite Hs. }
  unfold sbi_ecall_hsm_handler, sbi_hsm_hart_start, sbi_hsm_hart_suspend.
  repeat (case_match; try apply R; try (by apply G)).
  apply inv_on; [done|]. intros y Hy. simplify_eq. split; simpl; by rewrite Hs.
Qed.

Lemma start_cas_inv h t a s s' x : hsm_inv s -> harts s !! h = Some x -> hpc x = StartCas t a ->
  start_cas h t a s = Some s' -> hsm_inv s'.
Proof.
  intros I Hx Hp E. destruct (hsm_at s I h x Hx) as [Hs _]. rewrite Hp in Hs. simpl in Hs.
  unfold start_cas, cmpxchg in E. destruct (harts s !! t) as [y|] eqn:Hy; [|done]. simpl in E.
  destruct (Z.eqb_spec (hstate y) SBI_HSM_STATE_STOPPED) as [Et|Et]; simpl in E; simplify_eq.
  - destruct (Z.eqb_spec (hstate y) SBI_HSM_STATE_STARTED) as [E2|_]; [by rewrite Et in E2|].
    assert (h <> t) by (intros ->; simplify_eq; rewrite Hs in Et; done).
    destruct I as [Ha Hal]. constructor.
    + intros q z Hz. simpl trace. apply on_lookup in Hz as (z1 & Hz1 & ->). apply on_lookup in Hz1 as (z2 & Hz2 & ->).
      destruct (Ha q z2 Hz2) as [A1 A2]. simpl.
      destruct (decide (t = q)) as [->|Ht].
      * destruct (decide (h = q)); [done|]. simplify_eq. simpl. split; [|done].
        rewrite Et in A1. destruct (hpc y); simpl in *; done || tauto.
      * destruct (decide (h = q)) as [->|]; [|done]. simplify_eq. done.
    + simpl. split; [|done]. by apply (Ha t y Hy).
  - destruct (Z.eqb_spec (hstate y) SBI_HSM_STATE_STARTED); by eapply inv_return.
Qed.

(** A stop of hart [h]. *)
Lemma exit_inv h p s s' x : hsm_inv s -> harts s !! h = Some x -> hpc x = ExitCas ->
  (p = Off \/ p = WarmBoot) ->
  own_cas h SBI_HSM_STATE_STOP_PENDING SBI_HSM_STATE_STOPPED p s = Some s' -> hsm_inv (emit (EExit h) s').
Proof.
  intros [Ha Hal] Hx Hp Hq E. destruct (Ha h x Hx) as [Hs Hd]. rewrite Hp in Hs. simpl in Hs.
  unfold own_cas, cmpxchg in E. rewrite Hx in E. simpl in E. rewrite Hs in E. simpl in E. simplify_eq.
  unfold goto. rewrite on_on. constructor.
  - intros q z Hz. apply on_lookup in Hz as (z1 & Hz1 & ->). destruct (Ha q z1 Hz1) as [A1 A2]. simpl.
    destruct (decide (h = q)) as [->|]; [|done]. split; [|done]. destruct Hq as [->| ->]; simpl; tauto.
  - simpl. split; [|done]. apply not_false_is_true. intros F%Hd. by rewrite Hs in F.
Qed.

Lemma inv_goto h p s : hsm_inv s -> (forall x, harts s !! h = Some x -> state_at p (hstate x)) ->
  hsm_inv (goto h p s).
Proof. intros I Hp. apply inv_on; [done|]. intros x Hx. split; simpl; auto. Qed.

Lemma inv_write h t p f s x : hsm_inv s -> harts s !! h = Some x -> state_at p (hstate x) ->
  (forall y, hstate (f y) = hstate y /\ (hpc (f y) = hpc y \/ (hpc y = Off /\ hpc (f y) = WarmBoot))) ->
  hsm_inv (goto h p (on t f s)).
Proof.
  intros I Hx Hp Hf. apply inv_goto; [by apply inv_other|]. intros y Hy.
  apply on_lookup in Hy as (z & Hz & ->). simplify_eq. case_decide; [|done]. by destruct (Hf x) as [-> _].
Qed.

Lemma suspend_save_state ty x : hstate (suspend_save ty x) = hstate x.
Proof. unfold suspend_save. by case_match. Qed.

Lemma step_inv n h i s s' : harts_owned n -> length (harts s) = n -> hsm_inv s -> step h i s = Some s' -> hsm_inv s'.
Proof.
  intros Ho Hl I E. unfold_step_in E. destruct (harts s !! h) as [x|] eqn:Hx; [|done]. simpl in E.
  destruct (hsm_at s I h x Hx) as [Hs Hd].
  assert (forall p, state_at p (hstate x) -> hsm_inv (goto h p s)) as G.
  { intros p Hp. apply inv_goto; [done|]. intros y Hy. by simplify_eq. }
  destruct (hpc x) eqn:Hp, i; try done; simpl in Hs.
  - simplify_eq. by eapply handler_inv.
  - by eapply start_cas_inv.
  - unfold start_count in E. destruct (harts s !! t) as [y|]; [|done]. simpl in E. simplify_eq. by apply G.
  - simplify_eq. by eapply inv_write; [..|intros; split; [|left]].
  - simplify_eq. by eapply inv_write; [..|intros; split; [|left]].
  - simplify_eq. by eapply inv_write; [..|intros; split; [|left]].
  - unfold start_send in E. destruct (harts s !! t) as [y|]; [|done]. simpl in E.
    case_match; simplify_eq; [|by eapply inv_return]. unfold ecall_return. apply inv_emit; [by case_match|].
    eapply inv_write; [done..|]. intros z. destruct (hpc z) eqn:Ez; try (by auto). case_match; simpl; auto.
  - unfold cmpxchg in E. rewrite Hx in E. simpl in E. rewrite Hs in E. simpl in E. simplify_eq.
    unfold goto. rewrite on_on. apply inv_on; [done|]. intros y Hy. simplify_eq. split; simpl; [done|]. by rewrite Hs.
  - destruct (own_cas _ _ _ _ _) as [s1|] eqn:Ec; simpl in E; simplify_eq. eapply exit_inv; [done..| |exact Ec].
    case_match; auto.
  - rewrite (owned_state n h s x) in E by done. simplify_eq. apply G.
    destruct Hs as [Hs|[Hs|Hs]]; rewrite Hs; simpl; auto.
  - case_match eqn:Est; simplify_eq; [|done]. apply G. simpl. lia.
  - simplify_eq. apply inv_on; [done|]. intros y Hy. simplify_eq. by split; simpl.
  - eapply inv_own_cas in E as [E _]; [done..|split; discriminate].
  - simplify_eq. apply inv_emit; [by case_match|]. by apply G.
  - unfold cmpxchg in E. rewrite Hx in E. simpl in E. rewrite Hs in E. simpl in E. simplify_eq.
    rewrite on_on. apply inv_on; [done|]. intros y Hy. simplify_eq. unfold keeps_stopped. simpl.
    rewrite suspend_save_state. simpl. rewrite Hs. split; [done|split; discriminate].
  - destruct dev_suspend; repeat case_match; simplify_eq; try (by apply G);
      (apply inv_on; [done|]; intros y Hy; simplify_eq; split; simpl; [by right; right|done]).
  - destruct dev_suspend; simplify_eq. apply inv_on; [done|]. intros y Hy. simplify_eq. split; simpl; [by right; right|done].
  - unfold cmpxchg in E. rewrite Hx in E. simpl in E. rewrite Hs in E. simpl in E. simplify_eq.
    unfold ecall_return, goto. apply inv_emit; [by case_match|]. rewrite on_on. apply inv_on; [done|].
    intros y Hy. simplify_eq. split; simpl; [done|]. rewrite Hs. split; discriminate.
  - eapply inv_own_cas in E as [E _]; [done..|split; discriminate].
  - destruct (own_cas _ _ _ _ _) as [s1|] eqn:Ec; simpl in E; simplify_eq.
    eapply inv_own_cas in Ec as [Ec ->]; [|done..|split; discriminate].
    apply inv_on; [done|]. intros y Hy. apply on_lookup in Hy as (z & Hz & ->). simplify_eq.
    rewrite decide_True by done. by split.
Qed.

Lemma len_on h f s : length (harts (on h f s)) = length (harts s).
Proof. apply length_alter. Qed.
Lemma len_return h r s : length (harts (ecall_return h r s)) = length (harts s).
Proof. apply length_alter. Qed.
Lemma len_own_cas h old new p s s' : own_cas h old new p s = Some s' -> length (harts s') = length (harts s).
Proof.
  unfold own_cas, cmpxchg. destruct (harts s !! h); simpl; [|done]. intros. simplify_eq.
  repeat case_match; unfold goto; by rewrite !len_on.
Qed.
Lemma len_handler h f a0 a1 a2 m s :
  length (harts (sbi_ecall_hsm_handler doms h f a0 a1 a2 m s)) = length (harts s).
Proof.
  unfold sbi_ecall_hsm_handler, sbi_hsm_hart_start, sbi_hsm_hart_suspend.
  repeat case_match; unfold goto; by rewrite ?len_return, ?len_on.
Qed.

Lemma len_cmpxchg t old new s o s' : cmpxchg t old new s = Some (o, s') -> length (harts s') = length (harts s).
Proof.
  unfold cmpxchg. destruct (harts s !! t); simpl; [|done]. intros. simplify_eq. case_match; by rewrite ?len_on.
Qed.
Lemma len_start_send h t n rc s s' : start_send dev_start dev_stop h t n rc s = Some s' ->
  length (harts s') = length (harts s).
Proof.
  unfold start_send. destruct (harts s !! t); simpl; [|done]. case_match; intros; simplify_eq; by rewrite len_return, ?len_on.
Qed.

Lemma hsm_step_length h i s s' : step h i s = Some s' -> length (harts s') = length (harts s).
Proof.
  intros E. unfold_step_in E. unfold start_cas, start_count, goto in E.
  destruct (harts s !! h) as [x|] eqn:Hx; simpl in E; [|done].
  destruct (hpc x); destruct i; try done; try (by eapply len_start_send);
    try (destruct (harts s !! t); simpl in E; [|done]);
    try (destruct (cmpxchg _ _ _ _) as [[o s1]|] eqn:Ec; simpl in E; [apply len_cmpxchg in Ec|done]);
    try (destruct (own_cas _ _ _ _ _) eqn:Ec; simpl in E; [apply len_own_cas in Ec|done]);
    simplify_eq; rewrite ?len_handler; repeat (case_match; simplify_eq);
    cbn [emit harts]; unfold goto; rewrite ?len_return, ?len_on, ?len_on; done.
Qed.

(** The states of any sequence of steps. *)
Inductive reachable (ns : list stage) : state -> Prop :=
  | reach_init : reachable ns (hsm_init cold ns)
  | reach_step s s' : reachable ns s -> hstep dev_start dev_stop dev_suspend doms s s' -> reachable ns s'.

Lemma hsm_init_inv ns : hsm_inv (hsm_init cold ns).
Proof.
  constructor; [|done]. intros q x Hx. simpl in *. rewrite list_lookup_imap in Hx.
  apply fmap_Some_1 in Hx as (a & _ & ->). case_decide; simpl.
  - split; [done|]. rewrite bool_decide_eq_true_2 by done. split; discriminate.
  - split; [by left|]. rewrite bool_decide_eq_false_2 by done. done.
Qed.

Lemma hsm_reachable_inv ns s : harts_owned (length ns) -> reachable ns s ->
  hsm_inv s /\ length (harts s) = length ns.
Proof.
  intros Ho. induction 1 as [|s s' _ [I L] Hs].
  - split; [apply hsm_init_inv|]. simpl. apply length_imap.
  - inversion Hs as [h i s1 s2 E]; subst. split; [by eapply step_inv|]. by rewrite (hsm_step_length _ _ _ _ E).
Qed.
End Invariant.

(** ** The state of a hart *)

(** C8. Whatever calls the harts make and however their steps interleave, the state of
    every hart is the one that its place in the firmware expects: no hart reaches
    [sbi_hart_hang], a hart below the firmware is started, and the state is
    [STOPPED] exactly when the hart has stopped, or was never started, since the
    last call that started it. A hart is started only when it is stopped: two
    starts of a hart have a stop of it between them. *)
Theorem hsm_state_matches_place dev_start dev_stop dev_suspend doms cold ns s :
  harts_owned doms (length ns) -> reachable dev_start dev_stop dev_suspend doms cold ns s ->
  alternates cold (trace s) /\
  forall h x, harts s !! h = Some x ->
    hpc x <> Hung /\ state_at (hpc x) (hstate x) /\
    (hpc x = Guest -> hstate x = SBI_HSM_STATE_STARTED) /\
    (hstate x = SBI_HSM_STATE_STOPPED <-> up cold (trace s) h = false).
Proof.
  intros Ho Hr. destruct (hsm_reachable_inv _ _ _ _ _ _ _ Ho Hr) as [[Ha Hal] _]. split; [done|].
  intros h x Hx. destruct (Ha h x Hx) as [H1 H2]. split; [|split; [done|split; [|done]]].
  - intros E. by rewrite E in H1.
  - intros E. by rewrite E in H1.
Qed.

(** ** Executions *)
Fixpoint run dev_start dev_stop dev_suspend doms (l : list (nat * input)) (s : state) : option state :=
  match l with
  | [] => Some s
  | (h, i) :: l' => s' ← hsm_step dev_start dev_stop dev_suspend doms h i s;
                    run dev_start dev_stop dev_suspend doms l' s'
  end.

Lemma run_reachable dev_start dev_stop dev_suspend doms cold ns l s s' :
  reachable dev_start dev_stop dev_suspend doms cold ns s ->
  run dev_start dev_stop dev_suspend doms l s = Some s' ->
  reachable dev_start dev_stop dev_suspend doms cold ns s'.
Proof.
  revert s. induction l as [|[h i] l IH]; simpl; intros s Hr E; [by simplify_eq|].
  destruct (hsm_step _ _ _ _ h i s) as [s1|] eqn:E1; [|done]. simpl in E.
  eapply IH; [|exact E]. eapply reach_step; [exact Hr|]. by econstructor.
Qed.

(** *** A concrete platform: four harts in the root domain, no device for harts *)
Definition ex_doms : domains :=
  match sbi_domain_init ex_invalid ex_scratch 0 static_domains with Ok (_, s) => s | Fault _ => static_domains end.
Definition ex_stage : stage := mk_stage 0x80200000 PRV_S 0x82200000.
Definition ex_stages : list stage := repeat ex_stage 4.
Definition ex_go (h : nat) : nat * input := (h, Go 0).
Definition ex_start (h : nat) (t addr priv : Z) : nat * input :=
  (h, Call SBI_EXT_HSM_HART_START t addr priv PRV_S).
Definition ex_run (l : list (nat * input)) : option state :=
  run false false false ex_doms l (hsm_init 0 ex_stages).

Lemma ex_owned : harts_owned ex_doms (length ex_stages).
Proof.
  split; [simpl; lia|]. intros h Hh. simpl in Hh.
  destruct h as [|[|[|[|]]]]; [by vm_compute..|lia].
Qed.

(** Hart 0 boots and starts hart 1, which boots and stops; a second call starts it
    again. *)
Definition ex_restart : list (nat * input) :=
  [ex_go 0; ex_go 0; ex_start 0 1 0x80400000 7; ex_go 0; ex_go 0; ex_go 0; ex_go 0; ex_go 0; ex_go 0;
   ex_go 1; ex_go 1; ex_go 1; ex_go 1; ex_go 1; (1%nat, Call SBI_EXT_HSM_HART_STOP 0 0 0 PRV_S); ex_go 1; ex_go 1;
   ex_start 0 1 0x80600000 8; ex_go 0].

Lemma hsm_state_matches_place_witness : exists s, ex_run ex_restart = Some s /\ alternates 0 (trace s) /\
  trace s = [EStart 0 1 (mk_stage 0x80600000 PRV_S 8); EExit 1; EBoot 1 (mk_stage 0x80400000 PRV_S 7);
             ERet 0 0 0; EStart 0 1 (mk_stage 0x80400000 PRV_S 7); EBoot 0 ex_stage].
Proof.
  destruct (ex_run ex_restart) as [s|] eqn:E; [|by vm_compute in E]. exists s. split; [done|]. split.
  - apply (hsm_state_matches_place false false false ex_doms 0 ex_stages s).
    + exact ex_owned.
    + eapply run_reachable; [apply reach_init|exact E].
  - vm_compute in E. by simplify_eq.
Defined.

(** ** The start race *)

(** [sbi_hsm_hart_start] moves the hart to [START_PENDING] before it writes the next
    stage. A hart that already polls its state in [sbi_hsm_hart_wait] can leave the
    loop at once and enter the stage that was left from its last start; the hart
    number of the call is also cut to 32 bits. *)
Theorem start_race : exists s,
  ex_run [ex_go 0; ex_go 0; ex_go 1; ex_start 0 0x100000001 0x80400000 7; ex_go 0;
          ex_go 1; ex_go 1; ex_go 1; ex_go 1; ex_go 0; ex_go 0; ex_go 0; ex_go 0; ex_go 0] = Some s /\
  trace s = [ERet 0 0 0; EBoot 1 ex_stage; EStart 0 1 (mk_stage 0x80400000 PRV_S 7); EBoot 0 ex_stage].
Proof. eexists. split; vm_compute; reflexivity. Qed.

(** A stopped hart that the device fails to power up is left in [START_PENDING]: the
    call that tries again is refused as invalid. *)
Theorem start_failure_sticks : exists s,
  run true true false ex_doms
    ([ex_go 0; ex_go 0; ex_start 0 1 0x80400000 7; ex_go 0; ex_go 0; ex_go 0; ex_go 0; ex_go 0; ex_go 0;
      ex_go 1; ex_go 1; ex_go 1; ex_go 1; ex_go 1; (1%nat, Call SBI_EXT_HSM_HART_STOP 0 0 0 PRV_S); ex_go 1; ex_go 1] ++
     [ex_start 0 1 0x80600000 8; ex_go 0; ex_go 0; ex_go 0; ex_go 0; ex_go 0; (0%nat, Go SBI_EFAIL);
      ex_start 0 1 0x80600000 8; ex_go 0]) (hsm_init 0 ex_stages) = Some s /\
  take 4 (trace s) = [ERet 0 SBI_EINVAL 0; ERet 0 SBI_EFAIL 0; EStart 0 1 (mk_stage 0x80600000 PRV_S 8); EExit 1] /\
  fmap (fun x => (hstate x, hpc x)) (harts s !! 1%nat) = Some (SBI_HSM_STATE_START_PENDING, Off).
Proof. eexists. split_and!; vm_compute; reflexivity. Qed.
