(* ===== verification/SbiStart.v ===== *)
(** * A started hart enters the stage it was started for

    The start race of [SbiHsm] is the only way for a hart to enter another stage: on
    every execution in which a hart stays in [sbi_hsm_hart_wait] while a start call
    still writes its next stage, the hart enters the stage of the call that started
    it. *)

From S2P Require Import Prelude SbiFifo SbiTlb SbiDomain SbiDomInv SbiHsm.

(** The hart and stage that a start call still writes. *)
Definition writing (p : pc) : option (nat * stage) :=
  match p with StartCount t a | StartArg t a _ | StartAddr t a _ | StartMode t a _ => Some (t, a) | _ => None end.

(** What it has written. *)
Definition written (p : pc) (n : stage) : Prop :=
  match p with
  | StartAddr _ a _ => st_arg1 n = st_arg1 a
  | StartMode _ a _ => st_arg1 n = st_arg1 a /\ st_addr n = st_addr a
  | _ => True
  end.

(** The stage of the last call that started hart [t]; hart [cold] enters its first one. *)
Fixpoint last_start (cold : nat) (ns : list stage) (tr : list event) (t : nat) : option stage :=
  match tr with
  | [] => if decide (t = cold) then ns !! t else None
  | EStart _ t' a :: tr' => if decide (t' = t) then Some a else last_start cold ns tr' t
  | _ :: tr' => last_start cold ns tr' t
  end.

(** Every hart that entered a stage entered the one it was started for. *)
Fixpoint boots_as_started (cold : nat) (ns : list stage) (tr : list event) : Prop :=
  match tr with
  | [] => True
  | EBoot t a :: tr' => last_start cold ns tr' t = Some a /\ boots_as_started cold ns tr'
  | _ :: tr' => boots_as_started cold ns tr'
  end.

(** A hart that is told to start, up to its jump, and one that has not noticed it. *)
Definition awaiting (y : hart) : Prop := hstate y = SBI_HSM_STATE_START_PENDING \/ hpc y = Switch true.
Definition waiting (y : hart) : Prop :=
  hstate y = SBI_HSM_STATE_START_PENDING /\ (hpc y = Off \/ hpc y = WarmBoot \/ hpc y = WaitStart).

Definition writes_to (s : state) (t : nat) : Prop :=
  exists h x a, harts s !! h = Some x /\ writing (hpc x) = Some (t, a).

Section Timely.
Context (dev_start dev_stop dev_suspend : bool) (doms : domains) (cold : nat) (ns : list stage).
Abbreviation step := (hsm_step dev_start dev_stop dev_suspend doms).

(** A hart leaves its wait loop only when no start call writes its next stage. *)
Inductive timely : state -> Prop :=
  | timely_init : timely (hsm_init cold ns)
  | timely_step h i s s' : timely s -> step h i s = Some s' ->
      (forall x, harts s !! h = Some x -> hpc x = WaitStart -> ~ writes_to s h) -> timely s'.

Lemma timely_reachable s : timely s -> reachable dev_start dev_stop dev_suspend doms cold ns s.
Proof. induction 1; [constructor|]. econstructor; [done|]. by econstructor. Qed.

Record start_inv (s : state) : Prop := {
  si_writer : forall h x t a, harts s !! h = Some x -> writing (hpc x) = Some (t, a) ->
    exists y, harts s !! t = Some y /\ waiting y /\ last_start cold ns (trace s) t = Some a /\
      written (hpc x) (next y);
  si_unique : forall h x h' x' t a a', harts s !! h = Some x -> writing (hpc x) = Some (t, a) ->
    harts s !! h' = Some x' -> writing (hpc x') = Some (t, a') -> h = h';
  si_next : forall t y, harts s !! t = Some y -> awaiting y ->
    writes_to s t \/ last_start cold ns (trace s) t = Some (next y);
  si_boots : boots_as_started cold ns (trace s) }.

Lemma on_ne h f s q : h <> q -> harts (on h f s) !! q = harts s !! q.
Proof. intros. unfold on. simpl. by rewrite list_lookup_alter_ne. Qed.
Lemma on_eq h f s x : harts s !! h = Some x -> harts (on h f s) !! h = Some (f x).
Proof. intros E. unfold on. simpl. by rewrite list_lookup_alter_eq, E. Qed.

(** A hart that writes no stage, before and after its step. *)
Lemma start_own h f s x : start_inv s -> harts s !! h = Some x ->
  writing (hpc x) = None -> writing (hpc (f x)) = None ->
  (awaiting (f x) -> awaiting x /\ next (f x) = next x) ->
  (waiting x -> writes_to s h -> waiting (f x) /\ next (f x) = next x) ->
  start_inv (on h f s).
Proof.
  intros I Hx W1 W2 Ha Hw.
  assert (forall q z t a, harts (on h f s) !! q = Some z -> writing (hpc z) = Some (t, a) ->
    harts s !! q = Some z) as Hold.
  { intros q z t a Hz Hwr. destruct (decide (h = q)) as [<-|Hq]; [|by rewrite on_ne in Hz].
    rewrite (on_eq h f s x Hx) in Hz. congruence. }
  assert (forall t, writes_to s t -> writes_to (on h f s) t) as Hto.
  { intros t (q & z & a & Hz & Hwr). exists q, z, a. split; [|done]. rewrite on_ne; [done|].
    intros <-. congruence. }
  constructor.
  - intros q z t a Hz Hwr. pose proof (Hold _ _ _ _ Hz Hwr) as Hz'.
    destruct (si_writer s I q z t a Hz' Hwr) as (y & Hy & Hwt & Hl & Hn).
    destruct (decide (h = t)) as [<-|Ht].
    + rewrite (on_eq h f s x Hx). simplify_eq. destruct Hw as [Hw1 Hw2]; [done|by exists q, z, a|].
      exists (f x). rewrite Hw2. done.
    + exists y. by rewrite on_ne.
  - intros q z q' z' t a a' H1 H2 H3 H4. eapply (si_unique s I); [by eapply Hold|exact H2|by eapply Hold|done].
  - intros t y Hy Hat. destruct (decide (h = t)) as [<-|Ht].
    + rewrite (on_eq h f s x Hx) in Hy. simplify_eq. destruct (Ha Hat) as [A1 ->].
      destruct (si_next s I h x Hx A1); [left; by apply Hto|by right].
    + rewrite on_ne in Hy by done. destruct (si_next s I t y Hy Hat); [left; by apply Hto|by right].
  - apply (si_boots s I).
Qed.

(** Events other than a start and a jump. *)
Definition silent (e : event) : Prop := match e with EStart _ _ _ | EBoot _ _ => False | _ => True end.
Lemma start_emit e s : silent e -> start_inv s -> start_inv (emit e s).
Proof.
  intros He I. assert (forall t, last_start cold ns (e :: trace s) t = last_start cold ns (trace s) t) as E
    by (by destruct e).
  constructor.
  - intros h x t a Hx Hw. simpl trace. rewrite E. by apply (si_writer s I h).
  - apply (si_unique s I).
  - intros t y Hy Hat. simpl trace. rewrite E. by apply (si_next s I).
  - pose proof (si_boots s I). by destruct e.
Qed.

Lemma started_not_waiting x : hstate x = SBI_HSM_STATE_STARTED -> ~ waiting x.
Proof. intros E [H _]. by rewrite E in H. Qed.

(** Moves of a started hart that stays started, and results of calls. *)
Lemma start_goto h p s x : start_inv s -> harts s !! h = Some x -> hstate x = SBI_HSM_STATE_STARTED ->
  writing (hpc x) = None -> writing p = None -> p <> Switch true -> start_inv (goto h p s).
Proof.
  intros I Hx Hs W1 W2 Hp. eapply start_own; [done..| |].
  - intros [E|E]; simpl in E; [by rewrite Hs in E|done].
  - intros H. by apply started_not_waiting in H.
Qed.
Lemma start_return h r s x : start_inv s -> harts s !! h = Some x -> hstate x = SBI_HSM_STATE_STARTED ->
  writing (hpc x) = None -> start_inv (ecall_return h r s).
Proof. intros. apply start_emit; [by case_match|]. by eapply start_goto. Qed.

(** A step of a call that writes the next stage of hart [t]. *)
Lemma start_write h p p' t a g s x : hsm_inv cold s -> start_inv s -> harts s !! h = Some x -> hpc x = p ->
  writing p = Some (t, a) -> (forall y, hstate (g y) = hstate y /\ hpc (g y) = hpc y) ->
  (forall y, written p (next y) -> written p' (next (g y)) /\
     (writing p' = Some (t, a) \/ (writing p' = None /\ next (g y) = a))) ->
  p' <> Switch true -> start_inv (goto h p' (on t g s)).
Proof.
  intros HI I Hx Hp Hw Hg Hn Hp'. rewrite <- Hp in Hw.
  destruct (si_writer s I h x t a Hx Hw) as (y & Hy & Hwt & Hl & Hwn).
  assert (hstate x = SBI_HSM_STATE_STARTED) as Hs.
  { destruct (hsm_at _ _ HI h x Hx) as [A _]. by destruct (hpc x). }
  assert (h <> t) as Hne by (intros <-; simplify_eq; by apply started_not_waiting in Hwt).
  assert (harts (goto h p' (on t g s)) !! h = Some (set_pc p' x)) as Lh
    by (apply on_eq; by rewrite on_ne).
  assert (harts (goto h p' (on t g s)) !! t = Some (g y)) as Lt
    by (unfold goto; rewrite on_ne by done; by apply on_eq).
  assert (forall q, q <> h -> q <> t -> harts (goto h p' (on t g s)) !! q = harts s !! q) as Lq
    by (intros; unfold goto; by rewrite !on_ne).
  rewrite Hp in Hwn. destruct (Hg y) as [Gs Gp]. destruct (Hn y Hwn) as [Nw Np].
  assert (forall q z t' a', harts (goto h p' (on t g s)) !! q = Some z -> writing (hpc z) = Some (t', a') ->
    exists z0, harts s !! q = Some z0 /\ writing (hpc z0) = Some (t', a')) as Hold.
  { intros q z t' a' Hz Hz'. destruct (decide (q = h)) as [->|]; [|destruct (decide (q = t)) as [->|]].
    - rewrite Lh in Hz. simplify_eq. simpl in Hz'. exists x. split; [done|].
      destruct Np as [Np|[Np _]]; rewrite Np in Hz'; by simplify_eq.
    - rewrite Lt in Hz. simplify_eq. exists y. by rewrite <- Gp.
    - rewrite Lq in Hz by done. by exists z. }
  constructor.
  - intros q z t' a' Hz Hz'. destruct (Hold q z t' a' Hz Hz') as (z0 & Hz0 & Hz0').
    destruct (si_writer s I q z0 t' a' Hz0 Hz0') as (y' & Hy' & Hwt' & Hl' & Hwn').
    destruct (decide (t' = t)) as [->|Ht'].
    + assert (q = h) as -> by (eapply (si_unique s I); [exact Hz0|exact Hz0'|exact Hx|exact Hw]).
      rewrite Lh in Hz. exists (g y). simplify_eq. split; [done|]. split; [|done].
      unfold waiting in *. by rewrite Gs, Gp.
    + assert (t' <> h) by (intros ->; simplify_eq; by apply started_not_waiting in Hwt').
      assert (q <> h) by (intros ->; simplify_eq).
      exists y'. rewrite Lq by done. split; [done|]. split; [done|]. split; [done|].
      destruct (decide (q = t)) as [->|]; [rewrite Lt in Hz|rewrite Lq in Hz by done]; simplify_eq; [|done].
      destruct Hwt as [_ [E|[E|E]]]; by rewrite E in Hz0'.
  - intros q z q' z' t' a1 a2 H1 H2 H3 H4.
    destruct (Hold _ _ _ _ H1 H2) as (z0 & ? & ?), (Hold _ _ _ _ H3 H4) as (z1 & ? & ?).
    by eapply (si_unique s I q z0 q' z1).
  - intros q z Hz Ha. destruct (decide (q = h)) as [->|]; [|destruct (decide (q = t)) as [->|]].
    + rewrite Lh in Hz. simplify_eq. destruct Ha as [E|E]; simpl in E; [by rewrite Hs in E|done].
    + rewrite Lt in Hz. simplify_eq. destruct Np as [Np|[_ ->]]; [left|by right].
      exists h, (set_pc p' x), a. by split.
    + rewrite Lq in Hz by done. destruct (si_next s I q z Hz Ha) as [(q1 & z1 & a1 & W1 & W2)|]; [left|by right].
      assert (q1 <> h) by (intros ->; simplify_eq). exists q1.
      destruct (decide (q1 = t)) as [->|]; [|exists z1, a1; by rewrite Lq].
      exists (g y), a1. simplify_eq. by rewrite Gp.
  - apply (si_boots s I).
Qed.

(** The exchange of a start call that finds hart [t] stopped. *)
Lemma start_begin h t a s x y : hsm_inv cold s -> start_inv s ->
  harts s !! h = Some x -> hpc x = StartCas t a -> harts s !! t = Some y -> hstate y = SBI_HSM_STATE_STOPPED ->
  start_inv (emit (EStart h t a) (goto h (StartCount t a) (on t (set_state SBI_HSM_STATE_START_PENDING) s))).
Proof.
  intros HI I Hx Hp Hy Hst. destruct (hsm_at _ _ HI h x Hx) as [Hs _]. rewrite Hp in Hs. simpl in Hs.
  assert (h <> t) as Hne by (intros <-; simplify_eq; by rewrite Hs in Hst).
  assert (hpc y = Off \/ hpc y = WarmBoot \/ hpc y = WaitStart) as Hpy.
  { destruct (hsm_at _ _ HI t y Hy) as [A _]. rewrite Hst in A.
    destruct (hpc y); simpl in A; try discriminate A; tauto. }
  assert (~ writes_to s t) as Hnw.
  { intros (q & z & b & Hz & Hzw). destruct (si_writer s I q z t b Hz Hzw) as (y' & Hy' & [W _] & _).
    simplify_eq. by rewrite Hst in W. }
  set (s' := goto _ _ _).
  assert (harts s' !! h = Some (set_pc (StartCount t a) x)) as Lh by (apply on_eq; by rewrite on_ne).
  assert (harts s' !! t = Some (set_state SBI_HSM_STATE_START_PENDING y)) as Lt
    by (unfold s', goto; rewrite on_ne by done; by apply on_eq).
  assert (forall q, q <> h -> q <> t -> harts s' !! q = harts s !! q) as Lq
    by (intros; unfold s', goto; by rewrite !on_ne).
  assert (forall q z t' a', q <> h -> harts s' !! q = Some z -> writing (hpc z) = Some (t', a') ->
    harts s !! q = Some z /\ t' <> t /\ q <> t) as Hold.
  { intros q z t' a' Hq Hz Hz'. destruct (decide (q = t)) as [->|].
    - rewrite Lt in Hz. simplify_eq. simpl in Hz'. destruct Hpy as [E|[E|E]]; by rewrite E in Hz'.
    - rewrite Lq in Hz by done. split; [done|]. split; [|done]. intros ->. apply Hnw. by exists q, z, a'. }
  constructor.
  - intros q z t' a' Hz Hz'. change (harts s' !! q = Some z) in Hz. simpl trace. simpl last_start.
    change (harts (emit _ s')) with (harts s'). destruct (decide (q = h)) as [->|Hq].
    + rewrite Lh in Hz. simplify_eq. simpl in Hz'. simplify_eq. rewrite decide_True by done. by eexists.
    + destruct (Hold q z t' a' Hq Hz Hz') as (Hz0 & Ht' & _). rewrite decide_False by done.
      destruct (si_writer s I q z t' a' Hz0 Hz') as (y' & Hy' & W & R). exists y'. rewrite Lq; [done| |done].
      intros ->. simplify_eq. by apply started_not_waiting in W.
  - intros q z q' z' t' a1 a2 H1 H2 H3 H4. change (harts s' !! q = Some z) in H1. change (harts s' !! q' = Some z') in H3.
    destruct (decide (q = h)) as [->|Hq], (decide (q' = h)) as [->|Hq']; [done|..].
    + rewrite Lh in H1. simplify_eq. simpl in H2. simplify_eq. by destruct (Hold _ _ _ _ Hq' H3 H4) as (_ & ? & _).
    + rewrite Lh in H3. simplify_eq. simpl in H4. simplify_eq. by destruct (Hold _ _ _ _ Hq H1 H2) as (_ & ? & _).
    + destruct (Hold _ _ _ _ Hq H1 H2) as [E1 _], (Hold _ _ _ _ Hq' H3 H4) as [E2 _].
      by eapply (si_unique s I q z q' z').
  - intros q z Hz Ha. change (harts s' !! q = Some z) in Hz. simpl trace. simpl last_start.
    destruct (decide (q = t)) as [->|Hq]; [left; exists h, (set_pc (StartCount t a) x), a; by split|].
    rewrite decide_False by done. destruct (decide (q = h)) as [->|Hqh].
    + rewrite Lh in Hz. simplify_eq. destruct Ha as [E|E]; simpl in E; [by rewrite Hs in E|done].
    + rewrite Lq in Hz by done. destruct (si_next s I q z Hz Ha) as [(q1 & z1 & a1 & W1 & W2)|]; [left|by right].
      exists q1, z1, a1. split; [|done]. change (harts s' !! q1 = Some z1). rewrite Lq; [done| |].
      * intros ->. simplify_eq. by rewrite Hp in W2.
      * intros ->. simplify_eq. destruct Hpy as [E|[E|E]]; by rewrite E in W2.
  - apply (si_boots s I).
Qed.

(** A hart that is started and is not about to jump may move in any way that keeps it so
    or stops it. *)
Lemma start_idle h f s x : start_inv s -> harts s !! h = Some x -> writing (hpc x) = None ->
  hstate x <> SBI_HSM_STATE_START_PENDING -> writing (hpc (f x)) = None ->
  hstate (f x) <> SBI_HSM_STATE_START_PENDING -> hpc (f x) <> Switch true -> start_inv (on h f s).
Proof.
  intros I Hx W1 N1 W2 N2 N3. eapply start_own; [done..| |].
  - by intros [E|E].
  - by intros [E _].
Qed.

Lemma start_handler h f a0 a1 a2 m s x : start_inv s -> harts s !! h = Some x -> hpc x = Guest ->
  hstate x = SBI_HSM_STATE_STARTED -> start_inv (sbi_ecall_hsm_handler doms h f a0 a1 a2 m s).
Proof.
  intros I Hx Hp Hs. assert (writing (hpc x) = None) as W by by rewrite Hp.
  assert (forall ret, start_inv (ecall_return h ret s)) as R by (intros; by eapply start_return).
  assert (forall p, writing p = None -> p <> Switch true -> start_inv (goto h p s)) as G
    by (intros; by eapply start_goto).
  unfold sbi_ecall_hsm_handler, sbi_hsm_hart_start, sbi_hsm_hart_suspend.
  repeat (case_match; try apply R; try (by apply G)).
  eapply start_idle; [done..|by rewrite Hs|done|simpl; by rewrite Hs|done].
Qed.

(** The jump of a started hart to its next stage. *)
Lemma start_jump h b s x : start_inv s -> harts s !! h = Some x -> hpc x = Switch b ->
  hstate x = SBI_HSM_STATE_STARTED ->
  start_inv (emit (if b then EBoot h (next x) else EResume h (next x)) (goto h Guest s)).
Proof.
  intros I Hx Hp Hs.
  assert (start_inv (goto h Guest s)) as I' by (eapply start_goto; [done..|by rewrite Hp|done|done]).
  destruct b; [|by apply start_emit]. destruct I' as [A B C D]. constructor; [done..|]. simpl. split; [|done].
  destruct (si_next s I h x Hx) as [(q & z & a & Hz & Hw)|]; [by right| |done].
  destruct (si_writer s I q z h a Hz Hw) as (y & Hy & W & _). simplify_eq. by apply started_not_waiting in W.
Qed.

Lemma on_id t f s : (forall y, harts s !! t = Some y -> f y = y) -> on t f s = s.
Proof.
  intros H. destruct s as [l tr]. unfold on. simpl in *. f_equal. apply list_eq. intros q.
  rewrite list_lookup_alter. case_decide; [subst|done]. destruct (l !! q) eqn:E; simpl; f_equal. auto.
Qed.

Lemma start_wake h t n rc s s' x : start_inv s -> harts s !! h = Some x -> hpc x = StartSend t n ->
  hstate x = SBI_HSM_STATE_STARTED -> start_send dev_start dev_stop h t n rc s = Some s' -> start_inv s'.
Proof.
  intros I Hx Hp Hs E. unfold start_send in E. destruct (harts s !! t) as [y|] eqn:Hy; [|done]. simpl in E.
  assert (writing (hpc x) = None) as W by by rewrite Hp.
  case_match; simplify_eq; [|by eapply start_return].
  destruct (decide (hpc y = Off /\ rc = 0)) as [[Ho ->]|Hn].
  - assert (h <> t) as Hne by (intros <-; simplify_eq; by rewrite Hp in Ho).
    eapply start_return; [|by rewrite on_ne|done..].
    eapply start_own; [done|exact Hy|by rewrite Ho|rewrite Ho; done|..]; rewrite Ho; simpl.
    + intros [A|A]; simpl in A; [|done]. split; [by left|done].
    + intros [A _] _. split; [|done]. split; [done|]. simpl. auto.
  - rewrite on_id; [by eapply start_return|]. intros z Hz. simplify_eq. destruct (hpc y) eqn:Ho; try done.
    case_match; [|done]. exfalso. apply Hn. split; [done|lia].
Qed.

Lemma start_step_inv h i s s' : harts_owned doms (length ns) -> length (harts s) = length ns ->
  hsm_inv cold s -> start_inv s -> step h i s = Some s' ->
  (forall x, harts s !! h = Some x -> hpc x = WaitStart -> ~ writes_to s h) -> start_inv s'.
Proof.
  intros Ho Hl HI I E Ht. unfold_step_in E. destruct (harts s !! h) as [x|] eqn:Hx; [|done]. simpl in E.
  destruct (hsm_at _ _ HI h x Hx) as [Hs _].
  unfold start_cas, own_cas, cmpxchg, goto in E. rewrite ?Hx in E.
  destruct (hpc x) eqn:Hp, i; try done; simpl in Hs, E; try rewrite Hs in E; simpl in E; simplify_eq.
  - by eapply start_handler.
  - destruct (harts s !! t) as [y|] eqn:Hy; [|done]. simpl in E.
    destruct (Z.eqb_spec (hstate y) SBI_HSM_STATE_STOPPED) as [Ey|Ey]; simpl in E; simplify_eq.
    + rewrite Ey. simpl. by eapply start_begin.
    + case_match; (eapply start_return; [done..|by rewrite Hp]).
  - unfold start_count in E. destruct (harts s !! t) as [y|]; [|done]. simpl in E. simplify_eq.
    assert (start_inv (goto h (StartArg t a (init_count y)) (on t id s))) as R
      by (eapply start_write; [done..|by intros ?| |done]; intros z _; simpl; auto).
    by rewrite on_id in R.
  - eapply start_write; [done..| |done]. intros y _. simpl. auto.
  - eapply start_write; [done..| |done]. intros y Hw. simpl in *. auto.
  - eapply start_write; [done..| |done]. intros y [Hw1 Hw2]. simpl in *. split; [done|]. right. split; [done|].
    rewrite Hw1, Hw2. by destruct a.
  - by eapply start_wake.
  - rewrite on_on. eapply start_idle; [done|done|by rewrite Hp|by rewrite Hs|done..].
  - rewrite on_on. apply start_emit; [done|]. eapply start_idle; [done..|by rewrite Hp|by rewrite Hs|by case_match|done|by case_match].
  - rewrite (owned_state doms (length ns) h s x Ho Hl Hx). eapply start_own; [done..|by rewrite Hp| |intros [A|A]|].
    + simpl. repeat case_match; done.
    + split; [by left|done].
    + simpl in A. repeat case_match; done.
    + intros [A _] _. split; [|done]. split; [done|]. simpl. rewrite A. simpl. auto.
  - case_match; [|done]. eapply start_own; [done..|by rewrite Hp|done|intros [A|A]; [|done]; split; [by left|done]|].
    intros _ Hw. by destruct (Ht x eq_refl Hp).
  - eapply start_own; [done..|by rewrite Hp|done|intros _; split; [by left|done]|].
    intros [_ [A|[A|A]]]; by rewrite Hp in A.
  - rewrite on_on. eapply start_own; [done..|by rewrite Hp|done|intros _; split; [by left|done]|].
    intros [_ [A|[A|A]]]; by rewrite Hp in A.
  - by apply start_jump.
  - rewrite on_on. eapply start_idle; [done..|by rewrite Hp|by rewrite Hs|done| |done].
    simpl. rewrite suspend_save_state. done.
  - assert (forall f, writing (hpc (f x)) = None -> hstate (f x) = hstate x -> hpc (f x) <> Switch true ->
      start_inv (on h f s)) as G.
    { intros f W1 W2 W3. eapply start_idle; [done..|by rewrite Hp|by rewrite Hs|done|by rewrite W2, Hs|done]. }
    destruct dev_suspend; repeat case_match; simplify_eq; by apply G.
  - destruct dev_suspend; simplify_eq. eapply start_idle; [done..|by rewrite Hp|by rewrite Hs|done|simpl; by rewrite Hs|done].
  - unfold ecall_return, goto. apply start_emit; [by case_match|]. rewrite on_on.
    eapply start_idle; [done|done|by rewrite Hp|by rewrite Hs|done..].
  - rewrite on_on. eapply start_idle; [done|done|by rewrite Hp|by rewrite Hs|done..].
  - rewrite !on_on. eapply start_idle; [done|done|by rewrite Hp|by rewrite Hs|done..].
Qed.

Lemma start_init : start_inv (hsm_init cold ns).
Proof.
  assert (forall h x, harts (hsm_init cold ns) !! h = Some x -> writing (hpc x) = None) as W.
  { intros h x Hx. simpl in Hx. rewrite list_lookup_imap in Hx. apply fmap_Some_1 in Hx as (a & _ & ->).
    by case_decide. }
  constructor.
  - intros h x t a Hx Hw. by rewrite (W h x Hx) in Hw.
  - intros h x h' x' t a a' Hx Hw. by rewrite (W h x Hx) in Hw.
  - intros t y Hy Ha. right. simpl in *. rewrite list_lookup_imap in Hy. apply fmap_Some_1 in Hy as (a & E & ->).
    destruct (decide (t = cold)); [done|]. by destruct Ha.
  - done.
Qed.

Lemma timely_inv s : harts_owned doms (length ns) -> timely s -> start_inv s.
Proof.
  intros Ho. induction 1 as [|h i s s' Ht IH E Hw]; [apply start_init|].
  destruct (hsm_reachable_inv _ _ _ _ _ _ _ Ho (timely_reachable s Ht)) as [I L].
  by eapply start_step_inv.
Qed.
End Timely.

(** C9. When no hart leaves [sbi_hsm_hart_wait] while a start call is still writing its
    next stage, every hart that boots enters the stage of the last call that started
    it, with the address, mode and argument of that call, whatever else the other
    harts do; the hart of the cold boot enters the stage it was given. Without the
    condition the theorem is false ([start_race]). *)
Theorem hart_boots_where_started dev_start dev_stop dev_suspend doms cold ns s :
  harts_owned doms (length ns) -> timely dev_start dev_stop dev_suspend doms cold ns s ->
  boots_as_started cold ns (trace s) /\
  forall h x, harts s !! h = Some x -> hpc x = Switch true ->
    last_start cold ns (trace s) h = Some (next x).
Proof.
  intros Ho Ht. pose proof (timely_inv _ _ _ _ _ _ s Ho Ht) as I. split; [apply (si_boots _ _ _ I)|].
  intros h x Hx Hp. destruct (si_next _ _ _ I h x Hx) as [(q & z & a & Hz & Hw)|]; [by right| |done].
  destruct (hsm_reachable_inv _ _ _ _ _ _ _ Ho (timely_reachable _ _ _ _ _ _ s Ht)) as [HI _].
  destruct (hsm_at _ _ HI h x Hx) as [Hs _]. rewrite Hp in Hs.
  destruct (si_writer _ _ _ I q z h a Hz Hw) as (y & Hy & W & _). simplify_eq. by apply started_not_waiting in W.
Qed.

(** ** Witness *)

(** Whether a step of hart [h] leaves the wait loop during a write. *)
Definition early (s : state) (h : nat) : bool :=
  match harts s !! h with
  | Some x => match hpc x with
              | WaitStart => existsb (fun z => match writing (hpc z) with
                                               | Some (t, _) => bool_decide (t = h) | None => false end) (harts s)
              | _ => false
              end
  | None => false
  end.

Lemma early_sound s h : early s h = false -> forall x, harts s !! h = Some x -> hpc x = WaitStart -> ~ writes_to s h.
Proof.
  unfold early. intros E x Hx Hp (q & z & a & Hz & Hw). rewrite Hx, Hp in E.
  apply not_true_iff_false in E. apply E. apply existsb_exists. exists z. split; [|by rewrite Hw, bool_decide_eq_true_2].
  apply list_elem_of_In. by eapply list_elem_of_lookup_2.
Qed.

Fixpoint run_timely (l : list (nat * input)) (s : state) : option state :=
  match l with
  | [] => Some s
  | (h, i) :: l' => if early s h then None
                    else s' ← hsm_step false false false ex_doms h i s; run_timely l' s'
  end.

Lemma run_timely_sound l s s' : timely false false false ex_doms 0 ex_stages s ->
  run_timely l s = Some s' -> timely false false false ex_doms 0 ex_stages s'.
Proof.
  revert s. induction l as [|[h i] l IH]; simpl; intros s Hr E; [by simplify_eq|].
  destruct (early s h) eqn:Ee; [done|]. destruct (hsm_step _ _ _ _ h i s) as [s1|] eqn:E1; [|done]. simpl in E.
  eapply IH; [|exact E]. eapply timely_step; [exact Hr|exact E1|by apply early_sound].
Qed.

Lemma hart_boots_where_started_witness : exists s, run_timely ex_restart (hsm_init 0 ex_stages) = Some s /\
  boots_as_started 0 ex_stages (trace s) /\ EBoot 1 (mk_stage 0x80400000 PRV_S 7) ∈ trace s.
Proof.
  destruct (run_timely ex_restart (hsm_init 0 ex_stages)) as [s|] eqn:E; [|by vm_compute in E].
  exists s. split; [done|]. split.
  - apply (hart_boots_where_started false false false ex_doms 0 ex_stages s).
    + exact ex_owned.
    + eapply run_timely_sound; [apply timely_init|exact E].
  - vm_compute in E. simplify_eq. simpl. set_solver.
Defined.
