(* ===== verification/SbiFinalize.v ===== *)
(** * Start of the domains

    [sbi_domain_finalize] of [src/opensbi/lib/sbi/sbi_domain.c]: at the end of the cold
    boot the boot hart of every domain is given the next stage of its domain, the
    hart of the cold boot directly and the others by [sbi_hsm_hart_start]. The other
    harts of [SbiHsm] still wait for the cold boot to end, so that a start call runs
    without interruption here. The callback of the platform that registers its
    domains is a parameter, and so are the results of the device for harts. *)

From S2P Require Import Prelude SbiFifo SbiTlb SbiDomain SbiDomInv SbiHsm.

Section Finalize.
Context (dev_start dev_stop : bool) (dev_rc : Z -> Z).
Context (domains_init : domains -> res (Z * domains)).

Definition domain_stage (d : sbi_domain) : stage := mk_stage (next_addr d) (next_mode d) (next_arg1 d).

(** [sbi_hsm_hart_start] without a domain. *)
Definition hart_start (hartid : Z) (a : stage) (hs : list hart) : Z * list hart :=
  if negb (st_mode a =? PRV_S) && negb (st_mode a =? PRV_U) then (SBI_EINVAL, hs)
  else match hs !! Z.to_nat hartid with
  | None => (SBI_EINVAL, hs)
  | Some x =>
      if hstate x =? SBI_HSM_STATE_STARTED then (SBI_EALREADY, hs)
      else if negb (hstate x =? SBI_HSM_STATE_STOPPED) then (SBI_EINVAL, hs)
      else
        (if hsm_device_has_hart_hotplug dev_start dev_stop
            || (hsm_device_has_hart_secondary_boot dev_start dev_stop && (init_count x =? 0))
         then dev_rc hartid else 0,
         <[Z.to_nat hartid := set_next a (set_state SBI_HSM_STATE_START_PENDING x)]> hs)
  end.

(** The tests in front of the start of the boot hart of domain [p]. *)
Definition boot_hart_starts (s : domains) (p : Z) (d : sbi_domain) : bool :=
  let dhart := boot_hartid d in
  negb (SBI_HARTMASK_MAX_BITS <=? dhart)
  && sbi_hartmask_test_hart dhart (default 0 (possible_harts d))
  && bool_decide (hartid_to_domain_table s !! dhart = Some p)
  && sbi_hartmask_test_hart dhart (assigned_harts d).

Fixpoint finalize_loop (cold_hartid : Z) (s : domains) (ps : list Z) (hs : list hart) : res (Z * list hart) :=
  match ps with
  | [] => Ok (0, hs)
  | p :: ps' =>
      match dom_at s !! p with
      | None => Fault NullDeref
      | Some d =>
          if negb (boot_hart_starts s p d) then finalize_loop cold_hartid s ps' hs
          else if boot_hartid d =? cold_hartid
          then finalize_loop cold_hartid s ps' (alter (set_next (domain_stage d)) (Z.to_nat cold_hartid) hs)
          else let '(rc, hs1) := hart_start (boot_hartid d) (domain_stage d) hs in
               if negb (rc =? 0) then Ok (rc, hs1) else finalize_loop cold_hartid s ps' hs1
      end
  end.

Definition set_finalized (s : domains) : domains :=
  mk_domains (dom_at s) (hartid_to_domain_table s) (domidx_to_domain_table s) (domain_count s) true
    (root_fw_region s) (root_memregs_count s).

Definition sbi_domain_finalize (cold_hartid : Z) (s : domains) (hs : list hart) : res (Z * (domains * list hart)) :=
  '(rc, s1) ← domains_init s;
  if negb (rc =? 0) then Ok (rc, (s1, hs))
  else match domain_list (domidx_to_domain_table s1) with
  | None => Fault OutOfBounds
  | Some ps =>
      '(rc, hs') ← finalize_loop cold_hartid s1 ps hs;
      if negb (rc =? 0) then Ok (rc, (s1, hs')) else Ok (0, (set_finalized s1, hs'))
  end.

(** ** What the loop does *)

(** Hart [h] is given the stage of domain [p]. *)
Definition boots (cold_hartid : Z) (s : domains) (p : Z) (h : nat) (x x' : hart) : Prop :=
  exists d, dom_at s !! p = Some d /\ boot_hart_starts s p d = true /\ boot_hartid d = Z.of_nat h /\
    next x' = domain_stage d /\
    (Z.of_nat h = cold_hartid /\ x' = set_next (domain_stage d) x \/
     Z.of_nat h <> cold_hartid /\ hstate x = SBI_HSM_STATE_STOPPED /\ hstate x' = SBI_HSM_STATE_START_PENDING).

Lemma boot_hart_owner s p d : boot_hart_starts s p d = true -> hartid_to_domain_table s !! boot_hartid d = Some p.
Proof. unfold boot_hart_starts. rewrite !andb_true_iff, bool_decide_eq_true. tauto. Qed.

(** The lists of harts before and after: a hart is as it was or boots a domain. *)
Definition boots_all (c : Z) (s : domains) (ps : list Z) (hs hs' : list hart) : Prop :=
  length hs' = length hs /\
  forall h x', hs' !! h = Some x' -> exists x, hs !! h = Some x /\
    (x' = x \/ exists p, p ∈ ps /\ boots c s p h x x').

Lemma boots_all_refl c s ps hs : boots_all c s ps hs hs.
Proof. split; [done|]. intros h x' Hx. eauto. Qed.

(** A change of one hart, in front of a loop over other domains. *)
Lemma boots_all_step c s p ps hs hs' b x x1 : p ∉ ps -> hs !! b = Some x -> boots c s p b x x1 ->
  boots_all c s ps (<[b := x1]> hs) hs' -> boots_all c s (p :: ps) hs hs' /\ hs' !! b = Some x1.
Proof.
  intros Hp Hb Hbo [L H].
  assert (hs' !! b = Some x1) as Hb'.
  { destruct (lookup_lt_is_Some_2 hs' b) as [z Hz].
    { rewrite L, length_insert. by eapply lookup_lt_Some. }
    destruct (H b z Hz) as (y & Hy & [->|(q & Hq & d' & Hd' & Hs' & Hb2 & _)]).
    - rewrite list_lookup_insert_eq in Hy by (by eapply lookup_lt_Some). by simplify_eq.
    - destruct Hbo as (d & _ & Hst & Hbt & _). apply boot_hart_owner in Hs', Hst.
      rewrite Hb2 in Hs'. rewrite Hbt in Hst. congruence. }
  split; [|done]. split; [by rewrite L, length_insert|]. intros h x' Hx'.
  destruct (decide (h = b)) as [->|Hh].
  - simplify_eq. exists x. split; [done|]. right. exists p. split; [set_solver|done].
  - destruct (H h x' Hx') as (y & Hy & D). rewrite list_lookup_insert_ne in Hy by done. exists y. split; [done|].
    destruct D as [->|(q & Hq & D)]; [by left|]. right. exists q. split; [set_solver|done].
Qed.

Lemma boots_all_cons c s p ps hs hs' : boots_all c s ps hs hs' -> boots_all c s (p :: ps) hs hs'.
Proof.
  intros [L H]. split; [done|]. intros h x' Hx'. destruct (H h x' Hx') as (x & Hx & [->|(q & Hq & D)]); [by eauto|].
  exists x. split; [done|]. right. exists q. split; [set_solver|done].
Qed.

Lemma list_alter_insert (f : hart -> hart) (i : nat) (l : list hart) x : l !! i = Some x -> alter f i l = <[i := f x]> l.
Proof.
  intros Hx. apply list_eq. intros q. rewrite list_lookup_alter. case_decide; subst.
  - rewrite Hx, list_lookup_insert_eq; [done|]. by eapply lookup_lt_Some.
  - by rewrite list_lookup_insert_ne.
Qed.

Lemma hart_start_spec b a hs : (exists rc, hart_start b a hs = (rc, hs) /\ rc <> 0) \/
  exists rc x, hs !! Z.to_nat b = Some x /\ hstate x = SBI_HSM_STATE_STOPPED /\
    hart_start b a hs = (rc, <[Z.to_nat b := set_next a (set_state SBI_HSM_STATE_START_PENDING x)]> hs).
Proof.
  unfold hart_start. case_match; [left; by eexists|]. case_match eqn:Hx; [|left; by eexists].
  case_match; [left; by eexists|]. destruct (Z.eqb_spec (hstate h) SBI_HSM_STATE_STOPPED); simpl; [|left; by eexists].
  right. eauto.
Qed.

(** The boot hart of domain [p] has the stage of its domain. *)
Definition domain_booted (c : Z) (hs : list hart) (d : sbi_domain) : Prop :=
  exists x, hs !! Z.to_nat (boot_hartid d) = Some x /\ next x = domain_stage d /\
    (boot_hartid d <> c -> hstate x = SBI_HSM_STATE_START_PENDING).

Definition loop_done (c : Z) (s : domains) (ps : list Z) (hs : list hart) (r : res (Z * list hart)) : Prop :=
  exists rc hs', r = Ok (rc, hs') /\ boots_all c s ps hs hs' /\
    (rc = 0 -> forall p d, p ∈ ps -> dom_at s !! p = Some d -> boot_hart_starts s p d = true -> domain_booted c hs' d).

Lemma loop_done_step c s p ps hs r b x x1 : p ∉ ps -> hs !! b = Some x -> boots c s p b x x1 ->
  loop_done c s ps (<[b := x1]> hs) r -> loop_done c s (p :: ps) hs r.
Proof.
  intros Hp Hx Hb (rc & hs' & E & B & F). destruct (boots_all_step c s p ps hs hs' b x x1) as [B1 B2]; [done..|].
  exists rc, hs'. split; [done|]. split; [done|]. intros H0 q d [->|Hq]%elem_of_cons Ed Es; [|by eapply F].
  destruct Hb as (d' & Ed' & _ & Hbt & Hn & D). simplify_eq. exists x1. rewrite Hbt, Nat2Z.id.
  split; [done|]. split; [done|]. intros Hc. by destruct D as [[? _]|(_ & _ & ?)].
Qed.

Lemma finalize_loop_spec c s : (forall h p, hartid_to_domain_table s !! h = Some p -> 0 <= h < 128) ->
  forall ps hs, NoDup ps -> (forall p, p ∈ ps -> is_Some (dom_at s !! p)) -> 0 <= c < Z.of_nat (length hs) ->
  loop_done c s ps hs (finalize_loop c s ps hs).
Proof.
  intros Hr ps. induction ps as [|p ps IH]; intros hs Hnd Hd Hc; simpl.
  { exists 0, hs. split; [done|]. split; [apply boots_all_refl|]. intros _ p d Hp. set_solver. }
  apply NoDup_cons in Hnd as [Hp Hnd]. destruct (Hd p) as [d Ed]; [set_solver|]. rewrite Ed.
  assert (forall q, q ∈ ps -> is_Some (dom_at s !! q)) as Hd' by set_solver.
  destruct (boot_hart_starts s p d) eqn:Eb; simpl.
  2:{ destruct (IH hs Hnd Hd' Hc) as (rc & hs' & E & B & F). exists rc, hs'. split; [done|].
      split; [by apply boots_all_cons|]. intros H0 q dq [->|Hq]%elem_of_cons Eq Sq; [congruence|by eapply F]. }
  pose proof (Hr _ _ (boot_hart_owner _ _ _ Eb)) as Hbr.
  assert (boot_hartid d = Z.of_nat (Z.to_nat (boot_hartid d))) as Hbn by lia.
  destruct (Z.eqb_spec (boot_hartid d) c) as [Hbc|Hbc].
  - destruct (lookup_lt_is_Some_2 hs (Z.to_nat c)) as [x Hx]; [lia|].
    rewrite (list_alter_insert _ _ _ x Hx).
    eapply loop_done_step; [done|exact Hx| |apply IH; [done|done|by rewrite length_insert]].
    exists d. split_and!; [done..|lia|done|left; split; [lia|done]].
  - destruct (hart_start_spec (boot_hartid d) (domain_stage d) hs) as [(rc & -> & Hrc)|(rc & x & Hx & Hst & ->)].
    { destruct (Z.eqb_spec rc 0); [done|]. simpl. exists rc, hs. split; [done|]. split; [apply boots_all_refl|done]. }
    eapply (loop_done_step c s p ps hs _ _ x (set_next (domain_stage d) (set_state SBI_HSM_STATE_START_PENDING x)));
      [done|exact Hx| |].
    + exists d. split_and!; [done..|right; split_and!; [lia|done|done]].
    + destruct (Z.eqb_spec rc 0); simpl; [apply IH; [done|done|by rewrite length_insert]|].
      exists rc. eexists. split; [done|]. split; [apply boots_all_refl|done].
Qed.

Lemma domain_list_table ps n : domain_list (map Some ps ++ replicate (S n) None) = Some ps.
Proof. induction ps as [|p ps IH]; [done|]. simpl in *. by rewrite IH. Qed.

(** C23. When the platform has registered fewer than 32 domains, [sbi_domain_finalize]
    returns. A hart whose next stage it changes is the boot hart of the domain that
    the hart belongs to, is possible for it, gets the address, mode and argument of
    that domain, an address that the domain may execute, and was stopped unless it is
    the hart of the cold boot; all other harts are as they were. On success every
    domain that has its boot hart is started, and the domains can no longer be
    changed. *)
Theorem sbi_domain_finalize_boots hart_invalid c s s1 ps hs : domains_init s = Ok (0, s1) ->
  dom_inv hart_invalid s1 ps -> (length ps < 32)%nat -> 0 <= c < Z.of_nat (length hs) ->
  exists rc s' hs', sbi_domain_finalize c s hs = Ok (rc, (s', hs')) /\
    s' = (if rc =? 0 then set_finalized s1 else s1) /\ length hs' = length hs /\
    (forall h x', hs' !! h = Some x' -> exists x, hs !! h = Some x /\
       (x' = x \/ exists p d, dom_at s1 !! p = Some d /\ hartid_to_domain_table s1 !! Z.of_nat h = Some p /\
          possible d (Z.of_nat h) = true /\ boot_hartid d = Z.of_nat h /\ next x' = domain_stage d /\
          may_execute d (next_addr d) (next_mode d) = true /\
          (Z.of_nat h = c \/ hstate x = SBI_HSM_STATE_STOPPED /\ hstate x' = SBI_HSM_STATE_START_PENDING))) /\
    (rc = 0 -> forall p d, p ∈ ps -> dom_at s1 !! p = Some d ->
       hartid_to_domain_table s1 !! boot_hartid d = Some p -> domain_booted c hs' d).
Proof.
  intros Ei Inv Hl Hc. unfold sbi_domain_finalize. rewrite Ei. simpl.
  rewrite (inv_table _ _ _ Inv). replace (32 - length ps)%nat with (S (31 - length ps)) by lia.
  rewrite domain_list_table.
  destruct (finalize_loop_spec c s1) with (ps := ps) (hs := hs) as (rc & hs' & -> & [L B] & F).
  - intros h p H. by apply (inv_owner _ _ _ Inv) in H as [? _].
  - apply (inv_nodup _ _ _ Inv).
  - intros p [k Hk]%list_elem_of_lookup. destruct (inv_dom _ _ _ Inv k p Hk) as (d & _ & -> & _). eauto.
  - done.
  - simpl. exists rc, (if rc =? 0 then set_finalized s1 else s1), hs'.
    split; [destruct (Z.eqb_spec rc 0); by subst|]. split; [done|]. split; [done|]. split.
    + intros h x' Hx'. destruct (B h x' Hx') as (x & Hx & [->|(p & Hp & d & Ed & Es & Hb & Hn & D)]);
        [exists x; auto|]. exists x. split; [done|]. right. exists p, d.
      pose proof (boot_hart_owner _ _ _ Es) as Ho. rewrite Hb in Ho.
      destruct (proj1 (inv_owner _ _ _ Inv _ _) Ho) as (Hr & _ & d' & Ed' & Ha). rewrite Ed in Ed'. injection Ed' as <-.
      split_and!; [done..|by eapply (inv_possible _ _ _ Inv)|done|done| |naive_solver].
      apply list_elem_of_lookup in Hp as [k Hk]. destruct (inv_dom _ _ _ Inv k p Hk) as (d2 & rs & Ed2 & _ & San).
      rewrite Ed in Ed2. injection Ed2 as <-. unfold may_execute. by rewrite (san_next _ _ _ _ San).
    + intros H0 p d Hp Ed Ho. eapply F; [done..|].
      destruct (proj1 (inv_owner _ _ _ Inv _ _) Ho) as (Hr & _ & d' & Ed' & Ha). rewrite Ed in Ed'. injection Ed' as <-.
      pose proof (inv_possible _ _ _ Inv p d _ Hp Ed Hr Ha) as Hpo. unfold boot_hart_starts, sbi_hartmask_test_hart.
      unfold assigned in Ha. unfold possible in Hpo. rewrite Ha, Hpo, bool_decide_eq_true_2 by done.
      unfold SBI_HARTMASK_MAX_BITS. destruct (Z.leb_spec 128 (boot_hartid d)), (Z.ltb_spec (boot_hartid d) 128); try lia; done.
Qed.
End Finalize.

(** ** Witness: a second domain with harts 2 and 3 *)
Definition ex_guest : sbi_domain :=
  mk_domain 0 0 (Some 12) (Some (root_array ex_fw)) 2 7 0x90000000 PRV_S false.
Definition ex_before : domains := upd_doms <[1 := ex_guest]> ex_doms.
Definition ex_domains_init (s : domains) : res (Z * domains) :=
  sbi_domain_register ex_invalid 0 (Some 1) (Some 12) s.
Definition ex_after : domains :=
  match ex_domains_init ex_before with Ok (_, s) => s | Fault _ => ex_before end.
Definition ex_harts : list hart := harts (hsm_init 0 ex_stages).

Lemma ex_before_inv : dom_inv ex_invalid ex_before [root].
Proof.
  apply dom_inv_other; [|by vm_compute; set_solver]. unfold ex_doms.
  destruct (init_root ex_invalid ex_scratch 0) as (rc & s' & E & _ & H); [done|done|by vm_compute|].
  assert (rc = 0) as ->.
  { assert (forall r : res (Z * domains), r = Ok (rc, s') ->
      match r with Ok (z, _) => z =? 0 | _ => false end = true -> rc = 0) as A by (intros r -> ?; lia).
    apply (A _ E). by vm_compute. }
  rewrite E. by apply H.
Qed.

Lemma ex_after_inv : ex_domains_init ex_before = Ok (0, ex_after) /\ dom_inv ex_invalid ex_after [root; 1].
Proof.
  destruct (register_spec ex_invalid 0 1 12 ex_before [root] ex_guest ex_before_inv)
    as (rc & d1 & s' & _ & E & _ & I & _).
  - by vm_compute.
  - simpl. lia.
  - vm_compute. set_solver.
  - apply lookup_insert_eq.
  - intros a Ha. exists [ex_fw; all_region]. replace a with (root_array ex_fw); [by vm_compute|].
    assert (regions ex_guest = Some (root_array ex_fw)) as Eg by by vm_compute. congruence.
  - fold (ex_domains_init ex_before) in E. assert (rc = 0) as ->.
    { assert (forall r : res (Z * domains), r = Ok (rc, s') ->
        match r with Ok (z, _) => z =? 0 | _ => false end = true -> rc = 0) as A by (intros r -> ?; lia).
      apply (A _ E). by vm_compute. }
    unfold ex_after. rewrite E. split; [reflexivity|exact I].
Qed.

Lemma sbi_domain_finalize_boots_witness :
  ex_domains_init ex_before = Ok (0, ex_after) /\ dom_inv ex_invalid ex_after [root; 1] /\
  (exists rc s' hs', sbi_domain_finalize false false (fun _ => 0) ex_domains_init 0 ex_before ex_harts = Ok (rc, (s', hs')) /\
     length hs' = 4%nat) /\
  match sbi_domain_finalize false false (fun _ => 0) ex_domains_init 0 ex_before ex_harts with
  | Ok (rc, (_, hs')) => (rc, map (fun x => (hstate x, next x)) hs')
  | Fault _ => (1, [])
  end = (0, [(SBI_HSM_STATE_START_PENDING, ex_stage); (SBI_HSM_STATE_STOPPED, ex_stage);
             (SBI_HSM_STATE_START_PENDING, mk_stage 0x90000000 PRV_S 7); (SBI_HSM_STATE_STOPPED, ex_stage)]).
Proof.
  destruct ex_after_inv as [E I]. split; [done|]. split; [done|]. split; [|by vm_compute].
  assert (length [root; 1%Z] < 32)%nat as Hl by (simpl; lia).
  assert (0 <= 0 < Z.of_nat (length ex_harts)) as Hc by (clear; by vm_compute).
  pose proof (sbi_domain_finalize_boots false false (fun _ => 0) ex_domains_init ex_invalid 0 ex_before ex_after
    [root; 1] ex_harts E I Hl Hc) as (rc & s' & hs' & F & _ & L & _).
  exists rc, s', hs'. split; [exact F|]. rewrite L. reflexivity.
Defined.
