(* ===== verification/SbiTrap.v ===== *)
(** * Traps that the firmware passes on

    [sbi_trap_redirect] of [src/opensbi/lib/sbi/sbi_trap.c] hands a trap that came to
    the firmware on to the supervisor, or to a guest of a hypervisor. What the
    processor does when it delivers a trap to the supervisor itself, when it enters
    the firmware and when it leaves it ([mret]) is written out here from the privileged
    architecture, as the reference. *)

From S2P Require Import Prelude SbiFifo SbiTlb SbiDomain.

Definition CAUSE_FETCH_PAGE_FAULT : Z := 0xc.
Definition CAUSE_LOAD_PAGE_FAULT : Z := 0xd.
Definition CAUSE_STORE_PAGE_FAULT : Z := 0xf.
Definition MSTATUS_SIE : Z := 0x2.
Definition MSTATUS_MIE : Z := 0x8.
Definition MSTATUS_SPIE : Z := 0x20.
Definition MSTATUS_MPIE : Z := 0x80.
Definition MSTATUS_SPP : Z := 0x100.
Definition MSTATUS_MPP_SHIFT : Z := 11.
Definition MSTATUS_MPP : Z := 0x1800.
Definition MSTATUS_FS : Z := 0x6000.
Definition MSTATUS_MPV : Z := 0x8000000000.
Definition HSTATUS_GVA : Z := 0x40.
Definition HSTATUS_SPV : Z := 0x80.
Definition HSTATUS_SPVP : Z := 0x100.

(** ** Registers *)

(** [struct sbi_trap_regs]: the general registers by number, [mepc] and [mstatus]. *)
Record sbi_trap_regs := mk_regs { xregs : mem; mepc : Z; mstatus : Z }.

(** [struct sbi_trap_info] *)
Record sbi_trap_info := mk_trap { epc : Z; cause : Z; tval : Z; tval2 : Z; tinst : Z }.

(** The control and status registers of the supervisor and of a guest. *)
Record scsrs := mk_scsrs {
  stvec : Z; sepc : Z; scause : Z; stval : Z;
  vstvec : Z; vsepc : Z; vscause : Z; vstval : Z; vsstatus : Z;
  hstatus : Z; htval : Z; htinst : Z }.

Definition clr (mask w : Z) : Z := Z.land w (Z.lnot mask).

Definition prev_mode (r : sbi_trap_regs) : Z := Z.shiftr (Z.land (mstatus r) MSTATUS_MPP) MSTATUS_MPP_SHIFT.
Definition prev_virt (r : sbi_trap_regs) : bool := has (mstatus r) MSTATUS_MPV.

Section Redirect.

(** [misa_extension('H')] *)
Variable hext : bool.

Definition is_guest_fault (c : Z) : bool :=
  (c =? CAUSE_FETCH_PAGE_FAULT) || (c =? CAUSE_LOAD_PAGE_FAULT) || (c =? CAUSE_STORE_PAGE_FAULT).

(** The update of [hstatus], [htval] and [htinst]. *)
Definition redirect_hstatus (mode : Z) (trap : sbi_trap_info) (s : scsrs) : scsrs :=
  let h := Z.lor (clr HSTATUS_SPVP (hstatus s)) (if mode =? PRV_S then HSTATUS_SPVP else 0) in
  let h := Z.lor (clr HSTATUS_SPV h) HSTATUS_SPV in
  mk_scsrs (stvec s) (sepc s) (scause s) (stval s) (vstvec s) (vsepc s) (vscause s) (vstval s) (vsstatus s)
    h (tval2 trap) (tinst trap).

(** The previous mode and interrupt enable of a status word ([mstatus] or [vsstatus]). *)
Definition redirect_status (mode w : Z) : Z :=
  let w := clr MSTATUS_SPP w in
  let w := if mode =? PRV_S then Z.lor w MSTATUS_SPP else w in
  let w := clr MSTATUS_SPIE w in
  let w := if has w MSTATUS_SIE then Z.lor w MSTATUS_SPIE else w in
  clr MSTATUS_SIE w.

Definition sbi_trap_redirect (r : sbi_trap_regs) (trap : sbi_trap_info) (s : scsrs) :
    Z * sbi_trap_regs * scsrs :=
  let mode := prev_mode r in
  let virt := prev_virt r in
  if negb (mode =? PRV_S) && negb (mode =? PRV_U) then (SBI_ENOTSUPP, r, s)
  else
    let next_virt := hext && virt && is_guest_fault (cause trap) in
    let st := Z.lor (clr MSTATUS_MPV (mstatus r)) (if next_virt then MSTATUS_MPV else 0) in
    let s1 := if hext && virt && negb next_virt then redirect_hstatus mode trap s else s in
    let st1 := Z.lor (clr MSTATUS_MPP st) (Z.shiftl PRV_S MSTATUS_MPP_SHIFT) in
    if next_virt then
      (0, mk_regs (xregs r) (vstvec s1) st1,
       mk_scsrs (stvec s1) (sepc s1) (scause s1) (stval s1) (vstvec s1) (epc trap) (cause trap) (tval trap)
         (redirect_status mode (vsstatus s1)) (hstatus s1) (htval s1) (htinst s1))
    else
      (0, mk_regs (xregs r) (stvec s1) (redirect_status mode st1),
       mk_scsrs (stvec s1) (epc trap) (cause trap) (tval trap) (vstvec s1) (vsepc s1) (vscause s1) (vstval s1)
         (vsstatus s1) (hstatus s1) (htval s1) (htinst s1)).

(** ** The processor *)

(** A hart that runs below the firmware: in user or supervisor mode, with
    virtualisation on or off. *)
Record arch := mk_arch {
  a_x : mem; a_pc : Z; a_super : bool; a_virt : bool; a_status : Z; a_csrs : scsrs }.

(** Bit [m] of [w] becomes [b]. *)
Definition put (m : Z) (b : bool) (w : Z) : Z := Z.lor (clr m w) (if b then m else 0).

(** A trap enters the firmware: the registers that it finds. *)
Definition enter_firmware (a : arch) : sbi_trap_regs :=
  mk_regs (a_x a) (a_pc a)
    (put MSTATUS_MIE false (put MSTATUS_MPIE (has (a_status a) MSTATUS_MIE)
      (put MSTATUS_MPV (a_virt a) (put 0x1000 false (put 0x800 (a_super a) (a_status a)))))).

(** [mret] to user or supervisor mode; the lowest bit of [mepc] is always zero. *)
Definition leave_firmware (r : sbi_trap_regs) (s : scsrs) : arch :=
  mk_arch (xregs r) (clr 1 (mepc r)) (negb (prev_mode r =? PRV_U)) (prev_virt r)
    (put MSTATUS_MPIE true (put MSTATUS_MIE (has (mstatus r) MSTATUS_MPIE)
      (put MSTATUS_MPV false (clr MSTATUS_MPP (mstatus r))))) s.

(** The processor delivers a trap: to the supervisor ([hext]: virtualisation goes off,
    and [hstatus] says where it came from) or to the supervisor of a guest. [gva]
    says that the trap value is an address of the guest. *)
Definition enter_status (a : arch) (w : Z) : Z :=
  put MSTATUS_SIE false (put MSTATUS_SPIE (has w MSTATUS_SIE) (put MSTATUS_SPP (a_super a) w)).

Definition deliver_hs (a : arch) (t : sbi_trap_info) (gva : bool) : arch :=
  let s := a_csrs a in
  let h := put HSTATUS_GVA gva (put HSTATUS_SPV (a_virt a)
             (if a_virt a then put HSTATUS_SPVP (a_super a) (hstatus s) else hstatus s)) in
  mk_arch (a_x a) (clr 3 (stvec s)) true false (enter_status a (a_status a))
    (mk_scsrs (stvec s) (a_pc a) (cause t) (tval t) (vstvec s) (vsepc s) (vscause s) (vstval s) (vsstatus s)
       (if hext then h else hstatus s) (if hext then tval2 t else htval s) (if hext then tinst t else htinst s)).

Definition deliver_vs (a : arch) (t : sbi_trap_info) : arch :=
  let s := a_csrs a in
  mk_arch (a_x a) (clr 3 (vstvec s)) true true (a_status a)
    (mk_scsrs (stvec s) (sepc s) (scause s) (stval s) (vstvec s) (a_pc a) (cause t) (tval t)
       (enter_status a (vsstatus s)) (hstatus s) (htval s) (htinst s)).

Definition deliver (a : arch) (t : sbi_trap_info) (gva : bool) : arch :=
  if hext && a_virt a && is_guest_fault (cause t) then deliver_vs a t else deliver_hs a t gva.

(** What software below the firmware can see: of [mstatus] not the fields that only
    the firmware uses, and of [hstatus] not the bit in [mask]. *)
Definition view (mask : Z) (a : arch) : arch :=
  mk_arch (a_x a) (a_pc a) (a_super a) (a_virt a)
    (clr MSTATUS_MPV (clr MSTATUS_MPP (clr MSTATUS_MPIE (a_status a))))
    (let s := a_csrs a in
     mk_scsrs (stvec s) (sepc s) (scause s) (stval s) (vstvec s) (vsepc s) (vscause s) (vstval s) (vsstatus s)
       (clr mask (hstatus s)) (htval s) (htinst s)).

End Redirect.

(** ** Bits of status words *)
#[local] Arguments Z.testbit : simpl never.
Lemma testbit_pow2 k n : 0 <= k -> Z.testbit (2 ^ k) n = (n =? k).
Proof. intros. rewrite Z.pow2_bits_eqb by done. apply Z.eqb_sym. Qed.

Lemma has_bit w k : 0 <= k -> has w (2 ^ k) = Z.testbit w k.
Proof.
  intros Hk. unfold has. destruct (Z.testbit w k) eqn:E.
  - apply negb_true_iff. apply Z.eqb_neq. intros F.
    assert (Z.testbit (Z.land w (2 ^ k)) k = true) as T by by rewrite Z.land_spec, E, Z.pow2_bits_true.
    by rewrite F, Z.bits_0 in T.
  - apply negb_false_iff. apply Z.eqb_eq. apply Z.bits_inj'. intros n Hn.
    rewrite Z.land_spec, testbit_pow2, Z.bits_0 by done. destruct (Z.eqb_spec n k); [subst; by rewrite E|by rewrite andb_false_r].
Qed.

(** Every mask is one bit, or two. *)
Lemma bit_SIE n : Z.testbit MSTATUS_SIE n = (n =? 1). Proof. by apply (testbit_pow2 1). Qed.
Lemma bit_MIE n : Z.testbit MSTATUS_MIE n = (n =? 3). Proof. by apply (testbit_pow2 3). Qed.
Lemma bit_SPIE n : Z.testbit MSTATUS_SPIE n = (n =? 5). Proof. by apply (testbit_pow2 5). Qed.
Lemma bit_MPIE n : Z.testbit MSTATUS_MPIE n = (n =? 7). Proof. by apply (testbit_pow2 7). Qed.
Lemma bit_SPP n : Z.testbit MSTATUS_SPP n = (n =? 8). Proof. by apply (testbit_pow2 8). Qed.
Lemma bit_MPV n : Z.testbit MSTATUS_MPV n = (n =? 39). Proof. by apply (testbit_pow2 39). Qed.
Lemma bit_GVA n : Z.testbit HSTATUS_GVA n = (n =? 6). Proof. by apply (testbit_pow2 6). Qed.
Lemma bit_SPV n : Z.testbit HSTATUS_SPV n = (n =? 7). Proof. by apply (testbit_pow2 7). Qed.
Lemma bit_SPVP n : Z.testbit HSTATUS_SPVP n = (n =? 8). Proof. by apply (testbit_pow2 8). Qed.
Lemma bit_MPP_lo n : Z.testbit 0x800 n = (n =? 11). Proof. by apply (testbit_pow2 11). Qed.
Lemma bit_MPP_hi n : Z.testbit 0x1000 n = (n =? 12). Proof. by apply (testbit_pow2 12). Qed.
Lemma bit_one n : Z.testbit 1 n = (n =? 0). Proof. by apply (testbit_pow2 0). Qed.
Lemma bit_MPP n : Z.testbit MSTATUS_MPP n = (n =? 11) || (n =? 12).
Proof. change MSTATUS_MPP with (Z.lor 0x800 0x1000). by rewrite Z.lor_spec, bit_MPP_lo, bit_MPP_hi. Qed.
Lemma bit_three n : Z.testbit 3 n = (n =? 0) || (n =? 1).
Proof. change 3 with (Z.lor 1 MSTATUS_SIE). by rewrite Z.lor_spec, bit_one, bit_SIE. Qed.
Lemma bit_S_mode n : Z.testbit (Z.shiftl PRV_S MSTATUS_MPP_SHIFT) n = (n =? 11).
Proof. apply bit_MPP_lo. Qed.

Lemma has_SIE w : has w MSTATUS_SIE = Z.testbit w 1. Proof. by apply (has_bit w 1). Qed.
Lemma has_MIE w : has w MSTATUS_MIE = Z.testbit w 3. Proof. by apply (has_bit w 3). Qed.
Lemma has_MPIE w : has w MSTATUS_MPIE = Z.testbit w 7. Proof. by apply (has_bit w 7). Qed.
Lemma has_MPV w : has w MSTATUS_MPV = Z.testbit w 39. Proof. by apply (has_bit w 39). Qed.

Create HintDb status.
#[export] Hint Rewrite Z.lor_spec Z.land_spec bit_SIE bit_MIE bit_SPIE bit_MPIE bit_SPP bit_MPV
  bit_GVA bit_SPV bit_SPVP bit_MPP_lo bit_MPP_hi bit_MPP bit_one bit_three bit_S_mode
  has_SIE has_MIE has_MPIE has_MPV Z.bits_0 andb_true_r andb_false_r orb_true_r orb_false_r : status.

Lemma clr_testbit m w n : 0 <= n -> Z.testbit (clr m w) n = Z.testbit w n && negb (Z.testbit m n).
Proof. intros. unfold clr. by rewrite Z.land_spec, Z.lnot_spec. Qed.
Lemma put_testbit m b w n : 0 <= n ->
  Z.testbit (put m b w) n = if Z.testbit m n then b else Z.testbit w n.
Proof.
  intros. unfold put. rewrite Z.lor_spec, clr_testbit by done.
  destruct b; rewrite ?Z.bits_0; destruct (Z.testbit m n), (Z.testbit w n); done.
Qed.

(** Words are equal when their bits are. *)
Ltac bitwise :=
  apply Z.bits_inj'; intros n Hn;
  repeat (rewrite ?clr_testbit, ?put_testbit by done; autorewrite with status);
  repeat match goal with |- context [n =? ?k] => destruct (Z.eqb_spec n k); [subst n; simpl|] end;
  repeat (rewrite ?clr_testbit, ?put_testbit by done; autorewrite with status; simpl);
  try done.

Lemma redirect_status_put m w :
  redirect_status m w = put MSTATUS_SIE false (put MSTATUS_SPIE (has w MSTATUS_SIE) (put MSTATUS_SPP (m =? PRV_S) w)).
Proof.
  unfold redirect_status. rewrite !has_SIE.
  assert (forall v, Z.testbit (clr MSTATUS_SPIE v) 1 = Z.testbit v 1) as E
    by (intros v; rewrite clr_testbit by done; by autorewrite with status).
  rewrite E. destruct (m =? PRV_S).
  - autorewrite with status. rewrite clr_testbit by done. autorewrite with status. simpl.
    autorewrite with status. destruct (Z.testbit w 1) eqn:W; bitwise.
  - rewrite clr_testbit by done. autorewrite with status. simpl.
    autorewrite with status. destruct (Z.testbit w 1) eqn:W; bitwise.
Qed.

(** The previous mode, by its two bits. *)
Lemma mode_bits w : Z.shiftr (Z.land w MSTATUS_MPP) MSTATUS_MPP_SHIFT =
  Z.b2z (Z.testbit w 11) + 2 * Z.b2z (Z.testbit w 12).
Proof.
  assert (Z.shiftr (Z.land w MSTATUS_MPP) MSTATUS_MPP_SHIFT =
    Z.lor (if Z.testbit w 11 then 1 else 0) (if Z.testbit w 12 then MSTATUS_SIE else 0)) as ->.
  { apply Z.bits_inj'. intros n Hn. rewrite Z.shiftr_spec by done. unfold MSTATUS_MPP_SHIFT. autorewrite with status.
    destruct (Z.eqb_spec (n + 11) 11), (Z.eqb_spec (n + 11) 12); try lia; simpl.
    - replace n with 0 by lia. change (0 + 11) with 11. destruct (Z.testbit w 11), (Z.testbit w 12); done.
    - replace n with 1 by lia. change (1 + 11) with 12. destruct (Z.testbit w 11), (Z.testbit w 12); done.
    - destruct (Z.testbit w 11), (Z.testbit w 12); autorewrite with status;
        destruct (Z.eqb_spec n 0), (Z.eqb_spec n 1); lia || done. }
  by destruct (Z.testbit w 11), (Z.testbit w 12).
Qed.

Lemma enter_mode a : prev_mode (enter_firmware a) = if a_super a then PRV_S else PRV_U.
Proof.
  unfold prev_mode. rewrite mode_bits. unfold enter_firmware. cbn [mstatus].
  rewrite !put_testbit by done. autorewrite with status. simpl. by destruct (a_super a).
Qed.
Lemma enter_virt a : prev_virt (enter_firmware a) = a_virt a.
Proof.
  unfold prev_virt. rewrite has_MPV. unfold enter_firmware. cbn [mstatus].
  rewrite !put_testbit by done. by autorewrite with status.
Qed.

Lemma enter_bits a n : 0 <= n -> Z.testbit (mstatus (enter_firmware a)) n =
  if n =? 3 then false else if n =? 7 then Z.testbit (a_status a) 3 else if n =? 39 then a_virt a
  else if n =? 12 then false else if n =? 11 then a_super a else Z.testbit (a_status a) n.
Proof.
  intros Hn. unfold enter_firmware. cbn [mstatus]. rewrite !put_testbit by done. by autorewrite with status.
Qed.

(** The mode bits that [sbi_trap_redirect] leaves in [mstatus]. *)
Definition redirected (v : bool) (w : Z) : Z :=
  Z.lor (clr MSTATUS_MPP (Z.lor (clr MSTATUS_MPV w) (if v then MSTATUS_MPV else 0))) (Z.shiftl PRV_S MSTATUS_MPP_SHIFT).

Lemma redirected_bits v w n : 0 <= n -> Z.testbit (redirected v w) n =
  if n =? 39 then v else if n =? 11 then true else if n =? 12 then false else Z.testbit w n.
Proof.
  intros Hn. unfold redirected. repeat (rewrite ?clr_testbit by done; autorewrite with status).
  assert (Z.testbit (if v then MSTATUS_MPV else 0) n = (n =? 39) && v) as -> by (destruct v; by autorewrite with status).
  destruct (Z.eqb_spec n 39), (Z.eqb_spec n 11), (Z.eqb_spec n 12); try lia; destruct v, (Z.testbit w n); done.
Qed.

(** The firmware leaves to the mode that it has written, and what is visible of
    [mstatus] is what it has written of it. *)
Lemma leave_redirected v w x p s : Z.testbit w 39 = v -> Z.testbit w 11 = true -> Z.testbit w 12 = false ->
  leave_firmware (mk_regs x p w) s =
  mk_arch x (clr 1 p) true v (put MSTATUS_MPIE true (put MSTATUS_MIE (Z.testbit w 7)
    (put MSTATUS_MPV false (clr MSTATUS_MPP w)))) s.
Proof.
  intros H1 H2 H3. unfold leave_firmware, prev_mode, prev_virt. cbn [mstatus xregs mepc].
  by rewrite mode_bits, has_MPV, has_MPIE, H1, H2, H3.
Qed.

(** The visible part of a status word that went through the firmware. *)
Ltac status_bits :=
  apply Z.bits_inj'; intros n Hn; unfold enter_status;
  repeat (rewrite ?clr_testbit, ?put_testbit, ?redirected_bits, ?enter_bits by done; autorewrite with status);
  repeat match goal with |- context [n =? ?k] => destruct (Z.eqb_spec n k); [subst n; simpl|] end;
  repeat (rewrite ?clr_testbit, ?put_testbit, ?redirected_bits, ?enter_bits by done; autorewrite with status; simpl);
  try done.

Lemma visible_status_vs a v : let w := redirected v (mstatus (enter_firmware a)) in
  clr MSTATUS_MPV (clr MSTATUS_MPP (clr MSTATUS_MPIE
    (put MSTATUS_MPIE true (put MSTATUS_MIE (Z.testbit w 7) (put MSTATUS_MPV false (clr MSTATUS_MPP w)))))) =
  clr MSTATUS_MPV (clr MSTATUS_MPP (clr MSTATUS_MPIE (a_status a))).
Proof. cbv zeta. status_bits. Qed.

Lemma visible_status_hs a v : let w := enter_status a (redirected v (mstatus (enter_firmware a))) in
  clr MSTATUS_MPV (clr MSTATUS_MPP (clr MSTATUS_MPIE
    (put MSTATUS_MPIE true (put MSTATUS_MIE (Z.testbit w 7) (put MSTATUS_MPV false (clr MSTATUS_MPP w)))))) =
  clr MSTATUS_MPV (clr MSTATUS_MPP (clr MSTATUS_MPIE (enter_status a (a_status a)))).
Proof. cbv zeta. status_bits. Qed.

(** The fields of a trap vector: bit 1 is not used ([WARL]). *)
Definition vector_ok (v : Z) : Prop := Z.testbit v 1 = false.
Lemma vector_base v : vector_ok v -> clr 1 v = clr 3 v.
Proof. intros Hv. bitwise. Qed.

(** The result of a redirection from user or supervisor mode. *)
Lemma redirect_enter hext a t : a_virt a = true -> hext = true ->
  sbi_trap_redirect hext (enter_firmware a) t (a_csrs a) =
  let s := a_csrs a in let m := if a_super a then PRV_S else PRV_U in
  if is_guest_fault (cause t)
  then (0, mk_regs (a_x a) (vstvec s) (redirected true (mstatus (enter_firmware a))),
        mk_scsrs (stvec s) (sepc s) (scause s) (stval s) (vstvec s) (epc t) (cause t) (tval t)
          (redirect_status m (vsstatus s)) (hstatus s) (htval s) (htinst s))
  else let s := redirect_hstatus m t s in
       (0, mk_regs (a_x a) (stvec s) (redirect_status m (redirected false (mstatus (enter_firmware a)))),
        mk_scsrs (stvec s) (epc t) (cause t) (tval t) (vstvec s) (vsepc s) (vscause s) (vstval s)
          (vsstatus s) (hstatus s) (htval s) (htinst s)).
Proof.
  intros Hv ->. unfold sbi_trap_redirect. rewrite enter_mode, enter_virt, Hv. simpl.
  destruct (a_super a); simpl; by destruct (is_guest_fault (cause t)).
Qed.

Lemma redirect_enter_host hext a t : a_virt a = false ->
  sbi_trap_redirect hext (enter_firmware a) t (a_csrs a) =
  let s := a_csrs a in let m := if a_super a then PRV_S else PRV_U in
  (0, mk_regs (a_x a) (stvec s) (redirect_status m (redirected false (mstatus (enter_firmware a)))),
   mk_scsrs (stvec s) (epc t) (cause t) (tval t) (vstvec s) (vsepc s) (vscause s) (vstval s)
     (vsstatus s) (hstatus s) (htval s) (htinst s)).
Proof.
  intros Hv. unfold sbi_trap_redirect. rewrite enter_mode, enter_virt, Hv, andb_false_r. simpl.
  by destruct (a_super a).
Qed.

Lemma redirect_status_enter a w : redirect_status (if a_super a then PRV_S else PRV_U) w = enter_status a w.
Proof. rewrite redirect_status_put. unfold enter_status. by destruct (a_super a). Qed.

Lemma redirect_hstatus_put a t gva s : hstatus s = hstatus (a_csrs a) ->
  clr HSTATUS_GVA (hstatus (redirect_hstatus (if a_super a then PRV_S else PRV_U) t s)) =
  clr HSTATUS_GVA (put HSTATUS_GVA gva (put HSTATUS_SPV true (put HSTATUS_SPVP (a_super a) (hstatus (a_csrs a))))).
Proof.
  intros <-. unfold redirect_hstatus. cbn [hstatus].
  assert (Z.lor (clr HSTATUS_SPVP (hstatus s)) (if (if a_super a then PRV_S else PRV_U) =? PRV_S then HSTATUS_SPVP else 0) =
    put HSTATUS_SPVP (a_super a) (hstatus s)) as -> by (by destruct (a_super a)).
  change (Z.lor (clr HSTATUS_SPV ?x) HSTATUS_SPV) with (put HSTATUS_SPV true x). bitwise.
Qed.

Lemma hs_bits a : let w := enter_status a (redirected false (mstatus (enter_firmware a))) in
  Z.testbit w 39 = false /\ Z.testbit w 11 = true /\ Z.testbit w 12 = false.
Proof.
  cbv zeta. unfold enter_status. rewrite !put_testbit, !redirected_bits by done. autorewrite with status. done.
Qed.

(** C10. A trap from a guest, or on a hart without the hypervisor extension, that the
    firmware passes on looks to the software below it exactly as if the processor had
    delivered it there itself: after the return from the firmware the program
    counter, the mode, the general registers, the saved program counter, cause and
    trap values, the previous mode and interrupt enable are the same; a page fault of
    a guest goes to the guest, everything else to the supervisor or hypervisor. Only
    the bit of [hstatus] that says whether the trap value is an address of the guest
    is not written. *)
Theorem sbi_trap_redirect_delegates hext a t gva : epc t = a_pc a -> a_virt a = hext ->
  vector_ok (stvec (a_csrs a)) -> vector_ok (vstvec (a_csrs a)) ->
  exists r s, sbi_trap_redirect hext (enter_firmware a) t (a_csrs a) = (0, r, s) /\
    view HSTATUS_GVA (leave_firmware r s) = view HSTATUS_GVA (deliver hext a t gva).
Proof.
  intros He Hv V1 V2. destruct hext.
  - rewrite redirect_enter by done. cbv zeta. unfold deliver. rewrite Hv. cbn [andb].
    destruct (is_guest_fault (cause t)).
    + eexists _, _. split; [done|].
      rewrite (leave_redirected true) by (rewrite redirected_bits by done; done).
      unfold view, deliver_vs. cbn -[clr put redirected enter_firmware].
      by rewrite visible_status_vs, vector_base, He, redirect_status_enter.
    + eexists _, _. split; [done|]. rewrite redirect_status_enter. destruct (hs_bits a) as (B1 & B2 & B3).
      rewrite (leave_redirected false) by done.
      unfold view, deliver_hs. cbn -[clr put redirected enter_firmware enter_status redirect_hstatus].
      rewrite visible_status_hs, (redirect_hstatus_put a t gva) by done. cbn -[clr put redirected enter_firmware enter_status].
      by rewrite Hv, vector_base, He.
  - rewrite redirect_enter_host by done. cbv zeta. eexists _, _. split; [done|]. unfold deliver. cbn [andb].
    rewrite redirect_status_enter. destruct (hs_bits a) as (B1 & B2 & B3).
    rewrite (leave_redirected false) by done.
    unfold view, deliver_hs. cbn -[clr put redirected enter_firmware enter_status].
    by rewrite visible_status_hs, vector_base, He.
Qed.

(** ** Where the redirection differs from the processor *)

(** With the hypervisor extension, a trap of the supervisor itself leaves [hstatus],
    [htval] and [htinst] as they were. The processor clears the bit that says that
    the trap came from a guest: with a stale bit the hypervisor returns into the
    guest instead of itself. *)
Theorem redirect_keeps_spv a t gva : a_virt a = false -> has (hstatus (a_csrs a)) HSTATUS_SPV = true ->
  exists r s, sbi_trap_redirect true (enter_firmware a) t (a_csrs a) = (0, r, s) /\
    has (hstatus s) HSTATUS_SPV = true /\
    has (hstatus (a_csrs (deliver true a t gva))) HSTATUS_SPV = false.
Proof.
  intros Hv Hs. rewrite redirect_enter_host by done. eexists _, _. split; [done|]. split; [done|].
  unfold deliver. rewrite Hv. cbn -[has put]. rewrite Hv. change HSTATUS_SPV with (2 ^ 7).
  by rewrite has_bit, !put_testbit by done.
Qed.

(** A trap whose value is an address of the guest is reported as one whose value is an
    address of the hypervisor, or the other way round: the bit keeps its old value. *)
Theorem redirect_keeps_gva a t gva : a_virt a = true -> is_guest_fault (cause t) = false ->
  exists r s, sbi_trap_redirect true (enter_firmware a) t (a_csrs a) = (0, r, s) /\
    has (hstatus s) HSTATUS_GVA = has (hstatus (a_csrs a)) HSTATUS_GVA /\
    has (hstatus (a_csrs (deliver true a t gva))) HSTATUS_GVA = gva.
Proof.
  intros Hv Hf. rewrite redirect_enter by done. cbv zeta. rewrite Hf. eexists _, _. split; [done|]. split.
  - unfold redirect_hstatus. cbn [hstatus]. change HSTATUS_GVA with (2 ^ 6). rewrite !has_bit by done.
    repeat (rewrite ?clr_testbit by done; autorewrite with status). by destruct (a_super a); autorewrite with status.
  - unfold deliver. rewrite Hv, Hf. cbn -[has put]. change HSTATUS_GVA with (2 ^ 6).
    by rewrite has_bit, !put_testbit by done.
Qed.

(** ** Witness: an illegal instruction of a guest in supervisor mode, with interrupts on *)
Definition ex_csrs : scsrs := mk_scsrs 0x80200000 0 0 0 0xffffffff80000000 0 0 0 0 0 0 0.
Definition ex_arch : arch := mk_arch ∅ 0x90001000 true true 0xa00000022 ex_csrs.
Definition ex_trap : sbi_trap_info := mk_trap 0x90001000 2 0x1057 0 0.

Lemma sbi_trap_redirect_delegates_witness :
  (exists r s, sbi_trap_redirect true (enter_firmware ex_arch) ex_trap (a_csrs ex_arch) = (0, r, s) /\
     view HSTATUS_GVA (leave_firmware r s) = view HSTATUS_GVA (deliver true ex_arch ex_trap false)) /\
  (let a := deliver true ex_arch ex_trap false in
   a_pc a = 0x80200000 /\ a_virt a = false /\ sepc (a_csrs a) = 0x90001000 /\ hstatus (a_csrs a) = 0x180).
Proof.
  split; [|by vm_compute]. apply (sbi_trap_redirect_delegates true ex_arch ex_trap false); by vm_compute.
Defined.
