(* ===== verification/SbiEmul.v ===== *)
(** * Emulation of misaligned accesses

    [src/opensbi/lib/sbi/sbi_misaligned_ldst.c] with [sbi_unpriv.c] and the decoding
    macros of [riscv_encoding.h] and [riscv_fp.h]: a load or store that the processor
    does not do at its address is done by the firmware, one byte after the other,
    with the rights of the mode it came from. The firmware is built for 64 bits with
    floating point.

    An access with these rights succeeds or ends in a trap, as the page tables and the
    PMP unit say; the class [UserAccess] holds what the code relies on of it. *)

From S2P Require Import Prelude SbiFifo SbiTlb SbiDomain SbiTrap.

(** ** Instruction encodings *)
Definition INSN_MATCH_LH : Z := 0x1003.
Definition INSN_MATCH_LW : Z := 0x2003.
Definition INSN_MATCH_LD : Z := 0x3003.
Definition INSN_MATCH_LHU : Z := 0x5003.
Definition INSN_MATCH_LWU : Z := 0x6003.
Definition INSN_MATCH_SH : Z := 0x1023.
Definition INSN_MATCH_SW : Z := 0x2023.
Definition INSN_MATCH_SD : Z := 0x3023.
Definition INSN_MATCH_FLW : Z := 0x2007.
Definition INSN_MATCH_FLD : Z := 0x3007.
Definition INSN_MATCH_FSW : Z := 0x2027.
Definition INSN_MATCH_FSD : Z := 0x3027.
Definition INSN_MATCH_C_LD : Z := 0x6000.
Definition INSN_MATCH_C_SD : Z := 0xe000.
Definition INSN_MATCH_C_LW : Z := 0x4000.
Definition INSN_MATCH_C_SW : Z := 0xc000.
Definition INSN_MATCH_C_LDSP : Z := 0x6002.
Definition INSN_MATCH_C_SDSP : Z := 0xe002.
Definition INSN_MATCH_C_LWSP : Z := 0x4002.
Definition INSN_MATCH_C_SWSP : Z := 0xc002.
Definition INSN_MATCH_C_FLD : Z := 0x2000.
Definition INSN_MATCH_C_FSD : Z := 0xa000.
Definition INSN_MATCH_C_FLDSP : Z := 0x2002.
Definition INSN_MATCH_C_FSDSP : Z := 0xa002.
Definition CAUSE_FETCH_ACCESS : Z := 1.
Definition CAUSE_MISALIGNED_LOAD : Z := 4.
Definition CAUSE_LOAD_ACCESS : Z := 5.
Definition CAUSE_MISALIGNED_STORE : Z := 6.
Definition CAUSE_FETCH_GUEST_PAGE_FAULT : Z := 0x14.
Definition CAUSE_LOAD_GUEST_PAGE_FAULT : Z := 0x15.

(** [(insn & INSN_MASK_x) == INSN_MATCH_x]; the masks of all 32-bit instructions are
    the same, and those of all 16-bit instructions are. *)
Definition is32 (insn m : Z) : bool := Z.land insn 0x707f =? m.
Definition is16 (insn m : Z) : bool := Z.land insn 0xe003 =? m.

Definition INSN_16BIT_MASK : Z := 3.
Definition INSN_LEN (insn : Z) : Z := if Z.land insn INSN_16BIT_MASK =? INSN_16BIT_MASK then 4 else 2.
Definition SH_RD : Z := 7.
Definition SH_RS1 : Z := 15.
Definition SH_RS2 : Z := 20.
Definition SH_RS2C : Z := 2.
Definition RV_X (x s n : Z) : Z := Z.land (Z.shiftr x s) (Z.shiftl 1 n - 1).
Definition RVC_RS2S (insn : Z) : Z := 8 + RV_X insn SH_RS2C 3.
Definition SHIFT_RIGHT (x y : Z) : Z := if y <? 0 then Z.shiftl x (- y) else Z.shiftr x y.
(** The offset of a register in the array of registers. *)
Definition REG_OFFSET (insn pos : Z) : Z := Z.land (SHIFT_RIGHT insn (pos - 3)) 0xf8.
(** Its number: a register has 8 bytes. *)
Definition reg_num (insn pos : Z) : Z := Z.shiftr (REG_OFFSET insn pos) 3.

Definition GET_REG (insn pos : Z) (r : sbi_trap_regs) : Z := ld (xregs r) (reg_num insn pos).
Definition SET_RD (insn v : Z) (r : sbi_trap_regs) : sbi_trap_regs :=
  mk_regs (st (xregs r) (reg_num insn SH_RD) v) (mepc r) (mstatus r).
Definition set_mepc (pc : Z) (r : sbi_trap_regs) : sbi_trap_regs := mk_regs (xregs r) pc (mstatus r).

(** ** The machine below the firmware *)

(** Whether an access of a byte ends in a trap: a load, a store, and the load of an
    instruction (where what may be executed may be read). A fault has a cause. The
    register that a load leaves behind when it faults has some value. *)
Class UserAccess := {
  load_fault : Z -> option sbi_trap_info;
  store_fault : Z -> option sbi_trap_info;
  fetch_fault : Z -> option sbi_trap_info;
  left_over : Z;
  load_fault_cause : forall a t, load_fault a = Some t -> cause t <> 0;
  store_fault_cause : forall a t, store_fault a = Some t -> cause t <> 0;
  fetch_fault_cause : forall a t, fetch_fault a = Some t -> cause t <> 0 }.

(** The registers saved by the trap, the registers of the supervisor, memory as the
    interrupted software sees it, and the floating point registers. *)
Record machine := mk_machine { regs : sbi_trap_regs; csrs : scsrs; umem : mem; fregs : mem }.

Definition with_regs (r : sbi_trap_regs) (m : machine) : machine := mk_machine r (csrs m) (umem m) (fregs m).

Section Emulation.
Context `{UserAccess} (hext : bool).

(** [uptrap.epc = regs->mepc; return sbi_trap_redirect(regs, &uptrap)] *)
Definition redirect (t : sbi_trap_info) (m : machine) : Z * machine :=
  let '(rc, r, s) := sbi_trap_redirect hext (regs m)
                       (mk_trap (mepc (regs m)) (cause t) (tval t) (tval2 t) (tinst t)) (csrs m) in
  (rc, mk_machine r s (umem m) (fregs m)).

(** [sbi_load_u8] and [sbi_store_u8]: the value, or the trap. *)
Definition sbi_load_u8 (a : Z) (m : machine) : Z + sbi_trap_info :=
  match load_fault a with Some t => inr t | None => inl (ld (umem m) a) end.
Definition sbi_store_u8 (a v : Z) (m : machine) : machine + sbi_trap_info :=
  match store_fault a with
  | Some t => inr t
  | None => inl (mk_machine (regs m) (csrs m) (st (umem m) a v) (fregs m))
  end.

Definition half (m : machine) (a : Z) : Z := ld (umem m) a + 256 * ld (umem m) (u64 (a + 1)).

(** [sbi_get_insn]. A trap of the first half does not end the sequence: when what is
    left in the register looks like a 32-bit instruction the second half is loaded
    too, and its trap replaces the first. *)
Definition sbi_get_insn (pc : Z) (m : machine) : Z + sbi_trap_info :=
  let fix_cause t :=
    let c := cause t in
    if c =? CAUSE_LOAD_ACCESS then mk_trap (epc t) CAUSE_FETCH_ACCESS pc (tval2 t) (tinst t)
    else if c =? CAUSE_LOAD_PAGE_FAULT then mk_trap (epc t) CAUSE_FETCH_PAGE_FAULT pc (tval2 t) (tinst t)
    else if c =? CAUSE_LOAD_GUEST_PAGE_FAULT
    then mk_trap (epc t) CAUSE_FETCH_GUEST_PAGE_FAULT pc (tval2 t) (tinst t)
    else t in
  match fetch_fault pc with
  | Some t =>
      inr (fix_cause (if Z.land left_over 3 =? 3 then default t (fetch_fault (u64 (pc + 2))) else t))
  | None =>
      let lo := half m pc in
      if Z.land lo 3 =? 3 then
        match fetch_fault (u64 (pc + 2)) with
        | Some t => inr (fix_cause t)
        | None => inl (lo + Z.shiftl (half m (u64 (pc + 2))) 16)
        end
      else inl lo
  end.

(** The first lines of both handlers: the instruction and its length, from the
    [tinst] that the processor reports or from memory. *)
Definition trapped_insn (tin : Z) (m : machine) : (Z * Z) + sbi_trap_info :=
  if Z.testbit tin 0 then
    let insn := Z.lor tin INSN_16BIT_MASK in
    inl (insn, if Z.testbit tin 1 then INSN_LEN insn else 2)
  else match sbi_get_insn (mepc (regs m)) m with
       | inr t => inr t
       | inl insn => inl (insn, INSN_LEN insn)
       end.

(** ** Loads *)

(** The chain of tests: whether a floating point register is loaded, the number of
    bytes, the shift that extends the sign, and the instruction word that holds the
    destination. *)
Definition decode_load (insn : Z) : option (bool * nat * Z * Z) :=
  let rd := Z.land (Z.shiftr insn SH_RD) 0x1f in
  let rvc := Z.shiftl (RVC_RS2S insn) SH_RD in
  if is32 insn INSN_MATCH_LW then Some (false, 4%nat, 32, insn)
  else if is32 insn INSN_MATCH_LD then Some (false, 8%nat, 0, insn)
  else if is32 insn INSN_MATCH_LWU then Some (false, 4%nat, 0, insn)
  else if is32 insn INSN_MATCH_FLD then Some (true, 8%nat, 0, insn)
  else if is32 insn INSN_MATCH_FLW then Some (true, 4%nat, 0, insn)
  else if is32 insn INSN_MATCH_LH then Some (false, 2%nat, 48, insn)
  else if is32 insn INSN_MATCH_LHU then Some (false, 2%nat, 0, insn)
  else if is16 insn INSN_MATCH_C_LD then Some (false, 8%nat, 0, rvc)
  else if is16 insn INSN_MATCH_C_LDSP && negb (rd =? 0) then Some (false, 8%nat, 0, insn)
  else if is16 insn INSN_MATCH_C_LW then Some (false, 4%nat, 32, rvc)
  else if is16 insn INSN_MATCH_C_LWSP && negb (rd =? 0) then Some (false, 4%nat, 32, insn)
  else if is16 insn INSN_MATCH_C_FLD then Some (true, 8%nat, 0, rvc)
  else if is16 insn INSN_MATCH_C_FLDSP then Some (true, 8%nat, 0, insn)
  else None.

(** The loop over the bytes, from byte [i] on. *)
Fixpoint load_loop (k : nat) (addr i : Z) (m : machine) : Z + sbi_trap_info :=
  match k with
  | O => inl 0
  | S k' => match sbi_load_u8 (u64 (addr + i)) m with
            | inr t => inr t
            | inl b => match load_loop k' addr (i + 1) m with
                       | inr t => inr t
                       | inl v => inl (Z.shiftl b (8 * i) + v)
                       end
            end
  end.

(** [SET_F64_RD] and [SET_F32_RD]: a single is boxed in ones. *)
Definition SET_F64_RD (insn v : Z) (m : machine) : machine :=
  mk_machine (regs m) (csrs m) (umem m) (st (fregs m) (reg_num insn SH_RD) v).
Definition SET_F32_RD (insn v : Z) (m : machine) : machine :=
  SET_F64_RD insn (Z.lor (Z.shiftl 0xffffffff 32) (u32 v)) m.

Definition sbi_misaligned_load_handler (addr tv2 tin : Z) (m : machine) : Z * machine :=
  match trapped_insn tin m with
  | inr t => redirect t m
  | inl (insn, insn_len) =>
      match decode_load insn with
      | None => redirect (mk_trap 0 CAUSE_MISALIGNED_LOAD addr tv2 tin) m
      | Some (fp, len, shift, insn') =>
          match load_loop len addr 0 m with
          | inr t => redirect t m
          | inl v =>
              let m1 := if negb fp
                        then with_regs (SET_RD insn' (u64 (Z.shiftr (s64 (Z.shiftl v shift)) shift)) (regs m)) m
                        else if (len =? 8)%nat then SET_F64_RD insn' v m else SET_F32_RD insn' v m in
              (0, with_regs (set_mepc (u64 (mepc (regs m1) + insn_len)) (regs m1)) m1)
          end
      end
  end.

(** ** Stores *)

(** [GET_F64_RS2] and the like; a single is read with its sign extended. *)
Definition get_f64 (insn pos : Z) (m : machine) : Z := ld (fregs m) (reg_num insn pos).
Definition get_f32 (insn pos : Z) (m : machine) : Z := u64 (s32 (ld (fregs m) (reg_num insn pos))).

(** The chain of tests: the number of bytes and the value. *)
Definition decode_store (insn : Z) (m : machine) : option (nat * Z) :=
  let r := regs m in
  let rd := Z.land (Z.shiftr insn SH_RD) 0x1f in
  if is32 insn INSN_MATCH_SW then Some (4%nat, GET_REG insn SH_RS2 r)
  else if is32 insn INSN_MATCH_SD then Some (8%nat, GET_REG insn SH_RS2 r)
  else if is32 insn INSN_MATCH_FSD then Some (8%nat, get_f64 insn SH_RS2 m)
  else if is32 insn INSN_MATCH_FSW then Some (4%nat, get_f32 insn SH_RS2 m)
  else if is32 insn INSN_MATCH_SH then Some (2%nat, GET_REG insn SH_RS2 r)
  else if is16 insn INSN_MATCH_C_SD then Some (8%nat, GET_REG (RVC_RS2S insn) 0 r)
  else if is16 insn INSN_MATCH_C_SDSP && negb (rd =? 0) then Some (8%nat, GET_REG insn SH_RS2C r)
  else if is16 insn INSN_MATCH_C_SW then Some (4%nat, GET_REG (RVC_RS2S insn) 0 r)
  else if is16 insn INSN_MATCH_C_SWSP && negb (rd =? 0) then Some (4%nat, GET_REG insn SH_RS2C r)
  else if is16 insn INSN_MATCH_C_FSD then Some (8%nat, get_f64 (RVC_RS2S insn) 0 m)
  else if is16 insn INSN_MATCH_C_FSDSP then Some (8%nat, get_f64 insn SH_RS2C m)
  else None.

(** The loop over the bytes; those in front of one that traps have been stored. *)
Fixpoint store_loop (k : nat) (addr i v : Z) (m : machine) : machine * option sbi_trap_info :=
  match k with
  | O => (m, None)
  | S k' => match sbi_store_u8 (u64 (addr + i)) (Z.land (Z.shiftr v (8 * i)) 0xff) m with
            | inr t => (m, Some t)
            | inl m' => store_loop k' addr (i + 1) v m'
            end
  end.

Definition sbi_misaligned_store_handler (addr tv2 tin : Z) (m : machine) : Z * machine :=
  match trapped_insn tin m with
  | inr t => redirect t m
  | inl (insn, insn_len) =>
      match decode_store insn m with
      | None => redirect (mk_trap 0 CAUSE_MISALIGNED_STORE addr tv2 tin) m
      | Some (len, v) =>
          match store_loop len addr 0 v m with
          | (m1, Some t) => redirect t m1
          | (m1, None) => (0, with_regs (set_mepc (u64 (mepc (regs m1) + insn_len)) (regs m1)) m1)
          end
      end
  end.

End Emulation.

(** ** The instructions, from the instruction set manual *)

(** A load: the bytes, whether the sign is extended, and the file of the register. *)
Inductive load_op := LH | LHU | LW | LWU | LD | FLW | FLD.

Definition load_len (o : load_op) : nat :=
  match o with LH | LHU => 2 | LW | LWU | FLW => 4 | LD | FLD => 8 end.
Definition load_fp (o : load_op) : bool := match o with FLW | FLD => true | _ => false end.
Definition load_value (o : load_op) (v : Z) : Z :=
  match o with
  | LH => u64 (sgn 16 v)
  | LW => u64 (sgn 32 v)
  | FLW => 0xffffffff * 2 ^ 32 + v
  | LHU | LWU | LD | FLD => v
  end.

(** The formats: 32 bits, 16 bits with a pointer register, 16 bits with the stack
    pointer; [imm] are the bits of the offset, which the emulation does not need. *)
Inductive load_insn :=
  | L32 (o : load_op) (rd rs1 imm : Z)
  | CL (o : load_op) (rd rs1 immh imml : Z)
  | CI (o : load_op) (rd immh imml : Z).

Definition load_op_of (i : load_insn) : load_op := match i with L32 o _ _ _ | CL o _ _ _ _ | CI o _ _ _ => o end.
Definition load_rd (i : load_insn) : Z := match i with L32 _ r _ _ | CI _ r _ _ => r | CL _ r _ _ _ => 8 + r end.
Definition load_size (i : load_insn) : Z := match i with L32 _ _ _ _ => 4 | _ => 2 end.

Definition load_match (o : load_op) : Z :=
  match o with
  | LH => INSN_MATCH_LH | LHU => INSN_MATCH_LHU | LW => INSN_MATCH_LW | LWU => INSN_MATCH_LWU
  | LD => INSN_MATCH_LD | FLW => INSN_MATCH_FLW | FLD => INSN_MATCH_FLD
  end.

(** The opcode and [funct3] of 32 bits, and the upper three bits of 16. *)
Definition opcode (o : load_op) : Z := if load_fp o then 0x07 else 0x03.
Definition funct3 (o : load_op) : Z :=
  match o with LH => 1 | LHU => 5 | LW | FLW => 2 | LWU => 6 | LD | FLD => 3 end.
Definition cfunct3 (o : load_op) : Z := match o with LW => 2 | LD => 3 | _ => 1 end.

Definition encode_load (i : load_insn) : Z :=
  match i with
  | L32 o rd rs1 imm => opcode o + rd * 2 ^ 7 + funct3 o * 2 ^ 12 + rs1 * 2 ^ 15 + imm * 2 ^ 20
  | CL o rd rs1 immh imml => rd * 2 ^ 2 + imml * 2 ^ 5 + rs1 * 2 ^ 7 + immh * 2 ^ 10 + cfunct3 o * 2 ^ 13
  | CI o rd immh imml => 2 + imml * 2 ^ 2 + rd * 2 ^ 7 + immh * 2 ^ 12 + cfunct3 o * 2 ^ 13
  end.

Definition compressible (o : load_op) : Prop := o = LW \/ o = LD \/ o = FLD.
Definition load_ok (i : load_insn) : Prop :=
  match i with
  | L32 o rd rs1 imm => 0 <= rd < 32 /\ 0 <= rs1 < 32 /\ 0 <= imm < 2 ^ 12
  | CL o rd rs1 immh imml => compressible o /\ 0 <= rd < 8 /\ 0 <= rs1 < 8 /\ 0 <= immh < 8 /\ 0 <= imml < 4
  | CI o rd immh imml => compressible o /\ 0 <= rd < 32 /\ (o = FLD \/ rd <> 0) /\ 0 <= immh < 2 /\ 0 <= imml < 32
  end.

(** ** Decoding *)
Lemma land_fields x l s w : 0 <= l <= s -> 0 <= w ->
  Z.land x (Z.lor (Z.ones l) (Z.shiftl (Z.ones w) s)) = x mod 2 ^ l + (x / 2 ^ s) mod 2 ^ w * 2 ^ s.
Proof.
  intros Hl Hw. rewrite Z.land_lor_distr_r, Z.land_ones by lia.
  assert (Z.land x (Z.shiftl (Z.ones w) s) = Z.shiftl (Z.land (Z.shiftr x s) (Z.ones w)) s) as ->.
  { apply Z.bits_inj'. intros n Hn. rewrite Z.land_spec, !Z.shiftl_spec, Z.land_spec by lia.
    destruct (decide (n < s)).
    - rewrite !(Z.testbit_neg_r _ (n - s)) by lia. by rewrite andb_false_r.
    - rewrite Z.shiftr_spec by lia. by replace (n - s + s) with n by lia. }
  rewrite Z.land_ones, Z.shiftr_div_pow2, Z.shiftl_mul_pow2 by lia. symmetry. apply Z.add_nocarry_lor.
  apply Z.bits_inj'. intros n Hn. rewrite Z.land_spec, Z.bits_0.
  destruct (decide (n < l)).
  - rewrite Z.mul_pow2_bits_low by lia. apply andb_false_r.
  - by rewrite Z.mod_pow2_bits_high by lia.
Qed.

Lemma land_707f x : Z.land x 0x707f = x mod 2 ^ 7 + (x / 2 ^ 12) mod 2 ^ 3 * 2 ^ 12.
Proof. by apply (land_fields x 7 12 3). Qed.
Lemma land_e003 x : Z.land x 0xe003 = x mod 2 ^ 2 + (x / 2 ^ 13) mod 2 ^ 3 * 2 ^ 13.
Proof. by apply (land_fields x 2 13 3). Qed.
Lemma land_3 x : Z.land x 3 = x mod 2 ^ 2.
Proof. by apply (Z.land_ones x 2). Qed.

(** The number of a register in an instruction word. *)
Lemma reg_num_field insn pos : 0 <= pos -> reg_num insn pos = (insn / 2 ^ pos) mod 2 ^ 5.
Proof.
  intros Hp. unfold reg_num, REG_OFFSET, SHIFT_RIGHT.
  rewrite <- Z.land_ones, <- Z.shiftr_div_pow2 by lia. apply Z.bits_inj'. intros n Hn.
  rewrite Z.shiftr_spec, !Z.land_spec by done.
  assert (Z.testbit 0xf8 (n + 3) = Z.testbit (Z.ones 5) n) as ->.
  { change 0xf8 with (Z.shiftl (Z.ones 5) 3). rewrite Z.shiftl_spec by lia. by replace (n + 3 - 3) with n by lia. }
  f_equal. rewrite (Z.shiftr_spec insn pos n) by done. zbool.
  - rewrite Z.shiftl_spec by lia. f_equal. lia.
  - rewrite Z.shiftr_spec by lia. f_equal. lia.
Qed.

Lemma field_mod x q r k : 0 <= k -> x = q * 2 ^ k + r -> 0 <= r < 2 ^ k -> x mod 2 ^ k = r /\ x / 2 ^ k = q.
Proof.
  intros Hk -> Hr. split.
  - rewrite Z.add_comm, Z.mod_add by lia. by apply Z.mod_small.
  - rewrite Z.div_add_l by lia. rewrite (Z.div_small r) by done. lia.
Qed.

(** The fields of the encodings that the decoder looks at. *)
Lemma L32_fields o rd rs1 imm (x := encode_load (L32 o rd rs1 imm)) : load_ok (L32 o rd rs1 imm) ->
  Z.land x 0x707f = load_match o /\ Z.land x 3 = 3 /\ (x / 2 ^ 7) mod 2 ^ 5 = rd /\ 0 <= x < 2 ^ 32.
Proof.
  intros (H1 & H2 & H3). unfold x. cbn [encode_load].
  assert (0 <= opcode o < 2 ^ 7) by (unfold opcode; case_match; lia).
  assert (0 <= funct3 o < 2 ^ 3) by (destruct o; simpl; lia).
  set (y := _ + _). rewrite land_707f, land_3.
  destruct (field_mod y (rd + funct3 o * 2 ^ 5 + rs1 * 2 ^ 8 + imm * 2 ^ 13) (opcode o) 7) as [-> ->]; [lia|unfold y; lia|lia|].
  destruct (field_mod y (funct3 o + rs1 * 2 ^ 3 + imm * 2 ^ 8) (opcode o + rd * 2 ^ 7) 12) as [_ ->]; [lia|unfold y; lia|lia|].
  destruct (field_mod (funct3 o + rs1 * 2 ^ 3 + imm * 2 ^ 8) (rs1 + imm * 2 ^ 5) (funct3 o) 3) as [-> _]; [lia|lia|lia|].
  destruct (field_mod (rd + funct3 o * 2 ^ 5 + rs1 * 2 ^ 8 + imm * 2 ^ 13) (funct3 o + rs1 * 2 ^ 3 + imm * 2 ^ 8) rd 5)
    as [-> _]; [lia|lia|lia|].
  split; [by destruct o|]. split; [|split; [done|unfold y; lia]].
  destruct (field_mod y (rd * 2 ^ 5 + funct3 o * 2 ^ 10 + rs1 * 2 ^ 13 + imm * 2 ^ 18 + opcode o / 4) 3 2) as [-> _];
    [lia| |lia|done]. assert (opcode o = 4 * (opcode o / 4) + 3) by (by destruct o). unfold y. lia.
Qed.

Lemma CL_fields o rd rs1 immh imml (x := encode_load (CL o rd rs1 immh imml)) : load_ok (CL o rd rs1 immh imml) ->
  Z.land x 0xe003 = cfunct3 o * 2 ^ 13 /\ Z.land x 3 = 0 /\ RVC_RS2S x = 8 + rd /\ 0 <= x < 2 ^ 16.
Proof.
  intros (_ & H1 & H2 & H3 & H4). unfold x. cbn [encode_load].
  assert (0 <= cfunct3 o < 2 ^ 3) by (destruct o; simpl; lia).
  set (y := _ + _). rewrite land_e003, land_3. unfold RVC_RS2S, RV_X, SH_RS2C.
  change (Z.shiftl 1 3 - 1) with (Z.ones 3). rewrite Z.land_ones, Z.shiftr_div_pow2 by lia.
  destruct (field_mod y (rd + imml * 2 ^ 3 + rs1 * 2 ^ 5 + immh * 2 ^ 8 + cfunct3 o * 2 ^ 11) 0 2) as [-> ->];
    [lia|unfold y; lia|lia|].
  destruct (field_mod y (cfunct3 o) (rd * 2 ^ 2 + imml * 2 ^ 5 + rs1 * 2 ^ 7 + immh * 2 ^ 10) 13) as [_ ->];
    [lia|unfold y; lia|lia|].
  destruct (field_mod (rd + imml * 2 ^ 3 + rs1 * 2 ^ 5 + immh * 2 ^ 8 + cfunct3 o * 2 ^ 11)
    (imml + rs1 * 2 ^ 2 + immh * 2 ^ 5 + cfunct3 o * 2 ^ 8) rd 3) as [-> _]; [lia|lia|lia|].
  rewrite Z.mod_small by lia. split; [done|]. split; [done|]. split; [done|unfold y; lia].
Qed.

Lemma CI_fields o rd immh imml (x := encode_load (CI o rd immh imml)) : load_ok (CI o rd immh imml) ->
  Z.land x 0xe003 = 2 + cfunct3 o * 2 ^ 13 /\ Z.land x 3 = 2 /\ (x / 2 ^ 7) mod 2 ^ 5 = rd /\ 0 <= x < 2 ^ 16.
Proof.
  intros (_ & H1 & _ & H3 & H4). unfold x. cbn [encode_load].
  assert (0 <= cfunct3 o < 2 ^ 3) by (destruct o; simpl; lia).
  set (y := _ + _). rewrite land_e003, land_3.
  destruct (field_mod y (imml + rd * 2 ^ 5 + immh * 2 ^ 10 + cfunct3 o * 2 ^ 11) 2 2) as [-> _];
    [lia|unfold y; lia|lia|].
  destruct (field_mod y (cfunct3 o) (2 + imml * 2 ^ 2 + rd * 2 ^ 7 + immh * 2 ^ 12) 13) as [_ ->];
    [lia|unfold y; lia|lia|].
  destruct (field_mod y (rd + immh * 2 ^ 5 + cfunct3 o * 2 ^ 6) (2 + imml * 2 ^ 2) 7) as [_ ->];
    [lia|unfold y; lia|lia|].
  destruct (field_mod (rd + immh * 2 ^ 5 + cfunct3 o * 2 ^ 6) (immh + cfunct3 o * 2) rd 5) as [-> _]; [lia|lia|lia|].
  rewrite Z.mod_small by lia. split; [done|]. split; [done|]. split; [done|unfold y; lia].
Qed.

(** A 16-bit instruction is none of 32 bits. *)
Lemma is32_short x m : Z.land x 3 <> 3 -> m mod 4 = 3 -> is32 x m = false.
Proof.
  intros H1 H2. apply Z.eqb_neq. rewrite land_707f. rewrite land_3 in H1. intros E. apply H1.
  change (2 ^ 7) with (32 * 4) in E. change (2 ^ 12) with (1024 * 4) in E. change (2 ^ 2) with 4.
  rewrite <- H2, <- E. rewrite Z.rem_mul_r by lia. Z.to_euclidean_division_equations. lia.
Qed.

Definition load_shift (o : load_op) : Z := match o with LH => 48 | LW => 32 | _ => 0 end.

(** The word in which [SET_RD] looks for the destination. *)
Definition rd_word (i : load_insn) : Z :=
  match i with CL _ rd _ _ _ => Z.shiftl (8 + rd) SH_RD | _ => encode_load i end.

Lemma decode_encode_load i : load_ok i ->
  decode_load (encode_load i) =
    Some (load_fp (load_op_of i), load_len (load_op_of i), load_shift (load_op_of i), rd_word i).
Proof.
  intros Ok. unfold decode_load. destruct i as [o rd rs1 imm|o rd rs1 immh imml|o rd immh imml].
  - destruct (L32_fields o rd rs1 imm Ok) as (E1 & _). unfold is32. rewrite E1. by destruct o.
  - destruct (CL_fields o rd rs1 immh imml Ok) as (E1 & E2 & E3 & _). rewrite !is32_short by (by rewrite ?E2).
    unfold is16. rewrite E1, E3. destruct Ok as [[->|[->| ->]] _]; done.
  - destruct (CI_fields o rd immh imml Ok) as (E1 & E2 & E3 & _). rewrite !is32_short by (by rewrite ?E2).
    unfold is16. rewrite E1. change 0x1f with (Z.ones 5). rewrite Z.land_ones, Z.shiftr_div_pow2 by (unfold SH_RD; lia).
    unfold SH_RD. rewrite E3.
    destruct Ok as [[->|[->| ->]] (_ & [?|Hrd] & _)]; try done; destruct (Z.eqb_spec rd 0); done.
Qed.

Lemma rd_word_num i : load_ok i -> reg_num (rd_word i) SH_RD = load_rd i.
Proof.
  intros Ok. rewrite reg_num_field by (unfold SH_RD; lia). unfold SH_RD.
  destruct i as [o rd rs1 imm|o rd rs1 immh imml|o rd immh imml]; simpl rd_word; simpl load_rd.
  - by destruct (L32_fields o rd rs1 imm Ok) as (_ & _ & E & _).
  - destruct Ok as (_ & ? & _). unfold SH_RD. rewrite Z.shiftl_mul_pow2, Z.div_mul by lia. apply Z.mod_small. lia.
  - by destruct (CI_fields o rd immh imml Ok) as (_ & _ & E & _).
Qed.

Lemma encode_load_len i : load_ok i -> INSN_LEN (encode_load i) = load_size i /\
  Z.land (encode_load i) 3 = (if load_size i =? 4 then 3 else Z.land (encode_load i) 3) /\
  0 <= encode_load i < (if load_size i =? 4 then 2 ^ 32 else 2 ^ 16).
Proof.
  intros Ok. unfold INSN_LEN, INSN_16BIT_MASK. destruct i as [o rd rs1 imm|o rd rs1 immh imml|o rd immh imml].
  - destruct (L32_fields o rd rs1 imm Ok) as (_ & E & _ & R). by rewrite E.
  - destruct (CL_fields o rd rs1 immh imml Ok) as (_ & E & _ & R). by rewrite E.
  - destruct (CI_fields o rd immh imml Ok) as (_ & E & _ & R). by rewrite E.
Qed.

(** ** Values in memory *)
Definition bytes_ok (m : mem) : Prop := forall a, 0 <= ld m a < 256.

(** The little-endian number of [k] bytes. *)
Fixpoint le (m : mem) (addr : Z) (k : nat) : Z :=
  match k with O => 0 | S k' => ld m (u64 addr) + 256 * le m (addr + 1) k' end.

Lemma le_range m addr k : bytes_ok m -> 0 <= le m addr k < 2 ^ (8 * Z.of_nat k).
Proof.
  intros Hb. revert addr. induction k as [|k IH]; intros addr; [simpl; lia|]. cbn [le].
  specialize (IH (addr + 1)). specialize (Hb (u64 addr)).
  replace (8 * Z.of_nat (S k)) with (8 + 8 * Z.of_nat k) by lia. rewrite Z.pow_add_r by lia. lia.
Qed.

(** The instruction in memory at [pc]. *)
Definition insn_at (m : machine) (pc x size : Z) : Prop :=
  if size =? 4 then half m pc + 2 ^ 16 * half m (u64 (pc + 2)) = x else half m pc = x.

(** The first of [k] bytes at which an access traps. *)
Definition faults_at (f : Z -> option sbi_trap_info) (addr : Z) (k j : nat) (t : sbi_trap_info) : Prop :=
  (j < k)%nat /\ f (u64 (addr + Z.of_nat j)) = Some t /\
  forall i, (i < j)%nat -> f (u64 (addr + Z.of_nat i)) = None.
Definition no_fault (f : Z -> option sbi_trap_info) (addr : Z) (k : nat) : Prop :=
  forall i, (i < k)%nat -> f (u64 (addr + Z.of_nat i)) = None.

Section Correct.
Context `{UserAccess} (hext : bool).

Lemma load_loop_ok k addr i m : 0 <= i -> no_fault load_fault (addr + i) k ->
  load_loop k addr i m = inl (2 ^ (8 * i) * le (umem m) (addr + i) k).
Proof.
  revert i. induction k as [|k IH]; intros i Hi Hn; simpl; [f_equal; lia|].
  unfold sbi_load_u8. assert (load_fault (u64 (addr + i)) = None) as ->.
  { rewrite <- (Hn O) by lia. f_equal. f_equal. lia. }
  rewrite IH; [|lia|].
  - f_equal. rewrite Z.shiftl_mul_pow2 by lia. replace (8 * (i + 1)) with (8 * i + 8) by lia.
    rewrite Z.pow_add_r by lia. rewrite Z.add_assoc. lia.
  - intros j Hj. rewrite <- (Hn (S j)) by lia. f_equal. f_equal. lia.
Qed.

Lemma load_loop_fault k addr i m j t : faults_at load_fault (addr + i) k j t -> load_loop k addr i m = inr t.
Proof.
  revert i j. induction k as [|k IH]; intros i j (Hj & Hf & Hb); [lia|]. simpl. unfold sbi_load_u8.
  destruct j as [|j].
  - replace (addr + i + Z.of_nat 0) with (addr + i) in Hf by lia. by rewrite Hf.
  - assert (load_fault (u64 (addr + i)) = None) as ->.
    { rewrite <- (Hb O) by lia. f_equal. f_equal. lia. }
    rewrite (IH (i + 1) j); [done|]. split; [lia|]. split.
    + rewrite <- Hf. f_equal. f_equal. lia.
    + intros n Hn. rewrite <- (Hb (S n)) by lia. f_equal. f_equal. lia.
Qed.

Lemma sext_shift v w sh : 0 < w -> 0 < sh -> w + sh = 64 -> 0 <= v < 2 ^ w ->
  Z.shiftr (s64 (Z.shiftl v sh)) sh = sgn w v.
Proof.
  intros Hw Hsh E Hv. rewrite Z.shiftl_mul_pow2, Z.shiftr_div_pow2 by lia. unfold sgn.
  assert (2 ^ 64 = 2 ^ w * 2 ^ sh) as P by (rewrite <- Z.pow_add_r by lia; f_equal; lia).
  assert (0 < 2 ^ sh) by lia.
  assert (2 ^ 63 = 2 ^ (w - 1) * 2 ^ sh) as P' by (rewrite <- Z.pow_add_r by lia; f_equal; lia).
  rewrite !Z.mod_small by (split; [|rewrite ?P]; nia).
  change (64 - 1) with 63. rewrite P'.
  destruct (Z.ltb_spec (v * 2 ^ sh) (2 ^ (w - 1) * 2 ^ sh)), (Z.ltb_spec v (2 ^ (w - 1))); try nia.
  - rewrite Z.div_mul by lia. done.
  - replace (v * 2 ^ sh - 2 ^ 64) with ((v - 2 ^ w) * 2 ^ sh) by lia. by rewrite Z.div_mul by lia.
Qed.

Lemma load_value_ext o v : load_fp o = false -> 0 <= v < 2 ^ (8 * Z.of_nat (load_len o)) ->
  u64 (Z.shiftr (s64 (Z.shiftl v (load_shift o))) (load_shift o)) = load_value o v.
Proof.
  intros Hf Hv. destruct o; try done; simpl in Hv; simpl load_shift; simpl load_value;
    try (rewrite (sext_shift v 16) by lia; done); try (rewrite (sext_shift v 32) by lia; done).
  - rewrite Z.shiftl_0_r, Z.shiftr_0_r, sgn_small by (simpl; lia). apply wrap_small. lia.
  - rewrite Z.shiftl_0_r, Z.shiftr_0_r, sgn_small by (simpl; lia). apply wrap_small. lia.
  - rewrite Z.shiftl_0_r, Z.shiftr_0_r. unfold sgn, wrap. change (64 - 1) with 63. rewrite (Z.mod_small v) by lia.
    case_match; [apply Z.mod_small; lia|]. rewrite <- (Z.mod_add _ 1) by lia.
    replace (v - 2 ^ 64 + 1 * 2 ^ 64) with v by lia. apply Z.mod_small. lia.
Qed.

Lemma box_single v : 0 <= v < 2 ^ 32 -> Z.lor (Z.shiftl 0xffffffff 32) (u32 v) = 0xffffffff * 2 ^ 32 + v.
Proof.
  intros Hv. rewrite wrap_small, Z.shiftl_mul_pow2 by lia. symmetry. apply Z.add_nocarry_lor. apply Z.bits_inj'. intros n Hn.
  rewrite Z.land_spec, Z.bits_0. destruct (decide (n < 32)).
  - rewrite Z.mul_pow2_bits_low by lia. done.
  - rewrite <- (Z.mod_small v (2 ^ 32)) by lia. rewrite Z.mod_pow2_bits_high by lia. apply andb_false_r.
Qed.

(** The instruction is found, in memory or in [tinst]. *)
Definition traps_on (m : machine) (tin x size : Z) : Prop :=
  (Z.testbit tin 0 = true /\ Z.lor tin 3 = x /\ size = (if Z.testbit tin 1 then INSN_LEN x else 2)) \/
  (Z.testbit tin 0 = false /\ fetch_fault (mepc (regs m)) = None /\
   (size = 4 -> fetch_fault (u64 (mepc (regs m) + 2)) = None) /\
   insn_at m (mepc (regs m)) x size /\ INSN_LEN x = size).

Lemma half_range m a : bytes_ok (umem m) -> 0 <= half m a < 2 ^ 16.
Proof. intros Hb. unfold half. pose proof (Hb a). pose proof (Hb (u64 (a + 1))). lia. Qed.

Lemma traps_on_insn m tin x size : bytes_ok (umem m) -> traps_on m tin x size -> trapped_insn tin m = inl (x, size).
Proof.
  intros Hb [(H1 & H2 & ->)|(H1 & H2 & H3 & H4 & H5)]; unfold trapped_insn; rewrite H1.
  - unfold INSN_16BIT_MASK. by rewrite H2.
  - unfold sbi_get_insn. rewrite H2. unfold insn_at in H4. unfold INSN_LEN, INSN_16BIT_MASK in *.
    pose proof (half_range m (mepc (regs m)) Hb) as R1.
    destruct (Z.eqb_spec size 4) as [->|].
    + assert (Z.land (half m (mepc (regs m))) 3 = Z.land x 3) as E.
      { rewrite <- H4, !land_3. change (2 ^ 16) with (2 ^ 14 * 2 ^ 2).
        rewrite <- Z.mul_assoc, (Z.mul_comm (2 ^ 2)), Z.mul_assoc. by rewrite Z.mod_add by lia. }
      rewrite E. destruct (Z.land x 3 =? 3) eqn:E3; [|done]. rewrite H3 by done.
      rewrite Z.shiftl_mul_pow2, Z.mul_comm, H4 by lia. by rewrite E3.
    + rewrite H4. destruct (Z.land x 3 =? 3) eqn:E3; [congruence|]. rewrite E3. by subst size.
Qed.

(** The state after an emulated instruction. *)
Record emulated (m m' : machine) (size : Z) : Prop := {
  em_pc : mepc (regs m') = u64 (mepc (regs m) + size);
  em_status : mstatus (regs m') = mstatus (regs m);
  em_csrs : csrs m' = csrs m }.

(** C24. A misaligned load of any of the 13 formats, read from memory or reported by the
    processor, does what the instruction does at an aligned address: the register
    gets the little-endian value of the bytes, with the sign or zeros extended or
    boxed as the instruction says, no other register and no memory changes, and the
    program goes on behind the instruction. When a byte cannot be read, nothing
    changes and the software gets the trap of the first such byte, at the load. *)
Theorem sbi_misaligned_load_correct i addr tv2 tin m size (o := load_op_of i) (rd := load_rd i) :
  load_ok i -> bytes_ok (umem m) -> traps_on m tin (encode_load i) size ->
  (no_fault load_fault addr (load_len o) -> exists m',
     sbi_misaligned_load_handler hext addr tv2 tin m = (0, m') /\
     emulated m m' size /\ umem m' = umem m /\
     (forall r, ld (xregs (regs m')) r =
        if negb (load_fp o) && (r =? rd) then load_value o (le (umem m) addr (load_len o)) else ld (xregs (regs m)) r) /\
     (forall r, ld (fregs m') r =
        if load_fp o && (r =? rd) then load_value o (le (umem m) addr (load_len o)) else ld (fregs m) r)) /\
  (forall j t, faults_at load_fault addr (load_len o) j t ->
     sbi_misaligned_load_handler hext addr tv2 tin m = redirect hext t m).
Proof.
  intros Ok Hb Ht. unfold sbi_misaligned_load_handler.
  rewrite (traps_on_insn m tin _ size Hb Ht), decode_encode_load by done. fold o. split.
  - intros Hn. rewrite load_loop_ok by (rewrite ?Z.add_0_r; done || lia). rewrite Z.add_0_r, Z.mul_1_l.
    pose proof (le_range (umem m) addr (load_len o) Hb) as R. eexists. split; [done|].
    unfold SET_RD, SET_F32_RD, SET_F64_RD. rewrite rd_word_num by done. fold rd.
    destruct (load_fp o) eqn:Hf; simpl.
    + assert (load_value o (le (umem m) addr (load_len o)) =
        (if (load_len o =? 8)%nat then le (umem m) addr (load_len o)
         else Z.lor (Z.shiftl 0xffffffff 32) (u32 (le (umem m) addr (load_len o))))) as E.
      { destruct o; try done. simpl load_value. simpl Nat.eqb. by rewrite box_single. }
      split; [by destruct (load_len o =? 8)%nat|]. split; [by destruct (load_len o =? 8)%nat|].
      split; [by destruct (load_len o =? 8)%nat|]. intros r. rewrite E.
      destruct (load_len o =? 8)%nat; simpl; rewrite ld_st; destruct (Z.eqb_spec r rd); case_decide; done || congruence.
    + split; [done|]. split; [done|]. split; [|done]. intros r. rewrite load_value_ext by done.
      rewrite ld_st. destruct (Z.eqb_spec r rd); case_decide; done || congruence.
  - intros j t Hf. by rewrite (load_loop_fault _ addr 0 m j t) by (by rewrite Z.add_0_r).
Qed.
End Correct.

(** ** Store instructions *)
Inductive store_op := SH | SW | SD | FSW | FSD.

Definition store_len (o : store_op) : nat := match o with SH => 2 | SW | FSW => 4 | SD | FSD => 8 end.
Definition store_fp (o : store_op) : bool := match o with FSW | FSD => true | _ => false end.

Inductive store_insn :=
  | S32 (o : store_op) (rs2 rs1 immh imml : Z)
  | CS (o : store_op) (rs2 rs1 immh imml : Z)
  | CSS (o : store_op) (rs2 imm : Z).

Definition store_op_of (i : store_insn) : store_op := match i with S32 o _ _ _ _ | CS o _ _ _ _ | CSS o _ _ => o end.
Definition store_rs2 (i : store_insn) : Z := match i with S32 _ r _ _ _ | CSS _ r _ => r | CS _ r _ _ _ => 8 + r end.

Definition store_match (o : store_op) : Z :=
  match o with
  | SH => INSN_MATCH_SH | SW => INSN_MATCH_SW | SD => INSN_MATCH_SD | FSW => INSN_MATCH_FSW | FSD => INSN_MATCH_FSD
  end.
Definition sopcode (o : store_op) : Z := if store_fp o then 0x27 else 0x23.
Definition sfunct3 (o : store_op) : Z := match o with SH => 1 | SW | FSW => 2 | SD | FSD => 3 end.
Definition csfunct3 (o : store_op) : Z := match o with SW => 6 | SD => 7 | _ => 5 end.

Definition encode_store (i : store_insn) : Z :=
  match i with
  | S32 o rs2 rs1 immh imml =>
      sopcode o + imml * 2 ^ 7 + sfunct3 o * 2 ^ 12 + rs1 * 2 ^ 15 + rs2 * 2 ^ 20 + immh * 2 ^ 25
  | CS o rs2 rs1 immh imml => rs2 * 2 ^ 2 + imml * 2 ^ 5 + rs1 * 2 ^ 7 + immh * 2 ^ 10 + csfunct3 o * 2 ^ 13
  | CSS o rs2 imm => 2 + rs2 * 2 ^ 2 + imm * 2 ^ 7 + csfunct3 o * 2 ^ 13
  end.

Definition scompressible (o : store_op) : Prop := o = SW \/ o = SD \/ o = FSD.
Definition store_ok (i : store_insn) : Prop :=
  match i with
  | S32 o rs2 rs1 immh imml => 0 <= rs2 < 32 /\ 0 <= rs1 < 32 /\ 0 <= immh < 2 ^ 7 /\ 0 <= imml < 32
  | CS o rs2 rs1 immh imml => scompressible o /\ 0 <= rs2 < 8 /\ 0 <= rs1 < 8 /\ 0 <= immh < 8 /\ 0 <= imml < 4
  | CSS o rs2 imm => scompressible o /\ 0 <= rs2 < 32 /\ 0 <= imm < 2 ^ 6
  end.

(** The stores relative to the stack pointer that the test of the destination field, in
    which they have a part of the offset, rejects. *)
Definition rejected (i : store_insn) : bool :=
  match i with CSS o _ imm => negb (store_fp o) && (imm mod 32 =? 0) | _ => false end.

Lemma S32_fields o rs2 rs1 immh imml (x := encode_store (S32 o rs2 rs1 immh imml)) :
  store_ok (S32 o rs2 rs1 immh imml) -> Z.land x 0x707f = store_match o /\ (x / 2 ^ 20) mod 2 ^ 5 = rs2.
Proof.
  intros (H1 & H2 & H3 & H4). unfold x. cbn [encode_store].
  assert (0 <= sopcode o < 2 ^ 7) by (destruct o; unfold sopcode; simpl; lia).
  assert (0 <= sfunct3 o < 2 ^ 3) by (destruct o; simpl; lia).
  set (y := _ + _). rewrite land_707f.
  destruct (field_mod y (imml + sfunct3 o * 2 ^ 5 + rs1 * 2 ^ 8 + rs2 * 2 ^ 13 + immh * 2 ^ 18) (sopcode o) 7) as [-> _];
    [lia|unfold y; lia|lia|].
  destruct (field_mod y (sfunct3 o + rs1 * 2 ^ 3 + rs2 * 2 ^ 8 + immh * 2 ^ 13) (sopcode o + imml * 2 ^ 7) 12) as [_ ->];
    [lia|unfold y; lia|lia|].
  destruct (field_mod (sfunct3 o + rs1 * 2 ^ 3 + rs2 * 2 ^ 8 + immh * 2 ^ 13) (rs1 + rs2 * 2 ^ 5 + immh * 2 ^ 10) (sfunct3 o) 3)
    as [-> _]; [lia|lia|lia|].
  destruct (field_mod y (rs2 + immh * 2 ^ 5) (sopcode o + imml * 2 ^ 7 + sfunct3 o * 2 ^ 12 + rs1 * 2 ^ 15) 20) as [_ ->];
    [lia|unfold y; lia|lia|].
  destruct (field_mod (rs2 + immh * 2 ^ 5) immh rs2 5) as [-> _]; [lia|lia|lia|]. split; [by destruct o|done].
Qed.

Lemma CS_fields o rs2 rs1 immh imml (x := encode_store (CS o rs2 rs1 immh imml)) : store_ok (CS o rs2 rs1 immh imml) ->
  Z.land x 0xe003 = csfunct3 o * 2 ^ 13 /\ Z.land x 3 = 0 /\ RVC_RS2S x = 8 + rs2.
Proof.
  intros (_ & H1 & H2 & H3 & H4). unfold x. cbn [encode_store].
  assert (0 <= csfunct3 o < 2 ^ 3) by (destruct o; simpl; lia).
  set (y := _ + _). rewrite land_e003, land_3. unfold RVC_RS2S, RV_X, SH_RS2C.
  change (Z.shiftl 1 3 - 1) with (Z.ones 3). rewrite Z.land_ones, Z.shiftr_div_pow2 by lia.
  destruct (field_mod y (rs2 + imml * 2 ^ 3 + rs1 * 2 ^ 5 + immh * 2 ^ 8 + csfunct3 o * 2 ^ 11) 0 2) as [-> ->];
    [lia|unfold y; lia|lia|].
  destruct (field_mod y (csfunct3 o) (rs2 * 2 ^ 2 + imml * 2 ^ 5 + rs1 * 2 ^ 7 + immh * 2 ^ 10) 13) as [_ ->];
    [lia|unfold y; lia|lia|].
  destruct (field_mod (rs2 + imml * 2 ^ 3 + rs1 * 2 ^ 5 + immh * 2 ^ 8 + csfunct3 o * 2 ^ 11)
    (imml + rs1 * 2 ^ 2 + immh * 2 ^ 5 + csfunct3 o * 2 ^ 8) rs2 3) as [-> _]; [lia|lia|lia|].
  rewrite Z.mod_small by lia. done.
Qed.

Lemma CSS_fields o rs2 imm (x := encode_store (CSS o rs2 imm)) : store_ok (CSS o rs2 imm) ->
  Z.land x 0xe003 = 2 + csfunct3 o * 2 ^ 13 /\ Z.land x 3 = 2 /\
  (x / 2 ^ 7) mod 2 ^ 5 = imm mod 32 /\ (x / 2 ^ 2) mod 2 ^ 5 = rs2.
Proof.
  intros (_ & H1 & H3). unfold x. cbn [encode_store].
  assert (0 <= csfunct3 o < 2 ^ 3) by (destruct o; simpl; lia).
  set (y := _ + _). rewrite land_e003, land_3.
  destruct (field_mod y (rs2 + imm * 2 ^ 5 + csfunct3 o * 2 ^ 11) 2 2) as [-> ->]; [lia|unfold y; lia|lia|].
  destruct (field_mod y (csfunct3 o) (2 + rs2 * 2 ^ 2 + imm * 2 ^ 7) 13) as [_ ->]; [lia|unfold y; lia|lia|].
  destruct (field_mod y (imm + csfunct3 o * 2 ^ 6) (2 + rs2 * 2 ^ 2) 7) as [_ ->]; [lia|unfold y; lia|lia|].
  destruct (field_mod (rs2 + imm * 2 ^ 5 + csfunct3 o * 2 ^ 11) (imm + csfunct3 o * 2 ^ 6) rs2 5) as [-> _]; [lia|lia|lia|].
  rewrite Z.mod_small by lia. split; [done|]. split; [done|]. split; [|done].
  replace (csfunct3 o * 2 ^ 6) with (csfunct3 o * 2 * 32) by lia. change (2 ^ 5) with 32. by rewrite Z.mod_add.
Qed.

(** The value that is stored. *)
Definition store_value (i : store_insn) (m : machine) : Z :=
  if store_fp (store_op_of i) then ld (fregs m) (store_rs2 i) else ld (xregs (regs m)) (store_rs2 i).

Lemma decode_encode_store i m : store_ok i ->
  if rejected i then decode_store (encode_store i) m = None
  else exists v, decode_store (encode_store i) m = Some (store_len (store_op_of i), v) /\
    v mod 2 ^ (8 * Z.of_nat (store_len (store_op_of i))) =
    store_value i m mod 2 ^ (8 * Z.of_nat (store_len (store_op_of i))).
Proof.
  intros Ok. unfold decode_store, GET_REG, get_f64, get_f32, store_value.
  destruct i as [o rs2 rs1 immh imml|o rs2 rs1 immh imml|o rs2 imm]; simpl rejected.
  - destruct (S32_fields o rs2 rs1 immh imml Ok) as (E1 & E2). unfold is32. rewrite E1.
    rewrite !(reg_num_field _ SH_RS2) by (unfold SH_RS2; lia). unfold SH_RS2. rewrite E2.
    destruct o; simpl; eexists; (split; [reflexivity|]); try done.
    unfold sgn, wrap. change (2 ^ (8 * Z.of_nat 4)) with (2 ^ 32).
    change (2 ^ 64) with (2 ^ 32 * 2 ^ 32). rewrite Z.mod_mod_divide by (by exists (2 ^ 32)).
    case_match; [by rewrite Z.mod_mod by lia|]. rewrite Zminus_mod, Z.mod_same, Z.sub_0_r, !Z.mod_mod by lia. done.
  - destruct (CS_fields o rs2 rs1 immh imml Ok) as (E1 & E2 & E3). rewrite !is32_short by (by rewrite ?E2).
    unfold is16. rewrite E1, E3. rewrite !(reg_num_field _ 0) by lia. change (2 ^ 0) with 1. rewrite Z.div_1_r.
    rewrite Z.mod_small by (destruct Ok as (_ & ? & _); lia).
    destruct Ok as [[->|[->| ->]] _]; simpl; by eexists.
  - destruct (CSS_fields o rs2 imm Ok) as (E1 & E2 & E3 & E4). rewrite !is32_short by (by rewrite ?E2).
    unfold is16. rewrite E1. change 0x1f with (Z.ones 5). rewrite Z.land_ones, Z.shiftr_div_pow2 by (unfold SH_RD; lia).
    unfold SH_RD. rewrite E3. rewrite !(reg_num_field _ SH_RS2C) by (unfold SH_RS2C; lia). unfold SH_RS2C. rewrite E4.
    destruct Ok as [[->|[->| ->]] _]; simpl; destruct (Z.eqb_spec (imm mod 32) 0); simpl; by try eexists.
Qed.

(** ** Bytes in memory after a store *)
Definition byte (v i : Z) : Z := Z.land (Z.shiftr v (8 * i)) 0xff.

(** Address [a] is one of the [k] bytes from [addr] on. *)
Definition among (addr : Z) (k : nat) (a : Z) : Prop := exists j, (j < k)%nat /\ a = u64 (addr + Z.of_nat j).

Lemma u64_inj a i j : u64 (a + i) = u64 (a + j) -> 0 <= i < 2 ^ 64 -> 0 <= j < 2 ^ 64 -> i = j.
Proof. unfold wrap. intros. Z.to_euclidean_division_equations. lia. Qed.

(** The first bytes of [v] are in memory, and the rest of memory is as it was. *)
Record stored (m m' : mem) (addr : Z) (k : nat) (v : Z) : Prop := {
  st_bytes : forall j, (j < k)%nat -> ld m' (u64 (addr + Z.of_nat j)) = byte v (Z.of_nat j);
  st_rest : forall a, ~ among addr k a -> ld m' a = ld m a }.

Lemma byte_le v k : 0 <= k -> v mod 2 ^ (8 * (k + 1)) = v mod 2 ^ (8 * k) + 2 ^ (8 * k) * byte v k.
Proof.
  intros Hk. unfold byte. change 0xff with (Z.ones 8). rewrite Z.land_ones, Z.shiftr_div_pow2 by lia.
  replace (8 * (k + 1)) with (8 * k + 8) by lia. rewrite Z.pow_add_r by lia. apply Z.rem_mul_r; lia.
Qed.

Lemma le_snoc m addr k : le m addr (S k) = le m addr k + 2 ^ (8 * Z.of_nat k) * ld m (u64 (addr + Z.of_nat k)).
Proof.
  revert addr. induction k as [|k IH]; intros addr.
  - cbn [le]. change (Z.of_nat 0) with 0. rewrite (Z.add_0_r addr). change (2 ^ (8 * 0)) with 1. lia.
  - change (le m addr (S (S k))) with (ld m (u64 addr) + 256 * le m (addr + 1) (S k)). rewrite IH. cbn [le].
    replace (8 * Z.of_nat (S k)) with (8 + 8 * Z.of_nat k) by lia. rewrite Z.pow_add_r by lia.
    replace (addr + 1 + Z.of_nat k) with (addr + Z.of_nat (S k)) by lia. lia.
Qed.

Lemma stored_le m m' addr k v : stored m m' addr k v -> le m' addr k = v mod 2 ^ (8 * Z.of_nat k).
Proof.
  intros [Hb _]. induction k as [|k IH]; [simpl; by rewrite Z.mod_1_r|].
  rewrite le_snoc, IH by (intros; apply Hb; lia). rewrite Hb by lia.
  replace (8 * Z.of_nat (S k)) with (8 * (Z.of_nat k + 1)) by lia. by rewrite byte_le by lia.
Qed.

Section StoreCorrect.
Context `{UserAccess} (hext : bool).

(** What the loop has done after [k] bytes, without a trap, and with one at the next. *)
Lemma store_loop_stored k addr v : forall i m m0, stored m0 (umem m) addr i v ->
  (forall j, (i <= j < i + k)%nat -> store_fault (u64 (addr + Z.of_nat j)) = None) -> (i + k <= 8)%nat ->
  exists m1, (forall n, store_loop (k + n) addr (Z.of_nat i) v m = store_loop n addr (Z.of_nat (i + k)) v m1) /\
    regs m1 = regs m /\ csrs m1 = csrs m /\ fregs m1 = fregs m /\ stored m0 (umem m1) addr (i + k) v.
Proof.
  induction k as [|k IH]; intros i m m0 Hs Hf Hk.
  { exists m. rewrite Nat.add_0_r. done. }
  destruct (IH (S i) (mk_machine (regs m) (csrs m) (st (umem m) (u64 (addr + Z.of_nat i)) (byte v (Z.of_nat i))) (fregs m)) m0)
    as (m1 & E & R1 & R2 & R3 & S1).
  - destruct Hs as [Hb Hr]. constructor; simpl.
    + intros j Hj. rewrite ld_st. case_decide as D.
      * apply u64_inj in D; [|lia..]. by rewrite D.
      * apply Hb. assert (j <> i) by (intros ->; done). lia.
    + intros a Ha. rewrite ld_st_ne; [apply Hr; intros (j & ? & ?); apply Ha; exists j; split; [lia|done]|].
      intros <-. apply Ha. exists i. split; [lia|done].
  - intros j Hj. apply Hf. lia.
  - lia.
  - exists m1. replace (i + S k)%nat with (S i + k)%nat by lia. split; [|done]. intros n. rewrite <- E. simpl.
    unfold sbi_store_u8. rewrite (Hf i) by lia. unfold byte. do 2 f_equal. lia.
Qed.

Lemma stored_nil m addr v : stored m m addr 0 v.
Proof. constructor; [lia|done]. Qed.

(** C25. A misaligned store of the formats of the instruction set, other than the stores
    of integers relative to the stack pointer that the decoder rejects, puts the
    bytes of the register into memory in little-endian order, changes nothing else,
    and the program goes on behind the instruction. When a byte cannot be written
    the software gets the trap of the first such byte, with the bytes in front of
    it stored. *)
Theorem sbi_misaligned_store_correct i addr tv2 tin m size (o := store_op_of i) :
  store_ok i -> rejected i = false -> bytes_ok (umem m) -> traps_on m tin (encode_store i) size ->
  (no_fault store_fault addr (store_len o) -> exists m',
     sbi_misaligned_store_handler hext addr tv2 tin m = (0, m') /\ emulated m m' size /\
     xregs (regs m') = xregs (regs m) /\ fregs m' = fregs m /\
     le (umem m') addr (store_len o) = store_value i m mod 2 ^ (8 * Z.of_nat (store_len o)) /\
     forall a, ~ among addr (store_len o) a -> ld (umem m') a = ld (umem m) a) /\
  (forall j t, faults_at store_fault addr (store_len o) j t -> exists m1,
     sbi_misaligned_store_handler hext addr tv2 tin m = redirect hext t m1 /\
     regs m1 = regs m /\ csrs m1 = csrs m /\ fregs m1 = fregs m /\
     forall a, ~ among addr j a -> ld (umem m1) a = ld (umem m) a).
Proof.
  intros Ok Hrj Hb Ht. pose proof (decode_encode_store i m Ok) as D. rewrite Hrj in D. destruct D as (v & D & Hv).
  unfold sbi_misaligned_store_handler. rewrite (traps_on_insn m tin _ size Hb Ht), D. fold o in Hv |- *. clear D.
  assert (store_len o <= 8)%nat as Hlen by (destruct o; simpl; lia). split.
  - intros Hn. destruct (store_loop_stored (store_len o) addr v 0 m (umem m)) as (m1 & E & R1 & R2 & R3 & S1);
      [apply stored_nil|intros; apply Hn; lia|lia|].
    change (0 + store_len o)%nat with (store_len o) in S1. specialize (E 0%nat). rewrite Nat.add_0_r in E. simpl in E. change (Z.of_nat 0) with 0 in E. rewrite E.
    eexists. split; [done|]. simpl. rewrite R1. split; [by constructor|]. split; [done|]. split; [done|].
    split; [rewrite (stored_le _ _ _ _ _ S1); exact Hv|apply (st_rest _ _ _ _ _ S1)].
  - intros j t (Hj & Hf & Hbe).
    destruct (store_loop_stored j addr v 0 m (umem m)) as (m1 & E & R1 & R2 & R3 & S1);
      [apply stored_nil|intros; apply Hbe; lia|lia|].
    change (0 + j)%nat with j in *. specialize (E (store_len o - j)%nat). replace (j + (store_len o - j))%nat with (store_len o) in E by lia.
    change (Z.of_nat 0) with 0 in E. rewrite E. replace (store_len o - j)%nat with (S (store_len o - j - 1)) by lia.
    simpl. unfold sbi_store_u8. rewrite Hf. exists m1. split; [done|]. split; [done|]. split; [done|]. split; [done|].
    apply (st_rest _ _ _ _ _ S1).
Qed.

(** The stores of integers relative to the stack pointer with the lower five bits of
    the offset field zero are legal and are not emulated: the software gets the trap. *)
Theorem store_sp_rejected i addr tv2 tin m size : store_ok i -> rejected i = true -> bytes_ok (umem m) ->
  traps_on m tin (encode_store i) size ->
  sbi_misaligned_store_handler hext addr tv2 tin m =
    redirect hext (mk_trap 0 CAUSE_MISALIGNED_STORE addr tv2 tin) m.
Proof.
  intros Ok Hrj Hb Ht. pose proof (decode_encode_store i m Ok) as D. rewrite Hrj in D.
  unfold sbi_misaligned_store_handler. by rewrite (traps_on_insn m tin _ size Hb Ht), D.
Qed.
End StoreCorrect.

(** ** Examples: 4 GiB of memory *)
Definition ex_fault (c a : Z) : option sbi_trap_info := if a <? 2 ^ 32 then None else Some (mk_trap 0 c a 0 0).

Lemma ex_fault_cause c a t : c <> 0 -> ex_fault c a = Some t -> cause t <> 0.
Proof. unfold ex_fault. intros Hc. case_match; intros; by simplify_eq. Qed.

#[local] Instance ex_access : UserAccess := {
  load_fault := ex_fault 5; store_fault := ex_fault 7; fetch_fault := ex_fault 5; left_over := 0;
  load_fault_cause := fun a t => ex_fault_cause 5 a t ltac:(lia);
  store_fault_cause := fun a t => ex_fault_cause 7 a t ltac:(lia);
  fetch_fault_cause := fun a t => ex_fault_cause 5 a t ltac:(lia) }.

(** Memory with the bytes [l] from [a] on. *)
Fixpoint put_bytes (a : Z) (l : list Z) (m : mem) : mem :=
  match l with [] => m | b :: l' => st (put_bytes (a + 1) l' m) a (b mod 256) end.

Lemma put_bytes_ok a l m : bytes_ok m -> bytes_ok (put_bytes a l m).
Proof.
  revert a. induction l as [|b l IH]; intros a Hm; [done|]. intros x. simpl. rewrite ld_st.
  case_decide; [apply Z.mod_pos_bound; lia|by apply IH].
Qed.
Lemma empty_bytes_ok : bytes_ok ∅.
Proof. intros a. rewrite ld_empty. lia. Qed.

(** [lw a0, 1(a1)] and [c.sdsp a0, 8(sp)] with [a0] 0x1122, at the addresses 0x2001
    and 0x3009. *)
Definition ex_lw : load_insn := L32 LW 10 11 1.
Definition ex_sdsp : store_insn := CSS SD 10 8.
Definition ex_machine (x size : Z) : machine :=
  mk_machine (mk_regs (st ∅ 10 0x1122) 0x1000 0x4000) ex_csrs
    (put_bytes 0x2001 [0x78; 0x56; 0x34; 0xf2] (put_bytes 0x1000 [x; x / 256; x / 65536; x / 2 ^ 24] ∅)) ∅.

Lemma ex_machine_bytes x size : bytes_ok (umem (ex_machine x size)).
Proof. apply put_bytes_ok, put_bytes_ok, empty_bytes_ok. Qed.

Lemma ex_no_fault f a k c : f = ex_fault c -> 0 <= a -> a + Z.of_nat k <= 2 ^ 32 -> no_fault f a k.
Proof. intros -> Ha Hk j Hj. unfold ex_fault. rewrite wrap_small by lia. destruct (Z.ltb_spec (a + Z.of_nat j) (2 ^ 32)); [done|lia]. Qed.

Lemma sbi_misaligned_load_correct_witness :
  load_ok ex_lw /\ traps_on (ex_machine (encode_load ex_lw) 4) 0 (encode_load ex_lw) 4 /\
  exists m', sbi_misaligned_load_handler true 0x2001 0 0 (ex_machine (encode_load ex_lw) 4) = (0, m') /\
    ld (xregs (regs m')) 10 = 0xfffffffff2345678 /\ mepc (regs m') = 0x1004.
Proof.
  assert (load_ok ex_lw) as Ok by (simpl; lia).
  assert (traps_on (ex_machine (encode_load ex_lw) 4) 0 (encode_load ex_lw) 4) as Ht
    by (right; split_and!; by vm_compute).
  split; [done|]. split; [done|].
  destruct (sbi_misaligned_load_correct true ex_lw 0x2001 0 0 (ex_machine (encode_load ex_lw) 4) 4 Ok
    (ex_machine_bytes _ _) Ht) as [H _].
  destruct H as (m' & E & [P _ _] & _ & X & _); [by apply (ex_no_fault _ _ _ 5)|].
  exists m'. split; [exact E|]. rewrite X, P. split; by vm_compute.
Defined.

Lemma sbi_misaligned_store_correct_witness :
  store_ok ex_sdsp /\ rejected ex_sdsp = false /\
  exists m', sbi_misaligned_store_handler true 0x3009 0 0 (ex_machine (encode_store ex_sdsp) 2) = (0, m') /\
    le (umem m') 0x3009 8 = 0x1122 /\ mepc (regs m') = 0x1002.
Proof.
  assert (store_ok ex_sdsp) as Ok by (split; [right; by left|lia]).
  assert (traps_on (ex_machine (encode_store ex_sdsp) 2) 0 (encode_store ex_sdsp) 2) as Ht
    by (right; split_and!; by vm_compute).
  split; [done|]. split; [done|].
  destruct (sbi_misaligned_store_correct true ex_sdsp 0x3009 0 0 (ex_machine (encode_store ex_sdsp) 2) 2 Ok
    eq_refl (ex_machine_bytes _ _) Ht) as [H _].
  destruct H as (m' & E & [P _ _] & _ & _ & L & _); [by apply (ex_no_fault _ _ _ 7)|].
  exists m'. split; [exact E|]. change (store_len (store_op_of ex_sdsp)) with 8%nat in L. rewrite L, P. split; by vm_compute.
Defined.

(** An emulated load of a floating point register leaves the status of the floating
    point unit clean, so that the software below does not save the register. *)
Theorem fp_load_stays_clean :
  let m := ex_machine (encode_load (L32 FLD 10 11 1)) 4 in
  let '(rc, m') := sbi_misaligned_load_handler true 0x2001 0 0 m in
  rc = 0 /\ ld (fregs m') 10 = 0xf2345678 /\ ld (fregs m) 10 = 0 /\
  Z.land (mstatus (regs m')) MSTATUS_FS = 0x4000.
Proof. by vm_compute. Qed.
