(* ===== verification/SbiCsr.v ===== *)
(** * Emulation of counter registers

    [src/opensbi/lib/sbi/sbi_illegal_insn.c], [sbi_emulate_csr.c] and the time offset
    of [sbi_timer.c]: an illegal instruction that reads a counter, or sets the time
    offset of the guests, is carried out by the firmware; every other one is passed
    on. The counters, their enable registers and the features of the hart are those
    of the class [Counters]. *)

From S2P Require Import Prelude SbiFifo SbiTlb SbiDomain SbiTrap SbiEmul.

Definition CSR_HTIMEDELTA : Z := 0x605.
Definition CSR_MCYCLE : Z := 0xb00.
Definition CSR_CYCLE : Z := 0xc00.
Definition CSR_TIME : Z := 0xc01.
Definition CSR_INSTRET : Z := 0xc02.
Definition CSR_HPMCOUNTER3 : Z := 0xc03.
Definition CAUSE_ILLEGAL_INSTRUCTION : Z := 2.

(** The machine counters by register number, the enable registers, what the hart has,
    and the value of the timer if there is one. *)
Class Counters := {
  mcounter : Z -> Z;
  mcounteren : Z;
  hcounteren : Z;
  scounteren : Z;
  has_mcounteren : bool;
  has_scounteren : bool;
  mhpm_count : Z;
  get_time_val : option Z }.

(** A hart with the time offset of its guests. *)
Record thart := mk_thart { mach : machine; time_delta : Z }.

Section Csr.
Context `{UserAccess} `{Counters} (hext : bool).

(** ** [sbi_timer.c] *)
Definition sbi_timer_value : Z := default 0 get_time_val.
Definition sbi_timer_virt_value (m : thart) : Z := u64 (sbi_timer_value + time_delta m).
Definition sbi_timer_get_delta (m : thart) : Z := time_delta m.
Definition sbi_timer_set_delta (d : Z) (m : thart) : thart := mk_thart (mach m) d.

(** ** [sbi_emulate_csr.c] *)
Definition hpm_allowed (hpm_num mode : Z) (virt : bool) : bool :=
  let cen := 2 ^ 64 - 1 in
  let cen := if mode <=? PRV_S then
               if has_mcounteren then
                 let cen := Z.land cen mcounteren in
                 if virt then Z.land cen hcounteren else cen
               else 0
             else cen in
  let cen := if mode =? PRV_U then if has_scounteren then Z.land cen scounteren else 0 else cen in
  negb (Z.land (Z.shiftr cen hpm_num) 1 =? 0).

(** [None] is [SBI_ENOTSUPP]. *)
Definition sbi_emulate_csr_read (csr_num : Z) (m : thart) : option Z :=
  let r := regs (mach m) in
  let mode := prev_mode r in
  let virt := prev_virt r in
  if csr_num =? CSR_HTIMEDELTA then
    if (mode =? PRV_S) && negb virt then Some (sbi_timer_get_delta m) else None
  else if csr_num =? CSR_CYCLE then
    if hpm_allowed (csr_num - CSR_CYCLE) mode virt then Some (mcounter CSR_MCYCLE) else None
  else if csr_num =? CSR_TIME then Some (if virt then sbi_timer_virt_value m else sbi_timer_value)
  else if csr_num =? CSR_INSTRET then
    if hpm_allowed (csr_num - CSR_CYCLE) mode virt then Some (mcounter 0xb02) else None
  else if (CSR_HPMCOUNTER3 <=? csr_num) && (csr_num <=? 0xc1f) then
    if mhpm_count + 3 <=? csr_num - CSR_CYCLE then None
    else if hpm_allowed (csr_num - CSR_CYCLE) mode virt then Some (mcounter (CSR_MCYCLE + csr_num - CSR_CYCLE))
    else None
  else None.

Definition sbi_emulate_csr_write (csr_num v : Z) (m : thart) : option thart :=
  let r := regs (mach m) in
  if csr_num =? CSR_HTIMEDELTA then
    if (prev_mode r =? PRV_S) && negb (prev_virt r) then Some (sbi_timer_set_delta v m) else None
  else None.

(** ** [sbi_illegal_insn.c] *)
Definition on_mach (f : machine -> Z * machine) (m : thart) : Z * thart :=
  let '(rc, m') := f (mach m) in (rc, mk_thart m' (time_delta m)).

Definition truly_illegal_insn (insn : Z) (m : thart) : Z * thart :=
  on_mach (redirect hext (mk_trap 0 CAUSE_ILLEGAL_INSTRUCTION insn 0 0)) m.

Definition GET_RM (insn : Z) : Z := Z.land (Z.shiftr insn 12) 7.

(** The value to write, and whether it is written. *)
Definition new_csr_val (insn csr_val rs1_num rs1_val : Z) : option (Z * bool) :=
  let do_write := negb (rs1_num =? 0) in
  let rm := GET_RM insn in
  if rm =? 1 then Some (rs1_val, true)
  else if rm =? 2 then Some (Z.lor csr_val rs1_val, do_write)
  else if rm =? 3 then Some (Z.land csr_val (Z.lnot rs1_val), do_write)
  else if rm =? 5 then Some (rs1_num, true)
  else if rm =? 6 then Some (Z.lor csr_val rs1_num, do_write)
  else if rm =? 7 then Some (Z.land csr_val (Z.lnot rs1_num), do_write)
  else None.

Definition system_opcode_insn (insn : Z) (m : thart) : Z * thart :=
  let rs1_num := Z.land (Z.shiftr insn 15) 0x1f in
  let rs1_val := GET_REG insn SH_RS1 (regs (mach m)) in
  let csr_num := Z.shiftr (u32 insn) 20 in
  let finish csr_val m1 :=
    let r := SET_RD insn csr_val (regs (mach m1)) in
    (0, mk_thart (with_regs (set_mepc (u64 (mepc r + 4)) r) (mach m1)) (time_delta m1)) in
  match sbi_emulate_csr_read csr_num m with
  | None => truly_illegal_insn insn m
  | Some csr_val =>
      match new_csr_val insn csr_val rs1_num rs1_val with
      | None => truly_illegal_insn insn m
      | Some (v, false) => finish csr_val m
      | Some (v, true) =>
          match sbi_emulate_csr_write csr_num v m with
          | None => truly_illegal_insn insn m
          | Some m1 => finish csr_val m1
          end
      end
  end.

(** The table has one entry that is not [truly_illegal_insn]. *)
Definition illegal_insn_table (k insn : Z) : thart -> Z * thart :=
  if k =? 28 then system_opcode_insn insn else truly_illegal_insn insn.

Definition sbi_illegal_insn_handler (insn : Z) (m : thart) : Z * thart :=
  if negb (Z.land insn 3 =? 3) then
    match sbi_get_insn (mepc (regs (mach m))) (mach m) with
    | inr t => on_mach (redirect hext t) m
    | inl insn =>
        if negb (Z.land insn 3 =? 3) then truly_illegal_insn insn m
        else illegal_insn_table (Z.shiftr (Z.land insn 0x7c) 2) insn m
    end
  else illegal_insn_table (Z.shiftr (Z.land insn 0x7c) 2) insn m.

(** ** The instructions *)
Inductive csr_op := CSRRW | CSRRS | CSRRC | CSRRWI | CSRRSI | CSRRCI.

Definition csr_funct3 (o : csr_op) : Z :=
  match o with CSRRW => 1 | CSRRS => 2 | CSRRC => 3 | CSRRWI => 5 | CSRRSI => 6 | CSRRCI => 7 end.

(** The instruction word; [src] is a register or the value itself. *)
Definition encode_csr (o : csr_op) (rd src csr : Z) : Z :=
  0x73 + rd * 2 ^ 7 + csr_funct3 o * 2 ^ 12 + src * 2 ^ 15 + csr * 2 ^ 20.

Definition operand (o : csr_op) (src : Z) (r : sbi_trap_regs) : Z :=
  match o with CSRRW | CSRRS | CSRRC => if src =? 0 then 0 else ld (xregs r) src | _ => src end.
Definition csr_result (o : csr_op) (old v : Z) : Z :=
  match o with
  | CSRRW | CSRRWI => v
  | CSRRS | CSRRSI => Z.lor old v
  | CSRRC | CSRRCI => Z.land old (Z.lnot v)
  end.
Definition csr_writes (o : csr_op) (src : Z) : bool :=
  match o with CSRRW | CSRRWI => true | _ => negb (src =? 0) end.

(** What software in a mode may read: the counters that the firmware, the hypervisor
    for its guests and the supervisor for its programs enable, the time, and the
    time offset for a hypervisor. *)
Definition enabled (n : Z) (super virt : bool) : bool :=
  has_mcounteren && Z.testbit mcounteren n && (negb virt || Z.testbit hcounteren n)
  && (super || (has_scounteren && Z.testbit scounteren n)).

Definition csr_value (csr : Z) (super virt : bool) (m : thart) : option Z :=
  if csr =? CSR_HTIMEDELTA then if super && negb virt then Some (time_delta m) else None
  else if csr =? CSR_TIME then Some (if virt then u64 (default 0 get_time_val + time_delta m) else default 0 get_time_val)
  else if (CSR_CYCLE <=? csr) && (csr <? CSR_CYCLE + 32) then
    let n := csr - CSR_CYCLE in
    if ((n <=? 2) || (n <? mhpm_count + 3)) && enabled n super virt then Some (mcounter (CSR_MCYCLE + n)) else None
  else None.
End Csr.

(** ** Fields of the instruction *)
Lemma csr_fields o rd src csr (x := encode_csr o rd src csr) : 0 <= rd < 32 -> 0 <= src < 32 -> 0 <= csr < 2 ^ 12 ->
  Z.land x 3 = 3 /\ Z.shiftr (Z.land x 0x7c) 2 = 28 /\ GET_RM x = csr_funct3 o /\
  Z.land (Z.shiftr x 15) 0x1f = src /\ reg_num x SH_RS1 = src /\ reg_num x SH_RD = rd /\ Z.shiftr (u32 x) 20 = csr /\
  INSN_LEN x = 4.
Proof.
  intros H1 H2 H3. assert (0 <= csr_funct3 o < 8) by (destruct o; simpl; lia).
  assert (x = (rd * 2 ^ 5 + csr_funct3 o * 2 ^ 10 + src * 2 ^ 13 + csr * 2 ^ 18 + 28) * 2 ^ 2 + 3) as E2
    by (unfold x, encode_csr; lia).
  assert (x = (csr_funct3 o + src * 2 ^ 3 + csr * 2 ^ 8) * 2 ^ 12 + (0x73 + rd * 2 ^ 7)) as E12
    by (unfold x, encode_csr; lia).
  assert (x = (src + csr * 2 ^ 5) * 2 ^ 15 + (0x73 + rd * 2 ^ 7 + csr_funct3 o * 2 ^ 12)) as E15
    by (unfold x, encode_csr; lia).
  assert (x = (rd + csr_funct3 o * 2 ^ 5 + src * 2 ^ 8 + csr * 2 ^ 13) * 2 ^ 7 + 0x73) as E7
    by (unfold x, encode_csr; lia).
  assert (Z.land x 3 = 3) as L3. { rewrite land_3. by destruct (field_mod _ _ _ 2 ltac:(lia) E2) as [-> _]. }
  assert ((x / 2 ^ 15) mod 2 ^ 5 = src) as S5.
  { destruct (field_mod _ _ _ 15 ltac:(lia) E15) as [_ ->]; [lia|].
    by destruct (field_mod (src + csr * 2 ^ 5) csr src 5) as [-> _]; [lia|lia|lia|]. }
  split; [done|]. split; [|split; [|split; [|split; [|split; [|split]]]]].
  - rewrite Z.shiftr_land. change (Z.shiftr 0x7c 2) with (Z.ones 5). rewrite Z.land_ones, Z.shiftr_div_pow2 by lia.
    destruct (field_mod _ _ _ 2 ltac:(lia) E2) as [_ ->]; [lia|].
    by destruct (field_mod (rd * 2 ^ 5 + csr_funct3 o * 2 ^ 10 + src * 2 ^ 13 + csr * 2 ^ 18 + 28)
      (rd + csr_funct3 o * 2 ^ 5 + src * 2 ^ 8 + csr * 2 ^ 13) 28 5) as [-> _]; [lia|lia|lia|].
  - unfold GET_RM. change 7 with (Z.ones 3). rewrite Z.land_ones, Z.shiftr_div_pow2 by lia.
    destruct (field_mod _ _ _ 12 ltac:(lia) E12) as [_ ->]; [lia|].
    by destruct (field_mod (csr_funct3 o + src * 2 ^ 3 + csr * 2 ^ 8) (src + csr * 2 ^ 5) (csr_funct3 o) 3) as [-> _];
      [lia|lia|lia|].
  - change 0x1f with (Z.ones 5). by rewrite Z.land_ones, Z.shiftr_div_pow2 by lia.
  - rewrite reg_num_field by (unfold SH_RS1; lia). done.
  - rewrite reg_num_field by (unfold SH_RD; lia). unfold SH_RD. destruct (field_mod _ _ _ 7 ltac:(lia) E7) as [_ ->]; [lia|].
    by destruct (field_mod (rd + csr_funct3 o * 2 ^ 5 + src * 2 ^ 8 + csr * 2 ^ 13) (csr_funct3 o + src * 2 ^ 3 + csr * 2 ^ 8) rd 5)
      as [-> _]; [lia|lia|lia|].
  - rewrite wrap_small by lia. rewrite Z.shiftr_div_pow2 by lia.
    destruct (field_mod x csr (0x73 + rd * 2 ^ 7 + csr_funct3 o * 2 ^ 12 + src * 2 ^ 15) 20) as [_ ->]; [lia|unfold x, encode_csr; lia|lia|done].
  - unfold INSN_LEN, INSN_16BIT_MASK. by rewrite L3.
Qed.

Lemma odd_bit c n : 0 <= n -> negb (Z.land (Z.shiftr c n) 1 =? 0) = Z.testbit c n.
Proof.
  intros Hn. change 1 with (2 ^ 0). fold (has (Z.shiftr c n) (2 ^ 0)). rewrite has_bit, Z.shiftr_spec by lia. done.
Qed.

Section CsrCorrect.
Context `{UserAccess} `{Counters} (hext : bool).

Lemma hpm_allowed_enabled n super virt : 0 <= n < 32 ->
  hpm_allowed n (if super : bool then PRV_S else PRV_U) virt = enabled n super virt.
Proof.
  intros Hn. unfold hpm_allowed, enabled. rewrite odd_bit by lia.
  assert (Z.testbit (2 ^ 64 - 1) n = true) as O by (change (2 ^ 64 - 1) with (Z.ones 64); apply Z.ones_spec_low; lia).
  destruct super, has_mcounteren, has_scounteren, virt; simpl;
    rewrite ?Z.land_spec, ?O, ?Z.bits_0; simpl; rewrite ?andb_true_r, ?andb_false_r; done.
Qed.

Lemma csr_read_value csr super virt m : 0 <= csr -> 0 <= mhpm_count ->
  prev_mode (regs (mach m)) = (if super : bool then PRV_S else PRV_U) -> prev_virt (regs (mach m)) = virt ->
  sbi_emulate_csr_read csr m = csr_value csr super virt m.
Proof.
  intros Hc Hm Ep Ev. unfold sbi_emulate_csr_read, csr_value. rewrite Ep, Ev.
  unfold CSR_HTIMEDELTA, CSR_CYCLE, CSR_TIME, CSR_INSTRET, CSR_HPMCOUNTER3, CSR_MCYCLE.
  destruct (Z.eqb_spec csr 0x605); [by destruct super|].
  destruct (Z.eqb_spec csr 0xc00) as [->|].
  { simpl. change (0xc00 - 0xc00) with 0. by rewrite hpm_allowed_enabled by lia. }
  destruct (Z.eqb_spec csr 0xc01); [done|].
  destruct (Z.eqb_spec csr 0xc02) as [->|].
  { simpl. change (0xc02 - 0xc00) with 2. by rewrite hpm_allowed_enabled by lia. }
  destruct (Z.leb_spec 0xc03 csr), (Z.leb_spec csr 0xc1f), (Z.leb_spec 0xc00 csr), (Z.ltb_spec csr (0xc00 + 32));
    simpl; try done; try lia.
  rewrite hpm_allowed_enabled by lia. destruct (Z.leb_spec (mhpm_count + 3) (csr - 0xc00)),
    (Z.leb_spec (csr - 0xc00) 2), (Z.ltb_spec (csr - 0xc00) (mhpm_count + 3)); simpl; try lia; try done.
  f_equal. by replace (0xb00 + csr - 0xc00) with (0xb00 + (csr - 0xc00)) by lia.
Qed.

(** The instruction has been done: the destination has the old value [old]. *)
Definition csr_done (rd old delta : Z) (m : thart) : thart :=
  let r := regs (mach m) in
  mk_thart (with_regs (mk_regs (st (xregs r) rd old) (u64 (mepc r + 4)) (mstatus r)) (mach m)) delta.

(** The firmware sees the instruction: in the trap value, or at the program counter. *)
Definition sees (m : machine) (tv insn : Z) : Prop :=
  tv = insn \/ (Z.land tv 3 <> 3 /\ traps_on m 0 insn 4).

Lemma handler_sees tv insn m : bytes_ok (umem (mach m)) -> Z.land insn 3 = 3 -> INSN_LEN insn = 4 ->
  sees (mach m) tv insn ->
  sbi_illegal_insn_handler hext tv m = illegal_insn_table hext (Z.shiftr (Z.land insn 0x7c) 2) insn m.
Proof.
  intros Hb H3 H4 [->|[Htv Ht]]; unfold sbi_illegal_insn_handler; [by rewrite H3|].
  destruct (Z.eqb_spec (Z.land tv 3) 3); [done|]. simpl.
  pose proof (traps_on_insn (mach m) 0 insn 4 Hb Ht) as E. unfold trapped_insn in E. simpl in E.
  destruct (sbi_get_insn _ _) as [i|t]; [|done]. simplify_eq. by rewrite H3.
Qed.

Lemma new_csr_val_result o rd src csr old m : 0 <= rd < 32 -> 0 <= src < 32 -> 0 <= csr < 2 ^ 12 ->
  ld (xregs (regs (mach m))) 0 = 0 ->
  new_csr_val (encode_csr o rd src csr) old (Z.land (Z.shiftr (encode_csr o rd src csr) 15) 0x1f)
    (GET_REG (encode_csr o rd src csr) SH_RS1 (regs (mach m))) =
  Some (csr_result o old (operand o src (regs (mach m))), csr_writes o src).
Proof.
  intros H1 H2 H3 Hz. destruct (csr_fields o rd src csr H1 H2 H3) as (_ & _ & E1 & E2 & E3 & _).
  unfold new_csr_val, GET_REG. rewrite E1, E2, E3. assert ((if src =? 0 then 0 else ld (xregs (regs (mach m))) src) =
    ld (xregs (regs (mach m))) src) as Es by (by destruct (Z.eqb_spec src 0) as [->|]).
  destruct o; simpl; by rewrite ?Es.
Qed.

(** C26. A CSR instruction that is illegal for the processor is carried out by the
    firmware exactly when it reads a counter that is there and enabled for the mode
    of the software, the time, or the time offset, and writes nothing or the time
    offset of a hypervisor; the destination register then has the old value. In
    every other case nothing changes and the software gets its illegal instruction
    trap. *)
Theorem csr_emulation_correct o rd src csr tv m super virt (insn := encode_csr o rd src csr) :
  0 <= rd < 32 -> 0 <= src < 32 -> 0 <= csr < 2 ^ 12 -> 0 <= mhpm_count -> bytes_ok (umem (mach m)) ->
  ld (xregs (regs (mach m))) 0 = 0 -> sees (mach m) tv insn ->
  prev_mode (regs (mach m)) = (if super : bool then PRV_S else PRV_U) -> prev_virt (regs (mach m)) = virt ->
  sbi_illegal_insn_handler hext tv m =
    match csr_value csr super virt m with
    | None => truly_illegal_insn hext insn m
    | Some old =>
        if csr_writes o src then
          if csr =? CSR_HTIMEDELTA
          then (0, csr_done rd old (csr_result o old (operand o src (regs (mach m)))) m)
          else truly_illegal_insn hext insn m
        else (0, csr_done rd old (time_delta m) m)
    end.
Proof.
  intros H1 H2 H3 Hc Hb Hz Hs Ep Ev. destruct (csr_fields o rd src csr H1 H2 H3) as (F3 & F7 & _ & _ & _ & Frd & Fcsr & F4).
  rewrite (handler_sees tv insn m Hb F3 F4 Hs). unfold illegal_insn_table. fold insn in F7, Frd, Fcsr. rewrite F7. simpl.
  unfold system_opcode_insn. rewrite Fcsr, (csr_read_value csr super virt) by (done || lia).
  destruct (csr_value csr super virt m) as [old|] eqn:Ec; [|done].
  unfold insn at 1 2 3. rewrite (new_csr_val_result o rd src csr old m) by done.
  destruct (csr_writes o src); [|unfold csr_done, SET_RD; by rewrite Frd].
  unfold sbi_emulate_csr_write. rewrite Ep, Ev. unfold csr_value in Ec.
  destruct (csr =? CSR_HTIMEDELTA) eqn:Eh; [|done].
  destruct super, virt; simpl in Ec |- *; try done. unfold csr_done, SET_RD. simpl. by rewrite Frd.
Qed.
End CsrCorrect.

#[local] Existing Instance ex_access.

(** ** Examples: a hart whose firmware and supervisor enable the cycle counter *)
#[local] Instance ex_counters : Counters := {
  mcounter := fun n => 1000 + n; mcounteren := 7; hcounteren := 0; scounteren := 1;
  has_mcounteren := true; has_scounteren := true; mhpm_count := 2; get_time_val := Some 500 }.

(** [rdcycle a0] and [rdinstret a0] of a user program, and [csrw htimedelta, a0] of a
    hypervisor. *)
Definition ex_thart (status : Z) : thart :=
  mk_thart (mk_machine (mk_regs (st ∅ 10 0x1122) 0x1000 status) ex_csrs ∅ ∅) 0.

Lemma csr_emulation_correct_witness :
  sbi_illegal_insn_handler true (encode_csr CSRRS 10 0 CSR_CYCLE) (ex_thart 0) =
    (0, csr_done 10 (1000 + CSR_MCYCLE) 0 (ex_thart 0)) /\
  sbi_illegal_insn_handler true (encode_csr CSRRS 10 0 CSR_INSTRET) (ex_thart 0) =
    truly_illegal_insn true (encode_csr CSRRS 10 0 CSR_INSTRET) (ex_thart 0) /\
  sbi_illegal_insn_handler true (encode_csr CSRRW 0 10 CSR_HTIMEDELTA) (ex_thart 0x800) =
    (0, csr_done 0 0 0x1122 (ex_thart 0x800)).
Proof.
  split; [|split].
  - by rewrite (csr_emulation_correct true CSRRS 10 0 CSR_CYCLE (encode_csr CSRRS 10 0 CSR_CYCLE) (ex_thart 0) false false
      ltac:(lia) ltac:(lia) ltac:(by vm_compute) ltac:(by vm_compute) empty_bytes_ok eq_refl (or_introl eq_refl) eq_refl eq_refl).
  - by rewrite (csr_emulation_correct true CSRRS 10 0 CSR_INSTRET (encode_csr CSRRS 10 0 CSR_INSTRET) (ex_thart 0) false false
      ltac:(lia) ltac:(lia) ltac:(by vm_compute) ltac:(by vm_compute) empty_bytes_ok eq_refl (or_introl eq_refl) eq_refl eq_refl).
  - by rewrite (csr_emulation_correct true CSRRW 0 10 CSR_HTIMEDELTA (encode_csr CSRRW 0 10 CSR_HTIMEDELTA) (ex_thart 0x800) true false
      ltac:(lia) ltac:(lia) ltac:(by vm_compute) ltac:(by vm_compute) empty_bytes_ok eq_refl (or_introl eq_refl) eq_refl eq_refl).
Defined.
