(* ===== verification/SbiEcall.v ===== *)
(** * Calls to the firmware and the trap handler

    The extensions of [src/opensbi/lib/sbi/sbi_ecall.c]: their registration, the search
    for the one that handles a call and what the caller gets back; and the entry
    of all traps, [sbi_trap_handler] of [sbi_trap.c], with the timer interrupt of
    [sbi_timer.c]. The handlers of the extensions are functions of the state that they
    work on, of type [W]. *)

From S2P Require Import Prelude SbiFifo SbiTlb SbiDomain SbiTrap SbiEmul SbiCsr.

Definition SBI_ETRAP : Z := -1007.
Definition SBI_LAST_ERR : Z := -8.
Definition SBI_ERR_FAILED : Z := -1.
Definition SBI_EXT_0_1_SET_TIMER : Z := 0.
Definition SBI_EXT_0_1_SHUTDOWN : Z := 8.

Section Ecall.
Context {W : Type}.

(** [struct sbi_ecall_extension]: the address of the structure, the range of numbers,
    and the handler, which returns an error, a value, a trap and the new state. *)
Record sbi_ecall_extension := mk_ext {
  ext_ptr : Z; extid_start : Z; extid_end : Z;
  handle : option (Z -> Z -> sbi_trap_regs -> W -> Z * Z * sbi_trap_info * W) }.

(** [ecall_exts_list], in its order. *)
Abbreviation exts := (list sbi_ecall_extension).

Definition covers (t : sbi_ecall_extension) (extid : Z) : bool :=
  (extid_start t <=? extid) && (extid <=? extid_end t).

Fixpoint sbi_ecall_find_extension (extid : Z) (l : exts) : option sbi_ecall_extension :=
  match l with
  | [] => None
  | t :: l' => if covers t extid then Some t else sbi_ecall_find_extension extid l'
  end.

Definition no_overlap (ext t : sbi_ecall_extension) : bool :=
  (extid_end t <? extid_start ext) || (extid_end ext <? extid_start t).

Definition sbi_ecall_register_extension (ext : option sbi_ecall_extension) (l : exts) : Z * exts :=
  match ext with
  | None => (SBI_EINVAL, l)
  | Some e =>
      if (extid_end e <? extid_start e) || negb (bool_decide (is_Some (handle e))) then (SBI_EINVAL, l)
      else if forallb (no_overlap e) l then (0, l ++ [e]) else (SBI_EINVAL, l)
  end.

(** The first entry with the address is taken out. *)
Fixpoint sbi_ecall_unregister_extension (p : Z) (l : exts) : exts :=
  match l with
  | [] => []
  | t :: l' => if ext_ptr t =? p then l' else t :: sbi_ecall_unregister_extension p l'
  end.

(** The registers a0, a1, a6 and a7. *)
Definition A0 : Z := 10.
Definition A1 : Z := 11.
Definition A6 : Z := 16.
Definition A7 : Z := 17.

Definition set_x (r v : Z) (rs : sbi_trap_regs) : sbi_trap_regs := mk_regs (st (xregs rs) r v) (mepc rs) (mstatus rs).

Definition is_0_1_spec (extid : Z) : bool := (SBI_EXT_0_1_SET_TIMER <=? extid) && (extid <=? SBI_EXT_0_1_SHUTDOWN).

(** The end of [sbi_ecall_handler]. *)
Definition ecall_result (ret out_val : Z) (legacy : bool) (rs : sbi_trap_regs) : sbi_trap_regs :=
  let ret := if ret <? SBI_LAST_ERR then SBI_ERR_FAILED else ret in
  let rs := set_x A0 (u64 ret) (set_mepc (u64 (mepc rs + 4)) rs) in
  if legacy then rs else set_x A1 out_val rs.

Definition sbi_ecall_handler (hext : bool) (l : exts) (m : machine) (w : W) : Z * machine * W :=
  let extid := ld (xregs (regs m)) A7 in
  let funcid := ld (xregs (regs m)) A6 in
  match sbi_ecall_find_extension extid l with
  | Some e =>
      match handle e with
      | Some f =>
          let '(ret, out_val, trap, w') := f extid funcid (regs m) w in
          if ret =? SBI_ETRAP then let '(_, m') := redirect hext trap m in (0, m', w')
          else (0, with_regs (ecall_result ret out_val (is_0_1_spec extid) (regs m)) m, w')
      | None => (0, with_regs (ecall_result SBI_ENOTSUPP 0 false (regs m)) m, w)
      end
  | None => (0, with_regs (ecall_result SBI_ENOTSUPP 0 false (regs m)) m, w)
  end.

(** ** The registered extensions *)
Record exts_ok (l : exts) : Prop := {
  ex_range : Forall (fun e => extid_start e <= extid_end e /\ is_Some (handle e)) l;
  ex_disjoint : forall i j e1 e2 k, l !! i = Some e1 -> l !! j = Some e2 ->
    covers e1 k = true -> covers e2 k = true -> i = j }.

Lemma covers_spec e k : covers e k = true <-> extid_start e <= k <= extid_end e.
Proof. unfold covers. rewrite andb_true_iff, !Z.leb_le. done. Qed.

Lemma find_spec k l : match sbi_ecall_find_extension k l with
  | Some e => e ∈ l /\ covers e k = true
  | None => forall e, e ∈ l -> covers e k = false
  end.
Proof.
  induction l as [|t l IH]; simpl; [by intros e ?%not_elem_of_nil|].
  destruct (covers t k) eqn:E; [split; [left|done]|].
  destruct (sbi_ecall_find_extension k l); [destruct IH; split; [by right|done]|].
  intros e [->|He]%elem_of_cons; auto.
Qed.

Lemma find_app k l1 l2 : sbi_ecall_find_extension k (l1 ++ l2) =
  match sbi_ecall_find_extension k l1 with Some e => Some e | None => sbi_ecall_find_extension k l2 end.
Proof. induction l1 as [|t l1 IH]; simpl; [done|]. by destruct (covers t k). Qed.

Lemma no_overlap_spec e t k : no_overlap e t = true -> covers e k = true -> covers t k = true -> False.
Proof. unfold no_overlap. rewrite orb_true_iff, !Z.ltb_lt, !covers_spec. lia. Qed.

(** The extension that handles a number does not depend on the order of registration. *)
Lemma find_unique l k e : exts_ok l -> e ∈ l -> covers e k = true -> sbi_ecall_find_extension k l = Some e.
Proof.
  intros [_ Hd] [i Hi]%list_elem_of_lookup Hc. pose proof (find_spec k l) as S.
  destruct (sbi_ecall_find_extension k l) as [t|].
  - destruct S as [[j Hj]%list_elem_of_lookup Ht]. assert (i = j) as -> by eauto. congruence.
  - rewrite S in Hc; [done|]. by eapply list_elem_of_lookup_2.
Qed.

Lemma exts_ok_delete l1 e l2 : exts_ok (l1 ++ e :: l2) -> exts_ok (l1 ++ l2).
Proof.
  intros [Hr Hd]. constructor.
  - rewrite Forall_app, Forall_cons in Hr. rewrite Forall_app. tauto.
  - set (g := fun i : nat => if decide (i < length l1)%nat then i else S i).
    assert (forall i x, (l1 ++ l2) !! i = Some x -> (l1 ++ e :: l2) !! g i = Some x) as G.
    { intros i x Hx. unfold g. case_decide; [by rewrite lookup_app_l in Hx |- * by lia|].
      rewrite lookup_app_r in Hx |- * by lia.
      replace (S i - length l1)%nat with (S (i - length l1)) by lia. done. }
    intros i j e1 e2 k H1 H2 C1 C2. pose proof (Hd _ _ _ _ k (G _ _ H1) (G _ _ H2) C1 C2) as E.
    unfold g in E. do 2 case_decide; lia.
Qed.

Lemma no_overlap_disjoint l e : forallb (no_overlap e) l = true ->
  forall k t, covers e k = true -> t ∈ l -> covers t k = false.
Proof.
  intros Ef k t Hk Ht. apply not_true_is_false. intros F. rewrite forallb_forall in Ef.
  apply (no_overlap_spec e t k); [|done|done]. apply Ef. by apply list_elem_of_In.
Qed.

Lemma exts_ok_snoc l e : exts_ok l -> extid_start e <= extid_end e -> is_Some (handle e) ->
  (forall k t, covers e k = true -> t ∈ l -> covers t k = false) -> exts_ok (l ++ [e]).
Proof.
  intros Ok Hr Hh D. constructor.
  - rewrite Forall_app, Forall_singleton. split; [apply (ex_range _ Ok)|done].
  - intros i j e1 e2 k H1 H2 C1 C2.
    apply lookup_app_Some in H1 as [H1|[L1 H1]], H2 as [H2|[L2 H2]].
    + by eapply (ex_disjoint _ Ok).
    + apply list_lookup_singleton_Some in H2 as [_ <-]. rewrite (D k e1 C2) in C1; [done|]. by eapply list_elem_of_lookup_2.
    + apply list_lookup_singleton_Some in H1 as [_ <-]. rewrite (D k e2 C1) in C2; [done|]. by eapply list_elem_of_lookup_2.
    + apply list_lookup_singleton_Some in H1 as [? _], H2 as [? _]. lia.
Qed.

(** Registration keeps the ranges of the extensions disjoint. An extension is
    accepted exactly when its range is not empty, it has a handler and no number of
    its range is taken; it then handles exactly the numbers of its range, and no
    other number changes its handler. A refused one changes nothing. *)
Theorem sbi_ecall_register_correct l e : exts_ok l ->
  let '(rc, l') := sbi_ecall_register_extension (Some e) l in
  exts_ok l' /\
  (rc = 0 <-> extid_start e <= extid_end e /\ is_Some (handle e) /\
     forall k, covers e k = true -> sbi_ecall_find_extension k l = None) /\
  (rc <> 0 -> rc = SBI_EINVAL /\ l' = l) /\
  (rc = 0 -> forall k, sbi_ecall_find_extension k l' =
     if covers e k then Some e else sbi_ecall_find_extension k l).
Proof.
  intros Ok. unfold sbi_ecall_register_extension.
  destruct (Z.ltb_spec (extid_end e) (extid_start e)); simpl.
  { split; [done|]. split; [split; [done|lia]|]. split; done. }
  destruct (bool_decide (is_Some (handle e))) eqn:Eh; simpl.
  2:{ apply bool_decide_eq_false in Eh. split; [done|]. split; [split; [done|tauto]|]. split; done. }
  apply bool_decide_eq_true in Eh. destruct (forallb (no_overlap e) l) eqn:Ef.
  - pose proof (no_overlap_disjoint l e Ef) as D.
    assert (forall k, covers e k = true -> sbi_ecall_find_extension k l = None) as N.
    { intros k Hk. pose proof (find_spec k l) as S. destruct (sbi_ecall_find_extension k l) as [t|]; [|done].
      destruct S as [Ht C]. by rewrite (D k t Hk Ht) in C. }
    split; [by apply exts_ok_snoc|]. split; [|split; [done|]].
    + split; [intros _; split_and!; [lia|done|exact N]|done].
    + intros _ k. rewrite find_app. simpl. destruct (covers e k) eqn:Ck; [by rewrite N|].
      by destruct (sbi_ecall_find_extension k l).
  - split; [done|]. split; [|split; done]. split; [done|]. intros (_ & _ & N). exfalso.
    apply not_true_iff_false in Ef. apply Ef. apply forallb_forall. intros t Ht%list_elem_of_In.
    apply not_false_is_true. intros F. unfold no_overlap in F. apply orb_false_iff in F as [F1%Z.ltb_ge F2%Z.ltb_ge].
    pose proof (proj1 (Forall_forall _ _) (ex_range _ Ok) t Ht) as [R _].
    set (k := Z.max (extid_start e) (extid_start t)).
    assert (covers e k = true) as C1 by (apply covers_spec; lia).
    assert (covers t k = true) as C2 by (apply covers_spec; lia).
    specialize (N k C1). by rewrite (find_unique l k t Ok Ht C2) in N.
Qed.

Lemma unregister_split p l : sbi_ecall_unregister_extension p l = l \/
  exists l1 e l2, l = l1 ++ e :: l2 /\ ext_ptr e = p /\ sbi_ecall_unregister_extension p l = l1 ++ l2.
Proof.
  induction l as [|t l IH]; simpl; [by left|]. destruct (Z.eqb_spec (ext_ptr t) p).
  - right. by exists [], t, l.
  - destruct IH as [->|(l1 & e & l2 & -> & He & ->)]; [by left|]. right. by exists (t :: l1), e, l2.
Qed.

Theorem sbi_ecall_unregister_ok p l : exts_ok l -> exts_ok (sbi_ecall_unregister_extension p l).
Proof.
  intros Ok. destruct (unregister_split p l) as [->|(l1 & e & l2 & -> & _ & ->)]; [done|]. by eapply exts_ok_delete.
Qed.

(** C27. A call always returns to the caller, in one of two ways. The handler that is
    responsible reports a trap of the caller, which is passed on at the call with no
    register changed; or the program goes on behind the call with the error in [a0]
    and, but for the legacy calls, the value in [a1], and no other register changed.
    An unknown extension gives [SBI_ENOTSUPP], an error outside the range of errors
    [SBI_ERR_FAILED]. *)
Theorem sbi_ecall_handler_correct hext l m w : exts_ok l ->
  let extid := ld (xregs (regs m)) A7 in
  exists m' w', sbi_ecall_handler hext l m w = (0, m', w') /\
    match sbi_ecall_find_extension extid l with
    | None => w' = w /\ m' = with_regs (regs m') m /\ mepc (regs m') = u64 (mepc (regs m) + 4) /\
        ld (xregs (regs m')) A0 = u64 SBI_ENOTSUPP /\ ld (xregs (regs m')) A1 = 0 /\
        (forall r, r <> A0 -> r <> A1 -> ld (xregs (regs m')) r = ld (xregs (regs m)) r)
    | Some e => exists f ret out_val trap,
        handle e = Some f /\ f extid (ld (xregs (regs m)) A6) (regs m) w = (ret, out_val, trap, w') /\
        if ret =? SBI_ETRAP then m' = snd (redirect hext trap m)
        else m' = with_regs (regs m') m /\ mepc (regs m') = u64 (mepc (regs m) + 4) /\
          ld (xregs (regs m')) A0 = u64 (if ret <? SBI_LAST_ERR then SBI_ERR_FAILED else ret) /\
          ld (xregs (regs m')) A1 = (if is_0_1_spec extid then ld (xregs (regs m)) A1 else out_val) /\
          (forall r, r <> A0 -> r <> A1 -> ld (xregs (regs m')) r = ld (xregs (regs m)) r)
    end.
Proof.
  intros Ok extid. unfold sbi_ecall_handler. fold extid.
  pose proof (find_spec extid l) as S. destruct (sbi_ecall_find_extension extid l) as [e|].
  - destruct S as [He _]. pose proof (proj1 (Forall_forall _ _) (ex_range _ Ok) e He) as [_ [f Hf]]. rewrite Hf.
    destruct (f extid (ld (xregs (regs m)) A6) (regs m) w) as [[[ret out_val] trap] w'] eqn:E.
    destruct (ret =? SBI_ETRAP) eqn:Et.
    + destruct (redirect hext trap m) as [rc m'] eqn:Er. exists m', w'. split; [done|].
      exists f, ret, out_val, trap. rewrite Et, Er. done.
    + eexists _, w'. split; [done|]. exists f, ret, out_val, trap. rewrite Et. split; [done|]. split; [done|].
      unfold ecall_result. simpl. split; [done|].
      destruct (is_0_1_spec extid); simpl; (split; [done|]); rewrite ?ld_st; split_and!; try done;
        intros r H0 H1; rewrite ?ld_st_ne by done; done.
  - eexists _, w. split; [done|]. split; [done|]. split; [done|]. unfold ecall_result. simpl.
    split; [done|]. split; [rewrite ld_st_ne by done; apply ld_st_eq|]. split; [apply ld_st_eq|].
    intros r H0 H1. by rewrite !ld_st_ne by done.
Qed.
End Ecall.

(** ** The trap handler *)
Definition CAUSE_MACHINE_ECALL : Z := 0xb.
Definition CAUSE_SUPERVISOR_ECALL : Z := 0x9.
Definition IRQ_M_SOFT : Z := 3.
Definition IRQ_M_TIMER : Z := 7.
Definition MIP_STIP : Z := 0x20.
Definition MIP_MTIP : Z := 0x80.

(** A hart with its interrupt registers and the state that the handlers work on. *)
Record fhart {W : Type} := mk_fhart { th : thart; f_mie : Z; f_mip : Z; world : W }.
Arguments fhart : clear implicits.
Arguments mk_fhart {W}.

(** The software is resumed, or the hart prints its registers and hangs. *)
Inductive outcome (W : Type) := Resumed (s : fhart W) | Hung_with (msg : string) (rc : Z).
Arguments Resumed {W}.
Arguments Hung_with {W}.

Section Traps.
Context `{UserAccess} `{Counters} {W : Type} (hext : bool).
Context (l : list (@sbi_ecall_extension W)) (ipi_process : fhart W -> fhart W).

Definition sbi_timer_process (s : fhart W) : fhart W :=
  mk_fhart (th s) (clr MIP_MTIP (f_mie s)) (Z.lor (f_mip s) MIP_STIP) (world s).

(** [sbi_timer_event_start] without the device. *)
Definition sbi_timer_event_start (s : fhart W) : fhart W :=
  mk_fhart (th s) (Z.lor (f_mie s) MIP_MTIP) (clr MIP_STIP (f_mip s)) (world s).

Definition on_thart (f : thart -> Z * thart) (msg : string) (s : fhart W) : outcome W :=
  let '(rc, t) := f (th s) in
  if rc =? 0 then Resumed (mk_fhart t (f_mie s) (f_mip s) (world s)) else Hung_with msg rc.

(** [sbi_trap_handler]; the arguments are [mcause], [mtval], [mtval2] and [mtinst], the
    last two zero without the hypervisor extension. *)
Definition sbi_trap_handler (mcause mtval mtval2 mtinst : Z) (s : fhart W) : outcome W :=
  if Z.testbit mcause 63 then
    let irq := clr (2 ^ 63) mcause in
    if irq =? IRQ_M_TIMER then Resumed (sbi_timer_process s)
    else if irq =? IRQ_M_SOFT then Resumed (ipi_process s)
    else Hung_with "unhandled external interrupt" SBI_ENOTSUPP
  else if mcause =? CAUSE_ILLEGAL_INSTRUCTION then
    on_thart (sbi_illegal_insn_handler hext mtval) "illegal instruction handler failed" s
  else if mcause =? CAUSE_MISALIGNED_LOAD then
    on_thart (on_mach (sbi_misaligned_load_handler hext mtval mtval2 mtinst)) "misaligned load handler failed" s
  else if mcause =? CAUSE_MISALIGNED_STORE then
    on_thart (on_mach (sbi_misaligned_store_handler hext mtval mtval2 mtinst)) "misaligned store handler failed" s
  else if (mcause =? CAUSE_SUPERVISOR_ECALL) || (mcause =? CAUSE_MACHINE_ECALL) then
    let '(rc, m, w) := sbi_ecall_handler hext l (mach (th s)) (world s) in
    if rc =? 0 then Resumed (mk_fhart (mk_thart m (time_delta (th s))) (f_mie s) (f_mip s) w)
    else Hung_with "ecall handler failed" rc
  else on_thart (on_mach (redirect hext (mk_trap 0 mcause mtval mtval2 mtinst))) "trap handler failed" s.

(** ** Nothing below the firmware makes it hang *)
Definition below (m : machine) : Prop := prev_mode (regs m) = PRV_S \/ prev_mode (regs m) = PRV_U.

Lemma redirect_zero t m : below m -> fst (redirect hext t m) = 0.
Proof.
  intros Hm. unfold redirect, sbi_trap_redirect.
  assert (negb (prev_mode (regs m) =? PRV_S) && negb (prev_mode (regs m) =? PRV_U) = false) as -> by by destruct Hm as [-> | ->].
  by destruct (hext && prev_virt (regs m) && is_guest_fault _).
Qed.

Lemma load_handler_zero addr tv2 tin m : below m -> fst (sbi_misaligned_load_handler hext addr tv2 tin m) = 0.
Proof.
  intros Hm. unfold sbi_misaligned_load_handler. destruct (trapped_insn tin m) as [[insn len]|t]; [|by apply redirect_zero].
  destruct (decode_load insn) as [[[[fp k] sh] i']|]; [|by apply redirect_zero].
  destruct (load_loop k addr 0 m); [done|by apply redirect_zero].
Qed.

Lemma store_loop_regs k addr v : forall i m, regs (fst (store_loop k addr i v m)) = regs m.
Proof.
  induction k as [|k IH]; intros i m; simpl; [done|]. unfold sbi_store_u8. destruct (store_fault _); simpl; [done|by rewrite IH].
Qed.

Lemma store_handler_zero addr tv2 tin m : below m -> fst (sbi_misaligned_store_handler hext addr tv2 tin m) = 0.
Proof.
  intros Hm. unfold sbi_misaligned_store_handler. destruct (trapped_insn tin m) as [[insn len]|t]; [|by apply redirect_zero].
  destruct (decode_store insn m) as [[k v]|]; [|by apply redirect_zero].
  pose proof (store_loop_regs k addr v 0 m) as R. destruct (store_loop k addr 0 v m) as [m1 [t|]]; simpl in R; [|done].
  apply redirect_zero. unfold below. by rewrite R.
Qed.

Lemma on_mach_zero f m : fst (f (mach m)) = 0 -> fst (on_mach f m) = 0.
Proof. unfold on_mach. by destruct (f (mach m)). Qed.

Lemma truly_illegal_zero insn m : below (mach m) -> fst (truly_illegal_insn hext insn m) = 0.
Proof. intros Hm. by apply on_mach_zero, redirect_zero. Qed.

Lemma illegal_handler_zero insn m : below (mach m) -> fst (sbi_illegal_insn_handler hext insn m) = 0.
Proof.
  intros Hm. assert (forall k i, fst (illegal_insn_table hext k i m) = 0) as T.
  { intros k i. unfold illegal_insn_table, system_opcode_insn.
    repeat case_match; try done; by apply truly_illegal_zero. }
  unfold sbi_illegal_insn_handler. case_match; [|apply T].
  destruct (sbi_get_insn _ _); [case_match; [by apply truly_illegal_zero|apply T]|]. by apply on_mach_zero, redirect_zero.
Qed.

Lemma on_thart_resumed f msg s : fst (f (th s)) = 0 -> exists t,
  on_thart f msg s = Resumed (mk_fhart t (f_mie s) (f_mip s) (world s)) /\ (0, t) = f (th s).
Proof. unfold on_thart. destruct (f (th s)) as [rc t]. simpl. intros ->. by exists t. Qed.

(** C11. No exception of the software in supervisor or user mode, whatever it executes
    and whatever its registers and memory hold, makes the firmware hang: the
    software is resumed, at the instruction behind or in its own trap handler. A
    timer interrupt of the firmware becomes one of the supervisor, and nothing else
    changes. *)
Theorem sbi_trap_handler_resumes mcause mtval mtval2 mtinst s : below (mach (th s)) ->
  (Z.testbit mcause 63 = false -> exists s', sbi_trap_handler mcause mtval mtval2 mtinst s = Resumed s' /\
     f_mie s' = f_mie s /\ f_mip s' = f_mip s) /\
  (mcause = 2 ^ 63 + IRQ_M_TIMER -> exists s', sbi_trap_handler mcause mtval mtval2 mtinst s = Resumed s' /\
     th s' = th s /\ world s' = world s /\ has (f_mip s') MIP_STIP = true /\ has (f_mie s') MIP_MTIP = false).
Proof.
  intros Hb. split.
  - intros Hi. unfold sbi_trap_handler. rewrite Hi.
    assert (forall f msg, fst (f (th s)) = 0 -> exists s', on_thart f msg s = Resumed s' /\ f_mie s' = f_mie s /\ f_mip s' = f_mip s)
      as R by (intros f msg Hf; destruct (on_thart_resumed f msg s Hf) as (t & E & _); by eexists).
    case_match; [by apply R, illegal_handler_zero|]. case_match; [by apply R, on_mach_zero, load_handler_zero|].
    case_match; [by apply R, on_mach_zero, store_handler_zero|]. case_match; [|by apply R, on_mach_zero, redirect_zero].
    assert (exists m' w', sbi_ecall_handler hext l (mach (th s)) (world s) = (0, m', w')) as (m' & w' & ->).
    { unfold sbi_ecall_handler. repeat case_match; eauto. }
    by eexists.
  - intros ->. eexists. split; [done|]. split; [done|]. split; [done|]. simpl.
    change MIP_STIP with (2 ^ 5). change MIP_MTIP with (2 ^ 7). rewrite !has_bit, clr_testbit, Z.lor_spec by done.
    rewrite !testbit_pow2 by done. simpl. by rewrite orb_true_r, andb_false_r.
Qed.
End Traps.

(** ** Examples: a base extension and one that reports a trap *)
Definition ex_base : @sbi_ecall_extension Z := mk_ext 0x100 0x10 0x10
  (Some (fun _ f _ w => (if f =? 0 then 0 else SBI_ENOTSUPP, 0x1000000, mk_trap 0 0 0 0 0, w + 1))).
Definition ex_legacy : @sbi_ecall_extension Z := mk_ext 0x200 0 8
  (Some (fun _ _ _ w => (SBI_ETRAP, 0, mk_trap 0 CAUSE_LOAD_PAGE_FAULT 0x5000 0 0, w))).

Lemma ex_exts_ok : exts_ok [ex_base; ex_legacy].
Proof.
  constructor.
  - repeat constructor; simpl; try lia; by eexists.
  - intros i j e1 e2 k H1 H2 C1%covers_spec C2%covers_spec.
    destruct i as [|[|i]], j as [|[|j]]; try done; simpl in H1, H2; simplify_eq; simpl in *; try lia.
Qed.

Lemma sbi_ecall_register_correct_witness : exts_ok [ex_legacy] /\
  fst (sbi_ecall_register_extension (Some ex_base) [ex_legacy]) = 0 /\
  sbi_ecall_find_extension 16 (snd (sbi_ecall_register_extension (Some ex_base) [ex_legacy])) = Some ex_base /\
  fst (sbi_ecall_register_extension (Some (mk_ext 0x300 8 16 (handle ex_base))) [ex_base; ex_legacy]) = SBI_EINVAL.
Proof.
  assert (exts_ok [ex_legacy]) as Ok by exact (exts_ok_delete [] ex_base [ex_legacy] ex_exts_ok).
  split; [done|].
  pose proof (sbi_ecall_register_correct [ex_legacy] ex_base Ok) as R.
  destruct (sbi_ecall_register_extension (Some ex_base) [ex_legacy]) as [rc l'] eqn:E.
  assert (rc = 0) as -> by (vm_compute in E; congruence). destruct R as (_ & _ & _ & R).
  split; [done|]. split; [by rewrite (R eq_refl)|by vm_compute].
Defined.

Definition ex_call (extid fid : Z) : machine :=
  mk_machine (mk_regs (st (st (st ∅ A7 extid) A6 fid) A1 7) 0x80200000 0x800) ex_csrs ∅ ∅.

Lemma sbi_ecall_handler_correct_witness : exts_ok [ex_base; ex_legacy] /\
  exists m' w', sbi_ecall_handler true [ex_base; ex_legacy] (ex_call 0x10 0) 5 = (0, m', w') /\
    w' = 6 /\ ld (xregs (regs m')) A0 = 0 /\ ld (xregs (regs m')) A1 = 0x1000000 /\ mepc (regs m') = 0x80200004.
Proof.
  split; [exact ex_exts_ok|].
  destruct (sbi_ecall_handler_correct true [ex_base; ex_legacy] (ex_call 0x10 0) 5 ex_exts_ok) as (m' & w' & E & _).
  exists m', w'. split; [done|]. vm_compute in E. by simplify_eq.
Defined.

#[local] Existing Instance ex_access.
#[local] Existing Instance ex_counters.

Lemma sbi_trap_handler_resumes_witness : below (mach (ex_thart 0x800)) /\
  exists s', sbi_trap_handler true [ex_base; ex_legacy] (fun s => s) CAUSE_ILLEGAL_INSTRUCTION 0xffffffff 0 0
    (mk_fhart (ex_thart 0x800) 0 0 5) = Resumed s' /\ mepc (regs (mach (th s'))) = stvec ex_csrs.
Proof.
  split; [by left|].
  destruct (sbi_trap_handler_resumes true [ex_base; ex_legacy] (fun s => s) CAUSE_ILLEGAL_INSTRUCTION 0xffffffff 0 0
    (mk_fhart (ex_thart 0x800) 0 0 5)) as [R _]; [by left|].
  destruct (R eq_refl) as (s' & E & _). exists s'. split; [done|]. vm_compute in E. by simplify_eq.
Defined.
