(* ===== verification/Gic.v ===== *)
(** * The generic interrupt controller, version 3

    [arch/armv8/inc/arch/gic.h], [arch/armv8/gic.c], [arch/armv8/gicv3.c] and the
    processor numbering of [arch/armv8/platform.c]: the layout of the registers, the
    format of a list register, and the functions that write the distributor and the
    redistributors. The hypervisor is built with [GIC_VERSION] 3.

    The physical controller is the list of the writes to its registers, newest first;
    a register the code reads back and changes (priorities, configuration, routes)
    reads as the last value written. [gicd_lock] and [gicr_lock] make each of these
    functions one step. *)

From S2P Require Import Prelude Bit.

(** ** Constants *)
Definition GIC_FIRST_SPECIAL_INTID : Z := 1020.
Definition GIC_MAX_INTERUPTS : Z := 1024.
Definition GIC_MAX_SGIS : Z := 16.
Definition GIC_MAX_PPIS : Z := 16.
Definition GIC_CPU_PRIV : Z := GIC_MAX_SGIS + GIC_MAX_PPIS.
Definition GIC_PRIO_BITS : Z := 8.
Definition GIC_CONFIG_BITS : Z := 2.
Definition GIC_LOWEST_PRIO : Z := 255.
Definition GIC_NUM_LIST_REGS : Z := 64.
Definition MPIDR_AFF_MSK : Z := 0xffff.
Definition MPIDR_RES1 : Z := 0x80000000.
Definition MPIDR_U_BIT : Z := Z.shiftl 1 30.
Definition MPIDR_RES0_MSK : Z := u64 (Z.lnot (Z.lor (u64 (Z.shiftl 0xffffff 49)) (Z.shiftl 0x1f 25))).
(** [~MPIDR_AFF_MSK] is an [int], sign-extended to 64 bits. *)
Definition GICD_IROUTER_INV : Z := u64 (Z.lnot MPIDR_AFF_MSK).
Definition GICD_IROUTER_RES0_MSK : Z := Z.shiftl 1 40 - 1.
Definition GICD_IROUTER_IRM_BIT : Z := Z.shiftl 1 31.
Definition GICD_IROUTER_AFF_MSK : Z := Z.land GICD_IROUTER_RES0_MSK (u64 (Z.lnot GICD_IROUTER_IRM_BIT)).

Definition gic_is_sgi (int_id : Z) : bool := int_id <? GIC_MAX_SGIS.
Definition gic_is_priv (int_id : Z) : bool := int_id <? GIC_CPU_PRIV.

(** ** The states of an interrupt and the list registers *)
Definition INV : Z := 0.
Definition PEND : Z := 1.
Definition ACT : Z := 2.
Definition PENDACT : Z := 3.

Definition GICH_LR_VID_OFF : Z := 0.
Definition GICH_LR_VID_LEN : Z := 32.
Definition GICH_LR_PID_OFF : Z := 32.
Definition GICH_LR_PID_LEN : Z := 10.
Definition GICH_LR_PRIO_OFF : Z := 48.
Definition GICH_LR_PRIO_LEN : Z := 8.
Definition GICH_LR_STATE_OFF : Z := 62.
Definition GICH_LR_STATE_LEN : Z := 2.
Definition GICH_LR_GRP_BIT : Z := Z.shiftl 1 60.
Definition GICH_LR_HW_BIT : Z := Z.shiftl 1 61.
Definition GICH_LR_EOI_BIT : Z := Z.shiftl 1 41.
Definition GICH_LR_VID_MSK : Z := BIT_MASK GICH_LR_VID_OFF GICH_LR_VID_LEN.
Definition GICH_LR_PID_MSK : Z := BIT_MASK GICH_LR_PID_OFF GICH_LR_PID_LEN.
Definition GICH_LR_PRIO_MSK : Z := BIT_MASK GICH_LR_PRIO_OFF GICH_LR_PRIO_LEN.
Definition GICH_LR_STATE_MSK : Z := BIT_MASK GICH_LR_STATE_OFF GICH_LR_STATE_LEN.
Definition GICH_LR_STATE_PND : Z := Z.land (u64 (Z.shiftl 1 GICH_LR_STATE_OFF)) GICH_LR_STATE_MSK.
Definition GICH_LR_STATE_ACT : Z := Z.land (u64 (Z.shiftl 2 GICH_LR_STATE_OFF)) GICH_LR_STATE_MSK.

Definition GICH_LR_VID (lr : Z) : Z := bit_extract lr GICH_LR_VID_OFF GICH_LR_VID_LEN.
Definition GICH_LR_STATE (lr : Z) : Z := bit_extract lr GICH_LR_STATE_OFF GICH_LR_STATE_LEN.
(** The priority as [vgic_add_lr] reads it. *)
Definition GICH_LR_PRIO (lr : Z) : Z := Z.shiftr (Z.land lr GICH_LR_PRIO_MSK) GICH_LR_PRIO_OFF.

#[global] Arguments GICH_LR_VID : simpl never.
#[global] Arguments GICH_LR_STATE : simpl never.
#[global] Arguments GICH_LR_PRIO : simpl never.

Definition GICH_HCR_En_BIT : Z := 1.
Definition GICH_HCR_NPIE_BIT : Z := 8.
Definition GICH_HCR_EOICount_OFF : Z := 27.
Definition GICH_HCR_EOICount_LEN : Z := 5.
Definition GICH_HCR_EOICount_MASK : Z := BIT_MASK GICH_HCR_EOICount_OFF GICH_HCR_EOICount_LEN.
Definition GICH_MISR_EOI : Z := 1.
Definition GICH_MISR_LRPEN : Z := 4.
Definition GICH_MISR_NP : Z := 8.

Definition GICD_CTLR_ENA_BIT : Z := 2.
Definition GICD_CTLR_ARE_NS_BIT : Z := 16.
Definition GICD_TYPER_ITLN_OFF : Z := 0.
Definition GICD_TYPER_ITLN_LEN : Z := 5.
Definition GICD_TYPER_ITLN_MSK : Z := BIT_MASK GICD_TYPER_ITLN_OFF GICD_TYPER_ITLN_LEN.
Definition GICD_TYPER_CPUNUM_OFF : Z := 5.
Definition GICD_TYPER_CPUNUM_LEN : Z := 3.
Definition GICD_TYPER_CPUNUM_MSK : Z := BIT_MASK GICD_TYPER_CPUNUM_OFF GICD_TYPER_CPUNUM_LEN.
Definition GICD_TYPER_IDBITS_OFF : Z := 19.
Definition GICD_TYPER_IDBITS_LEN : Z := 5.
Definition GICD_TYPER_IDBITS_MSK : Z := BIT_MASK GICD_TYPER_IDBITS_OFF GICD_TYPER_IDBITS_LEN.
Definition GICR_TYPER_LAST_OFF : Z := 4.
Definition GICR_TYPER_PRCNUM_OFF : Z := 8.
Definition GICR_TYPER_AFFVAL_OFF : Z := 32.
Definition ICC_SGIR_SGIINTID (sgir : Z) : Z := bit_extract sgir 24 4.
Definition ICC_SGIR_IRM_BIT : Z := Z.shiftl 1 40.
Definition ICC_SGIR_TRGLSTFLT (sgir : Z) : Z := bit_extract sgir 0 16.

(** ** The offsets of [gicd_t] and [gicr_t] *)
Definition GICD_CTLR : Z := 0.
Definition GICD_TYPER : Z := 4.
Definition GICD_IIDR : Z := 8.
Definition GICD_ISENABLER : Z := 0x100.
Definition GICD_ICENABLER : Z := 0x180.
Definition GICD_ISPENDR : Z := 0x200.
Definition GICD_ICPENDR : Z := 0x280.
Definition GICD_ISACTIVER : Z := 0x300.
Definition GICD_ICACTIVER : Z := 0x380.
Definition GICD_IPRIORITYR : Z := 0x400.
Definition GICD_ITARGETSR : Z := 0x800.
Definition GICD_ICFGR : Z := 0xc00.
Definition GICD_SGIR : Z := 0xf00.
Definition GICD_IROUTER : Z := 0x6000.
Definition GICD_ID : Z := 0xffd0.
Definition GICD_SIZE : Z := 0x10000.

Definition GICR_CTLR : Z := 0.
Definition GICR_TYPER : Z := 8.
Definition GICR_ID : Z := 0xffd0.
Definition GICR_ISENABLER0 : Z := 0x10100.
Definition GICR_ICENABLER0 : Z := 0x10180.
Definition GICR_ISPENDR0 : Z := 0x10200.
Definition GICR_ICPENDR0 : Z := 0x10280.
Definition GICR_ISACTIVER0 : Z := 0x10300.
Definition GICR_ICACTIVER0 : Z := 0x10380.
Definition GICR_IPRIORITYR : Z := 0x10400.
Definition GICR_ICFGR0 : Z := 0x10c00.
Definition GICR_ICFGR1 : Z := 0x10c04.
Definition GICR_SIZE : Z := 0x20000.

(** ** The hardware and the platform

    The registers the code only reads, the configuration of the platform, the numbers the
    linker gives the message handlers, the signals
    of the virtual CPU interface ([ICH_ELRSR_EL2], [ICH_EISR_EL2], [ICH_MISR_EL2] as
    functions of the list registers and of [ICH_HCR_EL2]), and the value of a 64-bit
    shift by 64 or more, which C leaves open. *)
Class GicEnv := {
  NUM_LRS : Z;
  elrsr : list Z -> Z;
  eisr : list Z -> Z;
  misr : Z -> list Z -> Z;
  mpidr_el1 : Z -> Z;
  gicd_TYPER : Z;
  gicd_IIDR : Z;
  gicd_ID : Z -> Z;
  gicr_IIDR : Z -> Z;
  gicr_ID : Z -> Z -> Z;
  VGIC_IPI_ID : Z;
  PSCI_CPUSMG_ID : Z;
  platform_cpu_num : Z;
  platform_clusters : list Z;
  shl_over : Z -> Z -> Z
}.

Definition lr_empty (lr : Z) : bool :=
  (GICH_LR_STATE lr =? INV) &&
  (negb (Z.land lr GICH_LR_HW_BIT =? 0) || (Z.land lr GICH_LR_EOI_BIT =? 0)).
Definition lr_eoi (lr : Z) : bool :=
  (GICH_LR_STATE lr =? INV) && (Z.land lr GICH_LR_HW_BIT =? 0) &&
  negb (Z.land lr GICH_LR_EOI_BIT =? 0).

(** What the architecture says of them: between one and sixteen list registers; a
    register is empty when its interrupt is inactive and no maintenance request is
    due for it, and asks for maintenance when it is inactive with the EOI bit set. *)
Class GicLaws {E : GicEnv} : Prop := {
  num_lrs_range : 1 <= NUM_LRS <= 16;
  elrsr_spec lrs i : 0 <= i < NUM_LRS ->
    Z.testbit (elrsr lrs) i = match lrs !! Z.to_nat i with Some lr => lr_empty lr | None => false end;
  eisr_spec lrs i : 0 <= i < NUM_LRS ->
    Z.testbit (eisr lrs) i = match lrs !! Z.to_nat i with Some lr => lr_eoi lr | None => false end;
  elrsr_range lrs : 0 <= elrsr lrs < 2 ^ 64;
  eisr_range lrs : 0 <= eisr lrs < 2 ^ 64
}.

(** [1ull << n]. *)
Definition shl64 `{GicEnv} (x n : Z) : Z := if n <? 64 then u64 (Z.shiftl x n) else shl_over x n.

(** ** The physical registers *)
Inductive gic_reg := GICD (off : Z) | GICR (redist off : Z).

#[export] Instance gic_reg_eq_dec : EqDecision gic_reg.
Proof. solve_decision. Defined.

Abbreviation gic_io := (list (gic_reg * Z)).

Fixpoint gic_rd (io : gic_io) (r : gic_reg) : Z :=
  match io with
  | [] => 0
  | (r', v) :: rest => if decide (r' = r) then v else gic_rd rest r
  end.
Definition gic_wr (r : gic_reg) (v : Z) (io : gic_io) : gic_io := (r, v) :: io.

Definition GIC_INT_REG (n : Z) : Z := n / 32.
Definition GIC_INT_MASK (n : Z) : Z := u32 (Z.shiftl 1 (n mod 32)).
Definition GIC_PRIO_REG (n : Z) : Z := n * GIC_PRIO_BITS / 32.
Definition GIC_PRIO_OFF (n : Z) : Z := n * GIC_PRIO_BITS mod 32.
Definition GIC_CONFIG_REG (n : Z) : Z := n * GIC_CONFIG_BITS / 32.
Definition GIC_CONFIG_OFF (n : Z) : Z := n * GIC_CONFIG_BITS mod 32.

(** [(old & ~mask) | ((v << off) & mask)], stored in 32 bits. *)
Definition set_field (old v off len : Z) : Z :=
  let mask := Z.shiftl (Z.shiftl 1 len - 1) off in
  u32 (Z.lor (Z.land old (u64 (Z.lnot mask))) (Z.land (Z.shiftl v off) mask)).

Definition rmw (r : gic_reg) (v off len : Z) (io : gic_io) : gic_io :=
  gic_wr r (set_field (gic_rd io r) v off len) io.

Definition gicd_set_enable (int_id : Z) (en : bool) : gic_io -> gic_io :=
  gic_wr (GICD ((if en then GICD_ISENABLER else GICD_ICENABLER) + 4 * GIC_INT_REG int_id)) (GIC_INT_MASK int_id).
Definition gicd_set_pend (int_id : Z) (pend : bool) : gic_io -> gic_io :=
  gic_wr (GICD ((if pend then GICD_ISPENDR else GICD_ICPENDR) + 4 * GIC_INT_REG int_id)) (GIC_INT_MASK int_id).
Definition gicd_set_act (int_id : Z) (act : bool) : gic_io -> gic_io :=
  gic_wr (GICD ((if act then GICD_ISACTIVER else GICD_ICACTIVER) + 4 * GIC_INT_REG int_id)) (GIC_INT_MASK int_id).
Definition gicd_set_prio (int_id prio : Z) : gic_io -> gic_io :=
  rmw (GICD (GICD_IPRIORITYR + 4 * GIC_PRIO_REG int_id)) prio (GIC_PRIO_OFF int_id) GIC_PRIO_BITS.
Definition gicd_set_icfgr (int_id cfg : Z) : gic_io -> gic_io :=
  rmw (GICD (GICD_ICFGR + 4 * GIC_CONFIG_REG int_id)) cfg (GIC_CONFIG_OFF int_id) GIC_CONFIG_BITS.
(** The mask is not shifted down with the value. *)
Definition gicd_get_prio (io : gic_io) (int_id : Z) : Z :=
  let off := GIC_PRIO_OFF int_id in
  Z.land (Z.shiftr (gic_rd io (GICD (GICD_IPRIORITYR + 4 * GIC_PRIO_REG int_id))) off) (BIT_MASK off GIC_PRIO_BITS).
Definition gicd_set_route (int_id route : Z) (io : gic_io) : gic_io :=
  if gic_is_priv int_id then io
  else gic_wr (GICD (GICD_IROUTER + 8 * int_id)) (Z.land route GICD_IROUTER_AFF_MSK) io.

(** The number of the redistributor is 32 bits wide. *)
Definition gicr_set_enable (int_id : Z) (en : bool) (gicr_id : Z) : gic_io -> gic_io :=
  gic_wr (GICR (u32 gicr_id) (if en then GICR_ISENABLER0 else GICR_ICENABLER0)) (GIC_INT_MASK int_id).
Definition gicr_set_pend (int_id : Z) (pend : bool) (gicr_id : Z) : gic_io -> gic_io :=
  gic_wr (GICR (u32 gicr_id) (if pend then GICR_ISPENDR0 else GICR_ICPENDR0)) (u32 (Z.shiftl 1 int_id)).
Definition gicr_set_act (int_id : Z) (act : bool) (gicr_id : Z) : gic_io -> gic_io :=
  gic_wr (GICR (u32 gicr_id) (if act then GICR_ISACTIVER0 else GICR_ICACTIVER0)) (GIC_INT_MASK int_id).
Definition gicr_set_prio (int_id prio gicr_id : Z) : gic_io -> gic_io :=
  rmw (GICR (u32 gicr_id) (GICR_IPRIORITYR + 4 * GIC_PRIO_REG int_id)) prio (GIC_PRIO_OFF int_id) GIC_PRIO_BITS.
Definition gicr_set_icfgr (int_id cfg gicr_id : Z) : gic_io -> gic_io :=
  rmw (GICR (u32 gicr_id) (if GIC_CONFIG_REG int_id =? 0 then GICR_ICFGR0 else GICR_ICFGR1)) cfg
    (GIC_CONFIG_OFF int_id) GIC_CONFIG_BITS.

(** [gic_set_act] of the CPU [c]. *)
Definition gic_set_act (c int_id : Z) (act : bool) : gic_io -> gic_io :=
  if gic_is_priv int_id then gicr_set_act int_id act c else gicd_set_act int_id act.

(** [gic_num_irqs]; the product is 32 bits wide. *)
Definition gic_num_irqs `{GicEnv} : Z :=
  u32 (32 * bit_extract gicd_TYPER GICD_TYPER_ITLN_OFF GICD_TYPER_ITLN_LEN + 1).

(** ** Processor numbers ([platform.c]) *)

(** [j] is the number of CPUs of the clusters before [i]. *)
Fixpoint cluster_loop (clusters : list Z) (cpuid i j : Z) : option Z :=
  match clusters with
  | [] => None
  | n :: rest =>
      if cpuid <? j + n then Some (Z.lor (Z.shiftl i 8) (Z.land (u64 (cpuid - j)) 0xff))
      else cluster_loop rest cpuid (i + 1) (j + n)
  end.

Definition platform_arch_cpuid_to_mpdir (cpu_num : Z) (clusters : list Z) (cpuid : Z) : res Z :=
  if cpu_num <? cpuid then Ok (u64 (Z.lnot (Z.land (u64 (Z.lnot MPIDR_RES1)) MPIDR_RES0_MSK)))
  else
    mpidr ← match clusters with
            | [] => Ok cpuid
            | _ => match cluster_loop clusters cpuid 0 0 with
                   | Some m => Ok m
                   | None => Fault (Panic "failed cpuid to mpdir translation")
                   end
            end;
    let mpidr := Z.lor mpidr MPIDR_RES1 in
    Ok (if cpu_num =? 1 then Z.lor mpidr MPIDR_U_BIT else mpidr).

(** The loop stops at the cluster of [mpidr] or past the last one. *)
Fixpoint mpidr_loop (clusters : list Z) (n i cpuid : Z) : Z * Z :=
  match clusters with
  | [] => (i, cpuid)
  | k :: rest => if i <? n then mpidr_loop rest n (i + 1) k else (i, cpuid)
  end.

Definition platform_arch_mpidr_to_cpuid (clusters : list Z) (mpidr : Z) : Z :=
  let '(i, cpuid) := mpidr_loop clusters (Z.land (Z.shiftr mpidr 8) 0xff) 0 0 in
  match clusters !! Z.to_nat i with
  | Some k => cpuid + k
  | None => -1
  end.

Definition cpu_id_to_mpidr `{GicEnv} (id : Z) : res Z :=
  platform_arch_cpuid_to_mpdir platform_cpu_num platform_clusters id.
