(* ===== verification/Arm.v ===== *)
(** * The state of a virtual machine on ARMv8

    [arch/armv8/inc/arch/vm.h], [vgic.h] and [psci.h]: the virtual distributor of a VM,
    its virtual CPUs with their private interrupts and their list registers, the
    messages on their way between CPUs, and the monad of the handlers.

    A virtual CPU is named by the physical CPU it is pinned to, which is also what
    [cpu.vcpu] is on that CPU; the list registers and [ICH_HCR_EL2] of the CPU are kept
    with it. An interrupt structure is named by where it lies. The lock of a structure
    is a bit of it: an operation that takes a lock it already holds hangs. *)

From S2P Require Import Prelude Bit CpuMsg Gic.

(** ** [vgic_int_t]: [phys] is the union of [redist] and [route]. *)
Record vgic_int := mk_int {
  vi_owner : option Z;
  vi_route : Z;
  vi_phys : Z;
  vi_lock : bool;
  vi_id : Z;
  vi_state : Z;
  vi_prio : Z;
  vi_cfg : Z;
  vi_lr : Z;
  vi_hw : bool;
  vi_in_lr : bool;
  vi_enabled : bool
}.

Definition set_owner (o : option Z) (x : vgic_int) : vgic_int :=
  mk_int o (vi_route x) (vi_phys x) (vi_lock x) (vi_id x) (vi_state x) (vi_prio x) (vi_cfg x)
    (vi_lr x) (vi_hw x) (vi_in_lr x) (vi_enabled x).
Definition set_vroute (r p : Z) (x : vgic_int) : vgic_int :=
  mk_int (vi_owner x) r p (vi_lock x) (vi_id x) (vi_state x) (vi_prio x) (vi_cfg x)
    (vi_lr x) (vi_hw x) (vi_in_lr x) (vi_enabled x).
Definition set_lock (b : bool) (x : vgic_int) : vgic_int :=
  mk_int (vi_owner x) (vi_route x) (vi_phys x) b (vi_id x) (vi_state x) (vi_prio x) (vi_cfg x)
    (vi_lr x) (vi_hw x) (vi_in_lr x) (vi_enabled x).
Definition set_state (n : Z) (x : vgic_int) : vgic_int :=
  mk_int (vi_owner x) (vi_route x) (vi_phys x) (vi_lock x) (vi_id x) n (vi_prio x) (vi_cfg x)
    (vi_lr x) (vi_hw x) (vi_in_lr x) (vi_enabled x).
Definition set_vprio (n : Z) (x : vgic_int) : vgic_int :=
  mk_int (vi_owner x) (vi_route x) (vi_phys x) (vi_lock x) (vi_id x) (vi_state x) n (vi_cfg x)
    (vi_lr x) (vi_hw x) (vi_in_lr x) (vi_enabled x).
Definition set_vcfg (n : Z) (x : vgic_int) : vgic_int :=
  mk_int (vi_owner x) (vi_route x) (vi_phys x) (vi_lock x) (vi_id x) (vi_state x) (vi_prio x) n
    (vi_lr x) (vi_hw x) (vi_in_lr x) (vi_enabled x).
Definition set_vlr (n : Z) (x : vgic_int) : vgic_int :=
  mk_int (vi_owner x) (vi_route x) (vi_phys x) (vi_lock x) (vi_id x) (vi_state x) (vi_prio x) (vi_cfg x)
    n (vi_hw x) (vi_in_lr x) (vi_enabled x).
Definition set_hw (b : bool) (x : vgic_int) : vgic_int :=
  mk_int (vi_owner x) (vi_route x) (vi_phys x) (vi_lock x) (vi_id x) (vi_state x) (vi_prio x) (vi_cfg x)
    (vi_lr x) b (vi_in_lr x) (vi_enabled x).
Definition set_in_lr (b : bool) (x : vgic_int) : vgic_int :=
  mk_int (vi_owner x) (vi_route x) (vi_phys x) (vi_lock x) (vi_id x) (vi_state x) (vi_prio x) (vi_cfg x)
    (vi_lr x) (vi_hw x) b (vi_enabled x).
Definition set_enabled (b : bool) (x : vgic_int) : vgic_int :=
  mk_int (vi_owner x) (vi_route x) (vi_phys x) (vi_lock x) (vi_id x) (vi_state x) (vi_prio x) (vi_cfg x)
    (vi_lr x) (vi_hw x) (vi_in_lr x) b.

(** ** Virtual CPUs *)
Inductive psci_state := ON | OFF | ON_PENDING.

#[export] Instance psci_state_eq_dec : EqDecision psci_state.
Proof. solve_decision. Defined.

Record psci_ctx := mk_psci { ps_entrypoint : Z; ps_context_id : Z; ps_state : psci_state }.

(** The status register and the system registers of the guest that [vcpu_arch_reset] sets. *)
Record guest_sys := mk_guest_sys {
  spsr_el2 : Z; cntvoff_el2 : Z; sctlr_el1 : Z; cntkctl_el1 : Z; pmcr_el0 : Z
}.

Record avcpu := mk_avcpu {
  av_id : Z;
  av_vmpidr : Z;
  av_regs : mem;
  av_elr : Z;
  av_sys : guest_sys;
  av_psci : psci_ctx;
  av_gicr_lock : bool;
  av_gicr_typer : Z;
  av_curr_lrs : list Z;
  av_ints : list vgic_int;
  av_lrs : list Z;
  av_hcr : Z
}.

Definition set_aregs (r : mem) (v : avcpu) : avcpu :=
  mk_avcpu (av_id v) (av_vmpidr v) r (av_elr v) (av_sys v) (av_psci v) (av_gicr_lock v) (av_gicr_typer v)
    (av_curr_lrs v) (av_ints v) (av_lrs v) (av_hcr v).
Definition set_elr (e : Z) (v : avcpu) : avcpu :=
  mk_avcpu (av_id v) (av_vmpidr v) (av_regs v) e (av_sys v) (av_psci v) (av_gicr_lock v) (av_gicr_typer v)
    (av_curr_lrs v) (av_ints v) (av_lrs v) (av_hcr v).
Definition set_sys (g : guest_sys) (v : avcpu) : avcpu :=
  mk_avcpu (av_id v) (av_vmpidr v) (av_regs v) (av_elr v) g (av_psci v) (av_gicr_lock v) (av_gicr_typer v)
    (av_curr_lrs v) (av_ints v) (av_lrs v) (av_hcr v).
Definition set_psci (p : psci_ctx) (v : avcpu) : avcpu :=
  mk_avcpu (av_id v) (av_vmpidr v) (av_regs v) (av_elr v) (av_sys v) p (av_gicr_lock v) (av_gicr_typer v)
    (av_curr_lrs v) (av_ints v) (av_lrs v) (av_hcr v).
Definition set_gicr_lock (b : bool) (v : avcpu) : avcpu :=
  mk_avcpu (av_id v) (av_vmpidr v) (av_regs v) (av_elr v) (av_sys v) (av_psci v) b (av_gicr_typer v)
    (av_curr_lrs v) (av_ints v) (av_lrs v) (av_hcr v).
Definition set_gicr_typer (t : Z) (v : avcpu) : avcpu :=
  mk_avcpu (av_id v) (av_vmpidr v) (av_regs v) (av_elr v) (av_sys v) (av_psci v) (av_gicr_lock v) t
    (av_curr_lrs v) (av_ints v) (av_lrs v) (av_hcr v).
Definition set_curr_lrs (l : list Z) (v : avcpu) : avcpu :=
  mk_avcpu (av_id v) (av_vmpidr v) (av_regs v) (av_elr v) (av_sys v) (av_psci v) (av_gicr_lock v) (av_gicr_typer v)
    l (av_ints v) (av_lrs v) (av_hcr v).
Definition set_ints (l : list vgic_int) (v : avcpu) : avcpu :=
  mk_avcpu (av_id v) (av_vmpidr v) (av_regs v) (av_elr v) (av_sys v) (av_psci v) (av_gicr_lock v) (av_gicr_typer v)
    (av_curr_lrs v) l (av_lrs v) (av_hcr v).
Definition set_lrs (l : list Z) (v : avcpu) : avcpu :=
  mk_avcpu (av_id v) (av_vmpidr v) (av_regs v) (av_elr v) (av_sys v) (av_psci v) (av_gicr_lock v) (av_gicr_typer v)
    (av_curr_lrs v) (av_ints v) l (av_hcr v).
Definition set_hcr (h : Z) (v : avcpu) : avcpu :=
  mk_avcpu (av_id v) (av_vmpidr v) (av_regs v) (av_elr v) (av_sys v) (av_psci v) (av_gicr_lock v) (av_gicr_typer v)
    (av_curr_lrs v) (av_ints v) (av_lrs v) h.

(** ** The virtual machine *)
Inductive arm_handler := VGICD_EMUL | VGICR_EMUL | ICC_SGIR | ICC_SRE.

#[export] Instance arm_handler_eq_dec : EqDecision arm_handler.
Proof. solve_decision. Defined.

Inductive arm_emul :=
  | AEMUL_MEM (va_base size : Z) (handler : arm_handler)
  | AEMUL_REG (addr : Z) (handler : arm_handler).

(** [vgicd_t] without its interrupts. *)
Record vgicd := mk_vgicd { vd_lock : bool; vd_int_num : Z; vd_CTLR : Z; vd_TYPER : Z; vd_IIDR : Z }.

(** [avm_events] are the event lists of all physical CPUs, those of other VMs
    included. *)
Record avm := mk_avm {
  avm_id : Z;
  avm_cpus : Z;
  avm_cpu_num : Z;
  avm_vcpu_list : list Z;
  avm_vgicr_addr : Z;
  avm_vgicd : vgicd;
  avm_spis : list vgic_int;
  avm_vcpus : gmap Z avcpu;
  avm_emul : list arm_emul;
  avm_events : gmap Z (list cpu_msg);
  avm_io : gic_io
}.

Definition set_vgicd (d : vgicd) (s : avm) : avm :=
  mk_avm (avm_id s) (avm_cpus s) (avm_cpu_num s) (avm_vcpu_list s) (avm_vgicr_addr s) d (avm_spis s)
    (avm_vcpus s) (avm_emul s) (avm_events s) (avm_io s).
Definition set_spis (l : list vgic_int) (s : avm) : avm :=
  mk_avm (avm_id s) (avm_cpus s) (avm_cpu_num s) (avm_vcpu_list s) (avm_vgicr_addr s) (avm_vgicd s) l
    (avm_vcpus s) (avm_emul s) (avm_events s) (avm_io s).
Definition set_vcpus (m : gmap Z avcpu) (s : avm) : avm :=
  mk_avm (avm_id s) (avm_cpus s) (avm_cpu_num s) (avm_vcpu_list s) (avm_vgicr_addr s) (avm_vgicd s)
    (avm_spis s) m (avm_emul s) (avm_events s) (avm_io s).
Definition set_events (m : gmap Z (list cpu_msg)) (s : avm) : avm :=
  mk_avm (avm_id s) (avm_cpus s) (avm_cpu_num s) (avm_vcpu_list s) (avm_vgicr_addr s) (avm_vgicd s)
    (avm_spis s) (avm_vcpus s) (avm_emul s) m (avm_io s).
Definition set_io (io : gic_io) (s : avm) : avm :=
  mk_avm (avm_id s) (avm_cpus s) (avm_cpu_num s) (avm_vcpu_list s) (avm_vgicr_addr s) (avm_vgicd s)
    (avm_spis s) (avm_vcpus s) (avm_emul s) (avm_events s) io.

Definition events_of (s : avm) (c : Z) : list cpu_msg := default [] (avm_events s !! c).

(** ** The monad *)
Definition G (A : Type) : Type := avm -> res (A * avm).

#[export] Instance G_ret : MRet G := fun A a s => Ok (a, s).
#[export] Instance G_bind : MBind G :=
  fun A B k m s => match m s with Ok (a, s') => k a s' | Fault f => Fault f end.

Definition gfail {A} (f : fault) : G A := fun _ => Fault f.
Definition GERROR {A} (msg : string) : G A := gfail (Panic msg).
Definition ggets {A} (f : avm -> A) : G A := fun s => Ok (f s, s).
Definition gmod (f : avm -> avm) : G unit := fun s => Ok (tt, f s).
Definition glift {A} (r : res A) : G A := match r with Ok a => mret a | Fault f => gfail f end.
Definition gwhen (b : bool) (m : G unit) : G unit := if b then m else mret tt.

(** A virtual CPU that is not there is a null pointer. *)
Definition aget_vcpu (c : Z) : G avcpu :=
  fun s => match avm_vcpus s !! c with Some v => Ok (v, s) | None => Fault NullDeref end.
Definition aput_vcpu (c : Z) (v : avcpu) : G unit :=
  gmod (fun s => set_vcpus (<[c := v]> (avm_vcpus s)) s).
Definition amod_vcpu (c : Z) (f : avcpu -> avcpu) : G unit := v ← aget_vcpu c; aput_vcpu c (f v).

Definition aio (f : gic_io -> gic_io) : G unit := gmod (fun s => set_io (f (avm_io s)) s).

Definition cpu_send_msg (c : Z) (msg : cpu_msg) : G unit :=
  gmod (fun s => set_events (<[c := events_of s c ++ [msg]]> (avm_events s)) s).

(** ** Interrupt structures *)
Inductive iref := PrivInt (c n : Z) | SpiInt (k : Z).

#[export] Instance iref_eq_dec : EqDecision iref.
Proof. solve_decision. Defined.

Definition lookup_int (s : avm) (r : iref) : option vgic_int :=
  match r with
  | PrivInt c n => v ← avm_vcpus s !! c; av_ints v !! Z.to_nat n
  | SpiInt k => avm_spis s !! Z.to_nat k
  end.

Definition insert_int (r : iref) (x : vgic_int) (s : avm) : avm :=
  match r with
  | PrivInt c n =>
      match avm_vcpus s !! c with
      | Some v => set_vcpus (<[c := set_ints (<[Z.to_nat n := x]> (av_ints v)) v]> (avm_vcpus s)) s
      | None => s
      end
  | SpiInt k => set_spis (<[Z.to_nat k := x]> (avm_spis s)) s
  end.

Definition get_int (r : iref) : G vgic_int :=
  fun s => match lookup_int s r with Some x => Ok (x, s) | None => Fault OutOfBounds end.
Definition put_int (r : iref) (x : vgic_int) : G unit := gmod (insert_int r x).
Definition upd_int (r : iref) (f : vgic_int -> vgic_int) : G unit := x ← get_int r; put_int r (f x).

Definition int_lock (r : iref) : G unit :=
  x ← get_int r; if vi_lock x then gfail Hang else put_int r (set_lock true x).
Definition int_unlock (r : iref) : G unit := upd_int r (set_lock false).

(** ** Guest registers *)
Definition vcpu_readreg (c reg : Z) : G Z :=
  v ← aget_vcpu c; mret (if 30 <? reg then 0 else ld (av_regs v) reg).
Definition vcpu_writereg (c reg val : Z) : G unit :=
  if 30 <? reg then mret tt
  else amod_vcpu c (fun v => set_aregs (st (av_regs v) reg val) v).

(** ** The virtual CPU interface of the CPU [c]; list registers past the last one
    panic. *)
Section Interface.
Context `{E : GicEnv}.

Definition gich_read_lr (c i : Z) : G Z :=
  if NUM_LRS <=? i then GERROR "gic: trying to read inexistent list register"
  else v ← aget_vcpu c;
       match av_lrs v !! Z.to_nat i with Some lr => mret lr | None => gfail OutOfBounds end.
Definition gich_write_lr (c i val : Z) : G unit :=
  if NUM_LRS <=? i then GERROR "gic: trying to write inexistent list register"
  else amod_vcpu c (fun v => set_lrs (<[Z.to_nat i := val]> (av_lrs v)) v).
Definition gich_get_hcr (c : Z) : G Z := v ← aget_vcpu c; mret (av_hcr v).
Definition gich_set_hcr (c h : Z) : G unit := amod_vcpu c (set_hcr (u32 h)).
Definition gich_get_elrsr (c : Z) : G Z := v ← aget_vcpu c; mret (elrsr (av_lrs v)).
Definition gich_get_eisr (c : Z) : G Z := v ← aget_vcpu c; mret (eisr (av_lrs v)).
Definition gich_get_misr (c : Z) : G Z := v ← aget_vcpu c; mret (u32 (misr (av_hcr v) (av_lrs v))).

End Interface.
