(* ===== verification/GicCpu.v ===== *)
(** * The interrupt controller of a CPU on ARMv8

    The rest of [arch/armv8/gicv3.c] and [gic.c], and [arch/armv8/interrupts.c]: the
    functions that choose between the distributor and the redistributor of the current
    CPU, the first set-up of the controller, interrupts between CPUs, and the state that
    is saved while a CPU is powered down. Mapping the registers is left out.

    [hw] gives the registers whose value the hardware decides (what is enabled, pending
    or active) when they are read. *)

From S2P Require Import Prelude Bit Bitmap CpuMsg Gic Arm.

Definition GICC_IAR_ID_OFF : Z := 0.
Definition GICC_IAR_ID_LEN : Z := 24.
Definition GICD_CTLR_ENA_BITS : Z := Z.lor GICD_CTLR_ARE_NS_BIT GICD_CTLR_ENA_BIT.
Definition ICC_SRE_SRE_BIT : Z := 1.
Definition ICC_CTLR_EOIMode_BIT : Z := Z.shiftl 1 1.
Definition ICC_IGRPEN_EL1_ENB_BIT : Z := 1.
Definition ICH_HCR_LRENPIE_BIT : Z := Z.shiftl 1 2.
Definition ICC_SGIR_AFF1_OFFSET : Z := 16.
Definition ICC_SGIR_SGIINTID_OFF : Z := 24.
Definition GIC_NUM_INT_REGS (n : Z) : Z := GIC_INT_REG n.
Definition GIC_NUM_PRIO_REGS (n : Z) : Z := GIC_PRIO_REG n.
Definition GIC_NUM_PRIVINT_REGS : Z := GIC_CPU_PRIV / 32.
Definition MPIDR_AFF_LVL (mpidr lvl : Z) : Z := Z.land (Z.shiftr mpidr (8 * lvl)) 0xff.
Definition IPI_CPU_MSG : Z := 1.

(** ** The distributor or the redistributor of the CPU [c] *)
Section Access.
Variable hw : gic_reg -> Z.

Definition gicd_get_pend (int_id : Z) : bool :=
  negb (Z.land (hw (GICD (GICD_ISPENDR + 4 * GIC_INT_REG int_id))) (GIC_INT_MASK int_id) =? 0).
Definition gicd_get_act (int_id : Z) : bool :=
  negb (Z.land (hw (GICD (GICD_ISACTIVER + 4 * GIC_INT_REG int_id))) (GIC_INT_MASK int_id) =? 0).
Definition gicr_get_pend (int_id gicr_id : Z) : bool :=
  if gic_is_priv int_id then negb (Z.land (hw (GICR (u32 gicr_id) GICR_ISPENDR0)) (GIC_INT_MASK int_id) =? 0)
  else false.
Definition gicr_get_act (int_id gicr_id : Z) : bool :=
  if gic_is_priv int_id then negb (Z.land (hw (GICR (u32 gicr_id) GICR_ISACTIVER0)) (GIC_INT_MASK int_id) =? 0)
  else false.
(** The mask is not shifted down with the value, as in [gicd_get_prio]. *)
Definition gicr_get_prio (io : gic_io) (int_id gicr_id : Z) : Z :=
  let off := GIC_PRIO_OFF int_id in
  Z.land (Z.shiftr (gic_rd io (GICR (u32 gicr_id) (GICR_IPRIORITYR + 4 * GIC_PRIO_REG int_id))) off)
    (BIT_MASK off GIC_PRIO_BITS).

Definition gic_set_prio (c int_id prio : Z) : gic_io -> gic_io :=
  if negb (gic_is_priv int_id) then gicd_set_prio int_id prio else gicr_set_prio int_id prio c.
Definition gic_get_prio (io : gic_io) (c int_id : Z) : Z :=
  if negb (gic_is_priv int_id) then gicd_get_prio io int_id else gicr_get_prio io int_id c.
Definition gic_set_icfgr (c int_id cfg : Z) : gic_io -> gic_io :=
  if negb (gic_is_priv int_id) then gicd_set_icfgr int_id cfg else gicr_set_icfgr int_id cfg c.
Definition gic_set_pend (c int_id : Z) (pend : bool) : gic_io -> gic_io :=
  if negb (gic_is_priv int_id) then gicd_set_pend int_id pend else gicr_set_pend int_id pend c.
Definition gic_get_pend (c int_id : Z) : bool :=
  if negb (gic_is_priv int_id) then gicd_get_pend int_id else gicr_get_pend int_id c.
Definition gic_get_act (c int_id : Z) : bool :=
  if negb (gic_is_priv int_id) then gicd_get_act int_id else gicr_get_act int_id c.
Definition gic_set_enable (c int_id : Z) (en : bool) : gic_io -> gic_io :=
  if negb (gic_is_priv int_id) then gicd_set_enable int_id en else gicr_set_enable int_id en c.

End Access.

Section GicCpu.
Context `{E : GicEnv}.

(** ** [interrupts.c]; the routes are those of version 3. *)
Definition interrupts_arch_enable (c int_id : Z) (en : bool) (io : gic_io) : gic_io :=
  gicd_set_route int_id (mpidr_el1 c) (gic_set_prio c int_id 1 (gic_set_enable c int_id en io)).
Definition interrupts_arch_check (hw : gic_reg -> Z) (c int_id : Z) : bool := gic_get_pend hw c int_id.
Definition interrupts_arch_clear (c int_id : Z) (io : gic_io) : gic_io :=
  gic_set_pend c int_id false (gic_set_act c int_id false io).
Definition interrupts_arch_conflict (bm : mem) (int_id : Z) : bool :=
  negb (bitmap_get bm 0 int_id =? 0) && (GIC_CPU_PRIV <? int_id).

(** [gic_send_sgi]: the value written to [ICC_SGI1R_EL1]. *)
Definition gic_send_sgi (cpu_target sgi_num : Z) : res (option Z) :=
  if sgi_num <? GIC_MAX_SGIS then
    mpidr ← cpu_id_to_mpidr cpu_target;
    let mpidr := Z.land mpidr MPIDR_AFF_MSK in
    Ok (Some (Z.lor (Z.lor (u64 (Z.shiftl (MPIDR_AFF_LVL mpidr 1) ICC_SGIR_AFF1_OFFSET))
                           (shl64 1 (MPIDR_AFF_LVL mpidr 0)))
                    (u64 (Z.shiftl sgi_num ICC_SGIR_SGIINTID_OFF))))
  else Ok None.
Definition arm_ipi_send (target_cpu ipi_id : Z) : res (option Z) :=
  if ipi_id <? GIC_MAX_SGIS then gic_send_sgi target_cpu ipi_id else Ok None.

(** ** Set-up *)

(** [v] to [k] registers [f i], from [i] on. *)
Fixpoint fill (f : Z -> gic_reg) (v i : Z) (k : nat) (io : gic_io) : gic_io :=
  match k with O => io | S k' => fill f v (i + 1) k' (gic_wr (f i) v io) end.

(** One register of each kind for 32 interrupts. *)
Fixpoint gicd_clear_loop (i : Z) (k : nat) (io : gic_io) : gic_io :=
  match k with
  | O => io
  | S k' =>
      gicd_clear_loop (i + 1) k'
        (gic_wr (GICD (GICD_ICACTIVER + 4 * i)) (u32 (-1))
        (gic_wr (GICD (GICD_ICPENDR + 4 * i)) (u32 (-1))
        (gic_wr (GICD (GICD_ICENABLER + 4 * i)) (u32 (-1)) io)))
  end.

(** [gicd_init] but for the reservation of the maintenance interrupt. *)
Definition gicd_init (io : gic_io) : gic_io :=
  let int_num := gic_num_irqs in
  let io := gicd_clear_loop GIC_NUM_PRIVINT_REGS
              (Z.to_nat (GIC_NUM_INT_REGS int_num - GIC_NUM_PRIVINT_REGS)) io in
  let io := fill (fun i => GICD (GICD_IPRIORITYR + 4 * i)) (u32 (-1)) (GIC_NUM_PRIO_REGS GIC_CPU_PRIV)
              (Z.to_nat (GIC_NUM_PRIO_REGS int_num - GIC_NUM_PRIO_REGS GIC_CPU_PRIV)) io in
  let io := fill (fun i => GICD (GICD_IROUTER + 8 * i)) GICD_IROUTER_INV GIC_CPU_PRIV
              (Z.to_nat (GIC_MAX_INTERUPTS - GIC_CPU_PRIV)) io in
  gic_wr (GICD GICD_CTLR) (Z.lor (gic_rd io (GICD GICD_CTLR)) GICD_CTLR_ENA_BITS) io.

Definition gicr_init (c : Z) (io : gic_io) : gic_io :=
  fill (fun i => GICR (u32 c) (GICR_IPRIORITYR + 4 * i)) (u32 (-1)) 0 (Z.to_nat (GIC_NUM_PRIO_REGS GIC_CPU_PRIV))
    (gic_wr (GICR (u32 c) GICR_ICACTIVER0) (u32 (-1))
    (gic_wr (GICR (u32 c) GICR_ICPENDR0) (u32 (-1))
    (gic_wr (GICR (u32 c) GICR_ICENABLER0) (u32 (-1)) io))).

(** The registers of the CPU interface but for the virtual ones. *)
Record icc := mk_icc { icc_SRE : Z; icc_PMR : Z; icc_BPR1 : Z; icc_CTLR : Z; icc_IGRPEN1 : Z }.

(** The loop that writes list registers. *)
Fixpoint write_lrs (c : Z) (f : Z -> Z) (i : Z) (k : nat) : G unit :=
  match k with O => mret tt | S k' => gich_write_lr c i (f i);; write_lrs c f (i + 1) k' end.

(** [gich_num_lrs()] is [NUM_LRS] on every CPU. *)
Definition gicc_init (c : Z) : G icc :=
  write_lrs c (fun _ => 0) 0 (Z.to_nat NUM_LRS);;
  h ← gich_get_hcr c;
  gich_set_hcr c (Z.lor h ICH_HCR_LRENPIE_BIT);;
  mret (mk_icc ICC_SRE_SRE_BIT GIC_LOWEST_PRIO 0 ICC_CTLR_EOIMode_BIT ICC_IGRPEN_EL1_ENB_BIT).

Definition gic_cpu_init (c : Z) : G icc := aio (gicr_init c);; gicc_init c.

(** ** Saving and restoring

    The fields of [gicc_state_t] that are used; all of them, the list registers too,
    are 32 bits wide. *)
Record gicc_state := mk_gicc {
  gs_PMR : Z; gs_BPR : Z; gs_priv_ISENABLER : Z; gs_priv_IPRIORITYR : list Z; gs_HCR : Z; gs_LR : list Z
}.

Fixpoint read_lrs (c i : Z) (k : nat) : G (list Z) :=
  match k with
  | O => mret []
  | S k' => lr ← gich_read_lr c i; rest ← read_lrs c (i + 1) k'; mret (u32 lr :: rest)
  end.

Definition gicc_save_state (hw : gic_reg -> Z) (c : Z) (i : icc) : G gicc_state :=
  h ← gich_get_hcr c;
  lrs ← read_lrs c 0 (Z.to_nat NUM_LRS);
  mret (mk_gicc (u32 (icc_PMR i)) (u32 (icc_BPR1 i)) (u32 (hw (GICR (u32 c) GICR_ISENABLER0)))
    ((fun n => u32 (hw (GICR (u32 c) (GICR_IPRIORITYR + 4 * n)))) <$> seqZ 0 (GIC_NUM_PRIO_REGS GIC_CPU_PRIV))
    (u32 h) lrs).

Fixpoint write_prios (c : Z) (l : list Z) (i : Z) (io : gic_io) : gic_io :=
  match l with
  | [] => io
  | p :: rest => write_prios c rest (i + 1) (gic_wr (GICR (u32 c) (GICR_IPRIORITYR + 4 * i)) p io)
  end.

Definition gicc_restore_state (c : Z) (st : gicc_state) : G icc :=
  aio (fun io => write_prios c (gs_priv_IPRIORITYR st) 0
                   (gic_wr (GICR (u32 c) GICR_ISENABLER0) (gs_priv_ISENABLER st) io));;
  gich_set_hcr c (gs_HCR st);;
  write_lrs c (fun i => default 0 (gs_LR st !! Z.to_nat i)) 0 (Z.to_nat NUM_LRS);;
  mret (mk_icc ICC_SRE_SRE_BIT (gs_PMR st) (gs_BPR st) ICC_CTLR_EOIMode_BIT ICC_IGRPEN_EL1_ENB_BIT).

End GicCpu.
