(* ===== verification/Vgic.v ===== *)
(** * The virtual interrupt controller of ARMv8: operations

    [arch/armv8/vgic.c] and [arch/armv8/vgicv3.c], built with [GIC_VERSION] 3: the
    ownership of interrupts, their routing to virtual CPUs, and their movement between
    the structures of the hypervisor and the list registers. The code that the
    preprocessor drops for version 3 is left out. [c] is the current CPU and its virtual
    CPU; the locks are taken and released as the code does. *)

From S2P Require Import Prelude Bit Bitmap CpuMsg Gic Arm.

Section Vgic.
Context `{E : GicEnv}.

(** ** Messages *)
Definition VGIC_UPDATE_ENABLE : Z := 0.
Definition VGIC_ROUTE : Z := 1.
Definition VGIC_INJECT : Z := 2.
Definition VGIC_SET_REG : Z := 3.

Definition VGIC_MSG_DATA (vmid vgicrid int_id reg val : Z) : Z :=
  Z.lor (Z.lor (Z.lor (Z.lor
    (u64 (Z.shiftl vmid 48))
    (Z.shiftl (Z.land vgicrid 0xffff) 32))
    (Z.shiftl (Z.land int_id 0x7fff) 16))
    (Z.shiftl (Z.land reg 0xff) 8))
    (Z.land val 0xff).
Definition VGIC_MSG_VM (data : Z) : Z := Z.shiftr data 48.
Definition VGIC_MSG_VGICRID (data : Z) : Z := Z.land (Z.shiftr data 32) 0xffff.
Definition VGIC_MSG_INTID (data : Z) : Z := Z.land (Z.shiftr data 16) 0x7fff.
Definition VGIC_MSG_REG (data : Z) : Z := Z.land (Z.shiftr data 8) 0xff.
Definition VGIC_MSG_VAL (data : Z) : Z := Z.land data 0xff.

(** The loop that sends [msg] to the CPUs of a mask. *)
Fixpoint send_mask (mask : Z) (msg : cpu_msg) (i : Z) (k : nat) : G unit :=
  match k with
  | O => mret tt
  | S k' =>
      gwhen (negb (Z.land mask (u64 (Z.shiftl 1 i)) =? 0)) (Arm.cpu_send_msg i msg);;
      send_mask mask msg (i + 1) k'
  end.

Fixpoint gmsg_broadcast_loop (fuel : nat) (c cpus num : Z) (msg : cpu_msg) (i n : Z) : G unit :=
  if n <? u64 (num - 1) then
    match fuel with
    | O => gfail Hang
    | S f =>
        if negb (Z.land (Z.shiftl 1 i) cpus =? 0) && negb (i =? c) then
          Arm.cpu_send_msg i msg;; gmsg_broadcast_loop f c cpus num msg (i + 1) (n + 1)
        else gmsg_broadcast_loop f c cpus num msg (i + 1) n
    end
  else mret tt.
Definition gvm_msg_broadcast (c : Z) (msg : cpu_msg) : G unit :=
  cpus ← ggets avm_cpus; num ← ggets avm_cpu_num; gmsg_broadcast_loop 32 c cpus num msg 0 0.

(** ** Virtual CPUs of the VM *)
Fixpoint find_avcpu (p : avcpu -> bool) (m : gmap Z avcpu) (l : list Z) : option Z :=
  match l with
  | [] => None
  | c :: rest =>
      match m !! c with
      | Some v => if p v then Some c else find_avcpu p m rest
      | None => find_avcpu p m rest
      end
  end.
Definition gvm_get_vcpu (vcpuid : Z) : G (option Z) :=
  ggets (fun s => find_avcpu (fun v => av_id v =? vcpuid) (avm_vcpus s) (avm_vcpu_list s)).
Definition vm_get_vcpu_by_mpidr (mpidr : Z) : G (option Z) :=
  ggets (fun s => find_avcpu (fun v => Z.land (av_vmpidr v) MPIDR_AFF_MSK =? Z.land mpidr MPIDR_AFF_MSK)
                    (avm_vcpus s) (avm_vcpu_list s)).

(** ** Interrupts *)

(** A virtual CPU that does not exist would be a structure near address zero. *)
Definition vgic_get_int (c int_id vgicr_id : Z) : G (option iref) :=
  v ← aget_vcpu c;
  if int_id <? GIC_CPU_PRIV then
    t ← (if vgicr_id =? av_id v then mret (Some c) else gvm_get_vcpu vgicr_id);
    match t with Some t => mret (Some (PrivInt t int_id)) | None => gfail NullDeref end
  else
    n ← ggets (fun s => vd_int_num (avm_vgicd s));
    mret (if int_id <? n then Some (SpiInt (int_id - GIC_CPU_PRIV)) else None).

Definition vgic_int_is_hw (x : vgic_int) : bool := negb (vi_id x <? GIC_MAX_SGIS) && vi_hw x.

(** The index and the value of the list register that holds the interrupt; [None]
    is [-1]. *)
Definition gich_get_lr (c : Z) (x : vgic_int) : G (option (Z * Z)) :=
  if negb (vi_in_lr x) then mret None
  else
    match vi_owner x with
    | None => gfail NullDeref
    | Some o =>
        if negb (o =? c) then mret None
        else
          lr_val ← gich_read_lr c (vi_lr x);
          mret (if (GICH_LR_VID lr_val =? vi_id x) && negb (GICH_LR_STATE lr_val =? INV)
                then Some (vi_lr x, lr_val) else None)
    end.

Definition vgic_get_state (c : Z) (x : vgic_int) : G Z :=
  l ← gich_get_lr c x;
  mret (match l with Some (_, lr_val) => GICH_LR_STATE lr_val | None => vi_state x end).

Definition vgic_owns (c : Z) (x : vgic_int) : bool := bool_decide (vi_owner x = Some c).

Definition vgic_get_ownership (c : Z) (r : iref) : G bool :=
  x ← get_int r;
  if vgic_owns c x then mret true
  else if bool_decide (vi_owner x = None) then put_int r (set_owner (Some c) x);; mret true
  else mret false.

Definition vgic_yield_ownership (c : Z) (r : iref) : G unit :=
  x ← get_int r;
  if negb (vgic_owns c x) || vi_in_lr x then mret tt
  else
    state ← vgic_get_state c x;
    if negb (Z.land state ACT =? 0) then mret tt else put_int r (set_owner None x).

Definition vgic_send_sgi_msg (c pcpu_mask int_id : Z) : G unit :=
  vmid ← ggets avm_id; v ← aget_vcpu c;
  send_mask pcpu_mask (mk_msg VGIC_IPI_ID VGIC_INJECT (VGIC_MSG_DATA vmid 0 int_id 0 (av_id v)))
    0 (Z.to_nat platform_cpu_num).

(** ** Routing ([vgicv3.c]) *)
Definition vgic_broadcast (x : vgic_int) : bool := negb (Z.land (vi_route x) GICD_IROUTER_IRM_BIT =? 0).

Definition routed_here (c : Z) (x : vgic_int) : bool :=
  Z.lxor (vi_phys x) (Z.land (mpidr_el1 c) MPIDR_AFF_MSK) =? 0.

Definition vgic_int_vcpu_is_target (c : Z) (x : vgic_int) : bool :=
  let priv := gic_is_priv (vi_id x) in
  let local := priv && (vi_phys x =? c) in
  let routed_here := negb priv && routed_here c x in
  let any := negb priv && vgic_broadcast x in
  local || routed_here || any.

Definition vgic_int_has_other_target (c : Z) (x : vgic_int) : bool :=
  let priv := gic_is_priv (vi_id x) in
  let routed_here := negb priv && routed_here c x in
  let route_valid := negb (vi_phys x =? GICD_IROUTER_INV) in
  let any := negb priv && vgic_broadcast x in
  any || (negb routed_here && route_valid).

(** [~(1U << phys_id)] is 32 bits wide. *)
Definition vgic_int_ptarget_mask (c : Z) (x : vgic_int) : G Z :=
  if vgic_broadcast x then
    cpus ← ggets avm_cpus; mret (Z.land cpus (u32 (Z.lnot (u32 (Z.shiftl 1 c)))))
  else mret (shl64 1 (vi_phys x)).

(** ** List registers *)
Definition vgic_state_bits (state : Z) : Z := Z.land (u64 (Z.shiftl state GICH_LR_STATE_OFF)) GICH_LR_STATE_MSK.

(** The value [vgic_write_lr] gives the register. *)
Definition make_lr (x : vgic_int) (state : Z) : Z :=
  let lr := Z.land (u64 (Z.shiftl (vi_id x) GICH_LR_VID_OFF)) GICH_LR_VID_MSK in
  let lr := Z.lor lr (Z.lor (Z.land (u64 (Z.shiftl (vi_prio x) GICH_LR_PRIO_OFF)) GICH_LR_PRIO_MSK)
                            GICH_LR_GRP_BIT) in
  if vgic_int_is_hw x then
    let lr := Z.lor lr GICH_LR_HW_BIT in
    let lr := Z.lor lr (Z.land (u64 (Z.shiftl (vi_id x) GICH_LR_PID_OFF)) GICH_LR_PID_MSK) in
    if state =? PENDACT then Z.lor lr GICH_LR_STATE_ACT
    else Z.lor lr (vgic_state_bits state)
  else
    let lr := if negb (gic_is_priv (vi_id x)) && negb (vgic_int_is_hw x)
              then Z.lor lr GICH_LR_EOI_BIT else lr in
    Z.lor lr (vgic_state_bits state).

(** The interrupt the register last held loses it, unless it is private. *)
Definition release_prev (c lr_ind prev_int_id : Z) : G unit :=
  v ← aget_vcpu c;
  prev ← vgic_get_int c prev_int_id (av_id v);
  match prev with
  | None => mret tt
  | Some p =>
      int_lock p;;
      x ← get_int p;
      gwhen (vgic_owns c x && vi_in_lr x && (vi_lr x =? lr_ind))
        (upd_int p (set_in_lr false);; vgic_yield_ownership c p);;
      int_unlock p
  end.

Definition vgic_write_lr (c : Z) (r : iref) (lr_ind : Z) : G unit :=
  v ← aget_vcpu c;
  prev_int_id ← match av_curr_lrs v !! Z.to_nat lr_ind with Some n => mret n | None => gfail OutOfBounds end;
  x ← get_int r;
  gwhen (negb (prev_int_id =? vi_id x) && negb (gic_is_priv prev_int_id)) (release_prev c lr_ind prev_int_id);;
  x ← get_int r;
  state ← vgic_get_state c x;
  let lr := make_lr x state in
  put_int r (set_vlr (u8 lr_ind) (set_in_lr true (set_state 0 x)));;
  amod_vcpu c (fun v => set_curr_lrs (<[Z.to_nat lr_ind := vi_id x]> (av_curr_lrs v)) v);;
  gich_write_lr c lr_ind lr.

Definition enable_npie (c : Z) : G unit :=
  h ← gich_get_hcr c; gich_set_hcr c (Z.lor h GICH_HCR_NPIE_BIT).

Definition vgic_remove_lr (c : Z) (r : iref) : G bool :=
  x ← get_int r;
  if negb (vgic_owns c x) || negb (vi_in_lr x) then mret false
  else
    l ← gich_get_lr c x;
    match l with Some (lr_ind, _) => gich_write_lr c lr_ind 0 | None => mret tt end;;
    put_int r (set_in_lr false x);;
    let lr_val := match l with Some (_, lr_val) => lr_val | None => 0 end in
    if negb (GICH_LR_STATE lr_val =? INV) then
      upd_int r (set_state (GICH_LR_STATE lr_val));;
      x ← get_int r;
      gwhen (negb (Z.land (vi_state x) PEND =? 0) && vi_enabled x) (enable_npie c);;
      mret true
    else mret false.

(** The first empty register. *)
Fixpoint first_empty (w i : Z) (k : nat) : option Z :=
  match k with
  | O => None
  | S k' => if negb (bit_get w i =? 0) then Some i else first_empty w (i + 1) k'
  end.

Record spill_scan := mk_scan {
  min_prio_pend : Z; min_prio_act : Z; pend_found : Z; act_found : Z;
  pend_ind : option Z; act_ind : option Z
}.

(** One register of the search for the interrupt to spill: the counters of the two
    kinds are swapped. *)
Definition scan_lr (sc : spill_scan) (i lr : Z) : spill_scan :=
  let lr_prio := GICH_LR_PRIO lr in
  let lr_state := Z.land lr GICH_LR_STATE_MSK in
  if negb (Z.land lr_state GICH_LR_STATE_ACT =? 0) then
    let better := min_prio_act sc <? lr_prio in
    mk_scan (min_prio_pend sc) (if better then lr_prio else min_prio_act sc)
      (pend_found sc + 1) (act_found sc) (pend_ind sc) (if better then Some i else act_ind sc)
  else if negb (Z.land lr_state GICH_LR_STATE_PND =? 0) then
    let better := min_prio_pend sc <? lr_prio in
    mk_scan (if better then lr_prio else min_prio_pend sc) (min_prio_act sc)
      (pend_found sc) (act_found sc + 1) (if better then Some i else pend_ind sc) (act_ind sc)
  else sc.

Fixpoint scan_lrs (c : Z) (sc : spill_scan) (i : Z) (k : nat) : G spill_scan :=
  match k with
  | O => mret sc
  | S k' => lr ← gich_read_lr c i; scan_lrs c (scan_lr sc i lr) (i + 1) k'
  end.

(** Makes room for an interrupt when no register is empty. *)
Definition spill_lr (c : Z) : G (option Z) :=
  sc ← scan_lrs c (mk_scan 0 0 0 0 None None) 0 (Z.to_nat NUM_LRS);
  let lr_ind := if 1 <? pend_found sc then pend_ind sc else act_ind sc in
  match lr_ind with
  | None => mret None
  | Some i =>
      v ← aget_vcpu c;
      lr ← gich_read_lr c i;
      spilled ← vgic_get_int c (GICH_LR_VID lr) (av_id v);
      match spilled with
      | None => mret tt
      | Some p => int_lock p;; vgic_remove_lr c p;; vgic_yield_ownership c p;; int_unlock p
      end;;
      mret (Some i)
  end.

Definition vgic_add_lr (c : Z) (r : iref) : G bool :=
  x ← get_int r;
  if negb (vi_enabled x) || vi_in_lr x then mret false
  else
    w ← gich_get_elrsr c;
    lr_ind ← match first_empty w 0 (Z.to_nat NUM_LRS) with
             | Some i => mret (Some i)
             | None => spill_lr c
             end;
    match lr_ind with
    | Some i => vgic_write_lr c r i;; mret true
    | None =>
        x ← get_int r;
        state ← vgic_get_state c x;
        gwhen (negb (Z.land state PEND =? 0)) (enable_npie c);; mret false
    end.

Definition vgic_route (c : Z) (r : iref) : G unit :=
  x ← get_int r;
  if (vi_state x =? INV) || negb (vi_enabled x) then mret tt
  else
    gwhen (vgic_int_vcpu_is_target c x) (vgic_add_lr c r;; mret tt);;
    x ← get_int r;
    if negb (vi_in_lr x) && vgic_int_has_other_target c x then
      vmid ← ggets avm_id; v ← aget_vcpu c;
      vgic_yield_ownership c r;;
      x ← get_int r;
      mask ← vgic_int_ptarget_mask c x;
      send_mask (Z.land mask (Z.lnot (u64 (Z.shiftl 1 c))))
        (mk_msg VGIC_IPI_ID VGIC_ROUTE (VGIC_MSG_DATA vmid (av_id v) (vi_id x) 0 0))
        0 (Z.to_nat platform_cpu_num)
    else mret tt.

Definition vgic_update_enable (c : Z) : G unit :=
  d ← ggets avm_vgicd;
  h ← gich_get_hcr c;
  gich_set_hcr c (if negb (Z.land (vd_CTLR d) GICD_CTLR_ENA_BIT =? 0)
                  then Z.lor h GICH_HCR_En_BIT else Z.land h (Z.lnot GICH_HCR_En_BIT)).

(** ** The fields of an interrupt *)
Definition vgic_int_update_enable (r : iref) (enable : bool) : G bool :=
  x ← get_int r;
  if Bool.eqb enable (vi_enabled x) then mret false
  else put_int r (set_enabled enable x);; mret true.
Definition vgic_int_clear_enable (c : Z) (r : iref) (data : Z) : G bool :=
  if data =? 0 then mret false else vgic_int_update_enable r false.
Definition vgic_int_set_enable (c : Z) (r : iref) (data : Z) : G bool :=
  if data =? 0 then mret false else vgic_int_update_enable r true.
Definition vgic_int_get_enable (x : vgic_int) : Z := Z.b2z (vi_enabled x).
Definition vgic_int_enable_hw (c : Z) (r : iref) : G unit :=
  x ← get_int r;
  aio (if gic_is_priv (vi_id x) then gicr_set_enable (vi_id x) (vi_enabled x) (vi_phys x)
       else gicd_set_enable (vi_id x) (vi_enabled x)).

(** Setting and clearing a bit of the 8-bit state. *)
Definition update_state_bit (r : iref) (bit : Z) (b : bool) : G bool :=
  x ← get_int r;
  if xorb b (negb (Z.land (vi_state x) bit =? 0)) then
    put_int r (set_state (if b then Z.lor (vi_state x) bit else Z.land (vi_state x) (u8 (Z.lnot bit))) x);;
    mret true
  else mret false.

Definition vgic_int_update_pend (r : iref) (pend : bool) : G bool := update_state_bit r PEND pend.
Definition vgic_int_clear_pend (c : Z) (r : iref) (data : Z) : G bool :=
  if data =? 0 then mret false else vgic_int_update_pend r false.
Definition vgic_int_set_pend (c : Z) (r : iref) (data : Z) : G bool :=
  if data =? 0 then mret false else vgic_int_update_pend r true.
Definition vgic_int_get_pend (x : vgic_int) : Z := Z.b2z (negb (Z.land (vi_state x) PEND =? 0)).

Definition vgic_int_update_act (r : iref) (act : bool) : G bool := update_state_bit r ACT act.
Definition vgic_int_clear_act (c : Z) (r : iref) (data : Z) : G bool :=
  if data =? 0 then mret false else vgic_int_update_act r false.
Definition vgic_int_set_act (c : Z) (r : iref) (data : Z) : G bool :=
  if data =? 0 then mret false else vgic_int_update_act r true.
Definition vgic_int_get_act (x : vgic_int) : Z := Z.b2z (negb (Z.land (vi_state x) ACT =? 0)).

Definition vgic_int_state_hw (c : Z) (r : iref) : G unit :=
  x ← get_int r;
  let state := if vi_state x =? PEND then ACT else vi_state x in
  let pend := negb (Z.land state PEND =? 0) in
  let act := negb (Z.land state ACT =? 0) in
  if gic_is_priv (vi_id x) then
    aio (gicr_set_act (vi_id x) act (vi_phys x));; aio (gicr_set_pend (vi_id x) pend (vi_phys x))
  else aio (gicd_set_act (vi_id x) act);; aio (gicd_set_pend (vi_id x) pend).

(** The old value is compared with all of the new one, not with what is stored. *)
Definition vgic_int_set_cfg (c : Z) (r : iref) (cfg : Z) : G bool :=
  x ← get_int r; put_int r (set_vcfg (u8 cfg) x);; mret (negb (vi_cfg x =? cfg)).
Definition vgic_int_get_cfg (x : vgic_int) : Z := vi_cfg x.
Definition vgic_int_set_cfg_hw (c : Z) (r : iref) : G unit :=
  x ← get_int r;
  aio (if gic_is_priv (vi_id x) then gicr_set_icfgr (vi_id x) (vi_cfg x) (vi_phys x)
       else gicd_set_icfgr (vi_id x) (vi_cfg x)).

Definition vgic_int_set_prio (c : Z) (r : iref) (prio : Z) : G bool :=
  x ← get_int r; put_int r (set_vprio (u8 prio) x);; mret (negb (vi_prio x =? prio)).
Definition vgic_int_get_prio (x : vgic_int) : Z := vi_prio x.
Definition vgic_int_set_prio_hw (c : Z) (r : iref) : G unit :=
  x ← get_int r;
  aio (if gic_is_priv (vi_id x) then gicr_set_prio (vi_id x) (vi_prio x) (vi_phys x)
       else gicd_set_prio (vi_id x) (vi_prio x)).

Definition vgic_int_set_route (c : Z) (r : iref) (route : Z) : G bool :=
  x ← get_int r;
  if gic_is_priv (vi_id x) then mret false
  else
    phys_route ←
      (if negb (Z.land route GICD_IROUTER_IRM_BIT =? 0) then glift (cpu_id_to_mpidr c)
       else
         t ← vm_get_vcpu_by_mpidr (Z.land route MPIDR_AFF_MSK);
         match t with
         | Some t => m ← glift (cpu_id_to_mpidr t); mret (Z.land m MPIDR_AFF_MSK)
         | None => mret GICD_IROUTER_INV
         end);
    let route' := Z.land route GICD_IROUTER_RES0_MSK in
    put_int r (set_vroute route' phys_route x);;
    mret (negb (vi_route x =? route')).
Definition vgic_int_get_route (x : vgic_int) : Z := if gic_is_priv (vi_id x) then 0 else vi_route x.
Definition vgic_int_set_route_hw (c : Z) (r : iref) : G unit :=
  x ← get_int r; aio (gicd_set_route (vi_id x) (vi_phys x)).

(** ** Descriptions of the emulated registers *)
Inductive reg_access :=
  | vgic_emul_generic_access | vgicd_emul_misc_access | vgicd_emul_pidr_access | vgic_emul_razwi
  | vgicr_emul_ctrl_access | vgicr_emul_typer_access | vgicr_emul_pidr_access.

#[export] Instance reg_access_eq_dec : EqDecision reg_access.
Proof. solve_decision. Defined.

Record vgic_reg_handler_info := mk_info {
  rh_access : reg_access;
  rh_alignment : Z;
  rh_regid : Z;
  rh_regroup_base : Z;
  rh_field_width : Z;
  rh_read_field : vgic_int -> Z;
  rh_update_field : Z -> iref -> Z -> G bool;
  rh_update_hw : Z -> iref -> G unit
}.

Definition VGIC_ISENABLER_ID : Z := 0.
Definition VGIC_ISPENDR_ID : Z := 1.
Definition VGIC_ISACTIVER_ID : Z := 2.
Definition VGIC_ICENABLER_ID : Z := 3.
Definition VGIC_ICPENDR_ID : Z := 4.
Definition VGIC_ICACTIVER_ID : Z := 5.
Definition VGIC_ICFGR_ID : Z := 6.
Definition VGIC_IROUTER_ID : Z := 7.
Definition VGIC_IPRIORITYR_ID : Z := 8.
Definition VGIC_ITARGETSR_ID : Z := 9.
Definition VGIC_REG_HANDLER_ID_NUM : Z := 10.

Definition isenabler_info := mk_info vgic_emul_generic_access 4 VGIC_ISENABLER_ID GICD_ISENABLER 1
  vgic_int_get_enable vgic_int_set_enable vgic_int_enable_hw.
Definition ispendr_info := mk_info vgic_emul_generic_access 4 VGIC_ISPENDR_ID GICD_ISPENDR 1
  vgic_int_get_pend vgic_int_set_pend vgic_int_state_hw.
Definition isactiver_info := mk_info vgic_emul_generic_access 4 VGIC_ISACTIVER_ID GICD_ISACTIVER 1
  vgic_int_get_act vgic_int_set_act vgic_int_state_hw.
Definition icenabler_info := mk_info vgic_emul_generic_access 4 VGIC_ICENABLER_ID GICD_ICENABLER 1
  vgic_int_get_enable vgic_int_clear_enable vgic_int_enable_hw.
Definition icpendr_info := mk_info vgic_emul_generic_access 4 VGIC_ICPENDR_ID GICD_ICPENDR 1
  vgic_int_get_pend vgic_int_clear_pend vgic_int_state_hw.
Definition iactiver_info := mk_info vgic_emul_generic_access 4 VGIC_ICACTIVER_ID GICD_ICACTIVER 1
  vgic_int_get_act vgic_int_clear_act vgic_int_state_hw.
Definition icfgr_info := mk_info vgic_emul_generic_access 4 VGIC_ICFGR_ID GICD_ICFGR 2
  vgic_int_get_cfg vgic_int_set_cfg vgic_int_set_cfg_hw.
Definition ipriorityr_info := mk_info vgic_emul_generic_access 5 VGIC_IPRIORITYR_ID GICD_IPRIORITYR 8
  vgic_int_get_prio vgic_int_set_prio vgic_int_set_prio_hw.
Definition irouter_info := mk_info vgic_emul_generic_access 8 VGIC_IROUTER_ID GICD_IROUTER 64
  vgic_int_get_route vgic_int_set_route vgic_int_set_route_hw.

(** Descriptions without field functions: those pointers are null. *)
Definition plain_info (f : reg_access) (alignment : Z) : vgic_reg_handler_info :=
  mk_info f alignment 0 0 0 (fun _ => 0) (fun _ _ _ => gfail NullDeref) (fun _ _ => gfail NullDeref).
Definition vgicd_misc_info := plain_info vgicd_emul_misc_access 4.
Definition vgicd_pidr_info := plain_info vgicd_emul_pidr_access 4.
Definition razwi_info := plain_info vgic_emul_razwi 4.
Definition itargetr_info := plain_info vgic_emul_razwi 5.
Definition sgir_info := plain_info vgic_emul_razwi 4.
Definition vgicr_ctrl_info := plain_info vgicr_emul_ctrl_access 4.
Definition vgicr_typer_info := plain_info vgicr_emul_typer_access 8.
Definition vgicr_pidr_info := plain_info vgicr_emul_pidr_access 4.

Definition reg_handler_info_table : list vgic_reg_handler_info :=
  [isenabler_info; ispendr_info; isactiver_info; icenabler_info; icpendr_info; iactiver_info;
   icfgr_info; irouter_info; ipriorityr_info; itargetr_info].
Definition vgic_get_reg_handler_info (id : Z) : option vgic_reg_handler_info :=
  if id <? VGIC_REG_HANDLER_ID_NUM then reg_handler_info_table !! Z.to_nat id else None.

(** ** Writing a field *)

(** The physical CPU of the owner; sending the request does not name the redistributor. *)
Definition vgic_int_set_field (handlers : vgic_reg_handler_info) (c : Z) (r : iref) (data : Z) : G unit :=
  int_lock r;;
  own ← vgic_get_ownership c r;
  (if own : bool then
     vgic_remove_lr c r;;
     changed ← rh_update_field handlers c r data;
     x ← get_int r;
     gwhen (changed && vgic_int_is_hw x) (rh_update_hw handlers c r);;
     vgic_route c r;;
     vgic_yield_ownership c r
   else
     x ← get_int r; vmid ← ggets avm_id;
     match vi_owner x with
     | Some o => Arm.cpu_send_msg o (mk_msg VGIC_IPI_ID VGIC_SET_REG
                   (VGIC_MSG_DATA vmid 0 (vi_id x) (rh_regid handlers) data))
     | None => gfail NullDeref
     end);;
  int_unlock r.

End Vgic.
