(* ===== verification/VgicInv.v ===== *)
(** * The invariant of the virtual interrupt controller of ARMv8

    What the hypervisor keeps true of the interrupt structures, the list registers and
    the messages, and how the basic updates of the state preserve it: an active or
    pending list register always belongs to an interrupt whose structure names it. *)

From S2P Require Import Prelude Bit Bitmap CpuMsg Gic Arm Vgic.

(** ** Total correctness of runs *)
Definition gwp {A} (m : G A) (Q : A -> avm -> Prop) (s : avm) : Prop :=
  match m s with Ok (a, s') => Q a s' | Fault _ => False end.

Lemma gwp_bind {A B} (m : G A) (k : A -> G B) Q s :
  gwp m (fun a s' => gwp (k a) Q s') s -> gwp (m ≫= k) Q s.
Proof. unfold gwp, mbind, G_bind. by destruct (m s) as [[a s']|]. Qed.

Lemma gwp_bind_inv {A B} (m : G A) (k : A -> G B) Q s :
  gwp (m ≫= k) Q s -> gwp m (fun a s' => gwp (k a) Q s') s.
Proof. unfold gwp, mbind, G_bind. by destruct (m s) as [[a s']|]. Qed.

Lemma gwp_mono {A} (m : G A) (Q R : A -> avm -> Prop) s :
  gwp m Q s -> (forall a s', Q a s' -> R a s') -> gwp m R s.
Proof. unfold gwp. destruct (m s) as [[a s']|]; [|done]. auto. Qed.

Lemma gwp_ret {A} (a : A) (Q : A -> avm -> Prop) s : Q a s -> gwp (mret a) Q s.
Proof. done. Qed.

Lemma gwp_gets {A} (f : avm -> A) (Q : A -> avm -> Prop) s : Q (f s) s -> gwp (ggets f) Q s.
Proof. done. Qed.

Lemma gwp_ok {A} (m : G A) Q s : gwp m Q s -> exists a s', m s = Ok (a, s') /\ Q a s'.
Proof. unfold gwp. destruct (m s) as [[a s']|]; [eauto|done]. Qed.

Lemma gwp_when b m (Q : unit -> avm -> Prop) s :
  (b = true -> gwp m Q s) -> (b = false -> Q tt s) -> gwp (gwhen b m) Q s.
Proof. intros H1 H2. destruct b; simpl; [by apply H1|by apply gwp_ret, H2]. Qed.

(** ** Views of the state *)
Definition lr_at (s : avm) (c i : Z) : option Z := v ← avm_vcpus s !! c; av_lrs v !! Z.to_nat i.

(** The structure an interrupt number stands for on the CPU [c]. *)
Definition ref_of (c n : Z) : iref :=
  if n <? GIC_CPU_PRIV then PrivInt c n else SpiInt (n - GIC_CPU_PRIV).

Definition ref_id (r : iref) : Z := match r with PrivInt _ n => n | SpiInt k => k + GIC_CPU_PRIV end.

Definition has_cpu (s : avm) (c : Z) : Prop := is_Some (avm_vcpus s !! c).

(** The structures that belong to the VM. *)
Definition valid_ref (s : avm) (r : iref) : Prop :=
  match r with
  | PrivInt c n => has_cpu s c /\ 0 <= n < GIC_CPU_PRIV
  | SpiInt k => 0 <= k < vd_int_num (avm_vgicd s) - GIC_CPU_PRIV
  end.

Definition ident (v : avcpu) : Z * Z * bool := (av_id v, av_vmpidr v, av_gicr_lock v).

(** What no operation on interrupts changes: the numbers of the VM, the identities of
    its virtual CPUs, the locks of the register frames, the regions and registers that are
    emulated, and the messages of CPUs outside the VM. *)
Definition shape (s : avm) :=
  (avm_id s, avm_cpus s, avm_cpu_num s, avm_vcpu_list s, avm_vgicr_addr s, vd_int_num (avm_vgicd s),
   vd_lock (avm_vgicd s), ident <$> avm_vcpus s, length (avm_spis s), avm_emul s,
   filter (fun e => avm_vcpus s !! (fst e) = None) (avm_events s)).

Section Inv.
Context `{E : GicEnv} {L : GicLaws}.

(** ** The invariant

    [held] are the structures whose lock is taken. *)
Record int_ok (held : list iref) (s : avm) (r : iref) (x : vgic_int) : Prop := {
  ok_lock : vi_lock x = bool_decide (r ∈ held);
  ok_id : vi_id x = ref_id r;
  ok_priv c n : r = PrivInt c n -> vi_phys x = c /\ (vi_in_lr x = true -> vi_owner x = Some c);
  ok_state : 0 <= vi_state x < 4;
  ok_prio : 0 <= vi_prio x < 256;
  ok_in_lr : vi_in_lr x = true -> is_Some (vi_owner x) /\ 0 <= vi_lr x < NUM_LRS;
  ok_owner o : vi_owner x = Some o -> has_cpu s o;
  ok_route k : r = SpiInt k ->
    vi_phys x = GICD_IROUTER_INV \/ has_cpu s (vi_phys x) \/ vgic_broadcast x = true
}.

(** The register [i] of the CPU [c], with the value [w], is recorded. *)
Definition lr_recorded (s : avm) (c i w : Z) : Prop :=
  GICH_LR_VID w < vd_int_num (avm_vgicd s) /\
  exists x, lookup_int s (ref_of c (GICH_LR_VID w)) = Some x /\
    vi_in_lr x = true /\ vi_owner x = Some c /\ vi_lr x = i.

(** Only shared interrupts ask for a maintenance interrupt at their end. *)
Definition eoi_shared (w : Z) : Prop :=
  Z.land w GICH_LR_HW_BIT = 0 -> Z.land w GICH_LR_EOI_BIT <> 0 -> GIC_CPU_PRIV <= GICH_LR_VID w.

(** What a message asks for, the VM apart: only software-generated interrupts are
    injected, and the registers to be set are those with a field per interrupt. *)
Definition msg_fit (msg : cpu_msg) : Prop :=
  (msg_event msg = VGIC_INJECT -> VGIC_MSG_INTID (msg_data msg) < GIC_MAX_SGIS) /\
  (msg_event msg = VGIC_SET_REG -> VGIC_MSG_VGICRID (msg_data msg) = 0 /\ VGIC_MSG_REG (msg_data msg) < 9).

Definition vm_msg (s : avm) (msg : cpu_msg) : Prop :=
  msg_handler msg = VGIC_IPI_ID -> VGIC_MSG_VM (msg_data msg) = avm_id s /\ msg_fit msg.

Record inv (held : list iref) (s : avm) : Prop := {
  inv_vcpu c v : avm_vcpus s !! c = Some v ->
    0 <= c < platform_cpu_num /\ length (av_ints v) = 32%nat /\
    length (av_lrs v) = Z.to_nat NUM_LRS /\ length (av_curr_lrs v) = 64%nat /\
    Forall (fun n => 0 <= n) (av_curr_lrs v) /\ 0 <= av_hcr v < 2 ^ 32;
  inv_num : 32 <= vd_int_num (avm_vgicd s) <= 1024 /\
    vd_int_num (avm_vgicd s) - 32 <= Z.of_nat (length (avm_spis s));
  inv_int r x : valid_ref s r -> lookup_int s r = Some x -> int_ok held s r x;
  inv_lr c i w : 0 <= i -> lr_at s c i = Some w -> GICH_LR_STATE w <> INV -> lr_recorded s c i w;
  inv_eoi c i w : 0 <= i -> lr_at s c i = Some w -> eoi_shared w;
  inv_msg c msg : has_cpu s c -> msg ∈ events_of s c -> vm_msg s msg;
  inv_vm : 0 <= avm_id s < 2 ^ 16 /\ 0 <= avm_cpus s /\ platform_cpu_num <= 8 /\
    forall i, 0 <= i -> Z.testbit (avm_cpus s) i = true -> has_cpu s i
}.

(** ** Basic facts *)
Lemma has_cpu_shape s s' c : shape s' = shape s -> has_cpu s' c <-> has_cpu s c.
Proof.
  intros H. assert (ident <$> avm_vcpus s' =
    ident <$> avm_vcpus s) as F by (unfold shape in H; congruence).
  apply (f_equal (fun m => m !! c)) in F. rewrite !lookup_fmap in F. unfold has_cpu.
  destruct (avm_vcpus s' !! c), (avm_vcpus s !! c); simpl in F; split; intros [? ?]; done || eauto.
Qed.

Lemma valid_ref_shape s s' r : shape s' = shape s -> valid_ref s' r <-> valid_ref s r.
Proof.
  intros H. destruct r; simpl.
  - by rewrite (has_cpu_shape s s').
  - assert (vd_int_num (avm_vgicd s') = vd_int_num (avm_vgicd s)) as -> by (unfold shape in H; congruence).
    done.
Qed.

Lemma int_ok_shape held s s' r x : shape s' = shape s -> int_ok held s r x -> int_ok held s' r x.
Proof.
  intros H [? ? ? ? ? ? Ho Hr]. split; try done.
  - intros o E1. apply (has_cpu_shape s s'); auto.
  - intros k Ek. rewrite (has_cpu_shape s s'); eauto.
Qed.

Lemma vid_nonneg w : 0 <= GICH_LR_VID w < 2 ^ 32.
Proof.
  unfold GICH_LR_VID, bit_extract, GICH_LR_VID_OFF, GICH_LR_VID_LEN.
  change (BIT_MASK 0 32) with (Z.ones 32). rewrite Z.land_ones by lia. apply Z.mod_pos_bound. lia.
Qed.

Lemma lr_state_range w : 0 <= GICH_LR_STATE w < 4.
Proof.
  unfold GICH_LR_STATE, bit_extract, GICH_LR_STATE_LEN.
  change (BIT_MASK 0 2) with (Z.ones 2). rewrite Z.land_ones by lia. apply Z.mod_pos_bound. lia.
Qed.

Lemma ref_of_id c n : ref_id (ref_of c n) = n.
Proof. unfold ref_of. destruct (n <? GIC_CPU_PRIV); simpl; lia. Qed.

Lemma ref_of_valid held s c n :
  inv held s -> has_cpu s c -> 0 <= n < vd_int_num (avm_vgicd s) -> valid_ref s (ref_of c n).
Proof.
  intros I Hc Hn. unfold ref_of. destruct (Z.ltb_spec n GIC_CPU_PRIV); cbn [valid_ref]; [split; [done|]|]; lia.
Qed.

Lemma valid_lookup held s r : inv held s -> valid_ref s r -> is_Some (lookup_int s r).
Proof.
  intros I Hr. destruct r as [c n|k]; simpl in *.
  - destruct Hr as [[v Hv] Hn]. rewrite Hv. simpl. apply lookup_lt_is_Some.
    destruct (inv_vcpu _ _ I c v Hv) as (_ & -> & _). unfold GIC_CPU_PRIV, GIC_MAX_SGIS, GIC_MAX_PPIS in Hn. lia.
  - apply lookup_lt_is_Some. destruct (inv_num _ _ I) as [_ H].
    unfold GIC_CPU_PRIV, GIC_MAX_SGIS, GIC_MAX_PPIS in Hr. lia.
Qed.

Lemma lr_at_bound held s c i w :
  inv held s -> 0 <= i -> lr_at s c i = Some w -> i < NUM_LRS.
Proof.
  intros I Hi H. unfold lr_at in H. destruct (avm_vcpus s !! c) as [v|] eqn:Ev; [|done]. simpl in H.
  apply lookup_lt_Some in H. destruct (inv_vcpu _ _ I c v Ev) as (_ & _ & Hl & _). lia.
Qed.

Lemma lr_at_total held s c i : inv held s -> has_cpu s c -> 0 <= i < NUM_LRS -> is_Some (lr_at s c i).
Proof.
  intros I [v Ev] Hi. unfold lr_at. rewrite Ev. simpl. apply lookup_lt_is_Some.
  destruct (inv_vcpu _ _ I c v Ev) as (_ & _ & -> & _). lia.
Qed.

(** ** Updates of an interrupt *)
Definition ref_idx (r : iref) : Z := match r with PrivInt _ n => n | SpiInt k => k end.

Lemma valid_idx s r : valid_ref s r -> 0 <= ref_idx r.
Proof. destruct r; simpl; lia. Qed.

Lemma lookup_insert_int_eq s r x y :
  lookup_int s r = Some y -> lookup_int (insert_int r x s) r = Some x.
Proof.
  destruct r as [c n|k]; simpl.
  - destruct (avm_vcpus s !! c) as [v|] eqn:Ev; [|done]. simpl. intros H.
    rewrite lookup_insert_eq. simpl. apply list_lookup_insert_eq. by apply lookup_lt_Some in H.
  - intros H. apply list_lookup_insert_eq. by apply lookup_lt_Some in H.
Qed.

Lemma lookup_insert_int_ne s r r' x :
  r <> r' -> 0 <= ref_idx r -> 0 <= ref_idx r' -> lookup_int (insert_int r x s) r' = lookup_int s r'.
Proof.
  intros Hne Hr Hr'. destruct r as [c n|k]; simpl.
  - destruct (avm_vcpus s !! c) as [v|] eqn:Ev; [|done]. destruct r' as [c' n'|k']; [|done]. simpl.
    destruct (decide (c = c')) as [<-|].
    + rewrite lookup_insert_eq, Ev. simpl. apply list_lookup_insert_ne.
      intros Ei. apply Hne. f_equal. simpl in *. lia.
    + by rewrite lookup_insert_ne.
  - destruct r' as [c' n'|k']; [done|]. simpl. apply list_lookup_insert_ne.
    intros Ei. apply Hne. f_equal. simpl in *. lia.
Qed.

Lemma insert_int_vcpu s r x c v' :
  avm_vcpus (insert_int r x s) !! c = Some v' ->
  exists v, avm_vcpus s !! c = Some v /\ length (av_ints v') = length (av_ints v) /\
    av_lrs v' = av_lrs v /\ av_curr_lrs v' = av_curr_lrs v /\ av_hcr v' = av_hcr v.
Proof.
  destruct r as [d n|k]; simpl; [|eauto 8].
  destruct (avm_vcpus s !! d) as [w|] eqn:Ew; simpl; [|eauto 8].
  rewrite lookup_insert. case_decide as Hd; [|eauto 8]. subst. intros [= <-]. exists w. simpl.
  by rewrite length_insert.
Qed.

Lemma lr_at_insert_int s r x c i : lr_at (insert_int r x s) c i = lr_at s c i.
Proof.
  unfold lr_at. destruct r as [d n|k]; simpl; [|done].
  destruct (avm_vcpus s !! d) as [w|] eqn:Ew; simpl; [|done].
  rewrite lookup_insert. case_decide as Hd; [|done]. subst. by rewrite Ew.
Qed.

Lemma shape_set_vcpus s m :
  ident <$> m = ident <$> avm_vcpus s ->
  shape (set_vcpus m s) = shape s.
Proof.
  intros H. unfold shape. simpl. rewrite H. f_equal. apply map_filter_ext. intros c e _. simpl.
  apply (f_equal (fun m => m !! c)) in H. rewrite !lookup_fmap in H.
  destruct (m !! c), (avm_vcpus s !! c); done.
Qed.

Lemma fmap_insert_same (m : gmap Z avcpu) c v v' :
  m !! c = Some v -> ident v' = ident v ->
  ident <$> <[c := v']> m = ident <$> m.
Proof.
  intros Hc Hi. rewrite fmap_insert. apply insert_id. rewrite lookup_fmap, Hc. simpl. by rewrite Hi.
Qed.

Lemma shape_insert_int s r x : shape (insert_int r x s) = shape s.
Proof.
  destruct r as [c n|k]; simpl.
  - destruct (avm_vcpus s !! c) as [v|] eqn:Ev; [|done].
    apply shape_set_vcpus. by apply (fmap_insert_same _ _ v).
  - unfold shape. simpl. by rewrite length_insert.
Qed.

Lemma events_insert_int s r x c : events_of (insert_int r x s) c = events_of s c.
Proof. destruct r as [d n|k]; simpl; [|done]. by destruct (avm_vcpus s !! d). Qed.

Lemma shape_vgicd s s' : shape s' = shape s -> vd_int_num (avm_vgicd s') = vd_int_num (avm_vgicd s).
Proof. unfold shape. congruence. Qed.
Lemma shape_vm s s' : shape s' = shape s -> avm_id s' = avm_id s /\ avm_cpus s' = avm_cpus s.
Proof. unfold shape. intros. split; congruence. Qed.

(** The invariant survives a new value of one interrupt that keeps what the list
    registers rely on. *)
Lemma inv_insert held held' s r x y :
  inv held s -> valid_ref s r -> lookup_int s r = Some x -> int_ok held' s r y ->
  (forall r', r' <> r -> r' ∈ held' <-> r' ∈ held) ->
  (forall c i w, 0 <= i -> lr_at s c i = Some w -> GICH_LR_STATE w <> INV -> ref_of c (GICH_LR_VID w) = r ->
    vi_in_lr y = true /\ vi_owner y = Some c /\ vi_lr y = i) ->
  inv held' (insert_int r y s).
Proof.
  intros I Hr Hx Hy Hh Hlr. pose proof (shape_insert_int s r y) as Hs.
  pose proof (valid_idx s r Hr) as Hi. split.
  - intros c v' Hv. apply insert_int_vcpu in Hv as (v & Hv & El & Ell & Ec & Eh).
    rewrite El, Ell, Ec, Eh. by apply (inv_vcpu _ _ I).
  - rewrite (shape_vgicd _ _ Hs). assert (length (avm_spis (insert_int r y s)) = length (avm_spis s)) as ->
      by (unfold shape in Hs; congruence). apply (inv_num _ _ I).
  - intros r' x' Hr' Hx'. apply (int_ok_shape _ _ _ _ _ Hs). apply (valid_ref_shape _ _ _ Hs) in Hr'.
    destruct (decide (r = r')) as [<-|Hne].
    + rewrite (lookup_insert_int_eq _ _ _ _ Hx) in Hx'. by injection Hx' as <-.
    + rewrite lookup_insert_int_ne in Hx' by eauto using valid_idx.
      destruct (inv_int _ _ I r' x' Hr' Hx') as [Hl ? ? ? ? ? ? ?]. split; try done.
      rewrite Hl. apply bool_decide_ext. symmetry. apply Hh. congruence.
  - intros c i w Hi0 Hw Hst. rewrite lr_at_insert_int in Hw.
    destruct (inv_lr _ _ I c i w Hi0 Hw Hst) as (Hn & x' & Hx' & Hin & Ho & El).
    split; [by rewrite (shape_vgicd _ _ Hs)|].
    destruct (decide (ref_of c (GICH_LR_VID w) = r)) as [Er|Hne].
    + rewrite Er. exists y. split; [by apply (lookup_insert_int_eq _ _ _ x)|].
      by apply (Hlr c i w).
    + exists x'. split; [|done]. rewrite lookup_insert_int_ne; [done|congruence|done|].
      apply (valid_idx s). apply (ref_of_valid held); [done| |pose proof (vid_nonneg w); lia].
      destruct (lr_at s c i) eqn:El'; [|done]. unfold lr_at in El'. unfold has_cpu.
      destruct (avm_vcpus s !! c); [eauto|done].
  - intros c i w Hi0. rewrite lr_at_insert_int. by apply (inv_eoi _ _ I).
  - intros c msg Hc. rewrite events_insert_int. unfold vm_msg. rewrite (proj1 (shape_vm _ _ Hs)).
    apply (inv_msg _ _ I). by apply (has_cpu_shape _ _ _ Hs).
  - destruct (shape_vm _ _ Hs) as [-> ->]. destruct (inv_vm _ _ I) as (? & ? & ? & H).
    do 3 (split; [done|]). intros i Hi1 Hb. apply (has_cpu_shape _ _ _ Hs). by apply H.
Qed.

Lemma int_ok_rest held s r x y :
  int_ok held s r x -> vi_lock y = vi_lock x -> vi_id y = vi_id x -> vi_phys y = vi_phys x ->
  vi_in_lr y = vi_in_lr x -> vi_owner y = vi_owner x -> vi_lr y = vi_lr x -> vi_route y = vi_route x ->
  0 <= vi_state y < 4 -> 0 <= vi_prio y < 256 -> int_ok held s r y.
Proof.
  intros [? ? ? ? ? ? ? Hr] El Ei Ep En Eo Elr Er Hs Hp. split; rewrite ?El, ?Ei, ?Ep, ?En, ?Eo, ?Elr; try done.
  intros k Ek. unfold vgic_broadcast. rewrite Er. by apply (Hr k).
Qed.

(** No list register holds an interrupt that is not marked. *)
Lemma not_in_lr held s r x c i w :
  inv held s -> lookup_int s r = Some x -> vi_in_lr x = false ->
  0 <= i -> lr_at s c i = Some w -> GICH_LR_STATE w <> INV -> ref_of c (GICH_LR_VID w) <> r.
Proof.
  intros I Hx Hin Hi Hw Hs <-. destruct (inv_lr _ _ I c i w Hi Hw Hs) as (_ & x' & Hx' & Hin' & _).
  congruence.
Qed.

(** Two corollaries: the interrupt is outside the list registers, or it keeps its place. *)
Lemma inv_insert_out held s r x y :
  inv held s -> valid_ref s r -> lookup_int s r = Some x -> vi_in_lr x = false -> int_ok held s r y ->
  inv held (insert_int r y s).
Proof.
  intros I Hr Hx Hin Hy. apply (inv_insert held held s r x y); try done.
  intros c i w Hi Hw Hs Er. by destruct (not_in_lr _ _ _ _ _ _ _ I Hx Hin Hi Hw Hs).
Qed.

Lemma inv_insert_keep held held' s r x y :
  inv held s -> valid_ref s r -> lookup_int s r = Some x -> int_ok held' s r y ->
  (forall r', r' <> r -> r' ∈ held' <-> r' ∈ held) ->
  vi_in_lr y = vi_in_lr x -> vi_owner y = vi_owner x -> vi_lr y = vi_lr x ->
  inv held' (insert_int r y s).
Proof.
  intros I Hr Hx Hy Hh E1 E2 E3. apply (inv_insert held held' s r x y); try done.
  intros c i w Hi Hw Hs Er. destruct (inv_lr _ _ I c i w Hi Hw Hs) as (_ & x' & Hx' & ? & ? & ?).
  rewrite Er, Hx in Hx'. injection Hx' as <-. rewrite E1, E2, E3. done.
Qed.

(** ** Updates of a virtual CPU that leave its interrupts alone *)
Lemma lookup_int_vcpu s c v v' r :
  avm_vcpus s !! c = Some v -> av_ints v' = av_ints v ->
  lookup_int (set_vcpus (<[c := v']> (avm_vcpus s)) s) r = lookup_int s r.
Proof.
  intros Hv Hi. destruct r as [d n|k]; simpl; [|done]. rewrite lookup_insert. case_decide; [|done].
  subst. rewrite Hv. simpl. by rewrite Hi.
Qed.

Lemma lr_at_vcpu s c v v' d i :
  avm_vcpus s !! c = Some v ->
  lr_at (set_vcpus (<[c := v']> (avm_vcpus s)) s) d i =
  if decide (c = d) then av_lrs v' !! Z.to_nat i else lr_at s d i.
Proof. intros Hv. unfold lr_at. simpl. rewrite lookup_insert. by case_decide. Qed.

Lemma inv_vcpu_mod held s c v v' :
  inv held s -> avm_vcpus s !! c = Some v ->
  ident v' = ident v -> av_ints v' = av_ints v ->
  length (av_lrs v') = length (av_lrs v) -> length (av_curr_lrs v') = length (av_curr_lrs v) ->
  Forall (fun n => 0 <= n) (av_curr_lrs v') /\ 0 <= av_hcr v' < 2 ^ 32 ->
  (forall i w, 0 <= i -> av_lrs v' !! Z.to_nat i = Some w -> GICH_LR_STATE w <> INV ->
    av_lrs v !! Z.to_nat i = Some w \/ lr_recorded s c i w) ->
  (forall w, w ∈ av_lrs v' -> w ∈ av_lrs v \/ eoi_shared w) ->
  let s' := set_vcpus (<[c := v']> (avm_vcpus s)) s in inv held s' /\ shape s' = shape s.
Proof.
  intros I Hv E1 E3 E4 E5 Hc Hl He s'.
  assert (shape s' = shape s) as Hs by (apply shape_set_vcpus; by apply (fmap_insert_same _ _ v)).
  split; [|done]. split.
  - intros d w Hw. simpl in Hw. rewrite lookup_insert in Hw. case_decide as Hd.
    + subst d. injection Hw as <-. destruct (inv_vcpu _ _ I c v Hv) as (? & ? & ? & ? & _).
      rewrite E3, E4, E5. done.
    + by apply (inv_vcpu _ _ I).
  - apply (inv_num _ _ I).
  - intros r x Hr Hx. unfold s' in Hx. rewrite (lookup_int_vcpu s c v v' r Hv E3) in Hx.
    apply (int_ok_shape _ _ _ _ _ Hs), (inv_int _ _ I); [|done]. by apply (valid_ref_shape _ _ _ Hs).
  - intros d i w Hi Hw Hst. unfold s' in Hw. rewrite (lr_at_vcpu s c v v' d i Hv) in Hw.
    assert (lr_recorded s d i w) as (Hn & x & Hx & R).
    { case_decide as Hd; [|by apply (inv_lr _ _ I)]. subst d.
      destruct (Hl i w Hi Hw Hst) as [Hw'|]; [|done]. apply (inv_lr _ _ I); [done| |done].
      unfold lr_at. by rewrite Hv. }
    split; [done|]. exists x. split; [|done]. unfold s'. by rewrite (lookup_int_vcpu s c v v' _ Hv E3).
  - intros d i w Hi Hw. unfold s' in Hw. rewrite (lr_at_vcpu s c v v' d i Hv) in Hw.
    case_decide as Hd; [|by apply (inv_eoi _ _ I d i w Hi Hw)].
    destruct (He w) as [Hin|]; [by eapply list_elem_of_lookup_2| |done].
    apply list_elem_of_lookup in Hin as [j Hj]. apply (inv_eoi _ _ I c (Z.of_nat j)); [lia|].
    unfold lr_at. rewrite Hv. simpl. by rewrite Nat2Z.id.
  - intros d msg Hd. apply (inv_msg _ _ I). by apply (has_cpu_shape _ _ _ Hs).
  - destruct (inv_vm _ _ I) as (? & ? & ? & H). do 3 (split; [done|]).
    intros i Hi1 Hb. apply (has_cpu_shape _ _ _ Hs). by apply H.
Qed.

End Inv.
