(* ===== verification/VgicMove.v ===== *)
(** * Moving interrupts in and out of the list registers on ARMv8

    [vgic_add_lr] with its search for a register and the spilling of another interrupt,
    the messages, and [vgic_route]: each preserves the invariant, ends, and leaves every
    interrupt in the state the guest had it in. *)

From S2P Require Import Prelude Bit Bitmap CpuMsg Gic Arm Vgic VgicInv VgicLr.

Section Move.
Context `{E : GicEnv} {L : GicLaws}.

(** ** Finding a register *)
Lemma bit_get_testbit w i : 0 <= i < 64 -> negb (bit_get w i =? 0) = Z.testbit w i.
Proof.
  intros Hi. unfold bit_get. rewrite Z.shiftl_1_l, wrap_small.
  2: { split; [lia|]. apply Z.pow_lt_mono_r; lia. }
  rewrite <- Z.shiftl_1_l, land_pow2_eqb by lia. apply negb_involutive.
Qed.

Lemma first_empty_some w i k j :
  0 <= i -> i + Z.of_nat k <= 64 -> first_empty w i k = Some j ->
  i <= j < i + Z.of_nat k /\ Z.testbit w j = true.
Proof.
  revert i. induction k as [|k IH]; intros i Hi Hk; simpl; [done|].
  rewrite bit_get_testbit by lia. destruct (Z.testbit w i) eqn:Eb.
  - intros [= <-]. split; [lia|done].
  - intros H. apply IH in H; [|lia..]. split; [lia|apply H].
Qed.

Lemma lr_state_bits w : GICH_LR_STATE w = INV -> Z.land w GICH_LR_STATE_MSK = 0.
Proof.
  intros H. apply Z.bits_inj'. intros i Hi. rewrite Z.land_spec, Z.bits_0.
  unfold GICH_LR_STATE_MSK, GICH_LR_STATE_OFF, GICH_LR_STATE_LEN. rewrite BIT_MASK_testbit by lia.
  destruct (decide (62 <= i < 64)) as [Hd|Hd].
  2: { zbool; simpl; rewrite ?andb_false_r; done || lia. }
  apply (f_equal (fun z => Z.testbit z (i - 62))) in H. unfold GICH_LR_STATE, GICH_LR_STATE_OFF, GICH_LR_STATE_LEN in H.
  rewrite bit_extract_testbit in H by lia. replace (i - 62 <? 2) with true in H by lia.
  replace (i - 62 <? 64) with true in H by lia. replace (i - 62 + 62) with i in H by lia. simpl in H.
  rewrite H. unfold INV. by rewrite Z.bits_0.
Qed.

(** The registers the search remembers are active or pending. *)
Definition scan_ok (s : avm) (c : Z) (sc : spill_scan) : Prop :=
  forall j, pend_ind sc = Some j \/ act_ind sc = Some j ->
    0 <= j < NUM_LRS /\ exists w, lr_at s c j = Some w /\ GICH_LR_STATE w <> INV.

Lemma scan_lr_ok s c sc i w :
  scan_ok s c sc -> 0 <= i < NUM_LRS -> lr_at s c i = Some w -> scan_ok s c (scan_lr sc i w).
Proof.
  intros H Hi Hw j. unfold scan_lr.
  assert (forall b, negb (Z.land (Z.land w GICH_LR_STATE_MSK) b =? 0) = true -> GICH_LR_STATE w <> INV) as Hn.
  { intros b Hb E0. rewrite (lr_state_bits _ E0) in Hb. by rewrite Z.land_0_l in Hb. }
  destruct (negb _) eqn:E1; [|destruct (negb (Z.land _ GICH_LR_STATE_PND =? 0)) eqn:E2]; cbn [pend_ind act_ind].
  - specialize (Hn _ E1). destruct (_ <? _); [|apply H].
    intros [Hj|[= <-]]; [apply H; by left|]. split; [done|]. eauto.
  - specialize (Hn _ E2). destruct (_ <? _); [|apply H].
    intros [[= <-]|Hj]; [|apply H; by right]. split; [done|]. eauto.
  - apply H.
Qed.

Lemma scan_lrs_wp held s c k sc i (Q : spill_scan -> avm -> Prop) :
  inv held s -> has_cpu s c -> 0 <= i -> i + Z.of_nat k <= NUM_LRS -> scan_ok s c sc ->
  (forall sc', scan_ok s c sc' -> Q sc' s) -> gwp (scan_lrs c sc i k) Q s.
Proof.
  intros I Hc. revert sc i. induction k as [|k IH]; intros sc i Hi Hk Hsc H; [by apply gwp_ret, H|].
  apply gwp_bind, (gich_read_lr_wp held); [done|done|lia|]. intros w Hw.
  apply IH; [lia|lia| |done]. apply scan_lr_ok; [done|lia|done].
Qed.

(** ** Spilling an interrupt *)
Lemma removed_keeps held s s1 c r x :
  inv held s -> valid_ref s r -> lookup_int s r = Some x -> vi_owner x = Some c ->
  frame [r] s s1 -> lrs_removed s s1 c x ->
  lookup_int s1 r = Some (set_state (int_state s c x) (set_in_lr false x)) ->
  keeps [] s s1.
Proof.
  intros I Hr Hx Ho [Hs F] Hl Hx1 r' _ Hv'.
  destruct (decide (r' = r)) as [->|Hne].
  { apply view_eq; [by rewrite Hx1, Hx|]. rewrite (virt_out s1 r _ Hx1) by done. by rewrite (virt_owned s r x c). }
  assert (lookup_int s1 r' = lookup_int s r') as E1 by (apply F; [set_solver|by apply (valid_idx s)]).
  apply view_eq; [by rewrite E1|]. unfold virt_state. rewrite E1. destruct (lookup_int s r') as [y|] eqn:Ey; [|done].
  destruct (vi_owner y) as [o|] eqn:Eo; [|done]. pose proof (inv_int _ _ I r' y Hv' Ey) as Oky.
  unfold int_state, lr_of. destruct (vi_in_lr y) eqn:Ein; [|done].
  rewrite Eo, bool_decide_eq_true_2 by done. cbn [andb].
  destruct (ok_in_lr _ _ _ _ Oky Ein) as [_ Hlr]. rewrite Hl by lia. case_decide as Hd; [|done].
  destruct Hd as ((w & Hw) & -> & Ej). cbn [mbind option_bind]. rewrite state_0, andb_false_r.
  unfold lr_of in Hw. destruct (vi_in_lr x) eqn:Hin; [|done]. rewrite Ho, bool_decide_eq_true_2 in Hw by done.
  cbn [andb] in Hw. rewrite Ej. destruct (lr_at s c (vi_lr x)) as [w'|] eqn:Ew; [|done].
  cbn [mbind option_bind] in *. destruct (GICH_LR_VID w' =? vi_id x) eqn:E2; [|done]. cbn [andb] in Hw.
  destruct (GICH_LR_STATE w' =? INV) eqn:E3; [done|]. apply Z.eqb_eq in E2. apply Z.eqb_neq in E3.
  destruct (Z.eqb_spec (GICH_LR_VID w') (vi_id y)) as [E4|]; [|done]. exfalso.
  destruct (inv_lr _ _ I c (vi_lr x) w') as (_ & z & Hz & Hzin & Hzo & Hzl); [lia|done|done|].
  pose proof (inv_int _ _ I r x Hr Hx) as Okx. apply Hne.
  assert (forall q u, valid_ref s q -> lookup_int s q = Some u -> vi_in_lr u = true -> vi_owner u = Some c ->
    q = ref_of c (vi_id u)) as Hq.
  { intros q u Hvq Huq Hin' Ho'. pose proof (inv_int _ _ I q u Hvq Huq) as Ok. rewrite (ok_id _ _ _ _ Ok).
    destruct q as [d m|k]; simpl in Hvq; simpl; unfold ref_of.
    - destruct (ok_priv _ _ _ _ Ok d m eq_refl) as [_ Hp]. specialize (Hp Hin').
      replace (m <? GIC_CPU_PRIV) with true by lia. congruence.
    - replace (k + GIC_CPU_PRIV <? GIC_CPU_PRIV) with false by lia. f_equal. lia. }
  rewrite (Hq r' y), (Hq r x) by done. congruence.
Qed.

Lemma spill_lr_wp s c r x (Q : option Z -> avm -> Prop) :
  inv [r] s -> has_cpu s c -> valid_ref s r -> lookup_int s r = Some x -> vi_in_lr x = false ->
  (forall o s', inv [r] s' -> shape s' = shape s -> lookup_int s' r = Some x -> keeps [] s s' ->
    (forall i, o = Some i -> 0 <= i < NUM_LRS /\ lr_at s' c i = Some 0) -> (o = None -> s' = s) -> Q o s') ->
  gwp (spill_lr c) Q s.
Proof.
  intros I Hc Hr Hx Hin H. pose proof num_lrs_range as HL.
  apply gwp_bind, (scan_lrs_wp [r]); [done|done|lia|lia| |].
  { intros j [[=]|[=]]. }
  intros sc Hsc. set (o := if 1 <? pend_found sc then pend_ind sc else act_ind sc).
  destruct o as [i|] eqn:Eo.
  2: { by apply gwp_ret, H. }
  destruct (Hsc i) as (Hi & w & Hw & Hst).
  { unfold o in Eo. destruct (_ <? _); auto. }
  apply gwp_bind, aget_vcpu_wp; [done|]. intros v Hv.
  apply gwp_bind, (gich_read_lr_wp [r]); [done..|]. intros w' Hw'. assert (w' = w) as -> by congruence.
  destruct (inv_lr _ _ I c i w (proj1 Hi) Hw Hst) as (Hn & y & Hy & Hyin & Hyo & Hyl).
  apply gwp_bind, (get_int_own_wp [r]); [done..|]. replace (_ <? _) with true by lia.
  set (p := ref_of c (GICH_LR_VID w)) in *. pose proof (vid_nonneg w) as Hvid.
  assert (valid_ref s p) as Hp by (apply (ref_of_valid [r]); [done|done|lia]).
  assert (p <> r) as Hpr by congruence.
  apply gwp_bind, gwp_bind, (int_lock_wp [r]); [done|done|set_solver|].
  intros y0 s1 Hy0 -> I1 F1 L1 Hy1. assert (y0 = y) as -> by congruence.
  set (y1 := set_lock true y) in *. set (s1 := insert_int p y1 s) in *.
  assert (has_cpu s1 c) as Hc1 by by apply (has_cpu_shape s _ _ (proj1 F1)).
  assert (valid_ref s1 p) as Hp1 by by apply (valid_ref_shape s _ _ (proj1 F1)).
  apply gwp_bind, (remove_lr_wp (p :: [r]) _ _ _ y1); [done..|].
  intros b s2 I2 F2 L2 Hy2. set (y2 := set_state _ _) in Hy2.
  assert (keeps [] s1 s2) as K2 by by apply (removed_keeps (p :: [r]) s1 s2 c p y1).
  assert (shape s2 = shape s) as Hs2 by (rewrite (proj1 F2); apply F1).
  apply gwp_bind, (yield_wp (p :: [r]) _ _ _ y2); [done|by apply (has_cpu_shape s)|by apply (valid_ref_shape s)|done|].
  intros y3 s3 Hy3' I3 F3 L3 Hy3.
  assert (shape s3 = shape s) as Hs3 by (rewrite (proj1 F3); done).
  apply (int_unlock_wp [r] _ _ y3); [done|by apply (valid_ref_shape s)|set_solver|done|].
  intros s4 I4 F4 L4 Hy4. apply gwp_ret, H; [done|rewrite (proj1 F4); done| | | |done].
  - pose proof (valid_idx _ _ Hr). rewrite (proj2 F4), (proj2 F3), (proj2 F2), (proj2 F1) by (done || set_solver).
    done.
  - eapply (vkeeps_trans _ _ s1); [apply F1| |].
    { apply (keeps_one _ _ p); [done|done|by rewrite Hy1, Hy|]. by apply (virt_same _ _ _ y y1). }
    eapply (vkeeps_trans _ _ s2); [apply F2|done|].
    assert (frame [p] s2 s4) as F24 by by eapply vframe_trans.
    assert (lrs_same s2 s4) as L24 by (intros d j; by rewrite L4, L3).
    apply (keeps_one _ _ p); [done|done|rewrite Hy4, Hy2; by destruct Hy3' as [->|[_ ->]]|].
    rewrite (virt_out s4 p _ Hy4) by (destruct Hy3' as [->|[_ ->]]; done).
    rewrite (virt_out s2 p _ Hy2) by done. by destruct Hy3' as [->|[_ ->]].
  - intros j [= <-]. split; [done|]. rewrite L4, L3, (L2 c i) by lia.
    rewrite decide_True; [done|]. split; [|done].
    unfold lr_of. change (vi_in_lr y1) with (vi_in_lr y). change (vi_owner y1) with (vi_owner y).
    rewrite Hyin, Hyo, bool_decide_eq_true_2 by done. cbn [andb]. change (vi_lr y1) with (vi_lr y).
    rewrite Hyl, L1, Hw. cbn [mbind option_bind]. change (vi_id y1) with (vi_id y).
    rewrite (ok_id _ _ _ _ (inv_int _ _ I p y Hp Hy)). unfold p. rewrite ref_of_id, Z.eqb_refl.
    replace (GICH_LR_STATE w =? INV) with false by lia. cbn [andb negb]. eauto.
Qed.

(** ** Adding an interrupt to the list registers *)
Lemma add_lr_wp s c r x (Q : bool -> avm -> Prop) :
  inv [r] s -> has_cpu s c -> valid_ref s r -> lookup_int s r = Some x -> vi_owner x = Some c ->
  r = ref_of c (vi_id x) ->
  (forall b x' s', inv [r] s' -> shape s' = shape s -> keeps [r] s s' -> lookup_int s' r = Some x' ->
    (b = false -> x' = x /\ virt_state s' r = virt_state s r) ->
    (b = true -> vi_in_lr x = false /\ (exists i, 0 <= i < NUM_LRS /\ x' = placed i x) /\
                 virt_state s' r = lr_state_of x (vi_state x)) -> Q b s') ->
  gwp (vgic_add_lr c r) Q s.
Proof.
  intros I Hc Hr Hx Ho Er H. pose proof num_lrs_range as HL.
  apply gwp_bind, (get_int_eq_wp _ _ x); [done|].
  destruct (negb (vi_enabled x) || vi_in_lr x) eqn:Eg.
  { apply gwp_ret, (H false x); try done. }
  apply orb_false_iff in Eg as [_ Hin].
  apply gwp_bind, gwp_bind, aget_vcpu_wp; [done|]. intros v Hv. apply gwp_ret, gwp_bind.
  assert (forall s1 i, inv [r] s1 -> shape s1 = shape s -> lookup_int s1 r = Some x -> keeps [] s s1 ->
    0 <= i < NUM_LRS -> (forall w, lr_at s1 c i = Some w -> GICH_LR_STATE w = INV) ->
    gwp (vgic_write_lr c r i;; mret true) Q s1) as Hwrite.
  { intros s1 i I1 Hs1 Hx1 K1 Hi Hw.
    assert (valid_ref s1 r) as Hr1 by by apply (valid_ref_shape s).
    assert (has_cpu s1 c) as [v1 Hv1] by by apply (has_cpu_shape s).
    destruct (inv_vcpu _ _ I1 c v1 Hv1) as (_ & _ & _ & Hlc & _).
    destruct (lookup_lt_is_Some_2 (av_curr_lrs v1) (Z.to_nat i)) as [n Hn]; [lia|].
    apply gwp_bind, (write_lr_wp _ _ _ x _ v1 n); [done..|].
    intros s2 I2 F2 Hx2 Hl2 K2. apply gwp_ret, (H true (placed i x)); [done|rewrite (proj1 F2); done| |done|done|].
    - eapply (vkeeps_trans _ _ s1); [done|eapply keeps_mono; [exact K1|set_solver]|done].
    - intros _. split; [done|]. split; [by exists i|].
      apply (placed_virt [r] s1 _ c r x i); try done. rewrite Hl2 by lia. by rewrite decide_True. }
  destruct (first_empty _ _ _) as [i|] eqn:Ef.
  - apply first_empty_some in Ef as [Hi Hb]; [|lia..].
    apply gwp_ret, Hwrite; try done; [lia|]. intros w Hw. rewrite elrsr_spec in Hb by lia.
    unfold lr_at in Hw. rewrite Hv in Hw. cbn [mbind option_bind] in Hw. rewrite Hw in Hb.
    unfold lr_empty in Hb. apply andb_true_iff in Hb as [Hb _]. by apply Z.eqb_eq in Hb.
  - apply (spill_lr_wp _ _ r x); [done..|]. intros o s1 I1 Hs1 Hx1 K1 Ho1 Hnone. destruct o as [i|].
    + destruct (Ho1 i eq_refl) as [Hi Hw]. apply Hwrite; try done. intros w. rewrite Hw. by intros [= <-].
    + rewrite Hnone by done. apply gwp_bind, (get_int_eq_wp _ _ x); [done|].
      apply gwp_bind, (vgic_get_state_wp [r] _ _ r); [done|done|by apply (inv_int _ _ I)|].
      apply gwp_bind, gwp_when; intros _.
      * apply (enable_npie_wp [r]); [done|done|]. intros s2 I2 Hs2 Hl2 L2.
        apply gwp_ret, (H false x); [done|done| |by rewrite Hl2| |done].
        -- apply keeps_frame; [|done]. split; [done|]. intros r' _ _. apply Hl2.
        -- intros _. split; [done|]. by apply virt_ext.
      * apply gwp_ret, (H false x); try done.
Qed.

(** ** Messages *)
Lemma land_mask_testbit x n i : 0 <= n -> 0 <= i -> Z.testbit (Z.land x (2 ^ n - 1)) i = (i <? n) && Z.testbit x i.
Proof.
  intros. change (2 ^ n - 1) with (Z.pred (2 ^ n)). rewrite <- Z.ones_equiv, Z.land_spec, Z.testbit_ones_nonneg by lia.
  by rewrite andb_comm.
Qed.

Lemma msg_data_testbit vmid vgicrid int_id reg val i :
  0 <= i ->
  Z.testbit (VGIC_MSG_DATA vmid vgicrid int_id reg val) i =
  ((48 <=? i) && (i <? 64) && Z.testbit vmid (i - 48))
  || ((32 <=? i) && (i <? 48) && Z.testbit vgicrid (i - 32))
  || ((16 <=? i) && (i <? 31) && Z.testbit int_id (i - 16))
  || ((8 <=? i) && (i <? 16) && Z.testbit reg (i - 8))
  || ((i <? 8) && Z.testbit val i).
Proof.
  intros Hi. unfold VGIC_MSG_DATA. rewrite !Z.lor_spec, wrap_testbit, !Z.shiftl_spec by lia.
  assert (forall x n k, 0 <= n -> 0 <= k -> Z.testbit (Z.land x (2 ^ n - 1)) (i - k) =
    (k <=? i) && (i <? k + n) && Z.testbit x (i - k)) as Hf.
  { intros x n k Hn Hk. destruct (Z.leb_spec k i).
    - rewrite land_mask_testbit by lia. zbool; simpl; done || lia.
    - rewrite (Z.testbit_neg_r _ (i - k)) by lia. done. }
  change 0xffff with (2 ^ 16 - 1). change 0x7fff with (2 ^ 15 - 1). change 0xff with (2 ^ 8 - 1).
  rewrite !Hf by lia. rewrite land_mask_testbit by lia.
  destruct (Z.leb_spec 48 i); cbn [andb]; [done|].
  rewrite (Z.testbit_neg_r vmid) by lia. by rewrite andb_false_r.
Qed.

Lemma bits_small x n i : 0 <= x < 2 ^ n -> n <= i -> Z.testbit x i = false.
Proof.
  intros Hx Hi. destruct (decide (x = 0)) as [->|]; [apply Z.bits_0|].
  assert (0 <= n) by (destruct (decide (0 <= n)); [done|rewrite Z.pow_neg_r in Hx; lia]).
  apply Z.bits_above_log2; [lia|]. apply Z.log2_lt_pow2; [lia|].
  apply (Z.lt_le_trans _ (2 ^ n)); [lia|]. apply Z.pow_le_mono_r; lia.
Qed.

(** The fields of a message are found again, cut to their widths. *)
Lemma msg_field vmid vgicrid int_id reg val off n x :
  0 <= off -> 0 <= n ->
  (forall i, 0 <= i < n -> Z.testbit (VGIC_MSG_DATA vmid vgicrid int_id reg val) (i + off) = Z.testbit x i) ->
  Z.land (Z.shiftr (VGIC_MSG_DATA vmid vgicrid int_id reg val) off) (2 ^ n - 1) = Z.land x (2 ^ n - 1).
Proof.
  intros Ho Hn H. apply Z.bits_inj'. intros i Hi. rewrite !land_mask_testbit, Z.shiftr_spec by lia.
  destruct (Z.ltb_spec i n); cbn [andb]; [apply H; lia|done].
Qed.

(** All the comparisons of a bit of a message with the bounds of the fields. *)
Ltac msg_bit :=
  rewrite msg_data_testbit by lia;
  repeat match goal with
    | |- context [?a <=? ?b] => first [replace (a <=? b) with true by lia | replace (a <=? b) with false by lia]
    | |- context [?a <? ?b] => first [replace (a <? b) with true by lia | replace (a <? b) with false by lia]
    end;
  cbn [andb orb]; rewrite ?orb_false_r, ?Z.add_simpl_r.

Lemma msg_vgicrid vmid vgicrid int_id reg val :
  VGIC_MSG_VGICRID (VGIC_MSG_DATA vmid vgicrid int_id reg val) = Z.land vgicrid 0xffff.
Proof.
  unfold VGIC_MSG_VGICRID. change 0xffff with (2 ^ 16 - 1). apply msg_field; [lia..|]. intros i Hi. by msg_bit.
Qed.
Lemma msg_intid vmid vgicrid int_id reg val :
  VGIC_MSG_INTID (VGIC_MSG_DATA vmid vgicrid int_id reg val) = Z.land int_id 0x7fff.
Proof.
  unfold VGIC_MSG_INTID. change 0x7fff with (2 ^ 15 - 1). apply msg_field; [lia..|]. intros i Hi. by msg_bit.
Qed.
Lemma msg_reg vmid vgicrid int_id reg val :
  VGIC_MSG_REG (VGIC_MSG_DATA vmid vgicrid int_id reg val) = Z.land reg 0xff.
Proof.
  unfold VGIC_MSG_REG. change 0xff with (2 ^ 8 - 1). apply msg_field; [lia..|]. intros i Hi. by msg_bit.
Qed.
Lemma msg_val vmid vgicrid int_id reg val :
  VGIC_MSG_VAL (VGIC_MSG_DATA vmid vgicrid int_id reg val) = Z.land val 0xff.
Proof.
  unfold VGIC_MSG_VAL. rewrite <- (Z.shiftr_0_r (VGIC_MSG_DATA _ _ _ _ _)). change 0xff with (2 ^ 8 - 1).
  apply msg_field; [lia..|]. intros i Hi. rewrite Z.add_0_r. by msg_bit.
Qed.
Lemma msg_vm vmid vgicrid int_id reg val :
  0 <= vmid < 2 ^ 16 -> VGIC_MSG_VM (VGIC_MSG_DATA vmid vgicrid int_id reg val) = vmid.
Proof.
  intros Hv. apply Z.bits_inj'. intros i Hi. unfold VGIC_MSG_VM. rewrite Z.shiftr_spec by lia.
  destruct (Z.ltb_spec i 16); [by msg_bit|]. rewrite (bits_small vmid 16) by lia.
  rewrite msg_data_testbit by lia. destruct (Z.ltb_spec (i + 48) 64); [lia|]. rewrite andb_false_r.
  replace (i + 48 <? 48) with false by lia. replace (i + 48 <? 31) with false by lia.
  replace (i + 48 <? 16) with false by lia. replace (i + 48 <? 8) with false by lia.
  by rewrite !andb_false_r.
Qed.

Lemma cpu_send_msg_wp held s c msg (Q : unit -> avm -> Prop) :
  inv held s -> has_cpu s c -> vm_msg s msg ->
  (forall s', inv held s' -> shape s' = shape s -> (forall r, lookup_int s' r = lookup_int s r) ->
    lrs_same s s' -> Q tt s') ->
  gwp (Arm.cpu_send_msg c msg) Q s.
Proof.
  intros I Hc Hm H. set (s' := set_events (<[c := events_of s c ++ [msg]]> (avm_events s)) s).
  change (Q tt s'). assert (shape s' = shape s) as Hs.
  { unfold shape. simpl. f_equal. destruct Hc as [v Hv]. apply map_filter_insert_not. intros y. simpl.
    by rewrite Hv. }
  apply H; [|done|by intros [|]|done]. destruct I as [I1 I2 I3 I4 Ie I5 I6]. split; try done.
  - intros r x Hr Hx. apply (int_ok_shape _ _ _ _ _ Hs), I3; [done|]. by destruct r.
  - intros d m Hd Hin. unfold s', events_of in Hin. simpl in Hin. rewrite lookup_insert in Hin.
    case_decide as Ed; [|by apply (I5 d)]. subst d. simpl in Hin. apply elem_of_app in Hin as [Hin|Hin].
    + by apply (I5 c).
    + apply list_elem_of_singleton in Hin. by subst m.
Qed.

Lemma send_mask_wp held s mask msg i k (Q : unit -> avm -> Prop) :
  inv held s -> vm_msg s msg -> 0 <= i -> i + Z.of_nat k <= 64 ->
  (forall j, 0 <= j < 64 -> Z.testbit mask j = true -> has_cpu s j) ->
  (forall s', inv held s' -> shape s' = shape s -> (forall r, lookup_int s' r = lookup_int s r) ->
    lrs_same s s' -> Q tt s') ->
  gwp (send_mask mask msg i k) Q s.
Proof.
  revert s i. induction k as [|k IH]; intros s i I Hm Hi Hk Hj H; [by apply gwp_ret, H|].
  apply gwp_bind, gwp_when; intros Hb.
  - change (Z.land mask (u64 (Z.shiftl 1 i))) with (bit_get mask i) in Hb. rewrite bit_get_testbit in Hb by lia.
    apply (cpu_send_msg_wp held); [done|apply Hj; [lia|done]|done|]. intros s1 I1 Hs1 Hl1 L1.
    apply IH; [done| |lia|lia| |].
    + intros Eh. rewrite (proj1 (shape_vm _ _ Hs1)). by apply Hm.
    + intros j Hj1 Hj2. apply (has_cpu_shape s); auto.
    + intros s2 I2 Hs2 Hl2 L2. apply H; [done|congruence| |].
      * intros r. by rewrite Hl2.
      * intros d j. by rewrite L2.
  - apply IH; [done|done|lia|lia|done|done].
Qed.


(** ** Routing *)

(** An interrupt this CPU is a target of is one of its own or a shared one. *)
Lemma target_ref held s c r x :
  valid_ref s r -> int_ok held s r x -> vgic_int_vcpu_is_target c x = true -> r = ref_of c (vi_id x).
Proof.
  intros Hv Ok Ht. rewrite (ok_id _ _ _ _ Ok). destruct r as [d n|k]; simpl in Hv; simpl; unfold ref_of.
  - replace (n <? GIC_CPU_PRIV) with true by lia. f_equal.
    destruct (ok_priv _ _ _ _ Ok d n eq_refl) as [Hp _].
    unfold vgic_int_vcpu_is_target, gic_is_priv in Ht. rewrite (ok_id _ _ _ _ Ok) in Ht.
    cbn [ref_id] in Ht. replace (n <? GIC_CPU_PRIV) with true in Ht by lia. cbn [negb andb] in Ht.
    rewrite !orb_false_r in Ht. apply Z.eqb_eq in Ht. congruence.
  - replace (k + GIC_CPU_PRIV <? GIC_CPU_PRIV) with false by lia. f_equal. lia.
Qed.

Lemma has_cpu_range held s c : inv held s -> has_cpu s c -> 0 <= c < 8.
Proof.
  intros I [v Hv]. destruct (inv_vcpu _ _ I c v Hv) as [? _]. destruct (inv_vm _ _ I) as (_ & _ & ? & _). lia.
Qed.

(** The CPUs a request is sent to belong to the VM. *)
Lemma ptarget_mask_wp held s c r x (Q : Z -> avm -> Prop) :
  inv held s -> valid_ref s r -> int_ok held s r x -> vgic_int_has_other_target c x = true ->
  (forall m, (forall j, 0 <= j < 64 -> Z.testbit m j = true -> has_cpu s j) -> Q m s) ->
  gwp (vgic_int_ptarget_mask c x) Q s.
Proof.
  intros I Hv Ok Ht H. unfold vgic_int_ptarget_mask. destruct (vgic_broadcast x) eqn:Eb.
  - apply gwp_bind, gwp_gets, gwp_ret, H. intros j Hj. rewrite Z.land_spec. intros [Hc _]%andb_true_iff.
    destruct (inv_vm _ _ I) as (_ & _ & _ & Hm). apply Hm; [lia|done].
  - apply gwp_ret, H.
    assert (has_cpu s (vi_phys x)) as Hp.
    { destruct r as [d n|k].
      - destruct (ok_priv _ _ _ _ Ok d n eq_refl) as [-> _]. apply Hv.
      - destruct (ok_route _ _ _ _ Ok k eq_refl) as [Hi|[Hc|Hb]]; [|done|congruence].
        unfold vgic_int_has_other_target in Ht. rewrite Eb, Hi in Ht.
        rewrite Z.eqb_refl in Ht. cbn [negb] in Ht. by rewrite !andb_false_r in Ht. }
    pose proof (has_cpu_range _ _ _ I Hp) as Hr. intros j Hj. unfold shl64.
    replace (vi_phys x <? 64) with true by lia. rewrite wrap_testbit, shiftl_1_testbit by lia.
    intros [_ Ej]%andb_true_iff. apply Z.eqb_eq in Ej. by subst j.
Qed.

Lemma route_wp s c r x (Q : unit -> avm -> Prop) :
  inv [r] s -> has_cpu s c -> valid_ref s r -> lookup_int s r = Some x -> vi_owner x = Some c ->
  vi_in_lr x = false ->
  (forall x' s', inv [r] s' -> shape s' = shape s -> keeps [r] s s' -> lookup_int s' r = Some x' ->
    (x' = x \/ x' = set_owner None x \/ exists i, 0 <= i < NUM_LRS /\ x' = placed i x) ->
    (virt_state s' r = vi_state x \/ virt_state s' r = lr_state_of x (vi_state x)) -> Q tt s') ->
  gwp (vgic_route c r) Q s.
Proof.
  intros I Hc Hr Hx Ho Hin H. apply gwp_bind, (get_int_eq_wp _ _ x); [done|].
  pose proof (virt_out s r x Hx Hin) as Hv.
  destruct (_ || _); [apply gwp_ret, (H x); auto using vkeeps_refl|].
  apply gwp_bind.
  assert (forall x1 s1, inv [r] s1 -> shape s1 = shape s -> keeps [r] s s1 -> lookup_int s1 r = Some x1 ->
    (x1 = x \/ exists i, 0 <= i < NUM_LRS /\ x1 = placed i x) ->
    (virt_state s1 r = vi_state x \/ virt_state s1 r = lr_state_of x (vi_state x)) ->
    gwp (x ← get_int r;
         if negb (vi_in_lr x) && vgic_int_has_other_target c x then
           vmid ← ggets avm_id; v ← aget_vcpu c;
           vgic_yield_ownership c r;;
           x ← get_int r;
           mask ← vgic_int_ptarget_mask c x;
           send_mask (Z.land mask (Z.lnot (u64 (Z.shiftl 1 c))))
             (mk_msg VGIC_IPI_ID VGIC_ROUTE (VGIC_MSG_DATA vmid (av_id v) (vi_id x) 0 0))
             0 (Z.to_nat platform_cpu_num)
         else mret tt) Q s1) as Hrest.
  { intros x1 s1 I1 Hs1 K1 Hx1 Hx1' Hv1. apply gwp_bind, (get_int_eq_wp _ _ x1); [done|].
    destruct (_ && _) eqn:Eg; [|apply gwp_ret, (H x1); try done; destruct Hx1' as [|[i ?]]; eauto].
    apply andb_true_iff in Eg as [Hin1 Hot]. apply negb_true_iff in Hin1.
    assert (x1 = x) as -> by (destruct Hx1' as [|(i & _ & ->)]; done). clear Hx1'.
    assert (valid_ref s1 r) as Hr1 by by apply (valid_ref_shape s).
    assert (has_cpu s1 c) as Hc1 by by apply (has_cpu_shape s).
    apply gwp_bind, gwp_gets, gwp_bind, aget_vcpu_wp; [done|]. intros v Hv'.
    apply gwp_bind, (yield_wp [r] _ _ _ x); [done..|]. intros x2 s2 Hx2' I2 F2 L2 Hx2.
    assert (shape s2 = shape s) as Hs2 by (rewrite (proj1 F2); done).
    assert (valid_ref s2 r) as Hr2 by by apply (valid_ref_shape s).
    apply gwp_bind, (get_int_eq_wp _ _ x2); [done|].
    apply gwp_bind, (ptarget_mask_wp [r] _ _ r); [done|done|by apply (inv_int _ _ I2)| |].
    { destruct Hx2' as [->|[_ ->]]; done. }
    intros m Hm. destruct (inv_vm _ _ I2) as (Hid & _ & Hn & _).
    apply (send_mask_wp [r]); [done| |lia|lia| |].
    - intros _. cbn [msg_data]. rewrite (proj1 (shape_vm _ _ (proj1 F2))), msg_vm.
      + split; [done|]. split; done.
      + by rewrite <- (proj1 (shape_vm _ _ (proj1 F2))).
    - intros j Hj. rewrite Z.land_spec. intros [Hj' _]%andb_true_iff. by apply Hm.
    - intros s3 I3 Hs3 Hl3 L3. apply (H x2); [done|congruence| |by rewrite Hl3| |].
      + eapply (vkeeps_trans _ _ s1); [done|done|]. eapply (vkeeps_trans _ _ s2); [apply F2|by apply keeps_frame|].
        intros r' _ _. by apply view_ext.
      + destruct Hx2' as [->|[_ ->]]; auto.
      + rewrite (virt_ext s2 s3 r L3 (Hl3 r)). left. rewrite (virt_out s2 r x2 Hx2).
        * by destruct Hx2' as [->|[_ ->]].
        * by destruct Hx2' as [->|[_ ->]]. }
  apply gwp_when; intros Ht.
  - apply gwp_bind, (add_lr_wp _ _ _ x); [done..| |].
    { apply (target_ref [r] s); [done|by apply (inv_int _ _ I)|done]. }
    intros b x1 s1 I1 Hs1 K1 Hx1 Hf Ht1. apply gwp_ret, (Hrest x1); try done.
    + destruct b; [right; apply (Ht1 eq_refl)|left; apply (Hf eq_refl)].
    + destruct b; [right; apply (Ht1 eq_refl)|left]. rewrite (proj2 (Hf eq_refl)). done.
  - apply (Hrest x); auto using vkeeps_refl.
Qed.

End Move.
