(* ===== verification/VgicField.v ===== *)
(** * Writing the fields of an interrupt on ARMv8

    [vgic_int_set_field] for every register of the virtual interrupt controller: the
    field functions meet one interface, [FieldOps], against which the operation is
    proved: it preserves the invariant, ends with every lock released, changes the field
    of an interrupt this CPU may change, and hands the request to the owner otherwise. *)

From S2P Require Import Prelude Bit Bitmap CpuMsg Gic Arm Vgic VgicInv VgicLr VgicMove.

(** The platform has one cluster that holds all CPUs. *)
Class OneCluster `{GicEnv} : Prop :=
  one_cluster : platform_clusters = [] \/ exists n, platform_clusters = [n] /\ platform_cpu_num <= n.

Section Field.
Context `{E : GicEnv} {L : GicLaws} {C : OneCluster}.

Lemma cpu_id_aff c :
  0 <= c < platform_cpu_num -> platform_cpu_num <= 8 ->
  exists m, cpu_id_to_mpidr c = Ok m /\ Z.land m MPIDR_AFF_MSK = c.
Proof.
  intros Hc Hn. unfold cpu_id_to_mpidr, platform_arch_cpuid_to_mpdir.
  replace (platform_cpu_num <? c) with false by lia.
  assert (forall m, 0 <= m < 8 -> Z.land (Z.lor m MPIDR_RES1) MPIDR_AFF_MSK = m /\
    Z.land (Z.lor (Z.lor m MPIDR_RES1) MPIDR_U_BIT) MPIDR_AFF_MSK = m) as Hm.
  { intros m Hm. assert (m ∈ seqZ 0 8) as Hin by (apply elem_of_seqZ; lia). clear -Hin.
    revert m Hin. apply Forall_forall. apply (bool_decide_unpack _). by vm_compute. }
  destruct (Hm c) as [H1 H2]; [lia|].
  destruct one_cluster as [->|(n & -> & Hcn)]; cbn [mbind res_bind].
  - destruct (platform_cpu_num =? 1); eauto.
  - simpl cluster_loop. replace (c <? 0 + n) with true by lia.
    rewrite Z.sub_0_r, wrap_small by lia.
    replace (Z.lor (Z.shiftl 0 8) (Z.land c 255)) with c.
    2: { rewrite Z.shiftl_0_l, Z.lor_0_l. change 255 with (Z.ones 8).
         rewrite Z.land_ones, Z.mod_small by lia. done. }
    cbn [mbind res_bind]. destruct (platform_cpu_num =? 1); eauto.
Qed.

(** ** The interface of the field functions *)

(** [f s c data x] is the interrupt after the update. *)
Class FieldOps (h : vgic_reg_handler_info) (f : avm -> Z -> Z -> vgic_int -> vgic_int) : Prop := {
  field_update held s c r x data (Q : bool -> avm -> Prop) :
    inv held s -> has_cpu s c -> valid_ref s r -> lookup_int s r = Some x -> vi_in_lr x = false ->
    (forall b s', inv held s' -> frame [r] s s' -> lrs_same s s' ->
      lookup_int s' r = Some (f s c data x) -> Q b s') ->
    gwp (rh_update_field h c r data) Q s;
  field_keeps s c data x : vi_in_lr (f s c data x) = vi_in_lr x /\ vi_owner (f s c data x) = vi_owner x;
  field_hw held s c r (Q : unit -> avm -> Prop) :
    inv held s -> valid_ref s r -> (forall io, Q tt (set_io io s)) -> gwp (rh_update_hw h c r) Q s;
  field_regid : 0 <= rh_regid h < 9
}.

Definition upd_enable (b : bool) (s : avm) (c data : Z) (x : vgic_int) : vgic_int :=
  if data =? 0 then x else set_enabled b x.
Definition upd_bit (bit : Z) (b : bool) (s : avm) (c data : Z) (x : vgic_int) : vgic_int :=
  if data =? 0 then x
  else set_state (if b then Z.lor (vi_state x) bit else Z.ldiff (vi_state x) bit) x.
Definition upd_cfg (s : avm) (c data : Z) (x : vgic_int) : vgic_int := set_vcfg (u8 data) x.
Definition upd_prio (s : avm) (c data : Z) (x : vgic_int) : vgic_int := set_vprio (u8 data) x.

(** The affinity of the virtual CPU the guest names, or no route at all. *)
Definition route_target (s : avm) (route : Z) : Z :=
  match find_avcpu (fun v => Z.land (av_vmpidr v) MPIDR_AFF_MSK =? Z.land (Z.land route MPIDR_AFF_MSK) MPIDR_AFF_MSK)
          (avm_vcpus s) (avm_vcpu_list s) with
  | Some t => t
  | None => GICD_IROUTER_INV
  end.
Definition upd_route (s : avm) (c data : Z) (x : vgic_int) : vgic_int :=
  if gic_is_priv (vi_id x) then x
  else set_vroute (Z.land data GICD_IROUTER_RES0_MSK)
         (if negb (Z.land data GICD_IROUTER_IRM_BIT =? 0)
          then match cpu_id_to_mpidr c with Ok m => m | Fault _ => 0 end
          else route_target s data) x.

(** ** The field functions meet it *)
Lemma update_wp held s r x y b (Q : bool -> avm -> Prop) :
  inv held s -> valid_ref s r -> lookup_int s r = Some x -> vi_in_lr x = false -> int_ok held s r y ->
  (forall b s', inv held s' -> frame [r] s s' -> lrs_same s s' -> lookup_int s' r = Some y -> Q b s') ->
  gwp (put_int r y;; mret b) Q s.
Proof.
  intros I Hr Hx Hin Hy H. apply gwp_bind, put_int_wp, gwp_ret, H.
  - by apply (inv_insert_out held _ _ x).
  - apply frame_insert. by apply (valid_idx s).
  - intros d i. by rewrite lr_at_insert_int.
  - by apply (lookup_insert_int_eq _ _ _ x).
Qed.

Lemma noop_wp held s r x (Q : bool -> avm -> Prop) b :
  inv held s -> lookup_int s r = Some x ->
  (forall b s', inv held s' -> frame [r] s s' -> lrs_same s s' -> lookup_int s' r = Some x -> Q b s') ->
  gwp (mret b) Q s.
Proof. intros I Hx H. apply gwp_ret, H; done. Qed.

Lemma set_enabled_id x : set_enabled (vi_enabled x) x = x.
Proof. by destruct x. Qed.

Lemma update_enable_wp held s r x b (Q : bool -> avm -> Prop) :
  inv held s -> valid_ref s r -> lookup_int s r = Some x -> vi_in_lr x = false ->
  (forall b' s', inv held s' -> frame [r] s s' -> lrs_same s s' ->
    lookup_int s' r = Some (set_enabled b x) -> Q b' s') ->
  gwp (vgic_int_update_enable r b) Q s.
Proof.
  intros I Hr Hx Hin H. apply gwp_bind, (get_int_eq_wp _ _ x); [done|].
  pose proof (inv_int _ _ I r x Hr Hx) as Ok.
  destruct (Bool.eqb b (vi_enabled x)) eqn:Eb.
  - apply eqb_prop in Eb as ->. rewrite set_enabled_id in H. by apply (noop_wp held s r x).
  - apply (update_wp held _ _ x (set_enabled b x)); try done. by apply (int_ok_rest held s r x); try apply Ok.
Qed.

Lemma state_bits st bit (b : bool) :
  0 <= st < 4 -> bit = PEND \/ bit = ACT ->
  (if b then Z.lor st bit else Z.land st (u8 (Z.lnot bit))) = (if b then Z.lor st bit else Z.ldiff st bit) /\
  0 <= (if b then Z.lor st bit else Z.ldiff st bit) < 4 /\
  (xorb b (negb (Z.land st bit =? 0)) = false -> (if b then Z.lor st bit else Z.ldiff st bit) = st).
Proof.
  intros Hs Hb. assert (st = 0 \/ st = 1 \/ st = 2 \/ st = 3) as [->|[->|[->| ->]]] by lia;
    destruct Hb as [->| ->], b; by vm_compute.
Qed.

Lemma update_state_wp held s r x bit (b : bool) (Q : bool -> avm -> Prop) :
  inv held s -> valid_ref s r -> lookup_int s r = Some x -> vi_in_lr x = false -> bit = PEND \/ bit = ACT ->
  (forall b' s', inv held s' -> frame [r] s s' -> lrs_same s s' ->
    lookup_int s' r = Some (set_state (if b then Z.lor (vi_state x) bit else Z.ldiff (vi_state x) bit) x) ->
    Q b' s') ->
  gwp (update_state_bit r bit b) Q s.
Proof.
  intros I Hr Hx Hin Hb H. apply gwp_bind, (get_int_eq_wp _ _ x); [done|].
  pose proof (inv_int _ _ I r x Hr Hx) as Ok.
  destruct (state_bits (vi_state x) bit b (ok_state _ _ _ _ Ok) Hb) as (E1 & E2 & E3).
  destruct (xorb _ _) eqn:Eb.
  - rewrite E1. eapply (update_wp held _ _ x); try done.
    apply (int_ok_rest held s r x); try done. apply Ok.
  - rewrite E3, set_state_id in H by done. by apply (noop_wp held s r x).
Qed.

(** A wrapper of the form [if (!data) return false]. *)
Lemma data_wp held s r x data f (m : G bool) (Q : bool -> avm -> Prop) :
  inv held s -> lookup_int s r = Some x ->
  (forall b s', inv held s' -> frame [r] s s' -> lrs_same s s' ->
    lookup_int s' r = Some (if data =? 0 then x else f) -> Q b s') ->
  ((forall b s', inv held s' -> frame [r] s s' -> lrs_same s s' -> lookup_int s' r = Some f -> Q b s') ->
    gwp m Q s) ->
  gwp (if data =? 0 then mret false else m) Q s.
Proof. intros I Hx H Hm. destruct (data =? 0); [by apply (noop_wp held s r x)|by apply Hm]. Qed.

Lemma io_wp f (Q : unit -> avm -> Prop) s : (forall io, Q tt (set_io io s)) -> gwp (aio f) Q s.
Proof. intros H. apply H. Qed.

Lemma state_hw_wp held s c r (Q : unit -> avm -> Prop) :
  inv held s -> valid_ref s r -> (forall io, Q tt (set_io io s)) -> gwp (vgic_int_state_hw c r) Q s.
Proof.
  intros I Hr H. apply gwp_bind, (get_int_wp held); [done..|]. intros x _ _.
  destruct (gic_is_priv (vi_id x)); apply gwp_bind, io_wp; intros io; apply io_wp; intros io';
    exact (H io').
Qed.

Lemma one_io_wp held s r (g : vgic_int -> gic_io -> gic_io) (Q : unit -> avm -> Prop) :
  inv held s -> valid_ref s r -> (forall io, Q tt (set_io io s)) ->
  gwp (x ← get_int r; aio (g x)) Q s.
Proof. intros I Hr H. apply gwp_bind, (get_int_wp held); [done..|]. intros x _ _. by apply io_wp. Qed.

Lemma upd_enable_keeps b s c data x :
  vi_in_lr (upd_enable b s c data x) = vi_in_lr x /\ vi_owner (upd_enable b s c data x) = vi_owner x.
Proof. unfold upd_enable. by destruct (data =? 0). Qed.
Lemma upd_bit_keeps bit b s c data x :
  vi_in_lr (upd_bit bit b s c data x) = vi_in_lr x /\ vi_owner (upd_bit bit b s c data x) = vi_owner x.
Proof. unfold upd_bit. by destruct (data =? 0). Qed.

#[export] Instance isenabler_ops : FieldOps isenabler_info (upd_enable true).
Proof.
  split.
  - intros held s c r x data Q I Hc Hr Hx Hin H.
    apply (data_wp held s r x data (set_enabled true x)); [done..|]. intros H'. by apply (update_enable_wp held _ _ x).
  - apply upd_enable_keeps.
  - intros held s c r Q I Hr H. by apply (one_io_wp held).
  - done.
Qed.
#[export] Instance icenabler_ops : FieldOps icenabler_info (upd_enable false).
Proof.
  split.
  - intros held s c r x data Q I Hc Hr Hx Hin H.
    apply (data_wp held s r x data (set_enabled false x)); [done..|]. intros H'. by apply (update_enable_wp held _ _ x).
  - apply upd_enable_keeps.
  - intros held s c r Q I Hr H. by apply (one_io_wp held).
  - done.
Qed.

Lemma bit_ops h bit (b : bool) :
  rh_update_field h = (fun c r data => if data =? 0 then mret false else update_state_bit r bit b) ->
  rh_update_hw h = vgic_int_state_hw -> 0 <= rh_regid h < 9 -> bit = PEND \/ bit = ACT ->
  FieldOps h (upd_bit bit b).
Proof.
  intros Eu Eh Hid Hb. split; [| | |done].
  - intros held s c r x data Q I Hc Hr Hx Hin H. rewrite Eu.
    apply (data_wp held s r x data
      (set_state (if b then Z.lor (vi_state x) bit else Z.ldiff (vi_state x) bit) x)); [done..|].
    intros H'. by apply (update_state_wp held _ _ x).
  - apply upd_bit_keeps.
  - intros held s c r Q. rewrite Eh. apply state_hw_wp.
Qed.

#[export] Instance ispendr_ops : FieldOps ispendr_info (upd_bit PEND true).
Proof. apply bit_ops; auto; done. Qed.
#[export] Instance icpendr_ops : FieldOps icpendr_info (upd_bit PEND false).
Proof. apply bit_ops; auto; done. Qed.
#[export] Instance isactiver_ops : FieldOps isactiver_info (upd_bit ACT true).
Proof. apply bit_ops; auto; done. Qed.
#[export] Instance iactiver_ops : FieldOps iactiver_info (upd_bit ACT false).
Proof. apply bit_ops; auto; done. Qed.

#[export] Instance icfgr_ops : FieldOps icfgr_info upd_cfg.
Proof.
  split.
  - intros held s c r x data Q I Hc Hr Hx Hin H. apply gwp_bind, (get_int_eq_wp _ _ x); [done|].
    pose proof (inv_int _ _ I r x Hr Hx) as Ok.
    apply (update_wp held _ _ x); try done. by apply (int_ok_rest held s r x); try apply Ok.
  - done.
  - intros held s c r Q I Hr H. by apply (one_io_wp held).
  - done.
Qed.

#[export] Instance ipriorityr_ops : FieldOps ipriorityr_info upd_prio.
Proof.
  split.
  - intros held s c r x data Q I Hc Hr Hx Hin H. apply gwp_bind, (get_int_eq_wp _ _ x); [done|].
    pose proof (inv_int _ _ I r x Hr Hx) as Ok.
    apply (update_wp held _ _ x); try done. apply (int_ok_rest held s r x); try done; [apply Ok|].
    by apply wrap_range.
  - done.
  - intros held s c r Q I Hr H. by apply (one_io_wp held).
  - done.
Qed.

Lemma find_avcpu_some p m l t : find_avcpu p m l = Some t -> is_Some (m !! t) /\ t ∈ l.
Proof.
  induction l as [|c l IH]; simpl; [done|]. destruct (m !! c) as [v|] eqn:Ev.
  - destruct (p v); [intros [= <-]; split; [eauto|set_solver]|]. intros H. destruct (IH H). set_solver.
  - intros H. destruct (IH H). set_solver.
Qed.

#[export] Instance irouter_ops : FieldOps irouter_info upd_route.
Proof.
  split.
  - intros held s c r x data Q I Hc Hr Hx Hin H. apply gwp_bind, (get_int_eq_wp _ _ x); [done|].
    pose proof (inv_int _ _ I r x Hr Hx) as Ok. unfold upd_route in H.
    destruct (gic_is_priv (vi_id x)) eqn:Ep; [by apply (noop_wp held s r x)|].
    destruct (inv_vm _ _ I) as (_ & _ & Hn & _).
    assert (forall p, (exists k, r = SpiInt k) -> p = GICD_IROUTER_INV \/ has_cpu s p \/
      vgic_broadcast (set_vroute (Z.land data GICD_IROUTER_RES0_MSK) p x) = true ->
      int_ok held s r (set_vroute (Z.land data GICD_IROUTER_RES0_MSK) p x)) as Hok.
    { intros p [k Ek] Hp. destruct Ok. split; try done. intros c' n Er'. congruence. }
    assert (exists k, r = SpiInt k) as Hspi.
    { destruct r as [d n|k]; [|eauto]. unfold gic_is_priv in Ep. rewrite (ok_id _ _ _ _ Ok) in Ep.
      simpl in Ep, Hr. lia. }
    unfold GICD_IROUTER_IRM_BIT in *. rewrite land_bit, negb_involutive in * by lia.
    apply gwp_bind. destruct (Z.testbit data 31) eqn:Eb.
    + destruct Hc as [v Hv]. destruct (inv_vcpu _ _ I c v Hv) as [Hcr _].
      destruct (cpu_id_aff c Hcr Hn) as (m & Em & _). rewrite Em in *. apply gwp_ret.
      apply (update_wp held _ _ x); try done. apply Hok; [done|]. right; right.
      unfold vgic_broadcast, GICD_IROUTER_IRM_BIT. rewrite land_bit, negb_involutive by lia.
      simpl vi_route. rewrite Z.land_spec, Eb. done.
    + apply gwp_bind, gwp_gets. unfold route_target in H.
      destruct (find_avcpu _ _ _) as [t|] eqn:Ef.
      * apply find_avcpu_some in Ef as [[v Hv] _]. destruct (inv_vcpu _ _ I t v Hv) as [Htr _].
        destruct (cpu_id_aff t Htr Hn) as (m & Em & Ea). rewrite Em. apply gwp_bind, gwp_ret, gwp_ret.
        rewrite Ea. apply (update_wp held _ _ x); try done. apply Hok; [done|]. right; left. by exists v.
      * apply gwp_ret. apply (update_wp held _ _ x); try done. apply Hok; [done|]. by left.
  - intros s c data x. unfold upd_route. by destruct (gic_is_priv _).
  - intros held s c r Q I Hr H. by apply (one_io_wp held s r (fun x => gicd_set_route (vi_id x) (vi_phys x))).
  - done.
Qed.

(** ** Writing a field *)
Lemma inv_io held s io : inv held s -> inv held (set_io io s) /\ shape (set_io io s) = shape s /\
  (forall r, lookup_int (set_io io s) r = lookup_int s r) /\ lrs_same s (set_io io s).
Proof.
  intros [I1 I2 I3 I4 Ie I5 I6]. split; [split; try done|split; [done|split; [by intros [|]|done]]].
  intros r x Hr Hx. apply (int_ok_shape held s); [done|]. apply I3; by destruct r.
Qed.

(** The guest's view of the fields. *)
Definition same_fields (x y : vgic_int) : Prop := fields x = fields y.

(** The interrupt in the hands of the CPU [c], out of its list register, locked. *)
Definition taken (s : avm) (c : Z) (r : iref) (x : vgic_int) : vgic_int :=
  set_state (virt_state s r) (set_in_lr false (set_owner (Some c) (set_lock true x))).

(** What the operation does when this CPU may change the interrupt, up to the value of
    the distributor's other interrupts. *)
Definition field_written (f : avm -> Z -> Z -> vgic_int -> vgic_int) (s s' : avm) (c data : Z) (r : iref)
    (x x' : vgic_int) : Prop :=
  exists s2, shape s2 = shape s /\
    let y := f s2 c data (taken s c r x) in
    same_fields x' y /\ (virt_state s' r = vi_state y \/ virt_state s' r = lr_state_of y (vi_state y)).

Lemma lock_virt s r x :
  lookup_int s r = Some x -> 0 <= ref_idx r -> virt_state (insert_int r (set_lock true x) s) r = virt_state s r.
Proof.
  intros Hx Hi. apply (virt_same _ _ _ x (set_lock true x)); try done.
  - intros d i. by rewrite lr_at_insert_int.
  - by apply (lookup_insert_int_eq _ _ _ x).
Qed.

Lemma own_field_wp h f s c r x data (Q : unit -> avm -> Prop) :
  FieldOps h f ->
  inv [r] s -> has_cpu s c -> valid_ref s r -> lookup_int s r = Some x -> vi_owner x = Some c ->
  (forall x' s', inv [r] s' -> shape s' = shape s -> keeps [r] s s' -> lookup_int s' r = Some x' ->
    (exists s2, shape s2 = shape s /\
       let y := f s2 c data (set_state (virt_state s r) (set_in_lr false x)) in
       same_fields x' y /\ (virt_state s' r = vi_state y \/ virt_state s' r = lr_state_of y (vi_state y))) ->
    Q tt s') ->
  gwp (vgic_remove_lr c r;;
       changed ← rh_update_field h c r data;
       x ← get_int r;
       gwhen (changed && vgic_int_is_hw x) (rh_update_hw h c r);;
       vgic_route c r;;
       vgic_yield_ownership c r) Q s.
Proof.
  intros Hf I Hc Hr Hx Ho H.
  apply gwp_bind, (remove_lr_wp [r] _ _ _ x); [done..|]. intros b s1 I1 F1 L1 Hx1.
  set (x1 := set_state _ _) in Hx1.
  assert (x1 = set_state (virt_state s r) (set_in_lr false x)) as E1
    by (unfold x1; by rewrite (virt_owned s r x c)).
  assert (keeps [] s s1) as K1 by by apply (removed_keeps [r] s s1 c r x).
  assert (valid_ref s1 r) as Hr1 by by apply (valid_ref_shape s _ _ (proj1 F1)).
  assert (has_cpu s1 c) as Hc1 by by apply (has_cpu_shape s _ _ (proj1 F1)).
  apply gwp_bind, (field_update (f := f) [r] _ _ _ x1); [done..|]. intros changed s2 I2 F2 L2 Hx2.
  set (y := f s1 c data x1) in Hx2. destruct (field_keeps (h := h) (f := f) s1 c data x1) as [Ein Eo].
  fold y in Ein, Eo. change (vi_in_lr y = false) in Ein. change (vi_owner y = vi_owner x) in Eo. rewrite Ho in Eo.
  assert (valid_ref s2 r) as Hr2 by by apply (valid_ref_shape s1 _ _ (proj1 F2)).
  assert (has_cpu s2 c) as Hc2 by by apply (has_cpu_shape s1 _ _ (proj1 F2)).
  assert (shape s2 = shape s) as Hs2 by (rewrite (proj1 F2); apply F1).
  assert (keeps [r] s s2) as K2.
  { eapply (vkeeps_trans _ _ s1); [apply F1|eapply keeps_mono; [exact K1|set_solver]|by apply keeps_frame]. }
  apply gwp_bind, (get_int_eq_wp _ _ y); [done|]. apply gwp_bind.
  assert (forall s3, inv [r] s3 -> shape s3 = shape s -> keeps [r] s s3 -> lookup_int s3 r = Some y ->
    gwp (vgic_route c r;; vgic_yield_ownership c r) Q s3) as Hrest.
  { intros s3 I3 Hs3 K3 Hx3. assert (valid_ref s3 r) as Hr3 by by apply (valid_ref_shape s).
    assert (has_cpu s3 c) as Hc3 by by apply (has_cpu_shape s).
    apply gwp_bind, (route_wp _ _ _ y); [done..|]. intros x4 s4 I4 Hs4 K4 Hx4 Hx4' Hv4.
    assert (shape s4 = shape s) as Hs4' by congruence.
    assert (valid_ref s4 r) as Hr4 by by apply (valid_ref_shape s).
    apply (yield_wp [r] _ _ _ x4); [done|by apply (has_cpu_shape s)|done|done|].
    intros x5 s5 Hx5' I5 F5 L5 Hx5.
    assert (virt_state s5 r = virt_state s4 r) as Ev.
    { destruct Hx5' as [->|[Hin ->]]; [by apply (virt_same _ _ _ x4 x4)|].
      rewrite (virt_out s5 r _ Hx5), (virt_out s4 r _ Hx4); done. }
    apply (H x5); [done|rewrite (proj1 F5); done| |done|].
    - eapply (vkeeps_trans _ _ s4); [done| |by apply keeps_frame].
      by eapply (vkeeps_trans _ _ s3).
    - exists s1. split; [apply F1|]. rewrite <- E1. fold y. rewrite Ev. split; [|done].
      assert (same_fields x4 y) as Hsf by (destruct Hx4' as [->|[->|(i & _ & ->)]]; done).
      by destruct Hx5' as [->|[_ ->]]. }
  apply gwp_when; intros _.
  - apply (field_hw (f := f) [r]); [done|done|]. intros io. destruct (inv_io [r] s2 io I2) as (I3 & Hs3 & Hl3 & L3).
    apply Hrest; [done|congruence| |by rewrite Hl3].
    eapply (vkeeps_trans _ _ s2); [done|done|]. intros r' _ _. by apply view_ext.
  - by apply Hrest.
Qed.

Lemma set_lock_id x : vi_lock x = false -> set_lock false (set_lock true x) = x.
Proof. destruct x; simpl. by intros ->. Qed.

Lemma gwp_unlock held s r x :
  inv (r :: held) s -> valid_ref s r -> r ∉ held -> lookup_int s r = Some x ->
  let s' := insert_int r (set_lock false x) s in
  inv held s' /\ frame [r] s s' /\ lrs_same s s' /\ lookup_int s' r = Some (set_lock false x).
Proof.
  intros I Hr Hh Hx. pose (Q := fun (_ : unit) s' => s' = insert_int r (set_lock false x) s ->
    inv held s' /\ frame [r] s s' /\ lrs_same s s' /\ lookup_int s' r = Some (set_lock false x)).
  assert (gwp (int_unlock r) Q s) as H by by apply (int_unlock_wp held _ _ x).
  unfold gwp, int_unlock, upd_int, mbind, G_bind, get_int in H. rewrite Hx in H. by apply H.
Qed.

Lemma set_field_wp h f s c r x data (Q : unit -> avm -> Prop) :
  FieldOps h f ->
  inv [] s -> has_cpu s c -> valid_ref s r -> lookup_int s r = Some x ->
  (forall x' s', inv [] s' -> shape s' = shape s -> keeps [r] s s' -> lookup_int s' r = Some x' ->
    (vi_owner x = None \/ vi_owner x = Some c -> field_written f s s' c data r x x') ->
    (forall o, vi_owner x = Some o -> o <> c -> x' = x /\ virt_state s' r = virt_state s r /\
       events_of s' o = events_of s o ++ [mk_msg VGIC_IPI_ID VGIC_SET_REG
         (VGIC_MSG_DATA (avm_id s) 0 (vi_id x) (rh_regid h) data)]) -> Q tt s') ->
  gwp (vgic_int_set_field h c r data) Q s.
Proof.
  intros Hf I Hc Hr Hx H. pose proof (inv_int _ _ I r x Hr Hx) as Ok.
  pose proof (ok_lock _ _ _ _ Ok) as Hlk. rewrite bool_decide_eq_false_2 in Hlk by set_solver.
  apply gwp_bind, (int_lock_wp []); [done|done|set_solver|].
  intros x0 s1 Hx0 Es1 I1 F1 L1 Hx1. assert (x0 = x) as -> by congruence. set (x1 := set_lock true x) in *.
  assert (valid_ref s1 r) as Hr1 by by apply (valid_ref_shape s _ _ (proj1 F1)).
  assert (has_cpu s1 c) as Hc1 by by apply (has_cpu_shape s _ _ (proj1 F1)).
  assert (virt_state s1 r = virt_state s r) as Ev1 by (subst s1; apply lock_virt; [done|by apply (valid_idx s)]).
  apply gwp_bind, (get_ownership_wp [r] _ _ _ x1); [done..| |].
  - intros s2 Hown I2 F2 L2 Hx2. set (x2 := set_owner (Some c) x1) in *.
    assert (shape s2 = shape s) as Hs2 by (rewrite (proj1 F2); apply F1).
    assert (valid_ref s2 r) as Hr2 by by apply (valid_ref_shape s).
    assert (virt_state s2 r = virt_state s r) as Ev2.
    { rewrite <- Ev1. change (vi_owner x1) with (vi_owner x) in Hown. destruct Hown as [Hn|Hn].
      - assert (vi_in_lr x = false) as Hin.
        { destruct (vi_in_lr x) eqn:Ein; [|done]. destruct (ok_in_lr _ _ _ _ Ok Ein) as [[? ?] _]. congruence. }
        rewrite (virt_out s2 r _ Hx2), (virt_out s1 r _ Hx1); done.
      - by apply (virt_same _ _ _ x1 x2). }
    apply gwp_bind, (own_field_wp h f _ _ _ x2); [done|done|by apply (has_cpu_shape s)|done|done|done|].
    intros x3 s3 I3 Hs3 K3 Hx3 (s4 & Hs4 & Hy).
    assert (shape s3 = shape s) as Hs3' by congruence.
    apply (int_unlock_wp [] _ _ x3); [done|by apply (valid_ref_shape s)|set_solver|done|].
    intros s5 I5 F5 L5 Hx5. apply (H (set_lock false x3)); [done|rewrite (proj1 F5); done| |done| |].
    + eapply (vkeeps_trans _ _ s3); [done| |by apply keeps_frame].
      eapply (vkeeps_trans _ _ s2); [done| |done].
      eapply (vkeeps_trans _ _ s1); [apply F1|by apply keeps_frame|by apply keeps_frame].
    + intros _. exists s4. split; [congruence|]. unfold taken. rewrite <- Ev2.
      assert (virt_state s5 r = virt_state s3 r) as -> by by apply (virt_same _ _ _ x3 (set_lock false x3)).
      exact Hy.
    + intros o Ho Hne. change (vi_owner x1) with (vi_owner x) in Hown. destruct Hown; congruence.
  - intros o Ho Hne. apply gwp_bind, gwp_bind, (get_int_eq_wp _ _ x1); [done|].
    apply gwp_bind, gwp_gets. rewrite Ho. change (vi_owner x = Some o) in Ho.
    assert (has_cpu s1 o) as Hco.
    { apply (has_cpu_shape s _ _ (proj1 F1)). by apply (ok_owner _ _ _ _ Ok). }
    destruct (inv_vm _ _ I1) as (Hid & _).
    set (m := mk_msg VGIC_IPI_ID VGIC_SET_REG (VGIC_MSG_DATA (avm_id s1) 0 (vi_id x1) (rh_regid h) data)).
    set (ev := <[o := events_of s1 o ++ [m]]> (avm_events s1)).
    assert (vm_msg s1 m) as Hm.
    { intros _. cbn [msg_data m]. split; [by apply msg_vm|]. split; [done|]. intros _. cbn [msg_data m].
      rewrite msg_vgicrid, msg_reg. split; [done|]. pose proof (field_regid (h := h)) as Hid'.
      change 0xff with (Z.ones 8). rewrite Z.land_ones, Z.mod_small by lia. lia. }
    assert (inv [r] (set_events ev s1) /\ shape (set_events ev s1) = shape s1) as [I2 Hs2].
    { destruct (gwp_ok _ _ _ (cpu_send_msg_wp [r] s1 o m (fun _ s' => s' = set_events ev s1 -> inv [r] s' /\
        shape s' = shape s1) I1 Hco Hm ltac:(done))) as (a & s' & Es & Hs').
      injection Es as _ <-. by apply Hs'. }
    assert (forall r', lookup_int (set_events ev s1) r' = lookup_int s1 r') as Hl2 by by intros [|].
    apply (upd_int_wp _ _ _ x1); [by rewrite Hl2|]. set (s3 := insert_int r _ _).
    assert (inv [] s3 /\ frame [r] (set_events ev s1) s3 /\ lrs_same (set_events ev s1) s3 /\
      lookup_int s3 r = Some (set_lock false x1)) as (I3 & F3 & L3 & Hx3).
    { apply (gwp_unlock [] (set_events ev s1) r x1); [done|by apply (valid_ref_shape s1)|set_solver|by rewrite Hl2]. }
    unfold x1 in Hx3. rewrite set_lock_id in Hx3 by done.
    assert (lrs_same s s3) as L03 by (intros d i; rewrite L3; apply L1).
    apply (H x); [done|rewrite (proj1 F3), Hs2; apply F1| |done| |].
    + eapply (vkeeps_trans _ _ s1); [apply F1|by apply keeps_frame|].
      eapply (vkeeps_trans _ _ (set_events ev s1)); [done| |by apply keeps_frame].
      intros r' _ _. by apply view_ext.
    + intros [|]; congruence.
    + intros o' Ho' _. assert (o' = o) as -> by congruence. split; [done|].
      split; [by apply (virt_same _ _ _ x x)|]. unfold s3. rewrite events_insert_int.
      unfold events_of at 1. simpl. unfold ev. rewrite lookup_insert_eq. simpl.
      subst s1. rewrite events_insert_int. unfold m.
      by rewrite (proj1 (shape_vm _ _ (shape_insert_int s r x1))).
Qed.

End Field.
