(* ===== verification/VgicEmul.v ===== *)
(** * The virtual interrupt controller of ARMv8: emulation

    The rest of [arch/armv8/vgic.c] and [vgicv3.c]: the registers of the distributor and
    of the redistributors as the guest accesses them, the injection of interrupts, the
    messages between the CPUs of the VM, the maintenance interrupt, and the set-up. *)

From S2P Require Import Prelude Bit Bitmap CpuMsg State Calls Gic Arm Vgic.

Section Emul.
Context `{E : GicEnv}.

(** ** Access to registers *)
Definition GICD_REG_MASK (addr : Z) : Z := Z.land addr 0xffff.
Definition GICD_REG_GROUP (off : Z) : Z := Z.shiftr (Z.land off 0xff80) 7.
Definition GICR_REG_MASK (addr : Z) : Z := Z.land addr 0x1ffff.

Definition vgicd_emul_misc (c : Z) (acc : emul_access) : G unit :=
  d ← ggets avm_vgicd;
  let reg := Z.land (acc_addr acc) 0x7f in
  if reg =? GICD_CTLR then
    if acc_write acc then
      val ← Arm.vcpu_readreg c (acc_reg acc);
      let ctlr := u32 (Z.land val GICD_CTLR_ENA_BIT) in
      gmod (set_vgicd (mk_vgicd (vd_lock d) (vd_int_num d) ctlr (vd_TYPER d) (vd_IIDR d)));;
      if negb (Z.lxor (vd_CTLR d) ctlr =? 0) then
        vgic_update_enable c;;
        vmid ← ggets avm_id;
        gvm_msg_broadcast c (mk_msg VGIC_IPI_ID VGIC_UPDATE_ENABLE (VGIC_MSG_DATA vmid 0 0 0 0))
      else mret tt
    else Arm.vcpu_writereg c (acc_reg acc) (Z.lor (vd_CTLR d) GICD_CTLR_ARE_NS_BIT)
  else if reg =? GICD_TYPER then
    gwhen (negb (acc_write acc)) (Arm.vcpu_writereg c (acc_reg acc) (vd_TYPER d))
  else if reg =? GICD_IIDR then
    gwhen (negb (acc_write acc)) (Arm.vcpu_writereg c (acc_reg acc) (vd_IIDR d))
  else mret tt.

(** The index is unsigned. *)
Definition pidr_index (addr : Z) : Z := u64 (Z.land addr 0xff - 0xd0) / 4.

Definition vgicd_emul_pidr (c : Z) (acc : emul_access) : G unit :=
  gwhen (negb (acc_write acc)) (Arm.vcpu_writereg c (acc_reg acc) (gicd_ID (pidr_index (acc_addr acc)))).

Definition emul_razwi (c : Z) (acc : emul_access) : G unit :=
  gwhen (negb (acc_write acc)) (Arm.vcpu_writereg c (acc_reg acc) 0).

Definition vgicr_emul_ctrl (c : Z) (acc : emul_access) : G unit :=
  gwhen (negb (acc_write acc)) (Arm.vcpu_writereg c (acc_reg acc) 0).

Definition vgicr_emul_typer (c : Z) (acc : emul_access) (vgicr_id : Z) : G unit :=
  if acc_write acc then mret tt
  else
    t ← gvm_get_vcpu vgicr_id;
    match t with
    | Some t => v ← aget_vcpu t; Arm.vcpu_writereg c (acc_reg acc) (av_gicr_typer v)
    | None => gfail NullDeref
    end.

(** The VM as [vm.c] translates processor numbers: only [vm->cpus] is read. *)
Definition vm_view (s : avm) : vm := mk_vm (avm_id s) 0 (avm_cpu_num s) (avm_cpus s) [] (mk_vplic 0 ∅) [] ∅ [].

Definition vgicr_emul_pidr (c : Z) (acc : emul_access) (vgicr_id : Z) : G unit :=
  if acc_write acc then mret tt
  else
    v ← ggets vm_view;
    Arm.vcpu_writereg c (acc_reg acc)
      (gicr_ID (vm_translate_to_pcpuid v vgicr_id) (pidr_index (acc_addr acc))).

(** ** Registers with one field per interrupt *)

(** The loop over the fields; the result is [val]. *)
Fixpoint generic_loop (h : vgic_reg_handler_info) (c : Z) (write : bool) (first vgicr_id mask val i : Z)
    (k : nat) : G Z :=
  match k with
  | O => mret val
  | S k' =>
      r ← vgic_get_int c (u64 (first + i)) vgicr_id;
      match r with
      | None => mret val
      | Some r =>
          val ← (if write : bool then
                   vgic_int_set_field h c r (bit_extract val (i * rh_field_width h) (rh_field_width h));;
                   mret val
                 else
                   x ← get_int r;
                   mret (Z.lor val (u64 (Z.shiftl (Z.land (rh_read_field h x) mask) (i * rh_field_width h)))));
          generic_loop h c write first vgicr_id mask val (i + 1) k'
      end
  end.

Definition vgic_emul_generic (h : vgic_reg_handler_info) (c : Z) (acc : emul_access) (gicr_access : bool)
    (vgicr_id : Z) : G unit :=
  let field_width := rh_field_width h in
  let first_int := u64 (u64 (GICD_REG_MASK (acc_addr acc) - rh_regroup_base h) * 8) / field_width in
  val ← (if acc_write acc then Arm.vcpu_readreg c (acc_reg acc) else mret 0);
  let mask := u64 (shl64 1 field_width - 1) in
  let valid_access := negb (xorb gicr_access (gic_is_priv first_int)) in
  val ← (if valid_access
         then generic_loop h c (acc_write acc) first_int vgicr_id mask val 0
                (Z.to_nat (acc_width acc * 8 / field_width))
         else mret val);
  gwhen (negb (acc_write acc)) (Arm.vcpu_writereg c (acc_reg acc) val).

Definition run_access (h : vgic_reg_handler_info) (c : Z) (acc : emul_access) (gicr_access : bool)
    (vgicr_id : Z) : G unit :=
  match rh_access h with
  | vgic_emul_generic_access => vgic_emul_generic h c acc gicr_access vgicr_id
  | vgicd_emul_misc_access => vgicd_emul_misc c acc
  | vgicd_emul_pidr_access => vgicd_emul_pidr c acc
  | vgic_emul_razwi => emul_razwi c acc
  | vgicr_emul_ctrl_access => vgicr_emul_ctrl c acc
  | vgicr_emul_typer_access => vgicr_emul_typer c acc vgicr_id
  | vgicr_emul_pidr_access => vgicr_emul_pidr c acc vgicr_id
  end.

Definition vgic_check_reg_alignment (acc : emul_access) (h : vgic_reg_handler_info) : bool :=
  negb ((Z.land (rh_alignment h) (acc_width acc) =? 0)
        || negb (Z.land (acc_addr acc) (acc_width acc - 1) =? 0)).

(** ** The distributor *)
Definition in_reg (base size off : Z) : bool := (base <=? off) && (off <? base + size).

Definition vgicd_reg_info (addr : Z) : vgic_reg_handler_info :=
  let g := Z.shiftr (GICD_REG_MASK addr) 7 in
  let off := GICD_REG_MASK addr in
  if g =? GICD_REG_GROUP GICD_CTLR then vgicd_misc_info
  else if g =? GICD_REG_GROUP GICD_ISENABLER then isenabler_info
  else if g =? GICD_REG_GROUP GICD_ISPENDR then ispendr_info
  else if g =? GICD_REG_GROUP GICD_ISACTIVER then isactiver_info
  else if g =? GICD_REG_GROUP GICD_ICENABLER then icenabler_info
  else if g =? GICD_REG_GROUP GICD_ICPENDR then icpendr_info
  else if g =? GICD_REG_GROUP GICD_ICACTIVER then iactiver_info
  else if g =? GICD_REG_GROUP GICD_ICFGR then icfgr_info
  else if g =? GICD_REG_GROUP GICD_SGIR then sgir_info
  else if in_reg GICD_IPRIORITYR 0x400 off then ipriorityr_info
  else if in_reg GICD_ITARGETSR 0x400 off then itargetr_info
  else if in_reg GICD_IROUTER 0x2000 off then irouter_info
  else if in_reg GICD_ID 0x30 off then vgicd_pidr_info
  else razwi_info.

Definition vgicd_lock : G unit :=
  d ← ggets avm_vgicd;
  if vd_lock d then gfail Hang
  else gmod (set_vgicd (mk_vgicd true (vd_int_num d) (vd_CTLR d) (vd_TYPER d) (vd_IIDR d))).
Definition vgicd_unlock : G unit :=
  d ← ggets avm_vgicd; gmod (set_vgicd (mk_vgicd false (vd_int_num d) (vd_CTLR d) (vd_TYPER d) (vd_IIDR d))).

Definition vgicd_emul_handler (c : Z) (acc : emul_access) : G bool :=
  let h := vgicd_reg_info (acc_addr acc) in
  if vgic_check_reg_alignment acc h then
    vgicd_lock;; v ← aget_vcpu c; run_access h c acc false (av_id v);; vgicd_unlock;; mret true
  else mret false.

(** ** The redistributors *)
Definition vgicr_reg_info (addr vgicr_addr : Z) : vgic_reg_handler_info :=
  let reg := GICR_REG_MASK addr in
  if reg =? GICR_CTLR then vgicr_ctrl_info
  else if reg =? GICR_TYPER then vgicr_typer_info
  else if reg =? GICR_ISENABLER0 then isenabler_info
  else if reg =? GICR_ISPENDR0 then ispendr_info
  else if reg =? GICR_ISACTIVER0 then iactiver_info
  else if reg =? GICR_ICENABLER0 then icenabler_info
  else if reg =? GICR_ICPENDR0 then icpendr_info
  else if reg =? GICR_ICACTIVER0 then icfgr_info
  else if (reg =? GICR_ICFGR0) || (reg =? GICR_ICFGR1) then icfgr_info
  else
    let acc_offset := GICR_REG_MASK (u64 (addr - vgicr_addr)) in
    if in_reg GICR_IPRIORITYR 0x20 acc_offset then ipriorityr_info
    else if in_reg GICR_ID 0x30 acc_offset then vgicr_pidr_info
    else razwi_info.

Definition vgicr_get_id (vgicr_addr : Z) (acc : emul_access) : Z :=
  u32 (u64 (acc_addr acc - vgicr_addr) / GICR_SIZE).

Definition vgicr_emul_handler (c : Z) (acc : emul_access) : G bool :=
  base ← ggets avm_vgicr_addr;
  let h := vgicr_reg_info (acc_addr acc) base in
  if vgic_check_reg_alignment acc h then
    let vgicr_id := vgicr_get_id base acc in
    v ← aget_vcpu c;
    t ← (if vgicr_id =? av_id v then mret (Some c) else gvm_get_vcpu vgicr_id);
    match t with
    | None => gfail NullDeref
    | Some t =>
        w ← aget_vcpu t;
        if av_gicr_lock w then gfail Hang
        else
          aput_vcpu t (set_gicr_lock true w);;
          run_access h c acc true vgicr_id;;
          amod_vcpu t (set_gicr_lock false);; mret true
    end
  else mret false.

(** ** System registers *)
Definition vgic_icc_sgir_handler (c : Z) (acc : emul_access) : G bool :=
  (if acc_write acc then
     sgir ← Arm.vcpu_readreg c (acc_reg acc);
     v ← ggets vm_view;
     let trgtlist := if negb (Z.land sgir ICC_SGIR_IRM_BIT =? 0)
                     then Z.land (vm_cpus v) (u32 (Z.lnot (u32 (Z.shiftl 1 c))))
                     else vm_translate_to_pcpu_mask v (ICC_SGIR_TRGLSTFLT sgir) (vm_cpu_num v) in
     vgic_send_sgi_msg c trgtlist (ICC_SGIR_SGIINTID sgir)
   else mret tt);;
  mret true.

Definition vgic_icc_sre_handler (c : Z) (acc : emul_access) : G bool :=
  gwhen (negb (acc_write acc)) (Arm.vcpu_writereg c (acc_reg acc) 1);; mret true.

(** ** Injection and messages *)
Definition vgic_inject (c id source : Z) : G unit :=
  v ← aget_vcpu c;
  r ← vgic_get_int c id (av_id v);
  match r with
  | None => mret tt
  | Some r =>
      x ← get_int r;
      if vgic_int_is_hw x then
        int_lock r;;
        upd_int r (fun x => set_in_lr false (set_state PEND (set_owner (Some c) x)));;
        vgic_route c r;;
        int_unlock r
      else vgic_int_set_field ispendr_info c r 1
  end.

Definition vgic_ipi_handler (c event data : Z) : G unit :=
  vmid ← ggets avm_id;
  if negb (VGIC_MSG_VM data =? vmid) then GERROR "received vgic3 msg target to another vcpu"
  else if event =? VGIC_UPDATE_ENABLE then vgic_update_enable c
  else if event =? VGIC_ROUTE then
    v ← aget_vcpu c;
    r ← vgic_get_int c (VGIC_MSG_INTID data) (av_id v);
    match r with
    | None => mret tt
    | Some r =>
        int_lock r;;
        own ← vgic_get_ownership c r;
        gwhen own
          (x ← get_int r;
           gwhen (vgic_int_vcpu_is_target c x) (vgic_add_lr c r;; mret tt);;
           vgic_yield_ownership c r);;
        int_unlock r
    end
  else if event =? VGIC_INJECT then vgic_inject c (VGIC_MSG_INTID data) (VGIC_MSG_VAL data)
  else if event =? VGIC_SET_REG then
    r ← vgic_get_int c (VGIC_MSG_INTID data) (VGIC_MSG_VGICRID data);
    match vgic_get_reg_handler_info (VGIC_MSG_REG data), r with
    | Some h, Some r => vgic_int_set_field h c r (VGIC_MSG_VAL data)
    | _, _ => mret tt
    end
  else mret tt.

(** ** The maintenance interrupt *)
Fixpoint has_pending_lr (c i : Z) (k : nat) : G bool :=
  match k with
  | O => mret false
  | S k' =>
      lr ← gich_read_lr c i;
      if negb (Z.land (GICH_LR_STATE lr) PEND =? 0) then mret true else has_pending_lr c (i + 1) k'
  end.

(** [bitmap_find_nth((bitmap_t)&w, NUM_LRS, 1, 0, true)]. *)
Definition find_lr (w : Z) : Z := bitmap_find_nth (word_bitmap w) 0 NUM_LRS 1 0 true.

Record refill_sel := mk_sel { sel_int : option iref; sel_pend : bool; sel_prio : Z }.

(** Whether the interrupt [x] replaces the one selected so far. *)
Definition refill_better (has_pend : bool) (sel : refill_sel) (x : vgic_int) (state : Z) : bool :=
  let is_higher_prio := vi_prio x <? sel_prio sel in
  let is_act := negb (Z.land state ACT =? 0) in
  let is_pend := negb (Z.land state PEND =? 0) in
  let is_first_pend := negb has_pend && is_pend && negb (sel_pend sel) in
  let is_act_after_pend := has_pend && is_act && sel_pend sel in
  (match sel_int sel with None => true | Some _ => false end)
  || is_first_pend || is_act_after_pend || is_higher_prio.

Definition release_int (c : Z) (r : option iref) : G unit :=
  match r with None => mret tt | Some r => vgic_yield_ownership c r;; int_unlock r end.

(** Whether the interrupt [t] is selected, whether it is pending, and its priority. *)
Definition refill_check (c : Z) (has_pend : bool) (sel : refill_sel) (t : iref) : G (bool * bool * Z) :=
  own ← vgic_get_ownership c t;
  if negb own then mret (false, false, 0)
  else
    x ← get_int t;
    state ← vgic_get_state c x;
    mret (vgic_int_vcpu_is_target c x && negb (state =? INV) && negb (vi_in_lr x)
          && refill_better has_pend sel x state,
          negb (Z.land state PEND =? 0), vi_prio x).

Fixpoint refill_loop (c : Z) (has_pend : bool) (sel : refill_sel) (i : Z) (k : nat) : G refill_sel :=
  match k with
  | O => mret sel
  | S k' =>
      v ← aget_vcpu c;
      t ← vgic_get_int c i (av_id v);
      match t with
      | None => mret sel
      | Some t =>
          int_lock t;;
          check ← refill_check c has_pend sel t;
          let '(swap, is_pend, prio) := (check : bool * bool * Z) in
          release_int c (if swap then sel_int sel else Some t);;
          refill_loop c has_pend (if swap then mk_sel (Some t) is_pend prio else sel) (i + 1) k'
      end
  end.

Fixpoint refill_while (fuel : nat) (c : Z) (has_pend : bool) : G unit :=
  w ← gich_get_elrsr c;
  let lr_ind := find_lr w in
  if 0 <=? lr_ind then
    match fuel with
    | O => gfail Hang
    | S f =>
        sel ← refill_loop c has_pend (mk_sel None false GIC_LOWEST_PRIO) 0 (Z.to_nat gic_num_irqs);
        match sel_int sel with
        | Some r =>
            vgic_write_lr c r lr_ind;; int_unlock r;; refill_while f c (has_pend || sel_pend sel)
        | None =>
            h ← gich_get_hcr c; gich_set_hcr c (Z.land h (Z.lnot GICH_HCR_NPIE_BIT))
        end
    end
  else mret tt.

Definition vgic_refill_lrs (c : Z) : G unit :=
  p ← has_pending_lr c 0 (Z.to_nat NUM_LRS); refill_while (Z.to_nat NUM_LRS) c p.

(** The selected interrupt and its priority. *)
Fixpoint spilled_loop (c : Z) (sel : option (iref * Z)) (i : Z) (k : nat) : G (option iref) :=
  match k with
  | O => mret (fst <$> sel)
  | S k' =>
      v ← aget_vcpu c;
      t ← vgic_get_int c i (av_id v);
      match t with
      | None => mret (fst <$> sel)
      | Some t =>
          int_lock t;;
          own ← vgic_get_ownership c t;
          x ← get_int t;
          let swap := own && negb (Z.land (vi_state x) ACT =? 0)
                      && match sel with None => true | Some (_, prio) => prio <? vi_prio x end in
          release_int c (if swap then fst <$> sel else Some t);;
          spilled_loop c (if swap then Some (t, vi_prio x) else sel) (i + 1) k'
      end
  end.

Definition vgic_eoir_highest_spilled_active (c : Z) : G unit :=
  sel ← spilled_loop c None 0 (Z.to_nat gic_num_irqs);
  match sel with
  | None => mret tt
  | Some r =>
      upd_int r (fun x => set_state (Z.land (vi_state x) (u8 (Z.lnot ACT))) x);;
      x ← get_int r;
      (if vgic_int_is_hw x then aio (gic_set_act c (vi_id x) false)
       else if negb (Z.land (vi_state x) PEND =? 0) then vgic_add_lr c r;; mret tt
       else mret tt);;
      int_unlock r
  end.

Fixpoint trapped_eoir_while (fuel : nat) (c : Z) : G unit :=
  w ← gich_get_eisr c;
  let lr_ind := find_lr w in
  if 0 <=? lr_ind then
    match fuel with
    | O => gfail Hang
    | S f =>
        lr_val ← gich_read_lr c lr_ind;
        gich_write_lr c lr_ind 0;;
        v ← aget_vcpu c;
        r ← vgic_get_int c (GICH_LR_VID lr_val) (av_id v);
        match r with
        | None => mret tt
        | Some r =>
            int_lock r;;
            upd_int r (set_in_lr false);;
            x ← get_int r;
            (if vi_id x <? GIC_MAX_SGIS then vgic_add_lr c r;; mret tt else vgic_yield_ownership c r);;
            int_unlock r
        end;;
        trapped_eoir_while f c
    end
  else mret tt.
Definition vgic_handle_trapped_eoir (c : Z) : G unit := trapped_eoir_while (Z.to_nat NUM_LRS) c.

Fixpoint eoi_count_while (fuel : nat) (c : Z) : G unit :=
  hcr_el2 ← gich_get_hcr c;
  if negb (Z.land hcr_el2 GICH_HCR_EOICount_MASK =? 0) then
    match fuel with
    | O => gfail Hang
    | S f =>
        vgic_eoir_highest_spilled_active c;;
        gich_set_hcr c (hcr_el2 - Z.shiftl 1 GICH_HCR_EOICount_OFF);;
        eoi_count_while f c
    end
  else mret tt.

Definition gic_maintenance_handler (c : Z) : G unit :=
  misr ← gich_get_misr c;
  gwhen (negb (Z.land misr GICH_MISR_EOI =? 0)) (vgic_handle_trapped_eoir c);;
  gwhen (negb (Z.land misr GICH_MISR_NP =? 0)) (vgic_refill_lrs c);;
  gwhen (negb (Z.land misr GICH_MISR_LRPEN =? 0)) (eoi_count_while 32 c).

(** ** Set-up *)
Record gic_dscrp := mk_gic_dscrp { gd_gicd_addr : Z; gd_gicr_addr : Z; gd_interrupt_num : Z }.

Definition vgic_get_itln (d : gic_dscrp) : Z :=
  if GIC_MAX_PPIS <? gd_interrupt_num d
  then Z.land (u64 (ALIGN (gd_interrupt_num d) 32 / 32 - 1)) (BIT_MASK 0 GICD_TYPER_ITLN_LEN)
  else bit_extract gicd_TYPER GICD_TYPER_ITLN_OFF GICD_TYPER_ITLN_LEN.

Definition set_hw_flag (r : iref) : G unit := int_lock r;; upd_int r (set_hw true);; int_unlock r.

Fixpoint set_hw_loop (id : Z) (l : list Z) : G unit :=
  match l with
  | [] => mret tt
  | c :: rest =>
      v ← aget_vcpu c;
      r ← vgic_get_int c id (av_id v);
      match r with Some r => set_hw_flag r | None => mret tt end;;
      set_hw_loop id rest
  end.

Definition vgic_set_hw (id : Z) : G unit :=
  if id <? GIC_MAX_SGIS then mret tt
  else
    l ← ggets avm_vcpu_list;
    if id <? GIC_CPU_PRIV then set_hw_loop id l
    else match l with
         | [] => gfail NullDeref
         | c :: _ =>
             r ← vgic_get_int c id 0;
             match r with Some r => set_hw_flag r | None => mret tt end
         end.

Definition fresh_spi (i : Z) : vgic_int :=
  mk_int None GICD_IROUTER_INV GICD_IROUTER_INV false (i + GIC_CPU_PRIV) INV GIC_LOWEST_PRIO 0 0 false false false.

Definition fresh_priv (c i : Z) : vgic_int :=
  mk_int None GICD_IROUTER_INV c false i INV GIC_LOWEST_PRIO (if i <? GIC_MAX_SGIS then 2 else 0)
    0 false false false.

Definition SYSREG_ENC_ADDR (Op0 Op1 CRn CRm Op2 : Z) : Z :=
  Z.lor (Z.lor (Z.lor (Z.lor (Z.shiftl (Z.land Op0 3) 20) (Z.shiftl (Z.land Op2 7) 17))
    (Z.shiftl (Z.land Op1 7) 14)) (Z.shiftl (Z.land CRn 15) 10)) (Z.shiftl (Z.land CRm 15) 1).

(** One virtual CPU in [vgic_init]: its redistributor frame and its type register. *)
Fixpoint gicr_init_loop (d : gic_dscrp) (l : list Z) : G unit :=
  match l with
  | [] => mret tt
  | c :: rest =>
      v ← aget_vcpu c;
      num ← ggets avm_cpu_num;
      gmod (fun s => mk_avm (avm_id s) (avm_cpus s) (avm_cpu_num s) (avm_vcpu_list s) (avm_vgicr_addr s)
        (avm_vgicd s) (avm_spis s) (avm_vcpus s)
        (avm_emul s ++ [AEMUL_MEM (u64 (gd_gicr_addr d + GICR_SIZE * av_id v)) GICR_SIZE VGICR_EMUL])
        (avm_events s) (avm_io s));;
      amod_vcpu c (set_gicr_typer
        (Z.lor (Z.lor (u64 (Z.shiftl (av_id v) GICR_TYPER_PRCNUM_OFF))
          (u64 (Z.shiftl (Z.land (av_vmpidr v) MPIDR_AFF_MSK) GICR_TYPER_AFFVAL_OFF)))
          (Z.shiftl (Z.b2z (av_id v =? u64 (num - 1))) GICR_TYPER_LAST_OFF)));;
      gicr_init_loop d rest
  end.

(** [mem_ok] is whether the pages of the interrupt structures could be allocated. *)
Definition vgic_init (d : gic_dscrp) (mem_ok : bool) : G unit :=
  let itln := vgic_get_itln d in
  let int_num := 32 * (itln + 1) in
  if negb mem_ok then GERROR "failed to alloc vgic"
  else
    gmod (fun s => mk_avm (avm_id s) (avm_cpus s) (avm_cpu_num s) (avm_vcpu_list s) (gd_gicr_addr d)
      (mk_vgicd (vd_lock (avm_vgicd s)) int_num 0
        (u32 (Z.lor (Z.lor (Z.land (u64 (Z.shiftl itln GICD_TYPER_ITLN_OFF)) GICD_TYPER_ITLN_MSK)
           (Z.land (u64 (Z.shiftl (u64 (avm_cpu_num s - 1)) GICD_TYPER_CPUNUM_OFF)) GICD_TYPER_CPUNUM_MSK))
           (Z.land (Z.shiftl (10 - 1) GICD_TYPER_IDBITS_OFF) GICD_TYPER_IDBITS_MSK)))
        gicd_IIDR)
      (map fresh_spi (seqZ 0 int_num)) (avm_vcpus s)
      (avm_emul s ++ [AEMUL_MEM (gd_gicd_addr d) GICD_SIZE VGICD_EMUL]) (avm_events s) (avm_io s));;
    l ← ggets avm_vcpu_list;
    gicr_init_loop d l;;
    gmod (fun s => mk_avm (avm_id s) (avm_cpus s) (avm_cpu_num s) (avm_vcpu_list s) (avm_vgicr_addr s)
      (avm_vgicd s) (avm_spis s) (avm_vcpus s)
      (avm_emul s ++ [AEMUL_REG (SYSREG_ENC_ADDR 3 0 12 11 5) ICC_SGIR; AEMUL_REG (SYSREG_ENC_ADDR 3 0 12 12 5) ICC_SRE])
      (avm_events s) (avm_io s)).

Definition vgic_cpu_init (c : Z) : G unit :=
  amod_vcpu c (set_ints (map (fresh_priv c) (seqZ 0 GIC_CPU_PRIV))).

End Emul.
