(* ===== verification/VgicMaint.v ===== *)
(** * The maintenance interrupt of ARMv8

    [vgic_refill_lrs], [vgic_eoir_highest_spilled_active], [vgic_handle_trapped_eoir] and
    [gic_maintenance_handler]: the loops over all interrupts and over the list registers
    end, release what they lock, preserve the invariant, and lose no interrupt. *)

From S2P Require Import Prelude Bit Bitmap CpuMsg State Calls Gic Arm Vgic VgicInv VgicLr VgicMove VgicField VgicEmul.

(** ** Changing one index of a count *)
Lemma cnt_clear (P Q : Z -> bool) n i :
  0 <= i < n -> P i = true -> Q i = false -> (forall j, 0 <= j < n -> j <> i -> Q j = P j) ->
  cnt Q 0 (Z.to_nat n) = cnt P 0 (Z.to_nat n) - 1.
Proof.
  intros Hi HP HQ Hj. replace (Z.to_nat n) with (Z.to_nat (n - 0)) by (f_equal; lia).
  rewrite (cnt_split P 0 i n), (cnt_split Q 0 i n) by lia.
  replace (Z.to_nat (n - i)) with (S (Z.to_nat (n - i - 1))) by lia. simpl cnt. rewrite HP, HQ.
  rewrite (cnt_ext Q P 0), (cnt_ext Q P (i + 1)); [simpl; lia| |];
    intros j Hj'; apply Hj; lia.
Qed.

Section Maint.
Context `{E : GicEnv} {L : GicLaws}.

(** ** Steps the guest does not notice *)

(** Only the interrupts of [l] change, and none in the state the guest sees. *)
Record quiet (l : list iref) (s s' : avm) : Prop := {
  q_frame : frame l s s';
  q_lrs : lrs_same s s';
  q_keeps : keeps [] s s'
}.

Lemma quiet_refl l s : quiet l s s.
Proof. by split. Qed.

Lemma vquiet_trans l s1 s2 s3 : quiet l s1 s2 -> quiet l s2 s3 -> quiet l s1 s3.
Proof.
  intros [F1 L1 K1] [F2 L2 K2]. split; [by eapply vframe_trans| |].
  - intros d i. by rewrite L2.
  - eapply (vkeeps_trans _ _ s2); [apply F1|done|done].
Qed.

Lemma quiet_mono l l' s s' : quiet l s s' -> l ⊆ l' -> quiet l' s s'.
Proof. intros [F1 L1 K1] Hl. split; [by eapply frame_mono|done|done]. Qed.

Lemma quiet_shape l s s' : quiet l s s' -> shape s' = shape s.
Proof. intros [[H _] _ _]. done. Qed.

Lemma inv_perm held held' s : inv held s -> (forall r, r ∈ held' <-> r ∈ held) -> inv held' s.
Proof.
  intros [I1 I2 I3 I4 Ie I5 I6] Hh. split; try done. intros r x Hr Hx.
  destruct (I3 r x Hr Hx) as [Hl ? ? ? ? ? ? ?]. split; try done. rewrite Hl. apply bool_decide_ext. by rewrite Hh.
Qed.

Lemma lock_q held s r (Q : unit -> avm -> Prop) :
  inv held s -> valid_ref s r -> r ∉ held ->
  (forall x s', lookup_int s r = Some x -> inv (r :: held) s' -> quiet [r] s s' ->
    lookup_int s' r = Some (set_lock true x) -> Q tt s') ->
  gwp (int_lock r) Q s.
Proof.
  intros I Hr Hh H. apply (int_lock_wp held); [done..|]. intros x s' Hx Es' I' F' L' Hx'.
  apply (H x); try done. split; [done..|]. apply (keeps_one _ _ r); [done|done|by rewrite Hx', Hx|].
  by apply (virt_same _ _ _ x (set_lock true x)).
Qed.

Lemma unlock_q held s r x (Q : unit -> avm -> Prop) :
  inv (r :: held) s -> valid_ref s r -> r ∉ held -> lookup_int s r = Some x ->
  (forall s', inv held s' -> quiet [r] s s' -> lookup_int s' r = Some (set_lock false x) -> Q tt s') ->
  gwp (int_unlock r) Q s.
Proof.
  intros I Hr Hh Hx H. apply (int_unlock_wp held _ _ x); [done..|]. intros s' I' F' L' Hx'.
  apply H; try done. split; [done..|]. apply (keeps_one _ _ r); [done|done|by rewrite Hx', Hx|].
  by apply (virt_same _ _ _ x (set_lock false x)).
Qed.

Lemma owner_virt held s s' r x c :
  inv held s -> valid_ref s r -> lookup_int s r = Some x -> vi_owner x = None \/ vi_owner x = Some c ->
  lrs_same s s' -> lookup_int s' r = Some (set_owner (Some c) x) -> virt_state s' r = virt_state s r.
Proof.
  intros I Hr Hx Hown Hl Hx'. destruct Hown as [Hn|Hn].
  - assert (vi_in_lr x = false) as Hin.
    { destruct (vi_in_lr x) eqn:Ein; [|done].
      destruct (ok_in_lr _ _ _ _ (inv_int _ _ I r x Hr Hx) Ein) as [[? ?] _]. congruence. }
    rewrite (virt_out s' r _ Hx'), (virt_out s r _ Hx); done.
  - by apply (virt_same _ _ _ x (set_owner (Some c) x)).
Qed.

Lemma ownership_q held s c r x (Q : bool -> avm -> Prop) :
  inv held s -> has_cpu s c -> valid_ref s r -> lookup_int s r = Some x ->
  (forall s', inv held s' -> quiet [r] s s' -> lookup_int s' r = Some (set_owner (Some c) x) -> Q true s') ->
  Q false s -> gwp (vgic_get_ownership c r) Q s.
Proof.
  intros I Hc Hr Hx Ht Hf. apply (get_ownership_wp held _ _ _ x); [done..| |done].
  intros s' Hown I' F' L' Hx'. apply Ht; try done. split; [done..|]. apply (keeps_one _ _ r); [done|done|by rewrite Hx', Hx|].
  by apply (owner_virt held s s' r x c).
Qed.

Lemma yield_q held s c r x (Q : unit -> avm -> Prop) :
  inv held s -> has_cpu s c -> valid_ref s r -> lookup_int s r = Some x ->
  (forall x' s', (x' = x \/ vi_in_lr x = false /\ x' = set_owner None x) -> inv held s' -> quiet [r] s s' ->
    lookup_int s' r = Some x' -> Q tt s') ->
  gwp (vgic_yield_ownership c r) Q s.
Proof.
  intros I Hc Hr Hx H. apply (yield_wp held _ _ _ x); [done..|]. intros x' s' Hx1 I' F' L' Hx'.
  apply (H x'); try done. split; [done..|].
  apply (keeps_one _ _ r); [done|done|rewrite Hx', Hx; by destruct Hx1 as [->|[_ ->]]|].
  destruct Hx1 as [->|[Hin ->]]; [by apply (virt_same _ _ _ x x)|].
  rewrite (virt_out s' r _ Hx'), (virt_out s r _ Hx); done.
Qed.

(** Giving an interrupt back: yield and unlock. *)
Lemma release_q held s c r x (Q : unit -> avm -> Prop) :
  inv (r :: held) s -> has_cpu s c -> valid_ref s r -> r ∉ held -> lookup_int s r = Some x ->
  (forall s', inv held s' -> quiet [r] s s' -> Q tt s') ->
  gwp (release_int c (Some r)) Q s.
Proof.
  intros I Hc Hr Hh Hx H. apply gwp_bind, (yield_q (r :: held) _ _ _ x); [done..|].
  intros x' s1 _ I1 Q1 Hx1. apply (unlock_q held _ _ x'); [done|by apply (valid_ref_shape s _ _ (quiet_shape _ _ _ Q1))|done|done|].
  intros s2 I2 Q2 _. apply H; [done|by eapply vquiet_trans].
Qed.

(** ** The search of [vgic_refill_lrs] *)
Definition held_by (o : option iref) : list iref := match o with Some r => [r] | None => [] end.

(** The interrupt selected so far: one of the first [i], waiting for a register. *)
Definition waiting (s : avm) (c i : Z) (r : iref) : Prop :=
  exists j x, 0 <= j < i /\ r = ref_of c j /\ valid_ref s r /\ lookup_int s r = Some x /\
    vi_owner x = Some c /\ vi_in_lr x = false /\ vi_state x <> INV.

Lemma waiting_mono s s' c i i' r l :
  waiting s c i r -> quiet l s s' -> r ∉ l -> i <= i' -> waiting s' c i' r.
Proof.
  intros (j & x & Hj & Er & Hv & Hx & R) Hq Hl Hi. exists j, x. split; [lia|]. split; [done|].
  split; [by apply (valid_ref_shape s _ _ (quiet_shape _ _ _ Hq))|]. split; [|done].
  rewrite (proj2 (q_frame _ _ _ Hq)); [done|done|by apply (valid_idx s)].
Qed.

Lemma refill_check_wp held s c has_pend sel t x (Q : bool * bool * Z -> avm -> Prop) :
  inv (t :: held) s -> has_cpu s c -> valid_ref s t -> lookup_int s t = Some x ->
  (forall swap p q x' s', inv (t :: held) s' -> quiet [t] s s' -> lookup_int s' t = Some x' ->
    (swap = true -> vi_owner x' = Some c /\ vi_in_lr x' = false /\ vi_state x' <> INV) -> Q (swap, p, q) s') ->
  gwp (refill_check c has_pend sel t) Q s.
Proof.
  intros I Hc Ht Hx H. apply gwp_bind, (ownership_q (t :: held) _ _ _ x); [done..| |].
  - intros s1 I1 Q1 Hx1. set (x1 := set_owner (Some c) x) in *.
    assert (has_cpu s1 c) as Hc1 by by apply (has_cpu_shape s _ _ (quiet_shape _ _ _ Q1)).
    assert (valid_ref s1 t) as Ht1 by by apply (valid_ref_shape s _ _ (quiet_shape _ _ _ Q1)).
    apply gwp_bind, (get_int_eq_wp _ _ x1); [done|].
    apply gwp_bind, (vgic_get_state_wp (t :: held) _ _ t); [done|done|by apply (inv_int _ _ I1)|].
    apply gwp_ret, (H _ _ _ x1); [done..|].
    intros Hs. apply andb_true_iff in Hs as [Hs _]. apply andb_true_iff in Hs as [Hs Hin].
    apply andb_true_iff in Hs as [_ Hst]. apply negb_true_iff in Hin, Hst. split; [done|]. split; [done|].
    rewrite int_state_out in Hst by done. by apply Z.eqb_neq.
  - apply gwp_ret, (H _ _ _ x); [done|apply quiet_refl|done|done].
Qed.

Lemma waiting_held s c i r : waiting s c i r -> forall j, i <= j -> ref_of c j <> r.
Proof.
  intros (j & x & Hj & -> & _) j' Hj' Er. apply (f_equal ref_id) in Er. rewrite !ref_of_id in Er. lia.
Qed.

Lemma refill_loop_wp c has_pend k : forall s sel i (Q : refill_sel -> avm -> Prop),
  inv (held_by (sel_int sel)) s -> has_cpu s c -> 0 <= i ->
  (forall r, sel_int sel = Some r -> waiting s c i r) ->
  (forall sel' i' s', inv (held_by (sel_int sel')) s' -> shape s' = shape s -> lrs_same s s' -> keeps [] s s' ->
    (forall r, sel_int sel' = Some r -> waiting s' c i' r) -> Q sel' s') ->
  gwp (refill_loop c has_pend sel i k) Q s.
Proof.
  induction k as [|k IH]; intros s sel i Q I Hc Hi Hsel H; [by apply gwp_ret, (H sel i)|].
  apply gwp_bind, aget_vcpu_wp; [done|]. intros v Hv.
  apply gwp_bind, (get_int_own_wp (held_by (sel_int sel))); [done..|].
  destruct (Z.ltb_spec i (vd_int_num (avm_vgicd s))); [|by apply gwp_ret, (H sel i)].
  set (t := ref_of c i). assert (valid_ref s t) as Ht by (by apply (ref_of_valid (held_by (sel_int sel)))).
  assert (t ∉ held_by (sel_int sel)) as Hnt.
  { destruct (sel_int sel) as [r|]; simpl; [|set_solver].
    pose proof (waiting_held _ _ _ _ (Hsel r eq_refl) i (Z.le_refl i)). set_solver. }
  apply gwp_bind, (lock_q (held_by (sel_int sel))); [done..|]. intros x s1 Hx I1 Q1 Hx1.
  assert (valid_ref s1 t) as Ht1 by by apply (valid_ref_shape s _ _ (quiet_shape _ _ _ Q1)).
  assert (has_cpu s1 c) as Hc1 by by apply (has_cpu_shape s _ _ (quiet_shape _ _ _ Q1)).
  apply gwp_bind, (refill_check_wp (held_by (sel_int sel)) _ _ _ _ _ (set_lock true x)); [done..|].
  intros swap p q x2 s2 I2 Q2 Hx2 Hsw.
  assert (quiet [t] s s2) as Q02 by by eapply vquiet_trans.
  assert (valid_ref s2 t) as Ht2 by by apply (valid_ref_shape s _ _ (quiet_shape _ _ _ Q02)).
  assert (has_cpu s2 c) as Hc2 by by apply (has_cpu_shape s _ _ (quiet_shape _ _ _ Q02)).
  assert (forall s3 l, quiet l s s3 -> forall sel', inv (held_by (sel_int sel')) s3 ->
    (forall r, sel_int sel' = Some r -> waiting s3 c (i + 1) r) ->
    gwp (refill_loop c has_pend sel' (i + 1) k) Q s3) as Hnext.
  { intros s3 l Q3 sel' I3 Hw. apply IH; [done|by apply (has_cpu_shape s _ _ (quiet_shape _ _ _ Q3))|lia|done|].
    intros sel4 i4 s4 I4 Hs4 L4 K4 Hw4. apply (H sel4 i4); [done| | | |done].
    - rewrite Hs4. apply (quiet_shape _ _ _ Q3).
    - intros d j. rewrite L4. apply (q_lrs _ _ _ Q3).
    - eapply (vkeeps_trans _ _ s3); [apply (quiet_shape _ _ _ Q3)|apply (q_keeps _ _ _ Q3)|done]. }
  assert (forall r, sel_int sel = Some r -> r <> t) as Hne.
  { intros r Er. rewrite Er in Hnt. simpl in Hnt. set_solver. }
  assert (swap = true -> waiting s2 c (i + 1) t) as Hwt.
  { intros Es. destruct (Hsw Es) as (? & ? & ?). exists i, x2. split; [lia|done]. }
  apply gwp_bind. destruct swap.
  - destruct (sel_int sel) as [r|] eqn:Er.
    + assert (r <> t) as Hrt by by apply Hne.
      destruct (waiting_mono s s2 c i i r [t] (Hsel r eq_refl) Q02) as (j & y & Hj & Ej & Hvr & Hy & _);
        [set_solver|lia|].
      apply (release_q [t] _ _ _ y); [|done|done|set_solver|done|].
      { apply (inv_perm (t :: held_by (Some r))); [done|]. simpl. set_solver. }
      intros s3 I3 Q3. apply (Hnext s3 [t; r]); [|done|].
      * eapply vquiet_trans; (eapply quiet_mono; [eassumption|set_solver]).
      * simpl. intros t' [= <-]. apply (waiting_mono s2 s3 c (i + 1) _ t [r]); [auto|done|set_solver|lia].
    + apply gwp_ret, (Hnext s2 [t]); [done|done|]. simpl. intros t' [= <-]. auto.
  - apply (release_q (held_by (sel_int sel)) _ _ _ x2); [done..|].
    intros s3 I3 Q3. apply (Hnext s3 [t]); [by eapply vquiet_trans|done|].
    intros r Er. apply (waiting_mono s s3 c i _ r [t]); [auto|by eapply vquiet_trans| |lia].
    pose proof (Hne r Er). set_solver.
Qed.

(** ** Counting list registers *)
Definition lr_sat (f : Z -> bool) (s : avm) (c i : Z) : bool :=
  match lr_at s c i with Some w => f w | None => false end.
Definition lr_count (f : Z -> bool) (s : avm) (c : Z) : Z := cnt (lr_sat f s c) 0 (Z.to_nat NUM_LRS).

Lemma lr_count_same f s s' c : lrs_same s s' -> lr_count f s' c = lr_count f s c.
Proof. intros Hl. apply cnt_ext. intros j _. unfold lr_sat. by rewrite Hl. Qed.

Lemma find_lr_spec w :
  0 <= w < 2 ^ 64 -> find_lr w < 0 \/ 0 <= find_lr w < NUM_LRS /\ Z.testbit w (find_lr w) = true.
Proof.
  intros Hw. pose proof num_lrs_range as HL. unfold find_lr.
  destruct (bitmap_find_nth_spec (word_bitmap w) 0 NUM_LRS 1 0 true) as [[-> _]|(Hr & Hb & _)]; [lia|lia|lia|].
  right. set (r := bitmap_find_nth _ _ _ _ _ _) in *. split; [lia|]. unfold has_bit in Hb.
  rewrite word_bitmap_bit in Hb by lia. by destruct (Z.testbit w r).
Qed.

Lemma sat_testbit (f : Z -> bool) s c i v (g : list Z -> Z) :
  avm_vcpus s !! c = Some v ->
  (forall lrs i, 0 <= i < NUM_LRS -> Z.testbit (g lrs) i =
     match lrs !! Z.to_nat i with Some lr => f lr | None => false end) ->
  0 <= i < NUM_LRS -> Z.testbit (g (av_lrs v)) i = lr_sat f s c i.
Proof.
  intros Hv Hg Hi. rewrite Hg by done. unfold lr_sat, lr_at. rewrite Hv. done.
Qed.

(** One register changes from satisfying [f] to not. *)
Lemma lr_count_less f s s' c i w :
  0 <= i < NUM_LRS -> lr_sat f s c i = true -> f w = false ->
  (forall d j, 0 <= j -> lr_at s' d j = if decide (d = c /\ j = i) then Some w else lr_at s d j) ->
  lr_count f s' c = lr_count f s c - 1.
Proof.
  intros Hi Hs Hw Hl. apply (cnt_clear _ _ _ i); [done|done| |].
  - unfold lr_sat. rewrite Hl by lia. by rewrite decide_True.
  - intros j Hj Hne. unfold lr_sat. rewrite Hl by lia. rewrite decide_False; [done|]. intros [_ ?]. done.
Qed.

(** ** Refilling the list registers *)

(** The state and the fields of every interrupt are kept; a hardware interrupt that is
    active and pending goes on as active. *)
Definition no_loss (s s' : avm) : Prop :=
  forall r x, valid_ref s r -> lookup_int s r = Some x ->
    fields <$> lookup_int s' r = Some (fields x) /\
    (virt_state s' r = virt_state s r \/
     (vgic_int_is_hw x = true /\ virt_state s r = PENDACT /\ virt_state s' r = ACT)).

Lemma no_loss_keeps s s' : keeps [] s s' -> no_loss s s'.
Proof.
  intros K r x Hr Hx. assert (r ∉ []) as Hn by apply not_elem_of_nil.
  by rewrite (keeps_fields [] s), (keeps_virt [] s), Hx by done; auto.
Qed.

Lemma no_loss_trans s1 s2 s3 : shape s2 = shape s1 -> no_loss s1 s2 -> no_loss s2 s3 -> no_loss s1 s3.
Proof.
  intros Hs N1 N2 r x Hr Hx. assert (valid_ref s2 r) as Hr2 by by apply (valid_ref_shape s1).
  destruct (N1 r x Hr Hx) as [F1 S1]. destruct (lookup_int s2 r) as [y|] eqn:Hy; [|done].
  assert (fields y = fields x) as Ef by by apply (inj Some).
  destruct (N2 r y Hr2 Hy) as [F2 S2]. rewrite F2, Ef. split; [done|]. rewrite (hw_fields x y Ef) in S2.
  destruct S1 as [E1|(E1 & E1' & E1'')], S2 as [E2|(E2 & E2' & E2'')]; rewrite E2 || rewrite E2''.
  - by left.
  - right. by rewrite <- E1.
  - by right.
  - rewrite E1'' in E2'. done.
Qed.

Lemma lr_state_cases x st :
  lr_state_of x st = st \/ (vgic_int_is_hw x = true /\ st = PENDACT /\ lr_state_of x st = ACT).
Proof.
  unfold lr_state_of. destruct (vgic_int_is_hw x); cbn [andb]; [|by left].
  destruct (Z.eqb_spec st PENDACT); [by right|by left].
Qed.

Lemma keeps_but_no_loss r x x' s s' :
  keeps [r] s s' -> lookup_int s r = Some x -> lookup_int s' r = Some x' -> fields x' = fields x ->
  (virt_state s' r = virt_state s r \/
   (vgic_int_is_hw x = true /\ virt_state s r = PENDACT /\ virt_state s' r = ACT)) -> no_loss s s'.
Proof.
  intros K Hx Hx' Hf Hv r' y Hr' Hy. destruct (decide (r' = r)) as [->|Hne].
  - rewrite Hx in Hy. injection Hy as <-. rewrite Hx'. simpl. by rewrite Hf.
  - assert (r' ∉ [r]) as Hn by set_solver. rewrite (keeps_fields [r] s), (keeps_virt [r] s), Hy by done. auto.
Qed.

Lemma refill_while_wp c fuel : forall s has_pend (Q : unit -> avm -> Prop),
  inv [] s -> has_cpu s c -> lr_count lr_empty s c <= Z.of_nat fuel ->
  (forall s', inv [] s' -> shape s' = shape s -> no_loss s s' -> Q tt s') ->
  gwp (refill_while fuel c has_pend) Q s.
Proof.
  induction fuel as [|fuel IH]; intros s has_pend Q I Hc Hf H; simpl;
    (apply gwp_bind, gwp_bind, aget_vcpu_wp; [done|]; intros v Hv; apply gwp_ret;
     destruct (find_lr_spec (elrsr (av_lrs v)) (elrsr_range _)) as [Hn|[Hi Hb]];
     [replace (0 <=? _) with false by lia; apply gwp_ret, H; auto using no_loss_keeps, vkeeps_refl|];
     rewrite (sat_testbit lr_empty s c _ v elrsr Hv elrsr_spec Hi) in Hb;
     set (i := find_lr _) in *; replace (0 <=? i) with true by lia).
  - exfalso. pose proof (cnt_range (lr_sat lr_empty s c) 0 (Z.to_nat NUM_LRS)) as Hr. unfold lr_count in Hf.
    rewrite (cnt_zero (lr_sat lr_empty s c) 0 (Z.to_nat NUM_LRS) i) in Hb; [done|lia|lia].
  - apply gwp_bind, refill_loop_wp; [done|done|lia|done|].
    intros sel i' s1 I1 Hs1 L1 K1 Hw. destruct (sel_int sel) as [r|] eqn:Er.
    + destruct (Hw r eq_refl) as (j & x & Hj & Ej & Hr & Hx & Ho & Hin & Hst). simpl in I1.
      pose proof (inv_int _ _ I1 r x Hr Hx) as Ok.
      assert (has_cpu s1 c) as [v1 Hv1] by by apply (has_cpu_shape s).
      destruct (inv_vcpu _ _ I1 c v1 Hv1) as (_ & _ & _ & Hlc & _). pose proof num_lrs_range as HL.
      destruct (lookup_lt_is_Some_2 (av_curr_lrs v1) (Z.to_nat i)) as [n Hn]; [lia|].
      assert (forall w, lr_at s c i = Some w -> GICH_LR_STATE w = INV) as Hw0.
      { intros w Hw'. unfold lr_sat in Hb. rewrite Hw' in Hb. unfold lr_empty in Hb.
        apply andb_true_iff in Hb as [Hb _]. by apply Z.eqb_eq in Hb. }
      apply gwp_bind, (write_lr_wp _ _ _ x _ v1 n); [done|done|done|done|done|done| |done| |done|].
      { rewrite (ok_id _ _ _ _ Ok), Ej. by rewrite ref_of_id. }
      { intros w. rewrite L1. apply Hw0. }
      intros s2 I2 F2 Hx2 Hl2 K2.
      assert (valid_ref s2 r) as Hr2 by by apply (valid_ref_shape s1 _ _ (proj1 F2)).
      apply gwp_bind, (unlock_q [] _ _ (placed i x)); [done|done|set_solver|done|].
      intros s3 I3 Q3 _. assert (shape s3 = shape s) as Hs3.
      { rewrite (quiet_shape _ _ _ Q3), (proj1 F2). done. }
      apply IH; [done|by apply (has_cpu_shape s)| |].
      * rewrite (lr_count_same _ s2 s3) by apply Q3.
        rewrite (lr_count_less lr_empty s1 s2 c i (make_lr x (vi_state x))); [| |unfold lr_sat; by rewrite L1| |done].
        -- rewrite (lr_count_same _ s s1) by done. lia.
        -- done.
        -- unfold lr_empty. rewrite make_lr_state by apply Ok.
           replace (lr_state_of x (vi_state x) =? INV) with false; [done|].
           symmetry. apply Z.eqb_neq. destruct (lr_state_cases x (vi_state x)) as [->|(_ & _ & ->)]; done.
      * intros s4 I4 Hs4 N4. apply H; [done|congruence|].
        eapply (no_loss_trans _ s1); [done|by apply no_loss_keeps|].
        eapply (no_loss_trans _ s2); [apply F2| |].
        { apply (keeps_but_no_loss r x (placed i x)); [done..|]. rewrite (virt_out s1 r x) by done.
          rewrite (placed_virt [r] s1 s2 c r x i); try done; [apply lr_state_cases|].
          rewrite Hl2 by lia. by rewrite decide_True. }
        eapply (no_loss_trans _ s3); [apply (quiet_shape _ _ _ Q3)|apply no_loss_keeps, Q3|done].
    + simpl in I1. assert (has_cpu s1 c) as Hc1 by by apply (has_cpu_shape s).
      apply gwp_bind, gwp_bind, aget_vcpu_wp; [done|]. intros v1 Hv1. apply gwp_ret.
      apply (set_hcr_wp []); [done|done|]. intros s2 I2 Hs2 Hl2 L2 _. apply H; [done|congruence|].
      apply no_loss_keeps. eapply (vkeeps_trans _ _ s1); [done|done|]. intros r' _ _. by apply view_ext.
Qed.

Lemma has_pending_wp held s c k i (Q : bool -> avm -> Prop) :
  inv held s -> has_cpu s c -> 0 <= i -> i + Z.of_nat k <= NUM_LRS -> (forall b, Q b s) ->
  gwp (has_pending_lr c i k) Q s.
Proof.
  intros I Hc. revert i. induction k as [|k IH]; intros i Hi Hk H; [by apply gwp_ret|].
  apply gwp_bind, (gich_read_lr_wp held); [done|done|lia|]. intros w Hw.
  destruct (negb _); [by apply gwp_ret|apply IH; [lia|lia|done]].
Qed.

Lemma refill_lrs_wp s c (Q : unit -> avm -> Prop) :
  inv [] s -> has_cpu s c ->
  (forall s', inv [] s' -> shape s' = shape s -> no_loss s s' -> Q tt s') -> gwp (vgic_refill_lrs c) Q s.
Proof.
  intros I Hc H. pose proof num_lrs_range as HL.
  apply gwp_bind, (has_pending_wp []); [done|done|lia|lia|]. intros b.
  apply refill_while_wp; [done|done| |done].
  pose proof (cnt_range (lr_sat lr_empty s c) 0 (Z.to_nat NUM_LRS)). unfold lr_count. lia.
Qed.

(** ** The end of an interrupt that was spilled *)

(** The spilled interrupt selected so far, with its priority. *)
Definition spilled (s : avm) (c i : Z) (r : iref) (prio : Z) : Prop :=
  exists j x, 0 <= j < i /\ r = ref_of c j /\ valid_ref s r /\ lookup_int s r = Some x /\
    vi_owner x = Some c /\ Z.land (vi_state x) ACT <> 0 /\ vi_prio x = prio.

Lemma spilled_mono s s' c i i' r p l :
  spilled s c i r p -> quiet l s s' -> r ∉ l -> i <= i' -> spilled s' c i' r p.
Proof.
  intros (j & x & Hj & Er & Hv & Hx & R) Hq Hl Hi. exists j, x. split; [lia|]. split; [done|].
  split; [by apply (valid_ref_shape s _ _ (quiet_shape _ _ _ Hq))|]. split; [|done].
  rewrite (proj2 (q_frame _ _ _ Hq)); [done|done|by apply (valid_idx s)].
Qed.

Lemma spilled_loop_wp c k : forall s sel i (Q : option iref -> avm -> Prop),
  inv (held_by (fst <$> sel)) s -> has_cpu s c -> 0 <= i ->
  (forall r p, sel = Some (r, p) -> spilled s c i r p) ->
  (forall o s', inv (held_by o) s' -> shape s' = shape s -> lrs_same s s' -> keeps [] s s' ->
    (forall r, o = Some r -> exists i' p, spilled s' c i' r p) -> Q o s') ->
  gwp (spilled_loop c sel i k) Q s.
Proof.
  induction k as [|k IH]; intros s sel i Q I Hc Hi Hsel H.
  { apply gwp_ret, H; try done. destruct sel as [[r p]|]; [|done]. intros r' [= <-]. eauto. }
  apply gwp_bind, aget_vcpu_wp; [done|]. intros v Hv.
  apply gwp_bind, (get_int_own_wp (held_by (fst <$> sel))); [done..|].
  destruct (Z.ltb_spec i (vd_int_num (avm_vgicd s))).
  2: { apply gwp_ret, H; try done. destruct sel as [[r p]|]; [|done]. intros r' [= <-]. eauto. }
  set (t := ref_of c i). assert (valid_ref s t) as Ht by (by apply (ref_of_valid (held_by (fst <$> sel)))).
  assert (forall r p, sel = Some (r, p) -> r <> t) as Hne.
  { intros r p Es. destruct (Hsel r p Es) as (j & x & Hj & -> & _). intros Er.
    apply (f_equal ref_id) in Er. unfold t in Er. rewrite !ref_of_id in Er. lia. }
  assert (t ∉ held_by (fst <$> sel)) as Hnt.
  { destruct sel as [[r p]|]; simpl; [|set_solver]. pose proof (Hne r p eq_refl). set_solver. }
  apply gwp_bind, (lock_q (held_by (fst <$> sel))); [done..|]. intros x s1 Hx I1 Q1 Hx1.
  assert (valid_ref s1 t) as Ht1 by by apply (valid_ref_shape s _ _ (quiet_shape _ _ _ Q1)).
  assert (has_cpu s1 c) as Hc1 by by apply (has_cpu_shape s _ _ (quiet_shape _ _ _ Q1)).
  assert (forall own x2 s2, inv (t :: held_by (fst <$> sel)) s2 -> quiet [t] s s2 -> lookup_int s2 t = Some x2 ->
    (own = true -> vi_owner x2 = Some c) ->
    gwp (x ← get_int t;
         let swap := own && negb (Z.land (vi_state x) ACT =? 0)
                     && match sel with None => true | Some (_, prio) => prio <? vi_prio x end in
         release_int c (if swap then fst <$> sel else Some t);;
         spilled_loop c (if swap then Some (t, vi_prio x) else sel) (i + 1) k) Q s2) as Hrest.
  { intros own x2 s2 I2 Q2 Hx2 Ho. apply gwp_bind, (get_int_eq_wp _ _ x2); [done|].
    assert (valid_ref s2 t) as Ht2 by by apply (valid_ref_shape s _ _ (quiet_shape _ _ _ Q2)).
    assert (has_cpu s2 c) as Hc2 by by apply (has_cpu_shape s _ _ (quiet_shape _ _ _ Q2)).
    cbv beta zeta. set (swap := own && _ && _).
    assert (forall s3 l, quiet l s s3 -> forall sel', inv (held_by (fst <$> sel')) s3 ->
      (forall r p, sel' = Some (r, p) -> spilled s3 c (i + 1) r p) ->
      gwp (spilled_loop c sel' (i + 1) k) Q s3) as Hnext.
    { intros s3 l Q3 sel' I3 Hw. apply IH; [done|by apply (has_cpu_shape s _ _ (quiet_shape _ _ _ Q3))|lia|done|].
      intros o s4 I4 Hs4 L4 K4 Hw4. apply H; [done| | | |done].
      - rewrite Hs4. apply (quiet_shape _ _ _ Q3).
      - intros d j. rewrite L4. apply (q_lrs _ _ _ Q3).
      - eapply (vkeeps_trans _ _ s3); [apply (quiet_shape _ _ _ Q3)|apply (q_keeps _ _ _ Q3)|done]. }
    assert (swap = true -> spilled s2 c (i + 1) t (vi_prio x2)) as Hwt.
    { intros Es. unfold swap in Es. apply andb_true_iff in Es as [Es _]. apply andb_true_iff in Es as [Es Ea].
      apply negb_true_iff, Z.eqb_neq in Ea. exists i, x2. split; [lia|]. split_and!; auto. }
    apply gwp_bind. destruct swap.
    - destruct sel as [[r p]|]; simpl fmap in *.
      + assert (r <> t) as Hrt by by apply (Hne r p).
        destruct (spilled_mono s s2 c i i r p [t] (Hsel r p eq_refl) Q2) as (j & y & Hj & Ej & Hvr & Hy & _);
          [set_solver|lia|].
        apply (release_q [t] _ _ _ y); [|done|done|set_solver|done|].
        { apply (inv_perm (t :: [r])); [done|]. set_solver. }
        intros s3 I3 Q3. apply (Hnext s3 [t; r]); [|done|].
        * eapply vquiet_trans; (eapply quiet_mono; [eassumption|set_solver]).
        * intros t' p' [= <- <-]. apply (spilled_mono s2 s3 c (i + 1) _ t _ [r]); [auto|done|set_solver|lia].
      + apply gwp_ret, (Hnext s2 [t]); [done|done|]. intros t' p' [= <- <-]. auto.
    - apply (release_q (held_by (fst <$> sel)) _ _ _ x2); [done..|].
      intros s3 I3 Q3. apply (Hnext s3 [t]); [by eapply vquiet_trans|done|].
      intros r p Er. apply (spilled_mono s s3 c i _ r p [t]); [auto|by eapply vquiet_trans| |lia].
      pose proof (Hne r p Er). set_solver. }
  apply gwp_bind, (ownership_q (t :: held_by (fst <$> sel)) _ _ _ (set_lock true x)); [done..| |].
  - intros s2 I2 Q2 Hx2. apply (Hrest true (set_owner (Some c) (set_lock true x)) s2 I2); [by eapply vquiet_trans|done|done].
  - by apply (Hrest false (set_lock true x) s1 I1 Q1 Hx1).
Qed.

Lemma state_clear_act st : 0 <= st < 4 -> 0 <= Z.land st (u8 (Z.lnot ACT)) < 4.
Proof. intros H. assert (st = 0 \/ st = 1 \/ st = 2 \/ st = 3) as [->|[->|[->| ->]]] by lia; by vm_compute. Qed.

Lemma eoir_highest_wp s c (Q : unit -> avm -> Prop) :
  inv [] s -> has_cpu s c ->
  (forall s', inv [] s' -> shape s' = shape s -> Q tt s') -> gwp (vgic_eoir_highest_spilled_active c) Q s.
Proof.
  intros I Hc H. apply gwp_bind, spilled_loop_wp; [done|done|lia|done|].
  intros o s1 I1 Hs1 L1 K1 Hw. destruct o as [r|]; [|by apply gwp_ret, H].
  destruct (Hw r eq_refl) as (i' & p & j & x & Hj & Ej & Hr & Hx & Ho & _). simpl in I1.
  pose proof (inv_int _ _ I1 r x Hr Hx) as Ok.
  apply gwp_bind, (upd_int_wp _ _ _ x); [done|]. set (y := set_state _ x). set (s2 := insert_int r y s1).
  assert (inv [r] s2) as I2.
  { apply (inv_insert_keep [r] _ _ _ x); try done. apply (int_ok_rest _ _ _ x); try done; [|apply Ok].
    apply state_clear_act, Ok. }
  assert (lookup_int s2 r = Some y) as Hx2 by by apply (lookup_insert_int_eq _ _ _ x).
  assert (shape s2 = shape s) as Hs2 by (unfold s2; by rewrite shape_insert_int).
  assert (valid_ref s2 r) as Hr2 by by apply (valid_ref_shape s1); [rewrite Hs2|].
  apply gwp_bind, (get_int_eq_wp _ _ y); [done|].
  assert (forall s3 y', inv [r] s3 -> shape s3 = shape s -> lookup_int s3 r = Some y' -> gwp (int_unlock r) Q s3) as Hend.
  { intros s3 y' I3 Hs3 Hy'. apply (int_unlock_wp [] _ _ y'); [done| |set_solver|done|].
    - apply (valid_ref_shape s1); [by rewrite Hs3|done].
    - intros s4 I4 F4 _ _. apply H; [done|]. rewrite (proj1 F4). done. }
  apply gwp_bind. destruct (vgic_int_is_hw y).
  - apply io_wp. intros io. destruct (inv_io [r] s2 io I2) as (I3 & Hs3 & Hl3 & _).
    apply (Hend _ y); [done|by rewrite Hs3|by rewrite Hl3].
  - destruct (negb _).
    + apply gwp_bind, (add_lr_wp _ _ _ y); [done|by apply (has_cpu_shape s)|done|done|done| |].
      { simpl. rewrite (ok_id _ _ _ _ Ok), Ej. by rewrite ref_of_id. }
      intros b y' s3 I3 Hs3 _ Hy' _ _. apply gwp_ret, (Hend s3 y'); [done|congruence|done].
    + by apply gwp_ret, (Hend s2 y).
Qed.

(** ** Counting the ends of interrupts *)
Lemma hcr_count h :
  0 <= h < 2 ^ 32 -> negb (Z.land h GICH_HCR_EOICount_MASK =? 0) = true ->
  2 ^ 27 <= h /\ u32 (h - Z.shiftl 1 GICH_HCR_EOICount_OFF) = h - 2 ^ 27.
Proof.
  intros Hh Hb. apply negb_true_iff, Z.eqb_neq in Hb.
  assert (2 ^ 27 <= h) as Hle.
  { destruct (Z.le_gt_cases (2 ^ 27) h) as [|Hlt]; [done|]. destruct Hb. apply Z.bits_inj'. intros i Hi.
    rewrite Z.land_spec, Z.bits_0. unfold GICH_HCR_EOICount_MASK, GICH_HCR_EOICount_OFF, GICH_HCR_EOICount_LEN.
    rewrite BIT_MASK_testbit by lia. destruct (Z.leb_spec 27 i).
    - by rewrite (bits_small h 27) by lia.
    - simpl. by rewrite andb_false_r. }
  split; [done|]. unfold GICH_HCR_EOICount_OFF. change (Z.shiftl 1 27) with (2 ^ 27). apply wrap_small. lia.
Qed.

Lemma get_hcr_wp s c (Q : Z -> avm -> Prop) :
  has_cpu s c -> (forall h, hcr_at s c = Some h -> Q h s) -> gwp (gich_get_hcr c) Q s.
Proof.
  intros Hc H. apply gwp_bind, aget_vcpu_wp; [done|]. intros v Hv. apply gwp_ret, H. unfold hcr_at. by rewrite Hv.
Qed.

Lemma eoi_count_wp c fuel : forall s h (Q : unit -> avm -> Prop),
  inv [] s -> has_cpu s c -> hcr_at s c = Some h -> 0 <= h < 2 ^ 32 -> h < (Z.of_nat fuel + 1) * 2 ^ 27 ->
  (forall s', inv [] s' -> shape s' = shape s -> Q tt s') -> gwp (eoi_count_while fuel c) Q s.
Proof.
  induction fuel as [|fuel IH]; intros s h Q I Hc Hh Hr Hf H; simpl;
    (apply gwp_bind, get_hcr_wp; [done|]; intros h' Hh'; assert (h' = h) as -> by congruence;
     destruct (negb _) eqn:Eb; [|by apply gwp_ret, H]; destruct (hcr_count h Hr Eb) as [Hle Eu]).
  - lia.
  - apply gwp_bind, eoir_highest_wp; [done|done|]. intros s1 I1 Hs1.
    assert (has_cpu s1 c) as Hc1 by by apply (has_cpu_shape s).
    apply gwp_bind, (set_hcr_wp []); [done|done|]. intros s2 I2 Hs2 _ _ Hh2. rewrite Eu in Hh2.
    apply (IH s2 (h - 2 ^ 27)); [done|by apply (has_cpu_shape s1)|done|lia|lia|].
    intros s3 I3 Hs3. apply H; [done|congruence].
Qed.

(** ** The ends of interrupts that trap *)

(** Every interrupt whose end is being reported is out of all list registers but the one
    that reports it. *)
Definition eoi_settled (s : avm) (c : Z) : Prop :=
  forall i w x o, 0 <= i -> lr_at s c i = Some w -> lr_eoi w = true ->
    valid_ref s (ref_of c (GICH_LR_VID w)) -> lookup_int s (ref_of c (GICH_LR_VID w)) = Some x -> vi_owner x = Some o -> lr_of s o x = None.

Lemma lr_of_none s o x :
  vi_in_lr x = true -> vi_owner x = Some o -> lr_of s o x = None ->
  forall w, lr_at s o (vi_lr x) = Some w -> GICH_LR_VID w = vi_id x -> GICH_LR_STATE w = INV.
Proof.
  intros Hin Ho Hn w Hw Hv. unfold lr_of in Hn. rewrite Hin, Ho, bool_decide_eq_true_2 in Hn by done.
  cbn [andb] in Hn. rewrite Hw in Hn. cbn [mbind option_bind] in Hn. rewrite Hv, Z.eqb_refl in Hn. cbn [andb] in Hn.
  destruct (GICH_LR_STATE w =? INV) eqn:E1; [by apply Z.eqb_eq|done].
Qed.

Lemma gwp_assoc {A B D} (m : G A) (f : A -> G B) (g : B -> G D) Q s :
  gwp ((m ≫= f) ≫= g) Q s -> gwp (a ← m; f a ≫= g) Q s.
Proof. unfold gwp, mbind, G_bind. by destruct (m s) as [[a s']|]. Qed.

(** One turn of the loop, once the register is cleared. *)
Lemma eoi_turn_wp s c w v (Q : unit -> avm -> Prop) :
  inv [] s -> has_cpu s c -> avm_vcpus s !! c = Some v -> GIC_CPU_PRIV <= GICH_LR_VID w ->
  (forall x o, valid_ref s (ref_of c (GICH_LR_VID w)) -> lookup_int s (ref_of c (GICH_LR_VID w)) = Some x ->
    vi_owner x = Some o -> lr_of s o x = None) ->
  (forall s', inv [] s' -> quiet [ref_of c (GICH_LR_VID w)] s s' ->
    (forall x, valid_ref s (ref_of c (GICH_LR_VID w)) -> lookup_int s' (ref_of c (GICH_LR_VID w)) = Some x -> vi_in_lr x = false) -> Q tt s') ->
  gwp (r ← vgic_get_int c (GICH_LR_VID w) (av_id v);
       match r with
       | None => mret tt
       | Some r =>
           int_lock r;;
           upd_int r (set_in_lr false);;
           x ← get_int r;
           (if vi_id x <? GIC_MAX_SGIS then vgic_add_lr c r;; mret tt else vgic_yield_ownership c r);;
           int_unlock r
       end) Q s.
Proof.
  intros I Hc Hv Hw Hset H. pose proof (vid_nonneg w) as Hvid. set (n := GICH_LR_VID w) in *.
  apply gwp_bind, (get_int_own_wp []); [done..|]. destruct (Z.ltb_spec n (vd_int_num (avm_vgicd s))).
  2: { apply gwp_ret, H; [done|apply quiet_refl|]. intros x Hr. exfalso. unfold ref_of in Hr.
       replace (n <? GIC_CPU_PRIV) with false in Hr by lia. simpl in Hr. lia. }
  set (r := ref_of c n) in *. assert (valid_ref s r) as Hr by (apply (ref_of_valid []); [done|done|lia]).
  apply gwp_bind, (lock_q []); [done|done|set_solver|]. intros x s1 Hx I1 Q1 Hx1. set (x1 := set_lock true x) in *.
  assert (valid_ref s1 r) as Hr1 by by apply (valid_ref_shape s _ _ (quiet_shape _ _ _ Q1)).
  assert (has_cpu s1 c) as Hc1 by by apply (has_cpu_shape s _ _ (quiet_shape _ _ _ Q1)).
  pose proof (inv_int _ _ I1 r x1 Hr1 Hx1) as Ok.
  apply gwp_bind, (upd_int_wp _ _ _ x1); [done|]. set (x2 := set_in_lr false x1). set (s2 := insert_int r x2 s1).
  assert (inv [r] s2) as I2.
  { apply (inv_insert [r] [r] _ _ x1); try done.
    - destruct Ok as [? ? Hp ? ? ? ? ?]. split; try done. simpl. intros d m Er. by destruct (Hp d m Er).
    - intros d j w' Hj Hw' Hst Er. exfalso.
      destruct (inv_lr _ _ I1 d j w' Hj Hw' Hst) as (_ & y & Hy & Hin & Ho & El).
      rewrite Er, Hx1 in Hy. injection Hy as <-. apply Hst.
      apply (lr_of_none s d x); [done|done|by apply Hset| |].
      + change (vi_lr x) with (vi_lr x1). rewrite El. by rewrite <- (q_lrs _ _ _ Q1).
      + change (vi_id x) with (vi_id x1). rewrite (ok_id _ _ _ _ Ok), <- Er. by rewrite ref_of_id. }
  assert (lookup_int s2 r = Some x2) as Hx2 by by apply (lookup_insert_int_eq _ _ _ x1).
  assert (quiet [r] s1 s2) as Q2.
  { assert (lrs_same s1 s2) as L12 by (intros d i; unfold s2; by rewrite lr_at_insert_int).
    assert (frame [r] s1 s2) as F12 by (apply frame_insert; by apply (valid_idx s)).
    split; [done|done|]. apply (keeps_one _ _ r); [done|done|by rewrite Hx2, Hx1|].
    rewrite (virt_out s2 r _ Hx2) by done. unfold virt_state. rewrite Hx1.
    destruct (vi_owner x1) as [o|] eqn:Eo; [|done]. unfold int_state.
    assert (lr_of s1 o x1 = None) as ->; [|done].
    rewrite <- (Hset x o Hr Hx Eo). unfold lr_of. change (vi_lr x1) with (vi_lr x).
    by rewrite (q_lrs _ _ _ Q1). }
  assert (valid_ref s2 r) as Hr2 by by apply (valid_ref_shape s1 _ _ (quiet_shape _ _ _ Q2)).
  apply gwp_bind, (get_int_eq_wp _ _ x2); [done|].
  replace (vi_id x2 <? GIC_MAX_SGIS) with false.
  2: { change (vi_id x2) with (vi_id x1). rewrite (ok_id _ _ _ _ Ok). unfold r. rewrite ref_of_id.
       symmetry. apply Z.ltb_ge. unfold GIC_CPU_PRIV, GIC_MAX_SGIS, GIC_MAX_PPIS in *. lia. }
  apply gwp_bind, (yield_q [r] _ _ _ x2); [done|by apply (has_cpu_shape s1 _ _ (quiet_shape _ _ _ Q2))|done|done|].
  intros x3 s3 Hx3' I3 Q3 Hx3.
  apply (unlock_q [] _ _ x3); [done|by apply (valid_ref_shape s2 _ _ (quiet_shape _ _ _ Q3))|set_solver|done|].
  intros s4 I4 Q4 Hx4. apply H; [done| |].
  - eapply vquiet_trans; [exact Q1|]. eapply vquiet_trans; [exact Q2|]. by eapply vquiet_trans.
  - intros x' _ Hx'. rewrite Hx4 in Hx'. injection Hx' as <-. by destruct Hx3' as [->|[_ ->]].
Qed.

Lemma lr_eoi_bits w : lr_eoi w = true ->
  GICH_LR_STATE w = INV /\ Z.land w GICH_LR_HW_BIT = 0 /\ Z.land w GICH_LR_EOI_BIT <> 0.
Proof.
  unfold lr_eoi. intros H. apply andb_true_iff in H as [H H3]. apply andb_true_iff in H as [H1 H2].
  apply Z.eqb_eq in H1, H2. apply negb_true_iff, Z.eqb_neq in H3. done.
Qed.

Lemma not_in_one (r t : iref) : t <> r -> t ∉ [r].
Proof. set_solver. Qed.

Lemma trapped_eoir_wp c fuel : forall s (Q : unit -> avm -> Prop),
  inv [] s -> has_cpu s c -> eoi_settled s c -> lr_count lr_eoi s c <= Z.of_nat fuel ->
  (forall s', inv [] s' -> shape s' = shape s -> keeps [] s s' -> Q tt s') ->
  gwp (trapped_eoir_while fuel c) Q s.
Proof.
  induction fuel as [|fuel IH]; intros s Q I Hc Hset Hf H; simpl;
    (apply gwp_bind, gwp_bind, aget_vcpu_wp; [done|]; intros v Hv; apply gwp_ret;
     destruct (find_lr_spec (eisr (av_lrs v)) (eisr_range _)) as [Hn|[Hi Hb]];
     [replace (0 <=? _) with false by lia; apply gwp_ret, H; auto using vkeeps_refl|];
     rewrite (sat_testbit lr_eoi s c _ v eisr Hv eisr_spec Hi) in Hb;
     set (i := find_lr _) in *; replace (0 <=? i) with true by lia).
  - exfalso. pose proof (cnt_range (lr_sat lr_eoi s c) 0 (Z.to_nat NUM_LRS)) as Hr. unfold lr_count in Hf.
    rewrite (cnt_zero (lr_sat lr_eoi s c) 0 (Z.to_nat NUM_LRS) i) in Hb; [done|lia|lia].
  - apply gwp_bind, (gich_read_lr_wp []); [done|done|lia|]. intros w Hw.
    assert (lr_eoi w = true) as Hwe by (unfold lr_sat in Hb; by rewrite Hw in Hb).
    destruct (lr_eoi_bits w Hwe) as (Hws & Hwh & Hwb).
    apply gwp_bind, (gich_write_lr_wp []); [done|done|lia|by rewrite state_0|apply eoi_0|].
    intros s1 I1 Hs1 Hl1 Hlr1.
    assert (forall d j w', lr_at s d j = Some w' -> 0 <= j -> lr_at s1 d j = Some w' \/
      (GICH_LR_STATE w' = INV /\ lr_at s1 d j = Some 0)) as Hkeep.
    { intros d j w' Hw' Hj. rewrite Hlr1 by done. case_decide as Hd; [|by left]. destruct Hd as [-> ->].
      right. split; [congruence|done]. }
    assert (forall r o x, valid_ref s r -> lookup_int s r = Some x -> lr_of s1 o x = lr_of s o x) as Hof.
    { intros r o x Hr Hx. unfold lr_of. destruct (vi_in_lr x) eqn:Ein; [|done]. cbn [andb]. destruct (bool_decide _); [|done].
      destruct (ok_in_lr _ _ _ _ (inv_int _ _ I r x Hr Hx) Ein) as [_ Hlr].
      rewrite Hlr1 by lia. case_decide as Hd; [|done]. destruct Hd as [-> Ej]. rewrite Ej, Hw.
      cbn [mbind option_bind]. by rewrite Hws, state_0, !andb_false_r. }
    assert (keeps [] s s1) as K1.
    { intros r _ Hr. apply view_eq; [by rewrite Hl1|]. unfold virt_state. rewrite Hl1. destruct (lookup_int s r) as [x|] eqn:Ex; [|done].
      destruct (vi_owner x); [|done]. unfold int_state. by rewrite (Hof r _ x Hr Ex). }
    assert (has_cpu s1 c) as Hc1 by by apply (has_cpu_shape s).
    assert (GIC_CPU_PRIV <= GICH_LR_VID w) as Hn by (apply (inv_eoi _ _ I c i w); [lia|done..]).
    apply gwp_bind, aget_vcpu_wp; [done|]. intros v1 Hv1.
    apply gwp_assoc, gwp_bind, eoi_turn_wp; [done|done|done|done| |].
    { intros x o Hr Hx Ho. rewrite Hl1 in Hx. apply (valid_ref_shape s) in Hr; [|done].
      rewrite (Hof _ o x Hr Hx). apply (Hset i w x o); [lia|done..]. }
    intros s2 I2 Q2 Hout. set (r := ref_of c (GICH_LR_VID w)) in *.
    assert (shape s2 = shape s) as Hs2 by (rewrite (quiet_shape _ _ _ Q2); done).
    apply IH; [done|by apply (has_cpu_shape s)| | |].
    + intros i' w' x' o' Hi' Hw' He' Hr' Hx' Ho'. rewrite (q_lrs _ _ _ Q2), Hlr1 in Hw' by done.
      case_decide as Hd; [injection Hw' as <-; done|].
      apply (valid_ref_shape s) in Hr'; [|done].
      destruct (decide (ref_of c (GICH_LR_VID w') = r)) as [Er|Hne].
      * rewrite Er in Hx', Hr'. unfold lr_of. rewrite (Hout x'); [done| |done]. by apply (valid_ref_shape s).
      * rewrite (proj2 (q_frame _ _ _ Q2) _ (not_in_one _ _ Hne) (valid_idx s _ Hr')), Hl1 in Hx'.
        rewrite <- (Hset i' w' x' o'), <- (Hof _ o' x' Hr' Hx') by done.
        unfold lr_of. by rewrite (q_lrs _ _ _ Q2).
    + rewrite (lr_count_same _ s1 s2) by apply Q2.
      rewrite (lr_count_less lr_eoi s s1 c i 0); [lia|done|done|done|done].
    + intros s3 I3 Hs3 K3. apply H; [done|congruence|].
      eapply (vkeeps_trans _ _ s1); [done|done|]. eapply (vkeeps_trans _ _ s2); [apply (quiet_shape _ _ _ Q2)|apply Q2|done].
Qed.

Lemma hcr_range held s c h : inv held s -> hcr_at s c = Some h -> 0 <= h < 2 ^ 32.
Proof.
  unfold hcr_at. intros I. destruct (avm_vcpus s !! c) as [v|] eqn:Hv; [|done]. intros [= <-].
  by apply (inv_vcpu _ _ I c v Hv).
Qed.

Lemma gwhen_wp (b : bool) (m : G unit) (P : avm -> Prop) (Q : unit -> avm -> Prop) s :
  P s -> (P s -> (forall s', P s' -> Q tt s') -> gwp m Q s) -> (forall s', P s' -> Q tt s') ->
  gwp (gwhen b m) Q s.
Proof. intros HP Hm HQ. destruct b; [by apply Hm|by apply gwp_ret, HQ]. Qed.

(** The maintenance interrupt is handled whatever is pending. *)
Lemma maintenance_wp s c (Q : unit -> avm -> Prop) :
  inv [] s -> has_cpu s c -> eoi_settled s c ->
  (forall s', inv [] s' -> shape s' = shape s -> Q tt s') -> gwp (gic_maintenance_handler c) Q s.
Proof.
  intros I Hc Hs H. apply gwp_bind, gwp_bind, aget_vcpu_wp; [done|]. intros v Hv. apply gwp_ret.
  set (P s' := inv [] s' /\ shape s' = shape s). pose proof num_lrs_range as HL.
  apply gwp_bind, (gwhen_wp _ _ P); [done| |].
  { intros _ Hq. apply trapped_eoir_wp; [done|done|done| |intros s1 I1 Hs1 _; by apply Hq].
    pose proof (cnt_range (lr_sat lr_eoi s c) 0 (Z.to_nat NUM_LRS)). unfold lr_count. lia. }
  intros s1 HP1. apply gwp_bind, (gwhen_wp _ _ P); [done| |].
  { intros [I1 Hs1] Hq. apply refill_lrs_wp; [done|by apply (has_cpu_shape s)|].
    intros s2 I2 Hs2 _. apply Hq. split; [done|congruence]. }
  intros s2 HP2. apply (gwhen_wp _ _ P); [done| |by intros s3 [? ?]; apply H].
  intros [I2 Hs2] Hq. assert (has_cpu s2 c) as Hc2 by by apply (has_cpu_shape s).
  destruct Hc2 as [w Hw]. assert (hcr_at s2 c = Some (av_hcr w)) as Hh by (unfold hcr_at; by rewrite Hw).
  pose proof (hcr_range _ _ _ _ I2 Hh) as Hr.
  apply (eoi_count_wp c 32 s2 (av_hcr w)); [done|by exists w|done|done|lia|].
  intros s3 I3 Hs3. apply Hq. split; [done|congruence].
Qed.

End Maint.
