(* ===== verification/VgicSys.v ===== *)
(** * The virtual interrupt controller of ARMv8 as a whole

    Injection, the messages between CPUs, the emulated registers and the maintenance
    interrupt as steps of one system, with the virtual CPU interface of the hardware:
    every step the hypervisor takes succeeds and preserves the invariant. *)

From S2P Require Import Prelude Bit Bitmap CpuMsg State Calls Gic Arm Vgic VgicInv VgicLr VgicMove VgicField VgicEmul VgicMaint.

Section Sys.
Context `{E : GicEnv} {L : GicLaws} {C : OneCluster}.

(** What every operation here promises. *)
Definition safe {A} (m : G A) (s : avm) : Prop :=
  gwp m (fun _ s' => inv [] s' /\ shape s' = shape s) s.

Lemma safe_bind {A B} (m : G A) (k : A -> G B) s :
  safe m s -> (forall a s', inv [] s' -> shape s' = shape s -> safe (k a) s') -> safe (m ≫= k) s.
Proof.
  intros Hm Hk. apply gwp_bind. eapply gwp_mono; [exact Hm|]. intros a s' [I Hs].
  eapply gwp_mono; [by apply Hk|]. intros b s'' [I' Hs']. split; [done|congruence].
Qed.

Lemma safe_ret {A} (a : A) s : inv [] s -> safe (mret a) s.
Proof. intros I. by apply gwp_ret. Qed.

Lemma safe_when b m s : inv [] s -> (b = true -> safe m s) -> safe (gwhen b m) s.
Proof. intros I H. destruct b; [by apply H|by apply safe_ret]. Qed.

Lemma safe_gets {A B} (f : avm -> A) (k : A -> G B) s : safe (k (f s)) s -> safe (ggets f ≫= k) s.
Proof. done. Qed.

Lemma safe_vcpu {B} c (k : avcpu -> G B) s :
  has_cpu s c -> (forall v, avm_vcpus s !! c = Some v -> safe (k v) s) -> safe (aget_vcpu c ≫= k) s.
Proof. intros Hc H. by apply gwp_bind, aget_vcpu_wp. Qed.

(** ** Numbers of virtual CPUs *)
Definition known (s : avm) (id : Z) : Prop :=
  is_Some (find_avcpu (fun v => av_id v =? id) (avm_vcpus s) (avm_vcpu_list s)).

Lemma find_avcpu_ident id m m' l :
  ident <$> m' = ident <$> m ->
  find_avcpu (fun v => av_id v =? id) m' l = find_avcpu (fun v => av_id v =? id) m l.
Proof.
  intros H. induction l as [|c l IH]; simpl; [done|]. rewrite IH.
  apply (f_equal (fun m => m !! c)) in H. rewrite !lookup_fmap in H.
  destruct (m' !! c) as [v'|], (m !! c) as [v|]; try done. simpl in H.
  injection H as Hid _ _. by rewrite Hid.
Qed.

Lemma known_shape s s' id : shape s' = shape s -> known s id -> known s' id.
Proof.
  intros H. unfold known. assert (avm_vcpu_list s' = avm_vcpu_list s) as -> by (unfold shape in H; congruence).
  rewrite (find_avcpu_ident id (avm_vcpus s) (avm_vcpus s')); [done|]. unfold shape in H. congruence.
Qed.

Lemma vgic_get_int_wp s c n id (Q : option iref -> avm -> Prop) :
  inv [] s -> has_cpu s c -> known s id -> 0 <= n ->
  Q None s -> (forall r, valid_ref s r -> ref_id r = n -> Q (Some r) s) -> gwp (vgic_get_int c n id) Q s.
Proof.
  intros I Hc [t Ht] Hn HN HS. destruct (inv_num _ _ I) as [Hnum _].
  apply gwp_bind, aget_vcpu_wp; [done|]. intros v Hv. change GIC_CPU_PRIV with 32.
  destruct (Z.ltb_spec n 32).
  - apply gwp_bind. destruct (id =? av_id v).
    + apply gwp_ret, gwp_ret, HS; [|done]. by split.
    + apply gwp_gets. rewrite Ht. apply gwp_ret, HS; [|done]. apply find_avcpu_some in Ht as [Ht _]. by split.
  - apply gwp_bind, gwp_gets, gwp_ret. destruct (Z.ltb_spec n (vd_int_num (avm_vgicd s))); [|done].
    apply HS; simpl; unfold GIC_CPU_PRIV, GIC_MAX_SGIS, GIC_MAX_PPIS; lia.
Qed.

(** ** The field functions, again *)
Lemma set_field_safe h f s c r data :
  FieldOps h f -> inv [] s -> has_cpu s c -> valid_ref s r -> safe (vgic_int_set_field h c r data) s.
Proof.
  intros Hf I Hc Hr. destruct (valid_lookup _ _ _ I Hr) as [x Hx].
  apply (set_field_wp h f _ _ _ x); try done.
Qed.

(** ** Software-generated interrupts *)
Lemma cpus_range held s : inv held s -> 0 <= avm_cpus s < 2 ^ 64.
Proof.
  intros I. destruct (inv_vm _ _ I) as (_ & Hc & _ & Hb). split; [done|].
  destruct (decide (avm_cpus s = 0)) as [->|]; [lia|].
  apply Z.log2_lt_pow2; [lia|]. destruct (Z.lt_ge_cases (Z.log2 (avm_cpus s)) 8); [lia|].
  assert (has_cpu s (Z.log2 (avm_cpus s))) as H8 by (apply Hb; [apply Z.log2_nonneg|apply Z.bit_log2; lia]).
  pose proof (has_cpu_range _ _ _ I H8). lia.
Qed.

Lemma sgi_id w : 0 <= ICC_SGIR_SGIINTID w < 16.
Proof.
  unfold ICC_SGIR_SGIINTID, bit_extract.
  change (BIT_MASK 0 4) with (Z.ones 4). rewrite Z.land_ones by lia. apply Z.mod_pos_bound. lia.
Qed.

Lemma send_sgi_safe s c mask id :
  inv [] s -> has_cpu s c -> 0 <= id < 16 ->
  (forall j, 0 <= j < 64 -> Z.testbit mask j = true -> has_cpu s j) -> safe (vgic_send_sgi_msg c mask id) s.
Proof.
  intros I Hc Hid Hm. apply gwp_bind, gwp_gets, gwp_bind, aget_vcpu_wp; [done|]. intros v Hv.
  destruct (inv_vm _ _ I) as (Hvm & _ & Hn & _).
  apply (send_mask_wp []); [done| |lia|lia|done|by intros s' I' Hs' _ _].
  intros _. cbn [msg_data]. split; [by apply msg_vm|]. split; [|done]. intros _. cbn [msg_data].
  rewrite msg_intid. change 0x7fff with (Z.ones 15). rewrite Z.land_ones, Z.mod_small by lia.
  unfold GIC_MAX_SGIS. lia.
Qed.

Lemma trgt_range w : 0 <= ICC_SGIR_TRGLSTFLT w < 2 ^ 16.
Proof.
  unfold ICC_SGIR_TRGLSTFLT, bit_extract.
  change (BIT_MASK 0 16) with (Z.ones 16). rewrite Z.land_ones by lia. apply Z.mod_pos_bound. lia.
Qed.

Lemma sgir_targets s w j :
  inv [] s -> 0 <= w < 2 ^ 16 -> 0 <= j < 64 ->
  Z.testbit (vm_translate_to_pcpu_mask (vm_view s) w (vm_cpu_num (vm_view s))) j = true -> has_cpu s j.
Proof.
  intros I Hw Hj H. apply translate_mask_spec in H as [H|(i & Hi & Hb & Ht)]; [by rewrite Z.bits_0 in H| |lia|lia].
  assert (i < 16) as Hi16.
  { destruct (Z.lt_ge_cases i 16); [done|]. by rewrite (bits_small w 16) in Hb. }
  destruct (inv_vm _ _ I) as (_ & _ & _ & Hc). apply Hc; [lia|].
  destruct (vm_translate_to_pcpuid_wild (vm_view s) i) as [Hn|[_ Hn]];
    [apply (cpus_range _ _ I)|lia|lia|by rewrite Ht in Hn].
Qed.

Lemma readreg_wp s c reg (Q : Z -> avm -> Prop) :
  has_cpu s c -> (forall w, Q w s) -> gwp (Arm.vcpu_readreg c reg) Q s.
Proof. intros Hc H. apply gwp_bind, aget_vcpu_wp; [done|]. intros v Hv. apply gwp_ret, H. Qed.

Lemma writereg_safe s c reg val : inv [] s -> has_cpu s c -> safe (Arm.vcpu_writereg c reg val) s.
Proof.
  intros I [v Hv]. unfold Arm.vcpu_writereg. destruct (30 <? reg); [by apply safe_ret|].
  apply (amod_vcpu_wp _ _ _ v); [done|].
  destruct (inv_vcpu _ _ I c v Hv) as (_ & _ & _ & _ & Hc).
  by apply (inv_vcpu_mod [] s c v); [..|left|left].
Qed.

Lemma sgir_safe s c acc : inv [] s -> has_cpu s c -> safe (vgic_icc_sgir_handler c acc) s.
Proof.
  intros I Hc. apply safe_bind; [|intros; by apply safe_ret]. destruct (acc_write acc); [|by apply safe_ret].
  apply gwp_bind, readreg_wp; [done|]. intros w. apply gwp_bind, gwp_gets. cbv zeta.
  apply send_sgi_safe; [done|done|apply sgi_id|]. intros j Hj. destruct (negb _).
  - rewrite Z.land_spec. intros [Hb _]%andb_true_iff. destruct (inv_vm _ _ I) as (_ & _ & _ & Hm).
    apply Hm; [lia|done].
  - apply sgir_targets; [done|apply trgt_range|done].
Qed.

Lemma sre_safe s c acc : inv [] s -> has_cpu s c -> safe (vgic_icc_sre_handler c acc) s.
Proof.
  intros I Hc. apply safe_bind; [|intros; by apply safe_ret]. apply safe_when; [done|]. intros _.
  by apply writereg_safe.
Qed.

(** ** Injection *)

(** No list register holds the interrupt. *)
Definition at_rest (s : avm) (r : iref) : Prop :=
  forall d j w, 0 <= j -> lr_at s d j = Some w -> GICH_LR_STATE w <> INV -> ref_of d (GICH_LR_VID w) <> r.

(** A hardware interrupt is signalled again only after the guest has ended it, so no
    list register holds it then. *)
Definition injectable (s : avm) (c id : Z) : Prop :=
  forall x, lookup_int s (ref_of c id) = Some x -> vgic_int_is_hw x = true -> at_rest s (ref_of c id).

Lemma at_rest_lrs s s' r : lrs_same s s' -> at_rest s r -> at_rest s' r.
Proof. intros Hl H d j w Hj. rewrite Hl. by apply H. Qed.

Lemma inject_hw_wp s c r x (Q : unit -> avm -> Prop) :
  inv [] s -> has_cpu s c -> valid_ref s r -> lookup_int s r = Some x -> at_rest s r ->
  (forall s', inv [] s' -> shape s' = shape s -> keeps [r] s s' ->
    fields <$> lookup_int s' r = Some (fields x) -> virt_state s' r = PEND -> Q tt s') ->
  gwp (int_lock r;;
       upd_int r (fun x => set_in_lr false (set_state PEND (set_owner (Some c) x)));;
       vgic_route c r;;
       int_unlock r) Q s.
Proof.
  intros I Hc Hr Hx Hrest H. apply gwp_bind, (lock_q []); [done|done|set_solver|].
  intros x' s1 Hx' I1 Q1 Hx1. assert (x' = x) as -> by congruence. set (x1 := set_lock true x) in *.
  assert (valid_ref s1 r) as Hr1 by by apply (valid_ref_shape s _ _ (quiet_shape _ _ _ Q1)).
  assert (has_cpu s1 c) as Hc1 by by apply (has_cpu_shape s _ _ (quiet_shape _ _ _ Q1)).
  assert (at_rest s1 r) as Hrest1 by by apply (at_rest_lrs s); [apply Q1|].
  apply gwp_bind, (upd_int_wp _ _ _ x1); [done|]. set (y := set_in_lr false _). set (s2 := insert_int r y s1).
  pose proof (inv_int _ _ I1 r x1 Hr1 Hx1) as Ok.
  assert (inv [r] s2) as I2.
  { apply (inv_insert [r] [r] _ _ x1); try done.
    - destruct Ok as [? ? Hp ? ? ? ? ?]. split; try done.
      + simpl. intros d n Er. by destruct (Hp d n Er).
      + simpl. by intros o [= <-].
    - intros d j w Hj Hw Hst Er. by destruct (Hrest1 d j w Hj Hw Hst). }
  assert (lookup_int s2 r = Some y) as Hx2 by by apply (lookup_insert_int_eq _ _ _ x1).
  assert (shape s2 = shape s) as Hs2 by (unfold s2; rewrite shape_insert_int; apply (quiet_shape _ _ _ Q1)).
  assert (frame [r] s s2) as F2.
  { eapply vframe_trans; [apply (q_frame _ _ _ Q1)|]. apply frame_insert. by apply (valid_idx s). }
  assert (lrs_same s s2) as L2.
  { intros d i. unfold s2. rewrite lr_at_insert_int. apply (q_lrs _ _ _ Q1). }
  apply gwp_bind, (route_wp _ _ _ y); [done|by apply (has_cpu_shape s)|by apply (valid_ref_shape s)|done|done|done|].
  intros x3 s3 I3 Hs3 K3 Hx3 Hx3' Hv3. assert (shape s3 = shape s) as Hs3' by congruence.
  apply (unlock_q [] _ _ x3); [done|by apply (valid_ref_shape s)|set_solver|done|].
  intros s4 I4 Q4 Hx4. apply H; [done| | | |].
  - rewrite (quiet_shape _ _ _ Q4). done.
  - eapply (vkeeps_trans _ _ s2); [done|by apply keeps_frame|].
    eapply (vkeeps_trans _ _ s3); [done|done|]. by eapply keeps_mono; [apply Q4|set_solver].
  - rewrite Hx4. by destruct Hx3' as [->|[->|(i & _ & ->)]].
  - rewrite (keeps_virt [] s3); [|apply Q4|set_solver|by apply (valid_ref_shape s)].
    destruct Hv3 as [-> | ->]; [done|]. destruct (lr_state_cases y (vi_state y)) as [->|(_ & ? & _)]; done.
Qed.

(** What an injection does to an interrupt that is not one of the hardware. *)
Definition injected (s s' : avm) (c : Z) (r : iref) (x : vgic_int) : Prop :=
  (vi_owner x = None \/ vi_owner x = Some c -> virt_state s' r = Z.lor (virt_state s r) PEND) /\
  (forall o, vi_owner x = Some o -> o <> c -> virt_state s' r = virt_state s r /\
     events_of s' o = events_of s o ++ [mk_msg VGIC_IPI_ID VGIC_SET_REG
       (VGIC_MSG_DATA (avm_id s) 0 (vi_id x) VGIC_ISPENDR_ID 1)]).

(** An interrupt that is injected becomes pending, unless it is not one of the hardware
    and another CPU owns it: then that CPU is asked to make it pending. *)
Lemma inject_wp s c v id x (Q : unit -> avm -> Prop) :
  inv [] s -> avm_vcpus s !! c = Some v -> 0 <= id < vd_int_num (avm_vgicd s) ->
  let r := ref_of c id in lookup_int s r = Some x -> injectable s c id ->
  (forall s', inv [] s' -> shape s' = shape s -> keeps [r] s s' ->
    fields <$> lookup_int s' r = Some (fields x) ->
    (vgic_int_is_hw x = true -> virt_state s' r = PEND) ->
    (vgic_int_is_hw x = false -> injected s s' c r x) -> Q tt s') ->
  gwp (vgic_inject c id 0) Q s.
Proof.
  intros I Hv Hid r Hx Hinj H. assert (has_cpu s c) as Hc by by exists v.
  assert (valid_ref s r) as Hr by by apply (ref_of_valid []).
  apply gwp_bind, aget_vcpu_wp; [done|]. intros v' Hv'. assert (v' = v) as -> by congruence.
  apply gwp_bind, (get_int_own_wp []); [done..|]. replace (id <? _) with true by lia. fold r.
  apply gwp_bind, (get_int_eq_wp _ _ x); [done|]. destruct (vgic_int_is_hw x) eqn:Eh.
  - apply (inject_hw_wp _ _ _ x); [done..|by apply (Hinj x)|]. intros s' I' Hs' K' Hf' Hv1. by apply H.
  - apply (set_field_wp ispendr_info (upd_bit PEND true) _ _ _ x); [apply _|done..|].
    intros x' s' I' Hs' K' Hx' Hown Hoth. apply H; try done.
    { rewrite Hx'. simpl. f_equal. destruct (vi_owner x) as [o|] eqn:Eo; [destruct (decide (o = c)) as [->|Ho]|].
      2: { by destruct (Hoth o eq_refl Ho) as [-> _]. }
      - by destruct (Hown (or_intror eq_refl)) as (s2 & _ & -> & _).
      - by destruct (Hown (or_introl eq_refl)) as (s2 & _ & -> & _). }
    intros _. split; [|intros o Ho Hne; apply (Hoth o Ho Hne)]. intros Ho.
    destruct (Hown Ho) as (s2 & _ & Hf & Hvs). cbv zeta in Hvs.
    assert (forall y, vi_id y = vi_id x -> vi_hw y = vi_hw x -> lr_state_of y (vi_state y) = vi_state y) as Hsame.
    { intros y E1 E2. unfold lr_state_of, vgic_int_is_hw. rewrite E1, E2. unfold vgic_int_is_hw in Eh. by rewrite Eh. }
    rewrite Hsame in Hvs by done. by destruct Hvs as [-> | ->].
Qed.

Lemma inject_safe s c id src : inv [] s -> has_cpu s c -> 0 <= id -> injectable s c id -> safe (vgic_inject c id src) s.
Proof.
  intros I [v Hv] Hid Hinj. destruct (Z.lt_ge_cases id (vd_int_num (avm_vgicd s))) as [Hlt|Hge].
  - assert (valid_ref s (ref_of c id)) as Hr by (by apply (ref_of_valid []); [|exists v|]).
    destruct (valid_lookup _ _ _ I Hr) as [x Hx]. change (vgic_inject c id src) with (vgic_inject c id 0).
    by apply (inject_wp s c v id x).
  - apply gwp_bind, aget_vcpu_wp; [by exists v|]. intros v' Hv'.
    apply gwp_bind, (get_int_own_wp []); [done..|]. replace (id <? _) with false by lia. by apply gwp_ret.
Qed.

(** ** Messages *)
Lemma msg_intid_nonneg d : 0 <= VGIC_MSG_INTID d.
Proof. apply Z.land_nonneg. right. lia. Qed.
Lemma msg_reg_nonneg d : 0 <= VGIC_MSG_REG d.
Proof. apply Z.land_nonneg. right. lia. Qed.

(** The registers a request may name have field functions. *)
Lemma reg_handler_ops n :
  0 <= n < 9 -> exists h f, vgic_get_reg_handler_info n = Some h /\ FieldOps h f.
Proof.
  intros Hn. assert (n = 0 \/ n = 1 \/ n = 2 \/ n = 3 \/ n = 4 \/ n = 5 \/ n = 6 \/ n = 7 \/ n = 8) as Hc by lia.
  repeat destruct Hc as [->|Hc]; [..|subst n]; (eexists _, _; split; [reflexivity|apply _]).
Qed.

Lemma update_enable_safe s c : inv [] s -> has_cpu s c -> safe (vgic_update_enable c) s.
Proof.
  intros I Hc. apply gwp_bind, gwp_gets, gwp_bind, get_hcr_wp; [done|]. intros h Hh.
  by apply (set_hcr_wp []).
Qed.

(** The request to look at an interrupt that was routed to this CPU. *)
Lemma route_msg_wp s c id (Q : unit -> avm -> Prop) :
  inv [] s -> has_cpu s c -> 0 <= id < vd_int_num (avm_vgicd s) -> let r := ref_of c id in
  (forall s', inv [] s' -> shape s' = shape s -> no_loss s s' -> Q tt s') ->
  gwp (int_lock r;;
       own ← vgic_get_ownership c r;
       gwhen own
         (x ← get_int r;
          gwhen (vgic_int_vcpu_is_target c x) (vgic_add_lr c r;; mret tt);;
          vgic_yield_ownership c r);;
       int_unlock r) Q s.
Proof.
  intros I Hc Hid r H. assert (valid_ref s r) as Hr by by apply (ref_of_valid []).
  apply gwp_bind, (lock_q []); [done|done|set_solver|]. intros x s1 Hx I1 Q1 Hx1. set (x1 := set_lock true x) in *.
  assert (forall x2 s2, inv [r] s2 -> shape s2 = shape s -> no_loss s s2 -> lookup_int s2 r = Some x2 ->
    gwp (int_unlock r) Q s2) as Hend.
  { intros x2 s2 I2 Hs2 N2 Hx2. apply (unlock_q [] _ _ x2); [done|by apply (valid_ref_shape s)|set_solver|done|].
    intros s3 I3 Q3 _. apply H; [done|by rewrite (quiet_shape _ _ _ Q3)|].
    eapply (no_loss_trans _ s2); [done|done|]. apply no_loss_keeps, Q3. }
  pose proof (quiet_shape _ _ _ Q1) as Hs1.
  apply gwp_bind, (ownership_q [r] _ _ _ x1); [done|by apply (has_cpu_shape s)|by apply (valid_ref_shape s)|done| |].
  2: { apply gwp_bind, gwp_ret, (Hend x1); [done|done|apply no_loss_keeps, Q1|done]. }
  intros s2 I2 Q2 Hx2. set (x2 := set_owner (Some c) x1) in *. pose proof (vquiet_trans _ _ _ _ Q1 Q2) as Q02.
  pose proof (quiet_shape _ _ _ Q02) as Hs2. assert (valid_ref s2 r) as Hr2 by by apply (valid_ref_shape s).
  apply gwp_bind, gwp_bind, (get_int_eq_wp _ _ x2); [done|]. apply gwp_bind.
  assert (forall x3 s3, inv [r] s3 -> shape s3 = shape s -> no_loss s s3 -> lookup_int s3 r = Some x3 ->
    gwp (vgic_yield_ownership c r) (fun _ s' => gwp (int_unlock r) Q s') s3) as Hyield.
  { intros x3 s3 I3 Hs3 N3 Hx3. apply (yield_q [r] _ _ _ x3); [done|by apply (has_cpu_shape s)|by apply (valid_ref_shape s)|done|].
    intros x4 s4 _ I4 Q4 Hx4. apply (Hend x4); [done|by rewrite (quiet_shape _ _ _ Q4)| |done].
    eapply (no_loss_trans _ s3); [done|done|]. apply no_loss_keeps, Q4. }
  apply gwp_when; intros _; [|apply (Hyield x2); [done|done|apply no_loss_keeps, Q02|done]].
  apply gwp_bind, (add_lr_wp _ _ _ x2); [done|by apply (has_cpu_shape s)|done|done|done| |].
  { pose proof (ok_id _ _ _ _ (inv_int _ _ I2 r x2 Hr2 Hx2)) as ->. unfold r. by rewrite ref_of_id. }
  intros b x3 s3 I3 Hs3 K3 Hx3 Hf Ht. apply gwp_ret, (Hyield x3); [done|congruence| |done].
  eapply (no_loss_trans _ s2); [done|apply no_loss_keeps, Q02|]. apply (keeps_but_no_loss r x2 x3); [done..| |].
  { destruct b; [destruct (Ht eq_refl) as (_ & (i & _ & ->) & _)|destruct (Hf eq_refl) as [-> _]]; done. }
  destruct b; [|left; apply (Hf eq_refl)]. destruct (Ht eq_refl) as (Hin & _ & ->).
  rewrite (virt_out s2 r x2 Hx2 Hin). apply lr_state_cases.
Qed.

Lemma ipi_safe s c ev data :
  inv [] s -> has_cpu s c -> known s 0 -> vm_msg s (mk_msg VGIC_IPI_ID ev data) -> safe (vgic_ipi_handler c ev data) s.
Proof.
  intros I Hc Hk Hm. destruct (Hm eq_refl) as [Hvm [Hinj Hset]]. cbn [msg_data msg_event] in *.
  apply gwp_bind, gwp_gets. rewrite Hvm, Z.eqb_refl. cbn [negb].
  destruct (Z.eqb_spec ev VGIC_UPDATE_ENABLE); [by apply update_enable_safe|].
  destruct (Z.eqb_spec ev VGIC_ROUTE).
  { apply gwp_bind, aget_vcpu_wp; [done|]. intros v Hv.
    apply gwp_bind, (get_int_own_wp []); [done..|].
    destruct (Z.ltb_spec (VGIC_MSG_INTID data) (vd_int_num (avm_vgicd s))); [|by apply gwp_ret].
    apply route_msg_wp; [done|done|split; [apply msg_intid_nonneg|done]|done]. }
  destruct (Z.eqb_spec ev VGIC_INJECT).
  { apply inject_safe; [done|done|apply msg_intid_nonneg|]. intros x Hx Hh. exfalso.
    assert (VGIC_MSG_INTID data < GIC_MAX_SGIS) as Hlt by auto. pose proof (msg_intid_nonneg data).
    unfold vgic_int_is_hw in Hh. rewrite (ok_id [] s (ref_of c (VGIC_MSG_INTID data))) in Hh.
    - rewrite ref_of_id in Hh. by replace (_ <? _) with true in Hh by lia.
    - apply (inv_int _ _ I); [|done]. apply (ref_of_valid []); [done|done|].
      destruct (inv_num _ _ I) as [? _]. unfold GIC_MAX_SGIS in *. lia. }
  destruct (Z.eqb_spec ev VGIC_SET_REG); [|by apply gwp_ret].
  destruct (Hset ltac:(done)) as [-> Hreg].
  apply gwp_bind, vgic_get_int_wp; [done|done|done|apply msg_intid_nonneg| |].
  - destruct (vgic_get_reg_handler_info _); by apply gwp_ret.
  - intros r Hr _. destruct (reg_handler_ops (VGIC_MSG_REG data)) as (h & f & -> & Hf).
    { pose proof (msg_reg_nonneg data). lia. }
    by apply (set_field_safe h f).
Qed.

(** ** Broadcasts *)

(** The VM has all its CPUs. *)
Definition full (s : avm) : Prop := avm_cpu_num s = cnt (Z.testbit (avm_cpus s)) 0 32 /\ 1 <= avm_cpu_num s.

Lemma full_shape s s' : shape s' = shape s -> full s -> full s'.
Proof.
  intros H. unfold full. assert (avm_cpu_num s' = avm_cpu_num s /\ avm_cpus s' = avm_cpus s) as [-> ->]; [|done].
  unfold shape in H. split; congruence.
Qed.

Definition other_cpu (s : avm) (c j : Z) : bool := Z.testbit (avm_cpus s) j && negb (j =? c).

Lemma others_enough s c : full s -> 0 <= c < 32 -> avm_cpu_num s - 1 <= cnt (other_cpu s c) 0 32.
Proof.
  intros [-> _] Hc. destruct (Z.testbit (avm_cpus s) c) eqn:Eb.
  - pose proof (cnt_clear (Z.testbit (avm_cpus s)) (other_cpu s c) 32 c) as Hcl.
    change (Z.to_nat 32) with 32%nat in Hcl. rewrite Hcl; [lia|done|done| |].
    + unfold other_cpu. by rewrite Eb, Z.eqb_refl.
    + intros j _ Hj. unfold other_cpu. apply Z.eqb_neq in Hj. rewrite Hj. by rewrite andb_true_r.
  - rewrite (cnt_ext (other_cpu s c) (Z.testbit (avm_cpus s))); [lia|]. intros j _. unfold other_cpu.
    destruct (Z.eqb_spec j c) as [->|]; [by rewrite Eb|by rewrite andb_true_r].
Qed.

Lemma broadcast_loop_safe s c msg fuel : forall i n,
  inv [] s -> vm_msg s msg -> 0 <= i -> 1 <= avm_cpu_num s < 2 ^ 64 ->
  avm_cpu_num s - 1 - n <= cnt (other_cpu s c) i fuel ->
  safe (gmsg_broadcast_loop fuel c (avm_cpus s) (avm_cpu_num s) msg i n) s.
Proof.
  revert s. induction fuel as [|fuel IH]; intros s i n I Hm Hi Hn Hc; simpl; rewrite wrap_small by lia;
    (destruct (Z.ltb_spec n (avm_cpu_num s - 1)); [|by apply safe_ret]).
  { simpl in Hc. lia. }
  rewrite Z.land_comm, land_shiftl_1 by done. change (Z.testbit (avm_cpus s) i && negb (i =? c)) with (other_cpu s c i).
  simpl cnt in Hc. destruct (other_cpu s c i) eqn:Eo; simpl in Hc; [|apply IH; done || lia].
  unfold other_cpu in Eo. apply andb_true_iff in Eo as [Eb _].
  assert (has_cpu s i) as Hci by (destruct (inv_vm _ _ I) as (_ & _ & _ & Hb); by apply Hb).
  apply safe_bind; [by apply (cpu_send_msg_wp [])|]. intros _ s' I' Hs'.
  assert (avm_cpus s' = avm_cpus s /\ avm_cpu_num s' = avm_cpu_num s /\ avm_id s' = avm_id s) as (E1 & E2 & E3)
    by (unfold shape in Hs'; split_and!; congruence).
  rewrite <- E1, <- E2. apply IH; [done| |lia|lia|].
  - intros Hh. rewrite E3. by apply Hm.
  - rewrite (cnt_ext _ (other_cpu s c)); [lia|]. intros j _. unfold other_cpu. by rewrite E1.
Qed.

Lemma broadcast_safe s c msg : inv [] s -> has_cpu s c -> full s -> vm_msg s msg -> safe (gvm_msg_broadcast c msg) s.
Proof.
  intros I Hc Hf Hm. pose proof (has_cpu_range _ _ _ I Hc). pose proof (others_enough s c Hf ltac:(lia)) as Ho.
  destruct Hf as [Hn H1]. pose proof (cnt_range (Z.testbit (avm_cpus s)) 0 32).
  assert (1 <= avm_cpu_num s < 2 ^ 64) as Hr by lia. clear Hn H1.
  unfold safe, gvm_msg_broadcast. revert Ho. generalize 32%nat. intros k Ho.
  apply gwp_bind, gwp_gets, gwp_bind, gwp_gets. apply broadcast_loop_safe; [done|done|lia|lia|lia].
Qed.

(** ** Emulated registers *)
Lemma inv_vgicd held s d : inv held s -> vd_int_num d = vd_int_num (avm_vgicd s) -> inv held (set_vgicd d s).
Proof.
  intros [I1 I2 I3 I4 Ie I5 I6] Hd. split; try done.
  - simpl. by rewrite Hd.
  - intros r x Hr Hx. assert (valid_ref s r) as Hr' by (destruct r; simpl in *; [done|by rewrite <- Hd]).
    assert (lookup_int s r = Some x) as Hx' by by destruct r. by destruct (I3 r x Hr' Hx').
  - intros c i w Hi Hw Hst. destruct (I4 c i w Hi Hw Hst) as (Hn & x & Hx & R). split; [simpl; by rewrite Hd|].
    exists x. split; [|done]. by destruct (ref_of c (GICH_LR_VID w)).
Qed.

Lemma shape_vgicd_set s d :
  vd_int_num d = vd_int_num (avm_vgicd s) -> vd_lock d = vd_lock (avm_vgicd s) -> shape (set_vgicd d s) = shape s.
Proof. intros H1 H2. unfold shape. simpl. by rewrite H1, H2. Qed.

Lemma gwp_mod f (Q : unit -> avm -> Prop) s : Q tt (f s) -> gwp (gmod f) Q s.
Proof. done. Qed.

(** A new value of [CTLR] is announced to the other CPUs. *)
Lemma ctlr_safe s c d :
  inv [] s -> has_cpu s c -> full s -> vd_int_num d = vd_int_num (avm_vgicd s) -> vd_lock d = vd_lock (avm_vgicd s) ->
  forall b : bool,
  safe (gmod (set_vgicd d);;
        if b then
          vgic_update_enable c;;
          vmid ← ggets avm_id;
          gvm_msg_broadcast c (mk_msg VGIC_IPI_ID VGIC_UPDATE_ENABLE (VGIC_MSG_DATA vmid 0 0 0 0))
        else mret tt) s.
Proof.
  intros I Hc Hf H1 H2 b. apply safe_bind.
  { apply gwp_mod. split; [by apply inv_vgicd|by apply shape_vgicd_set]. }
  intros _ s1 I1 Hs1. assert (has_cpu s1 c) as Hc1 by by apply (has_cpu_shape s).
  destruct b; [|by apply safe_ret]. apply safe_bind; [by apply update_enable_safe|].
  intros _ s2 I2 Hs2. apply safe_gets, broadcast_safe; [done|by apply (has_cpu_shape s1)| |].
  - apply (full_shape s); [congruence|done].
  - destruct (inv_vm _ _ I2) as (Hid & _). intros _. cbn [msg_data]. rewrite msg_vm by done.
    split; [done|]. split; done.
Qed.

Lemma safe_readreg {B} c reg (k : Z -> G B) s :
  has_cpu s c -> (forall w, safe (k w) s) -> safe (Arm.vcpu_readreg c reg ≫= k) s.
Proof. intros Hc H. by apply gwp_bind, readreg_wp. Qed.

Lemma misc_safe s c acc : inv [] s -> has_cpu s c -> full s -> safe (vgicd_emul_misc c acc) s.
Proof.
  intros I Hc Hf. unfold vgicd_emul_misc. apply safe_gets. cbv zeta.
  destruct (_ =? GICD_CTLR).
  - destruct (acc_write acc); [|by apply writereg_safe]. apply safe_readreg; [done|]. intros w.
    by apply ctlr_safe.
  - destruct (_ =? GICD_TYPER); [apply safe_when; [done|]; intros _; by apply writereg_safe|].
    destruct (_ =? GICD_IIDR); [apply safe_when; [done|]; intros _; by apply writereg_safe|].
    by apply safe_ret.
Qed.

(** A description whose access goes over the interrupts has field functions. *)
Definition well_described (h : vgic_reg_handler_info) : Prop :=
  rh_access h = vgic_emul_generic_access -> exists f, FieldOps h f.

Lemma generic_loop_safe h f c wr first id mask k : forall s val i,
  FieldOps h f -> inv [] s -> has_cpu s c -> known s id -> safe (generic_loop h c wr first id mask val i k) s.
Proof.
  induction k as [|k IH]; intros s val i Hf I Hc Hk; [by apply safe_ret|]. unfold generic_loop. fold generic_loop.
  apply gwp_bind, vgic_get_int_wp; [done|done|done|by apply wrap_range|by apply gwp_ret|].
  intros r Hr _. apply safe_bind.
  - destruct wr.
    + apply safe_bind; [by apply (set_field_safe h f)|]. intros. by apply safe_ret.
    + destruct (valid_lookup _ _ _ I Hr) as [x Hx]. apply gwp_bind, (get_int_eq_wp _ _ x); [done|]. by apply gwp_ret.
  - intros val' s' I' Hs'. apply IH; [done|done|by apply (has_cpu_shape s)|by apply (known_shape s)].
Qed.

Lemma emul_generic_safe h f s c acc gicr id :
  FieldOps h f -> inv [] s -> has_cpu s c -> known s id -> safe (vgic_emul_generic h c acc gicr id) s.
Proof.
  intros Hf I Hc Hk. unfold vgic_emul_generic. cbv zeta. apply safe_bind.
  { destruct (acc_write acc); [|by apply safe_ret]. by apply readreg_wp. }
  intros val s1 I1 Hs1. assert (has_cpu s1 c) as Hc1 by by apply (has_cpu_shape s).
  apply safe_bind.
  { destruct (negb _); [|by apply safe_ret]. apply (generic_loop_safe h f); [done|done|done|by apply (known_shape s)]. }
  intros val2 s2 I2 Hs2. apply safe_when; [done|]. intros _. apply writereg_safe; [done|].
  by apply (has_cpu_shape s1).
Qed.

Lemma run_access_safe h s c acc gicr id :
  well_described h -> inv [] s -> has_cpu s c -> full s -> known s id -> safe (run_access h c acc gicr id) s.
Proof.
  intros Hw I Hc Hf Hk. unfold run_access. unfold well_described in Hw. destruct (rh_access h).
  - destruct (Hw eq_refl) as [f Hff]. by apply (emul_generic_safe h f).
  - by apply misc_safe.
  - apply safe_when; [done|]. intros _. by apply writereg_safe.
  - apply safe_when; [done|]. intros _. by apply writereg_safe.
  - apply safe_when; [done|]. intros _. by apply writereg_safe.
  - unfold vgicr_emul_typer. destruct (acc_write acc); [by apply safe_ret|]. destruct Hk as [t Ht].
    apply gwp_bind, gwp_gets. rewrite Ht. apply find_avcpu_some in Ht as [Ht _].
    apply safe_vcpu; [done|]. intros v _. by apply writereg_safe.
  - unfold vgicr_emul_pidr. destruct (acc_write acc); [by apply safe_ret|]. apply safe_gets. by apply writereg_safe.
Qed.

Lemma field_described h f : FieldOps h f -> well_described h.
Proof. intros Hf _. by exists f. Qed.

Lemma plain_described g a : g <> vgic_emul_generic_access -> well_described (plain_info g a).
Proof. intros Hg H. done. Qed.

Ltac described :=
  repeat match goal with |- well_described (if ?b then _ else _) => destruct b end;
  first [by apply plain_described | eapply field_described; apply _].

Lemma vgicd_described addr : well_described (vgicd_reg_info addr).
Proof. unfold vgicd_reg_info. cbv zeta. described. Qed.

Lemma vgicr_described addr base : well_described (vgicr_reg_info addr base).
Proof. unfold vgicr_reg_info. cbv zeta. described. Qed.

(** ** The locks of the register frames *)
Definition locks_free (s : avm) : Prop :=
  vd_lock (avm_vgicd s) = false /\ forall c v, avm_vcpus s !! c = Some v -> av_gicr_lock v = false.

Definition dlock (b : bool) (s : avm) : avm :=
  let d := avm_vgicd s in set_vgicd (mk_vgicd b (vd_int_num d) (vd_CTLR d) (vd_TYPER d) (vd_IIDR d)) s.

Lemma shape_dunlock s s' :
  vd_lock (avm_vgicd s) = false -> shape s' = shape (dlock true s) -> shape (dlock false s') = shape s.
Proof.
  intros Hl H. unfold shape, dlock in *. simpl in *. injection H as ?????????? H0.
  apply (f_equal2 pair); [congruence|exact H0].
Qed.

Lemma vgicd_handler_safe s c acc :
  inv [] s -> has_cpu s c -> full s -> (forall v, avm_vcpus s !! c = Some v -> known s (av_id v)) ->
  vd_lock (avm_vgicd s) = false -> vgic_check_reg_alignment acc (vgicd_reg_info (acc_addr acc)) = true ->
  safe (vgicd_emul_handler c acc) s.
Proof.
  intros I Hc Hf Hk Hl Ha. unfold vgicd_emul_handler. cbv zeta. rewrite Ha.
  unfold safe. apply gwp_bind. unfold vgicd_lock. apply gwp_bind, gwp_gets. rewrite Hl. apply gwp_mod.
  change (set_vgicd _ s) with (dlock true s). set (s1 := dlock true s).
  assert (inv [] s1) as I1 by by apply inv_vgicd.
  apply gwp_bind, aget_vcpu_wp; [done|]. intros v Hv. apply gwp_bind. eapply gwp_mono.
  { apply run_access_safe; [apply vgicd_described|done|done|done|by apply Hk]. }
  intros _ s2 [I2 Hs2]. apply gwp_bind. unfold vgicd_unlock. apply gwp_bind, gwp_gets, gwp_mod, gwp_ret.
  change (set_vgicd _ s2) with (dlock false s2). split; [by apply inv_vgicd|by apply shape_dunlock].
Qed.

(** The lock of the redistributor frame of [t]. *)
Definition glock (t : Z) (w : avcpu) (b : bool) (s : avm) : avm :=
  set_vcpus (<[t := set_gicr_lock b w]> (avm_vcpus s)) s.

Lemma glock_cpu s t w b c : avm_vcpus s !! t = Some w -> has_cpu (glock t w b s) c <-> has_cpu s c.
Proof.
  intros Hw. unfold has_cpu. simpl. rewrite lookup_insert. case_decide; [subst|done].
  rewrite Hw. split; eauto.
Qed.

Lemma inv_glock s t w b : inv [] s -> avm_vcpus s !! t = Some w -> inv [] (glock t w b s).
Proof.
  intros I Hw. set (s' := glock t w b s).
  assert (forall c, has_cpu s' c <-> has_cpu s c) as Hcpu by (intros c; by apply glock_cpu).
  assert (forall r, lookup_int s' r = lookup_int s r) as Hl by (intros r; by apply (lookup_int_vcpu s t w)).
  assert (forall d i, lr_at s' d i = lr_at s d i) as Hlr.
  { intros d i. unfold s', glock. rewrite (lr_at_vcpu s t w) by done. case_decide; [|done].
    subst d. unfold lr_at. by rewrite Hw. }
  split.
  - intros c v. simpl. rewrite lookup_insert. case_decide.
    + intros [= <-]. subst t. by apply (inv_vcpu _ _ I c w).
    + by apply (inv_vcpu _ _ I).
  - apply (inv_num _ _ I).
  - intros r x Hr Hx. rewrite Hl in Hx.
    assert (valid_ref s r) as Hr' by (destruct r; simpl in *; rewrite <- ?Hcpu; done).
    destruct (inv_int _ _ I r x Hr' Hx) as [? ? ? ? ? ? Ho Hrt]. split; try done.
    + intros o Eo. apply Hcpu. by apply Ho.
    + intros k Ek. rewrite Hcpu. by apply (Hrt k).
  - intros c i v Hi Hv Hst. rewrite Hlr in Hv. destruct (inv_lr _ _ I c i v Hi Hv Hst) as (Hn & x & Hx & R).
    split; [done|]. exists x. by rewrite Hl.
  - intros c i v Hi. rewrite Hlr. by apply (inv_eoi _ _ I).
  - intros c m Hc. apply (inv_msg _ _ I). by apply Hcpu.
  - destruct (inv_vm _ _ I) as (? & ? & ? & Hb). do 3 (split; [done|]). intros i Hi Hbit. apply Hcpu. by apply Hb.
Qed.

Lemma shape_gunlock s s' t w w' :
  avm_vcpus s !! t = Some w -> av_gicr_lock w = false -> shape s' = shape (glock t w true s) ->
  avm_vcpus s' !! t = Some w' -> shape (glock t w' false s') = shape s.
Proof.
  intros Hw Hl H Hw'. unfold shape in *. simpl in *. injection H as ??????? H8 ? ? H9.
  rewrite fmap_insert in H8.
  assert (ident w' = (av_id w, av_vmpidr w, true)) as Hid.
  { apply (f_equal (fun m => m !! t)) in H8. rewrite lookup_fmap, Hw', lookup_insert_eq in H8. simpl in H8.
    by apply (inj Some) in H8. }
  assert (ident <$> <[t:=set_gicr_lock false w']> (avm_vcpus s') = ident <$> avm_vcpus s) as Hm.
  { rewrite fmap_insert, H8, insert_insert_eq. apply insert_id. rewrite lookup_fmap, Hw. simpl. f_equal.
    unfold ident in *. simpl in *. rewrite Hl. congruence. }
  apply (f_equal2 pair); [congruence|].
  assert (forall c, (<[t:=set_gicr_lock false w']> (avm_vcpus s') !! c = None) <-> avm_vcpus s !! c = None) as Hn.
  { intros c. apply (f_equal (fun m => m !! c)) in Hm. rewrite !lookup_fmap in Hm.
    destruct (<[t:=_]> _ !! c), (avm_vcpus s !! c); done. }
  assert (forall c, avm_vcpus s' !! c = None <-> avm_vcpus s !! c = None) as Hn'.
  { intros c. rewrite <- Hn, lookup_insert. case_decide; [subst|done]. by rewrite Hw'. }
  transitivity (filter (fun e : Z * list cpu_msg => avm_vcpus s' !! e.1 = None) (avm_events s')).
  { apply map_filter_ext. intros c m _. simpl. by rewrite Hn, Hn'. }
  rewrite H9. apply map_filter_ext. intros c m _. simpl. rewrite lookup_insert. case_decide; [subst|done].
  by rewrite Hw.
Qed.

Lemma known_glock s t w b id : avm_vcpus s !! t = Some w -> known s id -> known (glock t w b s) id.
Proof.
  intros Hw. unfold known. simpl. induction (avm_vcpu_list s) as [|c l IH]; simpl; [done|].
  rewrite lookup_insert. case_decide; [subst|by destruct (avm_vcpus s !! c) as [v|]; [destruct (av_id v =? id)|]].
  rewrite Hw. simpl. by destruct (av_id w =? id).
Qed.

Lemma vgicr_handler_safe s c acc :
  inv [] s -> has_cpu s c -> full s -> locks_free s -> known s (vgicr_get_id (avm_vgicr_addr s) acc) ->
  vgic_check_reg_alignment acc (vgicr_reg_info (acc_addr acc) (avm_vgicr_addr s)) = true ->
  safe (vgicr_emul_handler c acc) s.
Proof.
  intros I Hc Hf [_ Hlk] Hk Ha. unfold vgicr_emul_handler. apply safe_gets. cbv zeta. rewrite Ha.
  set (id := vgicr_get_id _ _) in *. apply safe_vcpu; [done|]. intros v Hv.
  assert (forall t, has_cpu s t ->
    safe (w ← aget_vcpu t;
          if av_gicr_lock w then gfail Hang
          else
            aput_vcpu t (set_gicr_lock true w);;
            run_access (vgicr_reg_info (acc_addr acc) (avm_vgicr_addr s)) c acc true id;;
            amod_vcpu t (set_gicr_lock false);; mret true) s) as Hmain.
  { intros t Ht. apply safe_vcpu; [done|]. intros w Hw. rewrite (Hlk t w Hw).
    unfold safe. apply gwp_bind. unfold aput_vcpu. apply gwp_mod. change (set_vcpus _ s) with (glock t w true s).
    set (s1 := glock t w true s). apply gwp_bind. eapply gwp_mono.
    { apply run_access_safe; [apply vgicr_described|by apply inv_glock|by apply glock_cpu|done|by apply known_glock]. }
    intros _ s2 [I2 Hs2].
    assert (has_cpu s2 t) as [w2 Hw2] by (apply (has_cpu_shape s1); [done|by apply glock_cpu]).
    apply gwp_bind, (amod_vcpu_wp _ _ _ w2); [done|]. apply gwp_ret.
    change (set_vcpus _ s2) with (glock t w2 false s2). split; [by apply inv_glock|by apply (shape_gunlock s s2 t w w2); [|apply Hlk with t| |]]. }
  unfold safe. apply gwp_bind. destruct (id =? av_id v).
  - by apply gwp_ret, Hmain.
  - destruct Hk as [t Ht]. apply gwp_gets. rewrite Ht. apply Hmain. by apply find_avcpu_some in Ht as [Ht _].
Qed.

End Sys.
