(* ===== verification/GicPower.v ===== *)
(** * The interrupt controller across a power-down of a CPU on ARMv8

    [gicc_save_state] and [gicc_restore_state] keep the control registers of the virtual
    CPU interface, but only the lower half of the list registers, which does not hold the
    state of the interrupt: the invariant holds afterwards, and the interrupts that were
    in the list registers of the CPU are gone. *)

From S2P Require Import Prelude Bit Bitmap CpuMsg Gic Arm GicCpu Vgic VgicInv VgicLr VgicMove VgicField VgicEmul VgicMaint VgicSys.

(** ** The lower half of a list register *)
Lemma u32_low w off len : 32 <= off -> 1 <= len <= 64 -> bit_extract (u32 w) off len = 0.
Proof.
  intros Ho Hl. unfold bit_extract. apply Z.bits_inj'. intros i Hi.
  rewrite Z.bits_0, Z.land_spec, Z.shiftr_spec, wrap_testbit by lia.
  replace (i + off <? 32) with false by lia. done.
Qed.

Lemma u32_state w : GICH_LR_STATE (u32 w) = INV.
Proof. by apply u32_low. Qed.

Lemma u32_eoi w : eoi_shared (u32 w).
Proof.
  intros _ H. destruct H. apply Z.bits_inj'. intros i Hi. unfold GICH_LR_EOI_BIT.
  rewrite Z.bits_0, Z.land_spec, wrap_testbit, shiftl_1_testbit by lia.
  destruct (Z.ltb_spec i 32); [|done]. replace (i =? 41) with false by lia. by rewrite andb_false_r.
Qed.

Section Power.
Context `{E : GicEnv} {L : GicLaws}.

(** ** The loops over the list registers *)
Lemma read_lrs_run c v k : forall i s,
  avm_vcpus s !! c = Some v -> 0 <= i -> i + Z.of_nat k = NUM_LRS -> length (av_lrs v) = Z.to_nat NUM_LRS ->
  read_lrs c i k s = Ok (u32 <$> drop (Z.to_nat i) (av_lrs v), s).
Proof.
  induction k as [|k IH]; intros i s Hv Hi Hk Hlen; simpl.
  - rewrite drop_ge by lia. done.
  - destruct (av_lrs v !! Z.to_nat i) as [w|] eqn:Hw; [|apply lookup_ge_None in Hw; lia].
    unfold mbind, G_bind, gich_read_lr. replace (NUM_LRS <=? i) with false by lia.
    unfold mbind, G_bind, aget_vcpu. rewrite Hv, Hw. unfold mret at 1, G_ret at 1.
    rewrite IH by (done || lia). rewrite (drop_S _ w (Z.to_nat i)) by done.
    replace (Z.to_nat (i + 1)) with (S (Z.to_nat i)) by lia. done.
Qed.

Lemma vcpus_same s c v : avm_vcpus s !! c = Some v -> set_vcpus (<[c := v]> (avm_vcpus s)) s = s.
Proof. intros Hv. rewrite insert_id by done. by destruct s. Qed.

Lemma set_lrs_same v : set_lrs (av_lrs v) v = v.
Proof. by destruct v. Qed.

Lemma write_lrs_wp c f k : forall i s v (Q : unit -> avm -> Prop),
  avm_vcpus s !! c = Some v -> 0 <= i -> i + Z.of_nat k = NUM_LRS -> length (av_lrs v) = Z.to_nat NUM_LRS ->
  Q tt (set_vcpus (<[c := set_lrs (take (Z.to_nat i) (av_lrs v) ++ map f (seqZ i (Z.of_nat k))) v]> (avm_vcpus s)) s) ->
  gwp (write_lrs c f i k) Q s.
Proof.
  induction k as [|k IH]; intros i s v Q Hv Hi Hk Hlen H; cbn [write_lrs].
  - apply gwp_ret. rewrite take_ge in H by lia. simpl in H. rewrite app_nil_r, set_lrs_same, vcpus_same in H; done.
  - apply gwp_bind. unfold gich_write_lr. replace (NUM_LRS <=? i) with false by lia.
    apply (amod_vcpu_wp _ _ _ v); [done|].
    apply (IH _ _ (set_lrs (<[Z.to_nat i := f i]> (av_lrs v)) v)).
    + simpl. by rewrite lookup_insert_eq.
    + lia.
    + lia.
    + simpl. by rewrite length_insert.
    + simpl. rewrite insert_insert_eq. rewrite seqZ_cons in H by lia. simpl in H.
      replace (Z.pred (Z.of_nat (S k))) with (Z.of_nat k) in H by lia.
      replace (Z.to_nat (i + 1)) with (S (Z.to_nat i)) by lia.
      assert (take (S (Z.to_nat i)) (<[Z.to_nat i := f i]> (av_lrs v)) = take (Z.to_nat i) (av_lrs v) ++ [f i]) as ->.
      { rewrite (take_S_r _ _ (f i)) by (apply list_lookup_insert_eq; lia). by rewrite take_insert_ge. }
      rewrite <- app_assoc. simpl. replace (Z.succ i) with (i + 1) in H by lia. exact H.
Qed.

(** ** Save and restore *)
Lemma map_lookup_seqZ (l : list Z) n : length l = Z.to_nat n -> map (fun i => default 0 (l !! Z.to_nat i)) (seqZ 0 n) = l.
Proof.
  intros Hl. apply list_eq_same_length with (n := length l); [done| |].
  { rewrite length_map, length_seqZ. lia. }
  intros i x y Hi Hx Hy. change (map ?g ?t) with (g <$> t) in Hx. rewrite list_lookup_fmap, lookup_seqZ_lt in Hx by lia.
  injection Hx as <-. replace (Z.to_nat (0 + Z.of_nat i)) with i by lia. by rewrite Hy.
Qed.

(** What is saved of the CPU [c]. *)
Definition saved (hw : gic_reg -> Z) (c : Z) (i : icc) (v : avcpu) : gicc_state :=
  mk_gicc (u32 (icc_PMR i)) (u32 (icc_BPR1 i)) (u32 (hw (GICR (u32 c) GICR_ISENABLER0)))
    ((fun n => u32 (hw (GICR (u32 c) (GICR_IPRIORITYR + 4 * n)))) <$> seqZ 0 (GIC_NUM_PRIO_REGS GIC_CPU_PRIV))
    (u32 (av_hcr v)) (u32 <$> av_lrs v).

Lemma save_run hw c i s v :
  inv [] s -> avm_vcpus s !! c = Some v -> gicc_save_state hw c i s = Ok (saved hw c i v, s).
Proof.
  intros I Hv. destruct (inv_vcpu _ _ I c v Hv) as (_ & _ & Hl & _). destruct num_lrs_range as [Hn _].
  unfold gicc_save_state, mbind, G_bind, gich_get_hcr, mbind, G_bind, aget_vcpu. rewrite Hv.
  unfold mret at 1, G_ret at 1. rewrite (read_lrs_run c v) by (done || lia). by rewrite drop_0.
Qed.

(** Restoring a state changes nothing but the list registers and [ICH_HCR_EL2] of the CPU,
    and the physical registers. *)
Lemma restore_wp s c v st (Q : icc -> avm -> Prop) :
  avm_vcpus s !! c = Some v -> length (av_lrs v) = Z.to_nat NUM_LRS -> length (gs_LR st) = Z.to_nat NUM_LRS ->
  0 <= gs_HCR st < 2 ^ 32 ->
  (forall io, Q (mk_icc ICC_SRE_SRE_BIT (gs_PMR st) (gs_BPR st) ICC_CTLR_EOIMode_BIT ICC_IGRPEN_EL1_ENB_BIT)
     (set_io io (set_vcpus (<[c := set_lrs (gs_LR st) (set_hcr (gs_HCR st) v)]> (avm_vcpus s)) s))) ->
  gwp (gicc_restore_state c st) Q s.
Proof.
  intros Hv Hl Hg Hh H. destruct num_lrs_range as [Hn _]. apply gwp_bind, io_wp. intros io.
  apply gwp_bind, (amod_vcpu_wp _ _ _ v); [done|]. rewrite (wrap_small 32 (gs_HCR st)) by lia.
  apply gwp_bind, (write_lrs_wp _ _ _ _ _ (set_hcr (gs_HCR st) v)).
  - simpl. by rewrite lookup_insert_eq.
  - lia.
  - lia.
  - done.
  - apply gwp_ret. simpl. rewrite insert_insert_eq. rewrite Z2Nat.id by lia. rewrite map_lookup_seqZ by done.
    exact (H io).
Qed.

(** The CPU [c] powers down and comes back. *)
Lemma power_wp s c v hw i (Q : icc -> avm -> Prop) :
  inv [] s -> avm_vcpus s !! c = Some v ->
  (forall s', inv [] s' -> shape s' = shape s -> avm_events s' = avm_events s ->
     (forall r, lookup_int s' r = lookup_int s r) ->
     (forall d j, lr_at s' d j = if d =? c then u32 <$> lr_at s d j else lr_at s d j) ->
     Q (mk_icc ICC_SRE_SRE_BIT (u32 (icc_PMR i)) (u32 (icc_BPR1 i)) ICC_CTLR_EOIMode_BIT ICC_IGRPEN_EL1_ENB_BIT) s') ->
  gwp (st ← gicc_save_state hw c i; gicc_restore_state c st) Q s.
Proof.
  intros I Hv H. destruct (inv_vcpu _ _ I c v Hv) as (_ & _ & Hl & Hcl & Hcr & Hh).
  apply gwp_bind. unfold gwp at 1. rewrite (save_run hw c i s v I Hv).
  apply (restore_wp _ _ v); [done|done|unfold saved; cbn [gs_LR]; by rewrite length_fmap|by apply wrap_range|]. intros io. cbn [saved gs_LR gs_HCR].
  rewrite (wrap_small 32 (av_hcr v)) by done. set (v' := set_lrs _ _).
  destruct (inv_vcpu_mod [] s c v v') as [I' Hs']; try done.
  - simpl. by rewrite length_fmap.
  - simpl. intros j w _ Hw Hst. rewrite list_lookup_fmap in Hw. destruct (av_lrs v !! Z.to_nat j) as [w0|]; [|done].
    injection Hw as <-. by rewrite u32_state in Hst.
  - simpl. intros w Hw. right. apply list_elem_of_fmap in Hw as (w0 & -> & _). apply u32_eoi.
  - cbv zeta in *. cbn [gs_PMR gs_BPR saved]. apply H; [| |done| |].
    + by destruct (inv_io [] _ io I').
    + exact Hs'.
    + intros [d n|k]; simpl; [|done]. rewrite lookup_insert. case_decide as Hd; [|done]. subst d. by rewrite Hv.
    + intros d j. unfold lr_at. simpl. rewrite lookup_insert. destruct (Z.eqb_spec d c) as [->|Hd].
      * rewrite decide_True by done. rewrite Hv. simpl. by rewrite list_lookup_fmap.
      * by rewrite decide_False.
Qed.

End Power.
