(* ===== verification/VgicReach.v ===== *)
(** * Reachable states of the virtual interrupt controller of ARMv8

    The set-up of [vgic_init] and [vgic_cpu_init] gives a state with the invariant. From
    there the guests and the hardware change the list registers, the hypervisor handles
    what traps to it, injects interrupts and answers messages, and CPUs power down and
    come back: in every state reached, no interrupt is in two list registers, and every
    handler returns.

    Two steps have a condition that the code does not check. The maintenance interrupt is
    handled only while every interrupt whose end it reports is out of the list registers
    ([eoi_settled]): a guest that makes an interrupt pending between its end and the
    maintenance interrupt breaks it, with the consequences shown in VgicProps
    ([late_eoi_two_registers], [late_eoi_hangs]). A hardware interrupt is injected only
    while no list register holds it ([injectable]): the physical controller does not
    signal it again before the guest has ended it.

    The platform has at most eight CPUs ([fresh_vm]) in one cluster ([OneCluster]); the
    VM begins with empty list registers and no message of the controller. *)

From S2P Require Import Prelude Bit Bitmap CpuMsg State Calls Gic Arm GicCpu Vgic VgicInv VgicLr VgicMove VgicField VgicEmul VgicMaint VgicSys GicPower.

Section Reach.
Context `{E : GicEnv} {L : GicLaws} {C : OneCluster}.

(** ** The invariant of the system between two steps *)

(** An emulated frame of a redistributor, at [base], belongs to a virtual CPU of the VM. *)
Definition emul_ok (P : Z -> Prop) (base : Z) (e : arm_emul) : Prop :=
  match e with
  | AEMUL_MEM va size VGICR_EMUL =>
      exists id, P id /\ 0 <= base /\ 0 <= id < 2 ^ 32 /\ va = base + GICR_SIZE * id /\ size = GICR_SIZE /\
        va + size <= 2 ^ 64
  | AEMUL_MEM _ _ _ => True
  | AEMUL_REG _ h => h <> VGICR_EMUL
  end.

Lemma emul_ok_weaken (P Q : Z -> Prop) base l :
  (forall id, P id -> Q id) -> Forall (emul_ok P base) l -> Forall (emul_ok Q base) l.
Proof.
  intros H Hl. eapply Forall_impl; [exact Hl|]. intros [va size []|a h]; simpl; try done. intros (id & Hp & Hr). eauto.
Qed.

Record sys (s : avm) : Prop := {
  sys_inv : inv [] s;
  sys_full : full s;
  sys_free : locks_free s;
  sys_zero : known s 0;
  sys_known c v : avm_vcpus s !! c = Some v -> known s (av_id v);
  sys_emul : Forall (emul_ok (known s) (avm_vgicr_addr s)) (avm_emul s)
}.

Lemma ident_shape s s' c v' :
  shape s' = shape s -> avm_vcpus s' !! c = Some v' -> exists v, avm_vcpus s !! c = Some v /\ ident v' = ident v.
Proof.
  intros Hs Hv. assert (ident <$> avm_vcpus s' = ident <$> avm_vcpus s) as H by (unfold shape in Hs; congruence).
  apply (f_equal (fun m => m !! c)) in H. rewrite !lookup_fmap, Hv in H.
  destruct (avm_vcpus s !! c) as [v|]; [|done]. exists v. split; [done|]. simpl in H. by apply (inj Some) in H.
Qed.

Lemma sys_shape s s' : sys s -> inv [] s' -> shape s' = shape s -> sys s'.
Proof.
  intros [I F [Hd Hl] Hz Hk He] I' Hs.
  split; [done|by apply (full_shape s)| |by apply (known_shape s)| |].
  - split; [unfold shape in Hs; congruence|]. intros c v' Hv'.
    destruct (ident_shape s s' c v' Hs Hv') as (v & Hv & Hi). specialize (Hl c v Hv). unfold ident in Hi. congruence.
  - intros c v' Hv'. destruct (ident_shape s s' c v' Hs Hv') as (v & Hv & Hi).
    apply (known_shape s); [done|]. assert (av_id v' = av_id v) as -> by (unfold ident in Hi; congruence).
    by apply (Hk c).
  - assert (avm_emul s' = avm_emul s /\ avm_vgicr_addr s' = avm_vgicr_addr s) as [-> ->]
      by (unfold shape in Hs; split; congruence).
    eapply emul_ok_weaken; [|done]. intros id. by apply known_shape.
Qed.

Lemma sys_safe {A} (m : G A) s a s' : sys s -> safe m s -> m s = Ok (a, s') -> sys s'.
Proof. intros Hs Hm E1. unfold safe, gwp in Hm. rewrite E1 in Hm. destruct Hm. by apply (sys_shape s). Qed.

Lemma safe_unit (m : G unit) s : sys s -> safe m s -> exists s', m s = Ok (tt, s') /\ sys s'.
Proof.
  intros Hs Hm. unfold safe, gwp in Hm. destruct (m s) as [[[] s']|]; [|done]. destruct Hm.
  exists s'. split; [done|by apply (sys_shape s)].
Qed.

(** The result of an operation that can only end in one way. *)
Definition ends_with {A} (a : A) (m : G A) : Prop := forall s b s', m s = Ok (b, s') -> b = a.

Lemma ends_bind {A B} (m : G A) (k : A -> G B) b : (forall a, ends_with b (k a)) -> ends_with b (m ≫= k).
Proof.
  intros H s b' s'. unfold mbind, G_bind. destruct (m s) as [[a s1]|]; [|done]. apply H.
Qed.

Lemma ends_ret {A} (a : A) : ends_with a (mret a).
Proof. intros s b s' [= <- _]. done. Qed.

Lemma ends_fail {A} f (a : A) : ends_with a (gfail f).
Proof. intros s b s' [=]. Qed.

Lemma safe_ends {A} (m : G A) a s : sys s -> safe m s -> ends_with a m -> exists s', m s = Ok (a, s') /\ sys s'.
Proof.
  unfold safe, gwp. intros Hs Hm Ha. destruct (m s) as [[a' s']|] eqn:Em; [|done]. destruct Hm.
  rewrite (Ha _ _ _ Em). exists s'. split; [done|by apply (sys_shape s)].
Qed.

Lemma vgicd_returns s c acc :
  sys s -> has_cpu s c -> exists s', vgicd_emul_handler c acc s =
    Ok (vgic_check_reg_alignment acc (vgicd_reg_info (acc_addr acc)), s') /\ sys s'.
Proof.
  intros Hs Hc. destruct (vgic_check_reg_alignment _ _) eqn:Ha.
  - apply safe_ends; [done| |].
    + apply vgicd_handler_safe; try done; try apply Hs.
    + unfold vgicd_emul_handler. rewrite Ha. repeat (apply ends_bind; intros ?). apply ends_ret.
  - unfold vgicd_emul_handler. rewrite Ha. by exists s.
Qed.

Lemma run_gets {A B} (f : avm -> A) (k : A -> G B) s : (ggets f ≫= k) s = k (f s) s.
Proof. done. Qed.

Lemma safe_run_gets {A B} (f : avm -> A) (k : A -> G B) s : safe (ggets f ≫= k) s -> safe (k (f s)) s.
Proof. done. Qed.

Lemma vgicr_returns s c acc :
  sys s -> has_cpu s c -> known s (vgicr_get_id (avm_vgicr_addr s) acc) -> exists s', vgicr_emul_handler c acc s =
    Ok (vgic_check_reg_alignment acc (vgicr_reg_info (acc_addr acc) (avm_vgicr_addr s)), s') /\ sys s'.
Proof.
  intros Hs Hc Hk. destruct (vgic_check_reg_alignment _ _) eqn:Ha.
  - pose proof (vgicr_handler_safe s c acc (sys_inv _ Hs) Hc (sys_full _ Hs) (sys_free _ Hs) Hk Ha) as Hsafe.
    unfold vgicr_emul_handler in *. apply safe_run_gets in Hsafe. rewrite run_gets. cbv beta zeta in *.
    rewrite Ha in *. apply safe_ends; [done|done|].
    apply ends_bind; intros v. apply ends_bind; intros [t|]; [|apply ends_fail].
    apply ends_bind; intros w. destruct (av_gicr_lock w); [apply ends_fail|].
    repeat (apply ends_bind; intros ?). apply ends_ret.
  - unfold vgicr_emul_handler. rewrite run_gets. cbv beta zeta. rewrite Ha. by exists s.
Qed.

Lemma sgir_returns s c acc :
  sys s -> has_cpu s c -> exists s', vgic_icc_sgir_handler c acc s = Ok (true, s') /\ sys s'.
Proof.
  intros Hs Hc. apply safe_ends; [done|by apply sgir_safe; [apply Hs|]|].
  apply ends_bind. intros ?. apply ends_ret.
Qed.

(** ** Steps *)

(** What the guest and the hardware do to a list register: an interrupt becomes active,
    or inactive; an empty register stays empty. *)
Record lr_step (w w' : Z) : Prop := {
  ls_vid : GICH_LR_VID w' = GICH_LR_VID w;
  ls_hw : Z.land w' GICH_LR_HW_BIT = Z.land w GICH_LR_HW_BIT;
  ls_eoi : Z.land w' GICH_LR_EOI_BIT = Z.land w GICH_LR_EOI_BIT;
  ls_empty : GICH_LR_STATE w = INV -> GICH_LR_STATE w' = INV
}.

Definition put_lr (c i w : Z) (v : avcpu) (s : avm) : avm :=
  set_vcpus (<[c := set_lrs (<[Z.to_nat i := w]> (av_lrs v)) v]> (avm_vcpus s)) s.

Definition pop_event (c : Z) (rest : list cpu_msg) (s : avm) : avm :=
  set_events (<[c := rest]> (avm_events s)) s.

(** Virtual CPUs that differ in what the guest and PSCI change, and in [ICH_HCR_EL2]. *)
Record same_gic (v v' : avcpu) : Prop := {
  sg_ident : ident v' = ident v;
  sg_ints : av_ints v' = av_ints v;
  sg_lrs : av_lrs v' = av_lrs v;
  sg_curr : av_curr_lrs v' = av_curr_lrs v
}.

Definition put_vcpu (c : Z) (v : avcpu) (s : avm) : avm := set_vcpus (<[c := v]> (avm_vcpus s)) s.
Definition push_event (c : Z) (msg : cpu_msg) (s : avm) : avm :=
  set_events (<[c := events_of s c ++ [msg]]> (avm_events s)) s.

(** The steps; [step_maint] and [step_inject] under the two conditions above. *)
Inductive vstep (s : avm) : avm -> Prop :=
  | step_lr c i w w' v :
      avm_vcpus s !! c = Some v -> 0 <= i -> av_lrs v !! Z.to_nat i = Some w -> lr_step w w' -> vstep s (put_lr c i w' v s)
  | step_guest c v v' :
      avm_vcpus s !! c = Some v -> same_gic v v' -> 0 <= av_hcr v' < 2 ^ 32 -> vstep s (put_vcpu c v' s)
  | step_power c v hw i st j s' :
      avm_vcpus s !! c = Some v -> gicc_save_state hw c i s = Ok (st, s) ->
      gicc_restore_state c st s = Ok (j, s') -> vstep s s'
  | step_send c msg : msg_handler msg <> VGIC_IPI_ID -> vstep s (push_event c msg s)
  | step_gicd c acc b s' :
      has_cpu s c -> vgic_check_reg_alignment acc (vgicd_reg_info (acc_addr acc)) = true ->
      vgicd_emul_handler c acc s = Ok (b, s') -> vstep s s'
  | step_gicr c acc b s' :
      has_cpu s c -> known s (vgicr_get_id (avm_vgicr_addr s) acc) ->
      vgic_check_reg_alignment acc (vgicr_reg_info (acc_addr acc) (avm_vgicr_addr s)) = true ->
      vgicr_emul_handler c acc s = Ok (b, s') -> vstep s s'
  | step_sgir c acc b s' : has_cpu s c -> vgic_icc_sgir_handler c acc s = Ok (b, s') -> vstep s s'
  | step_sre c acc b s' : has_cpu s c -> vgic_icc_sre_handler c acc s = Ok (b, s') -> vstep s s'
  | step_inject c id u s' :
      has_cpu s c -> 0 <= id -> injectable s c id -> vgic_inject c id 0 s = Ok (u, s') -> vstep s s'
  | step_maint c u s' :
      has_cpu s c -> eoi_settled s c -> gic_maintenance_handler c s = Ok (u, s') -> vstep s s'
  | step_ipi c ev data rest u s' :
      has_cpu s c -> events_of s c = mk_msg VGIC_IPI_ID ev data :: rest ->
      vgic_ipi_handler c ev data (pop_event c rest s) = Ok (u, s') -> vstep s s'
  | step_other c msg rest :
      has_cpu s c -> events_of s c = msg :: rest -> msg_handler msg <> VGIC_IPI_ID -> vstep s (pop_event c rest s).

Lemma put_lr_sys s c i w w' v :
  sys s -> avm_vcpus s !! c = Some v -> 0 <= i -> av_lrs v !! Z.to_nat i = Some w -> lr_step w w' ->
  sys (put_lr c i w' v s).
Proof.
  intros Hs Hv Hi Hw [E1 E2 E3 E4]. pose proof (sys_inv _ Hs) as I.
  destruct (inv_vcpu _ _ I c v Hv) as (_ & _ & _ & _ & Hc).
  assert (lr_at s c i = Some w) as Hlr by (unfold lr_at; by rewrite Hv).
  destruct (inv_vcpu_mod [] s c v (set_lrs (<[Z.to_nat i := w']> (av_lrs v)) v)) as [I' Hs'].
  - done.
  - done.
  - done.
  - done.
  - simpl. by rewrite length_insert.
  - done.
  - done.
  - simpl. intros j w1 Hj Hw1 Hst. rewrite list_lookup_insert in Hw1. case_decide as Hd; [|by left].
    destruct Hd as [Hd _]. assert (j = i) as -> by lia. injection Hw1 as <-. right.
    assert (lr_recorded s c i w) as [Hn Hr] by (apply (inv_lr _ _ I); [done|done|intros He; by apply Hst, E4]).
    split; [by rewrite E1|]. by rewrite E1.
  - simpl. intros w1 Hin. apply list_elem_of_lookup in Hin as [j Hj]. rewrite list_lookup_insert in Hj.
    case_decide; [|left; by eapply list_elem_of_lookup_2]. injection Hj as <-. right. unfold eoi_shared.
    rewrite E1, E2, E3. by apply (inv_eoi _ _ I c i w).
  - by apply (sys_shape s).
Qed.

(** The messages of other parts, and those for other VMs, do not matter. *)
Lemma sys_events s m :
  sys s -> (forall c msg, has_cpu s c -> msg ∈ default [] (m !! c) ->
              msg ∈ events_of s c \/ msg_handler msg <> VGIC_IPI_ID) -> sys (set_events m s).
Proof.
  intros [I F Hl Hz Hk He] H. split; try done. destruct I as [I1 I2 I3 I4 Ie I5 I6]. split; try done.
  - intros r x Hr Hx. assert (int_ok [] s r x) as Ok by (by apply I3; destruct r). by destruct Ok.
  - intros d msg Hd Hin. destruct (H d msg Hd Hin) as [Hs|Hn]; [by apply (I5 d)|by intros Hm].
Qed.

Lemma pop_sys s c msg rest : sys s -> has_cpu s c -> events_of s c = msg :: rest -> sys (pop_event c rest s).
Proof.
  intros Hs _ He. apply sys_events; [done|]. intros d m _ Hin. left. rewrite lookup_insert in Hin.
  case_decide as Ed; [|done]. subst d. rewrite He. by right.
Qed.

Lemma push_sys s c msg : sys s -> msg_handler msg <> VGIC_IPI_ID -> sys (push_event c msg s).
Proof.
  intros Hs Hm. apply sys_events; [done|]. intros d m _ Hin. rewrite lookup_insert in Hin.
  case_decide as Ed; [|by left]. subst d. simpl in Hin. apply elem_of_app in Hin as [Hin|Hin]; [by left|].
  right. apply list_elem_of_singleton in Hin. by subst m.
Qed.

Lemma put_vcpu_sys s c v v' :
  sys s -> avm_vcpus s !! c = Some v -> same_gic v v' -> 0 <= av_hcr v' < 2 ^ 32 -> sys (put_vcpu c v' s).
Proof.
  intros Hs Hv [S1 S2 S3 S4] Hh. destruct (inv_vcpu _ _ (sys_inv _ Hs) c v Hv) as (_ & _ & _ & _ & Hc & _).
  destruct (inv_vcpu_mod [] s c v v') as [I' Hs']; [apply Hs|by rewrite ?S3, ?S4..| | | |by apply (sys_shape s)].
  - by rewrite S4.
  - intros i w _. rewrite S3. by left.
  - intros w. rewrite S3. by left.
Qed.

Lemma power_sys s c v hw i st j s' :
  sys s -> avm_vcpus s !! c = Some v -> gicc_save_state hw c i s = Ok (st, s) ->
  gicc_restore_state c st s = Ok (j, s') -> sys s'.
Proof.
  intros Hs Hv Hsave Hrest.
  assert (gwp (st ← gicc_save_state hw c i; gicc_restore_state c st) (fun _ s' => sys s') s) as Hw.
  { apply (power_wp _ _ v); [apply Hs|done|]. intros s1 I1 Hs1 _ _ _. by apply (sys_shape s). }
  apply gwp_bind_inv in Hw. unfold gwp in Hw. rewrite Hsave, Hrest in Hw. exact Hw.
Qed.

Lemma vstep_sys s s' : sys s -> vstep s s' -> sys s'.
Proof.
  intros Hs Hst. pose proof (sys_inv _ Hs) as I. pose proof (sys_full _ Hs) as Hf. pose proof (sys_free _ Hs) as Hl.
  destruct Hst as [c i w w' v|c v v' Hv Hg Hh|c v hw i st j s' Hv H1 H2|c msg Hm
    |c acc b s' Hc Ha|c acc b s' Hc Hk Ha|c acc b s' Hc|c acc b s' Hc
    |c id u s' Hc Hid Hi|c u s' Hc He|c ev data rest u s' Hc He|c msg rest Hc He _].
  - by apply (put_lr_sys _ _ _ w).
  - by apply (put_vcpu_sys _ _ v).
  - by apply (power_sys s c v hw i st j).
  - by apply push_sys.
  - eapply sys_safe; [done| |eassumption]. apply vgicd_handler_safe; [done|done|done| |apply Hl|done].
    apply (sys_known _ Hs).
  - eapply sys_safe; [done| |eassumption]. by apply vgicr_handler_safe.
  - eapply sys_safe; [done| |eassumption]. by apply sgir_safe.
  - eapply sys_safe; [done| |eassumption]. by apply sre_safe.
  - eapply sys_safe; [done| |eassumption]. by apply inject_safe.
  - eapply sys_safe; [done| |eassumption]. by apply maintenance_wp.
  - pose proof (pop_sys _ _ _ _ Hs Hc He) as Hp. eapply sys_safe; [exact Hp| |eassumption].
    apply ipi_safe; [apply Hp|done|apply Hp|]. apply (inv_msg _ _ I c); [done|]. rewrite He. by left.
  - by apply (pop_sys _ _ msg).
Qed.

(** ** Set-up *)

(** A VM whose CPUs have been assigned: nothing is in the list registers, and no message
    of the interrupt controller is on its way. *)
Record fresh_vm (s : avm) : Prop := {
  fr_vm : 0 <= avm_id s < 2 ^ 16 /\ 0 <= avm_cpus s /\ platform_cpu_num <= 8 /\
    forall i, 0 <= i -> Z.testbit (avm_cpus s) i = true -> has_cpu s i;
  fr_full : full s;
  fr_locks : locks_free s;
  fr_list c : has_cpu s c -> c ∈ avm_vcpu_list s;
  fr_cpus c : c ∈ avm_vcpu_list s -> has_cpu s c;
  fr_zero : known s 0;
  fr_vcpu c v : avm_vcpus s !! c = Some v ->
    0 <= c < platform_cpu_num /\ av_lrs v = replicate (Z.to_nat NUM_LRS) 0 /\
    av_curr_lrs v = replicate 64 0 /\ 0 <= av_hcr v < 2 ^ 32;
  fr_msg c msg : has_cpu s c -> msg ∈ events_of s c -> msg_handler msg <> VGIC_IPI_ID;
  fr_emul : avm_emul s = []
}.

(** The frames of the redistributors lie in the address space. *)
Definition frames_fit (d : gic_dscrp) (s : avm) : Prop :=
  0 <= gd_gicr_addr d /\ forall c v, avm_vcpus s !! c = Some v ->
    0 <= av_id v < 2 ^ 32 /\ gd_gicr_addr d + GICR_SIZE * (av_id v + 1) <= 2 ^ 64.

(** Every CPU of the VM sets up its own interrupts, after the master did the rest. *)
Fixpoint cpu_inits (l : list Z) : G unit :=
  match l with [] => mret tt | c :: rest => vgic_cpu_init c;; cpu_inits rest end.
Definition vgic_boot (d : gic_dscrp) : G unit :=
  vgic_init d true;; l ← ggets avm_vcpu_list; cpu_inits l.

(** The set-up on its way from [s0]: the CPUs in [D] have their interrupts. *)
Record setup (s0 : avm) (n : Z) (D : list Z) (s : avm) : Prop := {
  su_vm : avm_id s = avm_id s0 /\ avm_cpus s = avm_cpus s0 /\ avm_cpu_num s = avm_cpu_num s0 /\
    avm_vcpu_list s = avm_vcpu_list s0 /\ avm_events s = avm_events s0;
  su_vgicd : vd_lock (avm_vgicd s) = vd_lock (avm_vgicd s0) /\ vd_int_num (avm_vgicd s) = n /\
    avm_spis s = map fresh_spi (seqZ 0 n);
  su_ident : ident <$> avm_vcpus s = ident <$> avm_vcpus s0;
  su_emul : Forall (emul_ok (known s0) (avm_vgicr_addr s)) (avm_emul s);
  su_vcpu c v : avm_vcpus s !! c = Some v -> exists v0, avm_vcpus s0 !! c = Some v0 /\
    av_lrs v = av_lrs v0 /\ av_curr_lrs v = av_curr_lrs v0 /\ av_hcr v = av_hcr v0 /\
    (c ∈ D -> av_ints v = map (fresh_priv c) (seqZ 0 GIC_CPU_PRIV))
}.

Lemma setup_cpu s0 n D s c : setup s0 n D s -> has_cpu s c <-> has_cpu s0 c.
Proof.
  intros Hs. pose proof (su_ident _ _ _ _ Hs) as H. apply (f_equal (fun m => m !! c)) in H.
  rewrite !lookup_fmap in H. unfold has_cpu.
  destruct (avm_vcpus s !! c), (avm_vcpus s0 !! c); simpl in H; split; intros [? ?]; done || eauto.
Qed.

Lemma ident_lookup s0 s c v :
  ident <$> avm_vcpus s = ident <$> avm_vcpus s0 -> avm_vcpus s !! c = Some v ->
  exists v0, avm_vcpus s0 !! c = Some v0 /\ ident v = ident v0.
Proof.
  intros Hid Hv. apply (f_equal (fun m => m !! c)) in Hid. rewrite !lookup_fmap, Hv in Hid.
  destruct (avm_vcpus s0 !! c) as [v0|]; [|done]. exists v0. split; [done|]. by apply (inj Some) in Hid.
Qed.

Lemma setup_mod s0 n D D' s c v v' :
  setup s0 n D s -> avm_vcpus s !! c = Some v -> ident v' = ident v -> av_lrs v' = av_lrs v ->
  av_curr_lrs v' = av_curr_lrs v -> av_hcr v' = av_hcr v ->
  (av_ints v' = av_ints v /\ D' = D \/ av_ints v' = map (fresh_priv c) (seqZ 0 GIC_CPU_PRIV) /\ D' = c :: D) ->
  setup s0 n D' (set_vcpus (<[c := v']> (avm_vcpus s)) s).
Proof.
  intros [H1 H2 H3 He H4] Hv E1 E2 E3 E4 E5. split; [done|done| |done|].
  - simpl. by rewrite (fmap_insert_same _ _ v).
  - intros d w. simpl. rewrite lookup_insert. case_decide as Hd.
    + intros [= <-]. subst d. destruct (H4 c v Hv) as (v0 & Hv0 & L1 & L2 & L3 & L4). exists v0.
      split_and!; [done|congruence..|]. intros Hin. destruct E5 as [[-> ->]|[-> _]]; auto.
    + intros Hw. destruct (H4 d w Hw) as (v0 & Hv0 & L1 & L2 & L3 & L4). exists v0. split_and!; try done.
      intros Hin. apply L4. destruct E5 as [[_ ->]|[_ ->]]; [done|]. set_solver.
Qed.

Lemma known_own s c v : c ∈ avm_vcpu_list s -> avm_vcpus s !! c = Some v -> known s (av_id v).
Proof.
  intros Hin Hv. unfold known. induction (avm_vcpu_list s) as [|a l IH]; [set_solver|]. simpl.
  destruct (decide (a = c)) as [->|Hne]; [rewrite Hv, Z.eqb_refl; eauto|].
  assert (c ∈ l) as Hl by set_solver. destruct (avm_vcpus s !! a) as [w|]; [destruct (_ =? _); eauto|auto].
Qed.

(** The frame of one virtual CPU. *)
Lemma setup_frame d s0 n D s c v e f :
  setup s0 n D s -> frames_fit d s0 -> avm_vgicr_addr s = gd_gicr_addr d -> c ∈ avm_vcpu_list s0 ->
  avm_vcpus s !! c = Some v -> e = AEMUL_MEM (u64 (gd_gicr_addr d + GICR_SIZE * av_id v)) GICR_SIZE VGICR_EMUL ->
  f = mk_avm (avm_id s) (avm_cpus s) (avm_cpu_num s) (avm_vcpu_list s) (avm_vgicr_addr s)
        (avm_vgicd s) (avm_spis s) (avm_vcpus s) (avm_emul s ++ [e]) (avm_events s) (avm_io s) ->
  setup s0 n D f.
Proof.
  intros [H1 H2 H3 He H4] [Hb Hfit] Ha Hc Hv -> ->. split; try done. simpl. apply Forall_app. split; [done|].
  apply Forall_singleton. destruct (ident_lookup s0 s c v H3 Hv) as (v0 & Hv0 & Hi).
  assert (av_id v = av_id v0) as -> by (unfold ident in Hi; congruence).
  destruct (Hfit c v0 Hv0) as [Hid Hsz]. unfold GICR_SIZE in *. exists (av_id v0). rewrite Ha.
  rewrite (wrap_small 64 (gd_gicr_addr d + _)) by lia. split; [by apply (known_own s0 c)|].
  unfold GICR_SIZE. lia.
Qed.

Lemma gicr_init_loop_wp d s0 n l : forall s (Q : unit -> avm -> Prop),
  setup s0 n [] s -> frames_fit d s0 -> avm_vgicr_addr s = gd_gicr_addr d ->
  (forall c, c ∈ l -> c ∈ avm_vcpu_list s0 /\ has_cpu s0 c) ->
  (forall s', setup s0 n [] s' -> Q tt s') -> gwp (gicr_init_loop d l) Q s.
Proof.
  induction l as [|c l IH]; intros s Q Hs Hfit Ha Hl H; [by apply gwp_ret, H|]. simpl.
  destruct (Hl c) as [Hin Hc0]; [by left|].
  assert (has_cpu s c) as Hc by by apply (setup_cpu s0 n []).
  apply gwp_bind, aget_vcpu_wp; [done|]. intros v Hv. apply gwp_bind, gwp_gets, gwp_bind, gwp_mod.
  apply gwp_bind, (amod_vcpu_wp _ _ _ v); [done|].
  apply IH; [|done|done|intros c' Hc'; apply Hl; by right|done].
  eapply (setup_mod _ _ [] _ _ _ v); [|done|done|done|done|done|by left].
  by eapply (setup_frame d).
Qed.

Lemma cpu_inits_wp s0 n l : forall s D (Q : unit -> avm -> Prop),
  setup s0 n D s -> (forall c, c ∈ l -> has_cpu s0 c) -> (forall s', setup s0 n (rev l ++ D) s' -> Q tt s') ->
  gwp (cpu_inits l) Q s.
Proof.
  induction l as [|c l IH]; intros s D Q Hs Hl H; [by apply gwp_ret, H|].
  assert (has_cpu s c) as [v Hv] by (apply (setup_cpu s0 n D); [done|apply Hl; by left]).
  apply gwp_bind, (amod_vcpu_wp _ _ _ v); [done|]. apply (IH _ (c :: D)).
  - eapply (setup_mod _ _ D _ _ _ v); [done..|]. by right.
  - intros c' Hc'. apply Hl. by right.
  - intros s' Hs'. apply H. simpl. by rewrite <- app_assoc.
Qed.

Lemma itln_range d : 0 <= vgic_get_itln d < 32.
Proof.
  unfold vgic_get_itln, bit_extract, GICD_TYPER_ITLN_LEN. change (BIT_MASK 0 5) with (Z.ones 5).
  destruct (_ <? _); rewrite Z.land_ones by lia; apply Z.mod_pos_bound; lia.
Qed.

Lemma boot_wp s d (Q : unit -> avm -> Prop) :
  fresh_vm s -> frames_fit d s ->
  (forall s', setup s (32 * (vgic_get_itln d + 1)) (rev (avm_vcpu_list s)) s' -> Q tt s') -> gwp (vgic_boot d) Q s.
Proof.
  intros Hf Hfit H. set (n := 32 * (vgic_get_itln d + 1)) in *. unfold vgic_boot, vgic_init. cbv zeta. cbn [negb].
  fold n. apply gwp_bind, gwp_bind, gwp_mod, gwp_bind, gwp_gets. apply gwp_bind, (gicr_init_loop_wp d s n).
  - split; [done|done|done| |].
    + simpl. rewrite (fr_emul _ Hf). by apply Forall_singleton.
    + intros c v Hv. exists v. split_and!; try done. intros Hin. set_solver.
  - done.
  - done.
  - intros c Hc. split; [done|by apply (fr_cpus _ Hf)].
  - intros s1 Hs1. apply gwp_mod, gwp_bind, gwp_gets. simpl.
    destruct (su_vm _ _ _ _ Hs1) as (_ & _ & _ & El & _). rewrite El. apply (cpu_inits_wp s n _ _ []).
    + rewrite <- El. destruct Hs1 as [H1 H2 H3 He H4]. split; try done. simpl. apply Forall_app.
      split; [done|]. by repeat constructor.
    + apply (fr_cpus _ Hf).
    + intros s2 Hs2. apply H. by rewrite app_nil_r in Hs2.
Qed.

Lemma elem_of_rev {A} (a : A) l : a ∈ l -> a ∈ rev l.
Proof. induction l as [|b l IH]; simpl; set_solver. Qed.

Lemma lookup_seqZ_map {A} (f : Z -> A) n i x :
  0 <= i -> map f (seqZ 0 n) !! Z.to_nat i = Some x -> x = f i /\ i < n.
Proof.
  intros Hi H. change (map f (seqZ 0 n)) with (f <$> seqZ 0 n) in H. rewrite list_lookup_fmap in H.
  destruct (seqZ 0 n !! Z.to_nat i) as [j|] eqn:Ej; [|done]. apply lookup_seqZ in Ej as [-> Hlt].
  injection H as <-. split; [f_equal; lia|lia].
Qed.

Lemma setup_int s0 n s r x :
  32 <= n -> setup s0 n (rev (avm_vcpu_list s0)) s -> fresh_vm s0 -> valid_ref s r -> lookup_int s r = Some x ->
  x = match r with PrivInt c i => fresh_priv c i | SpiInt k => fresh_spi k end.
Proof.
  intros Hn Hs Hf Hr Hx. destruct r as [c i|k]; simpl in *.
  - destruct (avm_vcpus s !! c) as [v|] eqn:Hv; [|done]. simpl in Hx.
    destruct (su_vcpu _ _ _ _ Hs c v Hv) as (v0 & Hv0 & _ & _ & _ & Hi).
    rewrite Hi in Hx; [by apply lookup_seqZ_map in Hx as [-> _]; [|lia]|].
    apply elem_of_rev, (fr_list _ Hf). by exists v0.
  - destruct (su_vgicd _ _ _ _ Hs) as (_ & _ & E1). rewrite E1 in Hx. by apply lookup_seqZ_map in Hx as [-> _]; [|lia].
Qed.

Lemma setup_sys s0 d s :
  fresh_vm s0 -> setup s0 (32 * (vgic_get_itln d + 1)) (rev (avm_vcpu_list s0)) s -> sys s.
Proof.
  intros Hf Hs. pose proof (itln_range d) as Hit. set (n := 32 * _) in *.
  destruct (su_vm _ _ _ _ Hs) as (E1 & E2 & E3 & E4 & E5).
  destruct (su_vgicd _ _ _ _ Hs) as (V1 & V2 & V3). pose proof (su_ident _ _ _ _ Hs) as Hid.
  assert (forall c i w, 0 <= i -> lr_at s c i = Some w -> w = 0) as Hlr.
  { intros c i w Hi Hw. unfold lr_at in Hw. destruct (avm_vcpus s !! c) as [v|] eqn:Hv; [|done]. simpl in Hw.
    destruct (su_vcpu _ _ _ _ Hs c v Hv) as (v0 & Hv0 & L1 & _). rewrite L1 in Hw.
    destruct (fr_vcpu _ Hf c v0 Hv0) as (_ & L2 & _). rewrite L2 in Hw. by apply lookup_replicate in Hw as [? _]. }
  assert (forall id, known s0 id -> known s id) as Hk.
  { intros id. unfold known. rewrite E4, (find_avcpu_ident id (avm_vcpus s0) (avm_vcpus s)); done. }
  pose proof (fun c v => ident_lookup s0 s c v Hid) as Hi.
  split.
  - split.
    + intros c v Hv. destruct (su_vcpu _ _ _ _ Hs c v Hv) as (v0 & Hv0 & -> & -> & -> & Hin).
      destruct (fr_vcpu _ Hf c v0 Hv0) as (Hc & -> & -> & Hh). rewrite Hin.
      2: { apply elem_of_rev, (fr_list _ Hf). by exists v0. }
      split; [done|]. split; [by rewrite length_map, length_seqZ|]. rewrite !length_replicate.
      split; [done|]. split; [done|]. split; [|done]. by apply Forall_replicate.
    + rewrite V2, V3, length_map, length_seqZ. lia.
    + intros r x Hr Hx. rewrite (setup_int s0 n s r x) by (done || lia). destruct r as [c i|k]; simpl in Hr.
      * split; try done. by intros ? ? [= <- <-].
      * split; try done. intros k' _. by left.
    + intros c i w Hi' Hw Hst. by rewrite (Hlr c i w Hi' Hw) in Hst.
    + intros c i w Hi' Hw. rewrite (Hlr c i w Hi' Hw). apply eoi_0.
    + intros c m Hc Hin Hm. exfalso. unfold events_of in Hin. rewrite E5 in Hin.
      apply (fr_msg _ Hf c m); [by apply (setup_cpu s0 n _ s c Hs)|done|done].
    + rewrite E1, E2. destruct (fr_vm _ Hf) as (? & ? & ? & Hb). do 3 (split; [done|]).
      intros i Hi' Hbit. apply (setup_cpu s0 n _ s i Hs). by apply Hb.
  - unfold full. rewrite E2, E3. apply (fr_full _ Hf).
  - destruct (fr_locks _ Hf) as [Hd Hl]. split; [by rewrite V1|]. intros c v Hv.
    destruct (Hi c v Hv) as (v0 & Hv0 & Ev). specialize (Hl c v0 Hv0). unfold ident in Ev. congruence.
  - apply Hk, (fr_zero _ Hf).
  - intros c v Hv. destruct (Hi c v Hv) as (v0 & Hv0 & Ev). apply Hk.
    assert (av_id v = av_id v0) as -> by (unfold ident in Ev; congruence).
    apply (known_own s0 c); [|done]. apply (fr_list _ Hf). by exists v0.
  - eapply emul_ok_weaken; [exact Hk|]. apply (su_emul _ _ _ _ Hs).
Qed.

(** ** Reachability *)
Inductive vreach : avm -> Prop :=
  | reach_boot d s u s' : fresh_vm s -> frames_fit d s -> vgic_boot d s = Ok (u, s') -> vreach s'
  | reach_step s s' : vreach s -> vstep s s' -> vreach s'.

Lemma vreach_sys s : vreach s -> sys s.
Proof.
  induction 1 as [d s u s' Hf Hfit Hb|s s' _ IH Hst]; [|by apply (vstep_sys s)].
  assert (gwp (vgic_boot d) (fun _ s' => sys s') s) as Hw by (apply boot_wp; [done|done|intros; by apply (setup_sys s d)]).
  unfold gwp in Hw. by rewrite Hb in Hw.
Qed.

End Reach.
