(* ===== verification/VgicDemo.v ===== *)
(** * A VM with a virtual interrupt controller of ARMv8

    A platform with two CPUs and four list registers that meets the laws of the hardware,
    and a VM on it that is set up, routes an interrupt and makes it pending: the inputs
    of the witnesses. *)

From S2P Require Import Prelude Bit Bitmap CpuMsg State Calls Gic Arm GicCpu Vgic VgicInv VgicLr VgicMove VgicField VgicEmul VgicMaint VgicSys GicPower VgicReach.

(** ** A VM with two CPUs *)
Definition demo_mask (p : Z -> bool) (lrs : list Z) : Z :=
  foldr (fun i m => Z.lor m (if match lrs !! Z.to_nat i with Some lr => p lr | None => false end
                             then Z.shiftl 1 i else 0)) 0 (seqZ 0 4).

Definition demo_env : GicEnv :=
  Build_GicEnv 4 (demo_mask lr_empty) (demo_mask lr_eoi) (fun _ _ => 7) (fun c => c) 1 0 (fun _ => 0)
    (fun _ => 0) (fun _ _ => 0) 3 4 2 [] (fun _ _ => 0).

Lemma demo_mask_testbit p lrs i :
  0 <= i < 4 ->
  Z.testbit (demo_mask p lrs) i = match lrs !! Z.to_nat i with Some lr => p lr | None => false end.
Proof.
  intros Hi. unfold demo_mask. change (seqZ 0 4) with [0; 1; 2; 3]. cbn [foldr].
  assert (forall j (b : bool), 0 <= j -> Z.testbit (if b then Z.shiftl 1 j else 0) i = b && (i =? j)) as Hb.
  { intros j b Hj. destruct b; [by apply shiftl_1_testbit; lia|by rewrite Z.bits_0]. }
  rewrite !Z.lor_spec, !Hb, Z.bits_0 by lia.
  assert (i = 0 \/ i = 1 \/ i = 2 \/ i = 3) as [->|[->|[->| ->]]] by lia; cbn [Z.eqb Pos.eqb];
    by rewrite ?andb_false_r, ?andb_true_r, ?orb_false_r, ?orb_false_l.
Qed.

Lemma demo_mask_range p lrs : 0 <= demo_mask p lrs < 2 ^ 64.
Proof.
  unfold demo_mask. change (seqZ 0 4) with [0; 1; 2; 3]. cbn [foldr].
  repeat match goal with |- context [if ?b then _ else 0] => generalize b; intros [] end; by vm_compute.
Qed.

#[export] Instance demo_gic : GicEnv := demo_env.
#[export] Instance demo_laws : GicLaws.
Proof.
  split; [done|intros; by apply demo_mask_testbit|intros; by apply demo_mask_testbit| |];
    intros; apply demo_mask_range.
Qed.
#[export] Instance demo_cluster : OneCluster.
Proof. by left. Qed.

Definition demo_vcpu (id : Z) : avcpu :=
  mk_avcpu id id ∅ 0 (mk_guest_sys 0 0 0 0 0) (mk_psci 0 0 ON) false 0 (replicate 64 0) [] (replicate 4 0) 0.
Definition demo_vm : avm :=
  mk_avm 1 3 2 [0; 1] 0 (mk_vgicd false 0 0 0 0) [] (<[0 := demo_vcpu 0]> (<[1 := demo_vcpu 1]> ∅)) [] ∅ [].
Definition demo_dscrp : gic_dscrp := mk_gic_dscrp 0x8000000 0x80a0000 64.

(** Running an operation that returns. *)
Definition after {A} (m : G A) (s : avm) : avm := match m s with Ok (_, s') => s' | Fault _ => s end.

Lemma gwp_after {A} (m : G A) (Q : A -> avm -> Prop) s : gwp m Q s -> exists a, m s = Ok (a, after m s) /\ Q a (after m s).
Proof. unfold gwp, after. destruct (m s) as [[a s']|]; [eauto|done]. Qed.

Lemma safe_after {A} (m : G A) s : safe m s -> exists a, m s = Ok (a, after m s).
Proof. intros H. destruct (gwp_after _ _ _ H) as (a & Ha & _). by exists a. Qed.

Definition wr_acc (off width : Z) : emul_access := mk_acc (0x8000000 + off) true false width 1 8.

(** The guest of the CPU [c] writes [val] to the distributor register at [off]. *)
Definition guest_write (c off width val : Z) (s : avm) : avm :=
  match avm_vcpus s !! c with
  | Some v =>
      after (vgicd_emul_handler c (wr_acc off width))
        (set_vcpus (<[c := set_hcr 0 (set_aregs {[1 := val]} v)]> (avm_vcpus s)) s)
  | None => s
  end.

Lemma guest_write_reach c off width val s :
  vgic_check_reg_alignment (wr_acc off width) (vgicd_reg_info (acc_addr (wr_acc off width))) = true ->
  vreach s -> vreach (guest_write c off width val s).
Proof.
  intros Ha Hr. unfold guest_write. destruct (avm_vcpus s !! c) as [v|] eqn:Hv; [|done].
  set (s1 := set_vcpus _ s). assert (vreach s1) as H1.
  { eapply reach_step; [exact Hr|]. by apply (step_guest s c v). }
  assert (has_cpu s1 c) as Hc by (unfold s1, has_cpu; simpl; rewrite lookup_insert_eq; eauto).
  pose proof (vreach_sys _ H1) as Hs.
  destruct (safe_after (vgicd_emul_handler c (wr_acc off width)) s1) as [a Hok].
  { apply vgicd_handler_safe; try done; try apply Hs. }
  eapply reach_step; [exact H1|]. by apply (step_gicd s1 c (wr_acc off width) a).
Qed.

Lemma demo_fresh : fresh_vm demo_vm.
Proof.
  assert (forall c v, avm_vcpus demo_vm !! c = Some v -> c = 0 /\ v = demo_vcpu 0 \/ c = 1 /\ v = demo_vcpu 1) as Hv.
  { intros c v. unfold demo_vm. cbn [avm_vcpus]. rewrite !lookup_insert. case_decide; [intros [= <-]; auto|].
    case_decide; [intros [= <-]; auto|done]. }
  split.
  - split; [done|]. split; [done|]. split; [done|]. intros i Hi Hb.
    assert (i = 0 \/ i = 1) as [-> | ->]; [|by eexists..].
    destruct (decide (i < 2)); [lia|]. change (avm_cpus demo_vm) with 3 in Hb. rewrite (bits_small 3 2) in Hb; [done|lia|lia].
  - done.
  - split; [done|]. intros c v Hc. by destruct (Hv c v Hc) as [[_ ->]|[_ ->]].
  - intros c [v Hc]. destruct (Hv c v Hc) as [[-> _]|[-> _]]; simpl; set_solver.
  - intros c Hc. simpl in Hc. assert (c = 0 \/ c = 1) as [-> | ->] by set_solver; by eexists.
  - by eexists.
  - intros c v Hc. by destruct (Hv c v Hc) as [[-> ->]|[-> ->]].
  - intros c m _ Hm. unfold events_of, demo_vm in Hm. simpl in Hm. set_solver.
  - done.
Qed.

Lemma demo_frames : frames_fit demo_dscrp demo_vm.
Proof.
  split; [done|]. intros c v. unfold demo_vm. cbn [avm_vcpus]. rewrite !lookup_insert.
  case_decide; [by intros [= <-]|]. case_decide; [by intros [= <-]|done].
Qed.

Definition demo_boot : avm := after (vgic_boot demo_dscrp) demo_vm.

Lemma demo_boot_reach : vreach demo_boot.
Proof.
  destruct (gwp_after (vgic_boot demo_dscrp) (fun _ _ => True) demo_vm) as (a & Ha & _).
  { by apply boot_wp; [apply demo_fresh|apply demo_frames|]. }
  eapply reach_boot; [apply demo_fresh|apply demo_frames|exact Ha].
Qed.

(** Interrupt 40 is routed to the first CPU, enabled there, and made pending. *)
Definition demo_on : avm := guest_write 0 0x104 4 0x100 (guest_write 0 0x6140 8 0 demo_boot).
Definition demo_pend : avm := guest_write 0 0x204 4 0x100 demo_on.

Lemma demo_on_reach : vreach demo_on.
Proof. apply guest_write_reach; [done|]. apply guest_write_reach; [done|]. apply demo_boot_reach. Qed.

Lemma demo_pend_reach : vreach demo_pend.
Proof. apply guest_write_reach; [done|]. apply demo_on_reach. Qed.

Example demo_pend_lr :
  (w ← lr_at demo_pend 0 0; Some (GICH_LR_VID w, GICH_LR_STATE w)) = Some (40, PEND).
Proof. by vm_compute. Qed.
