(* ===== verification/VgicProps.v ===== *)
(** * What the virtual interrupt controller of ARMv8 guarantees

    The theorems about [vgic.c] and [vgicv3.c], each applied to the VM of VgicDemo.v. *)

From S2P Require Import Prelude Bit Bitmap CpuMsg State Calls Gic Arm GicCpu Vgic VgicInv VgicLr VgicMove VgicField VgicEmul VgicMaint VgicSys GicPower VgicReach VgicDemo.

Section Guarantees.
Context (E : GicEnv) {L : GicLaws} {C : OneCluster}.






(** C35. What [vgic_write_lr] puts into a list register is found again: the number, the
    priority and the state of the interrupt, whether it is a hardware interrupt and then
    its physical number, and otherwise whether its end is reported (a shared interrupt). *)
Theorem lr_roundtrip x state :
  0 <= state < 4 -> 0 <= vi_id x < 1024 -> 0 <= vi_prio x < 256 ->
  let lr := make_lr x state in
  GICH_LR_VID lr = vi_id x /\ GICH_LR_PRIO lr = vi_prio x /\
  GICH_LR_STATE lr = (if vgic_int_is_hw x && (state =? PENDACT) then ACT else state) /\
  Z.testbit lr 61 = vgic_int_is_hw x /\
  (vgic_int_is_hw x = true -> bit_extract lr GICH_LR_PID_OFF GICH_LR_PID_LEN = vi_id x) /\
  (vgic_int_is_hw x = false -> Z.testbit lr 41 = negb (gic_is_priv (vi_id x))).
Proof.
  intros Hst Hid Hp. cbv zeta. split; [by apply make_lr_vid|]. split; [by apply make_lr_prio|].
  split; [by apply make_lr_state|]. destruct (make_lr_flags x state Hst) as (H1 & H2 & H3).
  split; [done|]. split; [|done]. intros Hh. rewrite (H3 Hh). change (2 ^ 10 - 1) with (Z.ones 10).
  rewrite Z.land_ones, Z.mod_small by lia. done.
Qed.

(** The message one CPU sends another about an interrupt is read back as it was
    written: the VM, the redistributor, the interrupt, the register and the value, where
    each fits its field. *)
Theorem vgic_msg_roundtrip vmid vgicrid int_id reg val :
  0 <= vmid < 2 ^ 16 -> 0 <= vgicrid < 2 ^ 16 -> 0 <= int_id < 2 ^ 15 -> 0 <= reg < 2 ^ 8 -> 0 <= val < 2 ^ 8 ->
  let data := VGIC_MSG_DATA vmid vgicrid int_id reg val in
  VGIC_MSG_VM data = vmid /\ VGIC_MSG_VGICRID data = vgicrid /\ VGIC_MSG_INTID data = int_id /\
  VGIC_MSG_REG data = reg /\ VGIC_MSG_VAL data = val.
Proof.
  intros H1 H2 H3 H4 H5. cbv zeta. rewrite msg_vm, msg_vgicrid, msg_intid, msg_reg, msg_val by done.
  change 0xffff with (Z.ones 16). change 0x7fff with (Z.ones 15). change 0xff with (Z.ones 8).
  by rewrite !Z.land_ones, !Z.mod_small by lia.
Qed.

(** A CPU that powers down and comes back finds its list registers empty: the invariant
    holds, but what was pending or active there is forgotten. *)
Theorem power_down_forgets s c hw i :
  vreach s -> has_cpu s c -> exists j s',
    (st ← gicc_save_state hw c i; gicc_restore_state c st) s = Ok (j, s') /\ vreach s' /\
    icc_PMR j = u32 (icc_PMR i) /\ icc_BPR1 j = u32 (icc_BPR1 i) /\
    (forall r, lookup_int s' r = lookup_int s r) /\
    (forall n w, lr_at s' c n = Some w -> GICH_LR_STATE w = INV) /\
    (forall d n, d <> c -> lr_at s' d n = lr_at s d n).
Proof.
  intros Hr [v Hv]. pose proof (sys_inv _ (vreach_sys _ Hr)) as I.
  destruct (gwp_ok (st ← gicc_save_state hw c i; gicc_restore_state c st) (fun j s' =>
    icc_PMR j = u32 (icc_PMR i) /\ icc_BPR1 j = u32 (icc_BPR1 i) /\
    (forall r, lookup_int s' r = lookup_int s r) /\
    (forall n w, lr_at s' c n = Some w -> GICH_LR_STATE w = INV) /\
    (forall d n, d <> c -> lr_at s' d n = lr_at s d n)) s) as (j & s' & Es & R).
  { apply (power_wp _ _ v); [done|done|]. intros s' _ _ _ Hl Hlr. split; [done|]. split; [done|]. split; [done|]. split.
    - intros n w. rewrite Hlr, Z.eqb_refl. destruct (lr_at s c n); [|done]. intros [= <-]. apply u32_state.
    - intros d n Hd. rewrite Hlr. by replace (d =? c) with false by lia. }
  exists j, s'. split; [done|]. split; [|done]. pose proof (save_run hw c i s v I Hv) as Hsv.
  eapply reach_step; [done|]. apply (step_power s c v hw i (saved hw c i v) j); [done|done|].
  unfold mbind, G_bind in Es. by rewrite Hsv in Es.
Qed.

End Guarantees.

(** ** The guarantees on the VM of VgicDemo.v *)
Definition demo_lr : Z := default 0 (lr_at demo_pend 0 0).
Definition demo_int (s : avm) : vgic_int := default (fresh_spi 8) (lookup_int s (SpiInt 8)).

Lemma demo_pend_lr0 : lr_at demo_pend 0 0 = Some demo_lr.
Proof. unfold demo_lr. destruct (lr_at demo_pend 0 0) eqn:El; [done|]. by vm_compute in El. Qed.

Lemma demo_lr_fields : GICH_LR_VID demo_lr = 40 /\ GICH_LR_STATE demo_lr = PEND.
Proof. split; by vm_compute. Qed.

Lemma demo_pend_cpu c : c = 0 \/ c = 1 -> has_cpu demo_pend c.
Proof.
  intros Hc. unfold has_cpu. destruct (avm_vcpus demo_pend !! c) eqn:Ev; [by eexists|].
  by destruct Hc as [-> | ->]; vm_compute in Ev.
Qed.

Lemma demo_on_cpu c : c = 0 \/ c = 1 -> has_cpu demo_on c.
Proof.
  intros Hc. unfold has_cpu. destruct (avm_vcpus demo_on !! c) eqn:Ev; [by eexists|].
  by destruct Hc as [-> | ->]; vm_compute in Ev.
Qed.






Lemma lr_roundtrip_witness :
  GICH_LR_VID (make_lr (demo_int demo_on) PENDACT) = 40 /\ GICH_LR_STATE (make_lr (demo_int demo_on) PENDACT) = PENDACT.
Proof.
  destruct (lr_roundtrip (demo_int demo_on) PENDACT) as (H1 & _ & H2 & _);
    [done|vm_compute; split; congruence|vm_compute; split; congruence|].
  rewrite H1, H2. split; by vm_compute.
Defined.

Lemma vgic_msg_roundtrip_witness :
  VGIC_MSG_VM (VGIC_MSG_DATA 3 1 40 8 200) = 3 /\ VGIC_MSG_INTID (VGIC_MSG_DATA 3 1 40 8 200) = 40.
Proof.
  destruct (vgic_msg_roundtrip 3 1 40 8 200) as (H1 & _ & H2 & _); [lia..|]. by split.
Defined.

(** ** An interrupt lost when the CPU powers down *)
Definition demo_off : avm :=
  after (st ← gicc_save_state (fun _ => 0) 0 (mk_icc 1 255 0 2 1); gicc_restore_state 0 st) demo_pend.

Lemma power_down_forgets_witness :
  vreach demo_off /\ virt_state demo_pend (SpiInt 8) = PEND /\ virt_state demo_off (SpiInt 8) = INV.
Proof.
  destruct (power_down_forgets demo_gic demo_pend 0 (fun _ => 0) (mk_icc 1 255 0 2 1)) as (j & s' & Es & Hr & _);
    [apply demo_pend_reach|apply demo_pend_cpu; by left|]. unfold demo_off, after. rewrite Es. split; [exact Hr|].
  split; [by vm_compute|]. assert (s' = demo_off) as -> by (unfold demo_off, after; by rewrite Es). by vm_compute.
Defined.

(** ** An end of an interrupt that is handled late

    [gic_maintenance_handler] needs [eoi_settled]: [vgic_remove_lr] forgets an interrupt
    whose list register reports its end, without clearing the register, and
    [vgic_handle_trapped_eoir] then marks the interrupt as outside the list registers
    although it may be in another one by then. *)
Definition lr_ended (w : Z) : Z := Z.ldiff w GICH_LR_STATE_MSK.

(** The guest ends interrupt 40 and makes it pending again before the maintenance
    interrupt arrives; once that is handled, it makes it pending a third time. *)
Definition race_ended : avm :=
  match avm_vcpus demo_pend !! 0 with Some v => put_lr 0 0 (lr_ended demo_lr) v demo_pend | None => demo_pend end.
Definition race_again : avm := guest_write 0 0x204 4 0x100 race_ended.
Definition race_handled : avm := after (gic_maintenance_handler 0) race_again.
Definition race_double : avm := guest_write 0 0x204 4 0x100 race_handled.

Lemma race_again_reach : vreach race_again.
Proof.
  apply guest_write_reach; [done|]. unfold race_ended. destruct (avm_vcpus demo_pend !! 0) as [v|] eqn:Ev.
  - eapply reach_step; [apply demo_pend_reach|]. apply (step_lr demo_pend 0 0 demo_lr); [exact Ev|lia| |].
    + pose proof demo_pend_lr0 as Hl. unfold lr_at in Hl. rewrite Ev in Hl. exact Hl.
    + split; [by vm_compute..|]. intros _. by vm_compute.
  - apply demo_pend_reach.
Qed.

(** The interrupt is then pending in two list registers. *)
Theorem late_eoi_two_registers :
  vreach race_again /\
  (w ← lr_at race_double 0 0; Some (GICH_LR_VID w, GICH_LR_STATE w)) = Some (40, PEND) /\
  (w ← lr_at race_double 0 1; Some (GICH_LR_VID w, GICH_LR_STATE w)) = Some (40, PEND).
Proof. split; [exact race_again_reach|]. split; by vm_compute. Qed.

(** ** A guest that hangs the hypervisor after such an end

    Interrupt 40 has a priority other than zero this time, so that it can be spilled. *)
Definition hang_pend : avm := guest_write 0 0x428 4 0x80 demo_pend.
Definition hang_lr (s : avm) (i : Z) (f : Z -> Z) : avm :=
  match avm_vcpus s !! 0, lr_at s 0 i with Some v, Some w => put_lr 0 i (f w) v s | _, _ => s end.

(** The guest ends the interrupt and makes it pending again. *)
Definition hang_ended : avm := hang_lr hang_pend 0 lr_ended.
Definition hang_again : avm := guest_write 0 0x204 4 0x100 hang_ended.

(** The maintenance interrupt is handled late; interrupts 41, 42 and 43 fill the other
    list registers; the guest acknowledges interrupt 40. *)
Definition hang_handled : avm := after (gic_maintenance_handler 0) hang_again.
Definition hang_full : avm :=
  guest_write 0 0x204 4 0xe00 (guest_write 0 0x104 4 0xe00
    (guest_write 0 0x6158 8 0 (guest_write 0 0x6150 8 0 (guest_write 0 0x6148 8 0 hang_handled)))).
Definition lr_acked (w : Z) : Z := Z.lor (Z.ldiff w GICH_LR_STATE_MSK) GICH_LR_STATE_ACT.
Definition hang_acked : avm := hang_lr hang_full 1 lr_acked.
(** The value that the guest writes to [GICD_ISPENDR1]. *)
Definition hang_write : avm :=
  match avm_vcpus hang_acked !! 0 with
  | Some v => put_vcpu 0 (set_aregs {[1 := 0x100]} v) hang_acked
  | None => hang_acked
  end.
Definition hang_lrs (s : avm) : list (Z * Z) :=
  match avm_vcpus s !! 0 with Some v => (fun w => (GICH_LR_VID w, GICH_LR_STATE w)) <$> av_lrs v | None => [] end.

Lemma hang_again_reach : vreach hang_again.
Proof.
  assert (vreach hang_pend) as Hp by by apply guest_write_reach, demo_pend_reach.
  apply guest_write_reach; [done|]. unfold hang_ended, hang_lr.
  destruct (avm_vcpus hang_pend !! 0) as [v|] eqn:Ev; [|exact Hp].
  destruct (lr_at hang_pend 0 0) as [w|] eqn:Ew; [|exact Hp].
  assert (lr_step w (lr_ended w)) as Hw.
  { vm_compute in Ew. injection Ew as <-. split; [by vm_compute..|]. intros _. by vm_compute. }
  eapply reach_step; [exact Hp|]. apply (step_lr hang_pend 0 0 w); [exact Ev|lia| |exact Hw].
  unfold lr_at in Ew. by rewrite Ev in Ew.
Qed.

(** When the guest makes the interrupt pending once more, no list register is empty,
    [vgic_add_lr] chooses the one that holds the interrupt itself, and takes the lock
    that [vgic_int_set_field] already holds. *)
Theorem late_eoi_hangs :
  vreach hang_again /\ (exists s, gic_maintenance_handler 0 hang_again = Ok (tt, s)) /\
  hang_lrs hang_again = [(40, INV); (40, PEND); (0, INV); (0, INV)] /\
  hang_lrs hang_acked = [(41, PEND); (40, ACT); (42, PEND); (43, PEND)] /\
  vgicd_emul_handler 0 (wr_acc 0x204 4) hang_write = Fault Hang.
Proof.
  split; [exact hang_again_reach|]. split; [|split_and!; by vm_compute].
  destruct (gic_maintenance_handler 0 hang_again) as [[[] s]|f] eqn:E; [by exists s|by vm_compute in E].
Qed.
