(* ===== verification/VgicQuiet.v ===== *)
(** * What the virtual interrupt controller of ARMv8 leaves alone

    The operations on interrupts change neither the program counter nor the PSCI state of
    a virtual CPU, and the handler of a message sends no message to the CPU that runs it,
    whatever state they start in. [calm o m]: a run of [m] that returns does so, and adds
    nothing to the messages of the CPU [o]. *)

From S2P Require Import Prelude Bit Bitmap CpuMsg State Calls Gic Arm Vgic VgicInv VgicLr VgicMove VgicEmul.

Definition core (v : avcpu) : Z * psci_ctx * Z := (av_elr v, av_psci v, av_id v).

Definition still (o : option Z) (s s' : avm) : Prop :=
  (forall d, core <$> avm_vcpus s' !! d = core <$> avm_vcpus s !! d) /\
  (forall c, o = Some c -> events_of s' c = events_of s c).

#[export] Instance still_preorder o : PreOrder (still o).
Proof.
  split; [by split|]. intros s1 s2 s3 [H1 H2] [H3 H4]. split.
  - intros d. by rewrite H3, H1.
  - intros c Hc. by rewrite H4, H2.
Qed.

Definition calm {A} (o : option Z) (m : G A) : Prop := forall s a s', m s = Ok (a, s') -> still o s s'.

Create HintDb calm.

Section Quiet.
Context `{E : GicEnv}.

(** ** Programs *)
Lemma calm_bind {A B} o (m : G A) (k : A -> G B) : calm o m -> (forall a, calm o (k a)) -> calm o (m ≫= k).
Proof.
  intros Hm Hk s b s' H. unfold mbind, G_bind in H. destruct (m s) as [[a s1]|] eqn:E1; [|done].
  transitivity s1; [by apply (Hm _ a)|by apply (Hk a _ b)].
Qed.

Lemma calm_ret {A} o (a : A) : calm o (mret a).
Proof. by intros s b s' [= _ <-]. Qed.

Lemma calm_fail {A} o f : calm o (gfail f : G A).
Proof. by intros s b s'. Qed.

Lemma calm_gets {A} o (f : avm -> A) : calm o (ggets f).
Proof. by intros s b s' [= _ <-]. Qed.

Lemma calm_lift {A} o (r : res A) : calm o (glift r).
Proof. destruct r; [apply calm_ret|apply calm_fail]. Qed.

Lemma calm_aget o c : calm o (aget_vcpu c).
Proof. intros s b s'. unfold aget_vcpu. destruct (_ !! _); [by intros [= _ <-]|done]. Qed.

Lemma calm_get o r : calm o (get_int r).
Proof. intros s b s'. unfold get_int. destruct (lookup_int _ _); [by intros [= _ <-]|done]. Qed.

Lemma still_put_vcpu o s c v v' :
  avm_vcpus s !! c = Some v -> core v' = core v -> still o s (set_vcpus (<[c := v']> (avm_vcpus s)) s).
Proof.
  intros Hv Hc. split; [|done]. intros d. simpl. rewrite lookup_insert. case_decide as Hd; [|done].
  subst d. rewrite Hv. simpl. by rewrite Hc.
Qed.

Lemma calm_amod o c f : (forall v, core (f v) = core v) -> calm o (amod_vcpu c f).
Proof.
  intros Hf s b s'. unfold amod_vcpu, mbind, G_bind, aget_vcpu. destruct (_ !! _) as [v|] eqn:Hv; [|done].
  intros [= _ <-]. by apply (still_put_vcpu _ _ _ v).
Qed.

Lemma calm_put o r x : calm o (put_int r x).
Proof.
  intros s b s' [= _ <-]. destruct r as [c n|k]; simpl; [|by split].
  destruct (avm_vcpus s !! c) as [v|] eqn:Hv; [|done]. by apply (still_put_vcpu _ _ _ v).
Qed.

Lemma calm_io o f : calm o (aio f).
Proof. by intros s b s' [= _ <-]. Qed.

Lemma calm_vgicd o d : calm o (gmod (set_vgicd d)).
Proof. by intros s b s' [= _ <-]. Qed.

Lemma calm_send o d msg : o <> Some d -> calm o (Arm.cpu_send_msg d msg).
Proof.
  intros Hd s b s' [= _ <-]. split; [done|]. intros c ->. unfold events_of. simpl.
  rewrite lookup_insert_ne; [done|]. congruence.
Qed.

Lemma calm_when o b m : calm o m -> calm o (gwhen b m).
Proof. intros H. destruct b; [done|apply calm_ret]. Qed.

End Quiet.

#[export] Hint Resolve calm_ret calm_fail calm_gets calm_lift calm_aget calm_get calm_put calm_io calm_vgicd : calm.

(** One operation after another, each alternative of the choices, and what is known of the
    operations that are called. *)
Ltac calm :=
  repeat (cbv zeta; match goal with
    | |- calm _ (match ?x with _ => _ end) => destruct x
    | |- calm _ (gwhen _ _) => apply calm_when
    | |- calm _ (GERROR _) => apply calm_fail
    | |- calm _ (amod_vcpu _ _) => apply calm_amod; done
    | |- calm _ (mbind _ _) => apply calm_bind; [|intros]
    | |- calm _ _ => solve [auto with calm nocore]
    end).

Section Operations.
Context `{E : GicEnv}.

(** ** Interrupts and list registers *)
Lemma calm_upd o r f : calm o (upd_int r f).
Proof. unfold upd_int. calm. Qed.
#[local] Hint Resolve calm_upd : calm.

Lemma calm_lock o r : calm o (int_lock r).
Proof. unfold int_lock. calm. Qed.
Lemma calm_unlock o r : calm o (int_unlock r).
Proof. unfold int_unlock. calm. Qed.
Lemma calm_read_lr o c i : calm o (gich_read_lr c i).
Proof. unfold gich_read_lr. calm. Qed.
Lemma calm_write_lr o c i w : calm o (gich_write_lr c i w).
Proof. unfold gich_write_lr. calm. Qed.
Lemma calm_get_hcr o c : calm o (gich_get_hcr c).
Proof. unfold gich_get_hcr. calm. Qed.
Lemma calm_set_hcr o c h : calm o (gich_set_hcr c h).
Proof. unfold gich_set_hcr. calm. Qed.
Lemma calm_elrsr o c : calm o (gich_get_elrsr c).
Proof. unfold gich_get_elrsr. calm. Qed.
Lemma calm_eisr o c : calm o (gich_get_eisr c).
Proof. unfold gich_get_eisr. calm. Qed.
Lemma calm_misr o c : calm o (gich_get_misr c).
Proof. unfold gich_get_misr. calm. Qed.
Lemma calm_readreg o c n : calm o (Arm.vcpu_readreg c n).
Proof. unfold Arm.vcpu_readreg. calm. Qed.
Lemma calm_writereg o c n w : calm o (Arm.vcpu_writereg c n w).
Proof. unfold Arm.vcpu_writereg. calm. Qed.
#[local] Hint Resolve calm_lock calm_unlock calm_read_lr calm_write_lr calm_get_hcr calm_set_hcr calm_elrsr
  calm_eisr calm_misr calm_readreg calm_writereg : calm.

Lemma calm_get_vcpu o id : calm o (gvm_get_vcpu id).
Proof. apply calm_gets. Qed.
Lemma calm_by_mpidr o m : calm o (vm_get_vcpu_by_mpidr m).
Proof. apply calm_gets. Qed.
#[local] Hint Resolve calm_get_vcpu calm_by_mpidr : calm.
Lemma calm_vgic_get_int o c n id : calm o (vgic_get_int c n id).
Proof. unfold vgic_get_int. calm. Qed.
Lemma calm_get_lr o c x : calm o (gich_get_lr c x).
Proof. unfold gich_get_lr. calm. Qed.
#[local] Hint Resolve calm_vgic_get_int calm_get_lr : calm.
Lemma calm_get_state o c x : calm o (vgic_get_state c x).
Proof. unfold vgic_get_state. calm. Qed.
#[local] Hint Resolve calm_get_state : calm.
Lemma calm_get_ownership o c r : calm o (vgic_get_ownership c r).
Proof. unfold vgic_get_ownership. calm. Qed.
Lemma calm_yield o c r : calm o (vgic_yield_ownership c r).
Proof. unfold vgic_yield_ownership. calm. Qed.
#[local] Hint Resolve calm_get_ownership calm_yield : calm.

Lemma calm_ptarget o c x : calm o (vgic_int_ptarget_mask c x).
Proof. unfold vgic_int_ptarget_mask. calm. Qed.
Lemma calm_release_prev o c i n : calm o (release_prev c i n).
Proof. unfold release_prev. calm. Qed.
Lemma calm_npie o c : calm o (enable_npie c).
Proof. unfold enable_npie. calm. Qed.
#[local] Hint Resolve calm_ptarget calm_release_prev calm_npie : calm.
Lemma calm_vgic_write_lr o c r i : calm o (vgic_write_lr c r i).
Proof. unfold vgic_write_lr. calm. Qed.
Lemma calm_remove_lr o c r : calm o (vgic_remove_lr c r).
Proof. unfold vgic_remove_lr. calm. Qed.
Lemma calm_scan o c k : forall sc i, calm o (scan_lrs c sc i k).
Proof. induction k as [|k IH]; intros sc i; simpl; calm. Qed.
#[local] Hint Resolve calm_vgic_write_lr calm_remove_lr calm_scan : calm.
Lemma calm_spill o c : calm o (spill_lr c).
Proof. unfold spill_lr. calm. Qed.
#[local] Hint Resolve calm_spill : calm.
Lemma calm_add_lr o c r : calm o (vgic_add_lr c r).
Proof. unfold vgic_add_lr. calm. Qed.
#[local] Hint Resolve calm_add_lr : calm.

(** ** Messages *)
Lemma calm_send_mask o mask msg k : forall i, 0 <= i ->
  (forall j, i <= j < i + Z.of_nat k -> j < 64 -> Z.testbit mask j = true -> o <> Some j) ->
  i + Z.of_nat k <= 64 -> calm o (send_mask mask msg i k).
Proof.
  induction k as [|k IH]; intros i Hi Hm Hk; [apply calm_ret|]. simpl. apply calm_bind; [|intros; apply IH; [lia| |lia]].
  - destruct (negb _) eqn:Hb; [|apply calm_ret]. simpl. apply calm_send.
    change (Z.land mask (u64 (Z.shiftl 1 i))) with (bit_get mask i) in Hb. rewrite bit_get_testbit in Hb by lia.
    apply (Hm i); [lia|lia|done].
  - intros j Hj. apply Hm. lia.
Qed.

Lemma calm_none_send msg d : calm None (Arm.cpu_send_msg d msg).
Proof. by apply calm_send. Qed.
Lemma calm_none_mask mask msg k : forall i, calm None (send_mask mask msg i k).
Proof. induction k as [|k IH]; intros i; [apply calm_ret|]. simpl. apply calm_bind; [apply calm_when, calm_none_send|auto]. Qed.
#[local] Hint Resolve calm_none_send calm_none_mask : calm.

(** The mask of a route does not have the CPU itself. *)
Lemma calm_others o c mask msg :
  o = None \/ o = Some c -> 0 <= c < 64 -> platform_cpu_num <= 64 ->
  calm o (send_mask (Z.land mask (Z.lnot (u64 (Z.shiftl 1 c)))) msg 0 (Z.to_nat platform_cpu_num)).
Proof.
  intros Ho Hc Hn. apply calm_send_mask; [lia| |lia]. intros j Hj _ Hb [= ->]. destruct Ho as [|Ho]; [done|].
  injection Ho as ->. rewrite Z.land_spec, Z.lnot_spec, wrap_testbit, shiftl_1_testbit, Z.eqb_refl in Hb by lia.
  replace (c <? 64) with true in Hb by lia. by rewrite andb_false_r in Hb.
Qed.

Lemma calm_route o c r :
  o = None \/ o = Some c -> 0 <= c < 64 -> platform_cpu_num <= 64 -> calm o (vgic_route c r).
Proof. intros Ho Hc Hn. unfold vgic_route. calm. by apply calm_others. Qed.

Lemma calm_update_enable o c : calm o (vgic_update_enable c).
Proof. unfold vgic_update_enable. calm. Qed.
#[local] Hint Resolve calm_update_enable : calm.

(** ** The fields of an interrupt *)
Definition calm_info (h : vgic_reg_handler_info) : Prop :=
  forall o c r, (forall data, calm o (rh_update_field h c r data)) /\ calm o (rh_update_hw h c r).

Lemma calm_state_bit o r b v : calm o (update_state_bit r b v).
Proof. unfold update_state_bit. calm. Qed.
#[local] Hint Resolve calm_state_bit : calm.

Lemma calm_table id h : vgic_get_reg_handler_info id = Some h -> calm_info h.
Proof.
  unfold vgic_get_reg_handler_info. destruct (_ <? _); [|done]. intros H.
  apply list_elem_of_lookup_2 in H. unfold reg_handler_info_table in H.
  repeat (apply elem_of_cons in H as [->|H]); [..|by apply not_elem_of_nil in H];
    (intros o c r; split; [intros data|]; simpl;
     unfold vgic_int_set_enable, vgic_int_clear_enable, vgic_int_update_enable, vgic_int_enable_hw, vgic_int_set_pend,
       vgic_int_clear_pend, vgic_int_update_pend, vgic_int_set_act, vgic_int_clear_act, vgic_int_update_act,
       vgic_int_state_hw, vgic_int_set_cfg, vgic_int_set_cfg_hw, vgic_int_set_prio, vgic_int_set_prio_hw,
       vgic_int_set_route, vgic_int_set_route_hw; calm).
Qed.

(** The owner another CPU's request goes to is not this CPU. *)
Lemma not_owned c r s s' :
  vgic_get_ownership c r s = Ok (false, s') ->
  s' = s /\ forall x, lookup_int s r = Some x -> vi_owner x <> Some c.
Proof.
  unfold vgic_get_ownership, mbind, G_bind, get_int, vgic_owns. destruct (lookup_int s r) as [x|]; [|done].
  case_bool_decide as Ho; [by intros [=]|]. case_bool_decide; [by intros [=]|]. intros [= <-].
  split; [done|]. by intros y [= <-].
Qed.

Lemma calm_set_field h o c r data :
  calm_info h -> o = None \/ o = Some c -> 0 <= c < 64 -> platform_cpu_num <= 64 ->
  calm o (vgic_int_set_field h c r data).
Proof.
  intros Hh Ho Hc Hn. destruct (Hh o c r) as [Hf Hw]. pose proof (calm_route o c r Ho Hc Hn) as Hr.
  unfold vgic_int_set_field. apply calm_bind; [auto with calm|]. intros _.
  intros s a s' H. unfold mbind at 1, G_bind at 1 in H.
  destruct (vgic_get_ownership c r s) as [[own s1]|] eqn:Eo; [|done].
  transitivity s1; [by apply (calm_get_ownership o c r _ own)|]. destruct own.
  - revert H. apply calm_bind; [|auto with calm]. calm.
  - destruct (not_owned _ _ _ _ Eo) as [-> Hno]. revert H. unfold mbind at 1 2 3, G_bind at 1 2 3, get_int.
    destruct (lookup_int s r) as [x|] eqn:Hx; [|done]. unfold ggets. specialize (Hno x eq_refl).
    destruct (vi_owner x) as [d|]; [|done]. intros H.
    assert (calm o (Arm.cpu_send_msg d (mk_msg VGIC_IPI_ID VGIC_SET_REG
      (VGIC_MSG_DATA (avm_id s) 0 (vi_id x) (rh_regid h) data));; int_unlock r)) as Hs.
    { apply calm_bind; [|auto with calm]. apply calm_send. destruct Ho as [->| ->]; congruence. }
    by apply (Hs _ a).
Qed.

Lemma calm_inject o c id src :
  o = None \/ o = Some c -> 0 <= c < 64 -> platform_cpu_num <= 64 -> calm o (vgic_inject c id src).
Proof.
  intros Ho Hc Hn. unfold vgic_inject.
  assert (calm_info ispendr_info) as Hi by by apply (calm_table VGIC_ISPENDR_ID).
  pose proof (fun r => calm_route o c r Ho Hc Hn) as Hr.
  pose proof (fun r => calm_set_field ispendr_info o c r 1 Hi Ho Hc Hn) as Hs. calm.
Qed.

(** The handler of a message. *)
Lemma calm_ipi o c ev data :
  o = None \/ o = Some c -> 0 <= c < 64 -> platform_cpu_num <= 64 -> calm o (vgic_ipi_handler c ev data).
Proof.
  intros Ho Hc Hn. unfold vgic_ipi_handler. pose proof (fun id src => calm_inject o c id src Ho Hc Hn) as Hi.
  apply calm_bind; [calm|]. intros vmid.
  destruct (negb _); [calm|]. destruct (_ =? _); [calm|]. destruct (_ =? _); [calm|]. destruct (_ =? _); [calm|].
  destruct (_ =? _); [|calm]. apply calm_bind; [calm|]. intros r.
  destruct (vgic_get_reg_handler_info _) as [h|] eqn:Eh; [|calm]. destruct r as [r|]; [|calm].
  apply calm_set_field; [by apply (calm_table (VGIC_MSG_REG data))|done..].
Qed.

(** ** Emulated registers *)
Definition calm_reg (h : vgic_reg_handler_info) : Prop := rh_access h = vgic_emul_generic_access -> calm_info h.

Lemma calm_generic_loop h c wr first id mask k : forall val i,
  calm_info h -> 0 <= c < 64 -> platform_cpu_num <= 64 -> calm None (generic_loop h c wr first id mask val i k).
Proof.
  induction k as [|k IH]; intros val i Hh Hc Hn; simpl; [calm|].
  pose proof (fun r d => calm_set_field h None c r d Hh (or_introl eq_refl) Hc Hn) as Hs.
  pose proof (fun v i => IH v i Hh Hc Hn) as Hi. calm.
Qed.

Lemma calm_broadcast_loop fuel c cpus num msg : forall i n, calm None (gmsg_broadcast_loop fuel c cpus num msg i n).
Proof. induction fuel as [|f IH]; intros i n; simpl; calm. Qed.

Lemma calm_run_access h c acc gicr id :
  calm_reg h -> 0 <= c < 64 -> platform_cpu_num <= 64 -> calm None (run_access h c acc gicr id).
Proof.
  intros Hh Hc Hn. unfold run_access. unfold calm_reg in Hh. destruct (rh_access h).
  - pose proof (fun wr f i m k v j => calm_generic_loop h c wr f i m k v j (Hh eq_refl) Hc Hn) as Hl.
    unfold vgic_emul_generic. calm.
  - pose proof (calm_broadcast_loop 32 c) as Hb. unfold vgicd_emul_misc, gvm_msg_broadcast. calm.
  - unfold vgicd_emul_pidr. calm.
  - unfold emul_razwi. calm.
  - unfold vgicr_emul_ctrl. calm.
  - unfold vgicr_emul_typer. calm.
  - unfold vgicr_emul_pidr. calm.
Qed.

Lemma calm_field id h : vgic_get_reg_handler_info id = Some h -> calm_reg h.
Proof. intros H _. by apply (calm_table id). Qed.

Lemma calm_plain f n : f <> vgic_emul_generic_access -> calm_reg (plain_info f n).
Proof. by intros Hf H. Qed.

Ltac calm_cases :=
  repeat match goal with |- calm_reg (if ?b then _ else _) => destruct b end;
  first [by apply calm_plain | by apply (calm_field 0) | by apply (calm_field 1) | by apply (calm_field 2)
    | by apply (calm_field 3) | by apply (calm_field 4) | by apply (calm_field 5) | by apply (calm_field 6)
    | by apply (calm_field 7) | by apply (calm_field 8)].

Lemma calm_vgicd_info addr : calm_reg (vgicd_reg_info addr).
Proof. unfold vgicd_reg_info. cbv zeta. calm_cases. Qed.

Lemma calm_vgicr_info addr base : calm_reg (vgicr_reg_info addr base).
Proof. unfold vgicr_reg_info. cbv zeta. calm_cases. Qed.

Lemma calm_vgicd_handler c acc :
  0 <= c < 64 -> platform_cpu_num <= 64 -> calm None (vgicd_emul_handler c acc).
Proof.
  intros Hc Hn. pose proof (fun id => calm_run_access _ c acc false id (calm_vgicd_info (acc_addr acc)) Hc Hn) as Hr.
  unfold vgicd_emul_handler, vgicd_lock, vgicd_unlock. calm.
Qed.

Lemma calm_vgicr_handler c acc :
  0 <= c < 64 -> platform_cpu_num <= 64 -> calm None (vgicr_emul_handler c acc).
Proof.
  intros Hc Hn.
  pose proof (fun base id => calm_run_access _ c acc true id (calm_vgicr_info (acc_addr acc) base) Hc Hn) as Hr.
  unfold vgicr_emul_handler. apply calm_bind; [calm|]. intros base. cbv zeta. destruct (vgic_check_reg_alignment _ _); [|calm].
  apply calm_bind; [calm|]. intros v. apply calm_bind; [calm|]. intros [t|]; [|calm].
  intros s a s'. unfold mbind at 1, G_bind at 1, aget_vcpu. destruct (avm_vcpus s !! t) as [w|] eqn:Hw; [|done].
  destruct (av_gicr_lock w); [done|]. intros H.
  transitivity (set_vcpus (<[t := set_gicr_lock true w]> (avm_vcpus s)) s); [by apply (still_put_vcpu _ _ _ w)|].
  assert (calm None (run_access (vgicr_reg_info (acc_addr acc) base) c acc true (vgicr_get_id base acc);;
    amod_vcpu t (set_gicr_lock false);; mret true)) as Hrest.
  { apply calm_bind; [done|intros _; calm]. }
  by apply (Hrest _ a).
Qed.

Lemma calm_sgir c acc : calm None (vgic_icc_sgir_handler c acc).
Proof. unfold vgic_icc_sgir_handler, vgic_send_sgi_msg. calm. Qed.

Lemma calm_sre c acc : calm None (vgic_icc_sre_handler c acc).
Proof. unfold vgic_icc_sre_handler. calm. Qed.

End Operations.
