(* ===== verification/Psci.v ===== *)
(** * Starting and stopping virtual CPUs on ARMv8

    [arch/armv8/psci.c] with [psci.h] and [smc.c], the reset and the run of a virtual CPU
    ([arch/armv8/vm.c]), idling ([arch/armv8/cpu.c], [core/cpu.c]) and the messages between
    CPUs. Each handler is one step here; PsciRun.v has the accesses of several CPUs
    interleave. Every function takes the lock of the virtual CPU that runs it, which no
    other CPU takes: the locks are left out. *)

From S2P Require Import Prelude Bit Bitmap CpuMsg State Calls Plic Vplic Ipc Gic Arm GicCpu Vgic VgicEmul.

Definition PSCI_VERSION : Z := 0x84000000.
Definition PSCI_CPU_SUSPEND_AARCH32 : Z := 0x84000001.
Definition PSCI_CPU_SUSPEND_AARCH64 : Z := 0xc4000001.
Definition PSCI_CPU_OFF : Z := 0x84000002.
Definition PSCI_CPU_ON_AARCH32 : Z := 0x84000003.
Definition PSCI_CPU_ON_AARCH64 : Z := 0xc4000003.
Definition PSCI_AFFINITY_INFO_AARCH32 : Z := 0x84000004.
Definition PSCI_AFFINITY_INFO_AARCH64 : Z := 0xc4000004.
Definition PSCI_FEATURES : Z := 0x8400000a.
Definition PSCI_MIG_INFO_TYPE : Z := 0x84000006.
Definition PSCI_TOS_NOT_PRESENT_MP : Z := 2.
Definition PSCI_E_SUCCESS : Z := 0.
Definition PSCI_E_NOT_SUPPORTED : Z := -1.
Definition PSCI_E_INVALID_PARAMS : Z := -2.
Definition PSCI_E_DENIED : Z := -3.
Definition PSCI_E_ALREADY_ON : Z := -4.
Definition SMC_FID_MASK : Z := 0xff000000.
Definition PSCI_FID_MASK : Z := 0xffe0.
Definition is_smc32_stdsrvc_fid (fid : Z) : bool := Z.land fid SMC_FID_MASK =? 0x84000000.
Definition is_smc64_stdsrvc_fid (fid : Z) : bool := Z.land fid SMC_FID_MASK =? 0xc4000000.
Definition is_smc_stdsrvc_fid (fid : Z) : bool := is_smc64_stdsrvc_fid fid || is_smc32_stdsrvc_fid fid.
Definition is_psci_fid (fid : Z) : bool := is_smc_stdsrvc_fid fid && (Z.land fid PSCI_FID_MASK =? 0).
Definition PSCI_MSG_ON : Z := 0.
Definition PSCI_WAKEUP_CPU_OFF : Z := 0.
Definition PSCI_WAKEUP_POWERDOWN : Z := 1.
Definition PSCI_WAKEUP_IDLE : Z := 2.
Definition PSCI_WAKEUP_NUM : Z := 3.

(** The platform ([plat/psci.h]), the number the linker gives the handler of [ipc.c], and
    the secure monitor: its answer to a call, [None] when the CPU powers down and goes on
    at the entry point of the call. *)
Class ArmPlat := {
  PSCI_POWER_STATE_LVL_0 : Z;
  PSCI_STATE_TYPE_STANDBY : Z;
  PSCI_STATE_TYPE_POWERDOWN : Z;
  PSCI_STATE_TYPE_BIT : Z;
  ARM_IPC_ID : Z;
  smc_call : Z -> Z -> Z -> Z -> option Z
}.

Section Psci.
Context `{E : GicEnv} {P : ArmPlat}.

(** ** Calls of the secure monitor; the results are signed. *)
Definition psci_version : option Z := smc_call PSCI_VERSION 0 0 0.
Definition psci_cpu_suspend (power_state entrypoint context_id : Z) : option Z :=
  smc_call PSCI_CPU_SUSPEND_AARCH64 power_state entrypoint context_id.
Definition psci_cpu_off : option Z := smc_call PSCI_CPU_OFF 0 0 0.
Definition psci_cpu_on (target_cpu entrypoint context_id : Z) : option Z :=
  smc_call PSCI_CPU_ON_AARCH64 target_cpu entrypoint context_id.
Definition psci_affinity_info (target_affinity lowest_affinity_level : Z) : option Z :=
  smc_call PSCI_AFFINITY_INFO_AARCH64 target_affinity lowest_affinity_level 0.
Definition psci_standby : option Z :=
  psci_cpu_suspend (Z.lor PSCI_POWER_STATE_LVL_0 PSCI_STATE_TYPE_STANDBY) 0 0.

(** [cpu_arch_init] on the master: it powers on the other CPUs. *)
Fixpoint power_on_cpus (master load_addr i : Z) (k : nat) : res unit :=
  match k with
  | O => Ok tt
  | S k' =>
      (if i =? master then Ok tt
       else
         mpidr ← cpu_id_to_mpidr i;
         match psci_cpu_on mpidr load_addr 0 with
         | Some r =>
             let result := s32 r in
             if (result =? PSCI_E_SUCCESS) || (result =? PSCI_E_ALREADY_ON) then Ok tt
             else Fault (Panic "cant wake up cpu")
         | None => Fault Hang
         end);;
      power_on_cpus master load_addr (i + 1) k'
  end.

(** ** What is kept of a CPU that powers down *)

(** The registers of EL2 of the CPU, what the hardware says of its interrupt controller,
    and the addresses that [mem_translate] gives. *)
Record el2_regs := mk_el2 {
  tcr_el2 : Z; ttbr0_el2 : Z; mair_el2 : Z; cptr_el2 : Z; hcr_el2 : Z; vmpidr_el2 : Z; vtcr_el2 : Z; vttbr_el2 : Z
}.
Record cpu_hw := mk_cpu_hw {
  ch_el2 : el2_regs; ch_icc : icc; ch_gic : gic_reg -> Z;
  ch_flat_map : Z; ch_off_state : Z; ch_boot_entry : Z
}.
Record psci_off_state := mk_off {
  os_el2 : el2_regs; os_wakeup_reason : Z; os_flat_map : Z; os_gicc : gicc_state
}.

Definition psci_save_state (h : cpu_hw) (c wakeup_reason : Z) : G psci_off_state :=
  g ← gicc_save_state (ch_gic h) c (ch_icc h);
  mret (mk_off (ch_el2 h) wakeup_reason (ch_flat_map h) g).
Definition psci_restore_state (c : Z) (st : psci_off_state) : G icc := gicc_restore_state c (os_gicc st).

Definition psci_power_down (h : cpu_hw) (c reason : Z) : G (psci_off_state * option Z) :=
  st ← psci_save_state h c reason;
  mret (st, psci_cpu_suspend (Z.lor PSCI_POWER_STATE_LVL_0 PSCI_STATE_TYPE_POWERDOWN)
              (ch_boot_entry h) (ch_off_state h)).

(** ** What the CPU does after a handler

    It returns to its caller, it enters the guest with the registers of the virtual CPU,
    it is powered down and comes back in [psci_wake], or it waits for an interrupt and
    goes on in [cpu_idle_wakeup]. *)
Inductive flow := Ret (ret : Z) | Enter | Down (st : psci_off_state) | Wait.

Definition cpu_arch_idle (h : cpu_hw) (c : Z) : G flow :=
  '(st, r) ← psci_power_down h c PSCI_WAKEUP_IDLE;
  match r with
  | None => mret (Down st)
  | Some err =>
      if (err =? 0) || (err =? PSCI_E_NOT_SUPPORTED) then mret Wait else GERROR "PSCI power down failed"
  end.
(** [cpu_arch_idle] does not return. *)
Definition cpu_idle (h : cpu_hw) (c : Z) : G flow := cpu_arch_idle h c.

(** ** The virtual CPU ([vm.c]) *)
Definition SPSR_RESET : Z := Z.lor (Z.lor (Z.lor (Z.lor 0x5 (Z.shiftl 1 6)) (Z.shiftl 1 7)) (Z.shiftl 1 8)) (Z.shiftl 1 9).
Definition SCTLR_RES1 : Z := 0x30c50830.

Definition vcpu_arch_reset (c entry : Z) : G unit :=
  amod_vcpu c (fun v => set_sys (mk_guest_sys SPSR_RESET 0 SCTLR_RES1 0 0) (set_elr entry (set_aregs ∅ v))).
Definition vcpu_readpc (c : Z) : G Z := v ← aget_vcpu c; mret (av_elr v).
Definition vcpu_writepc (c pc : Z) : G unit := amod_vcpu c (set_elr pc).

Definition vcpu_arch_run (h : cpu_hw) (c : Z) : G flow :=
  v ← aget_vcpu c; if bool_decide (ps_state (av_psci v) = ON) then mret Enter else cpu_idle h c.
(** [vcpu_run]; that the virtual CPU is active is not used. *)
Definition vcpu_run (h : cpu_hw) (c : Z) : G flow := vcpu_arch_run h c.

Definition set_psci_state (st : psci_state) (v : avcpu) : avcpu :=
  set_psci (mk_psci (ps_entrypoint (av_psci v)) (ps_context_id (av_psci v)) st) v.
Definition set_psci_entry (entry ctx : Z) (v : avcpu) : avcpu :=
  set_psci (mk_psci entry ctx (ps_state (av_psci v))) v.

(** ** Starting a virtual CPU *)
Definition psci_wake_from_off (c : Z) : G unit :=
  o ← ggets (fun s => avm_vcpus s !! c);
  match o with
  | None => mret tt
  | Some v =>
      if bool_decide (ps_state (av_psci v) = ON_PENDING) then
        vcpu_arch_reset c (ps_entrypoint (av_psci v));;
        amod_vcpu c (set_psci_state ON);;
        amod_vcpu c (fun v => set_aregs (st (av_regs v) 0 (ps_context_id (av_psci v))) v)
      else mret tt
  end.

Definition psci_cpumsg_handler (c event data : Z) : G unit :=
  if event =? PSCI_MSG_ON then psci_wake_from_off c else mret tt.

Definition psci_cpu_on_handler (c target_cpu entrypoint context_id : Z) : G Z :=
  t ← vm_get_vcpu_by_mpidr target_cpu;
  match t with
  | Some t =>
      v ← aget_vcpu t;
      if bool_decide (ps_state (av_psci v) = OFF) then
        amod_vcpu t (set_psci_state ON_PENDING);;
        amod_vcpu t (set_psci_entry entrypoint context_id);;
        vm ← ggets vm_view;
        Arm.cpu_send_msg (vm_translate_to_pcpuid vm (av_id v)) (mk_msg PSCI_CPUSMG_ID PSCI_MSG_ON 0);;
        mret PSCI_E_SUCCESS
      else mret PSCI_E_ALREADY_ON
  | None => mret PSCI_E_INVALID_PARAMS
  end.

(** ** The other calls of the guest *)
Definition psci_cpu_suspend_handler (h : cpu_hw) (c power_state entrypoint context_id : Z) : G flow :=
  if negb (s32 (Z.land power_state PSCI_STATE_TYPE_BIT) =? 0) then
    amod_vcpu c (set_psci_entry entrypoint context_id);;
    '(st, r) ← psci_power_down h c PSCI_WAKEUP_POWERDOWN;
    mret (match r with None => Down st | Some ret => Ret ret end)
  else mret (Ret PSCI_E_SUCCESS).

(** [cpu_idle] does not return, so that the rest is not reached. *)
Definition psci_cpu_off_handler (h : cpu_hw) (c : Z) : G flow :=
  amod_vcpu c (set_psci_state OFF);; cpu_idle h c.

Definition psci_affinity_info_handler (target_affinity lowest_affinity_level : Z) : Z := 0.

Definition psci_features_handler (feature_id : Z) : Z :=
  if (feature_id =? PSCI_VERSION) || (feature_id =? PSCI_CPU_OFF) || (feature_id =? PSCI_CPU_SUSPEND_AARCH64)
     || (feature_id =? PSCI_CPU_ON_AARCH64) || (feature_id =? PSCI_AFFINITY_INFO_AARCH32)
     || (feature_id =? PSCI_FEATURES)
  then PSCI_E_SUCCESS else PSCI_E_NOT_SUPPORTED.

(** [smc_fid] is 32 bits wide; the version comes from the secure monitor. *)
Definition psci_smc_handler (h : cpu_hw) (c smc_fid x1 x2 x3 : Z) : G flow :=
  let smc_fid := u32 smc_fid in
  if smc_fid =? PSCI_VERSION then
    match psci_version with Some v => mret (Ret v) | None => gfail Hang end
  else if smc_fid =? PSCI_CPU_OFF then psci_cpu_off_handler h c
  else if smc_fid =? PSCI_CPU_SUSPEND_AARCH64 then psci_cpu_suspend_handler h c x1 x2 x3
  else if smc_fid =? PSCI_CPU_ON_AARCH64 then ret ← psci_cpu_on_handler c x1 x2 x3; mret (Ret ret)
  else if smc_fid =? PSCI_AFFINITY_INFO_AARCH64 then mret (Ret (psci_affinity_info_handler x1 x2))
  else if smc_fid =? PSCI_FEATURES then mret (Ret (psci_features_handler x1))
  else if smc_fid =? PSCI_MIG_INFO_TYPE then mret (Ret PSCI_TOS_NOT_PRESENT_MP)
  else mret (Ret PSCI_E_NOT_SUPPORTED).

(** ** Messages *)
Section Messages.

(** The shared memory objects of the VM ([vm->ipcs]). *)
Variable ipcs : list ipc.

(** [ipc_notify] and [interrupts_arch_vm_inject]. *)
Definition gipc_notify (c shmem_id event_id : Z) : G unit :=
  match ipc_find_by_shmemid ipcs shmem_id with
  | Some o =>
      if event_id <? Z.of_nat (length (ipc_interrupts o)) then
        v ← aget_vcpu c;
        vgic_inject c (u64 (s32 (default 0 (ipc_interrupts o !! Z.to_nat event_id)))) (av_id v)
      else mret tt
  | None => mret tt
  end.
Definition gipc_handler (c event data : Z) : G unit :=
  if event =? IPC_NOTIFY then gipc_notify c (u8 data) (u8 (data / 256)) else mret tt.

Definition run_msg (c : Z) (msg : cpu_msg) : G unit :=
  if msg_handler msg =? VGIC_IPI_ID then vgic_ipi_handler c (msg_event msg) (msg_data msg)
  else if msg_handler msg =? PSCI_CPUSMG_ID then psci_cpumsg_handler c (msg_event msg) (msg_data msg)
  else if msg_handler msg =? ARM_IPC_ID then gipc_handler c (msg_event msg) (msg_data msg)
  else mret tt.

Definition cpu_get_msg (c : Z) : G (option cpu_msg) :=
  fun s => match events_of s c with
           | [] => Ok (None, s)
           | msg :: rest => Ok (Some msg, set_events (<[c := rest]> (avm_events s)) s)
           end.

Fixpoint cpu_msg_loop (fuel : nat) (c : Z) : G unit :=
  match fuel with
  | O => gfail Hang
  | S f => o ← cpu_get_msg c; match o with None => mret tt | Some msg => run_msg c msg;; cpu_msg_loop f c end
  end.
(** No handler sends a message to its own CPU. *)
Definition cpu_msg_handler (c : Z) : G unit :=
  l ← ggets (fun s => events_of s c); cpu_msg_loop (S (length l)) c.

(** ** Waking up *)
Definition cpu_idle_wakeup (h : cpu_hw) (c : Z) : G flow :=
  (if interrupts_arch_check (ch_gic h) c IPI_CPU_MSG then
     aio (interrupts_arch_clear c IPI_CPU_MSG);; cpu_msg_handler c
   else mret tt);;
  o ← ggets (fun s => avm_vcpus s !! c);
  match o with Some _ => vcpu_run h c | None => cpu_idle h c end.

Definition psci_wake_from_powerdown (h : cpu_hw) (c : Z) : G flow :=
  v ← aget_vcpu c;
  vcpu_arch_reset c (ps_entrypoint (av_psci v));;
  Arm.vcpu_writereg c 0 (ps_context_id (av_psci v));;
  vcpu_run h c.

(** The wake-up from [CPU_OFF] returns to the boot code, which stops. *)
Definition psci_wake (h : cpu_hw) (c : Z) (st : psci_off_state) : G flow :=
  psci_restore_state c st;;
  let handler_id := os_wakeup_reason st in
  if handler_id =? PSCI_WAKEUP_CPU_OFF then psci_wake_from_off c;; gfail Hang
  else if handler_id =? PSCI_WAKEUP_POWERDOWN then psci_wake_from_powerdown h c
  else if handler_id =? PSCI_WAKEUP_IDLE then cpu_idle_wakeup h c
  else GERROR "unkown reason for cpu wake up".

End Messages.
End Psci.
