(* ===== verification/Aborts.v ===== *)
(** * Traps and interrupts of ARMv8

    [arch/armv8/aborts.c], the emulation lists of [core/vm.c], the hypercall of
    [core/ipc.c], [gic_handle] of [arch/armv8/gic.c] and [interrupts_handle] of
    [core/interrupts.c]: what the hypervisor does when a guest traps or an interrupt
    arrives. The exception vectors save and restore the registers of the guest; a handler
    that returns goes back to the guest. *)

From S2P Require Import Prelude Bit Bitmap CpuMsg State Calls Plic Vplic Ipc Gic Arm GicCpu Vgic VgicEmul Psci.

Definition ESR_ISS_OFF : Z := 0.
Definition ESR_ISS_LEN : Z := 25.
Definition ESR_IL_OFF : Z := 25.
Definition ESR_IL_LEN : Z := 1.
Definition ESR_EC_OFF : Z := 26.
Definition ESR_EC_LEN : Z := 6.
Definition ESR_EC_HVC64 : Z := 0x16.
Definition ESR_EC_SMC64 : Z := 0x17.
Definition ESR_EC_SYSRG : Z := 0x18.
Definition ESR_EC_DALEL : Z := 0x24.
Definition ESR_ISS_DA_DSFC_OFF : Z := 0.
Definition ESR_ISS_DA_DSFC_LEN : Z := 6.
Definition ESR_ISS_DA_WnR_BIT : Z := Z.shiftl 1 6.
Definition ESR_ISS_DA_FnV_BIT : Z := Z.shiftl 1 10.
Definition ESR_ISS_DA_SF_OFF : Z := 15.
Definition ESR_ISS_DA_SF_LEN : Z := 1.
Definition ESR_ISS_DA_SRT_OFF : Z := 16.
Definition ESR_ISS_DA_SRT_LEN : Z := 5.
Definition ESR_ISS_DA_SSE_OFF : Z := 21.
Definition ESR_ISS_DA_SSE_LEN : Z := 1.
Definition ESR_ISS_DA_SAS_OFF : Z := 22.
Definition ESR_ISS_DA_SAS_LEN : Z := 2.
Definition ESR_ISS_DA_ISV_BIT : Z := Z.shiftl 1 24.
Definition ESR_ISS_DA_DSFC_TRNSLT : Z := 4.
Definition ESR_ISS_SYSREG_ADDR : Z := Z.lor (Z.shiftl 0xfff 10) (Z.shiftl 0xf 1).
Definition ESR_ISS_SYSREG_DIR : Z := 1.
Definition ESR_ISS_SYSREG_REG_OFF : Z := 5.
Definition ESR_ISS_SYSREG_REG_LEN : Z := 5.
Definition HC_IPC : Z := 1.
Definition HC_E_INVAL_ID : Z := 2.

(** [vm_emul_get]: the region or register at the address, whichever kind was asked for. *)
Fixpoint gvm_emul_get (l : list arm_emul) (addr : Z) : option arm_handler :=
  match l with
  | [] => None
  | AEMUL_MEM base size h :: rest =>
      if (base <=? addr) && (addr <? u64 (base + size)) then Some h else gvm_emul_get rest addr
  | AEMUL_REG a h :: rest => if a =? addr then Some h else gvm_emul_get rest addr
  end.

(** What [aborts_data_lower] and [sysreg_handler] make of the syndrome. *)
Definition data_access (iss far : Z) : emul_access :=
  mk_acc far (negb (Z.land iss ESR_ISS_DA_WnR_BIT =? 0))
    (negb (bit_extract iss ESR_ISS_DA_SSE_OFF ESR_ISS_DA_SSE_LEN =? 0))
    (Z.shiftl 1 (bit_extract iss ESR_ISS_DA_SAS_OFF ESR_ISS_DA_SAS_LEN))
    (bit_extract iss ESR_ISS_DA_SRT_OFF ESR_ISS_DA_SRT_LEN)
    (4 + 4 * bit_extract iss ESR_ISS_DA_SF_OFF ESR_ISS_DA_SF_LEN).
Definition sysreg_access (iss : Z) : emul_access :=
  mk_acc (Z.land iss ESR_ISS_SYSREG_ADDR) (Z.land iss ESR_ISS_SYSREG_DIR =? 0) false 8
    (bit_extract iss ESR_ISS_SYSREG_REG_OFF ESR_ISS_SYSREG_REG_LEN) 8.

Section Aborts.
Context `{E : GicEnv} {P : ArmPlat}.

(** The configuration of the VM: its shared memory objects, those of the machine, its
    interrupts, and the number of the maintenance interrupt. *)
Record arm_cfg := mk_arm_cfg {
  ac_ipcs : list ipc; ac_shmem : list shmem; ac_interrupts : mem; ac_maintenance_id : Z
}.
Variable cfg : arm_cfg.

Definition run_emul (c : Z) (h : arm_handler) (acc : emul_access) : G bool :=
  match h with
  | VGICD_EMUL => vgicd_emul_handler c acc
  | VGICR_EMUL => vgicr_emul_handler c acc
  | ICC_SGIR => vgic_icc_sgir_handler c acc
  | ICC_SRE => vgic_icc_sre_handler c acc
  end.

Definition step_pc (c il : Z) : G unit := amod_vcpu c (fun v => set_elr (u64 (av_elr v + (2 + 2 * il))) v).

Definition aborts_data_lower (c iss far il : Z) : G unit :=
  if (Z.land iss ESR_ISS_DA_ISV_BIT =? 0) || negb (Z.land iss ESR_ISS_DA_FnV_BIT =? 0) then
    GERROR "no information to handle data abort"
  else if negb (Z.land (bit_extract iss ESR_ISS_DA_DSFC_OFF ESR_ISS_DA_DSFC_LEN) (Z.shiftl 0xf 2)
                =? ESR_ISS_DA_DSFC_TRNSLT) then
    GERROR "data abort is not translation fault - cant deal with it"
  else
    l ← ggets avm_emul;
    match gvm_emul_get l far with
    | Some h =>
        ok ← run_emul c h (data_access iss far);
        if (ok : bool) then step_pc c il else GERROR "data abort emulation failed"
    | None => GERROR "no emulation handler for abort"
    end.

Definition sysreg_handler (c iss far il : Z) : G unit :=
  l ← ggets avm_emul;
  match gvm_emul_get l (acc_addr (sysreg_access iss)) with
  | Some h =>
      ok ← run_emul c h (sysreg_access iss);
      if (ok : bool) then step_pc c il else GERROR "register access emulation failed"
  | None => GERROR "no emulation handler for register access"
  end.

(** A call that does not return to its caller leaves the handler too. *)
Definition smc64_handler (hw : cpu_hw) (c iss far il : Z) : G flow :=
  v ← aget_vcpu c;
  let smc_fid := ld (av_regs v) 0 in
  fl ← (if is_psci_fid smc_fid
        then psci_smc_handler hw c smc_fid (ld (av_regs v) 1) (ld (av_regs v) 2) (ld (av_regs v) 3)
        else mret (Ret (-1)));
  match fl with
  | Ret ret => Arm.vcpu_writereg c 0 (u64 ret);; step_pc c il;; mret Enter
  | _ => mret fl
  end.

(** [ipc_hypercall] *)
Definition gipc_hypercall (c arg0 arg1 arg2 : Z) : G Z :=
  cpus ← ggets avm_cpus;
  match (if arg0 <? Z.of_nat (length (ac_ipcs cfg)) then ac_ipcs cfg !! Z.to_nat arg0 else None) with
  | Some o =>
      match ipc_get_shmem (ac_shmem cfg) (ipc_shmem_id o) with
      | Some sh =>
          send_mask (Z.ldiff (sh_masters sh) cpus)
            (mk_msg ARM_IPC_ID IPC_NOTIFY (ipc_data (ipc_shmem_id o) arg1)) 0 (Z.to_nat platform_cpu_num);;
          mret (- HC_E_SUCCESS)
      | None => mret (- HC_E_INVAL_ARGS)
      end
  | None => mret (- HC_E_INVAL_ARGS)
  end.

Definition hvc64_handler (c iss far il : Z) : G unit :=
  v ← aget_vcpu c;
  ret ← (if ld (av_regs v) 0 =? HC_IPC
         then gipc_hypercall c (ld (av_regs v) 1) (ld (av_regs v) 2) (ld (av_regs v) 3)
         else mret (- HC_E_INVAL_ID));
  Arm.vcpu_writereg c 0 (u64 ret).

Definition aborts_sync_handler (hw : cpu_hw) (c esr far hpfar : Z) : G flow :=
  let ipa_fault_addr := u64 (Z.lor (Z.land far 0xfff) (u64 (Z.shiftl hpfar 8))) in
  let ec := bit_extract esr ESR_EC_OFF ESR_EC_LEN in
  let il := bit_extract esr ESR_IL_OFF ESR_IL_LEN in
  let iss := bit_extract esr ESR_ISS_OFF ESR_ISS_LEN in
  if ec =? ESR_EC_DALEL then aborts_data_lower c iss ipa_fault_addr il;; mret Enter
  else if ec =? ESR_EC_SMC64 then smc64_handler hw c iss ipa_fault_addr il
  else if ec =? ESR_EC_SYSRG then sysreg_handler c iss ipa_fault_addr il;; mret Enter
  else if ec =? ESR_EC_HVC64 then hvc64_handler c iss ipa_fault_addr il;; mret Enter
  else GERROR "no handler for abort".

(** ** Interrupts *)
Inductive irq_res := HANDLED_BY_HYP | FORWARD_TO_VM.

(** The hypervisor reserves the interrupt between CPUs and the maintenance interrupt. *)
Definition ginterrupts_handle (c int_id : Z) : G irq_res :=
  if negb (bitmap_get (ac_interrupts cfg) 0 int_id =? 0) then
    v ← aget_vcpu c; vgic_inject c int_id (av_id v);; mret FORWARD_TO_VM
  else if int_id =? IPI_CPU_MSG then cpu_msg_handler (ac_ipcs cfg) c;; mret HANDLED_BY_HYP
  else if int_id =? ac_maintenance_id cfg then gic_maintenance_handler c;; mret HANDLED_BY_HYP
  else GERROR "received unknown interrupt".

(** The writes to [ICC_EOIR1_EL1] and [ICC_DIR_EL1] that end the interrupt [ack]. *)
Definition gic_handle (c ack : Z) : G (option Z * option Z) :=
  let id := bit_extract ack GICC_IAR_ID_OFF GICC_IAR_ID_LEN in
  if id <? GIC_FIRST_SPECIAL_INTID then
    res ← ginterrupts_handle c id;
    mret (Some ack, match res with HANDLED_BY_HYP => Some ack | FORWARD_TO_VM => None end)
  else mret (None, None).

End Aborts.
