(* ===== verification/ArmTraps.v ===== *)
(** * What the traps of a guest do on ARMv8

    Every trap of a guest is handled or stops the CPU with a message, as its syndrome and
    the registers it names say; the state stays one the VM can reach (VgicReach), and an emulated access goes on
    at the next instruction. What PSCI promises for one call after another. *)

From S2P Require Import Prelude Bit Bitmap CpuMsg State Calls Plic Vplic Ipc Gic Arm GicCpu Vgic VgicInv VgicLr.
From S2P Require Import VgicMove VgicField VgicEmul VgicMaint VgicSys GicPower VgicReach VgicDemo VgicQuiet Psci Aborts.

(** The linker gives the handlers different numbers; the secure monitor answers the
    version. *)
Class ArmLaws `{E : GicEnv} {P : ArmPlat} : Prop := {
  psci_id : PSCI_CPUSMG_ID <> VGIC_IPI_ID;
  arm_ipc_id : ARM_IPC_ID <> VGIC_IPI_ID /\ ARM_IPC_ID <> PSCI_CPUSMG_ID;
  monitor_version : exists v, psci_version = Some v
}.

Section Traps.
Context `{E : GicEnv} {L : GicLaws} {C : OneCluster} {P : ArmPlat} {W : ArmLaws}.

(** ** Operations outside the interrupt controller *)
Lemma still_has_cpu o s s' c : still o s s' -> has_cpu s c -> has_cpu s' c.
Proof.
  intros [H _] [v Hv]. specialize (H c). rewrite Hv in H. unfold has_cpu.
  destruct (avm_vcpus s' !! c); [eauto|done].
Qed.

Lemma reach_range s c : vreach s -> has_cpu s c -> 0 <= c < 64 /\ platform_cpu_num <= 64.
Proof.
  intros Hr Hc. pose proof (sys_inv _ (vreach_sys _ Hr)) as I. pose proof (has_cpu_range _ _ _ I Hc).
  destruct (inv_vm _ _ I) as (_ & _ & ? & _). lia.
Qed.

Definition untouched (f : avcpu -> avcpu) : Prop := forall v, same_gic v (f v) /\ av_hcr (f v) = av_hcr v.

Lemma reach_put s c v v' :
  vreach s -> avm_vcpus s !! c = Some v -> same_gic v v' -> av_hcr v' = av_hcr v -> vreach (put_vcpu c v' s).
Proof.
  intros Hr Hv Hg Hh. eapply reach_step; [done|]. apply (step_guest s c v v'); [done|done|].
  destruct (inv_vcpu _ _ (sys_inv _ (vreach_sys _ Hr)) c v Hv) as (_ & _ & _ & _ & _ & H). by rewrite Hh.
Qed.

Lemma reach_amod s c f v (Q : unit -> avm -> Prop) :
  vreach s -> avm_vcpus s !! c = Some v -> untouched f -> (vreach (put_vcpu c (f v) s) -> Q tt (put_vcpu c (f v) s)) ->
  gwp (amod_vcpu c f) Q s.
Proof.
  intros Hr Hv Hf H. apply (amod_vcpu_wp _ _ _ v); [done|]. apply H. destruct (Hf v). by apply (reach_put _ _ v).
Qed.

Lemma put_has_cpu s c v d : has_cpu (put_vcpu c v s) d <-> d = c \/ has_cpu s d.
Proof.
  unfold has_cpu, put_vcpu. simpl. rewrite lookup_insert. case_decide; split; eauto; [intros [|]; [done|auto]].
Qed.

Lemma put_lookup s c v : avm_vcpus (put_vcpu c v s) !! c = Some v.
Proof. simpl. by rewrite lookup_insert_eq. Qed.

Lemma untouched_pc il : untouched (fun v => set_elr (u64 (av_elr v + (2 + 2 * il))) v).
Proof. by intros v. Qed.
Lemma untouched_state st : untouched (set_psci_state st).
Proof. by intros v. Qed.
Lemma untouched_entry e ctx : untouched (set_psci_entry e ctx).
Proof. by intros v. Qed.
Lemma untouched_reset e : untouched (fun v => set_sys (mk_guest_sys SPSR_RESET 0 SCTLR_RES1 0 0) (set_elr e (set_aregs ∅ v))).
Proof. by intros v. Qed.
Lemma untouched_reg (f : avcpu -> mem) : untouched (fun v => set_aregs (f v) v).
Proof. by intros v. Qed.

Lemma reach_writereg s c n w v (Q : unit -> avm -> Prop) :
  vreach s -> avm_vcpus s !! c = Some v ->
  (forall s' v', vreach s' -> avm_vcpus s' !! c = Some v' -> core v' = core v ->
     (forall d, has_cpu s d -> has_cpu s' d) -> Q tt s') -> gwp (Arm.vcpu_writereg c n w) Q s.
Proof.
  intros Hr Hv H. unfold Arm.vcpu_writereg. destruct (30 <? n); [by apply gwp_ret, (H _ v)|].
  apply (reach_amod _ _ _ v); [done|done|apply untouched_reg|]. intros Hr'.
  apply (H _ (set_aregs (st (av_regs v) n w) v)); [done|apply put_lookup|done|].
  intros d. rewrite put_has_cpu. auto.
Qed.

Lemma reach_send_mask mask msg k : forall i s (Q : unit -> avm -> Prop),
  msg_handler msg <> VGIC_IPI_ID -> vreach s ->
  (forall s', vreach s' -> avm_vcpus s' = avm_vcpus s -> Q tt s') -> gwp (send_mask mask msg i k) Q s.
Proof.
  induction k as [|k IH]; intros i s Q Hm Hr H; [by apply gwp_ret, H|]. simpl. apply gwp_bind, gwp_when; intros _.
  - change (gwp (send_mask mask msg (i + 1) k) Q (push_event i msg s)). apply IH; [done| |done].
    eapply reach_step; [done|]. by apply step_send.
  - by apply IH.
Qed.

(** ** Emulated accesses *)
Definition emul_aligned (s : avm) (h : arm_handler) (acc : emul_access) : bool :=
  match h with
  | VGICD_EMUL => vgic_check_reg_alignment acc (vgicd_reg_info (acc_addr acc))
  | VGICR_EMUL => vgic_check_reg_alignment acc (vgicr_reg_info (acc_addr acc) (avm_vgicr_addr s))
  | ICC_SGIR | ICC_SRE => true
  end.

(** An address that is emulated as a redistributor lies in the frame of a virtual CPU. *)
Lemma emul_frame Q base l addr acc :
  Forall (emul_ok Q base) l -> gvm_emul_get l addr = Some VGICR_EMUL -> 0 <= addr < 2 ^ 64 -> acc_addr acc = addr ->
  Q (vgicr_get_id base acc).
Proof.
  intros Hl Hg Ha Hacc. induction Hl as [|e l He Hl IH]; [done|]. simpl in Hg. destruct e as [va size h|a h].
  - destruct (_ && _) eqn:Hb; [|auto]. injection Hg as ->. simpl in He.
    destruct He as (id & Hq & Hbase & Hid & -> & -> & Hfit). unfold GICR_SIZE in *.
    apply andb_true_iff in Hb as [H1 H2]. destruct (Z.eq_dec (base + 131072 * id + 131072) (2 ^ 64)) as [Hw|Hw].
    { rewrite Hw in H2. vm_compute in H2. exfalso. revert H2. unfold Z.ltb. destruct addr; simpl; try done; lia. }
    rewrite (wrap_small 64 (base + _ + _)) in H2 by lia. unfold vgicr_get_id, GICR_SIZE. rewrite Hacc.
    rewrite (wrap_small 64 (addr - base)) by lia.
    assert ((addr - base) / 131072 = id) as ->.
    { symmetry. apply (Z.div_unique_pos _ _ _ (addr - base - 131072 * id)); lia. }
    by rewrite (wrap_small 32 id) by lia.
  - destruct (a =? addr); [|auto]. injection Hg as ->. done.
Qed.

Lemma run_emul_returns s c h acc :
  vreach s -> has_cpu s c -> gvm_emul_get (avm_emul s) (acc_addr acc) = Some h -> 0 <= acc_addr acc < 2 ^ 64 ->
  exists s', run_emul c h acc s = Ok (emul_aligned s h acc, s') /\ vreach s' /\ still None s s'.
Proof.
  intros Hr Hc Hg Ha. pose proof (vreach_sys _ Hr) as Hs. destruct (reach_range s c Hr Hc) as [Hc64 Hn].
  destruct h; simpl.
  - destruct (vgic_check_reg_alignment _ _) eqn:Hal.
    + destruct (vgicd_returns s c acc Hs Hc) as (s' & Es & _). rewrite Hal in Es. exists s'.
      split; [done|]. split; [eapply reach_step; [done|]; by apply (step_gicd s c acc true)|].
      by apply (calm_vgicd_handler c acc Hc64 Hn _ true).
    + exists s. unfold vgicd_emul_handler. cbv zeta. by rewrite Hal.
  - assert (known s (vgicr_get_id (avm_vgicr_addr s) acc)) as Hk.
    { apply (emul_frame _ _ (avm_emul s) (acc_addr acc)); [apply (sys_emul _ Hs)|done|done|done]. }
    destruct (vgic_check_reg_alignment _ _) eqn:Hal.
    + destruct (vgicr_returns s c acc Hs Hc Hk) as (s' & Es & _). rewrite Hal in Es. exists s'.
      split; [done|]. split; [eapply reach_step; [done|]; by apply (step_gicr s c acc true)|].
      by apply (calm_vgicr_handler c acc Hc64 Hn _ true).
    + exists s. unfold vgicr_emul_handler. rewrite run_gets. cbv zeta. by rewrite Hal.
  - destruct (sgir_returns s c acc Hs Hc) as (s' & Es & _). exists s'. split; [done|].
    split; [eapply reach_step; [done|]; by apply (step_sgir s c acc true)|]. by apply (calm_sgir c acc _ true).
  - destruct (safe_ends (vgic_icc_sre_handler c acc) true s Hs) as (s' & Es & _).
    + by apply sre_safe; [apply Hs|].
    + apply ends_bind. intros ?. apply ends_ret.
    + exists s'. split; [done|]. split; [eapply reach_step; [done|]; by apply (step_sre s c acc true)|].
      by apply (calm_sre c acc _ true).
Qed.

(** The program counter of [c] moves on by one instruction. *)
Definition pc_next (c il : Z) (s s' : avm) : Prop :=
  av_elr <$> avm_vcpus s' !! c = (fun v => u64 (av_elr v + (2 + 2 * il))) <$> avm_vcpus s !! c.

Lemma emulate_returns s c h acc il msg :
  vreach s -> has_cpu s c -> gvm_emul_get (avm_emul s) (acc_addr acc) = Some h -> 0 <= acc_addr acc < 2 ^ 64 ->
  if emul_aligned s h acc
  then exists s', (ok ← run_emul c h acc; if (ok : bool) then step_pc c il else GERROR msg) s = Ok (tt, s') /\
         vreach s' /\ pc_next c il s s'
  else (ok ← run_emul c h acc; if (ok : bool) then step_pc c il else GERROR msg) s = Fault (Panic msg).
Proof.
  intros Hr Hc Hg Ha. destruct (run_emul_returns s c h acc Hr Hc Hg Ha) as (s1 & Es & Hr1 & St).
  unfold mbind, G_bind. rewrite Es. destruct (emul_aligned s h acc); [|done].
  destruct (still_has_cpu _ _ _ _ St Hc) as [v Hv].
  destruct (gwp_ok (step_pc c il) (fun _ s' => vreach s' /\ pc_next c il s s') s1) as ([] & s' & H); [|eauto].
  apply (reach_amod _ _ _ v); [done|done|apply untouched_pc|]. intros Hr'. split; [done|]. unfold pc_next.
  rewrite put_lookup. destruct St as [St _]. specialize (St c). rewrite Hv in St.
  destruct (avm_vcpus s !! c) as [v0|]; [|done]. simpl in *. unfold core in St. injection St as H1 _ _. by rewrite H1.
Qed.

(** ** Emulated accesses from their syndrome *)
Definition data_abort_known (iss : Z) : bool :=
  negb (Z.land iss ESR_ISS_DA_ISV_BIT =? 0) && (Z.land iss ESR_ISS_DA_FnV_BIT =? 0) &&
  (Z.land (bit_extract iss ESR_ISS_DA_DSFC_OFF ESR_ISS_DA_DSFC_LEN) (Z.shiftl 0xf 2) =? ESR_ISS_DA_DSFC_TRNSLT).

Definition emulated (s : avm) (acc : emul_access) : bool :=
  match gvm_emul_get (avm_emul s) (acc_addr acc) with Some h => emul_aligned s h acc | None => false end.

Lemma data_lower_returns s c iss far il :
  vreach s -> has_cpu s c -> 0 <= far < 2 ^ 64 ->
  if data_abort_known iss && emulated s (data_access iss far)
  then exists s', aborts_data_lower c iss far il s = Ok (tt, s') /\ vreach s' /\ pc_next c il s s'
  else exists msg, aborts_data_lower c iss far il s = Fault (Panic msg).
Proof.
  intros Hr Hc Hf. unfold aborts_data_lower, data_abort_known, emulated.
  destruct (Z.land iss ESR_ISS_DA_ISV_BIT =? 0); [by eexists|]. cbn [negb andb orb].
  destruct (Z.land iss ESR_ISS_DA_FnV_BIT =? 0); [|by eexists]. cbn [negb andb].
  destruct (_ =? ESR_ISS_DA_DSFC_TRNSLT); [|by eexists]. cbn [negb andb]. rewrite run_gets.
  change (acc_addr (data_access iss far)) with far.
  destruct (gvm_emul_get (avm_emul s) far) as [h|] eqn:Hg; [|by eexists].
  pose proof (emulate_returns s c h (data_access iss far) il "data abort emulation failed" Hr Hc Hg Hf) as H.
  destruct (emul_aligned s h (data_access iss far)); [done|by eexists].
Qed.

Lemma sysreg_range iss : 0 <= acc_addr (sysreg_access iss) < 2 ^ 64.
Proof.
  change (acc_addr (sysreg_access iss)) with (Z.land iss (Z.land ESR_ISS_SYSREG_ADDR (Z.ones 64))).
  rewrite Z.land_assoc, Z.land_ones by lia. apply Z.mod_pos_bound. lia.
Qed.

Lemma sysreg_returns s c iss far il :
  vreach s -> has_cpu s c ->
  if emulated s (sysreg_access iss)
  then exists s', sysreg_handler c iss far il s = Ok (tt, s') /\ vreach s' /\ pc_next c il s s'
  else exists msg, sysreg_handler c iss far il s = Fault (Panic msg).
Proof.
  intros Hr Hc. unfold sysreg_handler, emulated. rewrite run_gets.
  destruct (gvm_emul_get (avm_emul s) _) as [h|] eqn:Hg; [|by eexists].
  pose proof (emulate_returns s c h (sysreg_access iss) il "register access emulation failed" Hr Hc Hg
    (sysreg_range iss)) as H.
  destruct (emul_aligned s h (sysreg_access iss)); [done|by eexists].
Qed.

(** ** Calls *)
Definition reached (c : Z) : flow -> avm -> Prop := fun _ s' => vreach s' /\ has_cpu s' c.

Lemma amod_run s c f v : avm_vcpus s !! c = Some v -> amod_vcpu c f s = Ok (tt, put_vcpu c (f v) s).
Proof. intros Hv. unfold amod_vcpu, mbind, G_bind, aget_vcpu. by rewrite Hv. Qed.

(** What the secure monitor answers when a CPU powers down, and whether the hypervisor can
    go on after the answer: [cpu_arch_idle] takes any error but one for fatal. *)
Definition monitor_answer (hw : cpu_hw) : option Z :=
  psci_cpu_suspend (Z.lor PSCI_POWER_STATE_LVL_0 PSCI_STATE_TYPE_POWERDOWN) (ch_boot_entry hw) (ch_off_state hw).
Definition monitor_idles (hw : cpu_hw) : bool :=
  match monitor_answer hw with None => true | Some err => (err =? 0) || (err =? PSCI_E_NOT_SUPPORTED) end.

Lemma power_down_run hw s c v reason :
  vreach s -> avm_vcpus s !! c = Some v ->
  psci_power_down hw c reason s =
    Ok ((mk_off (ch_el2 hw) reason (ch_flat_map hw) (saved (ch_gic hw) c (ch_icc hw) v), monitor_answer hw), s).
Proof.
  intros Hr Hv. unfold psci_power_down, psci_save_state, mbind, G_bind.
  by rewrite (save_run _ _ _ _ v (sys_inv _ (vreach_sys _ Hr)) Hv).
Qed.

(** A virtual CPU without work powers its CPU down, waits, or panics. *)
Lemma idle_run hw s c v :
  vreach s -> avm_vcpus s !! c = Some v ->
  if monitor_idles hw then exists fl, cpu_idle hw c s = Ok (fl, s)
  else exists msg, cpu_idle hw c s = Fault (Panic msg).
Proof.
  intros Hr Hv. unfold cpu_idle, cpu_arch_idle, mbind, G_bind. rewrite (power_down_run _ _ _ v) by done.
  unfold monitor_idles. destruct (monitor_answer hw) as [err|]; [|by eexists].
  destruct (_ || _); by eexists.
Qed.

Lemma by_mpidr_lookup p m l t : find_avcpu p m l = Some t -> exists v, m !! t = Some v /\ p v = true.
Proof.
  induction l as [|a l IH]; [done|]. simpl. destruct (m !! a) as [v|] eqn:Hv; [|auto].
  destruct (p v) eqn:Hp; [intros [= <-]; eauto|auto].
Qed.

Lemma cpu_on_wp s c target e ctx (Q : Z -> avm -> Prop) :
  vreach s -> (forall ret s', vreach s' -> (forall d, has_cpu s d -> has_cpu s' d) -> Q ret s') ->
  gwp (psci_cpu_on_handler c target e ctx) Q s.
Proof.
  intros Hr H. apply gwp_bind, gwp_gets. destruct (find_avcpu _ _ _) as [t|] eqn:Ht; [|by apply gwp_ret, H].
  apply by_mpidr_lookup in Ht as (v & Hv & _). apply gwp_bind, aget_vcpu_wp; [by exists v|]. intros v' Hv'.
  assert (v' = v) as -> by congruence. clear Hv'. case_bool_decide; [|by apply gwp_ret, H].
  apply gwp_bind, (reach_amod _ _ _ v); [done|done|apply untouched_state|]. intros H1.
  apply gwp_bind, (reach_amod _ _ _ (set_psci_state ON_PENDING v)); [done|apply put_lookup|apply untouched_entry|].
  intros H2. apply gwp_bind, gwp_gets. apply gwp_bind. unfold Arm.cpu_send_msg. apply gwp_mod, gwp_ret, H.
  - eapply reach_step; [exact H2|]. apply step_send. apply psci_id.
  - intros d Hd. apply put_has_cpu. right. apply put_has_cpu. by right.
Qed.

Lemma suspend_wp hw s c ps e ctx : vreach s -> has_cpu s c -> gwp (psci_cpu_suspend_handler hw c ps e ctx) (reached c) s.
Proof.
  intros Hr [v Hv]. unfold psci_cpu_suspend_handler. destruct (negb _); [|by apply gwp_ret; split; [|exists v]].
  apply gwp_bind, (reach_amod _ _ _ v); [done|done|apply untouched_entry|]. intros H1.
  apply gwp_bind. unfold gwp at 1. rewrite (power_down_run _ _ _ (set_psci_entry e ctx v)) by (done || apply put_lookup).
  apply gwp_ret. split; [done|]. apply put_has_cpu. by left.
Qed.

Lemma off_run hw s c :
  vreach s -> has_cpu s c ->
  if monitor_idles hw then exists fl s', psci_cpu_off_handler hw c s = Ok (fl, s') /\ reached c fl s'
  else exists msg, psci_cpu_off_handler hw c s = Fault (Panic msg).
Proof.
  intros Hr [v Hv]. unfold psci_cpu_off_handler, mbind, G_bind. rewrite (amod_run s c _ v) by done.
  set (s1 := put_vcpu c (set_psci_state OFF v) s).
  assert (vreach s1) as H1 by by apply (reach_put _ _ v); [..|apply untouched_state|].
  pose proof (idle_run hw s1 c (set_psci_state OFF v) H1 (put_lookup _ _ _)) as H. destruct (monitor_idles hw); [|done].
  destruct H as (fl & ->). exists fl, s1. split; [done|]. split; [done|]. apply put_has_cpu. by left.
Qed.

(** Whether the call is [CPU_OFF]: the identifier is cut to 32 bits. *)
Definition off_call (fid : Z) : bool := is_psci_fid fid && (u32 fid =? PSCI_CPU_OFF).

Lemma smc_run hw s c fid x1 x2 x3 :
  vreach s -> has_cpu s c -> is_psci_fid fid = true ->
  if negb (off_call fid) || monitor_idles hw
  then exists fl s', psci_smc_handler hw c fid x1 x2 x3 s = Ok (fl, s') /\ reached c fl s'
  else exists msg, psci_smc_handler hw c fid x1 x2 x3 s = Fault (Panic msg).
Proof.
  intros Hr Hc Hp. unfold psci_smc_handler, off_call. cbv zeta. rewrite Hp. cbn [andb].
  destruct (Z.eqb_spec (u32 fid) PSCI_CPU_OFF) as [->|Hn]; [by apply off_run|]. cbn [negb orb].
  replace (u32 fid =? PSCI_CPU_OFF) with false by lia. apply gwp_ok.
  repeat match goal with |- gwp (if ?b then _ else _) _ _ => destruct b end; try by apply gwp_ret.
  - destruct monitor_version as [v ->]. by apply gwp_ret.
  - by apply suspend_wp.
  - apply gwp_bind, cpu_on_wp; [done|]. intros ret s' Hr' Hd. apply gwp_ret. split; [done|auto].
Qed.

Lemma run_get_vcpu {B} s c v (k : avcpu -> G B) : avm_vcpus s !! c = Some v -> (aget_vcpu c ≫= k) s = k v s.
Proof. intros Hv. unfold mbind, G_bind, aget_vcpu. by rewrite Hv. Qed.
Lemma run_ok {A B} (m : G A) (k : A -> G B) s a s' : m s = Ok (a, s') -> (m ≫= k) s = k a s'.
Proof. intros H. unfold mbind, G_bind. by rewrite H. Qed.
Lemma run_fault {A B} (m : G A) (k : A -> G B) s f : m s = Fault f -> (m ≫= k) s = Fault f.
Proof. intros H. unfold mbind, G_bind. by rewrite H. Qed.

(** The identifier of the call that the guest makes on [c]. *)
Definition call_fid (s : avm) (c : Z) : Z :=
  match avm_vcpus s !! c with Some v => ld (av_regs v) 0 | None => 0 end.

Lemma smc64_returns hw s c iss far il :
  vreach s -> has_cpu s c ->
  if negb (off_call (call_fid s c)) || monitor_idles hw
  then exists fl s', smc64_handler hw c iss far il s = Ok (fl, s') /\ reached c fl s'
  else exists msg, smc64_handler hw c iss far il s = Fault (Panic msg).
Proof.
  intros Hr Hc. pose proof Hc as [v Hv]. unfold smc64_handler, call_fid. rewrite Hv.
  rewrite (run_get_vcpu _ _ v) by done. cbv zeta. set (fid := ld (av_regs v) 0).
  assert (forall fl s1, reached c fl s1 -> exists fl' s',
    match fl with Ret ret => Arm.vcpu_writereg c 0 (u64 ret);; step_pc c il;; mret Enter | _ => mret fl end s1
      = Ok (fl', s') /\ reached c fl' s') as Hend.
  { intros fl s1 [Hr1 [v1 Hv1]]. apply gwp_ok. assert (reached c fl s1) as Hgo by (split; [done|by exists v1]).
    destruct fl as [ret| | |]; try by apply gwp_ret.
    apply gwp_bind, (reach_writereg _ _ _ _ v1); [done|done|]. intros s2 v2 Hr2 Hv2 _ _.
    apply gwp_bind, (reach_amod _ _ _ v2); [done|done|apply untouched_pc|]. intros Hr3. apply gwp_ret.
    split; [done|apply put_has_cpu; by left]. }
  destruct (is_psci_fid fid) eqn:Hp.
  - pose proof (smc_run hw s c fid (ld (av_regs v) 1) (ld (av_regs v) 2) (ld (av_regs v) 3) Hr Hc Hp) as H.
    destruct (_ || _).
    + destruct H as (fl & s1 & E1 & H1). rewrite (run_ok _ _ _ _ _ E1). by apply Hend.
    + destruct H as (msg & E1). exists msg. by apply run_fault.
  - unfold off_call. rewrite Hp. cbn [andb negb orb]. by apply (Hend (Ret (-1)) s).
Qed.

Lemma hvc_returns cfg s c iss far il :
  vreach s -> has_cpu s c -> exists s', hvc64_handler cfg c iss far il s = Ok (tt, s') /\ vreach s'.
Proof.
  intros Hr Hc.
  destruct (gwp_ok (hvc64_handler cfg c iss far il) (fun _ s' => vreach s') s) as ([] & s' & Hs'); [|eauto].
  apply gwp_bind, aget_vcpu_wp; [done|]. intros v Hv.
  apply gwp_bind, (gwp_mono _ (fun _ s1 => vreach s1 /\ avm_vcpus s1 = avm_vcpus s)).
  - destruct (_ =? HC_IPC); [|by apply gwp_ret]. apply gwp_bind, gwp_gets.
    destruct (if _ <? _ then _ else _) as [o|]; [|by apply gwp_ret].
    destruct (ipc_get_shmem _ _) as [sh|]; [|by apply gwp_ret].
    apply gwp_bind, reach_send_mask; [apply arm_ipc_id|done|]. intros s1 H1 E1. by apply gwp_ret.
  - intros ret s1 [Hr1 E1]. apply (reach_writereg _ _ _ _ v); [done|by rewrite E1|]. by intros s2 _ Hr2 _ _ _.
Qed.

(** A trap that the hypervisor handles: the syndrome decides, and for a call of the guest
    its identifier and the answer of the secure monitor. *)
Definition trap_handled (hw : cpu_hw) (s : avm) (c esr far hpfar : Z) : bool :=
  let ec := bit_extract esr ESR_EC_OFF ESR_EC_LEN in
  let iss := bit_extract esr ESR_ISS_OFF ESR_ISS_LEN in
  let ipa := u64 (Z.lor (Z.land far 0xfff) (u64 (Z.shiftl hpfar 8))) in
  if ec =? ESR_EC_DALEL then data_abort_known iss && emulated s (data_access iss ipa)
  else if ec =? ESR_EC_SMC64 then negb (off_call (call_fid s c)) || monitor_idles hw
  else if ec =? ESR_EC_SYSRG then emulated s (sysreg_access iss)
  else ec =? ESR_EC_HVC64.

(** Whether the trap is an access that is emulated. *)
Definition trap_emulates (esr : Z) : bool :=
  let ec := bit_extract esr ESR_EC_OFF ESR_EC_LEN in (ec =? ESR_EC_DALEL) || (ec =? ESR_EC_SYSRG).


(** ** Messages

    No handler of a message sends one to its own CPU, so that the loop over the messages
    ends after one turn for each that was there. *)
Lemma calm_events {A} (m : G A) c s a s' : calm (Some c) m -> m s = Ok (a, s') -> events_of s' c = events_of s c.
Proof. intros Hm H. by apply (Hm _ _ _ H). Qed.

Lemma run_msg_events ipcs c msg s s' :
  0 <= c < 64 -> platform_cpu_num <= 64 -> run_msg ipcs c msg s = Ok (tt, s') -> events_of s' c = events_of s c.
Proof.
  intros Hc Hn. unfold run_msg. destruct (_ =? VGIC_IPI_ID).
  { apply calm_events, calm_ipi; auto. }
  destruct (_ =? PSCI_CPUSMG_ID).
  { unfold psci_cpumsg_handler. destruct (_ =? PSCI_MSG_ON); [|by intros [= <-]].
    unfold psci_wake_from_off, mbind, G_bind, ggets. destruct (avm_vcpus s !! c) as [v|] eqn:Hv; [|by intros [= <-]].
    case_bool_decide; [|by intros [= <-]].
    unfold vcpu_arch_reset, amod_vcpu, mbind, G_bind, aget_vcpu, aput_vcpu, gmod. rewrite Hv. simpl.
    rewrite !lookup_insert_eq. simpl. rewrite lookup_insert_eq. by intros [= <-]. }
  destruct (_ =? ARM_IPC_ID); [|by intros [= <-]]. unfold gipc_handler. destruct (_ =? IPC_NOTIFY); [|by intros [= <-]].
  unfold gipc_notify. destruct (ipc_find_by_shmemid _ _); [|by intros [= <-]]. destruct (_ <? _); [|by intros [= <-]].
  assert (forall id src, calm (Some c) (vgic_inject c id src)) as Hi by (intros; apply calm_inject; auto).
  apply calm_events. calm.
Qed.

(** The handler of the messages between CPUs ends: for every state, and whatever the
    messages are, more turns than there are messages change nothing, and a run that
    returns leaves no message. *)
Theorem cpu_msg_handler_ends ipcs c s fuel :
  0 <= c < 64 -> platform_cpu_num <= 64 -> (length (events_of s c) < fuel)%nat ->
  cpu_msg_loop ipcs fuel c s = cpu_msg_handler ipcs c s /\
  forall s', cpu_msg_handler ipcs c s = Ok (tt, s') -> events_of s' c = [].
Proof.
  intros Hc Hn Hf. unfold cpu_msg_handler. rewrite run_gets.
  enough (forall n s fuel fuel', length (events_of s c) = n -> (n < fuel)%nat -> (n < fuel')%nat ->
    cpu_msg_loop ipcs fuel c s = cpu_msg_loop ipcs fuel' c s /\
    forall s', cpu_msg_loop ipcs fuel' c s = Ok (tt, s') -> events_of s' c = []) as H by (eapply H; [done|lia|lia]).
  clear s fuel Hf. induction n as [|n IH]; intros s [|f] [|f'] Hl H1 H2; try lia; simpl;
    unfold mbind, G_bind, cpu_get_msg.
  - destruct (events_of s c) eqn:He; [|done]. split; [done|]. by intros s' [= <-].
  - destruct (events_of s c) as [|msg rest] eqn:He; [done|]. injection Hl as Hl.
    destruct (run_msg ipcs c msg _) as [[[] s1]|] eqn:Er; [|done]. apply IH; [|lia|lia].
    apply run_msg_events in Er; [|done..]. rewrite Er. unfold events_of. simpl. rewrite lookup_insert_eq. done.
Qed.

(** ** One PSCI call after another *)
Definition started (v : avcpu) (e ctx : Z) : Prop :=
  ps_state (av_psci v) = ON /\ av_elr v = e /\ av_regs v = st ∅ 0 ctx /\ spsr_el2 (av_sys v) = SPSR_RESET.

Definition on_msg : cpu_msg := mk_msg PSCI_CPUSMG_ID PSCI_MSG_ON 0.

(** The virtual CPU [v] of the CPU [t] after [CPU_ON], and after it has woken up. *)
Definition requested (s : avm) (t : Z) (v : avcpu) (e ctx : Z) : avm :=
  push_event t on_msg
    (put_vcpu t (set_psci_entry e ctx (set_psci_state ON_PENDING v)) (put_vcpu t (set_psci_state ON_PENDING v) s)).
Definition reset_at (e : Z) (v : avcpu) : avcpu :=
  set_sys (mk_guest_sys SPSR_RESET 0 SCTLR_RES1 0 0) (set_elr e (set_aregs ∅ v)).
Definition woken (v : avcpu) : avcpu :=
  set_aregs (st ∅ 0 (ps_context_id (av_psci v))) (set_psci_state ON (reset_at (ps_entrypoint (av_psci v)) v)).

Lemma requested_lookup s t v e ctx :
  avm_vcpus (requested s t v e ctx) !! t = Some (set_psci_entry e ctx (set_psci_state ON_PENDING v)).
Proof. unfold requested, push_event. simpl. by rewrite lookup_insert_eq. Qed.

Lemma requested_reach s t v e ctx : vreach s -> avm_vcpus s !! t = Some v -> vreach (requested s t v e ctx).
Proof.
  intros Hr Hv. eapply reach_step; [|apply step_send, psci_id].
  apply (reach_put _ _ (set_psci_state ON_PENDING v)); [|apply put_lookup|apply untouched_entry|done].
  by apply (reach_put _ _ v); [..|apply untouched_state|].
Qed.

Lemma cpu_on_run s c t v target e ctx :
  vm_get_vcpu_by_mpidr target s = Ok (Some t, s) -> avm_vcpus s !! t = Some v -> ps_state (av_psci v) = OFF ->
  vm_translate_to_pcpuid (vm_view s) (av_id v) = t ->
  psci_cpu_on_handler c target e ctx s = Ok (PSCI_E_SUCCESS, requested s t v e ctx).
Proof.
  intros Hm Hv Hoff Htr. unfold psci_cpu_on_handler, mbind, G_bind. rewrite Hm. unfold aget_vcpu. rewrite Hv.
  rewrite bool_decide_true by done. unfold amod_vcpu, mbind, G_bind, aget_vcpu. rewrite Hv. simpl.
  rewrite lookup_insert_eq. simpl. unfold vm_view in *. simpl. by rewrite Htr.
Qed.

Lemma cpu_on_again s c t v target e ctx :
  vm_get_vcpu_by_mpidr target s = Ok (Some t, s) -> avm_vcpus s !! t = Some v -> ps_state (av_psci v) <> OFF ->
  psci_cpu_on_handler c target e ctx s = Ok (PSCI_E_ALREADY_ON, s).
Proof.
  intros Hm Hv Hon. unfold psci_cpu_on_handler, mbind, G_bind. rewrite Hm. unfold aget_vcpu. rewrite Hv.
  by rewrite bool_decide_false.
Qed.

Lemma find_avcpu_put p m l t v v' :
  m !! t = Some v -> p v' = p v -> find_avcpu p (<[t := v']> m) l = find_avcpu p m l.
Proof.
  intros Hv Hp. induction l as [|a l IH]; [done|]. simpl. rewrite lookup_insert. case_decide as Ha; [|by rewrite IH].
  subst a. by rewrite Hv, Hp, IH.
Qed.

Lemma requested_find s t v e ctx target :
  avm_vcpus s !! t = Some v -> vm_get_vcpu_by_mpidr target s = Ok (Some t, s) ->
  vm_get_vcpu_by_mpidr target (requested s t v e ctx) = Ok (Some t, requested s t v e ctx).
Proof.
  intros Hv Hm. unfold vm_get_vcpu_by_mpidr, ggets in *. injection Hm as Hm. do 2 f_equal. rewrite <- Hm.
  unfold requested, push_event. simpl. rewrite insert_insert_eq. by apply (find_avcpu_put _ _ _ _ v).
Qed.

Lemma put_put s t v v' : put_vcpu t v' (put_vcpu t v s) = put_vcpu t v' s.
Proof. unfold put_vcpu, set_vcpus. simpl. by rewrite insert_insert_eq. Qed.

Lemma wake_run s t v :
  avm_vcpus s !! t = Some v -> ps_state (av_psci v) = ON_PENDING -> psci_wake_from_off t s = Ok (tt, put_vcpu t (woken v) s).
Proof.
  intros Hv Hp. unfold psci_wake_from_off. rewrite run_gets, Hv, bool_decide_true by done.
  unfold vcpu_arch_reset, mbind, G_bind. rewrite (amod_run s _ _ v) by done.
  rewrite (amod_run _ _ _ _ (put_lookup _ _ _)), (amod_run _ _ _ _ (put_lookup _ _ _)), !put_put. done.
Qed.

Lemma woken_reach s t v : vreach s -> avm_vcpus s !! t = Some v -> vreach (put_vcpu t (woken v) s).
Proof. intros Hr Hv. by apply (reach_put _ _ v). Qed.

(** A CPU whose only message is the one of [CPU_ON]. *)
Lemma on_msg_run ipcs s t v :
  avm_vcpus s !! t = Some v -> ps_state (av_psci v) = ON_PENDING -> events_of s t = [on_msg] ->
  cpu_msg_handler ipcs t s = Ok (tt, put_vcpu t (woken v) (pop_event t [] s)).
Proof.
  intros Hv Hp He. unfold cpu_msg_handler. rewrite run_gets, He. unfold cpu_msg_loop. simpl length. cbv iota.
  unfold mbind at 1, G_bind at 1, cpu_get_msg at 1. rewrite He. change (set_events _ s) with (pop_event t [] s).
  assert (run_msg ipcs t on_msg = psci_wake_from_off t) as ->.
  { unfold run_msg, on_msg. cbn [msg_handler msg_event msg_data].
    replace (PSCI_CPUSMG_ID =? VGIC_IPI_ID) with false by (symmetry; apply Z.eqb_neq, psci_id). by rewrite Z.eqb_refl. }
  unfold mbind, G_bind. rewrite (wake_run (pop_event t [] s) t v) by done. unfold cpu_get_msg.
  assert (events_of (put_vcpu t (woken v) (pop_event t [] s)) t = []) as ->; [|done].
  unfold events_of. simpl. by rewrite lookup_insert_eq.
Qed.

(** C31. In a state of [vreach], [CPU_ON] of a virtual CPU that is off and has no message
    waiting succeeds, a second call is refused and changes nothing, and once the CPU has
    handled its messages it runs the guest at the entry point, with the context in [x0]
    and all other registers zero. *)
Theorem psci_cpu_on_starts ipcs hw s c t v target e ctx :
  vreach s -> vm_get_vcpu_by_mpidr target s = Ok (Some t, s) -> avm_vcpus s !! t = Some v ->
  ps_state (av_psci v) = OFF -> vm_translate_to_pcpuid (vm_view s) (av_id v) = t -> events_of s t = [] ->
  exists s1, psci_cpu_on_handler c target e ctx s = Ok (PSCI_E_SUCCESS, s1) /\ vreach s1 /\
    (forall e' ctx', psci_cpu_on_handler c target e' ctx' s1 = Ok (PSCI_E_ALREADY_ON, s1)) /\
    exists s2 v2, cpu_msg_handler ipcs t s1 = Ok (tt, s2) /\ vreach s2 /\ avm_vcpus s2 !! t = Some v2 /\
      started v2 e ctx /\ vcpu_run hw t s2 = Ok (Enter, s2).
Proof.
  intros Hr Hm Hv Hoff Htr Hev. set (s1 := requested s t v e ctx).
  pose proof (requested_lookup s t v e ctx) as Hv1. pose proof (requested_reach s t v e ctx Hr Hv) as Hr1.
  assert (events_of s1 t = [on_msg]) as He1.
  { unfold s1, requested, push_event. unfold events_of in *. simpl. rewrite lookup_insert_eq. simpl. by rewrite Hev. }
  exists s1. split; [by apply cpu_on_run|]. split; [done|]. split.
  - intros e' ctx'. eapply cpu_on_again; [by apply requested_find|exact Hv1|done].
  - set (v1 := set_psci_entry _ _ _) in *. exists (put_vcpu t (woken v1) (pop_event t [] s1)), (woken v1).
    split; [by apply on_msg_run|]. split; [|split; [apply put_lookup|split; [done|]]].
    + apply woken_reach; [|done]. eapply reach_step; [exact Hr1|].
      apply (step_other s1 t on_msg); [by exists v1|done|apply psci_id].
    + unfold vcpu_run, vcpu_arch_run, mbind, G_bind, aget_vcpu. by rewrite put_lookup.
Qed.

Lemma restore_returns s c v hw i :
  vreach s -> avm_vcpus s !! c = Some v -> exists j s' v',
    gicc_restore_state c (saved hw c i v) s = Ok (j, s') /\ vreach s' /\ avm_vcpus s' !! c = Some v' /\
    av_psci v' = av_psci v.
Proof.
  intros Hr Hv. pose proof (sys_inv _ (vreach_sys _ Hr)) as I.
  destruct (inv_vcpu _ _ I c v Hv) as (_ & _ & Hl & _ & _ & Hh).
  destruct (gwp_ok (gicc_restore_state c (saved hw c i v))
    (fun _ s' => exists v', avm_vcpus s' !! c = Some v' /\ av_psci v' = av_psci v) s) as (j & s' & Es & v' & Hv' & Hp).
  { apply (restore_wp _ _ v); [done|done|unfold saved; cbn [gs_LR]; by rewrite length_fmap|by apply wrap_range|].
    intros io. eexists. split; [apply put_lookup|done]. }
  exists j, s', v'. split; [done|]. split; [|done]. eapply reach_step; [done|].
  apply (step_power s c v hw i (saved hw c i v) j); [done|by apply save_run|done].
Qed.

Lemma wake_powerdown_returns ipcs hw s c v el2 fm g i :
  vreach s -> avm_vcpus s !! c = Some v -> ps_state (av_psci v) = ON ->
  exists s' v', psci_wake ipcs hw c (mk_off el2 PSCI_WAKEUP_POWERDOWN fm (saved g c i v)) s = Ok (Enter, s') /\
    vreach s' /\ avm_vcpus s' !! c = Some v' /\ started v' (ps_entrypoint (av_psci v)) (ps_context_id (av_psci v)).
Proof.
  intros Hr Hv Hon. destruct (restore_returns s c v g i Hr Hv) as (j & s2 & v2 & Es & Hr2 & Hv2 & Hp).
  set (v3 := reset_at (ps_entrypoint (av_psci v)) v2). set (v4 := set_aregs (st ∅ 0 (ps_context_id (av_psci v))) v3).
  assert (vreach (put_vcpu c v3 s2)) as Hr3 by by apply (reach_put _ _ v2).
  exists (put_vcpu c v4 (put_vcpu c v3 s2)), v4. split_and!.
  - unfold psci_wake, psci_restore_state. cbn [os_gicc os_wakeup_reason]. unfold mbind at 1, G_bind at 1. rewrite Es.
    cbv zeta. change (PSCI_WAKEUP_POWERDOWN =? PSCI_WAKEUP_CPU_OFF) with false. rewrite Z.eqb_refl.
    unfold psci_wake_from_powerdown, mbind, G_bind. unfold aget_vcpu at 1. rewrite Hv2, Hp.
    unfold vcpu_arch_reset. rewrite (amod_run _ _ _ _ Hv2). unfold Arm.vcpu_writereg. cbn [Z.ltb Z.compare].
    fold (reset_at (ps_entrypoint (av_psci v)) v2). fold v3. rewrite (amod_run _ _ _ _ (put_lookup s2 c v3)).
    unfold vcpu_run, vcpu_arch_run, mbind, G_bind, aget_vcpu. rewrite put_lookup. simpl. by rewrite Hp, bool_decide_true.
  - by apply (reach_put _ _ v3); [|apply put_lookup|..].
  - apply put_lookup.
  - unfold started. simpl. by rewrite Hp.
Qed.

(** A virtual CPU that suspends itself with loss of its state starts again at the entry
    point it gave, with the context in [x0]. *)
Theorem psci_suspend_resumes ipcs hw hw' s c v ps e ctx :
  vreach s -> avm_vcpus s !! c = Some v -> ps_state (av_psci v) = ON ->
  s32 (Z.land ps PSCI_STATE_TYPE_BIT) <> 0 ->
  psci_cpu_suspend (Z.lor PSCI_POWER_STATE_LVL_0 PSCI_STATE_TYPE_POWERDOWN) (ch_boot_entry hw) (ch_off_state hw) = None ->
  exists off s1 s2 v2, psci_cpu_suspend_handler hw c ps e ctx s = Ok (Down off, s1) /\
    psci_wake ipcs hw' c off s1 = Ok (Enter, s2) /\ vreach s2 /\ avm_vcpus s2 !! c = Some v2 /\ started v2 e ctx.
Proof.
  intros Hr Hv Hon Hps Hfw. set (v1 := set_psci_entry e ctx v). set (s1 := put_vcpu c v1 s).
  assert (vreach s1) as Hr1 by by apply (reach_put _ _ v); [..|apply untouched_entry|].
  assert (avm_vcpus s1 !! c = Some v1) as Hv1 by apply put_lookup.
  destruct (wake_powerdown_returns ipcs hw' s1 c v1 (ch_el2 hw) (ch_flat_map hw) (ch_gic hw) (ch_icc hw) Hr1 Hv1 Hon)
    as (s2 & v2 & Hw & Hr2 & Hv2 & Hst).
  eexists _, s1, s2, v2. split; [|split; [exact Hw|done]]. unfold psci_cpu_suspend_handler.
  replace (negb _) with true by (symmetry; apply negb_true_iff, Z.eqb_neq; done).
  unfold mbind at 1, G_bind at 1. rewrite (amod_run s c _ v) by done. fold v1 s1.
  unfold psci_power_down, psci_save_state, mbind, G_bind.
  rewrite (save_run _ _ _ _ v1 (sys_inv _ (vreach_sys _ Hr1)) Hv1). unfold mret, G_ret. by rewrite Hfw.
Qed.

End Traps.

(** ** The VM of VgicDemo.v *)
#[export] Instance demo_plat : ArmPlat :=
  Build_ArmPlat 0 0 (Z.shiftl 1 16) (Z.shiftl 1 16) 5 (fun x0 _ _ _ => if x0 =? PSCI_VERSION then Some 2 else None).
#[export] Instance demo_arm_laws : ArmLaws.
Proof. split; [done|done|by exists 2]. Qed.

Definition demo_hw : cpu_hw := mk_cpu_hw (mk_el2 0 0 0 0 0 0 0 0) (mk_icc 1 255 0 2 1) (fun _ => 0) 0 0 0.

(** A store of register 1, 4 bytes wide, that faults at [0x8000104]. *)
Definition demo_esr : Z :=
  Z.lor (Z.shiftl ESR_EC_DALEL 26) (Z.lor (Z.shiftl 1 25)
    (Z.lor (Z.shiftl 1 24) (Z.lor (Z.shiftl 2 22) (Z.lor (Z.shiftl 1 16) (Z.lor (Z.shiftl 1 6) 7))))).


Definition demo_wait : avm :=
  match avm_vcpus demo_on !! 1 with Some v => put_vcpu 1 (set_psci_state OFF v) demo_on | None => demo_on end.
Definition demo_second : avcpu := default (demo_vcpu 1) (avm_vcpus demo_wait !! 1).

Lemma demo_wait_reach : vreach demo_wait.
Proof.
  unfold demo_wait. destruct (avm_vcpus demo_on !! 1) as [v|] eqn:Hv; [|apply demo_on_reach].
  by apply (reach_put _ _ v); [apply demo_on_reach|..|apply untouched_state|].
Qed.

Lemma demo_second_lookup : avm_vcpus demo_wait !! 1 = Some demo_second.
Proof. unfold demo_second. destruct (avm_vcpus demo_wait !! 1) eqn:Hv; [done|by vm_compute in Hv]. Qed.

Lemma psci_cpu_on_starts_witness :
  exists s1 s2 v2, psci_cpu_on_handler 0 1 0x40000000 7 demo_wait = Ok (PSCI_E_SUCCESS, s1) /\
    avm_vcpus s2 !! 1 = Some v2 /\ started v2 0x40000000 7 /\ vcpu_run demo_hw 1 s2 = Ok (Enter, s2).
Proof.
  destruct (psci_cpu_on_starts [] demo_hw demo_wait 0 1 demo_second 1 0x40000000 7) as (s1 & H1 & _ & _ & s2 & v2 & _ & _ & H2 & H3 & H4);
    [apply demo_wait_reach| |apply demo_second_lookup|by vm_compute|by vm_compute|by vm_compute|].
  { unfold vm_get_vcpu_by_mpidr, ggets. do 2 f_equal. }
  exists s1, s2, v2. split; [exact H1|]. split; [exact H2|]. split; [exact H3|]. exact H4.
Defined.

Lemma psci_suspend_resumes_witness :
  exists s2 v2, vreach s2 /\ avm_vcpus s2 !! 0 = Some v2 /\ started v2 0x1000 9.
Proof.
  assert (exists v, avm_vcpus demo_on !! 0 = Some v /\ ps_state (av_psci v) = ON) as (v & Hv & Hon).
  { destruct (avm_vcpus demo_on !! 0) as [v|] eqn:Hv; [|by vm_compute in Hv]. exists v. split; [done|].
    assert (ps_state (av_psci (default (demo_vcpu 0) (avm_vcpus demo_on !! 0))) = ON) as H by by vm_compute.
    by rewrite Hv in H. }
  destruct (psci_suspend_resumes [] demo_hw demo_hw demo_on 0 v (Z.shiftl 1 16) 0x1000 9) as (off & s1 & s2 & v2 & _ & _ & H);
    [apply demo_on_reach|exact Hv|exact Hon|by vm_compute|by vm_compute|].
  exists s2, v2. exact H.
Defined.

Lemma cpu_msg_handler_ends_witness :
  cpu_msg_loop [] 9 1 demo_wait = cpu_msg_handler [] 1 demo_wait.
Proof. destruct (cpu_msg_handler_ends [] 1 demo_wait 9) as [H _]; [lia|by vm_compute|vm_compute; lia|exact H]. Defined.
