(* ===== verification/PsciRun.v ===== *)
(** * PSCI on several CPUs at once

    [arch/armv8/psci.c] with [vcpu_arch_run], [cpu_idle_wakeup] and [cpu_msg_handler]: the
    virtual CPUs of a VM start, stop and suspend each other. Each access to the PSCI state
    of a virtual CPU ([psci_ctx]) and each message is one step of a CPU; the lock a
    function takes is the one of the virtual CPU that runs it, and is taken and released
    with its first and its last access. The guests, interrupts, and the answers of the
    secure monitor are inputs of the steps. The messages of other parts are without
    effect here.

    The specification is an automaton of one virtual CPU: off, about to start at an entry
    point, or on. *)

From S2P Require Import Prelude Arm.

(** ** The CPUs *)
Inductive msg := MsgOn | MsgOther.

#[export] Instance msg_eq_dec : EqDecision msg.
Proof. solve_decision. Defined.

(** Where a CPU is. [back]: it handles messages in an interrupt of its guest; otherwise
    in [cpu_idle_wakeup]. *)
Inductive place :=
  | Guest
  | OnRead (t : nat) (e ctx : Z)     (* [psci_cpu_on_handler]: the state of [t] is read *)
  | OnState (t : nat) (e ctx : Z)    (* its four writes *)
  | OnEntry (t : nat) (e ctx : Z)
  | OnContext (t : nat) (e ctx : Z)
  | OnPush (t : nat)                 (* [cpu_send_msg]: the message *)
  | OnIpi (t : nat)                  (* and the interrupt *)
  | SuspendEntry (e ctx : Z)         (* [psci_cpu_suspend_handler] *)
  | SuspendContext (ctx : Z)
  | SuspendCall                      (* [psci_power_down] *)
  | Suspended
  | ResumeReset                      (* [psci_wake_from_powerdown] *)
  | ResumeContext
  | Idle                             (* [cpu_idle] *)
  | Msgs (back : bool)               (* [cpu_msg_handler] *)
  | WakeRead (back : bool)           (* [psci_wake_from_off] *)
  | WakeReset (back : bool)
  | WakeOn (back : bool)
  | WakeContext (back : bool)
  | RunCheck.                        (* [vcpu_arch_run] *)

Record pcpu := mk_pcpu {
  p_state : psci_state; p_entry : Z; p_context : Z; p_lock : bool;
  p_elr : Z; p_x0 : Z; p_ipi : bool; p_queue : list msg; p_place : place
}.

Definition put_state (st : psci_state) (x : pcpu) : pcpu :=
  mk_pcpu st (p_entry x) (p_context x) (p_lock x) (p_elr x) (p_x0 x) (p_ipi x) (p_queue x) (p_place x).
Definition put_entry (e : Z) (x : pcpu) : pcpu :=
  mk_pcpu (p_state x) e (p_context x) (p_lock x) (p_elr x) (p_x0 x) (p_ipi x) (p_queue x) (p_place x).
Definition put_context (n : Z) (x : pcpu) : pcpu :=
  mk_pcpu (p_state x) (p_entry x) n (p_lock x) (p_elr x) (p_x0 x) (p_ipi x) (p_queue x) (p_place x).
Definition put_lock (b : bool) (x : pcpu) : pcpu :=
  mk_pcpu (p_state x) (p_entry x) (p_context x) b (p_elr x) (p_x0 x) (p_ipi x) (p_queue x) (p_place x).
Definition put_regs (e n : Z) (x : pcpu) : pcpu :=
  mk_pcpu (p_state x) (p_entry x) (p_context x) (p_lock x) e n (p_ipi x) (p_queue x) (p_place x).
Definition put_ipi (b : bool) (x : pcpu) : pcpu :=
  mk_pcpu (p_state x) (p_entry x) (p_context x) (p_lock x) (p_elr x) (p_x0 x) b (p_queue x) (p_place x).
Definition put_queue (q : list msg) (x : pcpu) : pcpu :=
  mk_pcpu (p_state x) (p_entry x) (p_context x) (p_lock x) (p_elr x) (p_x0 x) (p_ipi x) q (p_place x).
Definition put_place (p : place) (x : pcpu) : pcpu :=
  mk_pcpu (p_state x) (p_entry x) (p_context x) (p_lock x) (p_elr x) (p_x0 x) (p_ipi x) (p_queue x) p.

(** ** Steps *)

(** What a guest or the hardware chooses. *)
Inductive input :=
  | Go                        (* the CPU goes on *)
  | Run (elr x0 : Z)          (* the guest runs *)
  | CallOn (t : nat) (e ctx : Z)
  | CallOff
  | CallSuspend (e ctx : Z)
  | Refuse                    (* the monitor does not power down *)
  | Irq                       (* an interrupt between CPUs, where there is one *)
  | Other.                    (* another message arrives *)

Inductive label :=
  | Tau
  | Accept (e ctx : Z)        (* a call starts the CPU *)
  | Already                   (* a call finds it started *)
  | EnterGuest (e x0 : Z)     (* its guest enters at [e] with [x0] *)
  | GoOff
  | Suspend (e ctx : Z).

(** A step that reads and writes the own virtual CPU only. Taking the own lock waits while
    it is taken. *)
Definition own_step (i : input) (x : pcpu) : option (label * pcpu) :=
  let lock y := if p_lock x then None else Some (Tau, put_lock true y) in
  match p_place x, i with
  | _, Other => Some (Tau, put_ipi true (put_queue (p_queue x ++ [MsgOther]) x))
  | Guest, Run e n => Some (Tau, put_regs e n x)
  | Guest, CallOn t e ctx => lock (put_place (OnRead t e ctx) x)
  | Guest, CallOff => if p_lock x then None else Some (GoOff, put_place Idle (put_state OFF x))
  | Guest, CallSuspend e ctx => lock (put_place (SuspendEntry e ctx) x)
  | Guest, Irq => if p_ipi x then Some (Tau, put_place (Msgs true) (put_ipi false x)) else None
  | SuspendEntry e ctx, Go => Some (Tau, put_place (SuspendContext ctx) (put_entry e x))
  | SuspendContext ctx, Go => Some (Tau, put_place SuspendCall (put_lock false (put_context ctx x)))
  | SuspendCall, Go => Some (Suspend (p_entry x) (p_context x), put_place Suspended x)
  | SuspendCall, Refuse => Some (Tau, put_place Guest x)
  | Suspended, Go => Some (Tau, put_place ResumeReset x)
  | ResumeReset, Go => Some (Tau, put_place ResumeContext (put_regs (p_entry x) 0 x))
  | ResumeContext, Go => Some (Tau, put_place RunCheck (put_regs (p_elr x) (p_context x) x))
  | Idle, Go => Some (Tau, if p_ipi x then put_place (Msgs false) (put_ipi false x) else put_place RunCheck x)
  | Msgs b, Go =>
      match p_queue x with
      | [] => Some (Tau, put_place (if b then Guest else RunCheck) x)
      | MsgOn :: q => lock (put_place (WakeRead b) (put_queue q x))
      | MsgOther :: q => Some (Tau, put_queue q x)
      end
  | WakeRead b, Go =>
      Some (Tau, if decide (p_state x = ON_PENDING) then put_place (WakeReset b) x
                 else put_place (Msgs b) (put_lock false x))
  | WakeReset b, Go => Some (Tau, put_place (WakeOn b) (put_regs (p_entry x) 0 x))
  | WakeOn b, Go => Some (Tau, put_place (WakeContext b) (put_state ON x))
  | WakeContext b, Go => Some (Tau, put_place (Msgs b) (put_lock false (put_regs (p_elr x) (p_context x) x)))
  | RunCheck, Go =>
      Some (if decide (p_state x = ON) then (EnterGuest (p_elr x) (p_x0 x), put_place Guest x)
            else (Tau, put_place Idle x))
  | _, _ => None
  end.

(** The virtual CPU a call is about, and one step of the call: what it does to that
    virtual CPU [y], where the call goes on, and whether it releases its lock. *)
Definition target (p : place) : option nat :=
  match p with
  | OnRead t _ _ | OnState t _ _ | OnEntry t _ _ | OnContext t _ _ | OnPush t => Some t
  | _ => None
  end.

Definition call_step (p : place) (y : pcpu) : label * pcpu * place * bool :=
  match p with
  | OnRead t e ctx =>
      if decide (p_state y = OFF) then (Accept e ctx, y, OnState t e ctx, false) else (Already, y, Guest, true)
  | OnState t e ctx => (Tau, put_state ON_PENDING y, OnEntry t e ctx, false)
  | OnEntry t e ctx => (Tau, put_entry e y, OnContext t e ctx, false)
  | OnContext t e ctx => (Tau, put_context ctx y, OnPush t, true)
  | OnPush t => (Tau, put_queue (p_queue y ++ [MsgOn]) y, OnIpi t, false)
  | _ => (Tau, y, p, false)
  end.

Definition move (p : place) (unlock : bool) (x : pcpu) : pcpu :=
  put_place p (if unlock then put_lock false x else x).

(** A step of the CPU [c], with the CPU its label is about. *)
Definition psci_step (c : nat) (i : input) (s : list pcpu) : option (nat * label * list pcpu) :=
  x ← s !! c;
  let own := '(l, x') ← own_step i x; Some (c, l, <[c := x']> s) in
  match target (p_place x), i with
  | Some t, Go =>
      y ← s !! t;
      let '(l, y', p', unlock) := call_step (p_place x) y in
      Some (t, l, alter (move p' unlock) c (<[t := y']> s))
  | Some _, _ => own
  | None, _ =>
      match p_place x, i with
      | OnIpi t, Go => Some (c, Tau, alter (put_place Guest) c (alter (put_ipi true) t s))
      | Guest, CallOn t _ _ => if decide (t < length s)%nat then own else Some (c, Tau, s)
      | _, _ => own
      end
  end.

(** The virtual CPUs before they run: each is on or off, and no message is on its way. *)
Definition at_start (x : pcpu) : Prop :=
  p_place x = RunCheck /\ p_state x <> ON_PENDING /\ p_queue x = [] /\ p_lock x = false.

(** Runs, with the labels about each CPU, the first one first. *)
Inductive psci_run (s0 : list pcpu) : list (nat * label) -> list pcpu -> Prop :=
  | run_start : psci_run s0 [] s0
  | run_step tr s c i t l s' :
      psci_run s0 tr s -> psci_step c i s = Some (t, l, s') -> psci_run s0 (tr ++ [(t, l)]) s'.

(** No two calls about one virtual CPU overlap. *)
Definition serial (s : list pcpu) : Prop :=
  forall c d x y t, s !! c = Some x -> s !! d = Some y ->
    target (p_place x) = Some t -> target (p_place y) = Some t -> c = d.

Inductive serial_run (s0 : list pcpu) : list (nat * label) -> list pcpu -> Prop :=
  | serial_start : serial_run s0 [] s0
  | serial_step tr s c i t l s' :
      serial_run s0 tr s -> psci_step c i s = Some (t, l, s') -> serial s' -> serial_run s0 (tr ++ [(t, l)]) s'.

(** ** The specification *)
Inductive spec := Off | Starting (e ctx : Z) | On.

Inductive spec_step : spec -> label -> spec -> Prop :=
  | spec_tau a : spec_step a Tau a
  | spec_accept e ctx : spec_step Off (Accept e ctx) (Starting e ctx)
  | spec_already a : a <> Off -> spec_step a Already a
  | spec_enter e ctx : spec_step (Starting e ctx) (EnterGuest e ctx) On
  | spec_off : spec_step On GoOff Off
  | spec_suspend e ctx : spec_step On (Suspend e ctx) (Starting e ctx).

(** What the labels about the CPU [t] do. *)
Inductive spec_run (t : nat) (a : spec) : list (nat * label) -> spec -> Prop :=
  | spec_start : spec_run t a [] a
  | spec_other tr b u l : spec_run t a tr b -> u <> t -> spec_run t a (tr ++ [(u, l)]) b
  | spec_own tr b l b' : spec_run t a tr b -> spec_step b l b' -> spec_run t a (tr ++ [(t, l)]) b'.

Definition spec_of (x : pcpu) : spec :=
  if decide (p_state x = ON) then Starting (p_elr x) (p_x0 x) else Off.

(** ** What a CPU and the call about it agree on *)
Definition awake (p : place) : bool :=
  match p with
  | Guest | OnRead _ _ _ | OnState _ _ _ | OnEntry _ _ _ | OnContext _ _ _ | OnPush _ | OnIpi _
  | SuspendEntry _ _ | SuspendContext _ | SuspendCall | Msgs true => true
  | _ => false
  end.
Definition asleep (p : place) : bool := match p with Idle | Msgs false | RunCheck => true | _ => false end.

Fixpoint ons (q : list msg) : nat :=
  match q with [] => 0 | MsgOn :: q' => S (ons q') | MsgOther :: q' => ons q' end.

Lemma ons_app q m : ons (q ++ [m]) = (ons q + if decide (m = MsgOn) then 1 else 0)%nat.
Proof. induction q as [|[] q IH]; simpl; [by destruct m|by rewrite IH|done]. Qed.

(** No call, or one that has not looked yet. *)
Definition quiet (o : option place) : Prop := match o with None | Some (OnRead _ _ _) => True | _ => False end.

(** A call that has found the CPU off. *)
Definition call_ok (p : place) (x : pcpu) (e ctx : Z) : Prop :=
  match p with
  | OnState _ e' ctx' => e' = e /\ ctx' = ctx /\ p_state x = OFF
  | OnEntry _ e' ctx' => e' = e /\ ctx' = ctx /\ p_state x = ON_PENDING
  | OnContext _ e' ctx' => e' = e /\ ctx' = ctx /\ p_state x = ON_PENDING /\ p_entry x = e
  | OnPush _ => p_state x = ON_PENDING /\ p_entry x = e /\ p_context x = ctx
  | _ => False
  end.

(** The message is on its way, or the CPU is about to act on it. *)
Definition sent (x : pcpu) : Prop :=
  match p_place x with
  | Idle | Msgs false | RunCheck => ons (p_queue x) = 1%nat
  | WakeRead false | WakeReset false => ons (p_queue x) = 0%nat
  | WakeOn false => ons (p_queue x) = 0%nat /\ p_elr x = p_entry x
  | _ => False
  end.

(** [o] is the place of the call about the CPU. *)
Inductive phase (o : option place) (x : pcpu) : spec -> Prop :=
  | ph_on : quiet o -> awake (p_place x) = true -> p_state x = ON -> ons (p_queue x) = 0%nat -> phase o x On
  | ph_off : quiet o -> asleep (p_place x) = true -> p_state x = OFF -> ons (p_queue x) = 0%nat -> phase o x Off
  | ph_call p e ctx :
      o = Some p -> asleep (p_place x) = true -> ons (p_queue x) = 0%nat -> call_ok p x e ctx ->
      phase o x (Starting e ctx)
  | ph_sent e ctx :
      quiet o -> p_state x = ON_PENDING -> sent x -> e = p_entry x -> ctx = p_context x -> phase o x (Starting e ctx)
  | ph_context e ctx :
      quiet o -> p_place x = WakeContext false -> p_state x = ON -> ons (p_queue x) = 0%nat ->
      e = p_elr x -> ctx = p_context x -> phase o x (Starting e ctx)
  | ph_ready e ctx :
      quiet o -> asleep (p_place x) = true -> p_state x = ON -> ons (p_queue x) = 0%nat ->
      e = p_elr x -> ctx = p_x0 x -> phase o x (Starting e ctx)
  | ph_suspended e ctx :
      quiet o -> p_place x = Suspended \/ p_place x = ResumeReset -> p_state x = ON -> ons (p_queue x) = 0%nat ->
      e = p_entry x -> ctx = p_context x -> phase o x (Starting e ctx)
  | ph_resume e ctx :
      quiet o -> p_place x = ResumeContext -> p_state x = ON -> ons (p_queue x) = 0%nat ->
      e = p_elr x -> ctx = p_context x -> phase o x (Starting e ctx).

Create HintDb phase.
#[export] Hint Constructors phase spec_step : phase.

Lemma phase_quiet o o' x a : phase o x a -> quiet o -> quiet o' -> phase o' x a.
Proof. destruct 1; intros; eauto with phase. subst. by destruct p. Qed.

(** The rest of the CPU does not matter. *)
Lemma phase_ipi o b x a : phase o x a -> phase o (put_ipi b x) a.
Proof. destruct 1; eauto with phase. Qed.

(** A CPU that makes a call is on. *)
Lemma phase_awake o x a : phase o x a -> awake (p_place x) = true -> a = On /\ quiet o /\ p_state x = ON.
Proof.
  intros Hp Ha. destruct Hp as [| | | ? ? ? ? Hs | ? ? ? Hs| |? ? ? [Hs|Hs]|? ? ? Hs]; try done;
    first [by rewrite Hs in Ha | by destruct (p_place x) as [| | | | | | | | | | | | | |[]| | | | |] | idtac].
  all: unfold sent in *; destruct (p_place x) as [| | | | | | | | | | | | | |[]|[]|[]|[]|[]|]; done.
Qed.

Lemma phase_move o x a p unlock :
  phase o x a -> awake (p_place x) = true -> awake p = true -> phase o (move p unlock x) a.
Proof.
  intros Hp Ha Hp'. destruct (phase_awake _ _ _ Hp Ha) as (-> & Hq & Hst).
  inversion Hp as [_ _ _ Ho| | | | | | |]. by apply ph_on; destruct unlock.
Qed.

(** ** Each step keeps to the specification *)

(** The choices of a step, and then the phase it leads to. *)
Ltac own_close :=
  simpl; unfold sent in *; simpl in *; destruct_and?; repeat split; (first [done | lia | congruence | by left | by right]).
Ltac own_finish H :=
  repeat match type of H with
    | context [match ?e with _ => _ end] => let E1 := fresh "E" in destruct e eqn:E1; try done
    end;
  repeat case_decide; simplify_eq; simpl in *; try done;
  eexists; (split; [solve [eauto with phase]|]);
  (first [solve [apply ph_on; own_close] | solve [apply ph_off; own_close] | solve [eapply ph_call; own_close]
    | solve [apply ph_sent; own_close] | solve [apply ph_context; own_close] | solve [apply ph_ready; own_close]
    | solve [apply ph_suspended; own_close] | solve [apply ph_resume; own_close]]).

Lemma own_phase o i x a l x' :
  phase o x a -> own_step i x = Some (l, x') -> exists a', spec_step a l a' /\ phase o x' a'.
Proof.
  intros Hp H.
  assert (i = Other \/ i <> Other) as [->|Hi] by (destruct i; auto).
  { unfold own_step in H. assert (l = Tau /\ x' = put_ipi true (put_queue (p_queue x ++ [MsgOther]) x)) as [-> ->]
      by (destruct (p_place x); injection H as <- <-; done).
    exists a. split; [constructor|]. apply phase_ipi.
    assert (ons (p_queue x ++ [MsgOther]) = ons (p_queue x)) as Ho by (rewrite ons_app, decide_False by done; lia).
    destruct Hp; [apply ph_on|apply ph_off|eapply ph_call|apply ph_sent|apply ph_context|apply ph_ready|apply ph_suspended|apply ph_resume];
      simpl; rewrite ?Ho; try done. unfold sent in *. simpl. by rewrite Ho. }
  unfold own_step in H. destruct x as [st en cx lk elr x0 ipi q pl]. cbn [p_place p_state p_lock p_queue p_ipi p_entry p_context p_elr p_x0] in H.
  destruct Hp as [Hq Ha Hs Ho|Hq Ha Hs Ho|p e c Eo Ha Ho Hc|e c Hq Hs Hsent He Hc|e c Hq Ha Hs Ho He Hc|e c Hq Ha Hs Ho He Hc
    |e c Hq Ha Hs Ho He Hc|e c Hq Ha Hs Ho He Hc]; simpl in *; subst.
  - destruct pl as [| | | | | | | | | | | | | |[]| | | | |]; try done; destruct i; try done; simpl in H; own_finish H.
  - destruct pl as [| | | | | | | | | | | | | |[]| | | | |]; try done; destruct i; try done; simpl in H; own_finish H.
  - destruct p; try done; simpl in Hc; destruct_and?; simplify_eq;
      destruct pl as [| | | | | | | | | | | | | |[]| | | | |]; try done; destruct i; try done; simpl in H; own_finish H.
  - destruct pl as [| | | | | | | | | | | | | |[]|[]|[]|[]|[]|]; try done; destruct i; try done; simpl in *; own_finish H.
  - destruct i; try done; simpl in H; own_finish H.
  - destruct pl as [| | | | | | | | | | | | | |[]| | | | |]; try done; destruct i; try done; simpl in H; own_finish H.
  - destruct Ha as [-> | ->]; destruct i; try done; simpl in H; own_finish H.
  - destruct i; try done; simpl in H; own_finish H.
Qed.

(** One step of a call, when it has the CPU to itself. *)
Lemma call_phase p t y a l y' p' unlock :
  phase (Some p) y a -> target p = Some t -> call_step p y = (l, y', p', unlock) ->
  exists a', spec_step a l a' /\ phase (if decide (target p' = Some t) then Some p' else None) y' a' /\
    awake p' = true /\ (target p' = Some t \/ target p' = None) /\ p_place y' = p_place y /\
    (awake (p_place y) = true -> l = Already /\ y' = y /\ target p' = None).
Proof.
  intros Hp Ht H. destruct y as [st en cx lk elr x0 ipi q pl].
  destruct p as [| | | | | | | | | | | | | | | | | | |]; simpl in Ht; try done; injection Ht as ->; simpl in H.
  - case_decide as Hs; simplify_eq.
    + inversion Hp; simplify_eq; simpl in *; try done. exists (Starting e ctx). rewrite decide_True by done.
      split; [constructor|]. split; [by eapply ph_call|]. split; [done|]. split; [by left|]. split; [done|].
      intros Ha. by destruct pl as [| | | | | | | | | | | | | |[]| | | | |].
    + exists a. split; [constructor; intros ->; by inversion Hp|]. simpl.
      split; [by eapply phase_quiet|]. split; [done|]. split; [by right|]. split; done.
  - simplify_eq. inversion Hp; simplify_eq; try done. simpl in *. destruct_and?. simplify_eq.
    exists (Starting e0 ctx0). rewrite decide_True by done. split; [constructor|]. split; [by eapply ph_call|].
    split; [done|]. split; [by left|]. split; [done|]. intros Ha. by destruct pl as [| | | | | | | | | | | | | |[]| | | | |].
  - simplify_eq. inversion Hp; simplify_eq; try done. simpl in *. destruct_and?. simplify_eq.
    exists (Starting e0 ctx0). rewrite decide_True by done. split; [constructor|]. split; [by eapply ph_call|].
    split; [done|]. split; [by left|]. split; [done|]. intros Ha. by destruct pl as [| | | | | | | | | | | | | |[]| | | | |].
  - simplify_eq. inversion Hp; simplify_eq; try done. simpl in *. destruct_and?. simplify_eq.
    eexists. rewrite decide_True by done. split; [constructor|]. split; [by eapply ph_call|].
    split; [done|]. split; [by left|]. split; [done|]. intros Ha. by destruct pl as [| | | | | | | | | | | | | |[]| | | | |].
  - simplify_eq. inversion Hp; simplify_eq; try done. simpl in *. destruct_and?. simplify_eq.
    eexists. split; [constructor|]. split; [|split; [done|split; [by right|split; [done|]]]].
    + apply ph_sent; simpl; try done. unfold sent. simpl.
      destruct pl as [| | | | | | | | | | | | | |[]| | | | |]; try done; rewrite ons_app, decide_True by done; lia.
    + intros Ha. by destruct pl as [| | | | | | | | | | | | | |[]| | | | |].
Qed.

(** ** The calls in progress *)

(** [o] is the call about the CPU [t], where the CPUs are at [P]. *)
Definition call_at (P : list place) (t : nat) (o : option place) : Prop :=
  match o with
  | Some p => target p = Some t /\ exists c, P !! c = Some p
  | None => forall c p, P !! c = Some p -> target p <> Some t
  end.

Definition one_call (P : list place) : Prop :=
  forall c d p q t, P !! c = Some p -> P !! d = Some q -> target p = Some t -> target q = Some t -> c = d.

Lemma serial_places s : serial s <-> one_call (p_place <$> s).
Proof.
  split.
  - intros H c d p q t Hc Hd. rewrite list_lookup_fmap in Hc, Hd.
    destruct (s !! c) as [x|] eqn:Ex; [|done]. destruct (s !! d) as [y|] eqn:Ey; [|done].
    injection Hc as <-. injection Hd as <-. by apply H.
  - intros H c d x y t Hx Hy. apply H; by rewrite list_lookup_fmap, ?Hx, ?Hy.
Qed.

Lemma call_at_same P t o c p : call_at P t o -> one_call P -> P !! c = Some p -> target p = Some t -> o = Some p.
Proof.
  intros Ho H1 Hc Ht. destruct o as [q|]; [|by destruct (Ho c p)]. destruct Ho as [Hq [d Hd]].
  assert (c = d) as -> by by apply (H1 c d p q t). congruence.
Qed.

(** The CPU [c] goes from [p] to [p']: the call about [t] afterwards. *)
Lemma call_at_move P t o c p p' :
  call_at P t o -> one_call P -> one_call (<[c := p']> P) -> P !! c = Some p ->
  (target p' = target p \/ target p = None \/ target p' = None) ->
  call_at (<[c := p']> P) t
    (if decide (target p' = Some t) then Some p' else if decide (target p = Some t) then None else o) /\
  (target p' = Some t -> target p <> Some t -> o = None).
Proof.
  intros Ho H1 H2 Hc Ht. assert (c < length P)%nat as Hlen by by apply lookup_lt_Some in Hc.
  assert ((<[c := p']> P) !! c = Some p') as Hc' by by apply list_lookup_insert_eq.
  split.
  - case_decide as D1; [by split; [|exists c]|]. case_decide as D2.
    + intros d q. rewrite list_lookup_insert. case_decide as Hd; [intros [= <-]; done|].
      intros Hq Htq. destruct Hd. split; [|done]. by apply (H1 c d p q t).
    + destruct o as [q|].
      * destruct Ho as [Hq [d Hd]]. split; [done|]. exists d. rewrite list_lookup_insert_ne; [done|]. intros <-. congruence.
      * intros d q. rewrite list_lookup_insert. case_decide as Hd; [intros [= <-]; done|]. apply Ho.
  - intros Hp' Hp. destruct o as [q|]; [|done]. destruct Ho as [Hq [d Hd]]. exfalso.
    assert (d <> c) as Hne by (intros ->; congruence).
    assert (c = d) as ->; [|done]. apply (H2 c d p' q t); [done| |done|done]. by rewrite list_lookup_insert_ne.
Qed.

(** ** The simulation *)
Definition agree (s : list pcpu) (A : nat -> spec) : Prop :=
  forall t x, s !! t = Some x -> exists o, call_at (p_place <$> s) t o /\ phase o x (A t).

Definition set_spec (t : nat) (a : spec) (A : nat -> spec) : nat -> spec := fun u => if decide (u = t) then a else A u.

Lemma places_insert (s : list pcpu) c x : p_place <$> <[c := x]> s = <[c := p_place x]> (p_place <$> s).
Proof. by rewrite list_fmap_insert. Qed.

(** A step of the CPU [c] on its own virtual CPU. *)
Lemma own_place i x l x' :
  own_step i x = Some (l, x') ->
  p_place x' = p_place x \/
  target (p_place x) = None /\ (target (p_place x') = None \/ exists t e ctx, p_place x' = OnRead t e ctx).
Proof.
  unfold own_step. destruct x as [st en cx lk elr x0 ipi q pl]. simpl.
  destruct i; destruct pl; simpl; intros H; try done;
    repeat match type of H with context [match ?e with _ => _ end] => destruct e; try done end;
    injection H as <- <-; simpl; eauto 8; by repeat case_decide; auto.
Qed.

Lemma agree_own s A c i x l x' :
  agree s A -> serial s -> serial (<[c := x']> s) -> s !! c = Some x -> own_step i x = Some (l, x') ->
  exists a', spec_step (A c) l a' /\ agree (<[c := x']> s) (set_spec c a' A).
Proof.
  intros HA H1 H2 Hx Hstep. pose proof (own_place _ _ _ _ Hstep) as Ht.
  destruct (HA c x Hx) as (oc & Hoc & Hphc).
  destruct (own_phase _ _ _ _ _ _ Hphc Hstep) as (a' & Hspec & Hph').
  exists a'. split; [done|]. intros t y Hy.
  rewrite places_insert. apply serial_places in H1, H2. rewrite places_insert in H2.
  assert ((p_place <$> s) !! c = Some (p_place x)) as Hc by by rewrite list_lookup_fmap, Hx.
  assert (exists o z, s !! t = Some z /\ call_at (p_place <$> s) t o /\ phase o z (A t) /\
    phase o y (set_spec c a' A t)) as (o & z & Hz & Ho & Hph & Hy').
  { rewrite list_lookup_insert in Hy. unfold set_spec. case_decide as Hd.
    - destruct Hd as [-> _]. injection Hy as <-. exists oc, x. by rewrite decide_True.
    - assert (t <> c) as Hne by (intros ->; destruct Hd; split; [done|]; by apply lookup_lt_Some in Hx).
      destruct (HA t y Hy) as (o & Ho & Hph). exists o, y. by rewrite decide_False. }
  destruct (call_at_move _ t o c _ (p_place x') Ho H1 H2 Hc) as [Ho' Hnone].
  { destruct Ht as [Ht|[Ht _]]; rewrite Ht; auto. }
  eexists. split; [exact Ho'|]. case_decide as D1; [|case_decide as D2; [|done]].
  - destruct Ht as [Ht|(Ht & [Hu|(u & e & ctx & Hu)])]; [|congruence|].
    + rewrite Ht in *. by rewrite <-(call_at_same (p_place <$> s) t o c (p_place x)).
    + rewrite Hnone in Hy' by congruence. rewrite Hu. by eapply phase_quiet.
  - destruct Ht as [Ht|[Ht _]]; congruence.
Qed.

(** A step of a call. *)
Lemma agree_call s A c x t y l y' p' unlock :
  agree s A -> serial s -> serial (alter (move p' unlock) c (<[t := y']> s)) ->
  s !! c = Some x -> target (p_place x) = Some t -> s !! t = Some y ->
  call_step (p_place x) y = (l, y', p', unlock) ->
  exists a', spec_step (A t) l a' /\ agree (alter (move p' unlock) c (<[t := y']> s)) (set_spec t a' A).
Proof.
  intros HA H1 H2 Hx Ht Hy Hstep. apply serial_places in H1, H2.
  assert ((p_place <$> s) !! c = Some (p_place x)) as Hc by by rewrite list_lookup_fmap, Hx.
  destruct (HA t y Hy) as (o & Ho & Hph).
  rewrite (call_at_same (p_place <$> s) t o c (p_place x)) in Hph by done.
  destruct (call_phase _ _ _ _ _ _ _ _ Hph Ht Hstep) as (a' & Hspec & Hph' & Hawake' & Ht' & Hpl & Hself).
  assert (awake (p_place x) = true) as Hawake by (destruct (p_place x); done).
  assert (p_place <$> alter (move p' unlock) c (<[t := y']> s) = <[c := p']> (p_place <$> s)) as Epl.
  { apply list_eq. intros u. rewrite list_lookup_fmap.
    destruct (decide (u = c)) as [->|Hu].
    - rewrite list_lookup_alter_eq, list_lookup_insert_eq by by apply lookup_lt_Some in Hc.
      destruct (decide (t = c)) as [->|Hne].
      + rewrite list_lookup_insert_eq by by apply lookup_lt_Some in Hx. by destruct unlock.
      + rewrite list_lookup_insert_ne, Hx by congruence. by destruct unlock.
    - rewrite list_lookup_alter_ne, (list_lookup_insert_ne (p_place <$> s)), list_lookup_fmap by congruence.
      destruct (decide (u = t)) as [->|Hut].
      + rewrite list_lookup_insert_eq, Hy by by apply lookup_lt_Some in Hy. simpl. by rewrite Hpl.
      + by rewrite list_lookup_insert_ne by congruence. }
  rewrite Epl in H2. exists a'. split; [done|]. intros u z' Hz'. rewrite Epl.
  assert (is_Some (s !! u)) as [z Hz].
  { apply lookup_lt_is_Some. apply lookup_lt_Some in Hz'. by rewrite length_alter, length_insert in Hz'. }
  destruct (HA u z Hz) as (ou & Hou & Hphu).
  destruct (call_at_move _ u ou c _ p' Hou H1 H2 Hc) as [Hou' _].
  { destruct Ht' as [->| ->]; auto. }
  eexists. split; [exact Hou'|]. unfold set_spec. destruct (decide (u = t)) as [->|Hut].
  - rewrite (decide_True _ _ Ht). destruct (decide (t = c)) as [->|Hne].
    + rewrite Hx in Hy. injection Hy as <-. destruct (Hself Hawake) as (-> & -> & Hnone).
      rewrite list_lookup_alter_eq, list_lookup_insert_eq in Hz' by by apply lookup_lt_Some in Hx.
      injection Hz' as <-. by apply phase_move.
    + rewrite list_lookup_alter_ne, list_lookup_insert_eq in Hz' by (done || by apply lookup_lt_Some in Hy).
      by injection Hz' as <-.
  - assert (target p' <> Some u) as Hp' by (destruct Ht' as [->| ->]; congruence).
    rewrite (decide_False _ _ Hp'), decide_False by congruence.
    destruct (decide (u = c)) as [->|Huc].
    + rewrite list_lookup_alter_eq, list_lookup_insert_ne, Hx in Hz' by congruence. injection Hz' as <-.
      rewrite Hx in Hz. injection Hz as <-. by apply phase_move.
    + rewrite list_lookup_alter_ne, list_lookup_insert_ne in Hz' by congruence. congruence.
Qed.

Lemma alter_lookup (f : pcpu -> pcpu) (s : list pcpu) i j :
  alter f i s !! j = (if decide (i = j) then f else id) <$> s !! j.
Proof. rewrite list_lookup_alter. case_decide; subst; by destruct (s !! j). Qed.

(** The interrupt of a message. *)
Lemma agree_ipi s A c x t :
  agree s A -> serial s -> serial (alter (put_place Guest) c (alter (put_ipi true) t s)) ->
  s !! c = Some x -> p_place x = OnIpi t ->
  agree (alter (put_place Guest) c (alter (put_ipi true) t s)) A.
Proof.
  intros HA H1 H2 Hx Hp. apply serial_places in H1, H2.
  assert ((p_place <$> s) !! c = Some (OnIpi t)) as Hc by by rewrite list_lookup_fmap, Hx, <-Hp.
  assert (p_place <$> alter (put_place Guest) c (alter (put_ipi true) t s) = <[c := Guest]> (p_place <$> s)) as Epl.
  { apply list_eq. intros u. rewrite list_lookup_fmap, !alter_lookup.
    destruct (decide (c = u)) as [<-|Hu].
    - rewrite list_lookup_insert_eq, Hx by by apply lookup_lt_Some in Hc. done.
    - rewrite list_lookup_insert_ne, list_lookup_fmap by done. case_decide; by destruct (s !! u). }
  rewrite Epl in H2. intros u z' Hz'. rewrite Epl.
  rewrite !alter_lookup in Hz'. destruct (s !! u) as [z|] eqn:Ez; [|done]. injection Hz' as <-.
  destruct (HA u z Ez) as (o & Ho & Hph).
  destruct (call_at_move _ u o c _ Guest Ho H1 H2 Hc) as [Ho' _]; [auto|].
  exists o. split; [exact Ho'|]. clear Ho'.
  assert (phase o ((if decide (t = u) then put_ipi true else id) z) (A u)) as Hph'
    by (destruct (decide (t = u)); [by apply phase_ipi|done]).
  destruct (decide (c = u)) as [<-|Hne]; [|done].
  rewrite Hx in Ez. injection Ez as <-. apply (phase_move _ _ _ Guest false); [done| |done].
  destruct (decide (t = c)); simpl; by rewrite Hp.
Qed.

Lemma agree_ext s A B : agree s A -> (forall t, A t = B t) -> agree s B.
Proof. intros HA E t x Hx. rewrite <-E. by apply HA. Qed.

Lemma set_spec_same u A v : A v = set_spec u (A u) A v.
Proof. unfold set_spec. case_decide; by subst. Qed.

Lemma agree_step s A c i t l s' :
  agree s A -> serial s -> serial s' -> psci_step c i s = Some (t, l, s') ->
  exists a, spec_step (A t) l a /\ agree s' (set_spec t a A).
Proof.
  intros HA H1 H2 H. unfold psci_step in H. destruct (s !! c) as [x|] eqn:Hx; [|done]. simpl in H.
  assert (('(l, x') ← own_step i x; Some (c, l, <[c := x']> s)) = Some (t, l, s') ->
    exists a, spec_step (A t) l a /\ agree s' (set_spec t a A)) as Hown.
  { intros Ho. destruct (own_step i x) as [[lx x']|] eqn:Es; [|done]. injection Ho as <- -> <-.
    by eapply agree_own. }
  destruct (target (p_place x)) as [u|] eqn:Et.
  - destruct i; auto. destruct (s !! u) as [y|] eqn:Hy; [|done]. simpl in H.
    destruct (call_step (p_place x) y) as [[[lx y'] p'] unlock] eqn:Es. injection H as <- -> <-.
    by eapply agree_call.
  - destruct (p_place x) eqn:Ep; auto; destruct i; auto.
    + case_decide; [by auto|]. injection H as <- <- <-. exists (A c). split; [constructor|].
      eapply agree_ext; [exact HA|]. apply set_spec_same.
    + injection H as <- <- <-. exists (A c). split; [constructor|].
      eapply agree_ext; [by eapply agree_ipi|]. apply set_spec_same.
Qed.

Lemma agree_start s : Forall at_start s -> agree s (fun t => from_option spec_of Off (s !! t)).
Proof.
  intros H t x Hx. exists None. rewrite Forall_lookup in H. split.
  - intros c p Hp. rewrite list_lookup_fmap in Hp. destruct (s !! c) as [y|] eqn:Ey; [|done].
    injection Hp as <-. by destruct (H c y Ey) as [-> _].
  - rewrite Hx. simpl. destruct (H t x Hx) as (Hp & Hs & Hq & _). unfold spec_of. case_decide.
    + apply ph_ready; rewrite ?Hp, ?Hq; done.
    + apply ph_off; rewrite ?Hp, ?Hq; try done. by destruct (p_state x).
Qed.

Lemma serial_at_start s : Forall at_start s -> serial s.
Proof.
  intros H c d x y t Hx _ Ht. rewrite Forall_lookup in H. destruct (H c x Hx) as [Hp _]. by rewrite Hp in Ht.
Qed.

Lemma serial_run_agree s0 tr s :
  serial_run s0 tr s -> Forall at_start s0 ->
  serial s /\ exists A, agree s A /\ forall t x0, s0 !! t = Some x0 -> spec_run t (spec_of x0) tr (A t).
Proof.
  induction 1 as [|tr s c i u l s' Hrun IH Hstep Hser]; intros H0.
  - split; [by apply serial_at_start|]. eexists. split; [by apply agree_start|].
    intros t x0 Hx. cbv beta. rewrite Hx. constructor.
  - destruct (IH H0) as (Hs & A & HA & Htr). split; [done|].
    destruct (agree_step _ _ _ _ _ _ _ HA Hs Hser Hstep) as (a & Ha & HA').
    exists (set_spec u a A). split; [done|]. intros t x0 Hx. unfold set_spec. case_decide as D.
    + subst. eapply spec_own; eauto.
    + apply spec_other; auto.
Qed.

(** ** Concrete runs *)

(** The run of a list of steps. *)
Definition play (ins : list (nat * input)) (s : list pcpu) : option (list (nat * label) * list pcpu) :=
  foldl (fun r '(c, i) =>
    '(tr, s) ← r; '(t, l, s') ← psci_step c i s; Some (tr ++ [(t, l)], s')) (Some ([], s)) ins.

(** The same, where each state is serial. *)
Definition play_serial (ins : list (nat * input)) (s : list pcpu) : option (list (nat * label) * list pcpu) :=
  foldl (fun r '(c, i) =>
    '(tr, s) ← r; '(t, l, s') ← psci_step c i s;
    if decide (NoDup (omap (fun x => target (p_place x)) s')) then Some (tr ++ [(t, l)], s') else None) (Some ([], s)) ins.

Lemma play_run ins s tr s' : play ins s = Some (tr, s') -> psci_run s tr s'.
Proof.
  revert tr s'. unfold play. induction ins as [|[c i] ins IH] using rev_ind; intros tr s' H.
  - injection H as <- <-. constructor.
  - rewrite foldl_snoc in H. apply bind_Some in H as ([tr1 s1] & H1 & H).
    apply bind_Some in H as ([[t l] s2] & H2 & H). injection H as <- <-. eapply run_step; eauto.
Qed.

Lemma no_dup_unique {A B} (f : A -> option B) l i j x y b :
  NoDup (omap f l) -> l !! i = Some x -> l !! j = Some y -> f x = Some b -> f y = Some b -> i = j.
Proof.
  revert i j. induction l as [|z l IH]; intros [|i] [|j] Hn Hi Hj Hx Hy; simpl in *; try done; simplify_eq.
  - rewrite Hx in Hn. apply NoDup_cons in Hn as [[] _]. apply list_elem_of_omap. eauto using list_elem_of_lookup_2.
  - rewrite Hy in Hn. apply NoDup_cons in Hn as [[] _]. apply list_elem_of_omap. eauto using list_elem_of_lookup_2.
  - f_equal. eapply IH; eauto. destruct (f z); [by apply NoDup_cons in Hn as [_ Hn]|done].
Qed.

Lemma play_serial_run ins s tr s' : play_serial ins s = Some (tr, s') -> serial_run s tr s'.
Proof.
  revert tr s'. unfold play_serial. induction ins as [|[c i] ins IH] using rev_ind; intros tr s' H.
  - injection H as <- <-. constructor.
  - rewrite foldl_snoc in H. apply bind_Some in H as ([tr1 s1] & H1 & H).
    apply bind_Some in H as ([[t l] s2] & H2 & H). case_decide as Hn; [|done]. injection H as <- <-.
    eapply serial_step; eauto. intros ? ? ? ? ? ? ? ? ?. eapply no_dup_unique; eauto.
Qed.

Definition new_pcpu (st : psci_state) (e x0 : Z) : pcpu := mk_pcpu st 0 0 false e x0 false [] RunCheck.

(** The virtual CPU 0 is on; 1 starts and calls [CPU_ON] for 2 as 0 does. *)
Definition demo_cpus : list pcpu := [new_pcpu ON 10 0; new_pcpu ON 20 0; new_pcpu OFF 0 0].

Definition steps (c n : nat) : list (nat * input) := repeat (c, Go) n.
Definition demo_on : list (nat * input) :=
  steps 0 1 ++ steps 1 1 ++ steps 2 2 ++ [(0, CallOn 2 100 7)%nat] ++ steps 0 6 ++
  [(1, CallOn 2 200 8)%nat] ++ steps 2 9 ++ steps 1 1.

Definition demo_race : list (nat * input) :=
  steps 0 1 ++ steps 1 1 ++ steps 2 2 ++ [(0, CallOn 2 100 7)%nat; (1, CallOn 2 200 8)%nat] ++
  steps 1 1 ++ steps 0 6 ++ steps 2 9 ++ steps 1 5 ++ [(2, Irq)%nat] ++ steps 2 6.

(** ** The starts of a virtual CPU *)

(** The labels about [t] that [k] picks. *)
Fixpoint count (t : nat) (k : label -> bool) (tr : list (nat * label)) : nat :=
  match tr with
  | [] => 0
  | (u, l) :: tr' => ((if decide (u = t) then Nat.b2n (k l) else 0) + count t k tr')%nat
  end.
Definition accepts (l : label) : bool := match l with Accept _ _ => true | _ => false end.
Definition offs (l : label) : bool := match l with GoOff => true | _ => false end.
Definition is_off (a : spec) : bool := match a with Off => true | _ => false end.

Lemma count_app t k tr u l :
  count t k (tr ++ [(u, l)]) = (count t k tr + if decide (u = t) then Nat.b2n (k l) else 0)%nat.
Proof. induction tr as [|[v m] tr IH]; simpl; [lia|rewrite IH; lia]. Qed.

Lemma spec_run_starts t a tr b :
  spec_run t a tr b ->
  (count t accepts tr + Nat.b2n (is_off b) = count t offs tr + Nat.b2n (is_off a))%nat.
Proof.
  induction 1 as [|tr b u l Hr IH Hne|tr b l b' Hr IH Hs]; [done| |].
  - rewrite !count_app, !decide_False by done. lia.
  - rewrite !count_app, !decide_True by done. destruct Hs; simpl in *; lia.
Qed.

(** ** The properties *)

(** C5. When no two calls about one virtual CPU overlap, what happens to each virtual CPU is
    what its automaton allows: it is started by one call only, enters the entry point with
    the context identifier of that call, a call that finds it started changes nothing, and
    after a suspension it goes on at the address of the suspension call. A guest that runs
    is on. *)
Theorem psci_refines s0 tr s t x0 x :
  serial_run s0 tr s -> Forall at_start s0 -> s0 !! t = Some x0 -> s !! t = Some x ->
  exists a, spec_run t (spec_of x0) tr a /\ (p_place x = Guest -> a = On /\ p_state x = ON) /\
    (a = Off -> p_state x = OFF /\ asleep (p_place x) = true).
Proof.
  intros Hrun H0 Hx0 Hx. destruct (serial_run_agree _ _ _ Hrun H0) as (_ & A & HA & Htr).
  exists (A t). split; [by apply Htr|]. destruct (HA t x Hx) as (o & _ & Hp). split.
  - intros Hg. destruct (phase_awake _ _ _ Hp) as (? & _ & ?); [by rewrite Hg|done].
  - intros Ha. rewrite Ha in Hp. by inversion Hp.
Qed.


Lemma psci_refines_witness :
  exists tr s x, play_serial demo_on demo_cpus = Some (tr, s) /\ s !! 2%nat = Some x /\ p_place x = Guest /\
    exists a, spec_run 2 Off tr a /\ (p_place x = Guest -> a = On /\ p_state x = ON) /\
      (a = Off -> p_state x = OFF /\ asleep (p_place x) = true).
Proof.
  destruct (play_serial demo_on demo_cpus) as [[tr s]|] eqn:E; [|vm_compute in E; discriminate].
  destruct (s !! 2%nat) as [x|] eqn:Ex; [|vm_compute in E; injection E as <- <-; discriminate].
  exists tr, s, x. split; [done|]. split; [done|]. split.
  - vm_compute in E. injection E as <- <-. by injection Ex as <-.
  - apply (psci_refines demo_cpus tr s 2%nat (new_pcpu OFF 0 0) x); [by apply (play_serial_run demo_on)| |done|done].
    repeat constructor; done.
Defined.

(** Two calls that overlap can both start a virtual CPU, as each holds only the lock of its
    own caller: the second one resets the guest that the first one has started. *)
Theorem psci_overlapping_calls :
  exists s0 tr s x,
    Forall at_start s0 /\ psci_run s0 tr s /\ s !! 2%nat = Some x /\
    count 2 accepts tr = 2%nat /\ count 2 offs tr = 0%nat /\
    (2%nat, EnterGuest 100 7) ∈ tr /\ p_place x = Guest /\ p_elr x = 200 /\ p_x0 x = 8 /\
    (forall a b, ~ spec_run 2 a tr b).
Proof.
  destruct (play demo_race demo_cpus) as [[tr s]|] eqn:E; [|vm_compute in E; discriminate].
  exists demo_cpus, tr, s. pose proof (play_run _ _ _ _ E) as Hrun.
  vm_compute in E. injection E as <- <-. eexists. split; [repeat constructor; done|]. split; [exact Hrun|].
  split; [reflexivity|]. split; [done|]. split; [done|]. split; [|split; [done|split; [done|split; [done|]]]].
  - apply list_elem_of_In. simpl. tauto.
  - intros a b H. apply spec_run_starts in H. destruct a, b; simpl in H; lia.
Qed.
